(* ===== verification/_CoqProject ===== *)
-Q . S2P
Prelude.v
StdNum.v
Json.v
JsonTree.v
JsonText.v
JsonRead.v
JsonGrammar.v
JsonProps.v
JsonEdit.v
Bytes.v
ByteBuf.v
MsgBuf.v
TcpSock.v
Frames.v
NetConn.v
Kcp.v
KcpWire.v
KcpRecv.v
KcpSend.v
KcpNet.v
KcpProps.v
KcpTrace.v
KcpFlow.v
KcpLive.v
KcpConv.v
KcpSess.v
KcpSessProps.v
KcpSessNet.v
Base64.v
Sha1.v
WebSock.v
WebSockProps.v
Llhttp.v
LlhttpRun.v
LlhttpProps.v
LlhttpCut.v
LlhttpData.v
LlhttpMsg.v
Heap.v
HeapRep.v
HeapOps.v
HeapQueue.v
Timer.v
Url.v
UrlProps.v
HttpConn.v
UrlReuse.v
HttpConnProps.v
ThreadPool.v
ThreadPoolProps.v
XLog.v
XLogProps.v
UTimer.v
ProtoLua.v
ProtoLuaProps.v
ProtoLuaTrip.v
ProtoLuaCreate.v
Tools.v
Sql.v
SqlProps.v
Redis.v
Mysql.v
HttpParam.v
CsvParser.v
Files.v
Pool.v
Lifecycle.v
LifecycleProps.v
Client.v
HttpPool.v
