(* ===== verification/Prelude.v ===== *)
(** * Verification of lua-server

    lua-server is a C++ library for game servers: an event loop (libuv), TCP,
    KCP-over-UDP, WebSocket and HTTP connections, timers, a JSON library, a
    pool of database threads, and Lua bindings.  This library models the parts
    of it that are not calls of other people's code, from the sources under
    src/src/, and proves what they are for.  Where the code does not do what it
    is for, the theorem says what it does.

    ** How the program is put together

    libuv accepts a connection (TcpServer), reads into the connection's
    MessageBuffer and calls the virtual [on_msgbuffer] of the kind of
    connection: NetConnect cuts packets with a binary head, WebSocketConnect
    the frames of RFC 6455 after a handshake (SHA1, Base64), HttpConnect the
    requests (llhttp, ParseUrl, HttpParam).  Packets are ByteBuffers.  What the
    application sends goes through the send queue of TcpSocket.  KcpServer and
    KcpClient run the KCP protocol (ikcp) over UDP datagrams, by session.
    Timers sit in a heap; tasks for the databases go through a queue to worker
    threads and come back to the main thread.  Objects may come from pools.

    ** Conventions

    An integer of the code is a [Z], and the operations that can leave the
    range of its type write the conversion out ([u32], [i32], ... below).
    Bytes and characters are [Z] in 0 .. 255, memory and strings lists of them.
    [None] (in [option]) and [Fault] (in [result]) are what C++ leaves
    undefined, an assertion or an exception, as each file says; [OutOfFuel] is
    a loop that has not ended.  Code outside src/ (libuv, the clock, malloc,
    hiredis, the MySQL client, the concurrent queue) and what the application
    does in its callbacks are arguments, type classes with laws, or events of
    a history.  Pointers are modelled where the code's behaviour hangs on
    them: the heap's nodes (Heap), JSON objects (Json), sessions (KcpSess),
    pooled objects (Pool), connections (Lifecycle).

    ** The files

    Shared: Prelude (words, bytes, tactics, loops with fuel), StdNum (number
    conversions of the C++ library), Bytes (object representations).

    JSON (utils/Json.{h,cpp}, JsonReader.{h,cpp}): Json has the objects and the
    reader over a memory; JsonTree the tree a pointer stands for; JsonText,
    JsonRead and JsonGrammar what the reader reads; JsonEdit what calls of
    methods do.  The theorems: the reader ends on every text, without misuse
    of memory, and without leak when it returns and no key is repeated
    (json_reader_safe), accepts exactly a grammar (json_reader_grammar), reads
    back what [write] wrote of a tree without null pointers, empty strings and
    the like (json_roundtrip), and a method called through a pointer, where the
    call is defined, edits the tree at its place (json_edit).

    Packets and TCP (common/ByteBuffer, network/BasePacket, MessageBuffer.h,
    TcpSocket, NetPacket, NetConnect): ByteBuf, MsgBuf, TcpSock, and Frames,
    an interface for byte streams cut into frames, which NetConn and WebSock
    implement.  The theorems: every operation within its contract keeps a
    buffer well formed (exec_preserves_wf), the send queue keeps order, loses
    nothing and does not stall on packets that have bytes (send_queue_fifo),
    the reader of packets refines the decoding of the stream for any cut of it
    into reads (framing_refinement), messages arrive as sent, a last one
    without body only with the bytes after it (framing_end_to_end,
    trailing_empty_message_withheld), and a head with an oversize length makes
    the server loop for ever (oversize_head_hangs).

    KCP (network/ikcp.{h,cpp}): Kcp has the control block and every call;
    KcpWire, KcpRecv, KcpSend, KcpProps and KcpConv its parts; KcpNet two
    endpoints over a network that loses, repeats and reorders: what is
    received is a prefix of what was sent (kcp_reliable), and no buffer is
    overrun (kcp_memory_safe), for MTUs from 50 to 1431655741: from there on
    the buffer's size wraps (setmtu_wraps).  KcpTrace says which segments a flush sends and
    what those of a datagram do, KcpFlow has the invariant of what is not yet
    delivered, and KcpLive shows that whatever was lost, the rest can still be
    delivered (kcp_delivers).  KcpSess (KcpSession, KcpServer, KcpClient,
    KcpEvent, UdpPacket, UdpServer, UdpClient) puts sessions on top;
    KcpSessProps and KcpSessNet show that the sessions are used safely
    (kcp_sessions_safe) and deliver what the peer sent, if the packet that sets
    one up comes once (kcp_session_reliable).

    WebSocket and HTTP: Base64 and Sha1 against reference definitions, WebSock
    and WebSockProps (frames, masks, handshake).  Llhttp and LlhttpRun are the
    parser of utils/llhttp.c, api.c and http.c block by block; LlhttpProps
    shows that it never faults and always stops (llhttp_calls_safe), LlhttpCut
    that the cut of the stream does not matter (llhttp_chunking), LlhttpData
    that the user's data does not, LlhttpMsg follows a request through it
    (llhttp_post_request).  Url, UrlProps and HttpParam find paths and
    parameters, UrlReuse is about a URL object used again; HttpConn and
    HttpConnProps are HttpParser, HttpConnect and HttpServer: a request whose
    head comes in one read is delivered once (http_request_delivered).

    Connections as objects: Pool (common/Objectpool.h, CommonPool.h), with the
    interface [Allocator] that a pool and new/delete both provide; Lifecycle
    and LifecycleProps (network/TcpServer.cpp, TcpSocket.cpp and the ends of
    its subclasses), proved against that interface: with the handshakes and
    close frames of WebSocket, no handle is closed twice when only the peer and
    the class close (lifecycle_safe), but a refused handshake is reported twice
    (ws_refused_reported_twice), and an HTTP client can stop the server
    (http_close_aborts); Client (TcpClient, NetClient), which puts the attempts
    to connect under it; HttpPool: a connection used again serves a request
    whose URL has a path as a new one does (http_pooled_connection_serves).

    Timers: Heap (common/Heap.cpp), HeapRep, HeapOps and HeapQueue show that
    the linked heap is a priority queue (heap_priority_queue); Timer
    (common/Timer.cpp) that timers run in order and never corrupt it as long as
    the clock reads more than 0 and less than 2^31 (timer_update_order,
    timer_history_safe; timer_clock_zero is what happens at 0); UTimer
    (common/UTimer.h, EventLoop) is about those of libuv.

    Threads and databases: ThreadPool and ThreadPoolProps (common/ThreadPool,
    TQueue.h, db/DBThreadPool) as an interleaving of small steps, over the
    contract of the queue; Sql and SqlProps (db/SqlPrepare, SqlResultSet), over
    laws of the client library for the calls that succeed: every call may fail,
    and a failed mysql_stmt_bind_result is taken for a success (unbound_crashes);
    Redis (db/RedisCommand, RedisResult, DB_Interface_redis.cpp); Mysql
    (db/MysqlResult, DB_Interface_mysql, and the thread of DBThreadPool.cpp
    with either driver).

    Log: XLog and XLogProps (common/XLog, SpinLock.h, createDirectory of
    XFile.cpp), any number of threads in [writeFile], interleaved: two are never
    inside the lock, lines are whole and in the order of each thread
    (log_lines_kept), and the calls can all end (log_finishes), as long as no
    call of fopen fails; a rotation that fails makes another thread write to no
    file (log_rotation_crashes).  Files
    has LogStream and the rest of XFile.cpp.

    Lua and protocol buffers (protolua/): ProtoLua, over type classes for Lua
    and for the reflection of Google's library; ProtoLuaProps and ProtoLuaTrip
    show that a table that conforms to a type, nested no deeper than the 20
    slots of the Lua stack that the code may push to, comes back from the wire
    (proto_roundtrip; deep_values_overflow is a deeper one), ProtoLuaCreate on which types [proto_create] ends
    (proto_create_ends), and has an instance of the library.

    Helpers: Tools (common/Tools.cpp, XTime.cpp), CsvParser.

    ** Bounds and fuel

    The loops over a receive buffer take fuel as an argument; the theorems give
    the least that is enough, or state that none is.  The rest is computed:
    the parser of HTTP gets 24 steps for each byte and one more (every block
    that does not advance leads to one that does within fewer: LlhttpProps
    decides this over the tables of labels); the JSON reader twice the length
    of the text, its writer and destructors the number of objects in memory;
    [heap] walks 32 levels, the width of a node count; [binarySearch] the
    length of the array, [splite] and the CSV cells that of the text; the loop
    of [Timer::update] its limit of 10.  The protocol KCP is bounded by its own
    integers: messages of at most 127 fragments, conversations of fewer than
    2^31 segments.

    ** Not modelled

    Calls of other libraries without logic of their own: listening and the
    addresses of sockets, XAssert, the conversions of character sets and
    the clocks in Tools and XTime. common/concurrentqueue is vendored and
    known by its contract. src/script/ are bindings (sol2) without logic.
    The import of .proto files (parse.cpp, but for the order of fields) is
    a call of Google's library. Lines 1 to 7513 of llhttp.c are its strict
    variant, which the build does not compile, and of http_parser.cpp only
    the URL functions are called. Floating-point values are their bits;
    timing other than the clock's readings, and failures of malloc, are
    left out. *)
From Stdlib Require Export ZArith Lia Bool.
From stdpp Require Export base list option numbers.

#[global] Open Scope Z_scope.

(** * Machine words

    The C++ code computes on fixed-width integers.  A value of an unsigned
    [w]-bit type is the [Z] in [0 .. 2^w - 1]; a value of a signed one is the
    [Z] in [-2^(w-1) .. 2^(w-1) - 1].  [wrap] and [sext] are the conversions
    to those types (modular, the two's complement ones of every supported
    platform). *)
Definition wrap (w : Z) (x : Z) : Z := x mod 2 ^ w.

Definition sext (w : Z) (x : Z) : Z :=
  let y := x mod 2 ^ w in
  if y <? 2 ^ (w - 1) then y else y - 2 ^ w.

Abbreviation u8 := (wrap 8).
Abbreviation u16 := (wrap 16).
Abbreviation u32 := (wrap 32).
Abbreviation u64 := (wrap 64).
Abbreviation i8 := (sext 8).
Abbreviation i16 := (sext 16).
Abbreviation i32 := (sext 32).
Abbreviation i64 := (sext 64).

(** [in_u w x] / [in_i w x]: [x] is a value of the unsigned / signed type. *)
Definition in_u (w x : Z) : Prop := 0 <= x < 2 ^ w.
Definition in_i (w x : Z) : Prop := - 2 ^ (w - 1) <= x < 2 ^ (w - 1).

(** * Bytes *)
Definition byte_ok (b : Z) : Prop := 0 <= b < 256.
Definition bytes_ok (l : list Z) : Prop := Forall byte_ok l.

(** * Tactics *)

(** Case analysis on every boolean comparison of the goal or a hypothesis,
    leaving the arithmetic facts in the context. *)
Ltac bool_arith :=
  repeat match goal with
  | H : _ && _ = true |- _ => apply andb_true_iff in H as [? ?]
  | H : _ || _ = false |- _ => apply orb_false_iff in H as [? ?]
  | H : negb _ = true |- _ => apply negb_true_iff in H
  | H : negb _ = false |- _ => apply negb_false_iff in H
  | H : (_ <? _) = true |- _ => apply Z.ltb_lt in H
  | H : (_ <? _) = false |- _ => apply Z.ltb_ge in H
  | H : (_ <=? _) = true |- _ => apply Z.leb_le in H
  | H : (_ <=? _) = false |- _ => apply Z.leb_gt in H
  | H : (_ =? _) = true |- _ => apply Z.eqb_eq in H
  | H : (_ =? _) = false |- _ => apply Z.eqb_neq in H
  | H : (_ <? _)%nat = true |- _ => apply Nat.ltb_lt in H
  | H : (_ <? _)%nat = false |- _ => apply Nat.ltb_ge in H
  | H : (_ <=? _)%nat = true |- _ => apply Nat.leb_le in H
  | H : (_ <=? _)%nat = false |- _ => apply Nat.leb_gt in H
  | H : (_ =? _)%nat = true |- _ => apply Nat.eqb_eq in H
  | H : (_ =? _)%nat = false |- _ => apply Nat.eqb_neq in H
  end.

(** Destruct the scrutinee of the first [if]/[match] of the goal. *)
Ltac split_if :=
  match goal with
  | |- context [if ?b then _ else _] =>
      let E := fresh "E" in destruct b eqn:E
  end.
Ltac split_if_in H :=
  match type of H with
  | context [if ?b then _ else _] =>
      let E := fresh "E" in destruct b eqn:E
  end.

(** [bool_case a b]: decide an arithmetic boolean test and simplify it. *)
Ltac decide_bool :=
  repeat match goal with
  | |- context [?a <? ?b] =>
      first [ replace (a <? b) with true by (symmetry; apply Z.ltb_lt; lia)
            | replace (a <? b) with false by (symmetry; apply Z.ltb_ge; lia) ]
  | |- context [?a <=? ?b] =>
      first [ replace (a <=? b) with true by (symmetry; apply Z.leb_le; lia)
            | replace (a <=? b) with false by (symmetry; apply Z.leb_gt; lia) ]
  | |- context [?a =? ?b] =>
      first [ replace (a =? b) with true by (symmetry; apply Z.eqb_eq; lia)
            | replace (a =? b) with false by (symmetry; apply Z.eqb_neq; lia) ]
  end.

(** [lia] with division and remainder by constants. *)
Ltac divlia := Z.to_euclidean_division_equations; lia.

(** * Word lemmas *)
Lemma wrap_range w x : 0 <= w -> 0 <= wrap w x < 2 ^ w.
Proof. intros. apply Z.mod_pos_bound. lia. Qed.

Lemma wrap_small w x : in_u w x -> wrap w x = x.
Proof. apply Z.mod_small. Qed.

Lemma wrap_idemp w x : wrap w (wrap w x) = wrap w x.
Proof. apply Zmod_mod. Qed.

Lemma wrap_add_l w x y : wrap w (wrap w x + y) = wrap w (x + y).
Proof. apply Zplus_mod_idemp_l. Qed.

Lemma wrap_add_r w x y : wrap w (x + wrap w y) = wrap w (x + y).
Proof. apply Zplus_mod_idemp_r. Qed.

Lemma wrap_sub_l w x y : wrap w (wrap w x - y) = wrap w (x - y).
Proof. apply Zminus_mod_idemp_l. Qed.

Lemma wrap_sub_r w x y : wrap w (x - wrap w y) = wrap w (x - y).
Proof. apply Zminus_mod_idemp_r. Qed.

Lemma sext_range w x : 0 < w -> in_i w (sext w x).
Proof.
  intros Hw. unfold sext, in_i.
  assert (2 ^ w = 2 * 2 ^ (w - 1)) as Hp.
  { rewrite <- Z.pow_succ_r by lia. f_equal. lia. }
  assert (0 < 2 ^ (w - 1)) by (apply Z.pow_pos_nonneg; lia).
  pose proof (Z.mod_pos_bound x (2 ^ w)).
  split_if; bool_arith; lia.
Qed.

Lemma sext_small w x : 0 < w -> in_i w x -> sext w x = x.
Proof.
  intros Hw Hx. unfold sext, in_i in *.
  assert (2 ^ w = 2 * 2 ^ (w - 1)) as Hp.
  { rewrite <- Z.pow_succ_r by lia. f_equal. lia. }
  destruct (Z_lt_le_dec x 0).
  - assert (x mod 2 ^ w = x + 2 ^ w) as ->.
    { symmetry. apply Z.mod_unique with (-1); lia. }
    split_if; bool_arith; lia.
  - rewrite Z.mod_small by lia. split_if; bool_arith; lia.
Qed.

Lemma sext_wrap w x : sext w (wrap w x) = sext w x.
Proof. unfold sext, wrap. by rewrite Zmod_mod. Qed.

Lemma wrap_sext w x : 0 < w -> wrap w (sext w x) = wrap w x.
Proof.
  intros Hw. unfold sext, wrap. split_if; [by rewrite Zmod_mod|].
  rewrite <- (Z.mul_1_l (2 ^ w)) at 2.
  rewrite <- Z.add_opp_r, <- Z.mul_opp_l, Z_mod_plus_full. apply Zmod_mod.
Qed.

Lemma sext_congr w x y : wrap w x = wrap w y -> sext w x = sext w y.
Proof. intros E. by rewrite <- (sext_wrap w x), E, sext_wrap. Qed.

Lemma sext_add_l w x y : 0 < w -> sext w (sext w x + y) = sext w (x + y).
Proof.
  intros. apply sext_congr. by rewrite <- wrap_add_l, wrap_sext, wrap_add_l.
Qed.

(** * List lemmas *)
Lemma take_app_exact {A} (l k : list A) : take (length l) (l ++ k) = l.
Proof. by rewrite take_app_length. Qed.

Lemma drop_app_exact {A} (l k : list A) : drop (length l) (l ++ k) = k.
Proof. by rewrite drop_app_length. Qed.

Lemma bytes_ok_app l k : bytes_ok (l ++ k) <-> bytes_ok l /\ bytes_ok k.
Proof. apply Forall_app. Qed.

Lemma bytes_ok_take n l : bytes_ok l -> bytes_ok (take n l).
Proof. apply Forall_take. Qed.

Lemma bytes_ok_drop n l : bytes_ok l -> bytes_ok (drop n l).
Proof. apply Forall_drop. Qed.

Create HintDb words.
Create Rewrite HintDb words.
#[export] Hint Resolve wrap_range sext_range : words.
#[export] Hint Rewrite wrap_idemp wrap_add_l wrap_add_r wrap_sub_l wrap_sub_r
  sext_wrap : words.
#[global] Arguments Nat.div : simpl never.
#[global] Arguments Nat.modulo : simpl never.
#[global] Arguments Z.pow : simpl never.
