(* ===== verification/StdNum.v ===== *)
(** * StdNum: the number conversions of the C++ library

    [std::to_string] and [std::stoi]/[std::stof] as src/utils/Json.cpp and
    src/utils/JsonReader.cpp use them.  A C string is the list of its bytes
    up to the terminator.  A [float] is the 32-bit word of its IEEE 754
    binary32 encoding.  A conversion that throws is [None].  Here: an [int]
    reads back as written, and so does a [float] of at most six decimals. *)
From S2P Require Import Prelude.

Module StdNum.

(** ** Decimal digits *)
Definition isdigit (c : Z) : bool := (48 <=? c) && (c <=? 57).
Definition isspace (c : Z) : bool := (c =? 32) || ((9 <=? c) && (c <=? 13)).

Fixpoint digits_aux (fuel : nat) (n : Z) (acc : list Z) : list Z :=
  match fuel with
  | O => acc
  | S f =>
      let acc' := 48 + n mod 10 :: acc in
      if n <? 10 then acc' else digits_aux f (n / 10) acc'
  end.

(** The decimal digits of [n >= 0], without leading zeros. *)
Definition dec (n : Z) : list Z := digits_aux (S (Z.to_nat (Z.log2 n))) n [].

(** The last [k] decimal digits of [n]. *)
Fixpoint dec_fixed (k : nat) (n : Z) : list Z :=
  match k with
  | O => []
  | S k' => dec_fixed k' (n / 10) ++ [48 + n mod 10]
  end.

Definition dec_val (l : list Z) : Z := fold_left (fun a c => a * 10 + (c - 48)) l 0.

(** The longest prefix whose bytes satisfy [p], and the rest. *)
Fixpoint span (p : Z -> bool) (l : list Z) : list Z * list Z :=
  match l with
  | c :: l' => if p c then let '(a, b) := span p l' in (c :: a, b) else ([], l)
  | [] => ([], [])
  end.

(** ** int *)
Definition to_string_int (v : Z) : list Z := if v <? 0 then 45 :: dec (- v) else dec v.

(** The sign of a number and what follows it. *)
Definition sign (l : list Z) : bool * list Z :=
  match l with
  | c :: l' => if c =? 45 then (true, l') else if c =? 43 then (false, l') else (false, l)
  | [] => (false, [])
  end.

(** [std::stoi] throws [invalid_argument] without digits and [out_of_range]
    when the value is no [int]; text after the digits is ignored. *)
Definition stoi (s : list Z) : option Z :=
  let '(neg, l) := sign (snd (span isspace s)) in
  match span isdigit l with
  | ([], _) => None
  | (ds, _) =>
      let v := if neg then - dec_val ds else dec_val ds in
      if (-2147483648 <=? v) && (v <=? 2147483647) then Some v else None
  end.

(** ** float *)

(** [n / d] rounded to an integer, ties to even. *)
Definition rne (n d : Z) : Z :=
  let q := n / d in
  let r := n mod d in
  if 2 * r <? d then q else if d <? 2 * r then q + 1 else if Z.even q then q else q + 1.

(** The fraction [n / d] divided by [2^e]. *)
Definition scale2 (n d e : Z) : Z * Z := if 0 <=? e then (n, d * 2 ^ e) else (n * 2 ^ (- e), d).

(** The largest [k] with [2^k <= n / d]. *)
Definition flog2 (n d : Z) : Z :=
  let k := Z.log2 n - Z.log2 d in
  let '(a, b) := scale2 n d k in
  if a <? b then k - 1 else k.

(** The float nearest to [n / d >= 0], without its sign; [None] when strtof
    sets [ERANGE]: on overflow, and when a nonzero result is inexact and
    below the normal range. *)
Definition round32 (n d : Z) : option Z :=
  if n =? 0 then Some 0 else
  let k := flog2 n d in
  let e := Z.max (k - 23) (-149) in
  let '(a, b) := scale2 n d e in
  let bits := (e + 149) * 2 ^ 23 + rne a b in
  let '(a', b') := scale2 n d (k - 23) in
  let tiny := (k <? -126) && negb ((k =? -127) && (rne a' b' =? 2 ^ 24)) in
  if 2139095040 <=? bits then None
  else if tiny && negb (a mod b =? 0) then None
  else Some bits.

(** The exponent part of a number, 0 when there is none. *)
Definition exponent (l : list Z) : Z :=
  match l with
  | c :: l' =>
      if (c =? 101) || (c =? 69) then
        let '(neg, l'') := sign l' in
        let x := dec_val (fst (span isdigit l'')) in
        if neg then - x else x
      else 0
  | [] => 0
  end.

(** [std::stof] on a decimal number: digits with a point and an exponent
    part; the reader calls it on such text only (hexadecimal floats, [inf]
    and [nan] never reach it). *)
Definition stof (s : list Z) : option Z :=
  let '(neg, l) := sign (snd (span isspace s)) in
  let '(ip, l1) := span isdigit l in
  let '(fp, l2) :=
    match l1 with
    | c :: l1' => if c =? 46 then span isdigit l1' else ([], l1)
    | [] => ([], [])
    end in
  match ip ++ fp with
  | [] => None
  | ds =>
      let x := exponent l2 - Z.of_nat (length fp) in
      let m := dec_val ds in
      match (if 0 <=? x then round32 (m * 10 ^ x) 1 else round32 m (10 ^ (- x))) with
      | Some w => Some (if neg then 2147483648 + w else w)
      | None => None
      end
  end.

Definition fsign (w : Z) : bool := Z.testbit w 31.
Definition fexp (w : Z) : Z := (w / 2 ^ 23) mod 2 ^ 8.
Definition fman (w : Z) : Z := w mod 2 ^ 23.
(** A finite float is [fint w * 2 ^ fpow w]. *)
Definition fint (w : Z) : Z := if fexp w =? 0 then fman w else 2 ^ 23 + fman w.
Definition fpow (w : Z) : Z := if fexp w =? 0 then -149 else fexp w - 150.

(** Millionths of the absolute value, rounded as "%f" does. *)
Definition micros (w : Z) : Z :=
  if 0 <=? fpow w then fint w * 2 ^ fpow w * 1000000 else rne (fint w * 1000000) (2 ^ (- fpow w)).

Definition to_string_float (w : Z) : list Z :=
  (if fsign w then [45] else []) ++
  (if fexp w =? 255 then (if fman w =? 0 then [105; 110; 102] else [110; 97; 110])
   else dec (micros w / 1000000) ++ 46 :: dec_fixed 6 (micros w)).

(** The value of [w] is a whole number of millionths. *)
Definition exact6 (w : Z) : bool :=
  (0 <=? w) && (w <? 2 ^ 32) && negb (fexp w =? 255) &&
  ((0 <=? fpow w) || ((fint w * 1000000) mod 2 ^ (- fpow w) =? 0)).

Example to_string_float_1 : to_string_float 1069547520 = [49; 46; 53; 48; 48; 48; 48; 48].
Proof. vm_compute. reflexivity. Qed.
Example stof_third : stof [48;46;51;51;51;51;51;51;51;51;51] = Some 1051372203.
Proof. vm_compute. reflexivity. Qed.
Example stof_big : stof [49;46;48;101;51;57] = None /\ stof [51;46;52;101;51;56] = Some 2139081118.
Proof. vm_compute. done. Qed.
Example stof_small : stof [49;46;48;101;45;52;53] = None /\ stof [45;48;46;48] = Some 2147483648.
Proof. vm_compute. done. Qed.

(** ** Digits read back *)

Definition digits_ok (l : list Z) : Prop := Forall (fun c => isdigit c = true) l.

(** The text starts with no byte that satisfies [p]. *)
Definition stops (p : Z -> bool) (l : list Z) : Prop := forall c, head l = Some c -> p c = false.

Lemma isdigit_digit d : 0 <= d < 10 -> isdigit (48 + d) = true.
Proof. intros. unfold isdigit. rewrite andb_true_iff, !Z.leb_le. lia. Qed.

Lemma span_app p l r : Forall (fun c => p c = true) l -> stops p r -> span p (l ++ r) = (l, r).
Proof.
  intros Hl Hr. induction Hl as [|c l Hc Hl IH]; cbn [app span].
  - destruct r as [|c r]; [done|]. cbn. by rewrite (Hr c).
  - by rewrite Hc, IH.
Qed.

Lemma span_stops p l : stops p (snd (span p l)).
Proof.
  induction l as [|c l IH]; intros x; cbn [span]; [done|].
  destruct (p c) eqn:E; [destruct (span p l); apply IH|]. cbn. by intros [= <-].
Qed.

Lemma span_parts p l : l = fst (span p l) ++ snd (span p l) /\
  Forall (fun c => p c = true) (fst (span p l)).
Proof.
  induction l as [|c l IH]; cbn [span]; [done|].
  destruct (p c) eqn:E; [|done]. destruct (span p l) as [a b]. cbn in *.
  destruct IH as [-> IH]. split; [done|by constructor].
Qed.

Lemma dec_val_acc l a : fold_left (fun a c => a * 10 + (c - 48)) l a =
  a * 10 ^ Z.of_nat (length l) + dec_val l.
Proof.
  revert a. induction l as [|c l IH]; intros a; [cbn; lia|].
  unfold dec_val. cbn [fold_left length]. rewrite IH, (IH (0 * 10 + (c - 48))).
  replace (Z.of_nat (S (length l))) with (1 + Z.of_nat (length l)) by lia.
  rewrite Z.pow_add_r by lia. ring.
Qed.

Lemma dec_val_app l k : dec_val (l ++ k) = dec_val l * 10 ^ Z.of_nat (length k) + dec_val k.
Proof. unfold dec_val at 1. rewrite fold_left_app. apply dec_val_acc. Qed.

Lemma digits_aux_ok f n acc : 0 <= n < 2 ^ Z.of_nat f ->
  exists l, digits_aux f n acc = l ++ acc /\ digits_ok l /\ dec_val l = n /\ (f <> O -> l <> []).
Proof.
  revert n acc. induction f as [|f IH]; intros n acc Hn.
  { exists []. split_and!; [done|by constructor| |done]. cbn in *. lia. }
  cbn [digits_aux]. pose proof (Z.mod_pos_bound n 10).
  assert (digits_ok [48 + n mod 10]) as Hd.
  { constructor; [|by constructor]. apply isdigit_digit. lia. }
  split_if; bool_arith.
  - exists [48 + n mod 10]. split_and!; [done|done| |done]. cbn. rewrite Z.mod_small; lia.
  - destruct (IH (n / 10) (48 + n mod 10 :: acc)) as (l & -> & Hl & Hv & _).
    { rewrite Nat2Z.inj_succ, Z.pow_succ_r in Hn by lia. divlia. }
    exists (l ++ [48 + n mod 10]). split_and!.
    + by rewrite <- app_assoc.
    + by apply Forall_app.
    + rewrite dec_val_app, Hv. cbn. divlia.
    + by destruct l.
Qed.

Lemma dec_ok n : 0 <= n -> digits_ok (dec n) /\ dec_val (dec n) = n /\ dec n <> [].
Proof.
  intros Hn. unfold dec.
  destruct (digits_aux_ok (S (Z.to_nat (Z.log2 n))) n []) as (l & -> & Hd & Hv & Hl).
  { split; [exact Hn|]. rewrite Nat2Z.inj_succ, Z2Nat.id by apply Z.log2_nonneg.
    destruct (Z.eq_dec n 0) as [E|]; [by subst|]. apply Z.log2_spec. lia. }
  rewrite app_nil_r. auto.
Qed.

Lemma dec_fixed_ok k n : digits_ok (dec_fixed k n) /\ length (dec_fixed k n) = k /\
  dec_val (dec_fixed k n) = n mod 10 ^ Z.of_nat k.
Proof.
  revert n. induction k as [|k IH]; intros n; [split_and!; [constructor|done|]; cbn; by rewrite Z.mod_1_r|].
  destruct (IH (n / 10)) as (Hd & Hl & Hv). cbn [dec_fixed]. pose proof (Z.mod_pos_bound n 10).
  split_and!.
  - apply Forall_app. split; [done|]. constructor; [apply isdigit_digit; lia|constructor].
  - rewrite length_app, Hl. cbn. lia.
  - rewrite dec_val_app, Hv. cbn [length]. change (10 ^ Z.of_nat 1) with 10.
    rewrite Nat2Z.inj_succ, Z.pow_succ_r by lia.
    rewrite Z.rem_mul_r by lia. unfold dec_val. cbn [fold_left]. lia.
Qed.

Lemma digit_start l : digits_ok l -> l <> [] ->
  exists c l', l = c :: l' /\ c <> 43 /\ c <> 45 /\ c <> 46 /\ isspace c = false.
Proof.
  intros Hl Hn. destruct Hl as [|c l Hc Hl]; [done|]. exists c, l.
  unfold isdigit, isspace in *. by split_and!; try lia.
Qed.

(** An optional minus sign before digits is read as such. *)
Lemma sign_digits (neg : bool) l r : digits_ok l -> l <> [] ->
  sign (snd (span isspace ((if neg then [45] else []) ++ l ++ r))) = (neg, l ++ r).
Proof.
  intros Hl Hn. destruct (digit_start l Hl Hn) as (c & l' & -> & ? & ? & ? & Hs).
  destruct neg; cbn; [done|]. rewrite Hs. cbn. decide_bool. done.
Qed.

(** An [int] reads back as it was written. *)
Lemma stoi_to_string v r : in_i 32 v -> stops isdigit r -> stoi (to_string_int v ++ r) = Some v.
Proof.
  intros Hv Hr. unfold in_i in Hv. change (2 ^ (32 - 1)) with 2147483648 in Hv.
  destruct (dec_ok (Z.abs v)) as (Hd & Hval & Hne); [lia|].
  assert (to_string_int v ++ r = (if v <? 0 then [45] else []) ++ dec (Z.abs v) ++ r) as ->.
  { unfold to_string_int. split_if; bool_arith; [rewrite Z.abs_neq by lia|rewrite Z.abs_eq by lia]; done. }
  unfold stoi. rewrite sign_digits, span_app, Hval by done.
  destruct (dec (Z.abs v)); [done|].
  assert ((if v <? 0 then - Z.abs v else Z.abs v) = v) as -> by (split_if; bool_arith; lia).
  decide_bool. done.
Qed.

(** ** Floats read back *)

Lemma rne_exact n d : 0 < d -> rne (n * d) d = n.
Proof. intros. unfold rne. rewrite Z.div_mul, Z.mod_mul by lia. by rewrite (proj2 (Z.ltb_lt _ _)) by lia. Qed.

(** The two sides of a scaled fraction, compared over a common power. *)
Lemma scale2_le n d e s c : 0 <= s -> 0 <= s + e -> 0 < c ->
  (let '(a, b) := scale2 n d e in c * b <= a) <-> c * (d * 2 ^ (s + e)) <= n * 2 ^ s.
Proof.
  intros Hs Hse Hc. unfold scale2. destruct (Z.leb_spec 0 e).
  - rewrite Z.pow_add_r by lia. assert (0 < 2 ^ s) by (apply Z.pow_pos_nonneg; lia). nia.
  - replace s with (s + e + - e) at 2 by lia. rewrite (Z.pow_add_r _ (s + e)) by lia.
    assert (0 < 2 ^ (s + e)) by (apply Z.pow_pos_nonneg; lia). nia.
Qed.

Lemma flog2_unique n d k : 0 < n -> 0 < d ->
  (let '(a, b) := scale2 n d k in b <= a < 2 * b) -> flog2 n d = k.
Proof.
  intros Hn Hd Hk. pose proof (Z.log2_spec n Hn) as Hln. pose proof (Z.log2_spec d Hd) as Hld.
  unfold flog2. set (k0 := Z.log2 n - Z.log2 d). set (s := Z.abs k + Z.abs k0 + 1).
  assert (0 <= Z.log2 n /\ 0 <= Z.log2 d) as [Hn0 Hd0] by (split; apply Z.log2_nonneg).
  pose proof (scale2_le n d k s 1 ltac:(lia) ltac:(lia) ltac:(lia)) as H1.
  pose proof (scale2_le n d k s 2 ltac:(lia) ltac:(lia) ltac:(lia)) as H2.
  pose proof (scale2_le n d k0 s 1 ltac:(lia) ltac:(lia) ltac:(lia)) as H3.
  destruct (scale2 n d k) as [a b], (scale2 n d k0) as [a0 b0].
  assert (0 < 2 ^ s) by (apply Z.pow_pos_nonneg; lia).
  assert (0 < 2 ^ (s + k)) by (apply Z.pow_pos_nonneg; lia).
  assert (2 ^ (Z.log2 d + (s + k)) < 2 ^ (Z.succ (Z.log2 n) + s)) as B1.
  { rewrite (Z.pow_add_r _ (Z.log2 d)), (Z.pow_add_r _ (Z.succ _)) by lia. nia. }
  assert (2 ^ (Z.log2 n + s) < 2 ^ (Z.succ (Z.log2 d) + (s + k) + 1)) as B2.
  { rewrite (Z.pow_add_r _ (_ + _)), (Z.pow_add_r _ (Z.log2 n)), (Z.pow_add_r _ (Z.succ _)) by lia.
    change (2 ^ 1) with 2. nia. }
  apply Z.pow_lt_mono_r_iff in B1; [|lia..]. apply Z.pow_lt_mono_r_iff in B2; [|lia..].
  assert (k = k0 \/ k = k0 - 1) as [->| ->] by lia.
  - rewrite (proj2 (Z.ltb_ge a0 b0)); [done|]. lia.
  - rewrite (proj2 (Z.ltb_lt a0 b0)); [done|].
    replace (s + k0) with ((s + (k0 - 1)) + 1) in H3 by lia.
    rewrite (Z.pow_add_r _ (s + (k0 - 1))) in H3 by lia. change (2 ^ 1) with 2 in H3. lia.
Qed.

Lemma scale2_exact n d e s M : 0 <= s -> 0 <= s + e -> 0 < d ->
  n * 2 ^ s = M * (d * 2 ^ (s + e)) ->
  let '(a, b) := scale2 n d e in 0 < b /\ a = M * b.
Proof.
  intros Hs Hse Hd E. unfold scale2. destruct (Z.leb_spec 0 e).
  - rewrite Z.pow_add_r in E by lia. assert (0 < 2 ^ s /\ 0 < 2 ^ e) as [? ?] by (split; apply Z.pow_pos_nonneg; lia).
    split; [nia|]. apply (Z.mul_reg_r _ _ (2 ^ s)); lia.
  - replace s with (s + e + - e) in E at 1 by lia. rewrite (Z.pow_add_r _ (s + e)) in E by lia.
    assert (0 < 2 ^ (s + e)) by (apply Z.pow_pos_nonneg; lia).
    split; [done|]. apply (Z.mul_reg_r _ _ (2 ^ (s + e))); lia.
Qed.

(** A fraction that is a normal float rounds to it. *)
Lemma round32_exact n d M e : 0 < d -> 2 ^ 23 <= M < 2 ^ 24 -> -149 <= e <= 104 ->
  n * 2 ^ 149 = M * (d * 2 ^ (149 + e)) -> round32 n d = Some ((e + 149) * 2 ^ 23 + M).
Proof.
  intros Hd HM He E. assert (0 < 2 ^ (149 + e)) by (apply Z.pow_pos_nonneg; lia).
  assert (0 < n) as Hn by nia.
  assert (flog2 n d = e + 23) as Hk.
  { apply flog2_unique; [done..|].
    pose proof (scale2_le n d (e + 23) 149 1 ltac:(lia) ltac:(lia) ltac:(lia)) as H1.
    pose proof (scale2_le n d (e + 23) 149 2 ltac:(lia) ltac:(lia) ltac:(lia)) as H2.
    destruct (scale2 n d (e + 23)). rewrite E in H1, H2.
    replace (149 + (e + 23)) with (149 + e + 23) in H1, H2 by lia.
    rewrite (Z.pow_add_r _ (149 + e)) in H1, H2 by lia.
    assert (0 < d * 2 ^ (149 + e)) by nia. set (x := d * 2 ^ (149 + e)) in *.
    replace (1 * (d * (2 ^ (149 + e) * 2 ^ 23))) with (x * 2 ^ 23) in H1 by (unfold x; ring).
    replace (2 * (d * (2 ^ (149 + e) * 2 ^ 23))) with (x * 2 ^ 24) in H2 by (unfold x; ring).
    nia. }
  unfold round32. rewrite (proj2 (Z.eqb_neq n 0)), Hk by lia.
  replace (e + 23 - 23) with e by lia. rewrite Z.max_l by lia.
  pose proof (scale2_exact n d e 149 M ltac:(lia) ltac:(lia) Hd E) as Hx.
  destruct (scale2 n d e) as [a b]. destruct Hx as [Hb ->]. rewrite rne_exact by done.
  rewrite (proj2 (Z.ltb_ge (e + 23) (-126))) by lia. cbn [andb].
  rewrite (proj2 (Z.leb_gt 2139095040 _)); [done|]. lia.
Qed.

(** The parts of a float's word. *)
Lemma float_word w : 0 <= w < 2 ^ 32 ->
  w = (if fsign w then 2 ^ 31 else 0) + fexp w * 2 ^ 23 + fman w /\ 0 <= fexp w < 256 /\ 0 <= fman w < 2 ^ 23.
Proof.
  intros Hw. unfold fsign, fexp, fman.
  assert (Z.testbit w 31 = (2 ^ 31 <=? w)) as ->.
  { rewrite Z.testbit_eqb by lia. destruct (Z.leb_spec (2 ^ 31) w).
    - assert (w / 2 ^ 31 = 1) as -> by divlia. done.
    - rewrite Z.div_small by lia. done. }
  destruct (Z.leb_spec (2 ^ 31) w); divlia.
Qed.

Lemma micros_exact w : exact6 w = true -> 0 <= micros w /\
  micros w * 2 ^ 149 = fint w * (1000000 * 2 ^ (149 + fpow w)).
Proof.
  unfold exact6. intros H.
  apply andb_true_iff in H as [H Hx]. apply andb_true_iff in H as [H _].
  assert (0 <= w < 2 ^ 32) as Hw by lia. destruct (float_word w Hw) as (_ & He & Hm).
  assert (0 <= fint w) as Hf by (unfold fint; split_if; lia).
  assert (-149 <= fpow w) as Hp by (unfold fpow; split_if; lia).
  unfold micros. destruct (Z.leb_spec 0 (fpow w)) as [Hq|Hq].
  - split; [assert (0 < 2 ^ fpow w) by (apply Z.pow_pos_nonneg; lia); nia|].
    rewrite (Z.pow_add_r _ 149) by lia. ring.
  - cbn [orb] in Hx. apply Z.eqb_eq in Hx.
    assert (0 < 2 ^ (- fpow w)) as H2 by (apply Z.pow_pos_nonneg; lia).
    apply Z.mod_divide in Hx as [q Hx]; [|lia]. rewrite Hx, rne_exact by done.
    split; [nia|]. replace 149 with (149 + fpow w + - fpow w) at 1 by lia.
    rewrite (Z.pow_add_r _ (149 + fpow w)) by lia. rewrite Z.mul_comm, (Z.mul_comm (2 ^ (149 + fpow w))).
    transitivity (q * 2 ^ (- fpow w) * 2 ^ (149 + fpow w)); [ring|]. rewrite <- Hx. ring.
Qed.

Lemma round32_micros w : exact6 w = true -> round32 (micros w) 1000000 = Some (fexp w * 2 ^ 23 + fman w).
Proof.
  intros Hx. destruct (micros_exact w Hx) as [Hm E]. unfold exact6 in Hx.
  apply andb_true_iff in Hx as [Hx _]. apply andb_true_iff in Hx as [Hx H255]. apply negb_true_iff, Z.eqb_neq in H255.
  assert (0 <= w < 2 ^ 32) as Hw by lia. destruct (float_word w Hw) as (_ & He & Hf).
  unfold fint, fpow in E. destruct (Z.eqb_spec (fexp w) 0) as [H0|H0].
  - assert (micros w = 0 /\ fman w = 0) as [-> ->].
    { assert (micros w = 0); [|split; [done|]]; change (149 + -149) with 0 in E; [|lia].
      change (2 ^ 0) with 1 in E.
      assert (2 ^ 149 = 2 ^ 100 * 2 ^ 49) as E2 by done.
      assert (fman w * (1000000 * 1) < 2 ^ 149) by lia. nia. }
    by rewrite H0.
  - rewrite (round32_exact _ _ (2 ^ 23 + fman w) (fexp w - 150)); [f_equal; lia|lia..|done].
Qed.

(** A float of at most six decimals reads back as it was written. *)
Lemma stof_to_string w r : exact6 w = true -> stops isdigit r ->
  stops (fun c => (c =? 101) || (c =? 69)) r -> stof (to_string_float w ++ r) = Some w.
Proof.
  intros Hx Hr Hr2. pose proof (round32_micros w Hx) as Hv. destruct (micros_exact w Hx) as [Hm _].
  unfold exact6 in Hx. apply andb_true_iff in Hx as [Hx _]. apply andb_true_iff in Hx as [Hx H255].
  apply negb_true_iff in H255. assert (0 <= w < 2 ^ 32) as Hw by lia.
  destruct (dec_ok (micros w / 1000000)) as (Hd & Hdv & Hdn); [apply Z.div_pos; lia|].
  destruct (dec_fixed_ok 6 (micros w)) as (Hf & Hfl & Hfv).
  unfold to_string_float, stof. rewrite H255, <- !app_assoc. cbn [app].
  rewrite sign_digits by done. rewrite span_app by (done || by intros c [= <-]).
  cbn [Z.eqb Pos.eqb]. rewrite span_app by done.
  assert (exponent r = 0) as ->.
  { destruct r as [|c r]; [done|]. unfold exponent. by rewrite (Hr2 c). }
  assert (dec_val (dec (micros w / 1000000) ++ dec_fixed 6 (micros w)) = micros w) as Hall.
  { rewrite dec_val_app, Hdv, Hfl, Hfv. change (10 ^ Z.of_nat 6) with 1000000. divlia. }
  destruct (dec (micros w / 1000000) ++ dec_fixed 6 (micros w)) eqn:El.
  { by apply app_eq_nil in El as [El _]. }
  rewrite Hall, Hfl. change (0 - Z.of_nat 6) with (-6). change (0 <=? -6) with false.
  change (10 ^ (- (-6))) with 1000000. rewrite Hv. f_equal.
  destruct (float_word w Hw) as (E & _). destruct (fsign w); lia.
Qed.
End StdNum.
