(* ===== verification/Json.v ===== *)
(** * Json: the JSON objects and their reader

    src/utils/Json.{h,cpp} and src/utils/JsonReader.{h,cpp}.  The objects are
    C++ heap objects reached through pointers, which the Lua side holds too:
    the memory is a finite map from addresses, and every operation says which
    uses of a pointer are undefined behaviour.  Here: the definitions only;
    JsonTree has the trees the memory stands for, JsonText what is written and
    read, JsonRead the reader on the memory, JsonEdit the calls a script makes. *)
From stdpp Require Import gmap.
From S2P Require Import Prelude StdNum.

Module Json.
Import StdNum.

(** ** Outcomes *)

(** [Undef] is undefined behaviour: a null, dangling or wrongly cast pointer,
    an index out of range, a read outside the text.  [Throw] is a C++
    exception, which no code here catches. *)
Inductive outcome (A : Type) : Type :=
| Ok (a : A)
| Undef
| Throw
| OutOfFuel.
#[global] Arguments Ok {A} a.
#[global] Arguments Undef {A}.
#[global] Arguments Throw {A}.
#[global] Arguments OutOfFuel {A}.

Definition obind {A B} (m : outcome A) (k : A -> outcome B) : outcome B :=
  match m with Ok a => k a | Undef => Undef | Throw => Throw | OutOfFuel => OutOfFuel end.

(** Code over a state [S]. *)
Definition M (S A : Type) : Type := S -> outcome (A * S).

Definition ret {S A} (a : A) : M S A := fun s => Ok (a, s).
Definition bind {S A B} (m : M S A) (k : A -> M S B) : M S B :=
  fun s => obind (m s) (fun '(a, s') => k a s').
Definition undef {S A} : M S A := fun _ => Undef.
Definition throw {S A} : M S A := fun _ => Throw.
Definition out_of_fuel {S A} : M S A := fun _ => OutOfFuel.

#[global] Instance M_bind {S} : MBind (M S) := fun A B k m => bind m k.
#[global] Instance M_ret {S} : MRet (M S) := fun A => ret.

(** ** Objects *)

Inductive eJOSN_TYPE := eJ_INT | eJ_FLOAT | eJ_NULL | eJ_STRING | eJ_BOOL | eJ_ARRAY | eJ_OBJ.
#[global] Instance eJOSN_TYPE_eq : EqDecision eJOSN_TYPE.
Proof. solve_decision. Defined.

Abbreviation addr := positive (only parsing).
Abbreviation key := (list Z) (only parsing).

(** [operator<] of [std::string]: by unsigned bytes. *)
Fixpoint kltb (a b : key) : bool :=
  match a, b with
  | _, [] => false
  | [], _ :: _ => true
  | x :: a', y :: b' => (x <? y) || ((x =? y) && kltb a' b')
  end.

(** A [std::map<std::string, V>] is the list of its entries in key order. *)
Fixpoint map_find {V} (k : key) (m : list (key * V)) : option V :=
  match m with
  | [] => None
  | (k', v) :: m' => if decide (k = k') then Some v else map_find k m'
  end.

Fixpoint map_set {V} (k : key) (v : V) (m : list (key * V)) : list (key * V) :=
  match m with
  | [] => [(k, v)]
  | (k', v') :: m' =>
      if kltb k k' then (k, v) :: m
      else if kltb k' k then (k', v') :: map_set k v m'
      else (k', v) :: m'
  end.

Fixpoint map_erase {V} (k : key) (m : list (key * V)) : list (key * V) :=
  match m with
  | [] => []
  | (k', v') :: m' => if decide (k = k') then m' else (k', v') :: map_erase k m'
  end.

(** A [JValue] has a union of an [int], a [float] and a [bool]: one 32-bit
    word, of which the [bool] is the low byte. *)
Inductive JBaseObj :=
| JValue (type : eJOSN_TYPE) (word : Z) (sv : list Z)
| JArray (items : list addr)
| JSonObj (maps : list (key * option addr)).

(** The field [type] of an object; the constructors of [JArray] and [JSonObj]
    set it for good. *)
Definition type_of (o : JBaseObj) : eJOSN_TYPE :=
  match o with JValue t _ _ => t | JArray _ => eJ_ARRAY | JSonObj _ => eJ_OBJ end.

Record mem := mkmem {
  objs : gmap addr JBaseObj;
  fresh : addr;                  (* the next address [new] returns *)
  junk : addr -> Z               (* the bytes of the memory not yet allocated *)
}.

(** [new] returns addresses in increasing order; the union of a [JValue] holds
    what the memory held before, because the constructor does not set it. *)
Definition set_objs (h : gmap addr JBaseObj) (s : mem) : mem := mkmem h (fresh s) (junk s).

Definition load (p : addr) : M mem JBaseObj := fun s =>
  match objs s !! p with Some o => Ok (o, s) | None => Undef end.

Definition store (p : addr) (o : JBaseObj) : M mem unit := fun s =>
  match objs s !! p with
  | Some _ => Ok (tt, set_objs (<[p := o]> (objs s)) s)
  | None => Undef
  end.

(** [new] of an object: the constructor's fields at a fresh address. *)
Definition new (o : JBaseObj) : M mem addr := fun s =>
  Ok (fresh s, mkmem (<[fresh s := o]> (objs s)) (Pos.succ (fresh s)) (junk s)).

Definition new_JValue : M mem addr := fun s => new (JValue eJ_NULL (wrap 32 (junk s (fresh s))) []) s.
Definition new_JArray : M mem addr := new (JArray []).
Definition new_JSonObj : M mem addr := new (JSonObj []).

(** [static_cast] to a class, and the use of its fields. *)
Definition as_value (p : addr) : M mem (eJOSN_TYPE * Z * list Z) :=
  o ← load p; match o with JValue t w sv => ret (t, w, sv) | _ => undef end.
Definition as_array (p : addr) : M mem (list addr) :=
  o ← load p; match o with JArray l => ret l | _ => undef end.
Definition as_obj (p : addr) : M mem (list (key * option addr)) :=
  o ← load p; match o with JSonObj m => ret m | _ => undef end.

(** ** JValue *)
Module JVal.

Definition setInt (p : addr) (v : Z) : M mem unit :=
  '(t, w, sv) ← as_value p; store p (JValue eJ_INT (wrap 32 v) sv).
Definition setFloat (p : addr) (v : Z) : M mem unit :=
  '(t, w, sv) ← as_value p; store p (JValue eJ_FLOAT v sv).
Definition setStr (p : addr) (v : list Z) : M mem unit :=
  '(t, w, sv) ← as_value p; store p (JValue eJ_STRING w v).
Definition setBool (p : addr) (v : bool) : M mem unit :=
  '(t, w, sv) ← as_value p; store p (JValue eJ_BOOL (w / 256 * 256 + Z.b2z v) sv).
Definition setNull (p : addr) : M mem unit :=
  '(t, w, sv) ← as_value p; store p (JValue eJ_NULL w sv).

Definition iv (w : Z) : Z := sext 32 w.
Definition bv (w : Z) : bool := negb (w mod 256 =? 0).

Definition write (t : eJOSN_TYPE) (w : Z) (sv : list Z) : list Z :=
  match t with
  | eJ_INT => to_string_int (iv w)
  | eJ_FLOAT => to_string_float w
  | eJ_BOOL => if bv w then [116; 114; 117; 101] else [102; 97; 108; 115; 101]
  | eJ_NULL => [110; 117; 108; 108]
  | eJ_STRING => 34 :: sv ++ [34]
  | _ => []
  end.

End JVal.

(** ** delete *)

(** The destructors delete what an object holds before it is freed. *)
Definition held (o : JBaseObj) : list (option addr) :=
  match o with JValue _ _ _ => [] | JArray l => Some <$> l | JSonObj m => snd <$> m end.

Fixpoint delete_list (del : option addr -> M mem unit) (l : list (option addr)) : M mem unit :=
  match l with [] => ret tt | p :: l' => del p ;; delete_list del l' end.

Definition free (p : addr) : M mem unit := fun s =>
  match objs s !! p with
  | Some _ => Ok (tt, set_objs (delete p (objs s)) s)
  | None => Undef
  end.

Fixpoint delete_obj (fuel : nat) (p : option addr) : M mem unit :=
  match p with
  | None => ret tt
  | Some p =>
      match fuel with
      | O => out_of_fuel
      | S f => o ← load p; delete_list (delete_obj f) (held o) ;; free p
      end
  end.

Definition delete_ptr (p : option addr) : M mem unit := fun s =>
  delete_obj (S (size (objs s))) p s.

(** ** JArray *)
Module JArr.

Definition push_back (p item : addr) : M mem unit :=
  l ← as_array p; store p (JArray (l ++ [item])).

Definition push (set : addr -> M mem unit) (p : addr) : M mem unit :=
  item ← new_JValue; set item ;; push_back p item.

Definition pushInt (p : addr) (v : Z) := push (fun item => JVal.setInt item v) p.
Definition pushFloat (p : addr) (v : Z) := push (fun item => JVal.setFloat item v) p.
Definition pushStr (p : addr) (v : list Z) := push (fun item => JVal.setStr item v) p.
Definition pushBool (p : addr) (v : bool) := push (fun item => JVal.setBool item v) p.
Definition pushNull (p : addr) := push JVal.setNull p.

(** [items[idx]]; the index is converted to [size_t]. *)
Definition at_ (p : addr) (idx : Z) : M mem addr :=
  l ← as_array p;
  if idx <? 0 then undef else
  match l !! Z.to_nat idx with Some a => ret a | None => undef end.

Definition getInt (p : addr) (idx : Z) : M mem Z :=
  a ← at_ p idx; '(t, w, sv) ← as_value a; ret (JVal.iv w).
Definition getFloat (p : addr) (idx : Z) : M mem Z :=
  a ← at_ p idx; '(t, w, sv) ← as_value a; ret w.
Definition getBool (p : addr) (idx : Z) : M mem bool :=
  a ← at_ p idx; '(t, w, sv) ← as_value a; ret (JVal.bv w).
Definition getStr (p : addr) (idx : Z) : M mem (list Z) :=
  a ← at_ p idx; '(t, w, sv) ← as_value a; ret sv.
Definition isNull (p : addr) (idx : Z) : M mem bool :=
  a ← at_ p idx; o ← load a; ret (bool_decide (type_of o = eJ_NULL)).

Definition setInt (p : addr) (idx v : Z) : M mem unit := a ← at_ p idx; JVal.setInt a v.
Definition setFloat (p : addr) (idx v : Z) : M mem unit := a ← at_ p idx; JVal.setFloat a v.
Definition setStr (p : addr) (idx : Z) (v : list Z) : M mem unit := a ← at_ p idx; JVal.setStr a v.
Definition setBool (p : addr) (idx : Z) (v : bool) : M mem unit := a ← at_ p idx; JVal.setBool a v.
Definition setNull (p : addr) (idx : Z) : M mem unit :=
  a ← at_ p idx;
  o ← load a;
  (if bool_decide (type_of o = eJ_ARRAY \/ type_of o = eJ_OBJ) then
     delete_ptr (Some a) ;;
     b ← new_JValue;
     l ← as_array p;
     store p (JArray (<[Z.to_nat idx := b]> l))
   else ret tt) ;;
  a ← at_ p idx; JVal.setNull a.

(** [begin() + idx] has to be in the vector or its end. *)
Definition remove (p : addr) (idx : Z) : M mem unit :=
  l ← as_array p;
  if (idx <? 0) || (Z.of_nat (length l) <? idx) then undef else
  match l !! Z.to_nat idx with
  | Some a =>
      delete_ptr (Some a) ;;
      l ← as_array p;
      store p (JArray (delete (Z.to_nat idx) l))
  | None => ret tt
  end.

Definition size (p : addr) : M mem Z := l ← as_array p; ret (sext 32 (Z.of_nat (length l))).
Definition createArray (p : addr) : M mem addr := a ← new_JArray; push_back p a ;; ret a.
Definition createObj (p : addr) : M mem addr := a ← new_JSonObj; push_back p a ;; ret a.
Definition getJsonObj (p : addr) (idx : Z) : M mem addr := at_ p idx.

End JArr.

(** ** JSonObj *)
Module JObj.

(** [maps[key]]: an absent key gets a null pointer. *)
Definition at_ (p : addr) (k : key) : M mem (option addr) :=
  m ← as_obj p;
  match map_find k m with
  | Some a => ret a
  | None => store p (JSonObj (map_set k None m)) ;; ret None
  end.

(** [maps[key] = a]. *)
Definition put (p : addr) (k : key) (a : option addr) : M mem unit :=
  m ← as_obj p; store p (JSonObj (map_set k a m)).

Definition deref (a : option addr) : M mem addr :=
  match a with Some a => ret a | None => undef end.

Definition value_at (p : addr) (k : key) : M mem (eJOSN_TYPE * Z * list Z) :=
  a ← at_ p k; a ← deref a; as_value a.

Definition getInt (p : addr) (k : key) : M mem Z := '(t, w, sv) ← value_at p k; ret (JVal.iv w).
Definition getFloat (p : addr) (k : key) : M mem Z := '(t, w, sv) ← value_at p k; ret w.
Definition getBool (p : addr) (k : key) : M mem bool := '(t, w, sv) ← value_at p k; ret (JVal.bv w).
Definition getStr (p : addr) (k : key) : M mem (list Z) := '(t, w, sv) ← value_at p k; ret sv.
Definition isNull (p : addr) (k : key) : M mem bool :=
  a ← at_ p k; a ← deref a; o ← load a; ret (bool_decide (type_of o = eJ_NULL)).

(** [if (!maps[key]) maps[key] = new JValue], then the set. *)
Definition set (f : addr -> M mem unit) (p : addr) (k : key) : M mem unit :=
  a ← at_ p k;
  (match a with Some _ => ret tt | None => b ← new_JValue; put p k (Some b) end) ;;
  a ← at_ p k; a ← deref a; f a.

Definition setInt (p : addr) (k : key) (v : Z) := set (fun a => JVal.setInt a v) p k.
Definition setFloat (p : addr) (k : key) (v : Z) := set (fun a => JVal.setFloat a v) p k.
Definition setStr (p : addr) (k : key) (v : list Z) := set (fun a => JVal.setStr a v) p k.
Definition setBool (p : addr) (k : key) (v : bool) := set (fun a => JVal.setBool a v) p k.

Definition setNull (p : addr) (k : key) : M mem unit :=
  a ← at_ p k;
  (match a with
   | None => b ← new_JValue; put p k (Some b)
   | Some a =>
       o ← load a;
       if bool_decide (type_of o = eJ_ARRAY \/ type_of o = eJ_OBJ) then
         delete_ptr (Some a) ;; b ← new_JValue; put p k (Some b)
       else ret tt
   end) ;;
  a ← at_ p k; a ← deref a; JVal.setNull a.

Definition remove (p : addr) (k : key) : M mem unit :=
  m ← as_obj p;
  match map_find k m with
  | Some a => delete_ptr a ;; m ← as_obj p; store p (JSonObj (map_erase k m))
  | None => ret tt
  end.

Definition createArray (p : addr) (k : key) : M mem addr :=
  a ← new_JArray; put p k (Some a) ;; ret a.
Definition createObj (p : addr) (k : key) : M mem addr :=
  a ← new_JSonObj; put p k (Some a) ;; ret a.
Definition getJsonObj (p : addr) (k : key) : M mem (option addr) := at_ p k.

End JObj.

(** ** Writing *)

(** [for (int i = 0; i < depth; ++i) str.append("\t")]. *)
Definition writeDepth (str : list Z) (depth : Z) : list Z := str ++ replicate (Z.to_nat depth) 9.

(** The loop of [JArray::write]; [wr] writes an item. *)
Fixpoint write_items (wr : option addr -> list Z -> outcome (list Z)) (layout : bool)
    (depth maxcount count : Z) (l : list addr) (str : list Z) : outcome (list Z) :=
  match l with
  | [] => Ok str
  | obj :: l' =>
      let str := if layout then writeDepth str (depth + 1) else str in
      obind (wr (Some obj) str) (fun str =>
      let str := if count + 1 <? maxcount then str ++ [44] else str in
      let str := if layout then str ++ [10] else str in
      write_items wr layout depth maxcount (count + 1) l' str)
  end.

(** The loop of [JSonObj::write]. *)
Fixpoint write_maps (wr : option addr -> list Z -> outcome (list Z)) (layout : bool)
    (depth maxcount count : Z) (l : list (key * option addr)) (str : list Z) : outcome (list Z) :=
  match l with
  | [] => Ok str
  | (k, obj) :: l' =>
      let str := if layout then writeDepth str (depth + 1) else str in
      let str := str ++ (34 :: k ++ [34]) ++ [58] in
      obind (wr obj str) (fun str =>
      let str := if count + 1 <? maxcount then str ++ [44] else str in
      let str := if layout then str ++ [10] else str in
      write_maps wr layout depth maxcount (count + 1) l' str)
  end.

(** [obj->write(str, layout, depth)], for the class of the object. *)
Fixpoint write (fuel : nat) (h : gmap addr JBaseObj) (layout : bool) (depth : Z)
    (p : option addr) (str : list Z) : outcome (list Z) :=
  match fuel with
  | O => OutOfFuel
  | S f =>
      match p with
      | None => Undef
      | Some p =>
          match h !! p with
          | None => Undef
          | Some (JValue t w sv) => Ok (str ++ JVal.write t w sv)
          | Some (JArray items) =>
              let str := str ++ [91] in
              let str := if layout then str ++ [10] else str in
              obind (write_items (write f h layout (depth + 1)) layout depth
                       (Z.of_nat (length items)) 0 items str) (fun str =>
              let str := if layout then writeDepth str depth else str in
              Ok (str ++ [93]))
          | Some (JSonObj maps) =>
              let str := str ++ [123] in
              let str := if layout then str ++ [10] else str in
              obind (write_maps (write f h layout (depth + 1)) layout depth
                       (Z.of_nat (length maps)) 0 maps str) (fun str =>
              let str := if layout then writeDepth str depth else str in
              Ok (str ++ [125]))
          end
      end
  end.

(** ** The text being read *)

Record JsonBuff := mkbuff {
  text : list Z;                 (* the C string, without its terminator *)
  p : nat;                       (* the cursor *)
  obj : option addr              (* the tree the buffer owns *)
}.

(** Code over the memory and the buffer. *)
Abbreviation R := (M (mem * JsonBuff)).

(** A memory operation during the reading. *)
Definition on_mem {A} (m : M mem A) : R A := fun '(s, b) =>
  obind (m s) (fun '(a, s') => Ok (a, (s', b))).

Definition curr : R nat := fun '(s, b) => Ok (p b, (s, b)).
Definition go (len : nat) : R unit := fun '(s, b) => Ok (tt, (s, mkbuff (text b) (p b + len) (obj b))).

(** The byte a pointer into the text points at: a byte of the string or its
    terminator. *)
Definition deref (i : nat) : R Z := fun '(s, b) =>
  match text b !! i with
  | Some c => Ok (c, (s, b))
  | None => if decide (i = length (text b)) then Ok (0, (s, b)) else Undef
  end.
Definition peek : R Z := i ← curr; deref i.

Fixpoint skip_loop (fuel : nat) : R unit :=
  match fuel with
  | O => out_of_fuel
  | S f => c ← peek; if negb (c =? 0) && (c <=? 32) then go 1 ;; skip_loop f else ret tt
  end.

(** Enough turns for a loop that moves the cursor at every turn. *)
Definition turns : R nat := fun '(s, b) => Ok (S (length (text b)), (s, b)).

Definition skip : R unit := n ← turns; skip_loop n.

(** The bytes from [i] to the terminator, and those between two cursors. *)
Definition cstr (i : nat) : R (list Z) := fun '(s, b) => Ok (drop i (text b), (s, b)).
Definition between (i j : nat) : R (list Z) := fun '(s, b) => Ok (take (j - i) (drop i (text b)), (s, b)).

(** [strncmp(str, lit, strlen(lit)) == 0], at a place of the text; it reads
    no further than the first difference. *)
Definition strncmp_eq (i : nat) (lit : list Z) : R bool := fun '(s, b) =>
  Ok (bool_decide (take (length lit) (drop i (text b)) = lit), (s, b)).

(** ** JsonReader *)

Fixpoint readStr_loop (fuel : nat) : R unit :=
  match fuel with
  | O => out_of_fuel
  | S f => c ← peek; if negb (c =? 34) && negb (c =? 0) then go 1 ;; readStr_loop f else ret tt
  end.

(** The string read, or [None] for [false]. *)
Definition readStr : R (option (list Z)) :=
  c ← peek;
  if c =? 34 then
    go 1 ;;
    ps ← curr;
    n ← turns; readStr_loop n ;;
    p ← curr;
    c ← peek;
    if negb (ps =? p)%nat && (c =? 34) then go 1 ;; s ← between ps p; ret (Some s)
    else ret None
  else ret None.

(** The loop over digits and points: whether there was a point and how many
    digits, or [None] at a second point. *)
Fixpoint number_loop (fuel : nat) (isfloat : bool) (numpos : Z) : R (option (bool * Z)) :=
  match fuel with
  | O => out_of_fuel
  | S f =>
      c ← peek;
      if (c =? 46) || ((48 <=? c) && (c <=? 57)) then
        if c =? 46 then
          if isfloat then ret None else go 1 ;; number_loop f true numpos
        else go 1 ;; number_loop f isfloat (numpos + 1)
      else ret (Some (isfloat, numpos))
  end.

Definition or_throw {A} (o : option A) : R A :=
  match o with Some a => ret a | None => throw end.

Definition lit_null : list Z := [110; 117; 108; 108].
Definition lit_false : list Z := [102; 97; 108; 115; 101].
Definition lit_true : list Z := [116; 114; 117; 101].

Definition readBase : R (option addr) :=
  str ← curr;
  is_null ← strncmp_eq str lit_null;
  if is_null : bool then
    obj ← on_mem new_JValue; on_mem (JVal.setNull obj) ;; go 4 ;; ret (Some obj)
  else
  is_false ← strncmp_eq str lit_false;
  if is_false : bool then
    obj ← on_mem new_JValue; on_mem (JVal.setBool obj false) ;; go 5 ;; ret (Some obj)
  else
  is_true ← strncmp_eq str lit_true;
  if is_true : bool then
    obj ← on_mem new_JValue; on_mem (JVal.setBool obj true) ;; go 4 ;; ret (Some obj)
  else
  c ← deref str;
  (if c =? 45 then go 1 else ret tt) ;;
  n ← turns;
  num ← number_loop n false 0;
  match num with
  | None => ret None
  | Some (isfloat, numpos) =>
      if negb (numpos =? 0) then
        obj ← on_mem new_JValue;
        pnum ← cstr str;
        (if isfloat : bool then v ← or_throw (stof pnum); on_mem (JVal.setFloat obj v)
         else v ← or_throw (stoi pnum); on_mem (JVal.setInt obj v)) ;;
        ret (Some obj)
      else
        s ← readStr;
        match s with
        | Some s => obj ← on_mem new_JValue; on_mem (JVal.setStr obj s) ;; ret (Some obj)
        | None => ret None
        end
  end.

(** The label [fail] of [readArray] and of [readObj]. *)
Definition fail_with (l : list (option addr)) : R (option addr) :=
  on_mem (delete_list delete_ptr l) ;; ret None.

(** [reader] and the loops of [readArray] and [readObj].  [test] says whether
    the loop is entered at its condition or at the label [parser_pos]. *)
Fixpoint reader (fuel : nat) : R (option addr) :=
  match fuel with
  | O => out_of_fuel
  | S f =>
      skip ;;
      c ← peek;
      if c =? 91 then go 1 ;; array_loop f true []
      else if c =? 123 then go 1 ;; obj_loop f true []
      else readBase
  end
with array_loop (fuel : nat) (test : bool) (objs : list addr) : R (option addr) :=
  match fuel with
  | O => out_of_fuel
  | S f =>
      c ← peek;
      if test && ((c =? 93) || (c =? 0)) then
        if c =? 93 then
          go 1 ;;
          jarr ← on_mem (new (JArray objs));
          ret (Some jarr)
        else fail_with (Some <$> objs)
      else
        obj ← reader f;
        match obj with
        | None => fail_with (Some <$> objs)
        | Some obj =>
            let objs := objs ++ [obj] in
            skip ;;
            c ← peek;
            if c =? 44 then go 1 ;; array_loop f false objs else array_loop f true objs
        end
  end
with obj_loop (fuel : nat) (test : bool) (objs : list (key * option addr)) : R (option addr) :=
  match fuel with
  | O => out_of_fuel
  | S f =>
      c ← peek;
      if test && ((c =? 125) || (c =? 0)) then
        if c =? 125 then
          go 1 ;;
          jobj ← on_mem (new (JSonObj (fold_left (fun m '(k, v) => map_set k v m) objs [])));
          ret (Some jobj)
        else fail_with (snd <$> objs)
      else
        skip ;;
        c ← peek;
        if c =? 34 then
          s ← readStr;
          match s with
          | None => fail_with (snd <$> objs)
          | Some s =>
              c ← peek;
              if negb (c =? 58) then fail_with (snd <$> objs)
              else
                go 1 ;;
                obj ← reader f;
                match obj with
                | None => fail_with (snd <$> objs)
                | Some obj =>
                    let objs := map_set s (Some obj) objs in
                    skip ;;
                    c ← peek;
                    if c =? 44 then go 1 ;; obj_loop f false objs else obj_loop f true objs
                end
          end
        else fail_with (snd <$> objs)
  end.

(** [JsonReader::parser]. *)
Definition parser : R (option addr) :=
  n ← turns;
  o ← reader (2 * n);
  skip ;;
  match o with
  | None => ret None
  | Some a =>
      c ← peek;
      if negb (c =? 0) then on_mem (delete_ptr (Some a)) ;; ret None
      else (fun '(s, b) => Ok (Some a, (s, mkbuff (text b) (p b) (Some a))))
  end.

(** What [getError] says: near the byte at the cursor, or at the end. *)
Inductive json_error := Near (c : Z) | Ends.
Definition getError : R json_error :=
  c ← peek; ret (if negb (c =? 0) then Near c else Ends).

(** [JsonReader::write]. *)
Definition write_json (obj : addr) (layout : bool) : M mem (list Z) := fun s =>
  obind (write (S (base.size (objs s))) (objs s) layout 0 (Some obj) []) (fun str => Ok (str, s)).

(** A [JsonBuff] of a C string, and its destruction. *)
Definition open_buff (s : list Z) : JsonBuff := mkbuff s 0 None.
Definition close_buff : R unit := fun '(s, b) =>
  obind (delete_ptr (obj b) s) (fun '(_, s') => Ok (tt, (s', mkbuff (text b) (p b) None))).

Definition mem0 : mem := mkmem ∅ 1%positive (fun _ => 0).

(** Reads a text on a fresh memory and writes what was read. *)
Definition reprint (layout : bool) (t : list Z) : outcome (option (list Z)) :=
  obind (parser (mem0, open_buff t)) (fun '(o, (s, b)) =>
  match o with
  | None => Ok None
  | Some a => obind (write_json a layout s) (fun '(str, _) => Ok (Some str))
  end).

(* [1, 2 [], null] : the missing comma is accepted *)
Example reprint_1 : reprint false [91;49;44;32;50;32;91;93;44;110;117;108;108;93] =
  Ok (Some [91;49;44;50;44;91;93;44;110;117;108;108;93]).
Proof. vm_compute. reflexivity. Qed.
End Json.
