(* ===== verification/JsonTree.v ===== *)
(** * JsonTree: the tree a JSON object stands for

    [repr h p t D]: in the memory [h] the pointer [p] leads to the tree [t],
    whose objects are the addresses of [D], each reached once.  Here: the
    destructors free exactly [D], and [write] prints [t]. *)
From Stdlib Require Sorting.Sorted.
From stdpp Require Import gmap.
From S2P Require Import Prelude StdNum Json.

Module JsonTree.
Import StdNum Json.
Import Stdlib.Sorting.Sorted (StronglySorted(..), StronglySorted_inv).

(** ** The order of the keys *)

Lemma kltb_irrefl a : kltb a a = false.
Proof. induction a as [|x a IH]; [done|]. cbn. by rewrite Z.ltb_irrefl, Z.eqb_refl, IH. Qed.

Lemma kltb_trans a b c : kltb a b = true -> kltb b c = true -> kltb a c = true.
Proof.
  revert b c. induction a as [|x a IH]; intros [|y b] [|z c]; cbn; try done.
  rewrite !orb_true_iff, !andb_true_iff, !Z.ltb_lt, !Z.eqb_eq.
  intros [?|[? ?]] [?|[? ?]]; [left; lia..|right]. split; [lia|]. by eapply IH.
Qed.

Lemma kltb_total a b : kltb a b = false -> kltb b a = false -> a = b.
Proof.
  revert b. induction a as [|x a IH]; intros [|y b]; cbn; try done.
  rewrite !orb_false_iff, !andb_false_iff, !Z.ltb_ge, !Z.eqb_neq.
  intros [? Hab] [? Hba]. assert (x = y) as -> by lia. f_equal. apply IH; naive_solver.
Qed.

Definition sorted {V} (m : list (list Z * V)) : Prop :=
  StronglySorted (fun a b => kltb a b = true) (fst <$> m).

Lemma sorted_cons {V} k (v : V) m : sorted ((k, v) :: m) ->
  sorted m /\ Forall (fun x => kltb k x = true) (fst <$> m).
Proof. intros H. by apply StronglySorted_inv in H. Qed.

Lemma map_set_keys {V W} k (v : V) (w : W) m n : fst <$> m = fst <$> n ->
  fst <$> map_set k v m = fst <$> map_set k w n.
Proof.
  revert n. induction m as [|[k1 v1] m IH]; intros [|[k2 w1] n] E; try done.
  rewrite !fmap_cons in E. injection E as -> E. cbn [map_set].
  destruct (kltb k k2); [|destruct (kltb k2 k)]; rewrite !fmap_cons; cbn [fst]; f_equal; [by f_equal|by apply IH|done].
Qed.

Lemma map_set_keys_in {V} k (v : V) m x : In x (fst <$> map_set k v m) -> x = k \/ In x (fst <$> m).
Proof.
  induction m as [|[k1 v1] m IH]; cbn; [naive_solver|].
  destruct (kltb k k1); cbn; [naive_solver|]. destruct (kltb k1 k); cbn; naive_solver.
Qed.

Lemma map_set_sorted {V} k (v : V) m : sorted m -> sorted (map_set k v m).
Proof.
  unfold sorted. induction m as [|[k1 v1] m IH]; cbn; intros H.
  { by repeat constructor. }
  apply StronglySorted_inv in H as [H H1].
  destruct (kltb k k1) eqn:E1; cbn.
  - constructor; [by constructor|]. constructor; [exact E1|]. apply (list.Forall_impl _ _ _ H1).
    intros x Hx. by eapply kltb_trans.
  - destruct (kltb k1 k) eqn:E2; cbn; [|by constructor].
    constructor; [by apply IH|]. apply List.Forall_forall. intros x Hx.
    apply map_set_keys_in in Hx as [->|Hx]; [done|]. by apply (proj1 (List.Forall_forall _ _) H1).
Qed.

Lemma map_set_last {V} k (v : V) m : Forall (fun x => kltb x k = true) (fst <$> m) ->
  map_set k v m = m ++ [(k, v)].
Proof.
  induction m as [|[k1 v1] m IH]; [done|]. cbn. intros H. apply Forall_cons_1 in H as [H1 H].
  assert (kltb k k1 = false) as ->.
  { destruct (kltb k k1) eqn:E; [|done]. pose proof (kltb_trans _ _ _ E H1) as Hk. by rewrite kltb_irrefl in Hk. }
  by rewrite H1, IH.
Qed.

Lemma sorted_snoc {V} (m : list (list Z * V)) k v l : sorted (m ++ (k, v) :: l) ->
  Forall (fun x => kltb x k = true) (fst <$> m).
Proof.
  unfold sorted. rewrite fmap_app. induction m as [|[k1 v1] m IH]; cbn; [constructor|].
  intros H. apply StronglySorted_inv in H as [H H1]. constructor; [|by apply IH].
  apply Forall_app in H1 as [_ H1]. by apply Forall_cons_1 in H1 as [H1 _].
Qed.

Lemma sorted_delete (l : list (list Z)) i : StronglySorted (fun a b => kltb a b = true) l ->
  StronglySorted (fun a b => kltb a b = true) (delete i l).
Proof.
  intros H. revert i. induction H as [|k l Hl IH Hk]; intros [|i]; cbn; [constructor..|done|].
  constructor; [apply IH|]. by apply Forall_delete.
Qed.

(** Copying the entries of a map into a new one. *)
Lemma map_copy {V} (m : list (list Z * V)) : sorted m ->
  fold_left (fun m '(k, v) => map_set k v m) m [] = m.
Proof.
  intros Hs. enough (forall n l, m = l ++ n -> fold_left (fun m '(k, v) => map_set k v m) n l = m) as H
    by (by apply H).
  induction n as [|[k v] n IH]; intros l E; cbn; [by rewrite app_nil_r in E|].
  rewrite map_set_last by (rewrite E in Hs; by eapply sorted_snoc).
  apply IH. by rewrite E, <- app_assoc.
Qed.

(** ** Trees *)

(** [TNone] is a null pointer in place of an object. *)
Inductive jtree :=
| TNone
| TNull
| TInt (v : Z)
| TFloat (w : Z)
| TBool (b : bool)
| TStr (s : list Z)
| TArr (l : list jtree)
| TObj (l : list (list Z * jtree)).

Section Induction.
Context (P : jtree -> Prop) (HNone : P TNone) (HNull : P TNull) (HInt : forall v, P (TInt v))
  (HFloat : forall w, P (TFloat w)) (HBool : forall b, P (TBool b)) (HStr : forall s, P (TStr s))
  (HArr : forall l, Forall P l -> P (TArr l)) (HObj : forall l, Forall (fun kt => P (snd kt)) l -> P (TObj l)).

Fixpoint jtree_induct (t : jtree) : P t :=
  match t with
  | TNone => HNone | TNull => HNull | TInt v => HInt v | TFloat w => HFloat w
  | TBool b => HBool b | TStr s => HStr s
  | TArr l => HArr l ((fix go l : Forall P l :=
      match l with [] => Forall_nil_2 _ | t :: l' => Forall_cons_2 _ _ _ (jtree_induct t) (go l') end) l)
  | TObj l => HObj l ((fix go l : Forall (fun kt => P (snd kt)) l :=
      match l with
      | [] => Forall_nil_2 _
      | (k, t) :: l' => Forall_cons_2 (fun kt => P (snd kt)) (k, t) l' (jtree_induct t) (go l')
      end) l)
  end.
End Induction.

(** The value of a [JValue]. *)
Definition val_tree (t : eJOSN_TYPE) (w : Z) (sv : list Z) : jtree :=
  match t with
  | eJ_INT => TInt (JVal.iv w)
  | eJ_FLOAT => TFloat w
  | eJ_BOOL => TBool (JVal.bv w)
  | eJ_STRING => TStr sv
  | _ => TNull
  end.

Definition is_base (t : eJOSN_TYPE) : Prop := t <> eJ_ARRAY /\ t <> eJ_OBJ.

Inductive repr (h : gmap addr JBaseObj) : option addr -> jtree -> gset addr -> Prop :=
| repr_none : repr h None TNone ∅
| repr_value a t w sv :
    h !! a = Some (JValue t w sv) -> is_base t -> repr h (Some a) (val_tree t w sv) {[a]}
| repr_array a l ts D :
    h !! a = Some (JArray l) -> reprs h (Some <$> l) ts D -> a ∉ D ->
    repr h (Some a) (TArr ts) ({[a]} ∪ D)
| repr_obj a m ts D :
    h !! a = Some (JSonObj m) -> reprs h (snd <$> m) ts D -> a ∉ D -> sorted m ->
    repr h (Some a) (TObj (zip (fst <$> m) ts)) ({[a]} ∪ D)
with reprs (h : gmap addr JBaseObj) : list (option addr) -> list jtree -> gset addr -> Prop :=
| reprs_nil : reprs h [] [] ∅
| reprs_cons p t D1 l ts D2 :
    repr h p t D1 -> reprs h l ts D2 -> D1 ## D2 -> reprs h (p :: l) (t :: ts) (D1 ∪ D2).

Scheme repr_mind := Minimality for repr Sort Prop
  with reprs_mind := Minimality for reprs Sort Prop.
Combined Scheme repr_reprs_ind from repr_mind, reprs_mind.


(** The memories agree on the addresses of [D]. *)
Definition same_on (D : gset addr) (h h' : gmap addr JBaseObj) : Prop :=
  forall a, a ∈ D -> h' !! a = h !! a.

Lemma same_on_sub D D' h h' : D' ⊆ D -> same_on D h h' -> same_on D' h h'.
Proof. intros Hs H a Ha. apply H. set_solver. Qed.

Lemma repr_agree_mut h :
  (forall p t D, repr h p t D -> forall h', same_on D h h' -> repr h' p t D) /\
  (forall l ts D, reprs h l ts D -> forall h', same_on D h h' -> reprs h' l ts D).
Proof.
  apply repr_reprs_ind.
  - constructor.
  - intros a t w sv Ha Hb h' Hs. constructor; [|done]. rewrite Hs; set_solver.
  - intros a l ts D Ha _ IH HD h' Hs. econstructor; [rewrite Hs; set_solver| |done].
    apply IH. eapply same_on_sub; [|done]. set_solver.
  - intros a m ts D Ha _ IH HD Hm h' Hs. econstructor; [rewrite Hs; set_solver| |done..].
    apply IH. eapply same_on_sub; [|done]. set_solver.
  - constructor.
  - intros p t D1 l ts D2 _ IH1 _ IH2 Hd h' Hs. constructor; [apply IH1|apply IH2|done];
      (eapply same_on_sub; [|done]); set_solver.
Qed.

Lemma repr_agree h h' p t D : repr h p t D -> same_on D h h' -> repr h' p t D.
Proof. intros. by eapply (proj1 (repr_agree_mut h)). Qed.
Lemma reprs_agree h h' l ts D : reprs h l ts D -> same_on D h h' -> reprs h' l ts D.
Proof. intros. by eapply (proj2 (repr_agree_mut h)). Qed.

Lemma reprs_length h l ts D : reprs h l ts D -> length l = length ts.
Proof. induction 1; cbn; congruence. Qed.

(** The keys of the objects of a tree are in order. *)
Fixpoint sortedb (l : list (list Z)) : bool :=
  match l with
  | [] => true
  | k :: l' => forallb (kltb k) l' && sortedb l'
  end.

Fixpoint tsorted (t : jtree) : bool :=
  match t with
  | TArr l => forallb tsorted l
  | TObj l => sortedb (fst <$> l) && forallb (fun '(k, t) => tsorted t) l
  | _ => true
  end.

Lemma sortedb_spec {V} (m : list (list Z * V)) : sortedb (fst <$> m) = true <-> sorted m.
Proof.
  unfold sorted. induction (fst <$> m) as [|k l IH]; cbn; [split; [constructor|done]|].
  rewrite andb_true_iff, forallb_forall, <- List.Forall_forall, IH. split.
  - intros [H1 H2]. by constructor.
  - intros H. by apply StronglySorted_inv in H as [? ?].
Qed.

Lemma repr_sorted_mut h :
  (forall p t D, repr h p t D -> tsorted t = true) /\ (forall l ts D, reprs h l ts D -> forallb tsorted ts = true).
Proof.
  apply repr_reprs_ind; cbn [tsorted forallb]; try done.
  - intros a t w sv _ _. by destruct t.
  - intros a m ts D _ Hr IH _ Hm. apply andb_true_iff. split.
    + apply reprs_length in Hr. rewrite length_fmap in Hr. rewrite fst_zip by (rewrite length_fmap; lia).
      by apply sortedb_spec.
    + clear -IH. rewrite forallb_forall in IH |- *. intros [k t] H.
      apply list_elem_of_In, elem_of_zip_r, list_elem_of_In in H. by apply IH.
  - intros p t D1 l ts D2 _ -> _ -> _. done.
Qed.
Lemma repr_sorted h p t D : repr h p t D -> tsorted t = true.
Proof. apply repr_sorted_mut. Qed.

(** A pointer leads to one tree. *)
Lemma repr_fun_mut h :
  (forall p t D, repr h p t D -> forall t' D', repr h p t' D' -> t = t') /\
  (forall l ts D, reprs h l ts D -> forall ts' D', reprs h l ts' D' -> ts = ts').
Proof.
  apply repr_reprs_ind.
  - by inversion 1.
  - intros a t w sv Ha _ t' D' H. inversion H; congruence.
  - intros a l ts D Ha _ IH _ t' D' H. inversion H; try congruence. f_equal. eapply IH. naive_solver.
  - intros a m ts D Ha _ IH _ _ t' D' H. inversion H as [| | |? m' ts' D2 Ha' Hr]; try congruence.
    assert (m' = m) as -> by congruence. do 2 f_equal. by eapply IH.
  - by inversion 1.
  - intros p t D1 l ts D2 _ IH1 _ IH2 _ ts' D' H. inversion H; subst. f_equal; [by eapply IH1|by eapply IH2].
Qed.
Lemma repr_fun h p t t' D D' : repr h p t D -> repr h p t' D' -> t = t'.
Proof. intros. by eapply (proj1 (repr_fun_mut h)). Qed.

Lemma repr_dom_mut h :
  (forall p t D, repr h p t D -> D ⊆ dom h) /\ (forall l ts D, reprs h l ts D -> D ⊆ dom h).
Proof.
  apply repr_reprs_ind; intros; try set_solver.
  all: assert (a ∈ dom h) by (by apply elem_of_dom_2 in H); set_solver.
Qed.
Lemma repr_dom h p t D : repr h p t D -> D ⊆ dom h.
Proof. apply repr_dom_mut. Qed.
Lemma reprs_dom h l ts D : reprs h l ts D -> D ⊆ dom h.
Proof. apply repr_dom_mut. Qed.

Lemma reprs_app h l ts D l' ts' D' : reprs h l ts D -> reprs h l' ts' D' -> D ## D' ->
  reprs h (l ++ l') (ts ++ ts') (D ∪ D').
Proof.
  intros H H'. revert D' H'. induction H as [|p t D1 l ts D2 Hp Hl IH Hd]; intros D' H' Hx; cbn.
  - by rewrite union_empty_l_L.
  - rewrite <- union_assoc_L. constructor; [done| |set_solver]. apply IH; set_solver.
Qed.

(** ** The destructors *)

(** The memory without the addresses of [D]. *)
Definition cut (D : gset addr) (h : gmap addr JBaseObj) : gmap addr JBaseObj :=
  filter (fun x => x.1 ∉ D) h.

Lemma lookup_cut D h a : cut D h !! a = if decide (a ∈ D) then None else h !! a.
Proof.
  unfold cut. case_decide as Ha.
  - apply map_lookup_filter_None. right. intros o _ Hn. done.
  - destruct (h !! a) eqn:E.
    + by apply map_lookup_filter_Some.
    + apply map_lookup_filter_None. by left.
Qed.

Lemma dom_cut D h a : a ∈ dom (cut D h) <-> a ∉ D /\ a ∈ dom h.
Proof.
  rewrite !elem_of_dom, lookup_cut. unfold is_Some. case_decide.
  - split; [by intros [? ?]|by intros [? _]].
  - split; [intros ?; by split|by intros [_ ?]].
Qed.

Lemma cut_cut D D' h : cut D' (cut D h) = cut (D ∪ D') h.
Proof.
  apply map_eq. intros a. rewrite !lookup_cut.
  repeat case_decide; set_solver.
Qed.

Lemma cut_empty h : cut ∅ h = h.
Proof. apply map_eq. intros a. rewrite lookup_cut. by case_decide; [set_solver|]. Qed.

Lemma delete_cut D a h : delete a (cut D h) = cut ({[a]} ∪ D) h.
Proof.
  apply map_eq. intros b. destruct (decide (a = b)) as [->|].
  - rewrite lookup_delete_eq, lookup_cut, decide_True; set_solver.
  - rewrite lookup_delete_ne by done. rewrite !lookup_cut. repeat case_decide; set_solver.
Qed.

Lemma same_on_cut D D' h : D ## D' -> same_on D h (cut D' h).
Proof. intros Hd a Ha. rewrite lookup_cut, decide_False; set_solver. Qed.

Lemma delete_list_app del l l' s :
  delete_list del (l ++ l') s = obind (delete_list del l s) (fun '(_, s') => delete_list del l' s').
Proof.
  revert s. induction l as [|p l IH]; intros s; cbn; [done|].
  unfold mbind, M_bind, bind, obind. destruct (del p s) as [[[] s']| | |]; [apply IH|done..].
Qed.

Lemma delete_mut h :
  (forall p t D, repr h p t D -> forall f s, (size D <= f)%nat -> same_on D h (objs s) ->
     delete_obj f p s = Ok (tt, set_objs (cut D (objs s)) s)) /\
  (forall l ts D, reprs h l ts D -> forall f s, (size D <= f)%nat -> same_on D h (objs s) ->
     delete_list (delete_obj f) l s = Ok (tt, set_objs (cut D (objs s)) s)).
Proof.
  assert (forall a o l ts D, h !! a = Some o -> held o = l -> reprs h l ts D ->
    (forall f s, (size D <= f)%nat -> same_on D h (objs s) ->
       delete_list (delete_obj f) l s = Ok (tt, set_objs (cut D (objs s)) s)) -> a ∉ D ->
    forall f s, (size ({[a]} ∪ D) <= f)%nat -> same_on ({[a]} ∪ D) h (objs s) ->
       delete_obj f (Some a) s = Ok (tt, set_objs (cut ({[a]} ∪ D) (objs s)) s)) as Hnode.
  { intros a o l ts D Ha <- _ IH HD f s Hf Hs.
    assert (size ({[a]} ∪ D) = S (size D)) as Hz.
    { rewrite size_union by set_solver. by rewrite size_singleton. }
    destruct f as [|f]; [lia|]. cbn [delete_obj]. unfold mbind, M_bind, bind, load, obind.
    rewrite Hs, Ha by set_solver. rewrite IH; [|lia|eapply same_on_sub; [|done]; set_solver].
    unfold free. cbn [objs set_objs]. rewrite lookup_cut, decide_False by done.
    rewrite Hs, Ha by set_solver. by rewrite delete_cut. }
  apply repr_reprs_ind.
  - intros f s _ _. rewrite cut_empty. destruct f, s; reflexivity.
  - intros a t w sv Ha Hb f s Hf Hs. rewrite <- (union_empty_r_L {[a]}) in Hf, Hs |- *.
    eapply Hnode; [done|done|constructor| |set_solver|done..].
    intros. rewrite cut_empty. by destruct s0.
  - intros a l ts D Ha Hr IH HD f s Hf Hs. by eapply Hnode.
  - intros a m ts D Ha Hr IH HD Hm f s Hf Hs. by eapply Hnode.
  - intros f s _ _. rewrite cut_empty. by destruct s.
  - intros p t D1 l ts D2 Hp IH1 Hl IH2 Hd f s Hf Hs.
    rewrite size_union in Hf by done. cbn [delete_list]. unfold mbind, M_bind, bind, obind.
    rewrite IH1; [|lia|eapply same_on_sub; [|done]; set_solver].
    rewrite IH2; [|lia|].
    + cbn [objs set_objs]. by rewrite cut_cut.
    + cbn [objs set_objs]. intros a Ha. rewrite same_on_cut with (D := D2); [apply Hs|..]; set_solver.
Qed.

(** Deleting a tree frees its objects and nothing else. *)
Lemma delete_ptr_repr s p t D : repr (objs s) p t D ->
  delete_ptr p s = Ok (tt, set_objs (cut D (objs s)) s).
Proof.
  intros H. unfold delete_ptr. apply (proj1 (delete_mut (objs s)) _ _ _ H); [|done].
  rewrite <- size_dom. apply Nat.le_le_succ_r, subseteq_size. by eapply repr_dom.
Qed.

Lemma delete_ptrs_repr h l ts D : reprs h l ts D -> forall s, same_on D h (objs s) ->
  delete_list delete_ptr l s = Ok (tt, set_objs (cut D (objs s)) s).
Proof.
  induction 1 as [|p t D1 l ts D2 Hp Hl IH Hd]; intros s Hs.
  - cbn. rewrite cut_empty. by destruct s.
  - cbn [delete_list]. unfold mbind, M_bind, bind, obind.
    rewrite (delete_ptr_repr s p t D1).
    + rewrite IH; cbn [objs set_objs]; [by rewrite cut_cut|].
      intros a Ha. rewrite same_on_cut with (D := D2); [apply Hs|..]; set_solver.
    + eapply repr_agree; [done|]. eapply same_on_sub; [|done]. set_solver.
Qed.

(** ** Writing *)

Definition tab (layout : bool) (depth : Z) : list Z :=
  if layout then replicate (Z.to_nat depth) 9 else [].
Definition nl (layout : bool) : list Z := if layout then [10] else [].

(** The elements of a container on their lines, with commas between them. *)
Fixpoint lines (layout : bool) (depth : Z) (xs : list (list Z)) : list Z :=
  match xs with
  | [] => []
  | x :: xs' =>
      tab layout (depth + 1) ++ x ++ (match xs' with [] => [] | _ => [44] end) ++ nl layout ++
      lines layout depth xs'
  end.

Definition print_key (k : list Z) : list Z := 34 :: k ++ [34; 58].

Fixpoint print (layout : bool) (depth : Z) (t : jtree) : list Z :=
  match t with
  | TNone => []
  | TNull => lit_null
  | TInt v => to_string_int v
  | TFloat w => to_string_float w
  | TBool b => if b then lit_true else lit_false
  | TStr s => 34 :: s ++ [34]
  | TArr l =>
      91 :: nl layout ++ lines layout depth (map (print layout (depth + 1)) l) ++ tab layout depth ++ [93]
  | TObj l =>
      123 :: nl layout ++
      lines layout depth (map (fun '(k, t) => print_key k ++ print layout (depth + 1) t) l) ++
      tab layout depth ++ [125]
  end.

(** No null pointer in the tree. *)
Fixpoint full (t : jtree) : bool :=
  match t with
  | TNone => false
  | TArr l => forallb full l
  | TObj l => forallb (fun '(k, t) => full t) l
  | _ => true
  end.

Lemma print_val layout depth t w sv : is_base t ->
  JVal.write t w sv = print layout depth (val_tree t w sv).
Proof. intros [? ?]. by destruct t. Qed.

Lemma lines_step layout depth count maxcount x xs str :
  0 <= count -> count + Z.of_nat (length (x :: xs)) = maxcount ->
  str ++ lines layout depth (x :: xs) =
  (let str := (if layout then writeDepth str (depth + 1) else str) ++ x in
   let str := if count + 1 <? maxcount then str ++ [44] else str in
   if layout then str ++ [10] else str) ++ lines layout depth xs.
Proof.
  intros Hc E. cbn [lines length] in *.
  assert ((count + 1 <? maxcount) = match xs with [] => false | _ => true end) as ->.
  { destruct xs; cbn in *; [apply Z.ltb_ge|apply Z.ltb_lt]; lia. }
  unfold tab, nl, writeDepth. destruct layout, xs; by rewrite <- ?app_assoc.
Qed.

Lemma write_mut h layout :
  (forall p t D, repr h p t D -> full t = true -> forall f depth str, (size D <= f)%nat ->
     write f h layout depth p str = Ok (str ++ print layout depth t)) /\
  (forall l ts D, reprs h l ts D -> forallb full ts = true ->
     forall f depth, (size D <= f)%nat ->
     (forall l' count str, l = Some <$> l' -> 0 <= count ->
        write_items (write f h layout (depth + 1)) layout depth (count + Z.of_nat (length l')) count l' str =
        Ok (str ++ lines layout depth (map (print layout (depth + 1)) ts))) /\
     (forall m count str, l = snd <$> m -> 0 <= count ->
        write_maps (write f h layout (depth + 1)) layout depth (count + Z.of_nat (length m)) count m str =
        Ok (str ++ lines layout depth
              (map (fun '(k, t) => print_key k ++ print layout (depth + 1) t) (zip (fst <$> m) ts))))).
Proof.
  apply repr_reprs_ind.
  - done.
  - intros a t w sv Ha Hb _ f depth str Hf. rewrite size_singleton in Hf. destruct f; [lia|].
    cbn. rewrite Ha. by rewrite <- print_val.
  - intros a l ts D Ha Hr IH HD Hfull f depth str Hf.
    rewrite size_union, size_singleton in Hf by set_solver. destruct f as [|f]; [lia|]. cbn [write].
    rewrite Ha. destruct (IH Hfull f depth) as [IHi _]; [lia|].
    rewrite (IHi l 0) by done. cbn [obind print]. unfold tab, nl, writeDepth.
    destruct layout; by rewrite <- !app_assoc.
  - intros a m ts D Ha Hr IH HD Hm Hfull f depth str Hf.
    rewrite size_union, size_singleton in Hf by set_solver. destruct f as [|f]; [lia|]. cbn [write].
    rewrite Ha. assert (forallb full ts = true) as Hfull'.
    { pose proof (reprs_length _ _ _ _ Hr) as Hlen. clear -Hfull Hlen. cbn in Hfull. revert ts Hlen Hfull.
      induction m as [|[k p] m IH]; intros [|t ts] Hlen; cbn in *; try done.
      rewrite !andb_true_iff. intros [? ?]. split; [done|]. apply IH; [congruence|done]. }
    destruct (IH Hfull' f depth) as [_ IHm]; [lia|].
    rewrite (IHm m 0) by done. cbn [obind print]. unfold tab, nl, writeDepth.
    destruct layout; by rewrite <- !app_assoc.
  - intros _ f depth _. split; intros [|? ?] count str Hl Hc; try done; cbn; by rewrite app_nil_r.
  - intros p t D1 l ts D2 Hp IH1 Hl IH2 Hd Hfull f depth Hf.
    cbn in Hfull. apply andb_true_iff in Hfull as [Ht Hts].
    rewrite size_union in Hf by done.
    specialize (IH1 Ht f (depth + 1)). specialize (IH2 Hts f depth ltac:(lia)) as [IHi IHm].
    split.
    + intros [|a l'] count str E Hc; [done|]. injection E as -> El. cbn [write_items map].
      rewrite IH1 by lia. cbn [obind].
      rewrite (lines_step layout depth count (count + Z.of_nat (length (a :: l')))); [|done|].
      * replace (count + Z.of_nat (length (a :: l'))) with (count + 1 + Z.of_nat (length l')) by (cbn; lia).
        rewrite IHi by (done || lia). done.
      * cbn [length]. rewrite length_map, <- (reprs_length _ _ _ _ Hl), El, length_fmap. done.
    + intros [|[k a] m] count str E Hc; [done|]. injection E as -> El. cbn [write_maps map zip_with fmap list_fmap].
      rewrite IH1 by lia. cbn [obind].
      rewrite (lines_step layout depth count (count + Z.of_nat (length ((k, a) :: m)))); [|done|].
      * replace (count + Z.of_nat (length ((k, a) :: m))) with (count + 1 + Z.of_nat (length m)) by (cbn; lia).
        rewrite IHm by (done || lia). unfold print_key. cbn [fst].
        set (b := count + 1 <? _).
        destruct layout, b; repeat (rewrite <- app_assoc; cbn [app]); reflexivity.
      * cbn [length]. rewrite length_map, length_zip_with, length_fmap, <- (reprs_length _ _ _ _ Hl), El, length_fmap. lia.
Qed.

(** [write] prints the tree. *)
Lemma write_repr s a t D layout : repr (objs s) (Some a) t D -> full t = true ->
  write_json a layout s = Ok (print layout 0 t, s).
Proof.
  intros Hr Hf. unfold write_json.
  rewrite (proj1 (write_mut (objs s) layout) _ _ _ Hr Hf); [done|].
  rewrite <- size_dom. apply Nat.le_le_succ_r, subseteq_size. by eapply repr_dom.
Qed.

End JsonTree.
