(* ===== verification/JsonRead.v ===== *)
(** * JsonRead: the reader on the memory

    On every text the reader of Json, with its pointers, returns what [parse]
    of JsonText says, builds exactly the objects of the tree, and frees what
    it built when it fails. *)
From stdpp Require Import gmap.
From S2P Require Import Prelude StdNum Json JsonTree JsonText.

Module JsonRead.
Import StdNum Json JsonTree JsonText.

Lemma bind_ok {S A B} (m : M S A) (k : A -> M S B) s a s' : m s = Ok (a, s') ->
  (m ≫= k) s = k a s'.
Proof. intros H. unfold mbind, M_bind, bind. by rewrite H. Qed.

Lemma bind_throw {S A B} (m : M S A) (k : A -> M S B) s : m s = Throw -> (m ≫= k) s = Throw.
Proof. intros H. unfold mbind, M_bind, bind. by rewrite H. Qed.

Lemma bind_fuel {S A B} (m : M S A) (k : A -> M S B) s : m s = OutOfFuel -> (m ≫= k) s = OutOfFuel.
Proof. intros H. unfold mbind, M_bind, bind. by rewrite H. Qed.

(** One step of a program whose first command succeeds. *)
Ltac step lem := erewrite bind_ok; [|eapply lem; try done].

Lemma on_mem_ok {A} (m : M mem A) s a s' b : m s = Ok (a, s') -> on_mem m (s, b) = Ok (a, (s', b)).
Proof. intros H. unfold on_mem. by rewrite H. Qed.

(** ** The cursor

    A state of the buffer is the part [r] of the text still to be read. *)
Section Cursor.
Context (T : list Z) (o : option addr).

Definition at_rest (r : list Z) : JsonBuff := mkbuff T (length T - length r) o.

Lemma rest_drop r : suffix r T -> drop (length T - length r) T = r.
Proof. intros [k ->]. rewrite length_app. replace (length k + length r - length r)%nat with (length k) by lia. apply drop_app_exact. Qed.

Lemma suffix_drop_l (a r : list Z) : suffix (a ++ r) T -> suffix r T.
Proof. intros [k ->]. exists (k ++ a). by rewrite app_assoc. Qed.

Lemma suffix_tl c (r : list Z) : suffix (c :: r) T -> suffix r T.
Proof. apply (suffix_drop_l [c]). Qed.

Lemma deref_rest s r : suffix r T ->
  deref (length T - length r) (s, at_rest r) = Ok (cur r, (s, at_rest r)).
Proof.
  intros Hr. pose proof (rest_drop r Hr) as E. unfold deref, at_rest. cbn [text].
  apply suffix_length in Hr. destruct r as [|c r]; cbn [cur hd].
  - rewrite lookup_ge_None_2 by (cbn; lia). rewrite decide_True; [done|]. cbn. lia.
  - assert (T !! (length T - length (c :: r))%nat = Some c) as ->; [|done].
    rewrite <- (Nat.add_0_r (length T - _)), <- lookup_drop, E. done.
Qed.

Lemma peek_rest s r : suffix r T -> peek (s, at_rest r) = Ok (cur r, (s, at_rest r)).
Proof. intros Hr. unfold peek. erewrite bind_ok by reflexivity. by apply deref_rest. Qed.

Lemma go_rest s a r n : suffix (a ++ r) T -> length a = n ->
  go n (s, at_rest (a ++ r)) = Ok (tt, (s, at_rest r)).
Proof.
  intros Hr <-. unfold go, at_rest. cbn [p text obj]. do 4 f_equal.
  apply suffix_length in Hr. rewrite length_app in *. lia.
Qed.

Lemma go_cons s c r : suffix (c :: r) T -> go 1 (s, at_rest (c :: r)) = Ok (tt, (s, at_rest r)).
Proof. intros Hr. by apply (go_rest s [c]). Qed.

(** Moving past a byte that is known. *)
Lemma go_tl s r : suffix r T -> cur r <> 0 -> go 1 (s, at_rest r) = Ok (tt, (s, at_rest (tl r))) /\ suffix (tl r) T.
Proof.
  intros Hr Hc. destruct r as [|c r]; [done|]. split; [by apply go_cons|by eapply suffix_tl].
Qed.

Lemma span_suffix q r : suffix r T -> suffix (snd (span q r)) T.
Proof. intros Hr. destruct (span_parts q r) as [E _]. rewrite E in Hr. by eapply suffix_drop_l. Qed.

Lemma skip_loop_rest s r n : suffix r T -> (length r < n)%nat ->
  skip_loop n (s, at_rest r) = Ok (tt, (s, at_rest (skipws r))).
Proof.
  revert r. induction n as [|n IH]; intros r Hr Hn; [lia|]. cbn [skip_loop].
  step peek_rest. destruct r as [|c r]; [done|]. unfold skipws. cbn [span cur hd]. fold (blank c).
  destruct (blank c); [|done]. step go_cons. rewrite IH; [|by eapply suffix_tl|cbn in Hn; lia].
  unfold skipws. by destruct (span blank r).
Qed.

Lemma skip_rest s r : suffix r T -> skip (s, at_rest r) = Ok (tt, (s, at_rest (skipws r))).
Proof.
  intros Hr. unfold skip. erewrite bind_ok by reflexivity. apply skip_loop_rest; [done|].
  apply suffix_length in Hr. cbn. lia.
Qed.

Lemma skipws_suffix r : suffix r T -> suffix (skipws r) T.
Proof. apply span_suffix. Qed.

Lemma readStr_loop_rest s r n : suffix r T -> (length r < n)%nat ->
  readStr_loop n (s, at_rest r) = Ok (tt, (s, at_rest (snd (span in_str r)))).
Proof.
  revert r. induction n as [|n IH]; intros r Hr Hn; [lia|]. cbn [readStr_loop].
  step peek_rest. destruct r as [|c r]; [done|]. cbn [span cur hd]. fold (in_str c).
  destruct (in_str c); [|done]. step go_cons. rewrite IH; [|by eapply suffix_tl|cbn in Hn; lia].
  by destruct (span in_str r).
Qed.

Lemma between_rest s a r b : suffix (a ++ r) T ->
  between (length T - length (a ++ r)) (length T - length r) (s, mkbuff T b o) = Ok (a, (s, mkbuff T b o)).
Proof.
  intros Hr. unfold between. cbn [text]. rewrite rest_drop by done. apply suffix_length in Hr.
  rewrite length_app in *. replace (length T - length r - (length T - (length a + length r)))%nat with (length a) by lia.
  by rewrite take_app_exact.
Qed.

Lemma readStr_rest s r : suffix r T ->
  readStr (s, at_rest r) = Ok (fst (pstr r), (s, at_rest (snd (pstr r)))) /\ suffix (snd (pstr r)) T.
Proof.
  intros Hr. unfold readStr, pstr. step peek_rest. destruct (Z.eqb_spec (cur r) 34) as [Hc|]; [|done].
  destruct r as [|c r]; [done|]. cbn in Hc. subst c. cbn [tl]. assert (suffix r T) as Hr' by (by eapply suffix_tl).
  step go_cons. erewrite bind_ok by reflexivity. erewrite bind_ok by reflexivity.
  step readStr_loop_rest; [|apply suffix_length in Hr'; cbn; lia].
  erewrite bind_ok by reflexivity. pose proof (span_parts in_str r) as [E _].
  pose proof (span_suffix in_str r Hr') as Hb. destruct (span in_str r) as [a b]. cbn [fst snd] in *.
  step peek_rest. cbn [p at_rest]. subst r. pose proof (suffix_length _ _ Hr') as Hl. rewrite length_app in Hl.
  assert ((length T - length (a ++ b) =? length T - length b)%nat = match a with [] => true | _ => false end) as ->.
  { rewrite length_app. destruct a; cbn; [apply Nat.eqb_refl|apply Nat.eqb_neq; cbn in Hl; lia]. }
  destruct a as [|x a]; [done|]. cbn [negb andb].
  destruct (Z.eqb_spec (cur b) 34) as [Hb34|]; [|done].
  destruct b as [|y b]; [done|]. cbn in Hb34. subst y. step go_cons.
  unfold at_rest at 1. erewrite bind_ok by (by apply between_rest). split; [done|]. by eapply suffix_tl.
Qed.

Lemma number_loop_rest s r n b k : suffix r T -> (length r < n)%nat ->
  number_loop n b k (s, at_rest r) = Ok (fst (pnumber r b k), (s, at_rest (snd (pnumber r b k)))) /\
  suffix (snd (pnumber r b k)) T.
Proof.
  revert r b k. induction n as [|n IH]; intros r b k Hr Hn; [lia|]. cbn [number_loop].
  step peek_rest. destruct r as [|c r]; [done|]. cbn [pnumber cur hd]. fold (isdigit c).
  assert (suffix r T) by (by eapply suffix_tl). cbn in Hn.
  destruct ((c =? 46) || isdigit c); [|done]. destruct (c =? 46); [destruct b; [done|]|];
    (step go_cons; apply IH; [done|lia]).
Qed.

Lemma strncmp_rest s r lit : suffix r T ->
  strncmp_eq (length T - length r) lit (s, at_rest r) = Ok (starts lit r, (s, at_rest r)).
Proof. intros Hr. unfold strncmp_eq. cbn [text at_rest]. by rewrite rest_drop. Qed.

Lemma cstr_rest s r b : suffix r T ->
  cstr (length T - length r) (s, mkbuff T b o) = Ok (r, (s, mkbuff T b o)).
Proof. intros Hr. unfold cstr. cbn [text]. by rewrite rest_drop. Qed.

Lemma starts_go s r lit : suffix r T -> starts lit r = true ->
  go (length lit) (s, at_rest r) = Ok (tt, (s, at_rest (drop (length lit) r))) /\ suffix (drop (length lit) r) T.
Proof.
  unfold starts. intros Hr H. apply bool_decide_eq_true in H.
  rewrite <- (take_drop (length lit) r) in Hr |- * at 1. split; [|by eapply suffix_drop_l].
  rewrite H in Hr |- *. by apply go_rest.
Qed.

End Cursor.

(** ** Memory growth *)

(** No object lies beyond the next address of [new]. *)
Definition mem_ok (s : mem) : Prop := forall a, a ∈ dom (objs s) -> (a < fresh s)%positive.

(** [s'] is [s] with the objects of [D] added and, unless [d], nothing else. *)
Record ext (s s' : mem) (D : gset addr) (d : bool) : Prop := {
  ext_sub : objs s ⊆ objs s';
  ext_new : D ## dom (objs s);
  ext_in : D ⊆ dom (objs s');
  ext_all : d = false -> dom (objs s') ⊆ dom (objs s) ∪ D;
  ext_ok : mem_ok s'
}.

Lemma ext_refl s d : mem_ok s -> ext s s ∅ d.
Proof. intros H. split; [done|set_solver..|done]. Qed.

Lemma ext_dom s s' D d : ext s s' D d -> dom (objs s) ⊆ dom (objs s').
Proof. intros H. by apply subseteq_dom, ext_sub with D d. Qed.

Lemma ext_weaken s s' D D' d d' : ext s s' D d -> D' ⊆ D -> (d' = false -> d = false /\ D' = D) ->
  ext s s' D' d'.
Proof.
  intros [H1 H2 H3 H4 H5] HD Hd. split; [done|set_solver|set_solver| |done].
  intros E. destruct (Hd E) as [-> ->]. by apply H4.
Qed.

Lemma ext_trans s1 s2 s3 D D' d d' : ext s1 s2 D d -> ext s2 s3 D' d' -> ext s1 s3 (D ∪ D') (d || d').
Proof.
  intros H H'. pose proof (ext_dom _ _ _ _ H) as Hd. pose proof (ext_dom _ _ _ _ H') as Hd'.
  destruct H as [H1 H2 H3 H4 H5], H' as [H1' H2' H3' H4' H5']. split.
  - by etrans.
  - set_solver +H2 H2' Hd.
  - set_solver +H3 H3' Hd'.
  - intros [-> ->]%orb_false_iff. specialize (H4 eq_refl). specialize (H4' eq_refl). set_solver +H4 H4'.
  - done.
Qed.

Lemma ext_new_disjoint s s' s'' D D' d d' : ext s s' D d -> ext s' s'' D' d' -> D ## D'.
Proof. intros H H'. pose proof (ext_in _ _ _ _ H). pose proof (ext_new _ _ _ _ H'). set_solver. Qed.

Lemma ext_repr s s' D d p t E : ext s s' D d -> repr (objs s) p t E -> repr (objs s') p t E.
Proof.
  intros H Hr. eapply repr_agree; [done|]. intros a Ha. apply repr_dom in Hr.
  assert (a ∈ dom (objs s)) as [x Hx]%elem_of_dom by set_solver.
  rewrite Hx. by eapply lookup_weaken, ext_sub.
Qed.

Lemma ext_reprs s s' D d l ts E : ext s s' D d -> reprs (objs s) l ts E -> reprs (objs s') l ts E.
Proof.
  intros H Hr. induction Hr; constructor; [by eapply ext_repr|done|done].
Qed.

(** Freeing what was added. *)
Lemma ext_cut s s' D d : ext s s' D d -> ext s (set_objs (cut D (objs s')) s') ∅ d.
Proof.
  intros [H1 H2 H3 H4 H5].
  split; cbn [objs set_objs].
  - apply map_subseteq_spec. intros a x Hx. rewrite lookup_cut, decide_False; [by eapply lookup_weaken|].
    apply elem_of_dom_2 in Hx. set_solver.
  - set_solver.
  - set_solver.
  - intros E a [Ha Hx]%dom_cut. specialize (H4 E). set_solver.
  - intros a [_ Ha]%dom_cut. by apply H5.
Qed.

Lemma ext_same s s' : ext s s' ∅ false -> objs s' = objs s.
Proof.
  intros [H1 _ _ H4 _]. symmetry. apply map_subseteq_size_eq; [done|].
  rewrite <- !size_dom. apply subseteq_size. specialize (H4 eq_refl). set_solver.
Qed.

Lemma new_ext s x : mem_ok s ->
  exists a s', new x s = Ok (a, s') /\ ext s s' {[a]} false /\ objs s' !! a = Some x.
Proof.
  intros Hs. eexists _, _. split; [done|]. cbn [objs].
  assert (objs s !! fresh s = None) as Hn.
  { apply not_elem_of_dom. intros H%Hs. lia. }
  split; [|apply lookup_insert_eq]. split; cbn [objs].
  - by apply insert_subseteq.
  - apply not_elem_of_dom in Hn. set_solver.
  - rewrite dom_insert_L. set_solver.
  - rewrite dom_insert_L. set_solver.
  - intros a. cbn [objs fresh]. rewrite dom_insert_L. intros [->%elem_of_singleton|Ha%Hs]%elem_of_union; lia.
Qed.

(** A new [JValue] and a set of it. *)
Lemma new_set_ext {A} s (f : addr -> M mem unit) t w sv (k : addr -> M mem A) : mem_ok s -> is_base t ->
  (forall a w0 s', objs s' !! a = Some (JValue eJ_NULL (wrap 32 w0) []) ->
     f a s' = Ok (tt, set_objs (<[a := JValue t (w w0) sv]> (objs s')) s')) ->
  exists a s' w0, ext s s' {[a]} false /\ repr (objs s') (Some a) (val_tree t (w w0) sv) {[a]} /\
    (new_JValue ≫= fun a => f a ;; k a) s = k a s'.
Proof.
  intros Hs Ht Hf. destruct (new_ext s (JValue eJ_NULL (wrap 32 (junk s (fresh s))) []) Hs) as (a & s' & E & Hx & Ha).
  eexists a, _, (junk s (fresh s)). split; [|split].
  3: { erewrite bind_ok by exact E. erewrite bind_ok by (by apply Hf). reflexivity. }
  - destruct Hx as [H1 H2 H3 H4 H5]. split; cbn [objs set_objs].
    + apply map_subseteq_spec. intros b x Hb. rewrite lookup_insert_ne; [by eapply lookup_weaken|].
      apply elem_of_dom_2 in Hb. set_solver.
    + done.
    + rewrite dom_insert_L. set_solver.
    + rewrite dom_insert_L. specialize (H4 eq_refl). set_solver.
    + intros b. cbn [objs fresh set_objs]. rewrite dom_insert_L. intros [->%elem_of_singleton|Hb]%elem_of_union; apply H5; [set_solver|done].
  - constructor; [cbn; apply lookup_insert_eq|done].
Qed.

(** ** The reader agrees with [parse] *)
Section Agree.
Context (T : list Z) (o : option addr).

Abbreviation at_rest := (at_rest T o).

(** The result of a reading command started in the memory [s]. *)
Definition agrees (res : outcome (option addr * (mem * JsonBuff))) (x : pres jtree) (s : mem) : Prop :=
  match x with
  | PSome t r d => suffix r T /\ exists a s' D, res = Ok (Some a, (s', at_rest r)) /\ ext s s' D d /\
      repr (objs s') (Some a) t D
  | PFail r d => suffix r T /\ exists s', res = Ok (None, (s', at_rest r)) /\ ext s s' ∅ d
  | PThrow => res = Throw
  | PFuel => res = OutOfFuel
  end.

(** The command [f] on a new [JValue] that becomes the value [v]. *)
Definition makes (f : addr -> M mem unit) (v : jtree) : Prop := exists t w sv, is_base t /\
  (forall w0, val_tree t (w w0) sv = v) /\
  forall a w0 s', objs s' !! a = Some (JValue eJ_NULL (wrap 32 w0) []) ->
     f a s' = Ok (tt, set_objs (<[a := JValue t (w w0) sv]> (objs s')) s').

Ltac makes_tac := intros a w0 s' Ha;
  cbv beta delta [JVal.setNull JVal.setBool JVal.setInt JVal.setFloat JVal.setStr mbind M_bind bind
    obind as_value load store ret undef];
  rewrite Ha; cbn; rewrite ?Ha; reflexivity.

Lemma makes_null : makes JVal.setNull TNull.
Proof. exists eJ_NULL, (wrap 32), []. split_and!; [by split|done|]. makes_tac. Qed.
Lemma makes_bool b : makes (fun a => JVal.setBool a b) (TBool b).
Proof.
  exists eJ_BOOL, (fun w0 => wrap 32 w0 / 256 * 256 + Z.b2z b), [].
  split_and!; [by split| |makes_tac]. intros w0. cbn. unfold JVal.bv. f_equal.
  rewrite Z.add_comm, Z.mod_add by lia. by destruct b.
Qed.
Lemma makes_int v : in_i 32 v -> makes (fun a => JVal.setInt a v) (TInt v).
Proof.
  intros Hv. exists eJ_INT, (fun _ => wrap 32 v), []. split_and!; [by split| |makes_tac].
  intros _. cbn. unfold JVal.iv. by rewrite sext_wrap, sext_small.
Qed.
Lemma makes_float w : makes (fun a => JVal.setFloat a w) (TFloat w).
Proof. exists eJ_FLOAT, (fun _ => w), []. split_and!; [by split|done|]. makes_tac. Qed.
Lemma makes_str s : makes (fun a => JVal.setStr a s) (TStr s).
Proof. exists eJ_STRING, (wrap 32), s. split_and!; [by split|done|]. makes_tac. Qed.

Lemma makes_ok f v s b (k : addr -> R (option addr)) : makes f v -> mem_ok s ->
  exists a s', ext s s' {[a]} false /\ repr (objs s') (Some a) v {[a]} /\
    (on_mem new_JValue ≫= fun a => on_mem (f a) ;; k a) (s, b) = k a (s', b).
Proof.
  intros (t & w & sv & Ht & Hv & Hf) Hs.
  destruct (new_set_ext s f t w sv (fun a => ret a) Hs Ht Hf) as (a & s' & w0 & Hx & Hr & E).
  rewrite Hv in Hr. exists a, s'. split_and!; [done..|].
  unfold mbind, M_bind, bind, obind, ret in E |- *. unfold on_mem, obind.
  destruct (new_JValue s) as [[a1 s1]| | |]; try discriminate E.
  destruct (f a1 s1) as [[[] s2]| | |]; try discriminate E. by injection E as -> ->.
Qed.

Lemma stoi_range r v : stoi r = Some v -> in_i 32 v.
Proof.
  unfold stoi. destruct (sign _) as [neg l]. destruct (span isdigit l) as [[|c ds] ?]; [done|].
  intros H. case_match; [|done]. injection H as <-. unfold in_i. change (2 ^ (32 - 1)) with 2147483648.
  bool_arith. lia.
Qed.

(** A literal: the object is made and the cursor moves past it. *)
Lemma lit_agrees f v s r lit n : makes f v -> mem_ok s -> suffix r T -> starts lit r = true ->
  n = length lit ->
  agrees ((on_mem new_JValue ≫= fun obj => on_mem (f obj) ;; go n ;; ret (Some obj)) (s, at_rest r))
    (PSome v (drop n r) false) s.
Proof.
  intros Hf Hs Hr Hl ->. destruct (starts_go T o s r lit Hr Hl) as [_ Hsuf].
  destruct (makes_ok f v s (at_rest r) (fun obj => go (length lit) ;; ret (Some obj)) Hf Hs) as (a & s' & Hx & Hrep & ->).
  split; [done|]. exists a, s', {[a]}. split_and!; [|done..].
  by rewrite (bind_ok _ _ _ _ _ (proj1 (starts_go T o s' r lit Hr Hl))).
Qed.

Lemma readBase_agrees s r : mem_ok s -> suffix r T -> agrees (readBase (s, at_rest r)) (pbase r) s.
Proof.
  intros Hs Hr. unfold readBase, pbase. erewrite bind_ok by reflexivity.
  change (p (at_rest r)) with (length T - length r)%nat.
  step strncmp_rest. destruct (starts lit_null r) eqn:E1; [by eapply lit_agrees; [apply makes_null|..]|].
  step strncmp_rest. destruct (starts lit_false r) eqn:E2; [by eapply lit_agrees; [apply makes_bool|..]|].
  step strncmp_rest. destruct (starts lit_true r) eqn:E3; [by eapply lit_agrees; [apply makes_bool|..]|].
  step (deref_rest T o). 
  set (r1 := if cur r =? 45 then list.tail r else r).
  assert ((if cur r =? 45 then go 1 else ret tt) (s, at_rest r) = Ok (tt, (s, at_rest r1)) /\ suffix r1 T) as [Hgo Hr1].
  { subst r1. destruct (Z.eqb_spec (cur r) 45) as [Hc|]; [|done]. apply go_tl; [done|by rewrite Hc]. }
  step Hgo. erewrite bind_ok by reflexivity. cbn [text].
  destruct (number_loop_rest T o s r1 (S (length T)) false 0 Hr1) as [Hn Hr2].
  { apply suffix_length in Hr1. lia. }
  erewrite bind_ok by exact Hn. destruct (pnumber r1 false 0) as [[[b n]|] r2]; cbn [fst snd] in *.
  2: { split; [done|]. exists s. split; [done|by apply ext_refl]. }
  destruct (negb (n =? 0)).
  - destruct (pnum_value b r) as [t|] eqn:Et; unfold pnum_value in Et.
    + split; [done|].
      assert (exists f, makes f t /\ forall s b', (if b then v ← or_throw (stof r); on_mem (JVal.setFloat b' v)
         else v ← or_throw (stoi r); on_mem (JVal.setInt b' v)) s = on_mem (f b') s) as (f & Hf & Ef).
      { destruct b; [destruct (stof r) as [v|]|destruct (stoi r) as [v|] eqn:Ev]; try done; injection Et as <-.
        - exists (fun a => JVal.setFloat a v). split; [apply makes_float|done].
        - exists (fun a => JVal.setInt a v). split; [by eapply makes_int, stoi_range|done]. }
      destruct (makes_ok f t s (at_rest r2) (fun obj => ret (Some obj)) Hf Hs) as (a & s' & Hx & Hrep & E).
      exists a, s', {[a]}. split_and!; [|done..].
      destruct (new_ext s (JValue eJ_NULL (wrap 32 (junk s (fresh s))) []) Hs) as (a1 & s1 & Enew & _).
      apply (on_mem_ok new_JValue s a1 s1 (at_rest r2)) in Enew.
      erewrite bind_ok in E by exact Enew. erewrite bind_ok by exact Enew. step cstr_rest.
      refine (eq_trans _ E). unfold mbind, M_bind, bind, obind in Ef |- *. by rewrite Ef.
    + destruct (new_ext s (JValue eJ_NULL (wrap 32 (junk s (fresh s))) []) Hs) as (a1 & s1 & Enew & _).
      apply (on_mem_ok new_JValue s a1 s1 (at_rest r2)) in Enew.
      cbn. erewrite bind_ok by exact Enew. step cstr_rest. apply bind_throw. destruct b; [destruct (stof r)|destruct (stoi r)]; done.
  - destruct (readStr_rest T o s r2 Hr2) as [Hs' Hr3]. erewrite bind_ok by exact Hs'.
    destruct (pstr r2) as [[str|] r3]; cbn [fst snd] in *.
    + split; [done|]. destruct (makes_ok _ _ s (at_rest r3) (fun obj => ret (Some obj)) (makes_str str) Hs) as (a & s' & Hx & Hrep & E).
      by exists a, s', {[a]}.
    + split; [done|]. exists s. split; [done|by apply ext_refl].
Qed.

Lemma fail_agrees s0 s l ts D d r : ext s0 s D d -> reprs (objs s) l ts D -> suffix r T ->
  agrees (fail_with l (s, at_rest r)) (PFail r d) s0.
Proof.
  intros Hx Hr Hsuf. split; [done|]. eexists. split.
  - unfold fail_with. erewrite bind_ok; [reflexivity|]. apply on_mem_ok. by eapply delete_ptrs_repr.
  - by apply ext_cut.
Qed.

Lemma map_set_reprs h k p t Dp : repr h p t Dp -> forall m tm D, fst <$> m = fst <$> tm ->
  reprs h (snd <$> m) (snd <$> tm) D -> D ## Dp ->
  exists D', reprs h (snd <$> map_set k p m) (snd <$> map_set k t tm) D' /\ D' ⊆ D ∪ Dp /\
    (has_key k tm = false -> D' = D ∪ Dp).
Proof.
  intros Hp. induction m as [|[k1 p1] m IH]; intros [|[k2 t2] tm] D E Hr Hd; rewrite ?fmap_cons in *; try done.
  - inversion Hr; subst. exists (Dp ∪ ∅). split_and!; [by constructor; [|constructor|set_solver]|set_solver|set_solver].
  - injection E as -> E. inversion Hr as [|? ? D1 ? ? D2 Hp1 Hm Hd12]; subst. unfold has_key. cbn [map_set map_find].
    destruct (kltb k k2) eqn:E1.
    { exists (Dp ∪ (D1 ∪ D2)). rewrite !fmap_cons. split_and!; [|set_solver|set_solver].
      constructor; [done|by constructor|set_solver]. }
    destruct (kltb k2 k) eqn:E2.
    + destruct (IH tm D2 E Hm) as (D' & Hr' & Hs & Hk); [set_solver|].
      exists (D1 ∪ D'). rewrite !fmap_cons.
      split_and!; [constructor; [done..|set_solver +Hs Hd Hd12]|set_solver +Hs|].
      rewrite decide_False by (intros ->; by rewrite kltb_irrefl in E2).
      intros Hf. rewrite (Hk Hf). set_solver.
    + exists (Dp ∪ D2). rewrite !fmap_cons. split_and!; [constructor; [done..|set_solver]|set_solver|].
      by rewrite decide_True by (by apply kltb_total).
Qed.

(** What one more object read adds to a container being read. *)
Lemma read_more s0 s1 s2 D d D' d' l ts a t : ext s0 s1 D d -> reprs (objs s1) l ts D ->
  ext s1 s2 D' d' -> repr (objs s2) (Some a) t D' ->
  ext s0 s2 (D ∪ D') (d || d') /\ reprs (objs s2) l ts D /\ D ## D'.
Proof.
  intros Hx Hr Hx' Ht. split_and!; [by eapply ext_trans|by eapply ext_reprs|by eapply ext_new_disjoint].
Qed.

(** A container object made of what was read. *)
Lemma make_agrees s0 s1 D d x t r : ext s0 s1 D d -> suffix r T ->
  (forall h a, same_on D (objs s1) h -> h !! a = Some x -> a ∉ D -> repr h (Some a) t ({[a]} ∪ D)) ->
  agrees ((on_mem (new x) ≫= fun a => ret (Some a)) (s1, at_rest r)) (PSome t r d) s0.
Proof.
  intros Hx Hr Hrep. split; [done|].
  destruct (new_ext s1 x (ext_ok _ _ _ _ Hx)) as (a & s2 & E & Hx2 & Ha).
  exists a, s2, ({[a]} ∪ D). split_and!.
  - by rewrite (bind_ok _ _ _ _ _ (on_mem_ok _ _ _ _ _ E)).
  - rewrite union_comm_L, <- (orb_false_r d). by eapply ext_trans.
  - apply Hrep; [|done|].
    + intros b Hb. assert (b ∈ dom (objs s1)) as [y Hy]%elem_of_dom by (by apply (ext_in _ _ _ _ Hx)).
      rewrite Hy. by eapply lookup_weaken, ext_sub.
    + pose proof (ext_new_disjoint _ _ _ _ _ _ _ Hx Hx2). set_solver.
Qed.

Definition keyed (m : list (list Z * option addr)) (tm : list (list Z * jtree)) : Prop :=
  fst <$> m = fst <$> tm /\ sorted m.

Lemma keyed_set k a t m tm : keyed m tm -> keyed (map_set k a m) (map_set k t tm).
Proof. intros [H Hs]. split; [by apply map_set_keys|by apply map_set_sorted]. Qed.

Lemma zip_keys {A B} (m : list (list Z * A)) (tm : list (list Z * B)) : fst <$> m = fst <$> tm ->
  zip (fst <$> m) (snd <$> tm) = tm.
Proof.
  revert tm. induction m as [|[k a] m IH]; intros [|[k' b] tm] E; rewrite ?fmap_cons in *; try done.
  injection E as -> E. cbn [zip_with snd fst]. f_equal. by apply IH.
Qed.

Lemma reader_agrees f :
  (forall s r, mem_ok s -> suffix r T -> agrees (reader f (s, at_rest r)) (pvalue f r) s) /\
  (forall test l ts r d s0 s D, ext s0 s D d -> reprs (objs s) (Some <$> l) ts D -> suffix r T ->
     agrees (array_loop f test l (s, at_rest r)) (parray f test ts r d) s0) /\
  (forall test m tm r d s0 s D, ext s0 s D d -> reprs (objs s) (snd <$> m) (snd <$> tm) D -> keyed m tm ->
     suffix r T -> agrees (obj_loop f test m (s, at_rest r)) (pobject f test tm r d) s0).
Proof.
  induction f as [|f (IHv & IHa & IHo)]; [done|]. split_and!.
  - intros s r Hs Hr. cbn [reader pvalue]. step skip_rest. pose proof (skipws_suffix T r Hr) as Hr'.
    set (r1 := skipws r) in *. step peek_rest.
    destruct (Z.eqb_spec (cur r1) 91) as [Hc|_]; [|destruct (Z.eqb_spec (cur r1) 123) as [Hc|_]].
    + destruct (go_tl T o s r1 Hr') as [Hg Ht]; [by rewrite Hc|]. step Hg.
      eapply IHa; [by apply ext_refl|constructor|done].
    + destruct (go_tl T o s r1 Hr') as [Hg Ht]; [by rewrite Hc|]. step Hg.
      eapply IHo; [by apply ext_refl|constructor|split; [done|constructor]|done].
    + by apply readBase_agrees.
  - intros test l ts r d s0 s D Hx Hr Hsuf. cbn [array_loop parray]. step peek_rest.
    destruct (test && ((cur r =? 93) || (cur r =? 0))).
    { destruct (Z.eqb_spec (cur r) 93) as [Hc|_]; [|by eapply fail_agrees].
      destruct (go_tl T o s r Hsuf) as [Hg Ht]; [by rewrite Hc|]. step Hg.
      eapply make_agrees; [done..|]. intros h a Hh Ha Hn. econstructor; [done| |done]. by eapply reprs_agree. }
    specialize (IHv s r (ext_ok _ _ _ _ Hx) Hsuf). destruct (pvalue f r) as [t r' d'|r' d'| |]; cbn in IHv.
    + destruct IHv as (Hr' & a & s' & D' & E & Hx' & Ha). erewrite bind_ok by exact E.
      destruct (read_more _ _ _ _ _ _ _ _ _ _ _ Hx Hr Hx' Ha) as (Hx2 & Hr2 & Hd).
      assert (reprs (objs s') (Some <$> (l ++ [a])) (ts ++ [t]) (D ∪ D')) as Hall.
      { rewrite fmap_app. apply reprs_app; [done| |done]. rewrite <- (union_empty_r_L D').
        constructor; [done|constructor|set_solver]. }
      step skip_rest. pose proof (skipws_suffix T r' Hr') as Hr3. set (r3 := skipws r') in *. step peek_rest.
      destruct (Z.eqb_spec (cur r3) 44) as [Hc|_]; [|by eapply IHa].
      destruct (go_tl T o s' r3 Hr3) as [Hg Ht]; [by rewrite Hc|]. step Hg. by eapply IHa.
    + destruct IHv as (Hr' & s' & E & Hx'). erewrite bind_ok by exact E.
      eapply fail_agrees; [|by eapply ext_reprs|done].
      rewrite <- (union_empty_r_L D). by eapply ext_trans.
    + by apply bind_throw.
    + by apply bind_fuel.
  - intros test m tm r d s0 s D Hx Hr Hk Hsuf. cbn [obj_loop pobject]. step peek_rest.
    destruct (test && ((cur r =? 125) || (cur r =? 0))).
    { destruct (Z.eqb_spec (cur r) 125) as [Hc|_]; [|by eapply fail_agrees].
      destruct (go_tl T o s r Hsuf) as [Hg Ht]; [by rewrite Hc|]. step Hg.
      rewrite map_copy by apply Hk. eapply make_agrees; [done..|]. intros h a Hh Ha Hn.
      rewrite <- (zip_keys m tm) by apply Hk. econstructor; [done| |done|apply Hk]. by eapply reprs_agree. }
    step skip_rest. pose proof (skipws_suffix T r Hsuf) as Hr1. set (r1 := skipws r) in *. step peek_rest.
    destruct (cur r1 =? 34); [|by eapply fail_agrees].
    destruct (readStr_rest T o s r1 Hr1) as [Es Hr2]. erewrite bind_ok by exact Es.
    destruct (pstr r1) as [[k|] r2]; cbn [fst snd] in *; [|by eapply fail_agrees].
    step peek_rest. destruct (Z.eqb_spec (cur r2) 58) as [Hc|_]; cbn [negb]; [|by eapply fail_agrees].
    destruct (go_tl T o s r2 Hr2) as [Hg Hr3]; [by rewrite Hc|]. step Hg.
    specialize (IHv s (list.tail r2) (ext_ok _ _ _ _ Hx) Hr3).
    destruct (pvalue f (list.tail r2)) as [t r' d'|r' d'| |]; cbn in IHv.
    + destruct IHv as (Hr' & a & s' & D' & E & Hx' & Ha). erewrite bind_ok by exact E.
      destruct (read_more _ _ _ _ _ _ _ _ _ _ _ Hx Hr Hx' Ha) as (Hx2 & Hr4 & Hd).
      destruct (map_set_reprs _ k _ _ _ Ha m tm D (proj1 Hk) Hr4 Hd) as (D2 & Hall & Hsub & Hdup).
      assert (ext s0 s' D2 (d || d' || has_key k tm)) as Hx3.
      { eapply ext_weaken; [exact Hx2|done|]. intros [-> Hn]%orb_false_iff. split; [done|by apply Hdup]. }
      pose proof (keyed_set k (Some a) t m tm Hk) as Hk'.
      step skip_rest. pose proof (skipws_suffix T r' Hr') as Hr5. set (r3 := skipws r') in *. step peek_rest.
      destruct (Z.eqb_spec (cur r3) 44) as [Hc3|_]; [|by eapply IHo].
      destruct (go_tl T o s' r3 Hr5) as [Hg3 Ht]; [by rewrite Hc3|]. step Hg3. by eapply IHo.
    + destruct IHv as (Hr' & s' & E & Hx'). erewrite bind_ok by exact E.
      eapply fail_agrees; [|by eapply ext_reprs|done].
      rewrite <- (union_empty_r_L D). by eapply ext_trans.
    + by apply bind_throw.
    + by apply bind_fuel.
Qed.

End Agree.
End JsonRead.
