(* ===== verification/JsonGrammar.v ===== *)
(** * JsonGrammar: the texts the JSON reader accepts

    The grammar of the texts the reader turns into a tree, with what it
    tolerates (commas between elements may be missing, a sign before a string)
    and what it refuses (blanks in an empty container, before a colon, empty
    strings).  Here: [parse] terminates and accepts exactly the grammar, and
    what [print] writes is in the grammar and means the tree written. *)
From stdpp Require Import gmap.
From S2P Require Import Prelude StdNum Json JsonTree JsonText.
From S2P Require Import JsonRead.

Module JsonGrammar.
Import StdNum Json JsonTree JsonText.

(** ** The grammar *)

Definition blanks (ws : list Z) : Prop := Forall (fun c => blank c = true) ws.
Definition str_char (c : Z) : bool := in_str c.

(** Digits with at most one point; a digit is there. *)
Definition numchar (c : Z) : bool := (c =? 46) || isdigit c.
Definition points (l : list Z) : nat := length (filter (fun c => c = 46) l).
Definition number_body (isfloat : bool) (l : list Z) : Prop :=
  Forall (fun c => numchar c = true) l /\ points l = (if isfloat then 1 else 0)%nat /\ (points l < length l)%nat.

Definition minus (neg : bool) : list Z := if neg then [45] else [].
Definition point (b : bool) : list Z := if b then [46] else [].

(** [jbase r t r']: the text [r] starts with the simple value [t], and [r'] follows. *)
Inductive jbase : list Z -> jtree -> list Z -> Prop :=
| b_null r : jbase (lit_null ++ r) TNull r
| b_false r : jbase (lit_false ++ r) (TBool false) r
| b_true r : jbase (lit_true ++ r) (TBool true) r
| b_number neg isfloat num r t :
    number_body isfloat num -> stops numchar r ->
    pnum_value isfloat (minus neg ++ num ++ r) = Some t ->
    jbase (minus neg ++ num ++ r) t r
| b_string neg dot s r :
    s <> [] -> Forall (fun c => str_char c = true) s ->
    jbase (minus neg ++ point dot ++ 34 :: s ++ 34 :: r) (TStr s) r.

(** [jvalue]: a value after blanks.  [jitems test]: the items of an array
    after its bracket ([test = true]) or after a comma, to its end.
    [jmembers test r m0 m r']: likewise for an object that has the members
    [m0] already. *)
Inductive jvalue : list Z -> jtree -> list Z -> Prop :=
| v_base ws r t r' : blanks ws -> jbase r t r' -> jvalue (ws ++ r) t r'
| v_array ws r ts r' : blanks ws -> jitems true r ts r' -> jvalue (ws ++ 91 :: r) (TArr ts) r'
| v_object ws r m r' : blanks ws -> jmembers true r [] m r' -> jvalue (ws ++ 123 :: r) (TObj m) r'
with jitems : bool -> list Z -> list jtree -> list Z -> Prop :=
| i_end r : jitems true (93 :: r) [] r
| i_comma test r t ws r1 ts r' :
    jvalue r t (ws ++ 44 :: r1) -> blanks ws -> jitems false r1 ts r' -> jitems test r (t :: ts) r'
| i_next test r t ws r1 ts r' :
    jvalue r t (ws ++ r1) -> blanks ws -> stops blank r1 -> cur r1 <> 44 ->
    jitems true r1 ts r' -> jitems test r (t :: ts) r'
with jmembers : bool -> list Z -> list (list Z * jtree) -> list (list Z * jtree) -> list Z -> Prop :=
| m_end m r : jmembers true (125 :: r) m m r
| m_comma test ws k r t ws' r1 m m' r' :
    blanks ws -> k <> [] -> Forall (fun c => str_char c = true) k ->
    jvalue r t (ws' ++ 44 :: r1) -> blanks ws' -> jmembers false r1 (map_set k t m) m' r' ->
    jmembers test (ws ++ 34 :: k ++ 34 :: 58 :: r) m m' r'
| m_next test ws k r t ws' r1 m m' r' :
    blanks ws -> k <> [] -> Forall (fun c => str_char c = true) k ->
    jvalue r t (ws' ++ r1) -> blanks ws' -> stops blank r1 -> cur r1 <> 44 ->
    jmembers true r1 (map_set k t m) m' r' ->
    jmembers test (ws ++ 34 :: k ++ 34 :: 58 :: r) m m' r'.

Scheme jvalue_mind := Minimality for jvalue Sort Prop
  with jitems_mind := Minimality for jitems Sort Prop
  with jmembers_mind := Minimality for jmembers Sort Prop.
Combined Scheme json_ind from jvalue_mind, jitems_mind, jmembers_mind.

(** A whole text. *)
Definition jtext (T : list Z) (t : jtree) : Prop := exists r, jvalue T t r /\ blanks r.

(** ** Reading makes progress *)

Lemma span_length p l : (length (snd (span p l)) <= length l)%nat.
Proof. destruct (span_parts p l) as [E _]. rewrite E at 2. rewrite length_app. lia. Qed.

Lemma skipws_length r : (length (skipws r) <= length r)%nat.
Proof. apply span_length. Qed.

Lemma tl_length (r : list Z) : (length (tl r) <= length r)%nat.
Proof. destruct r; cbn; lia. Qed.

Lemma tl_less (r : list Z) : cur r <> 0 -> (length (tl r) < length r)%nat.
Proof. destruct r; cbn; [done|lia]. Qed.

Lemma pstr_length r : (length (snd (pstr r)) <= length r)%nat /\
  (is_Some (fst (pstr r)) -> (length (snd (pstr r)) < length r)%nat).
Proof.
  unfold pstr. destruct (Z.eqb_spec (cur r) 34) as [Hc|_]; [|split; [done|by intros []]].
  destruct r as [|c r]; [done|]. cbn [tl length]. pose proof (span_length in_str r) as Hl.
  destruct (span in_str r) as [[|x a] b]; cbn [fst snd] in *; [split; [lia|by intros []]|].
  pose proof (tl_length b). destruct (cur b =? 34); cbn [fst snd]; split; try lia; by intros [].
Qed.

Lemma pnumber_length r b k : (length (snd (pnumber r b k)) <= length r)%nat /\
  (forall b' k' r', pnumber r b k = (Some (b', k'), r') -> k <= k' /\ (k' <> k -> (length r' < length r)%nat)).
Proof.
  revert b k. induction r as [|c r IH]; intros b k; cbn [pnumber]; [split; [done|]; intros ? ? ? [= <- <- <-]; lia|].
  destruct ((c =? 46) || isdigit c); [|split; [done|]; intros ? ? ? [= <- <- <-]; lia].
  destruct (c =? 46); [destruct b; [split; [done|done]|]|]; cbn [length].
  - destruct (IH true k) as [H1 H2]. split; [lia|]. intros b' k' r' E. destruct (H2 _ _ _ E). split; [done|lia].
  - destruct (IH b (k + 1)) as [H1 H2]. split; [lia|]. intros b' k' r' E. rewrite E in H1. cbn in H1.
    destruct (H2 _ _ _ E). split; lia.
Qed.

Lemma lit_starts_length lit r : starts lit r = true -> r = lit ++ drop (length lit) r.
Proof. intros H%bool_decide_eq_true. by rewrite <- H at 1; rewrite take_drop. Qed.

(** Exactly the numbers of jbase are read as numbers. *)
Definition less (x : pres jtree) (r : list Z) : Prop :=
  match x with PSome _ r' _ => (length r' < length r)%nat | _ => True end.

Lemma pbase_less r : less (pbase r) r.
Proof.
  unfold pbase.
  destruct (starts lit_null r) eqn:E1; [apply lit_starts_length in E1; apply (f_equal length) in E1; rewrite length_app in E1; cbn in *; lia|].
  destruct (starts lit_false r) eqn:E2; [apply lit_starts_length in E2; apply (f_equal length) in E2; rewrite length_app in E2; cbn in *; lia|].
  destruct (starts lit_true r) eqn:E3; [apply lit_starts_length in E3; apply (f_equal length) in E3; rewrite length_app in E3; cbn in *; lia|].
  set (r1 := if cur r =? 45 then tl r else r).
  assert (length r1 <= length r)%nat as H1 by (pose proof (tl_length r); subst r1; split_if; lia).
  destruct (pnumber_length r1 false 0) as [Hl Hn]. destruct (pnumber r1 false 0) as [[[b k]|] r2] eqn:E; [|done].
  cbn [snd] in Hl. destruct (Z.eqb_spec k 0) as [->|Hk]; cbn [negb].
  - destruct (pstr_length r2) as [_ Hs]. destruct (pstr r2) as [[s|] r3]; cbn in *; [|done].
    specialize (Hs ltac:(by eexists)). lia.
  - destruct (pnum_value b r); [|done]. cbn. destruct (Hn _ _ _ eq_refl) as [_ Hlt]. specialize (Hlt Hk). lia.
Qed.

Lemma pvalue_less f :
  (forall r, less (pvalue f r) r) /\
  (forall test ts r d, less (parray f test ts r d) r) /\
  (forall test m r d, less (pobject f test m r d) r).
Proof.
  induction f as [|f (IHv & IHa & IHo)]; [done|]. split_and!.
  - intros r. cbn [pvalue]. pose proof (skipws_length r) as Hs. set (r1 := skipws r) in *.
    assert (forall x, less x (tl r1) -> less x r) as Hx.
    { intros x. destruct x; cbn; try done. pose proof (tl_length r1). lia. }
    destruct (cur r1 =? 91); [apply Hx, IHa|]. destruct (cur r1 =? 123); [apply Hx, IHo|].
    pose proof (pbase_less r1) as Hb. destruct (pbase r1); cbn in *; try done; lia.
  - intros test ts r d. cbn [parray]. destruct (test && _).
    { destruct (Z.eqb_spec (cur r) 93) as [Hc|]; [|done]. cbn. apply tl_less. by rewrite Hc. }
    specialize (IHv r). destruct (pvalue f r) as [t r' d'| | |]; try done. cbn in IHv.
    pose proof (skipws_length r') as Hs. set (r1 := skipws r') in *. pose proof (tl_length r1) as Ht.
    assert (forall x r2, less x r2 -> (length r2 <= length r1)%nat -> less x r) as Hx.
    { intros x r2. destruct x; cbn; try done. lia. }
    destruct (cur r1 =? 44); eapply Hx; [apply IHa|lia|apply IHa|lia].
  - intros test m r d. cbn [pobject]. destruct (test && _).
    { destruct (Z.eqb_spec (cur r) 125) as [Hc|]; [|done]. cbn. apply tl_less. by rewrite Hc. }
    pose proof (skipws_length r) as Hs. set (r1 := skipws r) in *. destruct (cur r1 =? 34); [|done].
    destruct (pstr_length r1) as [Hl _]. destruct (pstr r1) as [[k|] r2]; [|done]. cbn [snd] in Hl.
    destruct (negb (cur r2 =? 58)); [done|]. specialize (IHv (tl r2)). pose proof (tl_length r2).
    destruct (pvalue f (tl r2)) as [t r' d'| | |]; try done. cbn in IHv.
    pose proof (skipws_length r') as Hs'. set (r3 := skipws r') in *. pose proof (tl_length r3) as Ht.
    assert (forall x r2, less x r2 -> (length r2 <= length r3)%nat -> less x r) as Hx.
    { intros x r4. destruct x; cbn; try done. lia. }
    destruct (cur r3 =? 44); eapply Hx; [apply IHo|lia|apply IHo|lia].
Qed.

(** Fuel for the text is enough. *)
Lemma pvalue_fuel f :
  (forall r, (2 * length r + 1 <= f)%nat -> pvalue f r <> PFuel) /\
  (forall test ts r d, (2 * length r + 2 <= f)%nat -> parray f test ts r d <> PFuel) /\
  (forall test m r d, (2 * length r + 2 <= f)%nat -> pobject f test m r d <> PFuel).
Proof.
  induction f as [|f (IHv & IHa & IHo)]; [split_and!; intros; lia|].
  destruct (pvalue_less f) as (Hless & _). split_and!.
  - intros r Hf. cbn [pvalue]. pose proof (skipws_length r) as Hs. set (r1 := skipws r) in *.
    destruct (Z.eqb_spec (cur r1) 91) as [Hc|_]; [|destruct (Z.eqb_spec (cur r1) 123) as [Hc|_]].
    + pose proof (tl_less r1 ltac:(by rewrite Hc)). apply IHa. lia.
    + pose proof (tl_less r1 ltac:(by rewrite Hc)). apply IHo. lia.
    + unfold pbase. repeat case_match; done.
  - intros test ts r d Hf. cbn [parray]. destruct (test && _); [by destruct (cur r =? 93)|].
    specialize (IHv r ltac:(lia)). specialize (Hless r). destruct (pvalue f r) as [t r' d'| | |]; try done. cbn in Hless.
    pose proof (skipws_length r'). pose proof (tl_length (skipws r')).
    destruct (cur (skipws r') =? 44); apply IHa; lia.
  - intros test m r d Hf. cbn [pobject]. destruct (test && _); [by destruct (cur r =? 125)|].
    pose proof (skipws_length r) as Hs. set (r1 := skipws r) in *. destruct (cur r1 =? 34); [|done].
    destruct (pstr_length r1) as [_ Hl]. destruct (pstr r1) as [[k|] r2]; [|done]. cbn [fst snd] in Hl.
    specialize (Hl ltac:(by eexists)). destruct (negb (cur r2 =? 58)); [done|]. pose proof (tl_length r2).
    specialize (IHv (tl r2) ltac:(lia)). specialize (Hless (tl r2)).
    destruct (pvalue f (tl r2)) as [t r' d'| | |]; try done. cbn in Hless.
    pose proof (skipws_length r'). pose proof (tl_length (skipws r')).
    destruct (cur (skipws r') =? 44); apply IHo; lia.
Qed.

Lemma parse_fuel T : parse T <> PFuel.
Proof.
  unfold parse. pose proof (proj1 (pvalue_fuel (2 * S (length T))) T ltac:(lia)) as H.
  destruct (pvalue _ T); try done. by destruct (cur (skipws r) =? 0).
Qed.

(** ** Simple values *)

Lemma pstr_spec r s r' : pstr r = (Some s, r') <->
  r = 34 :: s ++ 34 :: r' /\ s <> [] /\ Forall (fun c => str_char c = true) s.
Proof.
  unfold pstr. split.
  - destruct (Z.eqb_spec (cur r) 34) as [Hc|]; [|done]. destruct r as [|c r]; [done|]. cbn in Hc. subst c. cbn [tl].
    destruct (span_parts in_str r) as [E Ha]. destruct (span in_str r) as [a b]. cbn [fst snd] in *.
    destruct a as [|x a]; [done|]. destruct (Z.eqb_spec (cur b) 34) as [Hb|]; [|done].
    destruct b as [|y b]; [done|]. cbn in Hb. subst y. intros [= <- <-]. by subst r.
  - intros (-> & Hn & Hs). cbn [cur hd tl Z.eqb Pos.eqb].
    rewrite span_app; [|done|by intros c [= <-]]. by destruct s.
Qed.

Lemma points_cons c l : points (c :: l) = ((if decide (c = 46%Z) then 1 else 0) + points l)%nat.
Proof. unfold points. rewrite filter_cons. by destruct (decide (c = 46)). Qed.

Lemma pnumber_sound r b k b' k' r' : pnumber r b k = (Some (b', k'), r') ->
  exists num, r = num ++ r' /\ Forall (fun c => numchar c = true) num /\ stops numchar r' /\
    (points num + (if b then 1 else 0) = (if b' then 1 else 0))%nat /\
    k' = k + Z.of_nat (length num) - Z.of_nat (points num).
Proof.
  revert b k. induction r as [|c r IH]; intros b k; cbn [pnumber].
  { intros [= <- <- <-]. exists []. split_and!; [done|constructor|by intros ?|done|]. cbn. lia. }
  fold (numchar c). destruct (numchar c) eqn:Hc.
  2: { intros [= <- <- <-]. exists []. split_and!; [done|constructor|by intros ? [= <-]|done|]. cbn. lia. }
  destruct (Z.eqb_spec c 46) as [->|Hd].
  - destruct b; [done|]. intros (num & -> & Hn & Hs & Hp & ->)%IH. exists (46 :: num).
    rewrite points_cons, decide_True by done. cbn [length]. split_and!; [done|by constructor|done|lia|lia].
  - intros (num & -> & Hn & Hs & Hp & ->)%IH. exists (c :: num).
    rewrite points_cons, decide_False by done. cbn [length]. split_and!; [done|by constructor|done|lia|lia].
Qed.

Lemma pnumber_app num r (b : bool) k : Forall (fun c => numchar c = true) num -> stops numchar r ->
  (points num + (if b then 1 else 0) <= 1)%nat ->
  pnumber (num ++ r) b k = (Some (b || negb (points num =? 0)%nat, k + Z.of_nat (length num) - Z.of_nat (points num)), r).
Proof.
  intros Hn Hr. revert b k. induction Hn as [|c num Hc Hn IH]; intros b k Hp; cbn [app].
  - destruct r as [|c r]; cbn [pnumber].
    + do 2 f_equal. f_equal; [by rewrite orb_false_r|]. cbn. lia.
    + fold (numchar c). rewrite (Hr c) by done. do 2 f_equal. f_equal; [by rewrite orb_false_r|]. cbn. lia.
  - cbn [pnumber length]. fold (numchar c). rewrite Hc. rewrite points_cons in *.
    destruct (decide (c = 46)) as [->|Hd].
    + destruct b; [lia|]. cbn [Z.eqb Pos.eqb]. rewrite IH by lia. do 3 f_equal. lia.
    + rewrite (proj2 (Z.eqb_neq c 46)) by done. rewrite IH by lia. do 3 f_equal. lia.
Qed.

Lemma minus_cur neg l : cur l <> 45 ->
  (if cur (minus neg ++ l) =? 45 then tl (minus neg ++ l) else minus neg ++ l) = l.
Proof. intros Hl. destruct neg; cbn; [done|]. by rewrite (proj2 (Z.eqb_neq _ _)). Qed.

Lemma pbase_sound r t r' d : pbase r = PSome t r' d -> jbase r t r'.
Proof.
  unfold pbase.
  destruct (starts lit_null r) eqn:E1; [intros [= <- <- <-]; rewrite (lit_starts_length _ _ E1) at 1; constructor|].
  destruct (starts lit_false r) eqn:E2; [intros [= <- <- <-]; rewrite (lit_starts_length _ _ E2) at 1; constructor|].
  destruct (starts lit_true r) eqn:E3; [intros [= <- <- <-]; rewrite (lit_starts_length _ _ E3) at 1; constructor|].
  set (r1 := if cur r =? 45 then tl r else r).
  assert (exists neg, r = minus neg ++ r1) as [neg Er].
  { subst r1. destruct (Z.eqb_spec (cur r) 45) as [Hc|]; [|by exists false].
    destruct r as [|c r]; [done|]. cbn in Hc. subst c. by exists true. }
  clearbody r1.
  destruct (pnumber r1 false 0) as [[[b k]|] r2] eqn:E; [|done].
  apply pnumber_sound in E as (num & E & Hn & Hr & Hp & ->). rewrite Nat.add_0_r in Hp.
  destruct (Z.eqb_spec (0 + Z.of_nat (length num) - Z.of_nat (points num)) 0) as [Hk|Hk]; cbn [negb].
  - destruct (pstr r2) as [[s|] r3] eqn:Es; [|done]. intros [= <- <- <-].
    apply pstr_spec in Es as (-> & Hs & Hs2). rewrite Er, E.
    assert (exists dot, num = point dot) as [dot ->]; [|by apply b_string].
    destruct num as [|c [|c' num]]; [by exists false| |].
    + exists true. rewrite points_cons in Hk. cbn in Hk. destruct (decide (c = 46)); [by subst|]. cbn in Hk. lia.
    + destruct b; cbn [length] in Hk; lia.
  - destruct (pnum_value b r) as [v|] eqn:Ev; [|done]. intros [= <- <- <-]. rewrite Er, E. apply (b_number neg b).
    + split_and!; [done|done|]. assert (points num <= length num)%nat; [|lia]. unfold points.
      apply length_filter.
    + done.
    + by rewrite Er, E in Ev.
Qed.

(** What a simple value can start with. *)
Definition base_start (c : Z) : Prop :=
  c = 110 \/ c = 102 \/ c = 116 \/ c = 45 \/ c = 46 \/ c = 34 \/ isdigit c = true.

Lemma number_start isfloat num r : number_body isfloat num -> exists c l, num ++ r = c :: l /\ numchar c = true.
Proof.
  intros (Hn & _ & Hl). destruct Hn as [|c num Hc Hn]; [cbn in Hl; lia|]. by exists c, (num ++ r).
Qed.

Lemma jbase_start r t r' : jbase r t r' -> exists c l, r = c :: l /\ base_start c.
Proof.
  unfold base_start. destruct 1 as [| | |[] isfloat num r t Hb|[] [] s r]; try (eexists _, _; split; [reflexivity|]; tauto).
  destruct (number_start isfloat num r Hb) as (c & l & E & Hc). exists c, l. split; [done|].
  unfold numchar in Hc. apply orb_true_iff in Hc as [Hc|Hc]; [apply Z.eqb_eq in Hc|]; tauto.
Qed.

Lemma starts_not lit c l r : hd 0 lit <> c -> lit <> [] -> r = c :: l -> starts lit r = false.
Proof. intros H1 H2 ->. apply bool_decide_eq_false. destruct lit; [done|]. cbn in *. congruence. Qed.

Lemma numchar_spec c : numchar c = true -> c = 46 \/ (48 <= c <= 57).
Proof. unfold numchar, isdigit. lia. Qed.

Lemma pbase_complete r t r' : jbase r t r' -> pbase r = PSome t r' false.
Proof.
  intros H. unfold pbase. destruct H as [r|r|r|neg isfloat num r t Hb Hr Hv|neg dot s r Hn Hs]; try reflexivity.
  - destruct (number_start isfloat num r Hb) as (c & l & E & Hc). apply numchar_spec in Hc.
    assert (exists c' l', minus neg ++ num ++ r = c' :: l' /\ (c' = 45 \/ c' = 46 \/ (48 <= c' <= 57))) as (c' & l' & E' & Hc').
    { rewrite E. destruct neg; eexists _, _; split; [reflexivity|tauto|reflexivity|tauto]. }
    rewrite (starts_not lit_null c' l'), (starts_not lit_false c' l'), (starts_not lit_true c' l')
      by (exact E' || done || (cbn; lia)).
    rewrite minus_cur by (rewrite E; cbn; lia). destruct Hb as (Hall & Hp & Hl).
    rewrite pnumber_app; [|done|done|destruct isfloat; lia]. cbn [orb].
    rewrite (proj2 (Z.eqb_neq _ 0)) by lia. cbn [negb].
    assert (negb (points num =? 0)%nat = isfloat) as -> by (rewrite Hp; by destruct isfloat). by rewrite Hv.
  - assert (exists c' l', minus neg ++ point dot ++ 34 :: s ++ 34 :: r = c' :: l' /\ (c' = 45 \/ c' = 46 \/ c' = 34)) as (c' & l' & E' & Hc').
    { destruct neg, dot; eexists _, _; split; try reflexivity; tauto. }
    rewrite (starts_not lit_null c' l'), (starts_not lit_false c' l'), (starts_not lit_true c' l')
      by (exact E' || done || (cbn; lia)).
    rewrite minus_cur by (by destruct dot).
    rewrite pnumber_app; [|by destruct dot; [apply Forall_cons_2; [done|apply Forall_nil_2]|apply Forall_nil_2]|intros c Hc; cbn in Hc; by injection Hc as <-|destruct dot; vm_compute; lia].
    assert (0 + Z.of_nat (length (point dot)) - Z.of_nat (points (point dot)) = 0) as -> by (by destruct dot).
    cbn [negb Z.eqb]. by rewrite (proj2 (pstr_spec _ _ _) (conj eq_refl (conj Hn Hs))).
Qed.

(** ** The reader accepts the grammar, and nothing else *)

Lemma skipws_split r : exists ws, r = ws ++ skipws r /\ blanks ws /\ stops blank (skipws r).
Proof.
  exists (fst (span blank r)). destruct (span_parts blank r) as [E H]. split_and!; [done..|apply span_stops].
Qed.

Lemma skipws_app ws r : blanks ws -> stops blank r -> skipws (ws ++ r) = r.
Proof. intros Hw Hr. unfold skipws. by rewrite span_app. Qed.

Lemma cur_cons (r : list Z) c : c <> 0 -> cur r = c -> r = c :: tl r.
Proof. intros Hc. destruct r as [|x r]; cbn; congruence. Qed.

Lemma pvalue_sound f :
  (forall r t r' d, pvalue f r = PSome t r' d -> jvalue r t r') /\
  (forall test ts r d t r' d', parray f test ts r d = PSome t r' d' ->
     exists ts', t = TArr (ts ++ ts') /\ jitems test r ts' r') /\
  (forall test m r d t r' d', pobject f test m r d = PSome t r' d' ->
     exists m', t = TObj m' /\ jmembers test r m m' r').
Proof.
  induction f as [|f (IHv & IHa & IHo)]; [done|]. split_and!.
  - intros r t r' d. cbn [pvalue]. destruct (skipws_split r) as (ws & E & Hw & _).
    set (r1 := skipws r) in *. rewrite E. clearbody r1.
    destruct (Z.eqb_spec (cur r1) 91) as [Hc|_]; [|destruct (Z.eqb_spec (cur r1) 123) as [Hc|_]].
    + intros (ts & -> & Hi)%IHa. rewrite (cur_cons r1 91) by done. by constructor.
    + intros (m & -> & Hi)%IHo. rewrite (cur_cons r1 123) by done. by constructor.
    + intros Hb%pbase_sound. by constructor.
  - intros test ts r d t r' d'. cbn [parray]. destruct (test && _) eqn:Et.
    { apply andb_true_iff in Et as [-> _]. destruct (Z.eqb_spec (cur r) 93) as [Hc|]; [|done].
      intros [= <- <- <-]. exists []. rewrite app_nil_r, (cur_cons r 93) by done. split; [done|constructor]. }
    destruct (pvalue f r) as [t1 r1 d1| | |] eqn:Ev; try done. apply IHv in Ev.
    destruct (skipws_split r1) as (ws & E & Hw & Hst). set (r2 := skipws r1) in *. clearbody r2. subst r1.
    destruct (Z.eqb_spec (cur r2) 44) as [Hc|Hc]; intros (ts' & -> & Hi)%IHa; exists (t1 :: ts');
      (split; [by rewrite <- app_assoc|]).
    + rewrite (cur_cons r2 44) in Ev by done. by eapply i_comma.
    + by eapply i_next.
  - intros test m r d t r' d'. cbn [pobject]. destruct (test && _) eqn:Et.
    { apply andb_true_iff in Et as [-> _]. destruct (Z.eqb_spec (cur r) 125) as [Hc|]; [|done].
      intros [= <- <- <-]. exists m. rewrite (cur_cons r 125) by done. split; [done|constructor]. }
    destruct (skipws_split r) as (ws & E & Hw & _). set (r1 := skipws r) in *. clearbody r1. subst r.
    destruct (cur r1 =? 34); [|done]. destruct (pstr r1) as [[k|] r2] eqn:Es; [|done].
    apply pstr_spec in Es as (-> & Hk & Hk2). destruct (Z.eqb_spec (cur r2) 58) as [Hc|]; [|done]. cbn [negb].
    rewrite (cur_cons r2 58) by done. cbn [tl].
    destruct (pvalue f (tl r2)) as [t1 r3 d1| | |] eqn:Ev; try done. apply IHv in Ev.
    destruct (skipws_split r3) as (ws' & E & Hw' & Hst). set (r4 := skipws r3) in *. clearbody r4. subst r3.
    destruct (Z.eqb_spec (cur r4) 44) as [Hc4|Hc4]; intros (m' & -> & Hi)%IHo; exists m'; (split; [done|]).
    + rewrite (cur_cons r4 44) in Ev by done. by eapply m_comma.
    + by eapply m_next.
Qed.

(** A value starts with no bracket that closes. *)
Lemma jvalue_start r t r' : jvalue r t r' -> cur r <> 0 /\ cur r <> 93 /\ cur r <> 125.
Proof.
  intros H. assert (exists ws c l, r = ws ++ c :: l /\ blanks ws /\ (base_start c \/ c = 91 \/ c = 123)) as (ws & c & l & -> & Hw & Hc).
  { destruct H as [ws r t r' Hw Hb|ws r ts r' Hw|ws r m r' Hw]; [|by exists ws, 91, r; tauto|by exists ws, 123, r; tauto].
    destruct (jbase_start _ _ _ Hb) as (c & l & -> & Hc). exists ws, c, l. tauto. }
  destruct Hw as [|x ws Hx Hw]; cbn [app cur hd].
  - unfold base_start, isdigit in Hc. lia.
  - unfold blank in Hx. lia.
Qed.

Lemma base_not_blank c l : base_start c -> stops blank (c :: l).
Proof. intros Hc x Hx. cbn in Hx. injection Hx as <-. unfold base_start, isdigit, blank in *. lia. Qed.

Lemma not_blank c l : 32 < c -> stops blank (c :: l).
Proof. intros Hc x Hx. cbn in Hx. injection Hx as <-. unfold blank. lia. Qed.

Definition reads (r : list Z) (t : jtree) (r' : list Z) : Prop :=
  exists d, forall f, (2 * length r + 1 <= f)%nat -> pvalue f r = PSome t r' d.

Lemma reads_less r t r' : reads r t r' -> (length r' < length r)%nat.
Proof.
  intros [d H]. specialize (H _ (le_n _)).
  pose proof (proj1 (pvalue_less (2 * length r + 1)) r) as Hl. by rewrite H in Hl.
Qed.

Lemma item_read test r t r1 ts d1 : jvalue r t r1 ->
  (forall f, (2 * length r + 1 <= f)%nat -> pvalue f r = PSome t r1 d1) ->
  forall f d0, (2 * length r + 2 <= S f)%nat ->
  parray (S f) test ts r d0 =
    (let r := skipws r1 in
     if cur r =? 44 then parray f false (ts ++ [t]) (tl r) (d0 || d1)
     else parray f true (ts ++ [t]) r (d0 || d1)).
Proof.
  intros Hv Hr f d0 Hf. cbn [parray]. destruct (jvalue_start _ _ _ Hv) as (H0 & H93 & _).
  rewrite (proj2 (Z.eqb_neq _ 93)), (proj2 (Z.eqb_neq _ 0)) by done. rewrite andb_false_r.
  by rewrite Hr by lia.
Qed.

Lemma member_read test ws k r t r1 m d1 : blanks ws -> k <> [] -> Forall (fun c => str_char c = true) k ->
  (forall f, (2 * length r + 1 <= f)%nat -> pvalue f r = PSome t r1 d1) ->
  forall f d0, (2 * length (ws ++ 34%Z :: k ++ 34%Z :: 58%Z :: r) + 2 <= S f)%nat ->
  pobject (S f) test m (ws ++ 34 :: k ++ 34 :: 58 :: r) d0 =
    (let d := d0 || d1 || has_key k m in
     let r := skipws r1 in
     if cur r =? 44 then pobject f false (map_set k t m) (tl r) d
     else pobject f true (map_set k t m) r d).
Proof.
  intros Hw Hk Hk2 Hr f d0 Hf. cbn [pobject].
  assert ((cur (ws ++ 34 :: k ++ 34 :: 58 :: r) =? 125) || (cur (ws ++ 34 :: k ++ 34 :: 58 :: r) =? 0) = false) as ->.
  { destruct Hw as [|x ws Hx Hw]; [done|]. cbn. unfold blank in Hx. lia. }
  rewrite andb_false_r, skipws_app by (done || by apply not_blank). cbn [cur hd Z.eqb Pos.eqb].
  rewrite (proj2 (pstr_spec _ k (58 :: r))) by done. cbn [cur hd negb tl Z.eqb Pos.eqb].
  rewrite !length_app in Hf. cbn [length] in Hf. rewrite length_app in Hf. cbn [length] in Hf.
  by rewrite Hr by lia.
Qed.

Lemma grammar_complete :
  (forall r t r', jvalue r t r' -> reads r t r') /\
  (forall test r ts' r', jitems test r ts' r' -> exists d, forall f, (2 * length r + 2 <= f)%nat ->
     forall ts d0, parray f test ts r d0 = PSome (TArr (ts ++ ts')) r' (d0 || d)) /\
  (forall test r m m' r', jmembers test r m m' r' -> exists d, forall f, (2 * length r + 2 <= f)%nat ->
     forall d0, pobject f test m r d0 = PSome (TObj m') r' (d0 || d)).
Proof.
  apply json_ind.
  - intros ws r t r' Hw Hb. exists false. intros [|f] Hf; [lia|]. cbn [pvalue].
    destruct (jbase_start _ _ _ Hb) as (c & l & E & Hc).
    rewrite skipws_app by (done || (rewrite E; by apply base_not_blank)).
    assert (cur r <> 91 /\ cur r <> 123) as [H1 H2].
    { rewrite E. unfold base_start, isdigit in Hc. cbn. lia. }
    rewrite !(proj2 (Z.eqb_neq _ _)) by done. by apply pbase_complete.
  - intros ws r ts r' Hw _ [d IH]. exists d. intros [|f] Hf; [lia|]. cbn [pvalue].
    rewrite skipws_app by (done || by apply not_blank). cbn [cur hd tl Z.eqb Pos.eqb].
    rewrite IH; [done|]. rewrite length_app in Hf. cbn in Hf. lia.
  - intros ws r m r' Hw _ [d IH]. exists d. intros [|f] Hf; [lia|]. cbn [pvalue].
    rewrite skipws_app by (done || by apply not_blank). cbn [cur hd tl Z.eqb Pos.eqb].
    rewrite IH; [done|]. rewrite length_app in Hf. cbn in Hf. lia.
  - intros r. exists false. intros [|f] Hf; [lia|]. intros ts d0. cbn. by rewrite app_nil_r, orb_false_r.
  - intros test r t ws r1 ts r' Hv IHv Hw _ [d IH]. pose proof (reads_less _ _ _ IHv) as Hl. destruct IHv as [d1 Hr].
    exists (d1 || d). intros [|f] Hf; [lia|]. intros ts0 d0. rewrite (item_read _ _ _ _ _ _ Hv Hr) by done.
    rewrite skipws_app by (done || by apply not_blank). cbn [cur hd tl Z.eqb Pos.eqb].
    rewrite length_app in Hl. cbn in Hl. rewrite IH by lia. by rewrite <- app_assoc, orb_assoc.
  - intros test r t ws r1 ts r' Hv IHv Hw Hst Hc _ [d IH]. pose proof (reads_less _ _ _ IHv) as Hl. destruct IHv as [d1 Hr].
    exists (d1 || d). intros [|f] Hf; [lia|]. intros ts0 d0. rewrite (item_read _ _ _ _ _ _ Hv Hr) by done.
    rewrite skipws_app by done. cbn zeta. rewrite (proj2 (Z.eqb_neq _ _)) by done.
    rewrite length_app in Hl. rewrite IH by lia. by rewrite <- app_assoc, orb_assoc.
  - intros m r. exists false. intros [|f] Hf; [lia|]. intros d0. cbn. by rewrite orb_false_r.
  - intros test ws k r t ws' r1 m m' r' Hw Hk Hk2 Hv IHv Hw' _ [d IH].
    pose proof (reads_less _ _ _ IHv) as Hl. destruct IHv as [d1 Hr].
    exists (d1 || has_key k m || d). intros [|f] Hf; [lia|]. intros d0.
    rewrite (member_read _ _ _ _ _ _ _ d1) by done.
    rewrite skipws_app by (done || by apply not_blank). cbn [cur hd tl Z.eqb Pos.eqb].
    rewrite !length_app in Hf, Hl. cbn [length] in Hf, Hl. rewrite length_app in Hf. cbn [length] in Hf.
    rewrite IH by lia. by rewrite !orb_assoc.
  - intros test ws k r t ws' r1 m m' r' Hw Hk Hk2 Hv IHv Hw' Hst Hc _ [d IH].
    pose proof (reads_less _ _ _ IHv) as Hl. destruct IHv as [d1 Hr].
    exists (d1 || has_key k m || d). intros [|f] Hf; [lia|]. intros d0.
    rewrite (member_read _ _ _ _ _ _ _ d1) by done.
    rewrite skipws_app by done. cbn zeta. rewrite (proj2 (Z.eqb_neq _ _)) by done.
    rewrite !length_app in Hf, Hl. cbn [length] in Hf. rewrite length_app in Hf. cbn [length] in Hf.
    rewrite IH by lia. by rewrite !orb_assoc.
Qed.

(** A text is read as [t] exactly when the grammar says so. *)
Lemma parse_grammar T t : Forall (fun c => c <> 0) T ->
  (exists r d, parse T = PSome t r d) <-> jtext T t.
Proof.
  intros HT. unfold parse. split.
  - intros (r & d & H). destruct (pvalue _ T) as [t1 r1 d1| | |] eqn:E; try done.
    destruct (Z.eqb_spec (cur (skipws r1)) 0) as [Hc|]; [|done]. injection H as <- <- <-.
    apply (proj1 (pvalue_sound _)) in E as Hv. exists r1. split; [done|].
    destruct (skipws_split r1) as (ws & Er & Hw & _).
    assert (skipws r1 = []) as Hn; [|rewrite Hn, app_nil_r in Er; by rewrite Er].
    assert (suffix r1 T) as [k Ek].
    { destruct (JsonRead.reader_agrees T None (2 * S (length T))) as [Hag _].
      specialize (Hag mem0 T). unfold JsonRead.agrees in Hag. rewrite E in Hag.
      apply Hag; [|by exists []]. intros a Ha. cbn in Ha. set_solver. }
    destruct (skipws r1) as [|c l]; [done|]. cbn in Hc. subst c. rewrite Er in Ek. subst T.
    apply Forall_app in HT as [_ HT]. apply Forall_app in HT as [_ HT]. by apply Forall_cons_1 in HT as [? _].
  - intros (r & Hv & Hw). destruct (proj1 grammar_complete _ _ _ Hv) as [d H]. rewrite H by lia.
    exists [], d. assert (skipws r = []) as ->; [|done].
    rewrite <- (app_nil_r r). apply skipws_app; [done|by intros ?].
Qed.

(** ** What is written reads back *)

Definition str_ok (s : list Z) : bool :=
  negb (bool_decide (s = [])) && forallb (fun c => (0 <? c) && (c <? 256) && negb (c =? 34)) s.

(** Trees whose text reads back: strings and keys neither empty nor with a
    quote, [int]s, floats of at most six decimals, and, in the laid out
    form, no empty container. *)
Fixpoint clean (layout : bool) (t : jtree) : bool :=
  match t with
  | TNone => false
  | TNull | TBool _ => true
  | TInt v => (-2147483648 <=? v) && (v <=? 2147483647)
  | TFloat w => exact6 w
  | TStr s => str_ok s
  | TArr l => negb (layout && bool_decide (l = [])) && forallb (clean layout) l
  | TObj l => negb (layout && bool_decide (l = [])) && forallb (fun '(k, t) => str_ok k && clean layout t) l
  end.

Lemma str_ok_spec s : str_ok s = true -> s <> [] /\ Forall (fun c => str_char c = true) s /\
  Forall (fun c => 0 < c < 256) s.
Proof.
  unfold str_ok. rewrite andb_true_iff, negb_true_iff, bool_decide_eq_false, forallb_forall, <- List.Forall_forall.
  intros [Hn Hs]. split_and!; [done|..]; (eapply list.Forall_impl; [exact Hs|]); intros c; cbn;
    unfold str_char, in_str; lia.
Qed.

(** What may follow a number. *)
Definition num_stop (r : list Z) : Prop := forall c, head r = Some c -> c = 44 \/ c = 10 \/ c = 93 \/ c = 125.

Lemma num_stop_stops r : num_stop r -> stops numchar r /\ stops isdigit r /\ stops (fun c => (c =? 101) || (c =? 69)) r.
Proof.
  intros H. split_and!; intros c Hc%H; unfold numchar, isdigit; lia.
Qed.

Lemma digits_number_body l : digits_ok l -> l <> [] -> number_body false l.
Proof.
  intros Hd Hn. assert (points l = 0%nat) as Hp.
  { unfold points. induction Hd as [|c l Hc Hd IH]; [done|]. rewrite filter_cons, decide_False by (unfold isdigit in Hc; lia).
    destruct l; [done|]. by apply IH. }
  split_and!; [|done|rewrite Hp; destruct l; [done|cbn; lia]].
  eapply list.Forall_impl; [exact Hd|]. intros c Hc. unfold numchar. by rewrite Hc, orb_true_r.
Qed.

Lemma print_int_base v r : in_i 32 v -> num_stop r -> jbase (to_string_int v ++ r) (TInt v) r.
Proof.
  intros Hv Hr. destruct (num_stop_stops r Hr) as (Hn & Hd & _).
  assert (exists neg, to_string_int v = minus neg ++ dec (Z.abs v)) as [neg E].
  { unfold to_string_int. destruct (Z.ltb_spec v 0); [exists true; by rewrite Z.abs_neq by lia|exists false; by rewrite Z.abs_eq by lia]. }
  destruct (dec_ok (Z.abs v)) as (Hok & _ & Hne); [lia|].
  rewrite E, <- app_assoc. apply (b_number neg false); [by apply digits_number_body|done|].
  unfold pnum_value. rewrite app_assoc, <- E, stoi_to_string by done. done.
Qed.

Lemma print_float_base w r : exact6 w = true -> num_stop r -> jbase (to_string_float w ++ r) (TFloat w) r.
Proof.
  intros Hw Hr. destruct (num_stop_stops r Hr) as (Hn & Hd & He).
  assert (fexp w <> 255 /\ 0 <= micros w) as [Hx Hm].
  { split; [|by apply micros_exact]. unfold exact6 in Hw. lia. }
  destruct (dec_ok (micros w / 1000000)) as (Hok & _ & Hne); [apply Z.div_pos; lia|].
  destruct (dec_fixed_ok 6 (micros w)) as (Hf & Hfl & _).
  set (num := dec (micros w / 1000000) ++ 46 :: dec_fixed 6 (micros w)).
  assert (to_string_float w = minus (fsign w) ++ num) as E.
  { unfold to_string_float. by rewrite (proj2 (Z.eqb_neq _ _)) by done. }
  rewrite E, <- app_assoc. apply (b_number (fsign w) true); [|done|].
  - destruct (digits_number_body _ Hok Hne) as (Ha & Hp & Hlt).
    assert (number_body false (dec_fixed 6 (micros w))) as (Hb & Hp' & _).
    { apply digits_number_body; [done|]. intros H0. by rewrite H0 in Hfl. }
    assert (points num = 1%nat) as Hpn.
    { subst num. unfold points in *. rewrite list.filter_app, filter_cons, decide_True by done.
      rewrite length_app. cbn [length]. lia. }
    split_and!; [|done|rewrite Hpn; subst num; rewrite length_app; cbn; lia].
    subst num. apply Forall_app. split; [done|]. by constructor.
  - unfold pnum_value. rewrite app_assoc, <- E, stof_to_string by done. done.
Qed.

Lemma jvalue_blanks ws r t r' : blanks ws -> jvalue r t r' -> jvalue (ws ++ r) t r'.
Proof.
  intros Hw H. destruct H; rewrite app_assoc; constructor; try done; by apply Forall_app.
Qed.

(** Values without blanks before them. *)
Lemma v_base0 r t r' : jbase r t r' -> jvalue r t r'.
Proof. intros H. by apply (v_base []); [constructor|]. Qed.
Lemma v_array0 r ts r' : jitems true r ts r' -> jvalue (91 :: r) (TArr ts) r'.
Proof. intros H. by apply (v_array []); [constructor|]. Qed.
Lemma v_object0 r m r' : jmembers true r [] m r' -> jvalue (123 :: r) (TObj m) r'.
Proof. intros H. by apply (v_object []); [constructor|]. Qed.

Lemma tab_blanks layout depth : blanks (tab layout depth).
Proof. unfold tab. destruct layout; [|constructor]. by apply Forall_replicate. Qed.
Lemma nl_blanks layout : blanks (nl layout).
Proof. destruct layout; by repeat constructor. Qed.

(** The end of a container after its last element. *)
Lemma close_stop layout depth c r : c = 93 \/ c = 125 -> num_stop (nl layout ++ tab layout depth ++ c :: r).
Proof. intros Hc x. destruct layout; cbn; intros [= <-]; tauto. Qed.

Lemma print_items layout depth r pr : forall ts, ts <> [] ->
  Forall (fun t => forall r, num_stop r -> jvalue (pr t ++ r) t r) ts ->
  forall test pre, blanks pre ->
  jitems test (pre ++ lines layout depth (map pr ts) ++ tab layout depth ++ 93 :: r) ts r.
Proof.
  intros ts Hne Hts. induction Hts as [|t ts Ht Hts IH]; [done|]. intros test pre Hpre. clear Hne.
  cbn [map lines]. destruct ts as [|t' ts]; cbn [map app].
  - eapply (i_next _ _ _ (nl layout ++ tab layout depth) (93 :: r)).
    + rewrite <- !app_assoc. cbn [lines app]. apply jvalue_blanks; [done|].
      apply jvalue_blanks; [apply tab_blanks|]. apply Ht, close_stop. by left.
    + apply Forall_app. split; [apply nl_blanks|apply tab_blanks].
    + by apply not_blank.
    + done.
    + constructor.
  - repeat (rewrite <- !app_assoc; cbn [app]). eapply (i_comma _ _ _ []).
    + apply jvalue_blanks; [done|].
      apply jvalue_blanks; [apply tab_blanks|]. apply Ht. intros c. cbn. intros [= <-]. by left.
    + constructor.
    + apply IH; [done|]. apply nl_blanks.
Qed.

Lemma print_members layout depth r pr : forall m, m <> [] ->
  Forall (fun kt => str_ok (fst kt) = true /\ forall r, num_stop r -> jvalue (pr (snd kt) ++ r) (snd kt) r) m ->
  forall test pre m0, blanks pre -> sorted (m0 ++ m) ->
  jmembers test (pre ++ lines layout depth (map (fun '(k, t) => print_key k ++ pr t) m) ++ tab layout depth ++ 125 :: r)
    m0 (m0 ++ m) r.
Proof.
  intros m Hne Hm. induction Hm as [|[k t] m [Hk Ht] Hm IH]; [done|]. intros test pre m0 Hpre Hs. clear Hne.
  cbn [fst snd] in *. apply str_ok_spec in Hk as (Hk1 & Hk2 & _).
  assert (map_set k t m0 = m0 ++ [(k, t)]) as Hset by (by eapply map_set_last, sorted_snoc).
  assert (blanks (pre ++ tab layout (depth + 1))) as Hb by (apply Forall_app; split; [done|apply tab_blanks]).
  assert (forall l, pre ++ (tab layout (depth + 1) ++ (print_key k ++ pr t) ++ l) =
    (pre ++ tab layout (depth + 1)) ++ 34 :: k ++ 34 :: 58 :: pr t ++ l) as Hshape.
  { intros l. unfold print_key. repeat (rewrite <- !app_assoc; cbn [app]). reflexivity. }
  cbn [map lines]. destruct m as [|kt m]; cbn [map app].
  - rewrite <- !app_assoc. cbn [lines app]. rewrite (app_assoc (print_key k)), Hshape.
    eapply (m_next _ _ k _ t (nl layout ++ tab layout depth) (125 :: r)); try done.
    + rewrite <- app_assoc. apply Ht, close_stop. by right.
    + apply Forall_app. split; [apply nl_blanks|apply tab_blanks].
    + by apply not_blank.
    + rewrite Hset. constructor.
  - repeat (rewrite <- !app_assoc; cbn [app]). rewrite (app_assoc (print_key k)), Hshape.
    eapply (m_comma _ _ k _ t []); try done.
    + apply Ht. intros c. cbn. intros [= <-]. by left.
    + constructor.
    + rewrite Hset. replace (m0 ++ (k, t) :: kt :: m) with ((m0 ++ [(k, t)]) ++ kt :: m) in Hs |- * by (by rewrite <- app_assoc).
      apply IH; [done|apply nl_blanks|done].
Qed.

Lemma print_reads layout t : clean layout t = true -> tsorted t = true -> forall depth r, num_stop r ->
  jvalue (print layout depth t ++ r) t r.
Proof.
  induction t as [| |v|w|b|s|l IH|l IH] using jtree_induct; intros Hc Hso depth r Hr; try done.
  - apply v_base0. constructor.
  - apply v_base0. apply print_int_base; [|done]. cbn in Hc.
    unfold in_i. change (2 ^ (32 - 1)) with 2147483648. lia.
  - apply v_base0. by apply print_float_base.
  - apply v_base0. destruct b; constructor.
  - apply v_base0. cbn in Hc. apply str_ok_spec in Hc as (H1 & H2 & _).
    cbn [print]. rewrite <- app_comm_cons, <- app_assoc. by apply (b_string false false).
  - cbn [clean] in Hc. apply andb_true_iff in Hc as [Hne Hc]. cbn [print]. rewrite <- app_comm_cons, <- !app_assoc.
    apply v_array0. change ([93] ++ r) with (93 :: r).
    destruct (decide (l = [])) as [->|Hl].
    { destruct layout; [done|]. constructor. }
    apply print_items; [done| |apply nl_blanks].
    rewrite forallb_forall in Hc. cbn [tsorted] in Hso. rewrite forallb_forall in Hso.
    apply List.Forall_forall. intros t Ht r' Hr'. apply (proj1 (List.Forall_forall _ _) IH); auto.
  - cbn [clean] in Hc. apply andb_true_iff in Hc as [Hne Hc]. cbn [tsorted] in Hso. apply andb_true_iff in Hso as [Hs Hso]. cbn [print]. rewrite <- app_comm_cons, <- !app_assoc.
    apply v_object0. change ([125] ++ r) with (125 :: r).
    destruct (decide (l = [])) as [->|Hl].
    { destruct layout; [done|]. constructor. }
    apply (print_members layout depth r (print layout (depth + 1)) l Hl) with (m0 := []); [|apply nl_blanks|by apply sortedb_spec].
    rewrite forallb_forall in Hc, Hso.
    apply List.Forall_forall. intros [k t] Ht. pose proof (Hc _ Ht) as Hkt. cbn in Hkt.
    apply andb_true_iff in Hkt as [Hk Hct]. split; [done|]. intros r' Hr'.
    apply (proj1 (List.Forall_forall _ _) IH _ Ht); [done|exact (Hso _ Ht)|done].
Qed.

(** ** What is written is text *)

Lemma digits_text l : digits_ok l -> Forall (fun c => 0 < c < 256) l.
Proof. intros H. eapply list.Forall_impl; [exact H|]. intros c. cbn. unfold isdigit. lia. Qed.

Lemma lines_text layout depth xs : Forall (Forall (fun c => 0 < c < 256)) xs ->
  Forall (fun c => 0 < c < 256) (lines layout depth xs).
Proof.
  induction 1 as [|x xs Hx Hxs IH]; cbn [lines]; [constructor|].
  rewrite !Forall_app. split_and!; [|done| | |done].
  - unfold tab. destruct layout; [by apply Forall_replicate|constructor].
  - destruct xs; by repeat constructor.
  - destruct layout; by repeat constructor.
Qed.

Lemma print_text layout t : clean layout t = true -> forall depth, Forall (fun c => 0 < c < 256) (print layout depth t).
Proof.
  assert (forall depth, Forall (fun c => 0 < c < 256) (tab layout depth)) as Htab.
  { intros depth. unfold tab. destruct layout; [by apply Forall_replicate|constructor]. }
  assert (Forall (fun c => 0 < c < 256) (nl layout)) as Hnl by (destruct layout; by repeat constructor).
  induction t as [| |v|w|b|s|l IH|l IH] using jtree_induct; intros Hc depth; cbn [print].
  - constructor.
  - by repeat constructor.
  - unfold to_string_int. destruct (Z.ltb_spec v 0); [constructor; [done|]|]; apply digits_text; apply dec_ok; lia.
  - cbn [clean] in Hc. unfold to_string_float. apply Forall_app. split; [destruct (fsign w); by repeat constructor|].
    destruct (fexp w =? 255) eqn:E; [unfold exact6 in Hc; lia|]. destruct (micros_exact w Hc) as [Hm _].
    apply Forall_app. split; [apply digits_text, dec_ok, Z.div_pos; lia|]. constructor; [done|]. apply digits_text, dec_fixed_ok.
  - destruct b; by repeat constructor.
  - cbn in Hc. apply str_ok_spec in Hc as (_ & _ & H). constructor; [done|]. apply Forall_app. split; [done|by repeat constructor].
  - cbn [clean] in Hc. apply andb_true_iff in Hc as [_ Hc]. constructor; [done|].
    rewrite !Forall_app. split_and!; [done| |done|by repeat constructor].
    apply lines_text. rewrite forallb_forall, <- List.Forall_forall in Hc. apply List.Forall_forall.
    intros x (t & <- & Ht)%in_map_iff. apply (proj1 (List.Forall_forall _ _) IH _ Ht).
    by apply (proj1 (List.Forall_forall _ _) Hc).
  - cbn [clean] in Hc. apply andb_true_iff in Hc as [_ Hc]. constructor; [done|].
    rewrite !Forall_app. split_and!; [done| |done|by repeat constructor].
    apply lines_text. rewrite forallb_forall, <- List.Forall_forall in Hc. apply List.Forall_forall.
    intros x ([k t] & <- & Ht)%in_map_iff. pose proof (proj1 (List.Forall_forall _ _) Hc _ Ht) as Hkt. cbn in Hkt.
    apply andb_true_iff in Hkt as [Hk Hct]. apply str_ok_spec in Hk as (_ & _ & Hk).
    unfold print_key. apply Forall_app. split.
    + constructor; [done|]. apply Forall_app. split; [done|by repeat constructor].
    + by apply (proj1 (List.Forall_forall _ _) IH _ Ht).
Qed.

Lemma clean_full layout t : clean layout t = true -> full t = true.
Proof.
  induction t as [| |v|w|b|s|l IH|l IH] using jtree_induct; cbn; try done; intros H.
  - apply andb_true_iff in H as [_ H]. rewrite forallb_forall in H |- *. intros t Ht.
    apply (proj1 (List.Forall_forall _ _) IH); auto.
  - apply andb_true_iff in H as [_ H]. rewrite forallb_forall in H |- *. intros [k t] Ht.
    specialize (H _ Ht). apply andb_true_iff in H as [_ H]. by apply (proj1 (List.Forall_forall _ _) IH _ Ht).
Qed.
End JsonGrammar.
