(* ===== verification/JsonProps.v ===== *)
(** * JsonProps: JSON texts and objects

    The reader builds exactly the objects of the tree a text stands for, or
    leaves the memory as it was; it accepts the grammar of JsonGrammar; and
    what [write] writes reads back as the tree written. *)
From stdpp Require Import gmap.
From S2P Require Import Prelude StdNum Json JsonTree JsonText JsonRead JsonGrammar.

Module JsonProps.
Import StdNum Json JsonTree JsonText JsonRead JsonGrammar.

(** A C string: bytes other than the terminator. *)
Definition text_ok (T : list Z) : Prop := Forall (fun c => 0 < c < 256) T.

Lemma text_ok_nonzero T : text_ok T -> Forall (fun c => c <> 0) T.
Proof. intros H. eapply list.Forall_impl; [exact H|]. cbn. lia. Qed.

(** ** The reader *)

(** What [parser] does in the memory [s], as [parse] says. *)
Definition parser_result (s : mem) (T : list Z) : Prop :=
  match parse T with
  | PSome t _ d => exists a s' b D, parser (s, open_buff T) = Ok (Some a, (s', b)) /\
      ext s s' D d /\ repr (objs s') (Some a) t D /\ obj b = Some a
  | PFail _ d => exists s' b, parser (s, open_buff T) = Ok (None, (s', b)) /\ ext s s' ∅ d /\ obj b = None
  | PThrow => parser (s, open_buff T) = Throw
  | PFuel => False
  end.

Lemma parser_agrees s T : mem_ok s -> parser_result s T.
Proof.
  intros Hs. unfold parser_result. pose proof (parse_fuel T) as Hfuel. unfold parse in *.
  assert (open_buff T = at_rest T None T) as Eb by (unfold open_buff, at_rest; by rewrite Nat.sub_diag).
  rewrite Eb. destruct (reader_agrees T None (2 * S (length T))) as [Hag _].
  specialize (Hag s T Hs ltac:(by exists [])). unfold parser.
  erewrite bind_ok by reflexivity. cbn [text at_rest].
  destruct (pvalue _ T) as [t r d|r d| |]; cbn [agrees] in Hag.
  - destruct Hag as (Hr & a & s' & D & E & Hx & Ha). erewrite bind_ok by exact E.
    step skip_rest. pose proof (skipws_suffix T r Hr) as Hr'. step (peek_rest T None s').
    destruct (cur (skipws r) =? 0); cbn [negb].
    + by eexists a, s', _, D.
    + eexists _, _. split; [|split]; [|by apply ext_cut|].
      * erewrite bind_ok; [reflexivity|]. apply on_mem_ok. by eapply delete_ptr_repr.
      * done.
  - destruct Hag as (Hr & s' & E & Hx). erewrite bind_ok by exact E. step skip_rest.
    by eexists s', _.
  - by apply bind_throw.
  - done.
Qed.

(** The text [T] repeats a key in an object. *)
Definition repeats (T : list Z) : bool :=
  match parse T with PSome _ _ d => d | PFail _ d => d | _ => false end.

(** C15.  The JSON reader is memory safe and ends on every C string: it never
    reads outside the text nor uses a bad pointer. It returns a tree all of
    whose objects are new, or null, or it throws (a number out of range; the
    objects read before stay behind then, of which the theorem says nothing).
    When it returns and no key is repeated in an object, the memory holds no
    other new object: a reading that returns null leaves the memory as it was. *)
Theorem json_reader_safe s T : mem_ok s ->
  (parser (s, open_buff T) = Throw \/
   exists s' b, mem_ok s' /\ objs s ⊆ objs s' /\
     ((parser (s, open_buff T) = Ok (None, (s', b)) /\ (repeats T = false -> objs s' = objs s)) \/
      (exists a t D, parser (s, open_buff T) = Ok (Some a, (s', b)) /\ obj b = Some a /\
         repr (objs s') (Some a) t D /\ D ## dom (objs s) /\
         (repeats T = false -> dom (objs s') = dom (objs s) ∪ D)))).
Proof.
  intros Hs. pose proof (parser_agrees s T Hs) as H. unfold parser_result in H. unfold repeats.
  destruct (parse T) as [t r d|r d| |]; [| |by left|done]; right.
  - destruct H as (a & s' & b & D & E & Hx & Hr & Hb). exists s', b. destruct Hx as [Hx1 Hx2 Hx3 Hx4 Hx5].
    split_and!; [done..|right]. exists a, t, D. split_and!; [done..|]. intros Hd. apply subseteq_dom in Hx1.
    specialize (Hx4 Hd). set_solver.
  - destruct H as (s' & b & E & Hx & Hb). exists s', b. split_and!; [by eapply ext_ok|by eapply ext_sub|].
    left. split; [done|]. intros ->. by apply ext_same.
Qed.

Definition sample : list Z := [123; 34; 97; 34; 58; 91; 49; 44; 45; 50; 93; 125].   (* {"a":[1,-2]} *)

Theorem json_reader_safe_witness : mem_ok mem0 /\ repeats sample = false /\
  (parser (mem0, open_buff sample) = Throw \/
   exists s' b, mem_ok s' /\ objs mem0 ⊆ objs s' /\
     ((parser (mem0, open_buff sample) = Ok (None, (s', b)) /\ (repeats sample = false -> objs s' = objs mem0)) \/
      (exists a t D, parser (mem0, open_buff sample) = Ok (Some a, (s', b)) /\ obj b = Some a /\
         repr (objs s') (Some a) t D /\ D ## dom (objs mem0) /\
         (repeats sample = false -> dom (objs s') = dom (objs mem0) ∪ D)))).
Proof.
  assert (mem_ok mem0) as H0 by (intros a Ha; cbn in Ha; set_solver).
  split; [exact H0|]. split; [vm_compute; reflexivity|]. apply (json_reader_safe mem0 sample H0).
Defined.

(** C36.  The reader returns an object tree exactly for the texts of the grammar,
    and the tree is the one the grammar gives the text. *)
Theorem json_reader_grammar s T t : mem_ok s -> text_ok T ->
  (exists a s' b D, parser (s, open_buff T) = Ok (Some a, (s', b)) /\ repr (objs s') (Some a) t D) <-> jtext T t.
Proof.
  intros Hs HT. rewrite <- (parse_grammar T t) by by apply text_ok_nonzero.
  pose proof (parser_agrees s T Hs) as H. unfold parser_result in H. split.
  - intros (a & s' & b & D & E & Hr). destruct (parse T) as [t' r d|r d| |]; [| | |done].
    + destruct H as (a' & s2 & b' & D' & E' & _ & Hr' & _). rewrite E in E'. injection E' as -> -> ->.
      exists r, d. f_equal. by eapply repr_fun.
    + destruct H as (? & ? & E' & _). by rewrite E in E'.
    + by rewrite E in H.
  - intros (r & d & E). rewrite E in H. destruct H as (a & s' & b & D & E' & _ & Hr & _). by exists a, s', b, D.
Qed.

Theorem json_reader_grammar_witness : mem_ok mem0 /\ text_ok sample /\
  ((exists a s' b D, parser (mem0, open_buff sample) = Ok (Some a, (s', b)) /\
     repr (objs s') (Some a) (TObj [([97], TArr [TInt 1; TInt (-2)])]) D) <->
   jtext sample (TObj [([97], TArr [TInt 1; TInt (-2)])])).
Proof.
  assert (mem_ok mem0) as H0 by (intros a Ha; cbn in Ha; set_solver).
  assert (text_ok sample) as HT by (unfold text_ok, sample; repeat constructor).
  split; [exact H0|]. split; [exact HT|]. apply (json_reader_grammar mem0 sample _ H0 HT).
Defined.

(** ** The round trip *)

(** C13.  What [write] writes for an object tree, laid out or not, [parser] reads back
    as the same tree, in new objects.  The tree must have no null pointer,
    no empty string or key, no quote in them, floats of at most six decimals
    and, when laid out, no empty container. *)
Theorem json_roundtrip s a t D layout : mem_ok s -> repr (objs s) (Some a) t D -> clean layout t = true ->
  exists str a' s' b D', write_json a layout s = Ok (str, s) /\
    parser (s, open_buff str) = Ok (Some a', (s', b)) /\
    repr (objs s') (Some a') t D' /\ D' ## dom (objs s) /\ repr (objs s') (Some a) t D.
Proof.
  intros Hs Hr Hc. set (str := print layout 0 t).
  assert (jtext str t) as Hj.
  { exists []. split; [|constructor]. rewrite <- (app_nil_r str). apply print_reads; [done|by eapply repr_sorted|by intros ?]. }
  apply parse_grammar in Hj as (r & d & E); [|by apply text_ok_nonzero, print_text].
  pose proof (parser_agrees s str Hs) as H. unfold parser_result in H. rewrite E in H.
  destruct H as (a' & s' & b & D' & Ep & Hx & Hr' & _). exists str, a', s', b, D'.
  split_and!; [by eapply write_repr, clean_full|done|done|by eapply ext_new|by eapply ext_repr].
Qed.

(** The memory with the tree of [sample], built by the calls of a script. *)
Definition built : outcome (addr * mem) :=
  (o ← new_JSonObj; l ← JObj.createArray o [97]; JArr.pushInt l 1 ;; JArr.pushInt l (-2) ;;
   JObj.setFloat o [98] 1069547520 ;; ret o) mem0.

Definition built_mem : mem :=
  match built with Ok (_, s) => s | _ => mem0 end.

Definition built_tree : jtree := TObj [([97], TArr [TInt 1; TInt (-2)]); ([98], TFloat 1069547520)].

Lemma built_repr : exists D, repr (objs built_mem) (Some 1%positive) built_tree D.
Proof.
  eexists.
  apply (repr_obj _ 1%positive [([97], Some 2%positive); ([98], Some 5%positive)] [TArr [TInt 1; TInt (-2)]; TFloat 1069547520]).
  - vm_compute. reflexivity.
  - apply reprs_cons; [|apply reprs_cons; [|apply reprs_nil|]|].
    + apply (repr_array _ 2%positive [3%positive; 4%positive]); [vm_compute; reflexivity| |].
      * apply reprs_cons; [|apply reprs_cons; [|apply reprs_nil|]|].
        -- apply (repr_value _ 3%positive eJ_INT 1 []); [vm_compute; reflexivity|done].
        -- apply (repr_value _ 4%positive eJ_INT 4294967294 []); [vm_compute; reflexivity|done].
        -- set_solver.
        -- set_solver.
      * set_solver.
    + apply (repr_value _ 5%positive eJ_FLOAT 1069547520 []); [vm_compute; reflexivity|done].
    + set_solver.
    + set_solver.
  - set_solver.
  - apply sortedb_spec. vm_compute. reflexivity.
Qed.

Lemma built_ok : mem_ok built_mem.
Proof.
  intros a Ha. assert (dom (objs built_mem) = {[1; 2; 3; 4; 5]}%positive) as E by (vm_compute; reflexivity).
  assert (fresh built_mem = 6%positive) as -> by (vm_compute; reflexivity). rewrite E in Ha. set_unfold. lia.
Qed.

Theorem json_roundtrip_witness : clean true built_tree = true /\
  exists D, mem_ok built_mem /\ repr (objs built_mem) (Some 1%positive) built_tree D /\
  exists str a' s' b D', write_json 1%positive true built_mem = Ok (str, built_mem) /\
    parser (built_mem, open_buff str) = Ok (Some a', (s', b)) /\
    repr (objs s') (Some a') built_tree D' /\ D' ## dom (objs built_mem) /\ repr (objs s') (Some 1%positive) built_tree D.
Proof.
  split; [vm_compute; reflexivity|]. destruct built_repr as [D HD]. exists D.
  split; [exact built_ok|]. split; [exact HD|].
  apply (json_roundtrip built_mem 1%positive built_tree D true built_ok HD). vm_compute. reflexivity.
Defined.

(** ** What does not read back *)

(** An empty container laid out, the default of [JsonReader::write], is refused. *)
Example empty_array_layout :
  reprint true [91; 93] = Ok (Some [91; 10; 93]) /\ reprint true [91; 10; 93] = Ok None.
Proof. by vm_compute. Qed.

(** An empty string is refused, and so is a blank before a colon. *)
Example empty_string : reprint false [91; 34; 34; 93] = Ok None.
Proof. by vm_compute. Qed.
Example blank_colon : reprint false [123; 34; 97; 34; 32; 58; 49; 125] = Ok None.
Proof. by vm_compute. Qed.

(** Missing commas, and a minus sign before a string, are accepted. *)
Example missing_comma : reprint false [91; 49; 32; 50; 93] = Ok (Some [91; 49; 44; 50; 93]).
Proof. by vm_compute. Qed.
Example minus_string : reprint false [45; 34; 97; 34] = Ok (Some [34; 97; 34]).
Proof. by vm_compute. Qed.

(** An integer beyond [int] throws. *)
Example big_int : reprint false [50; 49; 52; 55; 52; 56; 51; 54; 52; 56] = Throw.
Proof. by vm_compute. Qed.

(** [getJsonObj] of an absent key puts a null pointer in the object, which
    [write] dereferences. *)
Lemma absent_key_breaks_write : exists s, (o ← new_JSonObj; _ ← JObj.getJsonObj o [97]; ret o) mem0 = Ok (1%positive, s) /\
  write_json 1%positive true s = Undef.
Proof. eexists. split; [vm_compute; reflexivity|]. vm_compute. reflexivity. Qed.

(** A repeated key loses the object read for it first. *)
Lemma repeated_key_leaks : exists s b, parser (mem0, open_buff [123;34;97;34;58;49;44;34;97;34;58;50;93]) = Ok (None, (s, b)) /\
  dom (objs s) = {[1%positive]}.
Proof. eexists _, _. split; [vm_compute; reflexivity|]. vm_compute. reflexivity. Qed.

End JsonProps.
