(* ===== verification/JsonEdit.v ===== *)
(** * JsonEdit: the JSON objects a script edits

    A script holds pointers into a tree of objects and calls their methods.
    [edit] says what a call means for the tree.  Here: whatever the memory,
    a call through a pointer into a tree changes the tree at the place of
    the pointer as [edit] says, and no object outside the tree. *)
From stdpp Require Import gmap.
From S2P Require Import Prelude StdNum Json JsonTree JsonText JsonRead.

Module JsonEdit.
Import StdNum Json JsonTree JsonText JsonRead.

(** ** The calls *)

(** The argument of a [set] or [push] method. *)
Inductive scalar := SInt (v : Z) | SFloat (w : Z) | SStr (s : list Z) | SBool (b : bool) | SNull.

Inductive op :=
| VSet (x : scalar)
| APush (x : scalar)
| ASet (i : Z) (x : scalar)
| ARemove (i : Z)
| ACreate (isobj : bool)
| OSet (k : list Z) (x : scalar)
| ORemove (k : list Z)
| OCreate (k : list Z) (isobj : bool).

Definition value_set (x : scalar) (p : addr) : M mem unit :=
  match x with
  | SInt v => JVal.setInt p v
  | SFloat w => JVal.setFloat p w
  | SStr s => JVal.setStr p s
  | SBool b => JVal.setBool p b
  | SNull => JVal.setNull p
  end.

(** The call of a method on the object at [p]; the result is the object a
    [create] method returns. *)
Definition exec (p : addr) (o : op) : M mem (option addr) :=
  match o with
  | VSet x => value_set x p ;; ret None
  | APush (SInt v) => JArr.pushInt p v ;; ret None
  | APush (SFloat w) => JArr.pushFloat p w ;; ret None
  | APush (SStr s) => JArr.pushStr p s ;; ret None
  | APush (SBool b) => JArr.pushBool p b ;; ret None
  | APush SNull => JArr.pushNull p ;; ret None
  | ASet i (SInt v) => JArr.setInt p i v ;; ret None
  | ASet i (SFloat w) => JArr.setFloat p i w ;; ret None
  | ASet i (SStr s) => JArr.setStr p i s ;; ret None
  | ASet i (SBool b) => JArr.setBool p i b ;; ret None
  | ASet i SNull => JArr.setNull p i ;; ret None
  | ARemove i => JArr.remove p i ;; ret None
  | ACreate false => a ← JArr.createArray p; ret (Some a)
  | ACreate true => a ← JArr.createObj p; ret (Some a)
  | OSet k (SInt v) => JObj.setInt p k v ;; ret None
  | OSet k (SFloat w) => JObj.setFloat p k w ;; ret None
  | OSet k (SStr s) => JObj.setStr p k s ;; ret None
  | OSet k (SBool b) => JObj.setBool p k b ;; ret None
  | OSet k SNull => JObj.setNull p k ;; ret None
  | ORemove k => JObj.remove p k ;; ret None
  | OCreate k false => a ← JObj.createArray p k; ret (Some a)
  | OCreate k true => a ← JObj.createObj p k; ret (Some a)
  end.

(** ** Their meaning on trees *)

Definition tree_of (x : scalar) : jtree :=
  match x with
  | SInt v => TInt v | SFloat w => TFloat w | SStr s => TStr s | SBool b => TBool b | SNull => TNull
  end.
Definition empty_tree (isobj : bool) : jtree := if isobj then TObj [] else TArr [].

Definition is_leaf (t : jtree) : bool :=
  match t with TNone | TArr _ | TObj _ => false | _ => true end.
Definition is_container (t : jtree) : bool :=
  match t with TArr _ | TObj _ => true | _ => false end.
Definition is_null_arg (x : scalar) : bool := match x with SNull => true | _ => false end.

(** The objects [x] may be set on: the code casts to [JValue], and only
    [setNull] replaces a container. *)
Definition settable (x : scalar) (t : jtree) : bool := is_leaf t || (is_null_arg x && is_container t).

(** [None]: the call is undefined behaviour. *)
Definition edit (o : op) (t : jtree) : option jtree :=
  match o, t with
  | VSet x, _ => if is_leaf t then Some (tree_of x) else None
  | APush x, TArr l => Some (TArr (l ++ [tree_of x]))
  | ASet i x, TArr l =>
      if i <? 0 then None else
      match l !! Z.to_nat i with
      | Some t' => if settable x t' then Some (TArr (<[Z.to_nat i := tree_of x]> l)) else None
      | None => None
      end
  | ARemove i, TArr l =>
      if (i <? 0) || (Z.of_nat (length l) <? i) then None else Some (TArr (delete (Z.to_nat i) l))
  | ACreate b, TArr l => Some (TArr (l ++ [empty_tree b]))
  | OSet k x, TObj m =>
      match map_find k m with
      | None | Some TNone => Some (TObj (map_set k (tree_of x) m))
      | Some t' => if settable x t' then Some (TObj (map_set k (tree_of x) m)) else None
      end
  | ORemove k, TObj m => Some (TObj (map_erase k m))
  | OCreate k b, TObj m => Some (TObj (map_set k (empty_tree b) m))
  | _, _ => None
  end.

(** The argument of an [int] parameter. *)
Definition op_ok (o : op) : Prop :=
  match o with
  | VSet (SInt v) | APush (SInt v) | ASet _ (SInt v) | OSet _ (SInt v) => in_i 32 v
  | _ => True
  end.

(** ** Places in a tree *)

Inductive place := Item (i : nat) | Member (k : list Z).

(** The pointer at the end of a path. *)
Fixpoint follow (h : gmap addr JBaseObj) (q : addr) (path : list place) : option addr :=
  match path with
  | [] => Some q
  | Item i :: path' =>
      match h !! q with
      | Some (JArray l) => match l !! i with Some a => follow h a path' | None => None end
      | _ => None
      end
  | Member k :: path' =>
      match h !! q with
      | Some (JSonObj m) => match map_find k m with Some (Some a) => follow h a path' | _ => None end
      | _ => None
      end
  end.

Fixpoint get (path : list place) (t : jtree) : option jtree :=
  match path, t with
  | [], _ => Some t
  | Item i :: path', TArr l => match l !! i with Some t' => get path' t' | None => None end
  | Member k :: path', TObj m => match map_find k m with Some t' => get path' t' | None => None end
  | _, _ => None
  end.

(** The tree with the subtree at the path replaced. *)
Fixpoint subst (path : list place) (new t : jtree) : jtree :=
  match path, t with
  | [], _ => new
  | Item i :: path', TArr l =>
      match l !! i with Some t' => TArr (<[i := subst path' new t']> l) | None => t end
  | Member k :: path', TObj m =>
      match map_find k m with Some t' => TObj (map_set k (subst path' new t') m) | None => t end
  | _, _ => t
  end.

(** ** Local changes *)

(** From [s] to [s'] the tree at [q] with the objects [D] becomes [t] with
    the objects [D'], of which those not in [D] are new; no object outside
    changes. *)
Record becomes (s s' : mem) (D D' : gset addr) (q : addr) (t : jtree) : Prop := {
  bec_repr : repr (objs s') (Some q) t D';
  bec_new : forall a, a ∈ D' -> a ∈ D \/ a ∉ dom (objs s);
  bec_frame : forall a, a ∈ dom (objs s) -> a ∉ D -> objs s' !! a = objs s !! a;
  bec_ok : mem_ok s'
}.

Lemma becomes_trans s1 s2 s3 D1 D2 D3 q t2 t3 :
  becomes s1 s2 D1 D2 q t2 -> becomes s2 s3 D2 D3 q t3 -> becomes s1 s3 D1 D3 q t3.
Proof.
  intros [R1 N1 F1 O1] [R2 N2 F2 O2].
  assert (forall a, a ∈ dom (objs s1) -> a ∉ D1 -> a ∈ dom (objs s2)) as Hd.
  { intros a Ha Hn. rewrite elem_of_dom, F1 by done. by apply elem_of_dom. }
  split; [done| | |done].
  - intros a Ha. destruct (N2 a Ha) as [H|H]; [by apply N1|].
    destruct (decide (a ∈ D1)); [by left|]. right. intros Hin. by apply H, Hd.
  - intros a Ha Hn. rewrite F2; [by apply F1|by apply Hd|]. intros H. destruct (N1 a H); done.
Qed.

(** The elements of a container, one of them replaced or removed. *)
Lemma reprs_split h l ts D i p : reprs h l ts D -> l !! i = Some p ->
  exists t D1 D2, ts !! i = Some t /\ repr h p t D1 /\ D = D1 ∪ D2 /\ D1 ## D2 /\
    (forall h' p' t' D1', same_on D2 h h' -> repr h' p' t' D1' -> D1' ## D2 ->
       reprs h' (<[i := p']> l) (<[i := t']> ts) (D1' ∪ D2)) /\
    (forall h', same_on D2 h h' -> reprs h' (delete i l) (delete i ts) D2).
Proof.
  intros H. revert i p. induction H as [|p0 t0 D1 l ts D2 Hp Hl IH Hd]; intros i p E; [done|].
  destruct i as [|i].
  - injection E as ->. exists t0, D1, D2. split_and!; try done.
    + intros h' p' t' D1' Hs Hr Hd'. cbn. constructor; [done| |done]. by eapply reprs_agree.
    + intros h' Hs. cbn. by eapply reprs_agree.
  - destruct (IH i p E) as (t & E1 & E2 & Ht & Hr & -> & Hd12 & Hrep & Hdel).
    exists t, E1, (D1 ∪ E2). split_and!; [done|done|set_solver|set_solver|..].
    + intros h' p' t' D1' Hs Hr' Hd'. cbn. replace (D1' ∪ (D1 ∪ E2)) with (D1 ∪ (D1' ∪ E2)) by set_solver +.
      constructor; [eapply repr_agree; [done|]; eapply same_on_sub; [|done]; set_solver +| |set_solver].
      apply Hrep; [eapply same_on_sub; [|done]; set_solver +|done|set_solver].
    + intros h' Hs. cbn.
      constructor; [eapply repr_agree; [done|]; eapply same_on_sub; [|done]; set_solver +| |set_solver].
      apply Hdel. eapply same_on_sub; [|done]. set_solver +.
Qed.

Lemma repr_array_inv h a l D : repr h (Some a) (TArr l) D ->
  exists ps D0, h !! a = Some (JArray ps) /\ reprs h (Some <$> ps) l D0 /\ a ∉ D0 /\ D = {[a]} ∪ D0.
Proof.
  intros H. inversion H as [|? t w sv Ha Hb Et|? ps ts D0|]; subst.
  - destruct t; try discriminate; by destruct Hb.
  - by exists ps, D0.
Qed.

Lemma repr_obj_inv h a tm D : repr h (Some a) (TObj tm) D ->
  exists m D0, h !! a = Some (JSonObj m) /\ fst <$> m = fst <$> tm /\ sorted m /\
    reprs h (snd <$> m) (snd <$> tm) D0 /\ a ∉ D0 /\ D = {[a]} ∪ D0.
Proof.
  intros H. inversion H as [|? t w sv Ha Hb Et| |? m ts D0 Ha Hr Hn Hm]; subst.
  - destruct t; try discriminate; by destruct Hb.
  - pose proof (reprs_length _ _ _ _ Hr) as Hl. rewrite length_fmap in Hl. exists m, D0.
    rewrite fst_zip, snd_zip by (rewrite length_fmap; lia). by split_and!.
Qed.

Lemma repr_obj_intro h a m tm D0 : h !! a = Some (JSonObj m) -> fst <$> m = fst <$> tm -> sorted m ->
  reprs h (snd <$> m) (snd <$> tm) D0 -> a ∉ D0 -> repr h (Some a) (TObj tm) ({[a]} ∪ D0).
Proof. intros Ha Hk Hm Hr Hn. rewrite <- (zip_keys m tm Hk). by constructor. Qed.

Lemma repr_leaf_inv h a t D : repr h (Some a) t D -> is_leaf t = true ->
  exists ty w sv, h !! a = Some (JValue ty w sv) /\ is_base ty /\ D = {[a]}.
Proof. intros H Hl. inversion H as [|? ty w sv| |]; subst; try done. by exists ty, w, sv. Qed.

(** A key of an object: absent, or an entry at an index of both lists. *)
Lemma keyed_find {V W} k (m : list (list Z * V)) (tm : list (list Z * W)) : fst <$> m = fst <$> tm -> sorted m ->
  (map_find k m = None /\ map_find k tm = None) \/
  exists i a t, m !! i = Some (k, a) /\ tm !! i = Some (k, t) /\ map_find k m = Some a /\ map_find k tm = Some t /\
    (forall v, map_set k v m = <[i := (k, v)]> m) /\ (forall v, map_set k v tm = <[i := (k, v)]> tm) /\
    map_erase k m = delete i m /\ map_erase k tm = delete i tm.
Proof.
  revert tm. induction m as [|[k1 a1] m IH]; intros [|[k2 t2] tm] E Hs; rewrite ?fmap_cons in *; try done; [by left|].
  injection E as -> E. cbn [map_find map_set map_erase].
  destruct (decide (k = k2)) as [->|Hne].
  { right. exists 0%nat, a1, t2. rewrite kltb_irrefl. split_and!; done. }
  apply sorted_cons in Hs as [Hs Hlt].
  destruct (IH tm E Hs) as [[H1 H2]|(i & a & t & H1 & H2 & H3 & H4 & H5 & H6 & H7 & H8)]; [by left|].
  right. exists (S i), a, t.
  assert (kltb k2 k = true) as Hk.
  { apply (proj1 (List.Forall_forall _ _) Hlt), list_elem_of_In, list_elem_of_fmap. exists (k, a).
    split; [done|]. by eapply list_elem_of_lookup_2. }
  assert (kltb k k2 = false) as Hk2.
  { destruct (kltb k k2) eqn:E2; [|done]. pose proof (kltb_trans _ _ _ E2 Hk) as Hx. by rewrite kltb_irrefl in Hx. }
  rewrite Hk, Hk2. cbn. rewrite H7, H8.
  split_and!; try done; intros v; [by rewrite H5|by rewrite H6].
Qed.

(** ** From a subtree to the tree *)

(** The node [q] keeps its object while the child with the objects [D1]
    changes. *)
Lemma becomes_around s s' q D0 D1 D1' D2 x p t' T :
  becomes s s' D1 D1' p t' -> objs s !! q = Some x -> D0 = D1 ∪ D2 -> D1 ## D2 -> q ∉ D0 ->
  D0 ⊆ dom (objs s) ->
  (objs s' !! q = Some x -> same_on D2 (objs s) (objs s') -> D1' ## D2 -> q ∉ D1' ∪ D2 ->
     repr (objs s') (Some q) T ({[q]} ∪ (D1' ∪ D2))) ->
  becomes s s' ({[q]} ∪ D0) ({[q]} ∪ (D1' ∪ D2)) q T.
Proof.
  intros [R N F O] Hq -> Hd Hn Hdom H. apply elem_of_dom_2 in Hq as Hqd.
  assert (D1' ## D2) as Hd'.
  { intros a Ha Ha2. destruct (N a Ha) as [?|Hx]; [by apply (Hd a)|]. apply Hx, Hdom. set_solver +Ha2. }
  assert (q ∉ D1') as Hq1.
  { intros Hx. destruct (N q Hx); [set_solver|done]. }
  split; [| | |done].
  - apply H; [by rewrite F by set_solver| |done|set_solver].
    intros a Ha. apply F; [apply Hdom; set_solver +Ha|set_solver].
  - intros a Ha. destruct (decide (a ∈ D1')) as [Ha'|]; [destruct (N a Ha'); [left|by right]|left]; set_solver.
  - intros a Ha Hx. apply F; [done|set_solver].
Qed.

(** A local change at the end of a path is a change of the whole tree. *)
Lemma becomes_at_path path : forall s q T E p, repr (objs s) (Some q) T E -> follow (objs s) q path = Some p ->
  exists t D, get path T = Some t /\ repr (objs s) (Some p) t D /\
    forall s' D' t', becomes s s' D D' p t' -> exists E', becomes s s' E E' q (subst path t' T) /\ D' ⊆ E' /\
      follow (objs s') q path = Some p.
Proof.
  induction path as [|[i|k] path IH]; intros s q T E p Hr Hf; cbn [follow] in Hf.
  - injection Hf as <-. exists T, E. split_and!; [done..|]. intros s' D' t' H. exists D'. by split_and!.
  - destruct (objs s !! q) as [[|l|]|] eqn:Hq; try done. destruct (l !! i) as [a|] eqn:Hi; [|done].
    destruct T as [| | | | | |ts|m]; try (inversion Hr; congruence).
    apply repr_array_inv in Hr as (l' & D0 & Hq' & Hrs & Hn & ->). assert (l' = l) as -> by congruence.
    assert ((Some <$> l) !! i = Some (Some a)) as Hi' by (by rewrite list_lookup_fmap, Hi).
    destruct (reprs_split _ _ _ _ _ _ Hrs Hi') as (t & D1 & D2 & Ht & Ha & HD & Hd & Hrep & _).
    destruct (IH s a t D1 p Ha Hf) as (tp & D & Hget & Hp & Hbec). cbn [get subst]. rewrite Ht.
    exists tp, D. split_and!; [done..|]. intros s' D' t' H. destruct (Hbec s' D' t' H) as (D1' & H1 & Hsub & Hfol).
    assert (objs s' !! q = objs s !! q) as Hqq.
    { apply (bec_frame _ _ _ _ _ _ H1); [by eapply elem_of_dom_2|set_solver]. }
    exists ({[q]} ∪ (D1' ∪ D2)). split; [|split; [set_solver +Hsub|cbn; by rewrite Hqq, Hq, ?Hi, ?Hk]]. eapply becomes_around; try done; [by eapply reprs_dom|].
    intros Hq2 Hs Hdd Hqn. econstructor; [done| |done].
    rewrite <- (list_insert_id _ _ _ Hi), list_fmap_insert.
    apply Hrep; [done|by apply H1|done].
  - destruct (objs s !! q) as [[| |m]|] eqn:Hq; try done. destruct (map_find k m) as [[a|]|] eqn:Hk; try done.
    destruct T as [| | | | | |ts|tm]; try (inversion Hr; congruence).
    apply repr_obj_inv in Hr as (m' & D0 & Hq' & Hkeys & Hso & Hrs & Hn & ->). assert (m' = m) as -> by congruence.
    destruct (keyed_find k m tm Hkeys Hso) as [[? ?]|(i & a' & t & Hi & Hti & Hfa & Hft & Hset & Hsett & _)]; [congruence|].
    assert (a' = Some a) as -> by congruence.
    assert ((snd <$> m) !! i = Some (Some a)) as Hi' by (by rewrite list_lookup_fmap, Hi).
    destruct (reprs_split _ _ _ _ _ _ Hrs Hi') as (t0 & D1 & D2 & Ht & Ha & HD & Hd & Hrep & _).
    assert (t0 = t) as -> by (rewrite list_lookup_fmap, Hti in Ht; cbn in Ht; congruence).
    destruct (IH s a t D1 p Ha Hf) as (tp & D & Hget & Hp & Hbec). cbn [get subst]. rewrite Hft.
    exists tp, D. split_and!; [done..|]. intros s' D' t' H. destruct (Hbec s' D' t' H) as (D1' & H1 & Hsub & Hfol).
    assert (objs s' !! q = objs s !! q) as Hqq.
    { apply (bec_frame _ _ _ _ _ _ H1); [by eapply elem_of_dom_2|set_solver]. }
    exists ({[q]} ∪ (D1' ∪ D2)). split; [|split; [set_solver +Hsub|cbn; by rewrite Hqq, Hq, ?Hi, ?Hk]]. eapply becomes_around; try done; [by eapply reprs_dom|].
    intros Hq2 Hs Hdd Hqn. apply (repr_obj_intro _ _ m); try done.
    + rewrite Hsett, <- (list_insert_id _ _ _ Hi), !list_fmap_insert, Hkeys. done.
    + rewrite Hsett, list_fmap_insert. rewrite <- (list_insert_id _ _ _ Hi'). apply Hrep; [done|by apply H1|done].
Qed.

(** ** New children *)

(** The commands of a new object that end with it in the memory. *)
Definition fresh_child (s s1 : mem) (b : addr) (t : jtree) : Prop :=
  ext s s1 {[b]} false /\ repr (objs s1) (Some b) t {[b]}.

(** The node [p] gets a new child, in place of one with the objects [D1]. *)
Lemma becomes_put s s2 p D0 D1 D2 x b T :
  objs s !! p = Some x -> D0 = D1 ∪ D2 -> D1 ## D2 -> p ∉ D0 -> D0 ⊆ dom (objs s) -> b ∉ dom (objs s) ->
  mem_ok s2 ->
  (forall a, a ∉ D1 -> a <> b -> a <> p -> objs s2 !! a = objs s !! a) ->
  (same_on D2 (objs s) (objs s2) -> {[b]} ## D2 -> repr (objs s2) (Some p) T ({[p]} ∪ ({[b]} ∪ D2))) ->
  becomes s s2 ({[p]} ∪ D0) ({[p]} ∪ ({[b]} ∪ D2)) p T.
Proof.
  intros Hp -> Hd Hn Hdom Hb Hok Hs H. apply elem_of_dom_2 in Hp as Hpd.
  split; [| | |done].
  - apply H; [|intros a Ha Ha2; apply Hb; rewrite elem_of_singleton in Ha; subst; apply Hdom; set_solver +Ha2].
    intros a Ha. apply Hs; [set_solver| |set_solver]. intros ->. apply Hb, Hdom. set_solver +Ha.
  - intros a Ha. destruct (decide (a = b)) as [->|]; [by right|left; set_solver].
  - intros a Ha Hx. apply Hs; [set_solver| |set_solver]. intros ->. done.
Qed.

Lemma load_ok p x s : objs s !! p = Some x -> load p s = Ok (x, s).
Proof. intros H. unfold load. by rewrite H. Qed.
Lemma store_ok p x y s : objs s !! p = Some x -> store p y s = Ok (tt, set_objs (<[p := y]> (objs s)) s).
Proof. intros H. unfold store. by rewrite H. Qed.
Lemma as_array_ok p l s : objs s !! p = Some (JArray l) -> as_array p s = Ok (l, s).
Proof. intros H. unfold as_array. by rewrite (bind_ok _ _ _ _ _ (load_ok _ _ _ H)). Qed.
Lemma as_obj_ok p m s : objs s !! p = Some (JSonObj m) -> as_obj p s = Ok (m, s).
Proof. intros H. unfold as_obj. by rewrite (bind_ok _ _ _ _ _ (load_ok _ _ _ H)). Qed.

Lemma mem_ok_set s h : mem_ok s -> dom h ⊆ dom (objs s) -> mem_ok (set_objs h s).
Proof. intros H Hd a Ha. apply H, Hd, Ha. Qed.

Lemma value_set_makes x : op_ok (VSet x) -> makes (value_set x) (tree_of x).
Proof.
  destruct x; intros H; [by apply makes_int|apply makes_float|apply makes_str|apply makes_bool|apply makes_null].
Qed.

(** A new [JValue] that is set. *)
Lemma new_child_ok {A} s x (k : addr -> M mem A) : mem_ok s -> op_ok (VSet x) ->
  exists b s1, fresh_child s s1 b (tree_of x) /\ (new_JValue ≫= fun b => value_set x b ;; k b) s = k b s1.
Proof.
  intros Hs Hx. destruct (value_set_makes x Hx) as (t & w & sv & Ht & Hv & Hf).
  destruct (new_set_ext s (value_set x) t w sv k Hs Ht Hf) as (b & s1 & w0 & Hext & Hr & E).
  rewrite Hv in Hr. exists b, s1. by split.
Qed.

(** A [JValue] that is set. *)
Lemma value_set_ok s p t D x : mem_ok s -> repr (objs s) (Some p) t D -> is_leaf t = true -> op_ok (VSet x) ->
  exists s', value_set x p s = Ok (tt, s') /\ becomes s s' D {[p]} p (tree_of x).
Proof.
  intros Hs Hr Hl Hx. destruct (repr_leaf_inv _ _ _ _ Hr Hl) as (ty & w & sv & Hp & Hb & ->).
  assert (exists ty' w' sv', value_set x p s = Ok (tt, set_objs (<[p := JValue ty' w' sv']> (objs s)) s) /\
    is_base ty' /\ val_tree ty' w' sv' = tree_of x) as (ty' & w' & sv' & E & Hb' & Hv).
  { assert (as_value p s = Ok ((ty, w, sv), s)) as Ha.
    { unfold as_value. by rewrite (bind_ok _ _ _ _ _ (load_ok _ _ _ Hp)). }
    destruct x as [v|v|v|v|]; cbn [value_set tree_of];
      [exists eJ_INT, (wrap 32 v), sv|exists eJ_FLOAT, v, sv|exists eJ_STRING, w, v
      |exists eJ_BOOL, (w / 256 * 256 + Z.b2z v), sv|exists eJ_NULL, w, sv];
      (split; [|split; [by split|]]);
      try (unfold JVal.setInt, JVal.setFloat, JVal.setStr, JVal.setBool, JVal.setNull;
           rewrite (bind_ok _ _ _ _ _ Ha); by apply (store_ok _ _ _ _ Hp)); try done.
    - cbn. unfold JVal.iv. by rewrite sext_wrap, sext_small.
    - cbn. unfold JVal.bv. f_equal. rewrite Z.add_comm, Z.mod_add by lia. by destruct v. }
  eexists. split; [exact E|]. split; cbn [objs set_objs].
  - rewrite <- Hv. constructor; [apply lookup_insert_eq|done].
  - intros a Ha. by left.
  - intros a Ha Hn. rewrite lookup_insert_ne by set_solver. done.
  - apply mem_ok_set; [done|]. rewrite dom_insert_L. apply elem_of_dom_2 in Hp. set_solver.
Qed.

Lemma ext_other s s' b a : ext s s' {[b]} false -> a <> b -> objs s' !! a = objs s !! a.
Proof.
  intros Hx Ha. destruct (objs s !! a) eqn:E; [by eapply lookup_weaken, ext_sub|].
  apply not_elem_of_dom in E. apply not_elem_of_dom. intros H. apply (ext_all _ _ _ _ Hx eq_refl) in H. set_solver.
Qed.

(** [new] of an object, at the next address. *)
Lemma new_JValue_ext s : mem_ok s -> exists s1, new_JValue s = Ok (fresh s, s1) /\ fresh_child s s1 (fresh s) TNull.
Proof.
  intros Hs. destruct (new_ext s (JValue eJ_NULL (wrap 32 (junk s (fresh s))) []) Hs) as (a & s1 & E & Hx & Ha).
  unfold new in E. injection E as <- <-. eexists. split; [reflexivity|]. split; [done|].
  by eapply (repr_value _ _ eJ_NULL).
Qed.

Lemma new_empty_ext s (isobj : bool) : mem_ok s ->
  exists s1, (if isobj then new_JSonObj else new_JArray) s = Ok (fresh s, s1) /\ fresh_child s s1 (fresh s) (empty_tree isobj).
Proof.
  intros Hs. destruct (new_ext s (if isobj then JSonObj [] else JArray []) Hs) as (a & s1 & E & Hx & Ha).
  assert ((if isobj then new_JSonObj else new_JArray) s = new (if isobj then JSonObj [] else JArray []) s) as ->
    by (by destruct isobj).
  unfold new in *. injection E as <- <-. eexists. split; [reflexivity|]. split; [done|].
  destruct isobj; rewrite <- (union_empty_r_L {[fresh s]}).
  - apply (repr_obj _ _ [] []); [done|constructor|set_solver|constructor].
  - apply (repr_array _ _ []); [done|constructor|set_solver].
Qed.

Lemma fresh_not_in s : mem_ok s -> fresh s ∉ dom (objs s).
Proof. intros Hs H%Hs. lia. Qed.

(** ** Arrays *)

Lemma repr_insert_other h p x q t D : p ∉ D -> repr h q t D -> repr (<[p := x]> h) q t D.
Proof.
  intros Hp Hr. eapply repr_agree; [done|]. intros a Ha. apply lookup_insert_ne. by intros ->.
Qed.

Lemma push_back_local s s1 p l D b t : repr (objs s) (Some p) (TArr l) D -> b ∉ dom (objs s) ->
  fresh_child s s1 b t ->
  exists s2 D', JArr.push_back p b s1 = Ok (tt, s2) /\ becomes s s2 D D' p (TArr (l ++ [t])) /\
    follow (objs s2) p [Item (length l)] = Some b.
Proof.
  intros Hr Hb [Hx Ht]. pose proof (repr_dom _ _ _ _ Hr) as Hdom.
  apply repr_array_inv in Hr as (ps & D0 & Hp & Hrs & Hn & ->).
  assert (p <> b) as Hpb by (intros ->; apply Hb; by eapply elem_of_dom_2).
  assert (objs s1 !! p = Some (JArray ps)) as Hp1 by (by rewrite (ext_other _ _ _ _ Hx)).
  eexists _, _. split; [|split].
  - unfold JArr.push_back. rewrite (bind_ok _ _ _ _ _ (as_array_ok _ _ _ Hp1)). by eapply store_ok.
  - eapply (becomes_put s _ p D0 ∅ D0); try done; cbn [objs set_objs].
    + set_solver.
    + set_solver.
    + apply mem_ok_set; [by eapply ext_ok|]. rewrite dom_insert_L. apply elem_of_dom_2 in Hp1. set_solver.
    + intros a _ Ha Hap. rewrite lookup_insert_ne by done. by eapply ext_other.
    + intros Hs Hd. econstructor; [apply lookup_insert_eq| |set_solver].
      rewrite fmap_app, union_comm_L. apply reprs_app; [by eapply reprs_agree| |set_solver].
      rewrite <- (union_empty_r_L {[b]}). constructor; [|constructor|set_solver].
      apply repr_insert_other; [set_solver|done].
  - cbn. rewrite lookup_insert_eq. apply reprs_length in Hrs. rewrite length_fmap in Hrs.
    rewrite lookup_app_r by lia. by rewrite Hrs, Nat.sub_diag.
Qed.

Lemma push_local s p l D x : mem_ok s -> repr (objs s) (Some p) (TArr l) D -> op_ok (VSet x) ->
  exists s' D', JArr.push (value_set x) p s = Ok (tt, s') /\ becomes s s' D D' p (TArr (l ++ [tree_of x])).
Proof.
  intros Hs Hr Hx. destruct (new_child_ok s x (fun item => JArr.push_back p item) Hs Hx) as (b & s1 & Hb & E).
  destruct (push_back_local s s1 p l D b (tree_of x) Hr) as (s2 & D' & E2 & H & _); [|done|].
  { destruct Hb as [Hb _]. apply ext_new in Hb. set_solver. }
  exists s2, D'. split; [|done]. unfold JArr.push. by rewrite E.
Qed.

Lemma create_array_local s p l D (isobj : bool) : mem_ok s -> repr (objs s) (Some p) (TArr l) D ->
  exists s' D' a, (if isobj then JArr.createObj p else JArr.createArray p) s = Ok (a, s') /\
    becomes s s' D D' p (TArr (l ++ [empty_tree isobj])) /\ follow (objs s') p [Item (length l)] = Some a.
Proof.
  intros Hs Hr. destruct (new_empty_ext s isobj Hs) as (s1 & E & Hb).
  destruct (push_back_local s s1 p l D (fresh s) _ Hr (fresh_not_in s Hs) Hb) as (s2 & D' & E2 & H & Hf).
  exists s2, D', (fresh s). split; [|done].
  destruct isobj; [unfold JArr.createObj|unfold JArr.createArray];
    rewrite (bind_ok _ _ _ _ _ E); by rewrite (bind_ok _ _ _ _ _ E2).
Qed.

(** An item of an array. *)
Lemma array_at s p l D i t : repr (objs s) (Some p) (TArr l) D -> l !! i = Some t ->
  exists ps a, objs s !! p = Some (JArray ps) /\ ps !! i = Some a /\ length ps = length l /\
    JArr.at_ p (Z.of_nat i) s = Ok (a, s).
Proof.
  intros Hr Hi. apply repr_array_inv in Hr as (ps & D0 & Hp & Hrs & _ & _).
  apply reprs_length in Hrs. rewrite length_fmap in Hrs. pose proof (lookup_lt_Some _ _ _ Hi).
  destruct (lookup_lt_is_Some_2 ps i) as [a Ha]; [lia|]. exists ps, a. split_and!; [done..|].
  unfold JArr.at_. rewrite (bind_ok _ _ _ _ _ (as_array_ok _ _ _ Hp)).
  rewrite (proj2 (Z.ltb_ge _ _)) by lia. by rewrite Nat2Z.id, Ha.
Qed.

(** A set of an item that is no container. *)
Lemma set_item_local s p l D i t x : mem_ok s -> repr (objs s) (Some p) (TArr l) D -> l !! i = Some t ->
  is_leaf t = true -> op_ok (VSet x) ->
  exists s' D', (a ← JArr.at_ p (Z.of_nat i); value_set x a) s = Ok (tt, s') /\
    becomes s s' D D' p (TArr (<[i := tree_of x]> l)).
Proof.
  intros Hs Hr Hi Hl Hx. destruct (array_at _ _ _ _ _ _ Hr Hi) as (ps & a & Hp & Ha & _ & E).
  destruct (becomes_at_path [Item i] s p (TArr l) D a Hr) as (t' & D1 & Hget & Hra & Hbec).
  { cbn. by rewrite Hp, Ha. }
  cbn in Hget. rewrite Hi in Hget. injection Hget as <-.
  destruct (value_set_ok s a t D1 x Hs Hra Hl Hx) as (s' & E' & Hb).
  destruct (Hbec s' _ _ Hb) as (D' & HD' & _ & _). cbn in HD'. rewrite Hi in HD'.
  exists s', D'. split; [|done]. by rewrite (bind_ok _ _ _ _ _ E).
Qed.

(** The type test of [setNull]. *)
Lemma container_test h a t D : repr h (Some a) t D -> exists o, h !! a = Some o /\
  bool_decide (type_of o = eJ_ARRAY \/ type_of o = eJ_OBJ) = is_container t.
Proof.
  intros H. inversion H as [|? ty w sv Ha [? ?]|? l ts D0 Ha|? m ts D0 Ha]; subst; eexists; (split; [exact Ha|]).
  - replace (is_container (val_tree ty w sv)) with false by (by destruct ty).
    apply bool_decide_eq_false. cbn. tauto.
  - by apply bool_decide_eq_true; left.
  - by apply bool_decide_eq_true; right.
Qed.

(** The memory after a child with the objects [D1] is freed and a [JValue]
    takes the next address. *)
Lemma replace_child s p x D0 D1 D2 a t : mem_ok s -> objs s !! p = Some x -> p ∉ D0 -> D0 = D1 ∪ D2 ->
  repr (objs s) a t D1 ->
  exists s1, (delete_ptr a ;; new_JValue) s = Ok (fresh s, s1) /\ mem_ok s1 /\ objs s1 !! p = Some x /\
    fresh s ∉ dom (objs s) /\ repr (objs s1) (Some (fresh s)) TNull {[fresh s]} /\
    forall b, b ∉ D1 -> b <> fresh s -> objs s1 !! b = objs s !! b.
Proof.
  intros Hs Hp Hn -> Hr. set (sd := set_objs (cut D1 (objs s)) s).
  assert (mem_ok sd) as Hsd by (intros b [_ Hb]%dom_cut; by apply Hs).
  destruct (new_JValue_ext sd Hsd) as (s1 & E & Hx & Ht). cbn [fresh set_objs sd] in *.
  assert (forall b, b ∉ D1 -> b <> fresh s -> objs s1 !! b = objs s !! b) as Hsame.
  { intros b Hb Hbs. rewrite (ext_other _ _ _ _ Hx) by done. unfold sd; cbn [objs set_objs]. by rewrite lookup_cut, decide_False. }
  pose proof (fresh_not_in s Hs) as Hf. exists s1. split_and!; try done.
  - by rewrite (bind_ok _ _ _ _ _ (delete_ptr_repr _ _ _ _ Hr)).
  - by eapply ext_ok.
  - rewrite Hsame; [done|set_solver|]. intros ->. apply Hf. by eapply elem_of_dom_2.
Qed.

(** [setNull] of an item that is a container. *)
Lemma null_item_local s p l D i t : mem_ok s -> repr (objs s) (Some p) (TArr l) D -> l !! i = Some t ->
  is_container t = true ->
  exists s' D', JArr.setNull p (Z.of_nat i) s = Ok (tt, s') /\ becomes s s' D D' p (TArr (<[i := TNull]> l)).
Proof.
  intros Hs Hr Hi Hc. destruct (array_at _ _ _ _ _ _ Hr Hi) as (ps & a & Hp & Ha & Hlen & E).
  pose proof (repr_dom _ _ _ _ Hr) as Hdom.
  apply repr_array_inv in Hr as (ps' & D0 & Hp' & Hrs & Hn & ->). assert (ps' = ps) as -> by congruence.
  assert ((Some <$> ps) !! i = Some (Some a)) as Hai by (by rewrite list_lookup_fmap, Ha).
  destruct (reprs_split _ _ _ _ _ _ Hrs Hai) as (t' & D1 & D2 & Ht & Hra & HD & Hd & Hrep & _).
  assert (t' = t) as -> by congruence. destruct (container_test _ _ _ _ Hra) as (o & Ho & Htest).
  destruct (replace_child s p (JArray ps) D0 D1 D2 (Some a) t Hs Hp Hn HD Hra) as (s1 & Enew & Hok1 & Hp1 & Hf & Hrb & Hsame).
  set (s2 := set_objs (<[p := JArray (<[i := fresh s]> ps)]> (objs s1)) s1).
  assert (p <> fresh s) as Hpf by (intros ->; apply Hf; by eapply elem_of_dom_2).
  assert (becomes s s2 ({[p]} ∪ D0) ({[p]} ∪ ({[fresh s]} ∪ D2)) p (TArr (<[i := TNull]> l))) as H1.
  { eapply (becomes_put s s2 p D0 D1 D2); try done; cbn [objs set_objs s2].
    - set_solver.
    - apply mem_ok_set; [done|]. rewrite dom_insert_L. apply elem_of_dom_2 in Hp1. set_solver.
    - intros b Hb1 Hb2 Hb3. rewrite lookup_insert_ne by done. by apply Hsame.
    - intros Hso Hdj. econstructor; [apply lookup_insert_eq| |set_solver]. rewrite list_fmap_insert.
      apply Hrep; [done| |done]. apply repr_insert_other; [set_solver|done]. }
  assert ((<[i := TNull]> l) !! i = Some TNull) as Hi2 by (apply list_lookup_insert_eq; by eapply lookup_lt_Some).
  destruct (set_item_local s2 p _ _ i TNull SNull (bec_ok _ _ _ _ _ _ H1) (bec_repr _ _ _ _ _ _ H1) Hi2) as (s3 & D3 & E3 & H3); [done..|].
  cbn [tree_of] in H3. rewrite list_insert_insert_eq in H3.
  exists s3, D3. split; [|by eapply becomes_trans]. rewrite <- E3.
  unfold JArr.setNull. rewrite (bind_ok _ _ _ _ _ E), (bind_ok _ _ _ _ _ (load_ok _ _ _ Ho)), Htest, Hc.
  erewrite bind_ok; [reflexivity|].
  rewrite (bind_ok _ _ _ _ _ (delete_ptr_repr _ _ _ _ Hra)).
  rewrite (bind_ok _ _ _ _ _ (delete_ptr_repr _ _ _ _ Hra)) in Enew. rewrite (bind_ok _ _ _ _ _ Enew).
  rewrite (bind_ok _ _ _ _ _ (as_array_ok _ _ _ Hp1)). rewrite Nat2Z.id. by eapply store_ok.
Qed.

(** Freeing a child and dropping it from its container. *)
Lemma becomes_drop s p D0 D1 D2 x x' a t T : mem_ok s -> objs s !! p = Some x -> D0 = D1 ∪ D2 -> D1 ## D2 -> p ∉ D0 ->
  D0 ⊆ dom (objs s) -> repr (objs s) a t D1 ->
  (forall h, h !! p = Some x' -> same_on D2 (objs s) h -> repr h (Some p) T ({[p]} ∪ D2)) ->
  let s1 := set_objs (cut D1 (objs s)) s in
  becomes s (set_objs (<[p := x']> (objs s1)) s1) ({[p]} ∪ D0) ({[p]} ∪ D2) p T /\ objs s1 !! p = Some x.
Proof.
  intros Hs Hp -> Hd Hn Hdom Hr H s1.
  assert (objs s1 !! p = Some x) as Hp1 by (subst s1; cbn [objs set_objs]; rewrite lookup_cut, decide_False; [done|set_solver]).
  split; [|done]. subst s1. split; cbn [objs set_objs].
  - apply H; [apply lookup_insert_eq|]. intros b Hb. rewrite lookup_insert_ne by set_solver.
    rewrite lookup_cut, decide_False; [done|set_solver].
  - intros b Hb. left. set_solver.
  - intros b Hb Hbn. rewrite lookup_insert_ne by set_solver. rewrite lookup_cut, decide_False; [done|set_solver].
  - intros b. cbn [objs fresh set_objs]. rewrite dom_insert_L. intros [Hb|Hb]%elem_of_union.
    + apply elem_of_singleton in Hb as ->. apply Hs. by eapply elem_of_dom_2.
    + apply dom_cut in Hb as [_ Hb]. by apply Hs.
Qed.

Lemma remove_item_local s p l D (i : Z) : mem_ok s -> repr (objs s) (Some p) (TArr l) D ->
  0 <= i <= Z.of_nat (length l) ->
  exists s' D', JArr.remove p i s = Ok (tt, s') /\ becomes s s' D D' p (TArr (delete (Z.to_nat i) l)).
Proof.
  intros Hs Hr Hi. pose proof (repr_dom _ _ _ _ Hr) as Hdom. pose proof Hr as Hr0.
  apply repr_array_inv in Hr as (ps & D0 & Hp & Hrs & Hn & ->).
  pose proof (reprs_length _ _ _ _ Hrs) as Hlen. rewrite length_fmap in Hlen.
  unfold JArr.remove. rewrite (bind_ok _ _ _ _ _ (as_array_ok _ _ _ Hp)).
  rewrite (proj2 (Z.ltb_ge _ _)), (proj2 (Z.ltb_ge _ _)) by lia. cbn [orb].
  destruct (ps !! Z.to_nat i) as [a|] eqn:Ha.
  - assert ((Some <$> ps) !! Z.to_nat i = Some (Some a)) as Hai by (by rewrite list_lookup_fmap, Ha).
    destruct (reprs_split _ _ _ _ _ _ Hrs Hai) as (t & D1 & D2 & Ht & Hra & HD & Hd & _ & Hdel).
    destruct (becomes_drop s p D0 D1 D2 (JArray ps) (JArray (delete (Z.to_nat i) ps)) (Some a) t
      (TArr (delete (Z.to_nat i) l)) Hs Hp HD Hd Hn) as [H Hp1]; [set_solver|done| |].
    { intros h Hh Hso. econstructor; [done| |set_solver]. rewrite list_fmap_delete. by apply Hdel. }
    eexists _, _. split; [|exact H].
    rewrite (bind_ok _ _ _ _ _ (delete_ptr_repr _ _ _ _ Hra)), (bind_ok _ _ _ _ _ (as_array_ok _ _ _ Hp1)).
    by eapply store_ok.
  - apply lookup_ge_None in Ha. rewrite delete_take_drop, take_ge, drop_ge, app_nil_r by lia. exists s, ({[p]} ∪ D0). split; [done|].
    split; [done|by left|done|done].
Qed.

(** ** Objects *)

Lemma map_find_set {V} k (v : V) m : sorted m -> map_find k (map_set k v m) = Some v.
Proof.
  intros Hs. induction m as [|[k1 v1] m IH]; cbn; [by rewrite decide_True|].
  destruct (kltb k k1) eqn:E1; [cbn; by rewrite decide_True|].
  destruct (kltb k1 k) eqn:E2; cbn; [|by rewrite decide_True by (by apply kltb_total)].
  rewrite decide_False by (intros ->; by rewrite kltb_irrefl in E2). apply IH. by apply sorted_cons in Hs as [? _].
Qed.

Lemma map_set_set {V} k (v w : V) m : map_set k v (map_set k w m) = map_set k v m.
Proof.
  induction m as [|[k1 v1] m IH]; cbn; [by rewrite kltb_irrefl|].
  destruct (kltb k k1) eqn:E1; cbn; [by rewrite kltb_irrefl|].
  destruct (kltb k1 k) eqn:E2; cbn; rewrite E1, E2; [by rewrite IH|done].
Qed.

Lemma map_erase_absent {V} k (m : list (list Z * V)) : map_find k m = None -> map_erase k m = m.
Proof.
  induction m as [|[k1 v1] m IH]; cbn; [done|]. case_decide; [done|]. intros Hm. by rewrite IH.
Qed.

(** The slot of a key: what is there, and how it is replaced. *)
Lemma child_slot h m tm D0 k : fst <$> m = fst <$> tm -> sorted m -> reprs h (snd <$> m) (snd <$> tm) D0 ->
  exists D1 D2, D0 = D1 ∪ D2 /\ D1 ## D2 /\
    (forall h' b t, same_on D2 h h' -> repr h' (Some b) t {[b]} -> {[b]} ## D2 ->
       reprs h' (snd <$> map_set k (Some b) m) (snd <$> map_set k t tm) ({[b]} ∪ D2)) /\
    match map_find k m with
    | None => map_find k tm = None /\ D1 = ∅
    | Some a => exists t, map_find k tm = Some t /\ repr h a t D1 /\
        fst <$> map_erase k m = fst <$> map_erase k tm /\ sorted (map_erase k m) /\
        forall h', same_on D2 h h' -> reprs h' (snd <$> map_erase k m) (snd <$> map_erase k tm) D2
    end.
Proof.
  intros Hk Hs Hr. destruct (keyed_find k m tm Hk Hs) as [[H1 H2]|(i & a & t & Hi & Hti & H1 & H2 & Hset & Hsett & Her & Hert)].
  - exists ∅, D0. rewrite H1. split_and!; [set_solver|set_solver| |done|done].
    intros h' b t Hso Hb Hd.
    assert (reprs h' (snd <$> m) (snd <$> tm) D0) as Hr' by (by eapply reprs_agree).
    destruct (map_set_reprs h' k (Some b) t {[b]} Hb m tm D0 Hk Hr') as (D' & H & _ & E); [set_solver|].
    unfold has_key in E. rewrite H2 in E. rewrite (E eq_refl), union_comm_L in H. done.
  - assert ((snd <$> m) !! i = Some a) as Hai by (by rewrite list_lookup_fmap, Hi).
    destruct (reprs_split _ _ _ _ _ _ Hr Hai) as (t' & D1 & D2 & Ht & Ha & -> & Hd & Hrep & Hdel).
    assert (t' = t) as -> by (rewrite list_lookup_fmap, Hti in Ht; cbn in Ht; congruence).
    exists D1, D2. rewrite H1. split_and!; [done|done| |].
    + intros h' b t' Hso Hb Hdb. rewrite Hset, Hsett, !list_fmap_insert. by apply Hrep.
    + exists t. rewrite Her, Hert, !list_fmap_delete, Hk. split_and!; try done.
      unfold sorted. rewrite list_fmap_delete. by apply sorted_delete.
Qed.

(** [maps[key]] of a key that is there. *)
Lemma obj_at_present s p tm D k t : repr (objs s) (Some p) (TObj tm) D -> map_find k tm = Some t ->
  exists m a D1, objs s !! p = Some (JSonObj m) /\ map_find k m = Some a /\ repr (objs s) a t D1 /\
    JObj.at_ p k s = Ok (a, s).
Proof.
  intros Hr Ht. apply repr_obj_inv in Hr as (m & D0 & Hp & Hk & Hm & Hrs & Hn & ->).
  destruct (child_slot _ m tm D0 k Hk Hm Hrs) as (D1 & D2 & _ & _ & _ & H).
  destruct (map_find k m) as [a|] eqn:Ha; [|naive_solver]. destruct H as (t' & Ht' & Hra & _).
  assert (t' = t) as -> by congruence. exists m, a, D1. split_and!; [done..|].
  unfold JObj.at_. by rewrite (bind_ok _ _ _ _ _ (as_obj_ok _ _ _ Hp)), Ha.
Qed.

(** [maps[key]] of an absent key: a null pointer is put there. *)
Lemma obj_at_absent s p tm D k : mem_ok s -> repr (objs s) (Some p) (TObj tm) D -> map_find k tm = None ->
  exists s1, JObj.at_ p k s = Ok (None, s1) /\ becomes s s1 D D p (TObj (map_set k TNone tm)).
Proof.
  intros Hs Hr Ht. pose proof (repr_dom _ _ _ _ Hr) as Hdom.
  apply repr_obj_inv in Hr as (m & D0 & Hp & Hk & Hm & Hrs & Hn & ->).
  assert (map_find k m = None) as Ha by (destruct (keyed_find k m tm Hk Hm) as [[? _]|(?&?&?&?&?&?&?&?)]; [done|congruence]).
  eexists. split.
  { unfold JObj.at_. rewrite (bind_ok _ _ _ _ _ (as_obj_ok _ _ _ Hp)), Ha.
    by erewrite bind_ok by (by eapply store_ok). }
  split; cbn [objs set_objs].
  - eapply repr_obj_intro; [apply lookup_insert_eq|by apply map_set_keys|by apply map_set_sorted| |done].
    assert (reprs (<[p:=JSonObj (map_set k None m)]> (objs s)) (snd <$> m) (snd <$> tm) D0) as Hrs'.
    { eapply reprs_agree; [done|]. intros a Hin. apply lookup_insert_ne. by intros ->. }
    destruct (map_set_reprs _ k None TNone ∅ (repr_none _) m tm D0 Hk Hrs') as (D' & H & _ & E); [set_solver|].
    unfold has_key in E. rewrite Ht in E. rewrite (E eq_refl), union_empty_r_L in H. done.
  - by left.
  - intros a _ Hx. apply lookup_insert_ne. set_solver.
  - apply mem_ok_set; [done|]. rewrite dom_insert_L. apply elem_of_dom_2 in Hp. set_solver.
Qed.

(** [maps[key] = b], with the object at [key] freed or left behind. *)
Lemma put_local s s1 p m tm D0 D1 D2 k b t :
  objs s !! p = Some (JSonObj m) -> fst <$> m = fst <$> tm -> sorted m -> p ∉ D0 -> D0 ⊆ dom (objs s) ->
  D0 = D1 ∪ D2 -> D1 ## D2 ->
  (forall h' b t, same_on D2 (objs s) h' -> repr h' (Some b) t {[b]} -> {[b]} ## D2 ->
     reprs h' (snd <$> map_set k (Some b) m) (snd <$> map_set k t tm) ({[b]} ∪ D2)) ->
  mem_ok s1 -> objs s1 !! p = Some (JSonObj m) -> b ∉ dom (objs s) -> repr (objs s1) (Some b) t {[b]} ->
  (forall a, a ∉ D1 -> a <> b -> objs s1 !! a = objs s !! a) ->
  exists s2 D', JObj.put p k (Some b) s1 = Ok (tt, s2) /\ becomes s s2 ({[p]} ∪ D0) D' p (TObj (map_set k t tm)) /\
    follow (objs s2) p [Member k] = Some b.
Proof.
  intros Hp Hk Hm Hn Hdom HD Hd Hrep Hok Hp1 Hb Hrb Hsame.
  assert (p <> b) as Hpb by (intros ->; apply Hb; by eapply elem_of_dom_2).
  eexists _, _. split; [|split].
  - unfold JObj.put. rewrite (bind_ok _ _ _ _ _ (as_obj_ok _ _ _ Hp1)). by eapply store_ok.
  - eapply (becomes_put s _ p D0 D1 D2); try done; cbn [objs set_objs].
    + apply mem_ok_set; [done|]. rewrite dom_insert_L. apply elem_of_dom_2 in Hp1. set_solver.
    + intros a Ha1 Ha2 Ha3. rewrite lookup_insert_ne by done. by apply Hsame.
    + intros Hso Hdb. eapply repr_obj_intro; [apply lookup_insert_eq|by apply map_set_keys|by apply map_set_sorted| |set_solver].
      apply Hrep; [done| |done]. apply repr_insert_other; [set_solver|done].
  - cbn. by rewrite lookup_insert_eq, map_find_set.
Qed.

(** A key without an object gets a new one; [create] leaves the old one. *)
Lemma put_new_local s p tm D k s1 t : mem_ok s -> repr (objs s) (Some p) (TObj tm) D ->
  fresh_child s s1 (fresh s) t ->
  exists s2 D', JObj.put p k (Some (fresh s)) s1 = Ok (tt, s2) /\ becomes s s2 D D' p (TObj (map_set k t tm)) /\
    follow (objs s2) p [Member k] = Some (fresh s).
Proof.
  intros Hs Hr [Hx Hb]. pose proof (repr_dom _ _ _ _ Hr) as Hdom. pose proof (fresh_not_in s Hs) as Hf.
  apply repr_obj_inv in Hr as (m & D0 & Hp & Hk & Hm & Hrs & Hn & ->).
  destruct (child_slot _ m tm D0 k Hk Hm Hrs) as (D1 & D2 & HD & Hd & Hrep & _).
  eapply (put_local s s1 p m tm D0 D1 D2); try done.
  - set_solver.
  - by eapply ext_ok.
  - rewrite (ext_other _ _ _ _ Hx); [done|]. intros ->. apply Hf. by eapply elem_of_dom_2.
  - intros a _ Ha. by eapply ext_other.
Qed.

(** A container at a key is freed and a [JValue] takes its place. *)
Lemma put_replace_local s p tm D k t : mem_ok s -> repr (objs s) (Some p) (TObj tm) D -> map_find k tm = Some t ->
  exists a s2 D', JObj.at_ p k s = Ok (a, s) /\
    (delete_ptr a ;; b ← new_JValue; JObj.put p k (Some b)) s = Ok (tt, s2) /\
    becomes s s2 D D' p (TObj (map_set k TNull tm)).
Proof.
  intros Hs Hr Ht. destruct (obj_at_present s p tm D k t Hr Ht) as (m' & a & _ & Hp' & Ha & _ & E).
  pose proof (repr_dom _ _ _ _ Hr) as Hdom.
  apply repr_obj_inv in Hr as (m & D0 & Hp & Hk & Hm & Hrs & Hn & ->). assert (m' = m) as -> by congruence.
  destruct (child_slot _ m tm D0 k Hk Hm Hrs) as (D1 & D2 & HD & Hd & Hrep & H). rewrite Ha in H.
  destruct H as (t' & Ht' & Hra & _).
  destruct (replace_child s p (JSonObj m) D0 D1 D2 a t' Hs Hp Hn HD Hra) as (s1 & Enew & Hok1 & Hp1 & Hf & Hrb & Hsame).
  destruct (put_local s s1 p m tm D0 D1 D2 k (fresh s) TNull) as (s2 & D' & E2 & H2 & _); try done; [set_solver|].
  exists a, s2, D'. split_and!; [done| |done].
  rewrite (bind_ok _ _ _ _ _ (delete_ptr_repr _ _ _ _ Hra)) in Enew.
  rewrite (bind_ok _ _ _ _ _ (delete_ptr_repr _ _ _ _ Hra)).
  by rewrite (bind_ok _ _ _ _ _ Enew).
Qed.

(** A set of a member that is a [JValue]. *)
Definition set_there (p : addr) (k : list Z) (x : scalar) : M mem unit :=
  a ← JObj.at_ p k; a ← JObj.deref a; value_set x a.

Lemma set_member_local s p tm D k t x : mem_ok s -> repr (objs s) (Some p) (TObj tm) D -> map_find k tm = Some t ->
  is_leaf t = true -> op_ok (VSet x) ->
  exists s' D', set_there p k x s = Ok (tt, s') /\ becomes s s' D D' p (TObj (map_set k (tree_of x) tm)).
Proof.
  intros Hs Hr Ht Hl Hx. destruct (obj_at_present s p tm D k t Hr Ht) as (m & a & D1 & Hp & Ha & Hra & E).
  destruct a as [a|]; [|by inversion Hra; subst].
  destruct (becomes_at_path [Member k] s p (TObj tm) D a Hr) as (t' & D1' & Hget & Hra' & Hbec).
  { cbn. by rewrite Hp, Ha. }
  cbn in Hget. rewrite Ht in Hget. injection Hget as <-.
  destruct (value_set_ok s a t D1' x Hs Hra' Hl Hx) as (s' & E' & Hb).
  destruct (Hbec s' _ _ Hb) as (D' & HD' & _ & _). cbn in HD'. rewrite Ht in HD'.
  exists s', D'. split; [|done]. unfold set_there. rewrite (bind_ok _ _ _ _ _ E). cbn [JObj.deref]. by erewrite bind_ok by reflexivity.
Qed.

(** After a new [JValue] at the key, the set. *)
Lemma then_set s s1 p tm D D1 k x : becomes s s1 D D1 p (TObj (map_set k TNull tm)) -> sorted tm -> op_ok (VSet x) ->
  exists s' D', set_there p k x s1 = Ok (tt, s') /\ becomes s s' D D' p (TObj (map_set k (tree_of x) tm)).
Proof.
  intros H Hm Hx.
  destruct (set_member_local s1 p _ D1 k TNull x (bec_ok _ _ _ _ _ _ H) (bec_repr _ _ _ _ _ _ H)) as (s' & D' & E & H');
    [by apply map_find_set|done|done|]. rewrite map_set_set in H'. exists s', D'. split; [done|by eapply becomes_trans].
Qed.

Lemma repr_obj_sorted h a tm D : repr h (Some a) (TObj tm) D -> sorted tm.
Proof. intros (m & D0 & _ & Hk & Hm & _)%repr_obj_inv. unfold sorted in *. by rewrite <- Hk. Qed.

(** A set at a key without an object. *)
Lemma set_none_local s p tm D k x : mem_ok s -> repr (objs s) (Some p) (TObj tm) D -> map_find k tm = Some TNone ->
  op_ok (VSet x) ->
  exists s' D', (b ← new_JValue; JObj.put p k (Some b) ;; set_there p k x) s = Ok (tt, s') /\
    becomes s s' D D' p (TObj (map_set k (tree_of x) tm)).
Proof.
  intros Hs Hr Ht Hx. destruct (new_JValue_ext s Hs) as (s1 & E & Hb).
  destruct (put_new_local s p tm D k s1 TNull Hs Hr Hb) as (s2 & D' & E2 & H2 & _).
  destruct (then_set s s2 p tm D D' k x H2 (repr_obj_sorted _ _ _ _ Hr) Hx) as (s3 & D3 & E3 & H3).
  exists s3, D3. split; [|done]. by rewrite (bind_ok _ _ _ _ _ E), (bind_ok _ _ _ _ _ E2).
Qed.

Lemma repr_leaf_some h a t D : repr h a t D -> t <> TNone -> exists b, a = Some b.
Proof. intros H Ht. destruct a as [b|]; [by exists b|]. by inversion H; subst. Qed.

Lemma repr_none_inv h a D : repr h a TNone D -> a = None.
Proof. intros H. inversion H as [|? ty| |]; subst; [done|]. by destruct ty. Qed.

Lemma bind_assoc {S A B C'} (m : M S A) (f : A -> M S B) (g : B -> M S C') s :
  ((m ≫= f) ≫= g) s = (m ≫= fun a => f a ≫= g) s.
Proof. unfold mbind, M_bind, bind, obind. by destruct (m s) as [[a s']| | |]. Qed.

#[local] Instance tnone_dec t : Decision (t = TNone).
Proof. destruct t; by (left + right). Defined.

(** [JSonObj::setInt] and its like. *)
Lemma obj_set_local s p tm D k x : mem_ok s -> repr (objs s) (Some p) (TObj tm) D -> op_ok (VSet x) ->
  match map_find k tm with None | Some TNone => True | Some t => is_leaf t = true end ->
  exists s' D', JObj.set (value_set x) p k s = Ok (tt, s') /\ becomes s s' D D' p (TObj (map_set k (tree_of x) tm)).
Proof.
  intros Hs Hr Hx Hl. unfold JObj.set. destruct (map_find k tm) as [t|] eqn:Ht.
  - destruct (obj_at_present s p tm D k t Hr Ht) as (m & a & D1 & Hp & Ha & Hra & E).
    rewrite (bind_ok _ _ _ _ _ E). destruct (tnone_dec t) as [->|Hne].
    + apply repr_none_inv in Hra as ->. rewrite bind_assoc. by apply set_none_local.
    + destruct (repr_leaf_some _ _ _ _ Hra Hne) as [b ->]. erewrite bind_ok by reflexivity.
      eapply set_member_local; try done. by destruct t.
  - destruct (obj_at_absent s p tm D k Hs Hr Ht) as (s1 & E & H1). rewrite (bind_ok _ _ _ _ _ E), bind_assoc.
    destruct (set_none_local s1 p _ D k x (bec_ok _ _ _ _ _ _ H1) (bec_repr _ _ _ _ _ _ H1)) as (s2 & D2 & E2 & H2);
      [apply map_find_set; by eapply repr_obj_sorted|done|].
    rewrite map_set_set in H2. exists s2, D2. split; [done|by eapply becomes_trans].
Qed.

(** [JSonObj::setNull], which takes containers too. *)
Lemma obj_null_local s p tm D k : mem_ok s -> repr (objs s) (Some p) (TObj tm) D ->
  exists s' D', JObj.setNull p k s = Ok (tt, s') /\ becomes s s' D D' p (TObj (map_set k TNull tm)).
Proof.
  intros Hs Hr. unfold JObj.setNull. destruct (map_find k tm) as [t|] eqn:Ht.
  - destruct (obj_at_present s p tm D k t Hr Ht) as (m & a & D1 & Hp & Ha & Hra & E).
    rewrite (bind_ok _ _ _ _ _ E). destruct (tnone_dec t) as [->|Hne].
    + apply repr_none_inv in Hra as ->. rewrite bind_assoc. by apply (set_none_local s p tm D k SNull).
    + destruct (repr_leaf_some _ _ _ _ Hra Hne) as [b ->].
      destruct (container_test _ _ _ _ Hra) as (o & Ho & Htest).
      rewrite bind_assoc, (bind_ok _ _ _ _ _ (load_ok _ _ _ Ho)), Htest.
      destruct (is_container t) eqn:Hc.
      * destruct (put_replace_local s p tm D k t Hs Hr Ht) as (a' & s2 & D' & E' & E2 & H2).
        rewrite E in E'. injection E' as <-. rewrite (bind_ok _ _ _ _ _ E2).
        by apply (then_set s s2 p tm D D' k SNull H2 (repr_obj_sorted _ _ _ _ Hr)).
      * erewrite bind_ok by reflexivity. apply (set_member_local s p tm D k t SNull); try done. by destruct t.
  - destruct (obj_at_absent s p tm D k Hs Hr Ht) as (s1 & E & H1). rewrite (bind_ok _ _ _ _ _ E), bind_assoc.
    destruct (set_none_local s1 p _ D k SNull (bec_ok _ _ _ _ _ _ H1) (bec_repr _ _ _ _ _ _ H1)) as (s2 & D2 & E2 & H2);
      [apply map_find_set; by eapply repr_obj_sorted|done|].
    rewrite map_set_set in H2. exists s2, D2. split; [done|by eapply becomes_trans].
Qed.

Lemma obj_remove_local s p tm D k : mem_ok s -> repr (objs s) (Some p) (TObj tm) D ->
  exists s' D', JObj.remove p k s = Ok (tt, s') /\ becomes s s' D D' p (TObj (map_erase k tm)).
Proof.
  intros Hs Hr. pose proof (repr_dom _ _ _ _ Hr) as Hdom. pose proof Hr as Hr0.
  apply repr_obj_inv in Hr as (m & D0 & Hp & Hk & Hm & Hrs & Hn & ->).
  destruct (child_slot _ m tm D0 k Hk Hm Hrs) as (D1 & D2 & HD & Hd & _ & H).
  unfold JObj.remove. rewrite (bind_ok _ _ _ _ _ (as_obj_ok _ _ _ Hp)).
  destruct (map_find k m) as [a|] eqn:Ha.
  - destruct H as (t & Ht & Hra & Hke & Hse & Hrep).
    destruct (becomes_drop s p D0 D1 D2 (JSonObj m) (JSonObj (map_erase k m)) a t (TObj (map_erase k tm)) Hs Hp HD Hd Hn)
      as [Hb Hp1]; [set_solver|done| |].
    { intros h Hh Hso. eapply repr_obj_intro; [done..| |set_solver]. by apply Hrep. }
    eexists _, _. split; [|exact Hb].
    rewrite (bind_ok _ _ _ _ _ (delete_ptr_repr _ _ _ _ Hra)), (bind_ok _ _ _ _ _ (as_obj_ok _ _ _ Hp1)).
    by eapply store_ok.
  - destruct H as [Ht _]. exists s, ({[p]} ∪ D0). rewrite map_erase_absent by done. split; [done|].
    split; [done|by left|done|done].
Qed.

Lemma create_obj_local s p tm D k (isobj : bool) : mem_ok s -> repr (objs s) (Some p) (TObj tm) D ->
  exists s' D' a, (if isobj then JObj.createObj p k else JObj.createArray p k) s = Ok (a, s') /\
    becomes s s' D D' p (TObj (map_set k (empty_tree isobj) tm)) /\ follow (objs s') p [Member k] = Some a.
Proof.
  intros Hs Hr. destruct (new_empty_ext s isobj Hs) as (s1 & E & Hb).
  destruct (put_new_local s p tm D k s1 _ Hs Hr Hb) as (s2 & D' & E2 & H & Hf).
  exists s2, D', (fresh s). split; [|done].
  destruct isobj; [unfold JObj.createObj|unfold JObj.createArray];
    rewrite (bind_ok _ _ _ _ _ E); by rewrite (bind_ok _ _ _ _ _ E2).
Qed.

(** ** Every call *)

(** Where a [create] method puts the new container. *)
Definition created (o : op) (t : jtree) : option place :=
  match o, t with
  | ACreate _, TArr l => Some (Item (length l))
  | OCreate k _, _ => Some (Member k)
  | _, _ => None
  end.

Definition created_at (h : gmap addr JBaseObj) (q : addr) (path : list place) (o : op) (t : jtree) (r : option addr) : Prop :=
  match created o t with
  | Some pl => is_Some r /\ follow h q (path ++ [pl]) = r
  | None => r = None
  end.

Lemma exec_ret (m : M mem unit) s s' : m s = Ok (tt, s') -> (m ;; ret (@None addr)) s = Ok (None, s').
Proof. intros E. by rewrite (bind_ok _ _ _ _ _ E). Qed.

Lemma exec_ret_some (m : M mem addr) s a s' : m s = Ok (a, s') -> (a ← m; ret (Some a)) s = Ok (Some a, s').
Proof. intros E. by rewrite (bind_ok _ _ _ _ _ E). Qed.

Lemma settable_cases x t : settable x t = true -> is_leaf t = true \/ (x = SNull /\ is_container t = true).
Proof. unfold settable. intros [H|H]%orb_true_iff; [by left|]. right. by destruct x. Qed.

Lemma set_item_any s p l D i t x : mem_ok s -> repr (objs s) (Some p) (TArr l) D -> l !! i = Some t ->
  settable x t = true -> op_ok (VSet x) ->
  exists s' D', exec p (ASet (Z.of_nat i) x) s = Ok (None, s') /\ becomes s s' D D' p (TArr (<[i := tree_of x]> l)).
Proof.
  intros Hs Hr Hi [Hl|[-> Hc]]%settable_cases Hx.
  - destruct (set_item_local s p l D i t x Hs Hr Hi Hl Hx) as (s' & D' & E & H). exists s', D'. split; [|done].
    destruct x; try by apply exec_ret. apply exec_ret. rewrite <- E. unfold JArr.setNull.
    destruct (array_at _ _ _ _ _ _ Hr Hi) as (ps & a & Hp & Ha & _ & Eat).
    rewrite !(bind_ok _ _ _ _ _ Eat).
    destruct (becomes_at_path [Item i] s p (TArr l) D a Hr) as (t' & D1 & Hget & Hra & _); [cbn; by rewrite Hp, Ha|].
    cbn in Hget. rewrite Hi in Hget. injection Hget as <-.
    destruct (container_test _ _ _ _ Hra) as (o & Ho & Htest).
    rewrite (bind_ok _ _ _ _ _ (load_ok _ _ _ Ho)), Htest.
    assert (is_container t = false) as -> by (by destruct t).
    erewrite bind_ok by reflexivity. by rewrite (bind_ok _ _ _ _ _ Eat).
  - destruct (null_item_local s p l D i t Hs Hr Hi Hc) as (s' & D' & E & H). exists s', D'. split; [by apply exec_ret|done].
Qed.

Lemma set_member_any s p tm D k x : mem_ok s -> repr (objs s) (Some p) (TObj tm) D -> op_ok (VSet x) ->
  match map_find k tm with None | Some TNone => True | Some t => settable x t = true end ->
  exists s' D', exec p (OSet k x) s = Ok (None, s') /\ becomes s s' D D' p (TObj (map_set k (tree_of x) tm)).
Proof.
  intros Hs Hr Hx Ht. destruct (is_null_arg x) eqn:Hn.
  - destruct x; try done. destruct (obj_null_local s p tm D k Hs Hr) as (s' & D' & E & H).
    exists s', D'. split; [by apply exec_ret|done].
  - destruct (obj_set_local s p tm D k x Hs Hr Hx) as (s' & D' & E & H).
    { destruct (map_find k tm) as [[]|]; try done; destruct (settable_cases _ _ Ht) as [?|[-> _]]; done. }
    exists s', D'. split; [|done]. destruct x; try done; by apply exec_ret.
Qed.

Lemma exec_local s p t D o t' : mem_ok s -> repr (objs s) (Some p) t D -> edit o t = Some t' -> op_ok o ->
  exists r s' D', exec p o s = Ok (r, s') /\ becomes s s' D D' p t' /\ created_at (objs s') p [] o t r.
Proof.
  intros Hs Hr He Ho. unfold created_at.
  destruct o as [x|x|i x|i|b|k x|k|k b]; cbn [edit] in He;
    try (destruct t as [| | | | | |l|tm]; try done; []); cbn [created].
  - destruct (is_leaf t) eqn:Hl; [|done]. injection He as <-.
    destruct (value_set_ok s p t D x Hs Hr Hl Ho) as (s' & E & H). exists None, s', {[p]}.
    by split_and!; [apply exec_ret|..].
  - injection He as <-. destruct (push_local s p l D x Hs Hr) as (s' & D' & E & H); [by destruct x|].
    exists None, s', D'. split_and!; [|done..]. destruct x; by apply exec_ret.
  - destruct (Z.ltb_spec i 0) as [|Hi0]; [done|]. destruct (l !! Z.to_nat i) as [t|] eqn:Hi; [|done].
    destruct (settable x t) eqn:Hset; [|done]. injection He as <-.
    destruct (set_item_any s p l D (Z.to_nat i) t x Hs Hr Hi Hset) as (s' & D' & E & H); [by destruct x|].
    rewrite Z2Nat.id in E by exact Hi0. by exists None, s', D'.
  - destruct ((i <? 0) || (Z.of_nat (length l) <? i)) eqn:Hi; [done|]. injection He as <-.
    apply orb_false_iff in Hi as [Hi1 Hi2]. bool_arith.
    destruct (remove_item_local s p l D i Hs Hr) as (s' & D' & E & H); [lia|].
    exists None, s', D'. by split_and!; [apply exec_ret|..].
  - injection He as <-. destruct (create_array_local s p l D b Hs Hr) as (s' & D' & a & E & H & Hf).
    exists (Some a), s', D'. split_and!; [destruct b; by apply exec_ret_some|done|done|done].
  - assert (t' = TObj (map_set k (tree_of x) tm)) as ->.
    { destruct (map_find k tm) as [[]|]; repeat case_match; congruence. }
    destruct (set_member_any s p tm D k x Hs Hr) as (s' & D' & E & H); [by destruct x| |by exists None, s', D'].
    destruct (map_find k tm) as [[]|]; try done; by destruct (settable x _) eqn:?.
  - injection He as <-. destruct (obj_remove_local s p tm D k Hs Hr) as (s' & D' & E & H).
    exists None, s', D'. by split_and!; [apply exec_ret|..].
  - injection He as <-. destruct (create_obj_local s p tm D k b Hs Hr) as (s' & D' & a & E & H & Hf).
    exists (Some a), s', D'. split_and!; [destruct b; by apply exec_ret_some|done|done|done].
Qed.

Lemma follow_app h q path path' : follow h q (path ++ path') =
  match follow h q path with Some p => follow h p path' | None => None end.
Proof.
  revert q. induction path as [|[i|k] path IH]; intros q; cbn; [done|..].
  - destruct (h !! q) as [[|l|]|]; try done. destruct (l !! i); [apply IH|done].
  - destruct (h !! q) as [[| |m]|]; try done. destruct (map_find k m) as [[a|]|]; [apply IH|done..].
Qed.

(** C14.  A script's calls through its pointers edit the tree they point into:
    when [p] is the object at [path] of the tree [T] below [q] and the call (of
    a method that changes the tree) is defined there, which [edit] decides (an
    index in range, an object of the class the code casts to), the call
    succeeds, [T] becomes [T] with the subtree at [path] edited, objects outside
    the tree keep their contents, and what a [create] method returns is the
    container it put into the tree. *)
Theorem json_edit s q T E path p t o t' : mem_ok s -> repr (objs s) (Some q) T E ->
  follow (objs s) q path = Some p -> get path T = Some t -> edit o t = Some t' -> op_ok o ->
  exists r s' E', exec p o s = Ok (r, s') /\ mem_ok s' /\ repr (objs s') (Some q) (subst path t' T) E' /\
    (forall a, a ∈ dom (objs s) -> a ∉ E -> objs s' !! a = objs s !! a) /\
    created_at (objs s') q path o t r.
Proof.
  intros Hs Hr Hf Hg He Ho. destruct (becomes_at_path path s q T E p Hr Hf) as (t0 & D & Hg' & Hp & Hbec).
  assert (t0 = t) as -> by congruence.
  destruct (exec_local s p t D o t' Hs Hp He Ho) as (r & s' & D' & Ex & H & Hc).
  destruct (Hbec s' D' t' H) as (E' & [R N F O] & _ & Hfol). exists r, s', E'. split_and!; try done.
  unfold created_at in *. destruct (created o t) as [pl|]; [|done]. destruct Hc as [Hsome Hc].
  split; [done|]. by rewrite follow_app, Hfol.
Qed.

(** A script: the object [{"a": []}], to whose array 7 is pushed. *)
Definition script_mem : mem :=
  match (o ← new_JSonObj; JObj.createArray o [97]) mem0 with Ok (_, s) => s | _ => mem0 end.

Lemma script_ok : mem_ok script_mem.
Proof.
  intros a Ha. assert (dom (objs script_mem) = {[1; 2]}%positive) as E by (vm_compute; reflexivity).
  assert (fresh script_mem = 3%positive) as -> by (vm_compute; reflexivity). rewrite E in Ha. set_unfold. lia.
Qed.

Lemma script_repr : exists D, repr (objs script_mem) (Some 1%positive) (TObj [([97], TArr [])]) D.
Proof.
  eexists. apply (repr_obj _ 1%positive [([97], Some 2%positive)] [TArr []]).
  - vm_compute. reflexivity.
  - apply reprs_cons; [|apply reprs_nil|].
    + apply (repr_array _ 2%positive []); [vm_compute; reflexivity|apply reprs_nil|set_solver].
    + set_solver.
  - set_solver.
  - apply sortedb_spec. vm_compute. reflexivity.
Qed.

Theorem json_edit_witness : exists E, repr (objs script_mem) (Some 1%positive) (TObj [([97], TArr [])]) E /\
  exists r s' E', exec 2%positive (APush (SInt 7)) script_mem = Ok (r, s') /\ mem_ok s' /\
    repr (objs s') (Some 1%positive) (TObj [([97], TArr [TInt 7])]) E' /\
    (forall a, a ∈ dom (objs script_mem) -> a ∉ E -> objs s' !! a = objs script_mem !! a) /\
    created_at (objs s') 1%positive [Member [97]] (APush (SInt 7)) (TArr []) r.
Proof.
  destruct script_repr as [E HE]. exists E. split; [exact HE|].
  apply (json_edit script_mem 1%positive (TObj [([97], TArr [])]) E [Member [97]] 2%positive (TArr []) (APush (SInt 7))
    (TArr [TInt 7]) script_ok HE); [vm_compute; reflexivity|reflexivity|reflexivity|].
  cbn. unfold in_i. change (2 ^ (32 - 1)) with 2147483648. lia.
Defined.
End JsonEdit.
