(* ===== verification/Bytes.v ===== *)
(** * Bytes: object representations of integers

    The packet code copies integers with [memcpy] and pointer casts, so what
    reaches the wire is their object representation.  [EndianConvert] of
    src/src/common/ByteConverter.h is the identity in this build: Define.h
    defines [TRINITY_BIGENDIAN] as 1 and never defines [TRINITY_ENDIAN], so
    the test [TRINITY_ENDIAN == TRINITY_BIGENDIAN] is [0 == 1].  The supported
    targets are little endian, so an integer is its bytes from the least
    significant one. *)
From S2P Require Import Prelude.

(** The [n] low bytes of [z], least significant first. *)
Fixpoint le_bytes (n : nat) (z : Z) : list Z :=
  match n with
  | O => []
  | S n' => z mod 256 :: le_bytes n' (z / 256)
  end.

(** The unsigned value of a little-endian byte string. *)
Fixpoint le_val (l : list Z) : Z :=
  match l with
  | [] => 0
  | b :: l' => b + 256 * le_val l'
  end.

(** The big-endian value, used for the byte order a protocol document asks
    for. *)
Definition be_val (l : list Z) : Z := le_val (rev l).

Lemma le_bytes_length n z : length (le_bytes n z) = n.
Proof. revert z. induction n; intros; simpl; auto. Qed.

Lemma le_bytes_ok n z : bytes_ok (le_bytes n z).
Proof.
  revert z. induction n; intros; simpl; constructor; [|apply IHn].
  apply Z.mod_pos_bound. lia.
Qed.

Lemma pow256_succ n : 2 ^ (8 * Z.of_nat (S n)) = 256 * 2 ^ (8 * Z.of_nat n).
Proof. rewrite <- (Z.pow_add_r 2 8) by lia. f_equal. lia. Qed.

Lemma pow256_pos n : 0 < 2 ^ (8 * Z.of_nat n).
Proof. apply Z.pow_pos_nonneg; lia. Qed.

Lemma le_val_bytes n z : le_val (le_bytes n z) = wrap (8 * Z.of_nat n) z.
Proof.
  revert z. induction n as [|n IH]; intros z; simpl le_bytes; simpl le_val.
  - unfold wrap. by rewrite Z.mod_1_r.
  - rewrite IH. unfold wrap. rewrite pow256_succ.
    pose proof (pow256_pos n). rewrite Z.rem_mul_r by lia. lia.
Qed.

Lemma le_val_range l : bytes_ok l -> 0 <= le_val l < 2 ^ (8 * Z.of_nat (length l)).
Proof.
  induction 1 as [|b l Hb _ IH]; simpl length; simpl le_val; [lia|].
  rewrite pow256_succ. unfold byte_ok in Hb. lia.
Qed.

Lemma le_bytes_val l : bytes_ok l -> le_bytes (length l) (le_val l) = l.
Proof.
  induction 1 as [|b l Hb _ IH]; simpl; [done|]. unfold byte_ok in Hb.
  assert ((b + 256 * le_val l) mod 256 = b) as ->.
  { rewrite Z.add_comm, Z.mul_comm, Z.add_comm, Z_mod_plus_full.
    by apply Z.mod_small. }
  assert ((b + 256 * le_val l) / 256 = le_val l) as ->.
  { rewrite Z.add_comm, Z.mul_comm, Z_div_plus_full_l by lia.
    rewrite (Z.div_small b) by lia. lia. }
  by rewrite IH.
Qed.

Lemma le_bytes_wrap n z : le_bytes n (wrap (8 * Z.of_nat n) z) = le_bytes n z.
Proof.
  rewrite <- le_val_bytes. rewrite <- (le_bytes_length n z) at 1.
  apply le_bytes_val, le_bytes_ok.
Qed.

(** ** The scalar types the packets carry

    [float] and [double] are carried by their bit pattern: the code only ever
    copies them. *)
Inductive cty : Type :=
  | Tuint8 | Tuint16 | Tuint32 | Tuint64
  | Tint8 | Tint16 | Tint32 | Tint64
  | Tfloat | Tdouble.

Definition sizeof (t : cty) : nat :=
  match t with
  | Tuint8 | Tint8 => 1
  | Tuint16 | Tint16 => 2
  | Tuint32 | Tint32 | Tfloat => 4
  | Tuint64 | Tint64 | Tdouble => 8
  end.

Definition cty_signed (t : cty) : bool :=
  match t with
  | Tint8 | Tint16 | Tint32 | Tint64 => true
  | _ => false
  end.

Definition cty_width (t : cty) : Z := 8 * Z.of_nat (sizeof t).

(** Values of a type. *)
Definition in_cty (t : cty) (v : Z) : Prop :=
  if cty_signed t then in_i (cty_width t) v else in_u (cty_width t) v.

#[export] Instance cty_eq_dec : EqDecision cty.
Proof. solve_decision. Defined.

#[export] Instance in_cty_dec t v : Decision (in_cty t v).
Proof. unfold in_cty, in_i, in_u. destruct (cty_signed t); apply _. Defined.

(** The bytes of a value in memory, [sizeof] of them. *)
Definition obj_bytes (t : cty) (v : Z) : list Z := le_bytes (sizeof t) v.

(** The value of type [t] whose object representation is [l]. *)
Definition obj_val (t : cty) (l : list Z) : Z :=
  if cty_signed t then sext (cty_width t) (le_val l) else le_val l.

Lemma sizeof_pos t : (0 < sizeof t)%nat.
Proof. destruct t; simpl; lia. Qed.

Lemma obj_bytes_length t v : length (obj_bytes t v) = sizeof t.
Proof. apply le_bytes_length. Qed.

Lemma obj_bytes_ok t v : bytes_ok (obj_bytes t v).
Proof. apply le_bytes_ok. Qed.

Lemma obj_val_bytes t v : in_cty t v -> obj_val t (obj_bytes t v) = v.
Proof.
  unfold in_cty, obj_val, obj_bytes. intros Hv.
  rewrite le_val_bytes. fold (cty_width t).
  assert (0 < cty_width t) by (destruct t; reflexivity).
  destruct (cty_signed t).
  - rewrite sext_wrap. by apply sext_small.
  - by apply wrap_small.
Qed.

#[export] Hint Rewrite le_bytes_length obj_bytes_length : words.
#[export] Hint Resolve le_bytes_ok obj_bytes_ok : words.
