(* ===== verification/ByteBuf.v ===== *)
(** * ByteBuf: ByteBuffer and BasePacket

    Models src/src/common/ByteBuffer.h, ByteBuffer.cpp and
    src/src/network/BasePacket.h, BasePacket.cpp: a byte vector with a read
    and a write position, and the typed push/get operations on it.  [None]
    stands for an access outside the vector, which is undefined in C++ (the
    code has no bounds check of its own). *)
From S2P Require Import Prelude Bytes.

Module ByteBuffer.

(** The fields: [_storage] (a pooled vector), [_rpos], [_wpos]. *)
Record t : Type := mk { storage : list Z; rpos : nat; wpos : nat }.

(** [ByteBuffer::ByteBuffer()] and [(size_t reserve)]: the vector comes from
    the object pool, which hands a recycled one out with its old contents
    ([CBuffer::zero] is empty); [reserve] does not change them. *)
Definition create (recycled : list Z) : t := mk recycled 0 0.

(** The move constructor: takes the positions, swaps the vectors. *)
Definition move_create (recycled : list Z) (buf : t) : t * t :=
  (mk (storage buf) (rpos buf) (wpos buf), mk recycled (rpos buf) (wpos buf)).

(** The copy constructor and the copy assignment. *)
Definition copy_create (right : t) : t :=
  mk (storage right) (rpos right) (wpos right).
Definition copy_assign (this right : t) : t :=
  mk (storage right) (rpos right) (wpos right).

(** The move assignment, for two distinct objects. *)
Definition move_assign (this right : t) : t * t :=
  (mk (storage right) (rpos right) (wpos right),
   mk (storage this) (rpos right) (wpos right)).

Definition swapBuffer (this right : t) : t * t :=
  (mk (storage right) (rpos this) (wpos this),
   mk (storage this) (rpos right) (wpos right)).

Definition clear (b : t) : t := mk [] 0 0.
Definition set_rpos (p : nat) (b : t) : t := mk (storage b) p (wpos b).
Definition set_wpos (p : nat) (b : t) : t := mk (storage b) (rpos b) p.
Definition rfinish (b : t) : t := set_rpos (wpos b) b.
Definition read_skip (skip : nat) (b : t) : t := set_rpos (rpos b + skip) b.
Definition size (b : t) : nat := length (storage b).
Definition empty (b : t) : bool := Nat.eqb (size b) 0.

(** [vector::resize(n, 0)]. *)
Definition vresize (n : nat) (l : list Z) : list Z :=
  take n l ++ replicate (n - length l) 0.

Definition resize (newsize : nat) (b : t) : t :=
  mk (vresize newsize (storage b)) 0 newsize.

(** [append(src, cnt)]: [insert] at [begin() + _wpos], so bytes
    already stored after the write position are shifted, not overwritten. *)
Definition append (src : list Z) (b : t) : option t :=
  if (wpos b <=? size b)%nat
  then Some (mk (take (wpos b) (storage b) ++ src ++ drop (wpos b) (storage b))
                (rpos b) (wpos b + length src))
  else None.

(** [append<T>(value)] and the [operator<<] of every scalar type. *)
Definition append_val (ty : cty) (v : Z) (b : t) : option t :=
  append (obj_bytes ty v) b.

(** [operator<<(const std::string&)]: the characters, then a NUL. *)
Definition append_str (s : list Z) (b : t) : option t :=
  b ← (if negb (Nat.eqb (length s) 0) then append s b else Some b);
  append_val Tuint8 0 b.

(** [append(const ByteBuffer&)]. *)
Definition append_buf (right : t) (b : t) : option t :=
  if negb (empty right) then append (storage right) b else Some b.

(** [put(pos, src, cnt)]: [memcpy] over the stored bytes. *)
Definition put (pos : nat) (src : list Z) (b : t) : option t :=
  if (pos + length src <=? size b)%nat
  then Some (mk (take pos (storage b) ++ src ++ drop (pos + length src) (storage b))
                (rpos b) (wpos b))
  else None.

Definition put_val (pos : nat) (ty : cty) (v : Z) (b : t) : option t :=
  put pos (obj_bytes ty v) b.

(** [read<T>(size_t pos) const]. *)
Definition read_at (ty : cty) (pos : nat) (b : t) : option Z :=
  if (pos + sizeof ty <=? size b)%nat
  then Some (obj_val ty (take (sizeof ty) (drop pos (storage b))))
  else None.

(** [read<T>()] and the [operator>>] of every scalar type. *)
Definition read (ty : cty) (b : t) : option (Z * t) :=
  r ← read_at ty (rpos b) b;
  Some (r, set_rpos (rpos b + sizeof ty) b).

(** [operator>>(bool&)]: the byte is read as a (signed) [char]. *)
Definition read_bool (b : t) : option (bool * t) :=
  '(r, b) ← read Tint8 b;
  Some (0 <? r, b).

(** [read(dest, len)]. *)
Definition read_bytes (len : nat) (b : t) : option (list Z * t) :=
  if (rpos b + len <=? size b)%nat
  then Some (take len (drop (rpos b) (storage b)), set_rpos (rpos b + len) b)
  else None.

(** [ReadString(uint32 length)]. *)
Definition ReadString (len : nat) (b : t) : option (list Z * t) :=
  if Nat.eqb len 0 then Some ([], b) else read_bytes len b.

Definition WriteString (s : list Z) (b : t) : option t :=
  if negb (Nat.eqb (length s) 0) then append s b else Some b.

(** [operator>>(std::string&)]: characters up to a NUL or to the end of the
    vector.  The loop runs over what is stored from [_rpos] on. *)
Fixpoint read_cstr (l : list Z) : list Z * nat :=
  match l with
  | [] => ([], 0%nat)
  | c :: l' =>
      if c =? 0 then ([], 1%nat)
      else let '(s, n) := read_cstr l' in (c :: s, S n)
  end.

Definition read_str (b : t) : list Z * t :=
  let '(s, n) := read_cstr (drop (rpos b) (storage b)) in
  (s, set_rpos (rpos b + n) b).

(** The invariant the comment at the top of ByteBuffer.h states. *)
Definition wf (b : t) : Prop :=
  (rpos b <= wpos b)%nat /\ (wpos b <= size b)%nat /\ bytes_ok (storage b).

End ByteBuffer.

Module BasePacket.
Import ByteBuffer.

(** [BasePacket::zero]. *)
Definition zero (b : t) : t := mk [] 0 0.

(** [BasePacket::BasePacket()] on a pooled vector. *)
Definition create (recycled : list Z) : t := zero (ByteBuffer.create recycled).

(** [moveData]: [vzero] is the virtual [zero] of the argument's class. *)
Definition moveData (vzero : t -> t) (this packet : t) : t * t :=
  let this := set_rpos (rpos packet) this in
  let this := set_wpos (wpos packet) this in
  let '(this, packet) := swapBuffer this packet in
  (this, vzero packet).

(** [shrink]: when the capacity exceeds [isize] the vector is exchanged for
    an empty one; the positions stay. *)
Definition shrink (capacity isize : nat) (b : t) : t :=
  if (isize <? capacity)%nat then mk [] (rpos b) (wpos b) else b.

(** [getHeadSize], [getMarkLen], [getMsgType], [isHeadFull] of the base. *)
Definition getHeadSize : Z := 0.
Definition getMarkLen : Z := 0.
Definition getMsgType : Z := 0.
Definition isHeadFull : bool := false.

(** [getBodySize], for a class whose head has [head] bytes: [size_t]
    arithmetic, converted to [int32]. *)
Definition getBodySize (head : Z) (b : t) : Z := i32 (Z.of_nat (wpos b) - head).

Definition getBodyData (head : nat) (b : t) : list Z := drop head (storage b).
Definition readPointer (b : t) : list Z := drop (rpos b) (storage b).

(** [setWriteSize]. *)
Definition setWriteSize (head size_ : nat) (b : t) : t :=
  mk (vresize (size_ + head) (storage b)) (rpos b) (size_ + head).

Definition activeSize (b : t) : Z :=
  i32 (Z.of_nat (wpos b) - Z.of_nat (rpos b)).

(** [readData]: the view on the unread bytes. *)
Definition readData (b : t) : list Z :=
  take (Z.to_nat (activeSize b)) (readPointer b).

Definition writeData (sv : list Z) (b : t) : option t := append sv b.

Definition sendSize (b : t) : Z := i32 (Z.of_nat (wpos b)).
Definition sendStream (b : t) : list Z := storage b.

(** [getInt8] .. [getDouble] and [getString]; [popValue]. *)
Definition getNum (ty : cty) (b : t) : option (Z * t) := read ty b.
Definition getString (b : t) : list Z * t := read_str b.

(** [pushInt8] .. [pushDouble] and [pushString]. *)
Definition pushNum (ty : cty) (v : Z) (b : t) : option t := append_val ty v b.
Definition pushString (s : list Z) (b : t) : option t := append_str s b.

(** [getValue<T>(pos)] and [setValue<T>(pos, t)]. *)
Definition getValue (ty : cty) (pos : nat) (b : t) : option Z := read_at ty pos b.
Definition setValue (ty : cty) (pos : nat) (v : Z) (b : t) : option t :=
  put_val pos ty v b.

(** A sequence of fields and the packet calls that write and read it, as a
    Lua or C++ caller issues them. *)
Inductive field : Type :=
  | FNum (ty : cty) (v : Z)
  | FStr (s : list Z).

Definition push_field (f : field) (b : t) : option t :=
  match f with
  | FNum ty v => pushNum ty v b
  | FStr s => pushString s b
  end.

Fixpoint push_fields (fs : list field) (b : t) : option t :=
  match fs with
  | [] => Some b
  | f :: fs => b ← push_field f b; push_fields fs b
  end.

(** What a reader that expects the shape of [f] gets. *)
Definition get_field (f : field) (b : t) : option (field * t) :=
  match f with
  | FNum ty _ => '(v, b) ← getNum ty b; Some (FNum ty v, b)
  | FStr _ => let '(s, b) := getString b in Some (FStr s, b)
  end.

Fixpoint get_fields (shape : list field) (b : t) : option (list field * t) :=
  match shape with
  | [] => Some ([], b)
  | f :: fs =>
      '(v, b) ← get_field f b;
      '(vs, b) ← get_fields fs b;
      Some (v :: vs, b)
  end.

(** A value the C++ call can be given: a number of the type, a string
    without NUL. *)
Definition field_ok (f : field) : Prop :=
  match f with
  | FNum ty v => in_cty ty v
  | FStr s => bytes_ok s /\ Forall (fun c => c <> 0) s
  end.

(** The bytes a field occupies. *)
Definition field_bytes (f : field) : list Z :=
  match f with
  | FNum ty v => obj_bytes ty v
  | FStr s => s ++ [0]
  end.

End BasePacket.

(** * Properties *)
Module ByteBufProps.
Import ByteBuffer BasePacket.

Lemma read_at_ok ty pos b :
  (pos + sizeof ty <= size b)%nat ->
  read_at ty pos b = Some (obj_val ty (take (sizeof ty) (drop pos (storage b)))).
Proof. intros H%Nat.leb_le. unfold read_at. by rewrite H. Qed.

Lemma put_ok pos src b :
  (pos + length src <= size b)%nat ->
  put pos src b =
    Some (mk (take pos (storage b) ++ src ++ drop (pos + length src) (storage b))
             (rpos b) (wpos b)).
Proof. intros H%Nat.leb_le. unfold put. by rewrite H. Qed.

Lemma append_at_end src b :
  wpos b = size b ->
  append src b = Some (mk (storage b ++ src) (rpos b) (wpos b + length src)).
Proof.
  intros Hw. unfold append. rewrite Hw, Nat.leb_refl.
  unfold size. by rewrite take_ge, drop_ge, app_nil_r by lia.
Qed.

Lemma append_str_at_end s b :
  wpos b = size b ->
  append_str s b = Some (mk (storage b ++ s ++ [0]) (rpos b) (wpos b + length s + 1)).
Proof.
  intros Hw. unfold append_str, append_val.
  destruct s as [|c s]; simpl.
  - by rewrite append_at_end, Nat.add_0_r by done.
  - rewrite append_at_end by done. simpl.
    rewrite append_at_end by (unfold size in *; simpl; rewrite length_app; simpl; lia).
    simpl. by rewrite <- app_assoc.
Qed.

Lemma push_field_at_end f b :
  wpos b = size b ->
  push_field f b =
    Some (mk (storage b ++ field_bytes f) (rpos b) (wpos b + length (field_bytes f))).
Proof.
  intros Hw. destruct f as [ty v|s]; simpl.
  - by apply append_at_end.
  - unfold pushString. rewrite append_str_at_end by done. rewrite length_app. simpl.
    by rewrite Nat.add_assoc.
Qed.

Lemma push_fields_at_end fs b :
  wpos b = size b ->
  push_fields fs b =
    Some (mk (storage b ++ concat (map field_bytes fs)) (rpos b)
             (wpos b + length (concat (map field_bytes fs)))).
Proof.
  revert b. induction fs as [|f fs IH]; intros b Hw; simpl.
  - rewrite app_nil_r, Nat.add_0_r. by destruct b.
  - rewrite push_field_at_end by done. simpl.
    rewrite IH by (unfold size in *; simpl; rewrite length_app; lia). simpl.
    by rewrite <- app_assoc, length_app, Nat.add_assoc.
Qed.

Lemma read_cstr_app s rest :
  Forall (fun c => c <> 0) s ->
  read_cstr (s ++ 0 :: rest) = (s, S (length s)).
Proof.
  induction 1 as [|c s Hc _ IH]; simpl; [done|].
  rewrite IH. by apply Z.eqb_neq in Hc as ->.
Qed.

Lemma get_field_prefix f b rest :
  field_ok f ->
  (rpos b <= size b)%nat ->
  drop (rpos b) (storage b) = field_bytes f ++ rest ->
  get_field f b = Some (f, set_rpos (rpos b + length (field_bytes f)) b).
Proof.
  intros Hf Hr Hd. destruct f as [ty v|s]; simpl in *.
  - unfold getNum, read, read_at.
    assert (rpos b + sizeof ty <= size b)%nat as Hle%Nat.leb_le.
    { unfold size in *. apply (f_equal length) in Hd.
      rewrite length_drop, length_app, obj_bytes_length in Hd. lia. }
    rewrite Hle. simpl. rewrite Hd, <- (obj_bytes_length ty v), take_app_exact.
    by rewrite obj_val_bytes.
  - unfold getString, read_str. rewrite Hd, <- app_assoc. simpl.
    rewrite read_cstr_app by apply Hf. simpl. rewrite length_app. simpl.
    by rewrite Nat.add_1_r.
Qed.

Lemma get_fields_prefix fs b rest :
  Forall field_ok fs ->
  (rpos b <= size b)%nat ->
  drop (rpos b) (storage b) = concat (map field_bytes fs) ++ rest ->
  get_fields fs b =
    Some (fs, set_rpos (rpos b + length (concat (map field_bytes fs))) b).
Proof.
  intros Hfs. revert b. induction Hfs as [|f fs Hf _ IH]; intros b Hr Hd; simpl.
  - rewrite Nat.add_0_r. by destruct b.
  - simpl in Hd. rewrite <- app_assoc in Hd.
    rewrite (get_field_prefix f b _ Hf Hr Hd). simpl.
    assert (rpos b + length (field_bytes f) <= size b)%nat.
    { unfold size in *. apply (f_equal length) in Hd.
      rewrite length_drop, length_app in Hd. lia. }
    rewrite IH; simpl; [|done|].
    + by rewrite length_app, Nat.add_assoc.
    + by rewrite <- drop_drop, Hd, drop_app_exact.
Qed.

(**  Reading a packet gives back what was written into it: pushing any
    sequence of numbers and strings onto a packet whose write position is at
    its end, then getting fields of the same shapes from where the pushed
    data starts, yields exactly those fields and leaves the read position at
    the write position. *)
Theorem push_get_roundtrip (fs : list field) (b b' : t) :
  Forall field_ok fs -> wpos b = size b ->
  push_fields fs b = Some b' ->
  get_fields fs (set_rpos (wpos b) b') = Some (fs, rfinish b').
Proof.
  intros Hfs Hw Hp. rewrite push_fields_at_end in Hp by done. injection Hp as <-.
  assert (size b + 0 <= size b)%nat by lia.
  erewrite get_fields_prefix with (rest := []); [done|done| |].
  - unfold size in *. simpl. rewrite length_app. lia.
  - simpl. rewrite Hw. unfold size. by rewrite drop_app_exact, app_nil_r.
Qed.

(** The calls that change a buffer, for the invariant; [other] is a second
    buffer of the call. *)
Inductive op : Type :=
  | OAppend (src : list Z) | OAppendBuf (other : t) | OPut (pos : nat) (src : list Z)
  | OPush (f : field) | OWriteString (s : list Z)
  | ORead (ty : cty) | OReadBool | OReadBytes (n : nat) | OReadString (n : nat) | OGetString
  | OSkip (n : nat) | ORfinish | OSetRpos (p : nat) | OSetWpos (p : nat)
  | OResize (n : nat) | OSetWrite (head n : nat) | OClear | OZero | OShrink (capacity isize : nat)
  | OCopy (other : t) | OMove (other : t) | OSwap (other : t) | OMoveData (other : t).

Definition exec (o : op) (b : t) : option t :=
  match o with
  | OAppend src => append src b
  | OAppendBuf other => append_buf other b
  | OPut pos src => put pos src b
  | OPush f => push_field f b
  | OWriteString s => WriteString s b
  | ORead ty => snd <$> read ty b
  | OReadBool => snd <$> read_bool b
  | OReadBytes n => snd <$> read_bytes n b
  | OReadString n => snd <$> ReadString n b
  | OGetString => Some (snd (getString b))
  | OSkip n => Some (read_skip n b)
  | ORfinish => Some (rfinish b)
  | OSetRpos p => Some (set_rpos p b)
  | OSetWpos p => Some (set_wpos p b)
  | OResize n => Some (resize n b)
  | OSetWrite head n => Some (setWriteSize head n b)
  | OClear => Some (clear b)
  | OZero => Some (zero b)
  | OShrink capacity isize => Some (shrink capacity isize b)
  | OCopy other => Some (copy_assign b other)
  | OMove other => Some (fst (move_assign b other))
  | OSwap other => Some (fst (swapBuffer b other))
  | OMoveData other => Some (fst (moveData zero b other))
  end.

(** Data are bytes; reads, of a string the NUL that ends it included, stay
    within the written part; positions set stay in their order, and a write
    size does not cut off what was read; [shrink] does not shrink, or there is
    nothing written; the second buffer is well formed, and one swapped in
    holds as much as was written. *)
Definition legal (o : op) (b : t) : Prop :=
  match o with
  | OAppend src | OPut _ src | OWriteString src => bytes_ok src
  | OPush f => field_ok f
  | ORead ty => (rpos b + sizeof ty <= wpos b)%nat
  | OReadBool => (rpos b < wpos b)%nat
  | OReadBytes n | OReadString n | OSkip n => (rpos b + n <= wpos b)%nat
  | OGetString => 0 ∈ take (wpos b - rpos b) (drop (rpos b) (storage b))
  | OSetRpos p => (p <= wpos b)%nat
  | OSetWpos p => (rpos b <= p <= size b)%nat
  | OSetWrite head n => (rpos b <= n + head)%nat
  | OShrink capacity isize => (capacity <= isize)%nat \/ wpos b = 0%nat
  | OAppendBuf other | OCopy other | OMove other | OMoveData other => wf other
  | OSwap other => wf other /\ (wpos b <= size other)%nat
  | ORfinish | OResize _ | OClear | OZero => True
  end.

Lemma vresize_length n l : length (vresize n l) = n.
Proof. unfold vresize. rewrite length_app, length_take, length_replicate. lia. Qed.

Lemma vresize_ok n l : bytes_ok l -> bytes_ok (vresize n l).
Proof.
  intros Hl. apply bytes_ok_app. split; [by apply bytes_ok_take|].
  apply Forall_replicate. unfold byte_ok. lia.
Qed.

Lemma field_bytes_ok f : field_ok f -> bytes_ok (field_bytes f).
Proof.
  destruct f as [ty v|s]; simpl; intros Hf; [apply obj_bytes_ok|].
  apply bytes_ok_app. split; [apply Hf|]. repeat constructor; lia.
Qed.

Lemma splice_ok (l src : list Z) n m :
  bytes_ok l -> bytes_ok src -> bytes_ok (take n l ++ src ++ drop m l).
Proof.
  intros. rewrite !bytes_ok_app. auto using bytes_ok_take, bytes_ok_drop.
Qed.

Lemma append_wf src b b' :
  wf b -> bytes_ok src -> append src b = Some b' -> wf b'.
Proof.
  intros (Hr & Hw & Hb) Hs. unfold append. split_if; [|done]. intros [= <-].
  unfold wf, size in *. simpl.
  rewrite !length_app, length_take, length_drop. split_and!; [lia|lia|].
  by apply splice_ok.
Qed.

Lemma append_str_wf s b b' :
  wf b -> bytes_ok s -> append_str s b = Some b' -> wf b'.
Proof.
  intros Hwf Hs. unfold append_str, append_val.
  destruct (negb _); simpl.
  - destruct (append s b) as [b1|] eqn:E1; simpl; [|done].
    intros H2. eapply append_wf; [|apply (obj_bytes_ok Tuint8)|exact H2].
    by eapply append_wf.
  - intros H2. by eapply append_wf; [|apply (obj_bytes_ok Tuint8)|exact H2].
Qed.

(** A string that ends in a prefix is read from it. *)
Lemma read_cstr_within l n : 0 ∈ take n l -> (snd (read_cstr l) <= n)%nat.
Proof.
  revert n. induction l as [|c l IH]; intros n H; [rewrite take_nil in H; by apply elem_of_nil in H|].
  destruct n as [|n]; [by apply elem_of_nil in H|]. cbn [take read_cstr] in *.
  destruct (Z.eqb_spec c 0) as [->|Hc]; [cbn; lia|]. apply elem_of_cons in H as [H|H]; [done|].
  specialize (IH n H). destruct (read_cstr l) as [s k]. cbn in *. lia.
Qed.

Lemma read_wf ty b v b' : wf b -> (rpos b + sizeof ty <= wpos b)%nat -> read ty b = Some (v, b') -> wf b'.
Proof.
  intros (Hr & Hw & Hb) Hl. unfold read, read_at. split_if; simpl; [|done]. intros [= _ <-].
  unfold wf, size in *. simpl. split_and!; [lia|lia|done].
Qed.

Lemma read_bytes_wf n b v b' : wf b -> (rpos b + n <= wpos b)%nat -> read_bytes n b = Some (v, b') -> wf b'.
Proof.
  intros (Hr & Hw & Hb) Hl. unfold read_bytes. split_if; simpl; [|done]. intros [= _ <-].
  unfold wf, size in *. simpl. split_and!; [lia|lia|done].
Qed.

Lemma zero_wf b : wf (zero b).
Proof. unfold wf, size. simpl. split_and!; [lia|lia|constructor]. Qed.

Lemma vresize_wf n k b : bytes_ok (storage b) -> (k <= n)%nat -> wf (mk (vresize n (storage b)) k n).
Proof. intros Hb Hk. unfold wf, size. simpl. rewrite vresize_length. split_and!; [lia|lia|by apply vresize_ok]. Qed.

(** C38.  The invariant the header comment claims,
    [0 <= rpos <= wpos <= data.len()] with byte contents, is preserved by
    every operation of a buffer and a packet within its contract: reads stay
    in the written part, a string read ends there, positions are set in their
    order, what is copied, moved or swapped in is well formed, and [shrink]
    has nothing to drop (it keeps the positions, and breaks the invariant
    else). *)
Theorem exec_preserves_wf (o : op) (b b' : t) :
  wf b -> legal o b -> exec o b = Some b' -> wf b'.
Proof.
  intros Hwf Hl. assert (Hwf' := Hwf). destruct Hwf' as (Hr & Hw & Hb).
  destruct o as [src|other|pos src|f|src|ty| |n|n| |n| |p|p|n|head n| | |capacity isize|other|other|other|other]; simpl in *.
  - by apply append_wf.
  - unfold append_buf. destruct (negb _); [|by intros [= <-]]. apply append_wf; [done|apply Hl].
  - unfold put. split_if; [|done]. intros [= <-]. bool_arith.
    unfold wf, size in *. simpl. rewrite !length_app, length_take, length_drop.
    split_and!; [lia|lia|by apply splice_ok].
  - destruct f as [ty v|s]; simpl.
    + apply append_wf; [done|]. apply obj_bytes_ok.
    + apply append_str_wf; [done|apply Hl].
  - unfold WriteString. destruct (negb _); [by apply append_wf|by intros [= <-]].
  - destruct (read ty b) as [[v b1]|] eqn:E; [|done]. intros [= <-]. by eapply read_wf.
  - unfold read_bool. destruct (read Tint8 b) as [[v b1]|] eqn:E; [|done]. intros [= <-]. eapply read_wf; [done| |exact E]. simpl. lia.
  - destruct (read_bytes n b) as [[v b1]|] eqn:E; [|done]. intros [= <-]. by eapply read_bytes_wf.
  - unfold ReadString. destruct (Nat.eqb n 0); [by intros [= <-]|].
    destruct (read_bytes n b) as [[v b1]|] eqn:E; [|done]. intros [= <-]. by eapply read_bytes_wf.
  - unfold getString, read_str. pose proof (read_cstr_within _ _ Hl) as Hn. destruct (read_cstr _) as [s n]. intros [= <-].
    unfold wf, size in *. simpl in *. split_and!; [lia|lia|done].
  - intros [= <-]. unfold wf, size in *. simpl. auto.
  - intros [= <-]. unfold wf, size in *. simpl. auto.
  - intros [= <-]. unfold wf, size in *. simpl. auto.
  - intros [= <-]. unfold wf, size in *. simpl. split_and!; [lia|lia|done].
  - intros [= <-]. apply vresize_wf; [done|lia].
  - intros [= <-]. by apply vresize_wf.
  - intros [= <-]. apply (zero_wf b).
  - intros [= <-]. apply zero_wf.
  - intros [= <-]. unfold shrink. destruct (Nat.ltb_spec isize capacity); [|done]. destruct Hl as [Hl|Hl]; [lia|].
    unfold wf, size in *. simpl. split_and!; [lia|lia|constructor].
  - by intros [= <-].
  - by intros [= <-].
  - intros [= <-]. destruct Hl as [(_ & _ & Hb') Hl]. unfold wf, size in *. simpl. by split_and!.
  - by intros [= <-].
Qed.

(** Without that restriction it is not: a read is not checked against the
    write position, so reading stale storage breaks [rpos <= wpos]. *)
Lemma read_past_wpos :
  exists b b' v, wf b /\ read Tuint32 b = Some (v, b') /\ ~ wf b'.
Proof.
  exists (mk [1; 0; 0; 0] 0 0). eexists _, _.
  split_and!; [|reflexivity|].
  - unfold wf, size. simpl. split_and!; [lia|lia|]. repeat constructor; lia.
  - intros [H _]. simpl in H. lia.
Qed.

(** [shrink] drops the stored bytes but keeps the positions. *)
Lemma shrink_breaks_wf :
  exists b, wf b /\ ~ wf (shrink 8 4 b).
Proof.
  exists (mk [1; 2] 0 2). split.
  - unfold wf, size. simpl. split_and!; [lia|lia|]. repeat constructor; lia.
  - intros (_ & H & _). unfold size in H. simpl in H. lia.
Qed.

Lemma push_get_roundtrip_witness :
  let fs := [FNum Tint16 (-2); FStr [72; 105]; FNum Tuint32 4000000000] in
  let b := create [9; 9; 9] in
  Forall field_ok fs /\
  exists b', push_fields fs b = Some b' /\
    get_fields fs (set_rpos (wpos b) b') = Some (fs, rfinish b').
Proof.
  split.
  - repeat constructor; simpl; try (vm_compute; intuition discriminate); lia.
  - eexists. split; [reflexivity|].
    apply push_get_roundtrip; [|reflexivity|reflexivity].
    repeat constructor; simpl; try (vm_compute; intuition discriminate); lia.
Defined.

Lemma exec_preserves_wf_witness :
  let b := mk [1; 2; 3; 4; 5] 1 5 in
  wf b /\ wf (mk [1; 2; 3; 4; 5] 5 5).
Proof.
  assert (H : wf (mk [1; 2; 3; 4; 5] 1 5)).
  { unfold wf, size. simpl. split_and!; [lia|lia|]. repeat constructor; lia. }
  split; [exact H|].
  refine (exec_preserves_wf (ORead Tuint32) _ _ H _ _).
  - simpl. lia.
  - reflexivity.
Defined.

End ByteBufProps.
