(* ===== verification/MsgBuf.v ===== *)
(** * MsgBuf: MessageBuffer

    Models src/src/network/MessageBuffer.h, the receive buffer of a TCP
    connection: a vector, and the positions where the socket writes and the
    protocol reads.  [None] is an access outside the vector. *)
From S2P Require Import Prelude ByteBuf.

Module MessageBuffer.

Record t : Type := mk { storage : list Z; wpos : nat; rpos : nat }.

(** [MESSAGE_BUFFER_SIZE] and the constructors. *)
Definition MESSAGE_BUFFER_SIZE : nat := 4096.
Definition create : t := mk (ByteBuffer.vresize MESSAGE_BUFFER_SIZE []) 0 0.
Definition create_size (initialSize : nat) : t :=
  mk (ByteBuffer.vresize initialSize []) 0 0.

Definition Reset (b : t) : t := mk (storage b) 0 0.
Definition Resize (bytes : nat) (b : t) : t :=
  mk (ByteBuffer.vresize bytes (storage b)) (wpos b) (rpos b).

Definition ReadCompleted (bytes : nat) (b : t) : t :=
  mk (storage b) (wpos b) (rpos b + bytes).
Definition WriteCompleted (bytes : nat) (b : t) : t :=
  mk (storage b) (wpos b + bytes) (rpos b).

(** [size_t] subtractions: the code relies on [rpos <= wpos <= size]. *)
Definition GetActiveSize (b : t) : Z := u64 (Z.of_nat (wpos b) - Z.of_nat (rpos b)).
Definition GetRemainingSpace (b : t) : Z :=
  u64 (Z.of_nat (length (storage b)) - Z.of_nat (wpos b)).
Definition GetBufferSize (b : t) : nat := length (storage b).

(** The [n] bytes at [GetReadPointer()]. *)
Definition read_ptr (n : nat) (b : t) : option (list Z) :=
  if (rpos b + n <=? length (storage b))%nat
  then Some (take n (drop (rpos b) (storage b))) else None.

(** [memcpy] of [src] over the vector at [pos]. *)
Definition overwrite (pos : nat) (src l : list Z) : option (list Z) :=
  if (pos + length src <=? length l)%nat
  then Some (take pos l ++ src ++ drop (pos + length src) l) else None.

(** [Normalize]: move the active bytes to the front. *)
Definition Normalize (b : t) : option t :=
  if negb (Nat.eqb (rpos b) 0) then
    st ← (if negb (Nat.eqb (rpos b) (wpos b))
          then d ← read_ptr (wpos b - rpos b) b; overwrite 0 d (storage b)
          else Some (storage b));
    Some (mk st (wpos b - rpos b) 0)
  else Some b.

(** [EnsureFreeSpace]: grow by half when full. *)
Definition EnsureFreeSpace (b : t) : t :=
  if GetRemainingSpace b =? 0
  then Resize (length (storage b) * 3 / 2) b else b.

Definition Write (data : list Z) (b : t) : option t :=
  if negb (Nat.eqb (length data) 0) then
    st ← overwrite (wpos b) data (storage b);
    Some (WriteCompleted (length data) (mk st (wpos b) (rpos b)))
  else Some b.

(** [Move]: the vector leaves, the positions are reset. *)
Definition Move (b : t) : list Z * t := (storage b, mk [] 0 0).

Definition move_create (right : t) : t * t :=
  let '(st, right') := Move right in (mk st (wpos right) (rpos right), right').

Definition wf (b : t) : Prop :=
  (rpos b <= wpos b)%nat /\ (wpos b <= length (storage b))%nat /\
  Z.of_nat (length (storage b)) < 2 ^ 64.

(** The bytes received and not yet consumed. *)
Definition active (b : t) : list Z :=
  take (wpos b - rpos b) (drop (rpos b) (storage b)).

End MessageBuffer.

Module MsgBufProps.
Import MessageBuffer.

Lemma active_length b : wf b -> length (active b) = (wpos b - rpos b)%nat.
Proof. intros (H1 & H2 & _). unfold active. rewrite length_take, length_drop. lia. Qed.

Lemma GetActiveSize_spec b : wf b -> GetActiveSize b = Z.of_nat (length (active b)).
Proof.
  intros Hwf. rewrite active_length by done. destruct Hwf as (H1 & H2 & H3).
  unfold GetActiveSize. rewrite wrap_small by (unfold in_u; lia). lia.
Qed.

Lemma read_ptr_active n b :
  wf b -> (n <= length (active b))%nat -> read_ptr n b = Some (take n (active b)).
Proof.
  intros Hwf Hn. pose proof (active_length b Hwf). destruct Hwf as (H1 & H2 & _).
  unfold read_ptr. assert (rpos b + n <= length (storage b))%nat as Hle%Nat.leb_le by lia.
  rewrite Hle. unfold active. rewrite take_take. repeat f_equal. lia.
Qed.

Lemma ReadCompleted_active n b :
  wf b -> (n <= length (active b))%nat ->
  wf (ReadCompleted n b) /\ active (ReadCompleted n b) = drop n (active b).
Proof.
  intros Hwf Hn. pose proof (active_length b Hwf). destruct Hwf as (H1 & H2 & H3).
  unfold wf, ReadCompleted, active; simpl. split; [lia|].
  rewrite skipn_firstn_comm, drop_drop. f_equal. lia.
Qed.

(** [Normalize] loses nothing: on a well-formed buffer it succeeds,
    keeps exactly the unread bytes in order, moves them to the front and so
    makes the space of the read bytes available again. *)
Theorem Normalize_spec (b : t) :
  wf b ->
  exists b', Normalize b = Some b' /\ wf b' /\ active b' = active b /\
    rpos b' = 0%nat /\
    GetRemainingSpace b' = GetRemainingSpace b + Z.of_nat (rpos b).
Proof.
  intros Hwf. assert (H := Hwf). destruct H as (H1 & H2 & H3).
  assert (Hrem : forall b0, wf b0 -> GetRemainingSpace b0 =
            Z.of_nat (length (storage b0)) - Z.of_nat (wpos b0)).
  { intros b0 (A & B & C). unfold GetRemainingSpace.
    apply wrap_small. unfold in_u. lia. }
  unfold Normalize. destruct (Nat.eqb_spec (rpos b) 0) as [E|E]; simpl.
  { exists b. rewrite E, Z.add_0_r. auto. }
  destruct (Nat.eqb_spec (rpos b) (wpos b)) as [E2|E2]; simpl.
  - eexists. split; [reflexivity|].
    assert (wf (mk (storage b) (wpos b - rpos b) 0)) as Hwf'.
    { unfold wf; simpl. lia. }
    split_and!; [done| |done|].
    + unfold active; simpl. by rewrite E2, !Nat.sub_diag.
    + rewrite !Hrem by done. simpl. lia.
  - rewrite read_ptr_active by (rewrite ?active_length; done || lia). simpl.
    rewrite take_ge by (rewrite active_length by done; lia).
    unfold overwrite. simpl.
    assert (length (active b) <= length (storage b))%nat as Hle
      by (rewrite active_length by done; lia).
    rewrite (proj2 (Nat.leb_le _ _) Hle). simpl.
    eexists. split; [reflexivity|].
    assert (length (active b ++ drop (length (active b)) (storage b))
            = length (storage b)) as Hlen.
    { rewrite length_app, length_drop. lia. }
    assert (wf (mk (active b ++ drop (length (active b)) (storage b))
                  (wpos b - rpos b) 0)) as Hwf'.
    { unfold wf; simpl. rewrite Hlen. lia. }
    split_and!; [done| |done|].
    + unfold active at 1; simpl. rewrite drop_0, Nat.sub_0_r.
      rewrite <- (active_length b Hwf). apply take_app_exact.
    + rewrite !Hrem by done. simpl. rewrite Hlen. lia.
Qed.

(** [EnsureFreeSpace] makes room exactly for buffers of two bytes or
    more: then the remaining space is positive and the unread bytes are kept.
    A full buffer of size 0 or 1 stays full ([n * 3 / 2 = n]), contrary to
    the comment on the method. *)
Theorem EnsureFreeSpace_spec (b : t) :
  wf b -> 3 * Z.of_nat (length (storage b)) < 2 ^ 64 ->
  active (EnsureFreeSpace b) = active b /\
  (0 < GetRemainingSpace (EnsureFreeSpace b) <->
   (wpos b < length (storage b))%nat \/ (2 <= length (storage b))%nat).
Proof.
  intros Hwf Hbig. destruct Hwf as (H1 & H2 & H3). unfold EnsureFreeSpace.
  assert (GetRemainingSpace b = Z.of_nat (length (storage b)) - Z.of_nat (wpos b)) as Hr.
  { apply wrap_small. unfold in_u. lia. }
  rewrite Hr. destruct (Z.eqb_spec (Z.of_nat (length (storage b)) - Z.of_nat (wpos b)) 0)
    as [E|E].
  - assert (wpos b = length (storage b)) as Hw by lia. clear E Hr.
    remember (length (storage b)) as n eqn:Hlen.
    assert (Hn : (n <= n * 3 / 2)%nat) by (apply Nat.div_le_lower_bound; lia).
    split.
    + unfold active, Resize, ByteBuffer.vresize; simpl. rewrite Hw.
      rewrite (take_ge (storage b)) by lia.
      rewrite drop_app_le by lia.
      rewrite take_app_le; [done|]. rewrite length_drop. lia.
    + unfold GetRemainingSpace, Resize; simpl.
      rewrite ByteBufProps.vresize_length, Hw.
      assert (Z.of_nat (n * 3 / 2) <= 3 * Z.of_nat n).
      { pose proof (Nat.Div0.div_le_upper_bound (n * 3) 2 (3 * n)). lia. }
      rewrite wrap_small by (unfold in_u; lia).
      destruct (le_lt_dec 2 n) as [L|L].
      * pose proof (Nat.div_le_lower_bound (n * 3) 2 (n + 1)). lia.
      * destruct n as [|[|n]]; [| |lia].
        { change (0 * 3 / 2)%nat with 0%nat. lia. }
        { change (1 * 3 / 2)%nat with 1%nat. lia. }
  - split; [done|]. rewrite Hr. lia.
Qed.

Lemma Normalize_spec_witness :
  let b := mk [1; 2; 3; 4; 5] 4 2 in
  wf b /\ exists b', Normalize b = Some b' /\ wf b' /\ active b' = active b /\
    rpos b' = 0%nat /\
    GetRemainingSpace b' = GetRemainingSpace b + Z.of_nat (rpos b).
Proof.
  assert (H : wf (mk [1; 2; 3; 4; 5] 4 2)) by (unfold wf; simpl; lia).
  split; [exact H|]. exact (Normalize_spec _ H).
Defined.

Lemma EnsureFreeSpace_spec_witness :
  let b := mk [1; 2; 3; 4] 4 2 in
  wf b /\ 0 < GetRemainingSpace (EnsureFreeSpace b).
Proof.
  assert (H : wf (mk [1; 2; 3; 4] 4 2)) by (unfold wf; simpl; lia).
  split; [exact H|].
  apply (EnsureFreeSpace_spec (mk [1; 2; 3; 4] 4 2) H); simpl; lia.
Defined.

End MsgBufProps.
