(* ===== verification/TcpSock.v ===== *)
(** * TcpSock: TcpSocketBase and TcpSocket

    Models src/src/network/TcpSocket.h and TcpSocket.cpp: the receive path
    ([echo_read] into the [MessageBuffer], then the protocol's virtual
    [on_msgbuffer]) and the send queue ([write], [send_top_msg],
    [on_writecomplete]).  libuv is not under src/: a read is the bytes it
    delivers, a [uv_write] is an entry of the trace, and its completion is a
    step of its own. *)
From S2P Require Import Prelude ByteBuf MsgBuf.

(** The outcome of code with a loop: [Done], out of fuel, or an access
    outside an object. *)
Inductive result (A : Type) : Type :=
  | Done (a : A)
  | OutOfFuel
  | Fault.
Arguments Done {A} a.
Arguments OutOfFuel {A}.
Arguments Fault {A}.

(** ** The receive path *)

(** What a connection class gives [TcpSocketBase]: its state and its
    [on_msgbuffer], with the fuel of the loop in it.  [E] is what it calls
    on its user (messages, closings). *)
Class MsgHandler (S E : Type) : Type := {
  on_msgbuffer : nat -> MessageBuffer.t -> S -> result (MessageBuffer.t * S * list E)
}.

(** What the class promises about it: [pending bs s] says the state [s] holds
    the undecoded bytes [bs]; [decode] splits a byte stream into events and
    the undecoded rest, [None] when the stream makes the loop spin. *)
Class StreamDecoder (S E : Type) `{MsgHandler S E} : Type := {
  pending : list Z -> S -> Prop;
  decode : list Z -> option (list E * list Z);
  decode_app : forall a b evs rest,
    decode a = Some (evs, rest) ->
    decode (a ++ b) = (fun '(evs', r) => (evs ++ evs', r)) <$> decode (rest ++ b);
  decode_prefix : forall a b r, decode (a ++ b) = Some r -> is_Some (decode a);
  decode_rest : forall a evs rest, decode a = Some (evs, rest) -> decode rest = Some ([], rest);
  on_msgbuffer_decodes : forall fuel bs s buf evs rest,
    pending bs s -> MessageBuffer.wf buf ->
    Z.of_nat (length (MessageBuffer.storage buf)) < 2 ^ 31 ->
    bytes_ok (MessageBuffer.active buf) ->
    decode (bs ++ MessageBuffer.active buf) = Some (evs, rest) ->
    (2 * length (MessageBuffer.active buf) + 2 <= fuel)%nat ->
    exists buf' s', on_msgbuffer fuel buf s = Done (buf', s', evs) /\
      pending rest s' /\ MessageBuffer.storage buf' = MessageBuffer.storage buf
}.

Module TcpSocketBase.

(** What [uv_read] hands to [echo_read]: an error or end of file
    ([nread < 0]), nothing ([nread == 0]), or bytes. *)
Inductive uv_read : Type :=
  | ReadError
  | ReadBytes (data : list Z).

(** [TcpSocketBase::TcpSocketBase(buffersize)]: [mBuffer.Resize]. *)
Definition create_buffer (buffersize : nat) : MessageBuffer.t :=
  MessageBuffer.Resize buffersize MessageBuffer.create.

(** [clear]: called before the connection starts to read. *)
Definition clear (b : MessageBuffer.t) : MessageBuffer.t := MessageBuffer.Reset b.

(** [alloc_buffer]: libuv writes at the start of the whole buffer. *)
Definition alloc_buffer (b : MessageBuffer.t) : list Z * nat :=
  (MessageBuffer.storage b, MessageBuffer.GetBufferSize b).

Definition deliver (data : list Z) (b : MessageBuffer.t) : MessageBuffer.t :=
  MessageBuffer.mk (data ++ drop (length data) (MessageBuffer.storage b))
    (MessageBuffer.wpos b) (MessageBuffer.rpos b).

Section Receive.
Context {S E : Type} `{MsgHandler S E}.

(** [echo_read]: [true] in the result says the handle is closed. *)
Definition echo_read (fuel : nat) (ev : uv_read) (b : MessageBuffer.t) (s : S) :
    result (MessageBuffer.t * S * list E * bool) :=
  match ev with
  | ReadError => Done (b, s, [], true)
  | ReadBytes data =>
      let b := deliver data b in
      if Nat.eqb (length data) 0 then Done (b, s, [], false) else
      match on_msgbuffer fuel (MessageBuffer.WriteCompleted (length data) b) s with
      | Done (b, s, evs) => Done (MessageBuffer.Reset b, s, evs, false)
      | OutOfFuel => OutOfFuel
      | Fault => Fault
      end
  end.

(** Successive reads of one connection. *)
Fixpoint receive (fuel : nat) (chunks : list (list Z)) (b : MessageBuffer.t) (s : S) :
    result (MessageBuffer.t * S * list E) :=
  match chunks with
  | [] => Done (b, s, [])
  | c :: cs =>
      match echo_read fuel (ReadBytes c) b s with
      | Done (b, s, evs, _) =>
          match receive fuel cs b s with
          | Done (b, s, evs') => Done (b, s, evs ++ evs')
          | r => r
          end
      | OutOfFuel => OutOfFuel
      | Fault => Fault
      end
  end.

End Receive.
#[global] Arguments echo_read : simpl never.
End TcpSocketBase.

Module TcpRecvProps.
Import TcpSocketBase.

(** A read that fits the receive buffer. *)
Definition chunk_ok (size : nat) (c : list Z) : Prop :=
  c <> [] /\ (length c <= size)%nat /\ bytes_ok c.

Section Client.
Context {S E : Type} `{StreamDecoder S E}.

Lemma decode_app_inv a b evs rest :
  decode (a ++ b) = Some (evs, rest) ->
  forall evs1 rest1, decode a = Some (evs1, rest1) ->
  exists evs2, decode (rest1 ++ b) = Some (evs2, rest) /\ evs = evs1 ++ evs2.
Proof.
  intros Hab evs1 rest1 Ha. rewrite (decode_app _ _ _ _ Ha) in Hab.
  destruct (decode (rest1 ++ b)) as [[evs2 r]|]; simpl in Hab; [|done].
  injection Hab as <- <-. eauto.
Qed.

(** An idle receive buffer: everything delivered was handed on. *)
Definition idle (size : nat) (b : MessageBuffer.t) : Prop :=
  MessageBuffer.wpos b = 0%nat /\ MessageBuffer.rpos b = 0%nat /\
  length (MessageBuffer.storage b) = size.

Lemma create_idle size : idle size (create_buffer size).
Proof.
  unfold idle, create_buffer; simpl. split_and!; [done|done|].
  unfold ByteBuffer.vresize. rewrite length_app, length_take, length_replicate. lia.
Qed.

Lemma deliver_active size data b :
  idle size b -> (length data <= size)%nat -> Z.of_nat size < 2 ^ 31 ->
  let b' := MessageBuffer.WriteCompleted (length data) (deliver data b) in
  MessageBuffer.wf b' /\ MessageBuffer.active b' = data /\
  length (MessageBuffer.storage b') = size.
Proof.
  intros (Hw & Hr & Hs) Hd Hlt b'. subst b'.
  unfold MessageBuffer.wf, MessageBuffer.active, MessageBuffer.WriteCompleted, deliver; simpl.
  rewrite Hw, Hr, length_app, length_drop, Hs. simpl. rewrite Nat.sub_0_r, drop_0, take_app_exact.
  split_and!; [lia|lia|lia|done|lia].
Qed.

(** One read event: what the class decodes from the pending bytes and the new
    ones is what its user is called with. *)
Lemma echo_read_decodes fuel size data b s bs evs rest :
  idle size b -> (length data <= size)%nat -> Z.of_nat size < 2 ^ 31 ->
  data <> [] -> bytes_ok data -> (2 * size + 2 <= fuel)%nat ->
  pending bs s -> decode (bs ++ data) = Some (evs, rest) ->
  exists b' s', echo_read fuel (ReadBytes data) b s = Done (b', s', evs, false) /\
    idle size b' /\ pending rest s'.
Proof.
  intros Hi Hd Hlt Hne Hok Hf Hp Hdec.
  destruct (deliver_active size data b Hi Hd Hlt) as (Hwf & Hact & Hlen).
  unfold echo_read. destruct (Nat.eqb_spec (length data) 0) as [E0|E0].
  { by apply length_zero_iff_nil in E0. }
  edestruct (on_msgbuffer_decodes fuel bs s) as (b' & s' & Hrun & Hp' & Hst);
    [exact Hp|exact Hwf|lia|by rewrite Hact|rewrite Hact; exact Hdec|rewrite Hact; lia|].
  rewrite Hrun. eexists _, s'. split; [reflexivity|]. split; [|done].
  unfold idle, MessageBuffer.Reset; simpl. rewrite Hst. auto.
Qed.

(** The connection decodes the stream, however TCP cuts it: for any chunks
    that fit the receive buffer, the user is called with the events of the
    concatenation, in order. *)
Lemma receive_decodes fuel size chunks b s bs evs rest :
  idle size b -> Z.of_nat size < 2 ^ 31 -> (2 * size + 2 <= fuel)%nat ->
  Forall (chunk_ok size) chunks ->
  decode bs = Some ([], bs) ->
  pending bs s -> decode (bs ++ concat chunks) = Some (evs, rest) ->
  exists b' s', receive fuel chunks b s = Done (b', s', evs) /\
    idle size b' /\ pending rest s'.
Proof.
  intros Hi Hlt Hf Hcs Hbs Hp Hdec. revert b s bs evs Hi Hbs Hp Hdec.
  induction Hcs as [|c cs (Hne & Hc & Hok) _ IH]; intros b s bs evs Hi Hbs Hp Hdec; simpl.
  - rewrite app_nil_r in Hdec. rewrite Hdec in Hbs. injection Hbs as -> ->. eauto.
  - simpl in Hdec. rewrite app_assoc in Hdec.
    destruct (decode_prefix _ _ _ Hdec) as [[evs1 rest1] H1].
    destruct (decode_app_inv _ _ _ _ Hdec _ _ H1) as (evs2 & H2 & ->).
    destruct (echo_read_decodes fuel size c b s bs evs1 rest1)
      as (b1 & s1 & Hrun1 & Hi1 & Hp1); [done..|].
    destruct (IH b1 s1 rest1 evs2) as (b2 & s2 & Hrun2 & Hi2 & Hp2);
      [done|by eapply decode_rest|done|done|].
    exists b2, s2. rewrite Hrun1, Hrun2. auto.
Qed.

End Client.
End TcpRecvProps.

(** ** The send queue *)
Module TcpSocket.

Definition MAX_SEND_PACKET : nat := 10.
Definition MAX_SEND_BYTE : Z := 1024.

(** What a queued packet shows of itself: its virtual [sendStream()] and
    [sendSize()] ([int32]). *)
Record packet : Type := mkp { sendStream : list Z; sendSize : Z }.

(** The bytes libuv is asked to send for it ([uv_buf_t] base and length). *)
Definition wire (p : packet) : list Z := take (Z.to_nat (sendSize p)) (sendStream p).

(** [mSendPackets], [mSending]; [in_flight] counts the [uv_write] requests
    not yet completed and [sent] is what was given to libuv, in order. *)
Record t : Type := mk {
  mSendPackets : list packet;
  mSending : list packet;
  in_flight : nat;
  sent : list (list Z)
}.

Definition create : t := mk [] [] 0 [].

Definition isSending (q : t) : bool := negb (Nat.eqb (length (mSending q)) 0).

(** The [for] loop of [send_top_msg]; [None] is the signed overflow of
    [sumsize]. *)
Fixpoint gather (ps : list packet) (sending : list packet) (sumsize : Z) :
    option (list packet * Z) :=
  match ps with
  | [] => Some (sending, sumsize)
  | p :: ps =>
      if MAX_SEND_BYTE <=? sumsize then Some (sending, sumsize)
      else if (MAX_SEND_PACKET <=? length sending)%nat then Some (sending, sumsize)
      else if sumsize + sendSize p <? 2 ^ 31
           then gather ps (sending ++ [p]) (sumsize + sendSize p)
           else None
  end.

Definition send_top_msg (q : t) : option t :=
  '(sending, sumsize) ← gather (mSendPackets q) (mSending q) 0;
  if 0 <? sumsize
  then Some (mk (mSendPackets q) sending (S (in_flight q))
                (sent q ++ [concat (map wire sending)]))
  else Some (mk (mSendPackets q) sending (in_flight q) (sent q)).

(** [write(packet)]. *)
Definition write (p : packet) (q : t) : option t :=
  let q := mk (mSendPackets q ++ [p]) (mSending q) (in_flight q) (sent q) in
  if isSending q then Some q else send_top_msg q.

(** [on_writecomplete], called from [echo_write] when a write is done. *)
Definition on_writecomplete (q : t) : option t :=
  send_top_msg (mk (drop (length (mSending q)) (mSendPackets q)) []
                   (in_flight q) (sent q)).

(** [release]: the queue is recycled. *)
Definition release (q : t) : t := mk [] [] (in_flight q) (sent q).

(** The steps of a connection: a packet is queued, or a write completes
    (libuv calls back once per request). *)
Inductive label : Type := Write (p : packet) | Complete.

Definition step (l : label) (q : t) : option t :=
  match l with
  | Write p => write p q
  | Complete =>
      match in_flight q with
      | O => None
      | S n => on_writecomplete (mk (mSendPackets q) (mSending q) n (sent q))
      end
  end.

Fixpoint run (ls : list label) (q : t) : option t :=
  match ls with
  | [] => Some q
  | l :: ls => q ← step l q; run ls q
  end.

(** The packets queued by a run. *)
Definition written (ls : list label) : list packet :=
  omap (fun l => match l with Write p => Some p | Complete => None end) ls.

End TcpSocket.

Module TcpSendProps.
Import TcpSocket.

Lemma MAX_SEND_BYTE_val : MAX_SEND_BYTE = 1024.
Proof. reflexivity. Qed.
Lemma MAX_SEND_PACKET_val : MAX_SEND_PACKET = 10%nat.
Proof. reflexivity. Qed.
#[local] Opaque MAX_SEND_PACKET MAX_SEND_BYTE.
Ltac send_lia :=
  pose proof MAX_SEND_BYTE_val; pose proof MAX_SEND_PACKET_val;
  first [lia | done | intros; first [congruence | lia]].

(** A packet that has bytes to send and does not overflow the byte count. *)
Definition sendable (p : packet) : Prop := 0 < sendSize p <= 2 ^ 30.

Lemma gather_prefix ps s n :
  Forall sendable ps -> 0 <= n < 2 ^ 30 + MAX_SEND_BYTE ->
  exists k m, gather ps s n = Some (s ++ take k ps, m) /\ n <= m /\
    ((0 < k)%nat -> n < m) /\ (k <= length ps)%nat /\
    ((length s <= MAX_SEND_PACKET)%nat -> (length (s ++ take k ps) <= MAX_SEND_PACKET)%nat) /\
    (n < MAX_SEND_BYTE -> (length s < MAX_SEND_PACKET)%nat -> ps <> [] -> (0 < k)%nat).
Proof.
  revert s n. induction ps as [|p ps IH]; intros s n Hps Hn; simpl.
  - exists 0%nat, n. rewrite app_nil_r. split_and!; send_lia.
  - inversion_clear Hps as [|? ? Hp Hps']. unfold sendable in Hp.
    destruct (Z.leb_spec MAX_SEND_BYTE n) as [L|L].
    { exists 0%nat, n. simpl. rewrite app_nil_r. split_and!; send_lia. }
    destruct (Nat.leb_spec MAX_SEND_PACKET (length s)) as [L2|L2].
    { exists 0%nat, n. simpl. rewrite app_nil_r. split_and!; send_lia. }
    assert (n + sendSize p < 2 ^ 31) as Hlt%Z.ltb_lt
      by (send_lia).
    rewrite Hlt.
    destruct (IH (s ++ [p]) (n + sendSize p)) as (k & m & Hg & A & B & C & D & F);
      [done|send_lia|].
    exists (S k), m. rewrite Hg. simpl. rewrite <- app_assoc in *. simpl in *.
    rewrite !length_app in *. simpl in *. split_and!; send_lia.
Qed.

(** The invariant of the queue.  [fin] are the packets whose write completed. *)
Record inv (fin : list packet) (all : list packet) (q : t) : Prop := {
  inv_all : all = fin ++ mSendPackets q;
  inv_top : mSending q = take (length (mSending q)) (mSendPackets q);
  inv_sent : concat (sent q) = concat (map wire (fin ++ mSending q));
  inv_flight : in_flight q = if isSending q then 1%nat else 0%nat;
  inv_busy : mSendPackets q <> [] -> mSending q <> [];
  inv_max : (length (mSending q) <= MAX_SEND_PACKET)%nat
}.

Lemma concat_snoc {A} (ls : list (list A)) l : concat (ls ++ [l]) = concat ls ++ l.
Proof. rewrite concat_app. simpl. by rewrite app_nil_r. Qed.

Lemma send_top_msg_inv fin ps tr :
  Forall sendable ps ->
  concat tr = concat (map wire fin) ->
  exists q, send_top_msg (mk ps [] 0 tr) = Some q /\ inv fin (fin ++ ps) q /\
    mSendPackets q = ps.
Proof.
  intros Hps Htr. destruct (decide (ps = [])) as [->|Hne].
  { eexists. split; [reflexivity|]. split; [|done]. split; simpl; try done; [by rewrite app_nil_r|send_lia]. }
  unfold send_top_msg. simpl.
  destruct (gather_prefix ps [] 0 Hps) as (k & m & Hg & A & B & C & D & F); [send_lia|].
  assert (0 < k)%nat as Hk by (apply F; simpl; send_lia).
  assert (0 < m) as Hm%Z.ltb_lt by (specialize (B Hk); lia).
  rewrite Hg. simpl. rewrite Hm. eexists. split; [reflexivity|]. split; [|done].
  simpl in *. assert (Hlen : length (take k ps) = k) by (rewrite length_take; lia).
  split; simpl; try done.
  - by rewrite Hlen.
  - by rewrite concat_snoc, Htr, map_app, concat_app.
  - unfold isSending; simpl. rewrite Hlen. by destruct k; [lia|].
  - intros _ Hnil. rewrite Hnil in Hlen. simpl in Hlen. lia.
  - apply D. send_lia.
Qed.

Lemma step_inv fin all q l :
  Forall sendable all -> (match l with Write p => sendable p | Complete => True end) ->
  inv fin all q ->
  (l = Complete -> in_flight q <> 0%nat) ->
  exists fin' q', step l q = Some q' /\
    inv fin' (all ++ match l with Write p => [p] | Complete => [] end) q' /\
    (l = Complete -> fin' = fin ++ mSending q).
Proof.
  intros Hall Hl [Iall Itop Isent Ifl Ibusy Imax] Hen.
  assert (Hq : Forall sendable (mSendPackets q)).
  { rewrite Iall in Hall. by apply Forall_app in Hall as [_ ?]. }
  destruct l as [p|]; simpl.
  - unfold write. unfold isSending at 1. simpl. fold (isSending q).
    destruct (isSending q) eqn:Es.
    + exists fin. eexists. split; [reflexivity|]. split; [|done].
      split; simpl; try done.
      * by rewrite Iall, app_assoc.
      * rewrite take_app_le; [done|]. rewrite Itop, length_take. lia.
      * unfold isSending in Es |- *; simpl. by rewrite Es.
      * intros _ Hnil. unfold isSending in Es. by rewrite Hnil in Es.
    + unfold isSending in Es. bool_arith. apply length_zero_iff_nil in Es.
      assert (mSendPackets q = []) as Hnil.
      { destruct (mSendPackets q); [done|]. by destruct Ibusy. }
      rewrite Es, Hnil in *. simpl in *. rewrite Ifl. destruct (send_top_msg_inv fin [p] (sent q)) as (q' & Hq' & Hinv & _).
      * by constructor.
      * rewrite app_nil_r in Isent. done.
      * exists fin, q'. split; [done|]. split; [|done].
        rewrite app_nil_r in Iall. by subst all.
  - specialize (Hen eq_refl). destruct (in_flight q) as [|n] eqn:En; [done|].
    assert (n = 0%nat) as -> by (destruct (isSending q); lia).
    unfold on_writecomplete. simpl.
    destruct (send_top_msg_inv (fin ++ mSending q)
                (drop (length (mSending q)) (mSendPackets q)) (sent q))
      as (q' & Hq' & Hinv & _).
    + by apply Forall_drop.
    + done.
    + exists (fin ++ mSending q), q'. split; [done|]. split; [|done].
      assert (mSending q ++ drop (length (mSending q)) (mSendPackets q)
              = mSendPackets q) as Heq by (rewrite Itop at 1; apply take_drop).
      by rewrite app_nil_r, Iall, <- Heq, app_assoc.
Qed.

Lemma run_inv ls : forall fin all q q',
  Forall sendable (all ++ written ls) -> inv fin all q ->
  run ls q = Some q' ->
  exists fin', inv fin' (all ++ written ls) q'.
Proof.
  induction ls as [|l ls IH]; intros fin all q q' Hall Hinv Hrun; simpl in Hrun.
  - injection Hrun as <-. exists fin. change (written []) with (@nil packet).
    by rewrite app_nil_r.
  - assert (Hw : written (l :: ls) =
      match l with Write p => [p] | Complete => [] end ++ written ls) by (by destruct l).
    rewrite Hw, app_assoc in Hall |- *.
    assert (Hen : l = Complete -> in_flight q <> 0%nat).
    { intros -> E0. simpl in Hrun. by rewrite E0 in Hrun. }
    destruct (step_inv fin all q l) as (fin1 & q1 & Hs & Hinv1 & _).
    + apply Forall_app in Hall as [Hall _]. by apply Forall_app in Hall as [? _].
    + apply Forall_app in Hall as [Hall _]. apply Forall_app in Hall as [_ Hall].
      destruct l; [by inversion Hall|done].
    + done.
    + done.
    + rewrite Hs in Hrun. simpl in Hrun. by eapply IH.
Qed.

Lemma inv_create : inv [] [] create.
Proof. split; simpl; try done. send_lia. Qed.

(** C17.  The send queue is first-in first-out and loses or repeats nothing:
    after any run of writes and completions, with packets that all have bytes,
    what libuv was given is the wire bytes of a prefix of the queued packets, in
    order; the rest is still queued; at most one [uv_write] and at most
    [MAX_SEND_PACKET] packets are in flight; and while anything is queued a
    write is in flight. (A packet without bytes stalls the queue:
    [empty_packet_blocks].) *)
Theorem send_queue_fifo (ls : list label) (q : t) :
  Forall sendable (written ls) -> run ls create = Some q ->
  exists fin,
    written ls = fin ++ mSendPackets q /\
    concat (sent q) = concat (map wire (fin ++ mSending q)) /\
    mSending q = take (length (mSending q)) (mSendPackets q) /\
    (length (mSending q) <= MAX_SEND_PACKET)%nat /\
    in_flight q = (if isSending q then 1%nat else 0%nat) /\
    (mSendPackets q <> [] -> in_flight q = 1%nat).
Proof.
  intros Hs Hrun. destruct (run_inv ls [] [] create q) as (fin & [A B C D F G]);
    [done|apply inv_create|done|].
  exists fin. split_and!; try done. intros Hne. rewrite D. unfold isSending.
  destruct (mSending q); [|done]. by destruct F.
Qed.

(** Completions alone, until nothing is queued. *)
Fixpoint drain (fuel : nat) (q : t) : option t :=
  match fuel with
  | O => Some q
  | S f => if Nat.eqb (in_flight q) 0 then Some q else q ← step Complete q; drain f q
  end.

Lemma drain_inv fuel : forall fin all q,
  Forall sendable all -> inv fin all q -> (length (mSendPackets q) <= fuel)%nat ->
  exists q', drain fuel q = Some q' /\ inv all all q' /\ mSendPackets q' = [].
Proof.
  induction fuel as [|f IH]; intros fin all q Hall Hinv Hf; simpl.
  - assert (mSendPackets q = []) as Hnil by (apply length_zero_iff_nil; lia).
    exists q. split; [done|]. split; [|done].
    pose proof (inv_all _ _ _ Hinv) as Ha. rewrite Hnil, app_nil_r in Ha. by subst.
  - destruct (Nat.eqb_spec (in_flight q) 0) as [E|E].
    + assert (mSendPackets q = []) as Hnil.
      { destruct (mSendPackets q) eqn:Ep; [done|]. destruct Hinv as [_ _ _ D F _].
        rewrite Ep in F. unfold isSending in D. rewrite E in D.
        destruct (mSending q); [by destruct F|done]. }
      exists q. split; [done|]. split; [|done].
      pose proof (inv_all _ _ _ Hinv) as Ha. rewrite Hnil, app_nil_r in Ha. by subst.
    + destruct (step_inv fin all q Complete) as (fin1 & q1 & Hs & Hinv1 & Hfin); [done..|].
      rewrite app_nil_r in Hinv1. specialize (Hfin eq_refl).
      change (step Complete q) with (step Complete q) in Hs.
      destruct (IH fin1 all q1) as (q2 & Hd & Hinv2 & Hnil); [done..| |].
      * pose proof (inv_all _ _ _ Hinv1) as Ha1. pose proof (inv_all _ _ _ Hinv) as Ha.
        rewrite Ha, Hfin, <- app_assoc in Ha1. apply app_inv_head in Ha1.
        apply (f_equal length) in Ha1. rewrite length_app in Ha1.
        assert (length (mSending q) <> 0%nat).
        { destruct Hinv as [_ _ _ D _ _]. unfold isSending in D.
          destruct (mSending q); [by rewrite D in E|simpl; lia]. }
        lia.
      * exists q2. simpl in Hs. rewrite Hs. simpl. auto.
Qed.

(**  Liveness of the send queue: when every [uv_write] is completed,
    after at most as many completions as there are queued packets the queue
    is empty, and libuv was given the wire bytes of all packets ever
    written. *)
Theorem send_queue_drains (ls : list label) (q : t) :
  Forall sendable (written ls) -> run ls create = Some q ->
  exists q', drain (length (mSendPackets q)) q = Some q' /\
    mSendPackets q' = [] /\ concat (sent q') = concat (map wire (written ls)).
Proof.
  intros Hs Hrun. destruct (run_inv ls [] [] create q) as (fin & Hinv);
    [done|apply inv_create|done|].
  destruct (drain_inv (length (mSendPackets q)) fin (written ls) q Hs Hinv) as (q' & Hd & Hinv' & Hnil); [done|].
  exists q'. split_and!; [done|done|]. destruct Hinv' as [_ B C _ _ _].
  rewrite Hnil in B. rewrite take_nil in B. by rewrite B, app_nil_r in C.
Qed.


Lemma run_writes_busy ps : forall q,
  mSending q <> [] ->
  run (map Write ps) q =
    Some (mk (mSendPackets q ++ ps) (mSending q) (in_flight q) (sent q)).
Proof.
  induction ps as [|p ps IH]; intros q Hne; simpl.
  - rewrite app_nil_r. by destruct q.
  - unfold write, isSending; simpl. destruct (mSending q) as [|x l] eqn:Es; [done|].
    simpl. rewrite IH by done. simpl. by rewrite <- app_assoc.
Qed.

(**  A packet without bytes blocks the connection for ever: [mSending]
    becomes non-empty although no [uv_write] is issued, so no completion ever
    comes ([Complete] is not enabled) and whatever is written later stays
    queued and unsent. *)
Theorem empty_packet_blocks (p : packet) (ps : list packet) :
  sendSize p = 0 ->
  exists q, run (map Write (p :: ps)) create = Some q /\
    mSendPackets q = p :: ps /\ sent q = [] /\ step Complete q = None.
Proof.
  intros Hp. assert (step (Write p) create = Some (mk [p] [p] 0 [])) as Hst.
  { cbn [step]. unfold write, isSending, send_top_msg; simpl. by rewrite Hp. }
  exists (mk (p :: ps) [p] 0 []). split_and!; [|done..].
  cbn [map run]. rewrite Hst. cbn [mbind option_bind].
  by rewrite run_writes_busy.
Qed.

Lemma send_queue_fifo_witness :
  let p1 := mkp [1; 2; 3] 3 in let p2 := mkp [4; 5] 1 in
  let ls := [Write p1; Write p2; Complete] in
  Forall sendable (written ls) /\
  exists q, run ls create = Some q /\
  exists fin, written ls = fin ++ mSendPackets q /\
    concat (sent q) = concat (map wire (fin ++ mSending q)) /\
    mSending q = take (length (mSending q)) (mSendPackets q) /\
    (length (mSending q) <= MAX_SEND_PACKET)%nat /\
    in_flight q = (if isSending q then 1%nat else 0%nat) /\
    (mSendPackets q <> [] -> in_flight q = 1%nat).
Proof.
  intros p1 p2 ls.
  assert (H : Forall sendable (written ls)) by (repeat constructor; simpl; lia).
  split; [exact H|]. eexists. split; [reflexivity|].
  apply (send_queue_fifo ls _ H). reflexivity.
Defined.

Lemma send_queue_drains_witness :
  let ls := [Write (mkp [1; 2; 3] 3); Write (mkp [4; 5] 1)] in
  Forall sendable (written ls) /\
  exists q, run ls create = Some q /\
  exists q', drain (length (mSendPackets q)) q = Some q' /\
    mSendPackets q' = [] /\ concat (sent q') = concat (map wire (written ls)).
Proof.
  intros ls.
  assert (H : Forall sendable (written ls)) by (repeat constructor; simpl; lia).
  split; [exact H|]. eexists. split; [reflexivity|].
  apply (send_queue_drains ls _ H). reflexivity.
Defined.

Lemma empty_packet_blocks_witness :
  let p := mkp [] 0 in
  sendSize p = 0 /\
  exists q, run (map Write [p; mkp [7] 1]) create = Some q /\
    mSendPackets q = [p; mkp [7] 1] /\ sent q = [] /\ step Complete q = None.
Proof.
  split; [reflexivity|]. exact (empty_packet_blocks (mkp [] 0) [mkp [7] 1] eq_refl).
Defined.

End TcpSendProps.
