(* ===== verification/Frames.v ===== *)
(** * Frames: byte streams cut into frames

    What NetConnect::on_msgbuffer and WebSocketConnect::on_msgbuffer share: a
    loop that runs while the receive buffer has bytes, a head whose size its
    first bytes determine, a body length in the head.  [FrameFormat] is the
    format, [decode] the specification of the stream, [FrameReader] what one
    iteration of a loop has to do; the rest follows for any such loop. *)
From S2P Require Import Prelude ByteBuf MsgBuf TcpSock.

(** ** The loop *)

(** [while (buffer->GetActiveSize() > 0) { ... }], with fuel. *)
Fixpoint while_active {S E : Type}
    (iteration : MessageBuffer.t -> S -> option (MessageBuffer.t * S * list E))
    (fuel : nat) (buffer : MessageBuffer.t) (s : S) :
    result (MessageBuffer.t * S * list E) :=
  if 0 <? MessageBuffer.GetActiveSize buffer then
    match fuel with
    | O => OutOfFuel
    | S fuel =>
        match iteration buffer s with
        | None => Fault
        | Some (buffer, s, evs) =>
            match while_active iteration fuel buffer s with
            | Done (buffer, s, evs') => Done (buffer, s, evs ++ evs')
            | r => r
            end
        end
    end
  else Done (buffer, s, []).

(** An iteration that changes nothing never ends. *)
Lemma while_active_spins {S E : Type}
    (iteration : MessageBuffer.t -> S -> option (MessageBuffer.t * S * list E)) fuel buf s :
  MessageBuffer.wf buf -> MessageBuffer.active buf <> [] ->
  iteration buf s = Some (buf, s, []) -> while_active iteration fuel buf s = OutOfFuel.
Proof.
  intros Hwf Hne Hit. assert (0 < MessageBuffer.GetActiveSize buf) as Hact%Z.ltb_lt.
  { rewrite MsgBufProps.GetActiveSize_spec by done.
    destruct (MessageBuffer.active buf); simpl; [done|lia]. }
  induction fuel as [|fuel IH]; simpl; rewrite Hact; [done|]. by rewrite Hit, IH.
Qed.

(** ** The format *)

Class FrameFormat (E : Type) : Type := {
  ff_fixed : nat;                    (* the bytes that tell the head's size *)
  ff_head : list Z -> nat;           (* the size of the head *)
  ff_body : list Z -> option nat;    (* of the body; [None]: not readable *)
  ff_event : list Z -> E;            (* what a frame is delivered as *)
  ff_fixed_pos : (0 < ff_fixed)%nat;
  ff_head_ge : forall s, (ff_fixed <= ff_head s)%nat;
  ff_head_app : forall a b, (ff_fixed <= length a)%nat -> ff_head (a ++ b) = ff_head a;
  ff_body_app : forall a b, (ff_head a <= length a)%nat -> ff_body (a ++ b) = ff_body a
}.

Module Frames.

Section Decode.
Context {E : Type} `{FrameFormat E}.

(** The stream as a sequence of frames.  A frame is complete when its head
    and body have arrived; an empty body is only noticed when a further byte
    follows. *)
Fixpoint decode_f (fuel : nat) (s : list Z) : option (list E * list Z) :=
  match fuel with
  | O => Some ([], s)
  | S fuel =>
      if (length s <=? ff_head s)%nat then Some ([], s)
      else n ← ff_body s;
           if (length s <? ff_head s + n)%nat then Some ([], s)
           else '(evs, rest) ← decode_f fuel (drop (ff_head s + n) s);
                Some (ff_event (take (ff_head s + n) s) :: evs, rest)
  end.

Definition decode (s : list Z) : option (list E * list Z) := decode_f (length s) s.

Lemma head_pos s : (0 < ff_head s)%nat.
Proof. pose proof ff_fixed_pos. pose proof (ff_head_ge s). lia. Qed.

Lemma head_take k a : (ff_fixed <= k)%nat -> (k <= length a)%nat -> ff_head (take k a) = ff_head a.
Proof.
  intros Hk Hl. rewrite <- (ff_head_app (take k a) (drop k a)) by (rewrite length_take; lia).
  by rewrite take_drop.
Qed.

Lemma body_take k a : (ff_head a <= k)%nat -> (k <= length a)%nat -> ff_body (take k a) = ff_body a.
Proof.
  intros Hk Hl. pose proof (ff_head_ge a).
  rewrite <- (ff_body_app (take k a) (drop k a)).
  - by rewrite take_drop.
  - rewrite head_take, length_take; lia.
Qed.

Lemma decode_f_enough fuel1 : forall fuel2 s,
  (length s <= fuel1)%nat -> (length s <= fuel2)%nat ->
  decode_f fuel1 s = decode_f fuel2 s.
Proof.
  induction fuel1 as [|f1 IH]; intros fuel2 s H1 H2.
  - assert (s = []) as -> by (apply length_zero_iff_nil; lia). by destruct fuel2.
  - destruct fuel2 as [|f2].
    { assert (s = []) as -> by (apply length_zero_iff_nil; lia). done. }
    simpl. split_if; [done|]. destruct (ff_body s) as [n|]; [simpl|done].
    split_if; [done|]. bool_arith. pose proof (head_pos s).
    erewrite IH; [done| |]; rewrite length_drop; lia.
Qed.

Lemma decode_eq s :
  decode s =
    if (length s <=? ff_head s)%nat then Some ([], s)
    else n ← ff_body s;
         if (length s <? ff_head s + n)%nat then Some ([], s)
         else '(evs, rest) ← decode (drop (ff_head s + n) s);
              Some (ff_event (take (ff_head s + n) s) :: evs, rest).
Proof.
  unfold decode at 1. destruct (length s) as [|m] eqn:El; [done|].
  cbn [decode_f]. rewrite El. destruct (S m <=? ff_head s)%nat eqn:E1; [done|].
  destruct (ff_body s) as [n|]; [|done]. cbn [mbind option_bind].
  destruct (S m <? ff_head s + n)%nat eqn:E2; [done|]. bool_arith.
  pose proof (head_pos s). unfold decode.
  erewrite decode_f_enough; [done| |]; rewrite length_drop; lia.
Qed.

Lemma decode_short s : (length s <= ff_head s)%nat -> decode s = Some ([], s).
Proof. intros Hl%Nat.leb_le. by rewrite decode_eq, Hl. Qed.

Lemma decode_partial s n :
  (ff_head s <= length s)%nat -> ff_body s = Some n -> (length s < ff_head s + n)%nat ->
  decode s = Some ([], s).
Proof.
  intros Hh Hn Hl. rewrite decode_eq, Hn. split_if; [done|]. simpl.
  by apply Nat.ltb_lt in Hl as ->.
Qed.

(** A whole frame at the start. *)
Lemma decode_frame f r n :
  (ff_head f <= length f)%nat -> ff_body f = Some n ->
  length f = (ff_head f + n)%nat -> (ff_head f < length (f ++ r))%nat ->
  decode (f ++ r) = '(evs, rest) ← decode r; Some (ff_event f :: evs, rest).
Proof.
  intros Hh Hn Hl Hlr. pose proof (ff_head_ge f). rewrite decode_eq.
  rewrite ff_head_app, ff_body_app, Hn by lia. apply Nat.leb_gt in Hlr as ->.
  cbn [mbind option_bind].
  assert ((length (f ++ r) <? ff_head f + n)%nat = false) as ->
    by (apply Nat.ltb_ge; rewrite length_app; lia).
  by rewrite <- Hl, take_app_exact, drop_app_exact.
Qed.

(** Decoding by strong induction on the length. *)
Lemma stream_ind (P : list Z -> Prop) :
  (forall s, (forall s', (length s' < length s)%nat -> P s') -> P s) -> forall s, P s.
Proof.
  intros Hs s. induction s as [s IH] using (induction_ltof1 _ (@length Z)).
  apply Hs. exact IH.
Qed.

Lemma decode_app_spec a b : forall evs rest,
  decode a = Some (evs, rest) ->
  decode (a ++ b) = (fun '(evs', r) => (evs ++ evs', r)) <$> decode (rest ++ b).
Proof.
  assert (Hid : forall s, (fun '(evs', r) => ([] ++ evs', r)) <$> decode s = decode s).
  { intros s. by destruct (decode s) as [[? ?]|]. }
  induction a as [a IH] using stream_ind. intros evs rest Ha. rewrite decode_eq in Ha.
  destruct (Nat.leb_spec (length a) (ff_head a)) as [L1|L1]; [by injection Ha as <- <-|].
  destruct (ff_body a) as [n|] eqn:En; simpl in Ha; [|done].
  destruct (Nat.ltb_spec (length a) (ff_head a + n)) as [L3|L3]; [by injection Ha as <- <-|].
  destruct (decode (drop _ a)) as [[evs1 r1]|] eqn:E1; simpl in Ha; [|done].
  injection Ha as <- <-. pose proof (ff_head_ge a). pose proof (head_pos a).
  rewrite <- (take_drop (ff_head a + n) a), <- app_assoc at 1.
  rewrite (decode_frame _ _ n);
    rewrite ?head_take, ?body_take, ?length_app, ?length_take, ?length_drop by lia; try lia.
  - erewrite IH; [|rewrite length_drop; lia|exact E1].
    by destruct (decode (r1 ++ b)) as [[? ?]|].
  - done.
Qed.

Lemma decode_prefix_spec a b r : decode (a ++ b) = Some r -> is_Some (decode a).
Proof.
  revert r. induction a as [a IH] using stream_ind. intros r Hab. rewrite decode_eq.
  destruct (Nat.leb_spec (length a) (ff_head a)) as [L1|L1]; [done|].
  pose proof (ff_head_ge a). pose proof (head_pos a).
  rewrite decode_eq, ff_head_app, ff_body_app, length_app in Hab by lia.
  assert ((length a + length b <=? ff_head a)%nat = false) as E1 by (apply Nat.leb_gt; lia).
  rewrite E1 in Hab. destruct (ff_body a) as [n|]; [|done]. cbn [mbind option_bind] in *.
  destruct (Nat.ltb_spec (length a) (ff_head a + n)) as [L3|L3]; [done|].
  assert ((length a + length b <? ff_head a + n)%nat = false) as E2
    by (apply Nat.ltb_ge; lia).
  rewrite E2, drop_app_le in Hab by lia.
  destruct (decode (drop _ a ++ b)) as [r'|] eqn:Er; simpl in Hab; [|done].
  edestruct IH as [[evs1 r1] Hr1]; [|exact Er|]; [rewrite length_drop; lia|].
  rewrite Hr1. simpl. eauto.
Qed.

Lemma decode_rest_spec a : forall evs rest,
  decode a = Some (evs, rest) -> decode rest = Some ([], rest).
Proof.
  induction a as [a IH] using stream_ind. intros evs rest Ha.
  assert (Ha' := Ha). rewrite decode_eq in Ha.
  destruct (Nat.leb_spec (length a) (ff_head a)) as [L1|L1]; [by injection Ha as <- <-|].
  destruct (ff_body a) as [n|]; [|done]. cbn [mbind option_bind] in Ha.
  destruct (Nat.ltb_spec (length a) (ff_head a + n)) as [L3|L3]; [by injection Ha as <- <-|].
  destruct (decode (drop _ a)) as [[evs1 r1]|] eqn:E1; simpl in Ha; [|done].
  injection Ha as <- <-. eapply IH; [|exact E1]. pose proof (head_pos a).
  rewrite length_drop. lia.
Qed.

(** Frames one after the other, the last with a byte after its head. *)
Lemma decode_concat fs :
  Forall (fun f => (ff_head f <= length f)%nat /\
                   ff_body f = Some (length f - ff_head f)%nat) fs ->
  (forall fs' f, fs = fs' ++ [f] -> (ff_head f < length f)%nat) ->
  decode (concat fs) = Some (map ff_event fs, []).
Proof.
  induction 1 as [|f fs [Hl Hb] Hfs IH]; intros Hlast; [done|].
  cbn [concat map]. erewrite decode_frame; [|done|exact Hb|lia|].
  - rewrite IH; [done|]. intros fs' f' ->. by apply (Hlast (f :: fs') f').
  - destruct fs as [|f' fs]; [simpl; rewrite app_nil_r; by apply (Hlast [] f)|].
    apply Forall_cons_iff in Hfs as [[Hl' _] _]. pose proof (head_pos f'). cbn [concat].
    rewrite !length_app. lia.
Qed.

(** An unfinished frame. *)
Definition unfinished (bs : list Z) : Prop := bytes_ok bs /\ decode bs = Some ([], bs).

Lemma unfinished_nil : unfinished [].
Proof. split; [constructor|]. apply decode_short. simpl. lia. Qed.

Lemma unfinished_body bs r evs rest :
  (ff_head bs <= length bs)%nat -> r <> [] -> unfinished bs ->
  decode (bs ++ r) = Some (evs, rest) ->
  exists n, ff_body bs = Some n /\ (length bs < ff_head bs + Nat.max 1 n)%nat.
Proof.
  intros Hl Hr [Hb Hu] Hd. pose proof (ff_head_ge bs).
  rewrite decode_eq, ff_head_app, ff_body_app, length_app in Hd by lia.
  assert (length r <> 0%nat) by (destruct r; simpl; [done|lia]).
  assert ((length bs + length r <=? ff_head bs)%nat = false) as E1 by (apply Nat.leb_gt; lia).
  rewrite E1 in Hd. destruct (ff_body bs) as [n|] eqn:En; [|done].
  exists n. split; [done|]. rewrite decode_eq, En in Hu.
  destruct (Nat.leb_spec (length bs) (ff_head bs)) as [L1|L1]; [lia|].
  cbn [mbind option_bind] in Hu.
  destruct (Nat.ltb_spec (length bs) (ff_head bs + n)); [lia|].
  by destruct (decode (drop _ bs)) as [[? ?]|].
Qed.

End Decode.
End Frames.

(** ** A loop that reads the format *)

(** [state_of bs] is the state that holds the bytes [bs] of an unfinished
    frame.  An iteration takes head bytes, or as much of the body as there
    is. *)
Class FrameReader {S E : Type} `{FrameFormat E}
    (iteration : MessageBuffer.t -> S -> option (MessageBuffer.t * S * list E)) : Type := {
  state_of : list Z -> S;
  reader_head : forall buf bs,
    let r := MessageBuffer.active buf in
    MessageBuffer.wf buf -> Z.of_nat (length r) < 2 ^ 31 -> (0 < length r)%nat ->
    (length bs < ff_head bs)%nat ->
    exists k, (0 < k <= length r)%nat /\
      (length (bs ++ take k r) <= ff_head (bs ++ take k r))%nat /\
      iteration buf (state_of bs) =
        Some (MessageBuffer.ReadCompleted k buf, state_of (bs ++ take k r), []);
  reader_body : forall buf bs n,
    let r := MessageBuffer.active buf in
    let k := Nat.min (ff_head bs + n - length bs) (length r) in
    MessageBuffer.wf buf -> Z.of_nat (length r) < 2 ^ 31 -> (0 < length r)%nat ->
    bytes_ok bs -> bytes_ok r ->
    (ff_head bs <= length bs)%nat -> ff_body bs = Some n ->
    (length bs < ff_head bs + Nat.max 1 n)%nat ->
    iteration buf (state_of bs) =
      if (length bs + k =? ff_head bs + n)%nat
      then Some (MessageBuffer.ReadCompleted k buf, state_of [], [ff_event (bs ++ take k r)])
      else Some (MessageBuffer.ReadCompleted k buf, state_of (bs ++ take k r), [])
}.

Module FrameReaderProps.
Import Frames.

Section Reader.
Context {S E : Type} `{FrameFormat E}
  (iteration : MessageBuffer.t -> S -> option (MessageBuffer.t * S * list E))
  `{!FrameReader iteration}.

(** Progress of the loop. *)
Definition work (bs r : list Z) : nat :=
  2 * length r + (if Nat.eqb (length bs) 0 then 0 else 1).

(** What one iteration achieves: it emits a prefix of the events, keeps an
    unfinished frame that decodes to the others, and leaves less work. *)
Definition iteration_post (buf : MessageBuffer.t) (bs : list Z)
    (evs : list E) (rest : list Z) : Prop :=
  exists buf' bs' evs1 evs2,
    iteration buf (state_of bs) = Some (buf', state_of bs', evs1) /\
    MessageBuffer.wf buf' /\ MessageBuffer.storage buf' = MessageBuffer.storage buf /\
    bytes_ok (MessageBuffer.active buf') /\ unfinished bs' /\
    evs = evs1 ++ evs2 /\
    decode (bs' ++ MessageBuffer.active buf') = Some (evs2, rest) /\
    (work bs' (MessageBuffer.active buf') < work bs (MessageBuffer.active buf))%nat.

Section Iteration.
Context (buf : MessageBuffer.t) (bs : list Z) (evs : list E) (rest : list Z).
Let r := MessageBuffer.active buf.
Hypothesis Hwf : MessageBuffer.wf buf.
Hypothesis Hsz : Z.of_nat (length r) < 2 ^ 31.
Hypothesis Hok : bytes_ok r.
Hypothesis Hr0 : (0 < length r)%nat.
Hypothesis Hun : unfinished bs.
Hypothesis Hdec : decode (bs ++ r) = Some (evs, rest).

Lemma consumed_ok k : bytes_ok (bs ++ take k r).
Proof. apply bytes_ok_app. split; [apply Hun|by apply bytes_ok_take]. Qed.

(** Consuming [k] bytes into the unfinished frame, without an event. *)
Lemma post_consume k :
  (0 < k)%nat -> (k <= length r)%nat -> decode (bs ++ take k r) = Some ([], bs ++ take k r) ->
  iteration buf (state_of bs) =
    Some (MessageBuffer.ReadCompleted k buf, state_of (bs ++ take k r), []) ->
  iteration_post buf bs evs rest.
Proof.
  intros Hk0 Hk Hun' Hit.
  destruct (MsgBufProps.ReadCompleted_active k buf Hwf Hk) as [Hwf' Hact'].
  fold r in Hact'. exists (MessageBuffer.ReadCompleted k buf), (bs ++ take k r), [], evs.
  rewrite Hact', Hit. split_and!; try done.
  - by apply bytes_ok_drop.
  - split; [apply consumed_ok|done].
  - by rewrite <- app_assoc, take_drop.
  - unfold work. fold r. rewrite length_drop.
    destruct (length (bs ++ take k r) =? 0)%nat, (length bs =? 0)%nat; lia.
Qed.

(** Consuming [k] bytes that complete the frame. *)
Lemma post_frame k n :
  (k <= length r)%nat -> (ff_head bs <= length bs)%nat -> ff_body bs = Some n ->
  (length bs + k = ff_head bs + n)%nat ->
  iteration buf (state_of bs) =
    Some (MessageBuffer.ReadCompleted k buf, state_of [], [ff_event (bs ++ take k r)]) ->
  iteration_post buf bs evs rest.
Proof.
  intros Hk Hl Hn Hfull Hit.
  destruct (MsgBufProps.ReadCompleted_active k buf Hwf Hk) as [Hwf' Hact'].
  fold r in Hact'. set (f := bs ++ take k r) in *. pose proof (ff_head_ge bs).
  assert (Hh : ff_head f = ff_head bs) by (apply ff_head_app; lia).
  assert (Hlen : length f = (length bs + k)%nat).
  { unfold f. rewrite length_app, length_take. lia. }
  assert (Hcat : bs ++ r = f ++ drop k r).
  { unfold f. by rewrite <- app_assoc, take_drop. }
  rewrite Hcat, (decode_frame f _ n) in Hdec;
    [|lia|unfold f; by rewrite ff_body_app|lia|rewrite Hh, <- Hcat, length_app; lia].
  destruct (decode (drop k r)) as [[evs2 r2]|] eqn:E2; simpl in Hdec; [|done].
  injection Hdec as <- <-.
  exists (MessageBuffer.ReadCompleted k buf), [], [ff_event f], evs2.
  rewrite Hact'. split_and!; try done.
  - by apply bytes_ok_drop.
  - apply unfinished_nil.
  - pose proof (head_pos bs). unfold work. fold r. rewrite length_drop. simpl.
    destruct (Nat.eqb_spec (length bs) 0); lia.
Qed.

Lemma iteration_decodes : iteration_post buf bs evs rest.
Proof.
  destruct (le_lt_dec (ff_head bs) (length bs)) as [L|L].
  - assert (Hne : r <> []) by (intros E0; rewrite E0 in Hr0; simpl in Hr0; lia).
    destruct (unfinished_body bs r evs rest L Hne Hun Hdec) as (n & Hn & Hlt).
    pose proof (reader_body buf bs n Hwf Hsz Hr0 (proj1 Hun) Hok L Hn Hlt) as Hit.
    cbv zeta in Hit. fold r in Hit. set (k := Nat.min _ _) in *.
    destruct (Nat.eqb_spec (length bs + k) (ff_head bs + n)) as [Hc|Hc].
    + apply (post_frame k n); done || lia.
    + pose proof (ff_head_ge bs). apply (post_consume k); [lia|lia| |done].
      apply (decode_partial _ n); rewrite ?ff_head_app, ?length_app, ?length_take by lia;
        [lia|by rewrite ff_body_app|lia].
  - destruct (reader_head buf bs Hwf Hsz Hr0 L) as (k & Hk & Hle & Hit).
    apply (post_consume k); [lia|fold r in Hk; lia| |done]. by apply decode_short.
Qed.

End Iteration.

(** The whole loop. *)
Lemma while_active_refines fuel : forall bs buf evs rest,
  unfinished bs -> MessageBuffer.wf buf ->
  Z.of_nat (length (MessageBuffer.storage buf)) < 2 ^ 31 ->
  bytes_ok (MessageBuffer.active buf) ->
  decode (bs ++ MessageBuffer.active buf) = Some (evs, rest) ->
  (2 * length (MessageBuffer.active buf) + 2 <= fuel)%nat ->
  exists buf', while_active iteration fuel buf (state_of bs) = Done (buf', state_of rest, evs) /\
    unfinished rest /\ MessageBuffer.storage buf' = MessageBuffer.storage buf.
Proof.
  intros bs buf evs rest Hun Hwf Hst Hok Hdec Hf.
  assert (Hf' : (work bs (MessageBuffer.active buf) <= fuel)%nat)
    by (unfold work; destruct (length bs =? 0)%nat; lia).
  clear Hf. revert bs buf evs rest Hun Hwf Hst Hok Hdec Hf'.
  induction fuel as [|fuel IH]; intros bs buf evs rest Hun Hwf Hst Hok Hdec Hf;
    assert (Hact := MsgBufProps.GetActiveSize_spec buf Hwf);
    destruct (decide (MessageBuffer.active buf = [])) as [Hnil|Hne].
  - simpl. rewrite Hact, Hnil. simpl. rewrite Hnil, app_nil_r in Hdec.
    rewrite (proj2 Hun) in Hdec. injection Hdec as <- <-. eauto.
  - unfold work in Hf. destruct (MessageBuffer.active buf); simpl in *; [done|lia].
  - simpl. rewrite Hact, Hnil. simpl. rewrite Hnil, app_nil_r in Hdec.
    rewrite (proj2 Hun) in Hdec. injection Hdec as <- <-. eauto.
  - assert (0 < length (MessageBuffer.active buf))%nat as Hr0
      by (destruct (MessageBuffer.active buf); simpl; [done|lia]).
    assert (Z.of_nat (length (MessageBuffer.active buf)) < 2 ^ 31) as Hsz.
    { rewrite MsgBufProps.active_length by done. destruct Hwf as (? & ? & _). lia. }
    destruct (iteration_decodes buf bs evs rest Hwf Hsz Hok Hr0 Hun Hdec)
      as (buf' & bs' & evs1 & evs2 & Hit & Hwf' & Hst' & Hok' & Hun' & -> & Hdec' & Hlt).
    simpl. rewrite Hact. decide_bool. rewrite Hit.
    destruct (IH bs' buf' evs2 rest) as (buf2 & Hrun & Hun2 & Hst2);
      [done|done|by rewrite Hst'|done|done|lia|].
    rewrite Hrun. exists buf2. by rewrite Hst2.
Qed.

End Reader.
End FrameReaderProps.
