(* ===== verification/NetConn.v ===== *)
(** * NetConn: NetPacket and NetConnect

    Models src/src/network/NetPacket.h, NetPacket.cpp, NetConnect.h and
    NetConnect.cpp: packets with an 8-byte head (body length, message type),
    and the loop that cuts the TCP byte stream into packets.  A packet handed
    to [NetEvent::onMsg] is an event of the model. *)
From S2P Require Import Prelude Bytes ByteBuf MsgBuf TcpSock Frames.

Module NetPacket.
Import ByteBuffer BasePacket.

Definition MSG_LEN_POS : nat := 0.
Definition MSG_TYPE_POS : nat := 4.
Definition MSG_HEAD_SIZE : nat := 8.

(** [NetPacket::zero]: [resize] keeps what the vector holds. *)
Definition zero (b : t) : t :=
  mk (vresize MSG_HEAD_SIZE (storage b)) MSG_HEAD_SIZE MSG_HEAD_SIZE.

(** [NetPacket::NetPacket()]: after the base constructor, on a pooled
    vector. *)
Definition create (recycled : list Z) : t := zero (BasePacket.create recycled).

Definition getHeadSize : Z := Z.of_nat MSG_HEAD_SIZE.

(** [getMarkLen]: the [uint32] of the head, returned as [int32]. *)
Definition getMarkLen (b : t) : option Z :=
  v ← getValue Tuint32 MSG_LEN_POS b; Some (i32 v).
Definition getMsgType (b : t) : option Z :=
  v ← getValue Tuint32 MSG_TYPE_POS b; Some (i32 v).

Definition isHeadFull (b : t) : bool := (MSG_HEAD_SIZE <=? wpos b)%nat.

Definition sendSize (b : t) : Z := i32 (Z.of_nat (wpos b)).
Definition sendStream (b : t) : list Z := storage b.

(** [writeHead]. *)
Definition writeHead (msgtype : Z) (b : t) : option t :=
  b ← setValue Tuint32 MSG_LEN_POS (u32 (getBodySize getHeadSize b)) b;
  setValue Tuint32 MSG_TYPE_POS (u32 msgtype) b.

(** [readHead(p, size)]: at most the missing head bytes, copied over the
    vector; the number of bytes taken. *)
Definition readHead (p : list Z) (size_ : Z) (b : t) : option (Z * t) :=
  let rsize := i32 (Z.of_nat MSG_HEAD_SIZE - Z.of_nat (wpos b)) in
  if rsize <=? 0 then Some (0, b) else
  let rsize := if rsize <=? size_ then rsize else size_ in
  if (Z.to_nat rsize <=? length p)%nat then
    b ← put (wpos b) (take (Z.to_nat rsize) p) b;
    Some (rsize, mk (storage b) (rpos b) (wpos b + Z.to_nat rsize))
  else None.

End NetPacket.

Module NetConnect.
Import NetPacket.

Abbreviation packet := ByteBuffer.t.

(** [onMsg(this, msgtype, packet)]. *)
Record event : Type := OnMsg { ev_type : Z; ev_packet : packet }.

(** [mReadPacket]; [recycled] is what the pool's vector held. *)
Abbreviation state := (option packet).

Definition createPacket : packet := NetPacket.create [].

(** One iteration of the [while] loop of [on_msgbuffer]. *)
Definition iteration (buffer : MessageBuffer.t) (mReadPacket : state) :
    option (MessageBuffer.t * state * list event) :=
  let p := match mReadPacket with
           | Some p => p
           | None => ByteBuffer.set_wpos 0 createPacket
           end in
  if negb (isHeadFull p) then
    (* read head *)
    d ← MessageBuffer.read_ptr (Z.to_nat (MessageBuffer.GetActiveSize buffer)) buffer;
    '(rlen, p) ← readHead d (u32 (MessageBuffer.GetActiveSize buffer)) p;
    Some (MessageBuffer.ReadCompleted (Z.to_nat rlen) buffer, Some p, [])
  else
    (* read body *)
    len ← getMarkLen p;
    let needsize :=
      i32 (len + Z.of_nat MSG_HEAD_SIZE - Z.of_nat (ByteBuffer.wpos p)) in
    '(buffer, p) ←
      (if 0 <? needsize then
         let active := MessageBuffer.GetActiveSize buffer in
         let wsize := i32 (if needsize <=? active then needsize else active) in
         if 0 <? wsize then
           d ← MessageBuffer.read_ptr (Z.to_nat wsize) buffer;
           p ← ByteBuffer.append d p;
           Some (MessageBuffer.ReadCompleted (Z.to_nat wsize) buffer, p)
         else Some (buffer, p)
       else Some (buffer, p));
    (* new packet *)
    if Z.of_nat (ByteBuffer.wpos p) =? u64 (len + Z.of_nat MSG_HEAD_SIZE) then
      ty ← getMsgType p;
      Some (buffer, None, [OnMsg ty p])
    else Some (buffer, Some p, []).

(** [on_msgbuffer], with fuel for the loop. *)
Definition on_msgbuffer : nat -> MessageBuffer.t -> state ->
    result (MessageBuffer.t * state * list event) := while_active iteration.

(** [sendMsg(msgtype, pack)]: the packet queued on the socket. *)
Definition sendMsg_packet (msgtype : Z) (pack : packet) : option packet :=
  let '(p, _) := BasePacket.moveData NetPacket.zero createPacket pack in
  writeHead msgtype p.

(** [sendMsg(msgtype, msg, len)]. *)
Definition sendMsg_data (msgtype : Z) (msg : list Z) : option packet :=
  p ← ByteBuffer.append msg createPacket;
  writeHead msgtype p.

(** The bytes the socket sends for it. *)
Definition sent_bytes (p : packet) : list Z :=
  TcpSocket.wire (TcpSocket.mkp (NetPacket.sendStream p) (NetPacket.sendSize p)).

(** ** The specification: the stream as a sequence of frames *)

(** The body length and the type in a head. *)
Definition body_len (s : list Z) : Z := le_val (take 4 s).
Definition msg_type (s : list Z) : Z := i32 (le_val (take 4 (drop 4 s))).

(** What [onMsg] gets for a frame. *)
Definition frame_event (f : list Z) : event :=
  OnMsg (msg_type f) (ByteBuffer.mk f 8 (length f)).

Definition frame_body (s : list Z) : option nat :=
  if 2 ^ 31 <=? body_len s then None else Some (Z.to_nat (body_len s)).

Lemma body_len_app a b : (4 <= length a)%nat -> body_len (a ++ b) = body_len a.
Proof. intros. unfold body_len. by rewrite take_app_le. Qed.

#[export] Program Instance format : FrameFormat event := {
  ff_fixed := 8; ff_head := fun _ => 8%nat; ff_body := frame_body; ff_event := frame_event
}.
Next Obligation. lia. Qed.
Next Obligation. done. Qed.
Next Obligation. done. Qed.
Next Obligation.
  intros a b Hl. cbn beta in Hl. unfold frame_body. by rewrite body_len_app by lia.
Qed.

Abbreviation decode := (Frames.decode (E := event)).

(** How the connection holds the bytes of an unfinished frame. *)
Definition packet_of (bs : list Z) : packet :=
  ByteBuffer.mk (bs ++ replicate (8 - length bs) 0) 8 (length bs).

Definition state_of (bs : list Z) : state :=
  if Nat.eqb (length bs) 0 then None else Some (packet_of bs).

(** A message as the receiver is to get it, and its wire format. *)
Record message : Type := Msg { m_type : Z; m_body : list Z }.
Definition encode (m : message) : list Z :=
  le_bytes 4 (Z.of_nat (length (m_body m))) ++ le_bytes 4 (m_type m) ++ m_body m.

#[global] Arguments encode : simpl never.
#[global] Arguments le_bytes : simpl never.

Definition event_message (e : event) : message :=
  Msg (ev_type e) (drop (ByteBuffer.rpos (ev_packet e)) (ByteBuffer.storage (ev_packet e))).

Definition message_ok (m : message) : Prop :=
  in_i 32 (m_type m) /\ bytes_ok (m_body m) /\ Z.of_nat (length (m_body m)) < 2 ^ 31 - 8.

End NetConnect.

Module NetConnProps.
Import NetConnect.

(** ** The specification decoder *)

Lemma body_len_nonneg s : bytes_ok s -> 0 <= body_len s.
Proof. intros. apply le_val_range, bytes_ok_take. done. Qed.

Lemma frame_body_some s n :
  bytes_ok s -> frame_body s = Some n <-> body_len s < 2 ^ 31 /\ body_len s = Z.of_nat n.
Proof.
  intros Hs. pose proof (body_len_nonneg s Hs). unfold frame_body.
  destruct (Z.leb_spec (2 ^ 31) (body_len s)); split; intros Hn; try done; [lia| |].
  - injection Hn as <-. lia.
  - f_equal. lia.
Qed.

(** ** The packet an unfinished frame is held in *)

Lemma createPacket_any recycled : NetPacket.create recycled = createPacket.
Proof. reflexivity. Qed.

Lemma packet_of_nil : packet_of [] = ByteBuffer.set_wpos 0 createPacket.
Proof. reflexivity. Qed.

Lemma packet_of_long bs :
  (8 <= length bs)%nat -> packet_of bs = ByteBuffer.mk bs 8 (length bs).
Proof.
  intros. unfold packet_of. replace (8 - length bs)%nat with 0%nat by lia.
  by rewrite app_nil_r.
Qed.

Lemma state_of_packet bs :
  match state_of bs with Some p => p | None => ByteBuffer.set_wpos 0 createPacket end
  = packet_of bs.
Proof.
  unfold state_of. destruct (Nat.eqb_spec (length bs) 0) as [E|E]; [|done].
  apply length_zero_iff_nil in E as ->. reflexivity.
Qed.

Lemma state_of_snoc bs k r :
  (0 < k)%nat -> (k <= length r)%nat ->
  Some (packet_of (bs ++ take k r)) = state_of (bs ++ take k r).
Proof.
  intros. unfold state_of. rewrite length_app, length_take.
  destruct (Nat.eqb_spec (length bs + k `min` length r) 0); [lia|done].
Qed.

Lemma isHeadFull_packet bs :
  NetPacket.isHeadFull (packet_of bs) = (8 <=? length bs)%nat.
Proof. reflexivity. Qed.

Lemma readHead_packet bs r :
  (length bs < 8)%nat -> Z.of_nat (length r) < 2 ^ 31 ->
  let k := Nat.min (8 - length bs) (length r) in
  NetPacket.readHead r (Z.of_nat (length r)) (packet_of bs) =
    Some (Z.of_nat k, packet_of (bs ++ take k r)).
Proof.
  intros Hb Hr k. unfold NetPacket.readHead. simpl ByteBuffer.wpos.
  change (Z.of_nat NetPacket.MSG_HEAD_SIZE) with 8.
  rewrite sext_small by (unfold in_i; lia).
  decide_bool.
  assert ((if 8 - Z.of_nat (length bs) <=? Z.of_nat (length r)
           then 8 - Z.of_nat (length bs) else Z.of_nat (length r)) = Z.of_nat k) as ->.
  { destruct (Z.leb_spec (8 - Z.of_nat (length bs)) (Z.of_nat (length r))); lia. }
  rewrite Nat2Z.id. assert (k <= length r)%nat as Hk%Nat.leb_le by lia. rewrite Hk.
  unfold ByteBuffer.put, ByteBuffer.size. simpl.
  rewrite length_app, length_replicate, length_take.
  assert (length bs + k `min` length r <= length bs + (8 - length bs))%nat
    as Hle%Nat.leb_le by lia.
  rewrite Hle. simpl. unfold packet_of. do 3 f_equal.
  - rewrite take_app_exact, <- app_assoc. do 2 f_equal.
    rewrite length_app, length_take, drop_app_ge by lia.
    rewrite drop_replicate. f_equal. lia.
  - rewrite length_app, length_take. lia.
Qed.

Lemma getMarkLen_packet bs :
  (8 <= length bs)%nat -> bytes_ok bs -> body_len bs < 2 ^ 31 ->
  NetPacket.getMarkLen (packet_of bs) = Some (body_len bs).
Proof.
  intros Hl Hb Hn. rewrite packet_of_long by done.
  unfold NetPacket.getMarkLen, BasePacket.getValue.
  rewrite ByteBufProps.read_at_ok by (unfold ByteBuffer.size; simpl; lia).
  simpl. unfold obj_val. simpl. rewrite drop_0. fold (body_len bs).
  pose proof (body_len_nonneg bs Hb). rewrite sext_small; [done|lia|].
  unfold in_i. lia.
Qed.

Lemma getMsgType_packet bs :
  (8 <= length bs)%nat -> NetPacket.getMsgType (packet_of bs) = Some (msg_type bs).
Proof.
  intros Hl. rewrite packet_of_long by done.
  unfold NetPacket.getMsgType, BasePacket.getValue.
  by rewrite ByteBufProps.read_at_ok by (unfold ByteBuffer.size; simpl; lia).
Qed.

Lemma append_packet bs d :
  (8 <= length bs)%nat ->
  ByteBuffer.append d (packet_of bs) = Some (packet_of (bs ++ d)).
Proof.
  intros Hl. rewrite !packet_of_long by (rewrite ?length_app; lia).
  rewrite ByteBufProps.append_at_end by done. simpl. by rewrite length_app.
Qed.

(** ** The loop reads the format *)

Section Iteration.
Context (buf : MessageBuffer.t) (bs : list Z).
Let r := MessageBuffer.active buf.
Hypothesis Hwf : MessageBuffer.wf buf.
Hypothesis Hsz : Z.of_nat (length r) < 2 ^ 31.
Hypothesis Hr0 : (0 < length r)%nat.

Lemma iteration_head :
  (length bs < 8)%nat ->
  exists k, (0 < k <= length r)%nat /\ (length (bs ++ take k r) <= 8)%nat /\
    iteration buf (state_of bs) =
      Some (MessageBuffer.ReadCompleted k buf, state_of (bs ++ take k r), []).
Proof.
  intros L. set (k := Nat.min (8 - length bs) (length r)). exists k.
  split_and!; [lia|lia|rewrite length_app, length_take; lia|].
  rewrite <- state_of_snoc by lia.
  unfold iteration. rewrite state_of_packet, isHeadFull_packet.
  apply Nat.leb_gt in L as L'. rewrite L'. cbn [negb].
  rewrite MsgBufProps.GetActiveSize_spec by done. fold r. rewrite Nat2Z.id.
  rewrite MsgBufProps.read_ptr_active by done. fold r.
  cbn [mbind option_bind]. rewrite take_ge by lia.
  rewrite (wrap_small 32) by (unfold in_u; lia).
  rewrite readHead_packet by lia. cbn [mbind option_bind]. by rewrite Nat2Z.id.
Qed.

(** The body branch of [iteration], when the declared body is readable. *)
Lemma iteration_body (k := Nat.min (Z.to_nat (body_len bs + 8) - length bs) (length r)) :
  bytes_ok bs -> (8 <= length bs)%nat -> body_len bs < 2 ^ 31 ->
  (length bs < 8 + Nat.max 1 (Z.to_nat (body_len bs)))%nat ->
  iteration buf (state_of bs) =
    if Z.of_nat (length bs + k) =? 8 + body_len bs
    then Some (MessageBuffer.ReadCompleted k buf, None, [frame_event (bs ++ take k r)])
    else Some (MessageBuffer.ReadCompleted k buf, Some (packet_of (bs ++ take k r)), []).
Proof.
  intros Hb L Hn Hlt. pose proof (body_len_nonneg bs Hb) as Hn0.
  unfold iteration. rewrite state_of_packet, isHeadFull_packet.
  apply Nat.leb_le in L as L'. rewrite L'. cbn [negb].
  rewrite getMarkLen_packet by done. cbn [mbind option_bind].
  rewrite MsgBufProps.GetActiveSize_spec by done. fold r.
  change (Z.of_nat NetPacket.MSG_HEAD_SIZE) with 8.
  change (ByteBuffer.wpos (packet_of bs)) with (length bs).
  rewrite sext_small by (unfold in_i; lia).
  assert (Hev : forall bs', length bs' = (length bs + k)%nat -> body_len bs' = body_len bs ->
    Z.of_nat (length bs + k) = 8 + body_len bs ->
    OnMsg (msg_type bs') (packet_of bs') = frame_event bs').
  { intros bs' H1 H2 H3. unfold frame_event. by rewrite packet_of_long by lia. }
  assert (Hlen : length (bs ++ take k r) = (length bs + k)%nat).
  { rewrite length_app, length_take. lia. }
  destruct (Z.ltb_spec 0 (body_len bs + 8 - Z.of_nat (length bs))) as [Hneed|Hneed].
  - assert ((if body_len bs + 8 - Z.of_nat (length bs) <=? Z.of_nat (length r)
             then body_len bs + 8 - Z.of_nat (length bs) else Z.of_nat (length r))
            = Z.of_nat k) as ->.
    { destruct (Z.leb_spec (body_len bs + 8 - Z.of_nat (length bs)) (Z.of_nat (length r)));
        lia. }
    rewrite sext_small by (unfold in_i; lia). decide_bool. rewrite Nat2Z.id.
    rewrite MsgBufProps.read_ptr_active by (done || (fold r; lia)). fold r.
    cbn [mbind option_bind]. rewrite append_packet by done. cbn [mbind option_bind].
    change (ByteBuffer.wpos (packet_of (bs ++ take k r))) with (length (bs ++ take k r)).
    rewrite Hlen, (wrap_small 64), (Z.add_comm (body_len bs)) by (unfold in_u; lia).
    destruct (Z.eqb_spec (Z.of_nat (length bs + k)) (8 + body_len bs)) as [Hc|Hc]; [|done].
    rewrite getMsgType_packet by lia. cbn [mbind option_bind].
    rewrite Hev; [done|done|by apply body_len_app; lia|done].
  - assert (k = 0%nat) as Ek by lia. rewrite Ek in *. rewrite take_0, app_nil_r, Nat.add_0_r in *.
    cbn [mbind option_bind]. change (ByteBuffer.wpos (packet_of bs)) with (length bs).
    rewrite (wrap_small 64), (Z.add_comm (body_len bs)) by (unfold in_u; lia).
    replace (MessageBuffer.ReadCompleted 0 buf) with buf
      by (unfold MessageBuffer.ReadCompleted; rewrite Nat.add_0_r; by destruct buf).
    destruct (Z.eqb_spec (Z.of_nat (length bs)) (8 + body_len bs)) as [Hc|Hc]; [|done].
    rewrite getMsgType_packet by lia. cbn [mbind option_bind].
    rewrite Hev; done.
Qed.

End Iteration.

#[export] Program Instance reader : FrameReader iteration := { state_of := state_of }.
Next Obligation. intros buf bs r Hwf Hsz Hr0 Hl. by apply iteration_head. Qed.
Next Obligation.
  intros buf bs n r k Hwf Hsz Hr0 Hb _ Hl [Hn Hbn]%frame_body_some Hlt; [|done].
  cbn [ff_head format] in *. rewrite iteration_body by (done || lia). fold r.
  rewrite Hbn. replace (Z.to_nat (Z.of_nat n + 8)) with (8 + n)%nat by lia. fold k.
  destruct (Z.eqb_spec (Z.of_nat (length bs + k)) (8 + Z.of_nat n)), 
    (Nat.eqb_spec (length bs + k) (8 + n)); try lia; [done|].
  unfold state_of. destruct (Nat.eqb_spec (length (bs ++ take k r)) 0) as [E|]; [|done].
  rewrite length_app in E. lia.
Qed.

(** [NetConnect] as a client of [TcpSocketBase]. *)
#[export] Instance NetConnect_handler : MsgHandler state event :=
  { on_msgbuffer := NetConnect.on_msgbuffer }.

#[export] Program Instance NetConnect_decoder : StreamDecoder state event := {
  pending := fun bs s => s = state_of bs /\ Frames.unfinished bs;
  TcpSock.decode := NetConnect.decode
}.
Next Obligation. intros. by apply Frames.decode_app_spec. Qed.
Next Obligation. intros. by eapply Frames.decode_prefix_spec. Qed.
Next Obligation. intros. by eapply Frames.decode_rest_spec. Qed.
Next Obligation.
  intros fuel bs s buf evs rest [-> Hun] Hwf Hst Hok Hdec Hf.
  destruct (FrameReaderProps.while_active_refines iteration fuel bs buf evs rest)
    as (buf' & Hrun & Hun' & Hst'); [done..|]. exists buf', (state_of rest). auto.
Qed.

(** ** Sending *)

Lemma writeHead_spec ty body st rp :
  length st = 8%nat -> Z.of_nat (length body) < 2 ^ 31 - 8 ->
  NetPacket.writeHead ty (ByteBuffer.mk (st ++ body) rp (8 + length body)) =
    Some (ByteBuffer.mk (encode (Msg ty body)) rp (8 + length body)).
Proof.
  intros Hst Hb. unfold NetPacket.writeHead, BasePacket.setValue, ByteBuffer.put_val.
  unfold BasePacket.getBodySize. change NetPacket.getHeadSize with 8. cbn [ByteBuffer.wpos].
  replace (Z.of_nat (8 + length body) - 8) with (Z.of_nat (length body)) by lia.
  rewrite sext_small by (unfold in_i; lia).
  rewrite (wrap_small 32 (Z.of_nat (length body))) by (unfold in_u; lia).
  change (obj_bytes Tuint32) with (le_bytes 4).
  assert (le_bytes 4 (u32 ty) = le_bytes 4 ty) as -> by apply (le_bytes_wrap 4).
  change NetPacket.MSG_TYPE_POS with 4%nat. change NetPacket.MSG_LEN_POS with 0%nat.
  unfold encode. simpl m_body. simpl m_type.
  generalize (le_bytes_length 4 (Z.of_nat (length body))).
  generalize (le_bytes_length 4 ty).
  generalize (le_bytes 4 (Z.of_nat (length body))). generalize (le_bytes 4 ty).
  intros t h Ht Hh.
  destruct st as [|a0 [|a1 [|a2 [|a3 [|a4 [|a5 [|a6 [|a7 [|]]]]]]]]]; try done.
  destruct t as [|t0 [|t1 [|t2 [|t3 [|]]]]]; try done.
  destruct h as [|h0 [|h1 [|h2 [|h3 [|]]]]]; try done.
Qed.

Lemma encode_length m : length (encode m) = (8 + length (m_body m))%nat.
Proof. unfold encode. rewrite !length_app, !le_bytes_length. lia. Qed.

Lemma encode_ok m : message_ok m -> bytes_ok (encode m).
Proof.
  intros (_ & Hb & _). unfold encode. rewrite !bytes_ok_app. auto using le_bytes_ok.
Qed.

(** What [sendMsg(msgtype, msg, len)] puts on the wire: the head with the
    body length and the type, then the bytes of the message. *)
Lemma sendMsg_data_wire ty msg :
  Z.of_nat (length msg) < 2 ^ 31 - 8 ->
  exists p, sendMsg_data ty msg = Some p /\ sent_bytes p = encode (Msg ty msg).
Proof.
  intros Hl. unfold sendMsg_data. rewrite ByteBufProps.append_at_end by done.
  cbn [mbind option_bind]. simpl ByteBuffer.storage. simpl ByteBuffer.wpos.
  rewrite writeHead_spec by done. eexists. split; [reflexivity|].
  unfold sent_bytes, TcpSocket.wire, NetPacket.sendSize, NetPacket.sendStream; simpl.
  rewrite sext_small by (unfold in_i; lia). rewrite take_ge; [done|].
  rewrite encode_length. simpl. lia.
Qed.

(** And what [sendMsg(msgtype, pack)] does with a packet the caller filled. *)
Lemma sendMsg_packet_wire ty pack :
  (8 <= ByteBuffer.wpos pack)%nat -> ByteBuffer.wpos pack = ByteBuffer.size pack ->
  Z.of_nat (ByteBuffer.size pack) < 2 ^ 31 ->
  exists p, sendMsg_packet ty pack = Some p /\
    sent_bytes p = encode (Msg ty (drop 8 (ByteBuffer.storage pack))).
Proof.
  intros H8 Hw Hs. unfold sendMsg_packet, BasePacket.moveData; simpl.
  destruct pack as [st rp wp]; unfold ByteBuffer.size in *; simpl in *. subst wp.
  replace (ByteBuffer.mk st rp (length st))
    with (ByteBuffer.mk (take 8 st ++ drop 8 st) rp (length st)) by (by rewrite take_drop).
  set (body := drop 8 st).
  assert (length st = (8 + length body)%nat) as Hlen
    by (unfold body; rewrite length_drop; lia).
  rewrite Hlen, writeHead_spec by (rewrite ?length_take; lia).
  eexists. split; [reflexivity|].
  unfold sent_bytes, TcpSocket.wire, NetPacket.sendSize, NetPacket.sendStream; simpl.
  rewrite sext_small by (unfold in_i; lia). rewrite take_ge; [done|].
  rewrite encode_length. simpl. lia.
Qed.

(** ** End to end *)

Lemma body_len_encode m s : message_ok m -> body_len (encode m ++ s) = Z.of_nat (length (m_body m)).
Proof.
  intros (_ & _ & Hl). unfold body_len, encode. rewrite <- !app_assoc.
  rewrite take_app_length' by (by rewrite le_bytes_length).
  rewrite le_val_bytes, wrap_small; [done|]. unfold in_u. lia.
Qed.

Lemma msg_type_encode m s : message_ok m -> msg_type (encode m ++ s) = m_type m.
Proof.
  intros Hm. unfold msg_type, encode. rewrite <- !app_assoc.
  rewrite drop_app_length', take_app_length' by (by rewrite le_bytes_length).
  rewrite le_val_bytes, sext_wrap. apply sext_small; [lia|apply Hm].
Qed.

Lemma frame_event_encode m : message_ok m -> event_message (frame_event (encode m)) = m.
Proof.
  intros Hm. unfold event_message, frame_event. cbn [ev_type ev_packet ByteBuffer.rpos
    ByteBuffer.storage]. rewrite <- (app_nil_r (encode m)), msg_type_encode by done.
  rewrite app_nil_r. by destruct m.
Qed.

Lemma frame_body_encode m :
  message_ok m -> frame_body (encode m) = Some (length (encode m) - 8)%nat.
Proof.
  intros Hm. rewrite encode_length. apply frame_body_some; [by apply encode_ok|].
  rewrite <- (app_nil_r (encode m)), body_len_encode by done. destruct Hm as (_ & _ & ?). lia.
Qed.

#[local] Opaque encode.

(** The last message, if any, has a body. *)
Definition last_has_body (ms : list message) : Prop :=
  m_body (List.last ms (Msg 0 [0])) <> [].

Lemma decode_encode ms :
  Forall message_ok ms -> last_has_body ms ->
  exists evs, decode (concat (map encode ms)) = Some (evs, []) /\
    map event_message evs = ms.
Proof.
  intros Hms Hlast. eexists. split.
  - apply Frames.decode_concat.
    + rewrite Forall_map. eapply Forall_impl; [|exact Hms]. intros m Hm. cbn [ff_head format].
      split; [rewrite encode_length; lia|by apply frame_body_encode].
    + intros fs' f Hf. apply map_eq_app in Hf as (ms1 & ms2 & -> & <- & Hm2).
      destruct ms2 as [|m [|]]; [done| |done]. injection Hm2 as <-.
      unfold last_has_body in Hlast. rewrite last_last in Hlast. cbn [ff_head format].
      rewrite encode_length. destruct (m_body m); [done|simpl; lia].
  - rewrite !map_map. rewrite <- (map_id ms) at 2. apply map_ext_Forall.
    eapply Forall_impl; [|exact Hms]. intros m Hm. by apply frame_event_encode.
Qed.

Lemma concat_encode_ok ms : Forall message_ok ms -> bytes_ok (concat (map encode ms)).
Proof.
  induction 1; simpl; [constructor|]. apply bytes_ok_app. auto using encode_ok.
Qed.

Abbreviation chunk_ok := TcpRecvProps.chunk_ok.

(** A fresh connection decodes what it receives. *)
Lemma receive_frames chunks size fuel evs rest :
  Forall (chunk_ok size) chunks -> Z.of_nat size < 2 ^ 31 -> (2 * size + 2 <= fuel)%nat ->
  decode (concat chunks) = Some (evs, rest) ->
  exists b,
    TcpSocketBase.receive fuel chunks (TcpSocketBase.create_buffer size) None
      = Done (b, state_of rest, evs).
Proof.
  intros Hcs Hsz Hf Hd.
  destruct (TcpRecvProps.receive_decodes (S := state) (E := event) fuel size chunks
      (TcpSocketBase.create_buffer size) None [] evs rest) as (b & s & Hrun & _ & [-> _]).
  - apply TcpRecvProps.create_idle.
  - done.
  - done.
  - done.
  - done.
  - split; [done|apply Frames.unfinished_nil].
  - exact Hd.
  - eauto.
Qed.

(** C1.  Framing, end to end.  Let one side send any messages with
    [sendMsg(msgtype, msg, len)], bodies below 2 GiB and the last one not
    empty.  However TCP cuts the bytes into reads that fit the receive buffer,
    the other side's [echo_read] terminates, calls [onMsg] once per message,
    in order, with the same type and body, and ends between two messages. *)
Theorem framing_end_to_end (ms : list message) (ps : list packet)
    (chunks : list (list Z)) (size fuel : nat) :
  Forall message_ok ms -> last_has_body ms ->
  Forall2 (fun m p => sendMsg_data (m_type m) (m_body m) = Some p) ms ps ->
  Forall (chunk_ok size) chunks ->
  concat chunks = concat (map sent_bytes ps) ->
  Z.of_nat size < 2 ^ 31 -> (2 * size + 2 <= fuel)%nat ->
  exists b evs,
    TcpSocketBase.receive fuel chunks (TcpSocketBase.create_buffer size) None
      = Done (b, None, evs) /\
    map event_message evs = ms.
Proof.
  intros Hms Hlast Hsend Hcs Hcat Hsz Hf.
  assert (Hw : concat (map sent_bytes ps) = concat (map encode ms)).
  { clear -Hms Hsend. induction Hsend as [|m p ms ps Hp _ IH]; simpl; [done|].
    inversion_clear Hms as [|? ? Hm Hms']. rewrite IH by done. f_equal.
    destruct (sendMsg_data_wire (m_type m) (m_body m)) as (p' & Hp' & Hw'); [apply Hm|].
    assert (p' = p) as -> by congruence. rewrite Hw'. by destruct m. }
  destruct (decode_encode ms Hms Hlast) as (evs & Hd & He).
  destruct (receive_frames chunks size fuel evs []) as (b & Hrun); [done..| |eauto].
  by rewrite Hcat, Hw.
Qed.

(** C7.  The loop decodes the stream of frames, whatever the reads: it calls
    [onMsg] for exactly the frames the specification [decode] finds in the
    received bytes, and holds the rest. *)
Theorem framing_refinement (chunks : list (list Z)) (size fuel : nat) evs rest :
  Forall (chunk_ok size) chunks -> Z.of_nat size < 2 ^ 31 -> (2 * size + 2 <= fuel)%nat ->
  decode (concat chunks) = Some (evs, rest) ->
  exists b,
    TcpSocketBase.receive fuel chunks (TcpSocketBase.create_buffer size) None
      = Done (b, state_of rest, evs).
Proof.
  apply receive_frames.
Qed.

(** C40.  A head that declares 2 GiB or more makes the connection's loop spin
    without consuming anything: the length is negative as an [int32], no byte
    is needed, and the frame is never complete.  No fuel suffices, so one
    8-byte head and one more byte from a peer hang the event loop. *)
Theorem oversize_head_hangs (bs : list Z) (buf : MessageBuffer.t) (fuel : nat) :
  length bs = 8%nat -> bytes_ok bs -> 2 ^ 31 <= body_len bs ->
  MessageBuffer.wf buf -> MessageBuffer.active buf <> [] ->
  on_msgbuffer fuel buf (state_of bs) = OutOfFuel.
Proof.
  intros Hl Hb Hn Hwf Hne.
  assert (Hlt : body_len bs < 2 ^ 32).
  { pose proof (le_val_range (take 4 bs) (bytes_ok_take 4 bs Hb)) as Hr.
    rewrite length_take, Hl in Hr. unfold body_len. simpl in Hr. lia. }
  apply while_active_spins; [done|done|].
  { unfold iteration. rewrite state_of_packet, isHeadFull_packet, Hl. simpl negb. cbv iota.
    rewrite packet_of_long by lia.
    unfold NetPacket.getMarkLen, BasePacket.getValue.
    rewrite ByteBufProps.read_at_ok by (unfold ByteBuffer.size; simpl; lia).
    simpl. unfold obj_val. simpl. rewrite drop_0. fold (body_len bs).
    assert (i32 (body_len bs) = body_len bs - 2 ^ 32) as ->.
    { unfold sext. rewrite Z.mod_small by lia. decide_bool. done. }
    rewrite Hl. change (Z.of_nat NetPacket.MSG_HEAD_SIZE) with 8.
    rewrite sext_small by (unfold in_i; lia). decide_bool.
    cbn [mbind option_bind ByteBuffer.wpos].
    assert (u64 (body_len bs - 2 ^ 32 + 8) >= 2 ^ 31 \/ u64 (body_len bs - 2 ^ 32 + 8) < 8)
      as Hu.
    { unfold wrap. destruct (Z_lt_le_dec (body_len bs - 2 ^ 32 + 8) 0) as [N|N].
      - left. rewrite <- (Z_mod_plus_full _ 1). rewrite Z.mod_small; lia.
      - right. rewrite Z.mod_small; lia. }
    destruct (Z.eqb_spec (Z.of_nat 8) (u64 (body_len bs - 2 ^ 32 + 8))); [lia|].
    unfold state_of. by rewrite packet_of_long, Hl by lia. }
Qed.

(** A message with an empty body is withheld until the next byte of the
    stream arrives: when the reads end with its head, [onMsg] has been called
    for the messages before it only, and the head stays in the packet. *)
Theorem trailing_empty_message_withheld (ms : list message) (ty : Z)
    (chunks : list (list Z)) (size fuel : nat) :
  Forall message_ok ms -> last_has_body ms -> in_i 32 ty ->
  Forall (chunk_ok size) chunks -> Z.of_nat size < 2 ^ 31 -> (2 * size + 2 <= fuel)%nat ->
  concat chunks = concat (map encode (ms ++ [Msg ty []])) ->
  exists b evs,
    TcpSocketBase.receive fuel chunks (TcpSocketBase.create_buffer size) None
      = Done (b, Some (packet_of (encode (Msg ty []))), evs) /\
    map event_message evs = ms.
Proof.
  intros Hms Hlast Hty Hcs Hsz Hf Hcat.
  destruct (decode_encode ms Hms Hlast) as (evs & Hd & He).
  assert (Hd2 : decode (concat chunks) = Some (evs, encode (Msg ty []))).
  { rewrite Hcat, map_app, concat_app, (Frames.decode_app_spec _ _ _ _ Hd). simpl.
    rewrite app_nil_r, Frames.decode_short by (rewrite encode_length; simpl; lia).
    simpl. by rewrite app_nil_r. }
  destruct (receive_frames chunks size fuel evs (encode (Msg ty []))) as (b & Hrun);
    [done..|eauto].
Qed.

(** Concrete instances. *)
Definition ex_messages : list message := [Msg 7 [72; 105]; Msg (-2) []; Msg 1 [33]].
(** Their wire bytes, cut in the middle of a head and of a body. *)
Definition ex_chunks : list (list Z) :=
  [[2; 0; 0; 0; 7; 0]; [0; 0; 72; 105; 0; 0; 0; 0; 254; 255; 255; 255; 1; 0; 0; 0; 1];
   [0; 0; 0; 33]].

Lemma ex_messages_ok : Forall message_ok ex_messages.
Proof.
  unfold ex_messages.
  repeat constructor; simpl; try (vm_compute; intuition discriminate); lia.
Qed.

Lemma ex_chunks_ok : Forall (chunk_ok 32) ex_chunks.
Proof.
  unfold ex_chunks. repeat constructor; simpl; try (vm_compute; intuition discriminate);
    try lia; try done.
Qed.

Lemma framing_end_to_end_witness :
  Forall message_ok ex_messages /\
  exists b evs,
    TcpSocketBase.receive 66 ex_chunks (TcpSocketBase.create_buffer 32) None
      = Done (b, None, evs) /\
    map event_message evs = ex_messages.
Proof.
  split; [exact ex_messages_ok|].
  eapply (framing_end_to_end ex_messages [_; _; _] ex_chunks 32 66 ex_messages_ok).
  - discriminate.
  - constructor; [reflexivity|]. constructor; [reflexivity|].
    constructor; [reflexivity|]. constructor.
  - exact ex_chunks_ok.
  - reflexivity.
  - reflexivity.
  - lia.
Defined.

Lemma framing_refinement_witness :
  exists b, TcpSocketBase.receive 66 [[1; 0; 0; 0; 5]] (TcpSocketBase.create_buffer 32) None
      = Done (b, Some (packet_of [1; 0; 0; 0; 5]), []).
Proof.
  refine (framing_refinement [[1; 0; 0; 0; 5]] 32 66 [] [1; 0; 0; 0; 5] _ _ _ _).
  - repeat constructor; simpl; try (vm_compute; intuition discriminate); lia || done.
  - reflexivity.
  - lia.
  - reflexivity.
Defined.

Lemma oversize_head_hangs_witness :
  let bs := [0; 0; 0; 128; 0; 0; 0; 0] in
  2 ^ 31 <= body_len bs /\
  on_msgbuffer 1000 (MessageBuffer.mk [0; 0; 0] 1 0) (Some (packet_of bs)) = OutOfFuel.
Proof.
  assert (Hn : 2 ^ 31 <= body_len [0; 0; 0; 128; 0; 0; 0; 0]) by (vm_compute; discriminate).
  split; [exact Hn|].
  refine (oversize_head_hangs [0; 0; 0; 128; 0; 0; 0; 0] (MessageBuffer.mk [0; 0; 0] 1 0)
            1000 eq_refl _ Hn _ _).
  - repeat constructor; vm_compute; intuition discriminate.
  - unfold MessageBuffer.wf; simpl; lia.
  - discriminate.
Defined.

Lemma trailing_empty_message_withheld_witness :
  exists b evs,
    TcpSocketBase.receive 66 [[1; 0; 0; 0; 9; 0; 0; 0; 65]; [0; 0; 0; 0; 5; 0; 0; 0]]
      (TcpSocketBase.create_buffer 32) None
      = Done (b, Some (packet_of (encode (Msg 5 []))), evs) /\
    map event_message evs = [Msg 9 [65]].
Proof.
  refine (trailing_empty_message_withheld [Msg 9 [65]] 5 _ 32 66 _ _ _ _ _ _ _).
  - repeat constructor; simpl; try (vm_compute; intuition discriminate); lia.
  - discriminate.
  - vm_compute; intuition discriminate.
  - repeat constructor; simpl; try (vm_compute; intuition discriminate); lia || done.
  - reflexivity.
  - lia.
  - reflexivity.
Defined.

End NetConnProps.
