(* ===== verification/Kcp.v ===== *)
(** * Kcp: the KCP protocol control block and its operations

    Models src/src/network/ikcp.cpp and ikcp.h, the reliable-UDP protocol under
    KcpSession.  All the integers of the control block are kept at their width:
    [IUINT32] fields are values of [u32], [IINT32] fields of [i32], and every
    operation writes its wrap-around out; the few signed products of
    [ikcp_update_ack] wrap like the others.  The queues are the lists of the
    segments they link, in order.  Allocation succeeds, logging is off
    ([logmask] is 0 after [ikcp_create] and nothing sets it), and the [output]
    callback is the trace [outputs] of the datagrams it is called with.
    [None] stands for a failed [assert] or an access outside an object. *)
From S2P Require Import Prelude Bytes.

Module Kcp.

(** ** Constants *)
Definition IKCP_RTO_NDL : Z := 30.
Definition IKCP_RTO_MIN : Z := 100.
Definition IKCP_RTO_DEF : Z := 200.
Definition IKCP_RTO_MAX : Z := 60000.
Definition IKCP_CMD_PUSH : Z := 81.
Definition IKCP_CMD_ACK : Z := 82.
Definition IKCP_CMD_WASK : Z := 83.
Definition IKCP_CMD_WINS : Z := 84.
Definition IKCP_ASK_SEND : Z := 1.
Definition IKCP_ASK_TELL : Z := 2.
Definition IKCP_WND_SND : Z := 32.
Definition IKCP_WND_RCV : Z := 128.
Definition IKCP_MTU_DEF : Z := 1400.
Definition IKCP_INTERVAL : Z := 100.
Definition IKCP_OVERHEAD : Z := 24.
Definition IKCP_DEADLINK : Z := 20.
Definition IKCP_THRESH_INIT : Z := 2.
Definition IKCP_THRESH_MIN : Z := 2.
Definition IKCP_PROBE_INIT : Z := 7000.
Definition IKCP_PROBE_LIMIT : Z := 120000.
Definition IKCP_FASTACK_LIMIT : Z := 5.

(** ** Segments and the control block *)

(** [IKCPSEG]; [data] is the payload behind the header, [seg_len] its length
    field. *)
Record IKCPSEG : Type := mkseg {
  seg_conv : Z; seg_cmd : Z; seg_frg : Z; seg_wnd : Z; seg_ts : Z; seg_sn : Z; seg_una :
    Z; seg_len : Z; seg_resendts : Z; seg_rto : Z; seg_fastack : Z; seg_xmit : Z; data :
    list Z
}.

(** [IKCPCB].  [acklist] is the array of [ackblock] (sn, ts) pairs of which
    [ackcount] are in use; [buffer] is the size of the output buffer. *)
Record ikcpcb : Type := mk {
  conv : Z; mtu : Z; mss : Z; state : Z; snd_una : Z; snd_nxt : Z; rcv_nxt : Z; ssthresh :
    Z; rx_rttval : Z; rx_srtt : Z; rx_rto : Z; rx_minrto : Z; snd_wnd : Z; rcv_wnd : Z;
    rmt_wnd : Z; cwnd : Z; probe : Z; current : Z; interval : Z; ts_flush : Z; xmit : Z;
    nrcv_buf : Z; nsnd_buf : Z; nrcv_que : Z; nsnd_que : Z; nodelay : Z; updated : Z;
    ts_probe : Z; probe_wait : Z; dead_link : Z; incr : Z; snd_queue : list IKCPSEG;
    rcv_queue : list IKCPSEG; snd_buf : list IKCPSEG; rcv_buf : list IKCPSEG; acklist :
    list (Z * Z); ackcount : Z; ackblock : Z; buffer : Z; fastresend : Z; fastlimit : Z;
    nocwnd : Z; stream : Z; outputs : list (list Z)
}.

(** Field updates, [set_f v kcp] for [kcp->f = v]. *)
Definition set_mtu (v : Z) (k : ikcpcb) : ikcpcb :=
  mk (conv k) v (mss k) (state k) (snd_una k) (snd_nxt k) (rcv_nxt k) (ssthresh k)
    (rx_rttval k) (rx_srtt k) (rx_rto k) (rx_minrto k) (snd_wnd k) (rcv_wnd k) (rmt_wnd k)
    (cwnd k) (probe k) (current k) (interval k) (ts_flush k) (xmit k) (nrcv_buf k)
    (nsnd_buf k) (nrcv_que k) (nsnd_que k) (nodelay k) (updated k) (ts_probe k)
    (probe_wait k) (dead_link k) (incr k) (snd_queue k) (rcv_queue k) (snd_buf k) (rcv_buf
    k) (acklist k) (ackcount k) (ackblock k) (buffer k) (fastresend k) (fastlimit k)
    (nocwnd k) (stream k) (outputs k).
Definition set_mss (v : Z) (k : ikcpcb) : ikcpcb :=
  mk (conv k) (mtu k) v (state k) (snd_una k) (snd_nxt k) (rcv_nxt k) (ssthresh k)
    (rx_rttval k) (rx_srtt k) (rx_rto k) (rx_minrto k) (snd_wnd k) (rcv_wnd k) (rmt_wnd k)
    (cwnd k) (probe k) (current k) (interval k) (ts_flush k) (xmit k) (nrcv_buf k)
    (nsnd_buf k) (nrcv_que k) (nsnd_que k) (nodelay k) (updated k) (ts_probe k)
    (probe_wait k) (dead_link k) (incr k) (snd_queue k) (rcv_queue k) (snd_buf k) (rcv_buf
    k) (acklist k) (ackcount k) (ackblock k) (buffer k) (fastresend k) (fastlimit k)
    (nocwnd k) (stream k) (outputs k).
Definition set_state (v : Z) (k : ikcpcb) : ikcpcb :=
  mk (conv k) (mtu k) (mss k) v (snd_una k) (snd_nxt k) (rcv_nxt k) (ssthresh k)
    (rx_rttval k) (rx_srtt k) (rx_rto k) (rx_minrto k) (snd_wnd k) (rcv_wnd k) (rmt_wnd k)
    (cwnd k) (probe k) (current k) (interval k) (ts_flush k) (xmit k) (nrcv_buf k)
    (nsnd_buf k) (nrcv_que k) (nsnd_que k) (nodelay k) (updated k) (ts_probe k)
    (probe_wait k) (dead_link k) (incr k) (snd_queue k) (rcv_queue k) (snd_buf k) (rcv_buf
    k) (acklist k) (ackcount k) (ackblock k) (buffer k) (fastresend k) (fastlimit k)
    (nocwnd k) (stream k) (outputs k).
Definition set_snd_una (v : Z) (k : ikcpcb) : ikcpcb :=
  mk (conv k) (mtu k) (mss k) (state k) v (snd_nxt k) (rcv_nxt k) (ssthresh k) (rx_rttval
    k) (rx_srtt k) (rx_rto k) (rx_minrto k) (snd_wnd k) (rcv_wnd k) (rmt_wnd k) (cwnd k)
    (probe k) (current k) (interval k) (ts_flush k) (xmit k) (nrcv_buf k) (nsnd_buf k)
    (nrcv_que k) (nsnd_que k) (nodelay k) (updated k) (ts_probe k) (probe_wait k)
    (dead_link k) (incr k) (snd_queue k) (rcv_queue k) (snd_buf k) (rcv_buf k) (acklist k)
    (ackcount k) (ackblock k) (buffer k) (fastresend k) (fastlimit k) (nocwnd k) (stream
    k) (outputs k).
Definition set_snd_nxt (v : Z) (k : ikcpcb) : ikcpcb :=
  mk (conv k) (mtu k) (mss k) (state k) (snd_una k) v (rcv_nxt k) (ssthresh k) (rx_rttval
    k) (rx_srtt k) (rx_rto k) (rx_minrto k) (snd_wnd k) (rcv_wnd k) (rmt_wnd k) (cwnd k)
    (probe k) (current k) (interval k) (ts_flush k) (xmit k) (nrcv_buf k) (nsnd_buf k)
    (nrcv_que k) (nsnd_que k) (nodelay k) (updated k) (ts_probe k) (probe_wait k)
    (dead_link k) (incr k) (snd_queue k) (rcv_queue k) (snd_buf k) (rcv_buf k) (acklist k)
    (ackcount k) (ackblock k) (buffer k) (fastresend k) (fastlimit k) (nocwnd k) (stream
    k) (outputs k).
Definition set_rcv_nxt (v : Z) (k : ikcpcb) : ikcpcb :=
  mk (conv k) (mtu k) (mss k) (state k) (snd_una k) (snd_nxt k) v (ssthresh k) (rx_rttval
    k) (rx_srtt k) (rx_rto k) (rx_minrto k) (snd_wnd k) (rcv_wnd k) (rmt_wnd k) (cwnd k)
    (probe k) (current k) (interval k) (ts_flush k) (xmit k) (nrcv_buf k) (nsnd_buf k)
    (nrcv_que k) (nsnd_que k) (nodelay k) (updated k) (ts_probe k) (probe_wait k)
    (dead_link k) (incr k) (snd_queue k) (rcv_queue k) (snd_buf k) (rcv_buf k) (acklist k)
    (ackcount k) (ackblock k) (buffer k) (fastresend k) (fastlimit k) (nocwnd k) (stream
    k) (outputs k).
Definition set_ssthresh (v : Z) (k : ikcpcb) : ikcpcb :=
  mk (conv k) (mtu k) (mss k) (state k) (snd_una k) (snd_nxt k) (rcv_nxt k) v (rx_rttval
    k) (rx_srtt k) (rx_rto k) (rx_minrto k) (snd_wnd k) (rcv_wnd k) (rmt_wnd k) (cwnd k)
    (probe k) (current k) (interval k) (ts_flush k) (xmit k) (nrcv_buf k) (nsnd_buf k)
    (nrcv_que k) (nsnd_que k) (nodelay k) (updated k) (ts_probe k) (probe_wait k)
    (dead_link k) (incr k) (snd_queue k) (rcv_queue k) (snd_buf k) (rcv_buf k) (acklist k)
    (ackcount k) (ackblock k) (buffer k) (fastresend k) (fastlimit k) (nocwnd k) (stream
    k) (outputs k).
Definition set_rx_rttval (v : Z) (k : ikcpcb) : ikcpcb :=
  mk (conv k) (mtu k) (mss k) (state k) (snd_una k) (snd_nxt k) (rcv_nxt k) (ssthresh k) v
    (rx_srtt k) (rx_rto k) (rx_minrto k) (snd_wnd k) (rcv_wnd k) (rmt_wnd k) (cwnd k)
    (probe k) (current k) (interval k) (ts_flush k) (xmit k) (nrcv_buf k) (nsnd_buf k)
    (nrcv_que k) (nsnd_que k) (nodelay k) (updated k) (ts_probe k) (probe_wait k)
    (dead_link k) (incr k) (snd_queue k) (rcv_queue k) (snd_buf k) (rcv_buf k) (acklist k)
    (ackcount k) (ackblock k) (buffer k) (fastresend k) (fastlimit k) (nocwnd k) (stream
    k) (outputs k).
Definition set_rx_srtt (v : Z) (k : ikcpcb) : ikcpcb :=
  mk (conv k) (mtu k) (mss k) (state k) (snd_una k) (snd_nxt k) (rcv_nxt k) (ssthresh k)
    (rx_rttval k) v (rx_rto k) (rx_minrto k) (snd_wnd k) (rcv_wnd k) (rmt_wnd k) (cwnd k)
    (probe k) (current k) (interval k) (ts_flush k) (xmit k) (nrcv_buf k) (nsnd_buf k)
    (nrcv_que k) (nsnd_que k) (nodelay k) (updated k) (ts_probe k) (probe_wait k)
    (dead_link k) (incr k) (snd_queue k) (rcv_queue k) (snd_buf k) (rcv_buf k) (acklist k)
    (ackcount k) (ackblock k) (buffer k) (fastresend k) (fastlimit k) (nocwnd k) (stream
    k) (outputs k).
Definition set_rx_rto (v : Z) (k : ikcpcb) : ikcpcb :=
  mk (conv k) (mtu k) (mss k) (state k) (snd_una k) (snd_nxt k) (rcv_nxt k) (ssthresh k)
    (rx_rttval k) (rx_srtt k) v (rx_minrto k) (snd_wnd k) (rcv_wnd k) (rmt_wnd k) (cwnd k)
    (probe k) (current k) (interval k) (ts_flush k) (xmit k) (nrcv_buf k) (nsnd_buf k)
    (nrcv_que k) (nsnd_que k) (nodelay k) (updated k) (ts_probe k) (probe_wait k)
    (dead_link k) (incr k) (snd_queue k) (rcv_queue k) (snd_buf k) (rcv_buf k) (acklist k)
    (ackcount k) (ackblock k) (buffer k) (fastresend k) (fastlimit k) (nocwnd k) (stream
    k) (outputs k).
Definition set_rx_minrto (v : Z) (k : ikcpcb) : ikcpcb :=
  mk (conv k) (mtu k) (mss k) (state k) (snd_una k) (snd_nxt k) (rcv_nxt k) (ssthresh k)
    (rx_rttval k) (rx_srtt k) (rx_rto k) v (snd_wnd k) (rcv_wnd k) (rmt_wnd k) (cwnd k)
    (probe k) (current k) (interval k) (ts_flush k) (xmit k) (nrcv_buf k) (nsnd_buf k)
    (nrcv_que k) (nsnd_que k) (nodelay k) (updated k) (ts_probe k) (probe_wait k)
    (dead_link k) (incr k) (snd_queue k) (rcv_queue k) (snd_buf k) (rcv_buf k) (acklist k)
    (ackcount k) (ackblock k) (buffer k) (fastresend k) (fastlimit k) (nocwnd k) (stream
    k) (outputs k).
Definition set_snd_wnd (v : Z) (k : ikcpcb) : ikcpcb :=
  mk (conv k) (mtu k) (mss k) (state k) (snd_una k) (snd_nxt k) (rcv_nxt k) (ssthresh k)
    (rx_rttval k) (rx_srtt k) (rx_rto k) (rx_minrto k) v (rcv_wnd k) (rmt_wnd k) (cwnd k)
    (probe k) (current k) (interval k) (ts_flush k) (xmit k) (nrcv_buf k) (nsnd_buf k)
    (nrcv_que k) (nsnd_que k) (nodelay k) (updated k) (ts_probe k) (probe_wait k)
    (dead_link k) (incr k) (snd_queue k) (rcv_queue k) (snd_buf k) (rcv_buf k) (acklist k)
    (ackcount k) (ackblock k) (buffer k) (fastresend k) (fastlimit k) (nocwnd k) (stream
    k) (outputs k).
Definition set_rcv_wnd (v : Z) (k : ikcpcb) : ikcpcb :=
  mk (conv k) (mtu k) (mss k) (state k) (snd_una k) (snd_nxt k) (rcv_nxt k) (ssthresh k)
    (rx_rttval k) (rx_srtt k) (rx_rto k) (rx_minrto k) (snd_wnd k) v (rmt_wnd k) (cwnd k)
    (probe k) (current k) (interval k) (ts_flush k) (xmit k) (nrcv_buf k) (nsnd_buf k)
    (nrcv_que k) (nsnd_que k) (nodelay k) (updated k) (ts_probe k) (probe_wait k)
    (dead_link k) (incr k) (snd_queue k) (rcv_queue k) (snd_buf k) (rcv_buf k) (acklist k)
    (ackcount k) (ackblock k) (buffer k) (fastresend k) (fastlimit k) (nocwnd k) (stream
    k) (outputs k).
Definition set_rmt_wnd (v : Z) (k : ikcpcb) : ikcpcb :=
  mk (conv k) (mtu k) (mss k) (state k) (snd_una k) (snd_nxt k) (rcv_nxt k) (ssthresh k)
    (rx_rttval k) (rx_srtt k) (rx_rto k) (rx_minrto k) (snd_wnd k) (rcv_wnd k) v (cwnd k)
    (probe k) (current k) (interval k) (ts_flush k) (xmit k) (nrcv_buf k) (nsnd_buf k)
    (nrcv_que k) (nsnd_que k) (nodelay k) (updated k) (ts_probe k) (probe_wait k)
    (dead_link k) (incr k) (snd_queue k) (rcv_queue k) (snd_buf k) (rcv_buf k) (acklist k)
    (ackcount k) (ackblock k) (buffer k) (fastresend k) (fastlimit k) (nocwnd k) (stream
    k) (outputs k).
Definition set_cwnd (v : Z) (k : ikcpcb) : ikcpcb :=
  mk (conv k) (mtu k) (mss k) (state k) (snd_una k) (snd_nxt k) (rcv_nxt k) (ssthresh k)
    (rx_rttval k) (rx_srtt k) (rx_rto k) (rx_minrto k) (snd_wnd k) (rcv_wnd k) (rmt_wnd k)
    v (probe k) (current k) (interval k) (ts_flush k) (xmit k) (nrcv_buf k) (nsnd_buf k)
    (nrcv_que k) (nsnd_que k) (nodelay k) (updated k) (ts_probe k) (probe_wait k)
    (dead_link k) (incr k) (snd_queue k) (rcv_queue k) (snd_buf k) (rcv_buf k) (acklist k)
    (ackcount k) (ackblock k) (buffer k) (fastresend k) (fastlimit k) (nocwnd k) (stream
    k) (outputs k).
Definition set_probe (v : Z) (k : ikcpcb) : ikcpcb :=
  mk (conv k) (mtu k) (mss k) (state k) (snd_una k) (snd_nxt k) (rcv_nxt k) (ssthresh k)
    (rx_rttval k) (rx_srtt k) (rx_rto k) (rx_minrto k) (snd_wnd k) (rcv_wnd k) (rmt_wnd k)
    (cwnd k) v (current k) (interval k) (ts_flush k) (xmit k) (nrcv_buf k) (nsnd_buf k)
    (nrcv_que k) (nsnd_que k) (nodelay k) (updated k) (ts_probe k) (probe_wait k)
    (dead_link k) (incr k) (snd_queue k) (rcv_queue k) (snd_buf k) (rcv_buf k) (acklist k)
    (ackcount k) (ackblock k) (buffer k) (fastresend k) (fastlimit k) (nocwnd k) (stream
    k) (outputs k).
Definition set_current (v : Z) (k : ikcpcb) : ikcpcb :=
  mk (conv k) (mtu k) (mss k) (state k) (snd_una k) (snd_nxt k) (rcv_nxt k) (ssthresh k)
    (rx_rttval k) (rx_srtt k) (rx_rto k) (rx_minrto k) (snd_wnd k) (rcv_wnd k) (rmt_wnd k)
    (cwnd k) (probe k) v (interval k) (ts_flush k) (xmit k) (nrcv_buf k) (nsnd_buf k)
    (nrcv_que k) (nsnd_que k) (nodelay k) (updated k) (ts_probe k) (probe_wait k)
    (dead_link k) (incr k) (snd_queue k) (rcv_queue k) (snd_buf k) (rcv_buf k) (acklist k)
    (ackcount k) (ackblock k) (buffer k) (fastresend k) (fastlimit k) (nocwnd k) (stream
    k) (outputs k).
Definition set_interval (v : Z) (k : ikcpcb) : ikcpcb :=
  mk (conv k) (mtu k) (mss k) (state k) (snd_una k) (snd_nxt k) (rcv_nxt k) (ssthresh k)
    (rx_rttval k) (rx_srtt k) (rx_rto k) (rx_minrto k) (snd_wnd k) (rcv_wnd k) (rmt_wnd k)
    (cwnd k) (probe k) (current k) v (ts_flush k) (xmit k) (nrcv_buf k) (nsnd_buf k)
    (nrcv_que k) (nsnd_que k) (nodelay k) (updated k) (ts_probe k) (probe_wait k)
    (dead_link k) (incr k) (snd_queue k) (rcv_queue k) (snd_buf k) (rcv_buf k) (acklist k)
    (ackcount k) (ackblock k) (buffer k) (fastresend k) (fastlimit k) (nocwnd k) (stream
    k) (outputs k).
Definition set_ts_flush (v : Z) (k : ikcpcb) : ikcpcb :=
  mk (conv k) (mtu k) (mss k) (state k) (snd_una k) (snd_nxt k) (rcv_nxt k) (ssthresh k)
    (rx_rttval k) (rx_srtt k) (rx_rto k) (rx_minrto k) (snd_wnd k) (rcv_wnd k) (rmt_wnd k)
    (cwnd k) (probe k) (current k) (interval k) v (xmit k) (nrcv_buf k) (nsnd_buf k)
    (nrcv_que k) (nsnd_que k) (nodelay k) (updated k) (ts_probe k) (probe_wait k)
    (dead_link k) (incr k) (snd_queue k) (rcv_queue k) (snd_buf k) (rcv_buf k) (acklist k)
    (ackcount k) (ackblock k) (buffer k) (fastresend k) (fastlimit k) (nocwnd k) (stream
    k) (outputs k).
Definition set_xmit (v : Z) (k : ikcpcb) : ikcpcb :=
  mk (conv k) (mtu k) (mss k) (state k) (snd_una k) (snd_nxt k) (rcv_nxt k) (ssthresh k)
    (rx_rttval k) (rx_srtt k) (rx_rto k) (rx_minrto k) (snd_wnd k) (rcv_wnd k) (rmt_wnd k)
    (cwnd k) (probe k) (current k) (interval k) (ts_flush k) v (nrcv_buf k) (nsnd_buf k)
    (nrcv_que k) (nsnd_que k) (nodelay k) (updated k) (ts_probe k) (probe_wait k)
    (dead_link k) (incr k) (snd_queue k) (rcv_queue k) (snd_buf k) (rcv_buf k) (acklist k)
    (ackcount k) (ackblock k) (buffer k) (fastresend k) (fastlimit k) (nocwnd k) (stream
    k) (outputs k).
Definition set_nrcv_buf (v : Z) (k : ikcpcb) : ikcpcb :=
  mk (conv k) (mtu k) (mss k) (state k) (snd_una k) (snd_nxt k) (rcv_nxt k) (ssthresh k)
    (rx_rttval k) (rx_srtt k) (rx_rto k) (rx_minrto k) (snd_wnd k) (rcv_wnd k) (rmt_wnd k)
    (cwnd k) (probe k) (current k) (interval k) (ts_flush k) (xmit k) v (nsnd_buf k)
    (nrcv_que k) (nsnd_que k) (nodelay k) (updated k) (ts_probe k) (probe_wait k)
    (dead_link k) (incr k) (snd_queue k) (rcv_queue k) (snd_buf k) (rcv_buf k) (acklist k)
    (ackcount k) (ackblock k) (buffer k) (fastresend k) (fastlimit k) (nocwnd k) (stream
    k) (outputs k).
Definition set_nsnd_buf (v : Z) (k : ikcpcb) : ikcpcb :=
  mk (conv k) (mtu k) (mss k) (state k) (snd_una k) (snd_nxt k) (rcv_nxt k) (ssthresh k)
    (rx_rttval k) (rx_srtt k) (rx_rto k) (rx_minrto k) (snd_wnd k) (rcv_wnd k) (rmt_wnd k)
    (cwnd k) (probe k) (current k) (interval k) (ts_flush k) (xmit k) (nrcv_buf k) v
    (nrcv_que k) (nsnd_que k) (nodelay k) (updated k) (ts_probe k) (probe_wait k)
    (dead_link k) (incr k) (snd_queue k) (rcv_queue k) (snd_buf k) (rcv_buf k) (acklist k)
    (ackcount k) (ackblock k) (buffer k) (fastresend k) (fastlimit k) (nocwnd k) (stream
    k) (outputs k).
Definition set_nrcv_que (v : Z) (k : ikcpcb) : ikcpcb :=
  mk (conv k) (mtu k) (mss k) (state k) (snd_una k) (snd_nxt k) (rcv_nxt k) (ssthresh k)
    (rx_rttval k) (rx_srtt k) (rx_rto k) (rx_minrto k) (snd_wnd k) (rcv_wnd k) (rmt_wnd k)
    (cwnd k) (probe k) (current k) (interval k) (ts_flush k) (xmit k) (nrcv_buf k)
    (nsnd_buf k) v (nsnd_que k) (nodelay k) (updated k) (ts_probe k) (probe_wait k)
    (dead_link k) (incr k) (snd_queue k) (rcv_queue k) (snd_buf k) (rcv_buf k) (acklist k)
    (ackcount k) (ackblock k) (buffer k) (fastresend k) (fastlimit k) (nocwnd k) (stream
    k) (outputs k).
Definition set_nsnd_que (v : Z) (k : ikcpcb) : ikcpcb :=
  mk (conv k) (mtu k) (mss k) (state k) (snd_una k) (snd_nxt k) (rcv_nxt k) (ssthresh k)
    (rx_rttval k) (rx_srtt k) (rx_rto k) (rx_minrto k) (snd_wnd k) (rcv_wnd k) (rmt_wnd k)
    (cwnd k) (probe k) (current k) (interval k) (ts_flush k) (xmit k) (nrcv_buf k)
    (nsnd_buf k) (nrcv_que k) v (nodelay k) (updated k) (ts_probe k) (probe_wait k)
    (dead_link k) (incr k) (snd_queue k) (rcv_queue k) (snd_buf k) (rcv_buf k) (acklist k)
    (ackcount k) (ackblock k) (buffer k) (fastresend k) (fastlimit k) (nocwnd k) (stream
    k) (outputs k).
Definition set_nodelay (v : Z) (k : ikcpcb) : ikcpcb :=
  mk (conv k) (mtu k) (mss k) (state k) (snd_una k) (snd_nxt k) (rcv_nxt k) (ssthresh k)
    (rx_rttval k) (rx_srtt k) (rx_rto k) (rx_minrto k) (snd_wnd k) (rcv_wnd k) (rmt_wnd k)
    (cwnd k) (probe k) (current k) (interval k) (ts_flush k) (xmit k) (nrcv_buf k)
    (nsnd_buf k) (nrcv_que k) (nsnd_que k) v (updated k) (ts_probe k) (probe_wait k)
    (dead_link k) (incr k) (snd_queue k) (rcv_queue k) (snd_buf k) (rcv_buf k) (acklist k)
    (ackcount k) (ackblock k) (buffer k) (fastresend k) (fastlimit k) (nocwnd k) (stream
    k) (outputs k).
Definition set_updated (v : Z) (k : ikcpcb) : ikcpcb :=
  mk (conv k) (mtu k) (mss k) (state k) (snd_una k) (snd_nxt k) (rcv_nxt k) (ssthresh k)
    (rx_rttval k) (rx_srtt k) (rx_rto k) (rx_minrto k) (snd_wnd k) (rcv_wnd k) (rmt_wnd k)
    (cwnd k) (probe k) (current k) (interval k) (ts_flush k) (xmit k) (nrcv_buf k)
    (nsnd_buf k) (nrcv_que k) (nsnd_que k) (nodelay k) v (ts_probe k) (probe_wait k)
    (dead_link k) (incr k) (snd_queue k) (rcv_queue k) (snd_buf k) (rcv_buf k) (acklist k)
    (ackcount k) (ackblock k) (buffer k) (fastresend k) (fastlimit k) (nocwnd k) (stream
    k) (outputs k).
Definition set_ts_probe (v : Z) (k : ikcpcb) : ikcpcb :=
  mk (conv k) (mtu k) (mss k) (state k) (snd_una k) (snd_nxt k) (rcv_nxt k) (ssthresh k)
    (rx_rttval k) (rx_srtt k) (rx_rto k) (rx_minrto k) (snd_wnd k) (rcv_wnd k) (rmt_wnd k)
    (cwnd k) (probe k) (current k) (interval k) (ts_flush k) (xmit k) (nrcv_buf k)
    (nsnd_buf k) (nrcv_que k) (nsnd_que k) (nodelay k) (updated k) v (probe_wait k)
    (dead_link k) (incr k) (snd_queue k) (rcv_queue k) (snd_buf k) (rcv_buf k) (acklist k)
    (ackcount k) (ackblock k) (buffer k) (fastresend k) (fastlimit k) (nocwnd k) (stream
    k) (outputs k).
Definition set_probe_wait (v : Z) (k : ikcpcb) : ikcpcb :=
  mk (conv k) (mtu k) (mss k) (state k) (snd_una k) (snd_nxt k) (rcv_nxt k) (ssthresh k)
    (rx_rttval k) (rx_srtt k) (rx_rto k) (rx_minrto k) (snd_wnd k) (rcv_wnd k) (rmt_wnd k)
    (cwnd k) (probe k) (current k) (interval k) (ts_flush k) (xmit k) (nrcv_buf k)
    (nsnd_buf k) (nrcv_que k) (nsnd_que k) (nodelay k) (updated k) (ts_probe k) v
    (dead_link k) (incr k) (snd_queue k) (rcv_queue k) (snd_buf k) (rcv_buf k) (acklist k)
    (ackcount k) (ackblock k) (buffer k) (fastresend k) (fastlimit k) (nocwnd k) (stream
    k) (outputs k).
Definition set_dead_link (v : Z) (k : ikcpcb) : ikcpcb :=
  mk (conv k) (mtu k) (mss k) (state k) (snd_una k) (snd_nxt k) (rcv_nxt k) (ssthresh k)
    (rx_rttval k) (rx_srtt k) (rx_rto k) (rx_minrto k) (snd_wnd k) (rcv_wnd k) (rmt_wnd k)
    (cwnd k) (probe k) (current k) (interval k) (ts_flush k) (xmit k) (nrcv_buf k)
    (nsnd_buf k) (nrcv_que k) (nsnd_que k) (nodelay k) (updated k) (ts_probe k)
    (probe_wait k) v (incr k) (snd_queue k) (rcv_queue k) (snd_buf k) (rcv_buf k) (acklist
    k) (ackcount k) (ackblock k) (buffer k) (fastresend k) (fastlimit k) (nocwnd k)
    (stream k) (outputs k).
Definition set_incr (v : Z) (k : ikcpcb) : ikcpcb :=
  mk (conv k) (mtu k) (mss k) (state k) (snd_una k) (snd_nxt k) (rcv_nxt k) (ssthresh k)
    (rx_rttval k) (rx_srtt k) (rx_rto k) (rx_minrto k) (snd_wnd k) (rcv_wnd k) (rmt_wnd k)
    (cwnd k) (probe k) (current k) (interval k) (ts_flush k) (xmit k) (nrcv_buf k)
    (nsnd_buf k) (nrcv_que k) (nsnd_que k) (nodelay k) (updated k) (ts_probe k)
    (probe_wait k) (dead_link k) v (snd_queue k) (rcv_queue k) (snd_buf k) (rcv_buf k)
    (acklist k) (ackcount k) (ackblock k) (buffer k) (fastresend k) (fastlimit k) (nocwnd
    k) (stream k) (outputs k).
Definition set_snd_queue (v : list IKCPSEG) (k : ikcpcb) : ikcpcb :=
  mk (conv k) (mtu k) (mss k) (state k) (snd_una k) (snd_nxt k) (rcv_nxt k) (ssthresh k)
    (rx_rttval k) (rx_srtt k) (rx_rto k) (rx_minrto k) (snd_wnd k) (rcv_wnd k) (rmt_wnd k)
    (cwnd k) (probe k) (current k) (interval k) (ts_flush k) (xmit k) (nrcv_buf k)
    (nsnd_buf k) (nrcv_que k) (nsnd_que k) (nodelay k) (updated k) (ts_probe k)
    (probe_wait k) (dead_link k) (incr k) v (rcv_queue k) (snd_buf k) (rcv_buf k) (acklist
    k) (ackcount k) (ackblock k) (buffer k) (fastresend k) (fastlimit k) (nocwnd k)
    (stream k) (outputs k).
Definition set_rcv_queue (v : list IKCPSEG) (k : ikcpcb) : ikcpcb :=
  mk (conv k) (mtu k) (mss k) (state k) (snd_una k) (snd_nxt k) (rcv_nxt k) (ssthresh k)
    (rx_rttval k) (rx_srtt k) (rx_rto k) (rx_minrto k) (snd_wnd k) (rcv_wnd k) (rmt_wnd k)
    (cwnd k) (probe k) (current k) (interval k) (ts_flush k) (xmit k) (nrcv_buf k)
    (nsnd_buf k) (nrcv_que k) (nsnd_que k) (nodelay k) (updated k) (ts_probe k)
    (probe_wait k) (dead_link k) (incr k) (snd_queue k) v (snd_buf k) (rcv_buf k) (acklist
    k) (ackcount k) (ackblock k) (buffer k) (fastresend k) (fastlimit k) (nocwnd k)
    (stream k) (outputs k).
Definition set_snd_buf (v : list IKCPSEG) (k : ikcpcb) : ikcpcb :=
  mk (conv k) (mtu k) (mss k) (state k) (snd_una k) (snd_nxt k) (rcv_nxt k) (ssthresh k)
    (rx_rttval k) (rx_srtt k) (rx_rto k) (rx_minrto k) (snd_wnd k) (rcv_wnd k) (rmt_wnd k)
    (cwnd k) (probe k) (current k) (interval k) (ts_flush k) (xmit k) (nrcv_buf k)
    (nsnd_buf k) (nrcv_que k) (nsnd_que k) (nodelay k) (updated k) (ts_probe k)
    (probe_wait k) (dead_link k) (incr k) (snd_queue k) (rcv_queue k) v (rcv_buf k)
    (acklist k) (ackcount k) (ackblock k) (buffer k) (fastresend k) (fastlimit k) (nocwnd
    k) (stream k) (outputs k).
Definition set_rcv_buf (v : list IKCPSEG) (k : ikcpcb) : ikcpcb :=
  mk (conv k) (mtu k) (mss k) (state k) (snd_una k) (snd_nxt k) (rcv_nxt k) (ssthresh k)
    (rx_rttval k) (rx_srtt k) (rx_rto k) (rx_minrto k) (snd_wnd k) (rcv_wnd k) (rmt_wnd k)
    (cwnd k) (probe k) (current k) (interval k) (ts_flush k) (xmit k) (nrcv_buf k)
    (nsnd_buf k) (nrcv_que k) (nsnd_que k) (nodelay k) (updated k) (ts_probe k)
    (probe_wait k) (dead_link k) (incr k) (snd_queue k) (rcv_queue k) (snd_buf k) v
    (acklist k) (ackcount k) (ackblock k) (buffer k) (fastresend k) (fastlimit k) (nocwnd
    k) (stream k) (outputs k).
Definition set_acklist (v : list (Z * Z)) (k : ikcpcb) : ikcpcb :=
  mk (conv k) (mtu k) (mss k) (state k) (snd_una k) (snd_nxt k) (rcv_nxt k) (ssthresh k)
    (rx_rttval k) (rx_srtt k) (rx_rto k) (rx_minrto k) (snd_wnd k) (rcv_wnd k) (rmt_wnd k)
    (cwnd k) (probe k) (current k) (interval k) (ts_flush k) (xmit k) (nrcv_buf k)
    (nsnd_buf k) (nrcv_que k) (nsnd_que k) (nodelay k) (updated k) (ts_probe k)
    (probe_wait k) (dead_link k) (incr k) (snd_queue k) (rcv_queue k) (snd_buf k) (rcv_buf
    k) v (ackcount k) (ackblock k) (buffer k) (fastresend k) (fastlimit k) (nocwnd k)
    (stream k) (outputs k).
Definition set_ackcount (v : Z) (k : ikcpcb) : ikcpcb :=
  mk (conv k) (mtu k) (mss k) (state k) (snd_una k) (snd_nxt k) (rcv_nxt k) (ssthresh k)
    (rx_rttval k) (rx_srtt k) (rx_rto k) (rx_minrto k) (snd_wnd k) (rcv_wnd k) (rmt_wnd k)
    (cwnd k) (probe k) (current k) (interval k) (ts_flush k) (xmit k) (nrcv_buf k)
    (nsnd_buf k) (nrcv_que k) (nsnd_que k) (nodelay k) (updated k) (ts_probe k)
    (probe_wait k) (dead_link k) (incr k) (snd_queue k) (rcv_queue k) (snd_buf k) (rcv_buf
    k) (acklist k) v (ackblock k) (buffer k) (fastresend k) (fastlimit k) (nocwnd k)
    (stream k) (outputs k).
Definition set_ackblock (v : Z) (k : ikcpcb) : ikcpcb :=
  mk (conv k) (mtu k) (mss k) (state k) (snd_una k) (snd_nxt k) (rcv_nxt k) (ssthresh k)
    (rx_rttval k) (rx_srtt k) (rx_rto k) (rx_minrto k) (snd_wnd k) (rcv_wnd k) (rmt_wnd k)
    (cwnd k) (probe k) (current k) (interval k) (ts_flush k) (xmit k) (nrcv_buf k)
    (nsnd_buf k) (nrcv_que k) (nsnd_que k) (nodelay k) (updated k) (ts_probe k)
    (probe_wait k) (dead_link k) (incr k) (snd_queue k) (rcv_queue k) (snd_buf k) (rcv_buf
    k) (acklist k) (ackcount k) v (buffer k) (fastresend k) (fastlimit k) (nocwnd k)
    (stream k) (outputs k).
Definition set_buffer (v : Z) (k : ikcpcb) : ikcpcb :=
  mk (conv k) (mtu k) (mss k) (state k) (snd_una k) (snd_nxt k) (rcv_nxt k) (ssthresh k)
    (rx_rttval k) (rx_srtt k) (rx_rto k) (rx_minrto k) (snd_wnd k) (rcv_wnd k) (rmt_wnd k)
    (cwnd k) (probe k) (current k) (interval k) (ts_flush k) (xmit k) (nrcv_buf k)
    (nsnd_buf k) (nrcv_que k) (nsnd_que k) (nodelay k) (updated k) (ts_probe k)
    (probe_wait k) (dead_link k) (incr k) (snd_queue k) (rcv_queue k) (snd_buf k) (rcv_buf
    k) (acklist k) (ackcount k) (ackblock k) v (fastresend k) (fastlimit k) (nocwnd k)
    (stream k) (outputs k).
Definition set_fastresend (v : Z) (k : ikcpcb) : ikcpcb :=
  mk (conv k) (mtu k) (mss k) (state k) (snd_una k) (snd_nxt k) (rcv_nxt k) (ssthresh k)
    (rx_rttval k) (rx_srtt k) (rx_rto k) (rx_minrto k) (snd_wnd k) (rcv_wnd k) (rmt_wnd k)
    (cwnd k) (probe k) (current k) (interval k) (ts_flush k) (xmit k) (nrcv_buf k)
    (nsnd_buf k) (nrcv_que k) (nsnd_que k) (nodelay k) (updated k) (ts_probe k)
    (probe_wait k) (dead_link k) (incr k) (snd_queue k) (rcv_queue k) (snd_buf k) (rcv_buf
    k) (acklist k) (ackcount k) (ackblock k) (buffer k) v (fastlimit k) (nocwnd k) (stream
    k) (outputs k).
Definition set_fastlimit (v : Z) (k : ikcpcb) : ikcpcb :=
  mk (conv k) (mtu k) (mss k) (state k) (snd_una k) (snd_nxt k) (rcv_nxt k) (ssthresh k)
    (rx_rttval k) (rx_srtt k) (rx_rto k) (rx_minrto k) (snd_wnd k) (rcv_wnd k) (rmt_wnd k)
    (cwnd k) (probe k) (current k) (interval k) (ts_flush k) (xmit k) (nrcv_buf k)
    (nsnd_buf k) (nrcv_que k) (nsnd_que k) (nodelay k) (updated k) (ts_probe k)
    (probe_wait k) (dead_link k) (incr k) (snd_queue k) (rcv_queue k) (snd_buf k) (rcv_buf
    k) (acklist k) (ackcount k) (ackblock k) (buffer k) (fastresend k) v (nocwnd k)
    (stream k) (outputs k).
Definition set_nocwnd (v : Z) (k : ikcpcb) : ikcpcb :=
  mk (conv k) (mtu k) (mss k) (state k) (snd_una k) (snd_nxt k) (rcv_nxt k) (ssthresh k)
    (rx_rttval k) (rx_srtt k) (rx_rto k) (rx_minrto k) (snd_wnd k) (rcv_wnd k) (rmt_wnd k)
    (cwnd k) (probe k) (current k) (interval k) (ts_flush k) (xmit k) (nrcv_buf k)
    (nsnd_buf k) (nrcv_que k) (nsnd_que k) (nodelay k) (updated k) (ts_probe k)
    (probe_wait k) (dead_link k) (incr k) (snd_queue k) (rcv_queue k) (snd_buf k) (rcv_buf
    k) (acklist k) (ackcount k) (ackblock k) (buffer k) (fastresend k) (fastlimit k) v
    (stream k) (outputs k).
Definition set_stream (v : Z) (k : ikcpcb) : ikcpcb :=
  mk (conv k) (mtu k) (mss k) (state k) (snd_una k) (snd_nxt k) (rcv_nxt k) (ssthresh k)
    (rx_rttval k) (rx_srtt k) (rx_rto k) (rx_minrto k) (snd_wnd k) (rcv_wnd k) (rmt_wnd k)
    (cwnd k) (probe k) (current k) (interval k) (ts_flush k) (xmit k) (nrcv_buf k)
    (nsnd_buf k) (nrcv_que k) (nsnd_que k) (nodelay k) (updated k) (ts_probe k)
    (probe_wait k) (dead_link k) (incr k) (snd_queue k) (rcv_queue k) (snd_buf k) (rcv_buf
    k) (acklist k) (ackcount k) (ackblock k) (buffer k) (fastresend k) (fastlimit k)
    (nocwnd k) v (outputs k).
Definition set_outputs (v : list (list Z)) (k : ikcpcb) : ikcpcb :=
  mk (conv k) (mtu k) (mss k) (state k) (snd_una k) (snd_nxt k) (rcv_nxt k) (ssthresh k)
    (rx_rttval k) (rx_srtt k) (rx_rto k) (rx_minrto k) (snd_wnd k) (rcv_wnd k) (rmt_wnd k)
    (cwnd k) (probe k) (current k) (interval k) (ts_flush k) (xmit k) (nrcv_buf k)
    (nsnd_buf k) (nrcv_que k) (nsnd_que k) (nodelay k) (updated k) (ts_probe k)
    (probe_wait k) (dead_link k) (incr k) (snd_queue k) (rcv_queue k) (snd_buf k) (rcv_buf
    k) (acklist k) (ackcount k) (ackblock k) (buffer k) (fastresend k) (fastlimit k)
    (nocwnd k) (stream k) v.

Definition sset_conv (v : Z) (s : IKCPSEG) : IKCPSEG :=
  mkseg v (seg_cmd s) (seg_frg s) (seg_wnd s) (seg_ts s) (seg_sn s) (seg_una s) (seg_len
    s) (seg_resendts s) (seg_rto s) (seg_fastack s) (seg_xmit s) (data s).
Definition sset_cmd (v : Z) (s : IKCPSEG) : IKCPSEG :=
  mkseg (seg_conv s) v (seg_frg s) (seg_wnd s) (seg_ts s) (seg_sn s) (seg_una s) (seg_len
    s) (seg_resendts s) (seg_rto s) (seg_fastack s) (seg_xmit s) (data s).
Definition sset_frg (v : Z) (s : IKCPSEG) : IKCPSEG :=
  mkseg (seg_conv s) (seg_cmd s) v (seg_wnd s) (seg_ts s) (seg_sn s) (seg_una s) (seg_len
    s) (seg_resendts s) (seg_rto s) (seg_fastack s) (seg_xmit s) (data s).
Definition sset_wnd (v : Z) (s : IKCPSEG) : IKCPSEG :=
  mkseg (seg_conv s) (seg_cmd s) (seg_frg s) v (seg_ts s) (seg_sn s) (seg_una s) (seg_len
    s) (seg_resendts s) (seg_rto s) (seg_fastack s) (seg_xmit s) (data s).
Definition sset_ts (v : Z) (s : IKCPSEG) : IKCPSEG :=
  mkseg (seg_conv s) (seg_cmd s) (seg_frg s) (seg_wnd s) v (seg_sn s) (seg_una s) (seg_len
    s) (seg_resendts s) (seg_rto s) (seg_fastack s) (seg_xmit s) (data s).
Definition sset_sn (v : Z) (s : IKCPSEG) : IKCPSEG :=
  mkseg (seg_conv s) (seg_cmd s) (seg_frg s) (seg_wnd s) (seg_ts s) v (seg_una s) (seg_len
    s) (seg_resendts s) (seg_rto s) (seg_fastack s) (seg_xmit s) (data s).
Definition sset_una (v : Z) (s : IKCPSEG) : IKCPSEG :=
  mkseg (seg_conv s) (seg_cmd s) (seg_frg s) (seg_wnd s) (seg_ts s) (seg_sn s) v (seg_len
    s) (seg_resendts s) (seg_rto s) (seg_fastack s) (seg_xmit s) (data s).
Definition sset_len (v : Z) (s : IKCPSEG) : IKCPSEG :=
  mkseg (seg_conv s) (seg_cmd s) (seg_frg s) (seg_wnd s) (seg_ts s) (seg_sn s) (seg_una s)
    v (seg_resendts s) (seg_rto s) (seg_fastack s) (seg_xmit s) (data s).
Definition sset_resendts (v : Z) (s : IKCPSEG) : IKCPSEG :=
  mkseg (seg_conv s) (seg_cmd s) (seg_frg s) (seg_wnd s) (seg_ts s) (seg_sn s) (seg_una s)
    (seg_len s) v (seg_rto s) (seg_fastack s) (seg_xmit s) (data s).
Definition sset_rto (v : Z) (s : IKCPSEG) : IKCPSEG :=
  mkseg (seg_conv s) (seg_cmd s) (seg_frg s) (seg_wnd s) (seg_ts s) (seg_sn s) (seg_una s)
    (seg_len s) (seg_resendts s) v (seg_fastack s) (seg_xmit s) (data s).
Definition sset_fastack (v : Z) (s : IKCPSEG) : IKCPSEG :=
  mkseg (seg_conv s) (seg_cmd s) (seg_frg s) (seg_wnd s) (seg_ts s) (seg_sn s) (seg_una s)
    (seg_len s) (seg_resendts s) (seg_rto s) v (seg_xmit s) (data s).
Definition sset_xmit (v : Z) (s : IKCPSEG) : IKCPSEG :=
  mkseg (seg_conv s) (seg_cmd s) (seg_frg s) (seg_wnd s) (seg_ts s) (seg_sn s) (seg_una s)
    (seg_len s) (seg_resendts s) (seg_rto s) (seg_fastack s) v (data s).

(** ** Arithmetic helpers *)
Definition _imin_ (a b : Z) : Z := if a <=? b then a else b.
Definition _imax_ (a b : Z) : Z := if b <=? a then a else b.
Definition _ibound_ (lower middle upper : Z) : Z := _imin_ (_imax_ lower middle) upper.

(** [_itimediff(later, earlier)]: the signed 32-bit difference. *)
Definition _itimediff (later earlier : Z) : Z := i32 (later - earlier).

(** ** Encoding *)
Definition ikcp_encode8u (c : Z) : list Z := le_bytes 1 c.
Definition ikcp_encode16u (w : Z) : list Z := le_bytes 2 w.
Definition ikcp_encode32u (l : Z) : list Z := le_bytes 4 l.

(** Decoding: the value and the bytes after it. *)
Definition ikcp_decode8u (p : list Z) : Z * list Z := (le_val (take 1 p), drop 1 p).
Definition ikcp_decode16u (p : list Z) : Z * list Z := (le_val (take 2 p), drop 2 p).
Definition ikcp_decode32u (p : list Z) : Z * list Z := (le_val (take 4 p), drop 4 p).

Definition ikcp_encode_seg (s : IKCPSEG) : list Z :=
  ikcp_encode32u (seg_conv s) ++ ikcp_encode8u (u8 (seg_cmd s)) ++
  ikcp_encode8u (u8 (seg_frg s)) ++ ikcp_encode16u (u16 (seg_wnd s)) ++
  ikcp_encode32u (seg_ts s) ++ ikcp_encode32u (seg_sn s) ++
  ikcp_encode32u (seg_una s) ++ ikcp_encode32u (seg_len s).

Definition ikcp_getconv (ptr : list Z) : Z := fst (ikcp_decode32u ptr).

(** ** Creation and configuration *)

(** [ikcp_create].  [fastlimit], [nocwnd] and the others as assigned there;
    [ts_recent], [ts_lastack] are never read and not in the model. *)
Definition ikcp_create (conv_ : Z) : ikcpcb :=
  mk conv_ IKCP_MTU_DEF (u32 (IKCP_MTU_DEF - IKCP_OVERHEAD)) 0
     0 0 0 IKCP_THRESH_INIT
     0 0 IKCP_RTO_DEF IKCP_RTO_MIN
     IKCP_WND_SND IKCP_WND_RCV IKCP_WND_RCV 0 0
     0 IKCP_INTERVAL IKCP_INTERVAL 0
     0 0 0 0
     0 0 0 0 IKCP_DEADLINK 0
     [] [] [] []
     [] 0 0 ((IKCP_MTU_DEF + IKCP_OVERHEAD) * 3)
     0 IKCP_FASTACK_LIMIT 0 0 [].

(** The size of the buffer is computed in 32 bits without sign.  [ikcp_malloc]
    is taken not to fail. *)
Definition ikcp_setmtu (mtu_ : Z) (k : ikcpcb) : Z * ikcpcb :=
  if (mtu_ <? 50) || (mtu_ <? IKCP_OVERHEAD) then (-1, k) else
  let cap := u32 (u32 (mtu_ + IKCP_OVERHEAD) * 3) in
  let k := set_mtu (u32 mtu_) k in
  let k := set_mss (u32 (mtu k - IKCP_OVERHEAD)) k in
  (0, set_buffer cap k).

Definition ikcp_interval (interval_ : Z) (k : ikcpcb) : Z * ikcpcb :=
  let interval_ := if 5000 <? interval_ then 5000
                   else if interval_ <? 10 then 10 else interval_ in
  (0, set_interval interval_ k).

Definition ikcp_nodelay (nodelay_ interval_ resend nc : Z) (k : ikcpcb) : Z * ikcpcb :=
  let k := if 0 <=? nodelay_ then
             set_rx_minrto (if negb (nodelay_ =? 0) then IKCP_RTO_NDL else IKCP_RTO_MIN)
               (set_nodelay nodelay_ k)
           else k in
  let k := if 0 <=? interval_ then snd (ikcp_interval interval_ k) else k in
  let k := if 0 <=? resend then set_fastresend resend k else k in
  let k := if 0 <=? nc then set_nocwnd nc k else k in
  (0, k).

Definition ikcp_wndsize (sndwnd rcvwnd : Z) (k : ikcpcb) : Z * ikcpcb :=
  let k := if 0 <? sndwnd then set_snd_wnd sndwnd k else k in
  let k := if 0 <? rcvwnd then set_rcv_wnd (_imax_ rcvwnd IKCP_WND_RCV) k else k in
  (0, k).

Definition ikcp_waitsnd (k : ikcpcb) : Z := i32 (nsnd_buf k + nsnd_que k).

(** ** Receiving *)

(** The loop of [ikcp_peeksize] over the queue. *)
Fixpoint peek_sum (q : list IKCPSEG) (length_ : Z) : Z :=
  match q with
  | [] => length_
  | s :: q =>
      let length_ := i32 (length_ + seg_len s) in
      if seg_frg s =? 0 then length_ else peek_sum q length_
  end.

Definition ikcp_peeksize (k : ikcpcb) : Z :=
  match rcv_queue k with
  | [] => -1
  | s :: _ =>
      if seg_frg s =? 0 then i32 (seg_len s)
      else if nrcv_que k <? u32 (seg_frg s + 1) then -1
      else peek_sum (rcv_queue k) 0
  end.

(** "move available data from rcv_buf -> rcv_queue". *)
Fixpoint move_ready_f (buf : list IKCPSEG) (k : ikcpcb) : ikcpcb :=
  match buf with
  | [] => k
  | s :: buf =>
      if (seg_sn s =? rcv_nxt k) && (nrcv_que k <? rcv_wnd k) then
        let k := set_rcv_buf buf k in
        let k := set_nrcv_buf (u32 (nrcv_buf k - 1)) k in
        let k := set_rcv_queue (rcv_queue k ++ [s]) k in
        let k := set_nrcv_que (u32 (nrcv_que k + 1)) k in
        let k := set_rcv_nxt (u32 (rcv_nxt k + 1)) k in
        move_ready_f buf k
      else k
  end.
Definition move_ready (k : ikcpcb) : ikcpcb := move_ready_f (rcv_buf k) k.

(** The "merge fragment" loop of [ikcp_recv]: bytes copied, segments left in
    the queue, number of segments taken. *)
Fixpoint merge_fragments (q : list IKCPSEG) : list Z * list IKCPSEG * Z :=
  match q with
  | [] => ([], [], 0)
  | s :: q =>
      if seg_frg s =? 0 then (data s, q, 1)
      else let '(d, rest, n) := merge_fragments q in (data s ++ d, rest, n + 1)
  end.

(** [ikcp_recv(kcp, buffer, len)]: the return value, the bytes written to the
    buffer and the control block; a negative [len] peeks. *)
Definition ikcp_recv (len : Z) (k : ikcpcb) : option (Z * list Z * ikcpcb) :=
  let ispeek := len <? 0 in
  match rcv_queue k with
  | [] => Some (-1, [], k)
  | _ =>
      let len := if len <? 0 then - len else len in
      let peeksize := ikcp_peeksize k in
      if peeksize <? 0 then Some (-2, [], k)
      else if len <? peeksize then Some (-3, [], k)
      else
        let recover := rcv_wnd k <=? nrcv_que k in
        let '(d, rest, n) := merge_fragments (rcv_queue k) in
        let k := if negb ispeek
                 then set_nrcv_que (u32 (nrcv_que k - n)) (set_rcv_queue rest k)
                 else k in
        let len := i32 (Z.of_nat (length d)) in
        if negb (len =? peeksize) then None else
        let k := move_ready k in
        let k := if (nrcv_que k <? rcv_wnd k) && recover
                 then set_probe (Z.lor (probe k) IKCP_ASK_TELL) k else k in
        Some (len, d, k)
  end.

(** ** Sending *)

(** A new segment with the fields [ikcp_send] sets; the others are not
    initialised there and are set by [ikcp_flush] before they are read. *)
Definition new_seg (frg_ : Z) (d : list Z) : IKCPSEG :=
  mkseg 0 0 frg_ 0 0 0 0 (Z.of_nat (length d)) 0 0 0 0 d.

(** [memcpy] of the next [n] bytes of the caller's buffer. *)
Definition copy_in (n : Z) (buf : list Z) : option (list Z) :=
  if (Z.to_nat n <=? length buf)%nat then Some (take (Z.to_nat n) buf) else None.

(** The loop "fragment": [i] fragments remain to be queued of [count]. *)
Fixpoint fragment (i : nat) (buf : list Z) (len : Z) (k : ikcpcb) : option ikcpcb :=
  match i with
  | O => Some k
  | S i =>
      let size_ := if mss k <? len then mss k else len in
      d ← copy_in size_ buf;
      let s := new_seg (if stream k =? 0 then Z.of_nat i else 0) d in
      let k := set_snd_queue (snd_queue k ++ [s]) k in
      let k := set_nsnd_que (u32 (nsnd_que k + 1)) k in
      fragment i (drop (Z.to_nat size_) buf) (len - size_) k
  end.

(** "append to previous segment in streaming mode (if possible)": what is
    left of the caller's buffer and length. *)
Definition append_stream (buf : list Z) (len : Z) (k : ikcpcb) :
    option (list Z * Z * ikcpcb) :=
  match reverse (snd_queue k) with
  | [] => Some (buf, len, k)
  | old :: rq =>
      if seg_len old <? mss k then
        let capacity := mss k - seg_len old in
        let extend := if len <? capacity then len else capacity in
        d ← copy_in extend buf;
        let s := mkseg (seg_conv old) (seg_cmd old) 0 (seg_wnd old) (seg_ts old)
                   (seg_sn old) (seg_una old) (seg_len old + extend) (seg_resendts old)
                   (seg_rto old) (seg_fastack old) (seg_xmit old) (data old ++ d) in
        Some (drop (Z.to_nat extend) buf, len - extend,
              set_snd_queue (reverse rq ++ [s]) k)
      else Some (buf, len, k)
  end.

(** [ikcp_send(kcp, buffer, len)]. *)
Definition ikcp_send (buf : list Z) (len : Z) (k : ikcpcb) : option (Z * ikcpcb) :=
  if negb (0 <? mss k) then None else
  if len <? 0 then Some (-1, k) else
  '(buf, len, k) ←
    (if negb (stream k =? 0) then append_stream buf len k else Some (buf, len, k));
  if negb (stream k =? 0) && (len <=? 0) then Some (0, k) else
  let count := if len <=? mss k then 1 else (len + mss k - 1) / mss k in
  if IKCP_WND_RCV <=? count then Some (-2, k) else
  let count := if count =? 0 then 1 else count in
  k ← fragment (Z.to_nat count) buf len k;
  Some (0, k).

(** ** Acknowledgements *)

(** [ikcp_update_ack]: the round-trip estimate and the retransmission
    timeout. *)
Definition ikcp_update_ack (rtt : Z) (k : ikcpcb) : ikcpcb :=
  let k :=
    if rx_srtt k =? 0 then
      set_rx_rttval (Z.quot rtt 2) (set_rx_srtt rtt k)
    else
      let delta := i32 (rtt - rx_srtt k) in
      let delta := if delta <? 0 then - delta else delta in
      let k := set_rx_rttval (i32 (Z.quot (i32 (3 * rx_rttval k) + delta) 4)) k in
      let k := set_rx_srtt (Z.quot (i32 (7 * rx_srtt k + rtt)) 8) k in
      if rx_srtt k <? 1 then set_rx_srtt 1 k else k in
  let rto := i32 (rx_srtt k + _imax_ (interval k) (u32 (4 * rx_rttval k))) in
  set_rx_rto (i32 (_ibound_ (u32 (rx_minrto k)) (u32 rto) IKCP_RTO_MAX)) k.

Definition ikcp_shrink_buf (k : ikcpcb) : ikcpcb :=
  match snd_buf k with
  | s :: _ => set_snd_una (seg_sn s) k
  | [] => set_snd_una (snd_nxt k) k
  end.

(** The loop of [ikcp_parse_ack]: the list without the acknowledged segment,
    and whether one was removed. *)
Fixpoint remove_ack (sn : Z) (q : list IKCPSEG) : list IKCPSEG * bool :=
  match q with
  | [] => ([], false)
  | s :: q =>
      if sn =? seg_sn s then (q, true)
      else if _itimediff sn (seg_sn s) <? 0 then (s :: q, false)
      else let '(q', b) := remove_ack sn q in (s :: q', b)
  end.

Definition ikcp_parse_ack (sn : Z) (k : ikcpcb) : ikcpcb :=
  if (_itimediff sn (snd_una k) <? 0) || (0 <=? _itimediff sn (snd_nxt k)) then k
  else
    let '(q, removed) := remove_ack sn (snd_buf k) in
    let k := set_snd_buf q k in
    if removed : bool then set_nsnd_buf (u32 (nsnd_buf k - 1)) k else k.

(** The loop of [ikcp_parse_una]: the rest of the list and how many were
    removed. *)
Fixpoint drop_una (una : Z) (q : list IKCPSEG) : list IKCPSEG * Z :=
  match q with
  | [] => ([], 0)
  | s :: q =>
      if 0 <? _itimediff una (seg_sn s)
      then let '(q', n) := drop_una una q in (q', n + 1)
      else (s :: q, 0)
  end.

Definition ikcp_parse_una (una : Z) (k : ikcpcb) : ikcpcb :=
  let '(q, n) := drop_una una (snd_buf k) in
  set_nsnd_buf (u32 (nsnd_buf k - n)) (set_snd_buf q k).

Fixpoint bump_fastack (sn : Z) (q : list IKCPSEG) : list IKCPSEG :=
  match q with
  | [] => []
  | s :: q =>
      if _itimediff sn (seg_sn s) <? 0 then s :: q
      else if negb (sn =? seg_sn s)
           then sset_fastack (u32 (seg_fastack s + 1)) s :: bump_fastack sn q
           else s :: bump_fastack sn q
  end.

(** [ikcp_parse_fastack]; [IKCP_FASTACK_CONSERVE] is not defined, so the
    timestamp is not used. *)
Definition ikcp_parse_fastack (sn : Z) (k : ikcpcb) : ikcpcb :=
  if (_itimediff sn (snd_una k) <? 0) || (0 <=? _itimediff sn (snd_nxt k)) then k
  else set_snd_buf (bump_fastack sn (snd_buf k)) k.

(** [for (newblock = 8; newblock < newsize; newblock <<= 1)]; 29 doublings
    reach the largest 32-bit count. *)
Fixpoint grow_block (fuel : nat) (newblock newsize : Z) : Z :=
  match fuel with
  | O => newblock
  | S f => if newblock <? newsize then grow_block f (2 * newblock) newsize else newblock
  end.

(** [ikcp_ack_push]: the array grows when full, then gets the entry at index
    [ackcount]. *)
Definition ikcp_ack_push (sn ts : Z) (k : ikcpcb) : option ikcpcb :=
  let newsize := ackcount k + 1 in
  let k :=
    if ackblock k <? newsize then
      let newblock := grow_block 30 8 newsize in
      set_ackblock (u32 newblock)
        (set_acklist (take (Z.to_nat (ackcount k)) (acklist k) ++
                      replicate (Z.to_nat newblock - Z.to_nat (ackcount k)) (0, 0)) k)
    else k in
  if (Z.to_nat (ackcount k) <? length (acklist k))%nat
  then Some (set_ackcount (u32 (ackcount k + 1))
               (set_acklist (<[Z.to_nat (ackcount k) := (sn, ts)]> (acklist k)) k))
  else None.

Definition ikcp_ack_get (k : ikcpcb) (p : nat) : option (Z * Z) := acklist k !! p.

(** ** Input *)

(** The search of [ikcp_parse_data] from the tail of [rcv_buf] (here
    reversed) and the insertion; [None] when the segment is a repeat. *)
Fixpoint insert_rev (newseg : IKCPSEG) (q : list IKCPSEG) : option (list IKCPSEG) :=
  match q with
  | [] => Some [newseg]
  | s :: q' =>
      if seg_sn s =? seg_sn newseg then None
      else if 0 <? _itimediff (seg_sn newseg) (seg_sn s) then Some (newseg :: s :: q')
      else q'' ← insert_rev newseg q'; Some (s :: q'')
  end.

Definition ikcp_parse_data (newseg : IKCPSEG) (k : ikcpcb) : ikcpcb :=
  let sn := seg_sn newseg in
  if (0 <=? _itimediff sn (u32 (rcv_nxt k + rcv_wnd k))) ||
     (_itimediff sn (rcv_nxt k) <? 0) then k
  else
    let k := match insert_rev newseg (reverse (rcv_buf k)) with
             | Some q => set_nrcv_buf (u32 (nrcv_buf k + 1)) (set_rcv_buf (reverse q) k)
             | None => k
             end in
    move_ready k.

(** The fields of a received header, in wire order. *)
Record header : Type := mkhdr {
  h_conv : Z; h_cmd : Z; h_frg : Z; h_wnd : Z; h_ts : Z; h_sn : Z; h_una : Z; h_len : Z
}.
Definition decode_header (data_ : list Z) : header * list Z :=
  let '(conv_, p) := ikcp_decode32u data_ in
  let '(cmd, p) := ikcp_decode8u p in
  let '(frg, p) := ikcp_decode8u p in
  let '(wnd, p) := ikcp_decode16u p in
  let '(ts, p) := ikcp_decode32u p in
  let '(sn, p) := ikcp_decode32u p in
  let '(una, p) := ikcp_decode32u p in
  let '(len, p) := ikcp_decode32u p in
  (mkhdr conv_ cmd frg wnd ts sn una len, p).

(** The locals of [ikcp_input] that outlive an iteration. *)
Record ackstate : Type := mkack { flag : bool; maxack : Z; latest_ts : Z }.

(** [cmd == IKCP_CMD_ACK]. *)
Definition input_ack (h : header) (a : ackstate) (k : ikcpcb) : ackstate * ikcpcb :=
  let k := if 0 <=? _itimediff (current k) (h_ts h)
           then ikcp_update_ack (_itimediff (current k) (h_ts h)) k else k in
  let k := ikcp_shrink_buf (ikcp_parse_ack (h_sn h) k) in
  let a := if negb (flag a) then mkack true (h_sn h) (h_ts h)
           else if 0 <? _itimediff (h_sn h) (maxack a) then mkack true (h_sn h) (h_ts h)
           else a in
  (a, k).

(** [cmd == IKCP_CMD_PUSH], with the [len] bytes behind the header. *)
Definition input_push (h : header) (d : list Z) (k : ikcpcb) : option ikcpcb :=
  if _itimediff (h_sn h) (u32 (rcv_nxt k + rcv_wnd k)) <? 0 then
    k ← ikcp_ack_push (h_sn h) (h_ts h) k;
    if 0 <=? _itimediff (h_sn h) (rcv_nxt k) then
      Some (ikcp_parse_data
              (mkseg (h_conv h) (h_cmd h) (h_frg h) (h_wnd h) (h_ts h) (h_sn h)
                     (h_una h) (h_len h) 0 0 0 0 d) k)
    else Some k
  else Some k.

(** The [while (1)] loop; the fuel is the number of bytes, an iteration
    consumes at least [IKCP_OVERHEAD].  The result is the return code, [0]
    for [break]. *)
Fixpoint input_loop (fuel : nat) (data_ : list Z) (a : ackstate) (k : ikcpcb) :
    option (Z * ackstate * ikcpcb) :=
  if Z.of_nat (length data_) <? IKCP_OVERHEAD then Some (0, a, k) else
  match fuel with
  | O => None
  | S fuel =>
      let '(h, p) := decode_header data_ in
      if negb (h_conv h =? conv k) then Some (-1, a, k) else
      if (Z.of_nat (length p) <? h_len h) || (i32 (h_len h) <? 0) then Some (-2, a, k) else
      if negb (h_cmd h =? IKCP_CMD_PUSH) && negb (h_cmd h =? IKCP_CMD_ACK) &&
         negb (h_cmd h =? IKCP_CMD_WASK) && negb (h_cmd h =? IKCP_CMD_WINS)
      then Some (-3, a, k) else
      let k := set_rmt_wnd (h_wnd h) k in
      let k := ikcp_shrink_buf (ikcp_parse_una (h_una h) k) in
      let d := take (Z.to_nat (h_len h)) p in
      '(a, k) ←
        (if h_cmd h =? IKCP_CMD_ACK then Some (input_ack h a k)
         else if h_cmd h =? IKCP_CMD_PUSH then k ← input_push h d k; Some (a, k)
         else if h_cmd h =? IKCP_CMD_WASK
              then Some (a, set_probe (Z.lor (probe k) IKCP_ASK_TELL) k)
         else Some (a, k));
      input_loop fuel (drop (Z.to_nat (h_len h)) p) a k
  end.

(** The congestion window update at the end of [ikcp_input]. *)
Definition grow_cwnd (prev_una : Z) (k : ikcpcb) : ikcpcb :=
  if (0 <? _itimediff (snd_una k) prev_una) && (cwnd k <? rmt_wnd k) then
    let m := mss k in
    let k :=
      if cwnd k <? ssthresh k then
        set_incr (u32 (incr k + m)) (set_cwnd (u32 (cwnd k + 1)) k)
      else
        let k := if incr k <? m then set_incr m k else k in
        let k := set_incr (u32 (incr k + (u32 (m * m) / incr k + m / 16))) k in
        if u32 (u32 (cwnd k + 1) * m) <=? incr k then set_cwnd (u32 (cwnd k + 1)) k else k in
    if rmt_wnd k <? cwnd k
    then set_incr (u32 (rmt_wnd k * m)) (set_cwnd (rmt_wnd k) k) else k
  else k.

(** [ikcp_input(kcp, data, size)], for a non-null [data] of [size] bytes. *)
Definition ikcp_input (data_ : list Z) (k : ikcpcb) : option (Z * ikcpcb) :=
  let prev_una := snd_una k in
  if i32 (Z.of_nat (length data_)) <? IKCP_OVERHEAD then Some (-1, k) else
  '(ret, a, k) ← input_loop (length data_) data_ (mkack false 0 0) k;
  if negb (ret =? 0) then Some (ret, k) else
  let k := if flag a then ikcp_parse_fastack (maxack a) k else k in
  Some (0, grow_cwnd prev_una k).

(** ** Flush *)

Definition ikcp_wnd_unused (k : ikcpcb) : Z :=
  if nrcv_que k <? rcv_wnd k then i32 (rcv_wnd k - nrcv_que k) else 0.

(** [ikcp_output]: an empty datagram is not sent. *)
Definition ikcp_output (d : list Z) (k : ikcpcb) : ikcpcb :=
  if Nat.eqb (length d) 0 then k else set_outputs (outputs k ++ [d]) k.

(** Appending at [ptr]; [None] past the end of the buffer. *)
Definition put_out (d out : list Z) (k : ikcpcb) : option (list Z) :=
  if Z.of_nat (length out + length d) <=? buffer k then Some (out ++ d) else None.

(** "size + need > mtu": send what is in the buffer and start again. *)
Definition make_room (need : Z) (out : list Z) (k : ikcpcb) : list Z * ikcpcb :=
  if i32 (mtu k) <? Z.of_nat (length out) + need
  then ([], ikcp_output out k) else (out, k).

Definition put_header (s : IKCPSEG) (out : list Z) (k : ikcpcb) : option (list Z * ikcpcb) :=
  let '(out, k) := make_room IKCP_OVERHEAD out k in
  out ← put_out (ikcp_encode_seg s) out k;
  Some (out, k).

(** "flush acknowledges": entries [i] on, [n] of them. *)
Fixpoint flush_acks (n i : nat) (s : IKCPSEG) (out : list Z) (k : ikcpcb) :
    option (list Z * IKCPSEG * ikcpcb) :=
  match n with
  | O => Some (out, s, k)
  | S n =>
      let '(out, k) := make_room IKCP_OVERHEAD out k in
      '(sn, ts) ← ikcp_ack_get k i;
      let s := sset_ts ts (sset_sn sn s) in
      out ← put_out (ikcp_encode_seg s) out k;
      flush_acks n (S i) s out k
  end.

(** "probe window size (if remote window size equals zero)". *)
Definition update_probe (k : ikcpcb) : ikcpcb :=
  if rmt_wnd k =? 0 then
    if probe_wait k =? 0 then
      let k := set_probe_wait IKCP_PROBE_INIT k in
      set_ts_probe (u32 (current k + probe_wait k)) k
    else if 0 <=? _itimediff (current k) (ts_probe k) then
      let k := if probe_wait k <? IKCP_PROBE_INIT
               then set_probe_wait IKCP_PROBE_INIT k else k in
      let k := set_probe_wait (u32 (probe_wait k + probe_wait k / 2)) k in
      let k := if IKCP_PROBE_LIMIT <? probe_wait k
               then set_probe_wait IKCP_PROBE_LIMIT k else k in
      let k := set_ts_probe (u32 (current k + probe_wait k)) k in
      set_probe (Z.lor (probe k) IKCP_ASK_SEND) k
    else k
  else set_probe_wait 0 (set_ts_probe 0 k).

(** "move data from snd_queue to snd_buf", at most [fuel] segments. *)
Fixpoint move_to_buf (q : list IKCPSEG) (cwnd_ wnd : Z) (k : ikcpcb) : ikcpcb :=
  if _itimediff (snd_nxt k) (u32 (snd_una k + cwnd_)) <? 0 then
    match q with
    | [] => k
    | s :: q =>
        let k := set_snd_queue q k in
        let s := mkseg (conv k) IKCP_CMD_PUSH (seg_frg s) wnd (current k) (snd_nxt k)
                   (rcv_nxt k) (seg_len s) (current k) (u32 (rx_rto k)) 0 0 (data s) in
        let k := set_snd_buf (snd_buf k ++ [s]) k in
        let k := set_nsnd_que (u32 (nsnd_que k - 1)) k in
        let k := set_nsnd_buf (u32 (nsnd_buf k + 1)) k in
        let k := set_snd_nxt (u32 (snd_nxt k + 1)) k in
        move_to_buf q cwnd_ wnd k
    end
  else k.

(** The locals of the data loop. *)
Record floc : Type := mkfloc { change : Z; lost : bool }.

(** The three tests of the data loop: the segment as they leave it, whether
    it is to be sent, and the locals. *)
Definition check_resend (resent rtomin : Z) (s : IKCPSEG) (l : floc) (k : ikcpcb) :
    bool * IKCPSEG * floc * ikcpcb :=
  if seg_xmit s =? 0 then
    let s := sset_xmit (u32 (seg_xmit s + 1)) s in
    let s := sset_rto (u32 (rx_rto k)) s in
    let s := sset_resendts (u32 (current k + seg_rto s + rtomin)) s in
    (true, s, l, k)
  else if 0 <=? _itimediff (current k) (seg_resendts s) then
    let s := sset_xmit (u32 (seg_xmit s + 1)) s in
    let k := set_xmit (u32 (xmit k + 1)) k in
    let s := if nodelay k =? 0
             then sset_rto (u32 (seg_rto s + rx_rto k)) s
             else sset_rto (u32 (seg_rto s + Z.quot (rx_rto k) 2)) s in
    let s := sset_resendts (u32 (current k + seg_rto s)) s in
    (true, s, mkfloc (change l) true, k)
  else if resent <=? seg_fastack s then
    if (i32 (seg_xmit s) <=? fastlimit k) || (fastlimit k <=? 0) then
      let s := sset_xmit (u32 (seg_xmit s + 1)) s in
      let s := sset_fastack 0 s in
      let s := sset_resendts (u32 (current k + seg_rto s)) s in
      (true, s, mkfloc (change l + 1) (lost l), k)
    else (false, s, l, k)
  else (false, s, l, k).

(** "flush data segments", over the rest of [snd_buf]; returns the segments
    as left. *)
Fixpoint flush_data (q : list IKCPSEG) (resent rtomin wnd : Z) (out : list Z) (l : floc)
    (k : ikcpcb) : option (list IKCPSEG * list Z * floc * ikcpcb) :=
  match q with
  | [] => Some ([], out, l, k)
  | s :: q =>
      let '(needsend, s, l, k) := check_resend resent rtomin s l k in
      if (needsend : bool) then
        let s := sset_una (rcv_nxt k) (sset_wnd wnd (sset_ts (current k) s)) in
        let need := i32 (IKCP_OVERHEAD + seg_len s) in
        let '(out, k) := make_room need out k in
        out ← put_out (ikcp_encode_seg s) out k;
        out ← (if 0 <? seg_len s then put_out (data s) out k else Some out);
        let k := if dead_link k <=? seg_xmit s then set_state (u32 (-1)) k else k in
        '(q, out, l, k) ← flush_data q resent rtomin wnd out l k;
        Some (s :: q, out, l, k)
      else
        '(q, out, l, k) ← flush_data q resent rtomin wnd out l k;
        Some (s :: q, out, l, k)
  end.

(** "update ssthresh" and the lines after it. *)
Definition update_cwnd (resent cwnd_ : Z) (l : floc) (k : ikcpcb) : ikcpcb :=
  let k :=
    if negb (change l =? 0) then
      let inflight := u32 (snd_nxt k - snd_una k) in
      let k := set_ssthresh (inflight / 2) k in
      let k := if ssthresh k <? IKCP_THRESH_MIN then set_ssthresh IKCP_THRESH_MIN k else k in
      let k := set_cwnd (u32 (ssthresh k + resent)) k in
      set_incr (u32 (cwnd k * mss k)) k
    else k in
  let k :=
    if lost l then
      let k := set_ssthresh (cwnd_ / 2) k in
      let k := if ssthresh k <? IKCP_THRESH_MIN then set_ssthresh IKCP_THRESH_MIN k else k in
      set_incr (mss k) (set_cwnd 1 k)
    else k in
  if cwnd k <? 1 then set_incr (mss k) (set_cwnd 1 k) else k.

(** The first half of [ikcp_flush]: acknowledgements and window probes. *)
Definition flush_control (wnd : Z) (k : ikcpcb) : option (list Z * ikcpcb) :=
  let s := mkseg (conv k) IKCP_CMD_ACK 0 wnd 0 0 (rcv_nxt k) 0 0 0 0 0 [] in
  '(out, s, k) ← flush_acks (Z.to_nat (ackcount k)) 0 s [] k;
  let k := update_probe (set_ackcount 0 k) in
  '(out, k) ← (if negb (Z.land (probe k) IKCP_ASK_SEND =? 0)
               then put_header (sset_cmd IKCP_CMD_WASK s) out k else Some (out, k));
  '(out, k) ← (if negb (Z.land (probe k) IKCP_ASK_TELL =? 0)
               then put_header (sset_cmd IKCP_CMD_WINS s) out k else Some (out, k));
  Some (out, set_probe 0 k).

(** "calculate window size". *)
Definition send_window (k : ikcpcb) : Z :=
  let cwnd_ := _imin_ (snd_wnd k) (rmt_wnd k) in
  if nocwnd k =? 0 then _imin_ (cwnd k) cwnd_ else cwnd_.

(** "calculate resent". *)
Definition fast_resent (k : ikcpcb) : Z :=
  if 0 <? fastresend k then u32 (fastresend k) else 0xffffffff.
Definition rto_min (k : ikcpcb) : Z :=
  if nodelay k =? 0 then u32 (Z.shiftr (rx_rto k) 3) else 0.

(** The second half: data segments and the congestion window. *)
Definition flush_segments (wnd : Z) (out : list Z) (k : ikcpcb) : option ikcpcb :=
  let cwnd_ := send_window k in
  let k := move_to_buf (snd_queue k) cwnd_ wnd k in
  let resent := fast_resent k in
  '(q, out, l, k) ← flush_data (snd_buf k) resent (rto_min k) wnd out (mkfloc 0 false) k;
  let k := set_snd_buf q k in
  let k := if (0 <? Z.of_nat (length out)) then ikcp_output out k else k in
  Some (update_cwnd resent cwnd_ l k).

Definition ikcp_flush (k : ikcpcb) : option ikcpcb :=
  if updated k =? 0 then Some k else
  let wnd := u32 (ikcp_wnd_unused k) in
  '(out, k) ← flush_control wnd k;
  flush_segments wnd out k.

(** ** Timing *)

Definition ikcp_update (current_ : Z) (k : ikcpcb) : option ikcpcb :=
  let k := set_current current_ k in
  let k := if updated k =? 0 then set_ts_flush (current k) (set_updated 1 k) else k in
  let slap := _itimediff (current k) (ts_flush k) in
  let '(slap, k) := if (10000 <=? slap) || (slap <? -10000)
                    then (0, set_ts_flush (current k) k) else (slap, k) in
  if 0 <=? slap then
    let k := set_ts_flush (u32 (ts_flush k + interval k)) k in
    let k := if 0 <=? _itimediff (current k) (ts_flush k)
             then set_ts_flush (u32 (current k + interval k)) k else k in
    ikcp_flush k
  else Some k.

(** The loop of [ikcp_check]: [None] when a segment is due. *)
Fixpoint next_resend (q : list IKCPSEG) (current_ tm_packet : Z) : option Z :=
  match q with
  | [] => Some tm_packet
  | s :: q =>
      let diff := _itimediff (seg_resendts s) current_ in
      if diff <=? 0 then None
      else next_resend q current_ (if diff <? tm_packet then diff else tm_packet)
  end.

Definition ikcp_check (current_ : Z) (k : ikcpcb) : Z :=
  if updated k =? 0 then current_ else
  let ts_flush_ :=
    if (10000 <=? _itimediff current_ (ts_flush k)) ||
       (_itimediff current_ (ts_flush k) <? -10000) then current_ else ts_flush k in
  if 0 <=? _itimediff current_ ts_flush_ then current_ else
  let tm_flush := _itimediff ts_flush_ current_ in
  match next_resend (snd_buf k) current_ 0x7fffffff with
  | None => current_
  | Some tm_packet =>
      let minimal := u32 (if tm_packet <? tm_flush then tm_packet else tm_flush) in
      let minimal := if interval k <=? minimal then interval k else minimal in
      u32 (current_ + minimal)
  end.

End Kcp.
