(* ===== verification/KcpWire.v ===== *)
(** * KcpWire: what travels between two KCP control blocks

    The header codec of ikcp.cpp, the fragments a message is cut into, and the
    datagrams that carry nothing but genuine segments of a sender's stream. *)
From S2P Require Import Prelude Bytes Kcp.
Import Kcp.
#[local] Arguments le_bytes : simpl never.
#[local] Arguments wrap : simpl never.
#[local] Arguments sext : simpl never.

(** A fragment: its [frg] field (how many follow it in its message) and its
    payload.  The stream of a sender is the list of the fragments it queued;
    the index in it is the sequence number. *)
Abbreviation frag := (Z * list Z)%type.
Definition fd (s : IKCPSEG) : frag := (seg_frg s, data s).

(** The reduction of field reads of updated control blocks. *)
Ltac ksimpl :=
  cbn [conv mtu mss state snd_una snd_nxt rcv_nxt ssthresh rx_rttval rx_srtt rx_rto
    rx_minrto snd_wnd rcv_wnd rmt_wnd cwnd probe current interval ts_flush xmit nrcv_buf
    nsnd_buf nrcv_que nsnd_que nodelay updated ts_probe probe_wait dead_link incr
    snd_queue rcv_queue snd_buf rcv_buf acklist ackcount ackblock buffer fastresend
    fastlimit nocwnd stream outputs
    set_mtu set_mss set_state set_snd_una set_snd_nxt set_rcv_nxt set_ssthresh
    set_rx_rttval set_rx_srtt set_rx_rto set_rx_minrto set_snd_wnd set_rcv_wnd
    set_rmt_wnd set_cwnd set_probe set_current set_interval set_ts_flush set_xmit
    set_nrcv_buf set_nsnd_buf set_nrcv_que set_nsnd_que set_nodelay set_updated
    set_ts_probe set_probe_wait set_dead_link set_incr set_snd_queue set_rcv_queue
    set_snd_buf set_rcv_buf set_acklist set_ackcount set_ackblock set_buffer
    set_fastresend set_fastlimit set_nocwnd set_stream set_outputs
    seg_conv seg_cmd seg_frg seg_wnd seg_ts seg_sn seg_una seg_len seg_resendts seg_rto
    seg_fastack seg_xmit data sset_conv sset_cmd sset_frg sset_wnd sset_ts sset_sn
    sset_una sset_len sset_resendts sset_rto sset_fastack sset_xmit
    h_conv h_cmd h_frg h_wnd h_ts h_sn h_una h_len fst snd] in *.

(** ** Serial numbers *)
Lemma itimediff_small a b :
  -2 ^ 31 <= a - b < 2 ^ 31 -> _itimediff a b = a - b.
Proof. intros. apply sext_small; [lia|exact H]. Qed.

Lemma itimediff_wrap_r a b : _itimediff a (u32 b) = _itimediff a b.
Proof.
  unfold _itimediff. rewrite <- (sext_wrap _ (a - u32 b)), wrap_sub_r. apply sext_wrap.
Qed.

(** ** The header codec *)

(** The header a peer decodes from what [ikcp_encode_seg] wrote. *)
Definition wire_header (s : IKCPSEG) : header :=
  mkhdr (u32 (seg_conv s)) (u8 (seg_cmd s)) (u8 (seg_frg s)) (u16 (seg_wnd s))
    (u32 (seg_ts s)) (u32 (seg_sn s)) (u32 (seg_una s)) (u32 (seg_len s)).

Lemma encode_seg_length s : length (ikcp_encode_seg s) = 24%nat.
Proof.
  unfold ikcp_encode_seg, ikcp_encode8u, ikcp_encode16u, ikcp_encode32u.
  by rewrite !length_app, !le_bytes_length.
Qed.

Lemma take_le_bytes n z l : take n (le_bytes n z ++ l) = le_bytes n z.
Proof. apply take_app_length'. by rewrite le_bytes_length. Qed.

Lemma drop_le_bytes n z l : drop n (le_bytes n z ++ l) = l.
Proof. apply drop_app_length'. by rewrite le_bytes_length. Qed.

Lemma decode_encode_seg s rest :
  decode_header (ikcp_encode_seg s ++ rest) = (wire_header s, rest).
Proof.
  unfold decode_header, ikcp_encode_seg, ikcp_encode8u, ikcp_encode16u, ikcp_encode32u,
    ikcp_decode8u, ikcp_decode16u, ikcp_decode32u, wire_header.
  rewrite <- !app_assoc.
  repeat rewrite ?drop_le_bytes, ?take_le_bytes. rewrite !le_val_bytes.
  change (8 * Z.of_nat 1) with 8. change (8 * Z.of_nat 2) with 16.
  change (8 * Z.of_nat 4) with 32. by rewrite !wrap_idemp.
Qed.

(** ** Fragments of messages *)

Definition frag_ok (f : frag) : Prop :=
  0 <= fst f < 128 /\ Z.of_nat (length (snd f)) < 2 ^ 31.

(** [frags l m]: [l] is a complete message [m] in fragments, numbered down to
    0. *)
Inductive frags : list frag -> list Z -> Prop :=
  | frags_last d : frag_ok (0, d) -> frags [(0, d)] d
  | frags_more d l m :
      frags l m -> frag_ok (Z.of_nat (length l), d) ->
      frags ((Z.of_nat (length l), d) :: l) (d ++ m).

(** [framing S ms]: the stream [S] is the messages [ms], one after another. *)
Inductive framing : list frag -> list (list Z) -> Prop :=
  | framing_nil : framing [] []
  | framing_cons l m S ms : frags l m -> framing S ms -> framing (l ++ S) (m :: ms).

Lemma frags_head l m : frags l m -> exists d l', l = (Z.of_nat (length l) - 1, d) :: l'.
Proof. intros []; simpl length; eexists _, _; f_equal; f_equal; lia. Qed.

Lemma frags_bound l m : frags l m -> (1 <= length l <= 128)%nat.
Proof.
  intros [d H|d l' m' H [? ?]]; cbn [fst length] in *; lia.
Qed.

Lemma frags_det l m S l' m' S' :
  frags l m -> frags l' m' -> l ++ S = l' ++ S' -> l = l' /\ m = m' /\ S = S'.
Proof.
  intros H. revert l' m'. induction H as [d Hd|d l m H IH Hd]; intros l' m' H' E.
  - destruct H' as [d' ?|d' l' m' H' ?]; cbn in E; [by simplify_eq|].
    pose proof (frags_bound _ _ H'). simplify_eq. lia.
  - destruct H' as [d' ?|d' l' m' H' ?]; cbn in E.
    + pose proof (frags_bound _ _ H). simplify_eq. lia.
    + injection E as _ -> E. by destruct (IH _ _ H' E) as (-> & -> & ->).
Qed.

Lemma framing_app S ms T ns : framing S ms -> framing T ns -> framing (S ++ T) (ms ++ ns).
Proof.
  induction 1; intros; [done|]. rewrite <- app_assoc. constructor; auto.
Qed.

Lemma framing_snoc S ms l m : framing S ms -> frags l m -> framing (S ++ l) (ms ++ [m]).
Proof.
  intros. apply framing_app; [done|]. rewrite <- (app_nil_r l). constructor; [done|constructor].
Qed.

(** A framed prefix of a framed stream holds a prefix of its messages, and
    the rest is framed too. *)
Lemma framing_split S T ms ns :
  framing S ms -> framing (S ++ T) ns -> exists os, ns = ms ++ os /\ framing T os.
Proof.
  intros H. revert ns. induction H as [|l m S ms Hl HS IH]; intros ns Hn.
  - by exists ns.
  - rewrite <- app_assoc in Hn. inversion Hn as [E|l' m' S' ms' Hl' HS' E]; subst.
    { pose proof (frags_bound _ _ Hl). destruct l; simpl in *; [lia|done]. }
    destruct (frags_det _ _ _ _ _ _ Hl' Hl E) as (-> & -> & ->).
    destruct (IH _ HS') as (os & -> & ?). by exists os.
Qed.

Lemma frags_ok l m : frags l m -> Forall frag_ok l.
Proof. induction 1; auto. Qed.

Lemma framing_ok S ms : framing S ms -> Forall frag_ok S.
Proof. induction 1; [constructor|]. apply Forall_app. eauto using frags_ok. Qed.

Lemma framing_length S ms : framing S ms -> (length S <= 128 * length ms)%nat.
Proof.
  induction 1 as [|l m S ms Hl]; [done|]. rewrite length_app. cbn [length].
  pose proof (frags_bound _ _ Hl). lia.
Qed.

(** ** Genuine segments and datagrams *)

(** [s] carries the fragment of [S] its sequence number names. *)
Definition seg_ok (S : list frag) (s : IKCPSEG) : Prop :=
  0 <= seg_sn s /\ S !! Z.to_nat (seg_sn s) = Some (fd s) /\
  seg_len s = Z.of_nat (length (data s)).

(** A datagram made of control segments (no payload) and genuine data
    segments. *)
Inductive wire (S : list frag) : list Z -> Prop :=
  | wire_nil : wire S []
  | wire_ctl s rest :
      In (seg_cmd s) [IKCP_CMD_ACK; IKCP_CMD_WASK; IKCP_CMD_WINS] -> seg_len s = 0 ->
      wire S rest -> wire S (ikcp_encode_seg s ++ rest)
  | wire_push s rest :
      seg_cmd s = IKCP_CMD_PUSH -> seg_ok S s ->
      wire S rest -> wire S (ikcp_encode_seg s ++ data s ++ rest).

Lemma wire_app S d e : wire S d -> wire S e -> wire S (d ++ e).
Proof.
  induction 1; intros; rewrite <- ?app_assoc; [done|apply wire_ctl|apply wire_push]; auto.
Qed.

Lemma wire_ctl1 S s :
  In (seg_cmd s) [IKCP_CMD_ACK; IKCP_CMD_WASK; IKCP_CMD_WINS] -> seg_len s = 0 ->
  wire S (ikcp_encode_seg s).
Proof.
  intros. rewrite <- (app_nil_r (ikcp_encode_seg s)). apply wire_ctl; auto using wire_nil.
Qed.

Lemma wire_push1 S s :
  seg_cmd s = IKCP_CMD_PUSH -> seg_ok S s -> wire S (ikcp_encode_seg s ++ data s).
Proof. intros. rewrite <- (app_nil_r (data s)). apply wire_push; auto using wire_nil. Qed.

Lemma seg_ok_mono S T s : seg_ok S s -> seg_ok (S ++ T) s.
Proof. intros (? & ? & ?). repeat split; auto. by apply lookup_app_l_Some. Qed.

Lemma wire_mono S T d : wire S d -> wire (S ++ T) d.
Proof.
  induction 1; [apply wire_nil|apply wire_ctl|apply wire_push]; auto using seg_ok_mono.
Qed.

Create HintDb kcp.
#[export] Hint Resolve seg_ok_mono wire_mono wire_app wire_ctl1 wire_push1 wire_nil : kcp.
