(* ===== verification/KcpRecv.v ===== *)
(** * KcpRecv: the receive side of KCP

    The invariant of the receive queues (in-order, exactly once), that
    [ikcp_recv] returns whole messages, and that the reordering buffer loses
    nothing. *)
From stdpp Require Import sorting.
From S2P Require Import Prelude Bytes Kcp KcpWire.
Import Kcp.
#[local] Arguments wrap : simpl never.
#[local] Arguments sext : simpl never.
#[local] Arguments Z.of_nat : simpl never.

(** Streams short enough for the 32-bit sequence numbers not to wrap around,
    with a full receive window beyond them. *)
Definition stream_bound (S : list frag) : Prop := Z.of_nat (length S) < 2 ^ 31 - 65536.

(** The receiver has handed [done] fragments of [S] to its user; its queue
    holds the next ones. *)
Record rcv_inv (S : list frag) (done : nat) (k : ikcpcb) : Prop := mk_rcv_inv {
  ri_que : map fd (rcv_queue k) = take (length (rcv_queue k)) (drop done S);
  ri_lens : Forall (fun s => seg_len s = Z.of_nat (length (data s))) (rcv_queue k);
  ri_nxt : rcv_nxt k = Z.of_nat (done + length (rcv_queue k));
  ri_cnt : nrcv_que k = Z.of_nat (length (rcv_queue k));
  ri_buf : Forall (seg_ok S) (rcv_buf k);
  ri_done : (done <= length S)%nat
}.

(** What [rcv_inv] reads of the control block. *)
Definition rview (k : ikcpcb) := (rcv_queue k, rcv_nxt k, nrcv_que k, rcv_buf k).

Lemma rcv_inv_view S done k k' : rview k = rview k' -> rcv_inv S done k -> rcv_inv S done k'.
Proof.
  unfold rview. intros E [? ? ? ? ? ?]. injection E as E1 E2 E3 E4.
  constructor; rewrite <- ?E1, <- ?E2, <- ?E3, <- ?E4; done.
Qed.

Lemma rcv_inv_mono S T done k : rcv_inv S done k -> rcv_inv (S ++ T) done k.
Proof.
  intros [Hq ? ? ? Hb ?]. constructor; auto.
  - apply (f_equal length) in Hq as Hl. rewrite length_map, length_take, length_drop in Hl.
    rewrite Hq at 1. destruct (decide (length (rcv_queue k) = 0)%nat) as [->|]; [done|].
    rewrite drop_app_le by lia. rewrite take_app_le; [done|]. rewrite length_drop. lia.
  - eapply Forall_impl; [|done]. intros. by apply seg_ok_mono.
  - rewrite length_app. lia.
Qed.

Lemma rcv_inv_bound S done k :
  rcv_inv S done k -> (length (rcv_queue k) <= length S - done)%nat.
Proof.
  intros [Hq _ _ _ _ _]. apply (f_equal length) in Hq.
  rewrite length_map, length_take, length_drop in Hq. lia.
Qed.

Lemma rcv_inv_create S c : rcv_inv S 0 (ikcp_create c).
Proof. constructor; cbn; auto with lia. Qed.

(** ** Moving from the buffer to the queue *)

(** One iteration of the loop. *)
Definition move_one (s : IKCPSEG) (buf : list IKCPSEG) (k : ikcpcb) : ikcpcb :=
  let k := set_rcv_buf buf k in
  let k := set_nrcv_buf (u32 (nrcv_buf k - 1)) k in
  let k := set_rcv_queue (rcv_queue k ++ [s]) k in
  let k := set_nrcv_que (u32 (nrcv_que k + 1)) k in
  set_rcv_nxt (u32 (rcv_nxt k + 1)) k.

Lemma move_ready_f_cons s buf k :
  move_ready_f (s :: buf) k =
    if (seg_sn s =? rcv_nxt k) && (nrcv_que k <? rcv_wnd k)
    then move_ready_f buf (move_one s buf k) else k.
Proof. reflexivity. Qed.

Lemma move_one_inv S done s buf k :
  stream_bound S -> rcv_buf k = s :: buf -> seg_sn s = rcv_nxt k -> rcv_inv S done k ->
  rcv_inv S done (move_one s buf k) /\ rcv_nxt (move_one s buf k) = rcv_nxt k + 1.
Proof.
  intros HS Hbuf Hsn I. pose proof (rcv_inv_bound _ _ _ I) as Hle.
  destruct I as [Hq Hlen Hn Hc Hb Hdn]. rewrite Hbuf in Hb.
  apply Forall_cons_iff in Hb as [(Hs0 & Hs1 & Hs2) Hb].
  assert (drop done S !! length (rcv_queue k) = Some (fd s)) as Hat.
  { rewrite lookup_drop, <- Hs1. f_equal. lia. }
  pose proof (lookup_lt_Some _ _ _ Hat) as Hlt. rewrite length_drop in Hlt.
  unfold stream_bound in HS.
  assert (rcv_nxt (move_one s buf k) = rcv_nxt k + 1) as En.
  { unfold move_one. ksimpl. apply wrap_small. unfold in_u. lia. }
  split; [|done]. constructor; rewrite ?En; unfold move_one; ksimpl.
  - rewrite map_app, length_app, Hq, Nat.add_1_r. by rewrite (take_S_r _ _ _ Hat).
  - apply Forall_app. auto.
  - rewrite length_app. cbn [length]. lia.
  - rewrite length_app. cbn [length]. rewrite wrap_small by (unfold in_u; lia). lia.
  - done.
  - done.
Qed.

Lemma move_ready_f_inv S done buf k :
  stream_bound S -> rcv_buf k = buf -> rcv_inv S done k ->
  rcv_inv S done (move_ready_f buf k).
Proof.
  intros HS. revert k. induction buf as [|s buf IH]; intros k Hbuf I; [done|].
  rewrite move_ready_f_cons. split_if; [|done]. bool_arith. apply IH; [done|].
  by apply move_one_inv.
Qed.

Lemma move_ready_inv S done k :
  stream_bound S -> rcv_inv S done k -> rcv_inv S done (move_ready k).
Proof. intros. by apply move_ready_f_inv. Qed.

(** ** Input *)

Lemma insert_rev_Forall P s q q' :
  insert_rev s q = Some q' -> P s -> Forall P q -> Forall P q'.
Proof.
  intros H Hs. revert q' H. induction q as [|t q IH]; cbn [insert_rev]; intros q' H Hq.
  - simplify_eq. auto.
  - apply Forall_cons_iff in Hq as [? ?]. do 2 (split_if_in H; [by simplify_eq; auto|]).
    destruct (insert_rev s q) eqn:E1; cbn in H; simplify_eq. constructor; eauto.
Qed.

Lemma parse_data_inv S done s k :
  stream_bound S -> seg_ok S s -> rcv_inv S done k -> rcv_inv S done (ikcp_parse_data s k).
Proof.
  intros HS Hs I. unfold ikcp_parse_data. split_if; [done|].
  apply move_ready_inv; [done|].
  destruct (insert_rev s (reverse (rcv_buf k))) as [q|] eqn:E1; [|done].
  destruct I. constructor; ksimpl; auto.
  apply Forall_reverse. eapply insert_rev_Forall; eauto. by apply Forall_reverse.
Qed.

Lemma ack_push_view sn ts k k' : ikcp_ack_push sn ts k = Some k' -> rview k' = rview k.
Proof.
  unfold ikcp_ack_push. intros H. repeat split_if_in H; simplify_eq; reflexivity.
Qed.

Lemma parse_una_view una k : rview (ikcp_shrink_buf (ikcp_parse_una una k)) = rview k.
Proof.
  unfold ikcp_shrink_buf, ikcp_parse_una. destruct (drop_una una _).
  ksimpl. by destruct l.
Qed.

Lemma input_ack_view h a k : rview (snd (input_ack h a k)) = rview k.
Proof.
  unfold input_ack, ikcp_shrink_buf, ikcp_parse_ack, ikcp_update_ack. cbn [snd].
  destruct (0 <=? _); (destruct (_ || _); [|destruct (remove_ack _ _) as [q []]]);
    repeat (ksimpl; split_if || case_match); try reflexivity; ksimpl; reflexivity.
Qed.

Lemma wire_header_small S s :
  stream_bound S -> Forall frag_ok S -> seg_ok S s ->
  h_sn (wire_header s) = seg_sn s /\ h_frg (wire_header s) = seg_frg s /\
  h_len (wire_header s) = seg_len s /\ i32 (seg_len s) = seg_len s.
Proof.
  intros HS HF (? & Hl & Hlen). unfold stream_bound in HS.
  pose proof (lookup_lt_Some _ _ _ Hl). pose proof (Forall_lookup_1 _ _ _ _ HF Hl) as [Hf Hd].
  unfold fd in *. cbn [fst snd] in *. cbn [h_sn h_frg h_len wire_header].
  repeat split; try apply wrap_small; try apply sext_small; unfold in_u, in_i; lia.
Qed.

Lemma input_push_inv S done s k k' :
  stream_bound S -> Forall frag_ok S -> seg_ok S s -> rcv_inv S done k ->
  input_push (wire_header s) (data s) k = Some k' -> rcv_inv S done k'.
Proof.
  intros HS HF Hs I. unfold input_push.
  destruct (wire_header_small S s HS HF Hs) as (Esn & Efrg & Elen & _).
  split_if; [|by intros; simplify_eq].
  destruct (ikcp_ack_push _ _ k) as [k1|] eqn:Ek; cbn [mbind option_bind]; [|done].
  apply ack_push_view in Ek. apply (rcv_inv_view _ _ _ k1) in I; [|done].
  split_if; intros; simplify_eq; [|done].
  apply parse_data_inv; auto. rewrite Esn, Efrg, Elen. by destruct Hs as (? & ? & ?).
Qed.

Lemma view_input_head h k :
  rview (ikcp_shrink_buf (ikcp_parse_una (h_una h) (set_rmt_wnd (h_wnd h) k))) = rview k.
Proof. by rewrite parse_una_view. Qed.

Lemma ctl_header s :
  In (seg_cmd s) [IKCP_CMD_ACK; IKCP_CMD_WASK; IKCP_CMD_WINS] -> seg_len s = 0 ->
  h_len (wire_header s) = 0 /\ h_cmd (wire_header s) <> IKCP_CMD_PUSH.
Proof.
  intros H Hl. cbn [h_len h_cmd wire_header]. rewrite Hl. split; [done|].
  cbn [In] in H. destruct H as [<-|[<-|[<-|[]]]]; vm_compute; discriminate.
Qed.

(** The loop of [ikcp_input] over a genuine datagram. *)
Lemma input_loop_inv S done fuel d a k r a' k' :
  stream_bound S -> Forall frag_ok S -> wire S d -> rcv_inv S done k ->
  input_loop fuel d a k = Some (r, a', k') -> rcv_inv S done k'.
Proof.
  intros HS HF. revert d a k.
  induction fuel as [|fuel IH]; intros d a k Hw I; cbn [input_loop];
    (split_if; [by intros; simplify_eq|]); [done|].
  destruct Hw as [|s rest Hc Hl Hw|s rest Hc Hs Hw]; [done|..].
  - rewrite decode_encode_seg. destruct (ctl_header s Hc Hl) as [El Ec].
    do 3 (split_if; [by intros; simplify_eq|]).
    rewrite El. change (Z.to_nat 0) with 0%nat. rewrite drop_0.
    apply Z.eqb_neq in Ec. rewrite Ec.
    apply (rcv_inv_view _ _ _ _ (eq_sym (view_input_head (wire_header s) k))) in I.
    split_if; cbn [mbind option_bind].
    + destruct (input_ack _ _ _) as [a1 k1] eqn:Ek. apply IH; [done|].
      eapply rcv_inv_view; [|exact I]. symmetry. change k1 with (snd (a1, k1)).
      rewrite <- Ek. apply input_ack_view.
    + split_if; cbn [mbind option_bind]; apply IH; [done| |done|done].
      by eapply rcv_inv_view; [|exact I].
  - rewrite decode_encode_seg.
    destruct (wire_header_small S s HS HF Hs) as (Esn & Efrg & Elen & _).
    do 3 (split_if; [by intros; simplify_eq|]).
    assert (h_cmd (wire_header s) = IKCP_CMD_PUSH) as Ec by (cbn [h_cmd wire_header]; by rewrite Hc).
    rewrite Ec, Elen. destruct Hs as (? & ? & Hlen). rewrite Hlen, Nat2Z.id.
    rewrite take_app_exact, drop_app_exact.
    change (IKCP_CMD_PUSH =? IKCP_CMD_ACK) with false. rewrite Z.eqb_refl. cbn iota.
    apply (rcv_inv_view _ _ _ _ (eq_sym (view_input_head (wire_header s) k))) in I.
    destruct (input_push _ _ _) as [k1|] eqn:Ek; cbn [mbind option_bind]; [|done].
    apply IH; [done|]. by eapply input_push_inv; eauto; repeat split.
Qed.

Lemma fastack_cwnd_view a u k :
  rview (grow_cwnd u (if flag a then ikcp_parse_fastack (maxack a) k else k)) = rview k.
Proof.
  unfold grow_cwnd, ikcp_parse_fastack.
  repeat (split_if || ksimpl); reflexivity.
Qed.

Lemma input_inv S done d k r k' :
  stream_bound S -> Forall frag_ok S -> wire S d -> rcv_inv S done k ->
  ikcp_input d k = Some (r, k') -> rcv_inv S done k'.
Proof.
  intros HS HF Hw I. unfold ikcp_input. split_if; [by intros; simplify_eq|].
  destruct (input_loop _ _ _ _) as [[[r1 a1] k1]|] eqn:El; cbn [mbind option_bind]; [|done].
  pose proof (input_loop_inv _ _ _ _ _ _ _ _ _ HS HF Hw I El) as I1.
  split_if; intros; simplify_eq; [done|].
  eapply rcv_inv_view; [|exact I1]. symmetry. apply fastack_cwnd_view.
Qed.

(** ** [ikcp_recv] *)

Lemma merge_frags l m q1 q2 :
  frags l m -> map fd q1 = l ->
  merge_fragments (q1 ++ q2) = (m, q2, Z.of_nat (length l)).
Proof.
  intros H. revert q1. induction H as [d Hd|d l m H IH Hd]; intros [|s q1] E;
    try discriminate; injection E as Ef Ed E; cbn [merge_fragments app].
  - apply map_eq_nil in E. subst. by rewrite Ef.
  - pose proof (frags_bound _ _ H). rewrite (IH q1 E), Ef, Ed.
    replace (Z.of_nat (length l) =? 0) with false by (symmetry; apply Z.eqb_neq; lia).
    cbn [length]. do 2 f_equal. lia.
Qed.

Lemma peek_frags l m q1 q2 acc :
  frags l m -> map fd q1 = l ->
  Forall (fun s => seg_len s = Z.of_nat (length (data s))) q1 ->
  peek_sum (q1 ++ q2) acc = i32 (acc + Z.of_nat (length m)).
Proof.
  intros H. revert q1 acc. induction H as [d Hd|d l m H IH Hd]; intros [|s q1] acc E HF;
    try discriminate; injection E as Ef Ed E; apply Forall_cons_iff in HF as [Hl HF];
    cbn [peek_sum app].
  - by rewrite Ef, Hl, Ed.
  - pose proof (frags_bound _ _ H). rewrite Ef, Hl, Ed, IH by done.
    replace (Z.of_nat (length l) =? 0) with false by (symmetry; apply Z.eqb_neq; lia).
    rewrite length_app, sext_add_l by lia. f_equal. lia.
Qed.

(** The call of [ikcp_recv] when the fragments [l] of the message [m] are the
    next ones of the stream. *)
Definition recv_result (l : list frag) (m : list Z) (len : Z) (k : ikcpcb) (r : Z)
    (d : list Z) : Prop :=
  if (length (rcv_queue k) =? 0)%nat then r = -1 /\ d = []
  else if (length (rcv_queue k) <? length l)%nat then r = -2 /\ d = []
  else if Z.abs len <? Z.of_nat (length m) then r = -3 /\ d = []
  else r = Z.of_nat (length m) /\ d = m.

Lemma rcv_queue_split S done k l T :
  rcv_inv S done k -> drop done S = l ++ T -> (length l <= length (rcv_queue k))%nat ->
  map fd (take (length l) (rcv_queue k)) = l.
Proof.
  intros [Hq _ _ _ _ _] HT Hle. rewrite HT in Hq.
  rewrite <- firstn_map, Hq, take_take, Nat.min_l by done. apply take_app_exact.
Qed.

Lemma peeksize_spec S done k l m T :
  stream_bound S -> rcv_inv S done k -> drop done S = l ++ T -> frags l m ->
  Z.of_nat (length m) < 2 ^ 31 -> rcv_queue k <> [] ->
  ikcp_peeksize k =
    if (length (rcv_queue k) <? length l)%nat then -1 else Z.of_nat (length m).
Proof.
  intros HS I HT Hl Hm Hne. pose proof (frags_bound _ _ Hl) as Hb.
  pose proof (rcv_inv_bound _ _ _ I) as Hle. unfold stream_bound in HS.
  unfold ikcp_peeksize. destruct (rcv_queue k) as [|s q] eqn:Eq; [done|].
  pose proof I as [Hq Hlen _ Hc _ _]. rewrite Eq in Hq, Hlen, Hc.
  destruct (frags_head _ _ Hl) as (d & l' & El).
  assert (seg_frg s = Z.of_nat (length l) - 1 /\ data s = d) as [Hf Hd].
  { rewrite HT, El in Hq. cbn [length map take app] in Hq. by injection Hq as -> ->. }
  case_match eqn:E0; bool_arith.
  - assert (length l = 1%nat) as E1 by lia.
    apply Forall_cons_iff in Hlen as [Hlen _]. rewrite Hlen, Hd.
    destruct Hl as [d' ?|]; [|cbn in E1; pose proof (frags_bound _ _ Hl); lia].
    injection El as <- <-. cbn [length]. rewrite (proj2 (Nat.ltb_ge _ _)) by lia.
    apply sext_small; [lia|]. unfold in_i. lia.
  - rewrite Hc, Hf, wrap_small by (unfold in_u; lia).
    destruct (Nat.ltb_spec (length (s :: q)) (length l)).
    + by rewrite (proj2 (Z.ltb_lt _ _)) by lia.
    + rewrite (proj2 (Z.ltb_ge _ _)) by lia.
      rewrite <- (take_drop (length l) (s :: q)).
      erewrite peek_frags; [|done| |by apply Forall_take].
      * apply sext_small; [lia|]. unfold in_i. lia.
      * rewrite <- Eq. eapply rcv_queue_split; eauto. by rewrite Eq.
Qed.

(** Taking the first fragments out of the queue. *)
Lemma rcv_inv_take S done k n :
  rcv_inv S done k -> stream_bound S -> (n <= length (rcv_queue k))%nat ->
  rcv_inv S (done + n)
    (set_nrcv_que (u32 (nrcv_que k - Z.of_nat n)) (set_rcv_queue (drop n (rcv_queue k)) k)).
Proof.
  intros I HS Hn. pose proof (rcv_inv_bound _ _ _ I). destruct I as [Hq Hlen Hx Hc Hb Hdn].
  unfold stream_bound in HS. constructor; ksimpl; rewrite ?length_drop; auto.
  - rewrite <- skipn_map, Hq, skipn_firstn_comm, drop_drop. by rewrite ?(Nat.add_comm n).
  - by apply Forall_drop.
  - rewrite Hx. lia.
  - rewrite Hc, wrap_small by (unfold in_u; lia). lia.
  - lia.
Qed.

Lemma recv_cases S done k l m T len :
  stream_bound S -> rcv_inv S done k -> drop done S = l ++ T -> frags l m ->
  Z.of_nat (length m) < 2 ^ 31 ->
  exists r d k', ikcp_recv len k = Some (r, d, k') /\ recv_result l m len k r d /\
    rcv_inv S (if ((0 <=? r) && (0 <=? len))%Z then done + length l else done)%nat k'.
Proof.
  intros HS I HT Hl Hm. unfold recv_result, ikcp_recv.
  destruct (rcv_queue k) as [|s q] eqn:Eq; [by eexists _, _, _|].
  rewrite (peeksize_spec _ _ _ _ _ _ HS I HT Hl Hm) by (by rewrite Eq). rewrite Eq.
  replace (if len <? 0 then - len else len) with (Z.abs len) by (split_if; bool_arith; lia).
  change (length (s :: q) =? 0)%nat with false. cbn iota.
  destruct (Nat.ltb_spec (length (s :: q)) (length l)) as [Hlt|Hge].
  { by eexists _, _, _. }
  rewrite (proj2 (Z.ltb_ge _ 0)) by lia.
  split_if; [by eexists _, _, _|].
  assert (map fd (take (length l) (s :: q)) = l) as Ht.
  { rewrite <- Eq. eapply rcv_queue_split; eauto. by rewrite Eq. }
  assert (merge_fragments (s :: q) = (m, drop (length l) (s :: q), Z.of_nat (length l))) as ->.
  { rewrite <- (merge_frags l m _ _ Hl Ht). by rewrite take_drop. }
  assert (i32 (Z.of_nat (length m)) = Z.of_nat (length m)) as ->
    by (apply sext_small; unfold in_i; lia).
  rewrite Z.eqb_refl. cbn [negb].
  eexists _, _, _. split; [reflexivity|]. split; [done|].
  rewrite (proj2 (Z.leb_le 0 _)) by lia. cbn [andb].
  match goal with |- rcv_inv S ?n (if ?b then _ else _) =>
    cut (rcv_inv S n (move_ready
      (if negb (len <? 0) then set_nrcv_que (u32 (nrcv_que k - Z.of_nat (length l)))
         (set_rcv_queue (drop (length l) (s :: q)) k) else k))) end.
  { intros I'. destruct (_ && (rcv_wnd k <=? nrcv_que k)); [|done].
    by eapply rcv_inv_view; [|exact I']. }
  apply move_ready_inv; [done|].
  destruct (Z.ltb_spec len 0); cbn [negb].
  - by rewrite (proj2 (Z.leb_gt 0 len)).
  - rewrite (proj2 (Z.leb_le 0 len)) by lia. rewrite <- Eq.
    apply rcv_inv_take; auto. by rewrite Eq.
Qed.

(** ** The reordering buffer *)

Definition sn_desc (s t : IKCPSEG) : Prop := seg_sn t < seg_sn s.

(** The buffer is ordered, without repeats, and holds nothing already
    queued. *)
Record rcv_ord (k : ikcpcb) : Prop := mk_rcv_ord {
  ro_sorted : StronglySorted sn_desc (reverse (rcv_buf k));
  ro_low : Forall (fun s => rcv_nxt k <= seg_sn s) (rcv_buf k)
}.

(** The segment [i] was queued or waits in the buffer. *)
Definition stored (i : Z) (k : ikcpcb) : Prop :=
  i < rcv_nxt k \/ exists s, s ∈ rcv_buf k /\ seg_sn s = i.

(** Nothing in the buffer could be queued. *)
Definition settled (k : ikcpcb) : Prop :=
  match rcv_buf k with
  | [] => True
  | s :: _ => seg_sn s <> rcv_nxt k \/ rcv_wnd k <= nrcv_que k
  end.

Lemma insert_rev_None s q : insert_rev s q = None -> exists t, t ∈ q /\ seg_sn t = seg_sn s.
Proof.
  induction q as [|t q IH]; cbn [insert_rev]; [done|].
  split_if; [intros _; exists t; bool_arith; split; [left|done]|].
  split_if; [done|]. destruct (insert_rev s q); [done|]. intros _.
  destruct IH as (t' & ? & ?); [done|]. exists t'. split; [by right|done].
Qed.

Lemma insert_rev_perm s q q' : insert_rev s q = Some q' -> q' ≡ₚ s :: q.
Proof.
  revert q'. induction q as [|t q IH]; cbn [insert_rev]; intros q' H; [by simplify_eq|].
  do 2 (split_if_in H; [by simplify_eq|]).
  destruct (insert_rev s q); cbn in H; simplify_eq. rewrite (IH _ eq_refl). constructor.
Qed.

Lemma insert_rev_sorted s q q' :
  insert_rev s q = Some q' -> Forall (fun t => Z.abs (seg_sn s - seg_sn t) < 2 ^ 31) q ->
  StronglySorted sn_desc q -> StronglySorted sn_desc q'.
Proof.
  revert q'. induction q as [|t q IH]; cbn [insert_rev]; intros q' H Hr Hs.
  { simplify_eq. repeat constructor. }
  apply Forall_cons_iff in Hr as [Ht Hr]. split_if_in H; [done|].
  rewrite itimediff_small in H by lia. split_if_in H; bool_arith; simplify_eq.
  - constructor; [done|]. apply StronglySorted_inv in Hs as [_ Hs].
    constructor; [unfold sn_desc; lia|]. eapply Forall_impl; [|done].
    unfold sn_desc. intros. cbn in *. lia.
  - destruct (insert_rev s q) as [q1|] eqn:E1; cbn in H; simplify_eq.
    apply StronglySorted_inv in Hs as [Hs Hf]. constructor; [eauto|].
    rewrite (insert_rev_perm _ _ _ E1). constructor; [unfold sn_desc; lia|done].
Qed.

Lemma move_ready_f_ord S done buf k :
  stream_bound S -> rcv_buf k = buf -> rcv_inv S done k -> rcv_ord k ->
  rcv_ord (move_ready_f buf k) /\ settled (move_ready_f buf k) /\
  (forall i, stored i k -> stored i (move_ready_f buf k)) /\
  rcv_wnd (move_ready_f buf k) = rcv_wnd k.
Proof.
  intros HS. revert k. induction buf as [|s buf IH]; intros k Hbuf I O.
  { cbn [move_ready_f]. unfold settled. by rewrite Hbuf. }
  rewrite move_ready_f_cons. split_if.
  2: { unfold settled. rewrite Hbuf. repeat split; auto; [apply O..|].
       apply andb_false_iff in E as [?|?]; bool_arith; [left|right]; lia. }
  bool_arith. destruct (move_one_inv S done s buf k HS Hbuf) as [I1 En]; [lia|done|].
  destruct O as [Os Ol]. rewrite Hbuf in Os. rewrite reverse_cons in Os.
  destruct (IH (move_one s buf k)) as (O1 & S1 & St1 & W1); [done..| |].
  - constructor; [by eapply StronglySorted_app_1_l|]. rewrite En. unfold move_one; ksimpl.
    apply Forall_forall. intros t Ht.
    assert (sn_desc t s) as Hts.
    { eapply StronglySorted_app_1_elem_of; [exact Os|by apply elem_of_reverse, list_elem_of_In|by left]. }
    unfold sn_desc in Hts. lia.
  - repeat split; auto; [apply O1..|]. intros i [Hi|(t & Ht & <-)]; apply St1.
    + left. lia.
    + rewrite Hbuf in Ht. apply elem_of_cons in Ht as [->|Ht]; [left; lia|right; eauto].
Qed.

(** A genuine segment is dropped, or stored before the buffer is emptied. *)
Lemma parse_data_store S done s k :
  stream_bound S -> seg_ok S s -> rcv_inv S done k -> rcv_ord k -> 0 <= rcv_wnd k < 65536 ->
  ikcp_parse_data s k = k /\ (seg_sn s < rcv_nxt k + rcv_wnd k -> seg_sn s < rcv_nxt k) \/
  exists k1, ikcp_parse_data s k = move_ready k1 /\ rcv_inv S done k1 /\ rcv_ord k1 /\
    (forall i, stored i k -> stored i k1) /\ stored (seg_sn s) k1 /\
    rcv_wnd k1 = rcv_wnd k /\ rcv_nxt k1 = rcv_nxt k /\ nrcv_que k1 = nrcv_que k.
Proof.
  intros HS Hs I O Hw. unfold ikcp_parse_data.
  assert (0 <= rcv_nxt k < 2 ^ 31 - 65536) as Hn.
  { pose proof (rcv_inv_bound _ _ _ I). destruct I. unfold stream_bound in HS. lia. }
  assert (0 <= seg_sn s < 2 ^ 31 - 65536) as Hsn.
  { destruct Hs as (? & Hs & _). apply lookup_lt_Some in Hs. unfold stream_bound in HS. lia. }
  rewrite itimediff_wrap_r, !itimediff_small by lia. split_if.
  { left. split; [done|]. intros. apply orb_true_iff in E as [?|?]; bool_arith; lia. }
  right. set (k1 := match insert_rev _ _ with Some _ => _ | None => _ end). exists k1. split; [done|].
  subst k1. destruct (insert_rev s (reverse (rcv_buf k))) as [q|] eqn:Eq.
  - pose proof (insert_rev_perm _ _ _ Eq) as Hp. destruct O as [Os Ol]. bool_arith.
    pose proof I as [? ? ? ? Hb ?].
    assert (reverse q ≡ₚ s :: rcv_buf k) as Hp'
      by (rewrite reverse_Permutation, Hp, reverse_Permutation; done).
    repeat split; ksimpl; auto; rewrite ?Hp', ?reverse_involutive; auto.
    + eapply insert_rev_sorted; [exact Eq| |done]. rewrite reverse_Permutation.
      eapply Forall_impl; [|exact Hb]. intros t (? & Ht & _).
      apply lookup_lt_Some in Ht. unfold stream_bound in HS. lia.
    + constructor; [lia|done].
    + intros i [Hi|(t & Ht & Hi)]; [by left|right]. exists t. ksimpl. rewrite Hp'.
      split; [by right|done].
    + right. exists s. ksimpl. rewrite Hp'. split; [by left|done].
  - apply insert_rev_None in Eq as (t & Ht & Hts). do 3 (split; [done|]).
    split; [|done]. right. exists t. split; [by apply elem_of_reverse|done].
Qed.

(** A genuine segment inside the window is kept, and nothing is lost. *)
Lemma parse_data_ord S done s k :
  stream_bound S -> seg_ok S s -> rcv_inv S done k -> rcv_ord k ->
  0 <= rcv_wnd k < 65536 ->
  let k' := ikcp_parse_data s k in
  rcv_ord k' /\ (settled k -> settled k') /\ (forall i, stored i k -> stored i k') /\
  (seg_sn s < rcv_nxt k + rcv_wnd k -> stored (seg_sn s) k') /\
  rcv_wnd k' = rcv_wnd k.
Proof.
  intros HS Hs I O Hw. cbn zeta.
  destruct (parse_data_store _ _ _ _ HS Hs I O Hw) as [[-> Hn]|(k1 & -> & I1 & O1 & St1 & Ss1 & W1 & _ & _)].
  { split_and!; [done..| |done]. intros ?. left. auto. }
  destruct (move_ready_f_ord _ _ _ k1 HS eq_refl I1 O1) as (O2 & S2 & St2 & W2).
  unfold move_ready. split_and!; auto. by rewrite W2.
Qed.

(** ** Properties *)
Module KcpRecvProps.

(** The segments [l] arriving one after another. *)
Definition arrive (l : list IKCPSEG) (k : ikcpcb) : ikcpcb :=
  foldl (fun k s => ikcp_parse_data s k) k l.

Lemma arrive_keeps S l k :
  stream_bound S -> Forall (seg_ok S) l -> Z.of_nat (length S) <= rcv_wnd k < 65536 ->
  rcv_inv S 0 k -> rcv_ord k -> settled k ->
  rcv_inv S 0 (arrive l k) /\ rcv_ord (arrive l k) /\ settled (arrive l k) /\
  rcv_wnd (arrive l k) = rcv_wnd k /\
  (forall i, stored i k \/ In i (map seg_sn l) -> stored i (arrive l k)).
Proof.
  intros HS. revert k. induction l as [|s l IH]; intros k Hl Hw I O St.
  { do 4 (split; [done|]). intros i [?|[]]. done. }
  apply Forall_cons_iff in Hl as [Hs Hl].
  destruct (parse_data_ord S 0 s k HS Hs I O) as (O1 & S1 & St1 & Ss1 & W1); [lia|].
  assert (seg_sn s < Z.of_nat (length S)).
  { destruct Hs as (? & Hs & _). apply lookup_lt_Some in Hs. lia. }
  assert (0 <= rcv_nxt k) by (destruct I; lia).
  destruct (IH (ikcp_parse_data s k)) as (I2 & O2 & S2 & W2 & St2);
    [done|by rewrite W1|by apply parse_data_inv|done|auto|].
  cbn [arrive foldl map In] in *. do 3 (split; [done|]). split; [by etransitivity|].
  intros i [?|[<-|?]]; apply St2; auto. left. apply Ss1. lia.
Qed.

(**  Reordering.  Whatever the order in which the segments of a stream that
    fits the receive window arrive, and however often each is repeated, once
    each has arrived [rcv_queue] is the stream in order and [rcv_buf] is
    empty. *)
Theorem reorder_complete S c sw rw l :
  stream_bound S -> Forall (seg_ok S) l -> 0 < rw < 65536 ->
  Z.of_nat (length S) <= rw ->
  (forall i, (i < length S)%nat -> In (Z.of_nat i) (map seg_sn l)) ->
  let k := arrive l (snd (ikcp_wndsize sw rw (ikcp_create c))) in
  map fd (rcv_queue k) = S /\ rcv_buf k = [] /\ rcv_nxt k = Z.of_nat (length S).
Proof.
  intros HS Hl Hrw Hlen Hall. cbn zeta.
  set (k0 := snd (ikcp_wndsize sw rw (ikcp_create c))).
  assert (rcv_inv S 0 k0 /\ rcv_ord k0 /\ settled k0 /\ rw <= rcv_wnd k0 < 65536)
    as (I0 & O0 & S0 & W0).
  { subst k0. unfold ikcp_wndsize. rewrite (proj2 (Z.ltb_lt 0 rw)) by lia.
    split; [eapply rcv_inv_view; [|apply (rcv_inv_create S c)]; by destruct (0 <? sw)|].
    split; [|split]; [split; destruct (0 <? sw); constructor|by destruct (0 <? sw)|].
    unfold _imax_, IKCP_WND_RCV. ksimpl. split_if; bool_arith; lia. }
  destruct (arrive_keeps S l k0) as (I & O & St & W & Hst); auto; [lia|].
  set (k := arrive l k0) in *. pose proof (rcv_inv_bound _ _ _ I) as Hb.
  assert (length S <= length (rcv_queue k))%nat as Hge.
  { destruct (le_lt_dec (length S) (length (rcv_queue k))) as [|Hlt]; [done|exfalso].
    destruct (Hst _ (or_intror (Hall _ Hlt))) as [Hi|(s & Hs & Hi)];
      [destruct I; cbn in *; lia|].
    unfold settled in St. destruct O as [Os Ol]. destruct I as [_ _ Hn Hc _ _].
    destruct (rcv_buf k) as [|t q] eqn:Eq; [by apply elem_of_nil in Hs|].
    rewrite reverse_cons in Os. apply Forall_cons_iff in Ol as [Ht _].
    destruct St as [St|St]; [|lia].
    apply elem_of_cons in Hs as [->|Hs]; [cbn in *; lia|].
    assert (sn_desc s t) as Hd.
    { eapply StronglySorted_app_1_elem_of; [exact Os|by apply elem_of_reverse|by left]. }
    unfold sn_desc in Hd. cbn in *. lia. }
  destruct I as [Hq _ Hn _ Hbuf _]. split; [|split].
  - rewrite Hq, drop_0. apply take_ge. lia.
  - destruct (rcv_buf k) as [|t q] eqn:Eq; [done|exfalso].
    apply Forall_cons_iff in Hbuf as [(_ & Ht & _) _]. apply lookup_lt_Some in Ht.
    destruct O as [_ Ol]. rewrite Eq in Ol. apply Forall_cons_iff in Ol as [Ol _].
    cbn in *. lia.
  - rewrite Hn. cbn. lia.
Qed.

(** A two-fragment message, and its segments. *)
Definition demo_stream : list frag := [(1, [10; 11]); (0, [12])].
Definition demo_seg (i : nat) : IKCPSEG :=
  match demo_stream !! i with
  | Some (f, d) => mkseg 0 IKCP_CMD_PUSH f 0 0 (Z.of_nat i) 0 (Z.of_nat (length d)) 0 0 0 0 d
  | None => mkseg 0 0 0 0 0 0 0 0 0 0 0 0 []
  end.

Lemma demo_seg_ok i : (i < 2)%nat -> seg_ok demo_stream (demo_seg i).
Proof. intros H. destruct i as [|[|i]]; [by split|by split|lia]. Qed.

Lemma demo_frags : frags demo_stream [10; 11; 12].
Proof.
  apply (frags_more [10; 11] [(0, [12])] [12]); [apply frags_last|];
    (split; vm_compute; try done; by split).
Qed.

Lemma reorder_complete_witness :
  let l := [demo_seg 1; demo_seg 0; demo_seg 1] in
  let k := arrive l (snd (ikcp_wndsize 32 128 (ikcp_create 1))) in
  map fd (rcv_queue k) = demo_stream /\ rcv_buf k = [] /\ rcv_nxt k = 2.
Proof.
  apply (reorder_complete demo_stream 1 32 128 [demo_seg 1; demo_seg 0; demo_seg 1]).
  - vm_compute. reflexivity.
  - repeat constructor; apply demo_seg_ok; lia.
  - lia.
  - vm_compute. discriminate.
  - intros [|[|i]] Hi; [right; left; reflexivity|left; reflexivity|cbn in Hi; lia].
Defined.

(**  [ikcp_recv] hands out exactly the next message of the stream when all its
    fragments are queued and the buffer is large enough, an error code
    otherwise; it never fails its assertion, and a negative length only
    peeks. *)
Theorem ikcp_recv_correct S done k l m T len :
  stream_bound S -> rcv_inv S done k -> drop done S = l ++ T -> frags l m ->
  Z.of_nat (length m) < 2 ^ 31 ->
  exists r d k', ikcp_recv len k = Some (r, d, k') /\
    (r = if (length (rcv_queue k) =? 0)%nat then -1
         else if (length (rcv_queue k) <? length l)%nat then -2
         else if Z.abs len <? Z.of_nat (length m) then -3
         else Z.of_nat (length m)) /\
    d = (if 0 <=? r then m else []) /\
    rcv_inv S (if ((0 <=? r) && (0 <=? len))%Z then done + length l else done)%nat k'.
Proof.
  intros HS I HT Hl Hm.
  destruct (recv_cases S done k l m T len HS I HT Hl Hm) as (r & d & k' & E & R & I').
  exists r, d, k'. split; [done|]. revert R. unfold recv_result.
  destruct (length (rcv_queue k) =? 0)%nat; [by intros [-> ->]|].
  destruct (length (rcv_queue k) <? length l)%nat; [by intros [-> ->]|].
  destruct (Z.abs len <? _); [by intros [-> ->]|].
  intros [-> ->]. split; [done|]. split; [|done]. by rewrite (proj2 (Z.leb_le 0 _)) by lia.
Qed.

Lemma ikcp_recv_correct_witness :
  let k := ikcp_parse_data (demo_seg 1) (ikcp_parse_data (demo_seg 0) (ikcp_create 1)) in
  exists r d k', ikcp_recv 100 k = Some (r, d, k') /\ r = 3 /\ d = (if 0 <=? r then [10; 11; 12] else []) /\
    rcv_inv demo_stream (if ((0 <=? r) && (0 <=? 100))%Z then 0 + 2 else 0)%nat k'.
Proof.
  cbn zeta. destruct (ikcp_recv_correct demo_stream 0
    (ikcp_parse_data (demo_seg 1) (ikcp_parse_data (demo_seg 0) (ikcp_create 1)))
    demo_stream [10; 11; 12] [] 100) as (r & d & k' & E & Hr & Hd & I).
  - vm_compute. reflexivity.
  - do 2 (apply parse_data_inv; [vm_compute; reflexivity|apply demo_seg_ok; lia|]).
    apply rcv_inv_create.
  - reflexivity.
  - apply demo_frags.
  - vm_compute. reflexivity.
  - exists r, d, k'. split; [exact E|]. split; [rewrite Hr; vm_compute; reflexivity|].
    split; [exact Hd|exact I].
Defined.

End KcpRecvProps.
