(* ===== verification/KcpSend.v ===== *)
(** * KcpSend: the send side of KCP

    Fragmentation in [ikcp_send], what acknowledgements do to the send
    buffer, and [ikcp_flush]: it never writes outside its buffer, every
    datagram fits the MTU and carries only genuine segments. *)
From S2P Require Import Prelude Bytes Kcp KcpWire.
Import Kcp.
#[local] Arguments wrap : simpl never.
#[local] Arguments sext : simpl never.
#[local] Arguments Z.of_nat : simpl never.

(** The parts of the control block the send side keeps, and the list of
    pending acknowledgements. *)
Definition sview (k : ikcpcb) :=
  (snd_queue k, snd_nxt k, outputs k, stream k, mtu k, mss k, buffer k, conv k).
Definition aview (k : ikcpcb) := (acklist k, ackcount k, ackblock k).

(** What no operation on a queued segment changes. *)
Definition payload (s : IKCPSEG) :=
  (seg_cmd s, seg_frg s, seg_sn s, seg_len s, data s, seg_conv s).

(** ** Invariants *)

(** A segment that fits the MTU, with its true length. *)
Definition seg_sz (max : Z) (s : IKCPSEG) : Prop :=
  seg_len s = Z.of_nat (length (data s)) /\ seg_len s <= max.

(** Memory safety: the output buffer is the one of [mtu], and every queued
    segment fits it. *)
Record mem_inv (k : ikcpcb) : Prop := mk_mem_inv {
  mi_mtu : 50 <= mtu k < 2 ^ 31;
  mi_mss : mss k = mtu k - IKCP_OVERHEAD;
  mi_buffer : buffer k = (mtu k + IKCP_OVERHEAD) * 3;
  mi_que : Forall (seg_sz (mss k)) (snd_queue k);
  mi_buf : Forall (seg_sz (mss k)) (snd_buf k);
  mi_ack : 0 <= ackcount k <= ackblock k;
  mi_blk : Z.of_nat (length (acklist k)) = ackblock k;
  mi_blk_max : ackblock k <= 2 ^ 31
}.

(** The sender: the segments with numbers below [snd_nxt] were given their
    sequence number, the others wait in [snd_queue]. *)
Record snd_inv (S : list frag) (k : ikcpcb) : Prop := mk_snd_inv {
  si_nxt : 0 <= snd_nxt k <= Z.of_nat (length S);
  si_que : map fd (snd_queue k) = drop (Z.to_nat (snd_nxt k)) S;
  si_len : Forall (fun s => seg_len s = Z.of_nat (length (data s))) (snd_queue k);
  si_buf : Forall (fun s => seg_cmd s = IKCP_CMD_PUSH /\ seg_ok S s) (snd_buf k);
  si_stream : stream k = 0
}.

(** Everything it ever sent is genuine. *)
Definition outs_ok (S : list frag) (k : ikcpcb) : Prop := Forall (wire S) (outputs k).

(** Datagrams of at most [mtu] bytes. *)
Definition outs_small (k : ikcpcb) : Prop :=
  Forall (fun d => Z.of_nat (length d) <= mtu k) (outputs k).

Lemma mem_inv_view k k' :
  sview k' = sview k -> aview k' = aview k ->
  Forall (seg_sz (mss k)) (snd_buf k') -> mem_inv k -> mem_inv k'.
Proof.
  unfold sview, aview. intros E1 E2 Hb [? ? ? ? ? ? ? ?]. injection E1 as E3 E4 E5 E6 E7 E8 E9 F10.
  injection E2 as E10 E11 E12.
  constructor; rewrite ?E3, ?E4, ?E7, ?E8, ?E9, ?E10, ?E11, ?E12; done.
Qed.

Lemma snd_inv_view S k k' :
  sview k' = sview k ->
  Forall (fun s => seg_cmd s = IKCP_CMD_PUSH /\ seg_ok S s) (snd_buf k') ->
  snd_inv S k -> snd_inv S k'.
Proof.
  unfold sview. intros E1 Hb [? ? ? ? ?]. injection E1 as E3 E4 E5 E6 E7 E8 E9 E10.
  constructor; rewrite ?E3, ?E4, ?E5, ?E6; done.
Qed.

Lemma mem_inv_create c : mem_inv (ikcp_create c).
Proof. constructor; try (cbn; constructor); vm_compute; try done; by split. Qed.

Lemma snd_inv_create c : snd_inv [] (ikcp_create c).
Proof. constructor; cbn; try constructor; done. Qed.

(** A predicate that only reads the payload. *)
Class PayloadPred (P : IKCPSEG -> Prop) : Prop :=
  payload_pred : forall s s', payload s = payload s' -> P s -> P s'.

#[export] Instance seg_sz_payload max : PayloadPred (seg_sz max).
Proof. unfold payload. intros s s' E [H1 H2]. injection E as E1 E2 E3 E4 E5 _. split; congruence. Qed.

#[export] Instance push_ok_payload S :
  PayloadPred (fun s => seg_cmd s = IKCP_CMD_PUSH /\ seg_ok S s).
Proof.
  unfold payload, seg_ok, fd. intros s s' E (H1 & H2 & H3 & H4). injection E as E1 E2 E3 E4 E5 _.
  rewrite <- E1, <- E2, <- E3, <- E4, <- E5. auto.
Qed.

(** ** Acknowledgements *)

Lemma drop_una_suffix una q : exists p, q = p ++ fst (drop_una una q) /\
  snd (drop_una una q) = Z.of_nat (length p) /\
  Forall (fun s => 0 < _itimediff una (seg_sn s)) p.
Proof.
  induction q as [|s q IH]; cbn [drop_una]; [by exists []|].
  case_match eqn:E; [|by exists []]. bool_arith. destruct IH as (p & Eq & En & Hp).
  destruct (drop_una una q) as [q' n]. exists (s :: p). cbn [fst snd app length] in *.
  subst q n. split; [done|]. split; [lia|by constructor].
Qed.

Lemma remove_ack_spec sn q :
  remove_ack sn q = (q, false) \/
  exists p s t, q = p ++ s :: t /\ seg_sn s = sn /\ remove_ack sn q = (p ++ t, true).
Proof.
  induction q as [|s q IH]; cbn [remove_ack]; [by left|].
  case_match eqn:E; bool_arith; [right; by exists [], s, q|].
  case_match; [by left|]. destruct IH as [->|(p & s' & t & -> & Hs & ->)]; [by left|].
  right. by exists (s :: p), s', t.
Qed.

Lemma remove_ack_Forall P sn q : Forall P q -> Forall P (fst (remove_ack sn q)).
Proof.
  intros H. destruct (remove_ack_spec sn q) as [->|(p & s & t & -> & _ & ->)]; [done|].
  apply Forall_app in H as [? Hs]. apply Forall_cons_iff in Hs as [_ ?]. by apply Forall_app.
Qed.

Lemma bump_fastack_Forall P `{!PayloadPred P} sn q : Forall P q -> Forall P (bump_fastack sn q).
Proof.
  induction 1 as [|s q Hs Hq IH]; cbn [bump_fastack]; [done|].
  repeat case_match; constructor; auto. by eapply payload_pred; [|exact Hs].
Qed.

Lemma parse_una_buf P una k :
  Forall P (snd_buf k) -> Forall P (snd_buf (ikcp_shrink_buf (ikcp_parse_una una k))).
Proof.
  unfold ikcp_shrink_buf, ikcp_parse_una. destruct (drop_una_suffix una (snd_buf k)) as (p & E & _).
  intros H. rewrite E in H. destruct (drop_una una (snd_buf k)) as [q n].
  apply Forall_app in H as [_ H]. ksimpl. by destruct q.
Qed.

Lemma parse_una_sview una k :
  sview (ikcp_shrink_buf (ikcp_parse_una una k)) = sview k /\
  aview (ikcp_shrink_buf (ikcp_parse_una una k)) = aview k.
Proof.
  unfold ikcp_shrink_buf, ikcp_parse_una. destruct (drop_una una _) as [[] n]; by ksimpl.
Qed.

Lemma update_ack_view rtt k :
  sview (ikcp_update_ack rtt k) = sview k /\ aview (ikcp_update_ack rtt k) = aview k /\
  snd_buf (ikcp_update_ack rtt k) = snd_buf k.
Proof.
  unfold ikcp_update_ack. destruct (rx_srtt k =? 0); [by ksimpl|].
  repeat (case_match || ksimpl); done.
Qed.

Lemma parse_ack_view sn k :
  let k' := ikcp_shrink_buf (ikcp_parse_ack sn k) in
  sview k' = sview k /\ aview k' = aview k /\
  snd_buf k' = (if (_itimediff sn (snd_una k) <? 0) || (0 <=? _itimediff sn (snd_nxt k))
                then snd_buf k else fst (remove_ack sn (snd_buf k))).
Proof.
  cbn zeta. unfold ikcp_parse_ack.
  destruct (_ || _); [|destruct (remove_ack sn (snd_buf k)) as [q [|]]];
    unfold ikcp_shrink_buf; ksimpl; case_match eqn:E; ksimpl; rewrite ?E; done.
Qed.

Lemma input_ack_sview P h a k :
  let k' := snd (input_ack h a k) in
  sview k' = sview k /\ aview k' = aview k /\ (Forall P (snd_buf k) -> Forall P (snd_buf k')).
Proof.
  cbn zeta. unfold input_ack. cbn [snd].
  set (k1 := if 0 <=? _ then _ else _).
  assert (sview k1 = sview k /\ aview k1 = aview k /\ snd_buf k1 = snd_buf k) as (E1 & E2 & E3).
  { subst k1. case_match; [apply update_ack_view|done]. }
  destruct (parse_ack_view (h_sn h) k1) as (F1 & F2 & F3).
  rewrite F1, F2, F3, E1, E2, E3. do 2 (split; [done|]). intros H.
  case_match; [done|]. by apply remove_ack_Forall.
Qed.

(** ** Input *)

Lemma grow_block_ge fuel b n :
  0 < b -> n <= b * 2 ^ Z.of_nat fuel ->
  n <= grow_block fuel b n /\ grow_block fuel b n <= Z.max b (2 * n).
Proof.
  revert b. induction fuel as [|fuel IH]; intros b Hb Hn; cbn [grow_block].
  { change (2 ^ Z.of_nat 0) with 1 in Hn. lia. }
  case_match eqn:E; bool_arith; [|lia].
  destruct (IH (2 * b)) as [H1 H2]; [lia| |lia].
  rewrite Nat2Z.inj_succ, Z.pow_succ_r in Hn by lia. lia.
Qed.

Lemma ack_push_ok sn ts k :
  mem_inv k -> ackcount k + 1 < 2 ^ 30 ->
  exists k', ikcp_ack_push sn ts k = Some k' /\ sview k' = sview k /\
    snd_buf k' = snd_buf k /\ mem_inv k' /\ ackcount k' = ackcount k + 1.
Proof.
  intros M Ha. unfold ikcp_ack_push.
  set (k1 := if _ : bool then set_ackblock _ _ else k).
  assert (sview k1 = sview k /\ snd_buf k1 = snd_buf k /\ ackcount k1 = ackcount k /\
          Z.of_nat (length (acklist k1)) = ackblock k1 /\ ackcount k + 1 <= ackblock k1 <= 2 ^ 31)
    as (E1 & E2 & E3 & E4 & E5).
  { subst k1. destruct M. case_match eqn:E; bool_arith; [|repeat split; auto; lia].
    destruct (grow_block_ge 30 8 (ackcount k + 1)) as [G1 G2]; [lia..|].
    ksimpl. rewrite wrap_small by (unfold in_u; lia).
    rewrite length_app, length_take, length_replicate. repeat split; lia. }
  rewrite (proj2 (Nat.ltb_lt _ _)) by (rewrite E3; destruct M; lia).
  eexists. split; [done|]. unfold sview in E1. injection E1 as F1 F2 F3 F4 F5 F6 F7 F8.
  assert (u32 (ackcount k1 + 1) = ackcount k + 1) as Ew.
  { rewrite E3. apply wrap_small. destruct M. unfold in_u. lia. }
  split; [unfold sview; ksimpl; congruence|]. split; [done|]. split; [|done].
  destruct M. constructor; ksimpl; rewrite ?Ew, ?length_insert, ?F1, ?F5, ?F6, ?F7, ?E2;
    auto; lia.
Qed.

Lemma move_ready_f_sview buf k :
  sview (move_ready_f buf k) = sview k /\ aview (move_ready_f buf k) = aview k /\
  snd_buf (move_ready_f buf k) = snd_buf k.
Proof.
  revert k. induction buf as [|s buf IH]; intros k; cbn [move_ready_f]; [done|].
  case_match; [|done]. match goal with |- context [move_ready_f _ ?k1] =>
    destruct (IH k1) as (-> & -> & ->) end. done.
Qed.

Lemma parse_data_sview s k :
  sview (ikcp_parse_data s k) = sview k /\ aview (ikcp_parse_data s k) = aview k /\
  snd_buf (ikcp_parse_data s k) = snd_buf k.
Proof.
  unfold ikcp_parse_data, move_ready. case_match; [done|].
  match goal with |- context [move_ready_f _ ?k1] =>
    destruct (move_ready_f_sview (rcv_buf k1) k1) as (-> & -> & ->) end.
  by case_match.
Qed.

Lemma input_push_ok P h d k :
  mem_inv k -> ackcount k + 1 < 2 ^ 30 -> Forall P (snd_buf k) ->
  exists k', input_push h d k = Some k' /\ sview k' = sview k /\
    Forall P (snd_buf k') /\ mem_inv k' /\ ackcount k' <= ackcount k + 1.
Proof.
  intros M Ha HP. unfold input_push. case_match; [|exists k; repeat (split; [done|]); lia].
  destruct (ack_push_ok (h_sn h) (h_ts h) k M Ha) as (k1 & -> & E1 & E2 & M1 & E3).
  cbn [mbind option_bind]. case_match; [|exists k1; rewrite E2; repeat (split; [done|]); lia].
  eexists. split; [done|].
  match goal with |- context [ikcp_parse_data ?s k1] =>
    destruct (parse_data_sview s k1) as (F1 & F2 & F3) end.
  rewrite F1, F3, E1, E2. do 2 (split; [done|]). split.
  - eapply mem_inv_view; [done..| |done]. rewrite F3. apply M1.
  - unfold aview in F2. injection F2 as _ -> _. lia.
Qed.

(** The loop of [ikcp_input], over any bytes. *)
Lemma input_loop_ok P `{!PayloadPred P} fuel d a k :
  (length d <= fuel)%nat -> bytes_ok d -> mem_inv k -> Forall P (snd_buf k) ->
  ackcount k + Z.of_nat (length d) < 2 ^ 30 ->
  exists r a' k', input_loop fuel d a k = Some (r, a', k') /\ sview k' = sview k /\
    Forall P (snd_buf k') /\ mem_inv k'.
Proof.
  revert d a k. induction fuel as [|fuel IH]; intros d a k Hd Hb M HP Ha; cbn [input_loop];
    (case_match eqn:E; [by eexists _, _, _|]); bool_arith; unfold IKCP_OVERHEAD in E; [lia|].
  destruct (decode_header d) as [h p] eqn:Eh.
  assert (length p + 24 = length d)%nat as Hp.
  { unfold decode_header, ikcp_decode8u, ikcp_decode16u, ikcp_decode32u in Eh.
    injection Eh as _ <-. rewrite !length_drop. lia. }
  assert (bytes_ok p) as Hbp.
  { unfold decode_header, ikcp_decode8u, ikcp_decode16u, ikcp_decode32u in Eh.
    injection Eh as _ <-. by repeat apply bytes_ok_drop. }
  do 3 (case_match; [by eexists _, _, _|]).
  set (k1 := ikcp_shrink_buf _).
  destruct (parse_una_sview (h_una h) (set_rmt_wnd (h_wnd h) k)) as [E1 E2].
  assert (Forall P (snd_buf k1)) as HP1 by (by apply parse_una_buf).
  fold k1 in E1, E2.
  assert (mem_inv k1) as M1.
  { eapply mem_inv_view; [exact E1|exact E2| |by eapply mem_inv_view; [..|exact M]; try apply M].
    apply parse_una_buf. apply M. }
  assert (ackcount k1 = ackcount k) as Ea by (unfold aview in E2; by injection E2).
  assert (length (drop (Z.to_nat (h_len h)) p) <= length p)%nat by (rewrite length_drop; lia).
  assert (forall a2 k2, sview k2 = sview k1 -> Forall P (snd_buf k2) -> mem_inv k2 ->
    ackcount k2 <= ackcount k1 + 1 ->
    exists r a' k', input_loop fuel (drop (Z.to_nat (h_len h)) p) a2 k2 = Some (r, a', k') /\
      sview k' = sview k /\ Forall P (snd_buf k') /\ mem_inv k') as Hnext.
  { intros a2 k2 F1 F2 M2 Ha2. destruct (IH (drop (Z.to_nat (h_len h)) p) a2 k2)
      as (r & a' & k' & -> & G1 & ? & ?); [lia|by apply bytes_ok_drop|done|done|lia|].
    eexists _, _, _. split; [done|]. rewrite G1, F1. done. }
  case_match; [|case_match; [|case_match]]; cbn [mbind option_bind].
  - destruct (input_ack_sview P h a k1) as (F1 & F2 & F3).
    destruct (input_ack_sview (seg_sz (mss k1)) h a k1) as (_ & _ & F4).
    destruct (input_ack h a k1) as [a2 k2]. cbn [snd] in *. apply Hnext; auto.
    + eapply mem_inv_view; [done|done|apply F4, M1|done].
    + unfold aview in F2. injection F2 as _ -> _. lia.
  - destruct (input_push_ok P h (take (Z.to_nat (h_len h)) p) k1 M1) as
      (k2 & -> & F1 & F2 & M2 & ?); [lia|done|]. by apply Hnext.
  - apply Hnext; [done|done| |cbn; lia]. apply (mem_inv_view k1); [done|done|apply M1|exact M1].
  - apply Hnext; auto. lia.
Qed.

Lemma grow_cwnd_sview u k :
  sview (grow_cwnd u k) = sview k /\ aview (grow_cwnd u k) = aview k /\
  snd_buf (grow_cwnd u k) = snd_buf k.
Proof. unfold grow_cwnd. repeat (case_match || ksimpl); done. Qed.

Lemma input_ok P `{!PayloadPred P} d k :
  bytes_ok d -> mem_inv k -> Forall P (snd_buf k) ->
  ackcount k + Z.of_nat (length d) < 2 ^ 30 ->
  exists r k', ikcp_input d k = Some (r, k') /\ sview k' = sview k /\
    Forall P (snd_buf k') /\ mem_inv k'.
Proof.
  intros Hb M HP Ha. unfold ikcp_input. case_match; [by eexists _, _|].
  destruct (input_loop_ok P (length d) d (mkack false 0 0) k) as (r & a & k1 & -> & E1 & E2 & M1);
    auto.
  cbn [mbind option_bind]. case_match; [by eexists _, _|]. eexists _, _. split; [done|].
  set (k2 := if flag a then _ else k1).
  assert (sview k2 = sview k1 /\ aview k2 = aview k1 /\ Forall P (snd_buf k2) /\
          Forall (seg_sz (mss k1)) (snd_buf k2)) as (F1 & F2 & F3 & F4).
  { subst k2. destruct (flag a); [|repeat split; auto; apply M1].
    unfold ikcp_parse_fastack. case_match; [repeat split; auto; apply M1|]. ksimpl.
    repeat split; auto; apply bump_fastack_Forall; try apply _; auto. apply M1. }
  destruct (grow_cwnd_sview (snd_una k) k2) as (G1 & G2 & G3).
  rewrite G1, F1, G3. do 2 (split; [done|]).
  eapply mem_inv_view; [| |rewrite G3; exact F4|done]; congruence.
Qed.

(** ** [ikcp_send] *)

Definition set_que (q : list IKCPSEG) (n : Z) (k : ikcpcb) : ikcpcb :=
  set_nsnd_que n (set_snd_queue q k).

Lemma set_que_id k : set_que (snd_queue k) (nsnd_que k) k = k.
Proof. by destruct k. Qed.

(** The loop "fragment" cuts [m] into [i] pieces of at most [mss] bytes. *)
Lemma fragment_spec i m rest k :
  0 < mss k -> stream k = 0 -> (0 < i < 128)%nat -> Z.of_nat (length m) < 2 ^ 31 ->
  (Z.of_nat i - 1) * mss k < Z.of_nat (length m) <= Z.of_nat i * mss k \/
    (i = 1%nat /\ length m = 0%nat) ->
  exists q n, fragment i (m ++ rest) (Z.of_nat (length m)) k
                = Some (set_que (snd_queue k ++ q) n k) /\
    frags (map fd q) m /\ length q = i /\ Forall (seg_sz (mss k)) q.
Proof.
  revert m k. induction i as [|i IH]; intros m k Hmss Hst Hi Hlen Hm; [lia|].
  cbn [fragment]. rewrite Hst. cbn [Z.eqb].
  set (size_ := if mss k <? Z.of_nat (length m) then mss k else Z.of_nat (length m)).
  assert (0 <= size_ <= mss k /\ size_ <= Z.of_nat (length m)) as Hsz.
  { subst size_. case_match; bool_arith; lia. }
  unfold copy_in. rewrite (proj2 (Nat.leb_le _ _)) by (rewrite length_app; lia).
  cbn [mbind option_bind]. rewrite take_app_le, drop_app_le by lia.
  destruct (decide (i = 0%nat)) as [->|Hi0].
  - assert (size_ = Z.of_nat (length m)) as Es by (subst size_; case_match; bool_arith; lia).
    rewrite Es, Nat2Z.id, take_ge by done. cbn [fragment].
    eexists [_], _. split; [reflexivity|]. cbn [map]. split; [|split; [done|]].
    + apply (frags_last m). split; cbn [fst snd]; lia.
    + constructor; [|done]. split; cbn [new_seg seg_len data]; lia.
  - assert (size_ = mss k) as Es by (subst size_; case_match; bool_arith; nia).
    set (k1 := set_nsnd_que _ _).
    destruct (IH (drop (Z.to_nat size_) m) k1) as (q & n & E & Hf & Hq & Hs);
      [done|done|lia|rewrite length_drop; lia|left; rewrite length_drop; subst k1; ksimpl; nia|].
    replace (Z.of_nat (length m) - size_) with (Z.of_nat (length (drop (Z.to_nat size_) m)))
      by (rewrite length_drop; lia).
    rewrite E. eexists (_ :: q), n. split; [subst k1; ksimpl; by rewrite <- app_assoc|].
    split; [|split; [cbn; lia|]].
    + rewrite <- (take_drop (Z.to_nat size_) m) at 2. cbn [map fd].
      replace (Z.of_nat i) with (Z.of_nat (length (map fd q))) at 1
        by (rewrite length_map; lia).
      apply frags_more; [done|]. rewrite length_map. split; cbn [fst snd]; [lia|].
      rewrite length_take. lia.
    + constructor; [|done]. split; cbn [new_seg seg_len data]; rewrite length_take; lia.
Qed.

(** [ikcp_send] outside the streaming mode: the two error codes, or the
    message in fragments at the end of the queue. *)
Lemma send_cases buf len k :
  0 < mss k < 2 ^ 31 -> stream k = 0 -> len <= Z.of_nat (length buf) -> len < 2 ^ 31 ->
  (len < 0 /\ ikcp_send buf len k = Some (-1, k)) \/
  (127 * mss k < len /\ ikcp_send buf len k = Some (-2, k)) \/
  (0 <= len <= 127 * mss k /\ exists q n,
     ikcp_send buf len k = Some (0, set_que (snd_queue k ++ q) n k) /\
     frags (map fd q) (take (Z.to_nat len) buf) /\
     (length q <= 127)%nat /\ Forall (seg_sz (mss k)) q).
Proof.
  intros Hmss Hst Hbuf Hlen. unfold ikcp_send.
  rewrite (proj2 (Z.ltb_lt 0 _)) by lia. cbn [negb].
  case_match eqn:E; bool_arith; [by left|right].
  rewrite Hst. cbn [Z.eqb negb andb mbind option_bind]. rewrite Hst. cbn [Z.eqb negb andb].
  set (count := if len <=? mss k then 1 else _).
  assert (1 <= count /\ ((count - 1) * mss k < len <= count * mss k \/ count = 1 /\ len = 0))
    as [Hc1 Hc2].
  { subst count. case_match; bool_arith; [lia|].
    pose proof (Z.div_mod (len + mss k - 1) (mss k)).
    pose proof (Z.mod_pos_bound (len + mss k - 1) (mss k)). nia. }
  clearbody count. unfold IKCP_WND_RCV. case_match eqn:Ec; bool_arith; [left|right].
  { split; [nia|done]. }
  split; [nia|]. rewrite (proj2 (Z.eqb_neq count 0)) by lia.
  destruct (fragment_spec (Z.to_nat count) (take (Z.to_nat len) buf) (drop (Z.to_nat len) buf) k)
    as (q & n & Eq & Hf & Hq & Hs);
    [lia|done|lia|rewrite length_take; lia| |].
  { rewrite length_take. destruct Hc2 as [Hc2|[Hc2 ->]]; [left; nia|right; lia]. }
  rewrite take_drop, length_take in Eq.
  replace (Z.of_nat (Nat.min (Z.to_nat len) (length buf))) with len in Eq by lia.
  rewrite Eq. exists q, n. repeat split; auto. lia.
Qed.

Lemma set_que_mem q n k :
  mem_inv k -> Forall (seg_sz (mss k)) q -> mem_inv (set_que (snd_queue k ++ q) n k).
Proof. intros [] ?. constructor; cbn; auto. by apply Forall_app. Qed.

Lemma set_que_snd S q n k :
  snd_inv S k -> Forall (seg_sz (mss k)) q ->
  snd_inv (S ++ map fd q) (set_que (snd_queue k ++ q) n k).
Proof.
  intros [] Hq. constructor; cbn; rewrite ?length_app, ?map_app; auto; try lia.
  - rewrite drop_app_le by lia. by rewrite si_que0.
  - apply Forall_app. split; [done|]. eapply Forall_impl; [|done]. by intros ? [].
  - eapply Forall_impl; [|done]. intros ? []. split; [done|by apply seg_ok_mono].
Qed.

(** ** [ikcp_flush] *)

(** The view of the control block the output helpers leave alone. *)
Definition fview (k : ikcpcb) :=
  (snd_queue k, snd_nxt k, stream k, mtu k, mss k, buffer k, acklist k, ackblock k,
   ackcount k).

Lemma fview_eq k k' :
  fview k' = fview k -> snd_queue k' = snd_queue k /\ snd_nxt k' = snd_nxt k /\
  stream k' = stream k /\ mtu k' = mtu k /\ mss k' = mss k /\ buffer k' = buffer k /\
  acklist k' = acklist k /\ ackblock k' = ackblock k /\ ackcount k' = ackcount k.
Proof. unfold fview. intros E. by simplify_eq. Qed.

Lemma fview_mtu k k' : fview k' = fview k -> mtu k' = mtu k.
Proof. intros E. by destruct (fview_eq _ _ E) as (_ & _ & _ & -> & _). Qed.

Section flush.
(** What the segments of [snd_buf] satisfy, and what holds of a datagram
    under construction. *)
Context (P : IKCPSEG -> Prop) (G : list Z -> Prop) `{HP : !PayloadPred P}.
Hypothesis G_nil : G [].
Hypothesis G_ctl : forall out s,
  In (seg_cmd s) [IKCP_CMD_ACK; IKCP_CMD_WASK; IKCP_CMD_WINS] -> seg_len s = 0 ->
  G out -> G (out ++ ikcp_encode_seg s).
Hypothesis G_push : forall out s,
  P s -> G out -> G (out ++ ikcp_encode_seg s ++ data s).

Definition dgram_ok (m : Z) (d : list Z) : Prop := G d /\ Z.of_nat (length d) <= m.
Definition out_ok (out : list Z) (k : ikcpcb) : Prop :=
  50 <= mtu k < 2 ^ 31 /\ buffer k = (mtu k + IKCP_OVERHEAD) * 3 /\
  dgram_ok (mtu k) out /\ Forall (dgram_ok (mtu k)) (outputs k).

Lemma out_ok_view out k k' :
  fview k' = fview k -> outputs k' = outputs k -> out_ok out k -> out_ok out k'.
Proof.
  intros E Eo. apply fview_eq in E as (_ & _ & _ & E1 & _ & E2 & _).
  unfold out_ok. by rewrite E1, E2, Eo.
Qed.

Lemma output_ok out k : out_ok out k -> out_ok [] (ikcp_output out k).
Proof.
  intros (Hm & Hb & Ho & HF). unfold ikcp_output.
  assert (dgram_ok (mtu k) []) by (split; [done|cbn; lia]).
  case_match; [done|]. split; [done|]. split; [done|]. split; [done|]. cbn.
  apply Forall_app. auto.
Qed.

Lemma make_room_ok need out k :
  0 <= need <= mtu k -> out_ok out k ->
  exists out' k', make_room need out k = (out', k') /\ out_ok out' k' /\
    Z.of_nat (length out') + need <= mtu k /\ k' = set_outputs (outputs k') k.
Proof.
  intros Hn Hok. pose proof Hok as (Hm & _). unfold make_room.
  rewrite sext_small by (unfold in_i; lia).
  case_match eqn:E; bool_arith.
  - eexists [], _. split; [done|]. split; [by apply output_ok|]. split; [cbn; lia|].
    unfold ikcp_output. case_match; by destruct k.
  - eexists _, _. split; [done|]. split; [done|]. split; [lia|]. by destruct k.
Qed.

Lemma put_out_ok d out k :
  out_ok out k -> Z.of_nat (length out + length d) <= 2 * mtu k ->
  put_out d out k = Some (out ++ d).
Proof.
  intros (Hm & Hb & _) Hl. unfold put_out, IKCP_OVERHEAD in *.
  by rewrite (proj2 (Z.leb_le _ _)) by lia.
Qed.

Lemma put_ctl s out k :
  In (seg_cmd s) [IKCP_CMD_ACK; IKCP_CMD_WASK; IKCP_CMD_WINS] -> seg_len s = 0 ->
  out_ok out k ->
  exists out' k', (let '(out, k) := make_room IKCP_OVERHEAD out k in
                   out ← put_out (ikcp_encode_seg s) out k; Some (out, k)) = Some (out', k') /\
    out_ok out' k' /\ k' = set_outputs (outputs k') k.
Proof.
  intros Hc Hl Hok. pose proof Hok as (Hm & _).
  destruct (make_room_ok IKCP_OVERHEAD out k) as (out' & k' & -> & Hok' & Hr & Ek);
    [unfold IKCP_OVERHEAD; lia|done|]. unfold IKCP_OVERHEAD in Hr.
  assert (mtu k' = mtu k) as Em by (by rewrite Ek).
  rewrite put_out_ok by (rewrite ?encode_seg_length; try lia; done).
  cbn [mbind option_bind]. eexists _, _. split; [done|]. split; [|done].
  destruct Hok' as (Hm' & Hb' & [HG Hlen] & HF). repeat split; auto; [lia..|].
  rewrite length_app, encode_seg_length. lia.
Qed.

Lemma flush_acks_ok n i s out k :
  seg_cmd s = IKCP_CMD_ACK -> seg_len s = 0 -> out_ok out k ->
  (i + n <= length (acklist k))%nat ->
  exists out' s' k', flush_acks n i s out k = Some (out', s', k') /\
    out_ok out' k' /\ k' = set_outputs (outputs k') k /\ seg_len s' = 0.
Proof.
  revert i s out k. induction n as [|n IH]; intros i s out k Hc Hl Hok Hn.
  { eexists _, _, _. repeat split; try done; try apply Hok. by destruct k. }
  cbn [flush_acks]. unfold ikcp_ack_get.
  destruct (lookup_lt_is_Some_2 (acklist k) i) as [[sn ts] Ei]; [lia|].
  destruct (put_ctl (sset_ts ts (sset_sn sn s)) out k) as (out1 & k1 & E1 & Hok1 & Ek1);
    [change (seg_cmd (sset_ts ts (sset_sn sn s))) with (seg_cmd s); rewrite Hc; by left|done|done|].
  destruct (make_room IKCP_OVERHEAD out k) as [out2 k2] eqn:E2.
  assert (acklist k2 = acklist k) as ->.
  { unfold make_room, ikcp_output in E2. repeat case_match; by simplify_eq. }
  rewrite Ei. cbn [mbind option_bind] in *.
  destruct (put_out _ out2 k2) as [out3|]; [|done]. cbn in E1. injection E1 as -> ->.
  cbn [mbind option_bind].
  destruct (IH (S i) (sset_ts ts (sset_sn sn s)) out1 k1) as (out' & s' & k' & -> & ? & Ek & ?);
    auto; [rewrite Ek1; cbn; lia|].
  eexists _, _, _. split; [done|]. split; [done|]. split; [|done]. by rewrite Ek, Ek1.
Qed.

Context (max : Z).
Hypothesis P_sz : forall s, P s -> seg_sz max s.

Lemma check_resend_view resent rtomin s l k :
  let '(_, s', _, k') := check_resend resent rtomin s l k in
  payload s' = payload s /\ fview k' = fview k /\ outputs k' = outputs k.
Proof. unfold check_resend. repeat case_match; simplify_eq; done. Qed.

Lemma flush_data_ok q resent rtomin wnd out l k :
  Forall P q -> max + IKCP_OVERHEAD <= mtu k -> out_ok out k ->
  exists q' out' l' k', flush_data q resent rtomin wnd out l k = Some (q', out', l', k') /\
    Forall P q' /\ out_ok out' k' /\ fview k' = fview k.
Proof.
  intros HPq. revert out l k. induction HPq as [|s q Hs Hq IH]; intros out l k Hmax Hok;
    cbn [flush_data]; [by eexists _, _, _, _|].
  pose proof (check_resend_view resent rtomin s l k) as Hc.
  destruct (check_resend resent rtomin s l k) as [[[needsend s1] l1] k1].
  destruct Hc as (Ep & Ef & Eo). apply (out_ok_view _ _ _ Ef Eo) in Hok as Hok1.
  assert (P s1) as Hs1 by (eapply payload_pred; [symmetry; exact Ep|done]).
  assert (mtu k1 = mtu k) as Em by (by apply fview_mtu).
  destruct needsend.
  2: { destruct (IH out l1 k1) as (q' & out' & l' & k' & -> & ? & ? & E); [lia|done|].
       eexists _, _, _, _. split; [done|]. split; [by constructor|]. by rewrite E. }
  set (s2 := sset_una _ _). pose proof (P_sz _ Hs1) as [Hl1 Hl2].
  assert (payload s2 = payload s1) as Ep2 by done.
  assert (P s2) as Hs2 by (eapply payload_pred; [symmetry; exact Ep2|done]).
  pose proof Hok1 as (Hm1 & _). unfold IKCP_OVERHEAD in *.
  assert (seg_len s2 = seg_len s1 /\ data s2 = data s1) as [El2 Ed2] by done.
  rewrite sext_small by (unfold in_i; lia).
  destruct (make_room_ok (24 + seg_len s2) out k1) as (out2 & k2 & -> & Hok2 & Hr & Ek2);
    [lia|done|].
  assert (mtu k2 = mtu k1) as Em2 by (by rewrite Ek2).
  rewrite put_out_ok by (rewrite ?encode_seg_length; try lia; done).
  cbn [mbind option_bind].
  assert ((if 0 <? seg_len s2 then put_out (data s2) (out2 ++ ikcp_encode_seg s2) k2
           else Some (out2 ++ ikcp_encode_seg s2)) =
          Some (out2 ++ ikcp_encode_seg s2 ++ data s2)) as ->.
  { case_match; bool_arith.
    - unfold put_out. destruct Hok2 as (_ & -> & _). unfold IKCP_OVERHEAD.
      rewrite (proj2 (Z.leb_le _ _)); [by rewrite app_assoc|].
      rewrite length_app, encode_seg_length, Ed2. lia.
    - destruct (data s2) eqn:Ed; [by rewrite app_nil_r|].
      rewrite <- Ed2 in Hl1. cbn in Hl1. lia. }
  cbn [mbind option_bind]. set (k3 := if dead_link k2 <=? _ then _ else k2).
  assert (fview k3 = fview k2 /\ outputs k3 = outputs k2) as [Ef3 Eo3]
    by (subst k3; by case_match).
  assert (fview k2 = fview k1) as Ef2 by (by rewrite Ek2).
  assert (mtu k3 = mtu k2) as Em3 by (by apply fview_mtu).
  assert (out_ok (out2 ++ ikcp_encode_seg s2 ++ data s2) k3) as Hok3.
  { eapply out_ok_view; [done..|]. destruct Hok2 as (? & ? & [? ?] & ?).
    split; [done|]. split; [done|]. split; [|done]. split; [by apply G_push|].
    rewrite !length_app, encode_seg_length, Ed2. lia. }
  destruct (IH _ l1 k3 ltac:(lia) Hok3) as (q' & out' & l' & k' & -> & ? & ? & E).
  eexists _, _, _, _. split; [done|]. split; [by constructor|]. by rewrite E, Ef3, Ef2.
Qed.

Lemma update_probe_view k :
  fview (update_probe k) = fview k /\ outputs (update_probe k) = outputs k /\
  snd_buf (update_probe k) = snd_buf k.
Proof. unfold update_probe. repeat (case_match || ksimpl); done. Qed.

Lemma update_cwnd_view r c l k :
  fview (update_cwnd r c l k) = fview k /\ outputs (update_cwnd r c l k) = outputs k /\
  snd_buf (update_cwnd r c l k) = snd_buf k.
Proof. unfold update_cwnd. repeat (case_match || ksimpl); done. Qed.

Lemma move_to_buf_view q cw wnd k :
  mtu (move_to_buf q cw wnd k) = mtu k /\ mss (move_to_buf q cw wnd k) = mss k /\
  buffer (move_to_buf q cw wnd k) = buffer k /\
  outputs (move_to_buf q cw wnd k) = outputs k /\
  acklist (move_to_buf q cw wnd k) = acklist k /\
  ackblock (move_to_buf q cw wnd k) = ackblock k /\
  ackcount (move_to_buf q cw wnd k) = ackcount k /\
  stream (move_to_buf q cw wnd k) = stream k.
Proof.
  revert k. induction q as [|s q IH]; intros k; cbn [move_to_buf]; case_match; try done.
  match goal with |- context [move_to_buf q cw wnd ?k1] => specialize (IH k1) end.
  destruct IH as (-> & -> & -> & -> & -> & -> & -> & ->). done.
Qed.

Lemma flush_control_ok wnd k :
  mem_inv k -> Forall (dgram_ok (mtu k)) (outputs k) ->
  exists out k', flush_control wnd k = Some (out, k') /\ out_ok out k' /\
    fview k' = fview (set_ackcount 0 k) /\ snd_buf k' = snd_buf k.
Proof.
  intros M Hout. pose proof M as [Hm _ Hbuf _ _ Hack Hblk _]. unfold flush_control.
  set (s0 := mkseg _ _ _ _ _ _ _ _ _ _ _ _ _).
  assert (out_ok [] k) as Hok0 by (repeat split; auto; cbn; lia).
  destruct (flush_acks_ok (Z.to_nat (ackcount k)) 0 s0 [] k)
    as (out1 & s1 & k1 & -> & Hok1 & Ek1 & Hs1); [done|done|done|lia|].
  cbn [mbind option_bind]. set (k2 := update_probe (set_ackcount 0 k1)).
  destruct (update_probe_view (set_ackcount 0 k1)) as (F2 & O2 & B2). fold k2 in F2, O2, B2.
  assert (out_ok out1 k2) as Hok2.
  { apply (out_ok_view _ (set_ackcount 0 k1)); [done|done|exact Hok1]. }
  assert (forall (b : bool) c out k3, In c [IKCP_CMD_ACK; IKCP_CMD_WASK; IKCP_CMD_WINS] ->
    out_ok out k3 -> exists out' k',
      (if b then put_header (sset_cmd c s1) out k3 else Some (out, k3)) = Some (out', k') /\
      out_ok out' k' /\ k' = set_outputs (outputs k') k3) as Hprobe.
  { intros [] c out k3 Hc Hok3; [by apply put_ctl|]. eexists _, _. repeat split; try done;
      try apply Hok3. by destruct k3. }
  destruct (Hprobe (negb (Z.land (probe k2) IKCP_ASK_SEND =? 0)) IKCP_CMD_WASK out1 k2)
    as (out3 & k3 & -> & Hok3 & Ek3); [right; by left|done|].
  cbn [mbind option_bind].
  destruct (Hprobe (negb (Z.land (probe k3) IKCP_ASK_TELL =? 0)) IKCP_CMD_WINS out3 k3)
    as (out4 & k4 & -> & Hok4 & Ek4); [right; right; by left|done|].
  eexists _, _. split; [done|]. split; [by apply (out_ok_view _ k4)|].
  rewrite Ek4, Ek3. split; [etransitivity; [exact F2|by rewrite Ek1]|].
  etransitivity; [exact B2|by rewrite Ek1].
Qed.

Lemma flush_segments_ok wnd out k :
  out_ok out k -> max + IKCP_OVERHEAD <= mtu k ->
  (forall cw, Forall P (snd_buf (move_to_buf (snd_queue k) cw wnd k))) ->
  exists cw k', flush_segments wnd out k = Some k' /\
    Forall (dgram_ok (mtu k)) (outputs k') /\ Forall P (snd_buf k') /\
    fview k' = fview (move_to_buf (snd_queue k) cw wnd k).
Proof.
  intros Hok Hmax Hmove. unfold flush_segments. exists (send_window k).
  set (k6 := move_to_buf (snd_queue k) (send_window k) wnd k).
  destruct (move_to_buf_view (snd_queue k) (send_window k) wnd k)
    as (E1 & E2 & E3 & E4 & _). fold k6 in E1, E2, E3, E4.
  destruct (flush_data_ok (snd_buf k6) (fast_resent k6) (rto_min k6) wnd out
              (mkfloc 0 false) k6) as (q & out7 & l7 & k7 & -> & Hq & Hok7 & F7);
    [by apply Hmove|by rewrite E1| |].
  { unfold out_ok in *. by rewrite E1, E3, E4. }
  cbn [mbind option_bind]. eexists. split; [done|].
  set (k8 := if 0 <? _ then ikcp_output _ _ else _).
  assert (fview k8 = fview k7 /\ snd_buf k8 = q) as [F8 B8].
  { subst k8. unfold ikcp_output. by repeat case_match. }
  assert (Forall (dgram_ok (mtu k7)) (outputs k8)) as O8.
  { subst k8. case_match; [|apply Hok7].
    apply (output_ok _ (set_snd_buf q k7)) in Hok7 as (_ & _ & _ & HF).
    rewrite (fview_mtu _ _ F8) in HF. exact HF. }
  destruct (update_cwnd_view (fast_resent k6) (send_window k) l7 k8) as (F9 & O9 & B9).
  rewrite F9, O9, B9, F8, F7, B8. rewrite (fview_mtu _ _ F7), E1 in O8. done.
Qed.

(** The whole flush: it returns, every datagram is well formed, and apart
    from the segments it moved the queues are kept. *)
Lemma flush_ok k :
  mem_inv k -> max = mss k -> Forall (dgram_ok (mtu k)) (outputs k) ->
  (forall k1 cw wnd, fview k1 = fview (set_ackcount 0 k) -> snd_buf k1 = snd_buf k ->
     Forall P (snd_buf (move_to_buf (snd_queue k1) cw wnd k1))) ->
  exists k', ikcp_flush k = Some k' /\ Forall (dgram_ok (mtu k)) (outputs k') /\
    (k' = k \/ exists k1 cw wnd, fview k1 = fview (set_ackcount 0 k) /\
       snd_buf k1 = snd_buf k /\ Forall P (snd_buf k') /\
       fview k' = fview (move_to_buf (snd_queue k1) cw wnd k1)).
Proof.
  intros M Emax Hout Hmove. unfold ikcp_flush. case_match; [by eexists; auto|].
  destruct (flush_control_ok (u32 (ikcp_wnd_unused k)) k M Hout)
    as (out & k1 & -> & Hok1 & F1 & B1).
  cbn [mbind option_bind]. pose proof (fview_mtu _ _ F1) as Em. cbn in Em.
  destruct (flush_segments_ok (u32 (ikcp_wnd_unused k)) out k1 Hok1)
    as (cw & k' & -> & HF & HPb & F').
  { rewrite Em, Emax, (mi_mss _ M). lia. }
  { intros cw. by apply Hmove. }
  eexists. split; [done|]. rewrite Em in HF. split; [done|]. right.
  by eexists k1, cw, _.
Qed.
End flush.

Lemma move_to_buf_sz max q cw wnd k :
  q = snd_queue k -> Forall (seg_sz max) q -> Forall (seg_sz max) (snd_buf k) ->
  Forall (seg_sz max) (snd_queue (move_to_buf q cw wnd k)) /\
  Forall (seg_sz max) (snd_buf (move_to_buf q cw wnd k)).
Proof.
  revert k. induction q as [|s q IH]; intros k Eq Hq Hb; cbn [move_to_buf];
    (case_match; [|by rewrite <- Eq]); [by rewrite <- Eq|].
  apply Forall_cons_iff in Hq as [Hs Hq]. apply IH; [done|done|]. ksimpl.
  apply Forall_app. auto.
Qed.

(** One iteration of the loop. *)
Definition move_seg (s : IKCPSEG) (q : list IKCPSEG) (wnd : Z) (k : ikcpcb) : ikcpcb :=
  let k := set_snd_queue q k in
  let s := mkseg (conv k) IKCP_CMD_PUSH (seg_frg s) wnd (current k) (snd_nxt k)
             (rcv_nxt k) (seg_len s) (current k) (u32 (rx_rto k)) 0 0 (data s) in
  let k := set_snd_buf (snd_buf k ++ [s]) k in
  let k := set_nsnd_que (u32 (nsnd_que k - 1)) k in
  let k := set_nsnd_buf (u32 (nsnd_buf k + 1)) k in
  set_snd_nxt (u32 (snd_nxt k + 1)) k.

Lemma move_to_buf_cons s q cw wnd k :
  move_to_buf (s :: q) cw wnd k =
    if _itimediff (snd_nxt k) (u32 (snd_una k + cw)) <? 0 then move_to_buf q cw wnd (move_seg s q wnd k) else k.
Proof. reflexivity. Qed.

Lemma move_seg_snd S s q wnd k :
  Z.of_nat (length S) < 2 ^ 32 -> snd_queue k = s :: q -> snd_inv S k ->
  snd_inv S (move_seg s q wnd k) /\ snd_nxt (move_seg s q wnd k) = snd_nxt k + 1 /\ snd_nxt k < Z.of_nat (length S).
Proof.
  intros HS Eq [Hn Hq Hl Hb Hst]. rewrite Eq in Hq, Hl.
  apply Forall_cons_iff in Hl as [Hs Hl]. cbn [map] in Hq. symmetry in Hq.
  assert (S !! Z.to_nat (snd_nxt k) = Some (fd s)) as Hat.
  { rewrite <- (Nat.add_0_r (Z.to_nat (snd_nxt k))), <- lookup_drop, Hq. done. }
  pose proof (lookup_lt_Some _ _ _ Hat) as Hlt.
  assert (u32 (snd_nxt k + 1) = snd_nxt k + 1) as En by (apply wrap_small; unfold in_u; lia).
  unfold move_seg. split; [|ksimpl; lia]. constructor; ksimpl; rewrite ?En; auto; try lia.
  - replace (Z.to_nat (snd_nxt k + 1)) with (Z.to_nat (snd_nxt k) + 1)%nat by lia.
    by rewrite <- drop_drop, Hq.
  - apply Forall_app. split; [done|]. constructor; [|done]. split; [done|].
    split; [ksimpl; lia|]. split; [exact Hat|exact Hs].
Qed.

Lemma move_to_buf_snd S q cw wnd k :
  Z.of_nat (length S) < 2 ^ 32 -> q = snd_queue k -> snd_inv S k ->
  snd_inv S (move_to_buf q cw wnd k).
Proof.
  intros HS. revert k. induction q as [|s q IH]; intros k Eq I; [cbn [move_to_buf]; by case_match|].
  rewrite move_to_buf_cons. case_match; [|done]. apply IH; [done|]. by apply move_seg_snd.
Qed.

Lemma mem_inv_fview k k' :
  mem_inv k -> fview k' = fview k -> Forall (seg_sz (mss k)) (snd_buf k') -> mem_inv k'.
Proof.
  intros [] E Hb. apply fview_eq in E as (E1 & E2 & E3 & E4 & E5 & E6 & E7 & E8 & E9).
  constructor; rewrite ?E1, ?E4, ?E5, ?E6, ?E7, ?E8, ?E9; done.
Qed.

Lemma move_to_buf_mem cw wnd k :
  mem_inv k -> mem_inv (move_to_buf (snd_queue k) cw wnd k).
Proof.
  intros M. destruct (move_to_buf_sz (mss k) (snd_queue k) cw wnd k) as [H1 H2];
    [done|apply M|apply M|].
  destruct (move_to_buf_view (snd_queue k) cw wnd k) as (E1 & E2 & E3 & E4 & E5 & E6 & E7 & _).
  destruct M. constructor; rewrite ?E1, ?E2, ?E3, ?E5, ?E6, ?E7; done.
Qed.

Lemma set_ackcount_mem k : mem_inv k -> mem_inv (set_ackcount 0 k).
Proof. intros []. constructor; ksimpl; auto; lia. Qed.

Lemma flush_mem k :
  mem_inv k -> outs_small k ->
  exists k', ikcp_flush k = Some k' /\ mem_inv k' /\ outs_small k' /\ mtu k' = mtu k /\
    stream k' = stream k.
Proof.
  intros M Ho.
  destruct (flush_ok (seg_sz (mss k)) (fun _ => True) I (fun _ _ _ _ _ => I) (fun _ _ _ _ => I)
              (mss k) (fun _ H => H) k M eq_refl) as (k' & E & Ho' & Hk').
  { eapply Forall_impl; [|exact Ho]. by intros. }
  { intros k1 cw wnd F1 B1. apply move_to_buf_sz; [done| |rewrite B1; apply M].
    apply fview_eq in F1 as (-> & _). apply M. }
  exists k'. split; [done|].
  assert (mem_inv k' /\ mtu k' = mtu k /\ stream k' = stream k) as (M' & Em & Est).
  { destruct Hk' as [->|(k1 & cw & wnd & F1 & B1 & Hb & F')]; [done|].
    pose proof (fview_eq _ _ F1) as (_ & _ & Et1 & Em1 & Es1 & _). cbn in Em1, Es1, Et1.
    destruct (move_to_buf_view (snd_queue k1) cw wnd k1) as (Em2 & Es2 & _ & _ & _ & _ & _ & Et2).
    pose proof (fview_eq _ _ F') as (_ & _ & Et3 & _).
    split; [|split; [by rewrite (fview_mtu _ _ F'), Em2|by rewrite Et3, Et2]].
    eapply mem_inv_fview; [|exact F'|by rewrite Es2, Es1].
    apply move_to_buf_mem. eapply mem_inv_fview; [by apply set_ackcount_mem|exact F1|].
    rewrite B1. apply M. }
  split; [done|]. split; [|done]. unfold outs_small. rewrite Em.
  eapply Forall_impl; [|exact Ho']. by intros ? [].
Qed.

#[export] Instance and_payload P Q `{!PayloadPred P} `{!PayloadPred Q} :
  PayloadPred (fun s => P s /\ Q s).
Proof. intros s s' E [? ?]. split; by eapply payload_pred. Qed.

Lemma snd_inv_fview S k k' :
  snd_inv S k -> fview k' = fview k ->
  Forall (fun s => seg_cmd s = IKCP_CMD_PUSH /\ seg_ok S s) (snd_buf k') -> snd_inv S k'.
Proof.
  intros [] E Hb. apply fview_eq in E as (E1 & E2 & E3 & _).
  constructor; rewrite ?E1, ?E2, ?E3; done.
Qed.

Lemma flush_snd S k k' :
  mem_inv k -> outs_small k -> snd_inv S k -> outs_ok S k ->
  Z.of_nat (length S) < 2 ^ 32 -> ikcp_flush k = Some k' ->
  snd_inv S k' /\ outs_ok S k'.
Proof.
  intros M Ho HI HO HS E.
  assert (forall k1, fview k1 = fview (set_ackcount 0 k) -> snd_buf k1 = snd_buf k ->
            snd_inv S k1) as Hk1.
  { intros k1 F1 B1. eapply snd_inv_fview; [|exact F1|rewrite B1; apply HI].
    destruct HI. constructor; done. }
  destruct (flush_ok (fun s => seg_sz (mss k) s /\ (seg_cmd s = IKCP_CMD_PUSH /\ seg_ok S s))
              (wire S)) with (max := mss k) (k := k) as (k2 & E' & Ho' & Hk2); auto.
  - apply wire_nil.
  - intros. by apply wire_app, wire_ctl1.
  - intros out s (_ & ? & ?) ?. by apply wire_app, wire_push1.
  - by intros s [].
  - apply Forall_and; [exact HO|exact Ho].
  - intros k1 cw wnd F1 B1. apply Forall_and.
    + apply move_to_buf_sz; [done| |rewrite B1; apply M].
      apply fview_eq in F1 as (-> & _). apply M.
    + apply move_to_buf_snd; auto.
  - rewrite E in E'. injection E' as <-. split.
    + destruct Hk2 as [->|(k1 & cw & wnd & F1 & B1 & Hb & F')]; [done|].
      eapply snd_inv_fview; [|exact F'|]; [apply move_to_buf_snd; auto|].
      eapply Forall_impl; [|exact Hb]. by intros s [].
    + eapply Forall_impl; [|exact Ho']. by intros d [].
Qed.
