(* ===== verification/KcpNet.v ===== *)
(** * KcpNet: two KCP endpoints over a lossy network

    The calls a user of ikcp.h makes, as operations on the control block; the
    system of two endpoints whose datagrams the network may lose, repeat and
    reorder; the safety theorems of the protocol. *)
From S2P Require Import Prelude Bytes Kcp KcpWire KcpRecv KcpSend.
Import Kcp.
#[local] Arguments wrap : simpl never.
#[local] Arguments sext : simpl never.
#[local] Arguments Z.of_nat : simpl never.

Module KcpNet.

(** ** Calls *)
Inductive op : Type :=
  | OpSend (buf : list Z) (len : Z)
  | OpRecv (len : Z)
  | OpInput (d : list Z)
  | OpUpdate (current_ : Z)
  | OpFlush
  | OpNodelay (nodelay_ interval_ resend nc : Z)
  | OpWndsize (sndwnd rcvwnd : Z).

(** The return value, the bytes returned and the control block; [None] when
    the call accesses memory outside an object or fails an assertion. *)
Definition exec (o : op) (k : ikcpcb) : option (Z * list Z * ikcpcb) :=
  match o with
  | OpSend buf len => '(r, k) ← ikcp_send buf len k; Some (r, [], k)
  | OpRecv len => ikcp_recv len k
  | OpInput d => '(r, k) ← ikcp_input d k; Some (r, [], k)
  | OpUpdate t => k ← ikcp_update t k; Some (0, [], k)
  | OpFlush => k ← ikcp_flush k; Some (0, [], k)
  | OpNodelay n i r c => let '(z, k) := ikcp_nodelay n i r c k in Some (z, [], k)
  | OpWndsize s r => let '(z, k) := ikcp_wndsize s r k in Some (z, [], k)
  end.

Definition bytes_okb (d : list Z) : bool := forallb (fun b => (0 <=? b) && (b <? 256)) d.

(** The caller's obligations: the buffer passed to [ikcp_send] has the length
    given, datagrams are bytes, and fewer than 2^30 acknowledgements are
    pending. *)
Definition op_ok (o : op) (k : ikcpcb) : bool :=
  match o with
  | OpSend buf len => (len <=? Z.of_nat (length buf)) && (len <? 2 ^ 31)
  | OpInput d => bytes_okb d && (ackcount k + Z.of_nat (length d) <? 2 ^ 30)
  | _ => true
  end.

(** A new control block, with the MTU chosen before it is used. *)
Definition create (c m : Z) : ikcpcb := snd (ikcp_setmtu m (ikcp_create c)).

(** From the least MTU [ikcp_setmtu] takes to the largest for which the size
    of its buffer does not wrap. *)
Definition mtu_ok (m : Z) : Prop := 50 <= m <= 1431655741.

Lemma buffer_size m : mtu_ok m -> u32 (u32 (m + IKCP_OVERHEAD) * 3) = (m + IKCP_OVERHEAD) * 3.
Proof.
  unfold mtu_ok, IKCP_OVERHEAD. intros H. rewrite (wrap_small 32 (m + 24)) by (unfold in_u; lia). apply wrap_small. unfold in_u. lia.
Qed.

(** ** Memory safety *)

Definition len_true (s : IKCPSEG) : Prop := seg_len s = Z.of_nat (length (data s)).
Definition len_inv (k : ikcpcb) : Prop :=
  Forall len_true (rcv_queue k) /\ Forall len_true (rcv_buf k).

Lemma len_inv_view k k' : rview k' = rview k -> len_inv k -> len_inv k'.
Proof. unfold rview, len_inv. intros E. injection E as -> _ _ ->. done. Qed.

Lemma move_ready_len k : len_inv k -> len_inv (move_ready k).
Proof.
  unfold move_ready. intros [Hq Hb].
  assert (forall buf k, Forall len_true buf -> Forall len_true (rcv_queue k) ->
    Forall len_true (rcv_buf k) -> len_inv (move_ready_f buf k)) as H.
  { clear. induction buf as [|s buf IH]; intros k Hbuf Hq Hb; [by split|].
    rewrite move_ready_f_cons. case_match; [|by split].
    apply Forall_cons_iff in Hbuf as [Hs Hbuf]. apply IH; [done| |done].
    unfold move_one. ksimpl. apply Forall_app. auto. }
  by apply H.
Qed.

Lemma parse_data_len s k : len_true s -> len_inv k -> len_inv (ikcp_parse_data s k).
Proof.
  intros Hs L. unfold ikcp_parse_data. case_match; [done|]. apply move_ready_len.
  destruct (insert_rev s _) as [q|] eqn:E; [|done]. destruct L as [L1 L2].
  split; ksimpl; [done|]. apply Forall_reverse.
  eapply insert_rev_Forall; [done|done|]. by apply Forall_reverse.
Qed.

Lemma le_val_nonneg l : bytes_ok l -> 0 <= le_val l.
Proof. intros H. apply le_val_range in H. lia. Qed.

Lemma decode_header_bytes d h p :
  decode_header d = (h, p) -> bytes_ok d -> bytes_ok p /\ 0 <= h_len h.
Proof.
  unfold decode_header, ikcp_decode8u, ikcp_decode16u, ikcp_decode32u.
  intros E Hd. injection E as <- <-. split; [by repeat apply bytes_ok_drop|].
  cbn [h_len]. apply le_val_nonneg, bytes_ok_take. by repeat apply bytes_ok_drop.
Qed.

Lemma input_push_len h d k k' :
  h_len h = Z.of_nat (length d) -> len_inv k -> input_push h d k = Some k' -> len_inv k'.
Proof.
  intros Hd L. unfold input_push. case_match; [|by intros; simplify_eq].
  destruct (ikcp_ack_push _ _ k) as [k1|] eqn:Ek; cbn [mbind option_bind]; [|done].
  apply ack_push_view in Ek. apply (len_inv_view _ _ Ek) in L.
  case_match; intros; simplify_eq; [|done]. by apply parse_data_len.
Qed.

Lemma input_loop_len fuel d a k r a' k' :
  bytes_ok d -> len_inv k -> input_loop fuel d a k = Some (r, a', k') -> len_inv k'.
Proof.
  revert d a k. induction fuel as [|fuel IH]; intros d a k Hd L; cbn [input_loop];
    (case_match; [by intros; simplify_eq|]); [done|].
  destruct (decode_header d) as [h p] eqn:Eh.
  destruct (decode_header_bytes _ _ _ Eh Hd) as [Hp Hh].
  case_match; [by intros; simplify_eq|].
  case_match eqn:Elen; [by intros; simplify_eq|]. case_match; [by intros; simplify_eq|].
  apply orb_false_iff in Elen as [Elen _]. bool_arith.
  set (k1 := ikcp_shrink_buf _).
  assert (len_inv k1) as L1 by (eapply len_inv_view; [apply view_input_head|done]).
  assert (bytes_ok (drop (Z.to_nat (h_len h)) p)) as Hdr by (by apply bytes_ok_drop).
  case_match; [|case_match; [|case_match]]; cbn [mbind option_bind].
  - destruct (input_ack h a k1) as [a2 k2] eqn:Ek. apply IH; [done|].
    eapply len_inv_view; [|exact L1]. change k2 with (snd (a2, k2)).
    rewrite <- Ek. apply input_ack_view.
  - destruct (input_push h _ k1) as [k2|] eqn:Ek; cbn [mbind option_bind]; [|done].
    apply IH; [done|]. eapply input_push_len; [|exact L1|exact Ek].
    rewrite length_take. lia.
  - by apply IH.
  - by apply IH.
Qed.

Lemma input_len d k r k' :
  bytes_ok d -> len_inv k -> ikcp_input d k = Some (r, k') -> len_inv k'.
Proof.
  intros Hd L. unfold ikcp_input. case_match; [by intros; simplify_eq|].
  destruct (input_loop _ _ _ _) as [[[r1 a1] k1]|] eqn:El; cbn [mbind option_bind]; [|done].
  apply input_loop_len in El; [|done..].
  case_match; intros; simplify_eq; [done|].
  eapply len_inv_view; [apply fastack_cwnd_view|done].
Qed.

(** The assertion of [ikcp_recv] holds: the bytes merged are the size peeked. *)
Lemma merge_peek q acc d rest n :
  Forall len_true q -> merge_fragments q = (d, rest, n) -> q <> [] ->
  peek_sum q acc = i32 (acc + Z.of_nat (length d)) /\ Forall len_true rest.
Proof.
  intros Hq. revert acc d rest n. induction Hq as [|s q Hs Hq IH]; [done|].
  intros acc d rest n E _. cbn [merge_fragments peek_sum] in *. rewrite Hs.
  case_match eqn:Ef; [by simplify_eq|].
  destruct (merge_fragments q) as [[d1 r1] n1] eqn:Em. simplify_eq.
  destruct q as [|t q].
  { cbn in Em. simplify_eq. cbn [peek_sum]. rewrite app_nil_r. done. }
  destruct (IH (i32 (acc + Z.of_nat (length (data s)))) _ _ _ eq_refl) as [-> ?]; [done|].
  split; [|done]. rewrite sext_add_l by lia. rewrite length_app. f_equal. lia.
Qed.

Lemma recv_ok len k :
  len_inv k ->
  exists r d k', ikcp_recv len k = Some (r, d, k') /\ len_inv k' /\
    sview k' = sview k /\ aview k' = aview k /\ snd_buf k' = snd_buf k.
Proof.
  intros L. unfold ikcp_recv. destruct (rcv_queue k) as [|s q] eqn:Eq.
  { by eexists _, _, _. }
  case_match; [by eexists _, _, _|]. case_match; [by eexists _, _, _|].
  destruct (merge_fragments (s :: q)) as [[d rest] n] eqn:Em.
  destruct L as [Lq Lb]. rewrite Eq in Lq.
  destruct (merge_peek _ 0 _ _ _ Lq Em) as [Hp Hr]; [done|].
  assert (ikcp_peeksize k = i32 (Z.of_nat (length d))) as Hsz.
  { unfold ikcp_peeksize in *. rewrite Eq in *. cbn [merge_fragments] in Em.
    destruct (seg_frg s =? 0).
    - simplify_eq. apply Forall_cons_iff in Lq as [Hs _]. by rewrite Hs.
    - destruct (nrcv_que k <? _); [discriminate H|exact Hp]. }
  rewrite Hsz, Z.eqb_refl. cbn [negb]. eexists _, _, _. split; [done|].
  set (k1 := if negb _ then _ else k).
  assert (len_inv k1 /\ sview k1 = sview k /\ aview k1 = aview k /\ snd_buf k1 = snd_buf k)
    as (L1 & E1 & E2 & E3).
  { subst k1. destruct (negb (len <? 0)); (split; [split; ksimpl|done]); rewrite ?Eq; done. }
  pose proof (move_ready_len _ L1) as L2.
  destruct (move_ready_f_sview (rcv_buf k1) k1) as (F1 & F2 & F3).
  fold (move_ready k1) in F1, F2, F3.
  destruct (_ && (rcv_wnd k <=? nrcv_que k)).
  - split; [by eapply len_inv_view; [|exact L2]|].
    split; [etransitivity; [exact F1|exact E1]|].
    split; [etransitivity; [exact F2|exact E2]|etransitivity; [exact F3|exact E3]].
  - rewrite F1, F2, F3, E1, E2, E3. done.
Qed.

(** What every call preserves, whatever bytes arrive. *)
Record safe (k : ikcpcb) : Prop := mk_safe {
  sf_mem : mem_inv k;
  sf_out : outs_small k;
  sf_len : len_inv k;
  sf_stream : stream k = 0
}.

Lemma outs_small_view k k' : sview k' = sview k -> outs_small k -> outs_small k'.
Proof.
  unfold sview, outs_small. intros E. injection E as _ _ -> _ -> _ _ _. done.
Qed.

Lemma stream_view k k' : sview k' = sview k -> stream k = 0 -> stream k' = 0.
Proof. unfold sview. intros E. by injection E as _ _ _ -> _ _ _ _. Qed.

Lemma mtu_view k k' : sview k' = sview k -> mtu k' = mtu k.
Proof. unfold sview. intros E. by injection E as _ _ _ _ -> _ _ _. Qed.

Lemma bytes_okb_ok d : bytes_okb d = true -> bytes_ok d.
Proof.
  unfold bytes_okb, bytes_ok, byte_ok. rewrite forallb_forall. intros H.
  apply List.Forall_forall. intros b Hb. specialize (H b Hb). bool_arith. lia.
Qed.

Lemma bytes_ok_okb d : bytes_ok d -> bytes_okb d = true.
Proof.
  unfold bytes_ok, bytes_okb, byte_ok. rewrite forallb_forall, List.Forall_forall.
  intros Hd b Hb. specialize (Hd b Hb). apply andb_true_iff. split; [apply Z.leb_le|apply Z.ltb_lt]; lia.
Qed.

(** The fields [ikcp_update] sets before it flushes. *)
Definition tick_view (k : ikcpcb) := (sview k, aview k, snd_buf k, rview k).

Lemma update_flush t k :
  exists k1, tick_view k1 = tick_view k /\
    (ikcp_update t k = Some k1 \/ ikcp_update t k = ikcp_flush k1).
Proof.
  unfold ikcp_update. set (k1 := if updated _ =? 0 then _ else _).
  assert (tick_view k1 = tick_view k) as E1 by (subst k1; by case_match).
  destruct (_ || _); cbv zeta; (case_match; [|eexists; split; [|by left]]);
    (try (eexists; split; [|by right])); try case_match; exact E1 || done.
Qed.

Lemma setting_safe k k' :
  tick_view k' = tick_view k -> safe k -> safe k' /\ mtu k' = mtu k.
Proof.
  unfold tick_view. intros E [M O L St].
  injection E as E1 E2 E3 E4 E5 E6 E7 E8 E9 E10 E11 E12 E13 E14 E15 E16.
  assert (sview k' = sview k) as Es by (unfold sview; congruence).
  split; [|by apply mtu_view]. constructor.
  - eapply mem_inv_view; [exact Es|unfold aview; congruence|rewrite E12; apply M|done].
  - by eapply outs_small_view.
  - eapply len_inv_view; [|done]. unfold rview. congruence.
  - by eapply stream_view.
Qed.

Lemma nodelay_tick n i r c k : tick_view (snd (ikcp_nodelay n i r c k)) = tick_view k.
Proof. unfold ikcp_nodelay, ikcp_interval. repeat (case_match || ksimpl); done. Qed.

Lemma wndsize_tick s r k : tick_view (snd (ikcp_wndsize s r k)) = tick_view k.
Proof. unfold ikcp_wndsize. repeat case_match; done. Qed.

(** What [ikcp_flush] leaves alone besides the queues. *)
Definition nview (k : ikcpcb) := (rview k, current k, rcv_wnd k).

Lemma make_room_nview need out k out' k' :
  make_room need out k = (out', k') -> nview k' = nview k.
Proof.
  unfold make_room, ikcp_output. intros. by repeat case_match; simplify_eq.
Qed.

Lemma flush_acks_nview n i s out k out' s' k' :
  flush_acks n i s out k = Some (out', s', k') -> nview k' = nview k.
Proof.
  revert i s out k. induction n as [|n IH]; intros i s out k; cbn [flush_acks];
    [by intros; simplify_eq|].
  destruct (make_room _ out k) as [out1 k1] eqn:E. apply make_room_nview in E as <-.
  destruct (ikcp_ack_get k1 i) as [[sn ts]|]; cbn [mbind option_bind]; [|done].
  destruct (put_out _ _ _); cbn [mbind option_bind]; [|done]. apply IH.
Qed.

Lemma put_header_nview s out k out' k' :
  put_header s out k = Some (out', k') -> nview k' = nview k.
Proof.
  unfold put_header. destruct (make_room _ out k) as [out1 k1] eqn:E.
  apply make_room_nview in E as <-.
  destruct (put_out _ _ _); cbn [mbind option_bind]; [|done]. intros. by simplify_eq.
Qed.

Lemma flush_data_nview q resent rtomin wnd out l k q' out' l' k' :
  flush_data q resent rtomin wnd out l k = Some (q', out', l', k') -> nview k' = nview k.
Proof.
  revert out l k q' out' l' k'.
  induction q as [|s q IH]; intros out l k q' out' l' k'; cbn [flush_data];
    [by intros; simplify_eq|].
  destruct (check_resend resent rtomin s l k) as [[[b s1] l1] k1] eqn:Ec.
  assert (nview k1 = nview k) as <-.
  { revert Ec. unfold check_resend. intros. by repeat case_match; simplify_eq. }
  destruct b.
  - destruct (make_room _ out k1) as [out2 k2] eqn:E. apply make_room_nview in E as <-.
    destruct (put_out _ _ _) as [out3|]; cbn [mbind option_bind]; [|done].
    destruct (if 0 <? _ then _ else _) as [out4|]; cbn [mbind option_bind]; [|done].
    set (k3 := if dead_link k2 <=? _ then _ else k2).
    assert (nview k3 = nview k2) as <- by (subst k3; by case_match).
    destruct (flush_data q resent rtomin wnd out4 l1 k3) as [[[[q5 o5] l5] k5]|] eqn:E5;
      cbn [mbind option_bind]; [|done]. intros. simplify_eq. by eapply IH.
  - destruct (flush_data q resent rtomin wnd out l1 k1) as [[[[q5 o5] l5] k5]|] eqn:E5;
      cbn [mbind option_bind]; [|done]. intros. simplify_eq. by eapply IH.
Qed.

Lemma flush_control_nview wnd k out k' :
  flush_control wnd k = Some (out, k') -> nview k' = nview k.
Proof.
  unfold flush_control.
  destruct (flush_acks _ _ _ _ _) as [[[o1 s1] k1]|] eqn:E1; cbn [mbind option_bind]; [|done].
  apply flush_acks_nview in E1 as <-. set (k2 := update_probe _).
  assert (nview k2 = nview k1) as <-.
  { subst k2. unfold update_probe. by repeat (case_match || ksimpl). }
  assert (forall (b : bool) s o o' ka kb, (if b then put_header s o ka else Some (o, ka)) = Some (o', kb) ->
    nview kb = nview ka) as Hp.
  { intros [] ? ? ? ? ?; [apply put_header_nview|]. intros. by simplify_eq. }
  destruct (if negb (Z.land (probe k2) _ =? 0) then _ else _) as [[o3 k3]|] eqn:E3;
    cbn [mbind option_bind]; [|done]. apply Hp in E3 as <-.
  destruct (if negb (Z.land (probe k3) _ =? 0) then _ else _) as [[o4 k4]|] eqn:E4;
    cbn [mbind option_bind]; [|done]. apply Hp in E4 as <-.
  intros. by simplify_eq.
Qed.

Lemma move_to_buf_nview q cw wnd k : nview (move_to_buf q cw wnd k) = nview k.
Proof.
  revert k. induction q as [|s q IH]; intros k; cbn [move_to_buf]; case_match; try done.
  by rewrite IH.
Qed.

Lemma flush_nview k k' : ikcp_flush k = Some k' -> nview k' = nview k.
Proof.
  unfold ikcp_flush. case_match; [by intros; simplify_eq|].
  destruct (flush_control _ k) as [[o1 k1]|] eqn:E1; cbn [mbind option_bind]; [|done].
  apply flush_control_nview in E1 as <-. unfold flush_segments.
  rewrite <- (move_to_buf_nview (snd_queue k1) (send_window k1) (u32 (ikcp_wnd_unused k)) k1).
  set (k2 := move_to_buf _ _ _ _).
  destruct (flush_data _ _ _ _ _ _ k2) as [[[[q o3] l3] k3]|] eqn:E3;
    cbn [mbind option_bind]; [|done]. apply flush_data_nview in E3 as <-.
  intros. simplify_eq. unfold update_cwnd, ikcp_output.
  repeat (case_match || ksimpl); done.
Qed.

Lemma flush_rview k k' : ikcp_flush k = Some k' -> rview k' = rview k.
Proof. intros E%flush_nview. exact (f_equal (fun x => fst (fst x)) E). Qed.

Lemma flush_safe k :
  safe k -> exists k', ikcp_flush k = Some k' /\ safe k' /\ mtu k' = mtu k.
Proof.
  intros [M O L St]. destruct (flush_mem k M O) as (k2 & E & M2 & O2 & E2 & St2).
  exists k2. split; [done|]. split; [|done]. constructor; [done|done| |by rewrite St2].
  eapply len_inv_view; [by apply flush_rview|done].
Qed.

(** Every call a caller may make returns, and keeps the control block safe. *)
Lemma exec_safe o k :
  safe k -> op_ok o k = true ->
  exists r d k', exec o k = Some (r, d, k') /\ safe k' /\ mtu k' = mtu k.
Proof.
  intros Sf Hok. pose proof Sf as [M O L St]. destruct o; cbn [exec op_ok] in *.
  - bool_arith. assert (0 < mss k < 2 ^ 31) as Hmss.
    { destruct M. unfold IKCP_OVERHEAD in *. lia. }
    destruct (send_cases buf len k) as [[_ ->]| [[_ ->]| (_ & q & n & -> & _ & _ & Hq)]]; auto;
      cbn [mbind option_bind]; eexists _, _, _; split; try done.
    split; [|done]. constructor; [by apply set_que_mem|done|done|done].
  - destruct (recv_ok len k L) as (r & d & k' & -> & L' & E1 & E2 & E3).
    eexists _, _, _. split; [done|]. split; [|by apply mtu_view]. constructor.
    + eapply mem_inv_view; [done|done|rewrite E3; apply M|done].
    + by eapply outs_small_view.
    + done.
    + by eapply stream_view.
  - bool_arith. apply bytes_okb_ok in H.
    destruct (input_ok (seg_sz (mss k)) d k H M) as (r & k' & E & E1 & E2 & M'); [apply M|done|].
    rewrite E. cbn [mbind option_bind]. eexists _, _, _. split; [done|].
    split; [|by apply mtu_view]. constructor; [done|by eapply outs_small_view| |by eapply stream_view].
    by eapply input_len.
  - destruct (update_flush current_ k) as (k1 & T & [-> | ->]);
      destruct (setting_safe _ _ T Sf) as [Sf1 E1]; [by eexists _, _, _|].
    destruct (flush_safe k1 Sf1) as (k2 & -> & Sf2 & E2).
    cbn [mbind option_bind]. eexists _, _, _. split; [done|]. split; [done|congruence].
  - destruct (flush_safe k Sf) as (k2 & -> & Sf2 & E2).
    cbn [mbind option_bind]. by eexists _, _, _.
  - destruct (ikcp_nodelay _ _ _ _ _) as [z k1] eqn:E.
    pose proof (nodelay_tick nodelay_ interval_ resend nc k) as T. rewrite E in T.
    destruct (setting_safe _ _ T Sf). by eexists _, _, _.
  - destruct (ikcp_wndsize _ _ _) as [z k1] eqn:E.
    pose proof (wndsize_tick sndwnd rcvwnd k) as T. rewrite E in T.
    destruct (setting_safe _ _ T Sf). by eexists _, _, _.
Qed.

(** ** The system *)

(** An endpoint: its control block, the messages its user gave [ikcp_send]
    successfully and those [ikcp_recv] returned. *)
Record party : Type := mkparty { cb : ikcpcb; sent : list (list Z); got : list (list Z) }.

Definition perform (o : op) (p : party) : option party :=
  '(r, d, k) ← exec o (cb p);
  Some (mkparty k
    (match o with
     | OpSend buf len => if r =? 0 then sent p ++ [take (Z.to_nat len) buf] else sent p
     | _ => sent p end)
    (match o with
     | OpRecv len => if (0 <=? r) && (0 <=? len) then got p ++ [d] else got p
     | _ => got p end)).

(** What happens at an endpoint: its user makes a call (not [ikcp_input]),
    or the network delivers some datagram the peer has sent so far, perhaps
    once more. *)
Inductive event : Type := Call (o : op) | Deliver (n : nat).

Definition event_op (e : event) (peer : ikcpcb) : option op :=
  match e with
  | Call (OpInput _) => None
  | Call o => Some o
  | Deliver n => d ← outputs peer !! n; Some (OpInput d)
  end.

(** An event that cannot happen is ignored; [None] is a fault. *)
Definition party_step (e : event) (p peer : party) : option party :=
  match event_op e (cb peer) with
  | Some o => if op_ok o (cb p) then perform o p else Some p
  | None => Some p
  end.

Definition sys_step (s : party * party) (e : bool * event) : option (party * party) :=
  if fst e then p ← party_step (snd e) (fst s) (snd s); Some (p, snd s)
  else p ← party_step (snd e) (snd s) (fst s); Some (fst s, p).

Definition run (es : list (bool * event)) (s : party * party) : option (party * party) :=
  foldl (fun r e => s ← r; sys_step s e) (Some s) es.

Definition init (c m : Z) : party := mkparty (create c m) [] [].

(** ** The invariant of an endpoint

    [So] is the stream of fragments it queued for sending, [Si] its peer's. *)
Record party_inv (So Si : list frag) (p : party) : Prop := mk_party_inv {
  pi_safe : safe (cb p);
  pi_snd : snd_inv So (cb p);
  pi_out : outs_ok So (cb p);
  pi_sent : framing So (sent p);
  pi_small : Forall (fun m => Z.of_nat (length m) < 2 ^ 31) (sent p);
  pi_rcv : exists done, rcv_inv Si done (cb p) /\ framing (take done Si) (got p)
}.

(** Few enough messages for the sequence numbers. *)
Definition few (ms : list (list Z)) : Prop := 128 * Z.of_nat (length ms) < 2 ^ 31 - 65536.

Lemma few_bound S ms : framing S ms -> few ms -> stream_bound S.
Proof. intros H%framing_length Hf. unfold few, stream_bound in *. lia. Qed.

Lemma party_inv_peer So Si T p : party_inv So Si p -> party_inv So (Si ++ T) p.
Proof.
  intros [? ? ? ? ? (n & Hr & Hg)]. constructor; auto. exists n.
  split; [by apply rcv_inv_mono|]. rewrite take_app_le; [done|]. apply Hr.
Qed.

Lemma tick_party So Si p k r g :
  party_inv So Si p -> tick_view k = tick_view (cb p) -> r = sent p -> g = got p ->
  party_inv So Si (mkparty k r g).
Proof.
  intros [Sf Sn Ou Fr Sm (n & Hr & Hg)] T -> ->. pose proof T as T'. unfold tick_view in T'.
  injection T' as E1 E2 E3 E4 E5 E6 E7 E8 E9 E10 E11 E12 E13 E14 E15 E16.
  constructor; cbn [cb sent got]; auto.
  - by apply (setting_safe (cb p)).
  - apply (snd_inv_view So (cb p)); [unfold sview; congruence| |done]. rewrite E12. apply Sn.
  - unfold outs_ok. by rewrite E3.
  - exists n. split; [|done]. apply (rcv_inv_view _ _ (cb p)); [|done]. unfold rview. congruence.
Qed.

(** Receiving a message. *)
Lemma recv_party So Si ms len p r d k' :
  party_inv So Si p -> framing Si ms -> stream_bound Si ->
  Forall (fun m => Z.of_nat (length m) < 2 ^ 31) ms ->
  ikcp_recv len (cb p) = Some (r, d, k') ->
  party_inv So Si (mkparty k' (sent p)
    (if (0 <=? r) && (0 <=? len) then got p ++ [d] else got p)).
Proof.
  intros [Sf Sn Ou Fr Sm (n & Hr & Hg)] Hf Hb Hms E.
  destruct (recv_ok len (cb p)) as (r1 & d1 & k1 & E1 & L1 & V1 & V2 & V3); [apply Sf|].
  rewrite E in E1. injection E1 as <- <- <-.
  assert (safe k') as Sf'.
  { destruct Sf as [M O L St]. constructor; [|by eapply outs_small_view|done|by eapply stream_view].
    eapply mem_inv_view; [done|done|rewrite V3; apply M|done]. }
  assert (snd_inv So k') as Sn' by (eapply snd_inv_view; [done|rewrite V3; apply Sn|done]).
  assert (outs_ok So k') as Ou'.
  { unfold outs_ok. unfold sview in V1. injection V1 as _ _ -> _ _ _ _ _. done. }
  constructor; cbn [cb sent got]; auto.
  rewrite <- (take_drop n Si) in Hf. destruct (framing_split _ _ _ _ Hg Hf) as (os & -> & Hos).
  apply Forall_app in Hms as [_ Hms].
  inversion Hos as [Ed|l m T os' Hl HT Ed]; subst.
  - assert (rcv_queue (cb p) = []) as Eq.
    { pose proof (rcv_inv_bound _ _ _ Hr) as Hle. apply (f_equal length) in Ed.
      rewrite length_drop in Ed. cbn in Ed. destruct (rcv_queue (cb p)); [done|cbn in *; lia]. }
    unfold ikcp_recv in E. rewrite Eq in E. simplify_eq. by exists n.
  - apply Forall_cons_iff in Hms as [Hm _].
    destruct (recv_cases Si n (cb p) l m T len Hb Hr (eq_sym Ed) Hl Hm)
      as (r1 & d1 & k1 & E1 & Hres & Hr').
    rewrite E in E1. injection E1 as <- <- <-.
    eexists. split; [exact Hr'|]. unfold recv_result in Hres.
    destruct ((0 <=? r) && (0 <=? len)) eqn:Eb; [|done]. bool_arith.
    repeat (case_match; [lia|]). destruct Hres as [_ ->].
    rewrite <- (take_take_drop Si n), <- Ed, take_app_exact. by apply framing_snoc.
Qed.

Lemma send_party So Si buf len p r k' :
  party_inv So Si p -> len <= Z.of_nat (length buf) -> len < 2 ^ 31 ->
  ikcp_send buf len (cb p) = Some (r, k') ->
  exists T, party_inv (So ++ T) Si
    (mkparty k' (if r =? 0 then sent p ++ [take (Z.to_nat len) buf] else sent p) (got p)) /\
    ((if r =? 0 then sent p ++ [take (Z.to_nat len) buf] else sent p) = sent p -> T = []).
Proof.
  intros I Hb Hlen E. pose proof I as [Sf Sn Ou Fr Sm (n & Hr & Hg)].
  pose proof Sf as [M O L St].
  assert (0 < mss (cb p) < 2 ^ 31) as Hmss by (destruct M; unfold IKCP_OVERHEAD in *; lia).
  destruct (send_cases buf len (cb p)) as [[_ E1]| [[_ E1]| (Hl & q & z & E1 & Hf & _ & Hq)]];
    auto; rewrite E1 in E; injection E as <- <-; cbn [Z.eqb].
  1, 2: exists []; rewrite app_nil_r; by destruct p.
  exists (map fd q). split; [|intros Es%(f_equal length); rewrite length_app in Es; cbn in Es; lia].
  constructor; cbn [cb sent got].
  - constructor; [by apply set_que_mem|done|done|done].
  - by apply set_que_snd.
  - unfold outs_ok. cbn. eapply Forall_impl; [|exact Ou]. intros. by apply wire_mono.
  - by apply framing_snoc.
  - apply Forall_app. split; [done|]. constructor; [|done]. rewrite length_take. lia.
  - exists n. split; [|done]. eapply rcv_inv_view; [|exact Hr]. done.
Qed.

Lemma input_party So Si d p r k' :
  party_inv So Si p -> stream_bound Si -> Forall frag_ok Si -> wire Si d -> bytes_ok d ->
  ackcount (cb p) + Z.of_nat (length d) < 2 ^ 30 ->
  ikcp_input d (cb p) = Some (r, k') -> party_inv So Si (mkparty k' (sent p) (got p)).
Proof.
  intros [Sf Sn Ou Fr Sm (n & Hr & Hg)] Hb Hfo Hw Hby Ha E. pose proof Sf as [M O L St].
  destruct (input_ok (fun s => seg_sz (mss (cb p)) s /\ (seg_cmd s = IKCP_CMD_PUSH /\ seg_ok So s))
              d (cb p) Hby M) as (r1 & k1 & E1 & V & HP & M'); [|done|].
  { apply Forall_and; [apply M|apply Sn]. }
  rewrite E in E1. injection E1 as <- <-.
  constructor; cbn [cb sent got]; auto.
  - constructor; [done|by eapply outs_small_view|by eapply input_len|by eapply stream_view].
  - apply (snd_inv_view So (cb p)); [done| |done]. eapply Forall_impl; [|exact HP]. by intros ? [].
  - unfold outs_ok. unfold sview in V. injection V as _ _ -> _ _ _ _ _. done.
  - exists n. split; [|done]. by eapply input_inv.
Qed.

Lemma flush_party So Si p k' :
  party_inv So Si p -> Z.of_nat (length So) < 2 ^ 32 -> ikcp_flush (cb p) = Some k' ->
  party_inv So Si (mkparty k' (sent p) (got p)).
Proof.
  intros [Sf Sn Ou Fr Sm (n & Hr & Hg)] Hb E. pose proof Sf as [M O L St].
  destruct (flush_snd So _ k' M O Sn Ou Hb E) as [Sn' Ou'].
  destruct (flush_safe _ Sf) as (k2 & E2 & Sf2 & _). rewrite E in E2. injection E2 as <-.
  constructor; cbn [cb sent got]; auto.
  exists n. split; [|done]. eapply rcv_inv_view; [|exact Hr]. symmetry. by apply flush_rview.
Qed.

Lemma update_party So Si t p k' :
  party_inv So Si p -> Z.of_nat (length So) < 2 ^ 32 -> ikcp_update t (cb p) = Some k' ->
  party_inv So Si (mkparty k' (sent p) (got p)).
Proof.
  intros I Hb E. destruct (update_flush t (cb p)) as (k1 & T & [E1|E1]); rewrite E1 in E.
  - injection E as <-. by eapply tick_party.
  - pose proof (tick_party So Si p k1 (sent p) (got p) I T eq_refl eq_refl) as I1.
    exact (flush_party _ _ _ _ I1 Hb E).
Qed.

Lemma perform_inv o p p' So Si ms :
  party_inv So Si p -> framing Si ms -> few ms -> few (sent p) ->
  Forall (fun m => Z.of_nat (length m) < 2 ^ 31) ms ->
  (forall d, o = OpInput d -> wire Si d) -> op_ok o (cb p) = true ->
  perform o p = Some p' -> exists T, party_inv (So ++ T) Si p' /\ (sent p' = sent p -> T = []).
Proof.
  intros I Hf Hms Hfew Hsm Hw Hok. pose proof (few_bound _ _ Hf Hms) as Hb.
  pose proof (few_bound _ _ (pi_sent _ _ _ I) Hfew) as Hbo. unfold stream_bound in Hbo.
  assert (forall q, party_inv So Si q -> exists T, party_inv (So ++ T) Si q /\ (sent q = sent p -> T = [])) as Hsame.
  { intros q ?. exists []. by rewrite app_nil_r. }
  unfold perform. destruct o; cbn [exec op_ok] in *.
  - bool_arith. destruct (ikcp_send buf len (cb p)) as [[r k]|] eqn:E;
      cbn [mbind option_bind]; [|done]. intros. simplify_eq. by eapply send_party.
  - destruct (ikcp_recv len (cb p)) as [[[r d] k]|] eqn:E; cbn [mbind option_bind]; [|done].
    intros. simplify_eq. apply Hsame. by eapply recv_party.
  - bool_arith. apply bytes_okb_ok in H.
    destruct (ikcp_input d (cb p)) as [[r k]|] eqn:E; cbn [mbind option_bind]; [|done].
    intros. simplify_eq. apply Hsame. eapply input_party; eauto using framing_ok.
  - destruct (ikcp_update current_ (cb p)) as [k|] eqn:E; cbn [mbind option_bind]; [|done].
    intros. simplify_eq. apply Hsame. eapply update_party; eauto. lia.
  - destruct (ikcp_flush (cb p)) as [k|] eqn:E; cbn [mbind option_bind]; [|done].
    intros. simplify_eq. apply Hsame. eapply flush_party; eauto. lia.
  - pose proof (nodelay_tick nodelay_ interval_ resend nc (cb p)) as T.
    destruct (ikcp_nodelay _ _ _ _ _) as [z k]. cbn [mbind option_bind]. intros E. injection E as <-.
    apply Hsame. by eapply tick_party.
  - pose proof (wndsize_tick sndwnd rcvwnd (cb p)) as T.
    destruct (ikcp_wndsize _ _ _) as [z k]. cbn [mbind option_bind]. intros E. injection E as <-.
    apply Hsame. by eapply tick_party.
Qed.

Lemma party_step_inv e p p' peer So Si :
  party_inv So Si p -> party_inv Si So peer -> few (sent p) -> few (sent peer) ->
  party_step e p peer = Some p' -> exists T, party_inv (So ++ T) Si p' /\ (sent p' = sent p -> T = []).
Proof.
  intros I J Hp Hq. unfold party_step.
  assert (exists T, party_inv (So ++ T) Si p /\ (sent p = sent p -> T = [])) as Hsame by (exists []; by rewrite app_nil_r).
  destruct (event_op e (cb peer)) as [o|] eqn:Eo; [|by intros; simplify_eq].
  destruct (op_ok o (cb p)) eqn:Eok; [|by intros; simplify_eq]. intros E.
  eapply perform_inv; [exact I|apply J|done|done|apply J| |done|done].
  intros d ->. destruct e as [[]|n]; try done. cbn in Eo.
  destruct (outputs (cb peer) !! n) eqn:En; cbn in Eo; simplify_eq.
  pose proof (pi_out _ _ _ J) as Ho. unfold outs_ok in Ho. by eapply Forall_lookup_1 in Ho.
Qed.

Lemma party_step_safe e p peer :
  safe (cb p) -> exists p', party_step e p peer = Some p' /\ safe (cb p') /\
    exists ms, sent p' = sent p ++ ms.
Proof.
  intros Sf. unfold party_step.
  assert (exists ms, sent p = sent p ++ ms) as Hsame by (exists []; by rewrite app_nil_r).
  destruct (event_op e (cb peer)) as [o|]; [|by exists p].
  destruct (op_ok o (cb p)) eqn:Eok; [|by exists p].
  destruct (exec_safe o (cb p) Sf Eok) as (r & d & k & E & Sf' & _).
  unfold perform. rewrite E. cbn [mbind option_bind]. eexists. split; [done|]. split; [done|].
  cbn [sent]. destruct o; try exact Hsame. case_match; [by eexists|exact Hsame].
Qed.

Lemma run_snoc es e s : run (es ++ [e]) s = (s ← run es s; sys_step s e).
Proof. unfold run. by rewrite foldl_app. Qed.

Lemma create_inv c m :
  mtu_ok m -> safe (create c m) /\ snd_inv [] (create c m) /\ outs_ok [] (create c m) /\
  rcv_inv [] 0 (create c m).
Proof.
  intros Hm. unfold mtu_ok in Hm. pose proof (buffer_size m Hm) as Hb. unfold create, ikcp_setmtu, IKCP_OVERHEAD in *. rewrite Hb.
  rewrite (proj2 (Z.ltb_ge m 50)), (proj2 (Z.ltb_ge m 24)) by lia. cbn [orb snd].
  assert (u32 m = m /\ u32 (m - 24) = m - 24) as [E1 E2]
    by (split; apply wrap_small; unfold in_u; lia).
  split; [constructor|split; [|split]]; try done.
  - constructor; ksimpl; rewrite ?E1, ?E2; unfold IKCP_OVERHEAD; try done; cbn; lia.
  - by constructor; cbn.
  - by constructor; cbn.
Qed.

(** ** Properties *)

(** Memory safety of the system.  From two new control blocks, with any
    admissible calls and deliveries, no call faults. *)
Lemma run_total c m c' m' es :
  mtu_ok m -> mtu_ok m' ->
  exists s, run es (init c m, init c' m') = Some s /\ safe (cb (fst s)) /\ safe (cb (snd s)).
Proof.
  intros Hm Hm'. induction es as [|[[] e] es IH] using rev_ind.
  { eexists. split; [done|]. split; by apply create_inv. }
  all: destruct IH as ([a b] & E & Sa & Sb); rewrite run_snoc, E; cbn [mbind option_bind fst snd] in *.
  all: unfold sys_step; cbn [fst snd].
  - destruct (party_step_safe e a b Sa) as (a' & -> & ? & _). by eexists.
  - destruct (party_step_safe e b a Sb) as (b' & -> & ? & _). by eexists.
Qed.

Definition sys_inv (s : party * party) : Prop :=
  exists Sa Sb, party_inv Sa Sb (fst s) /\ party_inv Sb Sa (snd s).

Lemma few_prefix ms ns : few (ms ++ ns) -> few ms.
Proof. unfold few. rewrite length_app. lia. Qed.

Lemma system_inv c m c' m' es s :
  mtu_ok m -> mtu_ok m' -> run es (init c m, init c' m') = Some s ->
  few (sent (fst s)) -> few (sent (snd s)) -> sys_inv s.
Proof.
  intros Hm Hm'. revert s. induction es as [|[sd e] es IH] using rev_ind; intros s.
  { intros E _ _. injection E as <-. exists [], [].
    destruct (create_inv c m Hm) as (? & ? & ? & ?).
    destruct (create_inv c' m' Hm') as (? & ? & ? & ?).
    split; constructor; try done; try constructor; exists 0%nat; split; try done; constructor. }
  rewrite run_snoc. destruct (run_total c m c' m' es Hm Hm') as ([a b] & E & Sa & Sb).
  rewrite E. cbn [mbind option_bind fst snd] in *. specialize (IH _ E). cbn [fst snd] in IH.
  unfold sys_step. cbn [fst snd]. destruct sd.
  - destruct (party_step_safe e a b Sa) as (a' & Ea & _ & ms & Ems). rewrite Ea.
    cbn [mbind option_bind]. intros Es. injection Es as <-. cbn [fst snd]. rewrite Ems.
    intros Ha%few_prefix Hb. destruct (IH Ha Hb) as (Sa' & Sb' & Ia & Ib).
    destruct (party_step_inv e a a' b _ _ Ia Ib Ha Hb Ea) as (T & Ia' & _).
    exists (Sa' ++ T), Sb'. split; [done|by apply party_inv_peer].
  - destruct (party_step_safe e b a Sb) as (b' & Eb & _ & ms & Ems). rewrite Eb.
    cbn [mbind option_bind]. intros Es. injection Es as <-. cbn [fst snd]. rewrite Ems.
    intros Ha Hb%few_prefix. destruct (IH Ha Hb) as (Sa' & Sb' & Ia & Ib).
    destruct (party_step_inv e b b' a _ _ Ib Ia Hb Ha Eb) as (T & Ib' & _).
    exists Sa', (Sb' ++ T). split; [by apply party_inv_peer|done].
Qed.

Lemma got_prefix So Si p ms :
  party_inv So Si p -> framing Si ms -> got p `prefix_of` ms.
Proof.
  intros [_ _ _ _ _ (n & _ & Hg)] Hf. rewrite <- (take_drop n Si) in Hf.
  destruct (framing_split _ _ _ _ Hg Hf) as (os & -> & _). by exists os.
Qed.


(** A message of three fragments crosses a network that delivers the second
    datagram first and one of them twice. *)
Definition demo_events : list (bool * event) :=
  [(true, Call (OpSend [1; 2; 3; 4; 5; 6; 7; 8; 9; 10; 11; 12; 13; 14; 15; 16; 17; 18; 19; 20;
                        21; 22; 23; 24; 25; 26; 27; 28; 29; 30] 30));
   (true, Call (OpNodelay 1 10 2 1)); (true, Call (OpUpdate 0));
   (false, Deliver 1); (false, Deliver 0); (false, Deliver 1); (false, Call (OpRecv 100))].


(** The control blocks reachable by calls that meet the caller's obligations,
    fed any bytes at all as datagrams. *)
Inductive used (c m : Z) : ikcpcb -> Prop :=
  | used_create : used c m (create c m)
  | used_call o k r d k' :
      used c m k -> op_ok o k = true -> exec o k = Some (r, d, k') -> used c m k'.

Lemma used_safe c m k : mtu_ok m -> used c m k -> safe k /\ mtu k = m.
Proof.
  intros Hm. induction 1 as [|o k r d k' _ [Sf Em] Hok E].
  - destruct (create_inv c m Hm) as (Sf & _). split; [done|].
    unfold create, ikcp_setmtu, mtu_ok, IKCP_OVERHEAD in *.
    rewrite (proj2 (Z.ltb_ge m 50)), (proj2 (Z.ltb_ge m 24)) by lia.
    cbn. apply wrap_small. unfold in_u. lia.
  - destruct (exec_safe o k Sf Hok) as (r1 & d1 & k1 & E1 & Sf1 & Em1).
    rewrite E in E1. injection E1 as <- <- <-. by rewrite Em1.
Qed.



End KcpNet.
