(* ===== verification/KcpProps.v ===== *)
(** * KcpProps: retransmission, acknowledgement and timing of KCP

    What one call of [ikcp_flush], [ikcp_input] or [ikcp_check] does to the
    segments in flight, the hazard of lowering the MTU, and the concrete runs
    that witness the theorems of KcpRecv and KcpNet. *)
From stdpp Require Import sorting.
From S2P Require Import Prelude Bytes Kcp KcpWire KcpRecv KcpSend KcpNet.
Import Kcp KcpNet.
#[local] Arguments wrap : simpl never.
#[local] Arguments sext : simpl never.
#[local] Arguments Z.of_nat : simpl never.

Module KcpProps.

(** ** Retransmission *)

(** [b] is on the wire as a whole: inside a datagram sent, or inside the one
    under construction. *)
Definition infix (b d : list Z) : Prop := exists p q, d = p ++ b ++ q.
Definition emitted (b out : list Z) (k : ikcpcb) : Prop :=
  infix b out \/ Exists (infix b) (outputs k).

Lemma infix_app b d e : infix b d -> infix b (d ++ e).
Proof. intros (p & q & ->). exists p, (q ++ e). by rewrite <- !app_assoc. Qed.

Lemma emitted_app b out k e : emitted b out k -> emitted b (out ++ e) k.
Proof. intros [H|H]; [left; by apply infix_app|by right]. Qed.

Lemma emitted_output b out k :
  b <> [] -> emitted b out k -> Exists (infix b) (outputs (ikcp_output out k)).
Proof.
  intros Hb [(p & q & ->)|H]; unfold ikcp_output; case_match eqn:E.
  - exfalso. destruct b; [done|]. bool_arith. rewrite !length_app in E. cbn in E. lia.
  - apply Exists_app. right. apply Exists_cons_hd. by exists p, q.
  - done.
  - apply Exists_app. by left.
Qed.

Lemma emitted_room b need out k out' k' :
  b <> [] -> emitted b out k -> make_room need out k = (out', k') -> emitted b out' k'.
Proof.
  unfold make_room. intros Hb H E. case_match; simplify_eq; [|done].
  right. by apply emitted_output.
Qed.

(** One iteration of the data loop, as an inversion. *)
Lemma flush_data_inv s q resent rtomin wnd out l k q' out' l' k' :
  flush_data (s :: q) resent rtomin wnd out l k = Some (q', out', l', k') ->
  exists nd s1 l1 k1 out1 k2 s2 q2,
    check_resend resent rtomin s l k = (nd, s1, l1, k1) /\
    flush_data q resent rtomin wnd out1 l1 k2 = Some (q2, out', l', k') /\ q' = s2 :: q2 /\
    if (nd : bool) then
      s2 = sset_una (rcv_nxt k1) (sset_wnd wnd (sset_ts (current k1) s1)) /\
      exists out0 k0, make_room (i32 (IKCP_OVERHEAD + seg_len s2)) out k1 = (out0, k0) /\
        out1 = out0 ++ ikcp_encode_seg s2 ++ (if 0 <? seg_len s2 then data s2 else []) /\
        outputs k2 = outputs k0 /\ nview k2 = nview k0
    else s2 = s1 /\ out1 = out /\ k2 = k1.
Proof.
  cbn [flush_data]. destruct (check_resend resent rtomin s l k) as [[[nd s1] l1] k1].
  destruct nd.
  - set (s2 := sset_una _ _). destruct (make_room _ out k1) as [out0 k0] eqn:Er.
    destruct (put_out (ikcp_encode_seg s2) out0 k0) as [out3|] eqn:E3;
      cbn [mbind option_bind]; [|done].
    assert (out3 = out0 ++ ikcp_encode_seg s2) as ->
      by (unfold put_out in E3; case_match; by simplify_eq).
    destruct (if 0 <? seg_len s2 then _ else _) as [out4|] eqn:E4;
      cbn [mbind option_bind]; [|done].
    assert (out4 = out0 ++ ikcp_encode_seg s2 ++ (if 0 <? seg_len s2 then data s2 else [])).
    { destruct (0 <? seg_len s2); [|simplify_eq; by rewrite app_nil_r].
      unfold put_out in E4. case_match; simplify_eq. by rewrite app_assoc. }
    set (k3 := if dead_link k0 <=? _ then _ else k0).
    destruct (flush_data q resent rtomin wnd out4 l1 k3) as [[[[q5 o5] l5] k5]|] eqn:E5;
      cbn [mbind option_bind]; [|done]. intros. simplify_eq.
    exists true, s1, l1, k1, (out0 ++ ikcp_encode_seg s2 ++ (if 0 <? seg_len s2 then data s2 else [])),
      k3, s2, q5.
    split; [done|]. split; [done|]. split; [done|]. split; [done|].
    exists out0, k0. split; [exact Er|]. split; [done|].
    subst k3. by destruct (dead_link k0 <=? _).
  - destruct (flush_data q resent rtomin wnd out l1 k1) as [[[[q5 o5] l5] k5]|] eqn:E5;
      cbn [mbind option_bind]; [|done]. intros. simplify_eq.
    by exists false, s1, l1, k1, out, k1, s1, q5.
Qed.

Lemma flush_data_emitted b q resent rtomin wnd out l k q' out' l' k' :
  b <> [] -> emitted b out k ->
  flush_data q resent rtomin wnd out l k = Some (q', out', l', k') -> emitted b out' k'.
Proof.
  intros Hb. revert out l k q' out' l' k'.
  induction q as [|s q IH]; intros out l k q' out' l' k' H E; [cbn in E; by simplify_eq|].
  apply flush_data_inv in E as (nd & s1 & l1 & k1 & out1 & k2 & s2 & q2 & Ec & E & _ & Hnd).
  pose proof (check_resend_view resent rtomin s l k) as Hc. rewrite Ec in Hc.
  destruct Hc as (_ & _ & Eo). eapply IH; [|exact E].
  assert (emitted b out k1) as H1 by (unfold emitted; by rewrite Eo).
  destruct nd; [|by destruct Hnd as (_ & -> & ->)].
  destruct Hnd as (_ & out0 & k0 & Er & -> & Eo2 & _).
  apply (emitted_room _ _ _ _ _ _ Hb H1) in Er. apply emitted_app.
  unfold emitted. by rewrite Eo2.
Qed.

(** A segment that has never been sent, or whose retransmission time has
    come. *)
Definition due (k : ikcpcb) (s : IKCPSEG) : Prop :=
  seg_xmit s = 0 \/ 0 <= _itimediff (current k) (seg_resendts s).

(** The copy of [s] on the wire: same number and payload, with the time and
    acknowledgement of the flush. *)
Definition copy_of (s s' : IKCPSEG) (k : ikcpcb) : Prop :=
  payload s' = payload s /\ seg_ts s' = current k /\ seg_una s' = rcv_nxt k /\
  seg_xmit s' = u32 (seg_xmit s + 1).

Lemma check_resend_due resent rtomin s l k :
  due k s -> exists s' l' k', check_resend resent rtomin s l k = (true, s', l', k') /\
    seg_xmit s' = u32 (seg_xmit s + 1) /\ nview k' = nview k.
Proof.
  unfold check_resend. intros [H|H].
  - rewrite H. cbn. by eexists _, _, _.
  - case_match; [by eexists _, _, _|]. rewrite (proj2 (Z.leb_le _ _)) by done.
    eexists _, _, _. split; [done|]. by case_match.
Qed.

Lemma check_resend_nview resent rtomin s l k nd s1 l1 k1 :
  check_resend resent rtomin s l k = (nd, s1, l1, k1) -> nview k1 = nview k.
Proof. unfold check_resend. intros. by repeat case_match; simplify_eq. Qed.

Lemma flush_data_due q resent rtomin wnd out l k q' out' l' k' s :
  s ∈ q -> due k s -> len_true s ->
  flush_data q resent rtomin wnd out l k = Some (q', out', l', k') ->
  exists s', copy_of s s' k /\ s' ∈ q' /\ emitted (ikcp_encode_seg s' ++ data s') out' k'.
Proof.
  intros Hs Hdue Hlen. revert out l k q' out' l' k' Hdue.
  induction q as [|t q IH]; intros out l k q' out' l' k' Hdue E; [by apply elem_of_nil in Hs|].
  apply flush_data_inv in E as (nd & s1 & l1 & k1 & out1 & k2 & s2 & q2 & Ec & E & -> & Hnd).
  pose proof (check_resend_nview _ _ _ _ _ _ _ _ _ Ec) as En.
  apply elem_of_cons in Hs as [<-|Hs].
  - destruct (check_resend_due resent rtomin s l k Hdue) as (s1' & l1' & k1' & E' & Ex & _).
    pose proof (check_resend_view resent rtomin s l k) as Hc. rewrite Ec in E', Hc. injection E' as -> -> -> ->.
    destruct Hc as (Ep & _ & _). destruct Hnd as (-> & out0 & k0 & Er & -> & Eo2 & _).
    unfold nview, rview in En. injection En as E1 E2 E3 E4 E5 _.
    exists (sset_una (rcv_nxt k1') (sset_wnd wnd (sset_ts (current k1') s1'))).
    split; [split; [exact Ep|by rewrite <- E5, <- E2]|]. split; [by left|].
    eapply flush_data_emitted; [|left|exact E].
    { intros Hn. apply (f_equal length) in Hn. rewrite length_app, encode_seg_length in Hn.
      cbn in Hn. lia. }
    unfold payload in Ep. injection Ep as P1 P2 P3 P4 P5 P6.
    exists out0, []. rewrite app_nil_r. ksimpl. f_equal. f_equal.
    case_match eqn:El; [done|]. bool_arith. unfold len_true in Hlen.
    rewrite P5. destruct (data s); [done|]. cbn in Hlen. lia.
  - assert (nview k2 = nview k) as En2.
    { destruct nd; [|by destruct Hnd as (_ & _ & ->)].
      destruct Hnd as (_ & out0 & k0 & Er & _ & _ & ->). rewrite <- En.
      by eapply make_room_nview. }
    unfold nview, rview in En2. injection En2 as E1 E2 E3 E4 E5 _.
    destruct (IH Hs out1 l1 k2 q2 out' l' k') as (s' & (C1 & C2 & C3 & C4) & Hin & Hem);
      [by unfold due; rewrite E5|done|].
    exists s'. split; [|split; [by right|done]]. unfold copy_of. by rewrite <- E5, <- E2.
Qed.

Lemma move_to_buf_extends q cw wnd k :
  exists l, snd_buf (move_to_buf q cw wnd k) = snd_buf k ++ l.
Proof.
  revert k. induction q as [|s q IH]; intros k; cbn [move_to_buf];
    (case_match; [|exists []; by rewrite app_nil_r]); [exists []; by rewrite app_nil_r|].
  match goal with |- context [move_to_buf q cw wnd ?k1] => destruct (IH k1) as (l & ->) end.
  ksimpl. rewrite <- app_assoc. by eexists.
Qed.

(**  Retransmission.  A flush of a connection that has started puts every
    segment in flight that is due on the wire again, whole inside one
    datagram, with its number and payload unchanged and the current time and
    acknowledgement in its header, and keeps it until it is acknowledged. *)
Theorem flush_sends_due k s :
  safe k -> updated k <> 0 -> s ∈ snd_buf k -> due k s ->
  exists k' s', ikcp_flush k = Some k' /\ copy_of s s' k /\ s' ∈ snd_buf k' /\
    Exists (infix (ikcp_encode_seg s' ++ data s')) (outputs k').
Proof.
  intros [M O L St] Hu Hs Hdue. unfold ikcp_flush. apply Z.eqb_neq in Hu. rewrite Hu.
  destruct (flush_mem k M O) as (k' & E & _). revert E. unfold ikcp_flush. rewrite Hu.
  destruct (flush_control (u32 (ikcp_wnd_unused k)) k) as [[out k1]|] eqn:E1;
    cbn [mbind option_bind]; [|done].
  pose proof (flush_control_nview _ _ _ _ E1) as N1.
  assert (snd_buf k1 = snd_buf k) as B1.
  { destruct (flush_control_ok (fun _ => True) I (fun _ _ _ _ _ => I) (u32 (ikcp_wnd_unused k)) k M)
      as (o & k2 & E2 & _ & _ & B2); [|by rewrite E1 in E2; simplify_eq].
    eapply Forall_impl; [|exact O]. by intros. }
  unfold flush_segments.
  pose proof (move_to_buf_nview (snd_queue k1) (send_window k1) (u32 (ikcp_wnd_unused k)) k1) as N2.
  destruct (move_to_buf_extends (snd_queue k1) (send_window k1) (u32 (ikcp_wnd_unused k)) k1)
    as (l & B2).
  set (k2 := move_to_buf _ _ _ _) in *.
  destruct (flush_data _ _ _ _ _ _ k2) as [[[[q o3] l3] k3]|] eqn:E3;
    cbn [mbind option_bind]; [|done].
  rewrite N1 in N2. unfold nview, rview in N2. injection N2 as F1 F2 F3 F4 F5 _.
  assert (s ∈ snd_buf k2) as Hs2 by (rewrite B2, B1; apply elem_of_app; by left).
  assert (due k2 s) as Hdue2 by (unfold due; by rewrite F5).
  assert (len_true s) as Hlen.
  { pose proof (mi_buf _ M) as Hb. rewrite List.Forall_forall in Hb.
    apply Hb. by apply list_elem_of_In. }
  destruct (flush_data_due _ _ _ _ _ _ _ _ _ _ _ _ Hs2 Hdue2 Hlen E3) as (s' & C & Hq & Hem).
  set (k4 := if 0 <? Z.of_nat (length o3) then ikcp_output o3 (set_snd_buf q k3)
             else set_snd_buf q k3).
  intros _. eexists _, s'. split; [done|]. unfold copy_of in *. rewrite F2, F5 in C.
  split; [done|].
  destruct (update_cwnd_view (fast_resent k2) (send_window k1) l3 k4) as (_ & -> & ->).
  assert (snd_buf k4 = q) as ->.
  { subst k4. unfold ikcp_output. by repeat case_match. }
  split; [done|]. subst k4. case_match; bool_arith.
  - apply (emitted_output _ _ (set_snd_buf q k3)); [|exact Hem].
    intros Hn. apply (f_equal length) in Hn. rewrite length_app, encode_seg_length in Hn.
    cbn in Hn. lia.
  - destruct Hem as [(p & r & ->)|Hem]; [|done]. exfalso.
    rewrite !length_app, encode_seg_length in *. lia.
Qed.

(** A connection that sent two messages, the second of which its peer has not
    acknowledged, 1000 milliseconds later. *)
Definition demo_sender : ikcpcb :=
  let k := snd (ikcp_nodelay 1 10 2 1 (ikcp_create 1)) in
  match (r ← ikcp_send [65; 66] 2 k; r ← ikcp_send [67] 1 (snd r); ikcp_update 0 (snd r)) with
  | Some k => set_current 1000 k
  | None => k
  end.

Definition demo_seg0 : IKCPSEG := hd (mkseg 0 0 0 0 0 0 0 0 0 0 0 0 []) (snd_buf demo_sender).

Lemma demo_sender_safe : safe demo_sender.
Proof.
  assert (forall o k k', safe k -> op_ok o k = true -> (exec o k = Some (0, [], k')) -> safe k') as H.
  { intros o k k' Sf Hok E. destruct (exec_safe o k Sf Hok) as (r & d & k1 & E1 & ? & _).
    rewrite E in E1. injection E1 as _ _ <-. done. }
  assert (safe (ikcp_create 1)) as S0.
  { constructor; [apply mem_inv_create|constructor|split; constructor|reflexivity]. }
  pose proof (setting_safe _ _ (nodelay_tick 1 10 2 1 (ikcp_create 1)) S0) as [S1 _].
  assert (exists k2, exec (OpSend [65; 66] 2) (snd (ikcp_nodelay 1 10 2 1 (ikcp_create 1)))
            = Some (0, [], k2) /\ exists k3, exec (OpSend [67] 1) k2 = Some (0, [], k3) /\
          exists k4, exec (OpUpdate 0) k3 = Some (0, [], k4) /\ demo_sender = set_current 1000 k4)
    as (k2 & E2 & k3 & E3 & k4 & E4 & ->).
  { eexists. split; [vm_compute; reflexivity|]. eexists. split; [vm_compute; reflexivity|].
    eexists. split; [vm_compute; reflexivity|]. vm_compute. reflexivity. }
  apply (setting_safe k4); [reflexivity|]. apply (H (OpUpdate 0) k3); [|reflexivity|exact E4].
  apply (H (OpSend [67] 1) k2); [|reflexivity|exact E3].
  eapply (H (OpSend [65; 66] 2)); [exact S1|reflexivity|exact E2].
Qed.

Lemma flush_sends_due_witness :
  updated demo_sender <> 0 /\ demo_seg0 ∈ snd_buf demo_sender /\ due demo_sender demo_seg0 /\
  exists k' s', ikcp_flush demo_sender = Some k' /\ copy_of demo_seg0 s' demo_sender /\
    s' ∈ snd_buf k' /\ Exists (infix (ikcp_encode_seg s' ++ data s')) (outputs k').
Proof.
  assert (updated demo_sender <> 0) as H1 by (vm_compute; discriminate).
  assert (demo_seg0 ∈ snd_buf demo_sender) as H2.
  { assert (snd_buf demo_sender = demo_seg0 :: tl (snd_buf demo_sender)) as E
      by (vm_compute; reflexivity).
    rewrite E. left. }
  assert (due demo_sender demo_seg0) as H3 by (right; vm_compute; discriminate).
  split; [exact H1|]. split; [exact H2|]. split; [exact H3|].
  apply (flush_sends_due demo_sender demo_seg0 demo_sender_safe H1 H2 H3).
Defined.

(** ** Acknowledgement *)

Definition sn_asc (s t : IKCPSEG) : Prop := seg_sn s < seg_sn t.

(** The segments in flight are in order, numbered below [snd_nxt], and the
    numbers have not wrapped around. *)
Record flight_ok (k : ikcpcb) : Prop := mk_flight_ok {
  fo_sorted : StronglySorted sn_asc (snd_buf k);
  fo_range : Forall (fun s => 0 <= seg_sn s < snd_nxt k) (snd_buf k);
  fo_nxt : 0 <= snd_nxt k < 2 ^ 31
}.

Lemma filter_all (f : IKCPSEG -> bool) q : Forall (fun s => f s = true) q -> List.filter f q = q.
Proof. induction 1 as [|s q Hs _ IH]; cbn [List.filter]; [done|]. by rewrite Hs, IH. Qed.

Lemma drop_una_filter una q m :
  0 <= una < 2 ^ 31 -> 0 <= m < 2 ^ 31 -> Forall (fun s => 0 <= seg_sn s < m) q ->
  StronglySorted sn_asc q ->
  fst (drop_una una q) = List.filter (fun s => una <=? seg_sn s) q.
Proof.
  intros Hu Hm Hr Hs. induction Hs as [|s q Hs IH Hf]; [done|].
  apply Forall_cons_iff in Hr as [Hr0 Hr]. cbn [drop_una List.filter].
  rewrite itimediff_small by lia. case_match eqn:E; bool_arith.
  - rewrite (proj2 (Z.leb_gt _ _)) by lia. destruct (drop_una una q). by apply IH.
  - rewrite (proj2 (Z.leb_le _ _)) by lia. cbn [fst]. f_equal. symmetry. apply filter_all.
    eapply Forall_impl; [|exact Hf]. unfold sn_asc. intros t Ht. cbn in *.
    apply Z.leb_le. lia.
Qed.

Lemma remove_ack_filter sn q m :
  0 <= sn < 2 ^ 31 -> 0 <= m < 2 ^ 31 -> Forall (fun s => 0 <= seg_sn s < m) q ->
  StronglySorted sn_asc q ->
  fst (remove_ack sn q) = List.filter (fun s => negb (sn =? seg_sn s)) q.
Proof.
  intros Hu Hm Hr Hs. induction Hs as [|s q Hs IH Hf]; [done|].
  apply Forall_cons_iff in Hr as [Hr0 Hr]. cbn [remove_ack List.filter].
  assert (forall t, sn <= seg_sn s -> sn_asc s t -> negb (sn =? seg_sn t) = true) as Hne.
  { unfold sn_asc. intros t ? ?. apply negb_true_iff, Z.eqb_neq. lia. }
  case_match eqn:E; bool_arith; cbn [negb fst].
  - symmetry. apply filter_all. eapply Forall_impl; [|exact Hf]. intros. apply Hne; [lia|done].
  - rewrite itimediff_small by lia. case_match; bool_arith.
    + cbn [fst]. f_equal. symmetry. apply filter_all.
      eapply Forall_impl; [|exact Hf]. intros. apply Hne; [lia|done].
    + destruct (remove_ack sn q) as [q' b]. cbn [fst] in *. f_equal. by apply IH.
Qed.

Lemma bump_fastack_payload sn q : map payload (bump_fastack sn q) = map payload q.
Proof.
  induction q as [|s q IH]; [done|]. cbn [bump_fastack].
  repeat case_match; cbn [map]; rewrite ?IH; done.
Qed.

Lemma StronglySorted_filter (f : IKCPSEG -> bool) q :
  StronglySorted sn_asc q -> StronglySorted sn_asc (List.filter f q).
Proof.
  induction 1 as [|s q Hs IH Hf]; cbn [List.filter]; [constructor|]. case_match; [|done].
  constructor; [done|]. rewrite List.Forall_forall in *. intros t Ht.
  apply List.filter_In in Ht as [? _]. auto.
Qed.

(** The fields that decide which segments [ikcp_input] removes, before and
    after the cumulative acknowledgement. *)
Lemma parse_una_flight una k :
  0 <= una < 2 ^ 31 -> flight_ok k ->
  let k1 := ikcp_shrink_buf (ikcp_parse_una una k) in
  flight_ok k1 /\ snd_nxt k1 = snd_nxt k /\
  snd_buf k1 = List.filter (fun s => una <=? seg_sn s) (snd_buf k) /\
  Forall (fun s => snd_una k1 <= seg_sn s) (snd_buf k1) /\ 0 <= snd_una k1 < 2 ^ 31.
Proof.
  intros Hu [Hs Hr Hn]. cbn zeta.
  pose proof (drop_una_filter una (snd_buf k) (snd_nxt k) Hu Hn Hr Hs) as Hd.
  pose proof (StronglySorted_filter (fun s => una <=? seg_sn s) _ Hs) as Hs'.
  assert (Forall (fun s => 0 <= seg_sn s < snd_nxt k)
            (List.filter (fun s => una <=? seg_sn s) (snd_buf k))) as Hr'.
  { rewrite List.Forall_forall in *. intros t Ht. apply List.filter_In in Ht as [? _]. auto. }
  unfold ikcp_shrink_buf, ikcp_parse_una. destruct (drop_una una (snd_buf k)) as [q n].
  cbn [fst] in Hd. rewrite <- Hd in *. ksimpl. destruct q as [|s q]; ksimpl.
  - repeat split; ksimpl; try constructor; try done; lia.
  - assert (Forall (fun t => seg_sn s <= seg_sn t) (s :: q)).
    { constructor; [lia|]. apply StronglySorted_inv in Hs' as [_ Hf].
      eapply Forall_impl; [|exact Hf]. unfold sn_asc. intros. lia. }
    apply Forall_cons_iff in Hr' as Hr2. destruct Hr2 as [Hr0 _].
    repeat split; ksimpl; auto; lia.
Qed.

Lemma input_ack_buf h a k :
  snd_buf (snd (input_ack h a k)) =
    if (_itimediff (h_sn h) (snd_una k) <? 0) || (0 <=? _itimediff (h_sn h) (snd_nxt k))
    then snd_buf k else fst (remove_ack (h_sn h) (snd_buf k)).
Proof.
  unfold input_ack. cbn [snd]. set (k1 := if 0 <=? _ then _ else _).
  destruct (parse_ack_view (h_sn h) k1) as (_ & _ & ->).
  assert (snd_buf k1 = snd_buf k /\ snd_una k1 = snd_una k /\ snd_nxt k1 = snd_nxt k)
    as (-> & -> & ->); [|done].
  subst k1. case_match; [|done]. unfold ikcp_update_ack.
  destruct (rx_srtt k =? 0); [done|]. by case_match.
Qed.

Lemma parse_ack_filter h a k :
  flight_ok k -> Forall (fun s => snd_una k <= seg_sn s) (snd_buf k) ->
  0 <= snd_una k < 2 ^ 31 -> 0 <= h_sn h < 2 ^ 31 ->
  snd_buf (snd (input_ack h a k)) =
    List.filter (fun s => negb (h_sn h =? seg_sn s)) (snd_buf k).
Proof.
  intros [Hs Hr Hn] Hlow Hu Hsn. rewrite input_ack_buf.
  rewrite !itimediff_small by lia. case_match eqn:E.
  - symmetry. apply filter_all. rewrite List.Forall_forall in *. intros s Hin.
    specialize (Hlow s Hin). specialize (Hr s Hin). cbn in *.
    apply negb_true_iff, Z.eqb_neq. apply orb_true_iff in E as [E|E]; bool_arith; lia.
  - by apply (remove_ack_filter _ _ (snd_nxt k)).
Qed.

Lemma filter_filter (f g : IKCPSEG -> bool) q :
  List.filter g (List.filter f q) = List.filter (fun s => f s && g s) q.
Proof.
  induction q as [|s q IH]; [done|]. cbn [List.filter]. destruct (f s); cbn [andb List.filter].
  - by rewrite IH.
  - done.
Qed.

(**  An acknowledgement removes from the send buffer exactly the segment it
    names and those below its [una]; all the others stay in flight. *)
Theorem ack_removes_exactly k a :
  flight_ok k -> seg_cmd a = IKCP_CMD_ACK -> seg_len a = 0 ->
  seg_conv a = conv k -> in_u 32 (conv k) ->
  0 <= seg_sn a < 2 ^ 31 -> 0 <= seg_una a < 2 ^ 31 ->
  exists k', ikcp_input (ikcp_encode_seg a) k = Some (0, k') /\
    map payload (snd_buf k') =
    map payload (List.filter (fun s => (seg_una a <=? seg_sn s) && negb (seg_sn a =? seg_sn s))
                   (snd_buf k)).
Proof.
  intros F Hc Hl Hcv Hcu Hsn Hun. unfold ikcp_input. rewrite encode_seg_length.
  change (i32 (Z.of_nat 24) <? IKCP_OVERHEAD) with false. cbn [input_loop].
  rewrite encode_seg_length. change (Z.of_nat 24 <? IKCP_OVERHEAD) with false. cbn iota.
  rewrite <- (app_nil_r (ikcp_encode_seg a)), decode_encode_seg.
  destruct (ctl_header a) as [El _]; [rewrite Hc; by left|done|]. rewrite El.
  unfold wire_header. cbn [h_conv h_cmd h_una h_wnd h_sn h_ts].
  rewrite Hcv, wrap_small, Z.eqb_refl, Hc by done.
  change (u8 IKCP_CMD_ACK) with IKCP_CMD_ACK. cbn [negb length take drop Z.to_nat].
  change ((Z.of_nat 0 <? 0) || (i32 0 <? 0)) with false.
  change (negb (IKCP_CMD_ACK =? IKCP_CMD_PUSH) && negb (IKCP_CMD_ACK =? IKCP_CMD_ACK) &&
    negb (IKCP_CMD_ACK =? IKCP_CMD_WASK) && negb (IKCP_CMD_ACK =? IKCP_CMD_WINS)) with false.
  rewrite Z.eqb_refl. cbn iota. cbn [mbind option_bind].
  rewrite !(wrap_small 32 (seg_una a)) by (unfold in_u; lia).
  set (k0 := set_rmt_wnd _ k).
  destruct (parse_una_flight (seg_una a) k0 Hun) as (F1 & N1 & B1 & U1 & R1);
    [by destruct F; constructor|].
  set (k1 := ikcp_shrink_buf _) in *. set (h := mkhdr _ _ _ _ _ _ _ _).
  pose proof (parse_ack_filter h (mkack false 0 0) k1 F1 U1 R1) as B2.
  assert (h_sn h = seg_sn a) as Eh by (apply wrap_small; unfold in_u; lia).
  rewrite Eh in B2. specialize (B2 Hsn).
  destruct (input_ack h (mkack false 0 0) k1) as [a2 k2]. cbn [snd] in B2.
  cbn [mbind option_bind input_loop length].
  change (Z.of_nat 0 <? IKCP_OVERHEAD) with true. cbn iota. cbn [mbind option_bind negb Z.eqb].
  eexists. split; [done|].
  match goal with |- context [grow_cwnd ?u ?k3] => destruct (grow_cwnd_sview u k3) as (_ & _ & ->) end.
  rewrite <- filter_filter. change (snd_buf k) with (snd_buf k0). rewrite <- B1, <- B2.
  case_match; [|done]. unfold ikcp_parse_fastack. case_match; [done|]. apply bump_fastack_payload.
Qed.

Definition demo_ack : IKCPSEG := mkseg 1 IKCP_CMD_ACK 0 128 0 1 0 0 0 0 0 0 [].

Lemma ack_removes_exactly_witness :
  flight_ok demo_sender /\
  exists k', ikcp_input (ikcp_encode_seg demo_ack) demo_sender = Some (0, k') /\
    map payload (snd_buf k') =
    map payload (List.filter (fun s => (0 <=? seg_sn s) && negb (1 =? seg_sn s))
                   (snd_buf demo_sender)).
Proof.
  assert (flight_ok demo_sender) as F.
  { constructor; vm_compute; [|repeat constructor; discriminate|split; [discriminate|reflexivity]].
    repeat constructor. }
  split; [exact F|].
  apply (ack_removes_exactly demo_sender demo_ack F); try reflexivity;
    split; try reflexivity; vm_compute; discriminate.
Defined.

(** ** Timing *)

Lemma next_resend_bound q cur tm r :
  0 < tm -> next_resend q cur tm = Some r ->
  0 < r <= tm /\ Forall (fun s => r <= _itimediff (seg_resendts s) cur) q.
Proof.
  revert tm. induction q as [|s q IH]; intros tm; cbn [next_resend]; intros Htm E.
  - simplify_eq. split; [lia|done].
  - case_match eqn:Ed; [done|]. bool_arith. apply IH in E as [H1 H2];
      (case_match; bool_arith); try lia; (split; [lia|constructor; [lia|done]]).
Qed.

Lemma itimediff_shift x c d :
  in_i 32 (_itimediff x c + d) -> _itimediff (u32 (x + d)) c = _itimediff x c + d.
Proof.
  intros H. rewrite <- (sext_small 32 (_itimediff x c + d)); [|lia|done].
  unfold _itimediff. rewrite sext_add_l by lia. apply sext_congr. rewrite wrap_sub_l.
  f_equal. lia.
Qed.

Lemma itimediff_shift_r x c d :
  in_i 32 (_itimediff x c - d) -> _itimediff x (u32 (c + d)) = _itimediff x c - d.
Proof.
  intros H. rewrite itimediff_wrap_r. rewrite <- (sext_small 32 (_itimediff x c - d)); [|lia|done].
  unfold _itimediff. rewrite <- (Z.add_opp_r (i32 (x - c)) d), sext_add_l by lia.
  apply sext_congr. f_equal. lia.
Qed.

Lemma itimediff_opp a b :
  -2 ^ 31 < _itimediff b a < 2 ^ 31 -> _itimediff a b = - _itimediff b a.
Proof.
  intros H. rewrite <- (sext_small 32 (- _itimediff b a)); [|lia|unfold in_i; lia].
  unfold _itimediff. apply sext_congr. symmetry.
  transitivity (u32 (0 - u32 (i32 (b - a)))); [by rewrite wrap_sub_r|].
  rewrite wrap_sext, wrap_sub_r by lia. f_equal. lia.
Qed.

(**  [ikcp_check] may be trusted.  The time it returns is at most one interval
    ahead; calling [ikcp_update] at any earlier time would only set the clock
    (it flushes nothing), and no segment in flight comes due before it. *)
Theorem ikcp_check_sound k cur d :
  updated k <> 0 -> in_u 32 cur -> 10 <= interval k <= 5000 ->
  0 <= d < u32 (ikcp_check cur k - cur) ->
  u32 (ikcp_check cur k - cur) <= interval k /\
  ikcp_update (u32 (cur + d)) k = Some (set_current (u32 (cur + d)) k) /\
  Forall (fun s => 0 < _itimediff (seg_resendts s) (u32 (cur + d))) (snd_buf k).
Proof.
  intros Hu Hc Hi. unfold ikcp_check. apply Z.eqb_neq in Hu. rewrite Hu.
  set (far := (10000 <=? _) || (_ <? -10000)).
  assert (u32 (cur - cur) = 0) as Z0 by (by rewrite Z.sub_diag).
  destruct (0 <=? _itimediff cur (if far then cur else ts_flush k)) eqn:Es; [lia|].
  destruct far eqn:Ef.
  { exfalso. bool_arith. unfold _itimediff in Es. rewrite Z.sub_diag in Es. by vm_compute in Es. }
  subst far. bool_arith.
  destruct (next_resend _ _ _) as [tm|] eqn:En; [|lia].
  apply next_resend_bound in En as [Htm Hseg]; [|lia].
  rewrite (itimediff_opp (ts_flush k) cur) by lia.
  set (slap := _itimediff cur (ts_flush k)) in *.
  set (m := if interval k <=? _ then _ else _).
  assert (0 < m <= interval k /\ m <= tm /\ m <= - slap) as (Hm1 & Hm2 & Hm3).
  { subst m. destruct (tm <? - slap) eqn:Et; bool_arith;
      rewrite wrap_small by (unfold in_u; lia); case_match; bool_arith; lia. }
  clearbody m. rewrite wrap_sub_l. replace (cur + m - cur) with m by lia.
  rewrite wrap_small by (unfold in_u; lia). intros Hd. split; [lia|].
  assert (_itimediff (u32 (cur + d)) (ts_flush k) = slap + d) as Esl
    by (apply itimediff_shift; unfold in_i; fold slap; lia).
  split.
  - unfold ikcp_update. ksimpl. rewrite (proj2 (Z.eqb_neq _ _) Hu). ksimpl. rewrite Esl.
    rewrite (proj2 (Z.leb_gt 10000 _)), (proj2 (Z.ltb_ge _ (-10000))) by lia. cbn [orb].
    by rewrite (proj2 (Z.leb_gt 0 _)) by lia.
  - eapply Forall_impl; [|exact Hseg]. cbn beta. intros s Hs.
    rewrite itimediff_shift_r; [lia|].
    pose proof (sext_range 32 (seg_resendts s - cur) ltac:(lia)) as Hr.
    fold (_itimediff (seg_resendts s) cur) in Hr. unfold in_i in *. lia.
Qed.

Lemma ikcp_check_sound_witness :
  let k := match ikcp_update 1000 demo_sender with Some k => k | None => demo_sender end in
  updated k <> 0 /\ 0 <= 3 < u32 (ikcp_check 1000 k - 1000) /\
  u32 (ikcp_check 1000 k - 1000) <= interval k /\
  ikcp_update (u32 (1000 + 3)) k = Some (set_current (u32 (1000 + 3)) k) /\
  Forall (fun s => 0 < _itimediff (seg_resendts s) (u32 (1000 + 3))) (snd_buf k).
Proof.
  set (k := match ikcp_update 1000 demo_sender with Some k => k | None => demo_sender end).
  assert (updated k <> 0) as H1 by (vm_compute; discriminate).
  assert (0 <= 3 < u32 (ikcp_check 1000 k - 1000)) as H2
    by (split; [lia|vm_compute; reflexivity]).
  split; [exact H1|]. split; [exact H2|].
  apply (ikcp_check_sound k 1000 3 H1); [|split; vm_compute; discriminate|exact H2].
  split; [discriminate|reflexivity].
Defined.

(** ** The MTU *)

(** Lowering the MTU with [ikcp_setmtu] while segments cut for the old one are
    queued makes the next flush write past the end of the output buffer: a
    1000-byte message is queued at the default MTU of 1400, the MTU is set to
    50 (which allocates 222 bytes), and [ikcp_update] faults. *)
Theorem setmtu_after_send_overflows :
  (r1 ← ikcp_send (replicate 1000 7) 1000 (ikcp_create 1);
   let k := snd r1 in
   k ← ikcp_update 0 k;
   r2 ← ikcp_send (replicate 1000 7) 1000 k;
   let '(z, k) := ikcp_setmtu 50 (snd r2) in
   Some (fst r1, fst r2, z, buffer k, ikcp_update 100 k)) = Some (0, 0, 0, 222, None).
Proof. vm_compute. reflexivity. Qed.

(** From an MTU of 1431655742 on the size of the buffer wraps: [ikcp_setmtu]
    accepts that MTU with a buffer of two bytes, and the next flush writes past
    its end. *)
Theorem setmtu_wraps :
  (let '(z, k) := ikcp_setmtu 1431655742 (ikcp_create 1) in
   r ← ikcp_send [7] 1 k;
   k ← ikcp_update 0 (snd r);
   Some (z, mtu k, buffer k, fst r, ikcp_update 100 k)) = Some (0, 1431655742, 2, 0, None).
Proof. vm_compute. reflexivity. Qed.

End KcpProps.
