(* ===== verification/KcpTrace.v ===== *)
(** * KcpTrace: what a flush sends, and what a datagram does

    [ikcp_flush] sends a list of segments, cut into datagrams at segment
    boundaries; [ikcp_input] of such a datagram does what its segments do, one
    after another. *)
From S2P Require Import Prelude Bytes Kcp KcpWire KcpRecv KcpSend KcpNet KcpProps.
Import Kcp KcpNet KcpProps.
#[local] Arguments wrap : simpl never.
#[local] Arguments sext : simpl never.
#[local] Arguments Z.of_nat : simpl never.

Module KcpTrace.

(** ** Segments on the wire *)

(** A segment as [ikcp_flush] writes it. *)
Definition enc (s : IKCPSEG) : list Z := ikcp_encode_seg s ++ data s.
Definition chunk (ss : list IKCPSEG) : list Z := concat (enc <$> ss).

Lemma enc_length s : length (enc s) = (24 + length (data s))%nat.
Proof. unfold enc. by rewrite length_app, encode_seg_length. Qed.

Lemma enc_ctl s : data s = [] -> ikcp_encode_seg s = enc s.
Proof. unfold enc. intros ->. by rewrite app_nil_r. Qed.

Lemma chunk_cons s ss : chunk (s :: ss) = enc s ++ chunk ss.
Proof. done. Qed.

Lemma chunk_snoc ss s : chunk (ss ++ [s]) = chunk ss ++ enc s.
Proof. unfold chunk. by rewrite fmap_app, concat_app; cbn; rewrite app_nil_r. Qed.

Lemma chunk_nil ss : chunk ss = [] -> ss = [].
Proof.
  destruct ss as [|s ss]; [done|]. rewrite chunk_cons. intros E%(f_equal length).
  rewrite length_app, enc_length in E. cbn in E. lia.
Qed.

(** ** A flush *)

(** From [outputs k0 = o0] on, the segments [ss] have been written; the last of
    them are in [out]. *)
Definition written (o0 : list (list Z)) (ss : list IKCPSEG) (out : list Z) (k : ikcpcb) : Prop :=
  exists gs g, outputs k = o0 ++ (chunk <$> gs) /\ out = chunk g /\ Forall (fun g => g <> []) gs /\ concat gs ++ g = ss.

Lemma written_init k : written (outputs k) [] [] k.
Proof. exists [], []. by rewrite app_nil_r. Qed.

Lemma written_output o0 ss out k : written o0 ss out k -> written o0 ss [] (ikcp_output out k).
Proof.
  intros (gs & g & Eo & -> & Hg & Es). unfold ikcp_output. case_match eqn:El; bool_arith.
  - assert (g = []) as -> by (apply chunk_nil; by destruct (chunk g)). by exists gs, [].
  - exists (gs ++ [g]), []. ksimpl. rewrite Eo, fmap_app, <- app_assoc. split_and!; [done|done| |].
    + apply Forall_app. split; [done|]. constructor; [|done]. intros ->. by apply El.
    + rewrite concat_app. cbn. by rewrite !app_nil_r.
Qed.

Lemma written_room o0 ss need out k out' k' :
  written o0 ss out k -> make_room need out k = (out', k') -> written o0 ss out' k'.
Proof. unfold make_room. intros H E. case_match; simplify_eq; [by apply written_output|done]. Qed.

Lemma written_snoc o0 ss s out k k' :
  written o0 ss out k -> outputs k' = outputs k -> written o0 (ss ++ [s]) (out ++ enc s) k'.
Proof.
  intros (gs & g & Eo & -> & Hg & Es) E. exists gs, (g ++ [s]). rewrite E, chunk_snoc. split_and!; [done..|].
  by rewrite app_assoc, Es.
Qed.

Lemma put_out_inv d out k out' : put_out d out k = Some out' -> out' = out ++ d.
Proof. unfold put_out. intros. case_match; by simplify_eq. Qed.

(** What the output helpers leave alone. *)
Lemma make_room_eq need out k out' k' : make_room need out k = (out', k') -> k' = set_outputs (outputs k') k.
Proof. unfold make_room, ikcp_output. intros E. repeat case_match; injection E as <- <-; by destruct k. Qed.

(** An acknowledgement, from the header all control segments share. *)
Definition ack_seg (s : IKCPSEG) (p : Z * Z) : IKCPSEG := sset_ts (snd p) (sset_sn (fst p) s).

Lemma flush_acks_trace o0 n : forall i s out k out' s' k' ss,
  data s = [] -> written o0 ss out k -> flush_acks n i s out k = Some (out', s', k') ->
  exists t sn, s' = sset_ts t (sset_sn sn s) /\ k' = set_outputs (outputs k') k /\
    written o0 (ss ++ (ack_seg s <$> take n (drop i (acklist k)))) out' k'.
Proof.
  induction n as [|n IH]; intros i s out k out' s' k' ss Hd Hw E; cbn [flush_acks] in E.
  { injection E as <- <- <-. exists (seg_ts s), (seg_sn s). rewrite take_0. cbn. rewrite app_nil_r.
    split; [by destruct s|]. split; [by destruct k|done]. }
  destruct (make_room _ out k) as [out1 k1] eqn:Er. pose proof (make_room_eq _ _ _ _ _ Er) as Ek1.
  apply (written_room _ _ _ _ _ _ _ Hw) in Er.
  unfold ikcp_ack_get in E. destruct (acklist k1 !! i) as [[sn ts]|] eqn:Ea; cbn [mbind option_bind] in E; [|done].
  destruct (put_out _ out1 k1) as [out2|] eqn:Ep; cbn [mbind option_bind] in E; [|done]. apply put_out_inv in Ep as ->.
  set (s1 := sset_ts ts (sset_sn sn s)) in *.
  rewrite (enc_ctl s1 Hd) in E.
  destruct (IH (S i) s1 _ k1 _ _ _ _ Hd (written_snoc _ _ s1 _ _ k1 Er eq_refl) E) as (t' & sn' & -> & Ek' & Hw').
  exists t', sn'. split; [done|]. split; [by rewrite Ek', Ek1|].
  assert (acklist k1 = acklist k) as Eal by (by rewrite Ek1). rewrite Eal in *.
  rewrite (drop_S _ _ _ Ea). cbn [take fmap list_fmap]. rewrite <- app_assoc in Hw'. exact Hw'.
Qed.

Lemma put_header_trace o0 ss s out k out' k' :
  data s = [] -> written o0 ss out k -> put_header s out k = Some (out', k') ->
  k' = set_outputs (outputs k') k /\ written o0 (ss ++ [s]) out' k'.
Proof.
  unfold put_header. intros Hd Hw E. destruct (make_room _ out k) as [out1 k1] eqn:Er.
  pose proof (make_room_eq _ _ _ _ _ Er) as Ek1. apply (written_room _ _ _ _ _ _ _ Hw) in Er.
  destruct (put_out _ out1 k1) as [out2|] eqn:Ep; cbn [mbind option_bind] in E; [|done]. apply put_out_inv in Ep as ->.
  simplify_eq. split; [done|]. rewrite (enc_ctl s Hd).
  by apply (written_snoc _ _ _ _ k').
Qed.

(** The control segments of a flush. *)
Definition ctl_seg (wnd : Z) (k : ikcpcb) (s : IKCPSEG) : Prop :=
  seg_conv s = conv k /\ seg_una s = rcv_nxt k /\ seg_wnd s = wnd /\ seg_len s = 0 /\ data s = [] /\
  (seg_cmd s = IKCP_CMD_ACK /\ seg_sn s ∈ (fst <$> take (Z.to_nat (ackcount k)) (acklist k)) \/
   seg_cmd s = IKCP_CMD_WASK \/ seg_cmd s = IKCP_CMD_WINS).

(** The control block after the probes are updated. *)
Definition probed (k : ikcpcb) : ikcpcb := update_probe (set_ackcount 0 k).

Lemma probed_eq k : probed k = set_probe (probe (probed k)) (set_ts_probe (ts_probe (probed k))
  (set_probe_wait (probe_wait (probed k)) (set_ackcount 0 k))).
Proof. unfold probed, update_probe. repeat case_match; ksimpl; done. Qed.

Lemma update_probe_outputs o k : update_probe (set_outputs o k) = set_outputs o (update_probe k).
Proof.
  destruct k. unfold update_probe. ksimpl. repeat (case_match; ksimpl); done.
Qed.

Lemma flush_control_trace wnd k out k' : flush_control wnd k = Some (out, k') ->
  exists ctl, written (outputs k) ctl out k' /\ k' = set_outputs (outputs k') (set_probe 0 (probed k)) /\
    Forall (ctl_seg wnd k) ctl /\
    (take (Z.to_nat (ackcount k)) (acklist k) <> [] -> ctl <> []) /\
    (Z.land (probe (probed k)) IKCP_ASK_SEND <> 0 -> exists s, s ∈ ctl /\ seg_cmd s = IKCP_CMD_WASK) /\
    (Z.land (probe (probed k)) IKCP_ASK_TELL <> 0 -> ctl <> []).
Proof.
  unfold flush_control. set (s0 := mkseg _ _ _ _ _ _ _ _ _ _ _ _ _).
  destruct (flush_acks _ _ _ _ _) as [[[o1 s1] k1]|] eqn:E1; cbn [mbind option_bind]; [|done].
  destruct (flush_acks_trace (outputs k) _ _ s0 [] k _ _ _ [] eq_refl (written_init k) E1)
    as (t & sn & Es1 & Ek1 & W1). rewrite drop_0 in W1. cbn [app] in W1.
  assert (update_probe (set_ackcount 0 k1) = set_outputs (outputs k1) (probed k)) as ->.
  { rewrite Ek1. apply (update_probe_outputs (outputs k1) (set_ackcount 0 k)). }
  set (acks := ack_seg s0 <$> _) in *.
  assert (Forall (ctl_seg wnd k) acks) as Hacks.
  { apply Forall_forall. intros s (p & -> & Hp)%list_elem_of_In%list_elem_of_fmap.
    repeat split. left. split; [done|]. exact (list_elem_of_fmap_2 fst _ p Hp). }
  assert (forall c, c = IKCP_CMD_WASK \/ c = IKCP_CMD_WINS -> ctl_seg wnd k (sset_cmd c s1)) as Hs1.
  { intros c Hc. rewrite Es1. repeat split. right. destruct Hc as [->| ->]; [by left|by right]. }
  assert (forall (b : bool) c, c = IKCP_CMD_WASK \/ c = IKCP_CMD_WINS ->
    Forall (ctl_seg wnd k) (if b then [sset_cmd c s1] else [])) as Hopt.
  { intros [] c Hc; [|done]. constructor; [by apply Hs1|done]. }
  assert (data s1 = []) as Hd1 by (by rewrite Es1).
  assert (forall (b : bool) c ss o ka o' kb, written (outputs k) ss o ka ->
    (if b then put_header (sset_cmd c s1) o ka else Some (o, ka)) = Some (o', kb) ->
    kb = set_outputs (outputs kb) ka /\ written (outputs k) (ss ++ if b then [sset_cmd c s1] else []) o' kb) as Hput.
  { intros [] c ss o ka o' kb Hw E; [by eapply put_header_trace|]. injection E as <- <-.
    rewrite app_nil_r. split; [by destruct ka|done]. }
  assert (written (outputs k) acks o1 (set_outputs (outputs k1) (probed k))) as W2.
  { destruct W1 as (gs & g & ? & ? & ? & ?). by exists gs, g. }
  ksimpl. set (ask := negb (Z.land (probe (probed k)) IKCP_ASK_SEND =? 0)).
  set (tell := negb (Z.land (probe (probed k)) IKCP_ASK_TELL =? 0)).
  destruct (if ask then _ else _) as [[o3 k3]|] eqn:E3; cbn [mbind option_bind]; [|done].
  destruct (Hput _ _ _ _ _ _ _ W2 E3) as [Ek3 W3].
  assert (probe k3 = probe (probed k)) as Ep by (by rewrite Ek3). rewrite Ep. fold tell.
  destruct (if tell then _ else _) as [[o4 k4]|] eqn:E4; cbn [mbind option_bind]; [|done].
  destruct (Hput _ _ _ _ _ _ _ W3 E4) as [Ek4 W4]. intros E. injection E as <- <-.
  eexists. split; [exact W4|]. split; [rewrite Ek4, Ek3; by ksimpl|]. split_and!.
  - apply Forall_app. split; [apply Forall_app; split; [done|]|]; apply Hopt; auto.
  - intros Hn Hnil. apply app_eq_nil in Hnil as [Hnil _]. apply app_eq_nil in Hnil as [Hnil _].
    unfold acks in Hnil. by destruct (take _ _).
  - intros Hn. assert (ask = true) as -> by (subst ask; by rewrite (proj2 (Z.eqb_neq _ _) Hn)).
    exists (sset_cmd IKCP_CMD_WASK s1). split; [|done]. apply elem_of_app. left. apply elem_of_app. right. left.
  - intros Hn. assert (tell = true) as -> by (subst tell; by rewrite (proj2 (Z.eqb_neq _ _) Hn)).
    intros Hnil. by apply app_eq_nil in Hnil as [_ ?].
Qed.

(** *** The data segments *)

(** The data loop changes no more than these fields. *)
Definition dframe (k k' : ikcpcb) : Prop := k' = set_outputs (outputs k') (set_state (state k') (set_xmit (xmit k') k)).

Lemma dframe_refl k : dframe k k.
Proof. unfold dframe. by destruct k. Qed.

Lemma dframe_trans k1 k2 k3 : dframe k1 k2 -> dframe k2 k3 -> dframe k1 k3.
Proof. unfold dframe. intros E1 E2. rewrite E2, E1. done. Qed.

Lemma flush_data_frame q resent rtomin wnd out l k q' out' l' k' :
  flush_data q resent rtomin wnd out l k = Some (q', out', l', k') -> dframe k k'.
Proof.
  revert out l k q' out' l' k'.
  induction q as [|s q IH]; intros out l k q' out' l' k'; cbn [flush_data];
    [intros E; injection E as <- <- <- <-; apply dframe_refl|].
  destruct (check_resend resent rtomin s l k) as [[[b s1] l1] k1] eqn:Ec.
  assert (dframe k k1) as F1.
  { revert Ec. unfold check_resend. intros E. repeat case_match; injection E as <- <- <- <-; unfold dframe; by destruct k. }
  destruct b.
  - destruct (make_room _ out k1) as [out2 k2] eqn:E. apply make_room_eq in E.
    destruct (put_out _ _ _) as [out3|]; cbn [mbind option_bind]; [|done].
    destruct (if 0 <? _ then _ else _) as [out4|]; cbn [mbind option_bind]; [|done].
    set (k3 := if dead_link k2 <=? _ then _ else k2).
    assert (dframe k1 k3) as F3 by (subst k3; case_match; unfold dframe; rewrite E; by destruct k1).
    destruct (flush_data q resent rtomin wnd out4 l1 k3) as [[[[q5 o5] l5] k5]|] eqn:E5;
      cbn [mbind option_bind]; [|done]. intros Eq. injection Eq as <- <- <- <-.
    eapply dframe_trans; [exact F1|]. eapply dframe_trans; [exact F3|]. by eapply IH.
  - destruct (flush_data q resent rtomin wnd out l1 k1) as [[[[q5 o5] l5] k5]|] eqn:E5;
      cbn [mbind option_bind]; [|done]. intros Eq. injection Eq as <- <- <- <-.
    eapply dframe_trans; [exact F1|]. by eapply IH.
Qed.

(** A copy of a segment in flight. *)
Definition push_seg (wnd una : Z) (q : list IKCPSEG) (s : IKCPSEG) : Prop :=
  seg_una s = una /\ seg_wnd s = wnd /\ exists t, t ∈ q /\ payload s = payload t.

Lemma push_seg_more wnd una q t s : push_seg wnd una q s -> push_seg wnd una (t :: q) s.
Proof. intros (? & ? & u & Hu & E). split; [done|]. split; [done|]. exists u. split; [by right|done]. Qed.

Lemma payload_len s t : payload s = payload t -> len_true t -> len_true s.
Proof. unfold payload, len_true. intros E. by injection E as _ _ _ -> -> _. Qed.

Lemma flush_data_trace o0 q resent rtomin wnd : forall out l k q' out' l' k' ss,
  written o0 ss out k -> Forall len_true q -> flush_data q resent rtomin wnd out l k = Some (q', out', l', k') ->
  exists ps, written o0 (ss ++ ps) out' k' /\ Forall (push_seg wnd (rcv_nxt k) q) ps /\
    map payload q' = map payload q /\
    (forall s, s ∈ q -> due k s -> exists s', s' ∈ ps /\ payload s' = payload s).
Proof.
  induction q as [|s q IH]; intros out l k q' out' l' k' ss Hw Hl E.
  { cbn in E. injection E as <- <- <- <-. exists []. rewrite app_nil_r. split_and!; [done..|]. by intros s ?%elem_of_nil. }
  apply Forall_cons_iff in Hl as [Hls Hl].
  apply flush_data_inv in E as (nd & s1 & l1 & k1 & out1 & k2 & s2 & q2 & Ec & E & -> & Hnd).
  pose proof (check_resend_nview _ _ _ _ _ _ _ _ _ Ec) as En.
  pose proof (check_resend_view resent rtomin s l k) as Hc. rewrite Ec in Hc. destruct Hc as (Ep & _ & Eo).
  assert (nview k2 = nview k /\ payload s2 = payload s /\ exists ps0, written o0 (ss ++ ps0) out1 k2 /\
    Forall (push_seg wnd (rcv_nxt k) (s :: q)) ps0 /\ (due k s -> s2 ∈ ps0)) as (En2 & Ep2 & ps0 & W2 & Hps0 & Hdue).
  { assert (written o0 ss out k1) as W1 by (unfold written; by rewrite Eo).
    pose proof (f_equal (fun v => fst (fst v)) En) as Er. unfold nview, rview in Er. cbn in Er. injection Er as _ Er _ _.
    destruct nd.
    - destruct Hnd as (E2 & out0 & k0 & Erm & -> & Eo2 & ->). pose proof (make_room_nview _ _ _ _ _ Erm) as ->.
      apply (written_room _ _ _ _ _ _ _ W1) in Erm. split; [done|]. split; [by rewrite E2|].
      exists [s2]. assert (payload s2 = payload s) as Ep2 by (by rewrite E2).
      assert ((if 0 <? seg_len s2 then data s2 else []) = data s2) as ->.
      { pose proof (payload_len _ _ Ep2 Hls) as H2. unfold len_true in H2. case_match eqn:Ez; [done|]. bool_arith.
        destruct (data s2); [done|cbn in H2; lia]. }
      split; [by apply (written_snoc _ _ _ _ k0)|]. split; [|intros _; left].
      constructor; [|done]. split; [by rewrite E2|]. split; [by rewrite E2|]. exists s. split; [left|done].
    - destruct Hnd as (-> & -> & ->). split; [done|]. split; [done|]. exists []. rewrite app_nil_r. split_and!; [done..|].
      intros Hd. destruct (check_resend_due resent rtomin s l k Hd) as (? & ? & ? & E' & _). rewrite Ec in E'. discriminate. }
  assert (rcv_nxt k2 = rcv_nxt k /\ current k2 = current k) as [Er2 Ec2].
  { unfold nview, rview in En2. by injection En2 as _ -> _ _ -> _. }
  destruct (IH _ _ _ _ _ _ _ _ W2 Hl E) as (ps & W & Hps & Epl & Hd). rewrite Er2 in Hps.
  exists (ps0 ++ ps). rewrite app_assoc. split; [done|]. split_and!.
  - apply Forall_app. split; [done|]. eapply Forall_impl; [|exact Hps]. intros. by apply push_seg_more.
  - cbn. by rewrite Epl, Ep2.
  - intros t [->|Ht]%elem_of_cons Hdt.
    + exists s2. split; [|done]. apply elem_of_app. left. by apply Hdue.
    + destruct (Hd t Ht) as (t' & Ht' & Et); [by unfold due; rewrite Ec2|]. exists t'. split; [|done]. apply elem_of_app. by right.
Qed.

(** *** The whole flush *)

(** The window a flush announces. *)
Definition flush_wnd (k : ikcpcb) : Z := u32 (ikcp_wnd_unused k).

(** The control block once the segments the window allows are in flight. *)
Definition moved (o : list (list Z)) (k : ikcpcb) : ikcpcb :=
  move_to_buf (snd_queue k) (send_window k) (flush_wnd k) (set_outputs o (set_probe 0 (probed k))).

(** What the rest of the flush keeps. *)
Definition keep (k : ikcpcb) :=
  (conv k, snd_una k, snd_nxt k, rmt_wnd k, snd_wnd k, rcv_wnd k, snd_queue k, rview k,
   (acklist k, ackcount k, current k, probe k, (probe_wait k, ts_probe k, updated k, nocwnd k))).

Lemma update_cwnd_keep r c l k : keep (update_cwnd r c l k) = keep k /\ 1 <= cwnd (update_cwnd r c l k).
Proof.
  unfold update_cwnd. destruct (negb (change l =? 0)), (lost l); cbv zeta.
  all: repeat lazymatch goal with |- context [if ?b then _ else _] => destruct b eqn:? end.
  all: split; [reflexivity|]; bool_arith; ksimpl; lia.
Qed.

Lemma move_to_buf_len q cw wnd k : Forall len_true q ->
  exists l, snd_buf (move_to_buf q cw wnd k) = snd_buf k ++ l /\ Forall len_true l.
Proof.
  revert k. induction q as [|s q IH]; intros k Hq; cbn [move_to_buf];
    (case_match; [|exists []; by rewrite app_nil_r]); [exists []; by rewrite app_nil_r|].
  apply Forall_cons_iff in Hq as [Hs Hq].
  match goal with |- context [move_to_buf q cw wnd ?k1] => destruct (IH k1 Hq) as (l & -> & Hl) end.
  ksimpl. rewrite <- app_assoc. eexists. split; [done|]. constructor; done.
Qed.

(** The datagrams [gs] of a flush: the acknowledgements, the probes, and a
    copy of every segment that is due. *)
Record flush_gives (k k' : ikcpcb) (o : list (list Z)) (gs : list (list IKCPSEG)) : Prop := mk_flush_gives {
  fg_out : outputs k' = outputs k ++ (chunk <$> gs);
  fg_ne : Forall (fun g => g <> []) gs;
  fg_segs : Forall (fun s => ctl_seg (flush_wnd k) k s \/ push_seg (flush_wnd k) (rcv_nxt k) (snd_buf (moved o k)) s) (concat gs);
  fg_ack : take (Z.to_nat (ackcount k)) (acklist k) <> [] -> gs <> [];
  fg_ask : Z.land (probe (probed k)) IKCP_ASK_SEND <> 0 -> exists s, s ∈ concat gs /\ seg_cmd s = IKCP_CMD_WASK;
  fg_tell : Z.land (probe (probed k)) IKCP_ASK_TELL <> 0 -> gs <> [];
  fg_due : forall s, s ∈ snd_buf (moved o k) -> due k s -> exists s', s' ∈ concat gs /\ payload s' = payload s;
  fg_buf : map payload (snd_buf k') = map payload (snd_buf (moved o k));
  fg_keep : keep k' = keep (moved o k);
  fg_cwnd : 1 <= cwnd k'
}.

Lemma flush_trace k k' :
  updated k <> 0 -> Forall len_true (snd_buf k) -> Forall len_true (snd_queue k) -> ikcp_flush k = Some k' ->
  exists o gs, flush_gives k k' o gs.
Proof.
  intros Hu Hlb Hlq. unfold ikcp_flush. rewrite (proj2 (Z.eqb_neq _ _) Hu). fold (flush_wnd k).
  destruct (flush_control (flush_wnd k) k) as [[out k1]|] eqn:E1; cbn [mbind option_bind]; [|done].
  destruct (flush_control_trace _ _ _ _ E1) as (ctl & W1 & Ek1 & Hctl & Hack & Hask & Htell).
  unfold flush_segments.
  assert (send_window k1 = send_window k /\ snd_queue k1 = snd_queue k /\ current k1 = current k /\ rcv_nxt k1 = rcv_nxt k /\
    snd_buf k1 = snd_buf k) as (-> & -> & Ec1 & Er1 & Eb1) by (rewrite Ek1, probed_eq; done).
  set (o := outputs k1). assert (k1 = set_outputs o (set_probe 0 (probed k))) as Ek1' by exact Ek1. clearbody o.
  rewrite Ek1' at 1 2 3 4. fold (moved o k). set (km := moved o k).
  assert (nview km = nview k1) as Nm by (unfold km, moved; rewrite move_to_buf_nview; by rewrite Ek1').
  assert (outputs km = outputs k1) as Om.
  { destruct (move_to_buf_view (snd_queue k) (send_window k) (flush_wnd k) (set_outputs o (set_probe 0 (probed k))))
      as (_ & _ & _ & E & _). rewrite Ek1'. exact E. }
  assert (rcv_nxt km = rcv_nxt k /\ current km = current k) as [Erm Ecm].
  { unfold nview, rview in Nm. injection Nm as _ Nm _ _ Nc _. by rewrite Nm, Nc. }
  assert (Forall len_true (snd_buf km)) as Hlm.
  { destruct (move_to_buf_len (snd_queue k) (send_window k) (flush_wnd k) (set_outputs o (set_probe 0 (probed k)))) as (l & El & Hl); [done|].
    unfold km, moved. rewrite El. apply Forall_app. split; [|done].
    assert (snd_buf (set_outputs o (set_probe 0 (probed k))) = snd_buf k) as -> by (rewrite probed_eq; done). done. }
  destruct (flush_data _ _ _ _ _ _ km) as [[[[q o3] l3] k3]|] eqn:E3; cbn [mbind option_bind]; [|done].
  assert (written (outputs k) ctl out km) as Wm by (unfold written; by rewrite Om).
  pose proof (flush_data_frame _ _ _ _ _ _ _ _ _ _ _ E3) as F3.
  destruct (flush_data_trace _ _ _ _ _ _ _ _ _ _ _ _ _ Wm Hlm E3) as (ps & W3 & Hps & Epl & Hdue).
  assert (written (outputs k) (ctl ++ ps) [] (if 0 <? Z.of_nat (length o3) then ikcp_output o3 (set_snd_buf q k3) else set_snd_buf q k3)) as W4.
  { case_match eqn:El; bool_arith; [by apply (written_output _ _ _ (set_snd_buf q k3))|].
    assert (o3 = []) as -> by (by destruct o3). exact W3. }
  set (k4 := if 0 <? _ then _ else _) in *.
  assert (keep k4 = keep km /\ snd_buf k4 = q) as [K4 B4].
  { pose proof (f_equal keep F3) as K3. change (keep k3 = keep km) in K3. rewrite <- K3.
    subst k4. unfold ikcp_output. by repeat case_match. }
  intros Eq. injection Eq as Eq.
  match type of Eq with update_cwnd ?r ?c ?l ?k = _ =>
    destruct (update_cwnd_view r c l k) as (_ & Eou & Ebu); destruct (update_cwnd_keep r c l k) as [Eke Hcw] end.
  rewrite Eq in Eou, Ebu, Eke, Hcw.
  destruct W4 as (gs & g & Eo & Eg & Hg & Es). symmetry in Eg. apply chunk_nil in Eg as ->. rewrite app_nil_r in Es.
  exists o, gs. constructor; rewrite ?Eou, ?Ebu, ?Eke, ?Es; [done|done| | | | | | |by rewrite K4|done].
  - apply Forall_app. split; [eapply Forall_impl; [|exact Hctl]; by left|].
    rewrite Erm in Hps. eapply Forall_impl; [|exact Hps]. by right.
  - intros Hn Hgs. subst gs. cbn in Es. symmetry in Es. apply app_eq_nil in Es as [Es _]. by apply Hack.
  - intros Hn. destruct (Hask Hn) as (s & Hs & Hc). exists s. split; [|done]. apply elem_of_app. by left.
  - intros Hn Hgs. subst gs. cbn in Es. symmetry in Es. apply app_eq_nil in Es as [Es _]. by apply Htell.
  - intros s Hs Hd. destruct (Hdue s Hs) as (s' & Hs' & E); [by unfold due; rewrite Ecm|].
    exists s'. split; [|done]. apply elem_of_app. by right.
  - by rewrite B4.
Qed.

(** ** A datagram *)

(** A segment [ikcp_input] of a conversation takes. *)
Definition wf_seg (c : Z) (s : IKCPSEG) : Prop :=
  u32 (seg_conv s) = c /\ seg_len s = Z.of_nat (length (data s)) /\ seg_len s < 2 ^ 31 /\
  In (seg_cmd s) [IKCP_CMD_PUSH; IKCP_CMD_ACK; IKCP_CMD_WASK; IKCP_CMD_WINS].

(** What every segment does first. *)
Definition input_head (s : IKCPSEG) (k : ikcpcb) : ikcpcb :=
  ikcp_shrink_buf (ikcp_parse_una (u32 (seg_una s)) (set_rmt_wnd (u16 (seg_wnd s)) k)).

Definition input_seg (s : IKCPSEG) (a : ackstate) (k : ikcpcb) : option (ackstate * ikcpcb) :=
  let k := input_head s k in
  if seg_cmd s =? IKCP_CMD_ACK then Some (input_ack (wire_header s) a k)
  else if seg_cmd s =? IKCP_CMD_PUSH then k ← input_push (wire_header s) (data s) k; Some (a, k)
  else if seg_cmd s =? IKCP_CMD_WASK then Some (a, set_probe (Z.lor (probe k) IKCP_ASK_TELL) k)
  else Some (a, k).

Fixpoint input_segs (ss : list IKCPSEG) (a : ackstate) (k : ikcpcb) : option (ackstate * ikcpcb) :=
  match ss with
  | [] => Some (a, k)
  | s :: ss => '(a, k) ← input_seg s a k; input_segs ss a k
  end.

Lemma input_head_sview s k : sview (input_head s k) = sview k.
Proof. unfold input_head. by destruct (parse_una_sview (u32 (seg_una s)) (set_rmt_wnd (u16 (seg_wnd s)) k)) as [-> _]. Qed.

Lemma ack_push_sview sn ts k k' : ikcp_ack_push sn ts k = Some k' ->
  sview k' = sview k /\ snd_buf k' = snd_buf k /\ snd_una k' = snd_una k.
Proof. unfold ikcp_ack_push. intros E. repeat split_if_in E; simplify_eq; done. Qed.

Lemma input_push_sview h d k k' : input_push h d k = Some k' -> sview k' = sview k /\ snd_buf k' = snd_buf k.
Proof.
  unfold input_push. case_match; [|intros E; by injection E as <-].
  destruct (ikcp_ack_push _ _ k) as [k1|] eqn:Ek; cbn [mbind option_bind]; [|done].
  apply ack_push_sview in Ek as (E1 & E2 & _). case_match; intros E; injection E as <-; [|done].
  match goal with |- context [ikcp_parse_data ?s k1] => destruct (parse_data_sview s k1) as (-> & _ & ->) end. done.
Qed.

Lemma input_seg_sview s a k a' k' : input_seg s a k = Some (a', k') -> sview k' = sview k.
Proof.
  unfold input_seg. pose proof (input_head_sview s k) as Eh. set (k1 := input_head s k) in *.
  case_match; [|case_match; [|case_match]].
  - intros E. apply (inj Some) in E. destruct (input_ack_sview (fun _ => True) (wire_header s) a k1) as (Es & _).
    rewrite E in Es. cbn [snd] in Es. by rewrite Es.
  - destruct (input_push _ _ k1) as [k2|] eqn:Ep; cbn [mbind option_bind]; [|done]. intros E. injection E as <- <-.
    apply input_push_sview in Ep as [-> _]. done.
  - intros E. injection E as <- <-. exact Eh.
  - intros E. by injection E as <- <-.
Qed.

Lemma sview_conv k k' : sview k' = sview k -> conv k' = conv k.
Proof. unfold sview. intros E. by injection E as _ _ _ _ _ _ _ ->. Qed.

Lemma wf_header c s : wf_seg c s -> h_conv (wire_header s) = c /\ h_len (wire_header s) = seg_len s /\
  i32 (seg_len s) = seg_len s /\ 0 <= seg_len s /\ h_cmd (wire_header s) = seg_cmd s.
Proof.
  intros (Hc & Hl & Hb & Hcmd). cbn [wire_header h_conv h_len h_cmd]. split_and!; [done| | |lia|].
  - apply wrap_small. unfold in_u. lia.
  - apply sext_small; [lia|]. unfold in_i. lia.
  - cbn [In] in Hcmd. destruct Hcmd as [<-|[<-|[<-|[<-|[]]]]]; done.
Qed.

Lemma input_loop_chunk c ss : forall fuel a k, Forall (wf_seg c) ss -> conv k = c -> (length (chunk ss) <= fuel)%nat ->
  input_loop fuel (chunk ss) a k = ('(a, k) ← input_segs ss a k; Some (0, a, k)).
Proof.
  induction ss as [|s ss IH]; intros fuel a k Hw Hc Hf; [by destruct fuel|].
  apply Forall_cons_iff in Hw as [Hs Hw]. destruct (wf_header c s Hs) as (Ehc & Ehl & Ei & H0 & Ecmd).
  rewrite chunk_cons in *. rewrite length_app, enc_length in Hf. destruct fuel as [|fuel]; [lia|].
  cbn [input_loop]. unfold IKCP_OVERHEAD. rewrite length_app, enc_length.
  destruct (Z.ltb_spec (Z.of_nat (24 + length (data s) + length (chunk ss))) 24); [lia|].
  unfold enc. rewrite <- app_assoc, decode_encode_seg. rewrite Ehc, Hc, Z.eqb_refl. cbn [negb].
  destruct Hs as (_ & Hl & Hlb & Hcmd). rewrite Ehl, Ei, length_app, Hl.
  destruct (Z.ltb_spec (Z.of_nat (length (data s) + length (chunk ss))) (Z.of_nat (length (data s)))); [lia|].
  destruct (Z.ltb_spec (Z.of_nat (length (data s))) 0); [lia|]. cbn [orb]. rewrite Nat2Z.id, take_app_exact, drop_app_exact, Ecmd.
  assert (negb (seg_cmd s =? IKCP_CMD_PUSH) && negb (seg_cmd s =? IKCP_CMD_ACK) && negb (seg_cmd s =? IKCP_CMD_WASK)
    && negb (seg_cmd s =? IKCP_CMD_WINS) = false) as ->.
  { cbn [In] in Hcmd. destruct Hcmd as [<-|[<-|[<-|[<-|[]]]]]; done. }
  cbn [input_segs]. unfold input_seg at 1. cbv zeta.
  change (ikcp_shrink_buf (ikcp_parse_una (h_una (wire_header s)) (set_rmt_wnd (h_wnd (wire_header s)) k))) with (input_head s k).
  destruct (if seg_cmd s =? IKCP_CMD_ACK then _ else _) as [[a1 k1]|] eqn:E1; cbn [mbind option_bind]; [|done].
  apply IH; [done| |lia]. rewrite <- Hc. apply sview_conv, (input_seg_sview s a k a1 k1). exact E1.
Qed.

Lemma input_chunk c ss k r k' :
  Forall (wf_seg c) ss -> ss <> [] -> conv k = c -> Z.of_nat (length (chunk ss)) < 2 ^ 31 ->
  ikcp_input (chunk ss) k = Some (r, k') ->
  exists a1 k1, input_segs ss (mkack false 0 0) k = Some (a1, k1) /\
    k' = grow_cwnd (snd_una k) (if flag a1 then ikcp_parse_fastack (maxack a1) k1 else k1).
Proof.
  intros Hw Hne Hc Hl. unfold ikcp_input, IKCP_OVERHEAD.
  assert (24 <= length (chunk ss))%nat by (destruct ss as [|s ss]; [done|]; rewrite chunk_cons, length_app, enc_length; lia).
  rewrite sext_small by (unfold in_i; lia). destruct (Z.ltb_spec (Z.of_nat (length (chunk ss))) 24); [lia|].
  rewrite (input_loop_chunk c) by done.
  destruct (input_segs ss _ k) as [[a1 k1]|]; cbn [mbind option_bind]; [|done].
  cbn [Z.eqb negb]. intros E. injection E as <- <-. by exists a1, k1.
Qed.

End KcpTrace.
