(* ===== verification/KcpFlow.v ===== *)
(** * KcpFlow: nothing is lost

    The invariant of two KCP endpoints that is needed for their progress: what
    a party removed from its send buffer the other has stored, a datagram that
    is still in the network acknowledges nothing else, and no segment that
    could be queued waits in a receive buffer. *)
From stdpp Require Import sorting.
From S2P Require Import Prelude Bytes Kcp KcpWire KcpRecv KcpSend KcpNet KcpProps KcpTrace.
Import Kcp KcpNet KcpProps KcpTrace.
#[local] Arguments wrap : simpl never.
#[local] Arguments sext : simpl never.
#[local] Arguments Z.of_nat : simpl never.

Module KcpFlow.

(** ** Invariants *)

(** The numbers of the segments in flight. *)
Definition sns (k : ikcpcb) : list Z := map seg_sn (snd_buf k).

Lemma sorted_sns q : StronglySorted sn_asc q <-> StronglySorted Z.lt (map seg_sn q).
Proof.
  induction q as [|s q IH]; cbn; [by split; constructor|].
  split; intros [Hs Hf]%StronglySorted_inv; (constructor; [by apply IH|]).
  - rewrite List.Forall_map. exact Hf.
  - rewrite List.Forall_map in Hf. exact Hf.
Qed.

Lemma flight_sns k : flight_ok k <->
  StronglySorted Z.lt (sns k) /\ Forall (fun n => 0 <= n < snd_nxt k) (sns k) /\ 0 <= snd_nxt k < 2 ^ 31.
Proof.
  unfold sns. rewrite <- sorted_sns, List.Forall_map. split; [by intros []|by intros (? & ? & ?)].
Qed.

(** The first unacknowledged number. *)
Definition una_ok (k : ikcpcb) : Prop := snd_una k = hd (snd_nxt k) (sns k).

(** Nothing waits in the receive buffer that the queue, which holds fewer
    segments than the least window, could take. *)
Definition drained (k : ikcpcb) : Prop :=
  match rcv_buf k with [] => True | s :: _ => seg_sn s <> rcv_nxt k \/ IKCP_WND_RCV <= nrcv_que k end.

(** A segment a party may have sent: its acknowledgements are of what it
    has. *)
Definition good (c : Z) (So : list frag) (k : ikcpcb) (s : IKCPSEG) : Prop :=
  seg_conv s = c /\ 0 <= seg_una s <= rcv_nxt k /\
  (seg_len s = 0 /\ data s = [] /\
     (seg_cmd s = IKCP_CMD_ACK /\ 0 <= seg_sn s < 2 ^ 31 /\ stored (seg_sn s) k \/
      seg_cmd s = IKCP_CMD_WASK \/ seg_cmd s = IKCP_CMD_WINS) \/
   seg_cmd s = IKCP_CMD_PUSH /\ seg_ok So s).

Definition good_dgram (c : Z) (So : list frag) (k : ikcpcb) (d : list Z) : Prop :=
  exists ss, ss <> [] /\ d = chunk ss /\ Forall (good c So k) ss.

Record flow_inv (c : Z) (So : list frag) (k : ikcpcb) : Prop := mk_flow_inv {
  fl_conv : conv k = c;
  fl_segs : Forall (fun s => seg_conv s = c) (snd_buf k);
  fl_flight : flight_ok k;
  fl_una : una_ok k;
  fl_ord : rcv_ord k;
  fl_drained : drained k;
  fl_rwnd : IKCP_WND_RCV <= rcv_wnd k < 65536;
  fl_swnd : 0 < snd_wnd k;
  fl_rmt : 0 <= rmt_wnd k < 65536;
  fl_acks : Forall (fun p => 0 <= fst p < 2 ^ 31 /\ stored (fst p) k) (take (Z.to_nat (ackcount k)) (acklist k));
  fl_outs : Forall (good_dgram c So k) (outputs k)
}.

(** What of [k]'s stream is sent is in flight, or stored by the peer. *)
Definition covers (k peer : ikcpcb) : Prop := forall i, 0 <= i < snd_nxt k -> stored i peer \/ i ∈ sns k.

(** ** Storing more *)

(** [k'] has stored what [k] has. *)
Definition more (k k' : ikcpcb) : Prop := rcv_nxt k <= rcv_nxt k' /\ forall i, stored i k -> stored i k'.

Lemma more_refl k : more k k.
Proof. by split. Qed.

Lemma more_trans k1 k2 k3 : more k1 k2 -> more k2 k3 -> more k1 k3.
Proof. intros [? H1] [? H2]. split; [lia|auto]. Qed.

Lemma more_view k k' : rview k' = rview k -> more k k'.
Proof. unfold rview, more, stored. intros E. injection E as _ -> _ ->. done. Qed.

Lemma good_more c So T k k' s : more k k' -> good c So k s -> good c (So ++ T) k' s.
Proof.
  intros [Hn Hs] (Hc & Hu & H). split; [done|]. split; [lia|].
  destruct H as [(Hl & Hd & H)|[Hp H]]; [left|right; split; [done|by apply seg_ok_mono]].
  split; [done|]. split; [done|]. destruct H as [(? & ? & ?)|?]; [left|by right]. auto.
Qed.

Lemma good_dgram_more c So T k k' d : more k k' -> good_dgram c So k d -> good_dgram c (So ++ T) k' d.
Proof.
  intros Hm (ss & Hne & -> & Hs). exists ss. split; [done|]. split; [done|].
  eapply Forall_impl; [|exact Hs]. intros s. by apply good_more.
Qed.

Lemma good_dgram_more0 c So k k' d : more k k' -> good_dgram c So k d -> good_dgram c So k' d.
Proof. rewrite <- (app_nil_r So) at 2. apply good_dgram_more. Qed.

Lemma acks_more k k' l : more k k' ->
  Forall (fun p : Z * Z => 0 <= fst p < 2 ^ 31 /\ stored (fst p) k) l -> Forall (fun p => 0 <= fst p < 2 ^ 31 /\ stored (fst p) k') l.
Proof. intros [_ H]. apply Forall_impl. intros p [? ?]. auto. Qed.

(** ** A flush *)

Lemma flight_snoc k s k' : flight_ok k -> snd_buf k' = snd_buf k ++ [s] -> seg_sn s = snd_nxt k -> snd_nxt k' = snd_nxt k + 1 ->
  snd_nxt k + 1 < 2 ^ 31 -> flight_ok k'.
Proof.
  rewrite !flight_sns. unfold sns. intros (Hs & Hr & Hn) Eb Es En Hlt. rewrite Eb, map_app, En. cbn [map]. rewrite Es. split_and!; [| |lia..].
  - apply StronglySorted_app. split_and!; [|done|repeat constructor].
    intros x y Hx ->%list_elem_of_singleton. rewrite List.Forall_forall in Hr. apply list_elem_of_In, Hr in Hx. lia.
  - apply Forall_app. split; [|constructor; [lia|done]]. eapply Forall_impl; [|exact Hr]. cbn. lia.
Qed.

Lemma una_snoc k s k' : una_ok k -> snd_buf k' = snd_buf k ++ [s] -> seg_sn s = snd_nxt k -> snd_una k' = snd_una k -> una_ok k'.
Proof. unfold una_ok, sns. intros H Eb Es ->. rewrite H, Eb, map_app. by destruct (map seg_sn (snd_buf k)). Qed.

Lemma move_flow So q cw wnd k :
  Z.of_nat (length So) < 2 ^ 31 - 1 -> q = snd_queue k -> snd_inv So k -> flight_ok k -> una_ok k ->
  let k' := move_to_buf q cw wnd k in
  flight_ok k' /\ una_ok k' /\ snd_nxt k <= snd_nxt k' /\
  (exists l, snd_buf k' = snd_buf k ++ l /\ Forall (fun s => seg_conv s = conv k /\ seg_xmit s = 0) l) /\
  (forall i, snd_nxt k <= i < snd_nxt k' -> i ∈ sns k').
Proof.
  intros HS. cbn zeta. revert k. induction q as [|s q IH]; intros k Eq I F U.
  { cbn [move_to_buf]. case_match; (split_and!; [done|done|lia|by exists []; rewrite app_nil_r|intros; lia]). }
  rewrite move_to_buf_cons. case_match; [|split_and!; [done|done|lia|by exists []; rewrite app_nil_r|intros; lia]].
  destruct (move_seg_snd So s q wnd k) as (I2 & En & Hlt); [lia|done..|]. set (k2 := move_seg s q wnd k) in *.
  assert (exists t, snd_buf k2 = snd_buf k ++ [t] /\ seg_sn t = snd_nxt k /\ seg_conv t = conv k /\ seg_xmit t = 0)
    as (t & Eb & Et & Ec & Ex) by (by eexists).
  destruct (IH k2) as (F' & U' & Hn & (l & El & Hl) & Hin); [done|done|apply (flight_snoc k t k2); [done..|lia]|by apply (una_snoc k t k2)|].
  split_and!; [done|done|lia| |].
  - exists (t :: l). rewrite El, Eb, <- app_assoc. split; [done|]. constructor; [done|exact Hl].
  - intros i Hi. destruct (decide (i = snd_nxt k)) as [->|]; [|apply Hin; lia].
    unfold sns. rewrite El, Eb, !map_app. apply elem_of_app. left. apply elem_of_app. right. cbn. rewrite Et. left.
Qed.

(** What moving segments keeps. *)
Definition mkeep (k : ikcpcb) :=
  (conv k, snd_una k, rmt_wnd k, snd_wnd k, rcv_wnd k, rview k, acklist k, ackcount k,
   (current k, probe k, probe_wait k, ts_probe k, updated k, nocwnd k)).

Lemma move_mkeep q cw wnd k : mkeep (move_to_buf q cw wnd k) = mkeep k.
Proof.
  revert k. induction q as [|s q IH]; intros k; [cbn [move_to_buf]; by case_match|].
  rewrite move_to_buf_cons. case_match; [|done]. rewrite IH. unfold mkeep, rview, move_seg. ksimpl. reflexivity.
Qed.

Lemma keep_mkeep k k' : keep k' = keep k -> mkeep k' = mkeep k.
Proof.
  intros E. exact (f_equal (fun '(c, u, _, rm, sw, rw, _, v, (al, ac, cu, pr, (pw, tp, up, nc))) =>
    (c, u, rm, sw, rw, v, al, ac, (cu, pr, pw, tp, up, nc))) E).
Qed.

Lemma Forall_payload P `{!PayloadPred P} q q' : map payload q' = map payload q -> Forall P q -> Forall P q'.
Proof.
  intros E H. revert q' E. induction H as [|s q Hs _ IH]; intros [|t q'] E; try done. injection E as E1 E2.
  constructor; [|by apply IH]. eapply payload_pred; [|exact Hs]. unfold payload. congruence.
Qed.

Lemma sns_payload k k' : map payload (snd_buf k') = map payload (snd_buf k) -> sns k' = sns k.
Proof.
  unfold sns. intros E. apply (f_equal (map (fun p => snd (fst (fst (fst p)))))) in E. by rewrite !map_map in E.
Qed.

#[export] Instance conv_payload c : PayloadPred (fun s => seg_conv s = c).
Proof. intros s s' E <-. unfold payload in E. by injection E as _ _ _ _ _ ->. Qed.

Lemma flight_eq k k' : sns k' = sns k -> snd_nxt k' = snd_nxt k -> flight_ok k -> flight_ok k'.
Proof. rewrite !flight_sns. by intros -> ->. Qed.

Lemma una_eq k k' : sns k' = sns k -> snd_nxt k' = snd_nxt k -> snd_una k' = snd_una k -> una_ok k -> una_ok k'.
Proof. unfold una_ok. by intros -> -> ->. Qed.

Lemma rcv_ord_view k k' : rview k' = rview k -> rcv_ord k -> rcv_ord k'.
Proof. unfold rview. intros E [H1 H2]. injection E as _ En _ Eb. constructor; by rewrite ?En, Eb. Qed.

Lemma drained_view k k' : rview k' = rview k -> drained k -> drained k'.
Proof. unfold rview, drained. intros E. injection E as _ -> -> ->. done. Qed.

(** The state the data part of a flush starts from. *)
Lemma flush_base o k : exists a b, set_outputs o (set_probe 0 (probed k)) =
  set_outputs o (set_probe 0 (set_ts_probe a (set_probe_wait b (set_ackcount 0 k)))).
Proof. exists (ts_probe (probed k)), (probe_wait (probed k)). rewrite probed_eq at 1. done. Qed.

(** What a flush does to the segments in flight. *)
Record flushed (k k' : ikcpcb) : Prop := mk_flushed {
  fd_view : rview k' = rview k;
  fd_nxt : snd_nxt k <= snd_nxt k';
  fd_old : forall i, i ∈ sns k -> i ∈ sns k';
  fd_new : forall i, snd_nxt k <= i < snd_nxt k' -> i ∈ sns k'
}.

Lemma flush_flow c So Si n k k' :
  stream_bound So -> snd_inv So k -> rcv_inv Si n k -> mem_inv k -> flow_inv c So k -> ikcp_flush k = Some k' ->
  flow_inv c So k' /\ flushed k k' /\
  (updated k <> 0 -> exists o gs, flush_gives k k' o gs /\ Forall (Forall (good c So k')) gs).
Proof.
  intros HS Is Ir M [Fc Fs Ff Fu Fo Fd Fr Fw Fm Fa Fp] E. unfold stream_bound in HS.
  destruct (decide (updated k = 0)) as [Hu|Hu].
  { unfold ikcp_flush in E. rewrite Hu in E. injection E as <-. split; [done|]. split; [by split; [|lia| |intros; lia]|done]. }
  pose proof (flush_rview _ _ E) as Ev.
  destruct (flush_trace k k' Hu) as (o & gs & Hfg);
    [eapply Forall_impl; [|apply M]; by intros ? []|eapply Forall_impl; [|apply M]; by intros ? []|done|].
  pose proof Hfg as [Eo Hgs Hseg _ _ _ _ Epl Ek _].
  destruct (flush_base o k) as (a & b & Eb). unfold moved in *. rewrite Eb in *.
  set (kb := set_outputs o _) in *.
  assert (snd_inv So kb) as Ib by (destruct Is; constructor; done).
  assert (mkeep kb = (conv k, snd_una k, rmt_wnd k, snd_wnd k, rcv_wnd k, rview k, acklist k, 0,
    (current k, 0, b, a, updated k, nocwnd k))) as Kb by (unfold mkeep, rview, kb; ksimpl; reflexivity).
  destruct (move_flow So (snd_queue k) (send_window k) (flush_wnd k) kb) as (Mf & Mu & Mn & (l & El & Hl) & Mi);
    [lia|done|done|by apply (flight_eq k)|by apply (una_eq k)|].
  pose proof (move_to_buf_snd So (snd_queue k) (send_window k) (flush_wnd k) kb) as Im.
  assert (snd_inv So (move_to_buf (snd_queue k) (send_window k) (flush_wnd k) kb)) as Im' by (apply Im; [lia|done..]). clear Im.
  pose proof (move_mkeep (snd_queue k) (send_window k) (flush_wnd k) kb) as Mk.
  set (km := move_to_buf _ _ _ kb) in *. apply sns_payload in Epl as Esn.
  pose proof (keep_mkeep _ _ Ek) as Ek'. rewrite Mk, Kb in Ek'.
  assert (snd_nxt k' = snd_nxt km) as En by (unfold keep in Ek; by injection Ek).
  unfold mkeep in Ek'. injection Ek' as Kc Ku Km Kw Kr Kv1 Kv2 Kv3 Kv4 Kal Kac _ _ _ _ _ _.
  assert (Forall (fun s => seg_conv s = c) (snd_buf km)) as Hcm.
  { rewrite El. apply Forall_app. split; [exact Fs|]. eapply Forall_impl; [|exact Hl]. intros s [-> _]. exact Fc. }
  assert (more k k') as Hmore by (by apply more_view).
  assert (Forall (Forall (good c So k')) gs) as Hgood.
  { apply List.Forall_forall. intros g Hg. apply List.Forall_forall. intros s Hs.
    rewrite List.Forall_forall in Hseg. assert (In s (concat gs)) as Hin by (apply in_concat; by exists g).
    specialize (Hseg s Hin). assert (0 <= rcv_nxt k' /\ rcv_nxt k' = rcv_nxt k) as [H0 Er].
    { unfold rview in Ev. injection Ev as _ -> _ _. destruct Ir. lia. }
    destruct Hseg as [(Sc & Su & Sw & Sl & Sd & St)|(Su & _ & t & Ht & Et)].
    - split; [by rewrite Sc|]. rewrite Su, Er. split; [lia|]. left. split; [done|]. split; [done|].
      destruct St as [[St Hsn]|St]; [left|by right]. split; [done|].
      apply list_elem_of_fmap in Hsn as (p & -> & Hp). rewrite List.Forall_forall in Fa.
      apply list_elem_of_In, Fa in Hp as [? ?]. split; [done|]. by apply Hmore.
    - destruct Im' as [_ _ _ Hb _]. rewrite List.Forall_forall in Hb, Hcm.
      apply list_elem_of_In in Ht. specialize (Hb t Ht). specialize (Hcm t Ht). cbn in Hb, Hcm.
      split; [by eapply (payload_pred (P := fun s => seg_conv s = c)); [|exact Hcm]|]. rewrite Su, Er. split; [lia|].
      right. by eapply (payload_pred (P := fun s => seg_cmd s = IKCP_CMD_PUSH /\ seg_ok So s)); [|exact Hb]. }
  split; [constructor|split; [constructor|]].
  - by rewrite Kc.
  - by eapply Forall_payload; [apply _|exact Epl|].
  - by eapply flight_eq.
  - apply (una_eq km); [done..| |done]. rewrite Ku. rewrite Kb in Mk. unfold mkeep in Mk. by injection Mk as _ -> _.
  - by eapply rcv_ord_view.
  - by eapply drained_view.
  - by rewrite Kr.
  - by rewrite Kw.
  - by rewrite Km.
  - rewrite Kac. constructor.
  - rewrite Eo. apply Forall_app. split.
    { eapply Forall_impl; [|exact Fp]. intros d. by apply good_dgram_more0. }
    apply List.Forall_map. apply List.Forall_forall. intros g Hg. exists g. rewrite List.Forall_forall in Hgs, Hgood.
    split; [by apply Hgs|]. split; [done|by apply Hgood].
  - exact Ev.
  - rewrite En. exact Mn.
  - intros i Hi. rewrite Esn. unfold sns. rewrite El, map_app. apply elem_of_app. by left.
  - intros i Hi. rewrite Esn. apply Mi. rewrite <- En. exact Hi.
  - intros _. by exists o, gs.
Qed.

(** ** The other calls *)

(** What the invariant reads besides the receive queues. *)
Definition oview (k : ikcpcb) :=
  (conv k, snd_buf k, snd_nxt k, snd_una k, rcv_wnd k, snd_wnd k, rmt_wnd k, acklist k, ackcount k, outputs k).

Lemma flow_oview c So T k k' :
  oview k' = oview k -> more k k' -> rcv_ord k' -> drained k' -> flow_inv c So k -> flow_inv c (So ++ T) k'.
Proof.
  unfold oview. intros E Hm Ho Hd [Fc Fs Ff Fu _ _ Fr Fw Fm Fa Fp]. injection E as E1 E2 E3 E4 E5 E6 E7 E8 E9 E10.
  assert (sns k' = sns k) as Esn by (unfold sns; by rewrite E2).
  constructor; rewrite ?E1, ?E2, ?E5, ?E6, ?E7, ?E8, ?E9, ?E10; try done.
  - by eapply flight_eq.
  - by eapply una_eq.
  - by eapply acks_more.
  - eapply Forall_impl; [|exact Fp]. intros d. by apply good_dgram_more.
Qed.

Lemma flow_same c So T k k' : oview k' = oview k -> rview k' = rview k -> flow_inv c So k -> flow_inv c (So ++ T) k'.
Proof.
  intros E Ev F. eapply flow_oview; [done|by apply more_view|by eapply rcv_ord_view, F|by eapply drained_view, F|done].
Qed.

(** *** Moving segments to the queue *)

Lemma move_one_oview s buf k : oview (move_one s buf k) = oview k.
Proof. unfold move_one, oview. ksimpl. reflexivity. Qed.

Lemma move_ready_f_oview buf k : oview (move_ready_f buf k) = oview k.
Proof.
  revert k. induction buf as [|s buf IH]; intros k; [done|]. rewrite move_ready_f_cons. case_match; [|done].
  by rewrite IH, move_one_oview.
Qed.

Lemma move_ready_f_more Si n buf k : stream_bound Si -> rcv_buf k = buf -> rcv_inv Si n k ->
  move_ready_f buf k = k \/ rcv_nxt k < rcv_nxt (move_ready_f buf k).
Proof.
  intros HS. revert k. induction buf as [|s buf IH]; intros k Hb I; [by left|]. rewrite move_ready_f_cons.
  case_match; [right|by left]. bool_arith. destruct (move_one_inv Si n s buf k) as [I1 En]; [done..|].
  destruct (IH (move_one s buf k)) as [->|H']; [done|done| |]; lia.
Qed.

Lemma settled_drained k : IKCP_WND_RCV <= rcv_wnd k -> settled k -> drained k.
Proof. unfold settled, drained. destruct (rcv_buf k); [done|]. intros ? [?|?]; [by left|right; lia]. Qed.

Lemma move_ready_flow Si n k : stream_bound Si -> rcv_inv Si n k -> rcv_ord k -> IKCP_WND_RCV <= rcv_wnd k ->
  rcv_ord (move_ready k) /\ drained (move_ready k) /\ more k (move_ready k) /\ oview (move_ready k) = oview k /\
  (move_ready k = k \/ rcv_nxt k < rcv_nxt (move_ready k)).
Proof.
  intros HS I O Hw. unfold move_ready. destruct (move_ready_f_ord Si n (rcv_buf k) k HS eq_refl I O) as (O' & S' & St & W').
  pose proof (move_ready_f_more Si n (rcv_buf k) k HS eq_refl I) as Hm.
  split_and!; [done|apply settled_drained; [by rewrite W'|done]|split; [|done]|apply move_ready_f_oview|done].
  destruct Hm as [->|?]; lia.
Qed.

(** *** [ikcp_recv] *)

Lemma merge_rest q d rest n : merge_fragments q = (d, rest, n) ->
  exists m, n = Z.of_nat m /\ rest = drop m q /\ (m <= length q)%nat.
Proof.
  revert d rest n. induction q as [|s q IH]; intros d rest n; cbn [merge_fragments].
  { intros E. injection E as <- <- <-. by exists 0%nat. }
  case_match; [intros E; injection E as <- <- <-; exists 1%nat; cbn; split_and!; [done|by rewrite drop_0|lia]|].
  destruct (merge_fragments q) as [[d' r'] n'] eqn:E'. intros E. injection E as <- <- <-.
  destruct (IH _ _ _ eq_refl) as (m & -> & -> & Hm). exists (S m). cbn. split_and!; [lia|done|lia].
Qed.

Lemma recv_flow c So Si n len k r d k' :
  stream_bound Si -> rcv_inv Si n k -> flow_inv c So k -> ikcp_recv len k = Some (r, d, k') ->
  flow_inv c So k' /\ more k k' /\ oview k' = oview k.
Proof.
  intros HS I F. assert (forall k', k' = k -> flow_inv c So k' /\ more k k' /\ oview k' = oview k) as Hsame by (by intros ? ->).
  unfold ikcp_recv. destruct (rcv_queue k) as [|s q] eqn:Eq; [intros E; injection E as _ _ <-; by apply Hsame|].
  case_match; [intros E; injection E as _ _ <-; by apply Hsame|]. case_match; [intros E; injection E as _ _ <-; by apply Hsame|].
  destruct (merge_fragments (s :: q)) as [[d' rest] z] eqn:Em. destruct (merge_rest _ _ _ _ Em) as (m & -> & -> & Hm).
  rewrite <- Eq in *. set (k1 := if negb _ then _ else k).
  assert (exists n', rcv_inv Si n' k1 /\ oview k1 = oview k /\ rcv_nxt k1 = rcv_nxt k /\ rcv_buf k1 = rcv_buf k) as (n' & I1 & V1 & N1 & B1).
  { subst k1. destruct (len <? 0); cbn [negb]; [by exists n|]. exists (n + m)%nat. split; [by apply rcv_inv_take|done]. }
  destruct (negb (i32 _ =? _)); [done|]. intros E. injection E as <- <- <-.
  assert (rcv_ord k1) as O1 by (destruct F as [_ _ _ _ [] _ _ _ _ _ _]; constructor; by rewrite ?N1, B1).
  assert (rcv_wnd k1 = rcv_wnd k) as W1 by (unfold oview in V1; by injection V1).
  destruct (move_ready_flow Si n' k1 HS I1 O1) as (O2 & D2 & M2 & V2 & _); [rewrite W1; apply F|].
  clearbody k1. set (k2 := if _ && _ then _ else move_ready k1).
  assert (oview k2 = oview k /\ rview k2 = rview (move_ready k1)) as [V3 R3] by (subst k2; rewrite <- V1, <- V2; by destruct (_ && _)).
  assert (more k k2) as Hmore.
  { eapply more_trans; [|by apply more_view]. eapply more_trans; [|exact M2]. unfold more, stored. rewrite N1, B1. done. }
  split; [|done]. rewrite <- (app_nil_r So). eapply flow_oview; [done|done|by eapply rcv_ord_view|by eapply drained_view|done].
Qed.

(** *** The window *)

Lemma wndsize_flow c So s r k : r < 65536 -> flow_inv c So k -> flow_inv c So (snd (ikcp_wndsize s r k)).
Proof.
  intros Hr [Fc Fs Ff Fu [O1 O2] Fd Fr Fw Fm Fa Fp]. unfold ikcp_wndsize, _imax_, IKCP_WND_RCV in *.
  repeat (case_match; bool_arith); cbn [snd]; constructor; try done; try (by apply (flight_eq k)); try (by constructor); ksimpl; try lia.
Qed.

(** ** A segment that arrives *)

Lemma sub_flight k k' : StronglySorted Z.lt (sns k') -> (forall i, i ∈ sns k' -> i ∈ sns k) -> snd_nxt k' = snd_nxt k ->
  flight_ok k -> flight_ok k'.
Proof.
  rewrite !flight_sns. intros Hs Hin -> (_ & Hr & Hn). split; [done|]. split; [|done].
  rewrite List.Forall_forall in *. intros i Hi%list_elem_of_In. by apply Hr, list_elem_of_In, Hin.
Qed.

Lemma shrink_una k : una_ok (ikcp_shrink_buf k).
Proof. unfold una_ok, ikcp_shrink_buf, sns. destruct (snd_buf k) eqn:E; ksimpl; by rewrite E. Qed.

Lemma filter_sns f k k' : flight_ok k -> snd_buf k' = List.filter f (snd_buf k) -> snd_nxt k' = snd_nxt k ->
  flight_ok k' /\ (forall i, i ∈ sns k' -> i ∈ sns k) /\ (length (snd_buf k') <= length (snd_buf k))%nat.
Proof.
  intros F Eb En. assert (forall i, i ∈ sns k' -> i ∈ sns k) as Hin.
  { intros i (s & -> & Hs)%list_elem_of_fmap. rewrite Eb in Hs. apply list_elem_of_In, List.filter_In in Hs as [Hs _].
    apply list_elem_of_fmap_2, list_elem_of_In, Hs. }
  split; [|split; [done|rewrite Eb; apply List.filter_length_le]].
  apply (sub_flight k); [|done..]. unfold sns. rewrite Eb. apply sorted_sns, StronglySorted_filter. apply F.
Qed.

(** What the acknowledgements of a segment leave in flight. *)
Record acked (s : IKCPSEG) (peer k k' : ikcpcb) : Prop := mk_acked {
  ak_flight : flight_ok k';
  ak_una : una_ok k';
  ak_in : forall i, i ∈ sns k' -> i ∈ sns k /\ seg_una s <= i;
  ak_out : forall i, i ∈ sns k -> i ∈ sns k' \/ stored i peer;
  ak_len : (length (snd_buf k') <= length (snd_buf k))%nat;
  ak_sub : forall t, t ∈ snd_buf k' -> t ∈ snd_buf k
}.

Lemma elem_of_lfilter {A} (f : A -> bool) x q : x ∈ List.filter f q -> x ∈ q.
Proof. intros [H _]%list_elem_of_In%List.filter_In. by apply list_elem_of_In. Qed.

Lemma sub_Forall {A} (P : A -> Prop) q q' : (forall x, x ∈ q' -> x ∈ q) -> Forall P q -> Forall P q'.
Proof. rewrite !List.Forall_forall. intros Hs H x Hx%list_elem_of_In. by apply H, list_elem_of_In, Hs. Qed.

Lemma input_head_acked c Si peer s k :
  good c Si peer s -> rcv_nxt peer < 2 ^ 31 -> flight_ok k -> acked s peer k (input_head s k) /\
  Forall (fun t => snd_una (input_head s k) <= seg_sn t) (snd_buf (input_head s k)) /\ 0 <= snd_una (input_head s k) < 2 ^ 31.
Proof.
  intros (_ & Hu & _) Hn F. unfold input_head. rewrite (wrap_small 32 (seg_una s)) by (unfold in_u; lia).
  destruct (parse_una_flight (seg_una s) (set_rmt_wnd (u16 (seg_wnd s)) k)) as (F1 & N1 & B1 & U1 & R1);
    [lia|by apply (flight_eq k)|].
  set (k1 := ikcp_shrink_buf _) in *. change (snd_buf (set_rmt_wnd (u16 (seg_wnd s)) k)) with (snd_buf k) in B1.
  change (snd_nxt (set_rmt_wnd (u16 (seg_wnd s)) k)) with (snd_nxt k) in N1.
  destruct (filter_sns _ k k1 F B1 N1) as (_ & Hin & Hlen). split; [constructor|done].
  - done.
  - apply shrink_una.
  - intros i Hi. split; [by apply Hin|]. apply list_elem_of_fmap in Hi as (t & -> & Ht). rewrite B1 in Ht.
    apply list_elem_of_In, List.filter_In in Ht as [_ Ht]. bool_arith. lia.
  - intros i (t & -> & Ht)%list_elem_of_fmap. destruct (Z.leb_spec (seg_una s) (seg_sn t)); [left|right; left; lia].
    unfold sns. apply list_elem_of_fmap_2. rewrite B1. apply list_elem_of_In, List.filter_In.
    split; [by apply list_elem_of_In|]. by apply Z.leb_le.
  - done.
  - intros t. rewrite B1. apply elem_of_lfilter.
Qed.

Lemma acked_ack c Si peer s a k :
  good c Si peer s -> seg_cmd s = IKCP_CMD_ACK -> rcv_nxt peer < 2 ^ 31 -> flight_ok k ->
  acked s peer k (snd (input_ack (wire_header s) a (input_head s k))).
Proof.
  intros Hg Hc Hn F. destruct (input_head_acked c Si peer s k Hg Hn F) as ([F1 U1 I1 O1 L1 S1] & Hlow & Hrng).
  destruct Hg as (_ & _ & Hg). assert (0 <= seg_sn s < 2 ^ 31 /\ stored (seg_sn s) peer) as [Hsn Hst].
  { destruct Hg as [(_ & _ & [(_ & ? & ?)|[Hg|Hg]])|[Hg _]]; [done|rewrite Hc in Hg; discriminate..]. }
  set (k1 := input_head s k) in *.
  pose proof (parse_ack_filter (wire_header s) a k1 F1 Hlow Hrng) as B2.
  assert (h_sn (wire_header s) = seg_sn s) as Eh by (apply wrap_small; unfold in_u; lia).
  rewrite Eh in B2. specialize (B2 Hsn).
  destruct (input_ack_sview (fun _ => True) (wire_header s) a k1) as (V & _).
  assert (snd_nxt (snd (input_ack (wire_header s) a k1)) = snd_nxt k1) as N2 by (unfold sview in V; by injection V).
  destruct (filter_sns _ k1 _ F1 B2 N2) as (F2 & I2 & L2). constructor.
  - done.
  - unfold input_ack. cbn [snd]. apply shrink_una.
  - intros i Hi. by apply I1, I2.
  - intros i Hi. destruct (O1 i Hi) as [H1|]; [|by right].
    destruct (decide (i = seg_sn s)) as [->|Hne]; [by right|left].
    apply list_elem_of_fmap in H1 as (t & -> & Ht). unfold sns. apply list_elem_of_fmap_2. rewrite B2.
    apply list_elem_of_In, List.filter_In. split; [by apply list_elem_of_In|]. apply negb_true_iff, Z.eqb_neq. congruence.
  - lia.
  - intros t. rewrite B2. by intros ?%elem_of_lfilter%S1.
Qed.

(** *** The receive side *)

(** What acknowledgements keep, and what data keeps. *)
Definition iview (k : ikcpcb) := (rview k, rcv_wnd k, snd_wnd k, acklist k, ackcount k, ackblock k, probe k, rmt_wnd k, outputs k, conv k).
Definition pview (k : ikcpcb) :=
  (conv k, snd_buf k, snd_nxt k, snd_una k, rcv_wnd k, snd_wnd k, rmt_wnd k, probe k, outputs k).

Lemma input_head_iview s k : iview (input_head s k) = iview (set_rmt_wnd (u16 (seg_wnd s)) k).
Proof.
  unfold input_head, ikcp_shrink_buf, ikcp_parse_una. destruct (drop_una _ _) as [[|t q] n]; unfold iview, rview; ksimpl; reflexivity.
Qed.

Lemma update_ack_iview r k : iview (ikcp_update_ack r k) = iview k.
Proof.
  unfold ikcp_update_ack. destruct (rx_srtt k =? 0); [unfold iview, rview; ksimpl; reflexivity|].
  cbv zeta. destruct (_ <? 1); unfold iview, rview; ksimpl; reflexivity.
Qed.

Lemma input_ack_iview h a k : iview (snd (input_ack h a k)) = iview k.
Proof.
  unfold input_ack. cbn [snd]. set (k1 := if 0 <=? _ then _ else k).
  assert (iview k1 = iview k) as <- by (subst k1; case_match; [apply update_ack_iview|done]).
  unfold ikcp_shrink_buf, ikcp_parse_ack. destruct (_ || _); [|destruct (remove_ack _ _) as [q []]];
    ksimpl; case_match; unfold iview, rview; ksimpl; reflexivity.
Qed.

Lemma ack_push_list sn ts k k' : mem_inv k -> ikcp_ack_push sn ts k = Some k' ->
  take (Z.to_nat (ackcount k')) (acklist k') = take (Z.to_nat (ackcount k)) (acklist k) ++ [(sn, ts)] /\
  ackcount k' = ackcount k + 1 /\ pview k' = pview k.
Proof.
  intros M. unfold ikcp_ack_push. set (k1 := if _ : bool then set_ackblock _ _ else k).
  assert (take (Z.to_nat (ackcount k)) (acklist k1) = take (Z.to_nat (ackcount k)) (acklist k) /\ ackcount k1 = ackcount k /\
    pview k1 = pview k) as (E1 & E2 & E3).
  { subst k1. case_match; [|done]. ksimpl. split; [|split; [done|unfold pview; ksimpl; reflexivity]].
    rewrite take_app_le by (rewrite length_take; destruct M; lia). by rewrite take_take, Nat.min_id. }
  clearbody k1. rewrite E2. case_match eqn:El; [|done]. intros E. injection E as <-. bool_arith.
  assert (u32 (ackcount k + 1) = ackcount k + 1) as Eu by (apply wrap_small; destruct M; unfold in_u; lia).
  ksimpl. rewrite Eu. split; [|split; [done|rewrite <- E3; unfold pview; ksimpl; reflexivity]].
  replace (Z.to_nat (ackcount k + 1)) with (S (Z.to_nat (ackcount k))) by (destruct M; lia).
  rewrite (take_S_r _ _ (sn, ts)) by (apply list_lookup_insert_eq; lia).
  by rewrite take_insert_ge, E1 by lia.
Qed.

Lemma move_ready_f_pview buf k : pview (move_ready_f buf k) = pview k.
Proof.
  revert k. induction buf as [|s buf IH]; intros k; [done|]. rewrite move_ready_f_cons. case_match; [|done].
  rewrite IH. unfold pview, move_one. ksimpl. reflexivity.
Qed.

Lemma parse_data_pview s k : pview (ikcp_parse_data s k) = pview k.
Proof.
  unfold ikcp_parse_data. case_match; [done|]. unfold move_ready. rewrite move_ready_f_pview.
  case_match; [unfold pview; ksimpl; reflexivity|done].
Qed.

(** What a data segment does to the receive side. *)
Record pushed (Si : list frag) (n : nat) (s : IKCPSEG) (k k' : ikcpcb) : Prop := mk_pushed {
  pd_view : pview k' = pview k;
  pd_inv : rcv_inv Si n k';
  pd_ord : rcv_ord k';
  pd_drained : drained k';
  pd_more : more k k';
  pd_que : rcv_nxt k' = rcv_nxt k -> nrcv_que k' = nrcv_que k;
  pd_acks : Forall (fun p => 0 <= fst p < 2 ^ 31 /\ stored (fst p) k) (take (Z.to_nat (ackcount k)) (acklist k)) ->
    Forall (fun p => 0 <= fst p < 2 ^ 31 /\ stored (fst p) k') (take (Z.to_nat (ackcount k')) (acklist k'));
  pd_count : ackcount k <= ackcount k' <= ackcount k + 1;
  pd_here : seg_sn s < rcv_nxt k + rcv_wnd k -> stored (seg_sn s) k' /\ ackcount k < ackcount k'
}.

Lemma pushed_same Si n s k : rcv_inv Si n k -> rcv_ord k -> drained k -> ~ seg_sn s < rcv_nxt k + rcv_wnd k -> pushed Si n s k k.
Proof. intros. constructor; try done; try apply more_refl; lia. Qed.

Lemma parse_data_flow Si n s k :
  stream_bound Si -> seg_ok Si s -> rcv_inv Si n k -> rcv_ord k -> drained k -> IKCP_WND_RCV <= rcv_wnd k < 65536 ->
  drained (ikcp_parse_data s k) /\ more k (ikcp_parse_data s k) /\
  (rcv_nxt (ikcp_parse_data s k) = rcv_nxt k -> nrcv_que (ikcp_parse_data s k) = nrcv_que k).
Proof.
  intros HS Hs I O D Hw. unfold IKCP_WND_RCV in Hw.
  destruct (parse_data_store _ _ _ _ HS Hs I O) as [[-> _]|(k1 & -> & I1 & O1 & St1 & _ & W1 & N1 & Q1)]; [lia|by split_and!; [done|apply more_refl|]|].
  destruct (move_ready_flow Si n k1 HS I1 O1) as (_ & D2 & M2 & _ & Hm); [rewrite W1; unfold IKCP_WND_RCV; lia|].
  split_and!; [done| |].
  - eapply more_trans; [|exact M2]. split; [lia|done].
  - destruct Hm as [->|?]; [done|lia].
Qed.

Lemma input_push_flow Si n s k k' :
  stream_bound Si -> Forall frag_ok Si -> seg_ok Si s -> mem_inv k -> rcv_inv Si n k -> rcv_ord k -> drained k ->
  IKCP_WND_RCV <= rcv_wnd k < 65536 -> input_push (wire_header s) (data s) k = Some k' -> pushed Si n s k k'.
Proof.
  intros HS HF Hs M I O D Hw. destruct (wire_header_small Si s HS HF Hs) as (Esn & Efrg & Elen & _).
  assert (0 <= seg_sn s < 2 ^ 31 - 65536) as Hsn.
  { destruct Hs as (? & Hs & _). apply lookup_lt_Some in Hs. unfold stream_bound in HS. lia. }
  assert (0 <= rcv_nxt k < 2 ^ 31 - 65536) as Hn.
  { pose proof (rcv_inv_bound _ _ _ I). destruct I. unfold stream_bound in HS. lia. }
  unfold IKCP_WND_RCV in Hw. unfold input_push. rewrite Esn, itimediff_wrap_r, !itimediff_small by lia.
  destruct (Z.ltb_spec (seg_sn s - (rcv_nxt k + rcv_wnd k)) 0); [|intros E; injection E as <-; apply pushed_same; [done..|lia]].
  destruct (ikcp_ack_push _ _ k) as [k1|] eqn:Ek; cbn [mbind option_bind]; [|done].
  destruct (ack_push_list _ _ _ _ M Ek) as (El & Ec & V1). apply ack_push_view in Ek as R1.
  assert (rcv_inv Si n k1) as I1 by (by eapply rcv_inv_view; [symmetry; exact R1|]).
  assert (rcv_ord k1) as O1 by (by eapply rcv_ord_view).
  assert (drained k1) as D1 by (by eapply drained_view).
  assert (more k k1) as Hm1 by (by apply more_view).
  assert (rcv_nxt k1 = rcv_nxt k /\ nrcv_que k1 = nrcv_que k /\ rcv_wnd k1 = rcv_wnd k) as (N1 & Q1 & W1).
  { unfold rview in R1. unfold pview in V1. injection R1 as _ -> -> _. by injection V1. }
  assert (forall k', more k1 k' -> stored (seg_sn s) k' ->
    take (Z.to_nat (ackcount k')) (acklist k') = take (Z.to_nat (ackcount k1)) (acklist k1) ->
    Forall (fun p => 0 <= fst p < 2 ^ 31 /\ stored (fst p) k) (take (Z.to_nat (ackcount k)) (acklist k)) ->
    Forall (fun p => 0 <= fst p < 2 ^ 31 /\ stored (fst p) k') (take (Z.to_nat (ackcount k')) (acklist k'))) as Hacks.
  { intros k2 Hm Hst -> Ha. rewrite El. apply Forall_app. split; [eapply acks_more; [|exact Ha]; by eapply more_trans|].
    constructor; [|done]. cbn. split; [lia|done]. }
  rewrite itimediff_small by lia. destruct (Z.leb_spec 0 (seg_sn s - rcv_nxt k1)).
  2: { intros E. injection E as <-. assert (stored (seg_sn s) k1) by (left; lia).
    constructor; try done; [by apply Hacks|lia|]. split; [done|lia]. }
  rewrite Efrg, Elen.
  set (t := mkseg _ _ _ _ _ _ _ _ _ _ _ _ _). intros E. injection E as <-.
  assert (seg_ok Si t) as Ht by (by destruct Hs as (? & ? & ?)).
  destruct (parse_data_ord Si n t k1 HS Ht I1 O1) as (O2 & S2 & St2 & Sn2 & W2); [lia|].
  pose proof (parse_data_inv Si n t k1 HS Ht I1) as I2. destruct (parse_data_flow Si n t k1 HS Ht I1 O1 D1) as (D2 & Hm2 & N2); [unfold IKCP_WND_RCV; lia|].
  destruct (parse_data_sview t k1) as (_ & A2 & _). pose proof (parse_data_pview t k1) as V2.
  assert (stored (seg_sn s) (ikcp_parse_data t k1)) as Hst by (apply Sn2; cbn; lia).
  unfold aview in A2. injection A2 as A2 A3 _.
  constructor; try done.
  - by rewrite V2.
  - by eapply more_trans.
  - intros En. rewrite N2 by lia. done.
  - apply Hacks; [done|done|]. by rewrite A2, A3.
  - rewrite A3. lia.
  - intros _. split; [done|]. rewrite A3. lia.
Qed.

(** *** The segments of a datagram *)

(** The bit that makes the next flush announce the window. *)
Definition tell (k : ikcpcb) : Prop := Z.land (probe k) IKCP_ASK_TELL <> 0.

Lemma tell_lor k : tell (set_probe (Z.lor (probe k) IKCP_ASK_TELL) k).
Proof.
  unfold tell. ksimpl. rewrite Z.land_lor_distr_l, Z.land_diag. intros [_ E]%Z.lor_eq_0_iff. done.
Qed.

(** What the segments [ss] of [peer] do to [k]. *)
Record takes (ss : list IKCPSEG) (peer k k' : ikcpcb) : Prop := mk_takes {
  tk_sview : sview k' = sview k;
  tk_wnd : rcv_wnd k' = rcv_wnd k;
  tk_more : more k k';
  tk_in : forall i, i ∈ sns k' -> i ∈ sns k /\ Forall (fun s => seg_una s <= i) ss;
  tk_out : forall i, i ∈ sns k -> i ∈ sns k' \/ stored i peer;
  tk_len : (length (snd_buf k') <= length (snd_buf k))%nat;
  tk_rmt : rmt_wnd k' = foldl (fun _ s => u16 (seg_wnd s)) (rmt_wnd k) ss;
  tk_que : rcv_nxt k' = rcv_nxt k -> nrcv_que k' = nrcv_que k;
  tk_count : ackcount k <= ackcount k' <= ackcount k + Z.of_nat (length ss);
  tk_push : forall s, s ∈ ss -> seg_cmd s = IKCP_CMD_PUSH -> seg_sn s < rcv_nxt k + rcv_wnd k ->
    stored (seg_sn s) k' /\ ackcount k < ackcount k';
  tk_wask : forall s, s ∈ ss -> seg_cmd s = IKCP_CMD_WASK -> tell k';
  tk_tell : tell k -> tell k'
}.

Lemma takes_nil peer k : takes [] peer k k.
Proof.
  constructor; try done; try apply more_refl; try (intros s H; by apply not_elem_of_nil in H); auto. cbn. lia.
Qed.

Lemma takes_app ss1 ss2 peer k1 k2 k3 :
  takes ss1 peer k1 k2 -> takes ss2 peer k2 k3 -> takes (ss1 ++ ss2) peer k1 k3.
Proof.
  intros [A1 A2 A3 A4 A5 A6 A7 A8 A9 A10 A11 A12] [B1 B2 B3 B4 B5 B6 B7 B8 B9 B10 B11 B12].
  assert (rcv_nxt k1 <= rcv_nxt k2 <= rcv_nxt k3) as Hn by (destruct A3, B3; lia).
  constructor; try congruence; try lia; auto.
  - by eapply more_trans.
  - intros i [[? ?]%A4 ?]%B4. split; [done|]. by apply Forall_app.
  - intros i [[?|?]%B5|?]%A5; auto.
  - rewrite B7, A7. symmetry. apply foldl_app.
  - rewrite length_app. lia.
  - intros s [Hs|Hs]%elem_of_app Hc Hl.
    + destruct (A10 s Hs Hc Hl) as [? ?]. split; [by apply B3|lia].
    + destruct (B10 s Hs Hc) as [? ?]; [lia|]. split; [done|lia].
  - intros s [Hs|Hs]%elem_of_app Hc; eauto.
Qed.

(** A segment without what its command asks for. *)
Definition mute (s : IKCPSEG) : IKCPSEG := sset_cmd IKCP_CMD_WINS s.

(** What the acknowledgement part of a segment, and nothing else, does. *)
Lemma acked_flow c So Si n peer s k k' :
  acked s peer k k' -> sview k' = sview k -> iview k' = iview (set_rmt_wnd (u16 (seg_wnd s)) k) ->
  mem_inv k -> rcv_inv Si n k -> flow_inv c So k ->
  mem_inv k' /\ rcv_inv Si n k' /\ flow_inv c So k' /\ takes [mute s] peer k k'.
Proof.
  intros [A1 A2 A3 A4 A5 A6] Es Ei M I F.
  assert (rview k' = rview k) as Ev by (unfold iview in Ei; unfold rview in *; by injection Ei as -> -> -> -> _).
  assert (aview k' = aview k) as Ea by (unfold iview in Ei; unfold aview; by injection Ei as _ _ _ _ _ _ -> -> -> _).
  unfold iview in Ei. injection Ei as _ _ _ _ I5 I6 I7 I8 I9 I10 I11 I12 I13.
  change (rcv_wnd (set_rmt_wnd (u16 (seg_wnd s)) k)) with (rcv_wnd k) in I5.
  assert (more k k') as Hm by (by apply more_view).
  split_and!.
  - eapply mem_inv_view; [done|done| |done]. eapply sub_Forall; [exact A6|apply M].
  - by eapply rcv_inv_view; [symmetry; exact Ev|].
  - destruct F as [Fc Fs Ff Fu Fo Fd Fr Fw Fm Fa Fp]. constructor; rewrite ?I5, ?I6, ?I7, ?I8, ?I11, ?I12, ?I13; try done.
    + by eapply sub_Forall.
    + by eapply rcv_ord_view.
    + by eapply drained_view.
    + apply (wrap_range 16). lia.
    + by eapply acks_more.
    + eapply Forall_impl; [|exact Fp]. intros d. by apply good_dgram_more0.
  - constructor; try done.
    + intros i [? ?]%A3. split; [done|]. by constructor.
    + intros _. unfold rview in Ev. by injection Ev.
    + rewrite I8. cbn. lia.
    + intros t ->%list_elem_of_singleton. done.
    + intros t ->%list_elem_of_singleton. done.
    + unfold tell. by rewrite I10.
Qed.

Lemma unmute s peer k k' : seg_cmd s <> IKCP_CMD_PUSH -> seg_cmd s <> IKCP_CMD_WASK -> takes [mute s] peer k k' -> takes [s] peer k k'.
Proof.
  intros H1 H2 []. constructor; try done.
  - intros i Hi. destruct (tk_in0 i Hi) as [? Hf]. split; [done|]. apply Forall_cons_iff in Hf as [Hf _]. by constructor.
  - by intros t ->%list_elem_of_singleton.
  - by intros t ->%list_elem_of_singleton.
Qed.

(** What any segment of the peer does. *)
Record fed (c : Z) (So Si : list frag) (n : nat) (ss : list IKCPSEG) (peer k k' : ikcpcb) : Prop := mk_fed {
  fe_mem : mem_inv k';
  fe_rcv : rcv_inv Si n k';
  fe_flow : flow_inv c So k';
  fe_takes : takes ss peer k k'
}.

Lemma takes_ext ss peer k k1 k2 : takes ss peer k k1 -> sview k2 = sview k1 -> rcv_wnd k2 = rcv_wnd k1 -> rview k2 = rview k1 ->
  snd_buf k2 = snd_buf k1 -> rmt_wnd k2 = rmt_wnd k1 -> ackcount k2 = ackcount k1 -> (tell k1 -> tell k2) -> takes ss peer k k2.
Proof.
  intros [] E1 E2 E3 E4 E5 E6 Ht. assert (sns k2 = sns k1) as Es by (unfold sns; by rewrite E4).
  pose proof (more_view _ _ E3) as Hm. unfold rview in E3. injection E3 as _ En Eq _.
  constructor; rewrite ?E1, ?E2, ?Es, ?E4, ?E5, ?E6, ?En, ?Eq; try done; eauto.
  - by eapply more_trans.
  - intros s Hs Hc Hl. destruct (tk_push0 s Hs Hc Hl). split; [by apply Hm|done].
Qed.

Lemma fed_wask c So Si n s peer k k1 : seg_cmd s = IKCP_CMD_WASK -> fed c So Si n [mute s] peer k k1 ->
  fed c So Si n [s] peer k (set_probe (Z.lor (probe k1) IKCP_ASK_TELL) k1).
Proof.
  intros Hc [M I F T]. pose proof (tell_lor k1) as Ht. set (k2 := set_probe _ k1) in *. constructor.
  - by eapply mem_inv_view; [| |apply M|].
  - by eapply rcv_inv_view; [|exact I].
  - rewrite <- (app_nil_r So). by eapply flow_same; [| |exact F].
  - eapply takes_ext with (k2 := k2) in T; [|done..].
    destruct T. constructor; try done.
    + intros i Hi. destruct (tk_in0 i Hi) as [? Hf]. split; [done|]. apply Forall_cons_iff in Hf as [Hf _]. by constructor.
    + intros t ->%list_elem_of_singleton E. rewrite Hc in E. discriminate.
Qed.

Lemma fed_push c So Si n s peer k k1 k2 :
  seg_cmd s = IKCP_CMD_PUSH -> fed c So Si n [mute s] peer k k1 -> rcv_nxt k1 = rcv_nxt k -> ackcount k1 = ackcount k ->
  mem_inv k2 -> sview k2 = sview k1 -> pushed Si n s k1 k2 -> fed c So Si n [s] peer k k2.
Proof.
  intros Hc [M I F T] En Ec M2 Es [V2 I2 O2 D2 Hm Hq Ha Hn Hh]. unfold pview in V2.
  injection V2 as V1 V2 V3 V4 V5 V6 V7 V8 V9. assert (sns k2 = sns k1) as En2 by (unfold sns; by rewrite V2).
  constructor; [done|done| |].
  - destruct F as [Fc Fs Ff Fu Fo Fd Fr Fw Fm Fa Fp]. constructor; rewrite ?V1, ?V2, ?V5, ?V6, ?V7, ?V9; try done.
    + by eapply flight_eq.
    + by eapply una_eq.
    + by apply Ha.
    + eapply Forall_impl; [|exact Fp]. intros d. by apply good_dgram_more0.
  - destruct T. constructor; rewrite ?V2, ?V5, ?En2; try congruence; try done.
    + by eapply more_trans.
    + intros i Hi. destruct (tk_in0 i Hi) as [? Hf]. split; [done|]. apply Forall_cons_iff in Hf as [Hf _]. by constructor.
    + rewrite V7. exact tk_rmt0.
    + intros E. rewrite Hq; [apply tk_que0|]; congruence.
    + cbn [length] in *. lia.
    + intros t ->%list_elem_of_singleton _ Hl. rewrite <- Ec. apply Hh. rewrite En, tk_wnd0. exact Hl.
    + intros t ->%list_elem_of_singleton E. rewrite Hc in E. discriminate.
    + unfold tell. rewrite V8. exact tk_tell0.
Qed.

Lemma input_seg_flow c So Si n peer s a k a' k' :
  stream_bound Si -> Forall frag_ok Si -> rcv_nxt peer < 2 ^ 31 -> good c Si peer s -> ackcount k + 1 < 2 ^ 30 ->
  mem_inv k -> rcv_inv Si n k -> flow_inv c So k -> input_seg s a k = Some (a', k') -> fed c So Si n [s] peer k k'.
Proof.
  intros HS HF Hn Hg Hac M I F. pose proof (fl_flight _ _ _ F) as Ff.
  destruct (input_head_acked c Si peer s k Hg Hn Ff) as (A1 & _).
  pose proof (input_head_sview s k) as S1. pose proof (input_head_iview s k) as V1.
  destruct (acked_flow c So Si n peer s k _ A1 S1 V1 M I F) as (M1 & I1 & F1 & T1). unfold input_seg.
  case_match eqn:C1; [|case_match eqn:C2; [|case_match eqn:C3]]; bool_arith.
  - intros E. apply (inj Some) in E. apply (f_equal snd) in E. cbn [snd] in E. rewrite <- E.
    pose proof (acked_ack c Si peer s a k Hg C1 Hn Ff) as A2.
    destruct (input_ack_sview (fun _ => True) (wire_header s) a (input_head s k)) as (S2 & _).
    pose proof (input_ack_iview (wire_header s) a (input_head s k)) as V2.
    destruct (acked_flow c So Si n peer s k _ A2) as (M2 & I2 & F2 & T2); [congruence..|done|done|done|].
    constructor; try done. apply unmute; [rewrite C1; discriminate..|done].
  - set (k1 := input_head s k) in *.
    assert (rview k1 = rview k /\ ackcount k1 = ackcount k) as [R1 E1].
    { unfold iview in V1. unfold rview in *. by injection V1 as -> -> -> -> _ _ _ -> _. }
    destruct (input_push_ok (fun _ => True) (wire_header s) (data s) k1 M1) as (k2 & E2 & S2 & _ & M2 & _);
      [lia|by apply List.Forall_forall|]. rewrite E2. cbn [mbind option_bind]. intros E. injection E as <- <-.
    assert (seg_ok Si s) as Hs by (destruct Hg as (_ & _ & [(_ & _ & [(Hg & _)|[Hg|Hg]])|[_ Hg]]); [rewrite C2 in Hg; discriminate..|done]).
    eapply (fed_push c So Si n s peer k k1 k2 C2); [by constructor|unfold rview in R1; by injection R1|done|done|done|].
    eapply input_push_flow; try done; apply F1.
  - intros E. injection E as <- <-. apply fed_wask; [done|by constructor].
  - intros E. injection E as <- <-. constructor; try done. by apply unmute.
Qed.

Lemma input_segs_flow c So Si n peer ss : forall a k a' k',
  stream_bound Si -> Forall frag_ok Si -> rcv_nxt peer < 2 ^ 31 -> Forall (good c Si peer) ss ->
  ackcount k + Z.of_nat (length ss) < 2 ^ 30 -> mem_inv k -> rcv_inv Si n k -> flow_inv c So k ->
  input_segs ss a k = Some (a', k') -> fed c So Si n ss peer k k'.
Proof.
  induction ss as [|s ss IH]; intros a k a' k' HS HF Hn Hg Hac M I F; cbn [input_segs].
  { intros E. injection E as <- <-. constructor; try done. apply takes_nil. }
  apply Forall_cons_iff in Hg as [Hs Hg]. cbn [length] in Hac.
  destruct (input_seg s a k) as [[a1 k1]|] eqn:E1; cbn [mbind option_bind]; [|done]. intros E.
  destruct (input_seg_flow c So Si n peer s a k a1 k1) as [M1 I1 F1 T1]; try done; [lia|].
  destruct (IH a1 k1 a' k') as [M2 I2 F2 T2]; try done; [destruct (tk_count _ _ _ _ T1) as [_ H]; cbn in H; lia|].
  constructor; try done. change (s :: ss) with ([s] ++ ss). by eapply takes_app.
Qed.

(** A datagram. *)
Lemma good_wf c Si peer s : in_u 32 c -> stream_bound Si -> Forall frag_ok Si -> good c Si peer s -> wf_seg c s.
Proof.
  intros Hc HS HF (Ec & _ & H). unfold wf_seg. rewrite Ec, (wrap_small 32 c) by done. split; [done|].
  destruct H as [(-> & -> & H)|[Hp Hs]].
  - split; [done|]. split; [lia|]. cbn. destruct H as [(-> & _)|[->| ->]]; auto.
  - destruct Hs as (H0 & Hl & Hlen). split; [exact Hlen|].
    pose proof (Forall_lookup_1 _ _ _ _ HF Hl) as [_ Hd]. unfold fd in Hd. cbn in Hd. split; [lia|]. rewrite Hp. cbn. auto.
Qed.

Lemma fastack_same a k : map payload (snd_buf (ikcp_parse_fastack a k)) = map payload (snd_buf k) /\
  ikcp_parse_fastack a k = set_snd_buf (snd_buf (ikcp_parse_fastack a k)) k.
Proof.
  unfold ikcp_parse_fastack. case_match; [split; [done|by destruct k]|]. ksimpl. split; [apply bump_fastack_payload|done].
Qed.

Lemma grow_cwnd_same u k : snd_buf (grow_cwnd u k) = snd_buf k /\ iview (grow_cwnd u k) = iview k /\
  snd_una (grow_cwnd u k) = snd_una k /\ sview (grow_cwnd u k) = sview k.
Proof. unfold grow_cwnd. repeat (case_match || ksimpl); done. Qed.

(** The end of [ikcp_input]: only congestion control and the counters of the
    segments in flight. *)
Lemma fed_tail c So Si n ss peer k k1 k2 :
  fed c So Si n ss peer k k1 -> map payload (snd_buf k2) = map payload (snd_buf k1) -> sview k2 = sview k1 ->
  iview k2 = iview k1 -> snd_una k2 = snd_una k1 -> mem_inv k2 -> fed c So Si n ss peer k k2.
Proof.
  intros [M I F T] Ep Es Ei Eu M2. apply sns_payload in Ep as En.
  assert (length (snd_buf k2) = length (snd_buf k1)) as El by (apply (f_equal length) in Ep; by rewrite !length_map in Ep).
  assert (rview k2 = rview k1) as Ev by (unfold iview in Ei; unfold rview in *; by injection Ei as -> -> -> -> _).
  unfold iview in Ei. injection Ei as _ V2 V3 _ V5 V6 V7 V8 V9 V10 V11 V12 V13.
  assert (snd_nxt k2 = snd_nxt k1) as Ex by (unfold sview in Es; by injection Es).
  pose proof (more_view _ _ Ev) as Hm.
  constructor; [done|by eapply rcv_inv_view; [symmetry; exact Ev|]| |].
  - destruct F as [Fc Fs Ff Fu Fo Fd Fr Fw Fm Fa Fp]. constructor; rewrite ?V5, ?V6, ?V7, ?V8, ?V11, ?V12, ?V13; try done.
    + by eapply Forall_payload; [apply _|exact Ep|].
    + by eapply flight_eq.
    + by eapply una_eq.
    + by eapply rcv_ord_view.
    + by eapply drained_view.
    + by eapply acks_more.
    + eapply Forall_impl; [|exact Fp]. intros d. by apply good_dgram_more0.
  - destruct T. constructor; rewrite ?Es, ?V5, ?En, ?El, ?V2, ?V3, ?V8; try done.
    + by eapply more_trans.
    + by rewrite V11.
    + intros s Hs Hc Hl. destruct (tk_push0 s Hs Hc Hl). split; [by apply Hm|done].
    + unfold tell. rewrite V10. eauto.
    + unfold tell. by rewrite V10.
Qed.

Lemma chunk_length ss : (length ss <= length (chunk ss))%nat.
Proof. induction ss as [|s ss IH]; [done|]. rewrite chunk_cons, length_app, enc_length. cbn. lia. Qed.

Lemma input_flow c So Si n peer ss k r k' :
  in_u 32 c -> stream_bound Si -> Forall frag_ok Si -> rcv_nxt peer < 2 ^ 31 -> ss <> [] -> Forall (good c Si peer) ss ->
  bytes_ok (chunk ss) -> ackcount k + Z.of_nat (length (chunk ss)) < 2 ^ 30 ->
  mem_inv k -> rcv_inv Si n k -> flow_inv c So k -> ikcp_input (chunk ss) k = Some (r, k') -> fed c So Si n ss peer k k'.
Proof.
  intros Hc HS HF Hn Hne Hg Hb Hac M I F E. pose proof (chunk_length ss) as Hl.
  destruct (input_ok (seg_sz (mss k)) (chunk ss) k Hb M) as (r1 & k1 & E1 & _ & _ & M'); [apply M|done|].
  rewrite E in E1. injection E1 as <- <-.
  assert (Forall (wf_seg c) ss) as Hw by (eapply Forall_impl; [|exact Hg]; intros s; by eapply good_wf).
  destruct (input_chunk c ss k r k' Hw Hne) as (a1 & k1 & E1 & Ek); [apply F|destruct M; lia|done|].
  pose proof (input_segs_flow c So Si n peer ss (mkack false 0 0) k a1 k1 HS HF Hn Hg) as Hfed.
  set (k2 := if flag a1 then _ else k1) in *. destruct (grow_cwnd_same (snd_una k) k2) as (G1 & G2 & G3 & G4).
  rewrite <- Ek in G1, G2, G3, G4.
  assert (map payload (snd_buf k2) = map payload (snd_buf k1) /\ sview k2 = sview k1 /\ iview k2 = iview k1 /\ snd_una k2 = snd_una k1)
    as (P1 & P2 & P3 & P4).
  { subst k2. destruct (flag a1); [|done]. destruct (fastack_same (maxack a1) k1) as [-> ->]. done. }
  eapply fed_tail; [apply Hfed|..]; try done; [lia|congruence..].
Qed.

End KcpFlow.
