(* ===== verification/KcpLive.v ===== *)
(** * KcpLive: two KCP endpoints can always finish

    The invariant of KcpFlow for a system of two endpoints, and its use:
    whatever was lost so far, calls and deliveries remain that hand every
    message sent to the other user. *)
From stdpp Require Import sorting.
From S2P Require Import Prelude Bytes Kcp KcpWire KcpRecv KcpSend KcpNet KcpProps KcpTrace KcpFlow.
Import Kcp KcpNet KcpProps KcpTrace KcpFlow.
#[local] Arguments wrap : simpl never.
#[local] Arguments sext : simpl never.
#[local] Arguments Z.of_nat : simpl never.

Module KcpLive.

(** ** Calls *)

(** A receive window that fits the field of the header that announces it. *)
Definition polite (o : op) : bool := match o with OpWndsize _ r => r <? 65536 | _ => true end.
Definition quiet (o : op) : bool := match o with OpSend _ _ => false | _ => true end.

(** What is sent and not yet acknowledged. *)
Definition mu (k : ikcpcb) : nat := length (snd_buf k) + length (snd_queue k).

Lemma move_mu q cw wnd k : q = snd_queue k -> mu (move_to_buf q cw wnd k) = mu k.
Proof.
  revert k. induction q as [|s q IH]; intros k Eq; [cbn [move_to_buf]; by case_match|].
  rewrite move_to_buf_cons. case_match; [|done]. rewrite IH by done. unfold mu, move_seg. ksimpl. rewrite <- Eq, length_app. cbn. lia.
Qed.

Lemma moved_mu o k : mu (moved o k) = mu k.
Proof. destruct (flush_base o k) as (a & b & E). unfold moved. rewrite E. by rewrite move_mu. Qed.

Lemma gives_mu k k' o gs : flush_gives k k' o gs -> mu k' = mu k.
Proof.
  intros [_ _ _ _ _ _ _ Eb Ek _]. rewrite <- (moved_mu o k). apply (f_equal length) in Eb. rewrite !length_map in Eb.
  unfold mu. rewrite Eb. unfold keep in Ek. by injection Ek as _ _ _ _ _ _ -> _.
Qed.

(** The state [ikcp_update] flushes from. *)
Definition ticked (t u f : Z) (k : ikcpcb) : ikcpcb := set_ts_flush f (set_updated u (set_current t k)).

Lemma update_ticked t k : exists u f, u <> 0 /\
  (ikcp_update t k = Some (ticked t u f k) \/ ikcp_update t k = ikcp_flush (ticked t u f k)).
Proof.
  unfold ikcp_update. set (k1 := if updated _ =? 0 then _ else _).
  assert (exists u f, u <> 0 /\ k1 = ticked t u f k) as (u & f & Hu & ->).
  { subst k1. unfold ticked. case_match eqn:E; bool_arith; [by exists 1, t|]. exists (updated k), (ts_flush k). split; [done|]. by destruct k. }
  assert (forall f', set_ts_flush f' (ticked t u f k) = ticked t u f' k) as Ht by done.
  exists u. destruct (_ || _); cbv zeta; rewrite ?Ht.
  all: destruct (0 <=? _); [|eexists; split; [done|by left]]; rewrite ?Ht; case_match; rewrite ?Ht; eexists; (split; [done|by right]).
Qed.

Lemma nodelay_oview n i r c k : oview (snd (ikcp_nodelay n i r c k)) = oview k /\ snd_queue (snd (ikcp_nodelay n i r c k)) = snd_queue k.
Proof. unfold ikcp_nodelay, ikcp_interval. repeat (case_match || ksimpl); done. Qed.

(** What any call but [ikcp_send] does for the peer and for progress. *)
Record advances (c : Z) (So : list frag) (peer k k' : ikcpcb) : Prop := mk_advances {
  av_flow : flow_inv c So k';
  av_more : more k k';
  av_covers : covers k peer -> covers k' peer;
  av_mu : (mu k' <= mu k)%nat
}.

Lemma advances_same c So peer k k' : oview k' = oview k -> rview k' = rview k -> snd_queue k' = snd_queue k ->
  flow_inv c So k -> advances c So peer k k'.
Proof.
  intros Eo Er Eq F. constructor.
  - rewrite <- (app_nil_r So). by eapply flow_same.
  - by apply more_view.
  - unfold oview in Eo. injection Eo as _ Eb En _. unfold covers, sns. by rewrite Eb, En.
  - unfold oview in Eo. injection Eo as _ Eb _. unfold mu. by rewrite Eb, Eq.
Qed.

Lemma advances_flush c So Si n peer k k' :
  stream_bound So -> snd_inv So k -> rcv_inv Si n k -> mem_inv k -> flow_inv c So k -> ikcp_flush k = Some k' -> advances c So peer k k'.
Proof.
  intros HS Is Ir M F E. destruct (flush_flow c So Si n k k' HS Is Ir M F E) as (F' & [Ev En Eo Ew] & Hg). constructor.
  - done.
  - by apply more_view.
  - intros Hc i Hi. destruct (decide (i < snd_nxt k)); [|right; apply Ew; lia]. destruct (Hc i) as [?|?]; [lia|by left|right; auto].
  - destruct (decide (updated k = 0)) as [Hu|Hu]; [unfold ikcp_flush in E; rewrite Hu in E; by injection E as <-|].
    destruct (Hg Hu) as (o & gs & Hgs & _). by rewrite (gives_mu _ _ _ _ Hgs).
Qed.

(** Every call. *)
Lemma exec_advances o c So Si ms p peer r d k' :
  in_u 32 c -> stream_bound So -> stream_bound Si -> Forall frag_ok Si -> framing Si ms -> rcv_nxt peer < 2 ^ 31 ->
  party_inv So Si p -> flow_inv c So (cb p) -> (forall g, o = OpInput g -> good_dgram c Si peer g) ->
  polite o = true -> quiet o = true -> op_ok o (cb p) = true -> exec o (cb p) = Some (r, d, k') -> advances c So peer (cb p) k'.
Proof.
  intros Hc HSo HS HF Hms Hn [[M O L St] Is Ou Fr Sm (n & Ir & _)] F Hin Hp Hq Hok. set (k := cb p) in *.
  destruct o; cbn [exec op_ok quiet polite] in *; try done.
  - intros E. destruct (recv_flow c So Si n len k r d k' HS Ir F E) as (F' & Hm & Eo).
    destruct (recv_ok len k L) as (r1 & d1 & k1 & E1 & _ & V1 & _). rewrite E in E1. injection E1 as <- <- <-.
    unfold oview in Eo. unfold sview in V1. injection Eo as _ Eb En _. injection V1 as Eq _.
    constructor; [done|done| |unfold mu; by rewrite Eb, Eq]. unfold covers, sns. by rewrite Eb, En.
  - bool_arith. destruct (Hin _ eq_refl) as (ss & Hne & -> & Hg).
    destruct (ikcp_input _ k) as [[r1 k1]|] eqn:E; cbn [mbind option_bind]; [|done]. intros Eq. injection Eq as <- <- <-.
    destruct (input_flow c So Si n peer ss k r1 k1) as [M' I' F' T]; try done; [by apply bytes_okb_ok|].
    constructor; [done|apply T| |].
    + intros Hcv i Hi. pose proof (tk_sview _ _ _ _ T) as Es. unfold sview in Es. injection Es as _ En _. rewrite En in Hi.
      destruct (Hcv i Hi) as [?|?]; [by left|]. destruct (tk_out _ _ _ _ T i); auto.
    + pose proof (tk_sview _ _ _ _ T) as Es. unfold sview in Es. injection Es as Eq _. pose proof (tk_len _ _ _ _ T).
      unfold mu. rewrite Eq. lia.
  - destruct (ikcp_update current_ k) as [k1|] eqn:E; cbn [mbind option_bind]; [|done]. intros Eq. injection Eq as _ _ <-.
    destruct (update_ticked current_ k) as (u & f & Hu & [E1|E1]); rewrite E in E1.
    + injection E1 as ->. by apply advances_same.
    + symmetry in E1. destruct (advances_same c So peer k (ticked current_ u f k)) as [F1 H1 C1 L1]; [done..|].
      destruct (advances_flush c So Si n peer (ticked current_ u f k) k1) as [F2 H2 C2 L2]; try done;
        [by destruct Is|by destruct Ir|by destruct M].
  - destruct (ikcp_flush k) as [k1|] eqn:E; cbn [mbind option_bind]; [|done]. intros Eq. injection Eq as _ _ <-.
    by eapply advances_flush.
  - destruct (nodelay_oview nodelay_ interval_ resend nc k) as [Eo Eq].
    pose proof (nodelay_tick nodelay_ interval_ resend nc k) as T.
    destruct (ikcp_nodelay _ _ _ _ k) as [z k1]. cbn [snd] in *. intros E. injection E as _ _ <-.
    apply advances_same; try done. exact (f_equal snd T).
  - pose proof (wndsize_flow c So sndwnd rcvwnd k) as W. pose proof (wndsize_tick sndwnd rcvwnd k) as T.
    destruct (ikcp_wndsize _ _ k) as [z k1]. cbn [snd] in *. intros E. injection E as _ _ <-. unfold tick_view in T.
    injection T as E1 E2 E3 E4 E5 E6 E7 E8 E9 E10 E11 E12 E13 E14 E15 E16. constructor.
    + apply W; [lia|done].
    + apply more_view. unfold rview. congruence.
    + unfold covers, sns. by rewrite E12, E2.
    + unfold mu. by rewrite E12, E1.
Qed.

(** ** The system *)

(** What holds of a party and of what its peer has of it. *)
Record half (c : Z) (So Si : list frag) (p peer : party) : Prop := mk_half {
  hf_party : party_inv So Si p;
  hf_flow : flow_inv c So (cb p);
  hf_covers : covers (cb p) (cb peer);
  hf_mtu : mtu (cb p) < 2 ^ 30
}.

Definition linked (c : Z) (Sa Sb : list frag) (a b : party) : Prop := half c Sa Sb a b /\ half c Sb Sa b a.

Definition event_polite (e : event) : bool := match e with Call o => polite o | Deliver _ => true end.
Definition event_quiet (e : event) : bool := match e with Call o => quiet o | Deliver _ => true end.

Lemma rcv_nxt_bound Si n k : rcv_inv Si n k -> 0 <= rcv_nxt k <= Z.of_nat (length Si).
Proof. intros I. pose proof (rcv_inv_bound _ _ _ I). destruct I. lia. Qed.

Lemma event_op_inv e peer o : event_op e peer = Some o ->
  (event_polite e = true -> polite o = true) /\ (event_quiet e = true -> quiet o = true) /\
  forall d, o = OpInput d -> d ∈ outputs peer.
Proof.
  destruct e as [o'|n]; cbn.
  - destruct o'; intros E; simplify_eq; split_and!; done.
  - destruct (outputs peer !! n) eqn:En; cbn; intros E; simplify_eq. split_and!; [done..|].
    intros d E. injection E as <-. by eapply list_elem_of_lookup_2.
Qed.

Lemma half_send c So T Si p peer p' :
  half c So Si p peer -> party_inv (So ++ T) Si p' -> oview (cb p') = oview (cb p) -> rview (cb p') = rview (cb p) ->
  mtu (cb p') = mtu (cb p) -> half c (So ++ T) Si p' peer.
Proof.
  intros [P F C M] P' Eo Er Em. constructor; [done|by eapply flow_same| |by rewrite Em].
  unfold oview in Eo. injection Eo as _ Eb En _. unfold covers, sns in *. by rewrite Eb, En.
Qed.

Lemma covers_more k peer peer' : more peer peer' -> covers k peer -> covers k peer'.
Proof. intros [_ H] C i Hi. destruct (C i Hi); auto. Qed.

(** What an event leaves. *)
Definition kept (p p' : party) : Prop :=
  sent p' = sent p /\ got p `prefix_of` got p' /\ (mu (cb p') <= mu (cb p))%nat.

Lemma kept_refl p : kept p p.
Proof. by split_and!. Qed.

Lemma kept_trans p1 p2 p3 : kept p1 p2 -> kept p2 p3 -> kept p1 p3.
Proof. intros (? & ? & ?) (? & ? & ?). split_and!; [congruence|by etrans|lia]. Qed.

Lemma linked_step c Sp Sq e p q p' :
  in_u 32 c -> linked c Sp Sq p q -> few (sent p') -> few (sent q) -> event_polite e = true -> party_step e p q = Some p' ->
  exists T, linked c (Sp ++ T) Sq p' q /\ (event_quiet e = true -> kept p p' /\ T = []).
Proof.
  intros Hc L Hp' Hq Hpol E. pose proof L as [[P F C Mt] [Q G D Mq]].
  assert (p' = p -> exists T, linked c (Sp ++ T) Sq p' q /\ (event_quiet e = true -> kept p p' /\ T = [])) as Hsame.
  { intros ->. exists []. by rewrite app_nil_r. }
  destruct (party_step_safe e p q) as (p1 & E1 & Sf1 & ms & Ems); [apply P|]. rewrite E in E1. injection E1 as <-.
  assert (few (sent p)) as Hp by (rewrite Ems in Hp'; by eapply few_prefix).
  destruct (party_step_inv e p p' q Sp Sq P Q Hp Hq E) as (T & P' & HT).
  unfold party_step in E. destruct (event_op e (cb q)) as [o|] eqn:Eo; [|injection E as <-; by apply Hsame].
  destruct (op_ok o (cb p)) eqn:Hok; [|injection E as <-; by apply Hsame].
  destruct (event_op_inv _ _ _ Eo) as (Hpo & Hqu & Hin).
  unfold perform in E. destruct (exec o (cb p)) as [[[r d] k']|] eqn:Ee; cbn [mbind option_bind] in E; [|done].
  destruct (exec_safe o (cb p)) as (r1 & d1 & k1 & Ee1 & _ & Em); [apply P|done|]. exists T. rewrite Ee in Ee1. injection Ee1 as <- <- <-.
  apply (inj Some) in E. assert (cb p' = k') as Ek by (by rewrite <- E).
  assert (forall k0, more (cb p) k0 -> k0 = k' -> half c Sq (Sp ++ T) q p') as HQ.
  { intros k0 Hm ->. constructor; [by apply party_inv_peer|done| |done]. rewrite Ek. by eapply covers_more. }
  destruct (quiet o) eqn:Hqo.
  - destruct Q as [SfQ SnQ OuQ FrQ SmQ (m & Irq & Hgq)].
    pose proof (few_bound _ _ FrQ Hq) as HbQ. pose proof P as [_ _ _ FrP _ _]. pose proof (few_bound _ _ FrP Hp) as HbP.
    pose proof (rcv_nxt_bound _ _ _ Irq) as Hnq. unfold stream_bound in HbP.
    destruct (exec_advances o c Sp Sq (sent q) p (cb q) r d k') as [F' H' C' L']; try done; [by eapply framing_ok|lia| |by apply Hpo|].
    { intros g ->. specialize (Hin g eq_refl). pose proof (fl_outs _ _ _ G) as Ho. rewrite List.Forall_forall in Ho.
      by apply Ho, list_elem_of_In. }
    split.
    + split; [|by eapply HQ]. constructor; [done| | |].
      * rewrite Ek. by eapply flow_same.
      * rewrite Ek. auto.
      * rewrite Ek. lia.
    + intros _. assert (sent p' = sent p) as Esp by (rewrite <- E; cbn; by destruct o). split; [|auto].
      split_and!; [done|rewrite <- E; cbn|by rewrite Ek].
      destruct o; try done. case_match; [by apply prefix_app_r|done].
  - split; [|intros Hev; specialize (Hqu Hev); congruence]. destruct o; try done. cbn [exec] in Ee.
    destruct (ikcp_send buf len (cb p)) as [[r0 k0]|] eqn:Es; cbn [mbind option_bind] in Ee; [|done]. injection Ee as <- <- <-.
    assert (oview k0 = oview (cb p) /\ rview k0 = rview (cb p)) as [Eov Erv].
    { cbn [op_ok] in Hok. bool_arith. destruct P as [[M _ _ St] _ _ _ _ _].
      assert (0 < mss (cb p) < 2 ^ 31) as Hmss by (destruct M; unfold IKCP_OVERHEAD in *; lia).
      destruct (send_cases buf len (cb p)) as [[_ E1]| [[_ E1]| (_ & qq & z & E1 & _)]]; auto; rewrite E1 in Es; by injection Es as <- <-. }
    split; [|by eapply HQ; [apply more_view|]].
    apply (half_send c Sp T Sq p); [done|done|by rewrite Ek..].
Qed.

Lemma create_linked c m m' : in_u 32 c -> mtu_ok m -> mtu_ok m' -> m < 2 ^ 30 -> m' < 2 ^ 30 -> linked c [] [] (init c m) (init c m').
Proof.
  intros Hc Hm Hm' Hs Hs'.
  assert (forall m, mtu_ok m -> m < 2 ^ 30 -> forall peer, half c [] [] (init c m) peer) as H; [|by split; apply H].
  clear m m' Hm Hm' Hs Hs'. intros m Hm Hs peer. destruct (create_inv c m Hm) as (? & ? & ? & ?).
  assert (mtu (create c m) = m /\ conv (create c m) = c /\ oview (create c m) = oview (ikcp_create c) /\
    rview (create c m) = rview (ikcp_create c)) as (E1 & E2 & E3 & E4).
  { unfold create, ikcp_setmtu, mtu_ok, IKCP_OVERHEAD in *.
    rewrite (proj2 (Z.ltb_ge m 50)), (proj2 (Z.ltb_ge m 24)) by lia. cbn [orb snd].
    split_and!; try done. apply wrap_small. unfold in_u. lia. }
  constructor.
  - constructor; try done; try constructor. exists 0%nat. split; [done|constructor].
  - rewrite <- (app_nil_r []). eapply flow_same; [exact E3|exact E4|].
    constructor; try done; try (constructor; cbn; try constructor; lia).
  - intros i Hi. cbn in Hi. unfold oview in E3. injection E3 as _ _ E3 _. rewrite E3 in Hi. cbn in Hi. lia.
  - cbn. by rewrite E1.
Qed.

(** ** What the system can still do *)

(** An event of the continuation: nothing is sent, and windows fit. *)
Definition calm (e : bool * event) : Prop := event_polite (snd e) = true /\ event_quiet (snd e) = true.

Record leads (c : Z) (Sp Sq : list frag) (p q p' q' : party) : Prop := mk_leads {
  ld_run : exists es, Forall calm es /\ run es (p, q) = Some (p', q');
  ld_linked : linked c Sp Sq p' q';
  ld_left : kept p p';
  ld_right : kept q q'
}.

Record ready (c : Z) (Sp Sq : list frag) (p q : party) : Prop := mk_ready {
  rd_linked : linked c Sp Sq p q;
  rd_few : few (sent p) /\ few (sent q);
  rd_bytes : Forall bytes_ok (sent p) /\ Forall bytes_ok (sent q)
}.

Lemma ready_sym c Sp Sq p q : ready c Sp Sq p q -> ready c Sq Sp q p.
Proof. by intros [[? ?] [? ?] [? ?]]. Qed.

Lemma leads_ready c Sp Sq p q p' q' : ready c Sp Sq p q -> leads c Sp Sq p q p' q' -> ready c Sp Sq p' q'.
Proof. intros [_ F B] [_ L (E1 & _) (E2 & _)]. constructor; [done|by rewrite E1, E2..]. Qed.

Lemma run_concat es fs s : run (es ++ fs) s = (s ← run es s; run fs s).
Proof.
  unfold run. rewrite foldl_app. destruct (foldl _ (Some s) es) as [s1|]; [done|]. cbn.
  induction fs as [|f fs IH]; [done|exact IH].
Qed.

Lemma run_cons e es s : run (e :: es) s = (s ← sys_step s e; run es s).
Proof. exact (run_concat [e] es s). Qed.

(** The parties in the other order. *)
Lemma run_swap es p q p' q' : run es (p, q) = Some (p', q') ->
  run (map (fun e => (negb (fst e), snd e)) es) (q, p) = Some (q', p').
Proof.
  revert p q. induction es as [|[[] e] es IH]; intros p q; [by intros E; injection E as <- <-|..]; cbn [map negb]; rewrite !run_cons; unfold sys_step; cbn [fst snd negb].
  - destruct (party_step e p q) as [p1|]; cbn [mbind option_bind]; [apply IH|done].
  - destruct (party_step e q p) as [q1|]; cbn [mbind option_bind]; [apply IH|done].
Qed.

Lemma leads_sym c Sp Sq p q p' q' : leads c Sp Sq p q p' q' -> leads c Sq Sp q p q' p'.
Proof.
  intros [(es & Hes & E) [L1 L2] Kp Kq]. constructor; [|done..]. eexists. split; [|by apply run_swap].
  apply List.Forall_map. eapply Forall_impl; [|exact Hes]. done.
Qed.

Lemma leads_refl c Sp Sq p q : ready c Sp Sq p q -> leads c Sp Sq p q p q.
Proof. intros [L _ _]. constructor; [by exists []|done|apply kept_refl..]. Qed.

Lemma leads_trans c Sp Sq p1 q1 p2 q2 p3 q3 :
  leads c Sp Sq p1 q1 p2 q2 -> leads c Sp Sq p2 q2 p3 q3 -> leads c Sp Sq p1 q1 p3 q3.
Proof.
  intros [(es & Hes & E) _ Kp Kq] [(fs & Hfs & F) L Kp' Kq']. constructor; [|done|by eapply kept_trans..].
  exists (es ++ fs). split; [by apply Forall_app|]. by rewrite run_concat, E.
Qed.

(** One event at the first party. *)
Lemma leads_event c Sp Sq e p q p' :
  in_u 32 c -> ready c Sp Sq p q -> event_polite e = true -> event_quiet e = true -> party_step e p q = Some p' ->
  leads c Sp Sq p q p' q.
Proof.
  intros Hc [L [Fp Fq] _] Hp Hq E.
  assert (few (sent p')) as Fp'.
  { destruct L as [[P _ _ _] _]. revert E. unfold party_step. destruct (event_op e (cb q)) as [o|] eqn:Eo; [|intros E; by injection E as <-].
    destruct (op_ok o (cb p)); [|intros E; by injection E as <-]. unfold perform.
    destruct (exec o (cb p)) as [[[r d] k]|]; cbn [mbind option_bind]; [|done]. intros E. injection E as <-. cbn [sent].
    destruct (event_op_inv _ _ _ Eo) as (_ & Hqo & _). specialize (Hqo Hq). by destruct o. }
  destruct (linked_step c Sp Sq e p q p' Hc L Fp' Fq Hp E) as (T & L' & HK). destruct (HK Hq) as [K ->].
  rewrite app_nil_r in L'. constructor; [|done|done|apply kept_refl].
  exists [(true, e)]. split; [by constructor|]. rewrite run_cons. unfold sys_step. cbn [fst snd]. by rewrite E.
Qed.

Definition with_cb (k : ikcpcb) (p : party) : party := mkparty k (sent p) (got p).

Lemma call_step o p q r d k : op_ok o (cb p) = true -> exec o (cb p) = Some (r, d, k) ->
  match o with OpSend _ _ | OpRecv _ | OpInput _ => False | _ => True end -> party_step (Call o) p q = Some (with_cb k p).
Proof. unfold party_step, perform. intros Hok E Ho. destruct o; try done; cbn [event_op]; by rewrite Hok, E. Qed.

Lemma ticked_safe t u f k : safe k -> safe (ticked t u f k).
Proof. intros H. by apply (setting_safe k). Qed.

(** A flush at a chosen time. *)
Record flushes (c : Z) (Sp : list frag) (t : Z) (k k1 k' : ikcpcb) (gs : list (list IKCPSEG)) : Prop := mk_flushes {
  fs_tick : exists u f, k1 = ticked t u f k;
  fs_gives : exists o, flush_gives k1 k' o gs;
  fs_good : Forall (Forall (good c Sp k')) gs;
  fs_flushed : flushed k1 k'
}.

Lemma leads_flush c Sp Sq p q t :
  in_u 32 c -> ready c Sp Sq p q ->
  exists k1 k' gs, leads c Sp Sq p q (with_cb k' p) q /\ flushes c Sp t (cb p) k1 k' gs.
Proof.
  intros Hc R. destruct (update_ticked t (cb p)) as (u & f & Hu & HE). set (k1 := ticked t u f (cb p)) in *.
  pose proof R as [[[P F _ _] _] [Fp _] _]. destruct P as [Sf Is _ Fr _ (n & Ir & _)].
  destruct (flush_safe k1) as (k' & Ef & _); [by apply ticked_safe|].
  destruct (flush_flow c Sp Sq n k1 k') as (_ & Hfd & Hg); try done.
  { by eapply few_bound. }
  { by destruct Is. }
  { by destruct Ir. }
  { by destruct Sf as [[] _ _ _]. }
  { rewrite <- (app_nil_r Sp). by eapply flow_same; [| |exact F]. }
  destruct (Hg Hu) as (o & gs & Hgs & Hgood). exists k1, k', gs.
  split; [|by constructor; [exists u, f|exists o|..]].
  assert (ikcp_update t (cb p) = Some k' \/ ikcp_update t (cb p) = Some k1) as [E|E].
  { destruct HE as [HE|HE]; [by right|left]. by rewrite HE. }
  - eapply (leads_event _ _ _ (Call (OpUpdate t))); try done. eapply call_step; [done|cbn [exec]; by rewrite E|done].
  - assert (leads c Sp Sq p q (with_cb k1 p) q) as L1.
    { eapply (leads_event _ _ _ (Call (OpUpdate t))); try done. eapply call_step; [done|cbn [exec]; by rewrite E|done]. }
    eapply leads_trans; [exact L1|]. eapply (leads_event _ _ _ (Call OpFlush)); try done; [by eapply leads_ready|].
    change (with_cb k' p) with (with_cb k' (with_cb k1 p)). eapply call_step; [done|cbn [exec cb with_cb]; by rewrite Ef|done].
Qed.

(** *** A delivery *)

Lemma frags_bytes l m : frags l m -> bytes_ok m -> Forall (fun f => bytes_ok (snd f)) l.
Proof.
  induction 1 as [d|d l m _ IH]; intros Hm; [by constructor|]. apply Forall_app in Hm as [Hd Hm]. constructor; [done|by apply IH].
Qed.

Lemma framing_bytes S ms : framing S ms -> Forall bytes_ok ms -> Forall (fun f => bytes_ok (snd f)) S.
Proof.
  induction 1 as [|l m S ms Hl _ IH]; intros Hm; [constructor|]. apply Forall_cons_iff in Hm as [Hm Hms].
  apply Forall_app. split; [by eapply frags_bytes|by apply IH].
Qed.

Lemma chunk_bytes c S k g : Forall (fun f => bytes_ok (snd f)) S -> Forall (good c S k) g -> bytes_ok (chunk g).
Proof.
  intros HS Hg. induction Hg as [|s g (_ & _ & Hs) _ IH]; [constructor|]. rewrite chunk_cons. apply Forall_app. split; [|done].
  unfold enc. apply Forall_app. split.
  - unfold ikcp_encode_seg. repeat (apply Forall_app; split); try apply le_bytes_ok.
  - destruct Hs as [(_ & -> & _)|(_ & _ & Hl & _)]; [constructor|]. exact (Forall_lookup_1 _ _ _ _ HS Hl).
Qed.

Lemma leads_deliver c Sp Sq p q g :
  in_u 32 c -> ready c Sp Sq p q -> chunk g ∈ outputs (cb q) -> g <> [] -> Forall (good c Sq (cb q)) g -> ackcount (cb p) = 0 ->
  exists k' n, leads c Sp Sq p q (with_cb k' p) q /\ fed c Sp Sq n g (cb q) (cb p) k'.
Proof.
  intros Hc R [i Hi]%list_elem_of_lookup_1 Hne Hg Hac.
  pose proof R as [[[P F _ _] [Q G _ Mq]] [Fp Fq] [_ Bq]].
  pose proof P as [[M O L St] _ _ FrP _ (n & Ir & _)]. pose proof Q as [SfQ _ _ FrQ _ (m & Irq & _)].
  pose proof (few_bound _ _ FrQ Fq) as HbQ. pose proof (few_bound _ _ FrP Fp) as HbP.
  pose proof (rcv_nxt_bound _ _ _ Irq) as Hnq. unfold stream_bound in HbP.
  assert (bytes_ok (chunk g)) as Hb by (eapply chunk_bytes; [by eapply framing_bytes|done]).
  assert (Z.of_nat (length (chunk g)) < 2 ^ 30) as Hlen.
  { destruct SfQ as [_ Oq _ _]. unfold outs_small in Oq. pose proof (Forall_lookup_1 _ _ _ _ Oq Hi) as H. cbn in H. lia. }
  destruct (input_ok (seg_sz (mss (cb p))) (chunk g) (cb p) Hb M) as (r & k' & E & _); [apply M|lia|].
  exists k', n. split.
  - apply (leads_event _ _ _ (Deliver i)); try done. unfold party_step. cbn [event_op]. rewrite Hi. cbn [mbind option_bind op_ok].
    rewrite (bytes_ok_okb _ Hb), (proj2 (Z.ltb_lt _ _)) by lia. cbn [andb]. unfold perform. cbn [exec]. by rewrite E.
  - eapply input_flow; try done; [by eapply framing_ok|lia|lia].
Qed.

(** *** Draining a receiver *)

Lemma recv_tell len k r d k' : ikcp_recv len k = Some (r, d, k') -> tell k -> tell k'.
Proof.
  unfold ikcp_recv. destruct (rcv_queue k) as [|s q]; [intros E; by injection E as <- <- <-|].
  case_match; [intros E; by injection E as <- <- <-|]. case_match; [intros E; by injection E as <- <- <-|].
  destruct (merge_fragments _) as [[d' rest] z]. set (k1 := if negb _ then _ else k).
  destruct (negb (i32 _ =? _)); [done|]. intros E. injection E as <- <- <-.
  assert (probe (move_ready k1) = probe k) as Ep.
  { pose proof (move_ready_f_pview (rcv_buf k1) k1) as V. unfold move_ready. unfold pview in V. injection V as _ _ _ _ _ _ _ -> _.
    subst k1. by case_match. }
  destruct (_ && _); [intros _; apply tell_lor|]. unfold tell. by rewrite Ep.
Qed.

(** What receiving leaves alone. *)
Record drains (k k' : ikcpcb) : Prop := mk_drains {
  dr_oview : oview k' = oview k;
  dr_que : snd_queue k' = snd_queue k;
  dr_more : more k k';
  dr_tell : tell k -> tell k'
}.

Lemma drains_trans k1 k2 k3 : drains k1 k2 -> drains k2 k3 -> drains k1 k3.
Proof. intros [? ? ? ?] [? ? ? ?]. constructor; [congruence..|by eapply more_trans|auto]. Qed.

(** A receive with a buffer for any message. *)
Definition recv_all : op := OpRecv (2 ^ 31 - 1).

Lemma recv_next c Sp Sq p q l m T os n :
  in_u 32 c -> ready c Sp Sq p q -> rcv_inv Sq n (cb p) -> drop n Sq = l ++ T -> frags l m -> sent q = got p ++ m :: os ->
  (length l <= length (rcv_queue (cb p)))%nat ->
  exists k', leads c Sp Sq p q (mkparty k' (sent p) (got p ++ [m])) q /\ drains (cb p) k'.
Proof.
  intros Hc R I Ed Hl Eq Hle. pose proof R as [[[P F _ _] [Q _ _ _]] [Fp Fq] _].
  pose proof (few_bound _ _ (pi_sent _ _ _ Q) Fq) as HbQ.
  assert (Z.of_nat (length m) < 2 ^ 31) as Hm.
  { pose proof (pi_small _ _ _ Q) as Hs. rewrite Eq in Hs. apply Forall_app in Hs as [_ Hs]. by apply Forall_cons_iff in Hs as [? _]. }
  destruct (recv_cases Sq n (cb p) l m T (2 ^ 31 - 1) HbQ I Ed Hl Hm) as (r & d & k' & E & Hres & _).
  pose proof (frags_bound _ _ Hl) as Hlb. unfold recv_result in Hres.
  destruct (Nat.eqb_spec (length (rcv_queue (cb p))) 0); [lia|]. destruct (Nat.ltb_spec (length (rcv_queue (cb p))) (length l)); [lia|].
  destruct (Z.ltb_spec (Z.abs (2 ^ 31 - 1)) (Z.of_nat (length m))); [lia|]. destruct Hres as [-> ->].
  destruct (recv_flow c Sp Sq n _ _ _ _ k' HbQ I F E) as (_ & Hmore & Eo).
  destruct (recv_ok (2 ^ 31 - 1) (cb p)) as (r1 & d1 & k1 & E1 & _ & V1 & _); [apply P|]. rewrite E in E1. injection E1 as <- <- <-.
  exists k'. split.
  - apply (leads_event _ _ _ (Call recv_all)); try done. unfold party_step, recv_all. cbn [event_op op_ok]. unfold perform.
    cbn [exec]. rewrite E. cbn [mbind option_bind]. by rewrite (proj2 (Z.leb_le 0 (Z.of_nat _))) by lia.
  - constructor; [done| |done|by eapply recv_tell]. unfold sview in V1. by injection V1.
Qed.

Lemma leads_drain c Sp Sq p q :
  in_u 32 c -> ready c Sp Sq p q ->
  exists p', leads c Sp Sq p q p' q /\ drains (cb p) (cb p') /\ nrcv_que (cb p') < IKCP_WND_RCV /\
    (Z.of_nat (length Sq) <= rcv_nxt (cb p) -> got p' = sent q).
Proof.
  intros Hc. remember (length (sent q) - length (got p))%nat as j eqn:Ej. assert (length (sent q) - length (got p) <= j)%nat as Hj by lia.
  clear Ej. revert p Hj. induction j as [j IH] using lt_wf_ind. intros p Hj R.
  pose proof R as [[[P _ _ _] [Q _ _ _]] _ _]. pose proof P as [_ _ _ _ _ (n & I & Hg)].
  pose proof (pi_sent _ _ _ Q) as Hf. rewrite <- (take_drop n Sq) in Hf. destruct (framing_split _ _ _ _ Hg Hf) as (os & Eos & Hos).
  assert (drains (cb p) (cb p)) as Hd0 by (constructor; try done; apply more_refl).
  pose proof (rcv_inv_bound _ _ _ I) as Hb. pose proof (ri_cnt _ _ _ I) as Hcnt. pose proof (ri_nxt _ _ _ I) as Hnx.
  pose proof (ri_done _ _ _ I) as Hdone. unfold IKCP_WND_RCV.
  inversion Hos as [Ed|l m T os' Hl HT Ed Eo]; subst os.
  { exists p. split; [by apply leads_refl|]. split; [done|]. apply (f_equal length) in Ed. rewrite length_drop in Ed. cbn in Ed.
    split; [lia|]. intros _. by rewrite Eos, app_nil_r. }
  pose proof (frags_bound _ _ Hl) as Hlb. symmetry in Ed.
  assert (length Sq = n + length l + length T)%nat as Hlen by (apply (f_equal length) in Ed; rewrite length_drop, length_app in Ed; lia).
  destruct (decide (length l <= length (rcv_queue (cb p)))%nat) as [Hle|Hlt].
  2: { exists p. split; [by apply leads_refl|]. split; [done|]. split; [lia|]. intros. lia. }
  destruct (recv_next c Sp Sq p q l m T os' n Hc R I Ed Hl Eos Hle) as (k' & L1 & D1).
  set (p1 := mkparty k' (sent p) (got p ++ [m])) in *.
  assert (length (sent q) = length (got p) + S (length os'))%nat as Hls by (rewrite Eos, length_app; done).
  assert (length (got p1) = S (length (got p))) as Hl1 by (cbn; rewrite length_app; cbn; lia).
  destruct (IH (length (sent q) - length (got p1))%nat) with (p := p1) as (p' & L2 & D2 & Hq & Hfin); [lia|lia|by eapply leads_ready|].
  exists p'. split; [by eapply leads_trans|]. split; [by eapply drains_trans|]. split; [done|].
  intros Hn. apply Hfin. destruct (dr_more _ _ D1). cbn. lia.
Qed.

(** *** What a flush leaves *)

Lemma gives_keep k k' o gs : flush_gives k k' o gs ->
  mkeep k' = (conv k, snd_una k, rmt_wnd k, snd_wnd k, rcv_wnd k, rview k, acklist k, 0,
    (current k, 0, probe_wait (probed k), ts_probe (probed k), updated k, nocwnd k)).
Proof.
  intros H. rewrite (keep_mkeep _ _ (fg_keep _ _ _ _ H)). unfold moved. rewrite move_mkeep. rewrite probed_eq at 1.
  unfold mkeep, rview. ksimpl. reflexivity.
Qed.

Lemma gives_una k k' o gs : flush_gives k k' o gs -> Forall (fun s => seg_una s = rcv_nxt k /\ seg_wnd s = flush_wnd k) (concat gs).
Proof. intros H. eapply Forall_impl; [|exact (fg_segs _ _ _ _ H)]. intros s [(_ & ? & ? & _)|(? & ? & _)]; done. Qed.

Lemma gives_old k k' o gs s : flush_gives k k' o gs -> s ∈ snd_buf k -> due k s -> exists g s', g ∈ gs /\ s' ∈ g /\ payload s' = payload s.
Proof.
  intros H Hs Hd. destruct (fg_due _ _ _ _ H s) as (s' & Hs' & E); [|done|].
  - unfold moved. destruct (flush_base o k) as (a & b & ->). destruct (move_to_buf_extends (snd_queue k) (send_window k) (flush_wnd k)
      (set_outputs o (set_probe 0 (set_ts_probe a (set_probe_wait b (set_ackcount 0 k)))))) as [l El].
    rewrite El. apply elem_of_app. by left.
  - apply list_elem_of_In, in_concat in Hs' as (g & Hg & Hs'). exists g, s'. by rewrite !list_elem_of_In.
Qed.

Lemma gives_acks k k' o gs : mem_inv k -> flush_gives k k' o gs -> 0 < ackcount k -> exists g, g ∈ gs.
Proof.
  intros M H Ha. pose proof (fg_ack _ _ _ _ H) as Hne. destruct gs as [|g gs]; [|exists g; left].
  exfalso. apply Hne; [|done]. intros E%(f_equal length). rewrite length_take in E. destruct M. cbn in E. lia.
Qed.

Lemma gives_in k k' o gs g : flush_gives k k' o gs -> g ∈ gs -> chunk g ∈ outputs k' /\ g <> [].
Proof.
  intros [Eo Hne _ _ _ _ _ _ _ _] Hg. split.
  - rewrite Eo. apply elem_of_app. right. by apply list_elem_of_fmap_2.
  - rewrite List.Forall_forall in Hne. by apply Hne, list_elem_of_In.
Qed.

(** *** The next segment is known to the receiver *)

Lemma stored_next k : rcv_ord k -> drained k -> nrcv_que k < IKCP_WND_RCV -> ~ stored (rcv_nxt k) k.
Proof.
  intros [Os Ol] D Hq [H|(s & Hs & E)]; [lia|]. unfold drained in D. destruct (rcv_buf k) as [|t buf]; [by apply elem_of_nil in Hs|].
  destruct D as [D|D]; [|lia]. apply elem_of_cons in Hs as [->|Hs]; [done|].
  rewrite reverse_cons in Os. apply Forall_cons_iff in Ol as [Ol _].
  assert (sn_desc s t) as Hd by (eapply StronglySorted_app_1_elem_of; [exact Os|by apply elem_of_reverse|by left]). unfold sn_desc in Hd. lia.
Qed.

Lemma una_low k peer : covers k peer -> flight_ok k -> una_ok k -> rcv_ord peer -> drained peer -> 0 <= rcv_nxt peer ->
  nrcv_que peer < IKCP_WND_RCV -> snd_una k <= rcv_nxt peer.
Proof.
  intros C [Hs [Hr Hn]]%flight_sns U O D H0 Hq. destruct (Z.le_gt_cases (snd_una k) (rcv_nxt peer)) as [|Hlt]; [done|exfalso].
  unfold una_ok in U. destruct (C (rcv_nxt peer)) as [H|H].
  - destruct (sns k) as [|i l]; cbn in U; [lia|]. apply Forall_cons_iff in Hr as [Hr _]. lia.
  - by eapply stored_next.
  - destruct (sns k) as [|i l]; [by apply elem_of_nil in H|]. cbn in U. apply elem_of_cons in H as [E|H]; [lia|].
    apply StronglySorted_inv in Hs as [_ Hs]. rewrite List.Forall_forall in Hs. apply list_elem_of_In, Hs in H. lia.
Qed.

(** *** Progress *)

Lemma flushes_view c Sp t k k1 k' gs : flushes c Sp t k k1 k' gs ->
  rview k' = rview k /\ ackcount k' = 0 /\ (forall i, i ∈ sns k -> i ∈ sns k') /\ mu k' = mu k /\ rmt_wnd k' = rmt_wnd k.
Proof.
  intros [(u & f & ->) (o & H) _ [V _ Ho _]]. pose proof (gives_mu _ _ _ _ H) as Hm. apply gives_keep in H.
  unfold mkeep in H. injection H as _ _ Hr _ _ _ _ _ _ _ Ha _. split_and!; done.
Qed.

(** A receiver at rest: few segments wait, and nothing is to be acknowledged. *)
Lemma leads_rest c Sp Sq p q : in_u 32 c -> ready c Sp Sq p q ->
  exists p', leads c Sp Sq p q p' q /\ nrcv_que (cb p') < IKCP_WND_RCV /\ ackcount (cb p') = 0.
Proof.
  intros Hc R. destruct (leads_drain c Sp Sq p q Hc R) as (p1 & L1 & _ & Hq & _).
  destruct (leads_flush c Sp Sq p1 q 0 Hc) as (k1 & k2 & gs & L2 & F); [by eapply leads_ready|].
  exists (with_cb k2 p1). split; [by eapply leads_trans|]. destruct (flushes_view _ _ _ _ _ _ _ F) as (V & A & _).
  unfold rview in V. injection V as _ _ V _. cbn [cb with_cb]. by rewrite V.
Qed.

Lemma head_una k s l : una_ok k -> snd_buf k = s :: l -> snd_una k = seg_sn s.
Proof. unfold una_ok, sns. by intros -> ->. Qed.

(** The head of the send buffer reaches the receiver. *)
Lemma push_head c Sp Sq p q s l :
  in_u 32 c -> ready c Sp Sq p q -> nrcv_que (cb q) < IKCP_WND_RCV -> ackcount (cb q) = 0 -> snd_buf (cb p) = s :: l ->
  exists p' q', leads c Sp Sq p q p' q' /\ ackcount (cb p') = 0 /\ seg_sn s ∈ sns (cb p') /\
    0 < ackcount (cb q') /\ seg_sn s < rcv_nxt (cb q').
Proof.
  intros Hc R Hq Ha Es. destruct (leads_flush c Sp Sq p q (seg_resendts s) Hc R) as (k1 & k' & gs & L1 & F).
  destruct (flushes_view _ _ _ _ _ _ _ F) as (_ & A & Ho & _). destruct F as [(u & f & ->) (o & Hg) Hgood _].
  destruct (gives_old _ _ _ _ s Hg) as (g & s' & Hgg & Hs' & Epl); [unfold ticked; ksimpl; rewrite Es; left| |].
  { right. unfold ticked. ksimpl. unfold _itimediff. by rewrite Z.sub_diag. }
  destruct (gives_in _ _ _ _ g Hg Hgg) as [Hin Hne].
  assert (Forall (good c Sp k') g) as Hgg' by (rewrite List.Forall_forall in Hgood; by apply Hgood, list_elem_of_In).
  set (p1 := with_cb k' p) in *. pose proof (leads_ready _ _ _ _ _ _ _ R L1) as R1.
  destruct (leads_deliver c Sq Sp q p1 g Hc) as (k2 & n & L2 & Fe); [by apply ready_sym|done..|].
  set (q1 := with_cb k2 q) in *. pose proof (leads_sym _ _ _ _ _ _ _ L2) as L2'.
  pose proof R as [[[P Fp Cp _] [_ Fq _ _]] _ _]. pose proof P as [_ Is _ _ _ _].
  assert (seg_cmd s' = IKCP_CMD_PUSH /\ seg_sn s' = seg_sn s) as [Hcmd Hsn].
  { pose proof (si_buf _ _ Is) as Hb. rewrite Es in Hb. apply Forall_cons_iff in Hb as [[Hb _] _]. unfold payload in Epl.
    injection Epl as E1 _ E2 _ _ _. split; congruence. }
  assert (seg_sn s <= rcv_nxt (cb q)) as Hlow.
  { rewrite <- (head_una _ _ _ (fl_una _ _ _ Fp) Es). pose proof Fq as [_ _ _ _ Oq Dq _ _ _ _ _].
    pose proof R as [[_ [[_ _ _ _ _ (m & Irq & _)] _ _ _]] _ _]. apply rcv_nxt_bound in Irq.
    apply una_low; try done; [apply Fp|apply Fp|lia]. }
  pose proof (fl_rwnd _ _ _ Fq) as Hw. unfold IKCP_WND_RCV in Hw.
  destruct Fe as [_ _ [_ _ _ _ O2 D2 _ _ _ _ _] T]. destruct (tk_push _ _ _ _ T s' Hs' Hcmd) as [Hst Hac]; [lia|]. rewrite Hsn in Hst.
  exists p1, q1. split; [by eapply leads_trans|]. split; [done|]. split; [apply Ho; unfold sns; rewrite Es; left|]. split; [cbn; lia|].
  destruct (tk_more _ _ _ _ T) as [Hmn _]. cbn [cb with_cb q1] in *. change (seg_sn s < rcv_nxt k2).
  destruct (Z.lt_ge_cases (seg_sn s) (rcv_nxt k2)) as [|Hge]; [done|exfalso].
  assert (rcv_nxt k2 = rcv_nxt (cb q) /\ seg_sn s = rcv_nxt k2) as [En Ei] by lia. rewrite Ei in Hst.
  apply (stored_next k2); try done. by rewrite (tk_que _ _ _ _ T En).
Qed.

Lemma sns_nodup k : flight_ok k -> List.NoDup (sns k).
Proof.
  intros [Hs _]%flight_sns. induction Hs as [|i l _ IH Hf]; constructor; [|done]. intros Hi. rewrite List.Forall_forall in Hf.
  apply Hf in Hi. lia.
Qed.

Lemma fed_less c Sp Sq n g i peer k k' : fed c Sp Sq n g peer k k' -> i ∈ sns k -> Forall (fun s => i < seg_una s) g -> g <> [] ->
  (mu k' < mu k)%nat.
Proof.
  intros [_ _ F T] Hi Hg Hne. pose proof (tk_sview _ _ _ _ T) as V. unfold sview in V. unfold mu. injection V as -> _ _ _ _ _ _ _.
  assert (S (length (sns k')) <= length (sns k))%nat as Hlen; [|unfold sns in Hlen; rewrite !length_map in Hlen; lia].
  apply (List.NoDup_incl_length (l := i :: sns k')).
  - constructor; [|by apply sns_nodup, F]. intros [_ Hu]%list_elem_of_In%(tk_in _ _ _ _ T).
    destruct g as [|s g]; [done|]. apply Forall_cons_iff in Hg as [? _], Hu as [? _]. lia.
  - intros j [<-|Hj]; apply list_elem_of_In; [done|]. apply list_elem_of_In in Hj. by apply (tk_in _ _ _ _ T).
Qed.

Lemma leads_resend c Sp Sq p q : in_u 32 c -> ready c Sp Sq p q -> snd_buf (cb p) <> [] ->
  exists p' q', leads c Sp Sq p q p' q' /\ (mu (cb p') < mu (cb p))%nat.
Proof.
  intros Hc R Hne. destruct (snd_buf (cb p)) as [|s l] eqn:Es; [done|]. clear Hne.
  destruct (leads_rest c Sq Sp q p Hc) as (q1 & L1 & Hq & Ha); [by apply ready_sym|]. apply leads_sym in L1.
  pose proof (leads_ready _ _ _ _ _ _ _ R L1) as R1.
  destruct (push_head c Sp Sq p q1 s l Hc R1 Hq Ha Es) as (p2 & q2 & L2 & Ap & Hi & Aq & Hn).
  pose proof (leads_ready _ _ _ _ _ _ _ R1 L2) as R2.
  destruct (leads_flush c Sq Sp q2 p2 0 Hc) as (k1 & k3 & gs & L3 & F); [by apply ready_sym|]. apply leads_sym in L3.
  pose proof (leads_ready _ _ _ _ _ _ _ R2 L3) as R3. destruct F as [(u & f & ->) (o & Hg) Hgood _].
  destruct (gives_acks (ticked 0 u f (cb q2)) k3 o gs) as (g & Hgg); [|done|done|].
  { destruct R2 as [[_ [[[[] _ _ _] _ _ _ _ _] _ _ _]] _ _]. done. }
  destruct (gives_in _ _ _ _ g Hg Hgg) as [Hin Hgne].
  destruct (leads_deliver c Sp Sq p2 (with_cb k3 q2) g Hc R3) as (k4 & n & L4 & Fe); try done.
  { rewrite List.Forall_forall in Hgood. by apply Hgood, list_elem_of_In. }
  exists (with_cb k4 p2), (with_cb k3 q2). split; [by do 3 (eapply leads_trans; [eassumption|])|].
  assert (mu k4 < mu (cb p2))%nat as Hlt.
  { eapply fed_less; [exact Fe|exact Hi| |done]. apply gives_una in Hg. rewrite List.Forall_forall in Hg. apply List.Forall_forall.
    intros t Ht. destruct (Hg t) as [Hu _]; [apply in_concat; exists g; split; [by apply list_elem_of_In|done]|].
    rewrite Hu. unfold ticked. ksimpl. done. }
  destruct (ld_left _ _ _ _ _ _ _ L1) as (_ & _ & H1). destruct (ld_left _ _ _ _ _ _ _ L2) as (_ & _ & H2). cbn [cb with_cb]. lia.
Qed.

(** *** A closed window *)

Lemma lor_bit_nz x b m : b = m -> m <> 0 -> Z.land (Z.lor x b) m <> 0.
Proof. intros -> Hm. rewrite Z.land_lor_distr_l, Z.land_diag. by intros [_ E]%Z.lor_eq_0_iff. Qed.

Lemma probed_probe k : probe (probed k) = probe k \/ probe (probed k) = Z.lor (probe k) IKCP_ASK_SEND.
Proof. unfold probed, update_probe. repeat (case_match; ksimpl); auto. Qed.

Lemma probed_tell k : tell k -> Z.land (probe (probed k)) IKCP_ASK_TELL <> 0.
Proof.
  unfold tell. destruct (probed_probe k) as [->| ->]; [done|]. rewrite Z.land_lor_distr_l. by intros H [? _]%Z.lor_eq_0_iff.
Qed.

Lemma probed_ask k : rmt_wnd k = 0 -> probe_wait k <> 0 -> 0 <= _itimediff (current k) (ts_probe k) ->
  Z.land (probe (probed k)) IKCP_ASK_SEND <> 0.
Proof.
  intros Hr Hp Ht. unfold probed, update_probe. ksimpl. rewrite Hr, (proj2 (Z.eqb_neq _ _) Hp), (proj2 (Z.leb_le _ _) Ht).
  cbn [Z.eqb]. cbv zeta. ksimpl. destruct (probe_wait k <? IKCP_PROBE_INIT); ksimpl; destruct (IKCP_PROBE_LIMIT <? _); ksimpl;
    by apply lor_bit_nz.
Qed.

Lemma probed_wait k : rmt_wnd k = 0 -> probe_wait k = 0 -> probe_wait (probed k) <> 0.
Proof. intros Hr Hp. unfold probed, update_probe. ksimpl. rewrite Hr, Hp. cbn [Z.eqb]. cbv zeta. by ksimpl. Qed.

Lemma rmt_last w r ss : Forall (fun s => seg_wnd s = w) ss -> ss <> [] -> foldl (fun _ s => u16 (seg_wnd s)) r ss = u16 w.
Proof.
  revert r. induction ss as [|s ss IH]; intros r H Hne; [done|]. apply Forall_cons_iff in H as [Hs H]. cbn [foldl].
  destruct ss as [|t ss]; [cbn; by rewrite Hs|]. by apply IH.
Qed.

(** A time at which the sender probes, reached with one more flush at most. *)
Lemma leads_wait c Sp Sq p q : in_u 32 c -> ready c Sp Sq p q -> rmt_wnd (cb p) = 0 ->
  exists p', leads c Sp Sq p q p' q /\ rmt_wnd (cb p') = 0 /\ probe_wait (cb p') <> 0.
Proof.
  intros Hc R Hr. destruct (decide (probe_wait (cb p) = 0)) as [Hp|Hp]; [|exists p; split; [by apply leads_refl|done]].
  destruct (leads_flush c Sp Sq p q 0 Hc R) as (k1 & k' & gs & L & F). exists (with_cb k' p). split; [done|].
  destruct (flushes_view _ _ _ _ _ _ _ F) as (_ & _ & _ & _ & Er). destruct F as [(u & f & ->) (o & Hg) _ _].
  apply gives_keep in Hg. unfold mkeep in Hg. injection Hg as _ _ _ _ _ _ _ _ _ _ _ _ _ Hw _ _ _. cbn [cb with_cb].
  split; [congruence|]. rewrite Hw. by apply probed_wait.
Qed.

(** The question about the window reaches the peer. *)
Lemma leads_wask c Sp Sq p q : in_u 32 c -> ready c Sp Sq p q -> rmt_wnd (cb p) = 0 ->
  exists p' q', leads c Sp Sq p q p' q' /\ ackcount (cb p') = 0 /\ tell (cb q').
Proof.
  intros Hc R Hr. destruct (leads_wait c Sp Sq p q Hc R Hr) as (p1 & L1 & Hr1 & Hp1).
  pose proof (leads_ready _ _ _ _ _ _ _ R L1) as R1.
  destruct (leads_rest c Sq Sp q p1 Hc) as (q2 & L2 & _ & Ha); [by apply ready_sym|]. apply leads_sym in L2.
  pose proof (leads_ready _ _ _ _ _ _ _ R1 L2) as R2.
  destruct (leads_flush c Sp Sq p1 q2 (ts_probe (cb p1)) Hc R2) as (k1 & k' & gs & L3 & F).
  destruct (flushes_view _ _ _ _ _ _ _ F) as (_ & A & _). destruct F as [(u & f & ->) (o & Hg) Hgood _].
  destruct (fg_ask _ _ _ _ Hg) as (s & Hs & Hcmd).
  { apply probed_ask; [done|done|]. unfold ticked, _itimediff. ksimpl. by rewrite Z.sub_diag. }
  apply list_elem_of_In, in_concat in Hs as (g & Hgg & Hs). apply list_elem_of_In in Hgg, Hs.
  destruct (gives_in _ _ _ _ g Hg Hgg) as [Hin Hne]. pose proof (leads_ready _ _ _ _ _ _ _ R2 L3) as R3.
  destruct (leads_deliver c Sq Sp q2 (with_cb k' p1) g Hc) as (k2 & n & L4 & Fe); try done; [by apply ready_sym| |].
  { rewrite List.Forall_forall in Hgood. by apply Hgood, list_elem_of_In. }
  apply leads_sym in L4. exists (with_cb k' p1), (with_cb k2 q2). split; [by do 3 (eapply leads_trans; [eassumption|])|].
  split; [done|]. exact (tk_wask _ _ _ _ (fe_takes _ _ _ _ _ _ _ _ Fe) s Hs Hcmd).
Qed.

Lemma flush_wnd_open k : IKCP_WND_RCV <= rcv_wnd k < 65536 -> 0 <= nrcv_que k < IKCP_WND_RCV -> 0 < flush_wnd k < 65536.
Proof.
  unfold IKCP_WND_RCV, flush_wnd, ikcp_wnd_unused. intros Hw Hq. destruct (Z.ltb_spec (nrcv_que k) (rcv_wnd k)); [|lia].
  rewrite sext_small, wrap_small; unfold in_i, in_u; lia.
Qed.

Lemma leads_open c Sp Sq p q : in_u 32 c -> ready c Sp Sq p q -> rmt_wnd (cb p) = 0 ->
  exists p' q', leads c Sp Sq p q p' q' /\ 0 < rmt_wnd (cb p').
Proof.
  intros Hc R Hr. destruct (leads_wask c Sp Sq p q Hc R Hr) as (p1 & q1 & L1 & Ha & Ht).
  pose proof (leads_ready _ _ _ _ _ _ _ R L1) as R1.
  destruct (leads_drain c Sq Sp q1 p1 Hc) as (q2 & L2 & D & Hq & _); [by apply ready_sym|]. apply leads_sym in L2.
  pose proof (leads_ready _ _ _ _ _ _ _ R1 L2) as R2. apply (dr_tell _ _ D) in Ht.
  destruct (leads_flush c Sq Sp q2 p1 0 Hc) as (k1 & k3 & gs & L3 & F); [by apply ready_sym|]. apply leads_sym in L3.
  pose proof (leads_ready _ _ _ _ _ _ _ R2 L3) as R3. destruct F as [(u & f & ->) (o & Hg) Hgood _].
  pose proof (fg_tell _ _ _ _ Hg (probed_tell (ticked 0 u f (cb q2)) Ht)) as Hne. destruct gs as [|g gs]; [done|].
  destruct (gives_in _ _ _ _ g Hg) as [Hin Hgne]; [left|]. apply Forall_cons_iff in Hgood as [Hgood _].
  destruct (leads_deliver c Sp Sq p1 (with_cb k3 q2) g Hc R3) as (k4 & n & L4 & Fe); try done.
  exists (with_cb k4 p1), (with_cb k3 q2). split; [by do 3 (eapply leads_trans; [eassumption|])|].
  pose proof R2 as [[_ [[_ _ _ _ _ (m & I & _)] Fq _ _]] _ _].
  destruct (flush_wnd_open (ticked 0 u f (cb q2))) as [Hw0 Hw1]; [apply Fq|split; [destruct I; unfold ticked; ksimpl; lia|done]|].
  cbn [cb with_cb]. rewrite (tk_rmt _ _ _ _ (fe_takes _ _ _ _ _ _ _ _ Fe)).
  rewrite (rmt_last (flush_wnd (ticked 0 u f (cb q2)))); [|apply List.Forall_forall; intros t Htg|done].
  - rewrite wrap_small; unfold in_u; lia.
  - apply gives_una in Hg. rewrite List.Forall_forall in Hg. apply Hg. cbn. apply in_or_app. by left.
Qed.

(** *** An open window *)

Lemma send_window_open c So k : flow_inv c So k -> 0 < rmt_wnd k -> 1 <= cwnd k -> 1 <= send_window k < 65536.
Proof.
  intros F Hr Hc. pose proof (fl_swnd _ _ _ F). pose proof (fl_rmt _ _ _ F). unfold send_window, _imin_.
  repeat (case_match; bool_arith); lia.
Qed.

Lemma move_fills q cw wnd k : 0 <= snd_nxt k < 2 ^ 31 -> snd_una k = snd_nxt k -> 1 <= cw < 65536 -> q <> [] ->
  snd_buf (move_to_buf q cw wnd k) <> [].
Proof.
  intros Hn Eu Hw Hq. destruct q as [|s q]; [done|]. rewrite move_to_buf_cons, Eu.
  rewrite itimediff_wrap_r, itimediff_small, (proj2 (Z.ltb_lt _ 0)) by lia.
  destruct (move_to_buf_extends q cw wnd (move_seg s q wnd k)) as [l ->].
  assert (snd_buf (move_seg s q wnd k) <> []) as H by (intros [_ ?]%app_eq_nil; done). by destruct (snd_buf (move_seg s q wnd k)).
Qed.

Lemma moved_fills c So o k : flow_inv c So k -> 0 < rmt_wnd k -> 1 <= cwnd k -> snd_queue k <> [] -> snd_buf k = [] ->
  snd_buf (moved o k) <> [].
Proof.
  intros F Hr Hc Hq Hb. pose proof (send_window_open _ _ _ F Hr Hc) as Hw. unfold moved.
  pose proof (fl_una _ _ _ F) as U. unfold una_ok, sns in U. rewrite Hb in U.
  pose proof (fl_flight _ _ _ F) as (_ & _ & Hn)%flight_sns.
  destruct (flush_base o k) as (a & b & ->). apply move_fills; [exact Hn|exact U|exact Hw|exact Hq].
Qed.

Lemma leads_fill c Sp Sq p q : in_u 32 c -> ready c Sp Sq p q -> 0 < rmt_wnd (cb p) -> mu (cb p) <> 0%nat ->
  exists p', leads c Sp Sq p q p' q /\ snd_buf (cb p') <> [].
Proof.
  intros Hc R Hr Hm. destruct (leads_flush c Sp Sq p q 0 Hc R) as (k1 & k' & gs & L1 & F).
  destruct (flushes_view _ _ _ _ _ _ _ F) as (_ & _ & _ & Em & Er). destruct F as [_ (o & Hg) _ _].
  set (p1 := with_cb k' p) in *. pose proof (leads_ready _ _ _ _ _ _ _ R L1) as R1.
  destruct (snd_buf (cb p1)) as [|s l] eqn:Eb; [|exists p1; split; [done|by rewrite Eb]].
  destruct (leads_flush c Sp Sq p1 q 0 Hc R1) as (k2 & k3 & gs' & L2 & F2). exists (with_cb k3 p1).
  split; [by eapply leads_trans|]. destruct F2 as [(u & f & ->) (o' & Hg') _ _]. pose proof (fg_buf _ _ _ _ Hg') as Ebuf.
  pose proof R1 as [[[_ Fl _ _] _] _ _]. intros E. cbn [cb with_cb] in E. rewrite E in Ebuf. symmetry in Ebuf. apply map_eq_nil in Ebuf.
  revert Ebuf. apply (moved_fills c Sp); [rewrite <- (app_nil_r Sp); by eapply flow_same; [| |exact Fl]| | | |done].
  - change (0 < rmt_wnd k'). lia.
  - exact (fg_cwnd _ _ _ _ Hg).
  - change (snd_queue k' <> []). intros Eq. unfold mu in Em at 1. cbn [cb with_cb p1] in Eb. rewrite Eb, Eq in Em. cbn in Em. lia.
Qed.

(** *** To the end *)

Lemma leads_step c Sp Sq p q : in_u 32 c -> ready c Sp Sq p q -> mu (cb p) <> 0%nat ->
  exists p' q', leads c Sp Sq p q p' q' /\ (mu (cb p') < mu (cb p))%nat.
Proof.
  intros Hc R Hm.
  assert (forall p1 q1, leads c Sp Sq p q p1 q1 -> snd_buf (cb p1) <> [] -> exists p' q', leads c Sp Sq p q p' q' /\ (mu (cb p') < mu (cb p))%nat) as Hresend.
  { intros p1 q1 L1 Hne. destruct (leads_resend c Sp Sq p1 q1 Hc) as (p' & q' & L2 & Hlt); [by eapply leads_ready|done|].
    exists p', q'. split; [by eapply leads_trans|]. destruct (ld_left _ _ _ _ _ _ _ L1) as (_ & _ & ?). lia. }
  assert (exists p1 q1, leads c Sp Sq p q p1 q1 /\ 0 < rmt_wnd (cb p1)) as (p1 & q1 & L1 & Hr).
  { pose proof R as [[[_ F _ _] _] _ _]. pose proof (fl_rmt _ _ _ F).
    destruct (decide (rmt_wnd (cb p) = 0)) as [E|E]; [by apply leads_open|]. exists p, q. split; [by apply leads_refl|lia]. }
  destruct (decide (mu (cb p1) < mu (cb p))%nat) as [|Hge]; [by exists p1, q1|].
  destruct (leads_fill c Sp Sq p1 q1 Hc) as (p2 & L2 & Hne); [by eapply leads_ready|done|lia|].
  eapply Hresend; [|exact Hne]. by eapply leads_trans.
Qed.

Lemma leads_all c Sp Sq p q : in_u 32 c -> ready c Sp Sq p q -> exists p' q', leads c Sp Sq p q p' q' /\ mu (cb p') = 0%nat.
Proof.
  intros Hc. remember (mu (cb p)) as n eqn:En. revert p q En. induction n as [n IH] using lt_wf_ind. intros p q -> R.
  destruct (decide (mu (cb p) = 0%nat)) as [E|E]; [exists p, q; split; [by apply leads_refl|done]|].
  destruct (leads_step c Sp Sq p q Hc R E) as (p1 & q1 & L1 & Hlt).
  destruct (IH _ Hlt p1 q1) as (p' & q' & L2 & E2); [done|by eapply leads_ready|].
  exists p', q'. split; [by eapply leads_trans|done].
Qed.

Lemma leads_got c Sp Sq p q : in_u 32 c -> ready c Sp Sq p q -> mu (cb p) = 0%nat ->
  exists q', leads c Sp Sq p q p q' /\ got q' = sent p.
Proof.
  intros Hc R Hm. destruct (leads_drain c Sq Sp q p Hc) as (q1 & L1 & D1 & Hq & _); [by apply ready_sym|].
  destruct (leads_drain c Sq Sp q1 p Hc) as (q2 & L2 & _ & _ & Hgot); [eapply leads_ready; [by apply ready_sym|done]|].
  apply leads_sym in L1, L2. pose proof (leads_ready _ _ _ _ _ _ _ R L1) as R1.
  exists q2. split; [by eapply leads_trans|]. apply Hgot.
  pose proof R1 as [[[[_ [Hn Hsq _ _ _] _ _ _ _] F C _] [[_ _ _ _ _ (n & I & _)] [_ _ _ _ O D _ _ _ _ _] _ _]] _ _].
  assert (snd_buf (cb p) = [] /\ snd_queue (cb p) = []) as [Eb Eq].
  { unfold mu in Hm. destruct (snd_buf (cb p)), (snd_queue (cb p)); cbn in Hm; done. }
  assert (length Sp = Z.to_nat (snd_nxt (cb p))) as El.
  { rewrite Eq in Hsq. apply (f_equal length) in Hsq. rewrite length_drop in Hsq. cbn in Hsq. lia. }
  apply rcv_nxt_bound in I. pose proof (fl_una _ _ _ F) as U. unfold una_ok, sns in U. rewrite Eb in U. cbn in U.
  assert (snd_una (cb p) <= rcv_nxt (cb q1)) by (apply una_low; try done; [apply F|apply F|lia]). lia.
Qed.

Lemma ready_delivers c Sp Sq p q : in_u 32 c -> ready c Sp Sq p q ->
  exists p' q', leads c Sp Sq p q p' q' /\ got q' = sent p /\ got p' = sent q /\ mu (cb p') = 0%nat /\ mu (cb q') = 0%nat.
Proof.
  intros Hc R. destruct (leads_all c Sp Sq p q Hc R) as (p1 & q1 & L1 & E1). pose proof (leads_ready _ _ _ _ _ _ _ R L1) as R1.
  destruct (leads_all c Sq Sp q1 p1 Hc) as (q2 & p2 & L2 & E2); [by apply ready_sym|]. apply leads_sym in L2.
  pose proof (leads_ready _ _ _ _ _ _ _ R1 L2) as R2. destruct (ld_left _ _ _ _ _ _ _ L2) as (_ & _ & H2).
  destruct (leads_got c Sp Sq p2 q2 Hc R2) as (q3 & L3 & G3); [lia|]. pose proof (leads_ready _ _ _ _ _ _ _ R2 L3) as R3.
  destruct (ld_right _ _ _ _ _ _ _ L3) as (_ & _ & H3).
  destruct (leads_got c Sq Sp q3 p2 Hc) as (p4 & L4 & G4); [by apply ready_sym|lia|]. apply leads_sym in L4.
  assert (leads c Sp Sq p q p4 q3) as L by (do 3 (eapply leads_trans; [eassumption|]); done).
  destruct (ld_left _ _ _ _ _ _ _ L) as (Sl & _), (ld_right _ _ _ _ _ _ _ L) as (Sr & _).
  destruct (ld_left _ _ _ _ _ _ _ L4) as (Sl4 & _ & H4).
  exists p4, q3. split; [done|]. split; [congruence|]. split; [congruence|]. split; lia.
Qed.

(** Whatever happened, the two parties are linked. *)
Lemma run_linked c m m' es s : in_u 32 c -> mtu_ok m -> mtu_ok m' -> m < 2 ^ 30 -> m' < 2 ^ 30 ->
  Forall (fun e => event_polite (snd e) = true) es -> run es (init c m, init c m') = Some s ->
  few (sent (fst s)) -> few (sent (snd s)) -> exists Sa Sb, linked c Sa Sb (fst s) (snd s).
Proof.
  intros Hc Hm Hm' Hl Hl'. revert s. induction es as [|[sd e] es IH] using rev_ind; intros s Hp.
  { intros E _ _. injection E as <-. exists [], []. by apply create_linked. }
  apply Forall_app in Hp as [Hp [He _]%Forall_cons_iff]. cbn [snd] in He.
  rewrite run_snoc. destruct (run_total c m c m' es Hm Hm') as ([a b] & E & Sa & Sb). rewrite E.
  cbn [mbind option_bind fst snd] in *. specialize (IH _ Hp E). cbn [fst snd] in IH. unfold sys_step. cbn [fst snd]. destruct sd.
  - destruct (party_step_safe e a b Sa) as (a' & Ea & _ & ms & Ems). rewrite Ea. cbn [mbind option_bind].
    intros Es. injection Es as <-. cbn [fst snd]. intros Ha' Hb.
    destruct IH as (Ta & Tb & L); [rewrite Ems in Ha'; by eapply few_prefix|done|].
    destruct (linked_step c Ta Tb e a b a' Hc L Ha' Hb He Ea) as (T & L' & _). by eexists _, _.
  - destruct (party_step_safe e b a Sb) as (b' & Eb & _ & ms & Ems). rewrite Eb. cbn [mbind option_bind].
    intros Es. injection Es as <-. cbn [fst snd]. intros Ha Hb'.
    destruct IH as (Ta & Tb & L1 & L2); [done|rewrite Ems in Hb'; by eapply few_prefix|].
    destruct (linked_step c Tb Ta e b a b' Hc) as (T & [? ?] & _); try done. by eexists _, _.
Qed.

(** ** Properties *)

(** C4.  Delivery.  Two endpoints of one conversation, after any calls of their
    users and any losses, repeats and reorderings by the network (receive
    windows below 65536, datagrams below 2^30 bytes, fewer than some 16 million
    messages): there is a continuation in which nothing more is sent, and after
    it each user has received every message the other sent, and no segment is
    queued or in flight. *)
Theorem kcp_delivers c m m' es a b :
  in_u 32 c -> mtu_ok m -> mtu_ok m' -> m < 2 ^ 30 -> m' < 2 ^ 30 ->
  Forall (fun e => event_polite (snd e) = true) es -> run es (init c m, init c m') = Some (a, b) ->
  few (sent a) -> few (sent b) -> Forall bytes_ok (sent a) -> Forall bytes_ok (sent b) ->
  exists fs a' b', Forall calm fs /\ run (es ++ fs) (init c m, init c m') = Some (a', b') /\
    got b' = sent a /\ got a' = sent b /\ sent a' = sent a /\ sent b' = sent b /\
    mu (cb a') = 0%nat /\ mu (cb b') = 0%nat.
Proof.
  intros Hc Hm Hm' Hl Hl' Hp E Ha Hb Ba Bb.
  destruct (run_linked c m m' es (a, b) Hc Hm Hm' Hl Hl' Hp E Ha Hb) as (Sa & Sb & L).
  destruct (ready_delivers c Sa Sb a b Hc) as (a' & b' & [(fs & Hfs & Ef) _ (Ea & _) (Eb & _)] & G1 & G2 & M1 & M2); [by constructor|].
  exists fs, a', b'. split; [done|]. by rewrite run_concat, E.
Qed.

(** Why the windows are bounded: one of 65536 is announced as 0 while the
    queue is empty, and the peer sends nothing. *)
Lemma window_wraps k : nrcv_que k = 0 -> u16 (flush_wnd (snd (ikcp_wndsize 0 65536 k))) = 0.
Proof.
  intros E. unfold flush_wnd, ikcp_wnd_unused. change (nrcv_que (snd (ikcp_wndsize 0 65536 k))) with (nrcv_que k). by rewrite E.
Qed.

(** One message in flight, its datagram lost so far, and one not yet flushed. *)
Definition demo_lost : list (bool * event) :=
  [(true, Call (OpSend [1; 2; 3] 3)); (true, Call (OpUpdate 0)); (false, Call (OpSend [7] 1))].

Lemma kcp_delivers_witness :
  option_map (fun s => (sent (fst s), got (snd s), mu (cb (fst s)), sent (snd s))) (run demo_lost (init 9 50, init 9 1400))
    = Some ([[1; 2; 3]], [], 1%nat, [[7]]) /\
  exists fs a' b', Forall calm fs /\ run (demo_lost ++ fs) (init 9 50, init 9 1400) = Some (a', b') /\
    got b' = [[1; 2; 3]] /\ got a' = [[7]] /\ sent a' = [[1; 2; 3]] /\ sent b' = [[7]] /\
    mu (cb a') = 0%nat /\ mu (cb b') = 0%nat.
Proof.
  assert (exists a b, run demo_lost (init 9 50, init 9 1400) = Some (a, b) /\ sent a = [[1; 2; 3]] /\ sent b = [[7]]) as (a & b & E & Ea & Eb).
  { eexists _, _. split; [vm_compute; reflexivity|split; reflexivity]. }
  split; [vm_compute; reflexivity|]. rewrite <- Ea, <- Eb. apply (kcp_delivers 9 50 1400 demo_lost a b).
  - split; [lia|reflexivity].
  - unfold mtu_ok; lia.
  - unfold mtu_ok; lia.
  - reflexivity.
  - reflexivity.
  - repeat constructor.
  - exact E.
  - rewrite Ea. reflexivity.
  - rewrite Eb. reflexivity.
  - rewrite Ea. repeat constructor; unfold byte_ok; lia.
  - rewrite Eb. repeat constructor; unfold byte_ok; lia.
Defined.

End KcpLive.
