(* ===== verification/KcpConv.v ===== *)
(** * KcpConv: the conversation number of what a control block sends

    Every datagram a control block outputs begins with its [conv], and no call
    takes back a datagram: what lets a session be found by the first four
    bytes of a datagram. *)
From S2P Require Import Prelude Bytes Kcp KcpWire KcpRecv KcpSend KcpNet.
Import Kcp KcpNet.
#[local] Arguments wrap : simpl never.
#[local] Arguments sext : simpl never.
#[local] Arguments Z.of_nat : simpl never.

Module KcpConv.

Definition starts (c : Z) (d : list Z) : Prop := take 4 d = le_bytes 4 c.
Definition of_conv (c : Z) (s : IKCPSEG) : Prop := seg_conv s = c.

#[export] Instance of_conv_payload c : PayloadPred (of_conv c).
Proof. unfold of_conv, payload. intros s s' E H. injection E as _ _ _ _ _ E. congruence. Qed.

Lemma starts_conv c d : starts c d -> 0 <= c < 2 ^ 32 -> ikcp_getconv d = c.
Proof.
  unfold starts, ikcp_getconv, ikcp_decode32u. cbn [fst]. intros -> Hc.
  rewrite le_val_bytes. apply wrap_small. exact Hc.
Qed.

Lemma starts_length c d : starts c d -> (4 <= length d)%nat.
Proof. unfold starts. intros E%(f_equal length). rewrite length_take, le_bytes_length in E. lia. Qed.

Lemma starts_app c d e : starts c d -> starts c (d ++ e).
Proof. intros E. pose proof (starts_length _ _ E). unfold starts. by rewrite take_app_le. Qed.

Lemma starts_seg c s : of_conv c s -> starts c (ikcp_encode_seg s).
Proof. intros <-. unfold starts, ikcp_encode_seg, ikcp_encode32u. apply take_le_bytes. Qed.

Section conv.
Context (c : Z) (o0 : list (list Z)).

(** A datagram under construction: empty or begun; everything sent before
    is kept. *)
Definition begun (out : list Z) : Prop := out = [] \/ starts c out.
Definition sends (k : ikcpcb) : Prop :=
  conv k = c /\ Forall (of_conv c) (snd_buf k) /\
  Forall (starts c) (outputs k) /\ o0 `prefix_of` outputs k.

Lemma begun_seg out s : begun out -> of_conv c s -> starts c (out ++ ikcp_encode_seg s).
Proof. intros [->|H] Hs; [by apply starts_seg|by apply starts_app]. Qed.

Lemma output_sends out k : begun out -> sends k -> sends (ikcp_output out k).
Proof.
  intros Ho (Hc & Hb & HF & Hp). unfold ikcp_output. case_match eqn:E; [done|].
  destruct Ho as [->|Ho]; [done|]. split; [done|]. split; [done|]. cbn. split.
  - apply Forall_app. auto.
  - by apply prefix_app_r.
Qed.

Lemma make_room_sends need out k out' k' :
  begun out -> sends k -> make_room need out k = (out', k') -> begun out' /\ sends k'.
Proof.
  intros Ho Hk. unfold make_room. case_match; intros; simplify_eq; [|done].
  split; [by left|by apply output_sends].
Qed.

Lemma put_out_some d out k out' : put_out d out k = Some out' -> out' = out ++ d.
Proof. unfold put_out. by case_match; intros; simplify_eq. Qed.

Lemma put_header_sends s out k out' k' :
  of_conv c s -> begun out -> sends k -> put_header s out k = Some (out', k') ->
  begun out' /\ sends k'.
Proof.
  intros Hs Ho Hk. unfold put_header. destruct (make_room _ out k) as [out1 k1] eqn:E.
  destruct (make_room_sends _ _ _ _ _ Ho Hk E) as [Ho1 Hk1].
  destruct (put_out _ _ _) as [out2|] eqn:Ep; cbn [mbind option_bind]; [|done].
  intros. simplify_eq. apply put_out_some in Ep as ->. split; [right; by apply begun_seg|done].
Qed.

Lemma flush_acks_sends n i s out k out' s' k' :
  of_conv c s -> begun out -> sends k -> flush_acks n i s out k = Some (out', s', k') ->
  of_conv c s' /\ begun out' /\ sends k'.
Proof.
  revert i s out k. induction n as [|n IH]; intros i s out k Hs Ho Hk; cbn [flush_acks];
    [by intros; simplify_eq|].
  destruct (make_room _ out k) as [out1 k1] eqn:E.
  destruct (make_room_sends _ _ _ _ _ Ho Hk E) as [Ho1 Hk1].
  destruct (ikcp_ack_get k1 i) as [[sn ts]|]; cbn [mbind option_bind]; [|done].
  destruct (put_out _ _ _) as [out2|] eqn:Ep; cbn [mbind option_bind]; [|done].
  apply put_out_some in Ep as ->. apply IH; [done| |done]. right. by apply begun_seg.
Qed.

Lemma check_resend_sends resent rtomin s l k b s' l' k' :
  check_resend resent rtomin s l k = (b, s', l', k') -> sends k ->
  seg_conv s' = seg_conv s /\ sends k'.
Proof. unfold check_resend. intros. by repeat case_match; simplify_eq. Qed.

Lemma flush_data_sends q resent rtomin wnd out l k q' out' l' k' :
  Forall (of_conv c) q -> begun out -> sends k ->
  flush_data q resent rtomin wnd out l k = Some (q', out', l', k') ->
  Forall (of_conv c) q' /\ begun out' /\ sends k'.
Proof.
  intros Hq. revert out l k q' out' l' k'.
  induction Hq as [|s q Hs Hq IH]; intros out l k q' out' l' k' Ho Hk; cbn [flush_data];
    [by intros; simplify_eq|].
  destruct (check_resend resent rtomin s l k) as [[[b s1] l1] k1] eqn:Ec.
  destruct (check_resend_sends _ _ _ _ _ _ _ _ _ Ec Hk) as [E1 Hk1]. destruct b.
  - destruct (make_room _ out k1) as [out2 k2] eqn:E.
    destruct (make_room_sends _ _ _ _ _ Ho Hk1 E) as [Ho2 Hk2].
    set (s2 := sset_una _ _). assert (of_conv c s2) as Hs2 by (unfold of_conv in *; by rewrite <- Hs).
    destruct (put_out (ikcp_encode_seg s2) _ _) as [out3|] eqn:Ep; cbn [mbind option_bind]; [|done].
    apply put_out_some in Ep. pose proof (begun_seg _ _ Ho2 Hs2) as Ho3. rewrite <- Ep in Ho3.
    destruct (if 0 <? _ then _ else _) as [out4|] eqn:Ep4; cbn [mbind option_bind]; [|done].
    assert (starts c out4) as Ho4.
    { case_match; [|by simplify_eq]. apply put_out_some in Ep4 as ->. by apply starts_app. }
    set (k3 := if dead_link k2 <=? _ then _ else k2).
    assert (sends k3) as Hk3 by (subst k3; by destruct (dead_link k2 <=? _)).
    destruct (flush_data q _ _ _ _ _ _) as [[[[q5 o5] l5] k5]|] eqn:E5;
      cbn [mbind option_bind]; [|done].
    destruct (IH _ _ _ _ _ _ _ (or_intror Ho4) Hk3 E5) as (? & ? & ?). intros. simplify_eq.
    split; [by constructor|done].
  - destruct (flush_data q _ _ _ _ _ _) as [[[[q5 o5] l5] k5]|] eqn:E5;
      cbn [mbind option_bind]; [|done].
    destruct (IH _ _ _ _ _ _ _ Ho Hk1 E5) as (? & ? & ?). intros. simplify_eq.
    split; [|done]. constructor; [|done]. unfold of_conv in *. congruence.
Qed.

Lemma probe_sends (b : bool) s out k out' k' :
  of_conv c s -> begun out -> sends k ->
  (if b then put_header s out k else Some (out, k)) = Some (out', k') ->
  begun out' /\ sends k'.
Proof. destruct b; [by apply put_header_sends|]. intros. by simplify_eq. Qed.

Lemma flush_control_sends wnd k out' k' :
  sends k -> flush_control wnd k = Some (out', k') -> begun out' /\ sends k'.
Proof.
  intros Hk. unfold flush_control. set (s0 := mkseg _ _ _ _ _ _ _ _ _ _ _ _ _).
  destruct (flush_acks _ _ s0 _ _) as [[[o1 s1] k1]|] eqn:E1; cbn [mbind option_bind]; [|done].
  apply flush_acks_sends in E1 as (Hs1 & Ho1 & Hk1); [|apply Hk|by left|done].
  set (k2 := update_probe _).
  assert (sends k2) as Hk2 by (subst k2; unfold update_probe; by repeat (case_match || ksimpl)).
  destruct (if negb (Z.land (probe k2) _ =? 0) then _ else _) as [[o3 k3]|] eqn:E3;
    cbn [mbind option_bind]; [|done]. apply probe_sends in E3 as [Ho3 Hk3]; [|done..].
  destruct (if negb (Z.land (probe k3) _ =? 0) then _ else _) as [[o4 k4]|] eqn:E4;
    cbn [mbind option_bind]; [|done]. apply probe_sends in E4 as [Ho4 Hk4]; [|done..].
  intros. by simplify_eq.
Qed.

Lemma move_to_buf_sends q cw wnd k : sends k -> sends (move_to_buf q cw wnd k).
Proof.
  revert k. induction q as [|s q IH]; intros k Hk; cbn [move_to_buf]; case_match; try done.
  apply IH. destruct Hk as (Hc & Hb & Ho). split; [done|]. split; [|done]. ksimpl.
  apply Forall_app. split; [done|]. by constructor.
Qed.

Lemma flush_sends k k' : sends k -> ikcp_flush k = Some k' -> sends k'.
Proof.
  intros Hk. unfold ikcp_flush. case_match; [by intros; simplify_eq|].
  destruct (flush_control _ k) as [[o1 k1]|] eqn:E1; cbn [mbind option_bind]; [|done].
  apply flush_control_sends in E1 as [Ho1 Hk1]; [|done]. unfold flush_segments.
  set (k2 := move_to_buf _ _ _ _).
  assert (sends k2) as Hk2 by (by apply move_to_buf_sends).
  destruct (flush_data _ _ _ _ _ _ k2) as [[[[q o3] l3] k3]|] eqn:E3;
    cbn [mbind option_bind]; [|done].
  apply flush_data_sends in E3 as (Hq & Ho3 & Hk3); [|apply Hk2|done|done].
  assert (sends (set_snd_buf q k3)) as Hk4 by (destruct Hk3 as (? & _ & ?); by split).
  pose proof (output_sends o3 _ Ho3 Hk4) as Hk5.
  set (k5 := if 0 <? _ then _ else _).
  assert (sends k5) as Hk6 by (subst k5; by case_match).
  intros. simplify_eq. unfold update_cwnd. by repeat (case_match || ksimpl).
Qed.

Lemma view_sends k k' : sview k' = sview k -> snd_buf k' = snd_buf k -> sends k -> sends k'.
Proof.
  unfold sview, sends. intros E Eb (Hc & Hb & Ho). injection E as _ _ -> _ _ _ _ ->.
  by rewrite Eb.
Qed.

Lemma tick_sends k k' : tick_view k' = tick_view k -> sends k -> sends k'.
Proof.
  intros E. unfold tick_view in E. apply view_sends; [|congruence].
  exact (f_equal (fun x => fst (fst (fst x))) E).
Qed.

(** Every call keeps them. *)
Lemma exec_sends o k r d k' :
  safe k -> op_ok o k = true -> exec o k = Some (r, d, k') -> sends k -> sends k'.
Proof.
  intros Sf Hok E Hk. pose proof Sf as [M O L St]. destruct o; cbn [exec op_ok] in *.
  - bool_arith. assert (0 < mss k < 2 ^ 31) as Hmss.
    { destruct M. unfold IKCP_OVERHEAD in *. lia. }
    destruct (send_cases buf len k) as [[_ E1]|[[_ E1]|(_ & q & n & E1 & _)]]; auto;
      rewrite E1 in E; cbn in E; simplify_eq; done.
  - destruct (recv_ok len k L) as (r1 & d1 & k1 & E1 & _ & E2 & _ & E3).
    rewrite E in E1. injection E1 as <- <- <-. by apply (view_sends k).
  - bool_arith. apply bytes_okb_ok in H.
    destruct (input_ok (of_conv c) d0 k H M) as (r1 & k1 & E1 & E2 & E3 & _); [apply Hk|done|].
    rewrite E1 in E. cbn in E. injection E as _ _ <-. unfold sview in E2.
    injection E2 as _ _ Eo _ _ _ _ Ec. destruct Hk as (? & _ & ?). unfold sends.
    by rewrite Eo, Ec.
  - destruct (update_flush current_ k) as (k1 & T & [E1|E1]); rewrite E1 in E;
      pose proof (tick_sends _ _ T Hk) as Hk1; [by simplify_eq/=|].
    destruct (ikcp_flush k1) as [k2|] eqn:E2; cbn in E; simplify_eq. by eapply flush_sends.
  - destruct (ikcp_flush k) as [k2|] eqn:E2; cbn in E; simplify_eq. by eapply flush_sends.
  - pose proof (nodelay_tick nodelay_ interval_ resend nc k) as T.
    destruct (ikcp_nodelay _ _ _ _ _) as [z k1]. injection E as _ _ <-. by eapply tick_sends.
  - pose proof (wndsize_tick sndwnd rcvwnd k) as T.
    destruct (ikcp_wndsize _ _ _) as [z k1]. injection E as _ _ <-. by eapply tick_sends.
Qed.

End conv.

(** ** The receive queue

    However a peer numbers its segments, the receive queue holds at most
    [rcv_wnd] of them, each no longer than a datagram: the size [ikcp_peeksize]
    computes in an [int] is the number of bytes [ikcp_recv] copies. *)
Definition max_datagram : nat := Z.to_nat 65536.
Definition seg_small (s : IKCPSEG) : Prop := (length (data s) <= max_datagram)%nat.

Record bounded (k : ikcpcb) : Prop := mk_bounded {
  bq_len : Z.of_nat (length (rcv_queue k)) = nrcv_que k;
  bq_wnd : nrcv_que k <= rcv_wnd k;
  bq_max : rcv_wnd k = IKCP_WND_RCV;
  bq_que : Forall seg_small (rcv_queue k);
  bq_buf : Forall seg_small (rcv_buf k)
}.

Definition wview (k : ikcpcb) := (rview k, rcv_wnd k).

Lemma bounded_view k k' : wview k' = wview k -> bounded k -> bounded k'.
Proof.
  unfold wview, rview. intros E []. injection E as E1 E2 E3 E4 E5.
  constructor; rewrite ?E1, ?E3, ?E4, ?E5; done.
Qed.

Lemma bounded_create c : bounded (ikcp_create c).
Proof. constructor; cbn; try constructor; done. Qed.

Lemma move_ready_bounded k : bounded k -> bounded (move_ready k).
Proof.
  unfold move_ready. intros B. pose proof (bq_buf _ B) as Hb.
  assert (forall buf k, Forall seg_small buf -> bounded k -> bounded (move_ready_f buf k)) as Hm.
  { clear. induction buf as [|s buf IH]; intros k Hb B; [done|].
    rewrite move_ready_f_cons. case_match eqn:E; [|done]. bool_arith.
    apply Forall_cons_iff in Hb as [Hs Hb]. apply IH; [done|].
    destruct B as [Bl Bw Bm Bq Bb].
    assert (u32 (nrcv_que k + 1) = nrcv_que k + 1) as En.
    { apply wrap_small. unfold in_u, IKCP_WND_RCV in *. lia. }
    unfold move_one. constructor; ksimpl; rewrite ?En, ?length_app; auto; cbn [length]; try lia.
    apply Forall_app. auto. }
  by apply Hm.
Qed.

Lemma parse_data_bounded s k : seg_small s -> bounded k -> bounded (ikcp_parse_data s k).
Proof.
  intros Hs B. unfold ikcp_parse_data. case_match; [done|]. apply move_ready_bounded.
  destruct (insert_rev s _) as [q|] eqn:E; [|done]. destruct B. constructor; ksimpl; auto.
  apply Forall_reverse. eapply insert_rev_Forall; [done|done|]. by apply Forall_reverse.
Qed.

Lemma ack_push_wnd sn ts k k' : ikcp_ack_push sn ts k = Some k' -> wview k' = wview k.
Proof. unfold ikcp_ack_push. intros E. by repeat case_match; simplify_eq. Qed.

Lemma parse_una_wnd una k : wview (ikcp_shrink_buf (ikcp_parse_una una k)) = wview k.
Proof. unfold ikcp_shrink_buf, ikcp_parse_una. destruct (drop_una una _). ksimpl. by destruct l. Qed.

Lemma update_ack_wnd rtt k : wview (ikcp_update_ack rtt k) = wview k.
Proof.
  unfold ikcp_update_ack. destruct (rx_srtt k =? 0); [by ksimpl|].
  repeat (case_match || ksimpl); done.
Qed.

Lemma input_ack_wnd h a k : wview (snd (input_ack h a k)) = wview k.
Proof.
  unfold input_ack. cbn [snd]. set (k1 := if 0 <=? _ then _ else _).
  assert (wview k1 = wview k) as <- by (subst k1; case_match; [apply update_ack_wnd|done]).
  unfold ikcp_parse_ack, ikcp_shrink_buf.
  destruct (_ || _); [|destruct (remove_ack _ _) as [q [|]]]; ksimpl; by case_match.
Qed.

Lemma input_push_bounded h d k k' :
  (length d <= max_datagram)%nat -> bounded k -> input_push h d k = Some k' -> bounded k'.
Proof.
  intros Hd B. unfold input_push. case_match; [|by intros; simplify_eq].
  destruct (ikcp_ack_push _ _ k) as [k1|] eqn:Ek; cbn [mbind option_bind]; [|done].
  apply ack_push_wnd in Ek. apply (bounded_view _ _ Ek) in B.
  case_match; intros; simplify_eq; [|done]. by apply parse_data_bounded.
Qed.

Lemma input_loop_bounded fuel d a k r a' k' :
  (length d <= max_datagram)%nat -> bounded k -> input_loop fuel d a k = Some (r, a', k') ->
  bounded k'.
Proof.
  revert d a k. induction fuel as [|fuel IH]; intros d a k Hd B; cbn [input_loop];
    (case_match; [by intros; simplify_eq|]); [done|].
  destruct (decode_header d) as [h p] eqn:Eh.
  assert (length p <= max_datagram)%nat as Hp.
  { unfold decode_header, ikcp_decode8u, ikcp_decode16u, ikcp_decode32u in Eh.
    injection Eh as _ <-. rewrite !length_drop. lia. }
  do 3 (case_match; [by intros; simplify_eq|]).
  set (k1 := ikcp_shrink_buf _).
  assert (bounded k1) as B1
    by (apply (bounded_view k); [apply (parse_una_wnd _ (set_rmt_wnd (h_wnd h) k))|done]).
  assert (length (drop (Z.to_nat (h_len h)) p) <= max_datagram)%nat as Hdr
    by (rewrite length_drop; lia).
  case_match; [|case_match; [|case_match]]; cbn [mbind option_bind].
  - destruct (input_ack h a k1) as [a2 k2] eqn:Ek. apply IH; [done|].
    eapply bounded_view; [|exact B1]. change k2 with (snd (a2, k2)).
    rewrite <- Ek. apply input_ack_wnd.
  - destruct (input_push h _ k1) as [k2|] eqn:Ek; cbn [mbind option_bind]; [|done].
    apply IH; [done|]. eapply input_push_bounded; [|exact B1|exact Ek].
    rewrite length_take. lia.
  - apply IH; [done|]. by apply (bounded_view k1).
  - by apply IH.
Qed.

Lemma input_bounded d k r k' :
  (length d <= max_datagram)%nat -> bounded k -> ikcp_input d k = Some (r, k') -> bounded k'.
Proof.
  intros Hd B. unfold ikcp_input. case_match; [by intros; simplify_eq|].
  destruct (input_loop _ _ _ _) as [[[r1 a1] k1]|] eqn:El; cbn [mbind option_bind]; [|done].
  apply input_loop_bounded in El; [|done..]. case_match; intros; simplify_eq; [done|].
  eapply bounded_view; [|exact El]. unfold grow_cwnd, ikcp_parse_fastack.
  repeat (case_match || ksimpl); done.
Qed.

Lemma merge_bounded q d rest n :
  merge_fragments q = (d, rest, n) -> Forall seg_small q ->
  (length d <= max_datagram * length q)%nat /\
  n + Z.of_nat (length rest) = Z.of_nat (length q) /\ 0 <= n /\ Forall seg_small rest.
Proof.
  intros E Hq. revert d rest n E. induction Hq as [|s q Hs Hq IH]; intros d rest n;
    cbn [merge_fragments]; [intros; simplify_eq; cbn [length]; repeat split; auto with lia|].
  unfold seg_small in Hs. case_match.
  { intros. simplify_eq. cbn [length]. split; [lia|]. split; [lia|]. by split; [lia|]. }
  destruct (merge_fragments q) as [[d1 r1] n1] eqn:Em. intros. simplify_eq.
  destruct (IH _ _ _ eq_refl) as (? & ? & ? & ?). rewrite length_app. cbn [length].
  split; [lia|]. split; [lia|]. split; [lia|done].
Qed.

(** What a session receives: the size peeked is the number of bytes copied,
    and the queue stays within its bounds. *)
Lemma recv_bounded len k :
  bounded k -> len_inv k -> 0 < len -> len = ikcp_peeksize k ->
  exists d k', ikcp_recv len k = Some (len, d, k') /\ bounded k' /\
    Z.of_nat (length d) = len.
Proof.
  intros B L Hlen Ep. destruct (recv_ok len k L) as (r & d & k' & E & _).
  revert E. unfold ikcp_recv. pose proof B as [Bl Bw Bm Bq Bb].
  destruct (rcv_queue k) as [|s q] eqn:Eq.
  { unfold ikcp_peeksize in Ep. rewrite Eq in Ep. lia. }
  rewrite <- Eq in *. rewrite (proj2 (Z.ltb_ge len 0)), <- Ep, (proj2 (Z.ltb_ge len 0)) by lia.
  rewrite Z.ltb_irrefl. cbn [negb].
  destruct (merge_fragments (rcv_queue k)) as [[d1 rest] n] eqn:Em.
  destruct (merge_bounded _ _ _ _ Em Bq) as (H1 & H2 & H3 & H4).
  assert (i32 (Z.of_nat (length d1)) = Z.of_nat (length d1)) as Ed.
  { apply sext_small; [lia|]. unfold in_i, max_datagram, IKCP_WND_RCV in *. lia. }
  rewrite Ed. case_match eqn:En; [done|]. bool_arith.
  set (k1 := set_nrcv_que _ _).
  assert (bounded (move_ready k1)) as B2.
  { apply move_ready_bounded. subst k1. constructor; ksimpl; auto.
    - rewrite wrap_small; [lia|]. unfold in_u, IKCP_WND_RCV in *. lia.
    - rewrite wrap_small; [lia|]. unfold in_u, IKCP_WND_RCV in *. lia. }
  intros _. eexists _, _. split; [by rewrite En|]. split; [|done].
  case_match; [|done]. by apply (bounded_view (move_ready k1)).
Qed.

Lemma input_short d k : (length d < 24)%nat -> ikcp_input d k = Some (-1, k).
Proof.
  intros Hd. unfold ikcp_input. rewrite sext_small by (unfold in_i; lia).
  by rewrite (proj2 (Z.ltb_lt _ IKCP_OVERHEAD)) by (unfold IKCP_OVERHEAD; lia).
Qed.

(** Every call of a session but [ikcp_recv] and [ikcp_wndsize]. *)
Definition session_op (o : op) : bool :=
  match o with
  | OpRecv _ | OpWndsize _ _ => false
  | OpInput d => (length d <=? max_datagram)%nat
  | _ => true
  end.

Lemma exec_bounded o k r d k' :
  safe k -> op_ok o k = true -> session_op o = true -> exec o k = Some (r, d, k') ->
  bounded k -> bounded k'.
Proof.
  intros Sf Hok Hs E B. pose proof Sf as [M O L St].
  assert (forall k1 k2, ikcp_flush k1 = Some k2 -> wview k1 = wview k -> bounded k2) as Hfl.
  { intros k1 k2 Ef Ew. apply flush_nview in Ef. unfold nview in Ef.
    injection Ef as E1 E2 E3 E4 _ E6. apply (bounded_view k); [|done].
    rewrite <- Ew. unfold wview, rview. congruence. }
  destruct o; cbn [exec op_ok session_op] in *; try discriminate Hs.
  - bool_arith. assert (0 < mss k < 2 ^ 31) as Hmss.
    { destruct M. unfold IKCP_OVERHEAD in *. lia. }
    destruct (send_cases buf len k) as [[_ E1]|[[_ E1]|(_ & q & n & E1 & _)]]; auto;
      rewrite E1 in E; cbn in E; simplify_eq; [done|done|by apply (bounded_view k)].
  - destruct (ikcp_input d0 k) as [[r1 k1]|] eqn:E1; cbn in E; simplify_eq.
    eapply input_bounded; [|done|exact E1]. by apply Nat.leb_le.
  - destruct (ikcp_update current_ k) as [k1|] eqn:E1; cbn in E; simplify_eq.
    revert E1. unfold ikcp_update.
    repeat first [case_match|ksimpl]; intros; simplify_eq;
      first [by eapply Hfl | by apply (bounded_view k)].
  - destruct (ikcp_flush k) as [k2|] eqn:E2; cbn in E; simplify_eq. by eapply Hfl.
  - destruct (ikcp_nodelay _ _ _ _ k) as [z k1] eqn:E1. injection E as _ _ <-.
    apply (bounded_view k); [|done]. apply (f_equal snd) in E1. cbn in E1. subst k1.
    unfold ikcp_nodelay, ikcp_interval. repeat (case_match || ksimpl); done.
Qed.

End KcpConv.
