(* ===== verification/KcpSess.v ===== *)
(** * KcpSess: sessions over KCP and UDP

    Models src/src/network/UdpPacket.h/.cpp, KcpSession.h/.cpp, KcpEvent.h/.cpp,
    KcpServer.h/.cpp, KcpClient.h/.cpp and the receive paths of UdpServer.cpp
    and UdpClient.cpp.  A world holds one server or one client: the session
    objects by address, so that a session the application has closed is gone
    and an access to it is a fault ([None]); the map from session ids; the
    static receive buffer, which keeps the bytes of earlier datagrams; and the
    datagrams given to [uv_udp_try_send].  The application (the class derived
    from [KcpEvent]) is a parameter: a function from a callback and its own
    state to its new state and the calls it makes before it returns.  [api],
    [log] and [born] record the calls of ikcp.h, the callbacks and the sessions
    created; no code reads them. *)
From stdpp Require Import gmap.
From S2P Require Import Prelude Bytes ByteBuf Kcp KcpNet.

Module UdpPacket.
Import ByteBuffer BasePacket.

Definition UDP_PACK_HEAD_SIZE : nat := 4.

Definition zero (b : t) : t :=
  mk (vresize UDP_PACK_HEAD_SIZE (storage b)) UDP_PACK_HEAD_SIZE UDP_PACK_HEAD_SIZE.
Definition create (recycled : list Z) : t := zero (BasePacket.create recycled).
Definition getHeadSize : Z := Z.of_nat UDP_PACK_HEAD_SIZE.

(** For a size that is not negative. *)
Definition initSize (s : nat) (b : t) : t :=
  if (size b <? s)%nat then mk (vresize s (storage b)) (rpos b) (wpos b) else b.

Definition getMarkLen : Z := 0.
Definition getMsgType (b : t) : option Z := i32 <$> getValue Tuint32 0 b.
Definition writeHead (msgtype : Z) (b : t) : option t := put_val 0 Tuint32 (u32 msgtype) b.
Definition writeComplete (size_ : nat) (b : t) : t := set_wpos (wpos b + size_) b.
Definition sendSize (b : t) : Z := i32 (Z.of_nat (wpos b)).
Definition sendStream (b : t) : list Z := storage b.

(** The packet [update] makes of the bytes [d] that [ikcp_recv] copies into
    it: [_createPacket(peeksize)], the copy, [wpos(peeksize)]. *)
Definition received (peeksize : nat) (d : list Z) : option t :=
  packet ← put 0 d (initSize peeksize (create []));
  Some (set_wpos peeksize packet).

End UdpPacket.

Module KcpSession.
Import Kcp KcpNet.

Definition ptr : Type := nat.
Definition sockaddr : Type := list Z.

(** [sizeof(sockaddr)], what [init] copies of an address. *)
Definition SOCKADDR_SIZE : nat := 16.

(** [class KcpSession]; [m_timer] is the period of the timer when it runs. *)
Record session : Type := mksession {
  m_kcp : option ikcpcb; m_addr : sockaddr; m_timer : option Z;
  m_nTimeout : Z; m_nTalkTime : Z; m_nUpdateTime : Z; userdata : Z
}.

Definition set_kcp (v : option ikcpcb) (s : session) : session :=
  mksession v (m_addr s) (m_timer s) (m_nTimeout s) (m_nTalkTime s) (m_nUpdateTime s) (userdata s).
Definition set_addr (v : sockaddr) (s : session) : session :=
  mksession (m_kcp s) v (m_timer s) (m_nTimeout s) (m_nTalkTime s) (m_nUpdateTime s) (userdata s).
Definition set_timer (v : option Z) (s : session) : session :=
  mksession (m_kcp s) (m_addr s) v (m_nTimeout s) (m_nTalkTime s) (m_nUpdateTime s) (userdata s).
Definition set_talk (v : Z) (s : session) : session :=
  mksession (m_kcp s) (m_addr s) (m_timer s) (m_nTimeout s) v (m_nUpdateTime s) (userdata s).
Definition set_update (v : Z) (s : session) : session :=
  mksession (m_kcp s) (m_addr s) (m_timer s) (m_nTimeout s) (m_nTalkTime s) v (userdata s).
Definition setUserdata (v : Z) (s : session) : session :=
  mksession (m_kcp s) (m_addr s) (m_timer s) (m_nTimeout s) (m_nTalkTime s) (m_nUpdateTime s) v.
Definition getUserdata (s : session) : Z := userdata s.

(** [KcpSession::KcpSession(event, timeout)]. *)
Definition create (timeout : Z) : session := mksession None [] None timeout 0 0 0.

Definition getSessionId (s : session) : Z :=
  match m_kcp s with Some k => conv k | None => 0 end.
Definition setStream (s : session) : session :=
  match m_kcp s with Some k => set_kcp (Some (set_stream 1 k)) s | None => s end.

(** What [KcpEvent] is told, and what an application may do in answer:
    [sendMsg] in its two forms, [flushKcp], the [closeSession] of the server
    or client, [KcpClient::createSession].  [OnTask] is a run of the
    application's own code. *)
Inductive callback : Type :=
  | OnAccept (p : ptr)
  | OnConnect (p : ptr)
  | OnClose (p : ptr)
  | OnMsg (p : ptr) (msgtype : Z) (pack : ByteBuffer.t)
  | OnUdpTimeout (p : ptr)
  | OnTask (n : nat).

Inductive action : Type :=
  | SendData (p : ptr) (msgtype : Z) (sv : list Z)
  | SendPacket (p : ptr) (msgtype : Z) (pack : ByteBuffer.t)
  | FlushKcp (p : ptr)
  | CloseSession (p : ptr)
  | CreateSession (addr : sockaddr).

Definition SESSION_PACKET_SIZE : Z := 5.
Definition SETUP_SESSION_CODE : Z := 110.
Definition setup_packet (id : Z) : list Z := le_bytes 4 id ++ [SETUP_SESSION_CODE].

Section Program.
(** The application, and the value of the [k]-th call of [XTime::iclock]. *)
Context {H : Type} (handler : callback -> H -> H * list action) (iclock : nat -> Z).

Record world : Type := mkworld {
  heap : gmap ptr session; fresh : ptr; m_mapSessions : gmap Z ptr; gSessionid : Z;
  buff : list Z; wire : list (sockaddr * list Z); calls : nat; app : H;
  log : list callback; api : list (ptr * op); born : list (ptr * Z)
}.

Definition set_heap (v : gmap ptr session) (w : world) : world :=
  mkworld v (fresh w) (m_mapSessions w) (gSessionid w) (buff w) (wire w) (calls w) (app w)
    (log w) (api w) (born w).
Definition set_map (v : gmap Z ptr) (w : world) : world :=
  mkworld (heap w) (fresh w) v (gSessionid w) (buff w) (wire w) (calls w) (app w)
    (log w) (api w) (born w).
Definition set_gSessionid (v : Z) (w : world) : world :=
  mkworld (heap w) (fresh w) (m_mapSessions w) v (buff w) (wire w) (calls w) (app w)
    (log w) (api w) (born w).
Definition set_buff (v : list Z) (w : world) : world :=
  mkworld (heap w) (fresh w) (m_mapSessions w) (gSessionid w) v (wire w) (calls w) (app w)
    (log w) (api w) (born w).
Definition add_wire (v : list (sockaddr * list Z)) (w : world) : world :=
  mkworld (heap w) (fresh w) (m_mapSessions w) (gSessionid w) (buff w) (wire w ++ v) (calls w)
    (app w) (log w) (api w) (born w).
Definition add_api (p : ptr) (o : op) (w : world) : world :=
  mkworld (heap w) (fresh w) (m_mapSessions w) (gSessionid w) (buff w) (wire w) (calls w)
    (app w) (log w) (api w ++ [(p, o)]) (born w).
Definition tell (c : callback) (h : H) (w : world) : world :=
  mkworld (heap w) (fresh w) (m_mapSessions w) (gSessionid w) (buff w) (wire w) (calls w)
    h (log w ++ [c]) (api w) (born w).
Definition read_clock (w : world) : Z * world :=
  (iclock (calls w),
   mkworld (heap w) (fresh w) (m_mapSessions w) (gSessionid w) (buff w) (wire w) (S (calls w))
     (app w) (log w) (api w) (born w)).

(** An assignment to a member of a session. *)
Definition modify (p : ptr) (f : session -> session) (w : world) : option world :=
  s ← heap w !! p; Some (set_heap (<[p := f s]> (heap w)) w).

(** ** KcpSessionBase *)

(** A call of ikcp.h on [__m_kcp]: a fault when the session is freed or the
    control block released.  The datagrams it outputs go through
    [__kcpOutCallback] and [__udpSend] to the address of the session. *)
Definition call (p : ptr) (o : op) (w : world) : option (Z * list Z * world) :=
  s ← heap w !! p;
  k ← m_kcp s;
  '(r, d, k') ← exec o k;
  let out := drop (length (outputs k)) (outputs k') in
  let w := set_heap (<[p := set_kcp (Some k') s]> (heap w)) w in
  Some (r, d, add_api p o (add_wire (map (pair (m_addr s)) out) w)).

Definition init (session_id : Z) (addr : sockaddr) (p : ptr) (w : world) : option world :=
  w ← modify p (fun s => set_addr (take SOCKADDR_SIZE addr)
                           (set_kcp (Some (ikcp_create session_id)) s)) w;
  Some (mkworld (heap w) (fresh w) (m_mapSessions w) (gSessionid w) (buff w) (wire w) (calls w)
          (app w) (log w) (api w) (born w ++ [(p, session_id)])).

Definition destory (p : ptr) (w : world) : option world := modify p (set_kcp None) w.

Definition send (buf : list Z) (len : Z) (p : ptr) (w : world) : option world :=
  '(_, _, w) ← call p (OpSend buf len) w; Some w.

Definition recv (buf : list Z) (len : nat) (p : ptr) (w : world) : option (Z * world) :=
  '(r, _, w) ← call p (OpInput (take len buf)) w; Some (r, w).

Definition flushKcp (p : ptr) (w : world) : option world :=
  s ← heap w !! p;
  match m_kcp s with
  | Some _ => '(_, _, w) ← call p OpFlush w; Some w
  | None => Some w
  end.

(** [ikcp_check(__m_kcp, millisecond)], at the end of [update]. *)
Definition check_kcp (millisecond : Z) (p : ptr) (w : world) : option Z :=
  s ← heap w !! p; k ← m_kcp s; Some (ikcp_check millisecond k).

(** [update], given [_onMsg]. *)
Definition base_update (onMsg : ByteBuffer.t -> world -> option world)
    (millisecond : Z) (p : ptr) (w : world) : option (Z * world) :=
  s ← heap w !! p;
  match m_kcp s with
  | None => Some (0, w)
  | Some _ =>
      '(_, _, w) ← call p (OpUpdate millisecond) w;
      s ← heap w !! p;
      k ← m_kcp s;
      let peeksize := ikcp_peeksize k in
      w ← (if 0 <? peeksize then
             '(r, d, w) ← call p (OpRecv peeksize) w;
             packet ← UdpPacket.received (Z.to_nat peeksize) d;
             if 0 <? r then onMsg packet w else Some w
           else Some w);
      time ← check_kcp millisecond p w;
      Some (time, w)
  end.

(** ** KcpSession *)

Definition start (ms : Z) (p : ptr) (w : world) : option world :=
  let '(now, w) := read_clock w in
  modify p (fun s => set_timer (Some ms) (set_talk now s)) w.

Definition over (p : ptr) (w : world) : option world := modify p (set_timer None) w.

Definition sendMsg (msgtype : Z) (pack : ByteBuffer.t) (p : ptr) (w : world) : option world :=
  pack ← UdpPacket.writeHead msgtype pack;
  w ← send (UdpPacket.sendStream pack) (UdpPacket.sendSize pack) p w;
  flushKcp p w.

Definition sendData (msgtype : Z) (sv : list Z) (p : ptr) (w : world) : option world :=
  pack ← ByteBuffer.append (take (Z.to_nat (u32 (Z.of_nat (length sv)))) sv) (UdpPacket.create []);
  sendMsg msgtype pack p w.

(** ** KcpEvent *)
Definition createConnect (w : world) : ptr * world :=
  let p := fresh w in
  (p, mkworld (<[p := create (30 * 1000)]> (heap w)) (S p) (m_mapSessions w) (gSessionid w)
        (buff w) (wire w) (calls w) (app w) (log w) (api w) (born w)).

Definition destroyConnect (p : ptr) (w : world) : option world :=
  _ ← heap w !! p; Some (set_heap (delete p (heap w)) w).

Definition onKcp (p : ptr) (w : world) : option (Z * world) :=
  '(_, _, w) ← call p (OpNodelay 1 10 2 1) w; Some (10, w).

(** ** KcpServer and KcpClient *)

(** [release], given how a callback runs. *)
Definition release (run : callback -> world -> option world) (p : ptr) (w : world) :
    option world :=
  w ← destory p w;
  w ← over p w;
  w ← run (OnClose p) w;
  destroyConnect p w.

(** [KcpClient::createSession]. *)
Definition createSession (addr : sockaddr) (w : world) : world :=
  add_wire [(addr, setup_packet 0)] w.

(** One call of the application; [depth] bounds the closings that run inside
    the [onClose] of another, each of which has taken an entry off the map. *)
Fixpoint act (depth : nat) (a : action) (w : world) : option world :=
  match a with
  | SendData p msgtype sv => sendData msgtype sv p w
  | SendPacket p msgtype pack => sendMsg msgtype pack p w
  | FlushKcp p => flushKcp p w
  | CreateSession addr => Some (createSession addr w)
  | CloseSession p =>
      s ← heap w !! p;
      match m_mapSessions w !! getSessionId s with
      | None => Some w
      | Some _ =>
          let w := set_map (delete (getSessionId s) (m_mapSessions w)) w in
          match depth with
          | O => None
          | S depth =>
              release (fun c w =>
                let '(h, acts) := handler c (app w) in
                foldl (fun r a => w ← r; act depth a w) (Some (tell c h w)) acts) p w
          end
      end
  end.

Definition do_actions (depth : nat) (acts : list action) (w : world) : option world :=
  foldl (fun r a => w ← r; act depth a w) (Some w) acts.

(** A callback runs: the application changes its state and makes its calls. *)
Definition notify_d (depth : nat) (c : callback) (w : world) : option world :=
  let '(h, acts) := handler c (app w) in
  do_actions depth acts (tell c h w).

Definition notify (c : callback) (w : world) : option world :=
  notify_d (S (size (m_mapSessions w))) c w.

Definition _onMsg (p : ptr) (packet : ByteBuffer.t) (w : world) : option world :=
  let '(now, w) := read_clock w in
  w ← modify p (set_talk now) w;
  msgtype ← UdpPacket.getMsgType packet;
  notify (OnMsg p msgtype packet) w.

Definition updateKcp (p : ptr) (w : world) : option world :=
  let '(currt, w) := read_clock w in
  '(time, w) ← base_update (_onMsg p) currt p w;
  modify p (set_update time) w.

(** [KcpSession::update], which the timer calls. *)
Definition update (p : ptr) (w : world) : option world :=
  let '(currt, w) := read_clock w in
  s ← heap w !! p;
  w ← (if m_nUpdateTime s <=? currt then
         '(time, w) ← base_update (_onMsg p) currt p w;
         modify p (set_update time) w
       else Some w);
  s ← heap w !! p;
  if u32 (m_nTalkTime s + m_nTimeout s) <? currt
  then notify (OnUdpTimeout p) w else Some w.

(** A new session for the id, in both [onMessage]s. *)
Definition open_session (id : Z) (addr : sockaddr) (w : world) : option (ptr * world) :=
  let '(p, w) := createConnect w in
  w ← init id addr p w;
  '(ms, w) ← onKcp p w;
  w ← start ms p w;
  Some (p, set_map (<[id := p]> (m_mapSessions w)) w).

(** The datagram is for a session of the map; [erase(it)] needs the entry
    to be there still. *)
Definition session_input (conv_ : Z) (len : nat) (w : world) : option world :=
  match m_mapSessions w !! conv_ with
  | None => Some w
  | Some p =>
      '(r, w) ← recv (buff w) len p w;
      if r =? 0 then updateKcp p w
      else
        w ← release notify p w;
        match (m_mapSessions w !! conv_ : option ptr) with
        | Some it =>
            if Nat.eqb it p then Some (set_map (delete conv_ (m_mapSessions w)) w) else None
        | None => None
        end
  end.

Definition buffer_conv (w : world) : Z := ikcp_getconv (buff w).
Definition buffer_code (w : world) : option Z := buff w !! 4%nat.

(** [KcpServer::onMessage]. *)
Definition server_onMessage (addr : sockaddr) (len : nat) (w : world) : option world :=
  if Nat.eqb len 0 then Some w else
  let conv_ := buffer_conv w in
  code ← buffer_code w;
  if (Z.of_nat len =? SESSION_PACKET_SIZE) && (conv_ =? 0) && (code =? SETUP_SESSION_CODE) then
    let w := set_gSessionid (u32 (gSessionid w + 1)) w in
    '(p, w) ← open_session (gSessionid w) addr w;
    let w := add_wire [(addr, setup_packet (gSessionid w))] w in
    notify (OnAccept p) w
  else session_input conv_ len w.

(** [KcpClient::onMessage], after the test of [UdpClient::on_read]. *)
Definition client_onMessage (addr : sockaddr) (len : nat) (w : world) : option world :=
  if Nat.eqb len 0 then Some w else
  let conv_ := buffer_conv w in
  code ← buffer_code w;
  if (Z.of_nat len =? SESSION_PACKET_SIZE) && (0 <? conv_) && (code =? SETUP_SESSION_CODE) then
    '(p, w) ← open_session conv_ addr w;
    notify (OnConnect p) w
  else session_input conv_ len w.

(** ** The event loop *)

(** The static buffer of [alloc_buffer], and [on_read]: the datagram is
    stored over the bytes of the one before. *)
Definition bufflen : nat := Z.to_nat 65536.
Definition fill (d : list Z) (w : world) : world :=
  set_buff (take bufflen (d ++ drop (length d) (buff w))) w.

(** A datagram arrives, the timer of a session fires, the application runs. *)
Inductive event : Type :=
  | Datagram (addr : sockaddr) (d : list Z)
  | Tick (p : ptr)
  | Task (n : nat).

Definition timer_on (p : ptr) (w : world) : bool :=
  match heap w !! p with Some (mksession _ _ (Some _) _ _ _ _) => true | _ => false end.

Definition step (server : bool) (e : event) (w : world) : option world :=
  match e with
  | Datagram addr d =>
      let len := Nat.min (length d) bufflen in
      (if server then server_onMessage else client_onMessage) addr len (fill d w)
  | Tick p => if timer_on p w then update p w else Some w
  | Task n => notify (OnTask n) w
  end.

(** The process starts: no sessions, [gSessionid] 0, the buffer zeroed. *)
Definition boot (h : H) : world :=
  mkworld ∅ 0%nat ∅ 0 (replicate bufflen 0) [] 0%nat h [] [] [].

End Program.

Arguments world : clear implicits.

End KcpSession.
