(* ===== verification/KcpSessProps.v ===== *)
(** * KcpSessProps: what the sessions of a server or client keep

    The interface of an application that uses the sessions it knows; the
    invariant of the sessions, their control blocks and the map; every event
    the server or the client handles. *)
From stdpp Require Import gmap.
From S2P Require Import Prelude Bytes ByteBuf Kcp KcpWire KcpRecv KcpSend KcpNet KcpConv KcpSess.
Import Kcp KcpNet KcpConv KcpSession.

#[local] Arguments wrap : simpl never.
#[local] Arguments sext : simpl never.
#[local] Arguments Z.of_nat : simpl never.

Module KcpSessProps.

(** ** Applications

    An application keeps track of the sessions it was told of and not told
    to be closed, and uses no others. *)
Definition expected (c : callback) (K : gset ptr) : gset ptr :=
  match c with
  | OnAccept p | OnConnect p => {[p]} ∪ K
  | OnClose p => K ∖ {[p]}
  | _ => K
  end.

(** [onMsg] must not close the session it is called for, [onClose] none. *)
Definition may_close (c : callback) (p : ptr) : bool :=
  match c with
  | OnMsg q _ _ => negb (Nat.eqb p q)
  | OnClose _ => false
  | _ => true
  end.

(** A packet [sendMsg] can be given: room for the head, positions inside. *)
Definition pack_ok (pack : ByteBuffer.t) : Prop :=
  (4 <= ByteBuffer.size pack)%nat /\ (ByteBuffer.wpos pack <= ByteBuffer.size pack)%nat /\
  Z.of_nat (ByteBuffer.wpos pack) < 2 ^ 31.

Fixpoint valid (c : callback) (K : gset ptr) (acts : list action) : Prop :=
  match acts with
  | [] => True
  | SendData p _ sv :: acts =>
      (p ∈ K /\ Z.of_nat (length sv) < 2 ^ 31 - 4) /\ valid c K acts
  | SendPacket p _ pack :: acts =>
      (p ∈ K /\ pack_ok pack) /\ valid c K acts
  | FlushKcp p :: acts => p ∈ K /\ valid c K acts
  | CreateSession _ :: acts => valid c K acts
  | CloseSession p :: acts => (p ∈ K /\ may_close c p = true) /\ valid c (K ∖ {[p]}) acts
  end.

Class Application {H : Type} (handler : callback -> H -> H * list action) : Type := {
  known : H -> gset ptr;
  known_step c h : known (fst (handler c h)) = expected c (known h);
  acts_valid c h : valid c (expected c (known h)) (snd (handler c h))
}.

(** ** A session's control block is the result of the calls made on it *)
Definition call_ok (o : op) (pt : party) : option party :=
  if op_ok o (cb pt) then perform o pt else None.
Definition replay (c : Z) (os : list op) : option party :=
  foldl (fun r o => pt ← r; call_ok o pt) (Some (KcpNet.init c 1400)) os.

Lemma replay_snoc c os o : replay c (os ++ [o]) = pt ← replay c os; call_ok o pt.
Proof. unfold replay. by rewrite foldl_app. Qed.

Lemma perform_cb o pt pt' : perform o pt = Some pt' -> exists r d, exec o (cb pt) = Some (r, d, cb pt').
Proof.
  unfold perform. destruct (exec o (cb pt)) as [[[r d] k]|]; cbn [mbind option_bind]; [|done].
  intros E. injection E as <-. by eexists _, _.
Qed.

Lemma create_1400 c : KcpNet.create c 1400 = ikcp_create c.
Proof. reflexivity. Qed.

Lemma replay_sound c os pt :
  replay c os = Some pt -> safe (cb pt) /\ sends c [] (cb pt).
Proof.
  revert pt. induction os as [|o os IH] using rev_ind; intros pt.
  { intros E. injection E as <-. split; [by apply create_inv|].
    cbn [cb KcpNet.init]. rewrite create_1400. split; [done|].
    cbn. split; [|split]; auto using List.Forall_nil, prefix_nil. }
  rewrite replay_snoc. destruct (replay c os) as [p0|]; cbn [mbind option_bind]; [|done].
  destruct (IH p0 eq_refl) as [Sf Sd]. unfold call_ok. destruct (op_ok o (cb p0)) eqn:Eok; [|done].
  intros E. destruct (perform_cb _ _ _ E) as (r & d & Ee).
  destruct (exec_safe o (cb p0) Sf Eok) as (r1 & d1 & k1 & E1 & Sf1 & _).
  pose proof (exec_sends c [] o (cb p0) r d (cb pt) Sf Eok Ee Sd) as Sd1.
  rewrite Ee in E1. injection E1 as _ _ <-. by split.
Qed.

Lemma call_ok_outputs c os o pt pt' :
  replay c os = Some pt -> call_ok o pt = Some pt' -> outputs (cb pt) `prefix_of` outputs (cb pt').
Proof.
  intros Hr. unfold call_ok. destruct (op_ok o (cb pt)) eqn:Eok; [|done].
  intros E. destruct (perform_cb _ _ _ E) as (r & d & Ee).
  destruct (replay_sound _ _ _ Hr) as [Sf (Hc & Hb & Ho & _)].
  by destruct (exec_sends c (outputs (cb pt)) _ _ _ _ _ Sf Eok Ee) as (_ & _ & _ & ?).
Qed.

(** The calls made on a session and the messages it was given. *)
Definition of_ptr {A} (p : ptr) (x : ptr * A) : option A :=
  if Nat.eqb (fst x) p then Some (snd x) else None.
Definition pack_bytes (pack : ByteBuffer.t) : list Z :=
  take (ByteBuffer.wpos pack) (ByteBuffer.storage pack).
Definition msg_of (c : callback) : option (ptr * list Z) :=
  match c with OnMsg p _ pack => Some (p, pack_bytes pack) | _ => None end.

Section Props.
Context {H : Type} (handler : callback -> H -> H * list action) (iclock : nat -> Z).
Context {A : Application handler}.

Definition ops_of (p : ptr) (w : world H) : list op := omap (of_ptr p) (api w).
Definition msgs_of (p : ptr) (w : world H) : list (list Z) :=
  omap (of_ptr p) (omap msg_of (log w)).
Definition pending_msg (p : ptr) (pd : option (ptr * list Z)) : list (list Z) :=
  match pd with Some x => option_list (of_ptr p x) | None => [] end.

Definition live (w : world H) (p : ptr) : Prop :=
  exists s k, heap w !! p = Some s /\ m_kcp s = Some k.
Definition knows (w : world H) : Prop := forall p, p ∈ known (app w) <-> live w p.

(** The party of a session, whatever became of it. *)
Definition party_of (w : world H) (p : ptr) (c : Z) (pt : party) : Prop :=
  (p, c) ∈ born w /\ replay c (ops_of p w) = Some pt.

(** [ex] is a session being closed whose entry is still in the map, [pd] a
    message [ikcp_recv] returned and [onMsg] was not yet called for. *)
Record inv (ex : option ptr) (pd : option (ptr * list Z)) (w : world H) : Prop := mk_inv {
  i_heap : forall p, is_Some (heap w !! p) -> (p < fresh w)%nat;
  i_born : forall p c, (p, c) ∈ born w -> (p < fresh w)%nat /\ 0 <= c < 2 ^ 32;
  i_new : forall p, (fresh w <= p)%nat -> ops_of p w = [] /\ msgs_of p w = [];
  i_nodup : NoDup (born w).*1;
  i_party : forall p c, (p, c) ∈ born w -> exists pt, replay c (ops_of p w) = Some pt /\
    bounded (cb pt) /\ got pt = msgs_of p w ++ pending_msg p pd /\
    forall s k, heap w !! p = Some s -> m_kcp s = Some k -> k = cb pt;
  i_live : forall p, live w p -> exists c, (p, c) ∈ born w;
  i_map : forall c p, m_mapSessions w !! c = Some p ->
    (p, c) ∈ born w /\ (live w p \/ ex = Some p);
  i_wire : forall a d, (a, d) ∈ wire w ->
    (exists c, 0 <= c < 2 ^ 32 /\ d = setup_packet c) \/
    exists p c pt, party_of w p c pt /\ d ∈ outputs (cb pt);
  i_buff : length (buff w) = bufflen /\ bytes_ok (buff w)
}.

(** What calls leave alone: [D] says which inputs may be made. *)
Record quiet (D : ptr -> list Z -> Prop) (w w' : world H) : Prop := mk_quiet {
  q_api : exists l, api w' = api w ++ l /\ forall p d, (p, OpInput d) ∈ l -> D p d;
  q_born : born w' = born w;
  q_id : gSessionid w' = gSessionid w;
  q_buff : buff w' = buff w;
  q_fresh : fresh w' = fresh w
}.
Definition none (p : ptr) (d : list Z) : Prop := False.

Lemma quiet_refl D w : quiet D w w.
Proof. constructor; try done. exists []. rewrite app_nil_r. split; [done|]. by intros ? ? ?%list.elem_of_nil. Qed.

Lemma quiet_trans D w1 w2 w3 : quiet D w1 w2 -> quiet D w2 w3 -> quiet D w1 w3.
Proof.
  intros [(l1 & E1 & H1) B1 I1 F1 N1] [(l2 & E2 & H2) B2 I2 F2 N2]. constructor; try congruence.
  exists (l1 ++ l2). rewrite E2, E1, app_assoc. split; [done|].
  intros p d [?|?]%list.elem_of_app; eauto.
Qed.

Lemma quiet_weaken D w w' : quiet none w w' -> quiet D w w'.
Proof.
  intros [(l & E & Hl) B I F N]. constructor; try done. exists l. split; [done|].
  intros p d Hd. by destruct (Hl p d Hd).
Qed.

(** A run of calls that closes nothing and tells nothing. *)
Record steady (w w' : world H) : Prop := mk_steady {
  s_quiet : quiet none w w';
  s_live : forall p, live w' p <-> live w p;
  s_dom : forall p, is_Some (heap w' !! p) <-> is_Some (heap w !! p);
  s_map : m_mapSessions w' = m_mapSessions w;
  s_app : app w' = app w;
  s_log : log w' = log w
}.

Lemma steady_refl w : steady w w.
Proof. constructor; try done. apply quiet_refl. Qed.

Lemma steady_trans w1 w2 w3 : steady w1 w2 -> steady w2 w3 -> steady w1 w3.
Proof.
  intros [Q1 L1 D1 M1 A1 G1] [Q2 L2 D2 M2 A2 G2]. constructor; try congruence.
  - by eapply quiet_trans.
  - intros p. by rewrite L2.
  - intros p. by rewrite D2.
Qed.

Lemma steady_knows w w' : steady w w' -> knows w -> knows w'.
Proof. intros [_ L _ _ EA _] K p. by rewrite EA, L. Qed.

(** ** One call of ikcp.h *)
Definition after_call (p : ptr) (o : op) (s : session) (k k' : ikcpcb) (w : world H) : world H :=
  add_api p o
    (add_wire (map (pair (m_addr s)) (drop (length (outputs k)) (outputs k')))
       (set_heap (<[p := set_kcp (Some k') s]> (heap w)) w)).

Lemma call_eq p o w s k r d k' :
  heap w !! p = Some s -> m_kcp s = Some k -> exec o k = Some (r, d, k') ->
  call p o w = Some (r, d, after_call p o s k k' w).
Proof. unfold call. intros -> Hk E. cbn [mbind option_bind]. rewrite Hk. cbn [mbind option_bind]. by rewrite E. Qed.

Lemma after_call_heap p o s k k' w q :
  heap (after_call p o s k k' w) !! q =
    if decide (q = p) then Some (set_kcp (Some k') s) else heap w !! q.
Proof. cbn. case_decide; subst; by rewrite ?lookup_insert_eq, ?lookup_insert_ne by done. Qed.

Lemma live_kcp w p s : heap w !! p = Some s -> live w p <-> is_Some (m_kcp s).
Proof.
  intros E. split.
  - intros (s1 & k & E1 & E2). rewrite E in E1. injection E1 as <-. by exists k.
  - intros [k Hk]. by exists s, k.
Qed.

Lemma after_call_live p o s k k' w q :
  heap w !! p = Some s -> m_kcp s = Some k ->
  live (after_call p o s k k' w) q <-> live w q.
Proof.
  intros E Hk. pose proof (after_call_heap p o s k k' w q) as Eh. case_decide as Hq.
  - subst q. rewrite (live_kcp _ _ _ Eh), (live_kcp _ _ _ E), Hk. split; by eexists.
  - unfold live. by setoid_rewrite Eh.
Qed.

Lemma after_call_ops p o s k k' w q :
  ops_of q (after_call p o s k k' w) = ops_of q w ++ (if Nat.eqb p q then [o] else []).
Proof.
  unfold ops_of. cbn [api after_call add_api add_wire set_heap]. rewrite omap_app. f_equal.
  cbn [omap list_omap]. unfold of_ptr. cbn [fst snd]. by destruct (Nat.eqb p q).
Qed.

Lemma born_unique w p c c' ex pd : inv ex pd w -> (p, c) ∈ born w -> (p, c') ∈ born w -> c = c'.
Proof.
  intros I. pose proof (i_nodup _ _ _ I) as N. revert N. generalize (born w). intros l N H1 H2.
  apply list_elem_of_lookup in H1 as [i H1]. apply list_elem_of_lookup in H2 as [j H2].
  assert (i = j) as ->.
  { eapply (NoDup_lookup _ _ _ p N); rewrite list_lookup_fmap; [by rewrite H1|by rewrite H2]. }
  congruence.
Qed.

Lemma inv_session ex pd w p s k :
  inv ex pd w -> heap w !! p = Some s -> m_kcp s = Some k ->
  exists c pt, party_of w p c pt /\ cb pt = k /\ bounded k /\ safe k /\ conv k = c /\
    got pt = msgs_of p w ++ pending_msg p pd.
Proof.
  intros I E Hk. destruct (i_live _ _ _ I p) as [c Hc]; [by exists s, k|].
  destruct (i_party _ _ _ I p c Hc) as (pt & Hr & Hb & Hg & Hcb).
  pose proof (Hcb _ _ E Hk) as ->. destruct (replay_sound _ _ _ Hr) as [Sf [Ec _]].
  by exists c, pt.
Qed.

Lemma drop_prefix_elem (l l' : list (list Z)) d :
  d ∈ drop (length l) l' -> d ∈ l'.
Proof. intros Hd. rewrite <- (take_drop (length l) l'). apply list.elem_of_app. by right. Qed.

Lemma call_inv x ex pd pd' p o w s k r d k' :
  inv ex pd w -> heap w !! p = Some s -> m_kcp s = Some k ->
  op_ok o k = true -> exec o k = Some (r, d, k') -> bounded k' ->
  (forall pt pt', cb pt = k -> perform o pt = Some pt' -> got pt' = got pt ++ x) ->
  pending_msg p pd' = pending_msg p pd ++ x ->
  (forall q, q <> p -> pending_msg q pd' = pending_msg q pd) ->
  inv ex pd' (after_call p o s k k' w).
Proof.
  intros I E Hk Hok Ee Bk Hx Hp Hq.
  destruct (inv_session _ _ _ _ _ _ I E Hk) as (c & pt & [Hc Hr] & Ecb & _ & Sf & Econv & Hg).
  assert (exists pt', call_ok o pt = Some pt' /\ cb pt' = k') as (pt' & Eok & Ecb').
  { unfold call_ok, perform. rewrite Ecb, Hok, Ee. by eexists. }
  assert (got pt' = got pt ++ x) as Hg'.
  { apply Hx; [done|]. unfold call_ok in Eok. by rewrite Ecb, Hok in Eok. }
  set (w' := after_call p o s k k' w).
  assert (replay c (ops_of p w') = Some pt') as Hr'.
  { subst w'. rewrite after_call_ops, Nat.eqb_refl, replay_snoc, Hr. exact Eok. }
  assert (forall q cq ptq, party_of w q cq ptq -> exists ptq', party_of w' q cq ptq' /\
    outputs (cb ptq) `prefix_of` outputs (cb ptq')) as Hmono.
  { intros q cq ptq [Hcq Hrq]. destruct (decide (q = p)) as [->|Hne].
    - rewrite (born_unique _ _ _ _ _ _ I Hcq Hc) in *. rewrite Hr in Hrq. injection Hrq as <-.
      exists pt'. split; [by split|]. by eapply call_ok_outputs.
    - exists ptq. split; [|done]. split; [done|]. subst w'.
      rewrite after_call_ops, (proj2 (Nat.eqb_neq p q)), app_nil_r by congruence. done. }
  constructor.
  - intros q. subst w'. rewrite after_call_heap. case_decide as Hd; [subst q|].
    + intros _. apply (i_heap _ _ _ I). by eexists.
    + apply (i_heap _ _ _ I).
  - apply (i_born _ _ _ I).
  - intros q Hlt. change (fresh w') with (fresh w) in Hlt. subst w'. rewrite after_call_ops.
    destruct (i_born _ _ _ I p c Hc) as [? _].
    rewrite (proj2 (Nat.eqb_neq p q)), app_nil_r by lia. by apply (i_new _ _ _ I).
  - apply (i_nodup _ _ _ I).
  - intros q cq Hcq. subst w'. destruct (decide (q = p)) as [->|Hne].
    + rewrite (born_unique _ _ _ _ _ _ I Hcq Hc) in *. exists pt'. split; [done|].
      split; [by rewrite Ecb'|]. split; [by rewrite Hg', Hg, Hp, app_assoc|].
      intros s1 k1 E1 Hk1. rewrite after_call_heap, decide_True in E1 by done. simplify_eq.
      by injection Hk1.
    + destruct (i_party _ _ _ I q cq Hcq) as (ptq & Hrq & Hbq & Hgq & Hcbq). exists ptq.
      rewrite after_call_ops, (proj2 (Nat.eqb_neq p q)), app_nil_r, Hq by congruence.
      split; [done|]. split; [done|]. split; [done|]. intros s1 k1 E1.
      rewrite after_call_heap, decide_False in E1 by done. by apply Hcbq.
  - intros q Hl. subst w'. rewrite after_call_live in Hl by done. by apply (i_live _ _ _ I).
  - intros cq q Hm. subst w'. rewrite after_call_live by done. by apply (i_map _ _ _ I).
  - intros a dg Hd. cbn [w' after_call add_api add_wire set_heap wire] in Hd.
    apply list.elem_of_app in Hd as [Hd|Hd].
    + destruct (i_wire _ _ _ I a dg Hd) as [?|(q & cq & ptq & Hpq & Ho)]; [by left|right].
      destruct (Hmono _ _ _ Hpq) as (ptq' & Hpq' & Hpre). exists q, cq, ptq'. split; [done|].
      destruct Hpre as [m ->]. apply list.elem_of_app. by left.
    + right. exists p, c, pt'. split; [by split|]. rewrite Ecb'.
      apply list_elem_of_fmap in Hd as (y & Ey & Hy). injection Ey as -> ->.
      by eapply drop_prefix_elem.
  - apply (i_buff _ _ _ I).
Qed.

Lemma after_call_steady p o s k k' w :
  heap w !! p = Some s -> m_kcp s = Some k -> (forall d, o <> OpInput d) ->
  steady w (after_call p o s k k' w).
Proof.
  intros E Hk Ho. constructor; try done.
  - constructor; try done. exists [(p, o)]. split; [done|].
    intros q d Hd%list_elem_of_singleton. injection Hd as -> <-. by destruct (Ho d).
  - intros q. by apply after_call_live.
  - intros q. rewrite after_call_heap. case_decide; [subst q; rewrite E; split; by eexists|done].
Qed.

(** A call that returns no message. *)
Lemma call_ok_step ex pd p o w :
  inv ex pd w -> live w p -> (forall len, o <> OpRecv len) -> session_op o = true ->
  (forall s k, heap w !! p = Some s -> m_kcp s = Some k -> safe k -> op_ok o k = true) ->
  exists r d w', call p o w = Some (r, d, w') /\ inv ex pd w' /\
    ((forall d, o <> OpInput d) -> steady w w') /\
    exists s k k', heap w !! p = Some s /\ m_kcp s = Some k /\ w' = after_call p o s k k' w /\
      exec o k = Some (r, d, k').
Proof.
  intros I (s & k & E & Hk) Hnr Hs Hok.
  destruct (inv_session _ _ _ _ _ _ I E Hk) as (c & pt & _ & _ & B & Sf & _).
  specialize (Hok _ _ E Hk Sf). destruct (exec_safe o k Sf Hok) as (r & d & k' & Ee & Sf' & _).
  exists r, d, (after_call p o s k k' w). split; [by eapply call_eq|]. split; [|split].
  - apply (call_inv [] ex pd pd p o w s k r d k' I E Hk Hok Ee
             (exec_bounded _ _ _ _ _ Sf Hok Hs Ee B)); [|by rewrite app_nil_r|done].
    intros p0 p1 _. unfold perform. destruct (exec o (cb p0)) as [[[? ?] ?]|]; [|done].
    intros Ep. injection Ep as <-. cbn [got]. rewrite app_nil_r.
    by destruct o.
  - by apply after_call_steady.
  - by exists s, k, k'.
Qed.

(** ** Sending *)
Definition keeps (ex : option ptr) (pd : option (ptr * list Z)) (w : world H)
    (r : option (world H)) : Prop :=
  exists w', r = Some w' /\ inv ex pd w' /\ steady w w'.

Lemma keeps_bind ex pd w r (f : world H -> option (world H)) :
  keeps ex pd w r -> (forall w', inv ex pd w' -> steady w w' -> keeps ex pd w' (f w')) ->
  keeps ex pd w (w' ← r; f w').
Proof.
  intros (w1 & -> & I1 & S1) Hf. destruct (Hf w1 I1 S1) as (w2 & E & I2 & S2).
  exists w2. cbn [mbind option_bind]. split; [done|]. split; [done|]. by eapply steady_trans.
Qed.

Lemma flushKcp_keeps ex pd p w : inv ex pd w -> live w p -> keeps ex pd w (flushKcp p w).
Proof.
  intros I Hl. unfold flushKcp.
  destruct (call_ok_step ex pd p OpFlush w) as (r & d & w' & Ec & I' & St & _); try done.
  destruct Hl as (s & k & E & Hk). rewrite E. cbn [mbind option_bind]. rewrite Hk, Ec.
  exists w'. split; [done|]. split; [done|]. by apply St.
Qed.

Lemma writeHead_ok msgtype pack : pack_ok pack ->
  exists pack', UdpPacket.writeHead msgtype pack = Some pack' /\ pack_ok pack' /\
    ByteBuffer.wpos pack' = ByteBuffer.wpos pack /\
    ByteBuffer.storage pack' = le_bytes 4 (u32 msgtype) ++ drop 4 (ByteBuffer.storage pack).
Proof.
  intros (H1 & H2 & H3). unfold UdpPacket.writeHead, ByteBuffer.put_val.
  rewrite ByteBufProps.put_ok by (rewrite obj_bytes_length; exact H1).
  eexists. split; [done|]. unfold pack_ok, ByteBuffer.size in *. cbn [ByteBuffer.wpos ByteBuffer.storage].
  rewrite take_0, obj_bytes_length, length_app, length_app, obj_bytes_length, length_drop.
  cbn [length app sizeof plus] in *. repeat split; lia.
Qed.

Lemma sendMsg_keeps ex pd msgtype pack p w :
  inv ex pd w -> live w p -> pack_ok pack -> keeps ex pd w (sendMsg msgtype pack p w).
Proof.
  intros I Hl Hp. unfold sendMsg.
  destruct (writeHead_ok msgtype pack Hp) as (pack' & -> & (P1 & P2 & P3) & _).
  cbn [mbind option_bind]. apply keeps_bind.
  - unfold send, UdpPacket.sendStream, UdpPacket.sendSize.
    rewrite sext_small by (unfold in_i; lia).
    edestruct (call_ok_step ex pd p) as (r & d & w' & -> & I' & St & _);
      [exact I|exact Hl|done|reflexivity| |].
    { intros s k _ _ _. cbn [op_ok]. unfold ByteBuffer.size in *.
      apply andb_true_iff. split; [apply Z.leb_le|apply Z.ltb_lt]; lia. }
    exists w'. split; [done|]. split; [done|]. by apply St.
  - intros w' I' S'. apply flushKcp_keeps; [done|]. by apply S'.
Qed.

Lemma sendData_keeps ex pd msgtype sv p w :
  inv ex pd w -> live w p -> Z.of_nat (length sv) < 2 ^ 31 - 4 ->
  keeps ex pd w (sendData msgtype sv p w).
Proof.
  intros I Hl Hs. unfold sendData. rewrite wrap_small by (unfold in_u; lia).
  rewrite Nat2Z.id, take_ge by done.
  rewrite ByteBufProps.append_at_end by done. cbn [mbind option_bind].
  apply sendMsg_keeps; [done|done|]. unfold pack_ok, ByteBuffer.size. cbn. lia.
Qed.

Lemma setup_inv ex pd a c w :
  0 <= c < 2 ^ 32 -> inv ex pd w -> inv ex pd (add_wire [(a, setup_packet c)] w).
Proof.
  intros Hc []. constructor; try done. intros a' d Hd. cbn in Hd.
  apply list.elem_of_app in Hd as [Hd|Hd%list_elem_of_singleton]; [eauto|].
  injection Hd as -> ->. left. by exists c.
Qed.

Lemma add_wire_steady v w : steady w (add_wire v w).
Proof.
  constructor; try done. constructor; try done. exists []. cbn. rewrite app_nil_r.
  split; [done|]. by intros ? ? ?%list.elem_of_nil.
Qed.

Lemma createSession_keeps ex pd a w : inv ex pd w -> keeps ex pd w (Some (createSession a w)).
Proof.
  intros I. eexists. split; [done|]. split; [by apply setup_inv|apply add_wire_steady].
Qed.

(** The calls an [onClose] may make. *)
Lemma sends_keep ex depth p K acts w :
  inv ex None w -> valid (OnClose p) K acts -> (forall q, q ∈ K -> live w q) ->
  keeps ex None w (do_actions handler depth acts w).
Proof.
  unfold do_actions. revert w. induction acts as [|a acts IH]; intros w I V HK.
  { exists w. split; [done|]. split; [done|]. apply steady_refl. }
  cbn [foldl mbind option_bind].
  assert (keeps ex None w (act handler depth a w) /\ valid (OnClose p) K acts) as [Ka Va].
  { destruct a; cbn [valid] in V; (destruct V as [V1 V2] || rename V into V2);
      (solve [clear - V1; cbn in V1; intuition discriminate] || (split; [|done]));
      destruct depth; cbn [act].
    1,2: apply sendData_keeps; [done|apply HK, V1|apply V1].
    1,2: apply sendMsg_keeps; [done|apply HK, V1|apply V1].
    1,2: apply flushKcp_keeps; auto.
    all: by apply createSession_keeps. }
  destruct Ka as (w1 & -> & I1 & S1).
  destruct (IH w1 I1 Va) as (w2 & E & I2 & S2); [intros q Hq; by apply S1, HK|].
  exists w2. split; [done|]. split; [done|]. by eapply steady_trans.
Qed.

(** ** Callbacks *)

(** What may change while an application handles a callback. *)
Record moves (w w' : world H) : Prop := mk_moves {
  v_quiet : quiet none w w';
  v_live : forall p, live w' p -> live w p;
  v_known : knows w'
}.

Lemma tell_inv ex pd c h w :
  inv ex pd w -> pd = msg_of c -> (forall q m, pd = Some (q, m) -> live w q) ->
  inv ex None (tell c h w).
Proof.
  intros I -> Hl. destruct I. constructor; try done.
  - intros p Hp. destruct (i_new0 p Hp) as [H1 H2]. split; [exact H1|].
    unfold msgs_of in *. cbn [log tell]. rewrite !omap_app, H2. cbn [app omap list_omap].
    destruct (msg_of c) as [[q m]|] eqn:Em; [|done]. cbn [omap list_omap]. unfold of_ptr.
    cbn [fst snd]. destruct (Hl _ _ eq_refl) as (s & k & E & _).
    cbn [fresh tell] in Hp. rewrite (proj2 (Nat.eqb_neq q p)); [done|].
    assert (q < fresh w)%nat by (apply i_heap0; by eexists). lia.
  - intros p cp Hp. destruct (i_party0 p cp Hp) as (pt & Hr & Hb & Hg & Hc). exists pt.
    split; [done|]. split; [done|]. split; [|done]. rewrite Hg. unfold msgs_of. cbn [log tell].
    rewrite !omap_app, app_nil_r. f_equal. cbn [omap list_omap]. unfold pending_msg.
    destruct (msg_of c) as [x|]; [|done]. cbn [omap list_omap]. by destruct (of_ptr p x).
Qed.

Lemma heap_set_inv ex pd p s s' w :
  inv ex pd w -> heap w !! p = Some s -> m_kcp s' = m_kcp s ->
  inv ex pd (set_heap (<[p := s']> (heap w)) w).
Proof.
  intros [] E Ek.
  assert (forall q s1, <[p := s']> (heap w) !! q = Some s1 ->
    exists s2, heap w !! q = Some s2 /\ m_kcp s1 = m_kcp s2) as Hin.
  { intros q s1. destruct (decide (q = p)) as [->|Hq].
    - rewrite lookup_insert_eq. intros Es. injection Es as <-. by exists s.
    - rewrite lookup_insert_ne by done. by exists s1. }
  assert (forall q, live (set_heap (<[p := s']> (heap w)) w) q <-> live w q) as HL.
  { intros q. unfold live. cbn [heap set_heap]. split.
    - intros (s1 & k & E1 & E2). destruct (Hin _ _ E1) as (s2 & E3 & E4). exists s2, k. by rewrite <- E4.
    - intros (s1 & k & E1 & E2). destruct (decide (q = p)) as [->|Hq].
      + exists s', k. rewrite lookup_insert_eq, Ek. split; [done|]. congruence.
      + exists s1, k. by rewrite lookup_insert_ne. }
  constructor; try done.
  - intros q [s1 E1]. destruct (Hin _ _ E1) as (s2 & E3 & _). apply i_heap0. by exists s2.
  - intros q cq Hq. destruct (i_party0 q cq Hq) as (pt & Hr & Hb & Hg & Hc). exists pt.
    split; [done|]. split; [done|]. split; [done|]. intros s1 k E1 E2.
    destruct (Hin _ _ E1) as (s2 & E3 & E4). apply (Hc s2); [done|congruence].
  - intros q Hq. by apply i_live0, HL.
  - intros cq q Hq. rewrite HL. by apply i_map0.
Qed.

Lemma modify_keeps ex pd p f w :
  inv ex pd w -> is_Some (heap w !! p) -> (forall s, m_kcp (f s) = m_kcp s) ->
  keeps ex pd w (modify p f w).
Proof.
  intros I [s E] Hf. unfold modify. rewrite E. cbn [mbind option_bind]. eexists. split; [done|].
  split; [by eapply heap_set_inv|]. constructor; try done.
  - constructor; try done. exists []. cbn. rewrite app_nil_r. split; [done|].
    by intros ? ? ?%list.elem_of_nil.
  - intros q. unfold live. cbn [heap set_heap].
    destruct (decide (q = p)) as [->|Hq]; [|by rewrite lookup_insert_ne].
    rewrite lookup_insert_eq, E. split; intros (s1 & k & E1 & E2); injection E1 as <-.
    + exists s, k. by rewrite <- Hf.
    + exists (f s), k. by rewrite Hf.
  - intros q. cbn [heap set_heap]. destruct (decide (q = p)) as [->|Hq];
      [|by rewrite lookup_insert_ne]. rewrite lookup_insert_eq, E. split; by eexists.
Qed.

Lemma clock_inv ex pd w : inv ex pd w -> inv ex pd (snd (read_clock iclock w)).
Proof. intros []. by constructor. Qed.
Lemma clock_steady w : steady w (snd (read_clock iclock w)).
Proof.
  constructor; try done. constructor; try done. exists []. cbn. rewrite app_nil_r.
  split; [done|]. by intros ? ? ?%list.elem_of_nil.
Qed.

(** ** Closing *)
Lemma inv_ex p pd w : inv None pd w -> inv (Some p) pd w.
Proof.
  intros []. constructor; try done. intros c q Hq.
  destruct (i_map0 c q Hq) as [? [?|?]]; [auto|done].
Qed.

Lemma inv_drop p pd w :
  inv (Some p) pd w -> (forall c, m_mapSessions w !! c <> Some p) -> inv None pd w.
Proof.
  intros [] Hp. constructor; try done. intros c q Hq.
  destruct (i_map0 c q Hq) as [? [?|E]]; [auto|]. injection E as ->. by destruct (Hp c).
Qed.

Lemma erase_inv ex pd c w : inv ex pd w -> inv ex pd (set_map (delete c (m_mapSessions w)) w).
Proof.
  intros []. constructor; try done. intros c' q Hq. cbn [m_mapSessions set_map] in Hq.
  apply lookup_delete_Some in Hq as [_ Hq]. by apply i_map0.
Qed.

Lemma quiet_of D w w' :
  api w' = api w -> born w' = born w -> gSessionid w' = gSessionid w -> buff w' = buff w ->
  fresh w' = fresh w -> quiet D w w'.
Proof.
  intros E1 E2 E3 E4 E5. constructor; try done. exists []. rewrite app_nil_r. split; [done|].
  by intros ? ? ?%list.elem_of_nil.
Qed.

Lemma destory_ok p w :
  inv (Some p) None w -> live w p ->
  exists w', destory p w = Some w' /\ inv (Some p) None w' /\
    (forall q, live w' q <-> live w q /\ q <> p) /\ is_Some (heap w' !! p) /\
    app w' = app w /\ m_mapSessions w' = m_mapSessions w /\ quiet none w w'.
Proof.
  intros I (s & k & E & Hk). unfold destory, modify. rewrite E. cbn [mbind option_bind].
  set (w' := set_heap _ w). exists w'. split; [done|].
  assert (forall q, live w' q <-> live w q /\ q <> p) as HL.
  { intros q. unfold live. subst w'. cbn [heap set_heap]. destruct (decide (q = p)) as [->|Hq].
    - rewrite lookup_insert_eq. split; [|by intros [_ []]].
      intros (s1 & k1 & E1 & E2). injection E1 as <-. discriminate E2.
    - rewrite lookup_insert_ne by done. split; [auto|by intros []]. }
  split; [|split; [done|split; [|by repeat split; try apply quiet_of]]].
  - destruct I. constructor; try done.
    + intros q [s1 E1]. apply i_heap0. subst w'. cbn [heap set_heap] in E1.
      destruct (decide (q = p)) as [->|Hq]; [by exists s|].
      rewrite lookup_insert_ne in E1 by done. by exists s1.
    + intros q cq Hq. destruct (i_party0 q cq Hq) as (pt & Hr & Hb & Hg & Hc). exists pt.
      split; [done|]. split; [done|]. split; [done|]. intros s1 k1 E1 E2.
      subst w'. cbn [heap set_heap] in E1. destruct (decide (q = p)) as [->|Hqp].
      * rewrite lookup_insert_eq in E1. injection E1 as <-. discriminate E2.
      * rewrite lookup_insert_ne in E1 by done. by apply (Hc s1).
    + intros q [Hq _]%HL. by apply i_live0.
    + intros cq q Hq. destruct (i_map0 cq q Hq) as [Hb [Hl|He]]; (split; [done|]); [|by right].
      destruct (decide (q = p)) as [->|Hqp]; [by right|left]. by apply HL.
  - subst w'. cbn [heap set_heap]. rewrite lookup_insert_eq. by eexists.
Qed.

Lemma destroyConnect_ok p w :
  inv (Some p) None w -> ~ live w p -> is_Some (heap w !! p) ->
  exists w', destroyConnect p w = Some w' /\ inv (Some p) None w' /\
    (forall q, live w' q <-> live w q) /\ app w' = app w /\
    m_mapSessions w' = m_mapSessions w /\ quiet none w w' /\ heap w' !! p = None.
Proof.
  intros I Hn [s E]. unfold destroyConnect. rewrite E. cbn [mbind option_bind].
  set (w' := set_heap _ w). exists w'. split; [done|].
  assert (forall q s1, heap w' !! q = Some s1 -> heap w !! q = Some s1) as Hin.
  { intros q s1 E1. subst w'. cbn [heap set_heap] in E1. by apply lookup_delete_Some in E1 as []. }
  assert (forall q, live w' q <-> live w q) as HL.
  { intros q. split; intros (s1 & k & E1 & E2); exists s1, k; (split; [|done]); [by apply Hin|].
    subst w'. cbn [heap set_heap]. rewrite lookup_delete_ne; [done|]. intros <-.
    apply Hn. by exists s1, k. }
  split; [|split; [done|repeat split; try by apply quiet_of]].
  2: { subst w'. cbn [heap set_heap]. apply lookup_delete_eq. }
  destruct I. constructor; try done.
  - intros q [s1 E1]. apply i_heap0. exists s1. by apply Hin.
  - intros q cq Hq. destruct (i_party0 q cq Hq) as (pt & Hr & Hb & Hg & Hc). exists pt.
    split; [done|]. split; [done|]. split; [done|]. intros s1 k E1. apply (Hc s1). by apply Hin.
  - intros q Hq%HL. by apply i_live0.
  - intros cq q Hq. rewrite HL. by apply i_map0.
Qed.

Lemma release_ok depth p w :
  inv (Some p) None w -> live w p -> knows w ->
  exists w', release (notify_d handler depth) p w = Some w' /\ inv (Some p) None w' /\
    moves w w' /\ m_mapSessions w' = m_mapSessions w /\
    (forall q, live w' q <-> live w q /\ q <> p) /\ heap w' !! p = None.
Proof.
  intros I Hl K. unfold release.
  destruct (destory_ok p w I Hl) as (w1 & -> & I1 & L1 & Hp1 & A1 & M1 & Q1).
  cbn [mbind option_bind].
  destruct (modify_keeps (Some p) None p (set_timer None) w1 I1 Hp1) as (w2 & E2 & I2 & S2); [done|].
  unfold over. rewrite E2. cbn [mbind option_bind].
  unfold notify_d. destruct (handler (OnClose p) (app w2)) as [h acts] eqn:Eh.
  pose proof (known_step (OnClose p) (app w2)) as Hk. rewrite Eh in Hk. cbn [fst] in Hk.
  pose proof (acts_valid (OnClose p) (app w2)) as Hv. rewrite Eh in Hv. cbn [snd] in Hv.
  assert (inv (Some p) None (tell (OnClose p) h w2)) as I3
    by (eapply tell_inv; [exact I2|done|by intros]).
  assert (forall q, q ∈ known h <-> live w q /\ q <> p) as HK.
  { intros q. rewrite Hk. cbn [expected]. rewrite (s_app _ _ S2), A1.
    rewrite elem_of_difference, elem_of_singleton. by rewrite (K q). }
  destruct (sends_keep (Some p) depth p _ acts _ I3 Hv) as (w4 & E4 & I4 & S4).
  { intros q Hq. rewrite <- Hk in Hq.
    change (live w2 q). apply S2, L1, HK, Hq. }
  rewrite E4. cbn [mbind option_bind].
  destruct (destroyConnect_ok p w4 I4) as (w5 & E5 & I5 & L5 & A5 & M5 & Q5 & N5).
  { intros H4%S4. change (live w2 p) in H4. apply S2, L1 in H4 as [_ []]. done. }
  { apply S4. change (is_Some (heap w2 !! p)). by apply S2. }
  assert (forall q, live w5 q <-> live w q /\ q <> p) as HL.
  { intros q. rewrite L5, (s_live _ _ S4 q). change (live (tell (OnClose p) h w2) q) with (live w2 q).
    by rewrite (s_live _ _ S2 q), L1. }
  exists w5. split; [done|]. split; [done|]. split; [|split; [|by split]].
  - constructor.
    + eapply quiet_trans; [exact Q1|]. eapply quiet_trans; [apply S2|].
      eapply quiet_trans; [|exact Q5]. eapply quiet_trans; [|apply S4].
      by apply quiet_of.
    + intros q Hq. by apply HL in Hq as [].
    + intros q. rewrite A5, (s_app _ _ S4). cbn [app tell]. rewrite HK. symmetry. apply HL.
  - rewrite M5, (s_map _ _ S4). cbn [m_mapSessions tell]. by rewrite (s_map _ _ S2).
Qed.

(** ** The calls of a callback *)
Lemma moves_refl w : knows w -> moves w w.
Proof. constructor; [apply quiet_refl|done|done]. Qed.

Lemma moves_trans w1 w2 w3 : moves w1 w2 -> moves w2 w3 -> moves w1 w3.
Proof. intros [Q1 L1 _] [Q2 L2 K]. constructor; [by eapply quiet_trans|auto|done]. Qed.

Lemma steady_moves w w' : steady w w' -> knows w -> moves w w'.
Proof.
  intros S K. constructor; [apply S| |by eapply steady_knows]. intros p. apply (s_live _ _ S).
Qed.

(** What an action does: the sessions it may not close stay. *)
Definition acted (c : callback) (w : world H) (r : option (world H)) : Prop :=
  exists w', r = Some w' /\ inv None None w' /\ moves w w' /\
    (forall q, live w q -> may_close c q = false -> live w' q) /\
    (size (m_mapSessions w') <= size (m_mapSessions w))%nat.

Lemma keeps_acted c w r : knows w -> keeps None None w r -> acted c w r.
Proof.
  intros K (w' & -> & I & S). exists w'. split; [done|]. split; [done|].
  split; [by apply steady_moves|]. split; [|by rewrite (s_map _ _ S)].
  intros q Hq _. by apply S.
Qed.

Lemma close_ok depth c p w :
  inv None None w -> knows w -> live w p -> may_close c p = true ->
  (size (m_mapSessions w) < depth)%nat ->
  exists w', act handler depth (CloseSession p) w = Some w' /\ inv None None w' /\ moves w w' /\
    (forall q, live w q -> q <> p -> live w' q) /\
    (size (m_mapSessions w') <= size (m_mapSessions w))%nat.
Proof.
  intros I K Hl Hc Hd. pose proof Hl as (s & k & E & Hk).
  destruct (inv_session _ _ _ _ _ _ I E Hk) as (cv & pt & [Hb _] & _ & _ & _ & Ec & _).
  destruct depth as [|depth]; [lia|]. cbn [act]. rewrite E. cbn [mbind option_bind].
  unfold getSessionId. rewrite Hk, Ec.
  destruct (m_mapSessions w !! cv) as [q0|] eqn:Em.
  2: { exists w. split; [done|]. split; [done|]. split; [by apply moves_refl|]. split; [auto|lia]. }
  set (w1 := set_map _ w).
  change (fun c0 w0 => let '(h, acts) := handler c0 (app w0) in
            foldl (fun r a => w2 ← r; act handler depth a w2) (Some (tell c0 h w0)) acts)
    with (notify_d handler depth).
  assert (inv None None w1) as I1 by (by apply erase_inv).
  destruct (release_ok depth p w1) as (w2 & E2 & I2 & M2 & Map2 & L2 & N2);
    [by apply inv_ex|exact Hl|exact K|].
  exists w2. split; [exact E2|]. split; [|split; [|split]].
  - apply (inv_drop p); [done|]. intros c' Hc'. rewrite Map2 in Hc'. subst w1.
    cbn [m_mapSessions set_map] in Hc'. apply lookup_delete_Some in Hc' as [Hne Hc'].
    destruct (i_map _ _ _ I c' p Hc') as [Hb' _]. by rewrite (born_unique _ _ _ _ _ _ I Hb Hb') in Hne.
  - destruct M2 as [Q V KN]. constructor; [|exact V|exact KN].
    eapply quiet_trans; [|exact Q]. by apply quiet_of.
  - intros q Hq Hne. apply L2. by split.
  - rewrite Map2. subst w1. cbn [m_mapSessions set_map]. rewrite map_size_delete, Em. lia.
Qed.

Lemma actions_ok depth c K acts w :
  inv None None w -> knows w -> valid c K acts -> (forall q, q ∈ K -> live w q) ->
  (size (m_mapSessions w) < depth)%nat -> acted c w (do_actions handler depth acts w).
Proof.
  unfold do_actions. revert K w. induction acts as [|a acts IH]; intros K w I Kn V HK Hd.
  { exists w. split; [done|]. split; [done|]. split; [by apply moves_refl|]. by split. }
  cbn [foldl mbind option_bind].
  assert (exists K', acted c w (act handler depth a w) /\ valid c K' acts /\
    (forall w', act handler depth a w = Some w' -> forall q, q ∈ K' -> live w' q)) as (K' & Ka & Va & HK').
  { destruct (match a with CloseSession _ => true | _ => false end) eqn:Ea.
    - destruct a as [| | |p|]; try discriminate Ea. cbn [valid] in V. destruct V as [[Hp Hm] V].
      destruct (close_ok depth c p w I Kn (HK p Hp) Hm Hd) as (w' & E' & I' & M' & L' & Sz).
      exists (K ∖ {[p]}). split; [|split; [done|]].
      + exists w'. split; [done|]. split; [done|]. split; [done|]. split; [|done].
        intros q Hq Hmq. apply L'; [done|]. intros ->. congruence.
      + intros w1 E1 q Hq. rewrite E' in E1. injection E1 as <-.
        apply elem_of_difference in Hq as [Hq Hne]. apply L'; [auto|].
        intros ->. apply Hne. by apply elem_of_singleton.
    - assert (keeps None None w (act handler depth a w) /\ valid c K acts) as [Ka Va].
      { destruct a; try discriminate Ea; cbn [valid] in V;
          (destruct V as [V1 V2] || rename V into V2); (split; [|done]); destruct depth; cbn [act].
        1,2: apply sendData_keeps; [done|apply HK, V1|apply V1].
        1,2: apply sendMsg_keeps; [done|apply HK, V1|apply V1].
        1,2: apply flushKcp_keeps; auto.
        all: by apply createSession_keeps. }
      exists K. split; [by apply keeps_acted|]. split; [done|]. intros w' E' q Hq.
      destruct Ka as (w1 & E1 & _ & S1). rewrite E1 in E'. injection E' as <-. by apply S1, HK. }
  destruct Ka as (w1 & E1 & I1 & M1 & L1 & Sz1). rewrite E1.
  destruct (IH K' w1 I1 (v_known _ _ M1) Va) as (w2 & E2 & I2 & M2 & L2 & Sz2);
    [by apply HK'|lia|].
  exists w2. split; [done|]. split; [done|]. split; [by eapply moves_trans|].
  split; [auto|lia].
Qed.

(** A callback: [pd] is the message it brings, if any. *)
Lemma notify_ok c w :
  inv None (msg_of c) w -> (forall p m, msg_of c = Some (p, m) -> live w p) ->
  (forall p, p ∈ expected c (known (app w)) <-> live w p) ->
  acted c w (notify handler c w).
Proof.
  intros I Hm HK. unfold notify, notify_d.
  destruct (handler c (app w)) as [h acts] eqn:Eh.
  pose proof (known_step c (app w)) as Hk. rewrite Eh in Hk. cbn [fst] in Hk.
  pose proof (acts_valid c (app w)) as Hv. rewrite Eh in Hv. cbn [snd] in Hv.
  assert (inv None None (tell c h w)) as I1 by (by eapply tell_inv).
  destruct (actions_ok (S (size (m_mapSessions w))) c (expected c (known (app w))) acts
              (tell c h w) I1) as (w' & E & I' & [Q L K] & Lv & Sz).
  - intros p. cbn [app tell]. rewrite Hk. apply HK.
  - exact Hv.
  - intros q Hq. by apply HK.
  - cbn [m_mapSessions tell]. lia.
  - exists w'. split; [exact E|]. split; [done|]. split; [|by split].
    constructor; [|done|done]. eapply quiet_trans; [|exact Q]. by apply quiet_of.
Qed.

(** ** KcpSessionBase::update *)
Lemma received_ok d : (0 < length d)%nat ->
  exists pk, UdpPacket.received (length d) d = Some pk /\ pack_bytes pk = d /\
    (4 <= ByteBuffer.size pk)%nat /\ ByteBuffer.wpos pk = length d /\ ByteBuffer.rpos pk = 4%nat.
Proof.
  intros Hd. unfold UdpPacket.received.
  set (b := UdpPacket.initSize _ _).
  assert (length d <= ByteBuffer.size b /\ 4 <= ByteBuffer.size b /\ ByteBuffer.rpos b = 4)%nat
    as (H1 & H2 & H3).
  { subst b. unfold UdpPacket.initSize. change (ByteBuffer.size (UdpPacket.create [])) with 4%nat.
    destruct (4 <? length d)%nat eqn:E; [apply Nat.ltb_lt in E|apply Nat.ltb_ge in E; by split].
    unfold ByteBuffer.size, ByteBuffer.vresize. cbn [ByteBuffer.storage ByteBuffer.rpos].
    rewrite length_app, length_take, length_replicate. cbn [length]. split; [|split]; [..|done];
      change (length (ByteBuffer.storage (UdpPacket.create []))) with 4%nat; lia. }
  rewrite ByteBufProps.put_ok by done. cbn [mbind option_bind]. eexists. split; [done|].
  unfold pack_bytes, ByteBuffer.size in *. cbn [ByteBuffer.set_wpos ByteBuffer.wpos
    ByteBuffer.storage ByteBuffer.rpos].
  rewrite take_0. rewrite app_nil_l.
  rewrite take_app_exact. split; [done|].
  rewrite length_app, length_drop. split; [lia|by split].
Qed.

Lemma onMsg_ok p packet w :
  inv None (Some (p, pack_bytes packet)) w -> live w p -> knows w ->
  (4 <= ByteBuffer.size packet)%nat ->
  exists w', _onMsg handler iclock p packet w = Some w' /\ inv None None w' /\ moves w w' /\
    live w' p.
Proof.
  intros I Hl K Hs. unfold _onMsg. destruct (read_clock iclock w) as [now w1] eqn:Ec.
  apply (f_equal snd) in Ec. cbn [snd] in Ec. subst w1.
  pose proof (clock_inv _ _ _ I) as I1. pose proof (clock_steady w) as S1.
  set (w1 := snd (read_clock iclock w)) in *.
  destruct (modify_keeps None (Some (p, pack_bytes packet)) p (set_talk now) w1 I1)
    as (w2 & -> & I2 & S2); [|done|].
  { apply S1. destruct Hl as (s & k & E & _). by eexists. }
  pose proof (steady_trans _ _ _ S1 S2) as S. cbn [mbind option_bind].
  unfold UdpPacket.getMsgType, BasePacket.getValue. rewrite ByteBufProps.read_at_ok by exact Hs.
  cbn [fmap option_fmap option_map mbind option_bind].
  match goal with |- context [notify handler ?c w2] =>
    destruct (notify_ok c w2) as (w' & -> & I' & M' & L' & _) end.
  - exact I2.
  - intros q m E. injection E as <- <-. by apply S.
  - intros q. cbn [expected]. by apply (steady_knows _ _ S).
  - exists w'. split; [done|]. split; [done|].
    split; [eapply moves_trans; [by apply steady_moves|done]|].
    apply L'; [by apply S|]. cbn [may_close]. by rewrite Nat.eqb_refl.
Qed.

Lemma peek_step p w s k :
  inv None None w -> heap w !! p = Some s -> m_kcp s = Some k -> 0 < ikcp_peeksize k ->
  exists d w', call p (OpRecv (ikcp_peeksize k)) w = Some (ikcp_peeksize k, d, w') /\
    Z.of_nat (length d) = ikcp_peeksize k /\ inv None (Some (p, d)) w' /\ steady w w'.
Proof.
  intros I E Hk Hp.
  destruct (inv_session _ _ _ _ _ _ I E Hk) as (c & pt & Hpt & Ecb & B & Sf & _).
  destruct (recv_bounded (ikcp_peeksize k) k B (sf_len _ Sf) Hp eq_refl)
    as (d & k' & Er & B' & Hd).
  assert (exec (OpRecv (ikcp_peeksize k)) k = Some (ikcp_peeksize k, d, k')) as Ee by done.
  exists d, (after_call p (OpRecv (ikcp_peeksize k)) s k k' w).
  split; [by eapply call_eq|]. split; [done|]. split; [|by apply after_call_steady].
  apply (call_inv [d] None None (Some (p, d)) p (OpRecv (ikcp_peeksize k)) w s k _ _ _ I E Hk eq_refl
           Ee B').
  - intros p0 p1 E0. unfold perform. rewrite E0, Ee. cbn [mbind option_bind].
    intros Ep. injection Ep as <-. cbn [got].
    rewrite (proj2 (Z.leb_le 0 (ikcp_peeksize k))) by lia. done.
  - cbn [pending_msg]. unfold of_ptr. cbn [fst snd]. by rewrite Nat.eqb_refl.
  - intros q Hq. cbn [pending_msg]. unfold of_ptr. cbn [fst].
    by rewrite (proj2 (Nat.eqb_neq p q)) by congruence.
Qed.

Lemma base_update_ok ms p w :
  inv None None w -> knows w -> live w p ->
  exists t w', base_update (_onMsg handler iclock p) ms p w = Some (t, w') /\
    inv None None w' /\ moves w w' /\ live w' p.
Proof.
  intros I K Hl. pose proof Hl as (s & k & E & Hk). unfold base_update.
  rewrite E. cbn [mbind option_bind]. rewrite Hk.
  edestruct (call_ok_step None None p (OpUpdate ms) w) as (r & d & w1 & -> & I1 & S1 & _);
    [done|done|done|done|done|]. specialize (S1 ltac:(done)). cbn [mbind option_bind].
  destruct (proj2 (s_live _ _ S1 p) Hl) as (s1 & k1 & E1 & Hk1).
  rewrite E1. cbn [mbind option_bind]. rewrite Hk1. cbn [mbind option_bind].
  pose proof (steady_moves _ _ S1 K) as M1.
  assert (exists w2, (if 0 <? ikcp_peeksize k1 then
     '(r, d, w) ← call p (OpRecv (ikcp_peeksize k1)) w1;
     packet ← UdpPacket.received (Z.to_nat (ikcp_peeksize k1)) d;
     if 0 <? r then _onMsg handler iclock p packet w else Some w
   else Some w1) = Some w2 /\ inv None None w2 /\ moves w1 w2 /\ live w2 p)
    as (w2 & -> & I2 & M2 & L2).
  { destruct (0 <? ikcp_peeksize k1) eqn:Ep; bool_arith.
    2: { exists w1. split; [done|]. split; [done|]. split; [apply moves_refl, M1|by apply S1]. }
    destruct (peek_step p w1 s1 k1 I1 E1 Hk1 Ep) as (d1 & w2 & -> & Hd & I2 & S2).
    cbn [mbind option_bind]. rewrite <- Hd, Nat2Z.id.
    destruct (received_ok d1) as (pk & -> & Hpk & Hsz & _); [lia|]. cbn [mbind option_bind].
    rewrite (proj2 (Z.ltb_lt 0 (Z.of_nat (length d1)))) by lia.
    rewrite <- Hpk in I2.
    destruct (onMsg_ok p pk w2 I2) as (w3 & E3 & I3 & M3 & L3); [by apply S2, S1| |done|].
    { apply (steady_knows _ _ S2), M1. }
    exists w3. split; [done|]. split; [done|]. split; [|done].
    eapply moves_trans; [apply steady_moves; [exact S2|apply M1]|exact M3]. }
  cbn [mbind option_bind]. pose proof L2 as (s2 & k2 & E2 & Hk2).
  unfold check_kcp. rewrite E2. cbn [mbind option_bind]. rewrite Hk2. cbn [mbind option_bind].
  eexists _, w2. split; [done|]. split; [done|]. split; [by eapply moves_trans|done].
Qed.

(** ** Timers *)
Lemma set_update_ok t p w0 w :
  inv None None w -> moves w0 w -> is_Some (heap w !! p) ->
  exists w', modify p (set_update t) w = Some w' /\ inv None None w' /\ moves w0 w' /\
    is_Some (heap w' !! p).
Proof.
  intros I M Hp. destruct (modify_keeps None None p (set_update t) w I Hp) as (w' & -> & I' & S);
    [done|]. exists w'. split; [done|]. split; [done|]. split; [|by apply S].
  eapply moves_trans; [exact M|]. apply steady_moves; [done|apply M].
Qed.

Lemma live_dom w p : live w p -> is_Some (heap w !! p).
Proof. intros (s & k & E & _). by exists s. Qed.

Lemma updateKcp_ok p w :
  inv None None w -> knows w -> live w p ->
  exists w', updateKcp handler iclock p w = Some w' /\ inv None None w' /\ moves w w'.
Proof.
  intros I K Hl. unfold updateKcp. destruct (read_clock iclock w) as [now w1] eqn:Ec.
  apply (f_equal snd) in Ec. cbn [snd] in Ec. subst w1.
  pose proof (clock_inv _ _ _ I) as I1. pose proof (clock_steady w) as S1.
  destruct (base_update_ok now p _ I1 (steady_knows _ _ S1 K) Hl) as (t & w2 & -> & I2 & M2 & L2).
  cbn [mbind option_bind].
  destruct (set_update_ok t p _ w2 I2 M2) as (w3 & -> & I3 & M3 & _); [by apply live_dom|].
  exists w3. split; [done|]. split; [done|]. eapply moves_trans; [|exact M3].
  by apply steady_moves.
Qed.

Lemma update_ok p w :
  inv None None w -> knows w -> is_Some (heap w !! p) ->
  exists w', update handler iclock p w = Some w' /\ inv None None w' /\ moves w w'.
Proof.
  intros I K Hp. unfold update. destruct (read_clock iclock w) as [now w1] eqn:Ec.
  apply (f_equal snd) in Ec. cbn [snd] in Ec. subst w1.
  pose proof (clock_inv _ _ _ I) as I1. pose proof (clock_steady w) as S1.
  set (w1 := snd (read_clock iclock w)) in *.
  pose proof (steady_moves _ _ S1 K) as M1. pose proof (proj2 (s_dom _ _ S1 p) Hp) as Hp1.
  pose proof Hp1 as [s E]. rewrite E. cbn [mbind option_bind].
  assert (exists t w2, base_update (_onMsg handler iclock p) now p w1 = Some (t, w2) /\
    inv None None w2 /\ moves w1 w2 /\ is_Some (heap w2 !! p)) as (t & w2 & Eb & I2 & M2 & Hp2).
  { destruct (m_kcp s) as [k|] eqn:Hk.
    - destruct (base_update_ok now p w1 I1 (v_known _ _ M1)) as (t & w2 & E2 & I2 & M2 & L2);
        [by exists s, k|]. exists t, w2. split; [done|]. split; [done|]. split; [done|].
      by apply live_dom.
    - exists 0, w1. unfold base_update. rewrite E. cbn [mbind option_bind]. rewrite Hk.
      split; [done|]. split; [done|]. split; [apply moves_refl, M1|done]. }
  assert (exists w3, (if m_nUpdateTime s <=? now then
      '(time, w) ← base_update (_onMsg handler iclock p) now p w1; modify p (set_update time) w
    else Some w1) = Some w3 /\ inv None None w3 /\ moves w w3 /\ is_Some (heap w3 !! p))
    as (w3 & -> & I3 & M3 & Hp3).
  { case_match; [|by exists w1]. rewrite Eb. cbn [mbind option_bind].
    apply (set_update_ok t p w w2 I2); [by eapply moves_trans|done]. }
  cbn [mbind option_bind]. destruct Hp3 as [s3 E3]. rewrite E3. cbn [mbind option_bind].
  case_match; [|by exists w3].
  destruct (notify_ok (OnUdpTimeout p) w3 I3) as (w4 & -> & I4 & M4 & _); [done|apply M3|].
  exists w4. split; [done|]. split; [done|]. by eapply moves_trans.
Qed.

(** ** A new session *)
Definition new_session (id : Z) (addr : sockaddr) (w : world H) : world H :=
  mkworld (<[fresh w := set_addr (take SOCKADDR_SIZE addr)
                          (set_kcp (Some (ikcp_create id)) (create (30 * 1000)))]> (heap w))
    (S (fresh w)) (m_mapSessions w) (gSessionid w) (buff w) (wire w) (calls w) (app w)
    (log w) (api w) (born w ++ [(fresh w, id)]).

Lemma init_new id addr w :
  KcpSession.init id addr (fresh w) (snd (createConnect w)) = Some (new_session id addr w).
Proof.
  unfold KcpSession.init, createConnect, modify, new_session. cbn [snd heap].
  rewrite lookup_insert_eq. cbn [mbind option_bind heap set_heap fresh m_mapSessions gSessionid
    buff wire calls KcpSession.app log api born]. by rewrite insert_insert_eq.
Qed.

Lemma new_session_live id addr w q : inv None None w ->
  live (new_session id addr w) q <-> live w q \/ q = fresh w.
Proof.
  intros I. unfold live, new_session. cbn [heap].
  destruct (decide (q = fresh w)) as [->|Hq].
  - rewrite lookup_insert_eq. split; [by right|]. intros _. by eexists _, _.
  - rewrite lookup_insert_ne by done. split; [by left|by intros [?|?]].
Qed.

Lemma new_session_inv id addr w :
  0 <= id < 2 ^ 32 -> inv None None w -> inv None None (new_session id addr w).
Proof.
  intros Hid I. pose proof (fun q => new_session_live id addr w q I) as HL.
  set (w' := new_session id addr w) in *.
  assert (forall c, (fresh w, c) ∉ born w) as Hnew.
  { intros c Hc. destruct (i_born _ _ _ I _ _ Hc). lia. }
  assert (forall q c, (q, c) ∈ born w' <-> (q, c) ∈ born w \/ (q = fresh w /\ c = id)) as HB.
  { intros q c. subst w'. cbn [born new_session]. rewrite list.elem_of_app, list_elem_of_singleton.
    by rewrite pair_equal_spec. }
  constructor.
  - intros q [s E]. subst w'. cbn [heap new_session fresh] in *.
    destruct (decide (q = fresh w)) as [->|Hq]; [lia|].
    rewrite lookup_insert_ne in E by done.
    assert (q < fresh w)%nat by (apply (i_heap _ _ _ I); by exists s). lia.
  - intros q c [Hc|[-> ->]]%HB; cbn [w' fresh new_session]; [|lia].
    destruct (i_born _ _ _ I _ _ Hc). lia.
  - intros q Hq. cbn [w' fresh new_session] in Hq. apply (i_new _ _ _ I). lia.
  - subst w'. cbn [born new_session]. rewrite fmap_app.
    apply list.NoDup_app. split; [apply I|]. split; [|apply list.NoDup_singleton].
    intros q Hq1 Hq2. apply list_elem_of_singleton in Hq2 as ->.
    apply list_elem_of_fmap in Hq1 as ([q c] & Eq & Hc). cbn in Eq. subst q. by destruct (Hnew c).
  - intros q c [Hc|[-> ->]]%HB.
    + destruct (i_party _ _ _ I q c Hc) as (pt & Hr & Hb & Hg & Hcb). exists pt.
      split; [done|]. split; [done|]. split; [done|]. intros s k E. subst w'.
      cbn [heap new_session] in E. rewrite lookup_insert_ne in E; [by apply Hcb|].
      intros <-. by destruct (Hnew c).
    + destruct (i_new _ _ _ I (fresh w)) as [E1 E2]; [lia|].
      exists (KcpNet.init id 1400). change (ops_of (fresh w) w') with (ops_of (fresh w) w).
      change (msgs_of (fresh w) w') with (msgs_of (fresh w) w). rewrite E1, E2.
      split; [done|]. split; [apply bounded_create|]. split; [done|]. intros s k E Hk. subst w'.
      cbn [heap new_session] in E. rewrite lookup_insert_eq in E. injection E as <-.
      by injection Hk as <-.
  - intros q [Hq| ->]%HL.
    + destruct (i_live _ _ _ I q Hq) as [c Hc]. exists c. apply HB. by left.
    + exists id. apply HB. by right.
  - intros c q Hq. destruct (i_map _ _ _ I c q Hq) as [Hb [Hl|He]]; [|done].
    split; [apply HB; by left|left; apply HL; by left].
  - intros a d Hd. destruct (i_wire _ _ _ I a d Hd) as [?|(q & c & pt & [Hb Hr] & Ho)];
      [by left|right]. exists q, c, pt. split; [|done]. split; [apply HB; by left|done].
  - apply (i_buff _ _ _ I).
Qed.

Lemma open_session_ok id addr w :
  inv None None w -> 0 <= id < 2 ^ 32 ->
  exists w', open_session iclock id addr w = Some (fresh w, w') /\ inv None None w' /\
    (forall q, live w' q <-> live w q \/ q = fresh w) /\ app w' = app w /\
    born w' = born w ++ [(fresh w, id)] /\ gSessionid w' = gSessionid w /\
    exists l, api w' = api w ++ l /\ forall p d, (p, OpInput d) ∉ l.
Proof.
  intros I Hid. unfold open_session. pose proof (init_new id addr w) as En.
  destruct (createConnect w) as [p w1] eqn:Ec. assert (p = fresh w) as -> by (by injection Ec).
  cbn [snd] in En. rewrite En. cbn [mbind option_bind].
  pose proof (new_session_inv id addr w Hid I) as I2. set (w2 := new_session id addr w) in *.
  assert (live w2 (fresh w)) as L2 by (apply new_session_live; [done|by right]).
  unfold onKcp. destruct (call_ok_step None None (fresh w) (OpNodelay 1 10 2 1) w2)
    as (r & d & w3 & -> & I3 & S3 & _); [done..|]. cbn [mbind option_bind].
  specialize (S3 ltac:(done)). unfold start.
  destruct (read_clock iclock w3) as [now w4] eqn:Ek.
  apply (f_equal snd) in Ek. cbn [snd] in Ek. subst w4.
  pose proof (clock_inv _ _ _ I3) as I4. pose proof (clock_steady w3) as S4.
  set (w4 := snd (read_clock iclock w3)) in *.
  destruct (modify_keeps None None (fresh w) (fun s => set_timer (Some 10) (set_talk now s)) w4 I4)
    as (w5 & -> & I5 & S5); [|done|].
  { apply S4, S3. by apply live_dom. }
  cbn [mbind option_bind]. pose proof (steady_trans _ _ _ S3 (steady_trans _ _ _ S4 S5)) as S.
  eexists. split; [done|].
  assert (forall q, live w5 q <-> live w q \/ q = fresh w) as HL.
  { intros q. rewrite (s_live _ _ S q). by apply new_session_live. }
  split; [|split; [exact HL|split; [|split; [|split]]]].
  - destruct I5. constructor; try done. intros c q Hq. cbn [m_mapSessions set_map] in Hq.
    destruct (decide (c = id)) as [->|Hne].
    + rewrite lookup_insert_eq in Hq. injection Hq as <-. split; [|left; apply HL; by right].
      change ((fresh w, id) ∈ born w5). rewrite (q_born _ _ _ (s_quiet _ _ S)). subst w2.
      cbn [born new_session]. apply list.elem_of_app. right. by apply list_elem_of_singleton.
    + rewrite lookup_insert_ne in Hq by done. by apply i_map0.
  - exact (s_app _ _ S).
  - exact (q_born _ _ _ (s_quiet _ _ S)).
  - exact (q_id _ _ _ (s_quiet _ _ S)).
  - destruct (q_api _ _ _ (s_quiet _ _ S)) as (l & El & Hl). exists l. split; [exact El|].
    intros q dg Hq. exact (Hl q dg Hq).
Qed.

(** ** Datagrams *)
Definition setup_test (server : bool) (len : nat) (w : world H) : bool :=
  (Z.of_nat len =? SESSION_PACKET_SIZE) &&
  (if server then buffer_conv w =? 0 else 0 <? buffer_conv w) &&
  (match buffer_code w with Some c => c =? SETUP_SESSION_CODE | None => false end).

(** Fewer than 2^30 acknowledgements are pending at any session. *)
Definition backlog_ok (w : world H) : Prop :=
  forall p s k, heap w !! p = Some s -> m_kcp s = Some k -> ackcount k + 65536 < 2 ^ 30.

Definition event_ok (e : event) : Prop :=
  match e with Datagram _ d => bytes_ok d | _ => True end.

Record effect (D : ptr -> list Z -> Prop) (b : list (ptr * Z)) (w w' : world H) : Prop := mk_effect {
  e_api : exists l, api w' = api w ++ l /\ forall p d, (p, OpInput d) ∈ l -> D p d;
  e_born : born w' = born w ++ b
}.

Lemma quiet_effect D w w' : quiet none w w' -> effect D [] w w'.
Proof.
  intros Q. apply (quiet_weaken D) in Q. constructor; [apply Q|]. by rewrite (q_born _ _ _ Q), app_nil_r.
Qed.

Lemma effect_quiet D b w1 w2 w3 : effect D b w1 w2 -> quiet none w2 w3 -> effect D b w1 w3.
Proof.
  intros [(l1 & E1 & H1) B1] Q%(quiet_weaken D).
  destruct (q_api _ _ _ Q) as (l2 & E2 & H2). constructor; [|by rewrite (q_born _ _ _ Q), B1].
  exists (l1 ++ l2). rewrite E2, E1, app_assoc. split; [done|].
  intros p d [?|?]%list.elem_of_app; eauto.
Qed.

Lemma modify_map p f (w w' : world H) :
  modify p f w = Some w' -> m_mapSessions w' = m_mapSessions w.
Proof.
  unfold modify. destruct (heap w !! p); cbn [mbind option_bind]; [|done].
  intros E. by injection E as <-.
Qed.

Lemma session_input_ok cv len w :
  inv None None w -> knows w -> backlog_ok w -> (len <= bufflen)%nat ->
  exists w', session_input handler iclock cv len w = Some w' /\ inv None None w' /\ knows w' /\
    effect (fun p d => m_mapSessions w !! cv = Some p /\ d = take len (buff w)) [] w w' /\
    gSessionid w' = gSessionid w /\
    ((len < 24)%nat -> forall p, m_mapSessions w !! cv = Some p ->
       heap w' !! p = None /\ m_mapSessions w' !! cv = None).
Proof.
  intros I K Hb Hlen. unfold session_input.
  set (D := fun (p : ptr) (d : list Z) => m_mapSessions w !! cv = Some p /\ d = take len (buff w)).
  destruct (m_mapSessions w !! cv) as [p|] eqn:Em.
  2: { exists w. split; [done|]. split; [done|]. split; [done|]. split; [|done].
       apply quiet_effect, quiet_refl. }
  destruct (i_map _ _ _ I cv p Em) as [Hbn [Hl|?]]; [|done].
  destruct (i_buff _ _ _ I) as [Hbl Hby].
  unfold recv. destruct (call_ok_step None None p (OpInput (take len (buff w))) w)
    as (r & d & w1 & -> & I1 & _ & s & k & k' & E & Hk & -> & Ee); [done|done|done| | |].
  { cbn [session_op]. apply Nat.leb_le. rewrite length_take. unfold max_datagram, bufflen in *. lia. }
  { intros s k E Hk _. cbn [op_ok]. apply andb_true_iff. split.
    - by apply bytes_ok_okb, bytes_ok_take.
    - apply Z.ltb_lt. specialize (Hb p s k E Hk). rewrite length_take. unfold bufflen in *. lia. }
  cbn [mbind option_bind]. set (w1 := after_call _ _ _ _ _ w) in *.
  assert (forall q, live w1 q <-> live w q) as L1 by (intros q; by apply after_call_live).
  assert (knows w1) as K1 by (intros q; rewrite L1; apply K).
  assert (effect D [] w w1) as F1.
  { constructor; [|by rewrite app_nil_r]. exists [(p, OpInput (take len (buff w)))].
    split; [done|]. intros q dg Hq%list_elem_of_singleton. injection Hq as -> ->. by split. }
  assert ((len < 24)%nat -> r = -1) as Hr.
  { intros Hlt. cbn [exec] in Ee. rewrite input_short in Ee by (rewrite length_take; lia).
    by injection Ee. }
  destruct (r =? 0) eqn:Er.
  - destruct (updateKcp_ok p w1 I1 K1) as (w2 & -> & I2 & M2); [by apply L1|].
    exists w2. split; [done|]. split; [done|]. split; [apply M2|].
    split; [by eapply effect_quiet; [exact F1|apply M2]|].
    split; [by rewrite (q_id _ _ _ (v_quiet _ _ M2))|]. intros Hlt. rewrite Hr in Er by done.
    discriminate Er.
  - destruct (release_ok (S (size (m_mapSessions w1))) p w1 (inv_ex p _ _ I1)) as
      (w2 & E2 & I2 & M2 & Map2 & L2 & N2); [by apply L1|done|].
    assert (release (notify handler) p w1 = Some w2) as E2'.
    { rewrite <- E2. unfold release. destruct (destory p w1) as [wa|] eqn:Ea; [|done].
      cbn [mbind option_bind]. destruct (over p wa) as [wb|] eqn:Eb; [|done].
      cbn [mbind option_bind]. unfold notify.
      by rewrite (modify_map _ _ _ _ Eb), (modify_map _ _ _ _ Ea). }
    assert (m_mapSessions w2 = m_mapSessions w) as Mw by exact Map2.
    rewrite E2'. cbn [mbind option_bind]. rewrite Mw, Em, Nat.eqb_refl. eexists. split; [done|].
    assert (inv None None (set_map (delete cv (m_mapSessions w2)) w2)) as I3.
    { apply (inv_drop p); [by apply erase_inv|]. intros c' Hc'.
      cbn [m_mapSessions set_map] in Hc'. apply lookup_delete_Some in Hc' as [Hne Hc'].
      rewrite Mw in Hc'. destruct (i_map _ _ _ I c' p Hc') as [Hb' _].
      by rewrite (born_unique _ _ _ _ _ _ I Hbn Hb') in Hne. }
    rewrite Mw in I3.
    split; [exact I3|]. split; [exact (v_known _ _ M2)|]. split.
    + eapply effect_quiet; [exact F1|]. eapply quiet_trans; [apply M2|]. by apply quiet_of.
    + split; [exact (q_id _ _ _ (v_quiet _ _ M2))|]. intros _ p' Ep. injection Ep as <-.
      split; [exact N2|]. cbn [m_mapSessions set_map]. apply lookup_delete_eq.
Qed.

Lemma fill_inv d w : inv None None w -> bytes_ok d -> inv None None (fill d w).
Proof.
  intros I Hd. destruct (i_buff _ _ _ I) as [Hl Hb]. destruct I. constructor; try done.
  unfold fill. cbn [buff set_buff]. split.
  - rewrite length_take, length_app, length_drop. lia.
  - apply bytes_ok_take, bytes_ok_app. split; [done|by apply bytes_ok_drop].
Qed.

Lemma fill_take d (w : world H) :
  length (buff w) = bufflen ->
  take (Nat.min (length d) bufflen) (buff (fill d w)) = take bufflen d.
Proof.
  intros Hl. unfold fill. cbn [buff set_buff]. rewrite take_take.
  destruct (decide (length d <= bufflen)%nat) as [Hd|Hd].
  - rewrite Nat.min_l, Nat.min_l by lia. rewrite (take_ge d) by done. apply take_app_exact.
  - rewrite Nat.min_r by lia. apply take_app_le. lia.
Qed.

Lemma buffer_conv_range w : inv None None w -> 0 <= buffer_conv w < 2 ^ 32.
Proof.
  intros I. destruct (i_buff _ _ _ I) as [Hl Hb].
  unfold buffer_conv, ikcp_getconv, ikcp_decode32u. cbn [fst].
  pose proof (le_val_range (take 4 (buff w)) (bytes_ok_take _ _ Hb)) as Hr.
  rewrite length_take in Hr. replace (Nat.min 4 (length (buff w))) with 4%nat in Hr;
    [exact Hr|]. rewrite Hl. unfold bufflen. lia.
Qed.

Lemma buffer_code_some w : inv None None w -> exists c, buffer_code w = Some c.
Proof.
  intros I. destruct (i_buff _ _ _ I) as [Hl _]. unfold buffer_code.
  destruct (lookup_lt_is_Some_2 (buff w) 4) as [c ->]; [rewrite Hl; unfold bufflen; lia|by exists c].
Qed.

(** The sessions a step creates, and which inputs it makes. *)
Definition new_ids (server : bool) (e : event) (w : world H) : list (ptr * Z) :=
  match e with
  | Datagram _ d =>
      if setup_test server (Nat.min (length d) bufflen) (fill d w) then
        [(fresh w, if server then u32 (gSessionid w + 1) else buffer_conv (fill d w))]
      else []
  | _ => []
  end.

Definition dispatched (server : bool) (e : event) (w : world H) (p : ptr) (d : list Z) : Prop :=
  exists a d0, e = Datagram a d0 /\ d = take bufflen d0 /\
    m_mapSessions w !! buffer_conv (fill d0 w) = Some p /\
    setup_test server (Nat.min (length d0) bufflen) (fill d0 w) = false.

Definition next_id (server : bool) (e : event) (w : world H) : Z :=
  if server then match new_ids server e w with [] => gSessionid w | _ => u32 (gSessionid w + 1) end
  else gSessionid w.

Lemma backlog_fill d w : backlog_ok w -> backlog_ok (fill d w).
Proof. intros Hb p s k. exact (Hb p s k). Qed.

(** The server's and the client's [onMessage] from the tests on. *)
Definition on_message (server : bool) (addr : sockaddr) (len : nat) (w : world H) : option (world H) :=
  (if server then server_onMessage handler iclock else client_onMessage handler iclock) addr len w.

Lemma setup_len server len w : setup_test server len w = true -> len = 5%nat.
Proof. unfold setup_test, SESSION_PACKET_SIZE. intros Ht. bool_arith. lia. Qed.

Lemma accept_ok id addr w (tail : world H -> world H) c :
  inv None None w -> knows w -> 0 <= id < 2 ^ 32 ->
  (forall w', inv None None w' -> gSessionid w' = gSessionid w -> inv None None (tail w')) ->
  (forall w', steady w' (tail w')) ->
  msg_of (c (fresh w)) = None -> (forall K, expected (c (fresh w)) K = {[fresh w]} ∪ K) ->
  exists w', ('(p, w) ← open_session iclock id addr w; notify handler (c p) (tail w)) = Some w' /\
    inv None None w' /\ knows w' /\ effect (fun _ _ => False) [(fresh w, id)] w w' /\
    gSessionid w' = gSessionid w.
Proof.
  intros I K Hid Ht St Hm He.
  destruct (open_session_ok id addr w I Hid) as (w1 & -> & I1 & L1 & A1 & B1 & G1 & l & El & Hl).
  cbn [mbind option_bind].
  destruct (notify_ok (c (fresh w)) (tail w1)) as (w2 & -> & I2 & M2 & _ & _).
  - rewrite Hm. by apply Ht.
  - by rewrite Hm.
  - intros p. rewrite He, (s_app _ _ (St w1)), A1, (s_live _ _ (St w1) p), L1.
    rewrite elem_of_union, elem_of_singleton, (K p). tauto.
  - exists w2. split; [done|]. split; [done|]. split; [apply M2|].
    pose proof (quiet_trans _ _ _ _ (s_quiet _ _ (St w1)) (v_quiet _ _ M2)) as Q.
    split; [|by rewrite (q_id _ _ _ Q)].
    eapply effect_quiet; [|exact Q]. constructor; [|done]. exists l. split; [done|].
    intros p d Hd. exact (Hl p d Hd).
Qed.

Lemma effect_none D b w w' : effect (fun _ _ => False) b w w' -> effect D b w w'.
Proof.
  intros [(l & El & Hl) B]. constructor; [|done]. exists l. split; [done|].
  intros p d Hd. by destruct (Hl p d Hd).
Qed.

Lemma on_message_ok server addr len w :
  inv None None w -> knows w -> backlog_ok w -> (len <= bufflen)%nat ->
  exists w', on_message server addr len w = Some w' /\ inv None None w' /\ knows w' /\
    effect (fun p d => m_mapSessions w !! buffer_conv w = Some p /\ d = take len (buff w) /\
              setup_test server len w = false)
      (if setup_test server len w
       then [(fresh w, if server then u32 (gSessionid w + 1) else buffer_conv w)] else []) w w' /\
    gSessionid w' = (if server && setup_test server len w then u32 (gSessionid w + 1)
                     else gSessionid w) /\
    ((0 < len < 24)%nat -> setup_test server len w = false ->
     forall p, m_mapSessions w !! buffer_conv w = Some p ->
       heap w' !! p = None /\ m_mapSessions w' !! buffer_conv w = None).
Proof.
  intros I K Hb Hlen.
  assert (exists w', (if Nat.eqb len 0 then Some w else session_input handler iclock (buffer_conv w) len w)
      = Some w' /\ inv None None w' /\ knows w' /\
    effect (fun p d => m_mapSessions w !! buffer_conv w = Some p /\ d = take len (buff w)) [] w w' /\
    gSessionid w' = gSessionid w /\
    ((0 < len < 24)%nat -> forall p, m_mapSessions w !! buffer_conv w = Some p ->
       heap w' !! p = None /\ m_mapSessions w' !! buffer_conv w = None)) as Hin.
  { destruct (Nat.eqb len 0) eqn:E0.
    - exists w. split; [done|]. split; [done|]. split; [done|].
      split; [apply quiet_effect, quiet_refl|]. split; [done|]. apply Nat.eqb_eq in E0. lia.
    - destruct (session_input_ok (buffer_conv w) len w I K Hb Hlen) as (w' & E & I' & K' & F & G & N).
      exists w'. do 5 (split; [done|]). intros [_ Hlt]. by apply N. }
  destruct (buffer_code_some w I) as [code Ec]. pose proof (buffer_conv_range w I) as Hr.
  unfold on_message, server_onMessage, client_onMessage.
  destruct (setup_test server len w) eqn:Ht.
  - pose proof (setup_len _ _ _ Ht) as ->. unfold setup_test in Ht. rewrite Ec in Ht.
    destruct server; cbv beta zeta; cbn [Nat.eqb andb]; rewrite Ec; cbn [mbind option_bind];
      rewrite Ht.
    + set (id := u32 (gSessionid w + 1)).
      assert (0 <= id < 2 ^ 32) as Hid by (apply wrap_range; lia).
      assert (inv None None (set_gSessionid id w)) as I0 by (destruct I; by constructor).
      destruct (accept_ok id addr (set_gSessionid id w)
                  (fun w => add_wire [(addr, setup_packet (gSessionid w))] w) OnAccept I0 K Hid)
        as (w' & E & I' & K' & [(l & El & Hl) B] & G); [|by intros; apply add_wire_steady|done|done|].
      { intros w' Hw' ->. by apply setup_inv. }
      exists w'. split; [exact E|]. split; [done|]. split; [done|]. split; [|by split].
      apply effect_none. constructor; [|exact B]. by exists l.
    + destruct (accept_ok (buffer_conv w) addr w (fun w => w) OnConnect I K Hr)
        as (w' & E & I' & K' & F & G); [done|intros; apply steady_refl|done|done|].
      exists w'. split; [exact E|]. split; [done|]. split; [done|].
      split; [by apply effect_none|by split].
  - destruct Hin as (w' & E & I' & K' & [(l & El & Hl) B] & G & N). exists w'.
    split; [|split; [done|split; [done|split; [|by rewrite andb_false_r; auto]]]].
    + rewrite <- E. unfold setup_test in Ht. rewrite Ec in Ht.
      destruct server; cbv beta zeta; rewrite Ec; cbn [mbind option_bind]; rewrite Ht;
        by destruct (Nat.eqb len 0).
    + constructor; [|done]. exists l. split; [done|]. intros p d Hd.
      destruct (Hl p d Hd). by split.
Qed.

(** A datagram shorter than a header closes the session it is for. *)
Lemma short_step server a d w p :
  inv None None w -> knows w -> backlog_ok w -> bytes_ok d -> (0 < length d < 24)%nat ->
  setup_test server (length d) (fill d w) = false ->
  m_mapSessions w !! buffer_conv (fill d w) = Some p ->
  exists w', step handler iclock server (Datagram a d) w = Some w' /\
    heap w' !! p = None /\ m_mapSessions w' !! buffer_conv (fill d w) = None.
Proof.
  intros I K Hb Hd Hlen Ht Hm. unfold step.
  rewrite Nat.min_l by (unfold bufflen; lia).
  destruct (on_message_ok server a (length d) (fill d w)) as (w' & E & _ & _ & _ & _ & N);
    [by apply fill_inv|exact K|by apply backlog_fill|unfold bufflen; lia|].
  exists w'. split; [by destruct server|]. by apply N.
Qed.

(** Every event a server or client handles. *)
Lemma step_ok server e w :
  inv None None w -> knows w -> backlog_ok w -> event_ok e ->
  exists w', step handler iclock server e w = Some w' /\ inv None None w' /\ knows w' /\
    effect (dispatched server e w) (new_ids server e w) w w' /\
    gSessionid w' = next_id server e w.
Proof.
  intros I K Hb He. unfold step, next_id, new_ids.
  assert (forall r, (exists w', r = Some w' /\ inv None None w' /\ moves w w') ->
    exists w', r = Some w' /\ inv None None w' /\ knows w' /\
      effect (dispatched server e w) [] w w' /\ gSessionid w' = gSessionid w) as Hmoves.
  { intros r (w' & -> & I' & M'). exists w'. split; [done|]. split; [done|]. split; [apply M'|].
    split; [apply quiet_effect, M'|apply M']. }
  destruct e as [a d|p|n].
  - cbn [event_ok] in He. set (len := Nat.min (length d) bufflen).
    destruct (on_message_ok server a len (fill d w)) as (w' & E & I' & K' & [(l & El & Hl) B] & G & _);
      [by apply fill_inv|exact K|by apply backlog_fill|apply Nat.le_min_r|].
    unfold on_message in E. exists w'. split; [by destruct server|]. split; [done|]. split; [done|].
    split.
    + constructor; [|exact B]. exists l. split; [exact El|]. intros p dg Hd.
      destruct (Hl p dg Hd) as (Hm & Hdg & Ht). exists a, d. split; [done|].
      rewrite Hdg. subst len. rewrite fill_take by apply I. by split.
    + rewrite G. by destruct server, (setup_test _ _ _).
  - assert (exists w', (if timer_on p w then update handler iclock p w else Some w) = Some w' /\
      inv None None w' /\ moves w w') as Hu.
    { destruct (timer_on p w) eqn:Et.
      - apply update_ok; [done|done|]. unfold timer_on in Et.
        destruct (heap w !! p); [by eexists|done].
      - exists w. split; [done|]. split; [done|]. by apply moves_refl. }
    destruct server; by apply Hmoves.
  - destruct (notify_ok (OnTask n) w I) as (w' & E & I' & M' & _); [done|apply K|].
    destruct server; (apply Hmoves; by exists w').
Qed.

End Props.
End KcpSessProps.
