(* ===== verification/KcpSessNet.v ===== *)
(** * KcpSessNet: a server and a client of KCP sessions over a network

    The safety of a server or client whatever arrives, and the reliability of
    its sessions: the calls the sessions with one id make on their control
    blocks are a run of the two endpoints of KcpNet. *)
From stdpp Require Import gmap.
From S2P Require Import Prelude Bytes ByteBuf Kcp KcpWire KcpRecv KcpSend KcpNet KcpConv KcpSess.
From S2P Require Import KcpSessProps.
Import Kcp KcpNet KcpConv KcpSession KcpSessProps.

#[local] Arguments wrap : simpl never.
#[local] Arguments sext : simpl never.
#[local] Arguments Z.of_nat : simpl never.

Module KcpSessNet.

(** ** Calls of a session as events of an endpoint *)
Definition side {A} (b : bool) (x y : A) : A * A := if b then (x, y) else (y, x).

Lemma run_app es es' s s1 :
  KcpNet.run es s = Some s1 -> KcpNet.run (es ++ es') s = KcpNet.run es' s1.
Proof. unfold KcpNet.run. intros E. by rewrite foldl_app, E. Qed.

(** An input a session may get: a datagram of its peer, or one too short. *)
Definition input_from (Q : party) (d : list Z) : Prop :=
  d ∈ outputs (cb Q) \/ (length d < 24)%nat.

Lemma call_events b o P P' Q :
  call_ok o P = Some P' -> (forall d, o = OpInput d -> input_from Q d) ->
  exists es, KcpNet.run es (side b P Q) = Some (side b P' Q).
Proof.
  unfold call_ok. intros Eok Hin. destruct (op_ok o (cb P)) eqn:Hok; [|done].
  assert (forall e, event_op e (cb Q) = Some o ->
    exists es, KcpNet.run es (side b P Q) = Some (side b P' Q)) as He.
  { intros e Ee. exists [(b, e)]. unfold KcpNet.run. cbn [foldl mbind option_bind].
    unfold sys_step, party_step. destruct b; cbn [fst snd side]; by rewrite Ee, Hok, Eok. }
  pose proof (He (Call o)) as Hc. destruct o as [| |d| | | |]; try (by apply Hc).
  destruct (Hin d eq_refl) as [Hd|Hd].
  - apply list_elem_of_lookup in Hd as [n Hn]. apply (He (Deliver n)). cbn [event_op]. by rewrite Hn.
  - exists []. revert Eok. unfold perform. cbn [exec]. rewrite input_short by done.
    cbn [mbind option_bind]. intros E. injection E as <-. by destruct P.
Qed.

Lemma replay_app c os ol P :
  replay c os = Some P -> replay c (os ++ ol) = foldl (fun r o => pt ← r; call_ok o pt) (Some P) ol.
Proof. unfold replay. intros E. by rewrite foldl_app, E. Qed.

Lemma foldl_none ol : foldl (fun r o => pt ← r; call_ok o pt) None ol = None.
Proof. induction ol as [|o ol IH]; [done|]. exact IH. Qed.

Lemma project b c os ol P P' Q es s :
  replay c os = Some P -> replay c (os ++ ol) = Some P' ->
  KcpNet.run es s = Some (side b P Q) ->
  (forall d, OpInput d ∈ ol -> input_from Q d) ->
  exists es', KcpNet.run es' s = Some (side b P' Q).
Proof.
  intros Hr Hr' Es Hin. rewrite (replay_app _ _ _ _ Hr) in Hr'. clear Hr.
  revert P es Es Hr'. induction ol as [|o ol IH]; intros P es Es Hr'.
  { injection Hr' as <-. by exists es. }
  cbn [foldl mbind option_bind] in Hr'.
  destruct (call_ok o P) as [P1|] eqn:E1; [|by rewrite foldl_none in Hr'].
  destruct (call_events b o P P1 Q E1) as [es1 Es1].
  { intros d ->. apply Hin, list_elem_of_here. }
  apply (IH ltac:(intros d Hd; apply Hin; by apply list_elem_of_further) P1 (es ++ es1)); [|done].
  by rewrite (run_app _ _ _ _ Es).
Qed.

Lemma getconv_app d e : (4 <= length d)%nat -> ikcp_getconv (d ++ e) = ikcp_getconv d.
Proof. intros Hd. unfold ikcp_getconv, ikcp_decode32u. cbn [fst]. by rewrite take_app_le. Qed.

(** The conversation the server or client finds for a datagram. *)
Lemma fill_conv {H} (d : list Z) (w : world H) :
  (4 <= length d <= bufflen)%nat -> buffer_conv (fill d w) = ikcp_getconv d.
Proof.
  intros Hd. unfold buffer_conv, fill. cbn [buff set_buff].
  unfold ikcp_getconv, ikcp_decode32u. cbn [fst]. rewrite take_take, Nat.min_l by (unfold bufflen in *; lia).
  by rewrite take_app_le by lia.
Qed.

Lemma setup_conv c : 0 <= c < 2 ^ 32 -> ikcp_getconv (setup_packet c) = c.
Proof.
  intros Hc. apply starts_conv; [|done]. unfold starts, setup_packet. apply take_le_bytes.
Qed.

Lemma setup_length c : length (setup_packet c) = 5%nat.
Proof. unfold setup_packet. by rewrite length_app, le_bytes_length. Qed.

(** ** Messages *)

(** The packet [sendMsg(msgtype, msg, len)] hands to [ikcp_send]. *)
Definition packed (msgtype : Z) (sv : list Z) : option ByteBuffer.t :=
  pack ← ByteBuffer.append (take (Z.to_nat (u32 (Z.of_nat (length sv)))) sv) (UdpPacket.create []);
  UdpPacket.writeHead msgtype pack.

Lemma packed_ok msgtype sv :
  Z.of_nat (length sv) < 2 ^ 31 - 4 ->
  packed msgtype sv = Some (ByteBuffer.mk (obj_bytes Tuint32 (u32 msgtype) ++ sv) 4 (4 + length sv)).
Proof.
  intros Hs. unfold packed. rewrite wrap_small, Nat2Z.id, take_ge by (unfold in_u; lia || done).
  rewrite ByteBufProps.append_at_end by done. cbn [mbind option_bind].
  unfold UdpPacket.writeHead, ByteBuffer.put_val. rewrite ByteBufProps.put_ok.
  - cbn [ByteBuffer.storage ByteBuffer.rpos ByteBuffer.wpos]. rewrite take_0, app_nil_l, obj_bytes_length.
    done.
  - rewrite obj_bytes_length. unfold ByteBuffer.size. cbn. lia.
Qed.

(**  A message's round trip.  What [onMsg] gets for the bytes of a message
    that [sendMsg] sent: its type, and a packet whose unread data is the
    message. *)
Theorem kcp_message_roundtrip msgtype sv :
  Z.of_nat (length sv) < 2 ^ 31 - 4 -> 0 <= msgtype < 2 ^ 31 ->
  exists pack, packed msgtype sv = Some pack /\
    let m := take (Z.to_nat (UdpPacket.sendSize pack)) (UdpPacket.sendStream pack) in
    exists pk, UdpPacket.received (length m) m = Some pk /\
      UdpPacket.getMsgType pk = Some msgtype /\ BasePacket.readData pk = sv.
Proof.
  intros Hs Ht. rewrite packed_ok by done. eexists. split; [done|]. cbv zeta.
  unfold UdpPacket.sendSize, UdpPacket.sendStream. cbn [ByteBuffer.storage ByteBuffer.wpos].
  set (head := obj_bytes Tuint32 (u32 msgtype)).
  assert (length head = 4%nat) as Hh by (apply (obj_bytes_length Tuint32)).
  rewrite sext_small, Nat2Z.id by (unfold in_i; lia).
  rewrite take_ge by (rewrite length_app; lia). set (m := head ++ sv).
  assert (length m = (4 + length sv)%nat) as Hm by (subst m; rewrite length_app; lia).
  destruct (received_ok m) as (pk & Er & Hpk & Hsz & Hw & Hr); [lia|].
  exists pk. split; [done|].
  assert (take (length m) (ByteBuffer.storage pk) = m) as Hst by (rewrite <- Hw; exact Hpk).
  split.
  - unfold UdpPacket.getMsgType, BasePacket.getValue. rewrite ByteBufProps.read_at_ok by exact Hsz.
    cbn [fmap option_fmap option_map]. f_equal. cbn [sizeof].
    assert (take 4 (drop 0 (ByteBuffer.storage pk)) = head) as ->.
    { rewrite drop_0. rewrite <- (take_app_exact head sv), Hh. fold m. rewrite <- Hst.
      rewrite take_take, Nat.min_l by lia. done. }
    subst head. rewrite obj_val_bytes.
    + rewrite wrap_small by (unfold in_u; lia). apply sext_small; [lia|]. unfold in_i. lia.
    + exact (wrap_range 32 msgtype ltac:(lia)).
  - unfold BasePacket.readData, BasePacket.activeSize, BasePacket.readPointer. rewrite Hw, Hr.
    rewrite sext_small by (unfold in_i; lia).
    replace (Z.to_nat (Z.of_nat (length m) - Z.of_nat 4)) with (length m - 4)%nat by lia.
    rewrite <- skipn_firstn_comm.
    change (drop 4 (take (length m) (ByteBuffer.storage pk)) = sv). rewrite Hst. subst m.
    by rewrite <- Hh, drop_app_exact.
Qed.

Lemma kcp_message_roundtrip_witness :
  exists pack, packed 7 [104; 105] = Some pack /\
    let m := take (Z.to_nat (UdpPacket.sendSize pack)) (UdpPacket.sendStream pack) in
    exists pk, UdpPacket.received (length m) m = Some pk /\
      UdpPacket.getMsgType pk = Some 7 /\ BasePacket.readData pk = [104; 105].
Proof. apply (kcp_message_roundtrip 7 [104; 105]); [reflexivity|split; [discriminate|reflexivity]]. Defined.

(** A message without a head.  A peer may send a message of fewer than
    four bytes: the packet [onMsg] gets then has its read position behind
    its write position, and the size of its data, which [readData] turns into
    a [size_t], is negative. *)
Theorem kcp_short_message d :
  (0 < length d < 4)%nat ->
  exists pk, UdpPacket.received (length d) d = Some pk /\
    BasePacket.activeSize pk = Z.of_nat (length d) - 4 /\ BasePacket.activeSize pk < 0.
Proof.
  intros Hd. destruct (received_ok d) as (pk & Er & _ & _ & Hw & Hr); [lia|].
  exists pk. split; [done|]. unfold BasePacket.activeSize. rewrite Hw, Hr.
  rewrite sext_small by (unfold in_i; lia). lia.
Qed.

Lemma kcp_short_message_witness :
  (0 < length [65] < 4)%nat /\ exists pk, UdpPacket.received (length [65]) [65] = Some pk /\
    BasePacket.activeSize pk = Z.of_nat (length [65]) - 4 /\ BasePacket.activeSize pk < 0.
Proof. assert (0 < length [65] < 4)%nat as Hd by (cbn; lia). split; [exact Hd|]. apply (kcp_short_message [65] Hd). Defined.

(** [update] goes on with the session after [_onMsg]: an application that
    closes it there makes [update] touch a freed object. *)
Lemma update_after_close {H} (onMsg : ByteBuffer.t -> world H -> option (world H)) ms p w s k r d w1 :
  (forall pk w w', onMsg pk w = Some w' -> heap w' !! p = None) ->
  call p (OpUpdate ms) w = Some (r, d, w1) -> heap w1 !! p = Some s -> m_kcp s = Some k ->
  inv None None w1 -> 0 < ikcp_peeksize k ->
  base_update onMsg ms p w = None.
Proof.
  intros Hc E1 Es Ek I Hp. unfold base_update.
  destruct (heap w !! p) as [s0|] eqn:E0; [|done]. cbn [mbind option_bind].
  destruct (m_kcp s0) as [k0|] eqn:Ek0.
  2: { unfold call in E1. rewrite E0 in E1. cbn [mbind option_bind] in E1. by rewrite Ek0 in E1. }
  rewrite E1. cbn [mbind option_bind]. rewrite Es. cbn [mbind option_bind]. rewrite Ek.
  cbn [mbind option_bind]. rewrite (proj2 (Z.ltb_lt _ _) Hp).
  destruct (peek_step p w1 s k I Es Ek Hp) as (d1 & w2 & -> & Hd & _). cbn [mbind option_bind].
  rewrite <- Hd, Nat2Z.id. destruct (received_ok d1) as (pk & -> & _); [lia|].
  cbn [mbind option_bind]. rewrite (proj2 (Z.ltb_lt 0 _)) by lia.
  destruct (onMsg pk w2) as [w3|] eqn:E3; [|done]. cbn [mbind option_bind].
  unfold check_kcp. by rewrite (Hc _ _ _ E3).
Qed.

(** ** Safety *)
Section Safe.
Context {H : Type} (handler : callback -> H -> H * list action) (iclock : nat -> Z).
Context {A : Application handler} (server : bool) (h0 : H).

(** The worlds a server or client reaches, whatever datagrams arrive, while
    the acknowledgements pending stay below 2^30. *)
Inductive reachable : world H -> Prop :=
  | reach_boot : reachable (boot h0)
  | reach_step w e w' :
      reachable w -> backlog_ok w -> event_ok e -> step handler iclock server e w = Some w' ->
      reachable w'.

Lemma kcp_boot_ok : known h0 = ∅ -> inv None None (boot h0) /\ knows handler (boot h0).
Proof.
  intros Hk. split.
  - assert (forall p c, (p, c) ∉ born (boot h0)) as Hb by (intros ? ?; apply list.not_elem_of_nil).
    assert (forall p, ~ live (boot h0) p) as Hl.
    { intros p (s & k & E & _). cbn [heap boot] in E. by rewrite lookup_empty in E. }
    constructor; cbn [boot heap fresh born m_mapSessions wire buff api log].
    + intros p [s E]. by rewrite lookup_empty in E.
    + intros p c Hc. by destruct (Hb p c).
    + done.
    + constructor.
    + intros p c Hc. by destruct (Hb p c).
    + intros p Hp. by destruct (Hl p).
    + intros c p E. by rewrite lookup_empty in E.
    + intros a d Hd. by apply list.elem_of_nil in Hd.
    + split; [apply length_replicate|]. by apply Forall_replicate.
  - intros p. cbn [boot KcpSession.app]. rewrite Hk. split; [set_solver|].
    intros (s & k & E & _). cbn [heap boot] in E. by rewrite lookup_empty in E.
Qed.

Lemma reachable_inv w :
  known h0 = ∅ -> reachable w -> inv None None w /\ knows handler w.
Proof.
  intros Hk. induction 1 as [|w e w' _ [I K] Hb He E]; [by apply kcp_boot_ok|].
  destruct (step_ok handler iclock server e w I K Hb He) as (w2 & E2 & I2 & K2 & _).
  rewrite E in E2. by injection E2 as <-.
Qed.

(** C10.  Safety of the sessions.  A server or client whose application uses
    only sessions it was told of and not told to be closed, does not close a
    session inside the [onMsg] of that session and none inside [onClose],
    handles every datagram, timer and task without a fault: no access to a
    freed session, no call on a released control block, no overrun of a
    packet.  The map leads from an id to a session whose control block has
    that conversation number, and the application knows exactly the sessions
    there are. *)
Theorem kcp_sessions_safe w e :
  known h0 = ∅ -> reachable w -> backlog_ok w -> event_ok e ->
  exists w', step handler iclock server e w = Some w' /\
    (forall id p, m_mapSessions w' !! id = Some p ->
       exists s k, heap w' !! p = Some s /\ m_kcp s = Some k /\ conv k = id) /\
    (forall p, p ∈ known (KcpSession.app w') <->
       exists s k, heap w' !! p = Some s /\ m_kcp s = Some k).
Proof.
  intros Hk Hr Hb He. destruct (reachable_inv w Hk Hr) as [I K].
  destruct (step_ok handler iclock server e w I K Hb He) as (w' & E & I' & K' & _).
  exists w'. split; [done|]. split; [|exact K']. intros id p Em.
  destruct (i_map _ _ _ I' id p Em) as [Hbn [(s & k & Es & Ek)|?]]; [|done].
  destruct (inv_session _ _ _ _ _ _ I' Es Ek) as (c & pt & [Hc _] & _ & _ & _ & Ec & _).
  exists s, k. by rewrite Ec, (born_unique _ _ _ _ _ _ I' Hbn Hc).
Qed.

(** Nothing vouches for a datagram.  Whoever sends it, one that is too
    short to be a KCP segment and carries the id of a session closes that
    session; of a datagram shorter than four bytes, the buffer still holds
    the rest of the id from the one before. *)
Theorem kcp_short_datagram_closes w a d p :
  known h0 = ∅ -> reachable w -> backlog_ok w -> bytes_ok d -> (0 < length d < 24)%nat ->
  setup_test server (length d) (fill d w) = false ->
  m_mapSessions w !! buffer_conv (fill d w) = Some p ->
  exists w', step handler iclock server (Datagram a d) w = Some w' /\
    heap w' !! p = None /\ m_mapSessions w' !! buffer_conv (fill d w) = None.
Proof.
  intros Hk Hr Hb Hd Hlen Ht Hm. destruct (reachable_inv w Hk Hr) as [I K].
  by apply (short_step handler iclock).
Qed.

End Safe.

(** ** One side of the network *)
Definition is_party {H} (c : Z) (w : world H) (P : party) : Prop :=
  (forall p, (p, c) ∈ born w -> replay c (ops_of p w) = Some P) /\
  ((forall p, (p, c) ∉ born w) -> P = KcpNet.init c 1400).

(** The network brings what the other side sent, once more, late or out of
    order; besides, anything that is not of the conversation [c], and
    anything too short. *)
Definition legal {H} (c : Z) (other : world H) (e : event) : Prop :=
  match e with
  | Datagram _ d =>
      bytes_ok d /\ (length d <= bufflen)%nat /\
      (d ∈ (wire other).*2 \/ (length d < 24)%nat \/ ikcp_getconv d <> c)
  | _ => True
  end.

Lemma legal_ok {H} c (other : world H) e : legal c other e -> event_ok e.
Proof. destruct e; [by intros []|done..]. Qed.

Definition unique_id {H} (c : Z) (w : world H) : Prop :=
  forall p q, (p, c) ∈ born w -> (q, c) ∈ born w -> p = q.

Section Side.
Context {H H2 : Type} (handler : callback -> H -> H * list action) (iclock : nat -> Z).
Context {A : Application handler} (server : bool).

Lemma wire_input (other : world H2) c Q d :
  inv None None other -> is_party c other Q -> d ∈ (wire other).*2 ->
  ikcp_getconv d = c -> input_from Q d.
Proof.
  intros I [Hp _] Hd Ec. apply list_elem_of_fmap in Hd as ([a d'] & -> & Hd). cbn [snd] in *.
  destruct (i_wire _ _ _ I a d' Hd) as [(c' & _ & ->)|(q & c' & pt & [Hb Hr] & Ho)].
  - right. rewrite setup_length. lia.
  - destruct (replay_sound _ _ _ Hr) as [_ (_ & _ & Hs & _)].
    rewrite Forall_forall in Hs. apply list_elem_of_In in Ho as Ho'. specialize (Hs d' Ho').
    rewrite (starts_conv _ _ Hs) in Ec by (by destruct (i_born _ _ _ I q c' Hb)). subst c'.
    rewrite (Hp q Hb) in Hr. injection Hr as <-. by left.
Qed.

Lemma side_step b c w w' e (other : world H2) P Q es s :
  inv None None w -> knows handler w -> backlog_ok w -> inv None None other ->
  legal c other e -> step handler iclock server e w = Some w' -> unique_id c w' ->
  is_party c w P -> is_party c other Q -> KcpNet.run es s = Some (side b P Q) ->
  exists P' es', is_party c w' P' /\ KcpNet.run es' s = Some (side b P' Q).
Proof.
  intros I K Hb Io Hl E Hu HP HQ Hrun.
  destruct (step_ok handler iclock server e w I K Hb (legal_ok _ _ _ Hl))
    as (w2 & E2 & I' & _ & [(l & El & Hin) Hborn] & _).
  rewrite E in E2. injection E2 as <-.
  destruct (decide (c ∈ (born w').*2)) as [Hc|Hc].
  2: { exists P, es. split; [|done].
       assert (forall p, (p, c) ∉ born w') as Hno.
       { intros p Hp. apply Hc. apply list_elem_of_fmap. by exists (p, c). }
       split; [intros p Hp; by destruct (Hno p)|]. intros _. apply HP. intros p Hp.
       apply (Hno p). rewrite Hborn. apply list.elem_of_app. by left. }
  apply list_elem_of_fmap in Hc as ([p c'] & Ec & Hp). cbn [snd] in Ec. subst c'.
  destruct (i_party _ _ _ I' p c Hp) as (P' & Hr' & _).
  assert (replay c (ops_of p w) = Some P) as Hr.
  { pose proof Hp as Hp'. rewrite Hborn in Hp'. apply list.elem_of_app in Hp' as [Hp'|Hp'].
    - by apply HP.
    - assert (p = fresh w) as ->.
      { unfold new_ids in Hp'. destruct e as [a d| |]; try by apply list.elem_of_nil in Hp'.
        case_match; [|by apply list.elem_of_nil in Hp'].
        apply list_elem_of_singleton in Hp'. by injection Hp'. }
      destruct (i_new _ _ _ I (fresh w)) as [-> _]; [lia|].
      assert (P = KcpNet.init c 1400) as ->; [|done]. apply HP.
      intros q Hq. assert (q = fresh w) as ->.
      { apply Hu; [|done]. rewrite Hborn. apply list.elem_of_app. by left. }
      destruct (i_born _ _ _ I _ _ Hq). lia. }
  assert (ops_of p w' = ops_of p w ++ omap (of_ptr p) l) as Hops
    by (unfold ops_of; by rewrite El, omap_app).
  rewrite Hops in Hr'. destruct (project b c _ _ P P' Q es s Hr Hr' Hrun) as [es' Hes'].
  { intros d Hd. apply list_elem_of_omap in Hd as ([q o] & Hq & Ho).
    unfold of_ptr in Ho. cbn [fst snd] in Ho. case_match eqn:Eq; [|done].
    apply Nat.eqb_eq in Eq. subst q. injection Ho as ->.
    destruct (Hin p d Hq) as (a & d0 & -> & Ed & Hm & _). cbn [legal] in Hl.
    destruct Hl as (_ & Hlen & Hd0). rewrite take_ge in Ed by done. subst d0.
    destruct (decide (length d < 24)%nat) as [?|Hge]; [by right|].
    rewrite fill_conv in Hm by lia. destruct (i_map _ _ _ I _ _ Hm) as [Hcv _].
    assert (ikcp_getconv d = c) as Ecv.
    { apply (born_unique w' p _ _ _ _ I'); [|done]. rewrite Hborn.
      apply list.elem_of_app. by left. }
    destruct Hd0 as [?|[?|?]]; [by eapply wire_input|lia|done]. }
  exists P', es'. split; [|done]. split.
  - intros q Hq. rewrite (Hu q p Hq Hp), Hops. exact Hr'.
  - intros Hno. by destruct (Hno p).
Qed.

End Side.

(** The ids a server gives out: 1, 2, 3, ... while the counter lasts. *)
Definition ids_ok {H} (w : world H) : Prop :=
  Z.of_nat (length (born w)) < 2 ^ 32 ->
  gSessionid w = Z.of_nat (length (born w)) /\
  forall p c, (p, c) ∈ born w -> 1 <= c <= gSessionid w /\ unique_id c w.

Lemma ids_step {H} (handler : callback -> H -> H * list action) iclock {A : Application handler} e w w' :
  inv None None w -> knows handler w -> backlog_ok w -> event_ok e ->
  step handler iclock true e w = Some w' -> ids_ok w -> ids_ok w'.
Proof.
  intros I K Hb He E Hids Hlt.
  destruct (step_ok handler iclock true e w I K Hb He) as (w2 & E2 & I' & _ & [_ Hborn] & Hg).
  rewrite E in E2. injection E2 as <-. unfold next_id in Hg.
  rewrite Hborn, length_app in Hlt. destruct (Hids ltac:(lia)) as [Eg Hu].
  assert (new_ids true e w = [] \/ new_ids true e w = [(fresh w, u32 (gSessionid w + 1))]) as [En|En].
  { unfold new_ids. destruct e as [a d| |]; [|by left|by left].
    destruct (setup_test _ _ _); [by right|by left]. }
  - rewrite En in Hg, Hborn. rewrite app_nil_r in Hborn. unfold unique_id. rewrite Hg, Hborn.
    by split.
  - assert (u32 (gSessionid w + 1) = gSessionid w + 1) as Eu
      by (apply wrap_small; unfold in_u; rewrite En in Hlt; cbn [length] in Hlt; lia).
    rewrite Eu in *. rewrite En in Hg, Hborn.
    rewrite Hg, Hborn, length_app. cbn [length]. split; [lia|].
    assert (forall p c, (p, c) ∈ born w ++ [(fresh w, gSessionid w + 1)] ->
      ((p, c) ∈ born w /\ 1 <= c <= gSessionid w) \/ (p = fresh w /\ c = gSessionid w + 1)) as Hcase.
    { intros p c [Hp|Hp%list_elem_of_singleton]%list.elem_of_app; [|right; by injection Hp].
      left. split; [done|]. by apply (Hu p). }
    intros p c Hp. split; [destruct (Hcase p c Hp) as [[_ ?]|[_ ->]]; lia|].
    unfold unique_id. rewrite Hborn. intros q1 q2 H1 H2.
    destruct (Hcase _ _ H1) as [[H1' ?]|[-> ?]], (Hcase _ _ H2) as [[H2' ?]|[-> ?]]; try done; try lia.
    by apply (proj2 (Hu q1 c H1')).
Qed.

(** ** A server and a client *)
Section Net.
Context {HS HC : Type} (hS : callback -> HS -> HS * list action) (hC : callback -> HC -> HC * list action).
Context (clockS clockC : nat -> Z) {AS : Application hS} {AC : Application hC} (s0 : HS) (c0 : HC).

(** The worlds of the two, while the network is [legal] for [c]. *)
Inductive net (c : Z) : world HS -> world HC -> Prop :=
  | net_boot : net c (boot s0) (boot c0)
  | net_server S C e S' :
      net c S C -> backlog_ok S -> legal c C e -> step hS clockS true e S = Some S' -> net c S' C
  | net_client S C e C' :
      net c S C -> backlog_ok C -> legal c S e -> step hC clockC false e C = Some C' -> net c S C'.

Hypothesis known_s0 : known s0 = ∅.
Hypothesis known_c0 : known c0 = ∅.

Lemma net_inv c S C :
  net c S C -> inv None None S /\ knows hS S /\ inv None None C /\ knows hC C /\ ids_ok S.
Proof.
  induction 1 as [|S C e S' _ (IS & KS & IC & KC & Hi) Hb Hl E|S C e C' _ (IS & KS & IC & KC & Hi) Hb Hl E].
  - destruct (kcp_boot_ok hS s0 known_s0), (kcp_boot_ok hC c0 known_c0).
    do 4 (split; [done|]). intros _. split; [done|]. intros p c' Hp. by apply list.elem_of_nil in Hp.
  - apply legal_ok in Hl.
    destruct (step_ok hS clockS true e S IS KS Hb Hl) as (w2 & E2 & I2 & K2 & _).
    pose proof (ids_step hS clockS e S S' IS KS Hb Hl E Hi).
    rewrite E in E2. injection E2 as <-. by do 4 (split; [done|]).
  - apply legal_ok in Hl.
    destruct (step_ok hC clockC false e C IC KC Hb Hl) as (w2 & E2 & I2 & K2 & _).
    rewrite E in E2. injection E2 as <-. by do 4 (split; [done|]).
Qed.

Lemma born_prefix {H} (handler : callback -> H -> H * list action) iclock {A : Application handler} b e w w' :
  inv None None w -> knows handler w -> backlog_ok w -> event_ok e ->
  step handler iclock b e w = Some w' -> born w `prefix_of` born w'.
Proof.
  intros I K Hb He E. destruct (step_ok handler iclock b e w I K Hb He) as (w2 & E2 & _ & _ & [_ F] & _).
  rewrite E in E2. injection E2 as <-. rewrite F. by apply prefix_app_r.
Qed.

Lemma unique_prefix {H} c (w w' : world H) :
  born w `prefix_of` born w' -> unique_id c w' -> unique_id c w.
Proof.
  intros [l E] Hu p q Hp Hq. apply Hu; rewrite E; apply list.elem_of_app; by left.
Qed.

Lemma ids_unique {H} c (w : world H) :
  ids_ok w -> Z.of_nat (length (born w)) < 2 ^ 32 -> unique_id c w.
Proof. intros Hi Hlt p q Hp Hq. destruct (Hi Hlt) as [_ Hu]. by apply (Hu p c Hp). Qed.

(** The two endpoints of the conversation [c]. *)
Lemma net_run c S C :
  net c S C -> Z.of_nat (length (born S)) < 2 ^ 32 -> unique_id c C ->
  exists P Q es, is_party c S P /\ is_party c C Q /\
    KcpNet.run es (KcpNet.init c 1400, KcpNet.init c 1400) = Some (P, Q).
Proof.
  induction 1 as [|S C e S' Hn IH Hb Hl E|S C e C' Hn IH Hb Hl E]; intros Hlt Hu.
  - exists (KcpNet.init c 1400), (KcpNet.init c 1400), [].
    repeat split; try done; intros p Hp; by apply list.elem_of_nil in Hp.
  - destruct (net_inv _ _ _ Hn) as (IS & KS & IC & KC & Hi).
    pose proof (legal_ok _ _ _ Hl) as He.
    pose proof (born_prefix hS clockS true e S S' IS KS Hb He E) as Hpre.
    pose proof (prefix_length _ _ Hpre) as Hlen.
    destruct (IH ltac:(lia) Hu) as (P & Q & es & HP & HQ & Hrun).
    pose proof (ids_step hS clockS e S S' IS KS Hb He E Hi) as Hi'.
    destruct (side_step hS clockS true true c S S' e C P Q es (side true (KcpNet.init c 1400) (KcpNet.init c 1400)) IS KS Hb IC Hl E) as
      (P' & es' & HP' & Hrun'); [by apply ids_unique|done|done|exact Hrun|].
    by exists P', Q, es'.
  - destruct (net_inv _ _ _ Hn) as (IS & KS & IC & KC & Hi).
    pose proof (legal_ok _ _ _ Hl) as He.
    pose proof (born_prefix hC clockC false e C C' IC KC Hb He E) as Hpre.
    destruct (IH Hlt (unique_prefix _ _ _ Hpre Hu)) as (P & Q & es & HP & HQ & Hrun).
    destruct (side_step hC clockC false false c C C' e S Q P es (side false (KcpNet.init c 1400) (KcpNet.init c 1400)) IC KC Hb IS Hl E) as
      (Q' & es' & HQ' & Hrun'); [done|done|done|exact Hrun|].
    by exists P, Q', es'.
Qed.

(** The messages of a session that [ikcp_send] took. *)
Definition submitted {H} (c : Z) (p : ptr) (w : world H) : list (list Z) :=
  match replay c (ops_of p w) with Some pt => sent pt | None => [] end.

Lemma party_submitted {H} c (w : world H) p P :
  inv None None w -> is_party c w P -> (p, c) ∈ born w ->
  submitted c p w = sent P /\ msgs_of p w = got P.
Proof.
  intros I [HP _] Hp. unfold submitted. pose proof (HP p Hp) as Hr. rewrite Hr. split; [done|].
  destruct (i_party _ _ _ I p c Hp) as (pt & Hr' & _ & Hg & _).
  rewrite Hr in Hr'. injection Hr' as <-. by rewrite Hg, app_nil_r.
Qed.

(** C2.  Reliable sessions. A server and a client, each with an application as
    above, over a network that loses, repeats and reorders the datagrams of the
    two, but brings the client the setup packet of the id [c] at most once, and
    that may bring any others that do not carry the id [c], short ones included:
    the messages [onMsg] was called with for the session [c] at one end are a
    prefix of those [sendMsg] handed to KCP at the other, in order, each once,
    in both directions. The server has given out fewer than 2^32 ids, and fewer
    than some 16 million messages were sent each way. (A setup packet that comes
    twice makes the client open a second session under the same id: that is
    outside the statement.) *)
Theorem kcp_session_reliable c S C p q :
  net c S C -> Z.of_nat (length (born S)) < 2 ^ 32 -> unique_id c C ->
  (p, c) ∈ born S -> (q, c) ∈ born C ->
  few (submitted c p S) -> few (submitted c q C) ->
  msgs_of q C `prefix_of` submitted c p S /\ msgs_of p S `prefix_of` submitted c q C.
Proof.
  intros Hn Hlt Hu Hp Hq Hfp Hfq. destruct (net_inv _ _ _ Hn) as (IS & _ & IC & _ & _).
  destruct (net_run c S C Hn Hlt Hu) as (P & Q & es & HP & HQ & Hrun).
  destruct (party_submitted c S p P IS HP Hp) as [E1 E2].
  destruct (party_submitted c C q Q IC HQ Hq) as [E3 E4].
  rewrite E1 in *. rewrite E3 in *. rewrite E2, E4.
  assert (mtu_ok 1400) as Hm by (unfold mtu_ok; lia).
  destruct (system_inv c 1400 c 1400 es (P, Q) Hm Hm Hrun Hfp Hfq) as (Sa & Sb & Ia & Ib).
  cbn [fst snd] in *. split; eapply got_prefix; eauto; [apply Ia|apply Ib].
Qed.

End Net.

(** ** An application

    It greets a session, sends every message back and closes a session that
    is idle; a task of the client opens a session. *)
Definition echo (c : callback) (K : gset ptr) : gset ptr * list action :=
  let K := expected c K in
  (K, match c with
      | OnAccept p | OnConnect p => [SendData p 7 [104; 105]]
      | OnMsg p msgtype pack =>
          let body := drop 4 (pack_bytes pack) in
          if decide (p ∈ K) then
            if Z.of_nat (length body) <? 2 ^ 31 - 4 then [SendData p msgtype body] else []
          else []
      | OnUdpTimeout p => if decide (p ∈ K) then [CloseSession p] else []
      | OnClose _ => []
      | OnTask _ => [CreateSession (replicate 16 0)]
      end).

#[export] Instance echo_app : Application echo.
Proof.
  exists (fun K : gset ptr => K); [done|]. intros c K. unfold echo. cbn [snd]. destruct c; cbn [valid expected]; try (repeat case_decide; done).
  - split; [|done]. split; [set_solver|]. cbn. lia.
  - split; [|done]. split; [set_solver|]. cbn. lia.
  - case_decide; [|done]. case_match eqn:E; [|done]. bool_arith. done.
Defined.

Section Exec.
Context {HS HC : Type} (hS : callback -> HS -> HS * list action) (hC : callback -> HC -> HC * list action).
Context (clockS clockC : nat -> Z) (s0 : HS) (c0 : HC) (c : Z).

Definition backlog_b {H} (w : world H) : bool :=
  bool_decide (map_Forall (fun _ s => match m_kcp s with
    | Some k => ackcount k + 65536 <? 2 ^ 30 | None => true end = true) (heap w)).

Definition legal_b {H} (other : world H) (e : event) : bool :=
  match e with
  | Datagram _ d =>
      bytes_okb d && (length d <=? bufflen)%nat &&
      (bool_decide (d ∈ (wire other).*2) || (length d <? 24)%nat || negb (ikcp_getconv d =? c))
  | _ => true
  end.

(** A run of the two: [true] is an event of the server. *)
Definition exec_net (es : list (bool * event)) : option (world HS * world HC) :=
  foldl (fun r e => '(ws, wc) ← r;
    if fst e : bool then
      if backlog_b ws && legal_b wc (snd e) then
        ws ← step hS clockS true (snd e) ws; Some (ws, wc) else None
    else
      if backlog_b wc && legal_b ws (snd e) then
        wc ← step hC clockC false (snd e) wc; Some (ws, wc) else None)
    (Some (boot s0, boot c0)) es.

Lemma backlog_b_ok {H} (w : world H) : backlog_b w = true -> backlog_ok w.
Proof.
  intros Hb%bool_decide_eq_true p s k E Hk. specialize (Hb p s E). cbn in Hb. rewrite Hk in Hb. by apply Z.ltb_lt.
Qed.

Lemma legal_b_ok {H} (other : world H) e : legal_b other e = true -> legal c other e.
Proof.
  destruct e; cbn [legal_b legal]; [|done..]. intros Hl. apply andb_true_iff in Hl as [Hl H3].
  apply andb_true_iff in Hl as [H1 H2]. split; [by apply bytes_okb_ok|].
  split; [by apply Nat.leb_le|]. apply orb_true_iff in H3 as [H3|H3];
    [apply orb_true_iff in H3 as [H3|H3]|].
  - left. by apply bool_decide_eq_true in H3.
  - right. left. by apply Nat.ltb_lt.
  - right. right. by apply negb_true_iff, Z.eqb_neq in H3.
Qed.

Lemma exec_net_ok es S C :
  exec_net es = Some (S, C) -> net hS hC clockS clockC s0 c0 c S C.
Proof.
  revert S C. induction es as [|[b e] es IH] using rev_ind; intros S C.
  { intros E. injection E as <- <-. constructor. }
  unfold exec_net. rewrite foldl_app. cbn [foldl fst snd].
  fold (exec_net es). destruct (exec_net es) as [[S1 C1]|] eqn:E1; cbn [mbind option_bind]; [|done].
  specialize (IH S1 C1 eq_refl). destruct b.
  - destruct (backlog_b S1 && legal_b C1 e) eqn:E; [|done]. apply andb_true_iff in E as [Hb Hl].
    destruct (step hS clockS true e S1) as [S2|] eqn:Es; cbn [mbind option_bind]; [|done].
    intros Ex. injection Ex as <- <-. eapply net_server; eauto using backlog_b_ok, legal_b_ok.
  - destruct (backlog_b C1 && legal_b S1 e) eqn:E; [|done]. apply andb_true_iff in E as [Hb Hl].
    destruct (step hC clockC false e C1) as [C2|] eqn:Es; cbn [mbind option_bind]; [|done].
    intros Ex. injection Ex as <- <-. eapply net_client; eauto using backlog_b_ok, legal_b_ok.
Qed.
End Exec.

(** ** Witnesses

    The client opens a session; each side greets the other; one greeting
    arrives twice; a datagram of no session arrives. *)
Definition demo_clock (n : nat) : Z := 10 * Z.of_nat n.
Definition demo_addr : sockaddr := replicate 16 0.
Definition demo_push : list Z :=
  [1; 0; 0; 0; 81; 0; 128; 0; 10; 0; 0; 0; 0; 0; 0; 0; 0; 0; 0; 0; 6; 0; 0; 0; 7; 0; 0; 0; 104; 105].
Definition demo_events : list (bool * event) :=
  [(false, Task 0%nat); (true, Datagram demo_addr (setup_packet 0));
   (false, Datagram demo_addr (setup_packet 1)); (true, Tick 0%nat); (false, Tick 0%nat);
   (false, Datagram demo_addr demo_push); (false, Datagram demo_addr demo_push);
   (true, Datagram demo_addr demo_push); (true, Datagram demo_addr [9; 9; 9; 9; 9])].

Definition demo_end : option (world (gset ptr) * world (gset ptr)) :=
  exec_net echo echo demo_clock demo_clock ∅ ∅ 1 demo_events.
Definition demo_check (s c : world (gset ptr)) : bool :=
  bool_decide (born s = [(0%nat, 1)]) && bool_decide (born c = [(0%nat, 1)]) &&
  bool_decide (msgs_of 0%nat c = [[7; 0; 0; 0; 104; 105]]) &&
  (length (submitted 1 0%nat s) <? 100)%nat && (length (submitted 1 0%nat c) <? 100)%nat.

Lemma check_some {X} (r : option X) (f : X -> bool) :
  match r with Some x => f x | None => false end = true -> exists x, r = Some x /\ f x = true.
Proof. destruct r as [x|]; [by exists x|discriminate]. Qed.

Lemma demo_net : exists s c,
  net echo echo demo_clock demo_clock ∅ ∅ 1 s c /\ demo_check s c = true.
Proof.
  destruct (check_some demo_end (fun x => demo_check (fst x) (snd x))) as ([s c] & E & Hc);
    [vm_compute; reflexivity|].
  exists s, c. split; [|exact Hc].
  unfold demo_end in E. exact (exec_net_ok _ _ _ _ _ _ _ _ _ _ E).
Qed.

Lemma kcp_session_reliable_witness : exists s c,
  net echo echo demo_clock demo_clock ∅ ∅ 1 s c /\ born s = [(0%nat, 1)] /\ born c = [(0%nat, 1)] /\
  msgs_of 0%nat c = [[7; 0; 0; 0; 104; 105]] /\
  (msgs_of 0%nat c `prefix_of` submitted 1 0%nat s /\
   msgs_of 0%nat s `prefix_of` submitted 1 0%nat c).
Proof.
  destruct demo_net as (s & c & Hn & Hc). unfold demo_check in Hc.
  apply andb_true_iff in Hc as [Hc H5]. apply andb_true_iff in Hc as [Hc H4].
  apply andb_true_iff in Hc as [Hc H3%bool_decide_eq_true].
  apply andb_true_iff in Hc as [H1%bool_decide_eq_true H2%bool_decide_eq_true].
  apply Nat.ltb_lt in H4, H5.
  exists s, c. split; [exact Hn|]. split; [exact H1|]. split; [exact H2|]. split; [exact H3|].
  apply (kcp_session_reliable (AS := echo_app) (AC := echo_app) echo echo demo_clock demo_clock
           ∅ ∅ eq_refl eq_refl 1 s c 0%nat 0%nat Hn).
  - rewrite H1. reflexivity.
  - intros p q. rewrite H2, !list_elem_of_singleton. intros Ep Eq. congruence.
  - rewrite H1. by apply list_elem_of_singleton.
  - rewrite H2. by apply list_elem_of_singleton.
  - unfold few. lia.
  - unfold few. lia.
Defined.

Lemma boot_backlog {H} (h : H) : backlog_ok (boot h).
Proof. intros p s k E. cbn [heap boot] in E. by rewrite lookup_empty in E. Qed.

Lemma setup_bytes c : bytes_ok (setup_packet c).
Proof.
  unfold setup_packet. apply bytes_ok_app. split; [apply le_bytes_ok|]. by repeat constructor.
Qed.

Lemma kcp_sessions_safe_witness :
  exists w', step echo demo_clock true (Datagram demo_addr (setup_packet 0)) (boot ∅) = Some w' /\
    (forall id p, m_mapSessions w' !! id = Some p ->
       exists s k, heap w' !! p = Some s /\ m_kcp s = Some k /\ conv k = id) /\
    (forall p, p ∈ known (KcpSession.app w') <->
       exists s k, heap w' !! p = Some s /\ m_kcp s = Some k).
Proof.
  apply (kcp_sessions_safe echo demo_clock true (∅ : gset ptr) (boot ∅)).
  - reflexivity.
  - apply reach_boot.
  - apply boot_backlog.
  - apply setup_bytes.
Defined.

(** One session, then the single byte 1: the buffer still holds the zeros of
    the setup packet behind it. *)
Definition setup_event : event := Datagram demo_addr (setup_packet 0).
Definition demo_boot : world (gset ptr) := boot ∅.

Lemma demo_one_ok : exists w,
  step echo demo_clock true setup_event demo_boot = Some w /\ backlog_b w = true /\
  setup_test true 1 (fill [1] w) = false /\ m_mapSessions w !! buffer_conv (fill [1] w) = Some 0%nat.
Proof.
  destruct (check_some (step echo demo_clock true setup_event demo_boot) (fun w => backlog_b w && negb (setup_test true 1 (fill [1] w)) &&
    bool_decide (m_mapSessions w !! buffer_conv (fill [1] w) = Some 0%nat))) as (w & E & Hc);
    [vm_compute; reflexivity|].
  exists w. split; [exact E|].
  apply andb_true_iff in Hc as [Hc H3%bool_decide_eq_true].
  apply andb_true_iff in Hc as [H1 H2%negb_true_iff].
  split; [exact H1|]. split; [exact H2|exact H3].
Qed.

Lemma kcp_short_datagram_closes_witness :
  exists w w', step echo demo_clock true setup_event demo_boot = Some w /\ m_mapSessions w !! buffer_conv (fill [1] w) = Some 0%nat /\
    step echo demo_clock true (Datagram demo_addr [1]) w = Some w' /\
    heap w' !! 0%nat = None /\ m_mapSessions w' !! buffer_conv (fill [1] w) = None.
Proof.
  destruct demo_one_ok as (w & E & Hb & Ht & Hm).
  destruct (kcp_short_datagram_closes echo demo_clock true (∅ : gset ptr) w demo_addr [1] 0%nat)
    as (w' & H1 & H2 & H3).
  - reflexivity.
  - eapply reach_step; [apply reach_boot|apply boot_backlog| |exact E]. apply setup_bytes.
  - by apply backlog_b_ok.
  - by repeat constructor.
  - cbn. lia.
  - exact Ht.
  - exact Hm.
  - exists w, w'. split; [exact E|]. split; [exact Hm|]. split; [exact H1|]. split; [exact H2|exact H3].
Defined.

End KcpSessNet.
