(* ===== verification/Base64.v ===== *)
(** * Base64: base64_encode and base64_decode

    Models src/src/common/base64.cpp: the two byte loops with their small
    arrays, as folds that carry the array filled so far. *)
From S2P Require Import Prelude.

Module Base64.

(** [base64_chars]: A-Z, a-z, 0-9, plus and slash. *)
Definition base64_chars : list Z :=
  map Z.of_nat (seq 65 26 ++ seq 97 26 ++ seq 48 10) ++ [43; 47].

(** [isalnum], in the C locale. *)
Definition isalnum (c : Z) : bool :=
  (48 <=? c) && (c <=? 57) || (65 <=? c) && (c <=? 90) || (97 <=? c) && (c <=? 122).

Definition is_base64 (c : Z) : bool := isalnum c || (c =? 43) || (c =? 47).

(** The four sextets of three bytes. *)
Definition sextets (a0 a1 a2 : Z) : list Z :=
  [ Z.shiftr (Z.land a0 0xfc) 2;
    Z.shiftl (Z.land a0 0x03) 4 + Z.shiftr (Z.land a1 0xf0) 4;
    Z.shiftl (Z.land a1 0x0f) 2 + Z.shiftr (Z.land a2 0xc0) 6;
    Z.land a2 0x3f ].

(** [base64_chars[i]]. *)
Definition char_at (i : Z) : Z := nth (Z.to_nat i) base64_chars 0.

(** The loop of [base64_encode]: [arr] is [char_array_3], as filled. *)
Fixpoint encode_loop (bytes arr ret : list Z) : list Z * list Z :=
  match bytes with
  | [] => (arr, ret)
  | b :: bytes =>
      match arr ++ [b] with
      | [a0; a1; a2] => encode_loop bytes [] (ret ++ map char_at (sextets a0 a1 a2))
      | arr => encode_loop bytes arr ret
      end
  end.

Definition base64_encode (bytes : list Z) : list Z :=
  let '(arr, ret) := encode_loop bytes [] [] in
  let i := length arr in
  if (i =? 0)%nat then ret
  else
    let s := sextets (nth 0 arr 0) (nth 1 arr 0) (nth 2 arr 0) in
    ret ++ map char_at (take (i + 1) s) ++ replicate (3 - i) 61.

(** [base64_chars.find(c)] stored in an [unsigned char]: the position, or
    [npos], which is 255. *)
Fixpoint find_from (c : Z) (l : list Z) (pos : Z) : Z :=
  match l with
  | [] => 255
  | d :: l => if c =? d then pos else find_from c l (pos + 1)
  end.
Definition find (c : Z) : Z := find_from c base64_chars 0.

(** The three bytes of four sextets. *)
Definition triple (a0 a1 a2 a3 : Z) : list Z :=
  [ u8 (Z.shiftl a0 2 + Z.shiftr (Z.land a1 0x30) 4);
    u8 (Z.shiftl (Z.land a1 0xf) 4 + Z.shiftr (Z.land a2 0x3c) 2);
    u8 (Z.shiftl (Z.land a2 0x3) 6 + a3) ].

(** The loop of [base64_decode]. *)
Fixpoint decode_loop (s arr ret : list Z) : list Z * list Z :=
  match s with
  | [] => (arr, ret)
  | c :: s =>
      if negb (c =? 61) && is_base64 c then
        match arr ++ [c] with
        | [a0; a1; a2; a3] =>
            decode_loop s [] (ret ++ triple (find a0) (find a1) (find a2) (find a3))
        | arr => decode_loop s arr ret
        end
      else (arr, ret)
  end.

Definition base64_decode (s : list Z) : list Z :=
  let '(arr, ret) := decode_loop s [] [] in
  let i := length arr in
  if (i =? 0)%nat then ret
  else
    let a j := find (nth j arr 0) in
    ret ++ take (i - 1) (triple (a 0%nat) (a 1%nat) (a 2%nat) (a 3%nat)).

End Base64.

(** * Properties *)
Module Base64Props.
Import Base64.

(** Facts about a single byte or sextet, checked on all of them. *)
Lemma below_ind (P : Z -> bool) n :
  forallb P (map Z.of_nat (seq 0 n)) = true -> forall z, 0 <= z < Z.of_nat n -> P z = true.
Proof.
  rewrite forallb_forall. intros H z Hz. apply H. apply List.in_map_iff.
  exists (Z.to_nat z). split; [lia|]. apply List.in_seq. lia.
Qed.

Lemma byte_parts b :
  0 <= b < 256 ->
  Z.shiftr (Z.land b 0xfc) 2 = b / 4 /\ Z.shiftl (Z.land b 0x03) 4 = b mod 4 * 16 /\
  Z.shiftr (Z.land b 0xf0) 4 = b / 16 /\ Z.shiftl (Z.land b 0x0f) 2 = b mod 16 * 4 /\
  Z.shiftr (Z.land b 0xc0) 6 = b / 64 /\ Z.land b 0x3f = b mod 64.
Proof.
  intros Hb.
  pose proof (below_ind (fun b =>
    (Z.shiftr (Z.land b 0xfc) 2 =? b / 4) && (Z.shiftl (Z.land b 0x03) 4 =? b mod 4 * 16) &&
    (Z.shiftr (Z.land b 0xf0) 4 =? b / 16) && (Z.shiftl (Z.land b 0x0f) 2 =? b mod 16 * 4) &&
    (Z.shiftr (Z.land b 0xc0) 6 =? b / 64) && (Z.land b 0x3f =? b mod 64)) 256
    ltac:(vm_compute; reflexivity) b Hb) as H.
  cbn beta in H. bool_arith. auto 10.
Qed.

Lemma sextet_parts a :
  0 <= a < 64 ->
  Z.shiftl a 2 = a * 4 /\ Z.shiftr (Z.land a 0x30) 4 = a / 16 /\
  Z.shiftl (Z.land a 0xf) 4 = a mod 16 * 16 /\ Z.shiftr (Z.land a 0x3c) 2 = a / 4 /\
  Z.shiftl (Z.land a 0x3) 6 = a mod 4 * 64 /\
  find (char_at a) = a /\ is_base64 (char_at a) = true /\ (char_at a =? 61) = false.
Proof.
  intros Ha.
  pose proof (below_ind (fun a =>
    (Z.shiftl a 2 =? a * 4) && (Z.shiftr (Z.land a 0x30) 4 =? a / 16) &&
    (Z.shiftl (Z.land a 0xf) 4 =? a mod 16 * 16) && (Z.shiftr (Z.land a 0x3c) 2 =? a / 4) &&
    (Z.shiftl (Z.land a 0x3) 6 =? a mod 4 * 64) && (find (char_at a) =? a) &&
    is_base64 (char_at a) && negb (char_at a =? 61)) 64 ltac:(vm_compute; reflexivity) a Ha) as H.
  cbn beta in H. apply andb_true_iff in H as [H Hn]. apply andb_true_iff in H as [H Hb].
  apply negb_true_iff in Hn. bool_arith. repeat split; auto.
  by apply Z.eqb_neq.
Qed.

Lemma sextets_spec a0 a1 a2 :
  byte_ok a0 -> byte_ok a1 -> byte_ok a2 ->
  sextets a0 a1 a2 = [a0 / 4; a0 mod 4 * 16 + a1 / 16; a1 mod 16 * 4 + a2 / 64; a2 mod 64] /\
  Forall (fun x => 0 <= x < 64) (sextets a0 a1 a2).
Proof.
  unfold byte_ok. intros H0 H1 H2. unfold sextets.
  destruct (byte_parts a0 H0) as (-> & -> & _). destruct (byte_parts a1 H1) as (_ & _ & -> & -> & _).
  destruct (byte_parts a2 H2) as (_ & _ & _ & _ & -> & ->). split; [done|].
  repeat (constructor; [divlia|]); constructor.
Qed.

(** Four sextets give their three bytes back. *)
Lemma triple_sextets a0 a1 a2 :
  byte_ok a0 -> byte_ok a1 -> byte_ok a2 ->
  exists s0 s1 s2 s3, sextets a0 a1 a2 = [s0; s1; s2; s3] /\
    Forall (fun x => 0 <= x < 64) [s0; s1; s2; s3] /\
    triple s0 s1 s2 s3 = [a0; a1; a2] /\
    (forall x y, 0 <= x -> 0 <= y -> a1 = 0 -> a2 = 0 -> take 1 (triple s0 s1 x y) = [a0]) /\
    (forall y, 0 <= y -> a2 = 0 -> take 2 (triple s0 s1 s2 y) = [a0; a1]).
Proof.
  intros H0 H1 H2. destruct (sextets_spec a0 a1 a2 H0 H1 H2) as [E F].
  rewrite E in F. rewrite E. unfold byte_ok in *.
  apply Forall_cons_iff in F as [F0 F]. apply Forall_cons_iff in F as [F1 F].
  apply Forall_cons_iff in F as [F2 F]. apply Forall_cons_iff in F as [F3 _].
  eexists _, _, _, _. split; [reflexivity|]. split; [by repeat (constructor; [done|])|].
  destruct (sextet_parts _ F0) as (P0 & _). destruct (sextet_parts _ F1) as (_ & P1 & P2 & _).
  destruct (sextet_parts _ F2) as (_ & _ & _ & P3 & P4 & _).
  unfold triple. rewrite P0, P1, P2, P3, P4.
  assert (forall x, 0 <= x < 256 -> u8 x = x) as Hu by (intros; by apply wrap_small).
  split; [|split].
  - rewrite !Hu by divlia. repeat f_equal; divlia.
  - intros. cbn [take]. rewrite Hu by divlia. f_equal. divlia.
  - intros. cbn [take]. rewrite !Hu by divlia. repeat f_equal; divlia.
Qed.

Lemma encode_loop_ret bytes arr ret :
  encode_loop bytes arr ret =
    (fst (encode_loop bytes arr []), ret ++ snd (encode_loop bytes arr [])).
Proof.
  revert arr ret. induction bytes as [|b bytes IH]; intros arr ret; cbn [encode_loop].
  { by rewrite app_nil_r. }
  destruct (arr ++ [b]) as [|a0 [|a1 [|a2 [|? ?]]]]; rewrite IH; try done.
  rewrite (IH [] ([] ++ _)). cbn [fst snd app]. by rewrite <- app_assoc.
Qed.

Lemma encode3 b0 b1 b2 l :
  base64_encode (b0 :: b1 :: b2 :: l) = map char_at (sextets b0 b1 b2) ++ base64_encode l.
Proof.
  unfold base64_encode. cbn [encode_loop app]. rewrite (encode_loop_ret l [] (map _ _)).
  destruct (encode_loop l [] []) as [arr ret]. cbn [fst snd].
  case_match; [done|]. by rewrite <- app_assoc.
Qed.

Lemma decode_loop_ret s arr ret :
  decode_loop s arr ret =
    (fst (decode_loop s arr []), ret ++ snd (decode_loop s arr [])).
Proof.
  revert arr ret. induction s as [|c s IH]; intros arr ret; cbn [decode_loop].
  { by rewrite app_nil_r. }
  case_match; [|by rewrite app_nil_r].
  destruct (arr ++ [c]) as [|a0 [|a1 [|a2 [|a3 [|? ?]]]]]; rewrite IH; try done.
  rewrite (IH [] ([] ++ _)). cbn [fst snd app]. by rewrite <- app_assoc.
Qed.

(** Four characters of the alphabet at the front. *)
Lemma decode4 s0 s1 s2 s3 l :
  Forall (fun x => 0 <= x < 64) [s0; s1; s2; s3] ->
  base64_decode (map char_at [s0; s1; s2; s3] ++ l) = triple s0 s1 s2 s3 ++ base64_decode l.
Proof.
  intros F. apply Forall_cons_iff in F as [F0 F]. apply Forall_cons_iff in F as [F1 F].
  apply Forall_cons_iff in F as [F2 F]. apply Forall_cons_iff in F as [F3 _].
  destruct (sextet_parts _ F0) as (_ & _ & _ & _ & _ & E0 & B0 & N0).
  destruct (sextet_parts _ F1) as (_ & _ & _ & _ & _ & E1 & B1 & N1).
  destruct (sextet_parts _ F2) as (_ & _ & _ & _ & _ & E2 & B2 & N2).
  destruct (sextet_parts _ F3) as (_ & _ & _ & _ & _ & E3 & B3 & N3).
  unfold base64_decode. cbn [map app decode_loop].
  rewrite N0, B0, N1, B1, N2, B2, N3, B3. cbn [negb andb app].
  rewrite E0, E1, E2, E3. rewrite (decode_loop_ret l [] (triple _ _ _ _)).
  destruct (decode_loop l [] []) as [arr ret]. cbn [fst snd].
  case_match; [done|]. by rewrite <- app_assoc.
Qed.

Lemma list3_ind (P : list Z -> Prop) :
  P [] -> (forall a, P [a]) -> (forall a b, P [a; b]) ->
  (forall a b c l, P l -> P (a :: b :: c :: l)) -> forall l, P l.
Proof.
  intros H0 H1 H2 H3 l. assert (P l /\ (forall a, P (a :: l)) /\ forall a b, P (a :: b :: l)) as H.
  { induction l as [|x l (IH & IH1 & IH2)]; auto. }
  apply H.
Qed.

(** The padded tails decode to one and two bytes. *)
Lemma decode_tail1 a : byte_ok a -> base64_decode (base64_encode [a]) = [a].
Proof.
  intros Ha. destruct (triple_sextets a 0 0 Ha) as (s0 & s1 & s2 & s3 & E & F & _ & T & _);
    [by split|by split|].
  unfold base64_encode. cbn [encode_loop app length Nat.eqb nth]. rewrite E.
  apply Forall_cons_iff in F as [F0 F]. apply Forall_cons_iff in F as [F1 _].
  destruct (sextet_parts _ F0) as (_ & _ & _ & _ & _ & E0 & B0 & N0).
  destruct (sextet_parts _ F1) as (_ & _ & _ & _ & _ & E1 & B1 & N1).
  unfold base64_decode. cbn [Nat.add take map app replicate Nat.sub decode_loop].
  rewrite N0, B0, N1, B1. cbn [negb andb app Z.eqb Pos.eqb length Nat.eqb nth Nat.sub].
  rewrite E0, E1. by apply T.
Qed.

Lemma decode_tail2 a b :
  byte_ok a -> byte_ok b -> base64_decode (base64_encode [a; b]) = [a; b].
Proof.
  intros Ha Hb. destruct (triple_sextets a b 0 Ha Hb) as (s0 & s1 & s2 & s3 & E & F & _ & _ & T);
    [by split|].
  unfold base64_encode. cbn [encode_loop app length Nat.eqb nth]. rewrite E.
  apply Forall_cons_iff in F as [F0 F]. apply Forall_cons_iff in F as [F1 F].
  apply Forall_cons_iff in F as [F2 _].
  destruct (sextet_parts _ F0) as (_ & _ & _ & _ & _ & E0 & B0 & N0).
  destruct (sextet_parts _ F1) as (_ & _ & _ & _ & _ & E1 & B1 & N1).
  destruct (sextet_parts _ F2) as (_ & _ & _ & _ & _ & E2 & B2 & N2).
  unfold base64_decode. cbn [Nat.add take map app replicate Nat.sub decode_loop].
  rewrite N0, B0, N1, B1, N2, B2. cbn [negb andb app Z.eqb Pos.eqb length Nat.eqb nth Nat.sub].
  rewrite E0, E1, E2. by apply T.
Qed.

(** C33.  Base64 is lossless: decoding what [base64_encode] produced gives the
    bytes back, whatever their number. *)
Theorem base64_roundtrip l : bytes_ok l -> base64_decode (base64_encode l) = l.
Proof.
  induction l as [|a|a b|a b c l IH] using list3_ind; intros H.
  - done.
  - apply decode_tail1. by inversion H.
  - inversion H as [|? ? ? H']; subst. inversion H'; subst. by apply decode_tail2.
  - apply Forall_cons_iff in H as [Ha H]. apply Forall_cons_iff in H as [Hb H].
    apply Forall_cons_iff in H as [Hc H].
    destruct (triple_sextets a b c Ha Hb Hc) as (s0 & s1 & s2 & s3 & E & F & T & _).
    rewrite encode3, E, decode4 by done. by rewrite IH, T.
Qed.

Lemma base64_roundtrip_witness :
  bytes_ok [104; 101; 108; 108; 111] /\
  base64_encode [104; 101; 108; 108; 111] = [97; 71; 86; 115; 98; 71; 56; 61] /\
  base64_decode (base64_encode [104; 101; 108; 108; 111]) = [104; 101; 108; 108; 111].
Proof.
  assert (bytes_ok [104; 101; 108; 108; 111]) as H by (repeat constructor; done).
  split; [exact H|]. split; [vm_compute; reflexivity|]. apply (base64_roundtrip _ H).
Defined.

(** The length of the encoding: four characters for every three bytes begun. *)
Lemma base64_encode_length l : length (base64_encode l) = (4 * ((length l + 2) / 3))%nat.
Proof.
  induction l as [|a|a b|a b c l IH] using list3_ind; [done..|].
  rewrite encode3, length_app, IH. cbn [length map sextets].
  replace (S (S (S (length l))) + 2)%nat with (1 * 3 + (length l + 2))%nat by lia.
  rewrite Nat.div_add_l by lia. lia.
Qed.

End Base64Props.
