(* ===== verification/Sha1.v ===== *)
(** * Sha1: the SHA1 class

    Models src/src/common/sha1.h and sha1.cpp, the streaming hash the
    WebSocket handshake uses, and relates it to the one-shot definition of
    FIPS 180: padding, blocks, compression. *)
From S2P Require Import Prelude.
#[local] Arguments wrap : simpl never.
#[local] Arguments Z.of_nat : simpl never.

Module SHA1.

(** The fields; [H] is the five words, [Message_Block] the 64 bytes. *)
Record t : Type := mk {
  H : list Z; Length_Low : Z; Length_High : Z; Message_Block : list Z;
  Message_Block_Index : nat; Computed : bool; Corrupted : bool
}.

Definition H0 : list Z := [0x67452301; 0xEFCDAB89; 0x98BADCFE; 0x10325476; 0xC3D2E1F0].

(** [Reset]; the block keeps its bytes. *)
Definition Reset (s : t) : t := mk H0 0 0 (Message_Block s) 0 false false.

(** [SHA1::SHA1()] on an object with block contents [garbage]. *)
Definition create (garbage : list Z) : t := Reset (mk [] 0 0 garbage 0 false false).

Definition CircularShift (bits word : Z) : Z :=
  Z.lor (Z.land (Z.shiftl word bits) 0xFFFFFFFF)
        (Z.shiftr (Z.land word 0xFFFFFFFF) (32 - bits)).

(** The five word buffers A to E. *)
Record regs : Type := mkregs { rA : Z; rB : Z; rC : Z; rD : Z; rE : Z }.

Definition K : list Z := [0x5A827999; 0x6ED9EBA1; 0x8F1BBCDC; 0xCA62C1D6].

(** The body of the four loops, for the word [w] and the function and
    constant of the loop. *)
Definition round (f : Z -> Z -> Z -> Z) (k : Z) (r : regs) (w : Z) : regs :=
  let temp := u32 (CircularShift 5 (rA r) + f (rB r) (rC r) (rD r) + rE r + w + k) in
  mkregs temp (rA r) (CircularShift 30 (rB r)) (rC r) (rD r).

Definition f_ch (b c d : Z) : Z := Z.lor (Z.land b c) (Z.land (u32 (Z.lnot b)) d).
Definition f_par (b c d : Z) : Z := Z.lxor b (Z.lxor c d).
Definition f_maj (b c d : Z) : Z := Z.lor (Z.lor (Z.land b c) (Z.land b d)) (Z.land c d).

(** "Initialize the first 16 words". *)
Definition word_of (block : list Z) (i : nat) : Z :=
  let b j := nth (i * 4 + j) block 0 in
  Z.lor (Z.lor (Z.lor (Z.shiftl (b 0%nat) 24) (Z.shiftl (b 1%nat) 16)) (Z.shiftl (b 2%nat) 8))
        (b 3%nat).

(** [W[t]] for [t] from 16 on, [n] of them. *)
Fixpoint schedule (n : nat) (W : list Z) : list Z :=
  match n with
  | O => W
  | S n =>
      let i := length W in
      let w j := nth (i - j) W 0 in
      schedule n (W ++ [CircularShift 1
        (Z.lxor (Z.lxor (Z.lxor (w 3%nat) (w 8%nat)) (w 14%nat)) (w 16%nat))])
  end.

(** The computation of [ProcessMessageBlock] on a block and the five words. *)
Definition compress (h block : list Z) : list Z :=
  let W := schedule 64 (map (word_of block) (seq 0 16)) in
  let r := mkregs (nth 0 h 0) (nth 1 h 0) (nth 2 h 0) (nth 3 h 0) (nth 4 h 0) in
  let r := foldl (round f_ch (nth 0 K 0)) r (take 20 W) in
  let r := foldl (round f_par (nth 1 K 0)) r (take 20 (drop 20 W)) in
  let r := foldl (round f_maj (nth 2 K 0)) r (take 20 (drop 40 W)) in
  let r := foldl (round f_par (nth 3 K 0)) r (take 20 (drop 60 W)) in
  [u32 (nth 0 h 0 + rA r); u32 (nth 1 h 0 + rB r); u32 (nth 2 h 0 + rC r);
   u32 (nth 3 h 0 + rD r); u32 (nth 4 h 0 + rE r)].

Definition ProcessMessageBlock (s : t) : t :=
  mk (compress (H s) (Message_Block s)) (Length_Low s) (Length_High s) (Message_Block s) 0
     (Computed s) (Corrupted s).

(** [Message_Block[Message_Block_Index++] = b]; the index is below 64 at
    every use. *)
Definition put (b : Z) (s : t) : t :=
  mk (H s) (Length_Low s) (Length_High s) (<[Message_Block_Index s := b]> (Message_Block s))
     (S (Message_Block_Index s)) (Computed s) (Corrupted s).

(** One iteration of the loop of [Input]. *)
Definition input_byte (b : Z) (s : t) : t :=
  let s := put (Z.land b 0xFF) s in
  let lo := u32 (Length_Low s + 8) in
  let hi := if lo =? 0 then u32 (Length_High s + 1) else Length_High s in
  let bad := if lo =? 0 then (if hi =? 0 then true else Corrupted s) else Corrupted s in
  let s := mk (H s) lo hi (Message_Block s) (Message_Block_Index s) (Computed s) bad in
  if (Message_Block_Index s =? 64)%nat then ProcessMessageBlock s else s.

Fixpoint input_loop (bytes : list Z) (s : t) : t :=
  match bytes with
  | [] => s
  | b :: bytes => if Corrupted s then s else input_loop bytes (input_byte b s)
  end.

(** [Input(message_array, length)]. *)
Definition Input (bytes : list Z) (s : t) : t :=
  if (length bytes =? 0)%nat then s
  else if Computed s || Corrupted s
       then mk (H s) (Length_Low s) (Length_High s) (Message_Block s) (Message_Block_Index s)
              (Computed s) true
       else input_loop bytes s.

(** [operator<<] of a C string: one [Input] per character up to the NUL. *)
Fixpoint shift_str (str : list Z) (s : t) : t :=
  match str with
  | [] => s
  | c :: str => if c =? 0 then s else shift_str str (Input [c] s)
  end.

(** [while (Message_Block_Index < limit) Message_Block[Message_Block_Index++] = 0]. *)
Fixpoint fill (fuel limit : nat) (s : t) : t :=
  match fuel with
  | O => s
  | S fuel =>
      if (Message_Block_Index s <? limit)%nat then fill fuel limit (put 0 s) else s
  end.

(** The big-endian bytes of the two length words. *)
Definition length_bytes (hi lo : Z) : list Z :=
  map (fun k => Z.land (Z.shiftr hi k) 0xFF) [24; 16; 8; 0] ++
  map (fun k => Z.land (Z.shiftr lo k) 0xFF) [24; 16; 8; 0].

Definition store_length (s : t) : t :=
  mk (H s) (Length_Low s) (Length_High s)
     (take 56 (Message_Block s) ++ length_bytes (Length_High s) (Length_Low s))
     (Message_Block_Index s) (Computed s) (Corrupted s).

Definition PadMessage (s : t) : t :=
  let s :=
    if (55 <? Message_Block_Index s)%nat
    then fill 64 56 (ProcessMessageBlock (fill 64 64 (put 0x80 s)))
    else fill 64 56 (put 0x80 s) in
  ProcessMessageBlock (store_length s).

(** [Result]: the digest, or [None] for [false]. *)
Definition Result (s : t) : option (list Z) * t :=
  if Corrupted s then (None, s)
  else
    let s := if Computed s then s else
      let s := PadMessage s in
      mk (H s) (Length_Low s) (Length_High s) (Message_Block s) (Message_Block_Index s)
         true (Corrupted s) in
    (Some (H s), s).

End SHA1.

(** * The one-shot definition *)
Module Sha1Spec.

(** A message in 64-byte blocks; an incomplete last one is dropped. *)
Fixpoint blocks (fuel : nat) (l : list Z) : list (list Z) :=
  match fuel with
  | O => []
  | S fuel => if (length l <? 64)%nat then [] else take 64 l :: blocks fuel (drop 64 l)
  end.

(** The 64-bit big-endian length. *)
Definition be64 (n : Z) : list Z := map (fun k => n / 2 ^ k mod 256) [56; 48; 40; 32; 24; 16; 8; 0].

(** A one bit, zeros to 8 bytes short of a block, the length in bits. *)
Definition pad (m : list Z) : list Z :=
  m ++ [0x80] ++ replicate (Z.to_nat ((55 - Z.of_nat (length m)) mod 64)) 0 ++
  be64 (8 * Z.of_nat (length m)).

Definition digest (m : list Z) : list Z :=
  foldl SHA1.compress SHA1.H0 (blocks (length (pad m)) (pad m)).

End Sha1Spec.

(** * Properties *)
Module Sha1Props.
Import SHA1 Sha1Spec.

(** The state after the message [concat bl ++ rest] was input. *)
Record rep (bl : list (list Z)) (rest : list Z) (s : t) : Prop := mk_rep {
  rp_blocks : Forall (fun b => length b = 64%nat) bl;
  rp_rest : (length rest < 64)%nat;
  rp_H : H s = foldl compress H0 bl;
  rp_len : Length_Low s + 2 ^ 32 * Length_High s =
             8 * Z.of_nat (length (concat bl ++ rest)) /\ 0 <= Length_Low s < 2 ^ 32;
  rp_block : length (Message_Block s) = 64%nat;
  rp_fill : take (length rest) (Message_Block s) = rest;
  rp_idx : Message_Block_Index s = length rest;
  rp_flags : Computed s = false /\ Corrupted s = false
}.

(** Messages whose length in bits fits 64 bits. *)
Definition short (n : nat) : Prop := Z.of_nat n < 2 ^ 61.

Lemma rep_create garbage : length garbage = 64%nat -> rep [] [] (create garbage).
Proof. intros. by constructor; cbn; try lia. Qed.

Lemma land_byte b : byte_ok b -> Z.land b 0xFF = b.
Proof.
  intros. change 0xFF with (Z.ones 8). rewrite Z.land_ones by lia. by apply Z.mod_small.
Qed.

Lemma take_insert_last {A} (l : list A) i x :
  (i < length l)%nat -> take (S i) (<[i := x]> l) = take i l ++ [x].
Proof.
  intros Hi. erewrite take_S_r by (by apply list_lookup_insert_eq). f_equal.
  apply take_insert_ge. lia.
Qed.

(** The 64-bit count of bits in two 32-bit words. *)
Lemma add_bits lo hi n :
  lo + 2 ^ 32 * hi = 8 * n -> 0 <= lo < 2 ^ 32 -> 0 <= n -> n + 1 < 2 ^ 61 ->
  let lo' := u32 (lo + 8) in
  let hi' := if lo' =? 0 then u32 (hi + 1) else hi in
  lo' + 2 ^ 32 * hi' = 8 * (n + 1) /\ 0 <= lo' < 2 ^ 32 /\
  ((lo' =? 0) = true -> (hi' =? 0) = false).
Proof.
  intros E Hlo Hn Hm. cbn zeta. destruct (decide (lo + 8 = 2 ^ 32)) as [E8|].
  - rewrite E8. change (u32 (2 ^ 32)) with 0. rewrite Z.eqb_refl.
    rewrite wrap_small by (unfold in_u; lia). split; [lia|]. split; [lia|].
    intros _. apply Z.eqb_neq. lia.
  - rewrite (wrap_small 32 (lo + 8)) by (unfold in_u; lia).
    rewrite (proj2 (Z.eqb_neq _ _)) by lia. split; [lia|]. split; [lia|done].
Qed.

Lemma input_byte_rep bl rest s b :
  rep bl rest s -> byte_ok b -> short (length (concat bl ++ rest) + 1) ->
  exists bl' rest', rep bl' rest' (input_byte b s) /\
    concat bl' ++ rest' = (concat bl ++ rest) ++ [b].
Proof.
  intros [Hbl Hr HH [Hl1 Hl2] Hblk Hfill Hidx [Hc Hx]] Hb Hs. unfold short in Hs.
  unfold input_byte. rewrite land_byte by done. unfold put. cbn [H Length_Low Length_High
    Message_Block Message_Block_Index Computed Corrupted].
  destruct (add_bits _ _ _ Hl1 Hl2) as (L1 & L2 & L3); [lia..|].
  set (lo := u32 (Length_Low s + 8)) in *. set (hi := if lo =? 0 then _ else _) in *.
  assert ((if lo =? 0 then if hi =? 0 then true else Corrupted s else Corrupted s) = false) as ->.
  { destruct (lo =? 0); [by rewrite L3|done]. }
  assert (length (rest ++ [b]) = S (length rest)) as Hlr by (rewrite length_app; cbn; lia).
  assert (take (S (length rest)) (<[length rest:=b]> (Message_Block s)) = rest ++ [b]) as Ht
    by (rewrite take_insert_last, Hfill by lia; done).
  rewrite Hidx. destruct (Nat.eqb_spec (S (length rest)) 64) as [E|E].
  - exists (bl ++ [rest ++ [b]]), []. unfold ProcessMessageBlock.
    cbn [H Length_Low Length_High Message_Block Message_Block_Index Computed Corrupted].
    assert (<[length rest:=b]> (Message_Block s) = rest ++ [b]) as Hfull.
    { rewrite <- Ht. symmetry. apply take_ge. rewrite length_insert. lia. }
    rewrite concat_app. cbn [concat]. rewrite !app_nil_r. split; [|by rewrite app_assoc].
    constructor; cbn [H Length_Low Length_High Message_Block Message_Block_Index Computed Corrupted
      length]; auto; try lia.
    + apply Forall_app. split; [done|]. constructor; [lia|done].
    + rewrite foldl_app, <- HH, Hfull. done.
    + split; [|done]. rewrite L1, !app_nil_r, concat_app, !length_app. cbn [concat length].
      rewrite !length_app. cbn [length]. lia.
    + rewrite Hfull. lia.
  - exists bl, (rest ++ [b]). split; [|by rewrite app_assoc].
    constructor; cbn [H Length_Low Length_High Message_Block Message_Block_Index Computed Corrupted];
      rewrite ?Hlr, ?length_insert; auto; try lia.
    split; [|done]. rewrite L1, !length_app. cbn [length]. lia.
Qed.

Lemma input_loop_rep (bytes : list Z) bl rest s :
  rep bl rest s -> bytes_ok bytes -> short (length (concat bl ++ rest) + length bytes) ->
  exists bl' rest', rep bl' rest' (input_loop bytes s) /\
    concat bl' ++ rest' = (concat bl ++ rest) ++ bytes.
Proof.
  revert bl rest s. induction bytes as [|b bytes IH]; intros bl rest s R Hb Hs; cbn [input_loop].
  { exists bl, rest. by rewrite app_nil_r. }
  apply Forall_cons_iff in Hb as [Hb0 Hb]. cbn [length] in Hs. unfold short in *.
  pose proof (rp_flags _ _ _ R) as [_ ->].
  destruct (input_byte_rep bl rest s b R Hb0) as (bl1 & rest1 & R1 & E1); [unfold short; lia|].
  destruct (IH bl1 rest1 _ R1 Hb) as (bl2 & rest2 & R2 & E2).
  { rewrite E1, length_app. cbn [length]. lia. }
  exists bl2, rest2. split; [done|]. by rewrite E2, E1, <- app_assoc.
Qed.

Lemma Input_rep (bytes : list Z) bl rest s :
  rep bl rest s -> bytes_ok bytes -> short (length (concat bl ++ rest) + length bytes) ->
  exists bl' rest', rep bl' rest' (Input bytes s) /\
    concat bl' ++ rest' = (concat bl ++ rest) ++ bytes.
Proof.
  intros R Hb Hs. unfold Input. destruct bytes as [|b bytes].
  { exists bl, rest. by rewrite app_nil_r. }
  cbn [length Nat.eqb]. pose proof (rp_flags _ _ _ R) as [-> ->]. cbn [orb].
  by apply input_loop_rep.
Qed.

(** ** Padding *)

Lemma fill_spec n s :
  (Message_Block_Index s + n <= length (Message_Block s))%nat -> (n <= 64)%nat ->
  let s' := fill 64 (Message_Block_Index s + n) s in
  H s' = H s /\ Length_Low s' = Length_Low s /\ Length_High s' = Length_High s /\
  length (Message_Block s') = length (Message_Block s) /\
  take (Message_Block_Index s + n) (Message_Block s') =
    take (Message_Block_Index s) (Message_Block s) ++ replicate n 0.
Proof.
  cbn zeta. assert (forall fuel n s, (Message_Block_Index s + n <= length (Message_Block s))%nat ->
    (n <= fuel)%nat ->
    let s' := fill fuel (Message_Block_Index s + n) s in
    H s' = H s /\ Length_Low s' = Length_Low s /\ Length_High s' = Length_High s /\
    length (Message_Block s') = length (Message_Block s) /\
    take (Message_Block_Index s + n) (Message_Block s') =
      take (Message_Block_Index s) (Message_Block s) ++ replicate n 0) as HH; [|by apply HH].
  clear n s. induction fuel as [|fuel IH]; intros n s Hl Hn; cbn zeta; cbn [fill].
  { assert (n = 0%nat) as -> by lia. by rewrite Nat.add_0_r, app_nil_r. }
  destruct (Nat.ltb_spec (Message_Block_Index s) (Message_Block_Index s + n)) as [Hlt|Hge].
  - destruct n as [|n]; [lia|].
    destruct (IH n (put 0 s)) as (E1 & E2 & E3 & E4 & E5);
      [cbn; rewrite length_insert; lia|lia|].
    replace (Message_Block_Index s + S n)%nat with (Message_Block_Index (put 0 s) + n)%nat
      by (cbn; lia).
    rewrite E1, E2, E3, E4, E5. cbn [put H Length_Low Length_High Message_Block Message_Block_Index].
    rewrite length_insert, take_insert_last by lia. rewrite <- app_assoc. done.
  - assert (n = 0%nat) as -> by lia. by rewrite Nat.add_0_r, app_nil_r.
Qed.

Lemma blocks_concat (bl : list (list Z)) fuel :
  Forall (fun b => length b = 64%nat) bl -> (length bl < fuel)%nat ->
  blocks fuel (concat bl) = bl.
Proof.
  revert fuel. induction bl as [|b bl IH]; intros fuel Hb Hf; (destruct fuel as [|fuel]; [lia|]).
  - done.
  - apply Forall_cons_iff in Hb as [Hb Hbl]. cbn [blocks concat]. rewrite length_app.
    rewrite (proj2 (Nat.ltb_ge _ _)) by lia.
    rewrite <- Hb, take_app_exact, drop_app_exact, IH; [done|done|cbn in Hf; lia].
Qed.

Lemma concat_length (bl : list (list Z)) :
  Forall (fun b => length b = 64%nat) bl -> length (concat bl) = (64 * length bl)%nat.
Proof.
  induction 1 as [|b bl Hb _ IH]; [done|]. cbn [concat length]. rewrite length_app. lia.
Qed.

Lemma byte_at x k : 0 <= k -> Z.land (Z.shiftr x k) 0xFF = x / 2 ^ k mod 256.
Proof.
  intros. change 0xFF with (Z.ones 8). rewrite Z.land_ones, Z.shiftr_div_pow2 by lia. done.
Qed.

Lemma length_bytes_spec hi lo n :
  lo + 2 ^ 32 * hi = n -> 0 <= lo < 2 ^ 32 -> length_bytes hi lo = be64 n.
Proof.
  intros <- Hlo. unfold length_bytes, be64. cbn [map app]. rewrite !byte_at by lia.
  assert (forall k, 0 <= k -> hi / 2 ^ k = (lo + 2 ^ 32 * hi) / 2 ^ (32 + k)) as Hhi.
  { intros k Hk. rewrite Z.pow_add_r, <- Z.div_div by lia.
    rewrite (Z.mul_comm _ hi), Z.div_add, (Z.div_small lo) by lia. done. }
  assert (forall k j, 0 <= k -> 0 <= j -> k + 8 + j = 32 ->
    lo / 2 ^ k mod 256 = (lo + 2 ^ 32 * hi) / 2 ^ k mod 256) as Hlow.
  { intros k j Hk Hj E. rewrite <- E, !Z.pow_add_r by lia.
    replace (lo + 2 ^ k * 2 ^ 8 * 2 ^ j * hi) with (lo + (2 ^ j * hi * 256) * 2 ^ k) by lia.
    rewrite Z.div_add by lia. by rewrite Z.mod_add. }
  rewrite !Hhi by lia. cbn [Z.add Pos.add Pos.succ].
  rewrite (Hlow 24 0), (Hlow 16 8), (Hlow 8 16), (Hlow 0 24) by lia. done.
Qed.

(** What [PadMessage] hashes is the padded message. *)
Lemma PadMessage_spec bl rest s :
  rep bl rest s ->
  exists bl', Forall (fun b => length b = 64%nat) bl' /\ concat bl' = pad (concat bl ++ rest) /\
    H (PadMessage s) = foldl compress H0 bl'.
Proof.
  intros [Hbl Hr HH [Hl1 Hl2] Hblk Hfill Hidx _]. unfold PadMessage, pad.
  pose proof (concat_length bl Hbl) as Hcl.
  rewrite <- (length_bytes_spec _ _ _ Hl1 Hl2). rewrite length_app, Hcl.
  set (s1 := put 0x80 s).
  assert (length (Message_Block s1) = 64%nat) as B1 by (cbn; by rewrite length_insert).
  assert (Message_Block_Index s1 = S (length rest)) as I1 by (cbn; lia).
  assert (take (S (length rest)) (Message_Block s1) = rest ++ [0x80]) as T1.
  { cbn. rewrite Hidx, take_insert_last, Hfill by lia. done. }
  assert (length (length_bytes (Length_High s) (Length_Low s)) = 8%nat) as Hlb by done.
  rewrite Hidx. destruct (Nat.ltb_spec 55 (length rest)) as [Hgt|Hle].
  - destruct (fill_spec (63 - length rest) s1) as (F1 & F2 & F3 & F4 & F5); [lia..|].
    rewrite I1 in F1, F2, F3, F4, F5.
    replace (S (length rest) + (63 - length rest))%nat with 64%nat in * by lia.
    rewrite T1, take_ge in F5 by lia. set (s2 := fill 64 64 s1) in *.
    set (s3 := ProcessMessageBlock s2).
    destruct (fill_spec 56 s3) as (G1 & G2 & G3 & G4 & G5);
      [change (0 + 56 <= length (Message_Block s2))%nat; lia|lia|].
    change (Message_Block_Index s3 + 56)%nat with 56%nat in *.
    set (s4 := fill 64 56 s3) in *. cbn [s3 ProcessMessageBlock Message_Block_Index take app] in G5.
    exists (bl ++ [(rest ++ [0x80]) ++ replicate (63 - length rest) 0;
                   replicate 56 0 ++ length_bytes (Length_High s) (Length_Low s)]).
    split; [|split].
    + apply Forall_app. split; [done|].
      repeat constructor; rewrite ?length_app, ?length_replicate; cbn [length]; lia.
    + rewrite concat_app. cbn [concat]. rewrite app_nil_r, <- !app_assoc. do 3 f_equal.
      rewrite app_assoc, <- replicate_add. f_equal. f_equal. divlia.
    + cbn [ProcessMessageBlock H store_length Message_Block].
      rewrite foldl_app, <- HH. cbn [foldl]. rewrite G1, G5, G2, G3.
      change (H s3) with (compress (H s2) (Message_Block s2)).
      change (Length_High s3) with (Length_High s2). change (Length_Low s3) with (Length_Low s2).
      by rewrite F1, F2, F3, F5.
  - destruct (fill_spec (55 - length rest) s1) as (F1 & F2 & F3 & F4 & F5); [lia..|].
    rewrite I1 in F1, F2, F3, F4, F5.
    replace (S (length rest) + (55 - length rest))%nat with 56%nat in * by lia.
    rewrite T1 in F5.
    exists (bl ++ [((rest ++ [0x80]) ++ replicate (55 - length rest) 0) ++
                   length_bytes (Length_High s) (Length_Low s)]).
    split; [|split].
    + apply Forall_app. split; [done|].
      repeat constructor; rewrite ?length_app, ?length_replicate, ?Hlb; cbn [length]; lia.
    + rewrite concat_app. cbn [concat]. rewrite app_nil_r, <- !app_assoc. do 3 f_equal.
      f_equal. f_equal. divlia.
    + cbn [ProcessMessageBlock H store_length Message_Block].
      rewrite foldl_app, <- HH. cbn [foldl]. by rewrite F1, F2, F3, F5.
Qed.

Lemma Result_rep bl rest s :
  rep bl rest s -> fst (Result s) = Some (digest (concat bl ++ rest)).
Proof.
  intros R. pose proof (rp_flags _ _ _ R) as [Hc Hx]. unfold Result. rewrite Hx, Hc. cbn [fst H].
  destruct (PadMessage_spec _ _ _ R) as (bl' & F & Ep & ->).
  unfold digest. rewrite <- Ep, blocks_concat; [done|done|].
  pose proof (concat_length _ F). rewrite Ep. rewrite Ep in H1.
  assert (1 <= length (pad (concat bl ++ rest)))%nat
    by (unfold pad; rewrite length_app; cbn; lia). lia.
Qed.

Lemma Inputs_rep garbage pieces :
  length garbage = 64%nat -> Forall bytes_ok pieces -> short (length (concat pieces)) ->
  exists bl rest, rep bl rest (foldl (fun s p => Input p s) (create garbage) pieces) /\
    concat bl ++ rest = concat pieces.
Proof.
  intros Hg Hp Hs. revert Hp Hs. induction pieces as [|p ps IH] using rev_ind; intros Hp Hs.
  { exists [], []. split; [by apply rep_create|done]. }
  apply Forall_app in Hp as [Hp Hp1]. apply Forall_cons_iff in Hp1 as [Hp1 _].
  unfold short in *. rewrite concat_app, length_app in Hs. cbn [concat] in Hs.
  rewrite app_nil_r in Hs.
  destruct IH as (bl & rest & R & E); [done|lia|]. rewrite foldl_app.
  destruct (Input_rep p bl rest _ R Hp1) as (bl' & rest' & R' & E');
    [rewrite E; unfold short; lia|].
  exists bl', rest'. split; [exact R'|]. rewrite E', E, concat_app. cbn [concat].
  by rewrite app_nil_r.
Qed.

(** [operator<<] of a string is one [Input] per character. *)
Lemma shift_str_inputs str s :
  Forall (fun c => c <> 0) str ->
  shift_str str s = foldl (fun s p => Input p s) s (map (fun c => [c]) str).
Proof.
  intros Hstr. revert s. induction Hstr as [|c str Hc _ IH]; intros s; simpl; [done|].
  apply Z.eqb_neq in Hc as ->. apply IH.
Qed.

Lemma concat_singletons {A} (l : list A) : concat (map (fun c => [c]) l) = l.
Proof. induction l; simpl; [done|by f_equal]. Qed.

Lemma shift_str_digest garbage str :
  length garbage = 64%nat -> bytes_ok str -> Forall (fun c => c <> 0) str ->
  short (length str) ->
  fst (Result (shift_str str (create garbage))) = Some (digest str).
Proof.
  intros Hg Hb Hz Hs. rewrite shift_str_inputs by done.
  destruct (Inputs_rep garbage (map (fun c => [c]) str)) as (bl & rest & R & E);
    [done| |by rewrite concat_singletons|].
  - rewrite Forall_map. eapply Forall_impl; [|exact Hb]. intros c Hc. by repeat constructor; apply Hc.
  - rewrite concat_singletons in E. by rewrite (Result_rep _ _ _ R), E.
Qed.

(** C32.  Streaming.  However a message of less than 2^61 bytes is cut into the
    calls of [Input], [Result] then gives the digest of FIPS 180 of the whole
    message: the bytes padded with a one bit, zeros and the 64-bit length,
    compressed block by block. *)
Theorem sha1_streaming garbage pieces :
  length garbage = 64%nat -> Forall bytes_ok pieces -> short (length (concat pieces)) ->
  fst (Result (foldl (fun s p => Input p s) (create garbage) pieces)) =
    Some (digest (concat pieces)).
Proof.
  intros Hg Hp Hs. destruct (Inputs_rep garbage pieces Hg Hp Hs) as (bl & rest & R & E).
  by rewrite (Result_rep _ _ _ R), E.
Qed.

(** The test vector of FIPS 180 for abc, in two calls. *)
Lemma sha1_streaming_witness :
  fst (Result (foldl (fun s p => Input p s) (create (replicate 64 255)) [[97]; [98; 99]])) =
    Some (digest [97; 98; 99]) /\
  digest [97; 98; 99] = [0xA9993E36; 0x4706816A; 0xBA3E2571; 0x7850C26C; 0x9CD0D89D].
Proof.
  split; [|vm_compute; reflexivity].
  apply (sha1_streaming (replicate 64 255) [[97]; [98; 99]]).
  - reflexivity.
  - repeat constructor; done.
  - vm_compute. reflexivity.
Defined.

End Sha1Props.
