(* ===== verification/WebSock.v ===== *)
(** * WebSock: WebSocketPacket and WebSocketConnect

    Models src/src/network/WebSocketPacket.h, WebSocketPacket.cpp,
    WebSocketConnect.h and WebSocketConnect.cpp: frame heads, masking, the
    opening handshake and the loop that cuts the byte stream into frames.
    What the connection calls on its user, and what it writes to the socket,
    are the events of the model.  [None] and [Fault] stand for an access
    outside an object. *)
From S2P Require Import Prelude Bytes ByteBuf MsgBuf TcpSock Frames Sha1 Base64.

Module WebSocketPacket.
Import ByteBuffer.

Definition WS_HEAD_SIZE : nat := 2.
Definition WS_MAX_HEAD_SIZE : nat := 14.

(** [WSFrameType], the values the code uses. *)
Definition BINARY_FRAME : Z := 0x82.
Definition PING_FRAME : Z := 0x89.
Definition PONG_FRAME : Z := 0x8A.
Definition CLOSE_FRAME : Z := 0x08.

(** The buffer of the base class and the two fields; [__m_head] is not
    initialised by the constructor and is written before it is read. *)
Record packet : Type := mkp { buf : ByteBuffer.t; m_head : list Z; m_headpos : Z }.

Definition set_buf (b : ByteBuffer.t) (p : packet) : packet := mkp b (m_head p) (m_headpos p).
Definition set_headpos (h : Z) (p : packet) : packet := mkp (buf p) (m_head p) h.
Definition wpos (p : packet) : nat := ByteBuffer.wpos (buf p).

Definition zero (p : packet) : packet :=
  mkp (mk (vresize WS_MAX_HEAD_SIZE (storage (buf p))) WS_MAX_HEAD_SIZE WS_MAX_HEAD_SIZE)
    (m_head p) 0.

(** [new WebSocketPacket]: the base constructor empties the pooled vector. *)
Definition create (recycled : list Z) : packet :=
  zero (mkp (BasePacket.create recycled) [0; 0] 0).

Definition getHeadSize : Z := Z.of_nat WS_MAX_HEAD_SIZE.

Definition head (i : nat) (p : packet) : Z := nth i (m_head p) 0.
Definition getFin (p : packet) : Z := Z.land (Z.shiftr (head 0 p) 7) 0x01.
Definition getOpcode (p : packet) : Z := Z.land (head 0 p) 0x0F.
Definition getMask (p : packet) : Z := Z.land (Z.shiftr (head 1 p) 7) 0x01.
Definition getPayloadLen (p : packet) : Z := Z.land (head 1 p) 0x7f.

Definition calcHeadSize (p : packet) : Z :=
  let headlen := Z.of_nat WS_HEAD_SIZE in
  let headlen := if getPayloadLen p =? 126 then headlen + 2
                 else if getPayloadLen p =? 127 then headlen + 8 else headlen in
  if negb (getMask p =? 0) then headlen + 4 else headlen.

(** [memcpy(__m_head + _wpos, pbuff, readsize)]. *)
Definition write_head (at_ : nat) (d : list Z) (h : list Z) : option (list Z) :=
  if (at_ + length d <=? length h)%nat
  then Some (take at_ h ++ d ++ drop (at_ + length d) h) else None.

(** The first half of [readFrameHead]: the two fixed bytes.  The result is
    [readsize], the bytes left and the packet; as in the code, the input is
    advanced only when the second byte has arrived. *)
Definition read_fixed (d : list Z) (p : packet) : option (nat * list Z * packet) :=
  let rsize := i32 (Z.of_nat WS_HEAD_SIZE - Z.of_nat (wpos p)) in
  if 0 <? rsize then
    let readsize := Nat.min (Z.to_nat rsize) (length d) in
    h ← write_head (wpos p) (take readsize d) (m_head p);
    let p := mkp (set_wpos (wpos p + readsize) (buf p)) h (m_headpos p) in
    if (wpos p =? WS_HEAD_SIZE)%nat then
      let p := set_headpos (u8 (Z.of_nat WS_MAX_HEAD_SIZE - calcHeadSize p)) p in
      let p := set_buf (set_wpos (Z.to_nat (m_headpos p) + WS_HEAD_SIZE) (buf p)) p in
      Some (readsize, drop readsize d, p)
    else Some (readsize, d, p)
  else Some (0%nat, d, p).

(** The second half: the rest of the head, to its place before the body. *)
Definition read_rest (readsize : nat) (d : list Z) (p : packet) : option (nat * packet) :=
  if (WS_HEAD_SIZE <=? wpos p)%nat && (0 <? length d)%nat then
    let rsize := i32 (Z.of_nat WS_MAX_HEAD_SIZE - Z.of_nat (wpos p)) in
    if 0 <? rsize then
      let rsize := Nat.min (Z.to_nat rsize) (length d) in
      b ← put (wpos p) (take rsize d) (buf p);
      Some ((readsize + rsize)%nat, set_buf (set_wpos (wpos p + rsize) b) p)
    else Some (readsize, p)
  else Some (readsize, p).

(** [readFrameHead(pData, size)]. *)
Definition readFrameHead (d : list Z) (p : packet) : option (nat * packet) :=
  '(readsize, d, p) ← read_fixed d p; read_rest readsize d p.

(** [getMarkLen]: the extended length is read at [WS_HEAD_SIZE], in the byte
    order of the host. *)
Definition getMarkLen (p : packet) : option Z :=
  let paylen := getPayloadLen p in
  if paylen <? 126 then Some paylen
  else if paylen =? 126 then
    len ← BasePacket.getValue Tuint16 WS_HEAD_SIZE (buf p); Some (i32 len)
  else
    len ← BasePacket.getValue Tuint64 WS_HEAD_SIZE (buf p); Some (i32 (u32 len)).

Definition isHeadFull (p : packet) : bool := (WS_MAX_HEAD_SIZE <=? wpos p)%nat.

(** [writeFrameHead(bodylen, frame_type)]: the head is written backwards from
    the body. *)
Definition writeFrameHead (bodylen frame_type : Z) (p : packet) : option packet :=
  let p := set_headpos (Z.of_nat WS_MAX_HEAD_SIZE) p in
  '(bytelength, p) ←
    (if bodylen <=? 125 then Some (u8 bodylen, p)
     else if bodylen <=? 0xffff then
       let p := set_headpos (u8 (m_headpos p - 2)) p in
       b ← put_val (Z.to_nat (m_headpos p)) Tuint16 (u16 bodylen) (buf p);
       Some (126, set_buf b p)
     else
       let p := set_headpos (u8 (m_headpos p - 8)) p in
       b ← put_val (Z.to_nat (m_headpos p)) Tuint64 (u64 bodylen) (buf p);
       Some (127, set_buf b p));
  let p := set_headpos (u8 (m_headpos p - 1)) p in
  b ← put_val (Z.to_nat (m_headpos p)) Tuint8 bytelength (buf p);
  let p := set_headpos (u8 (m_headpos p - 1)) (set_buf b p) in
  b ← put_val (Z.to_nat (m_headpos p)) Tuint8 (u8 frame_type) (buf p);
  Some (set_buf b p).

(** [moveData], between two WebSocket packets. *)
Definition moveData (this pack : packet) : option (packet * packet) :=
  let len := BasePacket.getBodySize getHeadSize (buf pack) in
  let this := set_buf (set_wpos (wpos pack) (set_rpos (rpos (buf pack)) (buf this))) this in
  let '(b1, b2) := swapBuffer (buf this) (buf pack) in
  let pack := zero (set_buf b2 pack) in
  this ← writeFrameHead len BINARY_FRAME (set_buf b1 this);
  Some (this, pack).

Definition getMaskKey (p : packet) : option Z :=
  BasePacket.getValue Tuint32 (WS_MAX_HEAD_SIZE - 4) (buf p).

Definition sendSize (p : packet) : Z := i32 (Z.of_nat (wpos p) - m_headpos p).
Definition sendStream (p : packet) : list Z := drop (Z.to_nat (m_headpos p)) (storage (buf p)).

Definition setPongPacket (p : packet) : option packet :=
  if (1 <=? wpos p)%nat then
    b ← BasePacket.setValue Tuint8 (Z.to_nat (m_headpos p)) (u8 PONG_FRAME) (buf p);
    Some (set_buf b p)
  else Some p.

End WebSocketPacket.

Module WebSocketConnect.
Import WebSocketPacket.

(** What the connection does to the outside. *)
Inductive event : Type :=
  | OnMsg (p : packet)
  | OnHandshake
  | OnClose
  | Close
  | Write (d : list Z).

Record state : Type := mkst {
  m_strHost : list Z; m_strKey : list Z; m_isHandshake : bool; m_readPacket : option packet
}.
Definition create : state := mkst [] [] false None.

Definition createPacket : packet := WebSocketPacket.create [].

(** The bytes the socket sends for a packet. *)
Definition sent_bytes (p : packet) : list Z := take (Z.to_nat (sendSize p)) (sendStream p).

(** [decodingDatas(pPacket, msg_mask)]: the bytes from [rpos] on. *)
Fixpoint xor_key (key : list Z) (i : nat) (c : list Z) : list Z :=
  match c with
  | [] => []
  | x :: c => Z.lxor x (nth (i mod 4) key 0) :: xor_key key (S i) c
  end.

Definition decodingDatas (p : packet) (msg_mask : Z) : option packet :=
  len ← getMarkLen p;
  let n := Z.to_nat len in
  let st := ByteBuffer.storage (buf p) in
  let r := ByteBuffer.rpos (buf p) in
  if (r + n <=? length st)%nat then
    Some (set_buf (ByteBuffer.mk
      (take r st ++ xor_key (obj_bytes Tuint32 msg_mask) 0 (take n (drop r st)) ++ drop (r + n) st)
      r (wpos p)) p)
  else None.

(** [sendMsg(pack)] and [sendMsg(msg, len)]: the bytes written. *)
Definition sendMsg_packet (pack : packet) : option (list Z) :=
  '(p, _) ← moveData createPacket pack; Some (sent_bytes p).
Definition sendMsg_data (msg : list Z) : option (list Z) :=
  p ← writeFrameHead (i32 (u32 (Z.of_nat (length msg)))) BINARY_FRAME createPacket;
  b ← ByteBuffer.append msg (buf p);
  Some (sent_bytes (set_buf b p)).

(** "new packet": unmask, then the switch on the opcode. *)
Definition finish (p : packet) : option (list event) :=
  p ← (if negb (getMask p =? 0) then k ← getMaskKey p; decodingDatas p k else Some p);
  if getOpcode p =? CLOSE_FRAME then Some [Close]
  else if getOpcode p =? PING_FRAME then
    p ← setPongPacket p; d ← sendMsg_packet p; Some [Write d]
  else Some [OnMsg p].

(** One iteration of the [while] loop of [on_msgbuffer]. *)
Definition iteration (buffer : MessageBuffer.t) (m_readPacket : option packet) :
    option (MessageBuffer.t * option packet * list event) :=
  let p := match m_readPacket with
           | Some p => p
           | None => set_buf (ByteBuffer.set_wpos 0 (buf createPacket)) createPacket
           end in
  if negb (isHeadFull p) then
    d ← MessageBuffer.read_ptr (Z.to_nat (MessageBuffer.GetActiveSize buffer)) buffer;
    '(rlen, p) ← readFrameHead d p;
    Some (MessageBuffer.ReadCompleted rlen buffer, Some p, [])
  else
    len ← getMarkLen p;
    let needsize := i32 (len + Z.of_nat WS_MAX_HEAD_SIZE - Z.of_nat (wpos p)) in
    '(buffer, p) ←
      (if 0 <? needsize then
         let active := MessageBuffer.GetActiveSize buffer in
         let wsize := i32 (if needsize <=? active then needsize else active) in
         if 0 <? wsize then
           d ← MessageBuffer.read_ptr (Z.to_nat wsize) buffer;
           b ← ByteBuffer.append d (buf p);
           Some (MessageBuffer.ReadCompleted (Z.to_nat wsize) buffer, set_buf b p)
         else Some (buffer, p)
       else Some (buffer, p));
    if Z.of_nat (wpos p) =? u64 (i32 (len + Z.of_nat WS_MAX_HEAD_SIZE)) then
      evs ← finish p; Some (buffer, None, evs)
    else Some (buffer, Some p, []).

(** The loop, with fuel. *)
Definition read_loop : nat -> MessageBuffer.t -> option packet ->
    result (MessageBuffer.t * option packet * list event) := while_active iteration.

(** ** The opening handshake *)

(** [std::getline]: the characters before the next newline and the rest;
    [None] at the end of the stream. *)
Fixpoint split_line (l : list Z) : list Z * list Z :=
  match l with
  | [] => ([], [])
  | c :: l => if c =? 10 then ([], l) else let '(a, r) := split_line l in (c :: a, r)
  end.
Definition getline (l : list Z) : option (list Z * list Z) :=
  match l with [] => None | _ => Some (split_line l) end.

Fixpoint is_prefix (p l : list Z) : bool :=
  match p, l with
  | [], _ => true
  | x :: p, y :: l => (x =? y) && is_prefix p l
  | _, _ => false
  end.

(** [line.find(pat)]: the first position, if any. *)
Fixpoint str_find (pat l : list Z) : option nat :=
  if is_prefix pat l then Some 0%nat
  else match l with [] => None | _ :: l => S <$> str_find pat l end.

(** [mapKey[k] = v]; the list holds the latest value of a key first. *)
Definition map_set (k v : list Z) (m : list (list Z * list Z)) : list (list Z * list Z) :=
  (k, v) :: m.
Fixpoint map_find (k : list Z) (m : list (list Z * list Z)) : option (list Z) :=
  match m with
  | [] => None
  | (k', v) :: m => if list_eq_dec Z.eq_dec k k' then Some v else map_find k m
  end.

(** The body of the loop over the header lines; [None] for the access before
    the start of an empty line.  A line without the separator has position
    [npos], and [npos + 2] is 1. *)
Definition header_line (line : list Z) (m : list (list Z * list Z)) :
    option (list (list Z * list Z)) :=
  if list_eq_dec Z.eq_dec line [13] then Some m else
  match line with
  | [] => None
  | _ =>
      if negb (List.last line 0 =? 13) then Some m else
      let value pos2 := take (length line - 1 - pos2) (drop pos2 line) in
      match str_find [58; 32] line with
      | Some pos => Some (map_set (take pos line) (value (pos + 2)%nat) m)
      | None => Some (map_set line (value 1%nat) m)
      end
  end.

Fixpoint header_lines (fuel : nat) (l : list Z) (m : list (list Z * list Z)) :
    option (list (list Z * list Z)) :=
  match fuel with
  | O => Some m
  | S fuel =>
      match getline l with
      | None => Some m
      | Some (line, l) => m ← header_line line m; header_lines fuel l m
      end
  end.

Definition str_GET : list Z := [71; 69; 84].
Definition str_Host : list Z := [72; 111; 115; 116].
Definition str_Key : list Z :=
  [83; 101; 99; 45; 87; 101; 98; 83; 111; 99; 107; 101; 116; 45; 75; 101; 121].

(** [parseHandshake(pData, len)], for the C string at [pData]. *)
Definition parseHandshake (cstr : list Z) (len : Z) (s : state) : option (bool * state) :=
  if len <? 2 then Some (false, s) else
  let '(line, rest) := split_line cstr in
  if negb (is_prefix str_GET line) then Some (false, s) else
  m ← header_lines (length rest) rest [];
  match map_find str_Host m with
  | None => Some (false, s)
  | Some host =>
      match map_find str_Key m with
      | None => Some (false, s)
      | Some key => Some (true, mkst host key (m_isHandshake s) (m_readPacket s))
      end
  end.

(** The GUID 258EAFA5-E914-47DA-95CA-C5AB0DC85B11. *)
Definition s_key : list Z :=
  [50; 53; 56; 69; 65; 70; 65; 53; 45; 69; 57; 49; 52; 45; 52; 55; 68; 65; 45; 57; 53; 67; 65;
   45; 67; 53; 65; 66; 48; 68; 67; 56; 53; 66; 49; 49].

(** The accept value: [htonl] of the digest words, in base64.  [garbage] is
    the uninitialised block of the SHA1 object. *)
Definition accept_value (garbage key : list Z) : option (list Z) :=
  let sha1 := SHA1.shift_str (key ++ s_key) (SHA1.create garbage) in
  digest ← fst (SHA1.Result sha1);
  Some (Base64.base64_encode (concat (map (fun w => rev (le_bytes 4 w)) digest))).

(** The pieces of [ackHandshake] around its two arguments. *)
Definition ack_1 : list Z :=
  [72; 84; 84; 80; 47; 49; 46; 49; 32; 49; 48; 49; 32; 83; 119; 105; 116; 99; 104; 105; 110;
   103; 32; 80; 114; 111; 116; 111; 99; 111; 108; 115; 13; 10; 85; 112; 103; 114; 97; 100; 101;
   58; 32; 119; 101; 98; 115; 111; 99; 107; 101; 116; 13; 10; 67; 111; 110; 110; 101; 99; 116;
   105; 111; 110; 58; 32; 85; 112; 103; 114; 97; 100; 101; 13; 10; 83; 101; 99; 45; 87; 101; 98;
   83; 111; 99; 107; 101; 116; 45; 65; 99; 99; 101; 112; 116; 58; 32].
Definition ack_2 : list Z :=
  [13; 10; 87; 101; 98; 83; 111; 99; 107; 101; 116; 45; 76; 111; 99; 97; 116; 105; 111; 110;
   58; 32; 119; 115; 58; 47; 47].
Definition ack_3 : list Z :=
  [47; 13; 10; 87; 101; 98; 83; 111; 99; 107; 101; 116; 45; 80; 114; 111; 116; 111; 99; 111;
   108; 58; 32; 87; 101; 98; 77; 97; 110; 97; 103; 101; 114; 83; 111; 99; 107; 101; 116; 13; 10;
   13; 10].

(** [respondHandshake]: [Tools::format] leaves the terminating NUL in the
    string. *)
Definition respondHandshake (garbage : list Z) (s : state) : option (list Z) :=
  key ← accept_value garbage (m_strKey s);
  Some (ack_1 ++ key ++ ack_2 ++ m_strHost s ++ ack_3 ++ [0]).

(** The C string at the read pointer; [None] when no NUL follows in the
    vector. *)
Fixpoint c_string (l : list Z) : option (list Z) :=
  match l with
  | [] => None
  | c :: l => if c =? 0 then Some [] else s ← c_string l; Some (c :: s)
  end.

(** [on_msgbuffer]. *)
Definition on_msgbuffer (fuel : nat) (buffer : MessageBuffer.t) (s : state) :
    result (MessageBuffer.t * state * list event) :=
  if negb (m_isHandshake s) then
    match (cstr ← c_string (drop (MessageBuffer.rpos buffer) (MessageBuffer.storage buffer));
           parseHandshake cstr (i32 (MessageBuffer.GetActiveSize buffer)) s) with
    | None => Fault
    | Some (false, s) => Done (buffer, s, [OnClose])
    | Some (true, s) =>
        match respondHandshake (replicate 64 0) s with
        | None => Fault
        | Some msg =>
            Done (buffer, mkst (m_strHost s) (m_strKey s) true (m_readPacket s),
                  [Write (take (length msg - 1) msg); OnHandshake])
        end
    end
  else
    match read_loop fuel buffer (m_readPacket s) with
    | Done (buffer, p, evs) =>
        Done (buffer, mkst (m_strHost s) (m_strKey s) (m_isHandshake s) p, evs)
    | OutOfFuel => OutOfFuel
    | Fault => Fault
    end.

End WebSocketConnect.
