(* ===== verification/WebSockProps.v ===== *)
(** * WebSockProps: what the WebSocket connection receives and sends

    The stream of frames as the connection reads it ([WsFrame.format], an
    instance of [FrameFormat]), the proof that its loop reads that format, and
    the theorems about what the user gets, what is sent and the opening
    handshake. *)
From S2P Require Import Prelude Bytes ByteBuf MsgBuf TcpSock Frames Sha1 Base64 WebSock.

Module WsFrame.
Import WebSocketPacket WebSocketConnect.

(** ** The head, from the first two bytes *)
Definition opcode (s : list Z) : Z := Z.land (nth 0 s 0) 0x0F.
Definition len7 (s : list Z) : Z := Z.land (nth 1 s 0) 0x7f.
Definition masked (s : list Z) : bool := negb (Z.land (Z.shiftr (nth 1 s 0) 7) 0x01 =? 0).

Definition head_size (s : list Z) : nat :=
  (2 + (if (len7 s =? 126)%Z then 2 else if (len7 s =? 127)%Z then 8 else 0)
     + (if masked s then 4 else 0))%nat.
Definition headpos (s : list Z) : nat := (14 - head_size s)%nat.

(** The body length the code reads: an extended length is looked for where it
    lies only when the head fills its 14 bytes. *)
Definition read_len (s : list Z) : Z :=
  if len7 s <? 126 then len7 s
  else if (len7 s =? 127) && masked s then i32 (le_val (take 8 (drop 2 s)))
  else 0.
Definition body (s : list Z) : option nat :=
  if (read_len s <? 0) || (2 ^ 31 - 14 <=? read_len s) then None
  else Some (Z.to_nat (read_len s)).

(** ** The packet that holds the bytes of an unfinished frame *)
Definition packet_of (bs : list Z) : packet :=
  if (length bs <? 2)%nat
  then mkp (ByteBuffer.mk (replicate 14 0) 14 (length bs)) (take 2 (bs ++ [0; 0])) 0
  else mkp (ByteBuffer.mk
              (replicate (headpos bs + 2) 0 ++ drop 2 bs ++
               replicate (head_size bs - length bs) 0) 14 (headpos bs + length bs))
         (take 2 bs) (Z.of_nat (headpos bs)).
Definition state_of (bs : list Z) : option packet :=
  if Nat.eqb (length bs) 0 then None else Some (packet_of bs).

(** What a frame is delivered as: its body unmasked. *)
Definition mask_key (f : list Z) : list Z := take 4 (drop (head_size f - 4) f).
Definition unmask (f : list Z) : list Z :=
  take (head_size f) f ++
  (if masked f then xor_key (mask_key f) 0 (drop (head_size f) f) else drop (head_size f) f).
Definition frame_event (f : list Z) : event :=
  if opcode f =? CLOSE_FRAME then Close else OnMsg (packet_of (unmask f)).

(** ** The format *)
Lemma len7_range s : 0 <= len7 s < 128.
Proof.
  unfold len7. change 0x7f with (Z.ones 7). rewrite Z.land_ones by lia. divlia.
Qed.

Lemma head_size_range s : (2 <= head_size s <= 14)%nat.
Proof. unfold head_size. destruct (len7 s =? 126), (len7 s =? 127), (masked s); lia. Qed.

(** The fields depend on the first two bytes only. *)
Definition same_head (a b : list Z) : Prop := nth 0 a 0 = nth 0 b 0 /\ nth 1 a 0 = nth 1 b 0.

Lemma same_head_app a b : (2 <= length a)%nat -> same_head (a ++ b) a.
Proof. intros. unfold same_head. by rewrite !app_nth1 by lia. Qed.

Lemma same_head_fields a b :
  same_head a b -> opcode a = opcode b /\ len7 a = len7 b /\ masked a = masked b /\
    head_size a = head_size b /\ headpos a = headpos b.
Proof.
  intros [H0 H1]. unfold headpos, head_size, opcode, len7, masked. by rewrite H0, H1.
Qed.

Lemma head_size_app a b : (2 <= length a)%nat -> head_size (a ++ b) = head_size a.
Proof. intros. by apply same_head_fields, same_head_app. Qed.

Lemma body_app a b : (head_size a <= length a)%nat -> body (a ++ b) = body a.
Proof.
  intros Hl. pose proof (head_size_range a).
  destruct (same_head_fields (a ++ b) a) as (_ & E1 & E2 & _); [apply same_head_app; lia|].
  unfold body, read_len. rewrite E1, E2. destruct (len7 a <? 126); [done|].
  destruct (len7 a =? 127) eqn:E127; [|done]. destruct (masked a) eqn:Em; [|done].
  bool_arith. unfold head_size in Hl. rewrite E127, Em in Hl. simpl in Hl. cbn [andb].
  by rewrite drop_app_le, take_app_le by (rewrite ?length_drop; lia).
Qed.

#[export] Program Instance format : FrameFormat event := {
  ff_fixed := 2; ff_head := head_size; ff_body := body; ff_event := frame_event
}.
Next Obligation. lia. Qed.
Next Obligation. apply head_size_range. Qed.
Next Obligation. apply head_size_app. Qed.
Next Obligation. apply body_app. Qed.

Lemma body_some s n :
  body s = Some n <-> read_len s = Z.of_nat n /\ Z.of_nat n < 2 ^ 31 - 14.
Proof.
  unfold body. destruct (Z.ltb_spec (read_len s) 0), (Z.leb_spec (2 ^ 31 - 14) (read_len s));
    simpl; split; intros Hn; try done; try lia.
  - injection Hn as <-. lia.
  - f_equal. lia.
Qed.

End WsFrame.

Module WsReadProps.
Import WebSocketPacket WebSocketConnect WsFrame.
#[local] Arguments head_size : simpl never.

(** ** The fields of the packet *)

Lemma packet_of_ge2 bs :
  (2 <= length bs)%nat ->
  packet_of bs = mkp (ByteBuffer.mk
      (replicate (headpos bs + 2) 0 ++ drop 2 bs ++ replicate (head_size bs - length bs) 0)
      14 (headpos bs + length bs)) (take 2 bs) (Z.of_nat (headpos bs)).
Proof. intros Hl%Nat.ltb_ge. unfold packet_of. by rewrite Hl. Qed.

Lemma head_packet i bs :
  (2 <= length bs)%nat -> (i < 2)%nat -> head i (packet_of bs) = nth i bs 0.
Proof.
  intros Hl Hi. rewrite packet_of_ge2 by done. unfold head; simpl m_head.
  destruct bs as [|a [|b bs]]; simpl in *; try lia. destruct i as [|[|]]; [done|done|lia].
Qed.

Lemma fields_packet bs :
  (2 <= length bs)%nat ->
  getOpcode (packet_of bs) = opcode bs /\ getPayloadLen (packet_of bs) = len7 bs /\
  negb (getMask (packet_of bs) =? 0) = masked bs.
Proof.
  intros Hl. unfold getOpcode, getPayloadLen, getMask. by rewrite !head_packet by lia.
Qed.

Lemma calcHeadSize_head p bs :
  head 1 p = nth 1 bs 0 -> calcHeadSize p = Z.of_nat (head_size bs).
Proof.
  intros Hh. unfold calcHeadSize, getPayloadLen, getMask, head_size, len7, masked. rewrite Hh.
  change (Z.of_nat WS_HEAD_SIZE) with 2.
  destruct (Z.land (nth 1 bs 0) 127 =? 126), (Z.land (nth 1 bs 0) 127 =? 127),
    (negb (Z.land (Z.shiftr (nth 1 bs 0) 7) 1 =? 0)); reflexivity.
Qed.

(** A packet whose head is complete: 14 bytes, then the body. *)
Definition head_area (f : list Z) : list Z :=
  replicate (headpos f + 2) 0 ++ take (head_size f - 2) (drop 2 f).

Lemma head_area_length f : (head_size f <= length f)%nat -> length (head_area f) = 14%nat.
Proof.
  intros Hl. pose proof (head_size_range f). unfold head_area, headpos.
  rewrite length_app, length_replicate, length_take, length_drop. lia.
Qed.

Lemma storage_full f :
  (head_size f <= length f)%nat ->
  ByteBuffer.storage (buf (packet_of f)) = head_area f ++ drop (head_size f) f /\
  wpos (packet_of f) = (14 + (length f - head_size f))%nat.
Proof.
  intros Hl. pose proof (head_size_range f). rewrite packet_of_ge2 by lia.
  unfold wpos; simpl. replace (head_size f - length f)%nat with 0%nat by lia.
  rewrite app_nil_r. unfold head_area. rewrite <- app_assoc. split.
  - f_equal. rewrite <- (take_drop (head_size f - 2) (drop 2 f)) at 1.
    f_equal. rewrite drop_drop. f_equal. lia.
  - unfold headpos. lia.
Qed.

Lemma getValue_packet ty pos f :
  (head_size f <= length f)%nat -> (pos + sizeof ty <= 14)%nat ->
  BasePacket.getValue ty pos (buf (packet_of f)) =
    Some (obj_val ty (take (sizeof ty) (drop pos (head_area f)))).
Proof.
  intros Hl Hp. pose proof (head_area_length f Hl) as Ha. destruct (storage_full f Hl) as [Hs _].
  unfold BasePacket.getValue. rewrite ByteBufProps.read_at_ok.
  - by rewrite Hs, drop_app_le, take_app_le by (rewrite ?length_drop; lia).
  - unfold ByteBuffer.size. rewrite Hs, length_app. lia.
Qed.

Lemma high_half_lost l : i32 (le_val (0 :: 0 :: 0 :: 0 :: l)) = 0.
Proof.
  cbn [le_val]. match goal with |- i32 ?x = 0 => replace x with (le_val l * 2 ^ 32) by lia end.
  unfold sext. by rewrite Z_mod_mult.
Qed.

Lemma ws_getMarkLen_packet f :
  (head_size f <= length f)%nat -> getMarkLen (packet_of f) = Some (read_len f).
Proof.
  intros Hl. pose proof (head_size_range f). pose proof (len7_range f).
  destruct (fields_packet f) as (_ & E7 & _); [lia|].
  unfold getMarkLen, read_len. rewrite E7.
  destruct (Z.ltb_spec (len7 f) 126) as [L|L]; [done|].
  assert (Hh : head_size f = (2 + (if (len7 f =? 126)%Z then 2 else 8) + (if masked f then 4 else 0))%nat).
  { unfold head_size. destruct (Z.eqb_spec (len7 f) 126); [done|].
    destruct (Z.eqb_spec (len7 f) 127); [done|lia]. }
  destruct (Z.eqb_spec (len7 f) 126) as [E|E].
  - rewrite getValue_packet by (done || simpl; lia). rewrite E. cbn [mbind option_bind].
    unfold head_area, headpos. rewrite Hh. destruct (masked f); reflexivity.
  - assert (len7 f = 127) as E127 by lia. rewrite E127.
    rewrite getValue_packet by (done || simpl; lia). cbn [mbind option_bind]. rewrite sext_wrap.
    unfold head_area, headpos. rewrite Hh. destruct (masked f); simpl; f_equal.
    + unfold obj_val; simpl. by rewrite drop_0, take_take.
    + apply high_half_lost.
Qed.

(** ** Reading the head *)

(** The second half of [readFrameHead]. *)
Lemma read_rest_packet n bs d (k := Nat.min (head_size bs - length bs) (length d)) :
  (2 <= length bs <= head_size bs)%nat ->
  read_rest n d (packet_of bs) = Some ((n + k)%nat, packet_of (bs ++ take k d)).
Proof.
  intros Hl. pose proof (head_size_range bs) as Hh. unfold read_rest.
  assert (wpos (packet_of bs) = (headpos bs + length bs)%nat) as Hw
    by (by rewrite packet_of_ge2 by lia).
  rewrite Hw. unfold headpos in Hw |- *.
  assert ((WS_HEAD_SIZE <=? 14 - head_size bs + length bs)%nat = true) as ->
    by (apply Nat.leb_le; unfold WS_HEAD_SIZE; lia).
  change (Z.of_nat WS_MAX_HEAD_SIZE) with 14. cbn [andb].
  rewrite sext_small by (unfold in_i; lia).
  replace (Z.to_nat (14 - Z.of_nat (14 - head_size bs + length bs)))
    with (head_size bs - length bs)%nat by lia. fold k.
  assert (Hk0 : k = 0%nat -> Some ((n + k)%nat, packet_of (bs ++ take k d)) =
                             Some (n, packet_of bs)).
  { intros ->. by rewrite take_0, app_nil_r, Nat.add_0_r. }
  destruct (Nat.ltb_spec 0 (length d)) as [Ld|Ld]; [|rewrite Hk0; [done|lia]].
  destruct (Z.ltb_spec 0 (14 - Z.of_nat (14 - head_size bs + length bs))) as [Lr|Lr];
    [|rewrite Hk0; [done|lia]].
  destruct (same_head_fields (bs ++ take k d) bs) as (_ & _ & _ & Ehs & Ehp);
    [apply same_head_app; lia|].
  rewrite (packet_of_ge2 bs), (packet_of_ge2 (bs ++ _)) by (rewrite ?length_app; lia).
  rewrite Ehs, Ehp, length_app, length_take, Nat.min_l by lia. cbn [buf].
  assert (Hp : (headpos bs + length bs)%nat = (14 - head_size bs + length bs)%nat) by done.
  rewrite <- Hp. set (z := replicate (headpos bs + 2) 0 ++ drop 2 bs).
  assert (Hz : length z = (headpos bs + length bs)%nat).
  { unfold z. rewrite length_app, length_replicate, length_drop. lia. }
  rewrite app_assoc. fold z. rewrite <- Hz.
  rewrite ByteBufProps.put_ok; simpl.
  2: { unfold ByteBuffer.size; simpl. rewrite length_app, length_replicate, length_take. lia. }
  rewrite take_app_exact, length_take, Nat.min_l by lia.
  rewrite drop_app_ge, drop_replicate by lia. unfold set_buf, ByteBuffer.set_wpos; simpl.
  rewrite (drop_app_le bs), (take_app_le bs), <- (app_assoc (drop 2 bs)), (app_assoc _ (drop 2 bs))
    by lia. fold z.
  replace (head_size bs - length bs - (length z + k - length z))%nat
    with (head_size bs - (length bs + k))%nat by lia.
  by replace (headpos bs + (length bs + k))%nat with (length z + k)%nat by lia.
Qed.

(** The first half. *)
Lemma read_fixed_done bs d :
  (2 <= length bs <= head_size bs)%nat ->
  read_fixed d (packet_of bs) = Some (0%nat, d, packet_of bs).
Proof.
  intros Hl. pose proof (head_size_range bs). unfold read_fixed.
  assert (2 <= wpos (packet_of bs) <= 14)%nat as Hw.
  { rewrite packet_of_ge2 by lia. unfold wpos, headpos; cbn [buf ByteBuffer.wpos]; lia. }
  rewrite sext_small by (unfold in_i; change (Z.of_nat WS_HEAD_SIZE) with 2; lia).
  change (Z.of_nat WS_HEAD_SIZE) with 2. by decide_bool.
Qed.

Lemma packet_of_two a b h0 (p := mkp (ByteBuffer.mk (replicate 14 0) 14 2) [a; b] h0) :
  let hp := u8 (Z.of_nat WS_MAX_HEAD_SIZE - calcHeadSize p) in
  mkp (ByteBuffer.mk (replicate 14 0) 14 (Z.to_nat hp + WS_HEAD_SIZE)) [a; b] hp
  = packet_of [a; b].
Proof.
  intros hp. pose proof (head_size_range [a; b]) as Hh.
  assert (hp = Z.of_nat (headpos [a; b])) as ->.
  { unfold hp. rewrite (calcHeadSize_head p [a; b]) by done.
    change (Z.of_nat WS_MAX_HEAD_SIZE) with 14. unfold headpos.
    rewrite wrap_small by (unfold in_u; lia). lia. }
  rewrite packet_of_ge2 by (simpl; lia). rewrite Nat2Z.id. unfold headpos.
  change (take 2 [a; b]) with [a; b]. change (drop 2 [a; b]) with (@nil Z).
  change (length [a; b]) with 2%nat. change WS_HEAD_SIZE with 2%nat.
  do 2 f_equal. rewrite app_nil_l, <- replicate_add. f_equal. lia.
Qed.

Lemma read_fixed_one x : read_fixed [x] (packet_of []) = Some (1%nat, [x], packet_of [x]).
Proof. reflexivity. Qed.

Lemma read_fixed_two x y d :
  read_fixed (x :: y :: d) (packet_of []) = Some (2%nat, d, packet_of [x; y]).
Proof. rewrite <- (packet_of_two x y 0). reflexivity. Qed.

Lemma read_fixed_second a x d :
  read_fixed (x :: d) (packet_of [a]) = Some (1%nat, d, packet_of [a; x]).
Proof. rewrite <- (packet_of_two a x 0). reflexivity. Qed.

Lemma read_rest_extends n bs d (bs' := bs ++ take n d) :
  (n <= length d)%nat -> (2 <= length bs' <= head_size bs')%nat ->
  exists k, (n <= k <= length d)%nat /\
    ((length bs' < head_size bs')%nat -> (n < length d)%nat -> (n < k)%nat) /\
    (length (bs ++ take k d) <= head_size (bs ++ take k d))%nat /\
    read_rest n (drop n d) (packet_of bs') = Some (k, packet_of (bs ++ take k d)).
Proof.
  intros Hn Hb. rewrite read_rest_packet by done. rewrite length_drop.
  set (m := Nat.min (head_size bs' - length bs') (length d - n)).
  assert (bs ++ take (n + m) d = bs' ++ take m (drop n d)) as E.
  { unfold bs'. by rewrite <- app_assoc, take_take_drop. }
  exists (n + m)%nat. rewrite E.
  split_and!; [lia|lia|lia| |done].
  rewrite head_size_app, length_app, length_take, length_drop by lia. lia.
Qed.

(** [readFrameHead] takes head bytes, at least one. *)
Lemma readFrameHead_packet bs d :
  (length bs < head_size bs)%nat -> d <> [] ->
  exists k, (0 < k <= length d)%nat /\
    (length (bs ++ take k d) <= head_size (bs ++ take k d))%nat /\
    readFrameHead d (packet_of bs) = Some (k, packet_of (bs ++ take k d)).
Proof.
  intros Hl Hd. destruct d as [|x d]; [done|]. unfold readFrameHead.
  destruct bs as [|a [|b bs]].
  - destruct d as [|y d].
    + exists 1%nat. pose proof (head_size_range [x]). simpl in *. split_and!; [lia|lia|lia|done].
    + pose proof (head_size_range [x; y]).
      destruct (read_rest_extends 2 [] (x :: y :: d)) as (k & Hk & _ & Hle & Hr);
        [simpl; lia|change ([] ++ take 2 (x :: y :: d)) with [x; y]; simpl length; lia|].
      exists k. rewrite read_fixed_two. split_and!; [lia|lia|done|exact Hr].
  - pose proof (head_size_range [a; x]).
    destruct (read_rest_extends 1 [a] (x :: d)) as (k & Hk & _ & Hle & Hr);
      [simpl; lia|change ([a] ++ take 1 (x :: d)) with [a; x]; simpl length; lia|].
    exists k. rewrite read_fixed_second. split_and!; [lia|lia|done|exact Hr].
  - destruct (read_rest_extends 0 (a :: b :: bs) (x :: d)) as (k & Hk & Hpos & Hle & Hr);
      [lia|rewrite take_0, app_nil_r; simpl in *; lia|].
    rewrite take_0, app_nil_r in *. exists k.
    rewrite read_fixed_done by (simpl in *; lia).
    split_and!; [simpl in *; lia|lia|done|exact Hr].
Qed.

(** ** Reading the body *)

Lemma ws_append_packet f d :
  (head_size f <= length f)%nat ->
  ByteBuffer.append d (buf (packet_of f)) = Some (buf (packet_of (f ++ d))) /\
  set_buf (buf (packet_of (f ++ d))) (packet_of f) = packet_of (f ++ d).
Proof.
  intros Hl. pose proof (head_size_range f).
  destruct (same_head_fields (f ++ d) f) as (_ & _ & _ & Ehs & Ehp);
    [apply same_head_app; lia|].
  rewrite (packet_of_ge2 f), (packet_of_ge2 (f ++ d)) by (rewrite ?length_app; lia).
  rewrite Ehs, Ehp, !length_app. unfold set_buf; cbn [buf m_head m_headpos].
  rewrite (take_app_le f), (drop_app_le f) by lia. split; [|done].
  replace (head_size f - length f)%nat with 0%nat by lia.
  replace (head_size f - (length f + length d))%nat with 0%nat by lia.
  cbn [replicate]. rewrite !app_nil_r, ByteBufProps.append_at_end.
  - cbn [ByteBuffer.storage ByteBuffer.rpos ByteBuffer.wpos].
    by rewrite <- app_assoc, Nat.add_assoc.
  - unfold ByteBuffer.size; cbn [ByteBuffer.storage ByteBuffer.wpos].
    rewrite length_app, length_replicate, length_drop. lia.
Qed.

Lemma xor_key_length key i c : length (xor_key key i c) = length c.
Proof. revert i. induction c; intros; simpl; auto. Qed.

Lemma unmask_same_head f : (2 <= length f)%nat -> same_head (unmask f) f.
Proof.
  intros Hl. pose proof (head_size_range f). unfold unmask, same_head.
  destruct f as [|a [|b f]]; simpl in *; [lia|lia|done].
Qed.

Lemma unmask_length f : length (unmask f) = length f.
Proof.
  unfold unmask. rewrite length_app.
  assert (length (if masked f then xor_key (mask_key f) 0 (drop (head_size f) f)
                  else drop (head_size f) f) = (length f - head_size f)%nat) as ->.
  { destruct (masked f); rewrite ?xor_key_length, length_drop; done. }
  rewrite length_take. lia.
Qed.

Lemma getMaskKey_packet f :
  (head_size f <= length f)%nat -> masked f = true -> bytes_ok f ->
  exists k, getMaskKey (packet_of f) = Some k /\ obj_bytes Tuint32 k = mask_key f.
Proof.
  intros Hl Hm Hb. pose proof (head_size_range f).
  assert (6 <= head_size f)%nat as H6.
  { unfold head_size. rewrite Hm. destruct (len7 f =? 126), (len7 f =? 127); lia. }
  unfold getMaskKey. rewrite getValue_packet by (done || (simpl; lia)).
  eexists. split; [reflexivity|].
  assert (take (sizeof Tuint32) (drop (WS_MAX_HEAD_SIZE - 4) (head_area f)) = mask_key f) as ->.
  { unfold head_area, mask_key, headpos. change (WS_MAX_HEAD_SIZE - 4)%nat with 10%nat.
    change (sizeof Tuint32) with 4%nat.
    rewrite drop_app_ge, length_replicate by (rewrite length_replicate; lia).
    rewrite skipn_firstn_comm, drop_drop, take_take. f_equal; [lia|]. f_equal. lia. }
  unfold obj_bytes, obj_val. simpl sizeof. simpl cty_signed.
  assert (length (mask_key f) = 4%nat) as E4.
  { unfold mask_key. rewrite length_take, length_drop. lia. }
  rewrite <- E4. apply le_bytes_val. by apply bytes_ok_take, bytes_ok_drop.
Qed.

(** Unmasking the body of the packet. *)
Lemma decodingDatas_packet f n k :
  (head_size f <= length f)%nat -> masked f = true -> body f = Some n ->
  length f = (head_size f + n)%nat -> obj_bytes Tuint32 k = mask_key f ->
  decodingDatas (packet_of f) k = Some (packet_of (unmask f)).
Proof.
  intros Hl Hm [Hn _]%body_some Hf Hk. pose proof (head_size_range f).
  pose proof (head_area_length f Hl) as Ha. destruct (storage_full f Hl) as [Hs Hw].
  unfold decodingDatas. rewrite ws_getMarkLen_packet, Hn by done.
  cbn [mbind option_bind]. rewrite Nat2Z.id.
  assert (ByteBuffer.rpos (buf (packet_of f)) = 14%nat) as -> by (by rewrite packet_of_ge2 by lia).
  rewrite Hs, length_app, Ha, length_drop.
  assert ((14 + n <=? 14 + (length f - head_size f))%nat = true) as -> by (apply Nat.leb_le; lia).
  rewrite take_app_length', drop_app_length' by done.
  rewrite (take_ge (drop (head_size f) f)) by (rewrite length_drop; lia).
  rewrite (drop_ge (head_area f ++ _)) by (rewrite length_app, length_drop; lia).
  rewrite Hw, Hk. destruct (same_head_fields (unmask f) f) as (_ & _ & _ & Ehs & Ehp);
    [apply unmask_same_head; lia|].
  rewrite (packet_of_ge2 (unmask f)), (packet_of_ge2 f) by (rewrite ?unmask_length; lia).
  rewrite Ehs, Ehp, unmask_length. unfold set_buf; cbn [m_head m_headpos].
  assert (take 2 (unmask f) = take 2 f) as ->.
  { unfold unmask. rewrite take_app_le, take_take, Nat.min_l by (rewrite ?length_take; lia).
    done. }
  replace (head_size f - length f)%nat with 0%nat by lia. cbn [replicate].
  rewrite !app_nil_r. do 3 f_equal; [|unfold headpos; lia].
  unfold unmask, head_area. rewrite Hm, <- app_assoc, drop_app_le by (rewrite length_take; lia).
  by rewrite skipn_firstn_comm.
Qed.

Lemma finish_packet f n :
  (head_size f <= length f)%nat -> bytes_ok f -> body f = Some n ->
  length f = (head_size f + n)%nat -> finish (packet_of f) = Some [frame_event f].
Proof.
  intros Hl Hb Hn Hf. pose proof (head_size_range f).
  destruct (fields_packet f) as (_ & _ & Em); [lia|].
  assert (exists p, (if negb (getMask (packet_of f) =? 0)
      then k ← getMaskKey (packet_of f); decodingDatas (packet_of f) k
      else Some (packet_of f)) = Some p /\ p = packet_of (unmask f)) as (p & Hp & ->).
  { rewrite Em. eexists. split; [|reflexivity]. destruct (masked f) eqn:Hm.
    - destruct (getMaskKey_packet f) as (k & Hk & Ek); [done..|]. rewrite Hk.
      cbn [mbind option_bind]. by apply (decodingDatas_packet f n).
    - unfold unmask. by rewrite Hm, take_drop. }
  unfold finish. rewrite Hp. cbn [mbind option_bind].
  destruct (fields_packet (unmask f)) as (Eo & _ & _); [rewrite unmask_length; lia|].
  rewrite Eo. destruct (same_head_fields (unmask f) f) as (E0 & _);
    [apply unmask_same_head; lia|].
  rewrite E0. unfold frame_event. destruct (opcode f =? CLOSE_FRAME); [done|].
  assert (0 <= opcode f < 16) as Ho.
  { unfold opcode. change 0x0F with (Z.ones 4). rewrite Z.land_ones by lia. divlia. }
  unfold PING_FRAME. by decide_bool.
Qed.

Lemma ws_state_of_packet bs :
  match state_of bs with
  | Some p => p
  | None => set_buf (ByteBuffer.set_wpos 0 (buf createPacket)) createPacket
  end = packet_of bs.
Proof.
  unfold state_of. destruct (Nat.eqb_spec (length bs) 0) as [E|E]; [|done].
  apply length_zero_iff_nil in E as ->. reflexivity.
Qed.

Lemma state_of_nonempty bs : (0 < length bs)%nat -> state_of bs = Some (packet_of bs).
Proof. intros. unfold state_of. destruct (Nat.eqb_spec (length bs) 0); [lia|done]. Qed.

Lemma ws_isHeadFull_packet bs :
  isHeadFull (packet_of bs) = (head_size bs <=? length bs)%nat.
Proof.
  pose proof (head_size_range bs). unfold isHeadFull, packet_of, WS_MAX_HEAD_SIZE.
  destruct (Nat.ltb_spec (length bs) 2) as [L|L]; unfold wpos, headpos;
    cbn [buf ByteBuffer.wpos];
    destruct (Nat.leb_spec (head_size bs) (length bs)); 
    [apply Nat.leb_le|apply Nat.leb_gt|apply Nat.leb_le|apply Nat.leb_gt]; lia.
Qed.

Section Iteration.
Context (buf : MessageBuffer.t) (bs : list Z).
Let r := MessageBuffer.active buf.
Hypothesis Hwf : MessageBuffer.wf buf.
Hypothesis Hsz : Z.of_nat (length r) < 2 ^ 31.
Hypothesis Hr0 : (0 < length r)%nat.

Lemma ws_iteration_head :
  (length bs < head_size bs)%nat ->
  exists k, (0 < k <= length r)%nat /\
    (length (bs ++ take k r) <= head_size (bs ++ take k r))%nat /\
    iteration buf (state_of bs) =
      Some (MessageBuffer.ReadCompleted k buf, state_of (bs ++ take k r), []).
Proof.
  intros L. destruct (readFrameHead_packet bs r L) as (k & Hk & Hle & Hit).
  { intros E. rewrite E in Hr0. simpl in Hr0. lia. }
  exists k. split_and!; [lia|lia|done|].
  rewrite (state_of_nonempty (bs ++ _)) by (rewrite length_app, length_take; lia).
  unfold iteration. rewrite ws_state_of_packet, ws_isHeadFull_packet.
  apply Nat.leb_gt in L as ->. cbn [negb].
  rewrite MsgBufProps.GetActiveSize_spec by done. fold r. rewrite Nat2Z.id.
  rewrite MsgBufProps.read_ptr_active by done. fold r.
  cbn [mbind option_bind]. rewrite take_ge by lia. by rewrite Hit.
Qed.

Lemma ws_iteration_body n (k := Nat.min (head_size bs + n - length bs) (length r)) :
  bytes_ok bs -> bytes_ok r -> (head_size bs <= length bs)%nat -> body bs = Some n ->
  (length bs < head_size bs + Nat.max 1 n)%nat ->
  iteration buf (state_of bs) =
    if (length bs + k =? head_size bs + n)%nat
    then Some (MessageBuffer.ReadCompleted k buf, state_of [], [frame_event (bs ++ take k r)])
    else Some (MessageBuffer.ReadCompleted k buf, state_of (bs ++ take k r), []).
Proof.
  intros Hb Hrb Hl Hbody Hlt. pose proof (head_size_range bs).
  assert (Hb' := Hbody). apply body_some in Hb' as [Hn Hmax].
  set (f := bs ++ take k r).
  assert (Hlf : length f = (length bs + k)%nat) by (unfold f; rewrite length_app, length_take; lia).
  assert (Hhf : head_size f = head_size bs) by (apply head_size_app; lia).
  assert (Hfin : (length bs + k)%nat = (head_size bs + n)%nat ->
                 finish (packet_of f) = Some [frame_event f]).
  { intros E. apply (finish_packet f n); [lia| |unfold f; by rewrite body_app|lia].
    apply bytes_ok_app. split; [done|by apply bytes_ok_take]. }
  rewrite (state_of_nonempty f) by lia.
  unfold iteration. rewrite ws_state_of_packet, ws_isHeadFull_packet.
  assert (Hl' := Hl). apply Nat.leb_le in Hl as ->. cbn [negb].
  rewrite ws_getMarkLen_packet, Hn by lia. cbn [mbind option_bind].
  rewrite MsgBufProps.GetActiveSize_spec by done. fold r.
  change (Z.of_nat WS_MAX_HEAD_SIZE) with 14.
  destruct (storage_full bs Hl') as [_ ->].
  rewrite (sext_small 32 (Z.of_nat n + 14 - _)) by (unfold in_i; lia).
  rewrite (sext_small 32 (Z.of_nat n + 14)), (wrap_small 64) by (unfold in_i, in_u; lia).
  assert (Htest : (Z.of_nat (wpos (packet_of f)) =? Z.of_nat n + 14)
                  = (length bs + k =? head_size bs + n)%nat).
  { destruct (storage_full f) as [_ ->]; [lia|].
    destruct (Nat.eqb_spec (length bs + k) (head_size bs + n)).
    - apply Z.eqb_eq. lia.
    - apply Z.eqb_neq. lia. }
  set (need := Z.of_nat n + 14 - Z.of_nat (14 + (length bs - head_size bs))) in *.
  assert (Hstep : (if 0 <? need
     then let wsize := i32 (if need <=? Z.of_nat (length r) then need else Z.of_nat (length r)) in
       if 0 <? wsize
       then d ← MessageBuffer.read_ptr (Z.to_nat wsize) buf;
            b ← ByteBuffer.append d (WebSocketPacket.buf (packet_of bs));
            Some (MessageBuffer.ReadCompleted (Z.to_nat wsize) buf, set_buf b (packet_of bs))
       else Some (buf, packet_of bs)
     else Some (buf, packet_of bs)) = Some (MessageBuffer.ReadCompleted k buf, packet_of f)).
  { destruct (Z.ltb_spec 0 need) as [Hneed|Hneed].
    - assert ((if need <=? Z.of_nat (length r) then need else Z.of_nat (length r))
              = Z.of_nat k) as ->.
      { destruct (Z.leb_spec need (Z.of_nat (length r))); lia. }
      rewrite sext_small by (unfold in_i; lia). cbv zeta. decide_bool. rewrite Nat2Z.id.
      rewrite MsgBufProps.read_ptr_active by (done || (fold r; lia)). fold r.
      cbn [mbind option_bind]. destruct (ws_append_packet bs (take k r) Hl') as [-> E].
      cbn [mbind option_bind]. by rewrite E.
    - assert (k = 0%nat) as E by lia. unfold f. rewrite E, take_0, app_nil_r.
      unfold MessageBuffer.ReadCompleted. rewrite Nat.add_0_r. by destruct buf. }
  cbv zeta in Hstep |- *. rewrite Hstep. cbn [mbind option_bind]. rewrite Htest.
  destruct (Nat.eqb_spec (length bs + k) (head_size bs + n)) as [E|E]; [|done].
  by rewrite Hfin.
Qed.

End Iteration.

#[export] Program Instance reader : FrameReader iteration := { Frames.state_of := state_of }.
Next Obligation. intros buf bs r Hwf Hsz Hr0 Hl. by apply ws_iteration_head. Qed.
Next Obligation.
  intros buf bs n r k Hwf Hsz Hr0 Hb Hrb Hl Hn Hlt. by apply ws_iteration_body.
Qed.

(** [WebSocketConnect], once the handshake is done, as a client of
    [TcpSocketBase]. *)
#[export] Instance WebSocketConnect_handler : MsgHandler state event :=
  { TcpSock.on_msgbuffer := WebSocketConnect.on_msgbuffer }.

#[export] Program Instance WebSocketConnect_decoder : StreamDecoder state event := {
  pending := fun bs s =>
    m_isHandshake s = true /\ m_readPacket s = state_of bs /\ Frames.unfinished bs;
  TcpSock.decode := Frames.decode (E := event)
}.
Next Obligation. intros. by apply Frames.decode_app_spec. Qed.
Next Obligation. intros. by eapply Frames.decode_prefix_spec. Qed.
Next Obligation. intros. by eapply Frames.decode_rest_spec. Qed.
Next Obligation.
  intros fuel bs s buf evs rest (Hh & Hp & Hun) Hwf Hst Hok Hdec Hf.
  destruct (FrameReaderProps.while_active_refines iteration fuel bs buf evs rest)
    as (buf' & Hrun & Hun' & Hst'); [done..|].
  cbn [TcpSock.on_msgbuffer WebSocketConnect_handler]. unfold WebSocketConnect.on_msgbuffer.
  rewrite Hh, Hp. cbn [negb]. unfold read_loop. cbn [Frames.state_of reader] in Hrun.
  rewrite Hrun. eexists _, _. split; [reflexivity|]. cbn [m_isHandshake m_readPacket]. auto.
Qed.

End WsReadProps.

Module WsProps.
Import WebSocketPacket WebSocketConnect WsFrame WsReadProps.
#[local] Arguments head_size : simpl never.
#[local] Arguments le_bytes : simpl never.

(** A frame of the peer with a body of at most 125 bytes, as RFC 6455 has
    it: the first byte, the key of a masked frame, the body. *)
Record frame : Type := Frame { f_byte0 : Z; f_key : option (list Z); f_body : list Z }.

Definition frame_ok (fr : frame) : Prop :=
  byte_ok (f_byte0 fr) /\ bytes_ok (f_body fr) /\ (length (f_body fr) <= 125)%nat /\
  match f_key fr with Some k => length k = 4%nat /\ bytes_ok k | None => True end.

Definition encode (fr : frame) : list Z :=
  let len := Z.of_nat (length (f_body fr)) in
  match f_key fr with
  | Some k => f_byte0 fr :: (128 + len) :: k ++ xor_key k 0 (f_body fr)
  | None => f_byte0 fr :: len :: f_body fr
  end.

(** What the user of the connection sees of an event. *)
Inductive received : Type := Message (byte0 : Z) (body : list Z) | Closed | Other.
Definition view (e : event) : received :=
  match e with
  | OnMsg p => Message (head 0 p) (drop 14 (ByteBuffer.storage (buf p)))
  | Close => Closed
  | _ => Other
  end.
Definition view_frame (fr : frame) : received :=
  if Z.land (f_byte0 fr) 0x0F =? 8 then Closed else Message (f_byte0 fr) (f_body fr).

Lemma xor_key_twice k i c : xor_key k i (xor_key k i c) = c.
Proof.
  revert i. induction c as [|x c IH]; intros i; simpl; [done|].
  by rewrite IH, Z.lxor_assoc, Z.lxor_nilpotent, Z.lxor_0_r.
Qed.

Lemma xor_key_ok k i c : bytes_ok k -> bytes_ok c -> bytes_ok (xor_key k i c).
Proof.
  intros Hk Hc. revert i. induction Hc as [|x c Hx _ IH]; intros i; simpl; constructor; [|apply IH].
  unfold byte_ok in *. assert (0 <= nth (i mod 4) k 0 < 256) as Hn.
  { destruct (nth_in_or_default (i mod 4) k 0) as [Hin| ->]; [|lia].
    eapply List.Forall_forall in Hk; [exact Hk|exact Hin]. }
  assert (0 <= Z.lxor x (nth (i mod 4) k 0)) by (apply Z.lxor_nonneg; lia).
  split; [done|]. destruct (Z.eq_dec (Z.lxor x (nth (i mod 4) k 0)) 0) as [->|Hne]; [lia|].
  change 256 with (2 ^ 8). apply Z.log2_lt_pow2; [lia|].
  pose proof (Z.log2_lxor x (nth (i mod 4) k 0)).
  pose proof (Z.log2_le_mono x 255). pose proof (Z.log2_le_mono (nth (i mod 4) k 0) 255).
  change (Z.log2 255) with 7 in *. lia.
Qed.

(** The fields of a head, from its second byte. *)
Lemma fields_short b0 b1 s :
  0 <= b1 < 126 ->
  let f := b0 :: b1 :: s in
  len7 f = b1 /\ masked f = false /\ head_size f = 2%nat /\ read_len f = b1.
Proof.
  intros Hb f. assert (E7 : len7 f = b1).
  { unfold len7, f; simpl. change 127 with (Z.ones 7). rewrite Z.land_ones by lia. divlia. }
  assert (Em : masked f = false).
  { unfold masked, f; simpl. rewrite Z.shiftr_div_pow2 by lia.
    rewrite Z.div_small by lia. done. }
  unfold head_size, read_len. rewrite E7, Em. decide_bool. done.
Qed.

Lemma fields_masked b0 n s :
  0 <= n < 128 ->
  let f := b0 :: (128 + n) :: s in
  len7 f = n /\ masked f = true.
Proof.
  intros Hb f. split.
  - unfold len7, f; simpl nth. change 127 with (Z.ones 7). rewrite Z.land_ones by lia. divlia.
  - unfold masked, f; simpl nth. rewrite Z.shiftr_div_pow2 by lia.
    assert ((128 + n) / 2 ^ 7 = 1) as -> by divlia. done.
Qed.

Lemma fields_masked_short b0 n s :
  0 <= n < 126 ->
  let f := b0 :: (128 + n) :: s in
  masked f = true /\ head_size f = 6%nat /\ read_len f = n.
Proof.
  intros Hb f. destruct (fields_masked b0 n s) as [E7 Em]; [lia|]. fold f in E7, Em.
  unfold head_size, read_len. rewrite E7, Em. decide_bool. done.
Qed.

Lemma encode_fields fr :
  frame_ok fr ->
  head_size (encode fr) = (length (encode fr) - length (f_body fr))%nat /\
  (length (f_body fr) <= length (encode fr))%nat /\
  body (encode fr) = Some (length (f_body fr)) /\ bytes_ok (encode fr) /\
  unmask (encode fr) = take (head_size (encode fr)) (encode fr) ++ f_body fr.
Proof.
  intros (H0 & Hb & Hl & Hk). unfold unmask, mask_key, encode, byte_ok in *.
  destruct (f_key fr) as [k|] eqn:Ek.
  - destruct Hk as [Hk4 Hkb].
    destruct (fields_masked_short (f_byte0 fr) (Z.of_nat (length (f_body fr)))
                (k ++ xor_key k 0 (f_body fr))) as (Em & Eh & El); [lia|].
    rewrite Em, Eh. cbn [length]. rewrite length_app, xor_key_length, Hk4. split_and!.
    + lia.
    + lia.
    + apply body_some. rewrite El. lia.
    + constructor; [done|]. constructor; [unfold byte_ok; lia|].
      apply bytes_ok_app. auto using xor_key_ok.
    + f_equal. set (c := xor_key k 0 (f_body fr)).
      change (xor_key (take 4 (k ++ c)) 0 (drop 4 (k ++ c)) = f_body fr).
      rewrite take_app_length', drop_app_length' by done. apply xor_key_twice.
  - destruct (fields_short (f_byte0 fr) (Z.of_nat (length (f_body fr))) (f_body fr))
      as (_ & Em & Eh & El); [lia|].
    rewrite Em, Eh. cbn [length]. split_and!.
    + lia.
    + lia.
    + apply body_some. rewrite El. lia.
    + constructor; [done|]. constructor; [unfold byte_ok; lia|done].
    + done.
Qed.

(** What a whole frame is seen as. *)
Lemma view_event f :
  (head_size f <= length f)%nat ->
  view (frame_event f) =
    if opcode f =? 8 then Closed
    else Message (nth 0 f 0) (drop (head_size f) (unmask f)).
Proof.
  intros Hl. pose proof (head_size_range f). unfold frame_event, CLOSE_FRAME.
  destruct (opcode f =? 8); [done|]. cbn [view].
  destruct (unmask_same_head f) as [E0 E1]; [lia|].
  destruct (same_head_fields (unmask f) f) as (_ & _ & _ & Ehs & _); [done|].
  rewrite head_packet, E0 by (rewrite ?unmask_length; lia). f_equal.
  destruct (storage_full (unmask f)) as [-> _]; [rewrite unmask_length; lia|].
  rewrite drop_app_length' by (symmetry; apply head_area_length; rewrite unmask_length; lia).
  by rewrite Ehs.
Qed.

Lemma view_encode fr : frame_ok fr -> view (frame_event (encode fr)) = view_frame fr.
Proof.
  intros Hfr. destruct (encode_fields fr Hfr) as (Eh & Hle & _ & _ & Eu).
  rewrite view_event by lia. rewrite Eu, drop_app_length' by (rewrite length_take; lia).
  unfold view_frame, opcode, encode. by destruct (f_key fr).
Qed.

(** A fresh receive buffer and a connection past its handshake. *)
Lemma ws_receive_frames chunks size fuel s evs rest :
  Forall (TcpRecvProps.chunk_ok size) chunks -> Z.of_nat size < 2 ^ 31 ->
  (2 * size + 2 <= fuel)%nat ->
  m_isHandshake s = true -> m_readPacket s = None ->
  Frames.decode (concat chunks) = Some (evs, rest) ->
  exists b s',
    TcpSocketBase.receive fuel chunks (TcpSocketBase.create_buffer size) s = Done (b, s', evs) /\
    m_readPacket s' = state_of rest.
Proof.
  intros Hcs Hsz Hf Hh Hp Hd.
  destruct (TcpRecvProps.receive_decodes fuel size chunks
      (TcpSocketBase.create_buffer size) s [] evs rest) as (b & s' & Hrun & _ & (_ & Hp' & _));
    [apply TcpRecvProps.create_idle|done|done|done|done| |exact Hd|eauto].
  split; [done|]. split; [by rewrite Hp|apply Frames.unfinished_nil].
Qed.

(** The last frame, if any, has a byte after its head. *)
Definition last_has_body (frs : list frame) : Prop :=
  f_body (List.last frs (Frame 0 None [0])) <> [].

Lemma ws_decode_encode frs :
  Forall frame_ok frs -> last_has_body frs ->
  Frames.decode (concat (map encode frs)) = Some (map frame_event (map encode frs), []).
Proof.
  intros Hfrs Hlast. apply (@Frames.decode_concat event format).
  - rewrite Forall_map. eapply Forall_impl; [|exact Hfrs]. intros fr Hfr.
    destruct (encode_fields fr Hfr) as (Eh & Hle & Eb & _). cbn [ff_head ff_body format].
    split; [lia|]. rewrite Eb. f_equal. lia.
  - intros fs' f Hf. apply map_eq_app in Hf as (l1 & l2 & -> & <- & Hm2).
    destruct l2 as [|fr [|]]; [done| |done]. injection Hm2 as <-.
    unfold last_has_body in Hlast. rewrite last_last in Hlast.
    apply Forall_app in Hfrs as [_ Hfr%Forall_cons_iff]. destruct Hfr as [Hfr _].
    destruct (encode_fields fr Hfr) as (Eh & Hle & _). cbn [ff_head format].
    destruct (f_body fr); [done|simpl in *; lia].
Qed.

(** C12.  WebSocket messages, end to end.  After the handshake, let the peer
    send any frames with bodies of at most 125 bytes, masked or not, the last
    one with a body.  However TCP cuts them into reads that fit the receive
    buffer, the loop terminates and the user is called once per frame, in
    order, with the first byte of the head and the unmasked body; a close
    frame closes the connection instead. *)
Theorem ws_messages_delivered (frs : list frame) (chunks : list (list Z)) (size fuel : nat)
    (s : state) :
  Forall frame_ok frs -> last_has_body frs ->
  Forall (TcpRecvProps.chunk_ok size) chunks -> concat chunks = concat (map encode frs) ->
  Z.of_nat size < 2 ^ 31 -> (2 * size + 2 <= fuel)%nat ->
  m_isHandshake s = true -> m_readPacket s = None ->
  exists b s' evs,
    TcpSocketBase.receive fuel chunks (TcpSocketBase.create_buffer size) s = Done (b, s', evs) /\
    map view evs = map view_frame frs /\ m_readPacket s' = None.
Proof.
  intros Hfrs Hlast Hcs Hcat Hsz Hf Hh Hp.
  assert (Hd := ws_decode_encode frs Hfrs Hlast). rewrite <- Hcat in Hd.
  destruct (ws_receive_frames chunks size fuel s _ _ Hcs Hsz Hf Hh Hp Hd) as (b & s' & Hrun & Hs').
  exists b, s', (map frame_event (map encode frs)). split_and!; [done| |done].
  rewrite !map_map. apply map_ext_Forall. eapply Forall_impl; [|exact Hfrs].
  intros fr Hfr. by apply view_encode.
Qed.

(** A masked frame with a 16-bit extended length, in network order. *)
Definition encode_long (byte0 : Z) (k b : list Z) : list Z :=
  byte0 :: 254 :: rev (le_bytes 2 (Z.of_nat (length b))) ++ k ++ xor_key k 0 b.

(**  Frames of 126 bytes and more are misread.  The extended length of a
    masked frame is looked for outside the head's bytes and read as zero: the
    user gets an empty message, and the masked body is then parsed as if it
    were frames of its own. *)
Theorem ws_extended_length_misread (byte0 : Z) (k b : list Z) (chunks : list (list Z))
    (size fuel : nat) (s : state) (evs : list event) (rest : list Z) :
  Z.land byte0 0x0F <> 8 -> byte_ok byte0 -> length k = 4%nat -> bytes_ok k -> bytes_ok b ->
  126 <= Z.of_nat (length b) < 2 ^ 16 ->
  Forall (TcpRecvProps.chunk_ok size) chunks -> concat chunks = encode_long byte0 k b ->
  Z.of_nat size < 2 ^ 31 -> (2 * size + 2 <= fuel)%nat ->
  m_isHandshake s = true -> m_readPacket s = None ->
  Frames.decode (xor_key k 0 b) = Some (evs, rest) ->
  exists bf s' evs',
    TcpSocketBase.receive fuel chunks (TcpSocketBase.create_buffer size) s = Done (bf, s', evs') /\
    map view evs' = Message byte0 [] :: map view evs /\ m_readPacket s' = state_of rest.
Proof.
  intros Hop H0 Hk4 Hk Hb Hl Hcs Hcat Hsz Hf Hh Hp Hd.
  set (hd := byte0 :: (128 + 126) :: rev (le_bytes 2 (Z.of_nat (length b))) ++ k).
  assert (Hhd : length hd = 8%nat).
  { unfold hd. cbn [length]. by rewrite length_app, length_rev, le_bytes_length, Hk4. }
  destruct (fields_masked byte0 126 (rev (le_bytes 2 (Z.of_nat (length b))) ++ k)) as [E7 Em];
    [lia|]. fold hd in E7, Em.
  assert (Eh : head_size hd = 8%nat) by (unfold head_size; by rewrite E7, Em).
  assert (Er : read_len hd = 0) by (unfold read_len; by rewrite E7).
  assert (Ed : Frames.decode (concat chunks) = Some (frame_event hd :: evs, rest)).
  { rewrite Hcat. replace (encode_long byte0 k b) with (hd ++ xor_key k 0 b)
      by (unfold hd, encode_long; cbn [app]; by rewrite <- app_assoc).
    rewrite (Frames.decode_frame hd _ 0); cbn [ff_head ff_body format]; rewrite ?Eh; try lia.
    - by rewrite Hd.
    - apply body_some. by rewrite Er.
    - rewrite length_app, xor_key_length. lia. }
  destruct (ws_receive_frames chunks size fuel s _ _ Hcs Hsz Hf Hh Hp Ed) as (bf & s' & Hrun & Hs').
  exists bf, s', (frame_event hd :: evs). split_and!; [done| |done].
  cbn [map]. f_equal. rewrite view_event by lia. unfold opcode; cbn [nth hd].
  apply Z.eqb_neq in Hop as ->. f_equal. apply drop_ge. rewrite unmask_length. lia.
Qed.

(**  A head can hang the event loop.  A masked 64-bit length whose fourth
    byte is 128 or more is read as a negative [int32]: no byte is needed, the
    frame is never complete, and no fuel suffices. *)
Theorem ws_negative_length_hangs (bs : list Z) (buffer : MessageBuffer.t) (fuel : nat)
    (s : state) :
  length bs = 14%nat -> head_size bs = 14%nat -> read_len bs < 0 ->
  m_isHandshake s = true -> m_readPacket s = state_of bs ->
  MessageBuffer.wf buffer -> MessageBuffer.active buffer <> [] ->
  on_msgbuffer fuel buffer s = OutOfFuel.
Proof.
  intros Hl Hh Hn Hhs Hp Hwf Hne. unfold on_msgbuffer. rewrite Hhs, Hp. cbn [negb].
  unfold read_loop. rewrite while_active_spins; [done|done|done|].
  rewrite state_of_nonempty by lia.
  assert (Hr : - 2 ^ 31 <= read_len bs).
  { revert Hn. unfold read_len. pose proof (len7_range bs).
    destruct (len7 bs <? 126); [lia|]. destruct (_ && _); [|lia]. intros _.
    apply (sext_range 32). lia. }
  destruct (storage_full bs) as [_ Hw]; [lia|].
  unfold iteration. rewrite ws_isHeadFull_packet, Hh, Hl. cbn [negb Nat.leb].
  rewrite ws_getMarkLen_packet, Hw, Hl, Hh by lia. cbn [mbind option_bind].
  change (Z.of_nat WS_MAX_HEAD_SIZE) with 14. change (Z.of_nat (14 + (14 - 14))) with 14.
  rewrite !sext_small by (unfold in_i; lia). decide_bool. cbn [mbind option_bind].
  rewrite Hw, Hl, Hh. change (Z.of_nat (14 + (14 - 14))) with 14.
  destruct (Z.eqb_spec 14 (u64 (read_len bs + 14))) as [E|E]; [|done].
  exfalso. unfold wrap in E. destruct (Z_lt_le_dec (read_len bs + 14) 0) as [N|N].
  - rewrite <- (Z_mod_plus_full _ 1), Z.mod_small in E by lia. lia.
  - rewrite Z.mod_small in E by lia. lia.
Qed.

(** ** Sending *)

(** The head in front of a body of [len] bytes: a 16 or 64-bit length is
    written in the byte order of the host. *)
Definition frame_head (ty len : Z) : list Z :=
  if len <=? 125 then [ty; len]
  else if len <=? 0xffff then ty :: 126 :: le_bytes 2 len
  else ty :: 127 :: le_bytes 8 len.

Lemma obj_u8 v : 0 <= v < 256 -> obj_bytes Tuint8 (u8 v) = [v].
Proof.
  intros Hv. rewrite wrap_small by (unfold in_u; lia). unfold obj_bytes, sizeof, le_bytes.
  by rewrite Z.mod_small by lia.
Qed.

Lemma writeFrameHead_spec st msg rp wp h hp ty len :
  length st = 14%nat -> 0 <= len < 2 ^ 31 -> byte_ok ty ->
  exists st' hp',
    writeFrameHead len ty (mkp (ByteBuffer.mk (st ++ msg) rp wp) h hp) =
      Some (mkp (ByteBuffer.mk (st' ++ msg) rp wp) h (Z.of_nat hp')) /\
    length st' = 14%nat /\ (4 <= hp' <= 14)%nat /\ drop hp' st' = frame_head ty len.
Proof.
  intros Hst Hlen Hty. unfold byte_ok in Hty.
  destruct st as [|a0 [|a1 [|a2 [|a3 [|a4 [|a5 [|a6 [|a7 [|a8 [|a9 [|a10 [|a11 [|a12
    [|a13 [|]]]]]]]]]]]]]]]; try done.
  assert (Ety := obj_u8 ty Hty).
  unfold writeFrameHead, frame_head. destruct (Z.leb_spec len 125) as [L|L].
  - assert (El : obj_bytes Tuint8 (u8 len) = [len]) by (apply obj_u8; lia).
    unfold ByteBuffer.put_val. cbn [mbind option_bind]. rewrite El, Ety.
    eexists [a0; a1; a2; a3; a4; a5; a6; a7; a8; a9; a10; a11; ty; len], 12%nat.
    split; [reflexivity|]. split_and!; [done|lia|lia|done].
  - destruct (Z.leb_spec len 0xffff) as [L2|L2]; unfold ByteBuffer.put_val.
    + assert (El : obj_bytes Tuint16 (u16 len) = le_bytes 2 len)
        by (unfold obj_bytes; simpl sizeof; by rewrite (wrap_small 16) by (unfold in_u; lia)).
      rewrite El, Ety. generalize (le_bytes_length 2 len). generalize (le_bytes 2 len).
      intros [|t0 [|t1 [|]]] Ht; try done.
      eexists [a0; a1; a2; a3; a4; a5; a6; a7; a8; a9; ty; 126; t0; t1], 10%nat.
      split; [reflexivity|]. split_and!; [done|lia|lia|done].
    + assert (El : obj_bytes Tuint64 (u64 len) = le_bytes 8 len)
        by (unfold obj_bytes; simpl sizeof; by rewrite (wrap_small 64) by (unfold in_u; lia)).
      rewrite El, Ety. generalize (le_bytes_length 8 len). generalize (le_bytes 8 len).
      intros [|t0 [|t1 [|t2 [|t3 [|t4 [|t5 [|t6 [|t7 [|]]]]]]]]] Ht; try done.
      eexists [a0; a1; a2; a3; ty; 127; t0; t1; t2; t3; t4; t5; t6; t7], 4%nat.
      split; [reflexivity|]. split_and!; [done|lia|lia|done].
Qed.

(** What is sent for a packet with a complete head area. *)
Lemma sent_bytes_spec st msg rp h hp :
  length st = 14%nat -> (hp <= 14)%nat -> Z.of_nat (length msg) < 2 ^ 31 - 14 ->
  sent_bytes (mkp (ByteBuffer.mk (st ++ msg) rp (14 + length msg)) h (Z.of_nat hp))
  = drop hp st ++ msg.
Proof.
  intros Hst Hhp Hl. unfold sent_bytes, sendSize, sendStream, wpos.
  cbn [buf ByteBuffer.wpos ByteBuffer.storage m_headpos]. rewrite Nat2Z.id.
  rewrite sext_small by (unfold in_i; lia).
  rewrite drop_app_le by lia. apply take_ge. rewrite length_app, length_drop. lia.
Qed.

(**  What the server sends: for a message of any length, given as bytes or
    as a packet, exactly the two bytes of a final binary frame, the length
    (in the second byte up to 125, else behind it, least significant byte
    first) and the message. *)
Theorem ws_sent_frame (msg : list Z) (pack : packet) :
  Z.of_nat (length msg) < 2 ^ 31 - 14 ->
  (14 <= wpos pack)%nat -> wpos pack = ByteBuffer.size (buf pack) ->
  Z.of_nat (wpos pack) < 2 ^ 31 ->
  sendMsg_data msg = Some (frame_head 0x82 (Z.of_nat (length msg)) ++ msg) /\
  sendMsg_packet pack =
    Some (frame_head 0x82 (Z.of_nat (wpos pack) - 14)
          ++ drop 14 (ByteBuffer.storage (buf pack))).
Proof.
  intros Hl Hw Hs Hmax. split.
  - unfold sendMsg_data. rewrite (wrap_small 32), sext_small by (unfold in_u, in_i; lia).
    change createPacket with (mkp (ByteBuffer.mk (replicate 14 0 ++ []) 14 14) [0; 0] 0).
    destruct (writeFrameHead_spec (replicate 14 0) [] 14 14 [0; 0] 0 BINARY_FRAME
                (Z.of_nat (length msg))) as (st' & hp' & Hwr & Hst' & Hhp & Hd);
      [done|lia|unfold byte_ok, BINARY_FRAME; lia|].
    rewrite Hwr. cbn [mbind option_bind buf]. rewrite app_nil_r.
    rewrite ByteBufProps.append_at_end by (unfold ByteBuffer.size; simpl; lia).
    cbn [mbind option_bind ByteBuffer.storage ByteBuffer.rpos ByteBuffer.wpos].
    unfold set_buf; cbn [m_head m_headpos]. by rewrite sent_bytes_spec, Hd by lia.
  - destruct pack as [[st rp wp] h hp]. unfold wpos, ByteBuffer.size in *.
    cbn [buf ByteBuffer.wpos ByteBuffer.storage] in *.
    unfold sendMsg_packet, moveData, BasePacket.getBodySize. change getHeadSize with 14.
    cbn [buf ByteBuffer.wpos]. rewrite sext_small by (unfold in_i; lia).
    set (bd := drop 14 st).
    assert (wp = 14 + length bd)%nat as Hwp by (unfold bd; rewrite length_drop; lia).
    replace (Z.of_nat wp - 14) with (Z.of_nat (length bd)) by lia.
    destruct (writeFrameHead_spec (take 14 st) bd rp wp [0; 0] 0 BINARY_FRAME
                (Z.of_nat (length bd))) as (st' & hp' & Hwr & Hst' & Hhp & Hd);
      [rewrite length_take; lia|lia|unfold byte_ok, BINARY_FRAME; lia|].
    assert (Est : take 14 st ++ bd = st) by apply take_drop. rewrite Est in Hwr.
    unfold ByteBuffer.swapBuffer; cbv beta iota zeta.
    match goal with |- context [writeFrameHead ?l ?t ?p] =>
      change (writeFrameHead l t p) with
        (writeFrameHead l t (mkp (ByteBuffer.mk st rp wp) [0; 0] 0)) end.
    rewrite Hwr. cbn [mbind option_bind]. rewrite Hwp, sent_bytes_spec, Hd by lia. done.
Qed.

(** ** Concrete instances *)
Definition open_state : state := mkst [] [] true None.

Definition ex_frames : list frame :=
  [Frame 0x81 (Some [1; 2; 3; 4]) [72; 105]; Frame 0x82 None []; Frame 0x88 None [0]].
(** Their bytes, cut in the middle of a head. *)
Definition ex_chunks : list (list Z) :=
  [[129; 130; 1]; [2; 3; 4; 73; 107; 130]; [0; 136; 1; 0]].

Lemma bytes_ok_dec l : forallb (fun b => (0 <=? b) && (b <? 256)) l = true -> bytes_ok l.
Proof.
  intros H. apply List.Forall_forall. intros x Hx. rewrite forallb_forall in H.
  specialize (H x Hx). unfold byte_ok. bool_arith. lia.
Qed.

Lemma chunks_ok_dec size cs :
  forallb (fun c => negb (length c =? 0)%nat && (length c <=? size)%nat &&
                    forallb (fun b => (0 <=? b) && (b <? 256)) c) cs = true ->
  Forall (TcpRecvProps.chunk_ok size) cs.
Proof.
  intros H. apply List.Forall_forall. intros c Hc. rewrite forallb_forall in H.
  specialize (H c Hc). bool_arith. split_and!; [by destruct c|done|by apply bytes_ok_dec].
Qed.

Lemma ex_frames_ok : Forall frame_ok ex_frames.
Proof.
  unfold ex_frames. repeat apply Forall_cons_2; try apply Forall_nil_2;
    unfold frame_ok, byte_ok; cbn [f_byte0 f_body f_key length];
    split_and!; first [lia|done|by apply bytes_ok_dec|idtac].
Qed.

Lemma ws_messages_delivered_witness :
  Forall frame_ok ex_frames /\
  exists b s' evs,
    TcpSocketBase.receive 66 ex_chunks (TcpSocketBase.create_buffer 32) open_state
      = Done (b, s', evs) /\
    map view evs = [Message 0x81 [72; 105]; Message 0x82 []; Closed] /\ m_readPacket s' = None.
Proof.
  split; [exact ex_frames_ok|].
  refine (ws_messages_delivered ex_frames ex_chunks 32 66 open_state ex_frames_ok
            _ _ _ _ _ eq_refl eq_refl).
  - discriminate.
  - by apply chunks_ok_dec.
  - reflexivity.
  - reflexivity.
  - lia.
Defined.

Lemma ws_extended_length_misread_witness :
  let b := replicate 126 0 in
  exists bf s' evs,
    TcpSocketBase.receive 400 [encode_long 0x82 [0; 0; 0; 0] b]
      (TcpSocketBase.create_buffer 150) open_state = Done (bf, s', evs) /\
    map view evs = Message 0x82 [] :: replicate 62 (Message 0 []) /\
    m_readPacket s' = state_of [0; 0].
Proof.
  intros b.
  refine (ws_extended_length_misread 0x82 [0; 0; 0; 0] b [encode_long 0x82 [0; 0; 0; 0] b] 150 400
    open_state match Frames.decode (xor_key [0; 0; 0; 0] 0 b) with Some (e, _) => e | None => [] end
    [0; 0] _ _ _ _ _ _ _ _ _ _ eq_refl eq_refl _).
  - discriminate.
  - unfold byte_ok. lia.
  - reflexivity.
  - by apply bytes_ok_dec.
  - by apply bytes_ok_dec.
  - vm_compute. intuition discriminate.
  - by apply chunks_ok_dec.
  - reflexivity.
  - reflexivity.
  - lia.
  - vm_compute. reflexivity.
Defined.

Lemma ws_negative_length_hangs_witness :
  let bs := [130; 255; 0; 0; 0; 128; 0; 0; 0; 0; 1; 2; 3; 4] in
  read_len bs = - 2 ^ 31 /\
  on_msgbuffer 1000 (MessageBuffer.mk [0; 0; 0] 1 0) (mkst [] [] true (state_of bs)) = OutOfFuel.
Proof.
  intros bs. split; [vm_compute; reflexivity|].
  apply (ws_negative_length_hangs bs (MessageBuffer.mk [0; 0; 0] 1 0) 1000
           (mkst [] [] true (state_of bs))).
  - reflexivity.
  - reflexivity.
  - vm_compute. reflexivity.
  - reflexivity.
  - reflexivity.
  - unfold MessageBuffer.wf; simpl; lia.
  - discriminate.
Defined.

Lemma ws_sent_frame_witness :
  let pack := mkp (ByteBuffer.mk (replicate 14 0 ++ [7]) 14 15) [0; 0] 0 in
  sendMsg_data (replicate 200 1) = Some ([0x82; 126; 200; 0] ++ replicate 200 1) /\
  sendMsg_packet pack = Some [0x82; 1; 7].
Proof.
  intros pack. apply (ws_sent_frame (replicate 200 1) pack).
  - vm_compute. reflexivity.
  - unfold pack, wpos; simpl. lia.
  - reflexivity.
  - reflexivity.
Defined.

End WsProps.

Module WsHandshakeProps.
Import WebSocketConnect.

(** An opening request: a first line that starts with GET, the headers, an
    empty line; lines end in CR LF. *)
Definition header_text (h : list Z * list Z) : list Z := fst h ++ [58; 32] ++ snd h ++ [13].
Definition text (lines : list (list Z)) : list Z := concat (map (fun l => l ++ [10]) lines).
Definition request (path : list Z) (hs : list (list Z * list Z)) : list Z :=
  text ((str_GET ++ path ++ [13]) :: map header_text hs ++ [[13]]).

(** Text without line feed and NUL; a header name also without colon. *)
Definition plain (l : list Z) : Prop := Forall (fun c => byte_ok c /\ c <> 10 /\ c <> 0) l.
Definition header_ok (h : list Z * list Z) : Prop :=
  plain (fst h) /\ Forall (fun c => c <> 58) (fst h) /\ plain (snd h).

(** The answer RFC 6455 asks for. *)
Definition accept (key : list Z) : list Z :=
  Base64.base64_encode (concat (map (fun w => rev (le_bytes 4 w)) (Sha1Spec.digest (key ++ s_key)))).
Definition response (host key : list Z) : list Z :=
  ack_1 ++ accept key ++ ack_2 ++ host ++ ack_3.

Lemma split_line_app a b :
  Forall (fun c => c <> 10) a -> split_line (a ++ 10 :: b) = (a, b).
Proof.
  induction 1 as [|c a Hc _ IH]; simpl; [done|]. apply Z.eqb_neq in Hc as ->. by rewrite IH.
Qed.

Lemma text_cons l lines : text (l :: lines) = l ++ 10 :: text lines.
Proof. unfold text. cbn [map concat]. by rewrite <- app_assoc. Qed.

Lemma header_lines_text lines : forall fuel m,
  Forall (Forall (fun c => c <> 10)) lines -> (length lines <= fuel)%nat ->
  header_lines fuel (text lines) m =
    foldl (fun m l => m ← m; header_line l m) (Some m) lines.
Proof.
  induction lines as [|l lines IH]; intros fuel m Hls Hf; [by destruct fuel|].
  apply Forall_cons_iff in Hls as [Hl Hls]. destruct fuel as [|fuel]; [simpl in Hf; lia|].
  rewrite text_cons. cbn [header_lines]. assert (getline (l ++ 10 :: text lines) = Some (l, text lines)) as ->.
  { unfold getline. rewrite split_line_app by done. by destruct l. }
  cbn [foldl mbind option_bind]. destruct (header_line l m) as [m'|]; cbn [mbind option_bind].
  - apply IH; [done|simpl in Hf; lia].
  - clear. induction lines as [|l' lines IH]; simpl; [done|exact IH].
Qed.

Lemma str_find_header k v :
  Forall (fun c => c <> 58) k -> str_find [58; 32] (k ++ 58 :: 32 :: v) = Some (length k).
Proof.
  induction 1 as [|c k Hc _ IH]; [done|]. cbn [app str_find is_prefix].
  assert ((58 =? c) = false) as -> by (apply Z.eqb_neq; congruence).
  cbn [andb length]. by rewrite IH.
Qed.

Lemma header_line_text h m :
  header_ok h -> header_line (header_text h) m = Some (map_set (fst h) (snd h) m).
Proof.
  intros (_ & Hk & _). destruct h as [k v]. simpl in Hk.
  assert (Hlast : header_text (k, v) = (k ++ [58; 32] ++ v) ++ [13])
    by (unfold header_text; simpl; by rewrite <- app_assoc).
  unfold header_line. destruct (list_eq_dec Z.eq_dec (header_text (k, v)) [13]) as [E|_].
  { apply (f_equal length) in E. unfold header_text in E. rewrite !length_app in E.
    simpl in E. lia. }
  assert (Hlen : length (header_text (k, v)) = (length k + 3 + length v)%nat)
    by (unfold header_text; simpl; rewrite !length_app; simpl; rewrite length_app; simpl; lia).
  assert (Hm : forall A (x y : A), match header_text (k, v) with [] => x | _ :: _ => y end = y).
  { intros. destruct (header_text (k, v)); [simpl in Hlen; lia|done]. }
  assert (Hl : List.last (header_text (k, v)) 0 = 13) by (rewrite Hlast; apply last_last).
  rewrite Hm, Hl. cbn [Z.eqb Pos.eqb negb].
  change (header_text (k, v)) with (k ++ 58 :: 32 :: (v ++ [13])) at 1.
  rewrite str_find_header by done. cbn [fst snd]. do 2 f_equal.
  - change (header_text (k, v)) with (k ++ 58 :: 32 :: (v ++ [13])).
    by rewrite take_app_exact.
  - rewrite Hlen. unfold header_text. cbn [fst snd]. rewrite app_assoc, drop_app_length'
      by (rewrite length_app; simpl; lia).
    rewrite take_app_le by lia. apply take_ge. lia.
Qed.

Lemma header_fold hs m :
  Forall header_ok hs ->
  foldl (fun m l => m ← m; header_line l m) (Some m) (map header_text hs) = Some (rev hs ++ m).
Proof.
  intros Hhs. revert m. induction Hhs as [|h hs Hh _ IH]; intros m; [done|].
  cbn [map foldl mbind option_bind]. rewrite header_line_text, IH by done.
  cbn [rev]. rewrite <- app_assoc. by destruct h.
Qed.

Lemma c_string_app a b : Forall (fun c => c <> 0) a -> c_string (a ++ 0 :: b) = Some a.
Proof.
  induction 1 as [|c a Hc _ IH]; simpl; [done|]. apply Z.eqb_neq in Hc as ->. by rewrite IH.
Qed.

Lemma is_prefix_app p l : is_prefix p (p ++ l) = true.
Proof. induction p; simpl; [done|]. by rewrite Z.eqb_refl. Qed.

Lemma plain_not_lf l : plain l -> Forall (fun c => c <> 10) l.
Proof. intros H. eapply Forall_impl; [|exact H]. by intros c (? & ? & ?). Qed.
Lemma plain_not_nul l : plain l -> Forall (fun c => c <> 0) l.
Proof. intros H. eapply Forall_impl; [|exact H]. by intros c (? & ? & ?). Qed.
Lemma plain_bytes l : plain l -> bytes_ok l.
Proof. intros H. eapply Forall_impl; [|exact H]. by intros c (? & ? & ?). Qed.
Lemma plain_app a b : plain (a ++ b) <-> plain a /\ plain b.
Proof. apply Forall_app. Qed.
Lemma plain_cr : plain [13].
Proof. repeat constructor; unfold byte_ok; lia. Qed.

Lemma request_lines_ok path hs :
  plain path -> Forall header_ok hs ->
  Forall plain ((str_GET ++ path ++ [13]) :: map header_text hs ++ [[13]]).
Proof.
  intros Hp Hhs. constructor; [|apply Forall_app; split].
  - rewrite !plain_app. split_and!; [|done|apply plain_cr].
    repeat constructor; unfold byte_ok; lia.
  - rewrite Forall_map. eapply Forall_impl; [|exact Hhs]. intros h (Hk & _ & Hv).
    unfold header_text. rewrite !plain_app. split_and!; [done| |done|apply plain_cr].
    repeat constructor; unfold byte_ok; lia.
  - constructor; [apply plain_cr|constructor].
Qed.

Lemma text_length lines : (length lines <= length (text lines))%nat.
Proof.
  induction lines as [|l lines IH]; [done|]. rewrite text_cons, length_app. simpl. lia.
Qed.

Lemma text_not_nul lines : Forall plain lines -> Forall (fun c => c <> 0) (text lines).
Proof.
  induction 1 as [|l lines Hl _ IH]; [constructor|].
  rewrite text_cons. apply Forall_app. split; [by apply plain_not_nul|].
  constructor; [lia|done].
Qed.

(** [parseHandshake] on such a request. *)
Lemma parse_request path hs len s :
  plain path -> Forall header_ok hs -> 2 <= len ->
  parseHandshake (request path hs) len s =
    Some match map_find str_Host (rev hs), map_find str_Key (rev hs) with
         | Some host, Some key => (true, mkst host key (m_isHandshake s) (m_readPacket s))
         | _, _ => (false, s)
         end.
Proof.
  intros Hp Hhs Hlen. assert (Hls := request_lines_ok path hs Hp Hhs).
  apply Forall_cons_iff in Hls as [Hl1 Hls].
  unfold parseHandshake. decide_bool. unfold request.
  rewrite text_cons, split_line_app by (by apply plain_not_lf).
  rewrite is_prefix_app. cbn [negb]. rewrite header_lines_text; [|  |apply text_length].
  - rewrite foldl_app, header_fold, app_nil_r by done. cbn [foldl mbind option_bind].
    change (header_line [13] (rev hs)) with (Some (rev hs)). cbn [mbind option_bind].
    destruct (map_find str_Host (rev hs)); [|done]. by destruct (map_find str_Key (rev hs)).
  - eapply Forall_impl; [|exact Hls]. intros l Hl. by apply plain_not_lf.
Qed.

Lemma accept_value_spec garbage key :
  length garbage = 64%nat -> plain key -> Z.of_nat (length key) < 2 ^ 60 ->
  accept_value garbage key = Some (accept key).
Proof.
  intros Hg Hk Hl. unfold accept_value, accept.
  rewrite Sha1Props.shift_str_digest; [done|done| | |].
  - apply bytes_ok_app. split; [by apply plain_bytes|].
    unfold s_key. repeat constructor; unfold byte_ok; lia.
  - apply Forall_app. split; [by apply plain_not_nul|]. unfold s_key. repeat constructor; lia.
  - unfold Sha1Props.short. rewrite length_app. change (length s_key) with 36%nat. lia.
Qed.

Lemma map_find_in k l v : map_find k l = Some v -> In (k, v) l.
Proof.
  induction l as [|[k' v'] l IH]; simpl; [done|].
  destruct (list_eq_dec Z.eq_dec k k') as [->|]; [intros [= ->]; by left|]. auto.
Qed.

(** A header found is plain and part of the request. *)
Lemma map_find_header k path hs v :
  Forall header_ok hs -> map_find k (rev hs) = Some v ->
  plain v /\ (length v <= length (request path hs))%nat.
Proof.
  intros Hhs Hin%map_find_in%in_rev. split.
  - eapply List.Forall_forall in Hhs; [|exact Hin]. apply Hhs.
  - clear Hhs. unfold request. rewrite text_cons, length_app. simpl length.
    enough (length v <= length (text (map header_text hs ++ [[13%Z]])))%nat by lia.
    induction hs as [|h hs IH]; [done|]. cbn [map app]. rewrite text_cons, length_app.
    destruct Hin as [->|Hin]; [|specialize (IH Hin); simpl; lia].
    unfold header_text. cbn [fst snd]. rewrite !length_app. simpl. lia.
Qed.

(** C27.  The opening handshake. For a request that starts with GET and has any
    headers, in any order and number, each a name, a colon with one space, and a
    value, all of it in one read and followed in the receive buffer by a NUL
    byte: if one of the names is exactly Sec-WebSocket-Key and one exactly Host,
    the connection answers with the accept value of RFC 6455 (the base64 of the
    SHA-1 digest of the last key header and the GUID) and the last host header,
    and is open; without one of the two headers it reports [onClose] and stays
    closed. *)
Theorem ws_handshake (path : list Z) (hs : list (list Z * list Z)) (buffer : MessageBuffer.t)
    (junk : list Z) (fuel : nat) (s : state) :
  plain path -> Forall header_ok hs ->
  MessageBuffer.wf buffer -> MessageBuffer.active buffer = request path hs ->
  drop (MessageBuffer.rpos buffer) (MessageBuffer.storage buffer) = request path hs ++ 0 :: junk ->
  Z.of_nat (length (request path hs)) < 2 ^ 31 -> m_isHandshake s = false ->
  on_msgbuffer fuel buffer s =
    Done match map_find str_Host (rev hs), map_find str_Key (rev hs) with
         | Some host, Some key =>
             (buffer, mkst host key true (m_readPacket s),
              [Write (response host key); OnHandshake])
         | _, _ => (buffer, s, [OnClose])
         end.
Proof.
  intros Hp Hhs Hwf Hact Hdrop Hlen Hh. unfold on_msgbuffer. rewrite Hh. cbn [negb].
  assert (Hreq : (2 <= length (request path hs))%nat).
  { unfold request. rewrite text_cons, !length_app. simpl. lia. }
  rewrite Hdrop, c_string_app by (by apply text_not_nul, request_lines_ok).
  cbn [mbind option_bind]. rewrite MsgBufProps.GetActiveSize_spec, Hact by done.
  rewrite sext_small by (unfold in_i; lia). rewrite parse_request by (done || lia).
  destruct (map_find str_Host (rev hs)) as [host|]; [|done].
  destruct (map_find str_Key (rev hs)) as [key|] eqn:Ek; [|done].
  unfold respondHandshake. cbn [m_strKey m_strHost m_readPacket].
  destruct (map_find_header str_Key path hs key Hhs Ek) as [Hkey Hkl].
  rewrite accept_value_spec by (done || lia).
  - cbn [mbind option_bind]. unfold response. do 5 f_equal.
    rewrite !app_assoc, length_app, Nat.add_sub. apply take_app_exact.
Qed.

(** The example of RFC 6455. *)
Definition ex_key : list Z :=
  [100; 71; 104; 108; 73; 72; 78; 104; 98; 88; 66; 115; 90; 83; 66; 117; 98; 50; 53; 106; 90;
  81; 61; 61].
Definition ex_headers : list (list Z * list Z) := [(str_Host, [97]); (str_Key, ex_key)].
Definition ex_request : list Z := request [32; 47; 32; 72; 84; 84; 80; 47; 49; 46; 49] ex_headers.
Definition ex_buffer : MessageBuffer.t :=
  MessageBuffer.mk (ex_request ++ [0]) (length ex_request) 0.

Lemma plain_dec l :
  forallb (fun c => (0 <=? c) && (c <? 256) && negb (c =? 10) && negb (c =? 0)) l = true -> plain l.
Proof.
  intros H. apply List.Forall_forall. intros x Hx. rewrite forallb_forall in H.
  specialize (H x Hx). unfold byte_ok. bool_arith. lia.
Qed.

Lemma ws_handshake_witness :
  on_msgbuffer 0 ex_buffer create =
    Done (ex_buffer, mkst [97] ex_key true None, [Write (response [97] ex_key); OnHandshake]) /\
  accept ex_key =
    [115; 51; 112; 80; 76; 77; 66; 105; 84; 120; 97; 81; 57; 107; 89; 71; 122; 122; 104; 90;
    82; 98; 75; 43; 120; 79; 111; 61].
Proof.
  split; [|vm_compute; reflexivity].
  refine (ws_handshake [32; 47; 32; 72; 84; 84; 80; 47; 49; 46; 49] ex_headers ex_buffer []
            0 create _ _ _ _ _ _ eq_refl).
  - by apply plain_dec.
  - repeat apply Forall_cons_2; [| |apply Forall_nil_2];
      (split_and!; [by apply plain_dec| |by apply plain_dec]);
      repeat apply Forall_cons_2; try apply Forall_nil_2; done.
  - unfold MessageBuffer.wf, ex_buffer; simpl. split_and!; lia.
  - vm_compute. reflexivity.
  - vm_compute. reflexivity.
  - vm_compute. reflexivity.
Defined.

End WsHandshakeProps.
