(* ===== verification/Llhttp.v ===== *)
(** * Llhttp: the HTTP parser, data and helpers

    Models src/src/utils/llhttp.h, http.c, api.c and, of llhttp.c, the helper
    functions of the loose parser (the one the build compiles:
    LLHTTP_STRICT_MODE is 0).  The states of the parser are in LlhttpRun.

    The parser is a machine over a buffer: a position in it stands for a
    pointer [p], the label of a block for [state->_current] and for the target
    of a [goto].  The local variable [match] of the run function is carried
    along.  A user callback gets the public fields of the parser, the user's
    own data and, for a span, its bytes, and gives a code and new data. *)
From Stdlib Require Import String.
From S2P Require Import Prelude.

Module Llhttp.

(** ** llhttp.h *)

(** The fields of [llhttp__internal_t] that the user may read. *)
Record pub : Type := mkpub {
  content_length : Z; type : Z; method : Z; http_major : Z; http_minor : Z; header_state : Z;
  lenient_flags : Z; upgrade : Z; finish : Z; flags : Z; status_code : Z
}.

Definition set_content_length (v : Z) (s : pub) : pub :=
  mkpub v (type s) (method s) (http_major s) (http_minor s) (header_state s) (lenient_flags s)
  (upgrade s) (finish s) (flags s) (status_code s).
Definition set_type (v : Z) (s : pub) : pub :=
  mkpub (content_length s) v (method s) (http_major s) (http_minor s) (header_state s)
  (lenient_flags s) (upgrade s) (finish s) (flags s) (status_code s).
Definition set_method (v : Z) (s : pub) : pub :=
  mkpub (content_length s) (type s) v (http_major s) (http_minor s) (header_state s)
  (lenient_flags s) (upgrade s) (finish s) (flags s) (status_code s).
Definition set_http_major (v : Z) (s : pub) : pub :=
  mkpub (content_length s) (type s) (method s) v (http_minor s) (header_state s)
  (lenient_flags s) (upgrade s) (finish s) (flags s) (status_code s).
Definition set_http_minor (v : Z) (s : pub) : pub :=
  mkpub (content_length s) (type s) (method s) (http_major s) v (header_state s)
  (lenient_flags s) (upgrade s) (finish s) (flags s) (status_code s).
Definition set_header_state (v : Z) (s : pub) : pub :=
  mkpub (content_length s) (type s) (method s) (http_major s) (http_minor s) v
  (lenient_flags s) (upgrade s) (finish s) (flags s) (status_code s).
Definition set_lenient_flags (v : Z) (s : pub) : pub :=
  mkpub (content_length s) (type s) (method s) (http_major s) (http_minor s) (header_state s) v
  (upgrade s) (finish s) (flags s) (status_code s).
Definition set_upgrade (v : Z) (s : pub) : pub :=
  mkpub (content_length s) (type s) (method s) (http_major s) (http_minor s) (header_state s)
  (lenient_flags s) v (finish s) (flags s) (status_code s).
Definition set_finish (v : Z) (s : pub) : pub :=
  mkpub (content_length s) (type s) (method s) (http_major s) (http_minor s) (header_state s)
  (lenient_flags s) (upgrade s) v (flags s) (status_code s).
Definition set_flags (v : Z) (s : pub) : pub :=
  mkpub (content_length s) (type s) (method s) (http_major s) (http_minor s) (header_state s)
  (lenient_flags s) (upgrade s) (finish s) v (status_code s).
Definition set_status_code (v : Z) (s : pub) : pub :=
  mkpub (content_length s) (type s) (method s) (http_major s) (http_minor s) (header_state s)
  (lenient_flags s) (upgrade s) (finish s) (flags s) v.

(** [llhttp_errno]. *)
Definition HPE_OK : Z := 0.
Definition HPE_INTERNAL : Z := 1.
Definition HPE_STRICT : Z := 2.
Definition HPE_LF_EXPECTED : Z := 3.
Definition HPE_UNEXPECTED_CONTENT_LENGTH : Z := 4.
Definition HPE_CLOSED_CONNECTION : Z := 5.
Definition HPE_INVALID_METHOD : Z := 6.
Definition HPE_INVALID_URL : Z := 7.
Definition HPE_INVALID_CONSTANT : Z := 8.
Definition HPE_INVALID_VERSION : Z := 9.
Definition HPE_INVALID_HEADER_TOKEN : Z := 10.
Definition HPE_INVALID_CONTENT_LENGTH : Z := 11.
Definition HPE_INVALID_CHUNK_SIZE : Z := 12.
Definition HPE_INVALID_STATUS : Z := 13.
Definition HPE_INVALID_EOF_STATE : Z := 14.
Definition HPE_INVALID_TRANSFER_ENCODING : Z := 15.
Definition HPE_CB_MESSAGE_BEGIN : Z := 16.
Definition HPE_CB_HEADERS_COMPLETE : Z := 17.
Definition HPE_CB_MESSAGE_COMPLETE : Z := 18.
Definition HPE_CB_CHUNK_HEADER : Z := 19.
Definition HPE_CB_CHUNK_COMPLETE : Z := 20.
Definition HPE_PAUSED : Z := 21.
Definition HPE_PAUSED_UPGRADE : Z := 22.
Definition HPE_USER : Z := 23.
(** [llhttp_flags]. *)
Definition F_CONNECTION_KEEP_ALIVE : Z := 0x1.
Definition F_CONNECTION_CLOSE : Z := 0x2.
Definition F_CONNECTION_UPGRADE : Z := 0x4.
Definition F_CHUNKED : Z := 0x8.
Definition F_UPGRADE : Z := 0x10.
Definition F_CONTENT_LENGTH : Z := 0x20.
Definition F_SKIPBODY : Z := 0x40.
Definition F_TRAILING : Z := 0x80.
Definition F_TRANSFER_ENCODING : Z := 0x200.
(** [llhttp_lenient_flags], [llhttp_type], [llhttp_finish]. *)
Definition LENIENT_HEADERS : Z := 0x1.
Definition LENIENT_CHUNKED_LENGTH : Z := 0x2.
Definition HTTP_BOTH : Z := 0.
Definition HTTP_REQUEST : Z := 1.
Definition HTTP_RESPONSE : Z := 2.
Definition HTTP_FINISH_SAFE : Z := 0.
Definition HTTP_FINISH_SAFE_WITH_CB : Z := 1.
Definition HTTP_FINISH_UNSAFE : Z := 2.
(** [llhttp_method], the values the code names. *)
Definition HTTP_CONNECT : Z := 5.

(** The states of the loose parser: the blocks of the run function. *)
Inductive label : Type :=
  | n_invoke_llhttp__after_message_complete | n_pause_1 | n_invoke_is_equal_upgrade
  | n_invoke_llhttp__on_message_complete_2 | n_chunk_data_almost_done_skip
  | n_chunk_data_almost_done | n_consume_content_length | n_span_start_llhttp__on_body
  | n_invoke_is_equal_content_length | n_chunk_size_almost_done | n_chunk_parameters
  | n_chunk_size_otherwise | n_chunk_size | n_chunk_size_digit | n_invoke_update_content_length
  | n_consume_content_length_1 | n_span_start_llhttp__on_body_1 | n_eof
  | n_span_start_llhttp__on_body_2 | n_invoke_llhttp__after_headers_complete
  | n_headers_almost_done | n_span_start_llhttp__on_header_value | n_header_value_discard_lws
  | n_header_value_discard_ws_almost_done | n_header_value_lws | n_header_value_almost_done
  | n_header_value_lenient | n_header_value_otherwise | n_header_value_connection_token
  | n_header_value_connection_ws | n_header_value_connection_1 | n_header_value_connection_2
  | n_header_value_connection_3 | n_header_value_connection | n_error_17 | n_error_18
  | n_header_value_content_length_ws | n_header_value_content_length
  | n_header_value_te_chunked_last | n_header_value_te_token_ows | n_header_value
  | n_header_value_te_token | n_header_value_te_chunked
  | n_span_start_llhttp__on_header_value_1 | n_header_value_discard_ws
  | n_invoke_llhttp__on_header_field_complete | n_header_field_general_otherwise
  | n_header_field_general | n_header_field_colon | n_header_field_3 | n_header_field_4
  | n_header_field_2 | n_header_field_1 | n_header_field_5 | n_header_field_6
  | n_header_field_7 | n_header_field | n_span_start_llhttp__on_header_field
  | n_header_field_start | n_url_skip_to_http09 | n_url_skip_lf_to_http09 | n_req_http_end_1
  | n_req_http_end | n_req_http_minor | n_req_http_dot | n_req_http_major | n_req_http_start_1
  | n_req_http_start_2 | n_req_http_start_3 | n_req_http_start | n_url_skip_to_http
  | n_url_fragment | n_span_end_stub_query_3 | n_url_query | n_url_query_or_fragment
  | n_url_path | n_span_start_stub_path_2 | n_span_start_stub_path | n_span_start_stub_path_1
  | n_url_server_with_at | n_url_server | n_url_schema_delim_1 | n_url_schema_delim
  | n_span_end_stub_schema | n_url_schema | n_url_start | n_span_start_llhttp__on_url_1
  | n_span_start_llhttp__on_url | n_req_spaces_before_url | n_req_first_space_before_url
  | n_start_req_2 | n_start_req_3 | n_start_req_1 | n_start_req_4 | n_start_req_6
  | n_start_req_8 | n_start_req_9 | n_start_req_7 | n_start_req_5 | n_start_req_12
  | n_start_req_13 | n_start_req_11 | n_start_req_10 | n_start_req_14 | n_start_req_17
  | n_start_req_16 | n_start_req_15 | n_start_req_18 | n_start_req_20 | n_start_req_21
  | n_start_req_19 | n_start_req_23 | n_start_req_24 | n_start_req_26 | n_start_req_28
  | n_start_req_29 | n_start_req_27 | n_start_req_25 | n_start_req_30 | n_start_req_22
  | n_start_req_31 | n_start_req_32 | n_start_req_35 | n_start_req_36 | n_start_req_34
  | n_start_req_37 | n_start_req_38 | n_start_req_42 | n_start_req_43 | n_start_req_41
  | n_start_req_40 | n_start_req_39 | n_start_req_45 | n_start_req_44 | n_start_req_33
  | n_start_req_48 | n_start_req_49 | n_start_req_50 | n_start_req_51 | n_start_req_47
  | n_start_req_46 | n_start_req_54 | n_start_req_56 | n_start_req_57 | n_start_req_55
  | n_start_req_53 | n_start_req_58 | n_start_req_59 | n_start_req_52 | n_start_req_61
  | n_start_req_62 | n_start_req_60 | n_start_req_65 | n_start_req_67 | n_start_req_68
  | n_start_req_66 | n_start_req_69 | n_start_req_64 | n_start_req_63 | n_start_req
  | n_invoke_llhttp__on_status_complete | n_res_line_almost_done | n_res_status
  | n_span_start_llhttp__on_status | n_res_status_start | n_res_status_code_otherwise
  | n_res_status_code | n_res_http_end | n_res_http_minor | n_res_http_dot | n_res_http_major
  | n_start_res | n_req_or_res_method_2 | n_req_or_res_method_3 | n_req_or_res_method_1
  | n_req_or_res_method | n_start_req_or_res | n_invoke_load_type | n_start | n_error_35
  | n_invoke_update_finish_1 | n_pause_5 | n_error_9 | n_pause_7 | n_error_12
  | n_invoke_llhttp__on_chunk_complete_1 | n_error_11 | n_pause_2 | n_error_3
  | n_invoke_llhttp__on_message_complete_1 | n_error_7 | n_pause_3 | n_error_5
  | n_invoke_llhttp__on_chunk_complete | n_span_end_llhttp__on_body | n_invoke_or_flags
  | n_pause_4 | n_error_4 | n_invoke_llhttp__on_chunk_header | n_error_6
  | n_invoke_mul_add_content_length | n_error_8 | n_span_end_llhttp__on_body_1
  | n_invoke_update_finish_2 | n_error_10 | n_pause | n_error_2
  | n_invoke_llhttp__on_message_complete | n_invoke_or_flags_1 | n_invoke_or_flags_2
  | n_invoke_update_upgrade | n_pause_6 | n_error_1 | n_invoke_llhttp__on_headers_complete
  | n_invoke_llhttp__before_headers_complete | n_invoke_test_lenient_flags
  | n_invoke_test_flags_1 | n_invoke_test_flags | n_error_13
  | n_span_end_llhttp__on_header_value | n_invoke_update_header_state | n_invoke_or_flags_3
  | n_invoke_or_flags_4 | n_invoke_or_flags_5 | n_invoke_or_flags_6
  | n_invoke_load_header_state_1 | n_invoke_load_header_state
  | n_invoke_llhttp__on_header_value_complete | n_invoke_update_header_state_1
  | n_invoke_or_flags_7 | n_invoke_or_flags_8 | n_invoke_or_flags_9 | n_invoke_or_flags_10
  | n_invoke_load_header_state_3 | n_error_14 | n_span_end_llhttp__on_header_value_1
  | n_span_end_llhttp__on_header_value_2 | n_span_end_llhttp__on_header_value_3 | n_error_15
  | n_invoke_test_lenient_flags_1 | n_invoke_update_header_state_3 | n_invoke_or_flags_11
  | n_invoke_or_flags_12 | n_invoke_or_flags_13 | n_invoke_or_flags_14
  | n_invoke_load_header_state_4 | n_invoke_update_header_state_4
  | n_invoke_update_header_state_2 | n_invoke_update_header_state_5
  | n_invoke_update_header_state_6 | n_span_end_llhttp__on_header_value_4
  | n_invoke_mul_add_content_length_1 | n_invoke_or_flags_15
  | n_span_end_llhttp__on_header_value_5 | n_error_16 | n_invoke_test_flags_2
  | n_invoke_update_header_state_7 | n_invoke_update_header_state_8 | n_invoke_and_flags
  | n_invoke_or_flags_16 | n_invoke_or_flags_17 | n_invoke_load_header_state_2
  | n_span_end_llhttp__on_header_field | n_span_end_llhttp__on_header_field_1 | n_error_19
  | n_invoke_update_header_state_9 | n_invoke_store_header_state
  | n_invoke_update_header_state_10 | n_invoke_llhttp__on_url_complete
  | n_invoke_update_http_minor | n_invoke_update_http_major | n_span_end_llhttp__on_url_3
  | n_error_20 | n_span_end_llhttp__on_url_4 | n_error_22 | n_invoke_store_http_minor
  | n_error_23 | n_error_24 | n_invoke_store_http_major | n_error_25 | n_error_21
  | n_invoke_load_method | n_error_28 | n_error_26 | n_invoke_load_method_1 | n_error_27
  | n_invoke_load_method_2 | n_invoke_llhttp__on_url_complete_1 | n_span_end_llhttp__on_url_5
  | n_span_end_llhttp__on_url_6 | n_span_end_llhttp__on_url_7 | n_span_end_llhttp__on_url_8
  | n_error_29 | n_span_end_llhttp__on_url_9 | n_span_end_llhttp__on_url_10
  | n_span_end_llhttp__on_url_11 | n_error_30 | n_error_31 | n_span_end_llhttp__on_url
  | n_span_end_llhttp__on_url_1 | n_span_end_llhttp__on_url_2 | n_span_end_llhttp__on_url_12
  | n_span_end_llhttp__on_url_13 | n_span_end_llhttp__on_url_14 | n_error_32 | n_error_33
  | n_error_34 | n_error_36 | n_error_37 | n_error_38 | n_invoke_is_equal_method | n_error_39
  | n_invoke_store_method_1 | n_error_47 | n_error_40 | n_invoke_mul_add_status_code
  | n_span_end_llhttp__on_status | n_span_end_llhttp__on_status_1 | n_error_41
  | n_invoke_update_status_code | n_error_42 | n_invoke_store_http_minor_1 | n_error_43
  | n_error_44 | n_invoke_store_http_major_1 | n_error_45 | n_error_48 | n_invoke_update_type
  | n_invoke_store_method | n_error_46 | n_invoke_update_type_1 | n_invoke_update_type_2
  | n_pause_8 | n_error | n_invoke_llhttp__on_message_begin | n_invoke_update_finish.

(** The spans: which data callback [_span_cb0] points to. *)
Inductive span : Type := span_on_url | span_on_status | span_on_header_field | span_on_header_value | span_on_body.

(** [llhttp_t].  [_span_pos0] and [error_pos] are offsets into the buffer of
    the current call; [_current = None] is [s_error]. *)
Record llhttp_t (U : Type) : Type := mk {
  _index : nat; _span_pos0 : option nat; _span_cb0 : option span; error : Z;
  reason : option string; error_pos : option nat; data : U; _current : option label;
  fields : pub
}.
Arguments mk {U}.
Arguments _index {U}. Arguments _span_pos0 {U}. Arguments _span_cb0 {U}. Arguments error {U}.
Arguments reason {U}. Arguments error_pos {U}. Arguments data {U}. Arguments _current {U}.
Arguments fields {U}.

(** [llhttp_settings_t]: the callbacks, each possibly [NULL]. *)
Definition llhttp_cb (U : Type) : Type := pub -> U -> Z * U.
Definition llhttp_data_cb (U : Type) : Type := pub -> U -> list Z -> Z * U.
Record llhttp_settings_t (U : Type) : Type := mksettings {
  on_url : option (llhttp_data_cb U); on_status : option (llhttp_data_cb U);
  on_header_field : option (llhttp_data_cb U); on_header_value : option (llhttp_data_cb U);
  on_body : option (llhttp_data_cb U); on_message_begin : option (llhttp_cb U);
  on_headers_complete : option (llhttp_cb U); on_message_complete : option (llhttp_cb U);
  on_chunk_header : option (llhttp_cb U); on_chunk_complete : option (llhttp_cb U);
  on_url_complete : option (llhttp_cb U); on_status_complete : option (llhttp_cb U);
  on_header_field_complete : option (llhttp_cb U);
  on_header_value_complete : option (llhttp_cb U)
}.
Arguments on_url {U}.
Arguments on_status {U}.
Arguments on_header_field {U}.
Arguments on_header_value {U}.
Arguments on_body {U}.
Arguments on_message_begin {U}.
Arguments on_headers_complete {U}.
Arguments on_message_complete {U}.
Arguments on_chunk_header {U}.
Arguments on_chunk_complete {U}.
Arguments on_url_complete {U}.
Arguments on_status_complete {U}.
Arguments on_header_field_complete {U}.
Arguments on_header_value_complete {U}.

Section State.
Context {U : Type}.

Definition set_index (v : nat) (s : llhttp_t U) : llhttp_t U :=
  mk v (_span_pos0 s) (_span_cb0 s) (error s) (reason s) (error_pos s) (data s) (_current s) (fields s).
Definition set_span_pos0 (v : option nat) (s : llhttp_t U) : llhttp_t U :=
  mk (_index s) v (_span_cb0 s) (error s) (reason s) (error_pos s) (data s) (_current s) (fields s).
Definition set_span_cb0 (v : option span) (s : llhttp_t U) : llhttp_t U :=
  mk (_index s) (_span_pos0 s) v (error s) (reason s) (error_pos s) (data s) (_current s) (fields s).
Definition set_error (e : Z) (s : llhttp_t U) : llhttp_t U :=
  mk (_index s) (_span_pos0 s) (_span_cb0 s) e (reason s) (error_pos s) (data s) (_current s) (fields s).
Definition set_reason (r : option string) (s : llhttp_t U) : llhttp_t U :=
  mk (_index s) (_span_pos0 s) (_span_cb0 s) (error s) r (error_pos s) (data s) (_current s) (fields s).
Definition set_error_pos (v : option nat) (s : llhttp_t U) : llhttp_t U :=
  mk (_index s) (_span_pos0 s) (_span_cb0 s) (error s) (reason s) v (data s) (_current s) (fields s).
Definition set_data (v : U) (s : llhttp_t U) : llhttp_t U :=
  mk (_index s) (_span_pos0 s) (_span_cb0 s) (error s) (reason s) (error_pos s) v (_current s) (fields s).
Definition set_current (v : option label) (s : llhttp_t U) : llhttp_t U :=
  mk (_index s) (_span_pos0 s) (_span_cb0 s) (error s) (reason s) (error_pos s) (data s) v (fields s).
Definition set_fields (v : pub) (s : llhttp_t U) : llhttp_t U :=
  mk (_index s) (_span_pos0 s) (_span_cb0 s) (error s) (reason s) (error_pos s) (data s) (_current s) v.

(** [CALLBACK_MAYBE]. *)
Definition callback_maybe (cb : option (llhttp_cb U)) (s : llhttp_t U) : Z * llhttp_t U :=
  match cb with
  | None => (0, s)
  | Some cb => let '(err, u) := cb (fields s) (data s) in (err, set_data u s)
  end.
Definition data_callback_maybe (cb : option (llhttp_data_cb U)) (d : list Z) (s : llhttp_t U) :
    Z * llhttp_t U :=
  match cb with
  | None => (0, s)
  | Some cb => let '(err, u) := cb (fields s) (data s) d in (err, set_data u s)
  end.

(** ** api.c: the callbacks *)
Context (settings : llhttp_settings_t U).

Definition llhttp__on_url : list Z -> llhttp_t U -> Z * llhttp_t U :=
  data_callback_maybe (on_url settings).
Definition llhttp__on_status : list Z -> llhttp_t U -> Z * llhttp_t U :=
  data_callback_maybe (on_status settings).
Definition llhttp__on_header_field : list Z -> llhttp_t U -> Z * llhttp_t U :=
  data_callback_maybe (on_header_field settings).
Definition llhttp__on_header_value : list Z -> llhttp_t U -> Z * llhttp_t U :=
  data_callback_maybe (on_header_value settings).
Definition llhttp__on_body : list Z -> llhttp_t U -> Z * llhttp_t U :=
  data_callback_maybe (on_body settings).
Definition llhttp__on_message_begin : llhttp_t U -> Z * llhttp_t U := callback_maybe (on_message_begin settings).
Definition llhttp__on_headers_complete : llhttp_t U -> Z * llhttp_t U := callback_maybe (on_headers_complete settings).
Definition llhttp__on_message_complete : llhttp_t U -> Z * llhttp_t U := callback_maybe (on_message_complete settings).
Definition llhttp__on_chunk_header : llhttp_t U -> Z * llhttp_t U := callback_maybe (on_chunk_header settings).
Definition llhttp__on_chunk_complete : llhttp_t U -> Z * llhttp_t U := callback_maybe (on_chunk_complete settings).
Definition llhttp__on_url_complete : llhttp_t U -> Z * llhttp_t U := callback_maybe (on_url_complete settings).
Definition llhttp__on_status_complete : llhttp_t U -> Z * llhttp_t U := callback_maybe (on_status_complete settings).
Definition llhttp__on_header_field_complete : llhttp_t U -> Z * llhttp_t U := callback_maybe (on_header_field_complete settings).
Definition llhttp__on_header_value_complete : llhttp_t U -> Z * llhttp_t U := callback_maybe (on_header_value_complete settings).

(** The call through [_span_cb0]. *)
Definition call_span (c : span) : list Z -> llhttp_t U -> Z * llhttp_t U :=
  match c with
  | span_on_url => llhttp__on_url
  | span_on_status => llhttp__on_status
  | span_on_header_field => llhttp__on_header_field
  | span_on_header_value => llhttp__on_header_value
  | span_on_body => llhttp__on_body
  end.

End State.

(** ** http.c *)

Definition has (mask flags_ : Z) : bool := negb (Z.land flags_ mask =? 0).

Definition llhttp__before_headers_complete (s : pub) : Z * pub :=
  if has F_UPGRADE (flags s) && has F_CONNECTION_UPGRADE (flags s)
  then (0, set_upgrade (Z.b2z ((type s =? HTTP_REQUEST) || (status_code s =? 101))) s)
  else (0, set_upgrade (Z.b2z (method s =? HTTP_CONNECT)) s).

Definition llhttp_message_needs_eof (s : pub) : bool :=
  if type s =? HTTP_REQUEST then false
  else if (status_code s / 100 =? 1) || (status_code s =? 204) || (status_code s =? 304) ||
          has F_SKIPBODY (flags s) then false
  else if has F_TRANSFER_ENCODING (flags s) && negb (has F_CHUNKED (flags s)) then true
  else if has (Z.lor F_CHUNKED F_CONTENT_LENGTH) (flags s) then false
  else true.

Definition llhttp__after_headers_complete (s : pub) : Z * pub :=
  let hasBody := has F_CHUNKED (flags s) || (0 <? content_length s) in
  (if negb (upgrade s =? 0) &&
      ((method s =? HTTP_CONNECT) || has F_SKIPBODY (flags s) || negb hasBody) then 1
   else if has F_SKIPBODY (flags s) then 0
   else if has F_CHUNKED (flags s) then 2
   else if has F_TRANSFER_ENCODING (flags s) then
     if (type s =? HTTP_REQUEST) && negb (has LENIENT_CHUNKED_LENGTH (lenient_flags s))
     then 5 else 4
   else if negb (has F_CONTENT_LENGTH (flags s)) then
     if negb (llhttp_message_needs_eof s) then 0 else 4
   else if content_length s =? 0 then 0
   else 3, s).

Definition llhttp_should_keep_alive (s : pub) : bool :=
  if (0 <? http_major s) && (0 <? http_minor s) then
    if has F_CONNECTION_CLOSE (flags s) then false else negb (llhttp_message_needs_eof s)
  else
    if negb (has F_CONNECTION_KEEP_ALIVE (flags s)) then false
    else negb (llhttp_message_needs_eof s).

Definition llhttp__after_message_complete (s : pub) : Z * pub :=
  (Z.b2z (llhttp_should_keep_alive s), set_flags 0 (set_finish HTTP_FINISH_SAFE s)).

(** ** llhttp.c: the functions the blocks invoke *)

Definition c_update_finish (pb : pub) : Z * pub := (0, set_finish 2 pb).
Definition c_load_type (pb : pub) : Z * pub := (type pb, pb).
Definition c_store_method (match_ : Z) (pb : pub) : Z * pub := (0, set_method (u8 match_) pb).
Definition c_is_equal_method (pb : pub) : Z * pub := (Z.b2z (method pb =? 5), pb).
Definition c_update_http_major (pb : pub) : Z * pub := (0, set_http_major 0 pb).
Definition c_update_http_minor (pb : pub) : Z * pub := (0, set_http_minor 9 pb).
Definition c_test_flags (pb : pub) : Z * pub :=
  (Z.b2z (Z.land (flags pb) 128 =? 128), pb).
Definition c_is_equal_upgrade (pb : pub) : Z * pub := (Z.b2z (upgrade pb =? 1), pb).
Definition c_update_finish_1 (pb : pub) : Z * pub := (0, set_finish 0 pb).
Definition c_test_flags_1 (pb : pub) : Z * pub :=
  (Z.b2z (Z.land (flags pb) 544 =? 544), pb).
Definition c_test_lenient_flags (pb : pub) : Z * pub :=
  (Z.b2z (Z.land (lenient_flags pb) 2 =? 2), pb).
Definition c_update_content_length (pb : pub) : Z * pub := (0, set_content_length 0 pb).
Definition c_mul_add_content_length (match_ : Z) (pb : pub) : Z * pub :=
  if 0xffffffffffffffff / 16 <? content_length pb then (1, pb)
  else
    let pb := set_content_length (content_length pb * 16) pb in
    if (if 0 <=? match_ then u64 (0xffffffffffffffff - match_) <? content_length pb
        else content_length pb <? u64 (0 - match_))
    then (1, pb)
    else (0, set_content_length (u64 (content_length pb + match_)) pb).
Definition c_is_equal_content_length (pb : pub) : Z * pub := (Z.b2z (content_length pb =? 0), pb).
Definition c_or_flags (pb : pub) : Z * pub := (0, set_flags (Z.lor (flags pb) 128) pb).
Definition c_update_finish_2 (pb : pub) : Z * pub := (0, set_finish 1 pb).
Definition c_or_flags_1 (pb : pub) : Z * pub := (0, set_flags (Z.lor (flags pb) 64) pb).
Definition c_update_upgrade (pb : pub) : Z * pub := (0, set_upgrade 1 pb).
Definition c_store_header_state (match_ : Z) (pb : pub) : Z * pub := (0, set_header_state (u8 match_) pb).
Definition c_load_header_state (pb : pub) : Z * pub := (header_state pb, pb).
Definition c_or_flags_3 (pb : pub) : Z * pub := (0, set_flags (Z.lor (flags pb) 1) pb).
Definition c_update_header_state (pb : pub) : Z * pub := (0, set_header_state 1 pb).
Definition c_or_flags_4 (pb : pub) : Z * pub := (0, set_flags (Z.lor (flags pb) 2) pb).
Definition c_or_flags_5 (pb : pub) : Z * pub := (0, set_flags (Z.lor (flags pb) 4) pb).
Definition c_or_flags_6 (pb : pub) : Z * pub := (0, set_flags (Z.lor (flags pb) 8) pb).
Definition c_update_header_state_2 (pb : pub) : Z * pub := (0, set_header_state 6 pb).
Definition c_test_lenient_flags_1 (pb : pub) : Z * pub :=
  (Z.b2z (Z.land (lenient_flags pb) 1 =? 1), pb).
Definition c_update_header_state_4 (pb : pub) : Z * pub := (0, set_header_state 0 pb).
Definition c_update_header_state_5 (pb : pub) : Z * pub := (0, set_header_state 5 pb).
Definition c_update_header_state_6 (pb : pub) : Z * pub := (0, set_header_state 7 pb).
Definition c_test_flags_2 (pb : pub) : Z * pub :=
  (Z.b2z (Z.land (flags pb) 32 =? 32), pb).
Definition c_mul_add_content_length_1 (match_ : Z) (pb : pub) : Z * pub :=
  if 0xffffffffffffffff / 10 <? content_length pb then (1, pb)
  else
    let pb := set_content_length (content_length pb * 10) pb in
    if (if 0 <=? match_ then u64 (0xffffffffffffffff - match_) <? content_length pb
        else content_length pb <? u64 (0 - match_))
    then (1, pb)
    else (0, set_content_length (u64 (content_length pb + match_)) pb).
Definition c_or_flags_15 (pb : pub) : Z * pub := (0, set_flags (Z.lor (flags pb) 32) pb).
Definition c_or_flags_16 (pb : pub) : Z * pub := (0, set_flags (Z.lor (flags pb) 512) pb).
Definition c_and_flags (pb : pub) : Z * pub := (0, set_flags (u16 (Z.land (flags pb) (-9))) pb).
Definition c_update_header_state_7 (pb : pub) : Z * pub := (0, set_header_state 8 pb).
Definition c_or_flags_17 (pb : pub) : Z * pub := (0, set_flags (Z.lor (flags pb) 16) pb).
Definition c_load_method (pb : pub) : Z * pub := (method pb, pb).
Definition c_store_http_major (match_ : Z) (pb : pub) : Z * pub := (0, set_http_major (u8 match_) pb).
Definition c_store_http_minor (match_ : Z) (pb : pub) : Z * pub := (0, set_http_minor (u8 match_) pb).
Definition c_update_status_code (pb : pub) : Z * pub := (0, set_status_code 0 pb).
Definition c_mul_add_status_code (match_ : Z) (pb : pub) : Z * pub :=
  if 0xffff / 10 <? status_code pb then (1, pb)
  else
    let pb := set_status_code (status_code pb * 10) pb in
    if (if 0 <=? match_ then 0xffff - match_ <? status_code pb
        else status_code pb <? 0 - match_)
    then (1, pb)
    else
      let pb := set_status_code (u16 (status_code pb + match_)) pb in
      if 999 <? status_code pb then (1, pb) else (0, pb).
Definition c_update_type (pb : pub) : Z * pub := (0, set_type 1 pb).
Definition c_update_type_1 (pb : pub) : Z * pub := (0, set_type 2 pb).

(** The literals the blocks match. *)
Definition llparse_blob1 : list Z := [111; 110].
Definition llparse_blob2 : list Z := [101; 99; 116; 105; 111; 110].
Definition llparse_blob3 : list Z := [108; 111; 115; 101].
Definition llparse_blob4 : list Z := [101; 101; 112; 45; 97; 108; 105; 118; 101].
Definition llparse_blob5 : list Z := [112; 103; 114; 97; 100; 101].
Definition llparse_blob6 : list Z := [99; 104; 117; 110; 107; 101; 100].
Definition llparse_blob10 : list Z := [101; 110; 116; 45; 108; 101; 110; 103; 116; 104].
Definition llparse_blob11 : list Z := [114; 111; 120; 121; 45; 99; 111; 110; 110; 101; 99; 116; 105; 111; 110].
Definition llparse_blob12 : list Z := [114; 97; 110; 115; 102; 101; 114; 45; 101; 110; 99; 111; 100; 105; 110; 103].
Definition llparse_blob13 : list Z := [112; 103; 114; 97; 100; 101].
Definition llparse_blob14 : list Z := [13; 10].
Definition llparse_blob15 : list Z := [84; 84; 80; 47].
Definition llparse_blob16 : list Z := [67; 69; 47].
Definition llparse_blob17 : list Z := [84; 83; 80; 47].
Definition llparse_blob18 : list Z := [78; 79; 85; 78; 67; 69].
Definition llparse_blob19 : list Z := [73; 78; 68].
Definition llparse_blob20 : list Z := [69; 67; 75; 79; 85; 84].
Definition llparse_blob21 : list Z := [78; 69; 67; 84].
Definition llparse_blob22 : list Z := [69; 84; 69].
Definition llparse_blob23 : list Z := [67; 82; 73; 66; 69].
Definition llparse_blob24 : list Z := [76; 85; 83; 72].
Definition llparse_blob25 : list Z := [69; 84].
Definition llparse_blob26 : list Z := [80; 65; 82; 65; 77; 69; 84; 69; 82].
Definition llparse_blob27 : list Z := [69; 65; 68].
Definition llparse_blob28 : list Z := [78; 75].
Definition llparse_blob29 : list Z := [67; 75].
Definition llparse_blob30 : list Z := [83; 69; 65; 82; 67; 72].
Definition llparse_blob31 : list Z := [82; 71; 69].
Definition llparse_blob32 : list Z := [67; 84; 73; 86; 73; 84; 89].
Definition llparse_blob33 : list Z := [76; 69; 78; 68; 65; 82].
Definition llparse_blob34 : list Z := [86; 69].
Definition llparse_blob35 : list Z := [79; 84; 73; 70; 89].
Definition llparse_blob36 : list Z := [80; 84; 73; 79; 78; 83].
Definition llparse_blob37 : list Z := [67; 72].
Definition llparse_blob38 : list Z := [83; 69].
Definition llparse_blob39 : list Z := [65; 89].
Definition llparse_blob40 : list Z := [83; 84].
Definition llparse_blob41 : list Z := [73; 78; 68].
Definition llparse_blob42 : list Z := [65; 84; 67; 72].
Definition llparse_blob43 : list Z := [71; 69].
Definition llparse_blob44 : list Z := [73; 78; 68].
Definition llparse_blob45 : list Z := [79; 82; 68].
Definition llparse_blob46 : list Z := [73; 82; 69; 67; 84].
Definition llparse_blob47 : list Z := [79; 82; 84].
Definition llparse_blob48 : list Z := [82; 67; 72].
Definition llparse_blob49 : list Z := [80; 65; 82; 65; 77; 69; 84; 69; 82].
Definition llparse_blob50 : list Z := [85; 82; 67; 69].
Definition llparse_blob51 : list Z := [66; 83; 67; 82; 73; 66; 69].
Definition llparse_blob52 : list Z := [65; 82; 68; 79; 87; 78].
Definition llparse_blob53 : list Z := [65; 67; 69].
Definition llparse_blob54 : list Z := [73; 78; 68].
Definition llparse_blob55 : list Z := [78; 75].
Definition llparse_blob56 : list Z := [67; 75].
Definition llparse_blob57 : list Z := [85; 66; 83; 67; 82; 73; 66; 69].
Definition llparse_blob58 : list Z := [72; 84; 84; 80; 47].
Definition llparse_blob59 : list Z := [65; 68].
Definition llparse_blob60 : list Z := [84; 80; 47].

(** [llparse__match_sequence_*]: the loop over the bytes [r] left, from index
    [index] of the literal; [n] bytes were taken.  [None] is a read past the
    literal. *)
Inductive llparse_match_status_t : Type := kMatchComplete | kMatchPause | kMatchMismatch.

Fixpoint match_loop (conv : Z -> Z) (seq : list Z) (r : list Z) (index n : nat) :
    option (llparse_match_status_t * nat * nat) :=
  match r with
  | [] => Some (kMatchPause, n, index)
  | c :: r =>
      x ← seq !! index;
      if conv c =? x then
        if (S index =? length seq)%nat then Some (kMatchComplete, n, 0%nat)
        else match_loop conv seq r (S index) (S n)
      else Some (kMatchMismatch, n, 0%nat)
  end.

Definition to_lower (c : Z) : Z := if (65 <=? c) && (c <=? 90) then Z.lor c 0x20 else c.
Definition match_sequence_id : list Z -> list Z -> nat -> option (llparse_match_status_t * nat * nat) :=
  fun seq r index => match_loop id seq r index 0.
Definition match_sequence_to_lower (seq r : list Z) (index : nat) :
    option (llparse_match_status_t * nat * nat) := match_loop to_lower seq r index 0.
Definition match_sequence_to_lower_unsafe (seq r : list Z) (index : nat) :
    option (llparse_match_status_t * nat * nat) := match_loop (fun c => Z.lor c 0x20) seq r index 0.

(** ** The forms of a block *)

(** What a block ends in: a [goto], a [return] of its own state when the
    buffer is used up, a [return s_error]; [Fault] is an access outside an
    object. *)
Inductive outcome (U : Type) : Type :=
  | Goto (l : label) (p : nat) (match_ : Z) (s : llhttp_t U)
  | Ret (l : label) (s : llhttp_t U)
  | Err (s : llhttp_t U)
  | Fault.
Arguments Goto {U}. Arguments Ret {U}. Arguments Err {U}. Arguments Fault {U}.

(** A block, for the buffer, [p], [match] and the state. *)
Definition block (U : Type) : Type := list Z -> nat -> Z -> llhttp_t U -> outcome U.

(** The ways a case of a [switch] ends: [p++] or not, [match] set or not. *)
Inductive branch : Type :=
  | adv (l : label)
  | adv_m (match_ : Z) (l : label)
  | stay (l : label)
  | stay_m (match_ : Z) (l : label).

Fixpoint lookup_case {A} (c : Z) (cases : list (Z * A)) (default : A) : A :=
  match cases with
  | [] => default
  | (k, a) :: cases => if c =? k then a else lookup_case c cases default
  end.

Section Forms.
Context {U : Type}.

Definition take_branch (b : branch) (p : nat) (m : Z) (s : llhttp_t U) : outcome U :=
  match b with
  | adv l => Goto l (S p) m s
  | adv_m m l => Goto l (S p) m s
  | stay l => Goto l p m s
  | stay_m m l => Goto l p m s
  end.

(** [if (p == endp) return self; switch (conv of the byte) ...]. *)
Definition switch_conv (conv : Z -> Z) (self : label) (cases : list (Z * branch))
    (default : branch) : block U :=
  fun d p m s =>
    match d !! p with
    | None => Ret self s
    | Some c => take_branch (lookup_case (conv c) cases default) p m s
    end.
Definition switch : label -> list (Z * branch) -> branch -> block U := switch_conv id.
Definition switch_lower : label -> list (Z * branch) -> branch -> block U := switch_conv to_lower.
Definition switch_table (table : list Z) : label -> list (Z * branch) -> branch -> block U :=
  switch_conv (fun c => nth (Z.to_nat c) table 0).

(** [if (p == endp) return self; p++; goto l]. *)
Definition next (self l : label) : block U := switch self [] (adv l).

(** A literal. *)
Definition match_sequence (kind : list Z -> list Z -> nat -> option (llparse_match_status_t * nat * nat))
    (self : label) (seq : list Z) (complete mismatch : branch) : block U :=
  fun d p m s =>
    match d !! p with
    | None => Ret self s
    | Some _ =>
        match kind seq (drop p d) (_index s) with
        | None => Fault
        | Some (status, n, index) =>
            let s := set_index index s in
            match status with
            | kMatchComplete => take_branch complete (p + n) m s
            | kMatchPause => Ret self s
            | kMatchMismatch => take_branch mismatch (p + n) m s
            end
        end
    end.

(** The start of a span. *)
Definition span_start (self : label) (c : span) (l : label) : block U :=
  fun d p m s =>
    match d !! p with
    | None => Ret self s
    | Some _ => Goto l p m (set_span_cb0 (Some c) (set_span_pos0 (Some p) s))
    end.

(** The end of a span; an error leaves [l] as the state to resume at. *)
Definition span_end (settings : llhttp_settings_t U) (c : span) (b : branch) : block U :=
  fun d p m s =>
    let l := match b with adv l | adv_m _ l | stay l | stay_m _ l => l end in
    let pos := match b with adv _ | adv_m _ _ => S p | _ => p end in
    match _span_pos0 s with
    | None => Fault
    | Some start =>
        let '(err, s) :=
          call_span settings c (take (p - start) (drop start d)) (set_span_pos0 None s) in
        if negb (err =? 0)
        then Err (set_current (Some l) (set_error_pos (Some pos) (set_error err s)))
        else take_branch b p m s
    end.

(** Invocations: of a function on the fields, one that gets [match], and of a
    user callback. *)
Definition invoke (f : pub -> Z * pub) (cases : list (Z * label)) (default : label) : block U :=
  fun d p m s =>
    let '(r, pb) := f (fields s) in
    Goto (lookup_case r cases default) p m (set_fields pb s).
Definition invoke_match (f : Z -> pub -> Z * pub) (cases : list (Z * label)) (default : label) :
    block U :=
  fun d p m s => invoke (f m) cases default d p m s.
Definition invoke_cb (f : llhttp_t U -> Z * llhttp_t U) (cases : list (Z * label))
    (default : label) : block U :=
  fun d p m s => let '(r, s) := f s in Goto (lookup_case r cases default) p m s.

(** An error, and a pause after which [l] is resumed. *)
Definition fail (code : Z) (why : string) : block U :=
  fun d p m s =>
    Err (set_current None (set_error_pos (Some p) (set_reason (Some why) (set_error code s)))).
Definition pause (code : Z) (why : string) (l : label) : block U :=
  fun d p m s =>
    Err (set_current (Some l) (set_error_pos (Some p) (set_reason (Some why) (set_error code s)))).

(** [content_length] bytes, or as many as there are. *)
Definition consume_content_length (self l : label) : block U :=
  fun d p m s =>
    let avail := Z.of_nat (length d - p) in
    let need := content_length (fields s) in
    if need <=? avail
    then Goto l (p + Z.to_nat need) m (set_fields (set_content_length 0 (fields s)) s)
    else Ret self (set_fields (set_content_length (need - avail) (fields s)) s).

End Forms.
End Llhttp.
