(* ===== verification/LlhttpRun.v ===== *)
(** * LlhttpRun: the blocks of the HTTP parser

    Models llhttp__internal__run of src/src/utils/llhttp.c (the loose parser):
    one definition per block, named after its label, [run] for the gotos
    between them, llhttp__internal_execute, and the functions of api.c. *)
From Stdlib Require Import String.
From S2P Require Import Prelude TcpSock Llhttp.

Module LlhttpRun.
Import Llhttp.

Section Blocks.
Context {U : Type} (settings : llhttp_settings_t U).

Definition b_invoke_llhttp__after_message_complete : block U :=
    invoke llhttp__after_message_complete [] n_invoke_update_finish_1.
Definition b_pause_1 : block U :=
    pause 22 "Pause on CONNECT/Upgrade"%string n_invoke_llhttp__after_message_complete.
Definition b_invoke_is_equal_upgrade : block U :=
    invoke c_is_equal_upgrade [(0, n_invoke_llhttp__after_message_complete)] n_pause_1.
Definition b_invoke_llhttp__on_message_complete_2 : block U :=
    invoke_cb (llhttp__on_message_complete settings) [(0, n_invoke_is_equal_upgrade);
    (21, n_pause_5)] n_error_9.
Definition b_chunk_data_almost_done_skip : block U :=
    next n_chunk_data_almost_done_skip n_invoke_llhttp__on_chunk_complete.
Definition b_chunk_data_almost_done : block U :=
    next n_chunk_data_almost_done n_chunk_data_almost_done_skip.
Definition b_consume_content_length : block U :=
    consume_content_length n_consume_content_length n_span_end_llhttp__on_body.
Definition b_span_start_llhttp__on_body : block U :=
    span_start n_span_start_llhttp__on_body span_on_body n_consume_content_length.
Definition b_invoke_is_equal_content_length : block U :=
    invoke c_is_equal_content_length [(0, n_span_start_llhttp__on_body)] n_invoke_or_flags.
Definition b_chunk_size_almost_done : block U :=
    next n_chunk_size_almost_done n_invoke_llhttp__on_chunk_header.
Definition b_chunk_parameters : block U :=
    switch n_chunk_parameters [(13, adv n_chunk_size_almost_done)] (adv n_chunk_parameters).
Definition b_chunk_size_otherwise : block U :=
    switch n_chunk_size_otherwise [(13, adv n_chunk_size_almost_done);
    (32, adv n_chunk_parameters); (59, adv n_chunk_parameters)] (stay n_error_6).
Definition b_chunk_size : block U :=
    switch n_chunk_size [(48, adv_m 0 n_invoke_mul_add_content_length);
    (49, adv_m 1 n_invoke_mul_add_content_length);
    (50, adv_m 2 n_invoke_mul_add_content_length);
    (51, adv_m 3 n_invoke_mul_add_content_length);
    (52, adv_m 4 n_invoke_mul_add_content_length);
    (53, adv_m 5 n_invoke_mul_add_content_length);
    (54, adv_m 6 n_invoke_mul_add_content_length);
    (55, adv_m 7 n_invoke_mul_add_content_length);
    (56, adv_m 8 n_invoke_mul_add_content_length);
    (57, adv_m 9 n_invoke_mul_add_content_length);
    (65, adv_m 10 n_invoke_mul_add_content_length);
    (66, adv_m 11 n_invoke_mul_add_content_length);
    (67, adv_m 12 n_invoke_mul_add_content_length);
    (68, adv_m 13 n_invoke_mul_add_content_length);
    (69, adv_m 14 n_invoke_mul_add_content_length);
    (70, adv_m 15 n_invoke_mul_add_content_length);
    (97, adv_m 10 n_invoke_mul_add_content_length);
    (98, adv_m 11 n_invoke_mul_add_content_length);
    (99, adv_m 12 n_invoke_mul_add_content_length);
    (100, adv_m 13 n_invoke_mul_add_content_length);
    (101, adv_m 14 n_invoke_mul_add_content_length);
    (102, adv_m 15 n_invoke_mul_add_content_length)] (stay n_chunk_size_otherwise).
Definition b_chunk_size_digit : block U :=
    switch n_chunk_size_digit [(48, adv_m 0 n_invoke_mul_add_content_length);
    (49, adv_m 1 n_invoke_mul_add_content_length);
    (50, adv_m 2 n_invoke_mul_add_content_length);
    (51, adv_m 3 n_invoke_mul_add_content_length);
    (52, adv_m 4 n_invoke_mul_add_content_length);
    (53, adv_m 5 n_invoke_mul_add_content_length);
    (54, adv_m 6 n_invoke_mul_add_content_length);
    (55, adv_m 7 n_invoke_mul_add_content_length);
    (56, adv_m 8 n_invoke_mul_add_content_length);
    (57, adv_m 9 n_invoke_mul_add_content_length);
    (65, adv_m 10 n_invoke_mul_add_content_length);
    (66, adv_m 11 n_invoke_mul_add_content_length);
    (67, adv_m 12 n_invoke_mul_add_content_length);
    (68, adv_m 13 n_invoke_mul_add_content_length);
    (69, adv_m 14 n_invoke_mul_add_content_length);
    (70, adv_m 15 n_invoke_mul_add_content_length);
    (97, adv_m 10 n_invoke_mul_add_content_length);
    (98, adv_m 11 n_invoke_mul_add_content_length);
    (99, adv_m 12 n_invoke_mul_add_content_length);
    (100, adv_m 13 n_invoke_mul_add_content_length);
    (101, adv_m 14 n_invoke_mul_add_content_length);
    (102, adv_m 15 n_invoke_mul_add_content_length)] (stay n_error_8).
Definition b_invoke_update_content_length : block U :=
    invoke c_update_content_length [] n_chunk_size_digit.
Definition b_consume_content_length_1 : block U :=
    consume_content_length n_consume_content_length_1 n_span_end_llhttp__on_body_1.
Definition b_span_start_llhttp__on_body_1 : block U :=
    span_start n_span_start_llhttp__on_body_1 span_on_body n_consume_content_length_1.
Definition b_eof : block U := next n_eof n_eof.
Definition b_span_start_llhttp__on_body_2 : block U :=
    span_start n_span_start_llhttp__on_body_2 span_on_body n_eof.
Definition b_invoke_llhttp__after_headers_complete : block U :=
    invoke llhttp__after_headers_complete [(1, n_invoke_llhttp__on_message_complete_1);
    (2, n_invoke_update_content_length); (3, n_span_start_llhttp__on_body_1);
    (4, n_invoke_update_finish_2); (5, n_error_10)] n_invoke_llhttp__on_message_complete.
Definition b_headers_almost_done : block U := next n_headers_almost_done n_invoke_test_flags.
Definition b_span_start_llhttp__on_header_value : block U :=
    span_start n_span_start_llhttp__on_header_value span_on_header_value
    n_span_end_llhttp__on_header_value.
Definition b_header_value_discard_lws : block U :=
    switch n_header_value_discard_lws [(9, adv n_header_value_discard_ws);
    (32, adv n_header_value_discard_ws)] (stay n_invoke_load_header_state).
Definition b_header_value_discard_ws_almost_done : block U :=
    next n_header_value_discard_ws_almost_done n_header_value_discard_lws.
Definition b_header_value_lws : block U :=
    switch n_header_value_lws [(9, stay n_span_start_llhttp__on_header_value_1);
    (32, stay n_span_start_llhttp__on_header_value_1)] (stay n_invoke_load_header_state_3).
Definition b_header_value_almost_done : block U :=
    switch n_header_value_almost_done [(10, adv n_header_value_lws)] (stay n_error_14).
Definition b_header_value_lenient : block U :=
    switch n_header_value_lenient [(10, stay n_span_end_llhttp__on_header_value_1);
    (13, stay n_span_end_llhttp__on_header_value_3)] (adv n_header_value_lenient).
Definition b_header_value_otherwise : block U :=
    switch n_header_value_otherwise [(10, stay n_span_end_llhttp__on_header_value_1);
    (13, stay n_span_end_llhttp__on_header_value_2)] (stay n_invoke_test_lenient_flags_1).
Definition table_header_value_connection_token : list Z :=
  [0; 0; 0; 0; 0; 0; 0; 0; 0; 1; 0; 0; 0; 0; 0; 0; 0; 0; 0; 0; 0; 0; 0; 0; 0; 0; 0; 0; 0; 0; 0;
  0; 1; 1; 1; 1; 1; 1; 1; 1; 1; 1; 1; 1; 2; 1; 1; 1; 1; 1; 1; 1; 1; 1; 1; 1; 1; 1; 1; 1; 1; 1;
  1; 1; 1; 1; 1; 1; 1; 1; 1; 1; 1; 1; 1; 1; 1; 1; 1; 1; 1; 1; 1; 1; 1; 1; 1; 1; 1; 1; 1; 1; 1;
  1; 1; 1; 1; 1; 1; 1; 1; 1; 1; 1; 1; 1; 1; 1; 1; 1; 1; 1; 1; 1; 1; 1; 1; 1; 1; 1; 1; 1; 1; 1;
  1; 1; 1; 0; 1; 1; 1; 1; 1; 1; 1; 1; 1; 1; 1; 1; 1; 1; 1; 1; 1; 1; 1; 1; 1; 1; 1; 1; 1; 1; 1;
  1; 1; 1; 1; 1; 1; 1; 1; 1; 1; 1; 1; 1; 1; 1; 1; 1; 1; 1; 1; 1; 1; 1; 1; 1; 1; 1; 1; 1; 1; 1;
  1; 1; 1; 1; 1; 1; 1; 1; 1; 1; 1; 1; 1; 1; 1; 1; 1; 1; 1; 1; 1; 1; 1; 1; 1; 1; 1; 1; 1; 1; 1;
  1; 1; 1; 1; 1; 1; 1; 1; 1; 1; 1; 1; 1; 1; 1; 1; 1; 1; 1; 1; 1; 1; 1; 1; 1; 1; 1; 1; 1; 1; 1;
  1; 1; 1; 1; 1; 1; 1; 1].
Definition b_header_value_connection_token : block U :=
    switch_table table_header_value_connection_token n_header_value_connection_token
    [(1, adv n_header_value_connection_token); (2, adv n_header_value_connection)]
    (stay n_header_value_otherwise).
Definition b_header_value_connection_ws : block U :=
    switch n_header_value_connection_ws [(10, stay n_header_value_otherwise);
    (13, stay n_header_value_otherwise); (32, adv n_header_value_connection_ws);
    (44, adv n_invoke_load_header_state_4)] (stay n_invoke_update_header_state_4).
Definition b_header_value_connection_1 : block U :=
    match_sequence match_sequence_to_lower n_header_value_connection_1 llparse_blob3
    (adv n_invoke_update_header_state_2) (stay n_header_value_connection_token).
Definition b_header_value_connection_2 : block U :=
    match_sequence match_sequence_to_lower n_header_value_connection_2 llparse_blob4
    (adv n_invoke_update_header_state_5) (stay n_header_value_connection_token).
Definition b_header_value_connection_3 : block U :=
    match_sequence match_sequence_to_lower n_header_value_connection_3 llparse_blob5
    (adv n_invoke_update_header_state_6) (stay n_header_value_connection_token).
Definition b_header_value_connection : block U :=
    switch_lower n_header_value_connection [(9, adv n_header_value_connection);
    (32, adv n_header_value_connection); (99, adv n_header_value_connection_1);
    (107, adv n_header_value_connection_2); (117, adv n_header_value_connection_3)]
    (stay n_header_value_connection_token).
Definition b_error_17 : block U := fail 11 "Content-Length overflow"%string.
Definition b_error_18 : block U := fail 11 "Invalid character in Content-Length"%string.
Definition b_header_value_content_length_ws : block U :=
    switch n_header_value_content_length_ws [(10, stay n_invoke_or_flags_15);
    (13, stay n_invoke_or_flags_15); (32, adv n_header_value_content_length_ws)]
    (stay n_span_end_llhttp__on_header_value_5).
Definition b_header_value_content_length : block U :=
    switch n_header_value_content_length [(48, adv_m 0 n_invoke_mul_add_content_length_1);
    (49, adv_m 1 n_invoke_mul_add_content_length_1);
    (50, adv_m 2 n_invoke_mul_add_content_length_1);
    (51, adv_m 3 n_invoke_mul_add_content_length_1);
    (52, adv_m 4 n_invoke_mul_add_content_length_1);
    (53, adv_m 5 n_invoke_mul_add_content_length_1);
    (54, adv_m 6 n_invoke_mul_add_content_length_1);
    (55, adv_m 7 n_invoke_mul_add_content_length_1);
    (56, adv_m 8 n_invoke_mul_add_content_length_1);
    (57, adv_m 9 n_invoke_mul_add_content_length_1)] (stay n_header_value_content_length_ws).
Definition b_header_value_te_chunked_last : block U :=
    switch n_header_value_te_chunked_last [(10, stay n_invoke_update_header_state_7);
    (13, stay n_invoke_update_header_state_7); (32, adv n_header_value_te_chunked_last)]
    (stay n_header_value_te_chunked).
Definition b_header_value_te_token_ows : block U :=
    switch n_header_value_te_token_ows [(9, adv n_header_value_te_token_ows);
    (32, adv n_header_value_te_token_ows)] (stay n_header_value_te_chunked).
Definition table_header_value : list Z :=
  [0; 0; 0; 0; 0; 0; 0; 0; 0; 1; 0; 0; 0; 0; 0; 0; 0; 0; 0; 0; 0; 0; 0; 0; 0; 0; 0; 0; 0; 0; 0;
  0; 1; 1; 1; 1; 1; 1; 1; 1; 1; 1; 1; 1; 1; 1; 1; 1; 1; 1; 1; 1; 1; 1; 1; 1; 1; 1; 1; 1; 1; 1;
  1; 1; 1; 1; 1; 1; 1; 1; 1; 1; 1; 1; 1; 1; 1; 1; 1; 1; 1; 1; 1; 1; 1; 1; 1; 1; 1; 1; 1; 1; 1;
  1; 1; 1; 1; 1; 1; 1; 1; 1; 1; 1; 1; 1; 1; 1; 1; 1; 1; 1; 1; 1; 1; 1; 1; 1; 1; 1; 1; 1; 1; 1;
  1; 1; 1; 0; 1; 1; 1; 1; 1; 1; 1; 1; 1; 1; 1; 1; 1; 1; 1; 1; 1; 1; 1; 1; 1; 1; 1; 1; 1; 1; 1;
  1; 1; 1; 1; 1; 1; 1; 1; 1; 1; 1; 1; 1; 1; 1; 1; 1; 1; 1; 1; 1; 1; 1; 1; 1; 1; 1; 1; 1; 1; 1;
  1; 1; 1; 1; 1; 1; 1; 1; 1; 1; 1; 1; 1; 1; 1; 1; 1; 1; 1; 1; 1; 1; 1; 1; 1; 1; 1; 1; 1; 1; 1;
  1; 1; 1; 1; 1; 1; 1; 1; 1; 1; 1; 1; 1; 1; 1; 1; 1; 1; 1; 1; 1; 1; 1; 1; 1; 1; 1; 1; 1; 1; 1;
  1; 1; 1; 1; 1; 1; 1; 1].
Definition b_header_value : block U :=
    switch_table table_header_value n_header_value [(1, adv n_header_value)]
    (stay n_header_value_otherwise).
Definition table_header_value_te_token : list Z :=
  [0; 0; 0; 0; 0; 0; 0; 0; 0; 1; 0; 0; 0; 0; 0; 0; 0; 0; 0; 0; 0; 0; 0; 0; 0; 0; 0; 0; 0; 0; 0;
  0; 1; 1; 1; 1; 1; 1; 1; 1; 1; 1; 1; 1; 2; 1; 1; 1; 1; 1; 1; 1; 1; 1; 1; 1; 1; 1; 1; 1; 1; 1;
  1; 1; 1; 1; 1; 1; 1; 1; 1; 1; 1; 1; 1; 1; 1; 1; 1; 1; 1; 1; 1; 1; 1; 1; 1; 1; 1; 1; 1; 1; 1;
  1; 1; 1; 1; 1; 1; 1; 1; 1; 1; 1; 1; 1; 1; 1; 1; 1; 1; 1; 1; 1; 1; 1; 1; 1; 1; 1; 1; 1; 1; 1;
  1; 1; 1; 0; 1; 1; 1; 1; 1; 1; 1; 1; 1; 1; 1; 1; 1; 1; 1; 1; 1; 1; 1; 1; 1; 1; 1; 1; 1; 1; 1;
  1; 1; 1; 1; 1; 1; 1; 1; 1; 1; 1; 1; 1; 1; 1; 1; 1; 1; 1; 1; 1; 1; 1; 1; 1; 1; 1; 1; 1; 1; 1;
  1; 1; 1; 1; 1; 1; 1; 1; 1; 1; 1; 1; 1; 1; 1; 1; 1; 1; 1; 1; 1; 1; 1; 1; 1; 1; 1; 1; 1; 1; 1;
  1; 1; 1; 1; 1; 1; 1; 1; 1; 1; 1; 1; 1; 1; 1; 1; 1; 1; 1; 1; 1; 1; 1; 1; 1; 1; 1; 1; 1; 1; 1;
  1; 1; 1; 1; 1; 1; 1; 1].
Definition b_header_value_te_token : block U :=
    switch_table table_header_value_te_token n_header_value_te_token
    [(1, adv n_header_value_te_token); (2, adv n_header_value_te_token_ows)]
    (stay n_invoke_update_header_state_8).
Definition b_header_value_te_chunked : block U :=
    match_sequence match_sequence_to_lower_unsafe n_header_value_te_chunked llparse_blob6
    (adv n_header_value_te_chunked_last) (stay n_header_value_te_token).
Definition b_span_start_llhttp__on_header_value_1 : block U :=
    span_start n_span_start_llhttp__on_header_value_1 span_on_header_value
    n_invoke_load_header_state_2.
Definition b_header_value_discard_ws : block U :=
    switch n_header_value_discard_ws [(9, adv n_header_value_discard_ws);
    (10, adv n_header_value_discard_lws); (13, adv n_header_value_discard_ws_almost_done);
    (32, adv n_header_value_discard_ws)] (stay n_span_start_llhttp__on_header_value_1).
Definition b_invoke_llhttp__on_header_field_complete : block U :=
    invoke_cb (llhttp__on_header_field_complete settings) [] n_header_value_discard_ws.
Definition b_header_field_general_otherwise : block U :=
    switch n_header_field_general_otherwise [(58, stay n_span_end_llhttp__on_header_field_1)]
    (stay n_error_19).
Definition table_header_field_general : list Z :=
  [0; 0; 0; 0; 0; 0; 0; 0; 0; 0; 0; 0; 0; 0; 0; 0; 0; 0; 0; 0; 0; 0; 0; 0; 0; 0; 0; 0; 0; 0; 0;
  0; 1; 1; 0; 1; 1; 1; 1; 1; 0; 0; 1; 1; 0; 1; 1; 0; 1; 1; 1; 1; 1; 1; 1; 1; 1; 1; 0; 0; 0; 0;
  0; 0; 0; 1; 1; 1; 1; 1; 1; 1; 1; 1; 1; 1; 1; 1; 1; 1; 1; 1; 1; 1; 1; 1; 1; 1; 1; 1; 1; 0; 0;
  0; 1; 1; 1; 1; 1; 1; 1; 1; 1; 1; 1; 1; 1; 1; 1; 1; 1; 1; 1; 1; 1; 1; 1; 1; 1; 1; 1; 1; 1; 0;
  1; 0; 1; 0; 0; 0; 0; 0; 0; 0; 0; 0; 0; 0; 0; 0; 0; 0; 0; 0; 0; 0; 0; 0; 0; 0; 0; 0; 0; 0; 0;
  0; 0; 0; 0; 0; 0; 0; 0; 0; 0; 0; 0; 0; 0; 0; 0; 0; 0; 0; 0; 0; 0; 0; 0; 0; 0; 0; 0; 0; 0; 0;
  0; 0; 0; 0; 0; 0; 0; 0; 0; 0; 0; 0; 0; 0; 0; 0; 0; 0; 0; 0; 0; 0; 0; 0; 0; 0; 0; 0; 0; 0; 0;
  0; 0; 0; 0; 0; 0; 0; 0; 0; 0; 0; 0; 0; 0; 0; 0; 0; 0; 0; 0; 0; 0; 0; 0; 0; 0; 0; 0; 0; 0; 0;
  0; 0; 0; 0; 0; 0; 0; 0].
Definition b_header_field_general : block U :=
    switch_table table_header_field_general n_header_field_general
    [(1, adv n_header_field_general)] (stay n_header_field_general_otherwise).
Definition b_header_field_colon : block U :=
    switch n_header_field_colon [(32, adv n_header_field_colon);
    (58, stay n_span_end_llhttp__on_header_field)] (stay n_invoke_update_header_state_9).
Definition b_header_field_3 : block U :=
    match_sequence match_sequence_to_lower n_header_field_3 llparse_blob2
    (adv_m 1 n_invoke_store_header_state) (stay n_invoke_update_header_state_10).
Definition b_header_field_4 : block U :=
    match_sequence match_sequence_to_lower n_header_field_4 llparse_blob10
    (adv_m 2 n_invoke_store_header_state) (stay n_invoke_update_header_state_10).
Definition b_header_field_2 : block U :=
    switch_lower n_header_field_2 [(110, adv n_header_field_3); (116, adv n_header_field_4)]
    (stay n_invoke_update_header_state_10).
Definition b_header_field_1 : block U :=
    match_sequence match_sequence_to_lower n_header_field_1 llparse_blob1
    (adv n_header_field_2) (stay n_invoke_update_header_state_10).
Definition b_header_field_5 : block U :=
    match_sequence match_sequence_to_lower n_header_field_5 llparse_blob11
    (adv_m 1 n_invoke_store_header_state) (stay n_invoke_update_header_state_10).
Definition b_header_field_6 : block U :=
    match_sequence match_sequence_to_lower n_header_field_6 llparse_blob12
    (adv_m 3 n_invoke_store_header_state) (stay n_invoke_update_header_state_10).
Definition b_header_field_7 : block U :=
    match_sequence match_sequence_to_lower n_header_field_7 llparse_blob13
    (adv_m 4 n_invoke_store_header_state) (stay n_invoke_update_header_state_10).
Definition b_header_field : block U :=
    switch_lower n_header_field [(99, adv n_header_field_1); (112, adv n_header_field_5);
    (116, adv n_header_field_6); (117, adv n_header_field_7)]
    (stay n_invoke_update_header_state_10).
Definition b_span_start_llhttp__on_header_field : block U :=
    span_start n_span_start_llhttp__on_header_field span_on_header_field n_header_field.
Definition b_header_field_start : block U :=
    switch n_header_field_start [(10, stay n_headers_almost_done);
    (13, adv n_headers_almost_done)] (stay n_span_start_llhttp__on_header_field).
Definition b_url_skip_to_http09 : block U := next n_url_skip_to_http09 n_invoke_update_http_major.
Definition b_url_skip_lf_to_http09 : block U :=
    match_sequence match_sequence_id n_url_skip_lf_to_http09 llparse_blob14
    (adv n_invoke_update_http_major) (stay n_error_20).
Definition b_req_http_end_1 : block U :=
    switch n_req_http_end_1 [(10, adv n_header_field_start)] (stay n_error_22).
Definition b_req_http_end : block U :=
    switch n_req_http_end [(10, adv n_header_field_start); (13, adv n_req_http_end_1)]
    (stay n_error_22).
Definition b_req_http_minor : block U :=
    switch n_req_http_minor [(48, adv_m 0 n_invoke_store_http_minor);
    (49, adv_m 1 n_invoke_store_http_minor); (50, adv_m 2 n_invoke_store_http_minor);
    (51, adv_m 3 n_invoke_store_http_minor); (52, adv_m 4 n_invoke_store_http_minor);
    (53, adv_m 5 n_invoke_store_http_minor); (54, adv_m 6 n_invoke_store_http_minor);
    (55, adv_m 7 n_invoke_store_http_minor); (56, adv_m 8 n_invoke_store_http_minor);
    (57, adv_m 9 n_invoke_store_http_minor)] (stay n_error_23).
Definition b_req_http_dot : block U :=
    switch n_req_http_dot [(46, adv n_req_http_minor)] (stay n_error_24).
Definition b_req_http_major : block U :=
    switch n_req_http_major [(48, adv_m 0 n_invoke_store_http_major);
    (49, adv_m 1 n_invoke_store_http_major); (50, adv_m 2 n_invoke_store_http_major);
    (51, adv_m 3 n_invoke_store_http_major); (52, adv_m 4 n_invoke_store_http_major);
    (53, adv_m 5 n_invoke_store_http_major); (54, adv_m 6 n_invoke_store_http_major);
    (55, adv_m 7 n_invoke_store_http_major); (56, adv_m 8 n_invoke_store_http_major);
    (57, adv_m 9 n_invoke_store_http_major)] (stay n_error_25).
Definition b_req_http_start_1 : block U :=
    match_sequence match_sequence_id n_req_http_start_1 llparse_blob15
    (adv n_invoke_load_method) (stay n_error_28).
Definition b_req_http_start_2 : block U :=
    match_sequence match_sequence_id n_req_http_start_2 llparse_blob16
    (adv n_invoke_load_method_1) (stay n_error_28).
Definition b_req_http_start_3 : block U :=
    match_sequence match_sequence_id n_req_http_start_3 llparse_blob17
    (adv n_invoke_load_method_2) (stay n_error_28).
Definition b_req_http_start : block U :=
    switch n_req_http_start [(32, adv n_req_http_start); (72, adv n_req_http_start_1);
    (73, adv n_req_http_start_2); (82, adv n_req_http_start_3)] (stay n_error_28).
Definition b_url_skip_to_http : block U :=
    next n_url_skip_to_http n_invoke_llhttp__on_url_complete_1.
Definition table_url_fragment : list Z :=
  [0; 0; 0; 0; 0; 0; 0; 0; 0; 1; 2; 0; 1; 3; 0; 0; 0; 0; 0; 0; 0; 0; 0; 0; 0; 0; 0; 0; 0; 0; 0;
  0; 4; 1; 1; 1; 1; 1; 1; 1; 1; 1; 1; 1; 1; 1; 1; 1; 1; 1; 1; 1; 1; 1; 1; 1; 1; 1; 1; 1; 1; 1;
  1; 1; 1; 1; 1; 1; 1; 1; 1; 1; 1; 1; 1; 1; 1; 1; 1; 1; 1; 1; 1; 1; 1; 1; 1; 1; 1; 1; 1; 1; 1;
  1; 1; 1; 1; 1; 1; 1; 1; 1; 1; 1; 1; 1; 1; 1; 1; 1; 1; 1; 1; 1; 1; 1; 1; 1; 1; 1; 1; 1; 1; 1;
  1; 1; 1; 0; 1; 1; 1; 1; 1; 1; 1; 1; 1; 1; 1; 1; 1; 1; 1; 1; 1; 1; 1; 1; 1; 1; 1; 1; 1; 1; 1;
  1; 1; 1; 1; 1; 1; 1; 1; 1; 1; 1; 1; 1; 1; 1; 1; 1; 1; 1; 1; 1; 1; 1; 1; 1; 1; 1; 1; 1; 1; 1;
  1; 1; 1; 1; 1; 1; 1; 1; 1; 1; 1; 1; 1; 1; 1; 1; 1; 1; 1; 1; 1; 1; 1; 1; 1; 1; 1; 1; 1; 1; 1;
  1; 1; 1; 1; 1; 1; 1; 1; 1; 1; 1; 1; 1; 1; 1; 1; 1; 1; 1; 1; 1; 1; 1; 1; 1; 1; 1; 1; 1; 1; 1;
  1; 1; 1; 1; 1; 1; 1; 1].
Definition b_url_fragment : block U :=
    switch_table table_url_fragment n_url_fragment [(1, adv n_url_fragment);
    (2, stay n_span_end_llhttp__on_url_6); (3, stay n_span_end_llhttp__on_url_7);
    (4, stay n_span_end_llhttp__on_url_8)] (stay n_error_29).
Definition b_span_end_stub_query_3 : block U := next n_span_end_stub_query_3 n_url_fragment.
Definition table_url_query : list Z :=
  [0; 0; 0; 0; 0; 0; 0; 0; 0; 1; 2; 0; 1; 3; 0; 0; 0; 0; 0; 0; 0; 0; 0; 0; 0; 0; 0; 0; 0; 0; 0;
  0; 4; 1; 1; 5; 1; 1; 1; 1; 1; 1; 1; 1; 1; 1; 1; 1; 1; 1; 1; 1; 1; 1; 1; 1; 1; 1; 1; 1; 1; 1;
  1; 1; 1; 1; 1; 1; 1; 1; 1; 1; 1; 1; 1; 1; 1; 1; 1; 1; 1; 1; 1; 1; 1; 1; 1; 1; 1; 1; 1; 1; 1;
  1; 1; 1; 1; 1; 1; 1; 1; 1; 1; 1; 1; 1; 1; 1; 1; 1; 1; 1; 1; 1; 1; 1; 1; 1; 1; 1; 1; 1; 1; 1;
  1; 1; 1; 0; 1; 1; 1; 1; 1; 1; 1; 1; 1; 1; 1; 1; 1; 1; 1; 1; 1; 1; 1; 1; 1; 1; 1; 1; 1; 1; 1;
  1; 1; 1; 1; 1; 1; 1; 1; 1; 1; 1; 1; 1; 1; 1; 1; 1; 1; 1; 1; 1; 1; 1; 1; 1; 1; 1; 1; 1; 1; 1;
  1; 1; 1; 1; 1; 1; 1; 1; 1; 1; 1; 1; 1; 1; 1; 1; 1; 1; 1; 1; 1; 1; 1; 1; 1; 1; 1; 1; 1; 1; 1;
  1; 1; 1; 1; 1; 1; 1; 1; 1; 1; 1; 1; 1; 1; 1; 1; 1; 1; 1; 1; 1; 1; 1; 1; 1; 1; 1; 1; 1; 1; 1;
  1; 1; 1; 1; 1; 1; 1; 1].
Definition b_url_query : block U :=
    switch_table table_url_query n_url_query [(1, adv n_url_query);
    (2, stay n_span_end_llhttp__on_url_9); (3, stay n_span_end_llhttp__on_url_10);
    (4, stay n_span_end_llhttp__on_url_11); (5, stay n_span_end_stub_query_3)]
    (stay n_error_30).
Definition b_url_query_or_fragment : block U :=
    switch n_url_query_or_fragment [(10, stay n_span_end_llhttp__on_url_3);
    (13, stay n_span_end_llhttp__on_url_4); (32, stay n_span_end_llhttp__on_url_5);
    (35, adv n_url_fragment); (63, adv n_url_query)] (stay n_error_31).
Definition table_url_path : list Z :=
  [0; 0; 0; 0; 0; 0; 0; 0; 0; 1; 0; 0; 1; 0; 0; 0; 0; 0; 0; 0; 0; 0; 0; 0; 0; 0; 0; 0; 0; 0; 0;
  0; 0; 1; 1; 0; 1; 1; 1; 1; 1; 1; 1; 1; 1; 1; 1; 1; 1; 1; 1; 1; 1; 1; 1; 1; 1; 1; 1; 1; 1; 1;
  1; 0; 1; 1; 1; 1; 1; 1; 1; 1; 1; 1; 1; 1; 1; 1; 1; 1; 1; 1; 1; 1; 1; 1; 1; 1; 1; 1; 1; 1; 1;
  1; 1; 1; 1; 1; 1; 1; 1; 1; 1; 1; 1; 1; 1; 1; 1; 1; 1; 1; 1; 1; 1; 1; 1; 1; 1; 1; 1; 1; 1; 1;
  1; 1; 1; 0; 1; 1; 1; 1; 1; 1; 1; 1; 1; 1; 1; 1; 1; 1; 1; 1; 1; 1; 1; 1; 1; 1; 1; 1; 1; 1; 1;
  1; 1; 1; 1; 1; 1; 1; 1; 1; 1; 1; 1; 1; 1; 1; 1; 1; 1; 1; 1; 1; 1; 1; 1; 1; 1; 1; 1; 1; 1; 1;
  1; 1; 1; 1; 1; 1; 1; 1; 1; 1; 1; 1; 1; 1; 1; 1; 1; 1; 1; 1; 1; 1; 1; 1; 1; 1; 1; 1; 1; 1; 1;
  1; 1; 1; 1; 1; 1; 1; 1; 1; 1; 1; 1; 1; 1; 1; 1; 1; 1; 1; 1; 1; 1; 1; 1; 1; 1; 1; 1; 1; 1; 1;
  1; 1; 1; 1; 1; 1; 1; 1].
Definition b_url_path : block U :=
    switch_table table_url_path n_url_path [(1, adv n_url_path)] (stay n_url_query_or_fragment).
Definition b_span_start_stub_path_2 : block U := next n_span_start_stub_path_2 n_url_path.
Definition b_span_start_stub_path : block U := next n_span_start_stub_path n_url_path.
Definition b_span_start_stub_path_1 : block U := next n_span_start_stub_path_1 n_url_path.
Definition table_url_server_with_at : list Z :=
  [0; 0; 0; 0; 0; 0; 0; 0; 0; 0; 1; 0; 0; 2; 0; 0; 0; 0; 0; 0; 0; 0; 0; 0; 0; 0; 0; 0; 0; 0; 0;
  0; 3; 4; 0; 0; 4; 4; 4; 4; 4; 4; 4; 4; 4; 4; 4; 5; 4; 4; 4; 4; 4; 4; 4; 4; 4; 4; 4; 4; 0; 4;
  0; 6; 7; 4; 4; 4; 4; 4; 4; 4; 4; 4; 4; 4; 4; 4; 4; 4; 4; 4; 4; 4; 4; 4; 4; 4; 4; 4; 4; 4; 0;
  4; 0; 4; 0; 4; 4; 4; 4; 4; 4; 4; 4; 4; 4; 4; 4; 4; 4; 4; 4; 4; 4; 4; 4; 4; 4; 4; 4; 4; 4; 0;
  0; 0; 4; 0; 0; 0; 0; 0; 0; 0; 0; 0; 0; 0; 0; 0; 0; 0; 0; 0; 0; 0; 0; 0; 0; 0; 0; 0; 0; 0; 0;
  0; 0; 0; 0; 0; 0; 0; 0; 0; 0; 0; 0; 0; 0; 0; 0; 0; 0; 0; 0; 0; 0; 0; 0; 0; 0; 0; 0; 0; 0; 0;
  0; 0; 0; 0; 0; 0; 0; 0; 0; 0; 0; 0; 0; 0; 0; 0; 0; 0; 0; 0; 0; 0; 0; 0; 0; 0; 0; 0; 0; 0; 0;
  0; 0; 0; 0; 0; 0; 0; 0; 0; 0; 0; 0; 0; 0; 0; 0; 0; 0; 0; 0; 0; 0; 0; 0; 0; 0; 0; 0; 0; 0; 0;
  0; 0; 0; 0; 0; 0; 0; 0].
Definition b_url_server_with_at : block U :=
    switch_table table_url_server_with_at n_url_server_with_at
    [(1, stay n_span_end_llhttp__on_url_12); (2, stay n_span_end_llhttp__on_url_13);
    (3, stay n_span_end_llhttp__on_url_14); (4, adv n_url_server);
    (5, stay n_span_start_stub_path_1); (6, adv n_url_query); (7, adv n_error_32)]
    (stay n_error_33).
Definition table_url_server : list Z :=
  [0; 0; 0; 0; 0; 0; 0; 0; 0; 0; 1; 0; 0; 2; 0; 0; 0; 0; 0; 0; 0; 0; 0; 0; 0; 0; 0; 0; 0; 0; 0;
  0; 3; 4; 0; 0; 4; 4; 4; 4; 4; 4; 4; 4; 4; 4; 4; 5; 4; 4; 4; 4; 4; 4; 4; 4; 4; 4; 4; 4; 0; 4;
  0; 6; 7; 4; 4; 4; 4; 4; 4; 4; 4; 4; 4; 4; 4; 4; 4; 4; 4; 4; 4; 4; 4; 4; 4; 4; 4; 4; 4; 4; 0;
  4; 0; 4; 0; 4; 4; 4; 4; 4; 4; 4; 4; 4; 4; 4; 4; 4; 4; 4; 4; 4; 4; 4; 4; 4; 4; 4; 4; 4; 4; 0;
  0; 0; 4; 0; 0; 0; 0; 0; 0; 0; 0; 0; 0; 0; 0; 0; 0; 0; 0; 0; 0; 0; 0; 0; 0; 0; 0; 0; 0; 0; 0;
  0; 0; 0; 0; 0; 0; 0; 0; 0; 0; 0; 0; 0; 0; 0; 0; 0; 0; 0; 0; 0; 0; 0; 0; 0; 0; 0; 0; 0; 0; 0;
  0; 0; 0; 0; 0; 0; 0; 0; 0; 0; 0; 0; 0; 0; 0; 0; 0; 0; 0; 0; 0; 0; 0; 0; 0; 0; 0; 0; 0; 0; 0;
  0; 0; 0; 0; 0; 0; 0; 0; 0; 0; 0; 0; 0; 0; 0; 0; 0; 0; 0; 0; 0; 0; 0; 0; 0; 0; 0; 0; 0; 0; 0;
  0; 0; 0; 0; 0; 0; 0; 0].
Definition b_url_server : block U :=
    switch_table table_url_server n_url_server [(1, stay n_span_end_llhttp__on_url);
    (2, stay n_span_end_llhttp__on_url_1); (3, stay n_span_end_llhttp__on_url_2);
    (4, adv n_url_server); (5, stay n_span_start_stub_path); (6, adv n_url_query);
    (7, adv n_url_server_with_at)] (stay n_error_34).
Definition b_url_schema_delim_1 : block U :=
    switch n_url_schema_delim_1 [(47, adv n_url_server)] (stay n_error_36).
Definition b_url_schema_delim : block U :=
    switch n_url_schema_delim [(10, adv n_error_35); (13, adv n_error_35);
    (32, adv n_error_35); (47, adv n_url_schema_delim_1)] (stay n_error_36).
Definition b_span_end_stub_schema : block U := next n_span_end_stub_schema n_url_schema_delim.
Definition table_url_schema : list Z :=
  [0; 0; 0; 0; 0; 0; 0; 0; 0; 0; 1; 0; 0; 1; 0; 0; 0; 0; 0; 0; 0; 0; 0; 0; 0; 0; 0; 0; 0; 0; 0;
  0; 1; 0; 0; 0; 0; 0; 0; 0; 0; 0; 0; 0; 0; 0; 0; 0; 0; 0; 0; 0; 0; 0; 0; 0; 0; 0; 2; 0; 0; 0;
  0; 0; 0; 3; 3; 3; 3; 3; 3; 3; 3; 3; 3; 3; 3; 3; 3; 3; 3; 3; 3; 3; 3; 3; 3; 3; 3; 3; 3; 0; 0;
  0; 0; 0; 0; 3; 3; 3; 3; 3; 3; 3; 3; 3; 3; 3; 3; 3; 3; 3; 3; 3; 3; 3; 3; 3; 3; 3; 3; 3; 3; 0;
  0; 0; 0; 0; 0; 0; 0; 0; 0; 0; 0; 0; 0; 0; 0; 0; 0; 0; 0; 0; 0; 0; 0; 0; 0; 0; 0; 0; 0; 0; 0;
  0; 0; 0; 0; 0; 0; 0; 0; 0; 0; 0; 0; 0; 0; 0; 0; 0; 0; 0; 0; 0; 0; 0; 0; 0; 0; 0; 0; 0; 0; 0;
  0; 0; 0; 0; 0; 0; 0; 0; 0; 0; 0; 0; 0; 0; 0; 0; 0; 0; 0; 0; 0; 0; 0; 0; 0; 0; 0; 0; 0; 0; 0;
  0; 0; 0; 0; 0; 0; 0; 0; 0; 0; 0; 0; 0; 0; 0; 0; 0; 0; 0; 0; 0; 0; 0; 0; 0; 0; 0; 0; 0; 0; 0;
  0; 0; 0; 0; 0; 0; 0; 0].
Definition b_url_schema : block U :=
    switch_table table_url_schema n_url_schema [(1, adv n_error_35);
    (2, stay n_span_end_stub_schema); (3, adv n_url_schema)] (stay n_error_37).
Definition table_url_start : list Z :=
  [0; 0; 0; 0; 0; 0; 0; 0; 0; 0; 1; 0; 0; 1; 0; 0; 0; 0; 0; 0; 0; 0; 0; 0; 0; 0; 0; 0; 0; 0; 0;
  0; 1; 0; 0; 0; 0; 0; 0; 0; 0; 0; 2; 0; 0; 0; 0; 2; 0; 0; 0; 0; 0; 0; 0; 0; 0; 0; 0; 0; 0; 0;
  0; 0; 0; 3; 3; 3; 3; 3; 3; 3; 3; 3; 3; 3; 3; 3; 3; 3; 3; 3; 3; 3; 3; 3; 3; 3; 3; 3; 3; 0; 0;
  0; 0; 0; 0; 3; 3; 3; 3; 3; 3; 3; 3; 3; 3; 3; 3; 3; 3; 3; 3; 3; 3; 3; 3; 3; 3; 3; 3; 3; 3; 0;
  0; 0; 0; 0; 0; 0; 0; 0; 0; 0; 0; 0; 0; 0; 0; 0; 0; 0; 0; 0; 0; 0; 0; 0; 0; 0; 0; 0; 0; 0; 0;
  0; 0; 0; 0; 0; 0; 0; 0; 0; 0; 0; 0; 0; 0; 0; 0; 0; 0; 0; 0; 0; 0; 0; 0; 0; 0; 0; 0; 0; 0; 0;
  0; 0; 0; 0; 0; 0; 0; 0; 0; 0; 0; 0; 0; 0; 0; 0; 0; 0; 0; 0; 0; 0; 0; 0; 0; 0; 0; 0; 0; 0; 0;
  0; 0; 0; 0; 0; 0; 0; 0; 0; 0; 0; 0; 0; 0; 0; 0; 0; 0; 0; 0; 0; 0; 0; 0; 0; 0; 0; 0; 0; 0; 0;
  0; 0; 0; 0; 0; 0; 0; 0].
Definition b_url_start : block U :=
    switch_table table_url_start n_url_start [(1, adv n_error_35);
    (2, stay n_span_start_stub_path_2); (3, stay n_url_schema)] (stay n_error_38).
Definition b_span_start_llhttp__on_url_1 : block U :=
    span_start n_span_start_llhttp__on_url_1 span_on_url n_url_start.
Definition b_span_start_llhttp__on_url : block U :=
    span_start n_span_start_llhttp__on_url span_on_url n_url_server.
Definition b_req_spaces_before_url : block U :=
    switch n_req_spaces_before_url [(32, adv n_req_spaces_before_url)]
    (stay n_invoke_is_equal_method).
Definition b_req_first_space_before_url : block U :=
    switch n_req_first_space_before_url [(32, adv n_req_spaces_before_url)] (stay n_error_39).
Definition b_start_req_2 : block U :=
    switch n_start_req_2 [(76, adv_m 19 n_invoke_store_method_1)] (stay n_error_47).
Definition b_start_req_3 : block U :=
    match_sequence match_sequence_id n_start_req_3 llparse_blob18
    (adv_m 36 n_invoke_store_method_1) (stay n_error_47).
Definition b_start_req_1 : block U :=
    switch n_start_req_1 [(67, adv n_start_req_2); (78, adv n_start_req_3)] (stay n_error_47).
Definition b_start_req_4 : block U :=
    match_sequence match_sequence_id n_start_req_4 llparse_blob19
    (adv_m 16 n_invoke_store_method_1) (stay n_error_47).
Definition b_start_req_6 : block U :=
    match_sequence match_sequence_id n_start_req_6 llparse_blob20
    (adv_m 22 n_invoke_store_method_1) (stay n_error_47).
Definition b_start_req_8 : block U :=
    match_sequence match_sequence_id n_start_req_8 llparse_blob21
    (adv_m 5 n_invoke_store_method_1) (stay n_error_47).
Definition b_start_req_9 : block U :=
    switch n_start_req_9 [(89, adv_m 8 n_invoke_store_method_1)] (stay n_error_47).
Definition b_start_req_7 : block U :=
    switch n_start_req_7 [(78, adv n_start_req_8); (80, adv n_start_req_9)] (stay n_error_47).
Definition b_start_req_5 : block U :=
    switch n_start_req_5 [(72, adv n_start_req_6); (79, adv n_start_req_7)] (stay n_error_47).
Definition b_start_req_12 : block U :=
    match_sequence match_sequence_id n_start_req_12 llparse_blob22
    (adv_m 0 n_invoke_store_method_1) (stay n_error_47).
Definition b_start_req_13 : block U :=
    match_sequence match_sequence_id n_start_req_13 llparse_blob23
    (adv_m 35 n_invoke_store_method_1) (stay n_error_47).
Definition b_start_req_11 : block U :=
    switch n_start_req_11 [(76, adv n_start_req_12); (83, adv n_start_req_13)]
    (stay n_error_47).
Definition b_start_req_10 : block U :=
    switch n_start_req_10 [(69, adv n_start_req_11)] (stay n_error_47).
Definition b_start_req_14 : block U :=
    match_sequence match_sequence_id n_start_req_14 llparse_blob24
    (adv_m 45 n_invoke_store_method_1) (stay n_error_47).
Definition b_start_req_17 : block U :=
    match_sequence match_sequence_id n_start_req_17 llparse_blob26
    (adv_m 41 n_invoke_store_method_1) (stay n_error_47).
Definition b_start_req_16 : block U :=
    switch n_start_req_16 [(95, adv n_start_req_17)] (stay_m 1 n_invoke_store_method_1).
Definition b_start_req_15 : block U :=
    match_sequence match_sequence_id n_start_req_15 llparse_blob25 (adv n_start_req_16)
    (stay n_error_47).
Definition b_start_req_18 : block U :=
    match_sequence match_sequence_id n_start_req_18 llparse_blob27
    (adv_m 2 n_invoke_store_method_1) (stay n_error_47).
Definition b_start_req_20 : block U :=
    match_sequence match_sequence_id n_start_req_20 llparse_blob28
    (adv_m 31 n_invoke_store_method_1) (stay n_error_47).
Definition b_start_req_21 : block U :=
    match_sequence match_sequence_id n_start_req_21 llparse_blob29
    (adv_m 9 n_invoke_store_method_1) (stay n_error_47).
Definition b_start_req_19 : block U :=
    switch n_start_req_19 [(73, adv n_start_req_20); (79, adv n_start_req_21)]
    (stay n_error_47).
Definition b_start_req_23 : block U :=
    match_sequence match_sequence_id n_start_req_23 llparse_blob30
    (adv_m 24 n_invoke_store_method_1) (stay n_error_47).
Definition b_start_req_24 : block U :=
    match_sequence match_sequence_id n_start_req_24 llparse_blob31
    (adv_m 23 n_invoke_store_method_1) (stay n_error_47).
Definition b_start_req_26 : block U :=
    match_sequence match_sequence_id n_start_req_26 llparse_blob32
    (adv_m 21 n_invoke_store_method_1) (stay n_error_47).
Definition b_start_req_28 : block U :=
    match_sequence match_sequence_id n_start_req_28 llparse_blob33
    (adv_m 30 n_invoke_store_method_1) (stay n_error_47).
Definition b_start_req_29 : block U :=
    switch n_start_req_29 [(76, adv_m 10 n_invoke_store_method_1)] (stay n_error_47).
Definition b_start_req_27 : block U :=
    switch n_start_req_27 [(65, adv n_start_req_28); (79, adv n_start_req_29)]
    (stay n_error_47).
Definition b_start_req_25 : block U :=
    switch n_start_req_25 [(65, adv n_start_req_26); (67, adv n_start_req_27)]
    (stay n_error_47).
Definition b_start_req_30 : block U :=
    match_sequence match_sequence_id n_start_req_30 llparse_blob34
    (adv_m 11 n_invoke_store_method_1) (stay n_error_47).
Definition b_start_req_22 : block U :=
    switch n_start_req_22 [(45, adv n_start_req_23); (69, adv n_start_req_24);
    (75, adv n_start_req_25); (79, adv n_start_req_30)] (stay n_error_47).
Definition b_start_req_31 : block U :=
    match_sequence match_sequence_id n_start_req_31 llparse_blob35
    (adv_m 25 n_invoke_store_method_1) (stay n_error_47).
Definition b_start_req_32 : block U :=
    match_sequence match_sequence_id n_start_req_32 llparse_blob36
    (adv_m 6 n_invoke_store_method_1) (stay n_error_47).
Definition b_start_req_35 : block U :=
    match_sequence match_sequence_id n_start_req_35 llparse_blob37
    (adv_m 28 n_invoke_store_method_1) (stay n_error_47).
Definition b_start_req_36 : block U :=
    match_sequence match_sequence_id n_start_req_36 llparse_blob38
    (adv_m 39 n_invoke_store_method_1) (stay n_error_47).
Definition b_start_req_34 : block U :=
    switch n_start_req_34 [(84, adv n_start_req_35); (85, adv n_start_req_36)]
    (stay n_error_47).
Definition b_start_req_37 : block U :=
    match_sequence match_sequence_id n_start_req_37 llparse_blob39
    (adv_m 38 n_invoke_store_method_1) (stay n_error_47).
Definition b_start_req_38 : block U :=
    match_sequence match_sequence_id n_start_req_38 llparse_blob40
    (adv_m 3 n_invoke_store_method_1) (stay n_error_47).
Definition b_start_req_42 : block U :=
    match_sequence match_sequence_id n_start_req_42 llparse_blob41
    (adv_m 12 n_invoke_store_method_1) (stay n_error_47).
Definition b_start_req_43 : block U :=
    match_sequence match_sequence_id n_start_req_43 llparse_blob42
    (adv_m 13 n_invoke_store_method_1) (stay n_error_47).
Definition b_start_req_41 : block U :=
    switch n_start_req_41 [(70, adv n_start_req_42); (80, adv n_start_req_43)]
    (stay n_error_47).
Definition b_start_req_40 : block U :=
    switch n_start_req_40 [(80, adv n_start_req_41)] (stay n_error_47).
Definition b_start_req_39 : block U :=
    switch n_start_req_39 [(73, adv_m 34 n_invoke_store_method_1); (79, adv n_start_req_40)]
    (stay n_error_47).
Definition b_start_req_45 : block U :=
    match_sequence match_sequence_id n_start_req_45 llparse_blob43
    (adv_m 29 n_invoke_store_method_1) (stay n_error_47).
Definition b_start_req_44 : block U :=
    switch n_start_req_44 [(82, adv n_start_req_45); (84, adv_m 4 n_invoke_store_method_1)]
    (stay n_error_47).
Definition b_start_req_33 : block U :=
    switch n_start_req_33 [(65, adv n_start_req_34); (76, adv n_start_req_37);
    (79, adv n_start_req_38); (82, adv n_start_req_39); (85, adv n_start_req_44)]
    (stay n_error_47).
Definition b_start_req_48 : block U :=
    match_sequence match_sequence_id n_start_req_48 llparse_blob44
    (adv_m 17 n_invoke_store_method_1) (stay n_error_47).
Definition b_start_req_49 : block U :=
    match_sequence match_sequence_id n_start_req_49 llparse_blob45
    (adv_m 44 n_invoke_store_method_1) (stay n_error_47).
Definition b_start_req_50 : block U :=
    match_sequence match_sequence_id n_start_req_50 llparse_blob46
    (adv_m 43 n_invoke_store_method_1) (stay n_error_47).
Definition b_start_req_51 : block U :=
    match_sequence match_sequence_id n_start_req_51 llparse_blob47
    (adv_m 20 n_invoke_store_method_1) (stay n_error_47).
Definition b_start_req_47 : block U :=
    switch n_start_req_47 [(66, adv n_start_req_48); (67, adv n_start_req_49);
    (68, adv n_start_req_50); (80, adv n_start_req_51)] (stay n_error_47).
Definition b_start_req_46 : block U :=
    switch n_start_req_46 [(69, adv n_start_req_47)] (stay n_error_47).
Definition b_start_req_54 : block U :=
    match_sequence match_sequence_id n_start_req_54 llparse_blob48
    (adv_m 14 n_invoke_store_method_1) (stay n_error_47).
Definition b_start_req_56 : block U :=
    switch n_start_req_56 [(80, adv_m 37 n_invoke_store_method_1)] (stay n_error_47).
Definition b_start_req_57 : block U :=
    match_sequence match_sequence_id n_start_req_57 llparse_blob49
    (adv_m 42 n_invoke_store_method_1) (stay n_error_47).
Definition b_start_req_55 : block U :=
    switch n_start_req_55 [(85, adv n_start_req_56); (95, adv n_start_req_57)]
    (stay n_error_47).
Definition b_start_req_53 : block U :=
    switch n_start_req_53 [(65, adv n_start_req_54); (84, adv n_start_req_55)]
    (stay n_error_47).
Definition b_start_req_58 : block U :=
    match_sequence match_sequence_id n_start_req_58 llparse_blob50
    (adv_m 33 n_invoke_store_method_1) (stay n_error_47).
Definition b_start_req_59 : block U :=
    match_sequence match_sequence_id n_start_req_59 llparse_blob51
    (adv_m 26 n_invoke_store_method_1) (stay n_error_47).
Definition b_start_req_52 : block U :=
    switch n_start_req_52 [(69, adv n_start_req_53); (79, adv n_start_req_58);
    (85, adv n_start_req_59)] (stay n_error_47).
Definition b_start_req_61 : block U :=
    match_sequence match_sequence_id n_start_req_61 llparse_blob52
    (adv_m 40 n_invoke_store_method_1) (stay n_error_47).
Definition b_start_req_62 : block U :=
    match_sequence match_sequence_id n_start_req_62 llparse_blob53
    (adv_m 7 n_invoke_store_method_1) (stay n_error_47).
Definition b_start_req_60 : block U :=
    switch n_start_req_60 [(69, adv n_start_req_61); (82, adv n_start_req_62)]
    (stay n_error_47).
Definition b_start_req_65 : block U :=
    match_sequence match_sequence_id n_start_req_65 llparse_blob54
    (adv_m 18 n_invoke_store_method_1) (stay n_error_47).
Definition b_start_req_67 : block U :=
    match_sequence match_sequence_id n_start_req_67 llparse_blob55
    (adv_m 32 n_invoke_store_method_1) (stay n_error_47).
Definition b_start_req_68 : block U :=
    match_sequence match_sequence_id n_start_req_68 llparse_blob56
    (adv_m 15 n_invoke_store_method_1) (stay n_error_47).
Definition b_start_req_66 : block U :=
    switch n_start_req_66 [(73, adv n_start_req_67); (79, adv n_start_req_68)]
    (stay n_error_47).
Definition b_start_req_69 : block U :=
    match_sequence match_sequence_id n_start_req_69 llparse_blob57
    (adv_m 27 n_invoke_store_method_1) (stay n_error_47).
Definition b_start_req_64 : block U :=
    switch n_start_req_64 [(66, adv n_start_req_65); (76, adv n_start_req_66);
    (83, adv n_start_req_69)] (stay n_error_47).
Definition b_start_req_63 : block U :=
    switch n_start_req_63 [(78, adv n_start_req_64)] (stay n_error_47).
Definition b_start_req : block U :=
    switch n_start_req [(65, adv n_start_req_1); (66, adv n_start_req_4);
    (67, adv n_start_req_5); (68, adv n_start_req_10); (70, adv n_start_req_14);
    (71, adv n_start_req_15); (72, adv n_start_req_18); (76, adv n_start_req_19);
    (77, adv n_start_req_22); (78, adv n_start_req_31); (79, adv n_start_req_32);
    (80, adv n_start_req_33); (82, adv n_start_req_46); (83, adv n_start_req_52);
    (84, adv n_start_req_60); (85, adv n_start_req_63)] (stay n_error_47).
Definition b_invoke_llhttp__on_status_complete : block U :=
    invoke_cb (llhttp__on_status_complete settings) [] n_header_field_start.
Definition b_res_line_almost_done : block U :=
    next n_res_line_almost_done n_invoke_llhttp__on_status_complete.
Definition b_res_status : block U :=
    switch n_res_status [(10, stay n_span_end_llhttp__on_status);
    (13, stay n_span_end_llhttp__on_status_1)] (adv n_res_status).
Definition b_span_start_llhttp__on_status : block U :=
    span_start n_span_start_llhttp__on_status span_on_status n_res_status.
Definition b_res_status_start : block U :=
    switch n_res_status_start [(10, adv n_invoke_llhttp__on_status_complete);
    (13, adv n_res_line_almost_done)] (stay n_span_start_llhttp__on_status).
Definition b_res_status_code_otherwise : block U :=
    switch n_res_status_code_otherwise [(10, stay n_res_status_start);
    (13, stay n_res_status_start); (32, adv n_res_status_start)] (stay n_error_41).
Definition b_res_status_code : block U :=
    switch n_res_status_code [(48, adv_m 0 n_invoke_mul_add_status_code);
    (49, adv_m 1 n_invoke_mul_add_status_code); (50, adv_m 2 n_invoke_mul_add_status_code);
    (51, adv_m 3 n_invoke_mul_add_status_code); (52, adv_m 4 n_invoke_mul_add_status_code);
    (53, adv_m 5 n_invoke_mul_add_status_code); (54, adv_m 6 n_invoke_mul_add_status_code);
    (55, adv_m 7 n_invoke_mul_add_status_code); (56, adv_m 8 n_invoke_mul_add_status_code);
    (57, adv_m 9 n_invoke_mul_add_status_code)] (stay n_res_status_code_otherwise).
Definition b_res_http_end : block U :=
    switch n_res_http_end [(32, adv n_invoke_update_status_code)] (stay n_error_42).
Definition b_res_http_minor : block U :=
    switch n_res_http_minor [(48, adv_m 0 n_invoke_store_http_minor_1);
    (49, adv_m 1 n_invoke_store_http_minor_1); (50, adv_m 2 n_invoke_store_http_minor_1);
    (51, adv_m 3 n_invoke_store_http_minor_1); (52, adv_m 4 n_invoke_store_http_minor_1);
    (53, adv_m 5 n_invoke_store_http_minor_1); (54, adv_m 6 n_invoke_store_http_minor_1);
    (55, adv_m 7 n_invoke_store_http_minor_1); (56, adv_m 8 n_invoke_store_http_minor_1);
    (57, adv_m 9 n_invoke_store_http_minor_1)] (stay n_error_43).
Definition b_res_http_dot : block U :=
    switch n_res_http_dot [(46, adv n_res_http_minor)] (stay n_error_44).
Definition b_res_http_major : block U :=
    switch n_res_http_major [(48, adv_m 0 n_invoke_store_http_major_1);
    (49, adv_m 1 n_invoke_store_http_major_1); (50, adv_m 2 n_invoke_store_http_major_1);
    (51, adv_m 3 n_invoke_store_http_major_1); (52, adv_m 4 n_invoke_store_http_major_1);
    (53, adv_m 5 n_invoke_store_http_major_1); (54, adv_m 6 n_invoke_store_http_major_1);
    (55, adv_m 7 n_invoke_store_http_major_1); (56, adv_m 8 n_invoke_store_http_major_1);
    (57, adv_m 9 n_invoke_store_http_major_1)] (stay n_error_45).
Definition b_start_res : block U :=
    match_sequence match_sequence_id n_start_res llparse_blob58 (adv n_res_http_major)
    (stay n_error_48).
Definition b_req_or_res_method_2 : block U :=
    match_sequence match_sequence_id n_req_or_res_method_2 llparse_blob59
    (adv_m 2 n_invoke_store_method) (stay n_error_46).
Definition b_req_or_res_method_3 : block U :=
    match_sequence match_sequence_id n_req_or_res_method_3 llparse_blob60
    (adv n_invoke_update_type_1) (stay n_error_46).
Definition b_req_or_res_method_1 : block U :=
    switch n_req_or_res_method_1 [(69, adv n_req_or_res_method_2);
    (84, adv n_req_or_res_method_3)] (stay n_error_46).
Definition b_req_or_res_method : block U :=
    switch n_req_or_res_method [(72, adv n_req_or_res_method_1)] (stay n_error_46).
Definition b_start_req_or_res : block U :=
    switch n_start_req_or_res [(72, stay n_req_or_res_method)] (stay n_invoke_update_type_2).
Definition b_invoke_load_type : block U :=
    invoke c_load_type [(1, n_start_req); (2, n_start_res)] n_start_req_or_res.
Definition b_start : block U :=
    switch n_start [(10, adv n_start); (13, adv n_start)] (stay n_invoke_update_finish).
Definition b_error_35 : block U := fail 7 "Invalid characters in url"%string.
Definition b_invoke_update_finish_1 : block U := invoke c_update_finish_1 [] n_start.
Definition b_pause_5 : block U :=
    pause 21 "on_message_complete pause"%string n_invoke_is_equal_upgrade.
Definition b_error_9 : block U := fail 18 "`on_message_complete` callback error"%string.
Definition b_pause_7 : block U :=
    pause 21 "on_chunk_complete pause"%string n_invoke_llhttp__on_message_complete_2.
Definition b_error_12 : block U := fail 20 "`on_chunk_complete` callback error"%string.
Definition b_invoke_llhttp__on_chunk_complete_1 : block U :=
    invoke_cb (llhttp__on_chunk_complete settings)
    [(0, n_invoke_llhttp__on_message_complete_2); (21, n_pause_7)] n_error_12.
Definition b_error_11 : block U :=
    fail 4 "Content-Length can't be present with Transfer-Encoding"%string.
Definition b_pause_2 : block U := pause 21 "on_message_complete pause"%string n_pause_1.
Definition b_error_3 : block U := fail 18 "`on_message_complete` callback error"%string.
Definition b_invoke_llhttp__on_message_complete_1 : block U :=
    invoke_cb (llhttp__on_message_complete settings) [(0, n_pause_1); (21, n_pause_2)]
    n_error_3.
Definition b_error_7 : block U := fail 12 "Chunk size overflow"%string.
Definition b_pause_3 : block U :=
    pause 21 "on_chunk_complete pause"%string n_invoke_update_content_length.
Definition b_error_5 : block U := fail 20 "`on_chunk_complete` callback error"%string.
Definition b_invoke_llhttp__on_chunk_complete : block U :=
    invoke_cb (llhttp__on_chunk_complete settings) [(0, n_invoke_update_content_length);
    (21, n_pause_3)] n_error_5.
Definition b_span_end_llhttp__on_body : block U :=
    span_end settings span_on_body (stay n_chunk_data_almost_done).
Definition b_invoke_or_flags : block U := invoke c_or_flags [] n_header_field_start.
Definition b_pause_4 : block U :=
    pause 21 "on_chunk_header pause"%string n_invoke_is_equal_content_length.
Definition b_error_4 : block U := fail 19 "`on_chunk_header` callback error"%string.
Definition b_invoke_llhttp__on_chunk_header : block U :=
    invoke_cb (llhttp__on_chunk_header settings) [(0, n_invoke_is_equal_content_length);
    (21, n_pause_4)] n_error_4.
Definition b_error_6 : block U := fail 12 "Invalid character in chunk size"%string.
Definition b_invoke_mul_add_content_length : block U :=
    invoke_match c_mul_add_content_length [(1, n_error_7)] n_chunk_size.
Definition b_error_8 : block U := fail 12 "Invalid character in chunk size"%string.
Definition b_span_end_llhttp__on_body_1 : block U :=
    span_end settings span_on_body (stay n_invoke_llhttp__on_message_complete_2).
Definition b_invoke_update_finish_2 : block U :=
    invoke c_update_finish_2 [] n_span_start_llhttp__on_body_2.
Definition b_error_10 : block U := fail 15 "Request has invalid `Transfer-Encoding`"%string.
Definition b_pause : block U :=
    pause 21 "on_message_complete pause"%string n_invoke_llhttp__after_message_complete.
Definition b_error_2 : block U := fail 18 "`on_message_complete` callback error"%string.
Definition b_invoke_llhttp__on_message_complete : block U :=
    invoke_cb (llhttp__on_message_complete settings)
    [(0, n_invoke_llhttp__after_message_complete); (21, n_pause)] n_error_2.
Definition b_invoke_or_flags_1 : block U :=
    invoke c_or_flags_1 [] n_invoke_llhttp__after_headers_complete.
Definition b_invoke_or_flags_2 : block U :=
    invoke c_or_flags_1 [] n_invoke_llhttp__after_headers_complete.
Definition b_invoke_update_upgrade : block U := invoke c_update_upgrade [] n_invoke_or_flags_2.
Definition b_pause_6 : block U :=
    pause 21 "Paused by on_headers_complete"%string n_invoke_llhttp__after_headers_complete.
Definition b_error_1 : block U := fail 17 "User callback error"%string.
Definition b_invoke_llhttp__on_headers_complete : block U :=
    invoke_cb (llhttp__on_headers_complete settings)
    [(0, n_invoke_llhttp__after_headers_complete); (1, n_invoke_or_flags_1);
    (2, n_invoke_update_upgrade); (21, n_pause_6)] n_error_1.
Definition b_invoke_llhttp__before_headers_complete : block U :=
    invoke llhttp__before_headers_complete [] n_invoke_llhttp__on_headers_complete.
Definition b_invoke_test_lenient_flags : block U :=
    invoke c_test_lenient_flags [(0, n_error_11)] n_invoke_llhttp__before_headers_complete.
Definition b_invoke_test_flags_1 : block U :=
    invoke c_test_flags_1 [(1, n_invoke_test_lenient_flags)]
    n_invoke_llhttp__before_headers_complete.
Definition b_invoke_test_flags : block U :=
    invoke c_test_flags [(1, n_invoke_llhttp__on_chunk_complete_1)] n_invoke_test_flags_1.
Definition b_error_13 : block U := fail 11 "Empty Content-Length"%string.
Definition b_span_end_llhttp__on_header_value : block U :=
    span_end settings span_on_header_value (stay n_header_field_start).
Definition b_invoke_update_header_state : block U :=
    invoke c_update_header_state [] n_span_start_llhttp__on_header_value.
Definition b_invoke_or_flags_3 : block U := invoke c_or_flags_3 [] n_invoke_update_header_state.
Definition b_invoke_or_flags_4 : block U := invoke c_or_flags_4 [] n_invoke_update_header_state.
Definition b_invoke_or_flags_5 : block U := invoke c_or_flags_5 [] n_invoke_update_header_state.
Definition b_invoke_or_flags_6 : block U :=
    invoke c_or_flags_6 [] n_span_start_llhttp__on_header_value.
Definition b_invoke_load_header_state_1 : block U :=
    invoke c_load_header_state [(5, n_invoke_or_flags_3); (6, n_invoke_or_flags_4);
    (7, n_invoke_or_flags_5); (8, n_invoke_or_flags_6)] n_span_start_llhttp__on_header_value.
Definition b_invoke_load_header_state : block U :=
    invoke c_load_header_state [(2, n_error_13)] n_invoke_load_header_state_1.
Definition b_invoke_llhttp__on_header_value_complete : block U :=
    invoke_cb (llhttp__on_header_value_complete settings) [] n_header_field_start.
Definition b_invoke_update_header_state_1 : block U :=
    invoke c_update_header_state [] n_invoke_llhttp__on_header_value_complete.
Definition b_invoke_or_flags_7 : block U := invoke c_or_flags_3 [] n_invoke_update_header_state_1.
Definition b_invoke_or_flags_8 : block U := invoke c_or_flags_4 [] n_invoke_update_header_state_1.
Definition b_invoke_or_flags_9 : block U := invoke c_or_flags_5 [] n_invoke_update_header_state_1.
Definition b_invoke_or_flags_10 : block U :=
    invoke c_or_flags_6 [] n_invoke_llhttp__on_header_value_complete.
Definition b_invoke_load_header_state_3 : block U :=
    invoke c_load_header_state [(5, n_invoke_or_flags_7); (6, n_invoke_or_flags_8);
    (7, n_invoke_or_flags_9); (8, n_invoke_or_flags_10)]
    n_invoke_llhttp__on_header_value_complete.
Definition b_error_14 : block U := fail 3 "Missing expected LF after header value"%string.
Definition b_span_end_llhttp__on_header_value_1 : block U :=
    span_end settings span_on_header_value (stay n_header_value_almost_done).
Definition b_span_end_llhttp__on_header_value_2 : block U :=
    span_end settings span_on_header_value (adv n_header_value_almost_done).
Definition b_span_end_llhttp__on_header_value_3 : block U :=
    span_end settings span_on_header_value (adv n_header_value_almost_done).
Definition b_error_15 : block U := fail 10 "Invalid header value char"%string.
Definition b_invoke_test_lenient_flags_1 : block U :=
    invoke c_test_lenient_flags_1 [(1, n_header_value_lenient)] n_error_15.
Definition b_invoke_update_header_state_3 : block U :=
    invoke c_update_header_state [] n_header_value_connection.
Definition b_invoke_or_flags_11 : block U :=
    invoke c_or_flags_3 [] n_invoke_update_header_state_3.
Definition b_invoke_or_flags_12 : block U :=
    invoke c_or_flags_4 [] n_invoke_update_header_state_3.
Definition b_invoke_or_flags_13 : block U :=
    invoke c_or_flags_5 [] n_invoke_update_header_state_3.
Definition b_invoke_or_flags_14 : block U := invoke c_or_flags_6 [] n_header_value_connection.
Definition b_invoke_load_header_state_4 : block U :=
    invoke c_load_header_state [(5, n_invoke_or_flags_11); (6, n_invoke_or_flags_12);
    (7, n_invoke_or_flags_13); (8, n_invoke_or_flags_14)] n_header_value_connection.
Definition b_invoke_update_header_state_4 : block U :=
    invoke c_update_header_state_4 [] n_header_value_connection_token.
Definition b_invoke_update_header_state_2 : block U :=
    invoke c_update_header_state_2 [] n_header_value_connection_ws.
Definition b_invoke_update_header_state_5 : block U :=
    invoke c_update_header_state_5 [] n_header_value_connection_ws.
Definition b_invoke_update_header_state_6 : block U :=
    invoke c_update_header_state_6 [] n_header_value_connection_ws.
Definition b_span_end_llhttp__on_header_value_4 : block U :=
    span_end settings span_on_header_value (stay n_error_17).
Definition b_invoke_mul_add_content_length_1 : block U :=
    invoke_match c_mul_add_content_length_1 [(1, n_span_end_llhttp__on_header_value_4)]
    n_header_value_content_length.
Definition b_invoke_or_flags_15 : block U := invoke c_or_flags_15 [] n_header_value_otherwise.
Definition b_span_end_llhttp__on_header_value_5 : block U :=
    span_end settings span_on_header_value (stay n_error_18).
Definition b_error_16 : block U := fail 4 "Duplicate Content-Length"%string.
Definition b_invoke_test_flags_2 : block U :=
    invoke c_test_flags_2 [(0, n_header_value_content_length)] n_error_16.
Definition b_invoke_update_header_state_7 : block U :=
    invoke c_update_header_state_7 [] n_header_value_otherwise.
Definition b_invoke_update_header_state_8 : block U :=
    invoke c_update_header_state_4 [] n_header_value.
Definition b_invoke_and_flags : block U := invoke c_and_flags [] n_header_value_te_chunked.
Definition b_invoke_or_flags_16 : block U := invoke c_or_flags_16 [] n_invoke_and_flags.
Definition b_invoke_or_flags_17 : block U :=
    invoke c_or_flags_17 [] n_invoke_update_header_state_8.
Definition b_invoke_load_header_state_2 : block U :=
    invoke c_load_header_state [(1, n_header_value_connection); (2, n_invoke_test_flags_2);
    (3, n_invoke_or_flags_16); (4, n_invoke_or_flags_17)] n_header_value.
Definition b_span_end_llhttp__on_header_field : block U :=
    span_end settings span_on_header_field (adv n_header_value_discard_ws).
Definition b_span_end_llhttp__on_header_field_1 : block U :=
    span_end settings span_on_header_field (adv n_invoke_llhttp__on_header_field_complete).
Definition b_error_19 : block U := fail 10 "Invalid header token"%string.
Definition b_invoke_update_header_state_9 : block U :=
    invoke c_update_header_state_4 [] n_header_field_general.
Definition b_invoke_store_header_state : block U :=
    invoke_match c_store_header_state [] n_header_field_colon.
Definition b_invoke_update_header_state_10 : block U :=
    invoke c_update_header_state_4 [] n_header_field_general.
Definition b_invoke_llhttp__on_url_complete : block U :=
    invoke_cb (llhttp__on_url_complete settings) [] n_header_field_start.
Definition b_invoke_update_http_minor : block U :=
    invoke c_update_http_minor [] n_invoke_llhttp__on_url_complete.
Definition b_invoke_update_http_major : block U :=
    invoke c_update_http_major [] n_invoke_update_http_minor.
Definition b_span_end_llhttp__on_url_3 : block U :=
    span_end settings span_on_url (stay n_url_skip_to_http09).
Definition b_error_20 : block U := fail 7 "Expected CRLF"%string.
Definition b_span_end_llhttp__on_url_4 : block U :=
    span_end settings span_on_url (stay n_url_skip_lf_to_http09).
Definition b_error_22 : block U := fail 9 "Expected CRLF after version"%string.
Definition b_invoke_store_http_minor : block U :=
    invoke_match c_store_http_minor [] n_req_http_end.
Definition b_error_23 : block U := fail 9 "Invalid minor version"%string.
Definition b_error_24 : block U := fail 9 "Expected dot"%string.
Definition b_invoke_store_http_major : block U :=
    invoke_match c_store_http_major [] n_req_http_dot.
Definition b_error_25 : block U := fail 9 "Invalid major version"%string.
Definition b_error_21 : block U := fail 8 "Invalid method for HTTP/x.x request"%string.
Definition b_invoke_load_method : block U :=
    invoke c_load_method [(0, n_req_http_major); (1, n_req_http_major); (2, n_req_http_major);
    (3, n_req_http_major); (4, n_req_http_major); (5, n_req_http_major); (6, n_req_http_major);
    (7, n_req_http_major); (8, n_req_http_major); (9, n_req_http_major);
    (10, n_req_http_major); (11, n_req_http_major); (12, n_req_http_major);
    (13, n_req_http_major); (14, n_req_http_major); (15, n_req_http_major);
    (16, n_req_http_major); (17, n_req_http_major); (18, n_req_http_major);
    (19, n_req_http_major); (20, n_req_http_major); (21, n_req_http_major);
    (22, n_req_http_major); (23, n_req_http_major); (24, n_req_http_major);
    (25, n_req_http_major); (26, n_req_http_major); (27, n_req_http_major);
    (28, n_req_http_major); (29, n_req_http_major); (30, n_req_http_major);
    (31, n_req_http_major); (32, n_req_http_major); (33, n_req_http_major);
    (34, n_req_http_major)] n_error_21.
Definition b_error_28 : block U := fail 8 "Expected HTTP/"%string.
Definition b_error_26 : block U := fail 8 "Expected SOURCE method for ICE/x.x request"%string.
Definition b_invoke_load_method_1 : block U :=
    invoke c_load_method [(33, n_req_http_major)] n_error_26.
Definition b_error_27 : block U := fail 8 "Invalid method for RTSP/x.x request"%string.
Definition b_invoke_load_method_2 : block U :=
    invoke c_load_method [(1, n_req_http_major); (3, n_req_http_major); (6, n_req_http_major);
    (35, n_req_http_major); (36, n_req_http_major); (37, n_req_http_major);
    (38, n_req_http_major); (39, n_req_http_major); (40, n_req_http_major);
    (41, n_req_http_major); (42, n_req_http_major); (43, n_req_http_major);
    (44, n_req_http_major); (45, n_req_http_major)] n_error_27.
Definition b_invoke_llhttp__on_url_complete_1 : block U :=
    invoke_cb (llhttp__on_url_complete settings) [] n_req_http_start.
Definition b_span_end_llhttp__on_url_5 : block U :=
    span_end settings span_on_url (stay n_url_skip_to_http).
Definition b_span_end_llhttp__on_url_6 : block U :=
    span_end settings span_on_url (stay n_url_skip_to_http09).
Definition b_span_end_llhttp__on_url_7 : block U :=
    span_end settings span_on_url (stay n_url_skip_lf_to_http09).
Definition b_span_end_llhttp__on_url_8 : block U :=
    span_end settings span_on_url (stay n_url_skip_to_http).
Definition b_error_29 : block U := fail 7 "Invalid char in url fragment start"%string.
Definition b_span_end_llhttp__on_url_9 : block U :=
    span_end settings span_on_url (stay n_url_skip_to_http09).
Definition b_span_end_llhttp__on_url_10 : block U :=
    span_end settings span_on_url (stay n_url_skip_lf_to_http09).
Definition b_span_end_llhttp__on_url_11 : block U :=
    span_end settings span_on_url (stay n_url_skip_to_http).
Definition b_error_30 : block U := fail 7 "Invalid char in url query"%string.
Definition b_error_31 : block U := fail 7 "Invalid char in url path"%string.
Definition b_span_end_llhttp__on_url : block U :=
    span_end settings span_on_url (stay n_url_skip_to_http09).
Definition b_span_end_llhttp__on_url_1 : block U :=
    span_end settings span_on_url (stay n_url_skip_lf_to_http09).
Definition b_span_end_llhttp__on_url_2 : block U :=
    span_end settings span_on_url (stay n_url_skip_to_http).
Definition b_span_end_llhttp__on_url_12 : block U :=
    span_end settings span_on_url (stay n_url_skip_to_http09).
Definition b_span_end_llhttp__on_url_13 : block U :=
    span_end settings span_on_url (stay n_url_skip_lf_to_http09).
Definition b_span_end_llhttp__on_url_14 : block U :=
    span_end settings span_on_url (stay n_url_skip_to_http).
Definition b_error_32 : block U := fail 7 "Double @ in url"%string.
Definition b_error_33 : block U := fail 7 "Unexpected char in url server"%string.
Definition b_error_34 : block U := fail 7 "Unexpected char in url server"%string.
Definition b_error_36 : block U := fail 7 "Unexpected char in url schema"%string.
Definition b_error_37 : block U := fail 7 "Unexpected char in url schema"%string.
Definition b_error_38 : block U := fail 7 "Unexpected start char in url"%string.
Definition b_invoke_is_equal_method : block U :=
    invoke c_is_equal_method [(0, n_span_start_llhttp__on_url_1)] n_span_start_llhttp__on_url.
Definition b_error_39 : block U := fail 6 "Expected space after method"%string.
Definition b_invoke_store_method_1 : block U :=
    invoke_match c_store_method [] n_req_first_space_before_url.
Definition b_error_47 : block U := fail 6 "Invalid method encountered"%string.
Definition b_error_40 : block U := fail 13 "Response overflow"%string.
Definition b_invoke_mul_add_status_code : block U :=
    invoke_match c_mul_add_status_code [(1, n_error_40)] n_res_status_code.
Definition b_span_end_llhttp__on_status : block U :=
    span_end settings span_on_status (adv n_invoke_llhttp__on_status_complete).
Definition b_span_end_llhttp__on_status_1 : block U :=
    span_end settings span_on_status (adv n_res_line_almost_done).
Definition b_error_41 : block U := fail 13 "Invalid response status"%string.
Definition b_invoke_update_status_code : block U :=
    invoke c_update_status_code [] n_res_status_code.
Definition b_error_42 : block U := fail 9 "Expected space after version"%string.
Definition b_invoke_store_http_minor_1 : block U :=
    invoke_match c_store_http_minor [] n_res_http_end.
Definition b_error_43 : block U := fail 9 "Invalid minor version"%string.
Definition b_error_44 : block U := fail 9 "Expected dot"%string.
Definition b_invoke_store_http_major_1 : block U :=
    invoke_match c_store_http_major [] n_res_http_dot.
Definition b_error_45 : block U := fail 9 "Invalid major version"%string.
Definition b_error_48 : block U := fail 8 "Expected HTTP/"%string.
Definition b_invoke_update_type : block U := invoke c_update_type [] n_req_first_space_before_url.
Definition b_invoke_store_method : block U := invoke_match c_store_method [] n_invoke_update_type.
Definition b_error_46 : block U := fail 8 "Invalid word encountered"%string.
Definition b_invoke_update_type_1 : block U := invoke c_update_type_1 [] n_res_http_major.
Definition b_invoke_update_type_2 : block U := invoke c_update_type [] n_start_req.
Definition b_pause_8 : block U := pause 21 "on_message_begin pause"%string n_invoke_load_type.
Definition b_error : block U := fail 16 "`on_message_begin` callback error"%string.
Definition b_invoke_llhttp__on_message_begin : block U :=
    invoke_cb (llhttp__on_message_begin settings) [(0, n_invoke_load_type); (21, n_pause_8)]
    n_error.
Definition b_invoke_update_finish : block U :=
    invoke c_update_finish [] n_invoke_llhttp__on_message_begin.

(** The block of a label. *)
Definition block_of (l : label) : block U :=
  match l with
  | n_invoke_llhttp__after_message_complete => b_invoke_llhttp__after_message_complete
  | n_pause_1 => b_pause_1
  | n_invoke_is_equal_upgrade => b_invoke_is_equal_upgrade
  | n_invoke_llhttp__on_message_complete_2 => b_invoke_llhttp__on_message_complete_2
  | n_chunk_data_almost_done_skip => b_chunk_data_almost_done_skip
  | n_chunk_data_almost_done => b_chunk_data_almost_done
  | n_consume_content_length => b_consume_content_length
  | n_span_start_llhttp__on_body => b_span_start_llhttp__on_body
  | n_invoke_is_equal_content_length => b_invoke_is_equal_content_length
  | n_chunk_size_almost_done => b_chunk_size_almost_done
  | n_chunk_parameters => b_chunk_parameters
  | n_chunk_size_otherwise => b_chunk_size_otherwise
  | n_chunk_size => b_chunk_size
  | n_chunk_size_digit => b_chunk_size_digit
  | n_invoke_update_content_length => b_invoke_update_content_length
  | n_consume_content_length_1 => b_consume_content_length_1
  | n_span_start_llhttp__on_body_1 => b_span_start_llhttp__on_body_1
  | n_eof => b_eof
  | n_span_start_llhttp__on_body_2 => b_span_start_llhttp__on_body_2
  | n_invoke_llhttp__after_headers_complete => b_invoke_llhttp__after_headers_complete
  | n_headers_almost_done => b_headers_almost_done
  | n_span_start_llhttp__on_header_value => b_span_start_llhttp__on_header_value
  | n_header_value_discard_lws => b_header_value_discard_lws
  | n_header_value_discard_ws_almost_done => b_header_value_discard_ws_almost_done
  | n_header_value_lws => b_header_value_lws
  | n_header_value_almost_done => b_header_value_almost_done
  | n_header_value_lenient => b_header_value_lenient
  | n_header_value_otherwise => b_header_value_otherwise
  | n_header_value_connection_token => b_header_value_connection_token
  | n_header_value_connection_ws => b_header_value_connection_ws
  | n_header_value_connection_1 => b_header_value_connection_1
  | n_header_value_connection_2 => b_header_value_connection_2
  | n_header_value_connection_3 => b_header_value_connection_3
  | n_header_value_connection => b_header_value_connection
  | n_error_17 => b_error_17
  | n_error_18 => b_error_18
  | n_header_value_content_length_ws => b_header_value_content_length_ws
  | n_header_value_content_length => b_header_value_content_length
  | n_header_value_te_chunked_last => b_header_value_te_chunked_last
  | n_header_value_te_token_ows => b_header_value_te_token_ows
  | n_header_value => b_header_value
  | n_header_value_te_token => b_header_value_te_token
  | n_header_value_te_chunked => b_header_value_te_chunked
  | n_span_start_llhttp__on_header_value_1 => b_span_start_llhttp__on_header_value_1
  | n_header_value_discard_ws => b_header_value_discard_ws
  | n_invoke_llhttp__on_header_field_complete => b_invoke_llhttp__on_header_field_complete
  | n_header_field_general_otherwise => b_header_field_general_otherwise
  | n_header_field_general => b_header_field_general
  | n_header_field_colon => b_header_field_colon
  | n_header_field_3 => b_header_field_3
  | n_header_field_4 => b_header_field_4
  | n_header_field_2 => b_header_field_2
  | n_header_field_1 => b_header_field_1
  | n_header_field_5 => b_header_field_5
  | n_header_field_6 => b_header_field_6
  | n_header_field_7 => b_header_field_7
  | n_header_field => b_header_field
  | n_span_start_llhttp__on_header_field => b_span_start_llhttp__on_header_field
  | n_header_field_start => b_header_field_start
  | n_url_skip_to_http09 => b_url_skip_to_http09
  | n_url_skip_lf_to_http09 => b_url_skip_lf_to_http09
  | n_req_http_end_1 => b_req_http_end_1
  | n_req_http_end => b_req_http_end
  | n_req_http_minor => b_req_http_minor
  | n_req_http_dot => b_req_http_dot
  | n_req_http_major => b_req_http_major
  | n_req_http_start_1 => b_req_http_start_1
  | n_req_http_start_2 => b_req_http_start_2
  | n_req_http_start_3 => b_req_http_start_3
  | n_req_http_start => b_req_http_start
  | n_url_skip_to_http => b_url_skip_to_http
  | n_url_fragment => b_url_fragment
  | n_span_end_stub_query_3 => b_span_end_stub_query_3
  | n_url_query => b_url_query
  | n_url_query_or_fragment => b_url_query_or_fragment
  | n_url_path => b_url_path
  | n_span_start_stub_path_2 => b_span_start_stub_path_2
  | n_span_start_stub_path => b_span_start_stub_path
  | n_span_start_stub_path_1 => b_span_start_stub_path_1
  | n_url_server_with_at => b_url_server_with_at
  | n_url_server => b_url_server
  | n_url_schema_delim_1 => b_url_schema_delim_1
  | n_url_schema_delim => b_url_schema_delim
  | n_span_end_stub_schema => b_span_end_stub_schema
  | n_url_schema => b_url_schema
  | n_url_start => b_url_start
  | n_span_start_llhttp__on_url_1 => b_span_start_llhttp__on_url_1
  | n_span_start_llhttp__on_url => b_span_start_llhttp__on_url
  | n_req_spaces_before_url => b_req_spaces_before_url
  | n_req_first_space_before_url => b_req_first_space_before_url
  | n_start_req_2 => b_start_req_2
  | n_start_req_3 => b_start_req_3
  | n_start_req_1 => b_start_req_1
  | n_start_req_4 => b_start_req_4
  | n_start_req_6 => b_start_req_6
  | n_start_req_8 => b_start_req_8
  | n_start_req_9 => b_start_req_9
  | n_start_req_7 => b_start_req_7
  | n_start_req_5 => b_start_req_5
  | n_start_req_12 => b_start_req_12
  | n_start_req_13 => b_start_req_13
  | n_start_req_11 => b_start_req_11
  | n_start_req_10 => b_start_req_10
  | n_start_req_14 => b_start_req_14
  | n_start_req_17 => b_start_req_17
  | n_start_req_16 => b_start_req_16
  | n_start_req_15 => b_start_req_15
  | n_start_req_18 => b_start_req_18
  | n_start_req_20 => b_start_req_20
  | n_start_req_21 => b_start_req_21
  | n_start_req_19 => b_start_req_19
  | n_start_req_23 => b_start_req_23
  | n_start_req_24 => b_start_req_24
  | n_start_req_26 => b_start_req_26
  | n_start_req_28 => b_start_req_28
  | n_start_req_29 => b_start_req_29
  | n_start_req_27 => b_start_req_27
  | n_start_req_25 => b_start_req_25
  | n_start_req_30 => b_start_req_30
  | n_start_req_22 => b_start_req_22
  | n_start_req_31 => b_start_req_31
  | n_start_req_32 => b_start_req_32
  | n_start_req_35 => b_start_req_35
  | n_start_req_36 => b_start_req_36
  | n_start_req_34 => b_start_req_34
  | n_start_req_37 => b_start_req_37
  | n_start_req_38 => b_start_req_38
  | n_start_req_42 => b_start_req_42
  | n_start_req_43 => b_start_req_43
  | n_start_req_41 => b_start_req_41
  | n_start_req_40 => b_start_req_40
  | n_start_req_39 => b_start_req_39
  | n_start_req_45 => b_start_req_45
  | n_start_req_44 => b_start_req_44
  | n_start_req_33 => b_start_req_33
  | n_start_req_48 => b_start_req_48
  | n_start_req_49 => b_start_req_49
  | n_start_req_50 => b_start_req_50
  | n_start_req_51 => b_start_req_51
  | n_start_req_47 => b_start_req_47
  | n_start_req_46 => b_start_req_46
  | n_start_req_54 => b_start_req_54
  | n_start_req_56 => b_start_req_56
  | n_start_req_57 => b_start_req_57
  | n_start_req_55 => b_start_req_55
  | n_start_req_53 => b_start_req_53
  | n_start_req_58 => b_start_req_58
  | n_start_req_59 => b_start_req_59
  | n_start_req_52 => b_start_req_52
  | n_start_req_61 => b_start_req_61
  | n_start_req_62 => b_start_req_62
  | n_start_req_60 => b_start_req_60
  | n_start_req_65 => b_start_req_65
  | n_start_req_67 => b_start_req_67
  | n_start_req_68 => b_start_req_68
  | n_start_req_66 => b_start_req_66
  | n_start_req_69 => b_start_req_69
  | n_start_req_64 => b_start_req_64
  | n_start_req_63 => b_start_req_63
  | n_start_req => b_start_req
  | n_invoke_llhttp__on_status_complete => b_invoke_llhttp__on_status_complete
  | n_res_line_almost_done => b_res_line_almost_done
  | n_res_status => b_res_status
  | n_span_start_llhttp__on_status => b_span_start_llhttp__on_status
  | n_res_status_start => b_res_status_start
  | n_res_status_code_otherwise => b_res_status_code_otherwise
  | n_res_status_code => b_res_status_code
  | n_res_http_end => b_res_http_end
  | n_res_http_minor => b_res_http_minor
  | n_res_http_dot => b_res_http_dot
  | n_res_http_major => b_res_http_major
  | n_start_res => b_start_res
  | n_req_or_res_method_2 => b_req_or_res_method_2
  | n_req_or_res_method_3 => b_req_or_res_method_3
  | n_req_or_res_method_1 => b_req_or_res_method_1
  | n_req_or_res_method => b_req_or_res_method
  | n_start_req_or_res => b_start_req_or_res
  | n_invoke_load_type => b_invoke_load_type
  | n_start => b_start
  | n_error_35 => b_error_35
  | n_invoke_update_finish_1 => b_invoke_update_finish_1
  | n_pause_5 => b_pause_5
  | n_error_9 => b_error_9
  | n_pause_7 => b_pause_7
  | n_error_12 => b_error_12
  | n_invoke_llhttp__on_chunk_complete_1 => b_invoke_llhttp__on_chunk_complete_1
  | n_error_11 => b_error_11
  | n_pause_2 => b_pause_2
  | n_error_3 => b_error_3
  | n_invoke_llhttp__on_message_complete_1 => b_invoke_llhttp__on_message_complete_1
  | n_error_7 => b_error_7
  | n_pause_3 => b_pause_3
  | n_error_5 => b_error_5
  | n_invoke_llhttp__on_chunk_complete => b_invoke_llhttp__on_chunk_complete
  | n_span_end_llhttp__on_body => b_span_end_llhttp__on_body
  | n_invoke_or_flags => b_invoke_or_flags
  | n_pause_4 => b_pause_4
  | n_error_4 => b_error_4
  | n_invoke_llhttp__on_chunk_header => b_invoke_llhttp__on_chunk_header
  | n_error_6 => b_error_6
  | n_invoke_mul_add_content_length => b_invoke_mul_add_content_length
  | n_error_8 => b_error_8
  | n_span_end_llhttp__on_body_1 => b_span_end_llhttp__on_body_1
  | n_invoke_update_finish_2 => b_invoke_update_finish_2
  | n_error_10 => b_error_10
  | n_pause => b_pause
  | n_error_2 => b_error_2
  | n_invoke_llhttp__on_message_complete => b_invoke_llhttp__on_message_complete
  | n_invoke_or_flags_1 => b_invoke_or_flags_1
  | n_invoke_or_flags_2 => b_invoke_or_flags_2
  | n_invoke_update_upgrade => b_invoke_update_upgrade
  | n_pause_6 => b_pause_6
  | n_error_1 => b_error_1
  | n_invoke_llhttp__on_headers_complete => b_invoke_llhttp__on_headers_complete
  | n_invoke_llhttp__before_headers_complete => b_invoke_llhttp__before_headers_complete
  | n_invoke_test_lenient_flags => b_invoke_test_lenient_flags
  | n_invoke_test_flags_1 => b_invoke_test_flags_1
  | n_invoke_test_flags => b_invoke_test_flags
  | n_error_13 => b_error_13
  | n_span_end_llhttp__on_header_value => b_span_end_llhttp__on_header_value
  | n_invoke_update_header_state => b_invoke_update_header_state
  | n_invoke_or_flags_3 => b_invoke_or_flags_3
  | n_invoke_or_flags_4 => b_invoke_or_flags_4
  | n_invoke_or_flags_5 => b_invoke_or_flags_5
  | n_invoke_or_flags_6 => b_invoke_or_flags_6
  | n_invoke_load_header_state_1 => b_invoke_load_header_state_1
  | n_invoke_load_header_state => b_invoke_load_header_state
  | n_invoke_llhttp__on_header_value_complete => b_invoke_llhttp__on_header_value_complete
  | n_invoke_update_header_state_1 => b_invoke_update_header_state_1
  | n_invoke_or_flags_7 => b_invoke_or_flags_7
  | n_invoke_or_flags_8 => b_invoke_or_flags_8
  | n_invoke_or_flags_9 => b_invoke_or_flags_9
  | n_invoke_or_flags_10 => b_invoke_or_flags_10
  | n_invoke_load_header_state_3 => b_invoke_load_header_state_3
  | n_error_14 => b_error_14
  | n_span_end_llhttp__on_header_value_1 => b_span_end_llhttp__on_header_value_1
  | n_span_end_llhttp__on_header_value_2 => b_span_end_llhttp__on_header_value_2
  | n_span_end_llhttp__on_header_value_3 => b_span_end_llhttp__on_header_value_3
  | n_error_15 => b_error_15
  | n_invoke_test_lenient_flags_1 => b_invoke_test_lenient_flags_1
  | n_invoke_update_header_state_3 => b_invoke_update_header_state_3
  | n_invoke_or_flags_11 => b_invoke_or_flags_11
  | n_invoke_or_flags_12 => b_invoke_or_flags_12
  | n_invoke_or_flags_13 => b_invoke_or_flags_13
  | n_invoke_or_flags_14 => b_invoke_or_flags_14
  | n_invoke_load_header_state_4 => b_invoke_load_header_state_4
  | n_invoke_update_header_state_4 => b_invoke_update_header_state_4
  | n_invoke_update_header_state_2 => b_invoke_update_header_state_2
  | n_invoke_update_header_state_5 => b_invoke_update_header_state_5
  | n_invoke_update_header_state_6 => b_invoke_update_header_state_6
  | n_span_end_llhttp__on_header_value_4 => b_span_end_llhttp__on_header_value_4
  | n_invoke_mul_add_content_length_1 => b_invoke_mul_add_content_length_1
  | n_invoke_or_flags_15 => b_invoke_or_flags_15
  | n_span_end_llhttp__on_header_value_5 => b_span_end_llhttp__on_header_value_5
  | n_error_16 => b_error_16
  | n_invoke_test_flags_2 => b_invoke_test_flags_2
  | n_invoke_update_header_state_7 => b_invoke_update_header_state_7
  | n_invoke_update_header_state_8 => b_invoke_update_header_state_8
  | n_invoke_and_flags => b_invoke_and_flags
  | n_invoke_or_flags_16 => b_invoke_or_flags_16
  | n_invoke_or_flags_17 => b_invoke_or_flags_17
  | n_invoke_load_header_state_2 => b_invoke_load_header_state_2
  | n_span_end_llhttp__on_header_field => b_span_end_llhttp__on_header_field
  | n_span_end_llhttp__on_header_field_1 => b_span_end_llhttp__on_header_field_1
  | n_error_19 => b_error_19
  | n_invoke_update_header_state_9 => b_invoke_update_header_state_9
  | n_invoke_store_header_state => b_invoke_store_header_state
  | n_invoke_update_header_state_10 => b_invoke_update_header_state_10
  | n_invoke_llhttp__on_url_complete => b_invoke_llhttp__on_url_complete
  | n_invoke_update_http_minor => b_invoke_update_http_minor
  | n_invoke_update_http_major => b_invoke_update_http_major
  | n_span_end_llhttp__on_url_3 => b_span_end_llhttp__on_url_3
  | n_error_20 => b_error_20
  | n_span_end_llhttp__on_url_4 => b_span_end_llhttp__on_url_4
  | n_error_22 => b_error_22
  | n_invoke_store_http_minor => b_invoke_store_http_minor
  | n_error_23 => b_error_23
  | n_error_24 => b_error_24
  | n_invoke_store_http_major => b_invoke_store_http_major
  | n_error_25 => b_error_25
  | n_error_21 => b_error_21
  | n_invoke_load_method => b_invoke_load_method
  | n_error_28 => b_error_28
  | n_error_26 => b_error_26
  | n_invoke_load_method_1 => b_invoke_load_method_1
  | n_error_27 => b_error_27
  | n_invoke_load_method_2 => b_invoke_load_method_2
  | n_invoke_llhttp__on_url_complete_1 => b_invoke_llhttp__on_url_complete_1
  | n_span_end_llhttp__on_url_5 => b_span_end_llhttp__on_url_5
  | n_span_end_llhttp__on_url_6 => b_span_end_llhttp__on_url_6
  | n_span_end_llhttp__on_url_7 => b_span_end_llhttp__on_url_7
  | n_span_end_llhttp__on_url_8 => b_span_end_llhttp__on_url_8
  | n_error_29 => b_error_29
  | n_span_end_llhttp__on_url_9 => b_span_end_llhttp__on_url_9
  | n_span_end_llhttp__on_url_10 => b_span_end_llhttp__on_url_10
  | n_span_end_llhttp__on_url_11 => b_span_end_llhttp__on_url_11
  | n_error_30 => b_error_30
  | n_error_31 => b_error_31
  | n_span_end_llhttp__on_url => b_span_end_llhttp__on_url
  | n_span_end_llhttp__on_url_1 => b_span_end_llhttp__on_url_1
  | n_span_end_llhttp__on_url_2 => b_span_end_llhttp__on_url_2
  | n_span_end_llhttp__on_url_12 => b_span_end_llhttp__on_url_12
  | n_span_end_llhttp__on_url_13 => b_span_end_llhttp__on_url_13
  | n_span_end_llhttp__on_url_14 => b_span_end_llhttp__on_url_14
  | n_error_32 => b_error_32
  | n_error_33 => b_error_33
  | n_error_34 => b_error_34
  | n_error_36 => b_error_36
  | n_error_37 => b_error_37
  | n_error_38 => b_error_38
  | n_invoke_is_equal_method => b_invoke_is_equal_method
  | n_error_39 => b_error_39
  | n_invoke_store_method_1 => b_invoke_store_method_1
  | n_error_47 => b_error_47
  | n_error_40 => b_error_40
  | n_invoke_mul_add_status_code => b_invoke_mul_add_status_code
  | n_span_end_llhttp__on_status => b_span_end_llhttp__on_status
  | n_span_end_llhttp__on_status_1 => b_span_end_llhttp__on_status_1
  | n_error_41 => b_error_41
  | n_invoke_update_status_code => b_invoke_update_status_code
  | n_error_42 => b_error_42
  | n_invoke_store_http_minor_1 => b_invoke_store_http_minor_1
  | n_error_43 => b_error_43
  | n_error_44 => b_error_44
  | n_invoke_store_http_major_1 => b_invoke_store_http_major_1
  | n_error_45 => b_error_45
  | n_error_48 => b_error_48
  | n_invoke_update_type => b_invoke_update_type
  | n_invoke_store_method => b_invoke_store_method
  | n_error_46 => b_error_46
  | n_invoke_update_type_1 => b_invoke_update_type_1
  | n_invoke_update_type_2 => b_invoke_update_type_2
  | n_pause_8 => b_pause_8
  | n_error => b_error
  | n_invoke_llhttp__on_message_begin => b_invoke_llhttp__on_message_begin
  | n_invoke_update_finish => b_invoke_update_finish
  end.

(** [llhttp__internal__run], with fuel for the gotos. *)
Fixpoint run (fuel : nat) (d : list Z) (l : label) (p : nat) (m : Z) (s : llhttp_t U) :
    result (option label * llhttp_t U) :=
  match fuel with
  | O => OutOfFuel
  | S fuel =>
      match block_of l d p m s with
      | Goto l p m s => run fuel d l p m s
      | Ret l s => Done (Some l, s)
      | Err s => Done (None, s)
      | Llhttp.Fault => TcpSock.Fault
      end
  end.

(** [llhttp__internal_execute]; a state at [s_error] without an error is
    never resumed. *)
Definition llhttp__internal_execute (fuel : nat) (d : list Z) (s : llhttp_t U) :
    result (Z * llhttp_t U) :=
  if negb (error s =? 0) then Done (error s, s) else
  let s := match _span_pos0 s with None => s | Some _ => set_span_pos0 (Some 0%nat) s end in
  match _current s with
  | None => TcpSock.Fault
  | Some l =>
      match run fuel d l 0 0 s with
      | Done (None, s) => Done (error s, s)
      | Done (Some next, s) =>
          let s := set_current (Some next) s in
          match _span_pos0 s with
          | None => Done (0, s)
          | Some start =>
              match _span_cb0 s with
              | None => TcpSock.Fault
              | Some c =>
                  let '(err, s) := call_span settings c (drop start d) s in
                  if negb (err =? 0)
                  then Done (err, set_error_pos (Some (length d)) (set_error err s))
                  else Done (0, s)
              end
          end
      | OutOfFuel => OutOfFuel
      | TcpSock.Fault => TcpSock.Fault
      end
  end.

(** ** api.c *)

Definition llhttp_init (type_ : Z) (u : U) : llhttp_t U :=
  mk 0 None None 0 None None u (Some n_start) (mkpub 0 type_ 0 0 0 0 0 0 0 0 0).
Definition llhttp_execute : nat -> list Z -> llhttp_t U -> result (Z * llhttp_t U) :=
  llhttp__internal_execute.

Definition llhttp_finish (s : llhttp_t U) : option (Z * llhttp_t U) :=
  if negb (error s =? 0) then Some (0, s) else
  if finish (fields s) =? HTTP_FINISH_SAFE_WITH_CB then
    let '(err, s) := llhttp__on_message_complete settings s in Some (err, s)
  else if finish (fields s) =? HTTP_FINISH_SAFE then Some (HPE_OK, s)
  else if finish (fields s) =? HTTP_FINISH_UNSAFE
       then Some (HPE_INVALID_EOF_STATE, set_reason (Some "Invalid EOF state"%string) s)
  else None.

Definition llhttp_pause (s : llhttp_t U) : llhttp_t U :=
  if negb (error s =? HPE_OK) then s
  else set_reason (Some "Paused"%string) (set_error HPE_PAUSED s).
Definition llhttp_resume (s : llhttp_t U) : llhttp_t U :=
  if negb (error s =? HPE_PAUSED) then s else set_error 0 s.
Definition llhttp_resume_after_upgrade (s : llhttp_t U) : llhttp_t U :=
  if negb (error s =? HPE_PAUSED_UPGRADE) then s else set_error 0 s.
Definition llhttp_set_lenient_headers (enabled : bool) (s : llhttp_t U) : llhttp_t U :=
  let f := lenient_flags (fields s) in
  set_fields (set_lenient_flags (if enabled then Z.lor f LENIENT_HEADERS
                                 else u8 (Z.land f (Z.lnot LENIENT_HEADERS))) (fields s)) s.
Definition llhttp_set_lenient_chunked_length (enabled : bool) (s : llhttp_t U) : llhttp_t U :=
  let f := lenient_flags (fields s) in
  set_fields (set_lenient_flags (if enabled then Z.lor f LENIENT_CHUNKED_LENGTH
                                 else u8 (Z.land f (Z.lnot LENIENT_CHUNKED_LENGTH))) (fields s)) s.

End Blocks.
End LlhttpRun.
