(* ===== verification/LlhttpProps.v ===== *)
(** * LlhttpProps: the HTTP parser

    The machine of LlhttpRun never faults and always stops, whatever the
    bytes and the callbacks, and gives the same result however a stream is cut
    into buffers.  Every block is one of the forms of Llhttp; the theorems
    are proved for the forms, and the side conditions on the labels are
    decided by evaluation over the tables below. *)
From S2P Require Import Prelude TcpSock Llhttp LlhttpRun.

Module LlhttpProps.
Import Llhttp LlhttpRun.

(** The span that is open in a state. *)
Definition span_of (l : label) : option span :=
  match l with
  | n_consume_content_length | n_consume_content_length_1 | n_eof | n_span_end_llhttp__on_body
  | n_span_end_llhttp__on_body_1 => Some span_on_body
  | n_header_field_general_otherwise | n_header_field_general | n_header_field_colon
  | n_header_field_3 | n_header_field_4 | n_header_field_2 | n_header_field_1 | n_header_field_5
  | n_header_field_6 | n_header_field_7 | n_header_field | n_span_end_llhttp__on_header_field
  | n_span_end_llhttp__on_header_field_1 | n_error_19 | n_invoke_update_header_state_9
  | n_invoke_store_header_state | n_invoke_update_header_state_10 => Some span_on_header_field
  | n_header_value_lenient | n_header_value_otherwise | n_header_value_connection_token
  | n_header_value_connection_ws | n_header_value_connection_1 | n_header_value_connection_2
  | n_header_value_connection_3 | n_header_value_connection | n_header_value_content_length_ws
  | n_header_value_content_length | n_header_value_te_chunked_last | n_header_value_te_token_ows
  | n_header_value | n_header_value_te_token | n_header_value_te_chunked
  | n_span_end_llhttp__on_header_value | n_span_end_llhttp__on_header_value_1
  | n_span_end_llhttp__on_header_value_2 | n_span_end_llhttp__on_header_value_3 | n_error_15
  | n_invoke_test_lenient_flags_1 | n_invoke_update_header_state_3 | n_invoke_or_flags_11
  | n_invoke_or_flags_12 | n_invoke_or_flags_13 | n_invoke_or_flags_14
  | n_invoke_load_header_state_4 | n_invoke_update_header_state_4
  | n_invoke_update_header_state_2 | n_invoke_update_header_state_5
  | n_invoke_update_header_state_6 | n_span_end_llhttp__on_header_value_4
  | n_invoke_mul_add_content_length_1 | n_invoke_or_flags_15
  | n_span_end_llhttp__on_header_value_5 | n_error_16 | n_invoke_test_flags_2
  | n_invoke_update_header_state_7 | n_invoke_update_header_state_8 | n_invoke_and_flags
  | n_invoke_or_flags_16 | n_invoke_or_flags_17 | n_invoke_load_header_state_2 => Some span_on_header_value
  | n_res_status | n_span_end_llhttp__on_status | n_span_end_llhttp__on_status_1 => Some span_on_status
  | n_url_fragment | n_span_end_stub_query_3 | n_url_query | n_url_query_or_fragment | n_url_path
  | n_span_start_stub_path_2 | n_span_start_stub_path | n_span_start_stub_path_1
  | n_url_server_with_at | n_url_server | n_url_schema_delim_1 | n_url_schema_delim
  | n_span_end_stub_schema | n_url_schema | n_url_start | n_error_35
  | n_span_end_llhttp__on_url_3 | n_span_end_llhttp__on_url_4 | n_span_end_llhttp__on_url_5
  | n_span_end_llhttp__on_url_6 | n_span_end_llhttp__on_url_7 | n_span_end_llhttp__on_url_8
  | n_error_29 | n_span_end_llhttp__on_url_9 | n_span_end_llhttp__on_url_10
  | n_span_end_llhttp__on_url_11 | n_error_30 | n_error_31 | n_span_end_llhttp__on_url
  | n_span_end_llhttp__on_url_1 | n_span_end_llhttp__on_url_2 | n_span_end_llhttp__on_url_12
  | n_span_end_llhttp__on_url_13 | n_span_end_llhttp__on_url_14 | n_error_32 | n_error_33
  | n_error_34 | n_error_36 | n_error_37 | n_error_38 => Some span_on_url
  | _ => None
  end.

(** The literal a state is inside of: its length, 1 for the other states. *)
Definition blob_len (l : label) : nat :=
  match l with
  | n_header_field_4 => 10%nat
  | n_header_field_5 => 15%nat
  | n_header_field_6 => 16%nat
  | n_header_field_1 | n_url_skip_lf_to_http09 | n_start_req_15 | n_start_req_20 | n_start_req_21
  | n_start_req_30 | n_start_req_35 | n_start_req_36 | n_start_req_37 | n_start_req_38
  | n_start_req_45 | n_start_req_67 | n_start_req_68 | n_req_or_res_method_2 => 2%nat
  | n_req_http_start_2 | n_start_req_4 | n_start_req_12 | n_start_req_18 | n_start_req_24
  | n_start_req_42 | n_start_req_48 | n_start_req_49 | n_start_req_51 | n_start_req_54
  | n_start_req_62 | n_start_req_65 | n_req_or_res_method_3 => 3%nat
  | n_header_value_connection_1 | n_req_http_start_1 | n_req_http_start_3 | n_start_req_8
  | n_start_req_14 | n_start_req_43 | n_start_req_58 => 4%nat
  | n_start_req_13 | n_start_req_31 | n_start_req_50 | n_start_res => 5%nat
  | n_header_value_connection_3 | n_header_field_3 | n_header_field_7 | n_start_req_3
  | n_start_req_6 | n_start_req_23 | n_start_req_28 | n_start_req_32 | n_start_req_61 => 6%nat
  | n_header_value_te_chunked | n_start_req_26 | n_start_req_59 => 7%nat
  | n_start_req_69 => 8%nat
  | n_header_value_connection_2 | n_start_req_17 | n_start_req_57 => 9%nat
  | _ => 1%nat
  end.

(** The blocks that read [match]. *)
Definition reads_match (l : label) : bool :=
  match l with
  | n_invoke_mul_add_content_length | n_invoke_mul_add_content_length_1
  | n_invoke_store_header_state | n_invoke_store_http_minor | n_invoke_store_http_major
  | n_invoke_store_method_1 | n_invoke_mul_add_status_code | n_invoke_store_http_minor_1
  | n_invoke_store_http_major_1 | n_invoke_store_method => true
  | _ => false
  end.

(** A measure that falls along every [goto] that takes no byte. *)
Definition rank (l : label) : nat :=
  match l with
  | n_chunk_size_otherwise | n_chunk_size_digit | n_span_start_llhttp__on_body_2
  | n_header_value_almost_done | n_header_field_general_otherwise | n_url_skip_lf_to_http09
  | n_req_http_end_1 | n_req_http_end | n_req_http_minor | n_req_http_dot | n_req_http_major
  | n_req_http_start_1 | n_req_http_start_2 | n_req_http_start_3 | n_req_http_start
  | n_url_schema_delim_1 | n_url_schema_delim | n_url_schema | n_req_first_space_before_url
  | n_start_req_2 | n_start_req_3 | n_start_req_1 | n_start_req_4 | n_start_req_6 | n_start_req_8
  | n_start_req_9 | n_start_req_7 | n_start_req_5 | n_start_req_12 | n_start_req_13
  | n_start_req_11 | n_start_req_10 | n_start_req_14 | n_start_req_17 | n_start_req_15
  | n_start_req_18 | n_start_req_20 | n_start_req_21 | n_start_req_19 | n_start_req_23
  | n_start_req_24 | n_start_req_26 | n_start_req_28 | n_start_req_29 | n_start_req_27
  | n_start_req_25 | n_start_req_30 | n_start_req_22 | n_start_req_31 | n_start_req_32
  | n_start_req_35 | n_start_req_36 | n_start_req_34 | n_start_req_37 | n_start_req_38
  | n_start_req_42 | n_start_req_43 | n_start_req_41 | n_start_req_40 | n_start_req_39
  | n_start_req_45 | n_start_req_44 | n_start_req_33 | n_start_req_48 | n_start_req_49
  | n_start_req_50 | n_start_req_51 | n_start_req_47 | n_start_req_46 | n_start_req_54
  | n_start_req_56 | n_start_req_57 | n_start_req_55 | n_start_req_53 | n_start_req_58
  | n_start_req_59 | n_start_req_52 | n_start_req_61 | n_start_req_62 | n_start_req_60
  | n_start_req_65 | n_start_req_67 | n_start_req_68 | n_start_req_66 | n_start_req_69
  | n_start_req_64 | n_start_req_63 | n_start_req | n_res_status | n_res_http_end
  | n_res_http_minor | n_res_http_dot | n_res_http_major | n_start_res | n_req_or_res_method_2
  | n_req_or_res_method_3 | n_req_or_res_method_1 | n_req_or_res_method
  | n_invoke_llhttp__on_message_complete_1 | n_span_end_llhttp__on_body
  | n_span_end_llhttp__on_header_value_4 | n_span_end_llhttp__on_header_value_5
  | n_span_end_llhttp__on_url_3 | n_span_end_llhttp__on_url_5 | n_span_end_llhttp__on_url_6
  | n_span_end_llhttp__on_url_8 | n_span_end_llhttp__on_url_9 | n_span_end_llhttp__on_url_11
  | n_span_end_llhttp__on_url | n_span_end_llhttp__on_url_2 | n_span_end_llhttp__on_url_12
  | n_span_end_llhttp__on_url_14 => 1%nat
  | n_invoke_is_equal_upgrade | n_header_value_te_chunked_last | n_header_value_te_token_ows
  | n_invoke_llhttp__on_message_complete | n_invoke_or_flags_3 | n_invoke_or_flags_4
  | n_invoke_or_flags_5 | n_invoke_load_header_state_3 | n_invoke_load_header_state_4
  | n_invoke_and_flags => 10%nat
  | n_invoke_llhttp__on_message_complete_2 | n_invoke_load_header_state_1 | n_invoke_or_flags_16 => 11%nat
  | n_invoke_llhttp__on_chunk_complete_1 | n_span_end_llhttp__on_body_1
  | n_invoke_load_header_state | n_invoke_load_header_state_2 => 12%nat
  | n_consume_content_length_1 | n_header_value_discard_lws
  | n_span_start_llhttp__on_header_value_1 => 13%nat
  | n_span_start_llhttp__on_body_1 | n_header_value_lws | n_header_value_discard_ws => 14%nat
  | n_invoke_llhttp__after_headers_complete | n_invoke_llhttp__on_header_field_complete => 15%nat
  | n_invoke_or_flags_1 | n_invoke_or_flags_2 => 16%nat
  | n_invoke_update_upgrade => 17%nat
  | n_invoke_llhttp__on_headers_complete => 18%nat
  | n_invoke_llhttp__before_headers_complete => 19%nat
  | n_consume_content_length | n_chunk_size | n_invoke_update_content_length
  | n_header_field_general | n_url_start | n_span_start_llhttp__on_status
  | n_invoke_update_finish_2 | n_span_end_llhttp__on_header_value_1 | n_span_end_llhttp__on_url_4
  | n_invoke_store_http_minor | n_invoke_store_http_major | n_invoke_load_method
  | n_invoke_load_method_1 | n_invoke_load_method_2 | n_invoke_llhttp__on_url_complete_1
  | n_span_end_llhttp__on_url_7 | n_span_end_llhttp__on_url_10 | n_span_end_llhttp__on_url_1
  | n_span_end_llhttp__on_url_13 | n_invoke_store_method_1 | n_invoke_store_http_minor_1
  | n_invoke_store_http_major_1 | n_invoke_update_type | n_invoke_update_type_1
  | n_invoke_update_type_2 => 2%nat
  | n_invoke_test_lenient_flags => 20%nat
  | n_invoke_test_flags_1 => 21%nat
  | n_invoke_test_flags => 22%nat
  | n_span_start_llhttp__on_body | n_header_value_lenient | n_url_fragment | n_url_query
  | n_url_query_or_fragment | n_url_server_with_at | n_url_server | n_span_start_llhttp__on_url_1
  | n_start_req_16 | n_res_status_start | n_start_req_or_res | n_invoke_llhttp__on_chunk_complete
  | n_invoke_mul_add_content_length | n_invoke_update_header_state_9
  | n_invoke_update_header_state_10 | n_invoke_store_method => 3%nat
  | n_header_field_colon | n_header_field_3 | n_header_field_4 | n_header_field_2
  | n_header_field_1 | n_header_field_5 | n_header_field_6 | n_header_field_7 | n_header_field
  | n_url_path | n_span_start_llhttp__on_url | n_res_status_code_otherwise | n_invoke_load_type
  | n_invoke_test_lenient_flags_1 => 4%nat
  | n_header_value_otherwise | n_span_start_llhttp__on_header_field | n_res_status_code
  | n_invoke_store_header_state | n_invoke_is_equal_method | n_invoke_llhttp__on_message_begin => 5%nat
  | n_header_value_connection_token | n_header_value | n_header_field_start
  | n_req_spaces_before_url | n_invoke_or_flags_15 | n_invoke_update_header_state_7
  | n_invoke_mul_add_status_code | n_invoke_update_status_code | n_invoke_update_finish => 6%nat
  | n_header_value_connection_1 | n_header_value_connection_2 | n_header_value_connection_3
  | n_header_value_connection | n_header_value_content_length_ws
  | n_invoke_llhttp__on_status_complete | n_start | n_invoke_or_flags
  | n_span_end_llhttp__on_header_value | n_invoke_llhttp__on_header_value_complete
  | n_invoke_update_header_state_4 | n_invoke_update_header_state_8
  | n_invoke_llhttp__on_url_complete => 7%nat
  | n_invoke_is_equal_content_length | n_span_start_llhttp__on_header_value
  | n_header_value_connection_ws | n_header_value_content_length | n_header_value_te_token
  | n_invoke_update_finish_1 | n_invoke_update_header_state_1 | n_invoke_or_flags_10
  | n_invoke_update_header_state_3 | n_invoke_or_flags_14 | n_invoke_or_flags_17
  | n_invoke_update_http_minor => 8%nat
  | n_invoke_llhttp__after_message_complete | n_header_value_te_chunked
  | n_invoke_llhttp__on_chunk_header | n_invoke_update_header_state | n_invoke_or_flags_6
  | n_invoke_or_flags_7 | n_invoke_or_flags_8 | n_invoke_or_flags_9 | n_invoke_or_flags_11
  | n_invoke_or_flags_12 | n_invoke_or_flags_13 | n_invoke_update_header_state_2
  | n_invoke_update_header_state_5 | n_invoke_update_header_state_6
  | n_invoke_mul_add_content_length_1 | n_invoke_test_flags_2 | n_invoke_update_http_major => 9%nat
  | _ => 0%nat
  end.

(** The blocks that take a byte without a test: they are entered at one. *)
Definition needs_byte (l : label) : bool :=
  match l with
  | n_span_end_llhttp__on_header_value_2 | n_span_end_llhttp__on_header_value_3
  | n_span_end_llhttp__on_header_field | n_span_end_llhttp__on_header_field_1
  | n_span_end_llhttp__on_status | n_span_end_llhttp__on_status_1 => true
  | _ => false
  end.

(** ** What a block may do *)

Definition span_eqb (a b : option span) : bool :=
  match a, b with
  | None, None => true
  | Some span_on_url, Some span_on_url | Some span_on_status, Some span_on_status
  | Some span_on_header_field, Some span_on_header_field
  | Some span_on_header_value, Some span_on_header_value
  | Some span_on_body, Some span_on_body => true
  | _, _ => false
  end.

Lemma span_eqb_eq a b : span_eqb a b = true -> a = b.
Proof. by destruct a as [[]|], b as [[]|]. Qed.

Ltac span_eqs :=
  repeat match goal with H : span_eqb _ _ = true |- _ => apply span_eqb_eq in H end.
Ltac span_rw :=
  match goal with H : span_of ?l = _ |- context [span_of ?l] => rewrite H end.

(** A [goto] from [l] to [l'] without taking a byte, when [t] is the span open
    afterwards; one that takes a byte. *)
Definition stays (l : label) (t : option span) (l' : label) : bool :=
  (rank l' <? rank l)%nat && span_eqb (span_of l') t.
Definition branch_ok (l : label) (t : option span) (b : branch) : bool :=
  match b with
  | adv l' => span_eqb (span_of l') t && negb (reads_match l') && negb (needs_byte l')
  | adv_m _ l' => span_eqb (span_of l') t && negb (needs_byte l')
  | stay l' => stays l t l' && negb (reads_match l')
  | stay_m _ l' => stays l t l'
  end.
Definition branches_ok (l : label) (bs : list branch) : bool :=
  forallb (branch_ok l (span_of l)) bs && (blob_len l =? 1)%nat && negb (needs_byte l).
Definition stays_all (l : label) (ls : list label) : bool :=
  forallb (fun l' => stays l (span_of l) l' && negb (reads_match l') && negb (needs_byte l')) ls &&
  (blob_len l =? 1)%nat && negb (needs_byte l).

Lemma blob_len_pos l : (0 < blob_len l)%nat.
Proof. destruct l; simpl; lia. Qed.

(** The fields hold values of their types where the code relies on it. *)
Definition pub_ok (pb : pub) : Prop :=
  in_u 64 (content_length pb) /\ in_u 16 (status_code pb) /\ 0 <= finish pb <= 2.

Section Machine.
Context {U : Type} (settings : llhttp_settings_t U).

(** The open span, seen from position [p]. *)
Definition span_ok (t : option span) (p : nat) (s : llhttp_t U) : Prop :=
  match t with
  | None => _span_pos0 s = None
  | Some c => _span_cb0 s = Some c /\ exists x, _span_pos0 s = Some x /\ (x <= p)%nat
  end.

Definition wf (l : label) (p : nat) (s : llhttp_t U) : Prop :=
  span_ok (span_of l) p s /\ (_index s < blob_len l)%nat /\ pub_ok (fields s).

(** What a call of the parser can start from: a state that was returned, with
    its span, whatever the offset; or an error without a way back. *)
Definition resumable (l : label) (s : llhttp_t U) : Prop :=
  needs_byte l = false /\ (_index s < blob_len l)%nat /\ pub_ok (fields s) /\
  match span_of l with
  | None => _span_pos0 s = None
  | Some c => _span_cb0 s = Some c /\ _span_pos0 s <> None
  end.
Definition ready (s : llhttp_t U) : Prop :=
  match _current s with
  | None => error s <> 0 /\ error s <> HPE_PAUSED /\ error s <> HPE_PAUSED_UPGRADE
  | Some l => resumable l s
  end.

Definition at_byte (l : label) (d : list Z) (p : nat) : Prop :=
  needs_byte l = true -> (p < length d)%nat.

Definition good (l : label) (d : list Z) (p : nat) (s : llhttp_t U) (o : outcome U) : Prop :=
  match o with
  | Goto l' p' _ s' =>
      (p <= p' <= length d)%nat /\ ((p < p')%nat \/ (rank l' < rank l)%nat) /\
      at_byte l' d p' /\ wf l' p' s' /\ error s' = error s
  | Ret l' s' => l' = l /\ needs_byte l = false /\ wf l (length d) s' /\ error s' = error s
  | Err s' => error s' <> 0 /\ error_pos s' <> None /\ ready s'
  | Fault => False
  end.

Definition block_good (l : label) (B : block U) : Prop :=
  forall d p m s, (p <= length d)%nat -> at_byte l d p -> wf l p s -> good l d p s (B d p m s).

Lemma span_ok_le t p p' s : span_ok t p s -> (p <= p')%nat -> span_ok t p' s.
Proof.
  destruct t as [c|]; [|done]. intros (Hc & x & Hx & Hle) Hp. split; [done|].
  exists x. split; [done|lia].
Qed.

(** Taking a branch. *)
Lemma take_branch_good l t b d p p' m s0 s :
  branch_ok l t b = true -> (p <= p' < length d)%nat ->
  span_ok t p' s -> _index s = 0%nat -> pub_ok (fields s) -> error s = error s0 ->
  good l d p s0 (take_branch b p' m s).
Proof.
  intros Hb Hp Hs Hi Hpub He.
  assert (Hwf : forall l' q, span_eqb (span_of l') t = true -> (p' <= q)%nat -> wf l' q s).
  { intros l' q E%span_eqb_eq Hq. pose proof (blob_len_pos l'). unfold wf. rewrite E, Hi.
    split_and!; [by eapply span_ok_le|lia|done]. }
  destruct b as [l'|m' l'|l'|m' l']; cbn [branch_ok take_branch good] in *; unfold stays in *;
    bool_arith; (split_and!; [lia|lia|first [left; lia|right; done]|
      unfold at_byte; (congruence || lia)|apply Hwf; [done|lia]|done]).
Qed.

Lemma lookup_case_in {A} c (cases : list (Z * A)) default :
  In (lookup_case c cases default) (default :: map snd cases).
Proof.
  induction cases as [|[k a] cases IH]; simpl; [by left|].
  destruct (c =? k); [by right; left|]. destruct IH as [?|?]; [by left|by right; right].
Qed.

Lemma lookup_case_forallb {A} (f : A -> bool) c cases default :
  forallb f (default :: map snd cases) = true -> f (lookup_case c cases default) = true.
Proof. intros H. rewrite forallb_forall in H. apply H, lookup_case_in. Qed.

Lemma wf_index_0 l p s : blob_len l = 1%nat -> wf l p s -> _index s = 0%nat.
Proof. intros Hl (_ & Hi & _). lia. Qed.

Lemma switch_good conv l cases default :
  branches_ok l (default :: map snd cases) = true ->
  block_good l (switch_conv conv l cases default).
Proof.
  intros [[Hb Hl%Nat.eqb_eq]%andb_true_iff Hnb%negb_true_iff]%andb_true_iff d p m s Hp _ Hwf. unfold switch_conv.
  destruct (d !! p) as [c|] eqn:Hc.
  - apply lookup_lt_Some in Hc. destruct Hwf as (Hs & Hi & Hpub).
    apply (take_branch_good l (span_of l)); [by apply lookup_case_forallb|lia|done|lia|done|done].
  - apply lookup_ge_None in Hc. split_and!; [done|done| |done]. by replace (length d) with p by lia.
Qed.

Lemma next_good l l' : branches_ok l [adv l'] = true -> block_good l (next l l').
Proof. intros. by apply (switch_good id l [] (adv l')). Qed.

(** The literals. *)
Lemma match_loop_spec conv seq r : forall index n,
  (index < length seq)%nat ->
  exists st k i, match_loop conv seq r index n = Some (st, (n + k)%nat, i) /\
    match st with
    | kMatchPause => k = length r /\ (i < length seq)%nat
    | _ => (k < length r)%nat /\ i = 0%nat
    end.
Proof.
  induction r as [|c r IH]; intros index n Hi; cbn [match_loop length].
  - exists kMatchPause, 0%nat, index. rewrite Nat.add_0_r. auto.
  - destruct (lookup_lt_is_Some_2 seq index Hi) as [x Hx]. rewrite Hx. cbn [mbind option_bind].
    destruct (conv c =? x).
    + destruct (Nat.eqb_spec (S index) (length seq)) as [E|E].
      * exists kMatchComplete, 0%nat, 0%nat. rewrite Nat.add_0_r. split; [done|lia].
      * destruct (IH (S index) (S n)) as (st & k & i & Hm & Hst); [lia|].
        exists st, (S k), i. rewrite Hm. split; [do 3 f_equal; lia|].
        destruct st; [split; [lia|apply Hst]|split; [lia|apply Hst]|split; [lia|apply Hst]].
    + exists kMatchMismatch, 0%nat, 0%nat. rewrite Nat.add_0_r. split; [done|lia].
Qed.

(** The three loops, as one. *)
Definition kind_of (conv : Z -> Z) (seq r : list Z) (index : nat) := match_loop conv seq r index 0.

Lemma match_good conv l seq complete mismatch :
  forallb (branch_ok l (span_of l)) [complete; mismatch] && (blob_len l =? length seq)%nat &&
    negb (needs_byte l) = true ->
  block_good l (match_sequence (kind_of conv) l seq complete mismatch).
Proof.
  intros [[Hb Hl%Nat.eqb_eq]%andb_true_iff Hnb%negb_true_iff]%andb_true_iff d p m s Hp _ Hwf. unfold match_sequence.
  destruct (d !! p) as [c|] eqn:Hc; cycle 1.
  { apply lookup_ge_None in Hc. split_and!; [done|done| |done]. by replace (length d) with p by lia. }
  apply lookup_lt_Some in Hc. destruct Hwf as (Hs & Hi & Hpub). unfold kind_of.
  destruct (match_loop_spec conv seq (drop p d) (_index s) 0) as (st & k & i & -> & Hst);
    [lia|]. rewrite length_drop in Hst. cbn [forallb] in Hb. bool_arith.
  destruct st.
  - destruct Hst as [Hk ->]. apply (take_branch_good l (span_of l)); [done|lia| |done|done|done].
    by apply (span_ok_le _ p); [|lia].
  - destruct Hst as [Hk Hi']. split_and!; [done|done| |done]. split_and!; [|by rewrite Hl|done].
    by apply (span_ok_le _ p).
  - destruct Hst as [Hk ->]. apply (take_branch_good l (span_of l)); [done|lia| |done|done|done].
    by apply (span_ok_le _ p); [|lia].
Qed.

Lemma span_start_good l c l' :
  stays l (Some c) l' && negb (reads_match l') && span_eqb (span_of l) None && (blob_len l =? 1)%nat &&
    negb (needs_byte l) = true ->
  block_good l (span_start l c l').
Proof.
  intros H d p m s Hp _ Hwf. unfold stays in H. bool_arith. unfold span_start.
  destruct (d !! p) as [x|] eqn:Hc; cycle 1.
  { apply lookup_ge_None in Hc. split_and!; [done|done| |done]. by replace (length d) with p by lia. }
  apply lookup_lt_Some in Hc. destruct Hwf as (Hs & Hi & Hpub). pose proof (blob_len_pos l').
  span_eqs. cbn [good]. split_and!; [lia|done|by right|unfold at_byte; (congruence || lia)| |done].
  split_and!; cbn [_index fields set_span_cb0 set_span_pos0]; [|lia|done].
  span_rw. split; [done|]. by exists p.
Qed.

Lemma invoke_good f l cases default :
  stays_all l (default :: map snd cases) = true ->
  (forall pb, pub_ok pb -> pub_ok (snd (f pb))) ->
  block_good l (invoke f cases default).
Proof.
  intros [[Hb Hl%Nat.eqb_eq]%andb_true_iff Hnb%negb_true_iff]%andb_true_iff Hf d p m s Hp _ (Hs & Hi & Hpub). unfold invoke.
  specialize (Hf _ Hpub). destruct (f (fields s)) as [r pb]; cbn [snd] in Hf.
  pose proof (lookup_case_forallb _ r cases default Hb) as Ht. unfold stays in Ht. bool_arith.
  pose proof (blob_len_pos (lookup_case r cases default)). span_eqs.
  cbn [good]. split_and!; [lia|done|by right|unfold at_byte; (congruence || lia)| |done].
  split_and!; cbn [_index fields set_fields]; [|lia|done]. span_rw. exact Hs.
Qed.

Lemma invoke_match_good f l cases default :
  stays_all l (default :: map snd cases) = true ->
  (forall m pb, pub_ok pb -> pub_ok (snd (f m pb))) ->
  block_good l (invoke_match f cases default).
Proof.
  intros Hl Hf d p m s Hp Hb Hwf. apply (invoke_good (f m)); auto.
Qed.

Lemma callback_data cb (s : llhttp_t U) :
  exists err u, callback_maybe cb s = (err, set_data u s).
Proof.
  unfold callback_maybe. destruct cb as [cb|]; [|exists 0, (data s); by destruct s].
  destruct (cb (fields s) (data s)) as [err u]. eauto.
Qed.

Lemma invoke_cb_good cb l cases default :
  stays_all l (default :: map snd cases) = true ->
  block_good l (invoke_cb (callback_maybe cb) cases default).
Proof.
  intros [[Hb Hl%Nat.eqb_eq]%andb_true_iff Hnb%negb_true_iff]%andb_true_iff d p m s Hp _ (Hs & Hi & Hpub). unfold invoke_cb.
  destruct (callback_data cb s) as (r & u & ->).
  pose proof (lookup_case_forallb _ r cases default Hb) as Ht. unfold stays in Ht. bool_arith.
  pose proof (blob_len_pos (lookup_case r cases default)). span_eqs.
  cbn [good]. split_and!; [lia|done|by right|unfold at_byte; (congruence || lia)| |done].
  split_and!; cbn [_index fields set_data]; [|lia|done]. span_rw. exact Hs.
Qed.

Lemma call_span_data c d (s : llhttp_t U) :
  exists err u, call_span settings c d s = (err, set_data u s).
Proof.
  assert (H : forall cb, exists err u, data_callback_maybe cb d s = (err, set_data u s)).
  { intros cb. unfold data_callback_maybe.
    destruct cb as [cb|]; [|exists 0, (data s); by destruct s].
    destruct (cb (fields s) (data s) d) as [err u]. eauto. }
  destruct c; apply H.
Qed.

Definition end_ok (l : label) (c : span) (b : branch) : bool :=
  span_eqb (span_of l) (Some c) && (blob_len l =? 1)%nat &&
  match b with
  | adv l' => span_eqb (span_of l') None && negb (reads_match l') && negb (needs_byte l') &&
              needs_byte l
  | stay l' => stays l None l' && negb (reads_match l') && negb (needs_byte l')
  | _ => false
  end.

Lemma span_end_good l c b :
  end_ok l c b = true -> block_good l (span_end settings c b).
Proof.
  intros H d p m s Hp Hb (Hs & Hi & Hpub). unfold end_ok in H. bool_arith.
  apply span_eqb_eq in H. rewrite H in Hs. destruct Hs as (_ & x & Hx & Hxp).
  unfold span_end. rewrite Hx.
  destruct (call_span_data c (take (p - x) (drop x d)) (set_span_pos0 None s)) as (err & u & ->).
  assert (Hwf : forall l' q, span_eqb (span_of l') None = true ->
            wf l' q (set_data u (set_span_pos0 None s))).
  { intros l' q E%span_eqb_eq. pose proof (blob_len_pos l'). unfold wf. rewrite E.
    cbn [_index fields set_data set_span_pos0]. split_and!; [done|lia|done]. }
  destruct (Z.eqb_spec err 0) as [E|E]; cbn [negb].
  - destruct b as [l'| |l'|]; try done; unfold stays in *; bool_arith; cbn [take_branch good].
    + assert (p < length d)%nat by (by apply Hb). split_and!; [lia|lia|left; lia|unfold at_byte; congruence|by apply Hwf|done].
    + split_and!; [lia|done|by right|unfold at_byte; congruence|by apply Hwf|done].
  - cbn [good]. unfold ready. cbn [error error_pos set_current set_error_pos set_error _current].
    split; [done|]. split; [done|].
    destruct b as [l'| |l'|]; try done; unfold stays in *; bool_arith;
      (destruct (Hwf l' 0%nat) as (H' & Hi' & Hpub'); [done|]; span_eqs;
       unfold resumable; span_rw; split_and!; done).
Qed.

Lemma fail_good l code why :
  negb (code =? 0) && negb (code =? HPE_PAUSED) && negb (code =? HPE_PAUSED_UPGRADE) = true ->
  block_good l (fail code why).
Proof.
  intros H d p m s Hp _ _. bool_arith. unfold fail. cbn [good]. unfold ready.
  cbn [error error_pos set_current set_error_pos set_error set_reason _current]. auto.
Qed.

Lemma pause_good l code why l' :
  negb (code =? 0) && span_eqb (span_of l') None && span_eqb (span_of l) None &&
    negb (needs_byte l') && (blob_len l =? 1)%nat = true ->
  block_good l (pause code why l').
Proof.
  intros H d p m s Hp _ (Hs & Hi & Hpub). bool_arith. unfold pause. cbn [good]. unfold ready.
  cbn [error error_pos set_current set_error_pos set_error set_reason _current].
  split; [done|]. split; [done|]. span_eqs. match goal with H : span_of l = None |- _ => rewrite H in Hs end.
  pose proof (blob_len_pos l'). unfold resumable. span_rw. split_and!; [done| |exact Hpub|exact Hs].
  cbn [_index set_current set_error_pos set_error set_reason]. lia.
Qed.

Lemma consume_good l l' :
  stays_all l [l'] = true -> block_good l (consume_content_length l l').
Proof.
  intros [[Hb Hl%Nat.eqb_eq]%andb_true_iff Hnb%negb_true_iff]%andb_true_iff d p m s Hp _ (Hs & Hi & Hcl & Hst & Hfin).
  cbn [forallb] in Hb. unfold stays in Hb. bool_arith. unfold consume_content_length.
  pose proof (blob_len_pos l').
  assert (0 <= content_length (fields s) < 2 ^ 64) by exact Hcl.
  destruct (Z.leb_spec (content_length (fields s)) (Z.of_nat (length d - p))) as [L|L]; cbn [good].
  - split_and!; [lia|lia|by right|unfold at_byte; congruence| |done].
    span_eqs. unfold wf, pub_ok. span_rw.
    cbn [_index fields set_fields set_content_length content_length status_code finish].
    unfold in_u in *. split_and!; [by apply (span_ok_le _ p); [|lia]|lia..].
  - split_and!; [done|done| |done]. unfold wf, pub_ok. rewrite Hl.
    cbn [_index fields set_fields set_content_length content_length status_code finish].
    unfold in_u in *. split_and!; [by apply (span_ok_le _ p); [|lia]|lia..].
Qed.

(** The functions on the fields. *)
Ltac pub_solve :=
  intros; unfold pub_ok, in_u in *; cbn in *; lia.

Lemma after_message_complete_ok pb : pub_ok pb -> pub_ok (snd (llhttp__after_message_complete pb)).
Proof. unfold pub_ok, in_u, HTTP_FINISH_SAFE; cbn. unfold HTTP_FINISH_SAFE. lia. Qed.

Lemma before_headers_complete_ok pb :
  pub_ok pb -> pub_ok (snd (llhttp__before_headers_complete pb)).
Proof. unfold llhttp__before_headers_complete. by destruct (_ && _). Qed.

Lemma mul_add_content_length_ok m pb :
  pub_ok pb -> pub_ok (snd (c_mul_add_content_length m pb)).
Proof.
  intros (Hc & Hst & Hf). unfold c_mul_add_content_length, in_u in *.
  destruct (Z.ltb_spec (0xffffffffffffffff / 16) (content_length pb)) as [L|L]; [done|].
  pose proof (wrap_range 64 (content_length (set_content_length (content_length pb * 16) pb) + m)).
  split_if; (split; [unfold in_u; cbn [content_length set_content_length status_code set_status_code snd] in *; divlia|done]).
Qed.

Lemma mul_add_content_length_1_ok m pb :
  pub_ok pb -> pub_ok (snd (c_mul_add_content_length_1 m pb)).
Proof.
  intros (Hc & Hst & Hf). unfold c_mul_add_content_length_1, in_u in *.
  destruct (Z.ltb_spec (0xffffffffffffffff / 10) (content_length pb)) as [L|L]; [done|].
  pose proof (wrap_range 64 (content_length (set_content_length (content_length pb * 10) pb) + m)).
  split_if; (split; [unfold in_u; cbn [content_length set_content_length status_code set_status_code snd] in *; divlia|done]).
Qed.

Lemma mul_add_status_code_ok m pb : pub_ok pb -> pub_ok (snd (c_mul_add_status_code m pb)).
Proof.
  intros (Hc & Hst & Hf). unfold c_mul_add_status_code, in_u in *.
  destruct (Z.ltb_spec (0xffff / 10) (status_code pb)) as [L|L]; [done|].
  pose proof (wrap_range 16 (status_code (set_status_code (status_code pb * 10) pb) + m)).
  split_if; [|split_if]; (split; [done|split; [unfold in_u; cbn [content_length set_content_length status_code set_status_code snd] in *; divlia|done]]).
Qed.

Lemma block_of_good l : block_good l (block_of settings l).
Proof.
  destruct l; cbn [block_of];
    first [ apply next_good; reflexivity
          | apply switch_good; reflexivity
          | apply match_good; reflexivity
          | apply span_start_good; reflexivity
          | apply span_end_good; reflexivity
          | apply fail_good; reflexivity
          | apply pause_good; reflexivity
          | apply consume_good; reflexivity
          | apply invoke_cb_good; reflexivity
          | apply invoke_match_good;
              [reflexivity|first [exact mul_add_content_length_ok|exact mul_add_content_length_1_ok|
                 exact mul_add_status_code_ok|pub_solve]]
          | apply invoke_good;
              [reflexivity|first [exact after_message_complete_ok|exact before_headers_complete_ok|
                 pub_solve]] ].
Qed.

(** ** The whole run *)

Definition K : nat := 24.
Lemma rank_lt l : (rank l < K)%nat.
Proof. unfold K. destruct l; simpl; lia. Qed.

Definition run_post (s0 : llhttp_t U) (l : option label) (d : list Z) (s : llhttp_t U) : Prop :=
  match l with
  | Some l => wf l (length d) s /\ needs_byte l = false /\ error s = error s0
  | None => error s <> 0 /\ error_pos s <> None /\ ready s
  end.

Lemma run_good fuel : forall d l p m s,
  (p <= length d)%nat -> at_byte l d p -> wf l p s ->
  ((length d - p) * K + rank l < fuel)%nat ->
  exists l' s', run settings fuel d l p m s = Done (l', s') /\ run_post s l' d s'.
Proof.
  induction fuel as [|fuel IH]; intros d l p m s Hp Hb Hwf Hf;
    [by apply Nat.nlt_0_r in Hf|]. cbn [run].
  pose proof (block_of_good l d p m s Hp Hb Hwf) as Hg.
  destruct (block_of settings l d p m s) as [l' p' m' s'|l' s'|s'|] eqn:E; cbn [good] in Hg.
  - destruct Hg as (Hp' & Hlt & Hb' & Hwf' & He). pose proof (rank_lt l').
    destruct (IH d l' p' m' s') as (l2 & s2 & Hrun & Hpost); [lia|done|done| |].
    + destruct Hlt as [Hlt|Hlt]; [unfold K in *; nia|].
      destruct (Nat.eq_dec p p') as [->|]; [lia|unfold K in *; nia].
    + exists l2, s2. split; [done|]. unfold run_post in *. by rewrite <- He.
  - destruct Hg as (-> & Hnb & Hwf' & He). by exists (Some l), s'.
  - by exists None, s'.
  - done.
Qed.

(** The fuel that is always enough. *)
Definition fuel_for (d : list Z) : nat := S (S (length d) * K).

Lemma wf_resumable l p s : wf l p s -> needs_byte l = false -> resumable l s.
Proof.
  intros (Hs & Hi & Hpub) Hnb. unfold resumable. split_and!; [done..|].
  destruct (span_of l); [|done]. destruct Hs as (Hc & x & Hx & _). by rewrite Hx.
Qed.

(** The state a call starts from. *)
Definition restart (s : llhttp_t U) : llhttp_t U :=
  match _span_pos0 s with None => s | Some _ => set_span_pos0 (Some 0%nat) s end.

Lemma resumable_wf l s : resumable l s -> wf l 0 (restart s) /\ error (restart s) = error s.
Proof.
  intros (Hnb & Hi & Hpub & Hs). unfold wf, restart.
  destruct (span_of l) as [c|]; cbn [span_ok].
  - destruct Hs as [Hc Hs]. destruct (_span_pos0 s) eqn:E; [|done].
    cbn [_span_cb0 _span_pos0 _index fields set_span_pos0 error].
    split; [|done]. split; [|done]. split; [done|]. by exists 0%nat.
  - by rewrite Hs.
Qed.

Lemma execute_good d s :
  ready s ->
  exists e s', llhttp_execute settings (fuel_for d) d s = Done (e, s') /\ ready s' /\
    e = error s'.
Proof.
  intros Hr. unfold llhttp_execute, llhttp__internal_execute. fold (restart s).
  destruct (Z.eqb_spec (error s) 0) as [E0|E0]; cbn [negb]; [|by exists (error s), s].
  unfold ready in Hr.
  assert (Hcur : _current (restart s) = _current s) by (unfold restart; by destruct (_span_pos0 s)).
  rewrite Hcur. destruct (_current s) as [l|]; [|tauto].
  destruct (resumable_wf l s Hr) as [Hwf He].
  destruct (run_good (fuel_for d) d l 0 0 (restart s)) as (l' & s' & -> & Hpost); [lia| |done| |].
  - intros Hnb. destruct Hr. congruence.
  - pose proof (rank_lt l). unfold fuel_for. lia.
  - destruct l' as [l'|]; [|destruct Hpost as (? & _ & ?); by exists (error s'), s'].
    destruct Hpost as (Hwf' & Hnb & He').
    assert (Hres := wf_resumable _ _ _ Hwf' Hnb).
    cbn [_span_pos0 set_current _span_cb0]. destruct (_span_pos0 s') as [x|] eqn:Ex.
    + destruct Hwf' as (Hs & _ & _). destruct (span_of l') as [c|] eqn:Ec; cbn [span_ok] in Hs; [|congruence].
      destruct Hs as (Hc & _). rewrite Hc.
      destruct (call_span_data c (drop x d) (set_current (Some l') s')) as (err & u & ->).
      destruct Hres as (R1 & R2 & R3 & R4).
      destruct (Z.eqb_spec err 0) as [Ee|Ee]; cbn [negb].
      * eexists _, _. split; [reflexivity|]. cbn [error set_data set_current]. split; [|congruence].
        unfold ready, resumable. cbn [_current set_data set_current _index fields _span_cb0 _span_pos0].
        auto.
      * eexists _, _. split; [reflexivity|]. split; [|done].
        unfold ready, resumable.
        cbn [_current set_data set_current _index fields _span_cb0 _span_pos0 set_error set_error_pos].
        auto.
    + eexists _, _. split; [reflexivity|]. cbn [error set_current]. split; [|congruence]. exact Hres.
Qed.

(** ** A client's calls *)

(** The calls of llhttp.h that change the parser. *)
Inductive call : Type :=
  | Execute (d : list Z) | Finish | Pause | Resume | ResumeAfterUpgrade
  | SetLenientHeaders (enabled : bool) | SetLenientChunkedLength (enabled : bool).

(** A call with the value it returns; [abort()] in [llhttp_finish] is a
    fault. *)
Definition do_call (c : call) (s : llhttp_t U) : result (Z * llhttp_t U) :=
  match c with
  | Execute d => llhttp_execute settings (fuel_for d) d s
  | Finish => match llhttp_finish settings s with Some r => Done r | None => TcpSock.Fault end
  | Pause => Done (0, llhttp_pause s)
  | Resume => Done (0, llhttp_resume s)
  | ResumeAfterUpgrade => Done (0, llhttp_resume_after_upgrade s)
  | SetLenientHeaders e => Done (0, llhttp_set_lenient_headers e s)
  | SetLenientChunkedLength e => Done (0, llhttp_set_lenient_chunked_length e s)
  end.

Fixpoint do_calls (cs : list call) (s : llhttp_t U) : result (list Z * llhttp_t U) :=
  match cs with
  | [] => Done ([], s)
  | c :: cs =>
      match do_call c s with
      | Done (r, s) =>
          match do_calls cs s with
          | Done (rs, s) => Done (r :: rs, s)
          | OutOfFuel => OutOfFuel
          | TcpSock.Fault => TcpSock.Fault
          end
      | OutOfFuel => OutOfFuel
      | TcpSock.Fault => TcpSock.Fault
      end
  end.

Lemma ready_init t u : ready (llhttp_init t u).
Proof. unfold ready, resumable, pub_ok, in_u; cbn. split_and!; (done || lia). Qed.

(** Only the error, the reason and the lenient flags are changed by the other
    calls. *)
Lemma ready_error s e r :
  ready s -> (_current s = None -> e = error s) -> ready (set_reason r (set_error e s)).
Proof.
  unfold ready. cbn [_current set_reason set_error error]. destruct (_current s); [done|].
  intros H He. by rewrite He.
Qed.

Lemma ready_lenient s f :
  ready s -> ready (set_fields (set_lenient_flags f (fields s)) s).
Proof. unfold ready. cbn [_current set_fields error]. by destruct (_current s). Qed.

Lemma do_call_good c s : ready s -> exists r s', do_call c s = Done (r, s') /\ ready s'.
Proof.
  intros Hr. destruct c as [d| | | | |e|e]; cbn [do_call].
  - destruct (execute_good d s Hr) as (e & s' & He & Hs' & _). eauto.
  - unfold llhttp_finish, llhttp__on_message_complete.
    destruct (Z.eqb_spec (error s) 0) as [E|E]; cbn [negb]; [|eauto].
    assert (0 <= finish (fields s) <= 2) as Hf.
    { unfold ready in Hr. destruct (_current s); [apply Hr|tauto]. }
    unfold HTTP_FINISH_SAFE_WITH_CB, HTTP_FINISH_SAFE, HTTP_FINISH_UNSAFE.
    destruct (callback_data (on_message_complete settings) s) as (err & u & ->).
    destruct (Z.eqb_spec (finish (fields s)) 1); [do 2 eexists; by split|].
    destruct (Z.eqb_spec (finish (fields s)) 0); [do 2 eexists; by split|].
    destruct (Z.eqb_spec (finish (fields s)) 2); [do 2 eexists; by split|lia].
  - do 2 eexists. split; [done|]. unfold llhttp_pause.
    destruct (Z.eqb_spec (error s) HPE_OK) as [E|E]; cbn [negb]; [|done].
    apply ready_error; [done|]. intros Hc. unfold ready in Hr. rewrite Hc in Hr. by destruct Hr.
  - do 2 eexists. split; [done|]. unfold llhttp_resume.
    destruct (Z.eqb_spec (error s) HPE_PAUSED) as [E|E]; cbn [negb]; [|done].
    apply (ready_error s 0 (reason s)); [done|]. intros Hc. unfold ready in Hr. rewrite Hc in Hr. tauto.
  - do 2 eexists. split; [done|]. unfold llhttp_resume_after_upgrade.
    destruct (Z.eqb_spec (error s) HPE_PAUSED_UPGRADE) as [E|E]; cbn [negb]; [|done].
    apply (ready_error s 0 (reason s)); [done|]. intros Hc. unfold ready in Hr. rewrite Hc in Hr. tauto.
  - do 2 eexists. split; [done|]. by apply ready_lenient.
  - do 2 eexists. split; [done|]. by apply ready_lenient.
Qed.

Lemma do_calls_good cs : forall s, ready s ->
  exists rs s', do_calls cs s = Done (rs, s') /\ length rs = length cs /\ ready s'.
Proof.
  induction cs as [|c cs IH]; intros s Hr; cbn [do_calls length]; [by exists [], s|].
  destruct (do_call_good c s Hr) as (r & s1 & -> & Hr1).
  destruct (IH s1 Hr1) as (rs & s2 & -> & Hl & Hr2). exists (r :: rs), s2. by rewrite <- Hl.
Qed.

(** C8.  Whatever calls a client makes on a new parser, in whatever order, on
    whatever bytes and with whatever callbacks (null ones and ones that return
    errors or pause included), each of them returns: the state machine never
    reads outside its buffer or a literal, never closes a span that is not
    open, never resumes at the error state, [llhttp_finish] never reaches its
    [abort()], and a buffer of [n] bytes takes at most [24 * (n + 1)] gotos. *)
Theorem llhttp_calls_safe (cs : list call) (t : Z) (u : U) :
  exists rs s, do_calls cs (llhttp_init t u) = Done (rs, s) /\ length rs = length cs.
Proof.
  destruct (do_calls_good cs _ (ready_init t u)) as (rs & s & H & Hl & _). eauto.
Qed.

(** What a call returns on a parser that stopped with error [e]. *)
Definition stuck_result (e : Z) (c : call) : Z :=
  match c with Execute _ => e | _ => 0 end.

(**  A parse error is final: after an error other than a pause every later
    [llhttp_execute] gives that error again, whatever calls come between, the
    reason and its offset stay, no callback runs any more, and
    [llhttp_finish] answers 0 as if the message had been complete. *)
Theorem llhttp_error_final (cs : list call) (s : llhttp_t U)
    (He : error s <> 0 /\ error s <> HPE_PAUSED /\ error s <> HPE_PAUSED_UPGRADE) :
  exists s', do_calls cs s = Done (map (stuck_result (error s)) cs, s') /\
    error s' = error s /\ reason s' = reason s /\ error_pos s' = error_pos s /\ data s' = data s.
Proof.
  destruct He as (H0 & Hp & Hu). revert s H0 Hp Hu.
  induction cs as [|c cs IH]; intros s H0 Hp Hu; cbn [do_calls map]; [by exists s|].
  assert (E : exists s1, do_call c s = Done (stuck_result (error s) c, s1) /\ error s1 = error s /\
      reason s1 = reason s /\ error_pos s1 = error_pos s /\ data s1 = data s).
  { destruct c; cbn [do_call stuck_result]; unfold llhttp_execute, llhttp__internal_execute,
      llhttp_finish, llhttp_pause, llhttp_resume, llhttp_resume_after_upgrade,
      llhttp_set_lenient_headers, llhttp_set_lenient_chunked_length, HPE_OK;
      rewrite ?(proj2 (Z.eqb_neq _ _) H0), ?(proj2 (Z.eqb_neq _ _) Hp), ?(proj2 (Z.eqb_neq _ _) Hu);
      cbn [negb]; eexists; by split_and!. }
  destruct E as (s1 & -> & E1 & E2 & E3 & E4).
  destruct (IH s1) as (s2 & -> & F1 & F2 & F3 & F4); [congruence..|].
  exists s2. rewrite E1. split_and!; congruence.
Qed.
End Machine.
End LlhttpProps.
