(* ===== verification/LlhttpCut.v ===== *)
(** * LlhttpCut: the HTTP parser and the buffers of a stream

    The parser is fed a connection's bytes as they arrive.  Here: a run on
    [a ++ b] against one on [a] followed by one on [b], form by form, and from
    it that the result does not depend on where the stream is cut. *)
From S2P Require Import Prelude TcpSock Llhttp LlhttpRun LlhttpProps.

Module LlhttpCut.
Import Llhttp LlhttpRun LlhttpProps.

Section Machine.
Context {U : Type} (settings : llhttp_settings_t U).


(** ** Buffers *)

(** More fuel changes nothing. *)
Lemma run_mono f : forall f' d l p m s r,
  run settings f d l p m s = Done r -> (f <= f')%nat -> run settings f' d l p m s = Done r.
Proof.
  induction f as [|f IH]; intros f' d l p m s r Hr Hf; [done|].
  destruct f' as [|f']; [lia|]. cbn [run] in *.
  destruct (block_of settings l d p m s); try done. apply IH; [done|lia].
Qed.

(** Data callbacks that collect what they are given, in the order given. *)
Class Appending (append : span -> U -> list Z -> U) : Prop := {
  call_append : forall c d s, call_span settings c d s = (0, set_data (append c (data s) d) s);
  append_app : forall c u x y, append c (append c u x) y = append c u (x ++ y)
}.

Definition slice (d : list Z) (x y : nat) : list Z := take (y - x) (drop x d).

Section Cut.
Context (append : span -> U -> list Z -> U) `{!Appending append}.
Context (a b : list Z).

(** The run on [a ++ b], at a position behind [a], against the run on [b]
    after [a] was parsed: what the second has been given of an open span is
    what lies in [a]. *)
Definition rel (t : option span) (q : nat) (s s' : llhttp_t U) : Prop :=
  _index s' = _index s /\ error s' = error s /\ reason s' = reason s /\
  fields s' = fields s /\ _span_cb0 s' = _span_cb0 s /\
  match t with
  | None => _span_pos0 s = None /\ _span_pos0 s' = None /\ data s' = data s
  | Some c => exists x y z, _span_pos0 s = Some x /\ _span_pos0 s' = Some y /\ (y <= q)%nat /\
      (data s' = data s \/ data s' = append c (data s) z) /\
      forall q', (q <= q' <= length b)%nat ->
        append c (data s) (slice (a ++ b) x (length a + q')) = append c (data s') (slice b y q')
  end.

(** After an error: an error inside a span may leave the second run with a
    part of the span delivered. *)
Definition err_rel (s s' : llhttp_t U) : Prop :=
  _index s' = _index s /\ error s' = error s /\ reason s' = reason s /\
  fields s' = fields s /\ _current s' = _current s /\
  error_pos s = Nat.add (length a) <$> error_pos s' /\
  (data s' = data s \/ exists c z, data s' = append c (data s) z).

Definition outcome_rel (o o' : outcome U) : Prop :=
  match o, o' with
  | Goto l p m s, Goto l' p' m' s' =>
      l' = l /\ p = (length a + p')%nat /\ (reads_match l = true -> m = m') /\
      rel (span_of l) p' s s'
  | Ret l s, Ret l' s' => l' = l /\ rel (span_of l) (length b) s s'
  | Err s, Err s' => err_rel s s'
  | _, _ => False
  end.

(** Behind [a] a block does the same on both. *)
Definition block_sim (l : label) (B : block U) : Prop :=
  forall q m m' s s', (q <= length b)%nat -> wf l q s' -> (reads_match l = true -> m = m') ->
    rel (span_of l) q s s' ->
    outcome_rel (B (a ++ b) (length a + q)%nat m s) (B b q m' s').

(** Inside [a] it does the same as on [a] alone; where that is left for want
    of bytes, it goes on as the run on [b] does. *)
Definition block_ext (l : label) (B : block U) : Prop :=
  forall p m s, (p <= length a)%nat -> wf l p s ->
    match B a p m s with
    | Ret _ s1 => forall m' s2, rel (span_of l) 0 s1 s2 -> wf l 0 s2 ->
        outcome_rel (B (a ++ b) p m s) (B b 0%nat m' s2)
    | o => B (a ++ b) p m s = o
    end.

Lemma rel_le t q q' s s' : rel t q s s' -> (q <= q')%nat -> rel t q' s s'.
Proof.
  intros (E1 & E2 & E3 & E4 & E5 & Hs) Hq. unfold rel. split_and!; [done..|].
  destruct t as [c|]; [|done]. destruct Hs as (x & y & z & Hx & Hy & Hle & Hz & Ha).
  exists x, y, z. split_and!; [done|done|lia|done|]. intros q'' H. apply Ha. lia.
Qed.

Lemma lookup_behind q : (a ++ b) !! (length a + q)%nat = b !! q.
Proof. rewrite lookup_app_r by lia. f_equal. lia. Qed.

Lemma drop_behind q : drop (length a + q) (a ++ b) = drop q b.
Proof. rewrite drop_app_ge by lia. f_equal. lia. Qed.

Lemma take_branch_rel l t br q m m' s s' :
  branch_ok l t br = true -> rel t q s s' ->
  outcome_rel (take_branch br (length a + q)%nat m s) (take_branch br q m' s').
Proof.
  intros Hb Hr. assert (Hr' := rel_le _ _ (S q) _ _ Hr ltac:(lia)).
  destruct br as [l'|k l'|l'|k l']; cbn [branch_ok take_branch outcome_rel] in *;
    unfold stays in *; bool_arith; span_eqs; span_rw; split_and!; try done; try lia; congruence.
Qed.

(** Extension from simulation, for a block that returns its state only at the
    end of the buffer and as it is. *)
Lemma ext_of_sim l B :
  block_sim l B -> reads_match l = false ->
  (forall p m s, (p < length a)%nat -> B (a ++ b) p m s = B a p m s) ->
  (forall p m s, (p < length a)%nat -> match B a p m s with Ret _ _ => False | _ => True end) ->
  (forall m s, B a (length a) m s = Ret l s) ->
  block_ext l B.
Proof.
  intros Hsim Hm Hlt Hret Hend p m s Hp Hwf. destruct (Nat.eq_dec p (length a)) as [->|Hne].
  - rewrite Hend. intros m' s2 Hr Hwf2.
    pose proof (Hsim 0%nat m m' s s2 ltac:(lia) Hwf2) as H. rewrite Nat.add_0_r in H.
    apply H; [congruence|done].
  - assert (p < length a)%nat as Hp' by lia. specialize (Hlt p m s Hp'). specialize (Hret p m s Hp').
    rewrite Hlt. by destruct (B a p m s).
Qed.

Lemma switch_sim conv l cases default :
  branches_ok l (default :: map snd cases) = true ->
  block_sim l (switch_conv conv l cases default).
Proof.
  intros H q m m' s s' Hq Hwf Hm Hr. unfold branches_ok in H. bool_arith.
  unfold switch_conv. rewrite lookup_behind. destruct (b !! q) as [c|] eqn:Hc.
  - apply (take_branch_rel l (span_of l)); [by apply lookup_case_forallb|done].
  - apply lookup_ge_None in Hc. split; [done|]. by apply (rel_le _ q); [|lia].
Qed.

Lemma switch_ext conv l cases default :
  branches_ok l (default :: map snd cases) && negb (reads_match l) = true ->
  block_ext l (switch_conv conv l cases default).
Proof.
  intros [H Hm%negb_true_iff]%andb_true_iff. apply ext_of_sim; [by apply switch_sim|done|..];
    unfold switch_conv; intros.
  - by rewrite lookup_app_l by done.
  - destruct (lookup_lt_is_Some_2 a p) as [c ->]; [done|]. by destruct (lookup_case _ _ _).
  - by rewrite (proj2 (lookup_ge_None a (length a))) by lia.
Qed.

Lemma span_start_sim l c l' :
  stays l (Some c) l' && negb (reads_match l') && span_eqb (span_of l) None &&
    (blob_len l =? 1)%nat && negb (needs_byte l) = true ->
  block_sim l (span_start l c l').
Proof.
  intros H q m m' s s' Hq Hwf Hm Hr. unfold stays in H. bool_arith. span_eqs.
  unfold span_start. rewrite lookup_behind. destruct (b !! q) as [x|] eqn:Hc.
  - match goal with H : span_of l = None |- _ => rewrite H in Hr end.
    destruct Hr as (E1 & E2 & E3 & E4 & E5 & Hs & Hs' & Hd).
    cbn [outcome_rel]. split_and!; [done|done|congruence|]. span_rw.
    unfold rel; cbn [_index error reason fields _span_cb0 _span_pos0 data set_span_cb0 set_span_pos0].
    split_and!; [done..|]. exists (length a + q)%nat, q, []. split_and!; [done|done|lia|by left|].
    intros q' Hq'. unfold slice. rewrite drop_behind, Hd. do 2 f_equal. lia.
  - apply lookup_ge_None in Hc. split; [done|]. by apply (rel_le _ q); [|lia].
Qed.

Lemma span_start_ext l c l' :
  stays l (Some c) l' && negb (reads_match l') && span_eqb (span_of l) None &&
    (blob_len l =? 1)%nat && negb (needs_byte l) && negb (reads_match l) = true ->
  block_ext l (span_start l c l').
Proof.
  intros [H Hm%negb_true_iff]%andb_true_iff. apply ext_of_sim; [by apply span_start_sim|done|..];
    unfold span_start; intros.
  - by rewrite lookup_app_l by done.
  - by destruct (lookup_lt_is_Some_2 a p) as [? ->].
  - by rewrite (proj2 (lookup_ge_None a (length a))) by lia.
Qed.

(** A block that does not look at the buffer. *)
Lemma ext_const l B :
  (forall d d' p m s, B d p m s = B d' p m s) ->
  (forall d p m s, match B d p m s with Ret _ _ => False | _ => True end) ->
  block_ext l B.
Proof.
  intros Hd Hr p m s Hp Hwf. specialize (Hr a p m s). rewrite (Hd (a ++ b) a).
  by destruct (B a p m s).
Qed.

Lemma fail_sim l code why : block_sim l (fail code why).
Proof.
  intros q m m' s s' Hq Hwf Hm (E1 & E2 & E3 & E4 & E5 & Hs). cbn [fail outcome_rel].
  unfold err_rel; cbn [_index error reason fields _current error_pos data set_current set_error_pos
    set_error set_reason]. split_and!; [done..|].
  destruct (span_of l) as [c|]; [|left; apply Hs].
  destruct Hs as (x & y & z & _ & _ & _ & [Hz|Hz] & _); [by left|right; by exists c, z].
Qed.

Lemma pause_sim l code why l' : block_sim l (pause code why l').
Proof.
  intros q m m' s s' Hq Hwf Hm (E1 & E2 & E3 & E4 & E5 & Hs). cbn [pause outcome_rel].
  unfold err_rel; cbn [_index error reason fields _current error_pos data set_current set_error_pos
    set_error set_reason]. split_and!; [done..|].
  destruct (span_of l) as [c|]; [|left; apply Hs].
  destruct Hs as (x & y & z & _ & _ & _ & [Hz|Hz] & _); [by left|right; by exists c, z].
Qed.

(** An invocation, whatever it computes from the fields. *)
Lemma goto_sim l r cases default pb q m m' s s' :
  stays_all l (default :: map snd cases) = true ->
  rel (span_of l) q s s' ->
  outcome_rel (Goto (lookup_case r cases default) (length a + q)%nat m (set_fields pb s))
              (Goto (lookup_case r cases default) q m' (set_fields pb s')).
Proof.
  intros H Hr. unfold stays_all in H. apply andb_true_iff in H as [[H _]%andb_true_iff _].
  pose proof (lookup_case_forallb _ r cases default H) as Ht. unfold stays in Ht. bool_arith.
  span_eqs. cbn [outcome_rel]. split_and!; [done|done|congruence|]. span_rw.
  destruct Hr as (E1 & E2 & E3 & E4 & E5 & Hs). by split_and!.
Qed.

Lemma invoke_sim f l cases default :
  stays_all l (default :: map snd cases) = true -> block_sim l (invoke f cases default).
Proof.
  intros H q m m' s s' Hq Hwf Hm Hr. unfold invoke.
  assert (fields s' = fields s) as -> by apply Hr. destruct (f (fields s)) as [r pb].
  by apply (goto_sim l).
Qed.

Lemma invoke_match_sim f l cases default :
  stays_all l (default :: map snd cases) && reads_match l = true ->
  block_sim l (invoke_match f cases default).
Proof.
  intros [H Hrm]%andb_true_iff q m m' s s' Hq Hwf Hm Hr. unfold invoke_match.
  rewrite (Hm Hrm). exact (invoke_sim (f m') l cases default H q m' m' s s' Hq Hwf (fun _ => eq_refl) Hr).
Qed.

Lemma invoke_cb_sim cb l cases default :
  stays_all l (default :: map snd cases) && span_eqb (span_of l) None = true ->
  block_sim l (invoke_cb (callback_maybe cb) cases default).
Proof.
  intros [H Hn]%andb_true_iff q m m' s s' Hq Hwf Hm Hr. unfold invoke_cb, callback_maybe.
  span_eqs. assert (Hr' := Hr). rewrite Hn in Hr'.
  destruct Hr' as (E1 & E2 & E3 & E4 & E5 & Hs & Hs' & Hd). rewrite E4, Hd.
  assert (Hg : forall r u, outcome_rel
      (Goto (lookup_case r cases default) (length a + q)%nat m (set_data u s))
      (Goto (lookup_case r cases default) q m' (set_data u s'))).
  { intros r u. pose proof (goto_sim l r cases default (fields s) q m m' s s' H Hr) as Hg.
    cbn [outcome_rel] in *. destruct Hg as (_ & _ & Hrm & Hg). split_and!; [done|done|done|].
    assert (span_of (lookup_case r cases default) = None) as Et.
    { unfold stays_all in H. apply andb_true_iff in H as [[H _]%andb_true_iff _].
      pose proof (lookup_case_forallb _ r cases default H) as Ht. unfold stays in Ht.
      bool_arith. span_eqs. congruence. }
    rewrite Et in *. unfold rel; cbn [_index error reason fields _span_cb0 _span_pos0 data set_data].
    by split_and!. }
  destruct cb as [cb|].
  - destruct (cb (fields s) (data s)) as [r u]. apply Hg.
  - pose proof (Hg 0 (data s)) as H'. rewrite <- Hd in H' at 2. by destruct s, s'.
Qed.

Lemma invoke_ext f l cases default : block_ext l (invoke f cases default).
Proof. apply ext_const; unfold invoke; intros; [done|]. by destruct (f (fields s)). Qed.
Lemma invoke_match_ext f l cases default : block_ext l (invoke_match f cases default).
Proof.
  apply ext_const; unfold invoke_match, invoke; intros; [done|]. by destruct (f m (fields s)).
Qed.
Lemma invoke_cb_ext f l cases default : block_ext l (invoke_cb f cases default).
Proof. apply ext_const; unfold invoke_cb; intros; [done|]. by destruct (f s). Qed.
Lemma fail_ext l code why : block_ext l (fail code why).
Proof. by apply ext_const. Qed.
Lemma pause_ext l code why l' : block_ext l (pause code why l').
Proof. by apply ext_const. Qed.

Lemma span_end_sim l c br : end_ok l c br = true -> block_sim l (span_end settings c br).
Proof.
  intros H q m m' s s' Hq Hwf Hm Hr. unfold end_ok in H. bool_arith. span_eqs.
  match goal with H : span_of l = Some c |- _ => rewrite H in Hr end.
  destruct Hr as (E1 & E2 & E3 & E4 & E5 & x & y & z & Hx & Hy & Hle & Hz & Ha).
  unfold span_end. rewrite Hx, Hy, !call_append. cbn [negb Z.eqb].
  specialize (Ha q ltac:(lia)). unfold slice in Ha.
  assert (Hr' : rel None q
      (set_data (append c (data (set_span_pos0 None s))
                   (take (length a + q - x) (drop x (a ++ b)))) (set_span_pos0 None s))
      (set_data (append c (data (set_span_pos0 None s')) (take (q - y) (drop y b)))
         (set_span_pos0 None s'))).
  { unfold rel; cbn [_index error reason fields _span_cb0 _span_pos0 data set_data set_span_pos0].
    by split_and!. }
  destruct br as [l'| |l'|]; try done; bool_arith; cbn [take_branch outcome_rel];
    unfold stays in *; bool_arith; span_eqs; span_rw; split_and!; try done; try lia; congruence.
Qed.

Lemma span_end_ext l c br : end_ok l c br = true -> block_ext l (span_end settings c br).
Proof.
  intros H p m s Hp (Hs & _). unfold end_ok in H. bool_arith. span_eqs.
  match goal with H : span_of l = Some c |- _ => rewrite H in Hs end.
  destruct Hs as (_ & x & Hx & Hxp). unfold span_end. rewrite Hx.
  rewrite drop_app_le, take_app_le by (rewrite ?length_drop; lia).
  rewrite call_append. cbn [negb Z.eqb]. by destruct br.
Qed.

Lemma consume_sim l l' : stays_all l [l'] = true -> block_sim l (consume_content_length l l').
Proof.
  intros H q m m' s s' Hq Hwf Hm Hr. unfold consume_content_length.
  assert (fields s' = fields s) as -> by apply Hr.
  assert (length (a ++ b) - (length a + q) = length b - q)%nat as ->
    by (rewrite length_app; lia).
  assert (Hp := proj1 (proj1 (proj2 (proj2 Hwf)))).
  assert (Hf : forall pb, rel (span_of l) q (set_fields pb s) (set_fields pb s')).
  { intros pb. destruct Hr as (E1 & E2 & E3 & E4 & E5 & Hs). by split_and!. }
  destruct (Z.leb_spec (content_length (fields s)) (Z.of_nat (length b - q))) as [L|L].
  - pose proof (goto_sim l 0 [] l' (set_content_length 0 (fields s))
                  (q + Z.to_nat (content_length (fields s))) m m' s s' H) as Hg.
    cbn [lookup_case] in Hg. rewrite Nat.add_assoc in Hg. apply Hg.
    by apply (rel_le _ q); [|lia].
  - split; [done|]. by apply (rel_le _ q); [|lia].
Qed.

Lemma consume_ext l l' : stays_all l [l'] = true -> block_ext l (consume_content_length l l').
Proof.
  intros H p m s Hp Hwf. assert (Hc := proj1 (proj1 (proj2 (proj2 Hwf)))).
  unfold consume_content_length. set (need := content_length (fields s)) in *.
  rewrite length_app. destruct (Z.leb_spec need (Z.of_nat (length a - p))) as [L|L].
  - decide_bool. done.
  - intros m' s2 Hr _. set (s1 := set_fields _ s) in Hr.
    assert (E : fields s2 = fields s1) by apply Hr. rewrite E. unfold s1 at 1 2 3.
    cbn [fields set_fields content_length set_content_length]. rewrite Nat.sub_0_r.
    assert ((need - Z.of_nat (length a - p) <=? Z.of_nat (length b)) =
            (need <=? Z.of_nat (length a + length b - p))) as ->.
    { destruct (Z.leb_spec need (Z.of_nat (length a + length b - p)));
        [apply Z.leb_le|apply Z.leb_gt]; lia. }
    destruct (Z.leb_spec need (Z.of_nat (length a + length b - p))) as [L2|L2].
    + pose proof (goto_sim l 0 [] l' (set_content_length 0 (fields s))
                    (Z.to_nat (need - Z.of_nat (length a - p))) m m' s1 s2 H) as Hg.
      cbn [lookup_case] in Hg.
      replace (p + Z.to_nat need)%nat
        with (length a + Z.to_nat (need - Z.of_nat (length a - p)))%nat by lia.
      apply Hg. by apply (rel_le _ 0%nat); [|lia].
    + split; [done|]. apply (rel_le _ 0%nat); [|lia].
      replace (need - Z.of_nat (length a + length b - p))
        with (need - Z.of_nat (length a - p) - Z.of_nat (length b - 0)) by lia.
      destruct Hr as (E1 & E2 & E3 & E4 & E5 & Hs). rewrite Nat.sub_0_r. by split_and!.
Qed.

(** Literals over two buffers. *)
Lemma match_loop_shift conv seq r : forall i n k,
  match_loop conv seq r i (k + n) =
    (fun '(st, x, j) => (st, (k + x)%nat, j)) <$> match_loop conv seq r i n.
Proof.
  induction r as [|c r IH]; intros i n k; cbn [match_loop]; [done|].
  destruct (seq !! i) as [x|]; [|done]. cbn [mbind option_bind].
  destruct (conv c =? x); [|done]. destruct (S i =? length seq)%nat; [done|].
  by rewrite <- Nat.add_succ_r, IH.
Qed.

Lemma match_loop_app conv seq x y : forall i n,
  match_loop conv seq (x ++ y) i n =
    match match_loop conv seq x i n with
    | Some (kMatchPause, k, j) => match_loop conv seq y j k
    | r => r
    end.
Proof.
  induction x as [|c x IH]; intros i n; cbn [match_loop app]; [done|].
  destruct (seq !! i) as [v|]; [|done]. cbn [mbind option_bind].
  destruct (conv c =? v); [|done]. by destruct (S i =? length seq)%nat.
Qed.

Lemma rel_index t q i s s' : rel t q s s' -> rel t q (set_index i s) (set_index i s').
Proof. intros (E1 & E2 & E3 & E4 & E5 & Hs). by split_and!. Qed.

(** The rest of a literal, from the same index on both sides. *)
Lemma literal_rel conv l seq complete mismatch q m m' s s' :
  forallb (branch_ok l (span_of l)) [complete; mismatch] = true ->
  (q <= length b)%nat -> (_index s' < length seq)%nat -> rel (span_of l) q s s' ->
  outcome_rel
    match match_loop conv seq (drop q b) (_index s') 0 with
    | None => Fault
    | Some (status, n, index) =>
        match status with
        | kMatchComplete => take_branch complete (length a + q + n) m (set_index index s)
        | kMatchPause => Ret l (set_index index s)
        | kMatchMismatch => take_branch mismatch (length a + q + n) m (set_index index s)
        end
    end
    match match_loop conv seq (drop q b) (_index s') 0 with
    | None => Fault
    | Some (status, n, index) =>
        match status with
        | kMatchComplete => take_branch complete (q + n) m' (set_index index s')
        | kMatchPause => Ret l (set_index index s')
        | kMatchMismatch => take_branch mismatch (q + n) m' (set_index index s')
        end
    end.
Proof.
  intros Hb Hq Hi Hr. cbn [forallb] in Hb. bool_arith.
  destruct (match_loop_spec conv seq (drop q b) (_index s') 0 Hi) as (st & k & i & -> & Hst).
  cbn [Nat.add]. assert (Hr' := rel_index _ _ i _ _ (rel_le _ _ (q + k) _ _ Hr ltac:(lia))).
  destruct st.
  - rewrite <- Nat.add_assoc. by apply (take_branch_rel l (span_of l)).
  - split; [done|]. rewrite length_drop in Hst. by replace (length b) with (q + k)%nat by lia.
  - rewrite <- Nat.add_assoc. by apply (take_branch_rel l (span_of l)).
Qed.

Lemma match_sim conv l seq complete mismatch :
  forallb (branch_ok l (span_of l)) [complete; mismatch] && (blob_len l =? length seq)%nat &&
    negb (needs_byte l) = true ->
  block_sim l (match_sequence (kind_of conv) l seq complete mismatch).
Proof.
  intros [[Hb Hl%Nat.eqb_eq]%andb_true_iff Hnb]%andb_true_iff q m m' s s' Hq Hwf Hm Hr.
  unfold match_sequence, kind_of. rewrite lookup_behind, drop_behind.
  assert (_index s = _index s') as -> by (symmetry; apply Hr).
  destruct (b !! q) as [c|] eqn:Hc; cycle 1.
  { apply lookup_ge_None in Hc. split; [done|]. by apply (rel_le _ q); [|lia]. }
  pose proof (literal_rel conv l seq complete mismatch q m m' s s' Hb Hq) as Hlit.
  destruct Hwf as (_ & Hi & _). specialize (Hlit ltac:(lia) Hr).
  destruct (match_loop conv seq (drop q b) (_index s') 0) as [[[st n] i]|]; [|done].
  by destruct st.
Qed.

Lemma match_ext conv l seq complete mismatch :
  forallb (branch_ok l (span_of l)) [complete; mismatch] && (blob_len l =? length seq)%nat &&
    negb (needs_byte l) && negb (reads_match l) = true ->
  block_ext l (match_sequence (kind_of conv) l seq complete mismatch).
Proof.
  intros [H Hm%negb_true_iff]%andb_true_iff p m s Hp Hwf.
  destruct (Nat.eq_dec p (length a)) as [->|Hne].
  { unfold match_sequence at 1. rewrite (proj2 (lookup_ge_None a (length a))) by lia.
    intros m' s2 Hr Hwf2.
    pose proof (match_sim conv l seq complete mismatch H 0%nat m m' s s2 ltac:(lia) Hwf2) as Hs.
    rewrite Nat.add_0_r in Hs. apply Hs; [congruence|done]. }
  assert (p < length a)%nat as Hp' by lia. unfold match_sequence, kind_of.
  destruct (lookup_lt_is_Some_2 a p Hp') as [c Hc]. rewrite Hc.
  rewrite (lookup_app_l_Some _ _ _ _ Hc), drop_app_le, match_loop_app by lia.
  apply andb_true_iff in H as [[Hb Hl%Nat.eqb_eq]%andb_true_iff Hnb].
  destruct (match_loop_spec conv seq (drop p a) (_index s) 0) as (st & k & i & -> & Hst);
    [destruct Hwf as (_ & Hi & _); lia|]. rewrite length_drop in Hst. cbn [Nat.add].
  destruct st; [by destruct complete|intros m' s2 Hr Hwf2|by destruct mismatch].
  assert (Ei : _index s2 = i) by apply Hr. destruct Hst as [Hk Hi].
  pose proof (literal_rel conv l seq complete mismatch 0 m m' (set_index i s) s2 Hb ltac:(lia)
                ltac:(lia) Hr) as Hlit.
  rewrite drop_0, Ei in Hlit. rewrite <- (Nat.add_0_r k) at 1.
  rewrite match_loop_shift.
  destruct b as [|c0 b'].
  - cbn [match_loop fmap option_fmap option_map lookup list_lookup] in *.
    assert (set_index i s2 = s2) as E by (by destruct s2; cbn in Ei; subst).
    rewrite E in Hlit. exact Hlit.
  - cbn [lookup list_lookup drop]. rewrite Ei.
    destruct (match_loop conv seq (c0 :: b') i 0) as [[[st n] j]|]; [|done].
    cbn [fmap option_fmap option_map]. replace (p + (k + n))%nat with (length a + 0 + n)%nat by lia.
    by destruct st.
Qed.

Lemma next_sim l l' : branches_ok l [adv l'] = true -> block_sim l (next l l').
Proof. intros. by apply (switch_sim id l [] (adv l')). Qed.
Lemma next_ext l l' :
  branches_ok l [adv l'] && negb (reads_match l) = true -> block_ext l (next l l').
Proof. intros. by apply (switch_ext id l [] (adv l')). Qed.

Lemma block_of_sim l : block_sim l (block_of settings l).
Proof.
  destruct l; cbn [block_of];
    first [ apply next_sim; reflexivity
          | apply switch_sim; reflexivity
          | apply match_sim; reflexivity
          | apply span_start_sim; reflexivity
          | apply span_end_sim; reflexivity
          | apply fail_sim
          | apply pause_sim
          | apply consume_sim; reflexivity
          | apply invoke_cb_sim; reflexivity
          | apply invoke_match_sim; reflexivity
          | apply invoke_sim; reflexivity ].
Qed.

Lemma block_of_ext l : block_ext l (block_of settings l).
Proof.
  destruct l; cbn [block_of];
    first [ apply next_ext; reflexivity
          | apply switch_ext; reflexivity
          | apply match_ext; reflexivity
          | apply span_start_ext; reflexivity
          | apply span_end_ext; reflexivity
          | apply fail_ext
          | apply pause_ext
          | apply consume_ext; reflexivity
          | apply invoke_cb_ext
          | apply invoke_match_ext
          | apply invoke_ext ].
Qed.

(** ** Runs *)

Definition result_rel (r r' : option label * llhttp_t U) : Prop :=
  match r, r' with
  | (Some l, s), (Some l', s') => l' = l /\ rel (span_of l) (length b) s s'
  | (None, s), (None, s') => err_rel s s'
  | _, _ => False
  end.

Lemma run_sim fuel : forall l q m m' s s' r',
  (q <= length b)%nat -> at_byte l b q -> wf l q s' -> (reads_match l = true -> m = m') ->
  rel (span_of l) q s s' -> run settings fuel b l q m' s' = Done r' ->
  exists r, run settings fuel (a ++ b) l (length a + q)%nat m s = Done r /\ result_rel r r'.
Proof.
  induction fuel as [|fuel IH]; intros l q m m' s s' r' Hq Hb Hwf Hm Hr Hrun; [done|].
  cbn [run] in *. pose proof (block_of_sim l q m m' s s' Hq Hwf Hm Hr) as Ho.
  pose proof (block_of_good settings l b q m' s' Hq Hb Hwf) as Hg.
  destruct (block_of settings l (a ++ b) (length a + q)%nat m s) as [l1 p1 m1 s1|l1 s1|s1|],
    (block_of settings l b q m' s') as [l2 p2 m2 s2|l2 s2|s2|]; try done; cbn [outcome_rel good] in *.
  - destruct Ho as (-> & -> & Hm1 & Hr1). destruct Hg as (Hp & _ & Hb' & Hwf' & _).
    apply (IH l1 p2 m1 m2 s1 s2); [lia|done..].
  - injection Hrun as <-. exists (Some l1, s1). by destruct Ho as [-> ?].
  - injection Hrun as <-. by exists (None, s1).
Qed.

(** A run that [a] leaves unfinished, continued. *)
Lemma run_ext fuel : forall l p m s l1 s1,
  (p <= length a)%nat -> at_byte l a p -> wf l p s ->
  run settings fuel a l p m s = Done (Some l1, s1) ->
  forall fuel2 m' s2 r',
    rel (span_of l1) 0 s1 s2 -> wf l1 0 s2 -> needs_byte l1 = false ->
    run settings fuel2 b l1 0 m' s2 = Done r' ->
    exists f r, run settings f (a ++ b) l p m s = Done r /\ result_rel r r'.
Proof.
  induction fuel as [|fuel IH]; intros l p m s l1 s1 Hp Hb Hwf Hrun; [done|].
  cbn [run] in Hrun. pose proof (block_of_ext l p m s Hp Hwf) as He.
  pose proof (block_of_good settings l a p m s Hp Hb Hwf) as Hg.
  destruct (block_of settings l a p m s) as [l' p' m1 s'|l' s'|s'|] eqn:E; try done;
    cbn [good] in Hg.
  - destruct Hg as (Hp' & _ & Hb' & Hwf' & _). intros fuel2 m' s2 r' H1 H2 H3 H4.
    destruct (IH l' p' m1 s' l1 s1 ltac:(lia) Hb' Hwf' Hrun fuel2 m' s2 r' H1 H2 H3 H4)
      as (f & r & Hf & Hres).
    exists (S f), r. cbn [run]. by rewrite He.
  - injection Hrun as <- <-. destruct Hg as (-> & _ & _ & _).
    intros fuel2 m' s2 r' Hr Hwf2 Hnb Hrun2. specialize (He m' s2 Hr Hwf2).
    destruct fuel2 as [|fuel2]; [done|]. cbn [run] in Hrun2. exists (S fuel2). cbn [run].
    assert (Hb2 : at_byte l b 0) by (intros ?; congruence).
    pose proof (block_of_good settings l b 0%nat m' s2 ltac:(lia) Hb2 Hwf2) as Hg2.
    destruct (block_of settings l (a ++ b) p m s) as [l3 p3 m3 s3|l3 s3|s3|],
      (block_of settings l b 0%nat m' s2) as [l4 p4 m4 s4|l4 s4|s4|]; try done;
      cbn [outcome_rel good] in *.
    + destruct He as (-> & -> & Hm3 & Hr3). destruct Hg2 as (Hp4 & _ & Hb4 & Hwf4 & _).
      destruct (run_sim fuel2 l3 p4 m3 m4 s3 s4 r') as (r & Hf & Hres); [lia|done..|eauto].
    + injection Hrun2 as <-. exists (Some l3, s3). by destruct He as [-> ?].
    + injection Hrun2 as <-. by exists (None, s3).
Qed.

Lemma run_ext_err fuel : forall l p m s s1,
  (p <= length a)%nat -> at_byte l a p -> wf l p s ->
  run settings fuel a l p m s = Done (None, s1) ->
  run settings fuel (a ++ b) l p m s = Done (None, s1).
Proof.
  induction fuel as [|fuel IH]; intros l p m s s1 Hp Hb Hwf Hrun; [done|].
  cbn [run] in *. pose proof (block_of_ext l p m s Hp Hwf) as He.
  pose proof (block_of_good settings l a p m s Hp Hb Hwf) as Hg.
  destruct (block_of settings l a p m s) as [l' p' m1 s'|l' s'|s'|] eqn:E; try done;
    rewrite He; [|done].
  destruct Hg as (Hp' & _ & Hb' & Hwf' & _). apply IH; [lia|done..].
Qed.
End Cut.

(** ** Calls *)

Section Stream.
Context (append : span -> U -> list Z -> U) `{!Appending append}.

(** The parts of a state a client or a later call can tell apart; where an
    open span started is of no account, nor is the offset of an error that was
    resumed. *)
Definition same (s s' : llhttp_t U) : Prop :=
  _index s' = _index s /\ (_span_pos0 s' = None <-> _span_pos0 s = None) /\
  _span_cb0 s' = _span_cb0 s /\ error s' = error s /\ reason s' = reason s /\
  data s' = data s /\ _current s' = _current s /\ fields s' = fields s.

(** The end of a call: the open span's bytes are handed over. *)
Definition flushed (d : list Z) (l : label) (s : llhttp_t U) : llhttp_t U :=
  match span_of l, _span_pos0 s with
  | Some c, Some x => set_data (append c (data s) (drop x d)) (set_current (Some l) s)
  | _, _ => set_current (Some l) s
  end.

(** A call, by its run. *)
Lemma execute_run d s : ready s -> error s = 0 ->
  exists l l' s', _current s = Some l /\ resumable l s /\
    run settings (fuel_for d) d l 0 0 (restart s) = Done (l', s') /\
    run_post (restart s) l' d s' /\
    llhttp_execute settings (fuel_for d) d s =
      match l' with Some l' => Done (0, flushed d l' s') | None => Done (error s', s') end.
Proof.
  intros Hr He. unfold llhttp_execute, llhttp__internal_execute. fold (restart s).
  rewrite He. cbn [negb Z.eqb]. unfold ready in Hr.
  assert (Hcur : _current (restart s) = _current s) by (unfold restart; by destruct (_span_pos0 s)).
  rewrite Hcur. destruct (_current s) as [l|]; [|tauto].
  destruct (resumable_wf l s Hr) as [Hwf _].
  destruct (run_good settings (fuel_for d) d l 0 0 (restart s)) as (l' & s' & Hrun & Hpost);
    [lia|by intros Hnb; destruct Hr; congruence|done| |].
  { pose proof (rank_lt l). unfold fuel_for. lia. }
  exists l, l', s'. split_and!; [done|done|done|done|]. rewrite Hrun.
  destruct l' as [l'|]; [|done]. destruct Hpost as ((Hs & _) & _ & _). unfold flushed, span_ok in *.
  cbn [_span_pos0 set_current _span_cb0].
  destruct (span_of l') as [c|]; [|by rewrite Hs].
  destruct Hs as (Hc & x & Hx & _). by rewrite Hx, Hc, call_append.
Qed.

Lemma run_fuel f f' d l p m s r r' :
  run settings f d l p m s = Done r -> run settings f' d l p m s = Done r' -> r = r'.
Proof.
  intros H H'. apply (run_mono _ (Nat.max f f')) in H; [|lia].
  apply (run_mono _ (Nat.max f f')) in H'; [|lia]. congruence.
Qed.

(** The state a finished call leaves is where the next one starts. *)
Lemma flushed_rel a b l s : wf l (length a) s ->
  rel append a b (span_of l) 0 s (restart (flushed a l s)).
Proof.
  intros (Hs & _). unfold rel, flushed, restart. destruct (span_of l) as [c|].
  - destruct Hs as (Hc & x & Hx & Hle). rewrite Hx.
    cbn [_index error reason fields _span_cb0 _span_pos0 data set_data set_current set_span_pos0].
    rewrite Hx. cbn [_index error reason fields _span_cb0 _span_pos0 data set_data set_current set_span_pos0].
    split_and!; [done..|]. exists x, 0%nat, (drop x a). split_and!; [done|done|lia|by right|].
    intros q' Hq'. unfold slice. rewrite append_app, Nat.sub_0_r, drop_0. f_equal.
    rewrite drop_app_le, take_app_ge by (rewrite ?length_drop; lia).
    rewrite length_drop. do 2 f_equal. lia.
  - cbn [span_ok] in Hs. cbn [_span_pos0 set_current]. rewrite Hs.
    cbn [_index error reason fields _span_cb0 _span_pos0 data set_current]. by split_and!.
Qed.

Lemma rel_same a b l s s' :
  rel append a b (span_of l) (length b) s s' -> wf l (length b) s' ->
  wf l (length (a ++ b)) s ->
  same (flushed (a ++ b) l s) (flushed b l s').
Proof.
  intros (E1 & E2 & E3 & E4 & E5 & Hs) (Hw & _) (Hw2 & _). unfold flushed, span_ok in *.
  destruct (span_of l) as [c|].
  - destruct Hs as (x & y & z & Hx & Hy & Hle & _ & Ha). rewrite Hx, Hy.
    specialize (Ha (length b) ltac:(lia)). unfold slice in Ha.
    rewrite !take_ge in Ha by (rewrite length_drop, ?length_app; lia). rewrite Ha.
    unfold same. cbn [_index error reason fields _span_cb0 _span_pos0 data set_data set_current _current].
    rewrite Hx, Hy. by split_and!.
  - destruct Hs as (Hs & Hs' & Hd). unfold same.
    cbn [_index error reason fields _span_cb0 _span_pos0 data set_current _current].
    rewrite Hs, Hs'. by split_and!.
Qed.

Lemma flushed_ready a l s : wf l (length a) s -> needs_byte l = false ->
  resumable l (flushed a l s) /\ _current (flushed a l s) = Some l /\
  error (flushed a l s) = error s.
Proof.
  intros (Hs & Hi & Hpub) Hnb. unfold flushed, resumable, span_ok in *.
  destruct (span_of l) as [c|]; [|by split_and!].
  destruct Hs as (Hc & x & Hx & _). rewrite Hx.
  cbn [_index error _span_cb0 _span_pos0 data set_data set_current fields _current].
  rewrite Hx. by split_and!.
Qed.

(** One call against two. *)
Lemma execute_app a b s : ready s -> error s = 0 ->
  exists e1 s1 e s', llhttp_execute settings (fuel_for a) a s = Done (e1, s1) /\
    llhttp_execute settings (fuel_for (a ++ b)) (a ++ b) s = Done (e, s') /\
    if e1 =? 0 then
      ready s1 /\ error s1 = 0 /\
      exists s2, llhttp_execute settings (fuel_for b) b s1 = Done (e, s2) /\
        if e =? 0 then same s' s2 else error_pos s2 <> None /\ err_rel append a s' s2
    else e = e1 /\ s' = s1.
Proof.
  intros Hr He. destruct (execute_run a s Hr He) as (l & l1 & s1 & Hl & Hres & Hrun & Hpost & Hex).
  destruct (execute_run (a ++ b) s Hr He) as (l0 & l' & s' & Hl0 & _ & Hrun' & Hpost' & Hex').
  assert (l0 = l) as -> by congruence. destruct (resumable_wf l s Hres) as [Hwf Hwfe].
  assert (Hb : at_byte l a 0) by (intros ?; destruct Hres; congruence).
  rewrite Hex, Hex'. destruct l1 as [l1|]; cycle 1.
  { apply (run_ext_err append a b) in Hrun; [|first [lia|done]..]. destruct Hpost as [Hne _].
    pose proof (run_fuel _ _ _ _ _ _ _ _ _ Hrun Hrun') as [= <- <-].
    do 4 eexists. split_and!; [done|done|]. by destruct (Z.eqb_spec (error s1) 0). }
  destruct Hpost as (Hwf1 & Hnb1 & He1).
  destruct (flushed_ready a l1 s1 Hwf1 Hnb1) as (Hres1 & Hcur1 & Herr1).
  assert (Hr1 : ready (flushed a l1 s1)) by (unfold ready; by rewrite Hcur1).
  assert (He1' : error (flushed a l1 s1) = 0) by congruence.
  destruct (execute_run b _ Hr1 He1') as (l2 & l3 & s3 & Hl2 & _ & Hrun3 & Hpost3 & Hex3).
  assert (l2 = l1) as -> by congruence.
  destruct (resumable_wf l1 _ Hres1) as [Hwf2 Hwfe2].
  destruct (run_ext append a b _ _ _ _ _ _ _ (Nat.le_0_l (length a)) Hb Hwf Hrun _ 0 _ _
              (flushed_rel a b l1 s1 Hwf1) Hwf2 Hnb1 Hrun3) as (f & r & Hf & Hrel).
  pose proof (run_fuel _ _ _ _ _ _ _ _ _ Hf Hrun') as ->.
  destruct l' as [l'|], l3 as [l3|]; cbn [result_rel] in Hrel; try done.
  - destruct Hrel as [-> Hrel]. destruct Hpost' as (Hw' & _), Hpost3 as (Hw3 & _).
    do 4 eexists. split_and!; [done..|]. cbn [Z.eqb]. split_and!; [done..|].
    eexists. split; [exact Hex3|]. cbn [Z.eqb]. by apply rel_same.
  - destruct Hpost' as [Hne' _], Hpost3 as (_ & Hpos & _). do 4 eexists. split_and!; [done..|]. cbn [Z.eqb]. split_and!; [done..|].
    exists s3. assert (error s3 = error s') as E by apply Hrel. rewrite Hex3, E. split; [done|].
    by destruct (Z.eqb_spec (error s') 0).
Qed.

(** A connection feeds its buffers until there is an error; [n] bytes came
    before.  The offset of an error is given from the start of the stream. *)
Fixpoint feed (n : nat) (ds : list (list Z)) (s : llhttp_t U) : result (Z * nat * llhttp_t U) :=
  match ds with
  | [] => Done (0, n, s)
  | d :: ds =>
      match llhttp_execute settings (fuel_for d) d s with
      | Done (e, s) =>
          if e =? 0 then feed (n + length d) ds s
          else Done (e, (n + default 0%nat (error_pos s))%nat, s)
      | OutOfFuel => OutOfFuel
      | TcpSock.Fault => TcpSock.Fault
      end
  end.

Lemma feed_cons n d ds s :
  feed n (d :: ds) s =
    match llhttp_execute settings (fuel_for d) d s with
    | Done (e, s) =>
        if e =? 0 then feed (n + length d) ds s
        else Done (e, (n + default 0%nat (error_pos s))%nat, s)
    | OutOfFuel => OutOfFuel
    | TcpSock.Fault => TcpSock.Fault
    end.
Proof. done. Qed.

(** What two ways to feed a stream agree on: everything, or the error. *)
Definition agree (r r' : Z * nat * llhttp_t U) : Prop :=
  let '(e, n, s) := r in let '(e', n', s') := r' in
  e' = e /\ n' = n /\
  if e =? 0 then same s s'
  else reason s' = reason s /\ fields s' = fields s /\ _current s' = _current s.

Lemma same_sym s s' : same s s' -> same s' s.
Proof. intros (?&?&?&?&?&?&?&?). by split_and!. Qed.
Lemma same_trans s s' s'' : same s s' -> same s' s'' -> same s s''.
Proof.
  intros (?&Hp&?&?&?&?&?&?) (?&Hp'&?&?&?&?&?&?). split_and!; try congruence. by rewrite Hp'.
Qed.
#[local] Instance agree_equiv : Equivalence agree.
Proof.
  split.
  - intros [[e n] s]. cbn. split_and!; [done..|]. destruct (e =? 0); by split_and!.
  - intros [[e n] s] [[e' n'] s'] (-> & -> & H). cbn. split_and!; [done..|].
    destruct (e =? 0); [by apply same_sym|]. by destruct H as (? & ? & ?).
  - intros [[e n] s] [[e' n'] s'] [[e'' n''] s''] (-> & -> & H) (-> & -> & H'). cbn.
    split_and!; [done..|]. destruct (e =? 0); [by eapply same_trans|].
    destruct H as (?&?&?), H' as (?&?&?). split_and!; congruence.
Qed.

(** Feeding buffers is feeding the stream they make up. *)
Lemma feed_concat ds : forall n d s, ready s -> error s = 0 ->
  exists r r', feed n (d :: ds) s = Done r /\ feed n [concat (d :: ds)] s = Done r' /\ agree r' r.
Proof.
  induction ds as [|d2 ds IH]; intros n d s Hr He.
  - cbn [concat]. rewrite app_nil_r.
    destruct (execute_good settings d s Hr) as (e & s' & E & _). cbn [feed]. rewrite E.
    destruct (e =? 0) eqn:Ez; do 2 eexists; (split_and!; [done..|reflexivity]).
  - destruct (execute_app d (concat (d2 :: ds)) s Hr He)
      as (e1 & s1 & e & s' & E1 & E & Hcase).
    change (concat (d :: d2 :: ds)) with (d ++ concat (d2 :: ds)).
    rewrite (feed_cons n d), (feed_cons n (_ ++ _)), E, E1. destruct (Z.eqb_spec e1 0) as [Z1|Z1].
    + destruct Hcase as (Hr1 & He1 & s2 & E2 & Hcase).
      destruct (IH (n + length d)%nat d2 s1 Hr1 He1) as (r & r' & F & F' & Hag).
      rewrite feed_cons, E2 in F'. exists r. rewrite F. cbn [feed] in *.
      destruct (Z.eqb_spec e 0) as [Ze|Ze]; injection F' as <-.
      * eexists. split_and!; [done..|]. etransitivity; [|exact Hag]. cbn.
        split_and!; [done|rewrite !length_app; cbn; rewrite ?length_app; lia|exact Hcase].
      * eexists. split_and!; [done..|]. etransitivity; [|exact Hag]. cbn.
        destruct Hcase as (Hpos & _ & _ & C3 & C4 & C5 & C6 & _). rewrite C6.
        rewrite (proj2 (Z.eqb_neq _ _) Ze). split_and!; [done| |congruence..].
        destruct (error_pos s2); [cbn; lia|done].
    + destruct Hcase as [-> ->]. rewrite (proj2 (Z.eqb_neq _ _) Z1).
      do 2 eexists. split_and!; [done..|reflexivity].
Qed.

(** C5.  The result of parsing a stream does not depend on how it is cut into
    buffers: for data callbacks that collect what they are given (in any
    monoid-like way), and any other callbacks, two ways to feed the same bytes,
    empty buffers and cuts inside a literal, a number, a span or a chunk
    included, give the same code; without an error the same fields, the same
    collected data, the same state to go on from; with one the same reason, the
    same offset in the stream, the same fields and state. *)
Theorem llhttp_chunking (ds ds' : list (list Z)) (s : llhttp_t U)
    (Hs : ready s) (He : error s = 0) (Hds : ds <> []) (Hds' : ds' <> [])
    (Hcat : concat ds = concat ds') :
  exists r r', feed 0 ds s = Done r /\ feed 0 ds' s = Done r' /\ agree r r'.
Proof.
  destruct ds as [|d ds]; [done|]. destruct ds' as [|d' ds']; [done|].
  destruct (feed_concat ds 0 d s Hs He) as (r & r1 & F & F1 & A).
  destruct (feed_concat ds' 0 d' s Hs He) as (r' & r2 & F' & F2 & A').
  rewrite Hcat in F1. rewrite F1 in F2. injection F2 as ->.
  exists r, r'. split_and!; [done..|]. etransitivity; [symmetry; exact A|exact A'].
Qed.
End Stream.
End Machine.
End LlhttpCut.
