(* ===== verification/LlhttpData.v ===== *)
(** * LlhttpData: the HTTP parser and its user's data

    llhttp hands its user's data from callback to callback and looks at nothing
    of it but the codes the callbacks return.  Here: two runs that differ only
    in that data go through the same blocks as long as the callbacks keep the
    two related, form by form, and from it that a call of [llhttp_execute] does
    the same for both. *)
From S2P Require Import Prelude TcpSock Llhttp LlhttpRun LlhttpProps.

Module LlhttpData.
Import Llhttp LlhttpRun LlhttpProps.

(** The callbacks of [settings] give the same code for data related by [R] and
    leave it related. *)
Class Related {U : Type} (settings : llhttp_settings_t U) (R : U -> U -> Prop) : Prop := {
  span_related c x pb u u' : R u u' ->
    match (match c with
           | span_on_url => on_url settings | span_on_status => on_status settings
           | span_on_header_field => on_header_field settings
           | span_on_header_value => on_header_value settings | span_on_body => on_body settings
           end) with
    | None => True
    | Some cb => fst (cb pb u x) = fst (cb pb u' x) /\ R (snd (cb pb u x)) (snd (cb pb u' x))
    end;
  call_related cb pb u u' : R u u' ->
    In (Some cb) [on_message_begin settings; on_headers_complete settings; on_message_complete settings;
      on_chunk_header settings; on_chunk_complete settings; on_url_complete settings;
      on_status_complete settings; on_header_field_complete settings; on_header_value_complete settings] ->
    fst (cb pb u) = fst (cb pb u') /\ R (snd (cb pb u)) (snd (cb pb u'))
}.

Section Data.
Context {U : Type} (settings : llhttp_settings_t U) (R : U -> U -> Prop) `{!Related settings R}.

(** Two parsers that differ only in their user's data, which is related. *)
Definition like (s s' : llhttp_t U) : Prop := s' = set_data (data s') s /\ R (data s) (data s').

Lemma like_intro s u : R (data s) u -> like s (set_data u s).
Proof. by split. Qed.
Lemma like_elim s s' : like s s' -> exists u, s' = set_data u s /\ R (data s) u.
Proof. intros [E H]. by exists (data s'). Qed.

Definition like_outcome (o o' : outcome U) : Prop :=
  match o, o' with
  | Goto l p m s, Goto l' p' m' s' => l' = l /\ p' = p /\ m' = m /\ like s s'
  | Ret l s, Ret l' s' => l' = l /\ like s s'
  | Err s, Err s' => like s s'
  | Llhttp.Fault, Llhttp.Fault => True
  | _, _ => False
  end.

Definition block_like (B : block U) : Prop :=
  forall d p m s s', like s s' -> like_outcome (B d p m s) (B d p m s').

Lemma take_branch_like b p m s s' : like s s' -> like_outcome (take_branch b p m s) (take_branch b p m s').
Proof. by destruct b. Qed.

Lemma switch_like conv l cases default : block_like (switch_conv conv l cases default).
Proof.
  intros d p m s s' H. unfold switch_conv. destruct (d !! p); [by apply take_branch_like|done].
Qed.

Lemma next_like l l' : block_like (next l l').
Proof. apply switch_like. Qed.

Lemma match_like kind l seq complete mismatch : block_like (match_sequence kind l seq complete mismatch).
Proof.
  intros d p m s s' (u & -> & H)%like_elim. unfold match_sequence. destruct (d !! p); [|done].
  cbn [_index set_data]. destruct (kind seq (drop p d) (_index s)) as [[[[] n] i]|]; [| | |done].
  - by apply take_branch_like.
  - done.
  - by apply take_branch_like.
Qed.

Lemma span_start_like l c l' : block_like (span_start l c l').
Proof. intros d p m s s' (u & -> & H)%like_elim. unfold span_start. by destruct (d !! p). Qed.

Lemma call_span_like c x s s' : like s s' ->
  fst (call_span settings c x s) = fst (call_span settings c x s') /\
  like (snd (call_span settings c x s)) (snd (call_span settings c x s')).
Proof.
  intros (u & -> & H)%like_elim. pose proof (span_related c x (fields s) (data s) u H) as Hc.
  destruct c; cbn [call_span]; unfold llhttp__on_url, llhttp__on_status, llhttp__on_header_field,
    llhttp__on_header_value, llhttp__on_body, data_callback_maybe;
    match goal with |- context [match ?o with Some _ => _ | None => _ end] => destruct o as [cb|] end;
    try done; cbn [fields data set_data];
    destruct (cb (fields s) (data s) x) as [e v], (cb (fields s) u x) as [e' v']; cbn [fst snd] in *;
    by destruct Hc as [-> Hv].
Qed.

Lemma span_end_like c b : block_like (span_end settings c b).
Proof.
  intros d p m s s' (u & -> & H)%like_elim. unfold span_end. cbn [_span_pos0 set_data].
  destruct (_span_pos0 s) as [start|]; [|done].
  destruct (call_span_like c (take (p - start) (drop start d)) (set_span_pos0 None s)
    (set_span_pos0 None (set_data u s))) as [Ec Hc]; [done|].
  destruct (call_span settings c _ (set_span_pos0 None s)) as [e s1],
    (call_span settings c _ (set_span_pos0 None (set_data u s))) as [e' s2].
  cbn [fst snd] in *. subst e'. apply like_elim in Hc as (v & -> & Hv).
  destruct (e =? 0); [by apply take_branch_like|done].
Qed.

Lemma invoke_like f cases default : block_like (invoke f cases default).
Proof.
  intros d p m s s' (u & -> & H)%like_elim. unfold invoke. cbn [fields set_data]. by destruct (f (fields s)).
Qed.

Lemma invoke_match_like f cases default : block_like (invoke_match f cases default).
Proof. intros d p m s s' H. by apply invoke_like. Qed.

Lemma invoke_cb_like cb cases default :
  In cb [on_message_begin settings; on_headers_complete settings; on_message_complete settings;
    on_chunk_header settings; on_chunk_complete settings; on_url_complete settings;
    on_status_complete settings; on_header_field_complete settings; on_header_value_complete settings] ->
  block_like (invoke_cb (callback_maybe cb) cases default).
Proof.
  intros Hin d p m s s' (u & -> & H)%like_elim. unfold invoke_cb, callback_maybe. destruct cb as [cb|]; [|done].
  pose proof (call_related cb (fields s) (data s) u H Hin) as [Ee Hv]. cbn [fields data set_data].
  destruct (cb (fields s) (data s)) as [e v], (cb (fields s) u) as [e' v']. cbn [fst snd] in *. by subst e'.
Qed.

Lemma fail_like code why : block_like (fail code why).
Proof. intros d p m s s' (u & -> & H)%like_elim. done. Qed.
Lemma pause_like code why l : block_like (pause code why l).
Proof. intros d p m s s' (u & -> & H)%like_elim. done. Qed.

Lemma consume_like l l' : block_like (consume_content_length l l').
Proof.
  intros d p m s s' (u & -> & H)%like_elim. unfold consume_content_length. cbn [fields set_data].
  by destruct (content_length (fields s) <=? Z.of_nat (length d - p)).
Qed.

Lemma block_of_like l : block_like (block_of settings l).
Proof.
  destruct l; cbn [block_of];
    first [ apply next_like
          | apply switch_like
          | apply match_like
          | apply span_start_like
          | apply span_end_like
          | apply fail_like
          | apply pause_like
          | apply consume_like
          | apply invoke_cb_like; cbn [In]; tauto
          | apply invoke_match_like
          | apply invoke_like ].
Qed.

Lemma run_like fuel : forall d l p m s s', like s s' ->
  match run settings fuel d l p m s, run settings fuel d l p m s' with
  | Done (o, s1), Done (o', s1') => o' = o /\ like s1 s1'
  | OutOfFuel, OutOfFuel | TcpSock.Fault, TcpSock.Fault => True
  | _, _ => False
  end.
Proof.
  induction fuel as [|fuel IH]; intros d l p m s s' H; cbn [run]; [done|].
  pose proof (block_of_like l d p m s s' H) as Ho.
  destruct (block_of settings l d p m s) as [l1 p1 m1 s1|l1 s1|s1|],
    (block_of settings l d p m s') as [l2 p2 m2 s2|l2 s2|s2|]; cbn [like_outcome] in Ho; try done.
  - destruct Ho as (-> & -> & -> & Ho). by apply IH.
  - by destruct Ho as [-> Ho].
Qed.

(** A call does the same, whichever of the related data the parser holds. *)
Lemma execute_like fuel d s s' : like s s' ->
  match llhttp_execute settings fuel d s, llhttp_execute settings fuel d s' with
  | Done (e, s1), Done (e', s1') => e' = e /\ like s1 s1'
  | OutOfFuel, OutOfFuel | TcpSock.Fault, TcpSock.Fault => True
  | _, _ => False
  end.
Proof.
  intros (u & -> & H)%like_elim. unfold llhttp_execute, llhttp__internal_execute. cbn [error set_data _span_pos0].
  destruct (error s =? 0); cbn [negb]; [|done].
  set (t := match _span_pos0 s with None => s | Some _ => set_span_pos0 (Some 0%nat) s end).
  set (t' := match _span_pos0 s with None => set_data u s | Some _ => set_span_pos0 (Some 0%nat) (set_data u s) end).
  assert (like t t') as Ht by (unfold t, t'; by destruct (_span_pos0 s)).
  assert (_current t' = _current t) as -> by (unfold t, t'; by destruct (_span_pos0 s)).
  destruct (_current t) as [l|]; [|done]. pose proof (run_like fuel d l 0%nat 0 t t' Ht) as Hrun.
  destruct (run settings fuel d l 0 0 t) as [[o s1]| |], (run settings fuel d l 0 0 t') as [[o' s2]| |]; try done.
  destruct Hrun as [-> (v & -> & Hv)%like_elim]. destruct o as [l'|]; [|done]. cbn [_span_pos0 _span_cb0 set_current set_data].
  destruct (_span_pos0 s1) as [start|]; [|done]. destruct (_span_cb0 s1) as [c|]; [|done].
  destruct (call_span_like c (drop start d) (set_current (Some l') s1) (set_current (Some l') (set_data v s1))) as [Ec Hc]; [done|].
  destruct (call_span settings c _ (set_current (Some l') s1)) as [e s3],
    (call_span settings c _ (set_current (Some l') (set_data v s1))) as [e' s4].
  cbn [fst snd] in *. subst e'. apply like_elim in Hc as (w & -> & Hw). by destruct (e =? 0).
Qed.
End Data.
End LlhttpData.
