(* ===== verification/LlhttpMsg.v ===== *)
(** * LlhttpMsg: what the HTTP parser makes of a request

    A client that collects what the callbacks give it, and a whole request
    with a body: the theorem follows a request through the states of LlhttpRun,
    one buffer per part, and puts the parts together by LlhttpCut. *)
From Stdlib Require Import String Ascii.
From S2P Require Import Prelude TcpSock Llhttp LlhttpRun LlhttpProps LlhttpCut.

Module LlhttpMsg.
Import Llhttp LlhttpRun LlhttpProps LlhttpCut.

(** ** A client that collects *)

Record collected : Type := mkcollected {
  c_url : list Z; c_status : list Z; c_field : list Z; c_value : list Z; c_body : list Z;
  c_messages : nat
}.
Definition nothing : collected := mkcollected [] [] [] [] [] 0.

Definition collect (c : span) (u : collected) (x : list Z) : collected :=
  let 'mkcollected a b f v y n := u in
  match c with
  | span_on_url => mkcollected (a ++ x) b f v y n
  | span_on_status => mkcollected a (b ++ x) f v y n
  | span_on_header_field => mkcollected a b (f ++ x) v y n
  | span_on_header_value => mkcollected a b f (v ++ x) y n
  | span_on_body => mkcollected a b f v (y ++ x) n
  end.

Definition collect_cb (c : span) : option (llhttp_data_cb collected) :=
  Some (fun _ u x => (0, collect c u x)).
Definition collect_settings : llhttp_settings_t collected := {|
  on_url := collect_cb span_on_url; on_status := collect_cb span_on_status;
  on_header_field := collect_cb span_on_header_field;
  on_header_value := collect_cb span_on_header_value; on_body := collect_cb span_on_body;
  on_message_begin := None; on_headers_complete := None;
  on_message_complete := Some (fun _ '(mkcollected a b f v y n) => (0, mkcollected a b f v y (S n)));
  on_chunk_header := None; on_chunk_complete := None; on_url_complete := None;
  on_status_complete := None; on_header_field_complete := None; on_header_value_complete := None
|}.

#[export] Instance collect_appending : Appending collect_settings collect.
Proof.
  split; [by intros []|]. intros c [] x y. by destruct c; cbn; rewrite app_assoc.
Qed.

Definition bytes_of (s : string) : list Z := map (fun a => Z.of_N (N_of_ascii a)) (list_ascii_of_string s).
Definition CRLF : list Z := [13; 10].

(** ** The parts of a request *)

(** A path: a slash and bytes the parser takes as part of one. *)
Definition path_byte (c : Z) : bool := nth (Z.to_nat c) table_url_path 0 =? 1.
Definition path_ok (url : list Z) : bool :=
  match url with c :: r => (c =? 47) && forallb path_byte r | [] => false end.
Definition digit_ok (c : Z) : bool := (48 <=? c) && (c <=? 57).
Fixpoint number (v : Z) (ds : list Z) : Z :=
  match ds with [] => v | c :: ds => number (v * 10 + (c - 48)) ds end.

Definition head_1 : list Z := bytes_of "POST ".
Definition head_2 : list Z := bytes_of " HTTP/1.1" ++ CRLF ++ bytes_of "Content-Length: ".
Definition head_3 : list Z := CRLF ++ CRLF.
Definition post_request (url digits body : list Z) : list Z :=
  head_1 ++ url ++ head_2 ++ digits ++ head_3 ++ body.

Abbreviation state := (llhttp_t collected).
Abbreviation running := (run collect_settings).

Lemma run_S f d l p m (s : state) :
  running (S f) d l p m s =
    match block_of collect_settings l d p m s with
    | Goto l p m s => running f d l p m s
    | Ret l s => Done (Some l, s)
    | Err s => Done (None, s)
    | Llhttp.Fault => TcpSock.Fault
    end.
Proof. done. Qed.

(** The bytes of a path are taken one by one. *)
Lemma path_loop d r : forall p f m (s : state),
  drop p d = r -> forallb path_byte r = true -> (length r < f)%nat ->
  running f d n_url_path p m s = Done (Some n_url_path, s).
Proof.
  induction r as [|c r IH]; intros p f m s Hd Hr Hf; (destruct f as [|f]; [by apply Nat.nlt_0_r in Hf|]);
    rewrite run_S; cbn [block_of]; unfold b_url_path, switch_table, switch_conv.
  - assert (d !! p = None) as ->; [|done].
    apply lookup_ge_None. assert (length (drop p d) = 0%nat) as H by by rewrite Hd.
    rewrite length_drop in H. lia.
  - assert (d !! p = Some c) as ->.
    { rewrite <- (Nat.add_0_r p), <- lookup_drop, Hd. done. }
    cbn [forallb] in Hr. apply andb_true_iff in Hr as [Hc Hr]. unfold path_byte in Hc.
    cbn [lookup_case]. rewrite Hc. cbn [take_branch length] in *. apply IH; [|done|lia].
    rewrite <- Nat.add_1_r, <- drop_drop, Hd. done.
Qed.

Lemma digit_cases c : digit_ok c = true ->
  In c [48; 49; 50; 51; 52; 53; 54; 55; 56; 57].
Proof. intros [H1%Z.leb_le H2%Z.leb_le]%andb_true_iff. cbn. lia. Qed.

Lemma number_ge ds : forall v, 0 <= v -> forallb digit_ok ds = true -> v <= number v ds.
Proof.
  induction ds as [|c ds IH]; intros v Hv Hd; cbn [number forallb] in *; [lia|].
  apply andb_true_iff in Hd as [[H1%Z.leb_le H2%Z.leb_le]%andb_true_iff Hd].
  specialize (IH (v * 10 + (c - 48)) ltac:(lia) Hd). lia.
Qed.

Lemma drop_cons_lookup {A} (d : list A) p c r : drop p d = c :: r -> d !! p = Some c /\ drop (S p) d = r.
Proof.
  intros H. split; [by rewrite <- (Nat.add_0_r p), <- lookup_drop, H|].
  by rewrite <- Nat.add_1_r, <- drop_drop, H.
Qed.
Lemma drop_nil_lookup {A} (d : list A) p : drop p d = [] -> d !! p = None.
Proof. intros H. by rewrite <- (Nat.add_0_r p), <- lookup_drop, H. Qed.

(** The digits of a length. *)
Lemma digits_loop d r : forall p f m (s : state),
  drop p d = r -> forallb digit_ok r = true -> (2 * length r < f)%nat ->
  0 <= content_length (fields s) -> number (content_length (fields s)) r < 2 ^ 64 ->
  running f d n_header_value_content_length p m s =
    Done (Some n_header_value_content_length,
          set_fields (set_content_length (number (content_length (fields s)) r) (fields s)) s).
Proof.
  induction r as [|c r IH]; intros p f m s Hd Hr Hf Hv Hn; (destruct f as [|f]; [by apply Nat.nlt_0_r in Hf|]);
    rewrite run_S; cbn [block_of]; unfold b_header_value_content_length, switch, switch_conv.
  - rewrite (drop_nil_lookup _ _ Hd). cbn [number]. by destruct s as [? ? ? ? ? ? ? ? []].
  - destruct (drop_cons_lookup _ _ _ _ Hd) as [-> Hd']. cbn [forallb number length] in *.
    apply andb_true_iff in Hr as [Hc Hr]. set (v := content_length (fields s)) in *.
    assert (48 <= c <= 57) as Hc' by (apply andb_true_iff in Hc as [?%Z.leb_le ?%Z.leb_le]; lia).
    pose proof (number_ge r (v * 10 + (c - 48)) ltac:(lia) Hr).
    assert (E : take_branch (lookup_case (id c)
       [(48, adv_m 0 n_invoke_mul_add_content_length_1); (49, adv_m 1 n_invoke_mul_add_content_length_1);
        (50, adv_m 2 n_invoke_mul_add_content_length_1); (51, adv_m 3 n_invoke_mul_add_content_length_1);
        (52, adv_m 4 n_invoke_mul_add_content_length_1); (53, adv_m 5 n_invoke_mul_add_content_length_1);
        (54, adv_m 6 n_invoke_mul_add_content_length_1); (55, adv_m 7 n_invoke_mul_add_content_length_1);
        (56, adv_m 8 n_invoke_mul_add_content_length_1); (57, adv_m 9 n_invoke_mul_add_content_length_1)]
       (stay n_header_value_content_length_ws)) p m s =
       Goto n_invoke_mul_add_content_length_1 (S p) (c - 48) s).
    { by destruct (digit_cases c Hc) as [<-|[<-|[<-|[<-|[<-|[<-|[<-|[<-|[<-|[<-|[]]]]]]]]]]]. }
    rewrite E. destruct f as [|f]; [lia|]. rewrite run_S; cbn [block_of].
    unfold b_invoke_mul_add_content_length_1, invoke_match, invoke, c_mul_add_content_length_1.
    fold v. rewrite (proj2 (Z.ltb_ge _ _)) by divlia.
    cbn [content_length set_content_length]. rewrite (proj2 (Z.leb_le 0 (c - 48))) by lia.
    rewrite wrap_small by (unfold in_u; lia). rewrite (proj2 (Z.ltb_ge _ _)) by lia. rewrite wrap_small by (unfold in_u; lia).
    cbn [lookup_case]. rewrite IH; cbn [fields set_fields content_length set_content_length]; auto; lia.
Qed.

(** ** The states between the parts *)

Definition request_pub (n flags_ major minor header finish_ : Z) : pub :=
  mkpub n HTTP_REQUEST 3 major minor header 0 0 finish_ flags_ 0.
Definition field_name : list Z := bytes_of "Content-Length".

Definition after_1 : state :=
  mk 0 None None 0 None None nothing (Some n_req_spaces_before_url) (request_pub 0 0 0 0 0 2).
Definition after_url (url : list Z) : state :=
  mk 0 (Some 0%nat) (Some span_on_url) 0 None None (mkcollected url [] [] [] [] 0)
    (Some n_url_path) (request_pub 0 0 0 0 0 2).
Definition after_2 (url : list Z) : state :=
  mk 0 None (Some span_on_header_field) 0 None None (mkcollected url [] field_name [] [] 0)
    (Some n_header_value_discard_ws) (request_pub 0 0 1 1 2 2).
Definition after_digits (url digits : list Z) (n : Z) : state :=
  mk 0 (Some 0%nat) (Some span_on_header_value) 0 None None
    (mkcollected url [] field_name digits [] 0)
    (Some n_header_value_content_length) (request_pub n 0 1 1 2 2).
Definition after_3 (url digits : list Z) (n : Z) : state :=
  mk 0 None (Some span_on_header_value) 0 None None (mkcollected url [] field_name digits [] 0)
    (Some n_span_start_llhttp__on_body_1) (request_pub n F_CONTENT_LENGTH 1 1 2 2).
(** With the whole message parsed; the span last closed is left behind. *)
Definition after_message (url digits body : list Z) (c : span) : state :=
  mk 0 None (Some c) 0 None None (mkcollected url [] field_name digits body 1)
    (Some n_start) (request_pub 0 0 1 1 2 0).

Abbreviation exec d := (llhttp_execute collect_settings (fuel_for d) d).

(** A call whose run is known. *)
Lemma exec_run f d l l' (s s' : state) :
  error s = 0 -> _current s = Some l -> running f d l 0 0 (restart s) = Done (Some l', s') ->
  (f <= fuel_for d)%nat ->
  exec d s =
    match _span_pos0 s', _span_cb0 s' with
    | Some x, Some c => Done (0, set_data (collect c (data s') (drop x d)) (set_current (Some l') s'))
    | Some _, None => TcpSock.Fault
    | None, _ => Done (0, set_current (Some l') s')
    end.
Proof.
  intros He Hl Hrun Hf. unfold llhttp_execute, llhttp__internal_execute. fold (restart s).
  rewrite He. cbn [negb Z.eqb].
  assert (_current (restart s) = Some l) as -> by (unfold restart; by destruct (_span_pos0 s)).
  rewrite (run_mono _ _ _ _ _ _ _ _ _ Hrun Hf).
  cbn [_span_pos0 _span_cb0 set_current]. destruct (_span_pos0 s'), (_span_cb0 s'); try done.
  by rewrite (@call_append _ _ collect _).
Qed.

Lemma exec_1 : exec head_1 (llhttp_init HTTP_REQUEST nothing) = Done (0, after_1).
Proof. by vm_compute. Qed.

Lemma exec_url url : path_ok url = true -> exec url after_1 = Done (0, after_url url).
Proof.
  destruct url as [|c r]; [done|]. intros [->%Z.eqb_eq Hr]%andb_true_iff.
  rewrite (exec_run (5 + S (length r)) _ n_req_spaces_before_url n_url_path _
             (set_span_cb0 (Some span_on_url) (set_span_pos0 (Some 0%nat) after_1))); [done..| |].
  - rewrite <- (path_loop (47 :: r) r 1 (S (length r)) 0); [reflexivity|done..|lia].
  - unfold fuel_for, K. cbn [length]. lia.
Qed.

Lemma exec_2 url : exec head_2 (after_url url) = Done (0, after_2 url).
Proof.
  let v := eval vm_compute in head_2 in change head_2 with v.
  cbv -[app]. by rewrite app_nil_r.
Qed.

(** From the colon to the first digit. *)
Lemma digits_start url c r f m (s : state) :
  digit_ok c = true -> s = after_2 url ->
  exists k m', (k <= 4)%nat /\
  running (k + f) (c :: r) n_header_value_discard_ws 0 m s =
  running f (c :: r) n_header_value_content_length 0 m'
    (set_span_cb0 (Some span_on_header_value) (set_span_pos0 (Some 0%nat) s)).
Proof.
  intros Hc ->. exists 4%nat, m. split; [lia|].
  by destruct (digit_cases c Hc) as [<-|[<-|[<-|[<-|[<-|[<-|[<-|[<-|[<-|[<-|[]]]]]]]]]]].
Qed.

Lemma exec_digits url digits :
  digits <> [] -> forallb digit_ok digits = true -> number 0 digits < 2 ^ 64 ->
  exec digits (after_2 url) = Done (0, after_digits url digits (number 0 digits)).
Proof.
  intros Hne Hd Hn. destruct digits as [|c r]; [done|].
  assert (Hc := proj1 (proj1 (andb_true_iff _ _) Hd)).
  destruct (digits_start url c r (S (2 * length (c :: r))) 0 (after_2 url) Hc eq_refl)
    as (k & m' & Hk & E).
  rewrite (digits_loop (c :: r) (c :: r)) in E; [|done|done|lia|done|exact Hn].
  rewrite (exec_run _ _ n_header_value_discard_ws _ (after_2 url) _ eq_refl eq_refl E).
  - reflexivity.
  - unfold fuel_for, K. cbn [length]. lia.
Qed.

Lemma exec_3 url digits n : 0 < n ->
  exec head_3 (after_digits url digits n) = Done (0, after_3 url digits n).
Proof.
  intros Hn. destruct n as [|n|n]; try lia.
  let v := eval vm_compute in head_3 in change head_3 with v.
  cbv -[app]. by rewrite app_nil_r.
Qed.

Lemma exec_3_empty url digits :
  exec head_3 (after_digits url digits 0) =
    Done (0, after_message url digits [] span_on_header_value).
Proof.
  let v := eval vm_compute in head_3 in change head_3 with v.
  cbv -[app]. by rewrite app_nil_r.
Qed.

(** The body is handed over when its last byte is there. *)
Lemma exec_body url digits body :
  0 < Z.of_nat (length body) ->
  exec body (after_3 url digits (Z.of_nat (length body))) =
    Done (0, after_message url digits body span_on_body).
Proof.
  intros Hn. destruct body as [|c r]; [done|]. set (d := c :: r) in *.
  rewrite (exec_run 8 _ n_span_start_llhttp__on_body_1 n_start _
             (set_current (Some n_span_start_llhttp__on_body_1)
                (after_message url digits d span_on_body))); [done..| |].
  - rewrite run_S. cbn [block_of]. unfold b_span_start_llhttp__on_body_1, span_start.
    change (d !! 0%nat) with (Some c). cbn [lookup list_lookup].
    rewrite run_S. cbn [block_of]. unfold b_consume_content_length_1, consume_content_length.
    change (content_length _) with (Z.of_nat (length d)).
    rewrite Nat.sub_0_r, Z.leb_refl, Nat2Z.id, Nat.add_0_l.
    rewrite run_S. cbn [block_of]. unfold b_span_end_llhttp__on_body_1, span_end.
    cbn [_span_pos0 set_fields set_span_cb0 set_span_pos0].
    rewrite Nat.sub_0_r, drop_0, firstn_all.
    assert (E : d !! length d = None) by (apply lookup_ge_None; lia).
    clearbody d. generalize dependent (length d). intros n Hn E. cbv -[lookup list_lookup].
    change (list_lookup n d) with (d !! n). by rewrite E.
  - unfold fuel_for, K. cbn [length]. lia.
Qed.

(** The parts of a request, one after the other. *)
Lemma feed_parts url digits body :
  path_ok url = true -> digits <> [] -> forallb digit_ok digits = true ->
  number 0 digits = Z.of_nat (length body) -> Z.of_nat (length body) < 2 ^ 64 ->
  exists n c, feed collect_settings 0 [head_1; url; head_2; digits; head_3; body]
    (llhttp_init HTTP_REQUEST nothing) = Done (0, n, after_message url digits body c).
Proof.
  intros Hu Hne Hd Hn Hlt.
  rewrite feed_cons, exec_1. cbn [Z.eqb]. rewrite feed_cons, (exec_url _ Hu). cbn [Z.eqb].
  rewrite feed_cons, exec_2. cbn [Z.eqb]. rewrite feed_cons, exec_digits by (done || lia).
  cbn [Z.eqb]. rewrite Hn, feed_cons. destruct body as [|c r].
  - change (Z.of_nat (length [])) with 0. rewrite exec_3_empty. cbn [Z.eqb].
    rewrite feed_cons. do 2 eexists. reflexivity.
  - rewrite exec_3 by (cbn [length]; lia). cbn [Z.eqb].
    rewrite feed_cons, exec_body by (cbn [length]; lia). do 2 eexists. reflexivity.
Qed.

(** C16.  A POST request with a body is parsed to what it says: for any path
    of bytes the parser's table allows, any [Content-Length] (leading zeros
    included, below 2^64) and any body of that length, the whole request in one
    buffer gives no error, the callbacks get exactly the URL, the
    field name, its value and the body, one message is complete, no flag of it
    is left and the parser waits for the next request. *)
Theorem llhttp_post_request (url digits body : list Z)
    (Hu : path_ok url = true) (Hne : digits <> []) (Hd : forallb digit_ok digits = true)
    (Hn : number 0 digits = Z.of_nat (length body)) (Hlt : Z.of_nat (length body) < 2 ^ 64) :
  exists s, exec (post_request url digits body) (llhttp_init HTTP_REQUEST nothing) = Done (0, s) /\
    data s = mkcollected url [] field_name digits body 1 /\
    method (fields s) = 3 /\ flags (fields s) = 0 /\ finish (fields s) = HTTP_FINISH_SAFE /\
    _current s = Some n_start.
Proof.
  destruct (feed_parts url digits body Hu Hne Hd Hn Hlt) as (n & c & Hf).
  destruct (feed_concat collect_settings collect [url; head_2; digits; head_3; body] 0 head_1 _
              (ready_init HTTP_REQUEST nothing) eq_refl) as (r & r' & F & F' & Hag).
  rewrite F in Hf. injection Hf as ->. rewrite feed_cons in F'.
  assert (E : concat [head_1; url; head_2; digits; head_3; body] = post_request url digits body).
  { cbn [concat]. unfold post_request. by rewrite app_nil_r. }
  rewrite E in F'. destruct (exec (post_request url digits body) _) as [[e s]| |]; [|done..].
  destruct (Z.eqb_spec e 0) as [->|Hne0]; injection F' as <-; cbn [agree] in Hag.
  - exists s. destruct Hag as (_ & _ & _ & _ & _ & _ & _ & H1 & H2 & H3).
    rewrite <- H1, <- H2, <- H3. by split_and!.
  - destruct Hag as (<- & _). done.
Qed.

Definition request_example : list Z := post_request (bytes_of "/a") (bytes_of "3") (bytes_of "abc").

Lemma llhttp_post_request_witness :
  exists s, exec request_example (llhttp_init HTTP_REQUEST nothing) = Done (0, s) /\
    data s = mkcollected (bytes_of "/a") [] field_name (bytes_of "3") (bytes_of "abc") 1 /\
    method (fields s) = 3 /\ flags (fields s) = 0 /\ finish (fields s) = HTTP_FINISH_SAFE /\
    _current s = Some n_start.
Proof.
  exact (llhttp_post_request (bytes_of "/a") (bytes_of "3") (bytes_of "abc")
           eq_refl ltac:(discriminate) eq_refl eq_refl eq_refl).
Defined.

Lemma llhttp_chunking_witness :
  concat [take 8 request_example; drop 8 request_example] = request_example /\
  exists r r', feed collect_settings 0 [take 8 request_example; drop 8 request_example]
      (llhttp_init HTTP_REQUEST nothing) = Done r /\
    feed collect_settings 0 [request_example] (llhttp_init HTTP_REQUEST nothing) = Done r' /\
    agree r r'.
Proof.
  split; [reflexivity|].
  exact (llhttp_chunking collect_settings collect [take 8 request_example; drop 8 request_example]
           [request_example] (llhttp_init HTTP_REQUEST nothing) (ready_init HTTP_REQUEST nothing)
           eq_refl ltac:(discriminate) ltac:(discriminate) eq_refl).
Defined.

Lemma llhttp_error_final_witness :
  let s := llhttp_init HTTP_REQUEST nothing in
  let bad := match exec (bytes_of "BAD") s with Done (_, s') => s' | _ => s end in
  error bad = HPE_INVALID_METHOD /\
  exists s', do_calls collect_settings [Resume; Execute request_example; Finish] bad =
      Done ([0; HPE_INVALID_METHOD; 0], s') /\
    error s' = error bad /\ reason s' = reason bad /\ error_pos s' = error_pos bad /\
    data s' = data bad.
Proof.
  cbv zeta. split; [reflexivity|].
  refine (llhttp_error_final collect_settings [Resume; Execute request_example; Finish] _ _).
  repeat split; vm_compute; discriminate.
Defined.
End LlhttpMsg.
