(* ===== verification/Heap.v ===== *)
(** * Heap: the binary heap of the timers

    Models src/src/common/Heap.cpp: a min heap of nodes linked by pointers.
    The nodes live in a store; a pointer is an address or null, a pointer to a
    pointer names the variable it points to; a use of null or of an address
    outside the store is [None]. *)
From stdpp Require Import gmap.
From S2P Require Import Prelude.

Module CHeap.

(** ** Data *)

(** Addresses of nodes. *)
Abbreviation addr := positive.
Abbreviation ptr := (option positive).

(** [struct heap_node] and [struct heap]. *)
Record heap_node : Type := mknode { left : ptr; right : ptr; parent : ptr }.
Record heap : Type := mkheap { min : ptr; nelts : Z }.

Definition set_left (v : ptr) (x : heap_node) : heap_node := mknode v (right x) (parent x).
Definition set_right (v : ptr) (x : heap_node) : heap_node := mknode (left x) v (parent x).
Definition set_parent (v : ptr) (x : heap_node) : heap_node := mknode (left x) (right x) v.

(** The memory: the nodes and the heap structure. *)
Record mem : Type := mkmem { nodes : gmap addr heap_node; root : heap }.

Definition set_min (v : ptr) (s : mem) : mem := mkmem (nodes s) (mkheap v (nelts (root s))).
Definition set_nelts (v : Z) (s : mem) : mem := mkmem (nodes s) (mkheap (min (root s)) v).

(** [*x], [x->f = v], and the same through a pointer that must not be null. *)
Definition deref (x : addr) (s : mem) : option heap_node := nodes s !! x.
Definition upd (f : heap_node -> heap_node) (x : addr) (s : mem) : option mem :=
  nd ← nodes s !! x; Some (mkmem (<[x := f nd]> (nodes s)) (root s)).
(** [if (p != NULL) p->f = v]. *)
Definition upd_opt (f : heap_node -> heap_node) (p : ptr) (s : mem) : option mem :=
  match p with None => Some s | Some x => upd f x s end.

Definition points_to (p : ptr) (x : addr) : bool := bool_decide (p = Some x).

Definition heap_init (s : mem) : mem := mkmem (nodes s) (mkheap None 0).
Definition heap_min (s : mem) : ptr := min (root s).

(** [heap_node_swap]. *)
Definition heap_node_swap (p c : addr) (s : mem) : option mem :=
  np ← deref p s;
  nc ← deref c s;
  s ← upd (fun _ => nc) p s;
  s ← upd (fun _ => np) c s;
  s ← upd (set_parent (Some c)) p s;
  nc ← deref c s;
  '(sibling, s) ←
    (if points_to (left nc) c
     then s ← upd (set_left (Some p)) c s; Some (right nc, s)
     else s ← upd (set_right (Some p)) c s; Some (left nc, s));
  s ← upd_opt (set_parent (Some c)) sibling s;
  np ← deref p s;
  s ← upd_opt (set_parent (Some p)) (left np) s;
  s ← upd_opt (set_parent (Some p)) (right np) s;
  nc ← deref c s;
  match parent nc with
  | None => Some (set_min (Some c) s)
  | Some g =>
      ng ← deref g s;
      if points_to (left ng) p then upd (set_left (Some c)) g s
      else upd (set_right (Some c)) g s
  end.

(** A variable of type [struct heap_node *] that can be pointed to. *)
Inductive slot : Type := SMin | SLeft (x : addr) | SRight (x : addr).

Definition load (v : slot) (s : mem) : option ptr :=
  match v with
  | SMin => Some (min (root s))
  | SLeft x => left <$> deref x s
  | SRight x => right <$> deref x s
  end.
Definition store (v : slot) (p : ptr) (s : mem) : option mem :=
  match v with
  | SMin => Some (set_min p s)
  | SLeft x => upd (set_left p) x s
  | SRight x => upd (set_right p) x s
  end.

(** [for (k = 0, n = n; n >= 2; k += 1, n /= 2) path = (path << 1) | (n & 1)];
    a 32-bit [n] takes at most 31 rounds. *)
Fixpoint path_loop (fuel : nat) (n : Z) (k : nat) (path : Z) : option (nat * Z) :=
  if 2 <=? n then
    match fuel with
    | O => None
    | S fuel => path_loop fuel (n / 2) (S k) (Z.lor (u32 (Z.shiftl path 1)) (Z.land n 1))
    end
  else Some (k, path).
Definition path_of (n : Z) : option (nat * Z) := path_loop 32 n 0 0.

(** [if (path & 1) child = &( *child)->right; else child = &( *child)->left]. *)
Definition child_slot (path : Z) (v : slot) (s : mem) : option slot :=
  p ← load v s;
  x ← p;
  Some (if Z.land path 1 =? 0 then SLeft x else SRight x).

(** The walk along the path: the slot before the last and the last. *)
Fixpoint walk (k : nat) (path : Z) (par ch : slot) (s : mem) : option (slot * slot) :=
  match k with
  | O => Some (par, ch)
  | S k => ch' ← child_slot path ch s; walk k (Z.shiftr path 1) ch ch' s
  end.

Section Less.
(** [less_than], on the nodes' addresses; it may read what is not there. *)
Context (less_than : addr -> addr -> option bool).

(** [while (x->parent != NULL && less_than(x, x->parent)) heap_node_swap];
    a heap of fewer than 2^32 nodes has at most 32 rows. *)
Fixpoint walk_up (fuel : nat) (x : addr) (s : mem) : option mem :=
  nx ← deref x s;
  match parent nx with
  | None => Some s
  | Some p =>
      b ← less_than x p;
      if b : bool then
        match fuel with
        | O => None
        | S fuel => s ← heap_node_swap p x s; walk_up fuel x s
        end
      else Some s
  end.

Definition smaller (p : ptr) (x : addr) : option addr :=
  match p with
  | Some y => b ← less_than y x; Some (if b : bool then y else x)
  | None => Some x
  end.

(** The walk down: swap with the smallest child. *)
Fixpoint walk_down (fuel : nat) (x : addr) (s : mem) : option mem :=
  nx ← deref x s;
  smallest ← smaller (left nx) x;
  smallest ← smaller (right nx) smallest;
  if bool_decide (smallest = x) then Some s
  else match fuel with
       | O => None
       | S fuel => s ← heap_node_swap x smallest s; walk_down fuel x s
       end.

Definition rows : nat := 32.

Definition heap_insert (x : addr) (s : mem) : option mem :=
  s ← upd (fun _ => mknode None None None) x s;
  '(k, path) ← path_of (u32 (1 + nelts (root s)));
  '(par, ch) ← walk k path SMin SMin s;
  p ← load par s;
  s ← upd (set_parent p) x s;
  s ← store ch (Some x) s;
  let s := set_nelts (u32 (nelts (root s) + 1)) s in
  walk_up rows x s.

(** "Replace the to be deleted node with the max node", [m]. *)
Definition replace (m x : addr) (s : mem) : option mem :=
  nx ← deref x s;
  s ← upd (fun _ => nx) m s;
  s ← upd_opt (set_parent (Some m)) (left nx) s;
  s ← upd_opt (set_parent (Some m)) (right nx) s;
  match parent nx with
  | None => Some (set_min (Some m) s)
  | Some g =>
      ng ← deref g s;
      if points_to (left ng) x then upd (set_left (Some m)) g s
      else upd (set_right (Some m)) g s
  end.

Definition heap_remove (x : addr) (s : mem) : option mem :=
  if nelts (root s) =? 0 then Some s else
  '(k, path) ← path_of (nelts (root s));
  '(_, max) ← walk k path SMin SMin s;
  let s := set_nelts (u32 (nelts (root s) - 1)) s in
  pc ← load max s;
  s ← store max None s;
  if points_to pc x then
    Some (if bool_decide (pc = min (root s)) then set_min None s else s)
  else
    child ← pc;
    s ← replace child x s;
    s ← walk_down rows child s;
    walk_up rows child s.

(** [heap_remove(heap, heap->min)]; with a null [min] and a count of one the
    null node is the one removed, with a greater count the walk uses it. *)
Definition heap_dequeue (s : mem) : option mem :=
  match min (root s) with
  | Some x => heap_remove x s
  | None =>
      if nelts (root s) =? 0 then Some s
      else if nelts (root s) =? 1 then Some (set_nelts 0 s)
      else None
  end.
End Less.
End CHeap.
