(* ===== verification/HeapRep.v ===== *)
(** * HeapRep: the pointers of the heap and the tree they stand for

    A memory of Heap represents a complete binary tree when every pointer of
    it is the one the place of its node demands.  Here: [heap_node_swap]
    exchanges two places, and the bits of a place's number lead to it. *)
From stdpp Require Import gmap.
From S2P Require Import Prelude Heap.

(** ** The tree

    A complete binary tree is a map from positions: the root is 1, the
    children of [p] are [2p] and [2p+1], which for binary positives are [p~0]
    and [p~1]. *)
Module HeapRep.
Import CHeap.

Definition above (p : positive) : positive := Pos.div2 p.

(** The node that position [p] of the tree [A] stands for. *)
Definition node_at (A : gmap positive addr) (p : positive) : heap_node :=
  mknode (A !! p~0%positive) (A !! p~1%positive)
    (match p with xH => None | _ => A !! above p end).

(** The memory holds the complete tree [A] of [n] nodes. *)
Record rep (A : gmap positive addr) (n : Z) (s : mem) : Prop := {
  rep_dom : forall p, is_Some (A !! p) <-> Z.pos p <= n;
  rep_inj : forall p q x, A !! p = Some x -> A !! q = Some x -> p = q;
  rep_node : forall p x, A !! p = Some x -> nodes s !! x = Some (node_at A p);
  rep_min : min (root s) = A !! 1%positive;
  rep_nelts : nelts (root s) = n
}.

(** The places of two nodes exchanged. *)
Definition exchange (p q : positive) (A : gmap positive addr) : gmap positive addr :=
  match A !! p, A !! q with
  | Some x, Some y => <[p := y]> (<[q := x]> A)
  | _, _ => A
  end.

(** ** Updates *)

Definition alter_opt (f : heap_node -> heap_node) (p : ptr) (N : gmap addr heap_node) :=
  match p with None => N | Some x => alter f x N end.

Lemma upd_eq f x s nd : nodes s !! x = Some nd ->
  upd f x s = Some (mkmem (<[x := f nd]> (nodes s)) (root s)).
Proof. intros H. unfold upd. by rewrite H. Qed.

Lemma upd_alter f x s : is_Some (nodes s !! x) ->
  upd f x s = Some (mkmem (alter f x (nodes s)) (root s)).
Proof.
  intros [nd H]. unfold upd. rewrite H. cbn [mbind option_bind].
  by rewrite (alter_alt_Some _ _ _ _ H).
Qed.

Lemma upd_opt_alter f p s : (forall x, p = Some x -> is_Some (nodes s !! x)) ->
  upd_opt f p s = Some (mkmem (alter_opt f p (nodes s)) (root s)).
Proof. destruct p as [x|]; [|by destruct s]. intros H. by apply upd_alter, H. Qed.

Lemma lookup_alter_opt f p N z :
  alter_opt f p N !! z = if decide (p = Some z) then f <$> N !! z else N !! z.
Proof.
  destruct p as [x|]; cbn; [|by rewrite decide_False].
  destruct (decide (x = z)) as [->|Hne].
  - by rewrite lookup_alter, !decide_True.
  - rewrite lookup_alter_ne, decide_False; congruence.
Qed.

Lemma alter_is_Some (f : heap_node -> heap_node) x (N : gmap addr heap_node) z :
  is_Some (N !! z) -> is_Some (alter f x N !! z).
Proof.
  intros. destruct (decide (x = z)) as [->|]; [|by rewrite lookup_alter_ne].
  rewrite lookup_alter, decide_True by done. by apply fmap_is_Some.
Qed.
Lemma alter_opt_is_Some f p N z : is_Some (N !! z) -> is_Some (alter_opt f p N !! z).
Proof. destruct p; [apply alter_is_Some|done]. Qed.
#[local] Hint Resolve alter_is_Some alter_opt_is_Some : core.

(** ** Renaming

    To exchange two nodes is to exchange their names in the whole memory. *)

Definition tr (x y z : addr) : addr := if decide (z = x) then y else if decide (z = y) then x else z.
Definition rename (x y : addr) (nd : heap_node) : heap_node :=
  mknode (tr x y <$> left nd) (tr x y <$> right nd) (tr x y <$> parent nd).

Lemma tr_l x y : tr x y x = y.
Proof. unfold tr. by rewrite decide_True. Qed.
Lemma tr_r x y : tr x y y = x.
Proof. unfold tr. destruct (decide (y = x)); [done|]. by rewrite decide_True. Qed.
Lemma tr_ne x y z : z <> x -> z <> y -> tr x y z = z.
Proof. intros. unfold tr. by rewrite !decide_False. Qed.
Lemma tr_tr x y z : tr x y (tr x y z) = z.
Proof. unfold tr. repeat case_decide; congruence. Qed.

Lemma exchange_lookup A p q x y k :
  A !! p = Some x -> A !! q = Some y ->
  (forall p q x, A !! p = Some x -> A !! q = Some x -> p = q) ->
  exchange p q A !! k = tr x y <$> A !! k.
Proof.
  intros Hx Hy Hinj. unfold exchange. rewrite Hx, Hy.
  destruct (decide (p = k)) as [->|Hp].
  - rewrite lookup_insert, decide_True, Hx by done. cbn. by rewrite tr_l.
  - rewrite lookup_insert_ne by done. destruct (decide (q = k)) as [->|Hq].
    + rewrite lookup_insert, decide_True, Hy by done. cbn. by rewrite tr_r.
    + rewrite lookup_insert_ne by done. destruct (A !! k) as [z|] eqn:Hz; [|done].
      cbn. rewrite tr_ne; [done|intros ->..]; [apply Hp|apply Hq]; by eapply Hinj.
Qed.

Lemma rep_rename A n s s' p q x y :
  rep A n s -> A !! p = Some x -> A !! q = Some y ->
  (forall k z, A !! k = Some z -> nodes s' !! tr x y z = Some (rename x y (node_at A k))) ->
  min (root s') = tr x y <$> min (root s) -> nelts (root s') = nelts (root s) ->
  rep (exchange p q A) n s'.
Proof.
  intros [Hdom Hinj Hnode Hmin Hn] Hx Hy Hren Hmin' Hn'.
  assert (E : forall k, exchange p q A !! k = tr x y <$> A !! k)
    by (intros; by apply exchange_lookup).
  split.
  - intros k. by rewrite E, fmap_is_Some.
  - intros k1 k2 z. rewrite !E, !fmap_Some. intros (z1 & H1 & ->) (z2 & H2 & H).
    apply (f_equal (tr x y)) in H. rewrite !tr_tr in H. subst. by eapply Hinj.
  - intros k z. rewrite E, fmap_Some. intros (z1 & H1 & ->). rewrite (Hren k z1 H1).
    unfold rename, node_at. cbn [left right parent]. rewrite !E. f_equal. f_equal. by destruct k.
  - by rewrite Hmin', Hmin, E.
  - by rewrite Hn'.
Qed.

(** What [heap_node_swap] writes, for nodes that are there. *)
Lemma heap_node_swap_run s x y np nc sib ny G :
  nodes s !! x = Some np -> nodes s !! y = Some nc -> x <> y ->
  (if points_to (left np) y
   then sib = right np /\ ny = mknode (Some x) (right np) (parent np)
   else sib = left np /\ ny = mknode (left np) (Some x) (parent np)) ->
  Forall (fun p => forall z, p = Some z -> z <> x /\ z <> y /\ is_Some (nodes s !! z))
    [sib; left nc; right nc; parent np] ->
  (forall g ng, parent np = Some g -> nodes s !! g = Some ng ->
     G = if points_to (left ng) x then set_left (Some y) else set_right (Some y)) ->
  heap_node_swap x y s = Some (mkmem
    (alter_opt G (parent np) (alter_opt (set_parent (Some x)) (right nc)
      (alter_opt (set_parent (Some x)) (left nc) (alter_opt (set_parent (Some y)) sib
        (<[y := ny]> (<[x := set_parent (Some y) nc]> (nodes s)))))))
    (match parent np with None => mkheap (Some y) (nelts (root s)) | Some _ => root s end)).
Proof.
  intros Hx Hy Hne Hny Hex HG.
  rewrite !Forall_cons_iff in Hex. destruct Hex as (Hs & Hl & Hr & Hg & _).
  unfold heap_node_swap, deref. rewrite Hx, Hy. cbn [mbind option_bind].
  rewrite (upd_eq _ x _ np) by done. cbn [mbind option_bind].
  rewrite (upd_eq _ y _ nc) by (cbn [nodes]; by rewrite lookup_insert_ne).
  cbn [mbind option_bind nodes root].
  rewrite (upd_eq _ x _ nc) by (cbn [nodes]; by rewrite lookup_insert_ne, lookup_insert_eq).
  cbn [mbind option_bind nodes root].
  rewrite insert_insert_ne by done. rewrite insert_insert_eq, lookup_insert_eq.
  cbn [mbind option_bind].
  set (M1 := <[y := ny]> (<[x := set_parent (Some y) nc]> (nodes s))).
  assert (E1 : forall z, z <> x -> z <> y -> M1 !! z = nodes s !! z)
    by (intros; unfold M1; by rewrite !lookup_insert_ne by congruence).
  assert (Hsib : (if points_to (left np) y
    then s0 ← upd (set_left (Some x)) y (mkmem (<[y := np]> (<[x := set_parent (Some y) nc]> (nodes s))) (root s));
         Some (right np, s0)
    else s0 ← upd (set_right (Some x)) y (mkmem (<[y := np]> (<[x := set_parent (Some y) nc]> (nodes s))) (root s));
         Some (left np, s0)) = Some (sib, mkmem M1 (root s))).
  { rewrite !(upd_eq _ y _ np) by (cbn [nodes]; by rewrite lookup_insert_eq).
    cbn [mbind option_bind nodes root]. rewrite !insert_insert_eq. unfold M1, set_left, set_right.
    destruct (points_to (left np) y); by destruct Hny as [-> ->]. }
  rewrite Hsib. cbn [mbind option_bind].
  assert (Ex1 : forall z, z <> x /\ z <> y /\ is_Some (nodes s !! z) -> is_Some (M1 !! z))
    by (intros z (? & ? & ?); by rewrite E1).
  rewrite upd_opt_alter by (cbn [nodes]; auto). cbn [mbind option_bind nodes root].
  assert (Ex : M1 !! x = Some (set_parent (Some y) nc))
    by (unfold M1; by rewrite lookup_insert_ne, lookup_insert_eq by done).
  assert (Ey : M1 !! y = Some ny) by (unfold M1; by rewrite lookup_insert_eq).
  assert (Hskip : forall p f N z, z = x \/ z = y -> In p [sib; left nc; right nc] ->
    alter_opt f p N !! z = N !! z).
  { intros p f N z Hz Hp. rewrite lookup_alter_opt, decide_False; [done|]. intros ->.
    destruct Hp as [->|[Hp|[Hp|[]]]]; [destruct (Hs z eq_refl) as (? & ? & ?)
      |destruct (Hl z Hp) as (? & ? & ?)|destruct (Hr z Hp) as (? & ? & ?)]; tauto. }
  rewrite Hskip, Ex by (cbn; auto).
  cbn [mbind option_bind left right set_parent].
  rewrite upd_opt_alter by (cbn [nodes]; auto). cbn [mbind option_bind nodes root].
  rewrite upd_opt_alter by (cbn [nodes]; auto 6). cbn [mbind option_bind nodes root].
  rewrite !Hskip, Ey by (cbn; auto). cbn [mbind option_bind].
  assert (parent ny = parent np) as -> by (destruct (points_to _ _); by destruct Hny as [_ ->]).
  destruct (parent np) as [g|] eqn:Eg; [|done].
  destruct (Hg g eq_refl) as (Hgx & Hgy & ng & Hng).
  assert (Hleft : forall p q N nd, N !! g = Some nd -> exists nd',
    alter_opt (set_parent q) p N !! g = Some nd' /\ left nd' = left nd).
  { intros p q N nd Hnd. rewrite lookup_alter_opt, Hnd. destruct (decide _); cbn; eauto. }
  assert (Hn0 : M1 !! g = Some ng) by by rewrite E1.
  destruct (Hleft sib (Some y) _ _ Hn0) as (n1 & Hn1 & L1).
  destruct (Hleft (left nc) (Some x) _ _ Hn1) as (n2 & Hn2 & L2).
  destruct (Hleft (right nc) (Some x) _ _ Hn2) as (n3 & Hn3 & L3).
  rewrite Hn3. cbn [mbind option_bind]. rewrite L3, L2, L1, (HG g ng eq_refl Hng).
  destruct (points_to (left ng) x); rewrite upd_alter by (cbn [nodes]; by rewrite Hn3); done.
Qed.

Definition sibling (c : positive) : positive :=
  match c with q~0 => q~1 | q~1 => q~0 | xH => xH end%positive.

Lemma above_ne c : c <> 1%positive -> above c <> c.
Proof. destruct c; cbn; lia. Qed.

Lemma above_le q : (above q <= q)%positive.
Proof. destruct q; cbn; lia. Qed.
Lemma above_2 c : above (above c) = above c -> above c = 1%positive.
Proof. destruct c as [[]|[]|]; cbn; lia. Qed.
Lemma above_2_ne c : c <> 1%positive -> above (above c) <> c.
Proof. intros Hc E. pose proof (above_le (above c)). destruct c; cbn in *; lia. Qed.

Section Swap.
Context (A : gmap positive addr) (n : Z) (s : mem) (c : positive) (x y : addr).
Context (Hrep : rep A n s) (Hc : c <> 1%positive).
Context (Hx : A !! above c = Some x) (Hy : A !! c = Some y).

Lemma at_eq j k z : A !! k = Some z -> (A !! j = Some z <-> j = k).
Proof. intros Hk. split; [intros Hj; by eapply rep_inj|by intros ->]. Qed.

Lemma tr_at j : j <> above c -> j <> c -> tr x y <$> A !! j = A !! j.
Proof.
  intros Hp Hj. destruct (A !! j) as [z|] eqn:Hz; [|done]. cbn. rewrite tr_ne; [done|intros ->..].
  - apply Hp. by apply (at_eq j _ x).
  - apply Hj. by apply (at_eq j _ y).
Qed.

Definition grand : ptr := parent (node_at A (above c)).
Definition grand_update : heap_node -> heap_node :=
  match above c with q~0%positive => set_left (Some y) | _ => set_right (Some y) end.

Definition swapped : gmap addr heap_node :=
  alter_opt grand_update grand
    (alter_opt (set_parent (Some x)) (A !! c~1%positive)
      (alter_opt (set_parent (Some x)) (A !! c~0%positive)
        (alter_opt (set_parent (Some y)) (A !! sibling c)
          (<[y := match c with
                  | q~0%positive => mknode (Some x) (A !! q~1%positive) grand
                  | _ => mknode (A !! (above c)~0%positive) (Some x) grand
                  end]>
            (<[x := set_parent (Some y) (node_at A c)]> (nodes s)))))).

Lemma near_ok : Forall (fun p => forall z, p = Some z -> z <> x /\ z <> y /\ is_Some (nodes s !! z))
  [A !! sibling c; A !! c~0%positive; A !! c~1%positive; grand].
Proof.
  assert (H : forall j, j <> above c -> j <> c ->
    forall z, A !! j = Some z -> z <> x /\ z <> y /\ is_Some (nodes s !! z)).
  { intros j H1 H2 z Hz. rewrite (rep_node _ _ _ Hrep j z Hz). split_and!; [intros ->..|done].
    - apply H1. by apply (at_eq j _ x).
    - apply H2. by apply (at_eq j _ y). }
  rewrite !Forall_cons_iff. split_and!; [apply H; destruct c; cbn; lia..| |done].
  unfold grand, node_at. cbn [parent]. destruct (above c) eqn:E; [| |by intros].
  - apply H; destruct c; cbn in *; subst; cbn; lia.
  - apply H; destruct c; cbn in *; subst; cbn; lia.
Qed.

Lemma swap_runs : heap_node_swap x y s = Some (mkmem swapped
    (match grand with None => mkheap (Some y) (nelts (root s)) | Some _ => root s end)).
Proof.
  pose proof near_ok as Hnear.
  assert (Hxy : x <> y) by (intros E; apply (above_ne c Hc), (at_eq _ _ y); [done|by rewrite <- E]).
  assert (Nx := rep_node _ _ _ Hrep _ _ Hx). assert (Ny := rep_node _ _ _ Hrep _ _ Hy).
  apply (heap_node_swap_run s x y (node_at A (above c)) (node_at A c)); [done..| |exact Hnear|].
  - unfold grand, points_to. destruct c as [q|q|]; [| |done]; cbn [above Pos.div2 sibling node_at left right] in *.
    + rewrite bool_decide_false; [done|]. intros E. apply (at_eq _ _ _ Hy) in E. lia.
    + by rewrite bool_decide_true.
  - unfold grand_update, points_to. intros g ng Hg Hng. unfold node_at in Hg. cbn [parent] in Hg.
    destruct (above c) as [q|q|]; [| |done]; cbn [above Pos.div2] in Hg;
      rewrite (rep_node _ _ _ Hrep _ _ Hg) in Hng; injection Hng as <-; cbn [node_at left].
    + rewrite bool_decide_false; [done|]. intros E. apply (at_eq _ _ _ Hx) in E. lia.
    + by rewrite bool_decide_true.
Qed.

Lemma alter_at f j k z N : A !! k = Some z ->
  alter_opt f (A !! j) N !! z = if decide (j = k) then f <$> N !! z else N !! z.
Proof.
  intros Hk. rewrite lookup_alter_opt. destruct (decide (j = k)) as [->|Hne].
  - by rewrite decide_True.
  - rewrite decide_False; [done|]. intros E. by apply Hne, (at_eq _ _ z).
Qed.

Lemma alter_grand k z N : A !! k = Some z ->
  alter_opt grand_update grand N !! z =
    if decide (above c <> 1%positive /\ above (above c) = k)
    then grand_update <$> N !! z else N !! z.
Proof.
  intros Hk. unfold grand, node_at. cbn [parent].
  destruct (above c) as [q|q|] eqn:E.
  - rewrite (alter_at _ _ k) by done. apply decide_ext. split; [by intros ->|tauto].
  - rewrite (alter_at _ _ k) by done. apply decide_ext. split; [by intros ->|tauto].
  - cbn. rewrite decide_False; [done|]. intros [H _]. done.
Qed.

Lemma tr_field j :
  tr x y <$> A !! j = if decide (j = above c) then Some y else if decide (j = c) then Some x else A !! j.
Proof.
  destruct (decide (j = above c)) as [->|]; [rewrite Hx; cbn; by rewrite tr_l|].
  destruct (decide (j = c)) as [->|]; [rewrite Hy; cbn; by rewrite tr_r|]. by apply tr_at.
Qed.

Lemma swapped_other k z : A !! k = Some z -> k <> above c -> k <> c ->
  swapped !! z = Some (rename x y (node_at A k)).
Proof.
  intros Hk Hp Hkc.
  assert (z <> x) by (intros ->; apply Hp; by apply (at_eq _ _ x)).
  assert (z <> y) by (intros ->; apply Hkc; by apply (at_eq _ _ y)).
  unfold swapped. rewrite (alter_grand k), !(alter_at _ _ k), !lookup_insert_ne by done.
  rewrite (rep_node _ _ _ Hrep _ _ Hk). unfold rename, node_at, grand_update. cbn [left right parent].
  pose proof tr_field as T. clear - Hc Hp Hkc T.
  destruct c as [q|q|]; [| |done]; cbn [above Pos.div2 sibling] in *;
  (destruct (decide (q <> 1%positive /\ above q = k)) as [[Hq E]|Hq];
   [destruct q as [k'|k'|]; [| |done]; cbn [above Pos.div2] in E; subst k; rename k' into k|]).
  all: destruct k as [k|k|]; cbn [above Pos.div2] in *; rewrite ?T; cbn [above Pos.div2].
  all: repeat (case_decide; [try (exfalso; lia)|]); try (exfalso; lia).
  all: repeat (case_decide; try (exfalso; lia)).
  all: try reflexivity.
  all: exfalso; apply Hq; subst; cbn; split; [lia|reflexivity].
Qed.

Lemma swapped_x : swapped !! x = Some (rename x y (node_at A c)).
Proof.
  pose proof tr_at as T. unfold swapped. pose proof above_ne c Hc as Hne.
  rewrite (alter_grand (above c)), !(alter_at _ _ (above c)) by done.
  rewrite (decide_False (P := _ /\ _)) by (intros [? E]; by apply above_2 in E).
  rewrite !decide_False by (destruct c; cbn; lia).
  rewrite lookup_insert_ne, lookup_insert_eq.
  2:{ intros E. apply Hne, (at_eq _ _ y); [done|]. by rewrite E. }
  unfold rename, node_at, set_parent. cbn [left right parent].
  rewrite !T by (destruct c; cbn; lia).
  destruct c; [| |done]; cbn [above Pos.div2] in *; rewrite Hx; cbn; by rewrite tr_l.
Qed.

Lemma swapped_y : swapped !! y = Some (rename x y (node_at A (above c))).
Proof.
  pose proof tr_at as T. unfold swapped. pose proof above_ne c Hc as Hne.
  rewrite (alter_grand c), !(alter_at _ _ c) by done.
  rewrite (decide_False (P := _ /\ _)) by (intros [? E]; by apply above_2_ne in E).
  rewrite !decide_False by (destruct c; cbn; lia).
  rewrite lookup_insert_eq. unfold rename, grand, node_at. cbn [left right parent].
  assert (G : tr x y <$> match above c with 1%positive => None | _ => A !! above (above c) end =
              match above c with 1%positive => None | _ => A !! above (above c) end).
  { clear - T Hc.
    destruct (above c) eqn:E; [| |done]; apply T; destruct c; cbn in *; subst; cbn; lia. }
  clear - Hc Hy G T.
  destruct c as [q|q|]; [| |done]; cbn [above Pos.div2] in *; do 2 f_equal;
    first [symmetry; exact G|rewrite Hy; cbn; by rewrite tr_r|by rewrite T by lia].
Qed.

Lemma grand_some q : above c = q -> q <> 1%positive -> is_Some (A !! above q).
Proof.
  intros <- Hq. apply (rep_dom _ _ _ Hrep).
  assert (is_Some (A !! above c)) as H%(rep_dom _ _ _ Hrep) by eauto.
  pose proof (above_le (above c)). lia.
Qed.

(** A swap exchanges two places of the tree. *)
Lemma swap_rep : exists s', heap_node_swap x y s = Some s' /\ rep (exchange (above c) c A) n s'.
Proof.
  eexists. split; [exact swap_runs|]. apply (rep_rename A n s _ _ _ x y); [done..| | |].
  - intros k z Hz. cbn [nodes]. destruct (decide (k = above c)) as [->|Hp]; [|destruct (decide (k = c)) as [->|Hk]].
    + assert (z = x) as -> by congruence. rewrite tr_l. exact swapped_y.
    + assert (z = y) as -> by congruence. rewrite tr_r. exact swapped_x.
    + rewrite tr_ne; [by apply swapped_other|intros ->..].
      * apply Hp. by apply (at_eq _ _ x).
      * apply Hk. by apply (at_eq _ _ y).
  - cbn [root]. rewrite (rep_min _ _ _ Hrep), tr_field. unfold grand, node_at. cbn [parent].
    pose proof grand_some as G. pose proof (rep_min _ _ _ Hrep) as Hm. clear - G Hm Hc.
    destruct (above c) as [q|q|] eqn:E; cbn [min].
    + destruct (G _ eq_refl) as [g ->]; [done|]. by rewrite decide_False, decide_False.
    + destruct (G _ eq_refl) as [g ->]; [done|]. by rewrite decide_False, decide_False.
    + done.
  - cbn [root]. by destruct grand.
Qed.
End Swap.

(** ** Paths *)

Fixpoint depth (p : positive) : nat :=
  match p with xH => 0%nat | xO q | xI q => S (depth q) end.

Lemma depth_bound p k : Z.pos p < 2 ^ Z.of_nat (S k) -> (depth p <= k)%nat.
Proof.
  revert p. induction k as [|k IH]; intros p Hp.
  - change (2 ^ Z.of_nat 1) with 2 in Hp. destruct p; cbn; lia.
  - rewrite Nat2Z.inj_succ, Z.pow_succ_r in Hp by lia.
    destruct p as [q|q|]; cbn [depth]; [..|lia]; (assert (depth q <= k)%nat; [apply IH|]; lia).
Qed.

Lemma depth_pow p : 2 ^ Z.of_nat (depth p) <= Z.pos p.
Proof.
  induction p as [q IH|q IH|]; cbn [depth]; rewrite ?Nat2Z.inj_succ, ?Z.pow_succ_r by lia; [lia|lia|].
  done.
Qed.

(** The variable that holds the node of a position, and the one above it. *)
Definition slot_at (A : gmap positive addr) (p : positive) : option slot :=
  match p with
  | xH => Some SMin
  | xO q => SLeft <$> A !! q
  | xI q => SRight <$> A !! q
  end.
Definition above_slot (A : gmap positive addr) (p : positive) : option slot :=
  match p with xH => Some SMin | _ => slot_at A (above p) end.

Lemma load_slot A n s p v : rep A n s -> slot_at A p = Some v -> load v s = Some (A !! p).
Proof.
  intros Hrep. destruct p as [q|q|]; cbn [slot_at].
  - destruct (A !! q) as [x|] eqn:Hq; [|done]. intros [= <-]. cbn. unfold deref.
    by rewrite (rep_node _ _ _ Hrep _ _ Hq).
  - destruct (A !! q) as [x|] eqn:Hq; [|done]. intros [= <-]. cbn. unfold deref.
    by rewrite (rep_node _ _ _ Hrep _ _ Hq).
  - intros [= <-]. cbn. by rewrite (rep_min _ _ _ Hrep).
Qed.

(** The bits of the path, the last one first. *)
Lemma path_push acc k b : 0 <= acc < 2 ^ Z.of_nat k -> (k < 31)%nat -> 0 <= b <= 1 ->
  Z.lor (u32 (Z.shiftl acc 1)) b = 2 * acc + b.
Proof.
  intros Hacc Hk Hb. rewrite Z.shiftl_mul_pow2 by lia. change (2 ^ 1) with 2.
  assert (2 ^ Z.of_nat k <= 2 ^ 31) by (apply Z.pow_le_mono_r; lia).
  rewrite wrap_small by (unfold in_u; lia).
  assert (b = 0 \/ b = 1) as [->| ->] by lia; [rewrite Z.lor_0_r; lia|].
  rewrite (Z.mul_comm acc 2). by destruct acc as [|acc|]; [..|lia].
Qed.

Lemma child_slot_at A n s p v b acc :
  rep A n s -> slot_at A p = Some v -> is_Some (A !! p) -> 0 <= acc ->
  child_slot (2 * acc + Z.b2z b) v s = slot_at A (if b then p~1 else p~0)%positive.
Proof.
  intros Hrep Hv [x Hx] Hacc. unfold child_slot. rewrite (load_slot A n s p v Hrep Hv), Hx.
  cbn [mbind option_bind]. assert (Z.land (2 * acc + Z.b2z b) 1 = Z.b2z b) as ->.
  { destruct b, acc as [|acc|]; cbn [Z.b2z]; try lia; reflexivity. }
  destruct b; cbn [slot_at]; by rewrite Hx.
Qed.

Lemma above_some A n s p : rep A n s -> is_Some (A !! p) -> is_Some (A !! above p).
Proof.
  intros Hrep. rewrite !(rep_dom _ _ _ Hrep). pose proof (above_le p). lia.
Qed.

Definition bit (q : positive) (b : bool) : positive := if b then q~1 else q~0.

Lemma slot_bit A n s q b v : rep A n s -> slot_at A (bit q b) = Some v ->
  is_Some (A !! q) /\ exists vq av, slot_at A q = Some vq /\ above_slot A q = Some av.
Proof.
  intros Hrep Hv.
  assert (is_Some (A !! q)) as Hq by (destruct b; cbn in Hv; destruct (A !! q); [eauto|done..]).
  split; [done|]. destruct (above_some _ _ _ _ Hrep Hq) as [g Hg].
  destruct (above_some A n s (above q) Hrep ltac:(eauto)) as [g2 Hg2].
  destruct q as [q|q|]; cbn [above_slot slot_at above Pos.div2] in *; [..|eauto].
  - rewrite Hg. destruct q as [q|q|]; cbn [slot_at above Pos.div2] in *; rewrite ?Hg2; cbn; eauto.
  - rewrite Hg. destruct q as [q|q|]; cbn [slot_at above Pos.div2] in *; rewrite ?Hg2; cbn; eauto.
Qed.

(** The path computed for a position leads to its variable. *)
Definition path_leads (A : gmap positive addr) (s : mem) (p : positive) : Prop :=
  forall f k acc v av, slot_at A p = Some v -> above_slot A p = Some av ->
  0 <= acc < 2 ^ Z.of_nat k -> (k + depth p <= 31)%nat -> (depth p <= f)%nat ->
  exists path, path_loop f (Z.pos p) k acc = Some ((k + depth p)%nat, path) /\
    walk (k + depth p) path SMin SMin s = walk k acc av v s.

Lemma path_leads_bit A n s q b : rep A n s -> path_leads A s q -> path_leads A s (bit q b).
Proof.
  intros Hrep IH f k acc v av Hv Hav Hacc Hk Hf.
  destruct (slot_bit A n s q b v Hrep Hv) as (Hq & vq & aq & Hvq & Haq).
  assert (depth (bit q b) = S (depth q)) as E by by destruct b. rewrite E in *.
  destruct f as [|f]; [lia|]. cbn [path_loop]. rewrite (proj2 (Z.leb_le 2 _)) by (destruct b; cbn; lia).
  assert (Z.pos (bit q b) / 2 = Z.pos q) as -> by (destruct b; cbn [bit]; divlia).
  assert (Z.land (Z.pos (bit q b)) 1 = Z.b2z b) as -> by by destruct b, q.
  rewrite (path_push acc k) by (destruct b; cbn; lia).
  destruct (IH f (S k) (2 * acc + Z.b2z b) vq aq) as (path & Hp & Hw); [done|done| |lia|lia|].
  { rewrite Nat2Z.inj_succ, Z.pow_succ_r by lia. destruct b; cbn [Z.b2z]; lia. }
  exists path. rewrite Nat.add_succ_r. split; [exact Hp|]. rewrite Nat.add_succ_l in Hw.
  rewrite Hw. cbn [walk]. rewrite (child_slot_at A n s q vq b acc), Z.shiftr_div_pow2 by (done || lia).
  change (slot_at A (if b then q~1 else q~0)%positive) with (slot_at A (bit q b)). rewrite Hv.
  cbn [mbind option_bind]. change (2 ^ 1) with 2.
  assert ((2 * acc + Z.b2z b) / 2 = acc) as -> by (destruct b; cbn [Z.b2z]; divlia).
  assert (av = vq) as -> by (destruct b; cbn [bit above_slot above Pos.div2] in Hav; congruence).
  done.
Qed.

Lemma path_leads_all A n s p : rep A n s -> path_leads A s p.
Proof.
  intros Hrep. induction p as [q IH|q IH|].
  - by apply (path_leads_bit A n s q true).
  - by apply (path_leads_bit A n s q false).
  - intros f k acc v av [= <-] [= <-] Hacc Hk Hf. exists acc. cbn [depth].
    rewrite Nat.add_0_r. split; [by destruct f|done].
Qed.

(** Where the walk to position [p] ends. *)
Lemma path_of_walk A n s p v av : rep A n s -> Z.pos p < 2 ^ 32 ->
  slot_at A p = Some v -> above_slot A p = Some av ->
  exists k path, path_of (Z.pos p) = Some (k, path) /\ walk k path SMin SMin s = Some (av, v).
Proof.
  intros Hrep Hp Hv Hav. assert (depth p <= 31)%nat by (by apply depth_bound).
  destruct (path_leads_all A n s p Hrep 32%nat 0%nat 0 v av) as (path & H1 & H2);
    [done|done|cbn; lia|lia|lia|]. exists (depth p), path. by split.
Qed.
End HeapRep.
