(* ===== verification/HeapOps.v ===== *)
(** * HeapOps: insertion and removal

    [heap_insert] and [heap_remove] keep the tree of HeapRep complete and
    ordered, so the heap is a priority queue. *)
From stdpp Require Import gmap.
From S2P Require Import Prelude Heap HeapRep.

#[local] Set Warnings "-clear-no-such-hyp".

Module HeapOps.
Import CHeap HeapRep.

(** ** One place written *)

Definition set_at (p : positive) (w : ptr) (A : gmap positive addr) : gmap positive addr :=
  match w with Some x => <[p := x]> A | None => delete p A end.

Lemma lookup_set_at p w A k : set_at p w A !! k = if decide (p = k) then w else A !! k.
Proof. destruct w; [apply lookup_insert|apply lookup_delete]. Qed.

Definition child_update (p : positive) (w : ptr) : heap_node -> heap_node :=
  match p with xO _ => set_left w | _ => set_right w end.

(** [w] written to the variable that holds position [p]. *)
Definition stored (A : gmap positive addr) (p : positive) (w : ptr) (s : mem) : mem :=
  match p with
  | xH => set_min w s
  | _ => mkmem (alter_opt (child_update p w) (A !! above p) (nodes s)) (root s)
  end.

Lemma store_slot A p v w s :
  slot_at A p = Some v -> (forall x, A !! above p = Some x -> is_Some (nodes s !! x)) ->
  store v w s = Some (stored A p w s).
Proof.
  intros Hv Hex. destruct p as [q|q|]; cbn [slot_at above Pos.div2 stored] in *.
  - destruct (A !! q) as [x|]; [|done]. injection Hv as <-. cbn [store alter_opt].
    by rewrite upd_alter by auto.
  - destruct (A !! q) as [x|]; [|done]. injection Hv as <-. cbn [store alter_opt].
    by rewrite upd_alter by auto.
  - by injection Hv as <-.
Qed.

Ltac no_place :=
  intros ?; repeat match goal with H : _ /\ _ |- _ => destruct H end; (congruence || lia).

Section Stored.
Context (A : gmap positive addr) (n : Z) (s0 s : mem) (p : positive) (w : ptr).
Context (Hrep : rep A n s0).

Lemma stored_x x : ~ (exists k, A !! k = Some x) -> nodes (stored A p w s) !! x = nodes s !! x.
Proof.
  intros Hx. destruct p as [q|q|]; [..|done]; cbn [stored nodes]; rewrite lookup_alter_opt;
    (rewrite decide_False; [done|]; intros E; apply Hx; eauto).
Qed.

Lemma stored_at k z : A !! k = Some z ->
  nodes (stored A p w s) !! z =
    if decide (p <> 1%positive /\ above p = k) then child_update p w <$> nodes s !! z
    else nodes s !! z.
Proof.
  intros Hk. destruct p as [q|q|]; cbn [stored nodes above Pos.div2].
  - rewrite (alter_at A n s0 Hrep _ _ k z) by done. apply decide_ext. split; [by intros ->|tauto].
  - rewrite (alter_at A n s0 Hrep _ _ k z) by done. apply decide_ext. split; [by intros ->|tauto].
  - rewrite decide_False by tauto. done.
Qed.

Lemma stored_nelts : nelts (root (stored A p w s)) = nelts (root s).
Proof. by destruct p. Qed.
Lemma stored_min : min (root (stored A p w s)) = if decide (p = 1%positive) then w else min (root s).
Proof. by destruct p. Qed.

(** The fields of a node that are not its link to [p] do not change. *)
Lemma node_set_at k : above k <> p \/ k = 1%positive ->
  node_at (set_at p w A) k =
    (if decide (p <> 1%positive /\ above p = k) then child_update p w else id) (node_at A k).
Proof.
  intros Hk.
  assert (Hpar : parent (node_at (set_at p w A) k) = parent (node_at A k)).
  { unfold node_at. cbn [parent]. rewrite !lookup_set_at.
    destruct k; [| |done]; (rewrite decide_False; [done|]; intros ->; destruct Hk; [done|lia]). }
  change (node_at (set_at p w A) k) with (mknode (set_at p w A !! k~0%positive)
    (set_at p w A !! k~1%positive) (parent (node_at (set_at p w A) k))).
  rewrite Hpar, !lookup_set_at.
  destruct p as [q|q|]; cbn [above Pos.div2 child_update].
  - rewrite (decide_False (P := (q~1 = k~0)%positive)) by lia.
    destruct (decide (q = k)) as [->|Hne]; [by rewrite !decide_True by lia|].
    by rewrite !decide_False by no_place.
  - rewrite (decide_False (P := (q~0 = k~1)%positive)) by lia.
    destruct (decide (q = k)) as [->|Hne]; [by rewrite !decide_True by lia|].
    by rewrite !decide_False by no_place.
  - by rewrite !decide_False by no_place.
Qed.
End Stored.

Section Order.
(** [less_than] compares keys. *)
Context (key : addr -> Z).

Definition edge_ok (A : gmap positive addr) (c : positive) : Prop :=
  forall x y, A !! above c = Some x -> A !! c = Some y -> key x <= key y.
Definition ordered (A : gmap positive addr) : Prop := forall c, c <> 1%positive -> edge_ok A c.

(** The children of [p] against the node above [p]. *)
Definition grands_ok (A : gmap positive addr) (p : positive) : Prop :=
  p <> 1%positive -> forall c x y, c <> 1%positive -> above c = p ->
    A !! above p = Some x -> A !! c = Some y -> key x <= key y.
Definition up_ok (A : gmap positive addr) (p : positive) : Prop :=
  (forall c, c <> 1%positive -> c <> p -> edge_ok A c) /\ grands_ok A p.
Definition around_ok (A : gmap positive addr) (p : positive) : Prop :=
  (forall c, c <> 1%positive -> c <> p -> above c <> p -> edge_ok A c) /\ grands_ok A p.

Lemma ordered_root A n s r : rep A n s -> ordered A -> A !! 1%positive = Some r ->
  forall p x, A !! p = Some x -> key r <= key x.
Proof.
  intros Hrep Ho Hr. assert (Hup : forall q b x, (forall y, A !! q = Some y -> key r <= key y) ->
    A !! bit q b = Some x -> key r <= key x).
  { intros q b x IH Hx. assert (above (bit q b) = q) as E by by destruct b.
    destruct (above_some A n s (bit q b) Hrep ltac:(eauto)) as [y Hy]. rewrite E in Hy.
    specialize (IH y Hy). assert (key y <= key x); [|lia].
    apply (Ho (bit q b)); [by destruct b|by rewrite E|done]. }
  induction p as [q IH|q IH|]; intros x Hx.
  - by apply (Hup q true).
  - by apply (Hup q false).
  - assert (x = r) by congruence. subst. lia.
Qed.

Lemma exchange_fst A p q x y : A !! p = Some x -> A !! q = Some y -> exchange p q A !! p = Some y.
Proof. intros Hx Hy. unfold exchange. rewrite Hx, Hy. by rewrite lookup_insert_eq. Qed.
Lemma exchange_snd A p q x y : A !! p = Some x -> A !! q = Some y -> p <> q ->
  exchange p q A !! q = Some x.
Proof.
  intros Hx Hy Hne. unfold exchange. rewrite Hx, Hy, lookup_insert_ne by done.
  by rewrite lookup_insert_eq.
Qed.
Lemma exchange_ne A p q k : k <> p -> k <> q -> exchange p q A !! k = A !! k.
Proof.
  intros Hp Hq. unfold exchange. destruct (A !! p), (A !! q); try done.
  by rewrite !lookup_insert_ne by congruence.
Qed.

Section Step.
Context (A : gmap positive addr) (p : positive) (x y : addr).
Context (Hp : p <> 1%positive) (Hx : A !! above p = Some x) (Hy : A !! p = Some y).
Let B := exchange (above p) p A.

Lemma B_above : B !! above p = Some y.
Proof. by eapply exchange_fst. Qed.
Lemma B_p : B !! p = Some x.
Proof. eapply exchange_snd; [done..|]. by apply above_ne. Qed.
Lemma B_ne k : k <> above p -> k <> p -> B !! k = A !! k.
Proof. apply exchange_ne. Qed.

(** A step up: [y] moves above [x]. *)
Lemma up_step : up_ok A p -> key y < key x -> up_ok B (above p).
Proof.
  intros [He Hg] Hlt. split.
  - intros c Hc Hne u w Hu Hw. destruct (decide (c = p)) as [->|Hcp].
    { rewrite B_above in Hu. rewrite B_p in Hw. simplify_eq. lia. }
    rewrite B_ne in Hw by done. destruct (decide (above c = p)) as [E|E].
    { rewrite E, B_p in Hu. injection Hu as <-. by apply (Hg Hp c). }
    destruct (decide (above c = above p)) as [E2|E2].
    { rewrite E2, B_above in Hu. injection Hu as <-.
      assert (key x <= key w); [|lia]. apply (He c); [done..|by rewrite E2|done]. }
    rewrite B_ne in Hu by done. by apply (He c).
  - intros Hap c u w Hc E Hu Hw.
    rewrite B_ne in Hu; [|by apply above_ne|by apply above_2_ne].
    assert (key u <= key x) as Hux by (apply (He (above p)); [done|by apply above_ne|done..]).
    destruct (decide (c = p)) as [->|Hcp].
    { rewrite B_p in Hw. by simplify_eq. }
    rewrite B_ne in Hw; [|intros ->; by apply (above_ne (above p))|done].
    assert (key x <= key w); [|lia]. apply (He c); [done..|by rewrite E|done].
Qed.

(** A step down: [y], the least of the children, moves above [x]. *)
Lemma down_step : around_ok A (above p) ->
  (forall c w, c <> 1%positive -> above c = above p -> A !! c = Some w -> key y <= key w) ->
  key y < key x -> around_ok B p.
Proof.
  intros [He Hg] Hleast Hlt. split.
  - intros c Hc Hcp Hacp u w Hu Hw. destruct (decide (c = above p)) as [->|Hca].
    { rewrite B_above in Hw. injection Hw as <-.
      rewrite B_ne in Hu; [|by apply above_ne|done]. by apply (Hg Hc p). }
    rewrite B_ne in Hw by done. destruct (decide (above c = above p)) as [E|E].
    { rewrite E, B_above in Hu. injection Hu as <-. by apply (Hleast c). }
    rewrite B_ne in Hu by done. by apply (He c).
  - intros _ c u w Hc E Hu Hw. rewrite B_above in Hu. injection Hu as <-.
    rewrite B_ne in Hw.
    + apply (He c); [done|..|done]; [| |by rewrite E].
      * intros ->. exact (above_2_ne p Hp E).
      * rewrite E. intros E2. exact (above_ne p Hp (eq_sym E2)).
    + intros ->. exact (above_2_ne p Hp E).
    + intros ->. exact (above_ne p Hp E).
Qed.
End Step.

(** ** The loops *)
Context (less_than : addr -> addr -> option bool).

Definition held (A : gmap positive addr) (x : addr) : Prop := exists p, A !! p = Some x.
(** [less_than] compares the keys of the nodes in the tree. *)
Definition agrees (A : gmap positive addr) : Prop :=
  forall x y, held A x -> held A y -> less_than x y = Some (key x <? key y).

(** The same nodes, elsewhere. *)
Definition same_nodes (A B : gmap positive addr) : Prop :=
  forall x, held A x <-> held B x.

#[local] Instance same_nodes_equiv : Equivalence same_nodes.
Proof.
  split; [by intros A x|by intros A B H x; rewrite (H x)|].
  intros A B C H H' x. by rewrite (H x), (H' x).
Qed.

Lemma exchange_same_nodes A n s p q x y :
  rep A n s -> A !! p = Some x -> A !! q = Some y -> same_nodes A (exchange p q A).
Proof.
  intros Hrep Hx Hy z.
  assert (E : forall k, exchange p q A !! k = tr x y <$> A !! k)
    by (intros; eapply exchange_lookup; [done..|by apply (rep_inj _ _ _ Hrep)]).
  split; intros [k Hk].
  - destruct (decide (z = x)) as [->|Hzx]; [|destruct (decide (z = y)) as [->|Hzy]].
    + exists q. rewrite E, Hy. cbn. by rewrite tr_r.
    + exists p. rewrite E, Hx. cbn. by rewrite tr_l.
    + exists k. rewrite E, Hk. cbn. by rewrite tr_ne.
  - rewrite E, fmap_Some in Hk. destruct Hk as (z1 & Hk & ->). unfold tr.
    repeat case_decide; subst; by eexists.
Qed.

Lemma agrees_same A B : same_nodes A B -> agrees A -> agrees B.
Proof. intros Hs H x y Hx Hy. apply H; by apply Hs. Qed.

Lemma walk_up_ok A n f p y s : rep A n s -> A !! p = Some y -> (depth p <= f)%nat ->
  agrees A -> up_ok A p ->
  exists s' B, walk_up less_than f y s = Some s' /\ rep B n s' /\ same_nodes A B /\ ordered B.
Proof.
  revert A s p. induction f as [|f IH]; intros A s p Hrep Hy Hf Hag Hup.
  - assert (p = 1%positive) as -> by (destruct p; cbn in Hf; lia).
    exists s, A. cbn [walk_up]. unfold deref. rewrite (rep_node _ _ _ Hrep _ _ Hy).
    split_and!; [done..|]. intros c Hc. by apply Hup.
  - cbn [walk_up]. unfold deref. rewrite (rep_node _ _ _ Hrep _ _ Hy). cbn [mbind option_bind].
    destruct (decide (p = 1%positive)) as [->|Hp].
    { exists s, A. split_and!; [done..|]. intros c Hc. by apply Hup. }
    destruct (above_some _ _ _ p Hrep ltac:(eauto)) as [x Hx].
    assert (parent (node_at A p) = Some x) as -> by (by destruct p).
    rewrite (Hag y x) by (by eexists). cbn [mbind option_bind].
    destruct (Z.ltb_spec (key y) (key x)) as [L|L].
    + destruct (swap_rep A n s p x y Hrep Hp Hx Hy) as (s1 & -> & Hrep1). cbn [mbind option_bind].
      destruct (IH _ s1 (above p) Hrep1) as (s' & B & Hs' & HB & Hsame & Ho).
      * by eapply exchange_fst.
      * destruct p; cbn in *; lia.
      * eapply agrees_same; [by eapply exchange_same_nodes|done].
      * by apply (up_step A p x y).
      * exists s', B. split_and!; [done..| |done].
        exact (transitivity (exchange_same_nodes A n s _ p x y Hrep Hx Hy) Hsame).
    + exists s, A. split_and!; [done..|]. intros c Hc. destruct (decide (c = p)) as [->|Hne].
      * intros u w Hu Hw. simplify_eq. lia.
      * by apply Hup.
Qed.

(** The child the walk down goes to. *)
(** [smaller] where the comparison is known. *)
Definition pick (o : ptr) (m : addr) : addr :=
  match o with Some w => if key w <? key m then w else m | None => m end.

Lemma smaller_pick A q m : agrees A -> held A m ->
  smaller less_than (A !! q) m = Some (pick (A !! q) m) /\ held A (pick (A !! q) m).
Proof.
  intros Hag Hm. unfold smaller, pick. destruct (A !! q) as [w|] eqn:E; [|done].
  assert (held A w) by (by exists q). rewrite (Hag w m) by done. by destruct (key w <? key m).
Qed.

Lemma smaller_spec (A : gmap positive addr) p y : A !! p = Some y -> agrees A ->
  exists m1 m, smaller less_than (A !! p~0%positive) y = Some m1 /\
    smaller less_than (A !! p~1%positive) m1 = Some m /\
    ((m = y /\ forall c w, c <> 1%positive -> above c = p -> A !! c = Some w -> key y <= key w) \/
     (exists c, c <> 1%positive /\ above c = p /\ A !! c = Some m /\ key m < key y /\
      forall c w, c <> 1%positive -> above c = p -> A !! c = Some w -> key m <= key w)).
Proof.
  intros Hy Hag.
  assert (Hch : forall P : positive -> addr -> Prop,
    (forall w, A !! p~0%positive = Some w -> P p~0%positive w) ->
    (forall w, A !! p~1%positive = Some w -> P p~1%positive w) ->
    forall c w, c <> 1%positive -> above c = p -> A !! c = Some w -> P c w).
  { intros P H0 H1 c w Hc <- Hw. destruct c; cbn [above Pos.div2] in *; [by apply H1|by apply H0|done]. }
  destruct (smaller_pick A p~0%positive y Hag) as [H0 Hh]; [by exists p|].
  destruct (smaller_pick A p~1%positive _ Hag Hh) as [H1 _].
  do 2 eexists. split; [exact H0|]. split; [exact H1|]. clear H0 H1 Hh. unfold pick.
  destruct (A !! p~0%positive) as [l|] eqn:El, (A !! p~1%positive) as [r|] eqn:Er.
  all: repeat match goal with |- context [key ?a <? key ?b] =>
      is_var a; is_var b; destruct (Z.ltb_spec (key a) (key b)) end.
  all: first [left; split; [done|]; apply (Hch (fun _ w => key y <= key w)); intros w Hw; simplify_eq; lia
    |right; exists (p~1)%positive; split_and!; [done..|lia|
       apply (Hch (fun _ w => key r <= key w)); intros w Hw; simplify_eq; lia]
    |right; exists (p~0)%positive; split_and!; [done..|lia|
       apply (Hch (fun _ w => key l <= key w)); intros w Hw; simplify_eq; lia]].
Qed.

Lemma walk_down_ok n f : forall A p y s, n < 2 ^ 32 -> rep A n s -> A !! p = Some y ->
  (31 <= f + depth p)%nat -> agrees A -> around_ok A p ->
  exists s' B q, walk_down less_than f y s = Some s' /\ rep B n s' /\ same_nodes A B /\
    B !! q = Some y /\ up_ok B q.
Proof.
  induction f as [|f IH]; intros A p y s Hn Hrep Hy Hf Hag Har; cbn [walk_down]; unfold deref;
    rewrite (rep_node _ _ _ Hrep _ _ Hy); cbn [mbind option_bind left right node_at];
    destruct (smaller_spec A p y Hy Hag) as (m1 & m & -> & Hm2 & Hsm);
    cbn [mbind option_bind]; rewrite Hm2; cbn [mbind option_bind]; clear Hm2 m1;
    (destruct Hsm as [(-> & Hle)|(c & Hc & Hcp & Hm & Hlt & Hle)];
     [rewrite bool_decide_true by done; exists s, A, p; split_and!; [done..|];
      split; [|apply Har]; intros c Hc Hne; destruct (decide (above c = p)) as [<-|];
      [intros u w Hu Hw; simplify_eq; by apply (Hle c)|by apply Har]|
      rewrite bool_decide_false by (intros ->; lia);
      assert (depth c = S (depth p)) as Hd by (subst p; by destruct c);
      assert (depth c <= 31)%nat by
        (apply depth_bound; assert (is_Some (A !! c)) as Hi%(rep_dom _ _ _ Hrep) by eauto; lia)]).
  - lia.
  - subst p. destruct (swap_rep A n s c y m Hrep Hc Hy Hm) as (s1 & -> & Hrep1).
    cbn [mbind option_bind]. pose proof (exchange_same_nodes A n s _ c y m Hrep Hy Hm) as Hsn.
    destruct (IH _ c y s1 Hn Hrep1) as (s' & B & q & Hs' & HB & Hsame & Hq & Hup).
    + eapply exchange_snd; [done..|by apply above_ne].
    + lia.
    + by eapply agrees_same.
    + by apply (down_step A c y m).
    + exists s', B, q. split_and!; [done..| |done|done]. exact (transitivity Hsn Hsame).
Qed.

(** ** Insertion *)

Lemma rep_frame A n s x nd : rep A n s -> ~ held A x ->
  rep A n (mkmem (<[x := nd]> (nodes s)) (root s)).
Proof.
  intros [Hdom Hinj Hnode Hmin Hn] Hx. split; [done|done| |done|done].
  intros p z Hz. cbn [nodes]. rewrite lookup_insert_ne; [by apply Hnode|]. intros ->.
  apply Hx. by exists p.
Qed.

Lemma above_lt p : p <> 1%positive -> (above p < p)%positive.
Proof. destruct p; cbn; lia. Qed.

Lemma slot_exists A n s p : rep A n s -> Z.pos p <= n + 1 -> exists v, slot_at A p = Some v.
Proof.
  intros Hrep Hp. destruct p as [q|q|]; cbn [slot_at]; [..|eauto].
  - assert (is_Some (A !! q)) as [x ->] by (apply (rep_dom _ _ _ Hrep); lia). cbn. eauto.
  - assert (is_Some (A !! q)) as [x ->] by (apply (rep_dom _ _ _ Hrep); lia). cbn. eauto.
Qed.

Lemma above_slot_exists A n s p : rep A n s -> Z.pos p <= n + 1 ->
  exists av, above_slot A p = Some av /\
    (A !! 1%positive = None \/ p <> 1%positive -> load av s = Some (parent (node_at A p))).
Proof.
  intros Hrep Hp. destruct (decide (p = 1%positive)) as [->|Hne].
  - exists SMin. split; [done|]. intros [Hr|Hr]; [|done]. cbn. by rewrite (rep_min _ _ _ Hrep), Hr.
  - pose proof (above_lt p Hne). destruct (slot_exists A n s (above p) Hrep ltac:(lia)) as [av Hav].
    exists av. split; [by destruct p|]. intros _. rewrite (load_slot A n s _ av Hrep Hav).
    by destruct p.
Qed.

(** Past the last place there is nothing. *)
Lemma rep_free A n s k : rep A n s -> n < Z.pos k -> A !! k = None.
Proof.
  intros Hrep Hk. destruct (A !! k) eqn:E; [|done].
  assert (is_Some (A !! k)) as Hi%(rep_dom _ _ _ Hrep) by eauto. lia.
Qed.

(** A node linked in the first free place, its own pointers set. *)
Lemma extend_rep A n s p x : rep A n s -> Z.pos p = n + 1 -> ~ held A x ->
  nodes s !! x = Some (node_at A p) ->
  rep (<[p := x]> A) (n + 1) (set_nelts (n + 1) (stored A p (Some x) s)).
Proof.
  intros Hrep Hp Hx Hnx. change (<[p := x]> A) with (set_at p (Some x) A).
  assert (Hap : A !! p = None) by (apply (rep_free A n s); [done|lia]).
  split.
  - intros k. rewrite lookup_set_at. destruct (decide (p = k)) as [<-|Hk].
    + split; [lia|eauto].
    + rewrite (rep_dom _ _ _ Hrep). assert (Z.pos p <> Z.pos k) by congruence. lia.
  - intros k1 k2 z. rewrite !lookup_set_at. intros H2 H3.
    repeat case_decide; simplify_eq; [done|exfalso; apply Hx; by eexists..|by eapply (rep_inj _ _ _ Hrep)].
  - intros k z Hz. cbn [set_nelts nodes]. rewrite lookup_set_at in Hz.
    destruct (decide (p = k)) as [<-|Hk].
    + injection Hz as <-. rewrite stored_x by done. rewrite Hnx.
      rewrite node_set_at by (destruct (decide (p = 1%positive)); [by right|left; by apply above_ne]).
      by rewrite decide_False by (intros [Hp1 E]; by apply (above_ne p)).
    + rewrite (stored_at A n s s p (Some x) Hrep k z Hz), (rep_node _ _ _ Hrep _ _ Hz).
      rewrite node_set_at; [by case_decide|].
      left. intros E. destruct (above_some A n s k Hrep ltac:(eauto)) as [u Hu]. congruence.
  - cbn [set_nelts root min]. rewrite stored_min, lookup_set_at.
    destruct (decide (p = 1%positive)); [done|apply Hrep].
  - done.
Qed.

(** The new node in the first free place. *)
Lemma insert_place A n s x : rep A n s -> 0 <= n -> n + 1 < 2 ^ 32 ->
  ~ held A x -> is_Some (nodes s !! x) ->
  exists s', heap_insert less_than x s = walk_up less_than rows x s' /\
    rep (<[Z.to_pos (n + 1) := x]> A) (n + 1) s'.
Proof.
  intros Hrep Hn0 Hn Hx Hex. set (p := Z.to_pos (n + 1)).
  assert (Hp : Z.pos p = n + 1) by (unfold p; lia). clearbody p.
  unfold heap_insert. rewrite upd_alter by done. cbn [mbind option_bind].
  destruct Hex as [nx0 Hnx0]. rewrite (alter_alt_Some _ _ _ _ Hnx0).
  set (s1 := mkmem (<[x := mknode None None None]> (nodes s)) (root s)).
  assert (Hrep1 : rep A n s1) by (by apply rep_frame).
  assert (nelts (root s1) = n) as -> by apply Hrep1.
  rewrite wrap_small by (unfold in_u; lia). replace (1 + n) with (Z.pos p) by lia.
  destruct (slot_exists A n s1 p Hrep1 ltac:(lia)) as [v Hv].
  destruct (above_slot_exists A n s1 p Hrep1 ltac:(lia)) as (av & Hav & Hload).
  destruct (path_of_walk A n s1 p v av Hrep1 ltac:(lia) Hv Hav) as (kk & path & -> & Hwalk).
  cbn [mbind option_bind]. rewrite Hwalk. cbn [mbind option_bind].
  assert (A !! 1%positive = None \/ p <> 1%positive) as H1.
  { destruct (decide (p = 1%positive)) as [E|]; [left; apply (rep_free A n s); [done|lia]|by right]. }
  rewrite (Hload H1). cbn [mbind option_bind].
  rewrite (upd_eq _ x s1 (mknode None None None)) by (cbn [s1 nodes]; by rewrite lookup_insert_eq).
  cbn [mbind option_bind]. set (s2 := mkmem _ _).
  assert (Hrep2 : rep A n s2) by (by apply rep_frame).
  rewrite (store_slot A p v (Some x) s2 Hv).
  2:{ intros z Hz. rewrite (rep_node _ _ _ Hrep2 _ _ Hz). eauto. }
  cbn [mbind option_bind].
  assert (nelts (root (stored A p (Some x) s2)) = n) as -> by (rewrite stored_nelts; apply Hrep).
  rewrite wrap_small by (unfold in_u; lia).
  eexists. split; [reflexivity|]. apply extend_rep; [done..|].
  cbn [s2 nodes]. rewrite lookup_insert_eq. unfold node_at, set_parent. cbn [left right parent].
  by rewrite (rep_free A n s p~0%positive), (rep_free A n s p~1%positive) by (done || lia).
Qed.

(** ** Removal *)

(** The last node unlinked. *)
Lemma unlink_rep A n s l m : rep A n s -> Z.pos l = n -> A !! l = Some m ->
  rep (delete l A) (n - 1) (set_nelts (n - 1) (stored A l None s)).
Proof.
  intros Hrep Hl Hm. change (delete l A) with (set_at l None A).
  split.
  - intros k. rewrite lookup_set_at. destruct (decide (l = k)) as [<-|Hk].
    + split; [by intros []|lia].
    + rewrite (rep_dom _ _ _ Hrep). assert (Z.pos l <> Z.pos k) by congruence. lia.
  - intros k1 k2 z. rewrite !lookup_set_at. intros H2 H3.
    repeat case_decide; simplify_eq. by eapply (rep_inj _ _ _ Hrep).
  - intros k z Hz. cbn [set_nelts nodes]. rewrite lookup_set_at in Hz.
    destruct (decide (l = k)) as [<-|Hk]; [done|].
    rewrite (stored_at A n s s l None Hrep k z Hz), (rep_node _ _ _ Hrep _ _ Hz).
    rewrite node_set_at; [by case_decide|].
    assert (is_Some (A !! k)) as Hi%(rep_dom _ _ _ Hrep) by eauto.
    destruct (decide (k = 1%positive)) as [->|Hk1]; [by right|left]. pose proof (above_lt k Hk1). lia.
  - cbn [set_nelts root min]. rewrite stored_min, lookup_set_at.
    repeat case_decide; simplify_eq; [done..|]. apply Hrep.
  - done.
Qed.

(** The memory after the children of [x] got their new parent. *)
Section Replace.
Context (B : gmap positive addr) (n : Z) (s : mem) (q : positive) (x m : addr).
Context (Hrep : rep B n s) (Hq : B !! q = Some x) (Hm : ~ held B m).

Definition adopted : mem :=
  mkmem (alter_opt (set_parent (Some m)) (B !! q~1%positive)
    (alter_opt (set_parent (Some m)) (B !! q~0%positive) (<[m := node_at B q]> (nodes s)))) (root s).

Lemma adopted_m : nodes adopted !! m = Some (node_at B q).
Proof.
  cbn [adopted nodes]. rewrite !lookup_alter_opt, !decide_False by (intros E; apply Hm; by eexists).
  apply lookup_insert_eq.
Qed.

Lemma adopted_at k z : B !! k = Some z -> nodes adopted !! z =
  Some ((if decide (k <> 1%positive /\ above k = q) then set_parent (Some m) else id) (node_at B k)).
Proof.
  intros Hk. cbn [adopted nodes]. rewrite !(alter_at B n s Hrep _ _ k z) by done.
  rewrite lookup_insert_ne by (intros ->; apply Hm; by exists k).
  rewrite (rep_node _ _ _ Hrep _ _ Hk).
  destruct (decide (k <> 1%positive /\ above k = q)) as [[Hk1 E]|Hk1].
  - destruct k as [k|k|]; cbn [above Pos.div2] in E; [| |done]; subst k.
    + by rewrite decide_True, decide_False by (done || lia).
    + by rewrite decide_False, decide_True by (done || lia).
  - rewrite !decide_False; [done|intros E; apply Hk1; subst k; cbn; split; [lia|done]..].
Qed.

Lemma node_set_child k : k <> 1%positive -> above k = q ->
  node_at (set_at q (Some m) B) k = set_parent (Some m) (node_at B k).
Proof.
  intros Hk1 E. unfold node_at, set_parent. cbn [left right parent]. rewrite !lookup_set_at.
  pose proof (above_lt k Hk1). rewrite !(decide_False (P := q = _)) by lia.
  destruct k; [..|done]; by rewrite decide_True.
Qed.

Lemma replaced_rep : rep (set_at q (Some m) B) n (stored B q (Some m) adopted).
Proof.
  split.
  - intros k. rewrite lookup_set_at. destruct (decide (q = k)) as [<-|Hk]; [|apply Hrep].
    rewrite <- (rep_dom _ _ _ Hrep). split; intros _; eauto.
  - intros k1 k2 z. rewrite !lookup_set_at. intros H2 H3.
    repeat case_decide; simplify_eq; [done|exfalso; apply Hm; by eexists..|by eapply (rep_inj _ _ _ Hrep)].
  - intros k z Hz. rewrite lookup_set_at in Hz. destruct (decide (q = k)) as [<-|Hk].
    + injection Hz as <-. rewrite stored_x by done. rewrite adopted_m.
      rewrite node_set_at by (destruct (decide (q = 1%positive)); [by right|left; by apply above_ne]).
      by rewrite decide_False by (intros [Hp1 E]; by apply (above_ne q)).
    + rewrite (stored_at B n s adopted q (Some m) Hrep k z Hz), (adopted_at k z Hz).
      destruct (decide (k <> 1%positive /\ above k = q)) as [[Hk1 E]|Hk1].
      * rewrite decide_False by (intros [Hq1 E2]; pose proof (above_lt k Hk1);
          pose proof (above_lt q Hq1); lia). by rewrite node_set_child.
      * rewrite node_set_at; [by case_decide|].
        destruct (decide (k = 1%positive)); [by right|left; tauto].
  - rewrite stored_min, lookup_set_at. repeat case_decide; simplify_eq; [done..|]. apply Hrep.
  - rewrite stored_nelts. apply Hrep.
Qed.

Lemma replace_ok : is_Some (nodes s !! m) -> replace m x s = Some (stored B q (Some m) adopted).
Proof.
  intros [nm Hnm]. unfold replace, deref. rewrite (rep_node _ _ _ Hrep _ _ Hq). cbn [mbind option_bind].
  rewrite (upd_eq _ _ _ _ Hnm). cbn [mbind option_bind].
  assert (Hrep1 : rep B n (mkmem (<[m := node_at B q]> (nodes s)) (root s))) by (by apply rep_frame).
  cbn [left right node_at].
  rewrite upd_opt_alter by (intros z Hz; exact (mk_is_Some _ _ (rep_node _ _ _ Hrep1 _ _ Hz))).
  cbn [mbind option_bind nodes root].
  rewrite upd_opt_alter by (intros z Hz; cbn [nodes]; apply alter_opt_is_Some;
    exact (mk_is_Some _ _ (rep_node _ _ _ Hrep1 _ _ Hz))).
  cbn [mbind option_bind nodes root]. fold adopted.
  destruct (decide (q = 1%positive)) as [E|Hq1].
  { by rewrite E. }
  destruct (above_some B n s q Hrep ltac:(eauto)) as [g Hg].
  assert (parent (node_at B q) = Some g) as -> by (by destruct q).
  change (alter_opt _ _ _) with (nodes adopted). rewrite (adopted_at _ _ Hg). cbn [mbind option_bind].
  assert (left ((if decide (above q <> 1%positive /\ above (above q) = q) then set_parent (Some m) else id)
    (node_at B (above q))) = B !! (above q)~0%positive) as -> by (by case_decide).
  assert (stored B q (Some m) adopted =
    mkmem (alter (child_update q (Some m)) g (nodes adopted)) (root adopted)) as ->.
  { unfold stored. destruct q; [by rewrite Hg..|done]. }
  unfold points_to. destruct q as [q'|q'|]; [| |done]; cbn [above Pos.div2 child_update] in *.
  - rewrite bool_decide_false; [apply upd_alter; by rewrite (adopted_at _ _ Hg)|].
    intros E. assert (q'~0 = q'~1)%positive; [|lia]. by eapply (rep_inj _ _ _ Hrep).
  - rewrite bool_decide_true by done. apply upd_alter. by rewrite (adopted_at _ _ Hg).
Qed.
End Replace.

(** ** Nothing is allocated or freed *)

Definition same_dom (s s' : mem) : Prop := dom (nodes s') = dom (nodes s).

Lemma upd_dom f x s s' : upd f x s = Some s' -> same_dom s s'.
Proof.
  unfold upd. destruct (nodes s !! x) as [nd|] eqn:E; [|done]. intros [= <-]. unfold same_dom.
  cbn [nodes]. apply dom_insert_lookup_L. eauto.
Qed.
Lemma upd_opt_dom f p s s' : upd_opt f p s = Some s' -> same_dom s s'.
Proof. destruct p; [apply upd_dom|by intros [= <-]]. Qed.
Lemma store_dom v p s s' : store v p s = Some s' -> same_dom s s'.
Proof. destruct v; [by intros [= <-]|apply upd_dom..]. Qed.

(** Run a computation backwards. *)
Ltac unbind H :=
  repeat match type of H with
  | Some _ = Some _ => injection H as H
  | (?m ≫= _) = Some _ => let E := fresh "E" in destruct m eqn:E; [cbn [mbind option_bind] in H|done]
  | (let '(_, _) := ?p in _) = Some _ => destruct p
  | (if ?b then _ else _) = Some _ => destruct b
  | match ?p with Some _ => _ | None => _ end = Some _ => destruct p eqn:?
  end.
Ltac doms :=
  repeat match goal with
  | H : upd _ _ _ = Some _ |- _ => apply upd_dom in H
  | H : upd_opt _ _ _ = Some _ |- _ => apply upd_opt_dom in H
  | H : store _ _ _ = Some _ |- _ => apply store_dom in H
  end; unfold same_dom in *; try congruence.

Lemma swap_dom p c s s' : heap_node_swap p c s = Some s' -> same_dom s s'.
Proof.
  unfold heap_node_swap. intros H. unbind H; unfold deref in *;
    repeat match goal with
    | H : (if ?b then _ else _) = Some _ |- _ => destruct b; unbind H
    | H : (_, _) = (_, _) |- _ => injection H as ? ?
    end; subst; doms; cbn [set_min nodes]; congruence.
Qed.

Lemma walk_up_dom f x : forall s s', walk_up less_than f x s = Some s' -> same_dom s s'.
Proof.
  induction f as [|f IH]; intros s s' H; cbn [walk_up] in H; unbind H; try (by subst).
  match goal with E : heap_node_swap _ _ _ = _ |- _ => apply swap_dom in E end.
  apply IH in H. unfold same_dom in *. congruence.
Qed.
Lemma walk_down_dom f x : forall s s', walk_down less_than f x s = Some s' -> same_dom s s'.
Proof.
  induction f as [|f IH]; intros s s' H; cbn [walk_down] in H; unbind H; try (by subst).
  match goal with E : heap_node_swap _ _ _ = _ |- _ => apply swap_dom in E end.
  apply IH in H. unfold same_dom in *. congruence.
Qed.
Lemma insert_dom x s s' : heap_insert less_than x s = Some s' -> same_dom s s'.
Proof.
  unfold heap_insert. intros H. unbind H. apply walk_up_dom in H. doms.
  cbn [set_nelts nodes] in *. congruence.
Qed.
Lemma replace_dom m x s s' : replace m x s = Some s' -> same_dom s s'.
Proof. unfold replace. intros H. unbind H; subst; doms; cbn [set_min nodes]; congruence. Qed.
Lemma remove_dom x s s' : heap_remove less_than x s = Some s' -> same_dom s s'.
Proof.
  unfold heap_remove. intros H. unbind H; subst; [done| |].
  - doms. cbn [set_nelts nodes] in *. by case_bool_decide.
  - repeat match goal with E : replace _ _ _ = _ |- _ => apply replace_dom in E end.
    repeat match goal with E : walk_down _ _ _ _ = _ |- _ => apply walk_down_dom in E end.
    apply walk_up_dom in H. doms. cbn [set_nelts nodes] in *. congruence.
Qed.

(** ** The heap as a set *)

(** The memory holds the set [S] of nodes, ordered by [key]. *)
Definition holds (S : gset addr) (s : mem) : Prop :=
  exists A, rep A (Z.of_nat (size S)) s /\ ordered A /\ (forall x, x ∈ S <-> held A x).

Lemma holds_init s : holds ∅ (heap_init s).
Proof.
  exists ∅. rewrite size_empty. split; [|split].
  - split; cbn [heap_init root min nelts].
    + intros p. rewrite lookup_empty. split; [by intros []|lia].
    + intros p q x. by rewrite lookup_empty.
    + intros p x. by rewrite lookup_empty.
    + by rewrite lookup_empty.
    + done.
  - intros c _ x y. by rewrite lookup_empty.
  - intros x. split; [set_solver|]. intros [p Hp]. by rewrite lookup_empty in Hp.
Qed.

Lemma holds_frame S s s' : holds S s -> root s' = root s ->
  (forall x, x ∈ S -> nodes s' !! x = nodes s !! x) -> holds S s'.
Proof.
  intros (A & [Hdom Hinj Hnode Hmin Hn] & Ho & HS) Hroot Hnodes. exists A. split_and!; [|done..].
  split; rewrite ?Hroot; [done..| |done|done].
  intros p x Hx. rewrite Hnodes by (apply HS; by exists p). by apply Hnode.
Qed.

Lemma holds_min S s : holds S s ->
  match heap_min s with
  | None => S = ∅
  | Some r => r ∈ S /\ forall x, x ∈ S -> key r <= key x
  end.
Proof.
  intros (A & Hrep & Ho & HS). unfold heap_min. rewrite (rep_min _ _ _ Hrep).
  destruct (A !! 1%positive) as [r|] eqn:Hr.
  - split; [apply HS; by exists 1%positive|]. intros x [p Hp]%HS.
    by apply (ordered_root A _ s r Hrep Ho Hr p).
  - assert (~ is_Some (A !! 1%positive)) as Hno by (rewrite Hr; by intros []).
    rewrite (rep_dom _ _ _ Hrep) in Hno.
    apply leibniz_equiv, size_empty_inv. lia.
Qed.

(** [less_than] compares the keys of the nodes in [S]. *)
Definition agrees_on (S : gset addr) : Prop :=
  forall x y, x ∈ S -> y ∈ S -> less_than x y = Some (key x <? key y).

Lemma heap_insert_ok S s x : holds S s -> x ∉ S -> is_Some (nodes s !! x) ->
  agrees_on ({[x]} ∪ S) -> Z.of_nat (size S) + 1 < 2 ^ 32 ->
  exists s', heap_insert less_than x s = Some s' /\ holds ({[x]} ∪ S) s'.
Proof.
  intros (A & Hrep & Ho & HS) Hx Hex Hag Hsz.
  assert (Hnx : ~ held A x) by (by rewrite <- HS).
  destruct (insert_place A _ s x Hrep ltac:(lia) Hsz Hnx Hex) as (s1 & -> & Hrep1).
  set (p := Z.to_pos _) in *. assert (Hp : Z.pos p = Z.of_nat (size S) + 1) by (unfold p; lia).
  clearbody p.
  assert (Hheld : forall z, z ∈ {[x]} ∪ S <-> held (<[p := x]> A) z).
  { intros z. rewrite elem_of_union, elem_of_singleton, HS. split.
    - intros [->|[k Hk]]; [exists p; apply lookup_insert_eq|]. exists k.
      rewrite lookup_insert_ne; [done|]. intros ->. by rewrite (rep_free A _ s k Hrep) in Hk by lia.
    - intros [k Hk]. rewrite lookup_insert in Hk. case_decide; [left; congruence|right; by exists k]. }
  destruct (walk_up_ok (<[p := x]> A) _ rows p x s1 Hrep1) as (s' & B & -> & HB & Hsame & HoB).
  - apply lookup_insert_eq.
  - assert (depth p <= 31)%nat; [apply depth_bound; lia|unfold rows; lia].
  - intros u w Hu Hw. apply Hag; by apply Hheld.
  - assert (Hbelow : forall c, above c = p -> c <> 1%positive -> <[p := x]> A !! c = None).
    { intros c E Hc. pose proof (above_lt c Hc). rewrite lookup_insert_ne by lia.
      apply (rep_free A _ s c Hrep). lia. }
    split.
    + intros c Hc Hne u w Hu Hw. destruct (decide (above c = p)) as [E|E].
      * by rewrite (Hbelow c E Hc) in Hw.
      * rewrite lookup_insert_ne in Hu, Hw by done. by apply (Ho c).
    + intros _ c u w Hc E _ Hw. by rewrite (Hbelow c E Hc) in Hw.
  - exists s'. split; [done|]. exists B. rewrite size_union, size_singleton by set_solver.
    split_and!; [|done|intros z; by rewrite Hheld, (Hsame z)].
    by replace (Z.of_nat (1 + size S)) with (Z.of_nat (size S) + 1) by lia.
Qed.

Lemma stored_set_nelts A p w k s : stored A p w (set_nelts k s) = set_nelts k (stored A p w s).
Proof. by destruct p. Qed.
Lemma load_set_nelts v k s : load v (set_nelts k s) = load v s.
Proof. by destruct v. Qed.

(** The unlinking of the last node, in [heap_remove]. *)
Lemma remove_unlink A n s x : rep A n s -> 0 < n < 2 ^ 32 ->
  exists l m s1, Z.pos l = n /\ A !! l = Some m /\ rep (delete l A) (n - 1) s1 /\ same_dom s s1 /\
    heap_remove less_than x s =
      if points_to (Some m) x then Some s1
      else s ← replace m x s1; s ← walk_down less_than rows m s; walk_up less_than rows m s.
Proof.
  intros Hrep Hn. set (l := Z.to_pos n). assert (Hl : Z.pos l = n) by (unfold l; lia). clearbody l.
  assert (is_Some (A !! l)) as [m Hm] by (apply (rep_dom _ _ _ Hrep); lia).
  exists l, m, (set_nelts (n - 1) (stored A l None s)).
  pose proof (unlink_rep A n s l m Hrep Hl Hm) as Hrep1.
  destruct (slot_exists A n s l Hrep ltac:(lia)) as [v Hv].
  destruct (above_slot_exists A n s l Hrep ltac:(lia)) as (av & Hav & _).
  destruct (path_of_walk A n s l v av Hrep ltac:(lia) Hv Hav) as (k & path & Hpath & Hwalk).
  assert (Hst : store v None (set_nelts (n - 1) s) = Some (set_nelts (n - 1) (stored A l None s))).
  { rewrite (store_slot A l v None (set_nelts (n - 1) s) Hv), stored_set_nelts; [done|].
    intros z Hz. exact (mk_is_Some _ _ (rep_node _ _ _ Hrep _ _ Hz)). }
  split_and!; [done..| |].
  { apply store_dom in Hst. exact Hst. }
  unfold heap_remove. rewrite (rep_nelts _ _ _ Hrep), (proj2 (Z.eqb_neq n 0)), <- Hl, Hpath by lia.
  cbn [mbind option_bind]. rewrite Hwalk. cbn [mbind option_bind].
  rewrite wrap_small by (unfold in_u; lia). rewrite Hl, load_set_nelts, (load_slot A n s l v Hrep Hv), Hm.
  cbn [mbind option_bind]. rewrite Hst. cbn [mbind option_bind].
  unfold points_to. case_bool_decide as E; [|done]. rewrite bool_decide_false; [done|].
  injection E as ->. rewrite (rep_min _ _ _ Hrep1). intros E2. rewrite lookup_delete in E2.
  case_decide as E3; [done|]. apply E3. by eapply (rep_inj _ _ _ Hrep).
Qed.

(** The last node [m] in the place [q] of [x]. *)
Section Moved.
Context (A : gmap positive addr) (n : Z) (s : mem) (l q : positive) (m x : addr).
Context (Hrep : rep A n s) (Hm : A !! l = Some m) (Hq : A !! q = Some x) (Hmx : m <> x).
Let C := set_at q (Some m) (delete l A).

Lemma moved_at k z : C !! k = Some z <-> (k = q /\ z = m) \/ (k <> q /\ k <> l /\ A !! k = Some z).
Proof.
  unfold C. rewrite lookup_set_at. destruct (decide (q = k)) as [<-|Hne].
  - split; [intros [= ->]; auto|intros [[_ ->]|[? _]]; done].
  - rewrite lookup_delete_Some. split; [intros [? ?]; auto|intros [[-> _]|(_ & ? & ?)]; auto; done].
Qed.

Lemma moved_held z : held C z <-> held A z /\ z <> x.
Proof.
  split.
  - intros [k [[-> ->]|(Hk & Hl & Hz)]%moved_at]; [split; [by exists l|done]|].
    split; [by exists k|]. intros ->. apply Hk. by eapply (rep_inj _ _ _ Hrep).
  - intros [[k Hk] Hz]. destruct (decide (k = l)) as [->|Hkl].
    + exists q. apply moved_at. left. split; [done|congruence].
    + exists k. apply moved_at. right. split_and!; [intros ->; congruence|done|done].
Qed.

Lemma moved_around : ordered A -> around_ok C q.
Proof.
  intros Ho. split.
  - intros c Hc Hcq Hacq u w [[? _]|(_ & _ & Hu)]%moved_at [[? _]|(_ & _ & Hw)]%moved_at; try done.
    by apply (Ho c).
  - intros Hq1 c u w Hc E [[E2 _]|(_ & _ & Hu)]%moved_at Hw; [by destruct (above_ne q Hq1)|].
    apply moved_at in Hw as [[-> ->]|(Hcq & _ & Hw)]; [by destruct (above_ne q Hq1)|].
    assert (key u <= key x) by (by apply (Ho q)).
    assert (key x <= key w) by (apply (Ho c); [done|by rewrite E|done]). lia.
Qed.
End Moved.

Lemma heap_remove_ok S s x : holds S s -> x ∈ S -> agrees_on (S ∖ {[x]}) ->
  Z.of_nat (size S) < 2 ^ 32 ->
  exists s', heap_remove less_than x s = Some s' /\ holds (S ∖ {[x]}) s'.
Proof.
  intros (A & Hrep & Ho & HS) Hx Hag Hsz. set (n := Z.of_nat (size S)) in *.
  assert (Hn : 0 < n) by (unfold n; assert (size S <> 0)%nat; [|lia]; apply size_non_empty_iff; set_solver).
  assert (Hn' : Z.of_nat (size (S ∖ {[x]})) = n - 1).
  { rewrite size_difference, size_singleton by set_solver. unfold n in *. lia. }
  destruct (remove_unlink A n s x Hrep ltac:(lia)) as (l & m & s1 & Hl & Hm & Hrep1 & Hdom & ->).
  assert (Hq : held A x) by (by apply HS). destruct Hq as [q Hq]. unfold points_to.
  case_bool_decide as E.
  - injection E as ->. exists s1. split; [done|]. exists (delete l A). rewrite Hn'. split_and!; [done| |].
    + intros c Hc u w [_ Hu]%lookup_delete_Some [_ Hw]%lookup_delete_Some. by apply (Ho c).
    + intros z. rewrite elem_of_difference, elem_of_singleton, HS. split.
      * intros [[k Hk] Hz]. exists k. rewrite lookup_delete_Some. split; [intros ->; congruence|done].
      * intros [k [Hk1 Hk]%lookup_delete_Some]. split; [by exists k|]. intros ->. apply Hk1.
        by eapply (rep_inj _ _ _ Hrep).
  - assert (Hmx : m <> x) by congruence. assert (Hql : q <> l) by congruence.
    assert (HBq : delete l A !! q = Some x) by (by rewrite lookup_delete_ne).
    assert (HBm : ~ held (delete l A) m).
    { intros [k [Hk1 Hk]%lookup_delete_Some]. apply Hk1. by eapply (rep_inj _ _ _ Hrep). }
    rewrite (replace_ok (delete l A) (n - 1) s1 q x m Hrep1 HBq HBm).
    2:{ apply elem_of_dom. rewrite Hdom. apply elem_of_dom.
        exact (mk_is_Some _ _ (rep_node _ _ _ Hrep _ _ Hm)). }
    cbn [mbind option_bind].
    pose proof (replaced_rep (delete l A) (n - 1) s1 q x m Hrep1 HBq HBm) as Hrep2.
    destruct (walk_down_ok (n - 1) rows _ q m _ ltac:(lia) Hrep2) as (s3 & B & p & -> & HB & Hsame & Hp & Hup).
    { by rewrite lookup_set_at, decide_True. }
    { unfold rows. lia. }
    { intros u w [Hu Hux]%(moved_held A n s l q m x Hrep Hm Hq Hmx)
        [Hw Hwx]%(moved_held A n s l q m x Hrep Hm Hq Hmx).
      apply Hag; rewrite elem_of_difference, elem_of_singleton, HS; done. }
    { by apply (moved_around A l q m x). }
    cbn [mbind option_bind].
    assert (HheldB : forall z, z ∈ S ∖ {[x]} <-> held B z).
    { intros z. rewrite elem_of_difference, elem_of_singleton, HS.
      rewrite <- (Hsame z). symmetry. by apply (moved_held A n s). }
    destruct (walk_up_ok B (n - 1) rows p m s3 HB Hp) as (s4 & D & -> & HD & HsameD & HoD).
    { assert (depth p <= 31)%nat; [|unfold rows; lia]. apply depth_bound.
      assert (is_Some (B !! p)) as Hi%(rep_dom _ _ _ HB) by eauto. lia. }
    { intros u w Hu%HheldB Hw%HheldB. by apply Hag. }
    { done. }
    exists s4. split; [done|]. exists D. rewrite Hn'. split_and!; [done..|].
    intros z. by rewrite HheldB, (HsameD z).
Qed.
End Order.
End HeapOps.
