(* ===== verification/HeapQueue.v ===== *)
(** * HeapQueue: the heap as a priority queue

    What a client of the heap of Heap.v can rely on: a refinement of a set of
    nodes with a least element, and the order in which the nodes leave. *)
From Stdlib Require Import Sorted.
From stdpp Require Import gmap sorting.
From S2P Require Import Prelude Heap HeapRep HeapOps.

#[local] Set Warnings "-clear-no-such-hyp".

Module HeapQueue.
Import CHeap.

Section Queue.
(** [less_than] compares keys of the nodes, which do not change. *)
Context (key : addr -> Z) (less_than : addr -> addr -> option bool).
Context (Hless : forall x y, less_than x y = Some (key x <? key y)).

(** The operations of the heap. *)
Inductive op : Type := Insert (x : addr) | Remove (x : addr) | Dequeue.
Definition do_op (o : op) (s : mem) : option mem :=
  match o with
  | Insert x => heap_insert less_than x s
  | Remove x => heap_remove less_than x s
  | Dequeue => heap_dequeue less_than s
  end.

(** The abstract queue: the set of the nodes inserted and not yet taken out. *)
Definition queue_op (o : op) (s : mem) (Q : gset addr) : gset addr :=
  match o with
  | Insert x => {[x]} ∪ Q
  | Remove x => Q ∖ {[x]}
  | Dequeue => match heap_min s with Some x => Q ∖ {[x]} | None => Q end
  end.

(** What the caller sees to: a node inserted is not in the queue, its memory is
    there, and there are fewer than 2^32; a node removed is in the queue. *)
Definition allowed (o : op) (s : mem) (Q : gset addr) : bool :=
  match o with
  | Insert x => bool_decide (x ∉ Q) && bool_decide (is_Some (nodes s !! x)) &&
      (Z.of_nat (size Q) + 1 <? 2 ^ 32)
  | Remove x => bool_decide (x ∈ Q)
  | Dequeue => true
  end.

Inductive outcome : Type := Ran (s : mem) (Q : gset addr) | Illegal | Crash.
Fixpoint run (os : list op) (s : mem) (Q : gset addr) : outcome :=
  match os with
  | [] => Ran s Q
  | o :: os =>
      if allowed o s Q then
        match do_op o s with Some s' => run os s' (queue_op o s Q) | None => Crash end
      else Illegal
  end.

Lemma agrees_all X : HeapOps.agrees_on key less_than X.
Proof. intros x y _ _. apply Hless. Qed.

Lemma dequeue_ok Q s : HeapOps.holds key Q s -> Z.of_nat (size Q) < 2 ^ 32 ->
  exists s', heap_dequeue less_than s = Some s' /\
    match heap_min s with
    | None => Q = ∅ /\ s' = s
    | Some r => r ∈ Q /\ (forall y, y ∈ Q -> key r <= key y) /\ HeapOps.holds key (Q ∖ {[r]}) s'
    end.
Proof.
  intros H Hsz. pose proof (HeapOps.holds_min key Q s H) as Hmin. unfold heap_dequeue, heap_min in *.
  destruct (min (root s)) as [r|].
  - destruct Hmin as [Hr Hle].
    destruct (HeapOps.heap_remove_ok key less_than Q s r H Hr (agrees_all _) Hsz) as (s' & Hs & Hh).
    by exists s'.
  - exists s. destruct H as (A & Hrep & _). pose proof (HeapRep.rep_nelts _ _ _ Hrep) as Hn.
    subst Q. rewrite size_empty in Hn. by rewrite Hn.
Qed.

Lemma do_op_ok Q o s : HeapOps.holds key Q s -> allowed o s Q = true -> Z.of_nat (size Q) < 2 ^ 32 ->
  exists s', do_op o s = Some s' /\ HeapOps.holds key (queue_op o s Q) s' /\
    Z.of_nat (size (queue_op o s Q)) < 2 ^ 32.
Proof.
  intros H Ha Hsz. destruct o as [x|x|]; cbn [do_op allowed queue_op] in *.
  - apply andb_true_iff in Ha as [[Hx%bool_decide_eq_true Hex%bool_decide_eq_true]%andb_true_iff Hs%Z.ltb_lt].
    destruct (HeapOps.heap_insert_ok key less_than Q s x H Hx Hex (agrees_all _) Hs) as (s' & ? & ?).
    exists s'. split_and!; [done..|]. rewrite size_union, size_singleton by set_solver. lia.
  - apply bool_decide_eq_true in Ha.
    destruct (HeapOps.heap_remove_ok key less_than Q s x H Ha (agrees_all _) ltac:(lia)) as (s' & ? & ?).
    exists s'. split_and!; [done..|].
    assert (size (Q ∖ {[x]}) <= size Q)%nat by (apply subseteq_size; set_solver). lia.
  - destruct (dequeue_ok Q s H Hsz) as (s' & Hs & Hm). exists s'. split; [done|].
    destruct (heap_min s) as [r|]; [|by destruct Hm as [-> ->]].
    destruct Hm as (Hr & Hle & Hh). split; [done|].
    assert (size (Q ∖ {[r]}) <= size Q)%nat by (apply subseteq_size; set_solver). lia.
Qed.

Lemma run_ok os : forall s Q, HeapOps.holds key Q s -> Z.of_nat (size Q) < 2 ^ 32 ->
  match run os s Q with
  | Ran s' Q' => HeapOps.holds key Q' s'
  | Illegal => True
  | Crash => False
  end.
Proof.
  induction os as [|o os IH]; intros s Q H Hsz; cbn [run]; [done|].
  destruct (allowed o s Q) eqn:Ha; [|done].
  destruct (do_op_ok Q o s H Ha Hsz) as (s' & -> & Hh & Hsz'). by apply IH.
Qed.

(** C11.  The heap refines a priority queue: however nodes are inserted, removed
    from anywhere and taken from the front, no operation touches memory that is
    not there, the count is the number of nodes, and [heap_min] is a node of
    the queue with the least key, or null exactly when the queue is empty. *)
Theorem heap_priority_queue (os : list op) (s : mem) :
  match run os (heap_init s) ∅ with
  | Ran s' Q =>
      nelts (root s') = Z.of_nat (size Q) /\
      match heap_min s' with
      | Some r => r ∈ Q /\ forall x, x ∈ Q -> key r <= key x
      | None => Q = ∅
      end
  | Illegal => True
  | Crash => False
  end.
Proof.
  pose proof (run_ok os (heap_init s) ∅ (HeapOps.holds_init key s) ltac:(rewrite size_empty; lia)) as H.
  destruct (run os (heap_init s) ∅) as [s' Q| |]; [|done..].
  split; [|by apply HeapOps.holds_min]. destruct H as (A & Hrep & _). apply (HeapRep.rep_nelts _ _ _ Hrep).
Qed.

(** A client that sorts: all nodes in, then all out. *)
Fixpoint insert_all (xs : list addr) (s : mem) : option mem :=
  match xs with
  | [] => Some s
  | x :: xs => s ← heap_insert less_than x s; insert_all xs s
  end.
Fixpoint drain (n : nat) (s : mem) : option (list addr) :=
  match n with
  | O => Some []
  | S n => x ← heap_min s; s ← heap_dequeue less_than s; xs ← drain n s; Some (x :: xs)
  end.

Lemma insert_all_ok xs : forall Q s, HeapOps.holds key Q s -> NoDup xs ->
  (forall x, x ∈ xs -> (x ∉ Q) /\ is_Some (nodes s !! x)) ->
  Z.of_nat (size Q) + Z.of_nat (length xs) < 2 ^ 32 ->
  exists s', insert_all xs s = Some s' /\ HeapOps.holds key (Q ∪ list_to_set xs) s'.
Proof.
  induction xs as [|x xs IH]; intros Q s H Hnd Hx Hsz; cbn [insert_all length] in *.
  { exists s. split; [done|]. cbn. by rewrite union_empty_r_L. }
  apply list.NoDup_cons in Hnd as [Hnx Hnd]. destruct (Hx x) as [HxQ Hex]; [left|].
  destruct (HeapOps.heap_insert_ok key less_than Q s x H HxQ Hex (agrees_all _)) as (s1 & Hs & Hh); [lia|].
  rewrite Hs. cbn [mbind option_bind].
  destruct (IH ({[x]} ∪ Q) s1 Hh Hnd) as (s' & -> & Hh').
  - intros y Hy. destruct (Hx y) as [HyQ Hey]; [by right|]. split.
    + rewrite elem_of_union, elem_of_singleton. intros [->|?]; done.
    + apply elem_of_dom. rewrite (HeapOps.insert_dom _ _ _ _ Hs). by apply elem_of_dom.
  - rewrite size_union, size_singleton by set_solver. lia.
  - exists s'. split; [done|]. by replace (Q ∪ list_to_set (x :: xs)) with ({[x]} ∪ Q ∪ list_to_set xs) by set_solver.
Qed.

Lemma drain_ok n : forall Q s, HeapOps.holds key Q s -> size Q = n -> Z.of_nat n < 2 ^ 32 ->
  exists ys, drain n s = Some ys /\ NoDup ys /\ (forall y, y ∈ ys <-> y ∈ Q) /\
    StronglySorted (fun x y => key x <= key y) ys.
Proof.
  induction n as [|n IH]; intros Q s H Hn Hsz; cbn [drain].
  { exists []. apply size_empty_inv in Hn. split_and!; [done|constructor| |constructor].
    intros y. rewrite elem_of_nil. set_solver. }
  destruct (dequeue_ok Q s H ltac:(lia)) as (s' & Hs & Hm). destruct (heap_min s) as [r|].
  2:{ destruct Hm as [-> _]. by rewrite size_empty in Hn. }
  destruct Hm as (Hr & Hle & Hh). cbn [mbind option_bind]. rewrite Hs. cbn [mbind option_bind].
  destruct (IH (Q ∖ {[r]}) s' Hh) as (ys & -> & Hnd & Hys & Hss); [|lia|].
  { rewrite size_difference, size_singleton by set_solver. lia. }
  exists (r :: ys). split; [done|]. split; [|split].
  - constructor; [|done]. rewrite Hys. set_solver.
  - intros y. rewrite elem_of_cons, Hys. destruct (decide (y = r)); set_solver.
  - constructor; [done|]. apply Forall_forall. intros y Hy%list_elem_of_In%Hys. apply Hle. set_solver.
Qed.

(** Nodes put into the heap leave it sorted: inserting any nodes and
    dequeuing as many gives the same nodes in the order of their keys. *)
Theorem heap_sorts (xs : list addr) (s : mem) (Hnd : NoDup xs)
    (Hex : forall x, x ∈ xs -> is_Some (nodes s !! x)) (Hsz : Z.of_nat (length xs) < 2 ^ 32) :
  exists ys, (s ← insert_all xs (heap_init s); drain (length xs) s) = Some ys /\
    ys ≡ₚ xs /\ StronglySorted (fun x y => key x <= key y) ys.
Proof.
  destruct (insert_all_ok xs ∅ (heap_init s) (HeapOps.holds_init key s) Hnd) as (s' & -> & Hh).
  - intros x Hx. split; [set_solver|]. by apply Hex.
  - rewrite size_empty. lia.
  - cbn [mbind option_bind]. rewrite union_empty_l_L in Hh.
    assert (Hlen : size (list_to_set xs : gset addr) = length xs) by by apply size_list_to_set.
    destruct (drain_ok (length xs) _ s' Hh Hlen Hsz) as (ys & Hd & Hnd' & Hys & Hss).
    exists ys. split_and!; [done| |done]. apply list.NoDup_Permutation; [done..|].
    intros x. rewrite Hys. apply elem_of_list_to_set.
Qed.
End Queue.

(** ** Witnesses *)

Definition three : mem :=
  mkmem (list_to_map [(1%positive, mknode None None None); (2%positive, mknode None None None);
    (3%positive, mknode None None None)]) (mkheap None 7).

Lemma heap_priority_queue_witness :
  let key x := Z.pos x in let less x y := Some (key x <? key y) in
  let r := run less [Insert 3; Insert 1; Insert 2; Remove 1; Dequeue] (heap_init three) ∅ in
  match r with Ran s' Q => heap_min s' = Some 3%positive | _ => False end /\
  match r with
  | Ran s' Q =>
      nelts (root s') = Z.of_nat (size Q) /\
      match heap_min s' with
      | Some r => r ∈ Q /\ forall x, x ∈ Q -> key r <= key x
      | None => Q = ∅
      end
  | Illegal => True
  | Crash => False
  end.
Proof.
  intros key less. split; [vm_compute; reflexivity|].
  apply (heap_priority_queue key less (fun _ _ => eq_refl) _ three).
Defined.

Lemma heap_sorts_witness :
  let key x := 10 - Z.pos x in let less x y := Some (key x <? key y) in
  exists ys, (s ← insert_all less [1; 3; 2]%positive
      (heap_init three);
    drain less 3 s) = Some ys /\ ys ≡ₚ [1; 3; 2]%positive /\
    StronglySorted (fun x y => key x <= key y) ys.
Proof.
  intros key less. apply (heap_sorts key less (fun _ _ => eq_refl) [1; 3; 2]%positive).
  - apply (bool_decide_unpack _). vm_compute. exact I.
  - intros x Hx. repeat (apply elem_of_cons in Hx as [->|Hx]; [by eexists|]). by apply elem_of_nil in Hx.
  - reflexivity.
Defined.
End HeapQueue.
