(* ===== verification/Timer.v ===== *)
(** * Timer: timers on the heap

    Models src/src/common/Timer.cpp.  A timer object owns one heap node, which
    points back to it; the clock and the callbacks' code are parameters. *)
From stdpp Require Import gmap.
From S2P Require Import Prelude Heap HeapRep HeapOps.

#[local] Set Warnings "-clear-no-such-hyp".

Module Timer.
Import CHeap.

Section Program.
(** The closures given to [start], and [XTime::iclock()]: the value of its
    [k]-th call. *)
Context {F : Type} (iclock : nat -> Z).

(** [class Timer] *)
Record timer : Type := mktimer { m_node : ptr; m_time : Z; m_repeat : Z; m_cb : option F }.

(** The timer objects, the [user] fields of the nodes, the heap [gRootHeap]
    with the nodes' links, the calls of the clock so far; [log] records the
    callbacks run, with the time the timer was set to and the clock read. *)
Record world : Type := mkworld {
  timers : gmap addr timer; users : gmap addr ptr; gRootHeap : mem; calls : nat;
  log : list (addr * Z * Z)
}.

Definition set_timer (t : addr) (v : timer) (w : world) : world :=
  mkworld (<[t := v]> (timers w)) (users w) (gRootHeap w) (calls w) (log w).
Definition set_heap (m : mem) (w : world) : world :=
  mkworld (timers w) (users w) m (calls w) (log w).
Definition read_clock (w : world) : Z * world :=
  (iclock (calls w), mkworld (timers w) (users w) (gRootHeap w) (S (calls w)) (log w)).
Definition with_time (v : Z) (t : timer) : timer := mktimer (m_node t) v (m_repeat t) (m_cb t).

(** [compare_fn]. *)
Definition timer_of (w : world) (a : addr) : option timer :=
  user ← users w !! a; t ← user; timers w !! t.
Definition compare_fn (w : world) (a b : addr) : option bool :=
  timer_a ← timer_of w a;
  timer_b ← timer_of w b;
  Some (m_time timer_a <? m_time timer_b).

Definition insert_node (a : addr) (w : world) : option world :=
  m ← heap_insert (compare_fn w) a (gRootHeap w); Some (set_heap m w).
Definition remove_node (a : addr) (w : world) : option world :=
  m ← heap_remove (compare_fn w) a (gRootHeap w); Some (set_heap m w).

(** [Timer::init]. *)
Definition init (w : world) : world := set_heap (heap_init (gRootHeap w)) w.

(** [Timer::Timer], given the addresses of the object and of the node; the
    pointers of a fresh node hold anything. *)
Definition create (t a : addr) (junk : heap_node) (w : world) : world :=
  mkworld (<[t := mktimer (Some a) 0 0 None]> (timers w)) (<[a := Some t]> (users w))
    (mkmem (<[a := junk]> (nodes (gRootHeap w))) (root (gRootHeap w))) (calls w) (log w).

Definition stop (t : addr) (w : world) : option world :=
  v ← timers w !! t;
  if m_time v =? 0 then Some w
  else
    a ← m_node v;
    remove_node a (set_timer t (with_time 0 v) w).

Definition start (t : addr) (cb : F) (timeout repeat_ : Z) (w : world) : option world :=
  v ← timers w !! t;
  let '(now, w) := read_clock w in
  let w := set_timer t (mktimer (m_node v) (u32 (timeout + now)) (u32 repeat_) (Some cb)) w in
  a ← m_node v;
  insert_node a w.

(** [Timer::~Timer]. *)
Definition destroy (t : addr) (w : world) : option world :=
  v ← timers w !! t;
  match m_node v with
  | None => Some (mkworld (delete t (timers w)) (users w) (gRootHeap w) (calls w) (log w))
  | Some a =>
      _ ← users w !! a;
      let w := mkworld (timers w) (<[a := None]> (users w)) (gRootHeap w) (calls w) (log w) in
      w ← stop t w;
      Some (mkworld (delete t (timers w)) (delete a (users w))
        (mkmem (delete a (nodes (gRootHeap w))) (root (gRootHeap w))) (calls w) (log w))
  end.

(** One round of [Timer::update], up to the call of the callback, which is
    given back; [None]: the loop is left.  An empty [std::function] must not be
    called. *)
Definition fire (w : world) : option (option F * world) :=
  match heap_min (gRootHeap w) with
  | None => Some (None, w)
  | Some a =>
      user ← users w !! a;
      t ← user;
      v ← timers w !! t;
      let '(now, w) := read_clock w in
      if m_time v <=? now then
        w ← remove_node a w;
        let w := set_timer t (with_time 0 v) w in
        w ← (if 0 <? m_repeat v then
               let '(now, w) := read_clock w in
               insert_node a (set_timer t (with_time (u32 (m_repeat v + now)) v) w)
             else Some w);
        f ← m_cb v;
        Some (Some f, mkworld (timers w) (users w) (gRootHeap w) (calls w) ((t, m_time v, now) :: log w))
      else Some (None, w)
  end.

(** ** Clients *)

(** The calls of the class. *)
Inductive api : Type :=
  | New (t a : addr) (junk : heap_node)
  | Start (t : addr) (cb : F) (timeout repeat_ : Z)
  | Stop (t : addr)
  | Delete (t : addr).

(** The contract of the calls: [New] gets new addresses, the timer of a call
    exists, and [Start] finds it stopped and gets times below 2^31 ms. *)
Definition legal (c : api) (w : world) : bool :=
  match c with
  | New t a _ => bool_decide (timers w !! t = None) && bool_decide (users w !! a = None) &&
      bool_decide (nodes (gRootHeap w) !! a = None) &&
      (Z.of_nat (size (dom (nodes (gRootHeap w)) : gset addr)) + 1 <? 2 ^ 32)
  | Start t _ timeout repeat_ =>
      match timers w !! t with Some v => m_time v =? 0 | None => false end &&
      (0 <=? timeout) && (timeout <? 2 ^ 31) && (0 <=? repeat_) && (repeat_ <? 2 ^ 31)
  | Stop t | Delete t => bool_decide (is_Some (timers w !! t))
  end.

Inductive outcome : Type := Ran (w : world) | Illegal | Crash.

Definition of_option (r : option world) : outcome :=
  match r with Some w => Ran w | None => Crash end.

Definition do_api (c : api) (w : world) : outcome :=
  if negb (legal c w) then Illegal
  else match c with
       | New t a junk => Ran (create t a junk w)
       | Start t cb timeout repeat_ => of_option (start t cb timeout repeat_ w)
       | Stop t => of_option (stop t w)
       | Delete t => of_option (destroy t w)
       end.

Fixpoint do_apis (cs : list api) (w : world) : outcome :=
  match cs with
  | [] => Ran w
  | c :: cs => match do_api c w with Ran w => do_apis cs w | r => r end
  end.

(** What the closures do: calls of the class. *)
Context (body : F -> list api).

(** [Timer::update]. *)
Fixpoint update_loop (n : nat) (w : world) : outcome :=
  match n with
  | O => Ran w
  | S n =>
      match fire w with
      | None => Crash
      | Some (None, w) => Ran w
      | Some (Some f, w) =>
          match do_apis (body f) w with Ran w => update_loop n w | r => r end
      end
  end.
Definition update : world -> outcome := update_loop 10.

(** What happens in the life of the program. *)
Inductive event : Type := Api (c : api) | Update.
Fixpoint history (es : list event) (w : world) : outcome :=
  match es with
  | [] => Ran w
  | e :: es =>
      match match e with Api c => do_api c w | Update => update w end with
      | Ran w => history es w
      | r => r
      end
  end.
Definition boot : world := init (mkworld ∅ ∅ (mkmem ∅ (mkheap None 0)) 0 []).

(** ** The invariant *)

Definition key (w : world) (a : addr) : Z :=
  match timer_of w a with Some v => m_time v | None => 0 end.

(** [S] are the nodes of the running timers. *)
Record linked (S : gset addr) (w : world) : Prop := {
  l_timer : forall t v, timers w !! t = Some v ->
    0 <= m_time v < 2 ^ 32 /\ 0 <= m_repeat v < 2 ^ 31 /\
    exists a, m_node v = Some a /\ users w !! a = Some (Some t) /\
      (m_time v <> 0 <-> a ∈ S) /\ (a ∈ S -> is_Some (m_cb v));
  l_user : forall a u, users w !! a = Some u ->
    exists t v, u = Some t /\ timers w !! t = Some v /\ m_node v = Some a;
  l_set : forall a, a ∈ S -> is_Some (users w !! a);
  l_nodes : dom (nodes (gRootHeap w)) = dom (users w);
  l_size : Z.of_nat (size (dom (users w) : gset addr)) < 2 ^ 32
}.
Definition inv (S : gset addr) (w : world) : Prop :=
  linked S w /\ HeapOps.holds (key w) S (gRootHeap w).

Lemma agrees_key w X : (forall a, a ∈ X -> is_Some (timer_of w a)) ->
  HeapOps.agrees_on (key w) (compare_fn w) X.
Proof.
  intros H x y Hx Hy. unfold compare_fn, key.
  destruct (H x Hx) as [vx ->], (H y Hy) as [vy ->]. done.
Qed.

Lemma holds_key k k' S m : (forall a, a ∈ S -> k a = k' a) -> HeapOps.holds k S m -> HeapOps.holds k' S m.
Proof.
  intros Hk (A & Hrep & Ho & HS). exists A. split_and!; [done| |done].
  intros c Hc x y Hx Hy. rewrite <- !Hk by (apply HS; by eexists). by apply (Ho c).
Qed.

Lemma agrees_key' k w X : (forall a, a ∈ X -> is_Some (timer_of w a) /\ k a = key w a) ->
  HeapOps.agrees_on k (compare_fn w) X.
Proof.
  intros H x y Hx Hy. destruct (H x Hx) as [? ->], (H y Hy) as [? ->].
  by apply (agrees_key w X); [intros a Ha; by apply H|..].
Qed.

Lemma linked_node S w t v : linked S w -> timers w !! t = Some v ->
  exists a, m_node v = Some a /\ users w !! a = Some (Some t) /\ timer_of w a = Some v /\
    (m_time v <> 0 <-> a ∈ S).
Proof.
  intros Hl Hv. destruct (l_timer _ _ Hl t v Hv) as (_ & _ & a & Ha & Hu & Hs & _).
  exists a. split_and!; [done..| |done]. unfold timer_of. by rewrite Hu, <- Hv.
Qed.

(** Distinct nodes have distinct timers. *)
Lemma linked_other S w t v a b : linked S w -> timers w !! t = Some v -> m_node v = Some a ->
  b <> a -> is_Some (users w !! b) ->
  exists t' v', users w !! b = Some (Some t') /\ timers w !! t' = Some v' /\ t' <> t.
Proof.
  intros Hl Hv Ha Hb [u Hu]. destruct (l_user _ _ Hl b u Hu) as (t' & v' & -> & Hv' & Hn).
  exists t', v'. split_and!; [done..|]. intros ->. congruence.
Qed.

Lemma linked_sub S w : linked S w -> Z.of_nat (size S) < 2 ^ 32.
Proof.
  intros Hl. assert (size S <= size (dom (users w) : gset addr))%nat.
  { apply subseteq_size. intros a Ha. apply elem_of_dom. by apply (l_set _ _ Hl). }
  pose proof (l_size _ _ Hl). lia.
Qed.

(** A new value for one timer, which enters or leaves the set. *)
Lemma linked_set S S' w w' t v v' a :
  linked S w -> timers w !! t = Some v -> m_node v = Some a ->
  timers w' = <[t := v']> (timers w) -> users w' = users w ->
  dom (nodes (gRootHeap w')) = dom (nodes (gRootHeap w)) ->
  m_node v' = Some a -> 0 <= m_time v' < 2 ^ 32 -> 0 <= m_repeat v' < 2 ^ 31 ->
  (m_time v' <> 0 <-> a ∈ S') -> (a ∈ S' -> is_Some (m_cb v')) ->
  (forall b, b <> a -> b ∈ S' <-> b ∈ S) -> linked S' w'.
Proof.
  intros Hl Hv Ha Ht Hu Hd Ha' Htime Hrep Hs' Hcb Hother.
  destruct (l_timer _ _ Hl t v Hv) as (_ & _ & a0 & Ha0 & Hua & _). simplify_eq.
  split; [| | |by rewrite Hu, Hd; apply Hl|by rewrite Hu; apply Hl]; setoid_rewrite Hu; try rewrite Ht.
  - intros t1 v1 H1. rewrite lookup_insert in H1. case_decide as E.
    + subst. injection H1 as <-. split; [done|]. split; [done|]. by exists a.
    + destruct (l_timer _ _ Hl t1 v1 H1) as (? & ? & b & Hb & Hub & Hsb & Hcb').
      split; [done|]. split; [done|]. exists b. assert (b <> a) by congruence. by rewrite (Hother b).
  - intros b u Hb. destruct (l_user _ _ Hl b u Hb) as (t1 & v1 & -> & Hv1 & Hn1).
    destruct (decide (t1 = t)) as [->|Hne].
    + exists t, v'. rewrite lookup_insert_eq. split_and!; [done..|congruence].
    + exists t1, v1. by rewrite lookup_insert_ne.
  - intros b Hb. destruct (decide (b = a)) as [->|Hne]; [exact (mk_is_Some _ _ Hua)|].
    apply (l_set _ _ Hl). by apply Hother.
Qed.

Lemma timer_of_set S w w' t v v' a b : linked S w -> timers w !! t = Some v -> m_node v = Some a ->
  timers w' = <[t := v']> (timers w) -> users w' = users w -> is_Some (users w !! b) ->
  timer_of w' b = if decide (b = a) then Some v' else timer_of w b.
Proof.
  intros Hl Hv Ha Ht Hu Hb. unfold timer_of. rewrite Ht, Hu. case_decide as E.
  - subst. destruct (l_timer _ _ Hl t v Hv) as (_ & _ & a0 & Ha0 & Hua & _). simplify_eq.
    rewrite Hua. cbn [mbind option_bind]. apply lookup_insert_eq.
  - destruct (linked_other S w t v a b Hl Hv Ha E Hb) as (t' & v1 & -> & Hv1 & Hne).
    cbn [mbind option_bind]. by rewrite lookup_insert_ne.
Qed.

Lemma timer_of_linked S w b : linked S w -> b ∈ S -> is_Some (timer_of w b).
Proof.
  intros Hl Hb. destruct (l_set _ _ Hl b Hb) as [u Hu].
  destruct (l_user _ _ Hl b u Hu) as (t & v & -> & Hv & _). unfold timer_of. rewrite Hu.
  cbn [mbind option_bind]. eauto.
Qed.

(** The removal of a running timer's node, whatever became of its own timer. *)
Lemma remove_core S w w1 a : inv S w -> a ∈ S ->
  (forall b, b ∈ S -> b <> a -> timer_of w1 b = timer_of w b) ->
  exists m, heap_remove (compare_fn w1) a (gRootHeap w) = Some m /\
    HeapOps.holds (key w) (S ∖ {[a]}) m /\ dom (nodes m) = dom (nodes (gRootHeap w)).
Proof.
  intros [Hl Hh] Ha Hsame.
  destruct (HeapOps.heap_remove_ok (key w) (compare_fn w1) S (gRootHeap w) a Hh Ha) as (m & Hm & Hh').
  - apply agrees_key'. intros b Hb. assert (b ∈ S /\ b <> a) as [HbS Hne] by set_solver.
    unfold key. rewrite (Hsame b HbS Hne). split; [by apply (timer_of_linked S)|done].
  - by apply (linked_sub S w).
  - exists m. split_and!; [done..|]. by apply HeapOps.remove_dom in Hm.
Qed.

(** A timer stops: its node leaves the heap and its time is 0. *)
Lemma stopped_inv S w w2 t v a : inv S w -> timers w !! t = Some v -> m_node v = Some a ->
  timers w2 = <[t := with_time 0 v]> (timers w) -> users w2 = users w ->
  dom (nodes (gRootHeap w2)) = dom (nodes (gRootHeap w)) ->
  HeapOps.holds (key w) (S ∖ {[a]}) (gRootHeap w2) -> inv (S ∖ {[a]}) w2.
Proof.
  intros [Hl Hh] Hv Ha Ht Hu Hd Hh2. destruct (l_timer _ _ Hl t v Hv) as (Hti & Hrep & _).
  split.
  - apply (linked_set S _ w w2 t v (with_time 0 v) a); try done; cbn [m_time with_time m_cb m_repeat].
    + set_solver.
    + set_solver.
    + intros b Hb. set_solver.
  - apply (holds_key (key w)); [|done]. intros b Hb. assert (b ∈ S /\ b <> a) as [HbS Hne] by set_solver.
    unfold key. rewrite (timer_of_set S w w2 t v _ a b Hl Hv Ha Ht Hu) by by apply (l_set _ _ Hl).
    by rewrite decide_False.
Qed.

(** A stopped timer starts. *)
Lemma insert_step S w w1 t v v' a : inv S w -> timers w !! t = Some v -> m_node v = Some a ->
  m_time v = 0 ->
  timers w1 = <[t := v']> (timers w) -> users w1 = users w -> gRootHeap w1 = gRootHeap w ->
  m_node v' = Some a -> 0 < m_time v' < 2 ^ 32 -> 0 <= m_repeat v' < 2 ^ 31 -> is_Some (m_cb v') ->
  exists m, insert_node a w1 = Some (set_heap m w1) /\ inv ({[a]} ∪ S) (set_heap m w1).
Proof.
  intros [Hl Hh] Hv Ha Hz Ht Hu Hg Ha' Hti Hrep Hcb.
  destruct (l_timer _ _ Hl t v Hv) as (_ & _ & a0 & Ha0 & Hua & Hs & _). simplify_eq.
  assert (HaS : a ∉ S) by tauto.
  assert (Hof : forall b, is_Some (users w !! b) ->
    timer_of w1 b = if decide (b = a) then Some v' else timer_of w b)
    by (intros b; by apply (timer_of_set S w w1 t v)).
  assert (HSu : forall b, b ∈ {[a]} ∪ S -> is_Some (users w !! b)).
  { intros b [->%elem_of_singleton|Hb]%elem_of_union; [eauto|by apply (l_set _ _ Hl)]. }
  assert (Hsz : (size ({[a]} ∪ S) <= size (dom (users w) : gset addr))%nat).
  { apply subseteq_size. intros b Hb. by apply elem_of_dom, HSu. }
  rewrite size_union, size_singleton in Hsz by set_solver. pose proof (l_size _ _ Hl).
  destruct (HeapOps.heap_insert_ok (key w1) (compare_fn w1) S (gRootHeap w) a) as (m & Hm & Hh').
  - apply (holds_key (key w)); [|done]. intros b Hb. unfold key.
    rewrite Hof by by apply (l_set _ _ Hl). by rewrite decide_False by (intros ->; done).
  - done.
  - apply elem_of_dom. rewrite (l_nodes _ _ Hl). apply elem_of_dom. eauto.
  - apply agrees_key. intros b Hb. rewrite Hof by by apply HSu. case_decide; [eauto|].
    apply (timer_of_linked S); [done|set_solver].
  - lia.
  - exists m. unfold insert_node. rewrite Hg, Hm. split; [done|]. split.
    + apply (linked_set S _ w _ t v v' a); try done.
      * cbn [set_heap gRootHeap]. by apply HeapOps.insert_dom in Hm.
      * lia.
      * split; [set_solver|lia].
      * intros b Hb. set_solver.
    + apply (holds_key (key w1)); [done|exact Hh'].
Qed.

(** ** The calls keep the invariant *)

Definition exists_inv (w : world) : Prop := exists S, inv S w.

Lemma inv_clock S w : inv S w -> inv S (snd (read_clock w)).
Proof. intros [[] Hh]. by split; [split|]. Qed.

Lemma create_ok w t a junk : exists_inv w -> legal (New t a junk) w = true ->
  exists_inv (create t a junk w).
Proof.
  intros [S [Hl Hh]] Hleg. cbn [legal] in Hleg. bool_arith.
  repeat match goal with H : bool_decide _ = true |- _ => apply bool_decide_eq_true in H end.
  assert (HaS : a ∉ S).
  { intros Ha. destruct (l_set _ _ Hl a Ha) as [u Hu]. congruence. }
  assert (Hne : forall b u, users w !! b = Some u -> b <> a) by congruence.
  assert (Hnt : forall t' v, timers w !! t' = Some v -> t' <> t) by congruence.
  exists S. split.
  - split; cbn [create timers users gRootHeap nodes].
    + intros t1 v1 [[<- <-]|[Hne1 Hl1]]%lookup_insert_Some.
      * cbn. split; [lia|]. split; [lia|]. exists a. rewrite lookup_insert_eq.
        split; [done|]. split; [done|]. split; [split; [lia|done]|done].
      * destruct (l_timer _ _ Hl t1 v1 Hl1) as (? & ? & b & Hb & Hub & Hrest).
        split; [done|]. split; [done|]. exists b. rewrite lookup_insert_ne; [done|].
        intros ->. by apply (Hne _ _ Hub).
    + intros b u [[<- <-]|[Hne1 Hl1]]%lookup_insert_Some.
      * eexists _, _. rewrite lookup_insert_eq. done.
      * destruct (l_user _ _ Hl b u Hl1) as (t1 & v1 & -> & Hv1 & Hn). exists t1, v1.
        rewrite lookup_insert_ne; [done|]. intros ->. by apply (Hnt _ _ Hv1).
    + intros b Hb. rewrite lookup_insert_ne by (intros ->; done). by apply (l_set _ _ Hl).
    + rewrite !dom_insert_L. by rewrite (l_nodes _ _ Hl).
    + rewrite (l_nodes _ _ Hl) in *. rewrite dom_insert_L, size_union, size_singleton.
      * lia.
      * intros b ->%elem_of_singleton Hb%elem_of_dom. destruct Hb as [u Hu]. by apply (Hne _ _ Hu).
  - cbn [create gRootHeap]. apply (HeapOps.holds_frame _ S (gRootHeap w)); [|done|].
    + apply (holds_key (key w)); [|done]. intros b Hb. unfold key, timer_of. cbn [create users timers].
      destruct (l_set _ _ Hl b Hb) as [u Hu].
      destruct (l_user _ _ Hl b u Hu) as (t1 & v1 & -> & Hv1 & _).
      rewrite lookup_insert_ne by (intros ->; done). rewrite Hu. cbn [mbind option_bind].
      rewrite lookup_insert_ne; [done|]. intros ->. by apply (Hnt _ _ Hv1).
    + intros b Hb. cbn [nodes]. by rewrite lookup_insert_ne by (intros ->; done).
Qed.

Lemma stop_ok w t : exists_inv w -> is_Some (timers w !! t) ->
  exists w', stop t w = Some w' /\ exists_inv w' /\ log w' = log w.
Proof.
  intros [S Hinv] [v Hv]. unfold stop. rewrite Hv. cbn [mbind option_bind].
  destruct (Z.eqb_spec (m_time v) 0) as [Hz|Hz]; [exists w; by split; [|split; [exists S|]]|].
  destruct (linked_node S w t v (proj1 Hinv) Hv) as (a & Ha & Hu & Hof & HaS). rewrite Ha.
  cbn [mbind option_bind]. set (w1 := set_timer t (with_time 0 v) w).
  destruct (remove_core S w w1 a Hinv) as (m & Hm & Hh & Hd); [by apply HaS| |].
  { intros b Hb Hne. rewrite (timer_of_set S w w1 t v (with_time 0 v) a b); try done.
    - by rewrite decide_False.
    - apply Hinv.
    - by apply (l_set _ _ (proj1 Hinv)). }
  unfold remove_node. change (gRootHeap w1) with (gRootHeap w). rewrite Hm. cbn [mbind option_bind].
  eexists. split; [done|]. split; [|done]. exists (S ∖ {[a]}). by apply (stopped_inv S w _ t v a).
Qed.

Lemma boot_ok : exists_inv boot.
Proof.
  exists ∅. split.
  - split; cbn.
    + by intros t v ?%lookup_empty_Some.
    + by intros a u ?%lookup_empty_Some.
    + set_solver.
    + by rewrite !dom_empty_L.
    + rewrite dom_empty_L, size_empty. lia.
  - apply HeapOps.holds_init.
Qed.

(** The clock has left 0 and has not come to the middle of its range: for 24
    days of the processor's time.  Else a time set may be 0, which stands for a
    stopped timer (timer_clock_zero). *)
Definition clock_ok : Prop := forall k, 0 < iclock k < 2 ^ 31.

Section Clock.
Context (Hclock : clock_ok).

Lemma start_ok w t cb timeout repeat_ : exists_inv w -> legal (Start t cb timeout repeat_) w = true ->
  exists w', start t cb timeout repeat_ w = Some w' /\ exists_inv w' /\ log w' = log w.
Proof.
  intros [S Hinv] Hleg. cbn [legal] in Hleg. bool_arith.
  destruct (timers w !! t) as [v|] eqn:Hv; [|done]. bool_arith.
  destruct (linked_node S w t v (proj1 Hinv) Hv) as (a & Ha & Hu & Hof & HaS).
  unfold start. rewrite Hv. cbn [mbind option_bind read_clock]. rewrite Ha. cbn [mbind option_bind].
  pose proof (Hclock (calls w)).
  rewrite !wrap_small by (unfold in_u; lia).
  set (v' := mktimer (Some a) (timeout + iclock (calls w)) repeat_ (Some cb)).
  set (w1 := set_timer t v' _).
  destruct (insert_step S w w1 t v v' a Hinv Hv Ha) as (m & Hm & Hinv'); try done; [cbn; lia|].
  exists (set_heap m w1). split; [exact Hm|]. split; [by eexists|done].
Qed.

(** A timer and its node gone. *)
Definition forget (t a : addr) (m : mem) (w : world) : world :=
  mkworld (delete t (timers w)) (delete a (users w))
    (mkmem (delete a (nodes m)) (root m)) (calls w) (log w).

Lemma forget_inv S w t v a m : inv S w -> timers w !! t = Some v -> m_node v = Some a ->
  HeapOps.holds (key w) (S ∖ {[a]}) m -> dom (nodes m) = dom (nodes (gRootHeap w)) ->
  inv (S ∖ {[a]}) (forget t a m w).
Proof.
  intros [Hl Hh] Hv Ha Hm Hd. destruct (l_timer _ _ Hl t v Hv) as (_ & _ & a' & Ha' & Hua & _).
  simplify_eq. split.
  - split; cbn [forget timers users gRootHeap nodes].
    + intros t1 v1 [Hne Hv1]%lookup_delete_Some.
      destruct (l_timer _ _ Hl t1 v1 Hv1) as (? & ? & b & Hb & Hub & Hsb & Hcb).
      split; [done|]. split; [done|]. assert (a <> b) by congruence. exists b.
      rewrite lookup_delete_ne by done. split; [done|]. split; [done|]. split.
      * rewrite Hsb. set_solver.
      * intros ?. apply Hcb. set_solver.
    + intros b u [Hne Hb]%lookup_delete_Some. destruct (l_user _ _ Hl b u Hb) as (t1 & v1 & -> & Hv1 & Hn).
      exists t1, v1. rewrite lookup_delete_ne; [done|]. intros ->. congruence.
    + intros b Hb. rewrite lookup_delete_ne by set_solver. apply (l_set _ _ Hl). set_solver.
    + by rewrite !dom_delete_L, Hd, (l_nodes _ _ Hl).
    + pose proof (l_size _ _ Hl). rewrite dom_delete_L.
      assert (size (dom (users w) ∖ {[a]}) <= size (dom (users w) : gset addr))%nat; [|lia].
      apply subseteq_size. set_solver.
  - apply (HeapOps.holds_frame _ _ m); [|done|].
    + apply (holds_key (key w)); [|done]. intros b Hb. unfold key, timer_of. cbn [forget users timers].
      assert (b ∈ S /\ b <> a) as [HbS Hne] by set_solver.
      destruct (linked_other S w t v a b Hl Hv Ha Hne (l_set _ _ Hl b HbS)) as (t1 & v1 & Hub & Hv1 & Hnt).
      rewrite lookup_delete_ne, Hub by done. cbn [mbind option_bind]. by rewrite lookup_delete_ne.
    + intros b Hb. cbn [forget gRootHeap nodes]. rewrite lookup_delete_ne; [done|set_solver].
Qed.

Lemma destroy_ok w t : exists_inv w -> is_Some (timers w !! t) ->
  exists w', destroy t w = Some w' /\ exists_inv w' /\ log w' = log w.
Proof.
  intros [S Hinv] [v Hv]. unfold destroy. rewrite Hv. cbn [mbind option_bind].
  destruct (linked_node S w t v (proj1 Hinv) Hv) as (a & Ha & Hu & Hof & HaS). rewrite Ha, Hu.
  cbn [mbind option_bind]. unfold stop. cbn [timers]. rewrite Hv. cbn [mbind option_bind].
  destruct (Z.eqb_spec (m_time v) 0) as [Hz|Hz]; cbn [mbind option_bind].
  - eexists. split; [reflexivity|]. split; [|done]. exists (S ∖ {[a]}).
    cbn [timers users gRootHeap calls log]. rewrite delete_insert_eq.
    apply (forget_inv S w t v a (gRootHeap w)); try done.
    replace (S ∖ {[a]}) with S; [apply Hinv|]. assert (a ∉ S) by tauto. set_solver.
  - rewrite Ha. cbn [mbind option_bind]. unfold remove_node. cbn [set_timer gRootHeap].
    set (w1 := set_timer _ _ _).
    destruct (remove_core S w w1 a Hinv) as (m & Hm & Hh & Hd); [tauto| |].
    { intros b Hb Hne. unfold timer_of. cbn [w1 set_timer users timers]. rewrite lookup_insert_ne by done.
      destruct (linked_other S w t v a b (proj1 Hinv) Hv Ha Hne (l_set _ _ (proj1 Hinv) b Hb))
        as (t1 & v1 & Hub & Hv1 & Hnt).
      rewrite Hub. cbn [mbind option_bind]. by rewrite lookup_insert_ne. }
    rewrite Hm. cbn [mbind option_bind]. eexists. split; [reflexivity|]. split; [|done].
    exists (S ∖ {[a]}). cbn [set_heap w1 set_timer timers users gRootHeap calls log].
    rewrite delete_insert_eq, delete_insert_eq. by apply (forget_inv S w t v a m).
Qed.

Lemma do_api_ok c w : exists_inv w ->
  match do_api c w with
  | Ran w' => exists_inv w' /\ log w' = log w
  | Illegal => True
  | Crash => False
  end.
Proof.
  intros Hinv. unfold do_api. destruct (legal c w) eqn:Hleg; cbn [negb]; [|done].
  destruct c as [t a junk|t cb timeout repeat_|t|t].
  - split; [by apply create_ok|done].
  - destruct (start_ok w t cb timeout repeat_ Hinv Hleg) as (w' & -> & ?). done.
  - apply bool_decide_eq_true in Hleg. destruct (stop_ok w t Hinv Hleg) as (w' & -> & ?). done.
  - apply bool_decide_eq_true in Hleg. destruct (destroy_ok w t Hinv Hleg) as (w' & -> & ?). done.
Qed.

Lemma do_apis_ok cs : forall w, exists_inv w ->
  match do_apis cs w with
  | Ran w' => exists_inv w' /\ log w' = log w
  | Illegal => True
  | Crash => False
  end.
Proof.
  induction cs as [|c cs IH]; intros w Hinv; cbn [do_apis]; [done|].
  pose proof (do_api_ok c w Hinv) as H. destruct (do_api c w) as [w1| |]; [|done..].
  destruct H as [Hinv1 Hlog]. specialize (IH w1 Hinv1). by rewrite <- Hlog.
Qed.

(** ** A round of [update] *)

(** The timer run was due and first among the running ones. *)
Definition first_due (w : world) (e : addr * Z * Z) : Prop :=
  let '(t, time, now) := e in
  time <= now /\ (exists v, timers w !! t = Some v /\ m_time v = time) /\
  forall t' v', timers w !! t' = Some v' -> m_time v' <> 0 -> time <= m_time v'.

(** No running timer is due at [now]. *)
Definition none_due (now : Z) (w : world) : Prop :=
  forall t v, timers w !! t = Some v -> m_time v <> 0 -> now < m_time v.

Lemma rearm_ok S w t v a : inv S w -> timers w !! t = Some (with_time 0 v) -> m_node v = Some a ->
  0 <= m_repeat v < 2 ^ 31 -> is_Some (m_cb v) ->
  exists w3, (if 0 <? m_repeat v
    then let '(now, w) := read_clock w in
         insert_node a (set_timer t (with_time (u32 (m_repeat v + now)) v) w)
    else Some w) = Some w3 /\ exists_inv w3 /\ log w3 = log w.
Proof.
  intros Hinv Hv Ha Hrep Hcb.
  destruct (Z.ltb_spec 0 (m_repeat v)) as [Lr|Lr]; [|exists w; by split; [|split; [exists S|]]].
  cbn [read_clock]. pose proof (Hclock (calls w)). rewrite wrap_small by (unfold in_u; lia).
  set (v3 := with_time _ v). set (w3 := set_timer t v3 _).
  destruct (insert_step S w w3 t (with_time 0 v) v3 a Hinv) as (m3 & Hm3 & Hinv3); try done.
  - cbn [v3 with_time m_time]. lia.
  - exists (set_heap m3 w3). split; [exact Hm3|]. split; [by eexists|done].
Qed.

Lemma fire_ok w : exists_inv w ->
  match fire w with
  | None => False
  | Some (None, w') => exists_inv w' /\ log w' = log w /\ none_due (iclock (calls w)) w'
  | Some (Some _, w') => exists_inv w' /\
      exists e, log w' = e :: log w /\ first_due w e /\ snd e = iclock (calls w)
  end.
Proof.
  intros [S Hinv]. unfold fire. pose proof (HeapOps.holds_min (key w) S _ (proj2 Hinv)) as Hmin.
  destruct (heap_min (gRootHeap w)) as [a|]; cycle 1.
  { split; [by exists S|]. split; [done|]. intros t v Hv Hne.
    destruct (linked_node S w t v (proj1 Hinv) Hv) as (a & _ & _ & _ & Ha). exfalso.
    apply Ha in Hne. set_solver. }
  destruct Hmin as [HaS Hleast]. destruct (l_set _ _ (proj1 Hinv) a HaS) as [u Hu].
  destruct (l_user _ _ (proj1 Hinv) a u Hu) as (t & v & -> & Hv & Ha). rewrite Hu.
  cbn [mbind option_bind]. rewrite Hv. cbn [mbind option_bind read_clock].
  assert (Hkey : key w a = m_time v) by (unfold key, timer_of; rewrite Hu; cbn [mbind option_bind]; by rewrite Hv).
  assert (Hfirst : forall t' v', timers w !! t' = Some v' -> m_time v' <> 0 -> m_time v <= m_time v').
  { intros t' v' Hv' Hne. destruct (linked_node S w t' v' (proj1 Hinv) Hv') as (b & _ & _ & Hof & Hb).
    rewrite <- Hkey. apply Hb, Hleast in Hne. unfold key in Hne at 2. by rewrite Hof in Hne. }
  set (w1 := mkworld (timers w) _ _ _ _). set (now := iclock (calls w)).
  assert (Hinv1 : inv S w1) by by apply inv_clock in Hinv.
  destruct (Z.leb_spec (m_time v) now) as [L|L]; cycle 1.
  { split; [by exists S|]. split; [done|]. intros t' v' Hv' Hne.
    pose proof (Hfirst t' v' Hv' Hne). lia. }
  destruct (remove_core S w1 w1 a Hinv1 HaS ltac:(done)) as (m & Hm & Hh & Hd).
  unfold remove_node. rewrite Hm. cbn [mbind option_bind].
  set (w2 := set_timer t (with_time 0 v) (set_heap m w1)).
  assert (Hinv2 : inv (S ∖ {[a]}) w2) by by apply (stopped_inv S w1 w2 t v a).
  destruct (l_timer _ _ (proj1 Hinv) t v Hv) as (_ & Hrep & a' & Ha' & _ & _ & Hcb). simplify_eq.
  destruct (Hcb HaS) as [f Hf].
  assert (Hdue : first_due w (t, m_time v, now)) by (split_and!; [done|by exists v|done]).
  destruct (rearm_ok (S ∖ {[a]}) w2 t v a Hinv2) as (w3 & Hgo & [S3 Hinv3] & Hlog); [|done..|by rewrite Hf|].
  { cbn [w2 set_timer timers]. apply lookup_insert_eq. }
  cbn [read_clock] in Hgo. rewrite Hgo. cbn [mbind option_bind]. rewrite Hf. cbn [mbind option_bind].
  split.
  - exists S3. destruct Hinv3 as [[] Hh3]. by split; [split|].
  - exists (t, m_time v, now). cbn [log]. by rewrite Hlog.
Qed.

(** The rounds of an update in which a callback ran: each timer run was due
    and first among the running ones of its round. *)
Inductive rounds : world -> list (addr * Z * Z) -> world -> Prop :=
  | rounds_nil w : rounds w [] w
  | rounds_cons w w1 w2 w' e f es :
      fire w = Some (Some f, w1) -> log w1 = e :: log w -> first_due w e ->
      do_apis (body f) w1 = Ran w2 -> rounds w2 es w' -> rounds w (e :: es) w'.

Lemma update_loop_ok n : forall w, exists_inv w ->
  match update_loop n w with
  | Ran w' => exists_inv w' /\ exists es w0, rounds w es w0 /\ (length es <= n)%nat /\
      log w' = rev es ++ log w /\
      (length es = n /\ w' = w0 \/
       fire w0 = Some (None, w') /\ none_due (iclock (calls w0)) w')
  | Illegal => True
  | Crash => False
  end.
Proof.
  induction n as [|n IH]; intros w Hinv; cbn [update_loop].
  { split; [done|]. exists [], w. split; [constructor|]. split; [done|]. split; [done|]. by left. }
  pose proof (fire_ok w Hinv) as Hf. destruct (fire w) as [[[f|] w1]|] eqn:E; [..|done].
  - destruct Hf as (Hinv1 & e & Hlog & Hfirst & _).
    pose proof (do_apis_ok (body f) w1 Hinv1) as Ha. destruct (do_apis (body f) w1) as [w2| |] eqn:Ea; [|done..].
    destruct Ha as [Hinv2 Hlog2]. specialize (IH w2 Hinv2). destruct (update_loop n w2) as [w'| |]; [|done..].
    destruct IH as (Hinv' & es & w0 & Hr & Hlen & Hlog' & Hend). split; [done|].
    exists (e :: es), w0. split; [by eapply rounds_cons|]. cbn [length rev].
    split; [lia|]. split; [rewrite Hlog', Hlog2, Hlog; by rewrite <- app_assoc|].
    destruct Hend as [[? ?]|?]; [left; by split; [lia|]|by right].
  - destruct Hf as (Hinv1 & Hlog & Hdue). split; [done|]. exists [], w.
    split; [constructor|]. split; [cbn; lia|]. split; [done|]. by right.
Qed.

Lemma history_ok es : forall w, exists_inv w ->
  match history es w with Ran w' => exists_inv w' | Illegal => True | Crash => False end.
Proof.
  induction es as [|e es IH]; intros w Hinv; cbn [history]; [done|]. destruct e as [c|].
  - pose proof (do_api_ok c w Hinv) as H. destruct (do_api c w) as [w1| |]; [apply IH, H|done|done].
  - pose proof (update_loop_ok 10 w Hinv) as H. unfold update. destruct (update_loop 10 w) as [w1| |]; [apply IH, H|done|done].
Qed.

End Clock.

(** C24.  Whatever a program does with timers within the contract of the class
    (timers created, started while stopped, stopped and deleted, in any order,
    also from the callbacks of other timers), and as long as the clock, the
    processor's time in milliseconds, reads more than 0 and less than 2^31, no
    call and no update touches memory that is not there: the removals and
    insertions keep the heap's pointers consistent, [compare_fn] never meets a
    node without its timer, and an update runs no empty callback. *)
Theorem timer_history_safe (Hclock : forall k, 0 < iclock k < 2 ^ 31) (es : list event) : history es boot <> Crash.
Proof. pose proof (history_ok Hclock es boot boot_ok) as H. by destruct (history es boot). Qed.

(** C26.  An update runs the timers that are due, in order: as long as the clock
    reads more than 0 and less than 2^31, it runs at most ten callbacks, each
    of a timer whose time had come and was the least of the running ones at
    that moment, whatever the callbacks before it started or stopped; and
    unless it ran ten, no running timer is due at its last reading of the
    clock. *)
Theorem timer_update_order (Hclock : forall k, 0 < iclock k < 2 ^ 31) (es : list event) (w w' : world)
    (Hw : history es boot = Ran w) (Hu : update w = Ran w') :
  exists fired w0, rounds w fired w0 /\ (length fired <= 10)%nat /\ log w' = rev fired ++ log w /\
    (length fired = 10%nat /\ w' = w0 \/
     fire w0 = Some (None, w') /\ none_due (iclock (calls w0)) w').
Proof.
  pose proof (history_ok Hclock es boot boot_ok) as H. rewrite Hw in H.
  pose proof (update_loop_ok Hclock 10 w H) as H'. unfold update in Hu. rewrite Hu in H'. apply H'.
Qed.

(** The heap when its only node, at 1, is inserted again, removed, and inserted
    once more. *)
Lemma insert_fresh lt junk :
  heap_insert lt 1 (mkmem (<[1%positive := junk]> ∅) (mkheap None 0)) =
  Some (mkmem (<[1%positive := mknode None None None]> ∅) (mkheap (Some 1%positive) 1)).
Proof. reflexivity. Qed.

Lemma insert_twice lt : lt 1%positive 1%positive = Some false ->
  heap_insert lt 1 (mkmem (<[1%positive := mknode None None None]> ∅) (mkheap (Some 1%positive) 1)) =
  Some (mkmem (<[1%positive := mknode (Some 1%positive) None (Some 1%positive)]> ∅) (mkheap (Some 1%positive) 2)).
Proof. intros H. vm_compute. by rewrite H. Qed.

Lemma remove_looped lt :
  heap_remove lt 1 (mkmem (<[1%positive := mknode (Some 1%positive) None (Some 1%positive)]> ∅) (mkheap (Some 1%positive) 2)) =
  Some (mkmem (<[1%positive := mknode None None (Some 1%positive)]> ∅) (mkheap None 1)).
Proof. reflexivity. Qed.

Lemma insert_crash lt nd : heap_insert lt 1 (mkmem (<[1%positive := nd]> ∅) (mkheap None 1)) = None.
Proof. reflexivity. Qed.

(** The world of one timer, object and node at 1. *)
Definition single (v : timer) (m : mem) (n : nat) : world :=
  mkworld (<[1%positive := v]> ∅) (<[1%positive := Some 1%positive]> ∅) m n [].

Lemma compare_single v m n : compare_fn (single v m n) 1%positive 1%positive = Some false.
Proof.
  unfold compare_fn, timer_of, single. cbn [users timers]. rewrite !lookup_insert_eq. cbn [mbind option_bind].
  rewrite !lookup_insert_eq. cbn [mbind option_bind]. by rewrite Z.ltb_irrefl.
Qed.

Lemma start_single f t v m n : m_node v = Some 1%positive ->
  let v' := mktimer (Some 1%positive) (u32 (t + iclock n)) 0 (Some f) in
  start 1 f t 0 (single v m n) =
    (m' ← heap_insert (compare_fn (single v' m (S n))) 1 m; Some (single v' m' (S n))).
Proof.
  intros Hv v'. unfold start, single. cbn [timers]. rewrite lookup_insert_eq. cbn [mbind option_bind].
  unfold read_clock, set_timer. cbn [timers users gRootHeap calls log]. rewrite insert_insert_eq, Hv.
  unfold insert_node, set_heap. cbn [mbind option_bind gRootHeap]. done.
Qed.

Lemma stop_single v m n : m_node v = Some 1%positive -> m_time v <> 0 ->
  stop 1 (single v m n) =
    (m' ← heap_remove (compare_fn (single (with_time 0 v) m n)) 1 m; Some (single (with_time 0 v) m' n)).
Proof.
  intros Hv Ht. unfold stop, single. cbn [timers]. rewrite lookup_insert_eq. cbn [mbind option_bind].
  apply Z.eqb_neq in Ht. rewrite Ht, Hv. unfold set_timer. cbn [timers users gRootHeap calls log].
  by rewrite insert_insert_eq.
Qed.

(** The class does not protect itself against [start] on a running timer:
    the node is linked below itself, [stop] then empties the heap but leaves
    the count at one, and the next [start] of the timer follows a null
    pointer. *)
Theorem timer_double_start (Hclock : clock_ok) (f : F) (t1 t2 t3 : Z) (junk : heap_node)
    (H2 : 0 <= t2 < 2 ^ 31) :
  exists w, (w ← start 1 f t1 0 (create 1 1 junk boot); w ← start 1 f t2 0 w; stop 1 w) = Some w /\
    heap_min (gRootHeap w) = None /\ nelts (root (gRootHeap w)) = 1 /\
    start 1 f t3 0 w = None.
Proof.
  pose proof (Hclock 1%nat).
  change (create 1 1 junk boot) with
    (single (mktimer (Some 1%positive) 0 0 None) (mkmem (<[1%positive := junk]> ∅) (mkheap None 0)) 0).
  rewrite start_single by done. cbv zeta. rewrite insert_fresh. cbn [mbind option_bind].
  rewrite start_single by done. cbv zeta. rewrite insert_twice by apply compare_single. cbn [mbind option_bind].
  rewrite stop_single; [|done|cbn [m_time]; rewrite wrap_small by (unfold in_u; lia); lia].
  rewrite remove_looped. cbn [mbind option_bind].
  eexists. split; [done|]. split; [done|]. split; [done|].
  rewrite start_single by done. cbv zeta. by rewrite insert_crash.
Qed.

(** A time set to 0 is that of a stopped timer: a timer started without delay
    while the clock stands at 0 stays in the heap when it is deleted, and the
    next update follows its node. *)
Theorem timer_clock_zero (f : F) (junk : heap_node) : iclock 0 = 0 ->
  history [Api (New 1 1 junk); Api (Start 1 f 0 0); Api (Delete 1); Update] boot = Crash.
Proof.
  intros H0. cbn [history].
  assert (do_api (New 1 1 junk) boot = Ran (single (mktimer (Some 1%positive) 0 0 None) (mkmem (<[1%positive := junk]> ∅) (mkheap None 0)) 0)) as -> by reflexivity.
  assert (do_api (Start 1 f 0 0) (single (mktimer (Some 1%positive) 0 0 None) (mkmem (<[1%positive := junk]> ∅) (mkheap None 0)) 0) =
    Ran (single (mktimer (Some 1%positive) 0 0 (Some f)) (mkmem (<[1%positive := mknode None None None]> ∅) (mkheap (Some 1%positive) 1)) 1)) as ->.
  { unfold do_api. change (negb _) with false. cbv iota. rewrite start_single by done. cbv zeta. rewrite insert_fresh, H0. reflexivity. }
  reflexivity.
Qed.

End Program.

(** ** Witnesses *)

(** A clock that stands at 5 and callbacks that do nothing. *)
Definition clock5 (k : nat) : Z := 5.
Lemma clock5_ok k : 0 < clock5 k < 2 ^ 31.
Proof. unfold clock5. lia. Qed.
Definition idle (f : nat) : list (api (F := nat)) := [].
Definition blank : heap_node := mknode None None None.
Definition two_timers : list (event (F := nat)) :=
  [Api (New 1 1 blank); Api (New 2 2 blank); Api (Start 1 7%nat 0 0); Api (Start 2 8%nat 9 0)].

Lemma timer_history_safe_witness :
  history clock5 idle (two_timers ++ [Update; Api (Delete 2); Update]) boot <> Crash /\
  match history clock5 idle (two_timers ++ [Update]) boot with
  | Ran w => log w = [(1%positive, 5, 5)]
  | _ => False
  end.
Proof.
  split; [|vm_compute; reflexivity].
  apply (timer_history_safe clock5 idle clock5_ok).
Defined.

Lemma timer_update_order_witness :
  exists w w', history clock5 idle two_timers boot = Ran w /\ update clock5 idle w = Ran w' /\
  exists fired w0, rounds clock5 idle w fired w0 /\ (length fired <= 10)%nat /\ log w' = rev fired ++ log w /\
    (length fired = 10%nat /\ w' = w0 \/
     fire clock5 w0 = Some (None, w') /\ none_due (clock5 (calls w0)) w').
Proof.
  eexists. eexists. split; [vm_compute; reflexivity|]. split; [vm_compute; reflexivity|].
  apply (timer_update_order clock5 idle clock5_ok two_timers); vm_compute; reflexivity.
Defined.

Lemma timer_double_start_witness :
  exists w, (w ← start clock5 1 7%nat 3 0 (create 1 1 blank boot); w ← start clock5 1 7%nat 4 0 w; stop 1 w) = Some w /\
    heap_min (gRootHeap w) = None /\ nelts (root (gRootHeap w)) = 1 /\
    start clock5 1 7%nat 1 0 w = None.
Proof. apply (timer_double_start clock5 clock5_ok 7%nat 3 4 1 blank). lia. Defined.
End Timer.
