(* ===== verification/Url.v ===== *)
(** * Url: the parts of a request's URL

    Models src/src/utils/ParseUrl.h, ParseUrl.cpp and the functions of
    src/src/utils/http_parser.cpp it calls: [parse_url_char],
    [http_parse_host_char], [http_parse_host], [http_parser_parse_url].  (The
    rest of that parser is compiled but not called: HTTP goes through llhttp.) *)
From S2P Require Import Prelude.

Module Url.

(** ** Characters

    [HTTP_PARSER_STRICT] is 1 (http_parser.h), which makes [T(v)] zero.  A byte
    is its unsigned value; every test of the code below is false of the
    negative [char]s. *)
Definition CH_CR : Z := 13.
Definition CH_LF : Z := 10.
Definition LOWER (c : Z) : Z := Z.lor c 0x20.
Definition IS_ALPHA (c : Z) : bool := (97 <=? LOWER c) && (LOWER c <=? 122).
Definition IS_NUM (c : Z) : bool := (48 <=? c) && (c <=? 57).
Definition IS_ALPHANUM (c : Z) : bool := IS_ALPHA c || IS_NUM c.
Definition IS_HEX (c : Z) : bool := IS_NUM c || ((97 <=? LOWER c) && (LOWER c <=? 102)).
Definition is_one_of (cs : list Z) (c : Z) : bool := existsb (Z.eqb c) cs.
(** - _ . ! ~ * ' ( ) *)
Definition IS_MARK : Z -> bool := is_one_of [45; 95; 46; 33; 126; 42; 39; 40; 41].
(** the alphanumerics, the marks and % ; : & = + $ , *)
Definition IS_USERINFO_CHAR (c : Z) : bool :=
  IS_ALPHANUM c || IS_MARK c || is_one_of [37; 59; 58; 38; 61; 43; 36; 44] c.
(** the alphanumerics, the dot and the hyphen *)
Definition IS_HOST_CHAR (c : Z) : bool := IS_ALPHANUM c || is_one_of [46; 45] c.

Definition BIT_AT (a : list Z) (i : Z) : bool :=
  negb (Z.land (nth (Z.to_nat (Z.shiftr i 3)) a 0) (Z.shiftl 1 (Z.land i 7)) =? 0).
Definition normal_url_char : list Z :=
  [0; 0; 0; 0; 246; 255; 255; 127; 255; 255; 255; 255; 255; 255; 255; 127].
Definition IS_URL_CHAR (c : Z) : bool := BIT_AT normal_url_char c.

(** ** The URL's characters *)

(** The states of [enum state] that a URL goes through. *)
Inductive state : Type :=
  | s_dead | s_req_spaces_before_url | s_req_schema | s_req_schema_slash
  | s_req_schema_slash_slash | s_req_server_start | s_req_server | s_req_server_with_at
  | s_req_path | s_req_query_string_start | s_req_query_string | s_req_fragment_start
  | s_req_fragment.

(** The cases [s_req_server_start] and [s_req_server]. *)
Definition server_char (ch : Z) : state :=
  if ch =? 47 then s_req_path
  else if ch =? 63 then s_req_query_string_start
  else if ch =? 64 then s_req_server_with_at
  else if IS_USERINFO_CHAR ch || (ch =? 91) || (ch =? 93) then s_req_server
  else s_dead.

(** 47 is the slash, 63 ?, 35 the number sign, 64 @, 58 the colon. *)
Definition parse_url_char (s : state) (ch : Z) : state :=
  if (ch =? 32) || (ch =? CH_CR) || (ch =? CH_LF) then s_dead
  else if (ch =? 9) || (ch =? 12) then s_dead
  else match s with
  | s_req_spaces_before_url =>
      if (ch =? 47) || (ch =? 42) then s_req_path
      else if IS_ALPHA ch then s_req_schema else s_dead
  | s_req_schema =>
      if IS_ALPHA ch then s_req_schema
      else if ch =? 58 then s_req_schema_slash else s_dead
  | s_req_schema_slash => if ch =? 47 then s_req_schema_slash_slash else s_dead
  | s_req_schema_slash_slash => if ch =? 47 then s_req_server_start else s_dead
  | s_req_server_with_at => if ch =? 64 then s_dead else server_char ch
  | s_req_server_start | s_req_server => server_char ch
  | s_req_path =>
      if IS_URL_CHAR ch then s_req_path
      else if ch =? 63 then s_req_query_string_start
      else if ch =? 35 then s_req_fragment_start else s_dead
  | s_req_query_string_start | s_req_query_string =>
      if IS_URL_CHAR ch then s_req_query_string
      else if ch =? 63 then s_req_query_string
      else if ch =? 35 then s_req_fragment_start else s_dead
  | s_req_fragment_start =>
      if IS_URL_CHAR ch then s_req_fragment
      else if ch =? 63 then s_req_fragment
      else if ch =? 35 then s_req_fragment_start else s_dead
  | s_req_fragment =>
      if IS_URL_CHAR ch then s_req_fragment
      else if (ch =? 63) || (ch =? 35) then s_req_fragment else s_dead
  | s_dead => s_dead
  end.

(** ** [http_parser_url] *)

(** [enum http_parser_url_fields]. *)
Inductive uf : Type :=
  UF_SCHEMA | UF_HOST | UF_PORT | UF_PATH | UF_QUERY | UF_FRAGMENT | UF_USERINFO.
#[export] Instance uf_eq_dec : EqDecision uf.
Proof. solve_decision. Defined.
Definition uf_index (f : uf) : Z :=
  match f with
  | UF_SCHEMA => 0 | UF_HOST => 1 | UF_PORT => 2 | UF_PATH => 3 | UF_QUERY => 4
  | UF_FRAGMENT => 5 | UF_USERINFO => 6
  end.

(** [field_data] gives the offset and the length of every field. *)
Record http_parser_url : Type := mkurl { field_set : Z; port : Z; field_data : uf -> Z * Z }.
Definition off (f : uf) (u : http_parser_url) : Z := fst (field_data u f).
Definition len (f : uf) (u : http_parser_url) : Z := snd (field_data u f).

Definition http_parser_url_init : http_parser_url := mkurl 0 0 (fun _ => (0, 0)).

Definition set_field (f : uf) (v : Z * Z) (u : http_parser_url) : http_parser_url :=
  mkurl (field_set u) (port u) (fun g => if decide (g = f) then v else field_data u g).
Definition has_field (f : uf) (u : http_parser_url) : bool :=
  negb (Z.land (field_set u) (Z.shiftl 1 (uf_index f)) =? 0).
Definition mark_field (f : uf) (u : http_parser_url) : http_parser_url :=
  mkurl (Z.lor (field_set u) (Z.shiftl 1 (uf_index f))) (port u) (field_data u).
(** [field_data[f].len++]. *)
Definition grow_field (f : uf) (u : http_parser_url) : http_parser_url :=
  set_field f (off f u, u16 (len f u + 1)) u.
(** [field_data[f].off = p - buf; field_data[f].len = n;] and the mark. *)
Definition open_field (f : uf) (p n : Z) (u : http_parser_url) : http_parser_url :=
  mark_field f (set_field f (u16 p, n) u).
Definition set_port (v : Z) (u : http_parser_url) : http_parser_url :=
  mkurl (field_set u) v (field_data u).

(** ** The host *)

Inductive host_state : Type :=
  | s_http_host_dead | s_http_userinfo_start | s_http_userinfo | s_http_host_start
  | s_http_host_v6_start | s_http_host | s_http_host_v6 | s_http_host_v6_end
  | s_http_host_v6_zone_start | s_http_host_v6_zone | s_http_host_port_start
  | s_http_host_port.
#[export] Instance host_state_eq_dec : EqDecision host_state.
Proof. solve_decision. Defined.

(** 91 and 93 are the brackets, 37 is %, 95 the underscore, 126 the tilde. *)
Definition http_parse_host_char (s : host_state) (ch : Z) : host_state :=
  match s with
  | s_http_userinfo | s_http_userinfo_start =>
      if ch =? 64 then s_http_host_start
      else if IS_USERINFO_CHAR ch then s_http_userinfo else s_http_host_dead
  | s_http_host_start =>
      if ch =? 91 then s_http_host_v6_start
      else if IS_HOST_CHAR ch then s_http_host else s_http_host_dead
  | s_http_host =>
      if IS_HOST_CHAR ch then s_http_host
      else if ch =? 58 then s_http_host_port_start else s_http_host_dead
  | s_http_host_v6_end => if ch =? 58 then s_http_host_port_start else s_http_host_dead
  | s_http_host_v6 =>
      if ch =? 93 then s_http_host_v6_end
      else if IS_HEX ch || (ch =? 58) || (ch =? 46) then s_http_host_v6
      else if ch =? 37 then s_http_host_v6_zone_start else s_http_host_dead
  | s_http_host_v6_start =>
      if IS_HEX ch || (ch =? 58) || (ch =? 46) then s_http_host_v6 else s_http_host_dead
  | s_http_host_v6_zone =>
      if ch =? 93 then s_http_host_v6_end
      else if IS_ALPHANUM ch || is_one_of [37; 46; 45; 95; 126] ch
      then s_http_host_v6_zone else s_http_host_dead
  | s_http_host_v6_zone_start =>
      if IS_ALPHANUM ch || is_one_of [37; 46; 45; 95; 126] ch
      then s_http_host_v6_zone else s_http_host_dead
  | s_http_host_port | s_http_host_port_start =>
      if IS_NUM ch then s_http_host_port else s_http_host_dead
  | s_http_host_dead => s_http_host_dead
  end.

(** What the loop of [http_parse_host] does on entering [new_s] at [p]. *)
Definition host_step (s new_s : host_state) (p : Z) (u : http_parser_url) : http_parser_url :=
  match new_s with
  | s_http_host | s_http_host_v6 =>
      let u := if decide (s = new_s) then u else set_field UF_HOST (u16 p, len UF_HOST u) u in
      grow_field UF_HOST u
  | s_http_host_v6_zone_start | s_http_host_v6_zone => grow_field UF_HOST u
  | s_http_host_port =>
      grow_field UF_PORT (if decide (s = new_s) then u else open_field UF_PORT p 0 u)
  | s_http_userinfo =>
      grow_field UF_USERINFO (if decide (s = new_s) then u else open_field UF_USERINFO p 0 u)
  | _ => u
  end.

(** [buf] is what is left of the host from [p] on; [false]: return 1. *)
Fixpoint host_loop (buf : list Z) (p : Z) (s : host_state) (u : http_parser_url) :
    bool * host_state * http_parser_url :=
  match buf with
  | [] => (true, s, u)
  | ch :: buf =>
      match http_parse_host_char s ch with
      | s_http_host_dead => (false, s, u)
      | new_s => host_loop buf (p + 1) new_s (host_step s new_s p u)
      end
  end.

Definition host_ends_well (s : host_state) : bool :=
  match s with
  | s_http_host_start | s_http_host_v6_start | s_http_host_v6 | s_http_host_v6_zone_start
  | s_http_host_v6_zone | s_http_host_port_start | s_http_userinfo | s_http_userinfo_start => false
  | _ => true
  end.

(** The bytes of [buf] from [o] on, [n] of them. *)
Definition view (buf : list Z) (o n : Z) : list Z := take (Z.to_nat n) (drop (Z.to_nat o) buf).

Definition http_parse_host (buf : list Z) (found_at : bool) (u : http_parser_url) :
    bool * http_parser_url :=
  let o := off UF_HOST u in
  let host := view buf o (len UF_HOST u) in
  let s := if found_at then s_http_userinfo_start else s_http_host_start in
  let '(ok, s, u) := host_loop host o s (set_field UF_HOST (o, 0) u) in
  (ok && host_ends_well s, u).

(** ** [http_parser_parse_url] *)

(** The field of a state; [None]: a delimiter. *)
Definition field_of (s : state) : option uf :=
  match s with
  | s_req_schema => Some UF_SCHEMA
  | s_req_server_with_at | s_req_server => Some UF_HOST
  | s_req_path => Some UF_PATH
  | s_req_query_string => Some UF_QUERY
  | s_req_fragment => Some UF_FRAGMENT
  | _ => None
  end.

(** The loop; [old_uf = None] is [UF_MAX].  The result says whether the URL
    was valid so far and whether an @ was found. *)
Fixpoint url_loop (buf : list Z) (p : Z) (s : state) (old_uf : option uf) (found_at : bool)
    (u : http_parser_url) : bool * bool * http_parser_url :=
  match buf with
  | [] => (true, found_at, u)
  | ch :: buf =>
      match parse_url_char s ch with
      | s_dead => (false, found_at, u)
      | s =>
          match field_of s with
          | None => url_loop buf (p + 1) s old_uf found_at u
          | Some f =>
              let found_at := match s with s_req_server_with_at => true | _ => found_at end in
              if decide (old_uf = Some f) then url_loop buf (p + 1) s old_uf found_at (grow_field f u)
              else url_loop buf (p + 1) s (Some f) found_at (open_field f p 1 u)
          end
      end
  end.

(** The digits of the port; [None]: above 0xffff. *)
Fixpoint port_loop (ds : list Z) (v : Z) : option Z :=
  match ds with
  | [] => Some v
  | c :: ds =>
      let v := u64 (u64 (v * 10) + (c - 48)) in
      if 0xffff <? v then None else port_loop ds v
  end.

(** [buf] has [buflen] bytes; [true] in the result is the return value 0.  The
    assertion about the port's place is [url_fields_in_buffer]. *)
Definition http_parser_parse_url (buf : list Z) (is_connect : bool) (u : http_parser_url) :
    bool * http_parser_url :=
  if Nat.eqb (length buf) 0 then (false, u) else
  let u := mkurl 0 0 (field_data u) in
  let s := if is_connect then s_req_server_start else s_req_spaces_before_url in
  let '(ok, found_at, u) := url_loop buf 0 s None false u in
  if negb ok then (false, u) else
  if has_field UF_SCHEMA u && negb (has_field UF_HOST u) then (false, u) else
  let '(ok, u) := if has_field UF_HOST u then http_parse_host buf found_at u else (true, u) in
  if negb ok then (false, u) else
  if is_connect && negb (field_set u =? 6) then (false, u) else
  if has_field UF_PORT u then
    match port_loop (view buf (off UF_PORT u) (len UF_PORT u)) 0 with
    | None => (false, u)
    | Some v => (true, set_port (u16 v) u)
    end
  else (true, u).

(** ** [class ParseUrl] *)

(** [m_buff] is the memory the last call was given. *)
Record ParseUrl : Type := mkparse { m_url : http_parser_url; m_buff : list Z }.
Definition ParseUrl_create : ParseUrl := mkparse http_parser_url_init [].

(** [parse]: the value it returns, which [llhttp] takes as an error code. *)
Definition parse (buf : list Z) (this : ParseUrl) : Z * ParseUrl :=
  let '(ok, u) := http_parser_parse_url buf false (m_url this) in
  (if ok then 0 else 1, mkparse u buf).

Definition haveParam (this : ParseUrl) : bool := has_field UF_QUERY (m_url this).
(** [std::string_view(m_buff + off, len)]; [None]: not all of it in the buffer. *)
Definition field_view (f : uf) (this : ParseUrl) : option (list Z) :=
  let o := off f (m_url this) in
  let n := len f (m_url this) in
  if o + n <=? Z.of_nat (length (m_buff this)) then Some (view (m_buff this) o n) else None.
Definition getPath : ParseUrl -> option (list Z) := field_view UF_PATH.
Definition getParam : ParseUrl -> option (list Z) := field_view UF_QUERY.
End Url.
