(* ===== verification/UrlProps.v ===== *)
(** * UrlProps: the fields of a URL

    The fields found lie inside the buffer for every input, and are the parts
    of a path with a query and a fragment. *)
From S2P Require Import Prelude Url.

Module UrlProps.
Import Url.

(** ** The set of fields *)

Lemma has_field_bit f u : has_field f u = Z.testbit (field_set u) (uf_index f).
Proof.
  unfold has_field. assert (0 <= uf_index f) by (by destruct f).
  rewrite Z.shiftl_1_l.
  destruct (Z.testbit (field_set u) (uf_index f)) eqn:E.
  - apply negb_true_iff, Z.eqb_neq. intros H0. apply (f_equal (fun x => Z.testbit x (uf_index f))) in H0.
    rewrite Z.land_spec, Z.pow2_bits_true, E, Z.bits_0 in H0 by done. done.
  - apply negb_false_iff, Z.eqb_eq, Z.bits_inj'. intros n Hn. rewrite Z.land_spec, Z.bits_0.
    destruct (Z.eq_dec n (uf_index f)) as [->|Hne]; [by rewrite E|].
    rewrite Z.pow2_bits_false by done. apply andb_false_r.
Qed.

Lemma uf_index_inj f g : uf_index f = uf_index g -> f = g.
Proof. by destruct f, g. Qed.

Lemma has_mark f g u : has_field f (mark_field g u) = bool_decide (f = g) || has_field f u.
Proof.
  rewrite !has_field_bit. cbn [field_set mark_field].
  assert (0 <= uf_index f /\ 0 <= uf_index g) as [??] by (by destruct f, g).
  rewrite Z.lor_spec, Z.shiftl_1_l, Z.pow2_bits_eqb by done.
  case_bool_decide as E; [subst; rewrite Z.eqb_refl; apply orb_true_r|].
  rewrite (proj2 (Z.eqb_neq _ _)); [apply orb_false_r|]. intros H1. apply E. by apply uf_index_inj.
Qed.

Lemma has_set f g v u : has_field f (set_field g v u) = has_field f u.
Proof. done. Qed.
Lemma has_grow f g u : has_field f (grow_field g u) = has_field f u.
Proof. done. Qed.
Lemma has_open f g p n u : has_field f (open_field g p n u) = bool_decide (f = g) || has_field f u.
Proof. unfold open_field. by rewrite has_mark, has_set. Qed.

Lemma data_set_eq f v u : field_data (set_field f v u) f = v.
Proof. cbn. by rewrite decide_True. Qed.
Lemma data_set_ne f g v u : f <> g -> field_data (set_field g v u) f = field_data u f.
Proof. intros. cbn. by rewrite decide_False. Qed.
Lemma data_open_eq f p n u : field_data (open_field f p n u) f = (u16 p, n).
Proof. cbn. by rewrite decide_True. Qed.
Lemma data_open_ne f g p n u : f <> g -> field_data (open_field g p n u) f = field_data u f.
Proof. intros. cbn. by rewrite decide_False. Qed.
Lemma data_grow_eq f u : field_data (grow_field f u) f = (off f u, u16 (len f u + 1)).
Proof. apply data_set_eq. Qed.
Lemma data_grow_ne f g u : f <> g -> field_data (grow_field g u) f = field_data u f.
Proof. apply data_set_ne. Qed.

(** ** Bounds *)

(** Offset and length are the low 16 bits of a place that ends by [b]. *)
Definition fits (b : Z) (v : Z * Z) : Prop :=
  exists o n, v = (u16 o, u16 n) /\ 0 <= o /\ 0 <= n /\ o + n <= b.

Lemma u16_le x : 0 <= x -> 0 <= u16 x <= x.
Proof. intros. unfold wrap. divlia. Qed.

Lemma fits_bound b v : fits b v -> 0 <= fst v /\ 0 <= snd v /\ fst v + snd v <= b.
Proof.
  intros (o & n & -> & Ho & Hn & Hb). pose proof (u16_le o Ho). pose proof (u16_le n Hn). cbn. lia.
Qed.
Lemma fits_mono b b' v : fits b v -> b <= b' -> fits b' v.
Proof. intros (o & n & ? & ? & ? & ?) ?. exists o, n. split_and!; [done..|lia]. Qed.
Lemma fits_open b n : 0 <= b -> 0 <= n < 65536 -> fits (b + n) (u16 b, n).
Proof.
  intros. exists b, n. split_and!; [|lia..]. by rewrite (wrap_small 16 n) by (unfold in_u; lia).
Qed.
Lemma fits_grow b o n : fits b (o, n) -> fits (b + 1) (o, u16 (n + 1)).
Proof.
  intros (o' & n' & [= -> ->] & ? & ? & ?). exists o', (n' + 1). rewrite wrap_add_l. split_and!; [done|lia..].
Qed.

Definition all_fit (b : Z) (u : http_parser_url) : Prop :=
  forall f, has_field f u = true -> fits b (field_data u f).

Lemma all_fit_mono b b' u : all_fit b u -> b <= b' -> all_fit b' u.
Proof. intros H Hb f Hf. by apply (fits_mono b); [apply H|]. Qed.

Lemma all_fit_grow b f u : all_fit b u -> has_field f u = true -> all_fit (b + 1) (grow_field f u).
Proof.
  intros H Hf g Hg. rewrite has_grow in Hg. destruct (decide (g = f)) as [->|Hne].
  - rewrite data_grow_eq. apply fits_grow. unfold off, len. rewrite <- surjective_pairing. by apply H.
  - rewrite data_grow_ne by done. by apply (fits_mono b); [apply H|lia].
Qed.

Lemma all_fit_open b f n u : all_fit b u -> 0 <= b -> 0 <= n < 65536 -> all_fit (b + n) (open_field f b n u).
Proof.
  intros H Hb Hn g Hg. destruct (decide (g = f)) as [->|Hne].
  - rewrite data_open_eq. by apply fits_open.
  - rewrite data_open_ne by done. rewrite has_open, bool_decide_false in Hg by done.
    apply (fits_mono b); [by apply H|lia].
Qed.

(** No port and no userinfo come out of the loop over the URL. *)
Definition no_authority (u : http_parser_url) : Prop :=
  has_field UF_PORT u = false /\ has_field UF_USERINFO u = false.

Lemma url_loop_fits buf : forall p s old found u ok found' u',
  0 <= p -> all_fit p u -> no_authority u -> (forall f, old = Some f -> has_field f u = true) ->
  url_loop buf p s old found u = (ok, found', u') ->
  all_fit (p + Z.of_nat (length buf)) u' /\ no_authority u'.
Proof.
  induction buf as [|ch buf IH]; intros p s old found u ok found' u' Hp Hfit Hno Hold H; cbn [url_loop] in H.
  { injection H as <- <- <-. cbn. by rewrite Z.add_0_r. }
  replace (p + Z.of_nat (length (ch :: buf))) with (p + 1 + Z.of_nat (length buf)) by (cbn [length]; lia).
  assert (Hfit' : all_fit (p + 1) u) by (apply (all_fit_mono p); [done|lia]).
  destruct (parse_url_char s ch); cbn [field_of] in H.
  1:{ injection H as <- <- <-. split; [|done]. apply (all_fit_mono p); [done|lia]. }
  all: try (eapply IH; [| | | |exact H]; [lia|exact Hfit'|exact Hno|exact Hold]).
  all: case_decide as E; (eapply IH; [| | | |exact H]); try lia.
  all: try (by apply all_fit_grow; [|apply Hold]); try done.
  all: try (by apply all_fit_open; [|done|lia]).
  all: try (intros f Hf; rewrite has_grow; by apply Hold).
  all: try (by intros f [= <-]; rewrite has_open, bool_decide_true).
  all: split; rewrite has_open, bool_decide_false by done; apply Hno.
Qed.

(** The fields the loop over the host writes. *)
Definition host_field (f : uf) : Prop := f = UF_HOST \/ f = UF_PORT \/ f = UF_USERINFO.
Definition before_host (s : host_state) : Prop :=
  s = s_http_userinfo_start \/ s = s_http_userinfo \/ s = s_http_host_start \/ s = s_http_host_v6_start.

(** [p] is the position of the loop, [b] the end of the buffer. *)
Record host_inv (b p : Z) (s : host_state) (u : http_parser_url) : Prop := {
  h_pos : 0 <= p;
  h_host : has_field UF_HOST u = true;
  h_fields : forall f, host_field f -> has_field f u = true -> fits p (field_data u f);
  h_others : forall f, ~ host_field f -> has_field f u = true -> fits b (field_data u f);
  h_before : before_host s -> len UF_HOST u = 0;
  h_port : s = s_http_host_port -> has_field UF_PORT u = true;
  h_user : s = s_http_userinfo -> has_field UF_USERINFO u = true
}.

Ltac host_cases := unfold host_field, before_host in *; intuition (subst; try discriminate).

(** One more byte of a field, in a state that is not before the host. *)
Lemma host_inv_grow b p s s' f u : host_inv b p s u -> host_field f -> has_field f u = true ->
  (before_host s' -> f <> UF_HOST /\ before_host s) ->
  (s' = s_http_host_port -> has_field UF_PORT u = true) ->
  (s' = s_http_userinfo -> has_field UF_USERINFO u = true) ->
  host_inv b (p + 1) s' (grow_field f u).
Proof.
  intros Hi Hf Hhas Hb Hpo Hus. pose proof (h_pos _ _ _ _ Hi). split; [lia|..].
  - apply Hi.
  - intros g Hg Hhg. destruct (decide (g = f)) as [->|Hne].
    + rewrite data_grow_eq. apply fits_grow. unfold off, len. rewrite <- surjective_pairing.
      by apply (h_fields _ _ _ _ Hi).
    + rewrite data_grow_ne by done. apply (fits_mono p); [by apply (h_fields _ _ _ _ Hi)|lia].
  - intros g Hg Hhg. rewrite data_grow_ne; [by apply (h_others _ _ _ _ Hi)|]. intros ->. done.
  - intros Hs. destruct (Hb Hs) as [Hne Hs']. unfold len. rewrite data_grow_ne by done.
    by apply (h_before _ _ _ _ Hi).
  - done.
  - done.
Qed.

(** A field opened at [p] with no byte yet, or the host moved there. *)
Lemma host_inv_open b p s f u : host_inv b p s u -> host_field f -> f <> UF_HOST ->
  host_inv b p s (open_field f p 0 u).
Proof.
  intros Hi Hf Hne. pose proof (h_pos _ _ _ _ Hi). split; [done|..].
  - rewrite has_open. rewrite (h_host _ _ _ _ Hi). apply orb_true_r.
  - intros g Hg Hhg. destruct (decide (g = f)) as [->|Hgf].
    + rewrite data_open_eq. rewrite <- (Z.add_0_r p) at 1. apply fits_open; lia.
    + rewrite data_open_ne by done. rewrite has_open, bool_decide_false in Hhg by done.
      by apply (h_fields _ _ _ _ Hi).
  - intros g Hg Hhg. assert (g <> f) as Hgf by congruence. rewrite data_open_ne by done.
    rewrite has_open, bool_decide_false in Hhg by done. by apply (h_others _ _ _ _ Hi).
  - intros Hs. unfold len. rewrite data_open_ne by done. by apply (h_before _ _ _ _ Hi).
  - intros Hs. rewrite has_open, (h_port _ _ _ _ Hi Hs). apply orb_true_r.
  - intros Hs. rewrite has_open, (h_user _ _ _ _ Hi Hs). apply orb_true_r.
Qed.

Lemma host_inv_move b p s u : host_inv b p s u -> before_host s ->
  host_inv b p s (set_field UF_HOST (u16 p, len UF_HOST u) u).
Proof.
  intros Hi Hs. pose proof (h_pos _ _ _ _ Hi). rewrite (h_before _ _ _ _ Hi Hs). split; [done|..].
  - apply Hi.
  - intros g Hg Hhg. destruct (decide (g = UF_HOST)) as [->|Hgf].
    + rewrite data_set_eq. rewrite <- (Z.add_0_r p) at 1. apply fits_open; lia.
    + rewrite data_set_ne by done. by apply (h_fields _ _ _ _ Hi).
  - intros g Hg Hhg. rewrite data_set_ne; [by apply (h_others _ _ _ _ Hi)|]. intros ->. by apply Hg; left.
  - intros _. unfold len. by rewrite data_set_eq.
  - apply Hi.
  - apply Hi.
Qed.

(** A delimiter. *)
Lemma host_inv_skip b p s s' u : host_inv b p s u -> (before_host s' -> before_host s) ->
  s' <> s_http_host_port -> s' <> s_http_userinfo -> host_inv b (p + 1) s' u.
Proof.
  intros Hi Hb H1 H2. pose proof (h_pos _ _ _ _ Hi). split; [lia|apply Hi| |apply Hi| |done|done].
  - intros f Hf Hh. apply (fits_mono p); [by apply (h_fields _ _ _ _ Hi)|lia].
  - intros Hs. by apply (h_before _ _ _ _ Hi), Hb.
Qed.

Lemma host_char_order s ch s' : http_parse_host_char s ch = s' -> s' <> s_http_host_dead ->
  (before_host s' -> before_host s) /\
  ((s' = s_http_host \/ s' = s_http_host_v6) -> s <> s' -> before_host s).
Proof.
  intros <- Hne. destruct s; cbn [http_parse_host_char] in *; repeat case_match; by host_cases.
Qed.

Lemma host_step_inv b p s ch s' u : host_inv b p s u -> http_parse_host_char s ch = s' ->
  s' <> s_http_host_dead -> host_inv b (p + 1) s' (host_step s s' p u).
Proof.
  intros Hi Hs' Hne. destruct (host_char_order s ch s' Hs' Hne) as [Hb Hh]. clear Hs' Hne.
  assert (HH := h_host _ _ _ _ Hi).
  destruct s'; cbn [host_step]; try (apply (host_inv_skip b p s); [done|by host_cases|done|done]).
  - case_decide as E.
    + subst s. clear Hb Hh. apply (host_inv_grow b p s_http_userinfo); [done|by host_cases|by apply (h_user _ _ _ _ Hi)|..];
        host_cases. by apply (h_user _ _ _ _ Hi).
    + apply (host_inv_grow b p s); [by apply host_inv_open; [|host_cases|]|by host_cases| |..];
        rewrite ?has_open; host_cases.
  - case_decide as E.
    + subst s. clear Hb Hh. apply (host_inv_grow b p s_http_host); [done|by host_cases|done|..]; host_cases.
    + apply (host_inv_grow b p s); [apply host_inv_move; [done|apply Hh; auto]|by host_cases|done|..]; host_cases.
  - case_decide as E.
    + subst s. clear Hb Hh. apply (host_inv_grow b p s_http_host_v6); [done|by host_cases|done|..]; host_cases.
    + apply (host_inv_grow b p s); [apply host_inv_move; [done|apply Hh; auto]|by host_cases|done|..]; host_cases.
  - apply (host_inv_grow b p s); [done|by host_cases|done|..]; host_cases.
  - apply (host_inv_grow b p s); [done|by host_cases|done|..]; host_cases.
  - case_decide as E.
    + subst s. clear Hb Hh. apply (host_inv_grow b p s_http_host_port); [done|by host_cases|by apply (h_port _ _ _ _ Hi)|..];
        host_cases. by apply (h_port _ _ _ _ Hi).
    + apply (host_inv_grow b p s); [by apply host_inv_open; [|host_cases|]|by host_cases| |..];
        rewrite ?has_open; host_cases.
Qed.

Lemma host_loop_inv b buf : forall p s u ok s' u',
  host_inv b p s u -> host_loop buf p s u = (ok, s', u') -> exists p', p' <= p + Z.of_nat (length buf) /\
  host_inv b p' s' u'.
Proof.
  induction buf as [|ch buf IH]; intros p s u ok s' u' Hi H; cbn [host_loop length] in *.
  { injection H as _ <- <-. exists p. split; [lia|done]. }
  assert (H' : (if decide (http_parse_host_char s ch = s_http_host_dead) then (false, s, u)
    else host_loop buf (p + 1) (http_parse_host_char s ch) (host_step s (http_parse_host_char s ch) p u)) = (ok, s', u'))
    by by destruct (http_parse_host_char s ch).
  case_decide as E.
  - injection H' as _ <- <-. exists p. split; [lia|done].
  - destruct (IH _ _ _ _ _ _ (host_step_inv b p s ch _ u Hi eq_refl E) H') as (p' & Hp' & Hi').
    exists p'. split; [lia|done].
Qed.

Lemma length_view buf o n : (length (view buf o n) <= Z.to_nat n)%nat.
Proof. unfold view. rewrite length_take. lia. Qed.

Lemma parse_host_fits buf found u ok u' : all_fit (Z.of_nat (length buf)) u -> has_field UF_HOST u = true ->
  no_authority u -> http_parse_host buf found u = (ok, u') -> all_fit (Z.of_nat (length buf)) u'.
Proof.
  intros Hfit Hh [Hnp Hnu] H. unfold http_parse_host in H. set (b := Z.of_nat (length buf)) in *.
  destruct (fits_bound b _ (Hfit _ Hh)) as (Ho & Hn & Hb). fold (off UF_HOST u) (len UF_HOST u) in *.
  set (o := off UF_HOST u) in *. set (n := len UF_HOST u) in *.
  set (s := if found then _ else _) in H. set (u0 := set_field UF_HOST (o, 0) u) in *.
  assert (Ho16 : o = u16 o).
  { destruct (Hfit _ Hh) as (o' & n' & E & _). unfold o, off. rewrite E. cbn [fst]. by rewrite wrap_idemp. }
  assert (Hi : host_inv b o s u0).
  { split; [done|done|..].
    - intros f Hf Hhf. unfold u0 in *. rewrite has_set in Hhf.
      destruct Hf as [->|[->| ->]]; [|congruence..]. rewrite data_set_eq.
      rewrite <- (Z.add_0_r o) at 1. rewrite Ho16 at 2. apply fits_open; lia.
    - intros f Hf Hhf. unfold u0 in *. rewrite has_set in Hhf. rewrite data_set_ne; [by apply Hfit|].
      intros ->. by apply Hf; left.
    - intros _. unfold u0, len. by rewrite data_set_eq.
    - by destruct found.
    - by destruct found. }
  destruct (host_loop (view buf o n) o s u0) as [[ok1 s1] u1] eqn:E. injection H as _ <-.
  destruct (host_loop_inv b _ _ _ _ _ _ _ Hi E) as (p' & Hp' & Hi').
  pose proof (length_view buf o n). intros f Hf.
  destruct (decide (host_field f)) as [Hhf|Hhf].
  - apply (fits_mono p'); [by apply (h_fields _ _ _ _ Hi')|lia].
  - by apply (h_others _ _ _ _ Hi').
Qed.

Lemma parse_url_fits buf u u' : http_parser_parse_url buf false u = (true, u') ->
  all_fit (Z.of_nat (length buf)) u'.
Proof.
  unfold http_parser_parse_url. destruct (Nat.eqb _ _); [done|].
  destruct (url_loop buf 0 s_req_spaces_before_url None false (mkurl 0 0 (field_data u))) as [[ok found] u1] eqn:E.
  apply url_loop_fits in E as [Hfit Hno]; [|done| |by split|by intros f].
  2:{ intros f Hf. rewrite has_field_bit in Hf. cbn [field_set] in Hf. by rewrite Z.bits_0 in Hf. }
  rewrite Z.add_0_l in Hfit. destruct ok; [|done]. cbn [negb andb]. destruct (has_field UF_SCHEMA u1 && _); [done|].
  assert (Hend : forall u2, all_fit (Z.of_nat (length buf)) u2 ->
    (if has_field UF_PORT u2 then
       match port_loop (view buf (off UF_PORT u2) (len UF_PORT u2)) 0 with
       | None => (false, u2) | Some v => (true, set_port (u16 v) u2) end
     else (true, u2)) = (true, u') -> all_fit (Z.of_nat (length buf)) u').
  { intros u2 H2. destruct (has_field UF_PORT u2); [|by intros [= <-]].
    destruct (port_loop _ _); [|done]. by intros [= <-]. }
  destruct (has_field UF_HOST u1) eqn:Hh; [|by apply Hend].
  destruct (http_parse_host buf found u1) as [ok2 u2] eqn:E2. apply parse_host_fits in E2; [|done..].
  destruct ok2; [|done]. by apply Hend.
Qed.

(** C37.  Whatever the URL, the offsets and lengths [parse] leaves, 16 bits each,
    stay inside the memory it was given: for every field it marks as present
    the view the class hands out, and the port it reads, is part of the URL. *)
Theorem url_fields_in_buffer (buf : list Z) (this this' : ParseUrl) (f : uf)
    (H : parse buf this = (0, this')) (Hf : has_field f (m_url this') = true) :
  0 <= off f (m_url this') /\ 0 <= len f (m_url this') /\
  off f (m_url this') + len f (m_url this') <= Z.of_nat (length buf) /\
  field_view f this' = Some (view buf (off f (m_url this')) (len f (m_url this'))).
Proof.
  unfold parse in H. destruct (http_parser_parse_url buf false (m_url this)) as [ok u] eqn:E.
  destruct ok; [|done]. injection H as <-. cbn [m_url] in *.
  destruct (fits_bound _ _ (parse_url_fits _ _ _ E f Hf)) as (? & ? & Hb).
  split; [done|]. split; [done|]. split; [done|]. unfold field_view. cbn [m_url m_buff].
  by rewrite (proj2 (Z.leb_le _ _)).
Qed.

(** ** The parts of a path *)

(** [u'] is [u] with the field [f] grown by [n] bytes. *)
Definition grown (f : uf) (n : Z) (u u' : http_parser_url) : Prop :=
  field_set u' = field_set u /\ field_data u' f = (off f u, u16 (len f u + n)) /\
  forall g, g <> f -> field_data u' g = field_data u g.

Lemma grown_0 f u : in_u 16 (len f u) -> grown f 0 u u.
Proof.
  intros H. split; [done|]. split; [|done]. rewrite Z.add_0_r, wrap_small by done. apply surjective_pairing.
Qed.

Lemma grown_S f n u u' : grown f n (grow_field f u) u' -> grown f (n + 1) u u'.
Proof.
  intros (Hs & Hd & Hg). split; [done|]. split.
  - rewrite Hd. unfold off, len. rewrite data_grow_eq. cbn [fst snd]. unfold off, len.
    rewrite wrap_add_l. do 2 f_equal. lia.
  - intros g Hne. by rewrite Hg, data_grow_ne.
Qed.

(** The bytes a state keeps to itself. *)
Lemma run_field s f r k : field_of s = Some f -> s <> s_req_server_with_at ->
  Forall (fun c => parse_url_char s c = s) r ->
  forall p found u, in_u 16 (len f u) -> exists u',
    url_loop (r ++ k) p s (Some f) found u =
      url_loop k (p + Z.of_nat (length r)) s (Some f) found u' /\
    grown f (Z.of_nat (length r)) u u'.
Proof.
  intros Hf Hs. induction 1 as [|c r Hc _ IH]; intros p found u Hu; cbn [app url_loop length].
  { exists u. rewrite Z.add_0_r. split; [done|by apply grown_0]. }
  rewrite Hc. destruct (IH (p + 1) found (grow_field f u)) as (u' & Hrun & Hg).
  { unfold len. rewrite data_grow_eq. apply wrap_range. lia. }
  exists u'. split; [|replace (Z.of_nat (S (length r))) with (Z.of_nat (length r) + 1) by lia; by apply grown_S].
  rewrite Nat2Z.inj_succ. replace (p + Z.succ (Z.of_nat (length r))) with (p + 1 + Z.of_nat (length r)) by lia.
  destruct s; try done; cbn [field_of] in *; injection Hf as <-; rewrite decide_True by done; apply Hrun.
Qed.

(** A field that is opened and takes all of [c :: r]. *)
Lemma open_run s s' f old c r k p found u :
  parse_url_char s c = s' -> field_of s' = Some f -> s' <> s_req_server_with_at -> old <> Some f ->
  Forall (fun c => parse_url_char s' c = s') r -> Z.of_nat (length (c :: r)) < 65536 -> 0 <= p < 65536 ->
  exists u', url_loop ((c :: r) ++ k) p s old found u =
      url_loop k (p + Z.of_nat (length (c :: r))) s' (Some f) found u' /\
    field_set u' = Z.lor (field_set u) (Z.shiftl 1 (uf_index f)) /\
    field_data u' f = (p, Z.of_nat (length (c :: r))) /\
    forall g, g <> f -> field_data u' g = field_data u g.
Proof.
  intros Hc Hf Hs Hold Hr Hlen Hp. cbn [length] in *.
  destruct (run_field s' f r k Hf Hs Hr (p + 1) found (open_field f p 1 u)) as (u' & Hrun & Hset & Hd & Hg).
  { unfold len. rewrite data_open_eq. unfold in_u. cbn [snd]. lia. }
  exists u'. split; [|split; [done|split]].
  - cbn [app url_loop]. rewrite Hc. replace (p + Z.of_nat (S (length r))) with (p + 1 + Z.of_nat (length r)) by lia.
    rewrite <- Hrun.
    destruct s'; try done; cbn [field_of] in *; injection Hf as <-; by rewrite decide_False.
  - rewrite Hd. unfold off, len. rewrite data_open_eq. cbn [fst snd].
    rewrite !wrap_small by (unfold in_u; lia). f_equal. lia.
  - intros g Hne. by rewrite Hg, data_open_ne.
Qed.

Definition path_char (c : Z) : bool := IS_URL_CHAR c.
Definition query_char (c : Z) : bool := IS_URL_CHAR c || (c =? 63).

(** A path, a query that is not empty, a fragment of anything allowed. *)
Definition path_ok (p : list Z) : bool :=
  match p with c :: r => ((c =? 47) || (c =? 42)) && forallb path_char r | [] => false end.
Definition query_ok (q : option (list Z)) : bool :=
  match q with None => true | Some [] => false | Some q => forallb query_char q end.
Definition query_text (q : option (list Z)) : list Z :=
  match q with None => [] | Some q => 63 :: q end.

(** No space or control character is a character of a URL. *)
Lemma url_char_blank c : IS_URL_CHAR c = true ->
  (c =? 32) || (c =? CH_CR) || (c =? CH_LF) = false /\ (c =? 9) || (c =? 12) = false.
Proof.
  intros H. destruct (c =? 32) eqn:E1, (c =? CH_CR) eqn:E2, (c =? CH_LF) eqn:E3, (c =? 9) eqn:E4, (c =? 12) eqn:E5;
    try (split; reflexivity); exfalso; bool_arith; subst; vm_compute in H; discriminate H.
Qed.

Lemma path_chars r : forallb path_char r = true -> Forall (fun c => parse_url_char s_req_path c = s_req_path) r.
Proof.
  rewrite forallb_forall. intros H. apply Forall_forall. intros c Hc%H. unfold path_char in Hc.
  unfold parse_url_char. destruct (url_char_blank c Hc) as [-> ->]. by rewrite Hc.
Qed.

Lemma query_char_runs s c : (s = s_req_query_string \/ s = s_req_query_string_start) ->
  query_char c = true -> parse_url_char s c = s_req_query_string.
Proof.
  intros Hs [H|H%Z.eqb_eq]%orb_true_iff; unfold parse_url_char.
  - destruct (url_char_blank c H) as [-> ->]. rewrite H. by destruct Hs as [->| ->].
  - subst c. by destruct Hs as [->| ->].
Qed.

Lemma query_chars r : forallb query_char r = true ->
  Forall (fun c => parse_url_char s_req_query_string c = s_req_query_string) r.
Proof.
  rewrite forallb_forall. intros H. apply Forall_forall. intros c Hc%H.
  apply query_char_runs; [by left|done].
Qed.

Lemma view_app_l a k : view (a ++ k) 0 (Z.of_nat (length a)) = a.
Proof. unfold view. rewrite Nat2Z.id, drop_0. apply take_app_exact. Qed.
Lemma view_app_r a c q : view (a ++ c :: q) (Z.of_nat (length a) + 1) (Z.of_nat (length q)) = q.
Proof.
  unfold view. rewrite Nat2Z.id. replace (Z.to_nat (Z.of_nat (length a) + 1)) with (length a + 1)%nat by lia.
  rewrite <- drop_drop, drop_app_exact. cbn [drop]. apply firstn_all.
Qed.

Lemma loop_question k p old found u :
  url_loop (63 :: k) p s_req_path old found u = url_loop k (p + 1) s_req_query_string_start old found u.
Proof. done. Qed.

(** The loop over a path with a query. *)
Lemma url_loop_path path query u : path_ok path = true -> query_ok query = true ->
  Z.of_nat (length (path ++ query_text query)) < 65536 ->
  exists u', url_loop (path ++ query_text query) 0 s_req_spaces_before_url None false u = (true, false, u') /\
    field_set u' = Z.lor (field_set u) (match query with None => 8 | Some _ => 24 end) /\
    field_data u' UF_PATH = (0, Z.of_nat (length path)) /\
    match query with
    | None => True
    | Some q => field_data u' UF_QUERY = (Z.of_nat (length path) + 1, Z.of_nat (length q))
    end.
Proof.
  intros Hp Hq Hlen. destruct path as [|c r]; [done|]. apply andb_true_iff in Hp as [Hc Hr].
  rewrite length_app in Hlen.
  destruct (open_run s_req_spaces_before_url s_req_path UF_PATH None c r (query_text query) 0 false u)
    as (u1 & Hrun & Hset & Hd & _); [|done|done|done|by apply path_chars|lia|lia|].
  { by apply orb_true_iff in Hc as [->%Z.eqb_eq| ->%Z.eqb_eq]. }
  rewrite Hrun. destruct query as [q|]; cbn [query_text] in *.
  2:{ exists u1. cbn [url_loop]. split; [done|]. split; [done|]. by split. }
  destruct q as [|d q]; [done|]. cbn [query_ok forallb] in Hq. apply andb_true_iff in Hq as [Hd1 Hq].
  rewrite loop_question.
  destruct (open_run s_req_query_string_start s_req_query_string UF_QUERY (Some UF_PATH) d q []
    (0 + Z.of_nat (length (c :: r)) + 1) false u1) as (u2 & Hrun2 & Hset2 & Hdat2 & Hother);
    [apply query_char_runs; [by right|done]|done|done|done|by apply query_chars|cbn [length] in *; lia|cbn [length] in *; lia|].
  rewrite app_nil_r in Hrun2. exists u2. rewrite Hrun2. cbn [url_loop]. split; [done|].
  split; [rewrite Hset2, Hset, <- Z.lor_assoc; done|]. split; [by rewrite Hother|]. rewrite Hdat2. done.
Qed.

(**  The URL of a request, a path with or without a query, is taken apart
    as it should be: [getPath] is the path, [haveParam] says whether there is a
    query, and [getParam] is the query. *)
Theorem url_path_query (path : list Z) (query : option (list Z)) (this : ParseUrl)
    (Hp : path_ok path = true) (Hq : query_ok query = true)
    (Hlen : Z.of_nat (length (path ++ query_text query)) < 65536) :
  exists this', parse (path ++ query_text query) this = (0, this') /\
    getPath this' = Some path /\
    haveParam this' = bool_decide (is_Some query) /\
    match query with Some q => getParam this' = Some q | None => True end.
Proof.
  destruct (url_loop_path path query (mkurl 0 0 (field_data (m_url this))) Hp Hq Hlen)
    as (u & Hrun & Hset & Hpath & Hquery).
  assert (Hhas : forall f, has_field f u =
    match f with UF_PATH => true | UF_QUERY => bool_decide (is_Some query) | _ => false end).
  { intros f. unfold has_field. rewrite Hset. by destruct f, query. }
  assert (Hparse : http_parser_parse_url (path ++ query_text query) false (m_url this) = (true, u)).
  { unfold http_parser_parse_url. destruct path as [|c r]; [done|]. cbn [app length Nat.eqb].
    cbn [app] in Hrun. rewrite Hrun. cbn [negb andb]. rewrite Hhas. cbn [andb].
    rewrite Hhas. cbn [negb]. by rewrite Hhas. }
  exists (mkparse u (path ++ query_text query)). unfold parse. rewrite Hparse. split; [done|].
  unfold getPath, getParam, haveParam, field_view, off, len. cbn [m_url m_buff].
  rewrite Hpath, Hhas. cbn [fst snd]. rewrite view_app_l, length_app. split; [|split].
  - rewrite (proj2 (Z.leb_le _ _)) by lia. done.
  - done.
  - destruct query as [q|]; [|done]. rewrite Hquery. cbn [fst snd query_text length].
    rewrite view_app_r, (proj2 (Z.leb_le _ _)) by lia. done.
Qed.

(** A URL without a path leaves the offsets of the path as they were: the view
    of [getPath] is then a part of the new URL that an earlier one chose, or
    reaches beyond it. *)
Lemma url_without_path (this : ParseUrl) : let url := [104; 58; 47; 47; 97] in
  exists this', parse url this = (0, this') /\ has_field UF_PATH (m_url this') = false /\
    field_data (m_url this') UF_PATH = field_data (m_url this) UF_PATH.
Proof. eexists. split; [reflexivity|]. split; reflexivity. Qed.

(** ** Witnesses *)

(** h://a:8/ and /a?b *)
Lemma url_fields_in_buffer_witness :
  let buf := [104; 58; 47; 47; 97; 58; 56; 47] in
  exists this', parse buf ParseUrl_create = (0, this') /\ has_field UF_PORT (m_url this') = true /\
  0 <= off UF_PORT (m_url this') /\ 0 <= len UF_PORT (m_url this') /\
  off UF_PORT (m_url this') + len UF_PORT (m_url this') <= Z.of_nat (length buf) /\
  field_view UF_PORT this' = Some (view buf (off UF_PORT (m_url this')) (len UF_PORT (m_url this'))).
Proof.
  eexists. split; [reflexivity|]. split; [reflexivity|].
  apply (url_fields_in_buffer [104; 58; 47; 47; 97; 58; 56; 47] ParseUrl_create); reflexivity.
Defined.

Lemma url_path_query_witness :
  exists this', parse ([47; 97] ++ query_text (Some [98])) ParseUrl_create = (0, this') /\
    getPath this' = Some [47; 97] /\ haveParam this' = bool_decide (is_Some (Some [98])) /\
    getParam this' = Some [98].
Proof. apply (url_path_query [47; 97] (Some [98]) ParseUrl_create); reflexivity. Defined.
End UrlProps.
