(* ===== verification/HttpConn.v ===== *)
(** * HttpConn: HTTP connections

    Models src/src/utils/HttpParser.h, HttpParser.cpp,
    src/src/network/HttpConnect.h, HttpConnect.cpp and
    src/src/network/HttpServer.cpp on top of the receive buffer (MsgBuf), the
    packet (ByteBuf), llhttp (LlhttpRun) and the URL parser (Url). *)
From Stdlib Require Import String Ascii DecimalString DecimalZ.
From stdpp Require Import gmap.
From S2P Require Import Prelude ByteBuf MsgBuf TcpSock WebSock Llhttp LlhttpRun LlhttpProps Url.

(** ** [class HttpParser] *)
Module HttpParser.
Import Llhttp LlhttpRun Url.

(** The parser's user data is the [ParseUrl] of the same object. *)
Abbreviation t := (llhttp_t ParseUrl).

(** [HttpSettings::HttpSettings]: only [on_url] is set. *)
Definition http_settings : llhttp_settings_t ParseUrl := {|
  on_url := Some (fun _ url d => parse d url);
  on_status := None; on_header_field := None; on_header_value := None; on_body := None;
  on_message_begin := None; on_headers_complete := None; on_message_complete := None;
  on_chunk_header := None; on_chunk_complete := None; on_url_complete := None;
  on_status_complete := None; on_header_field_complete := None; on_header_value_complete := None
|}.

(** A new object, and [zero]: [llhttp_init] leaves the URL alone. *)
Definition create : t := llhttp_init HTTP_REQUEST ParseUrl_create.
Definition zero (p : t) : t := llhttp_init HTTP_REQUEST (data p).

Definition parser (buf : list Z) (p : t) : result (bool * t) :=
  match llhttp_execute http_settings (LlhttpProps.fuel_for buf) buf p with
  | Done (err, p) => Done (err =? HPE_OK, p)
  | OutOfFuel => OutOfFuel
  | TcpSock.Fault => TcpSock.Fault
  end.

Definition contentLen (p : t) : Z := content_length (fields p).
Definition method (p : t) : Z := Llhttp.method (fields p).
Definition isClose (p : t) : bool := negb (llhttp_should_keep_alive (fields p)).
Definition getUrl (p : t) : ParseUrl := data p.
Definition HTTP_GET : Z := 1.
Definition HTTP_POST : Z := 3.
End HttpParser.

(** ** [class HttpConnect] *)
Module HttpConnect.
Import Url.
Import WebSocketConnect (c_string, str_find).

(** What the connection does to the outside: the calls of its [HttpEvent], and
    [close()]. *)
Inductive event : Type :=
  | OnPost (path param : list Z)
  | OnGet (path param : list Z)
  | OnOther (method : Z)
  | Close.

(** [capacity] is that of the vector of [m_readPacket]; [m_content] an offset
    into it.  [dangling]: the vector was moved since [m_content] was taken and
    the head was parsed, so that it and the URL's [m_buff] point to memory
    given back. *)
Record t : Type := mk {
  m_readPacket : ByteBuffer.t; capacity : nat; m_parser : HttpParser.t;
  m_content : option nat; dangling : bool; m_residue : Z
}.

(** A new connection, whose packet's vector has room for [cap] bytes. *)
Definition create (cap : nat) : t :=
  mk (BasePacket.create []) cap HttpParser.create None false 0.
Definition zero (s : t) : t :=
  mk (BasePacket.zero (m_readPacket s)) (capacity s) (HttpParser.zero (m_parser s)) None false 0.

Definition set_packet (p : ByteBuffer.t) (s : t) : t :=
  mk p (capacity s) (m_parser s) (m_content s) (dangling s) (m_residue s).
Definition set_parser (p : HttpParser.t) (s : t) : t :=
  mk (m_readPacket s) (capacity s) p (m_content s) (dangling s) (m_residue s).
Definition set_content (s : t) : t :=
  mk (m_readPacket s) (capacity s) (m_parser s) (Some (ByteBuffer.wpos (m_readPacket s))) false (m_residue s).
Definition set_residue (n : Z) (s : t) : t :=
  mk (m_readPacket s) (capacity s) (m_parser s) (m_content s) (dangling s) n.

Section Connection.
(** The growth policy of [std::vector]: the capacity for [size] bytes when one
    of [cap] is too small. *)
Context (grow : nat -> nat -> nat).

(** [m_readPacket->append]. *)
Definition append (data : list Z) (s : t) : option t :=
  p ← ByteBuffer.append data (m_readPacket s);
  let n := length (ByteBuffer.storage p) in
  if (n <=? capacity s)%nat then Some (set_packet p s)
  else Some (mk p (grow (capacity s) n) (m_parser s) (m_content s)
               (bool_decide (is_Some (m_content s))) (m_residue s)).

(** [complete]: the call of the user, [None] for a view of memory that is not
    there. *)
Definition complete (s : t) : option (list event) :=
  if dangling s then None else
  let url := HttpParser.getUrl (m_parser s) in
  path ← getPath url;
  if HttpParser.method (m_parser s) =? HttpParser.HTTP_POST then
    off ← m_content s;
    let n := i32 (HttpParser.contentLen (m_parser s)) in
    let st := ByteBuffer.storage (m_readPacket s) in
    if (0 <=? n) && (Z.of_nat off + n <=? Z.of_nat (length st))
    then Some [OnPost path (take (Z.to_nat n) (drop off st))] else None
  else if HttpParser.method (m_parser s) =? HttpParser.HTTP_GET then
    param ← (if haveParam url then getParam url else Some []);
    Some [OnGet path param]
  else Some [OnOther (HttpParser.method (m_parser s))].

(** How a round of the loop of [on_msgbuffer] ends. *)
Inductive round : Type :=
  | Next (buffer : MessageBuffer.t) (s : t) (evs : list event)
  | Break (buffer : MessageBuffer.t) (s : t) (evs : list event)
  | Stuck
  | Bad.

(** The first part: "find head end pos". *)
Definition find_head (buffer : MessageBuffer.t) (s : t) : round :=
  match c_string (drop (MessageBuffer.rpos buffer) (MessageBuffer.storage buffer)) with
  | None => Bad
  | Some view =>
      match str_find [13; 10; 13; 10] view with
      | Some rpos =>
          match (d ← MessageBuffer.read_ptr (rpos + 4) buffer; append d s) with
          | None => Bad
          | Some s =>
              let buffer := MessageBuffer.ReadCompleted (rpos + 4) buffer in
              let s := set_content s in
              let p := m_readPacket s in
              match HttpParser.parser (take (ByteBuffer.wpos p) (ByteBuffer.storage p)) (m_parser s) with
              | Done (false, q) => Break buffer (set_parser q s) [Close]
              | Done (true, q) =>
                  let s := set_parser q s in
                  Next buffer
                    (if HttpParser.method q =? HttpParser.HTTP_POST
                     then set_residue (i32 (HttpParser.contentLen q)) s else s) []
              | OutOfFuel => Stuck
              | Fault => Bad
              end
          end
      | None =>
          let n := Z.to_nat (MessageBuffer.GetActiveSize buffer) in
          match (d ← MessageBuffer.read_ptr n buffer; append d s) with
          | None => Bad
          | Some s =>
              let buffer := MessageBuffer.ReadCompleted n buffer in
              if (0xffff <=? Z.of_nat (ByteBuffer.wpos (m_readPacket s)))
              then Break buffer s [Close] else Next buffer s []
          end
      end
  end.

(** The second part, with the head there. *)
Definition take_content (buffer : MessageBuffer.t) (s : t) : round :=
  match m_content s with
  | None => Next buffer s []
  | Some _ =>
      let rlen := i32 (MessageBuffer.GetActiveSize buffer) in
      match (if 0 <? m_residue s then
               let rlen := if rlen <? m_residue s then rlen else m_residue s in
               let s := set_residue (m_residue s - rlen) s in
               d ← MessageBuffer.read_ptr (Z.to_nat rlen) buffer;
               s ← append d s;
               Some (MessageBuffer.ReadCompleted (Z.to_nat rlen) buffer, s)
             else Some (buffer, s)) with
      | None => Bad
      | Some (buffer, s) =>
          if m_residue s =? 0 then
            match complete s with Some evs => Next buffer (zero s) evs | None => Bad end
          else Next buffer s []
      end
  end.

Definition iteration (buffer : MessageBuffer.t) (s : t) : round :=
  match m_content s with
  | None =>
      match find_head buffer s with
      | Next buffer s _ => take_content buffer s
      | r => r
      end
  | Some _ => take_content buffer s
  end.

(** [on_msgbuffer]: the loop, with fuel. *)
Fixpoint on_msgbuffer (fuel : nat) (buffer : MessageBuffer.t) (s : t) :
    result (MessageBuffer.t * t * list event) :=
  match fuel with
  | O => OutOfFuel
  | S fuel =>
      if 0 <? MessageBuffer.GetActiveSize buffer then
        match iteration buffer s with
        | Next buffer s evs =>
            match on_msgbuffer fuel buffer s with
            | Done (buffer, s, evs') => Done (buffer, s, evs ++ evs')
            | r => r
            end
        | Break buffer s evs => Done (buffer, s, evs)
        | Stuck => OutOfFuel
        | Bad => Fault
        end
      else Done (buffer, s, [])
  end.

#[export] Instance HttpConnect_handler : MsgHandler t event := { TcpSock.on_msgbuffer := on_msgbuffer }.

End Connection.

(** ** Sending *)

(** [on_writecomplete]: [true] says that the connection is closed before the
    send queue goes on. *)
Definition on_writecomplete (s : t) (q : TcpSocket.t) : bool * option TcpSocket.t :=
  (HttpParser.isClose (m_parser s), TcpSocket.on_writecomplete q).

Definition chars (s : string) : list Z := map (fun a => Z.of_N (N_of_ascii a)) (list_ascii_of_string s).
Definition crlf : list Z := [13; 10].

Inductive http_content_type : Type :=
  | hct_text_html | hct_text_plain | hct_text_xml | hct_text_json
  | hct_image_gif | hct_image_jpeg | hct_image_png.
Definition getContentTypeStr (type : http_content_type) : string :=
  match type with
  | hct_text_html => "text/html" | hct_text_plain => "text/plain" | hct_text_xml => "text/xml"
  | hct_text_json => "text/json" | hct_image_gif => "image/gif" | hct_image_jpeg => "image/jpeg"
  | hct_image_png => "image/png"
  end.

(** [%d] of a value converted to [int]. *)
Definition percent_d (n : Z) : list Z := chars (NilZero.string_of_int (Z.to_int (i32 n))).

(** The packets [sendMsg], [sendData] and [autoMsg] give to [write]. *)
Definition sendMsg (msg : list Z) : option ByteBuffer.t :=
  ByteBuffer.append msg (BasePacket.create []).
Definition sendData (sv : list Z) : option ByteBuffer.t := sendMsg sv.
Definition autoMsg (sv : list Z) (type : http_content_type) : option ByteBuffer.t :=
  let buff := chars "HTTP/1.1 200 OK" ++ crlf ++ chars "Content-Type: " ++ chars (getContentTypeStr type) ++ crlf
              ++ chars "Content-Length: " ++ percent_d (Z.of_nat (length sv)) ++ crlf ++ crlf in
  pack ← ByteBuffer.append buff (BasePacket.create []);
  ByteBuffer.append sv pack.
End HttpConnect.

(** ** [class HttpServer] *)
Module HttpServer.
Import HttpConnect.

Section Routes.
(** The closures of the routes. *)
Context {F : Type}.

Record t : Type := mk { m_get : gmap (list Z) F; m_post : gmap (list Z) F; m_other : option F }.
Definition create : t := mk ∅ ∅ None.

Definition addGet (name : list Z) (back : F) (s : t) : t := mk (<[name := back]> (m_get s)) (m_post s) (m_other s).
Definition addPost (name : list Z) (back : F) (s : t) : t := mk (m_get s) (<[name := back]> (m_post s)) (m_other s).
Definition setOther (back : F) (s : t) : t := mk (m_get s) (m_post s) (Some back).

(** [onGet], [onPost], [onOther]: the closure called, if any, and its data. *)
Definition onGet (path param : list Z) (s : t) : option (F * list Z) := back ← m_get s !! path; Some (back, param).
Definition onPost (path param : list Z) (s : t) : option (F * list Z) := back ← m_post s !! path; Some (back, param).
Definition onOther (s : t) : option (F * list Z) := back ← m_other s; Some (back, []).
End Routes.
End HttpServer.
