(* ===== verification/UrlReuse.v ===== *)
(** * UrlReuse: a URL object parsed into again

    [ParseUrl::parse] clears the marks of the fields and leaves their offsets
    as an earlier URL chose them.  Here: what it then says of a URL, its code,
    the marks and the offsets of every field it marks, does not depend on what
    the object held; and neither does a request parsed by an [HttpParser] whose
    URL object was used before. *)
From S2P Require Import Prelude TcpSock Llhttp LlhttpRun LlhttpProps LlhttpData Url UrlProps HttpConn.

Module UrlReuse.
Import Url UrlProps.

(** The same marks, and the same places of the marked fields. *)
Definition agree (u u' : http_parser_url) : Prop :=
  field_set u' = field_set u /\ forall f, has_field f u = true -> field_data u' f = field_data u f.

Lemma agree_has f u u' : agree u u' -> has_field f u' = has_field f u.
Proof. intros [E _]. unfold has_field. by rewrite E. Qed.

Lemma agree_set f v u u' : agree u u' -> agree (set_field f v u) (set_field f v u').
Proof.
  intros [E H]. split; [done|]. intros g Hg. rewrite has_set in Hg.
  destruct (decide (g = f)) as [->|Hne]; [by rewrite !data_set_eq|]. rewrite !data_set_ne by done. by apply H.
Qed.

Lemma agree_mark f v u u' : agree u u' -> agree (mark_field f (set_field f v u)) (mark_field f (set_field f v u')).
Proof.
  intros [E H]. split; [cbn; by rewrite E|]. intros g Hg. change (field_data (mark_field f ?x)) with (field_data x).
  destruct (decide (g = f)) as [->|Hne]; [by rewrite !data_set_eq|]. rewrite !data_set_ne by done. apply H.
  rewrite has_mark, has_set in Hg. by rewrite bool_decide_eq_false_2 in Hg.
Qed.

Lemma agree_open f p n u u' : agree u u' -> agree (open_field f p n u) (open_field f p n u').
Proof. apply agree_mark. Qed.

Lemma agree_place f u u' : agree u u' -> has_field f u = true -> off f u' = off f u /\ len f u' = len f u.
Proof. intros [_ H] Hf. unfold off, len. by rewrite H. Qed.

Lemma agree_grow f u u' : agree u u' -> has_field f u = true -> agree (grow_field f u) (grow_field f u').
Proof.
  intros H Hf. unfold grow_field. destruct (agree_place f u u' H Hf) as [-> ->]. by apply agree_set.
Qed.

Lemma url_loop_agree buf : forall p s old found u u', agree u u' ->
  (forall f, old = Some f -> has_field f u = true) ->
  fst (url_loop buf p s old found u') = fst (url_loop buf p s old found u) /\
  agree (snd (url_loop buf p s old found u)) (snd (url_loop buf p s old found u')).
Proof.
  induction buf as [|ch buf IH]; intros p s old found u u' H Hold; cbn [url_loop]; [done|].
  set (go := fun s1 v => match field_of s1 with
    | None => url_loop buf (p + 1) s1 old found v
    | Some f =>
        let found := match s1 with s_req_server_with_at => true | _ => found end in
        if decide (old = Some f) then url_loop buf (p + 1) s1 old found (grow_field f v)
        else url_loop buf (p + 1) s1 (Some f) found (open_field f p 1 v)
    end).
  assert (forall s1, fst (go s1 u') = fst (go s1 u) /\ agree (snd (go s1 u)) (snd (go s1 u'))) as Hstep.
  { intros s1. unfold go. destruct (field_of s1) as [f|]; [|by apply IH]. cbv zeta. destruct (decide (old = Some f)) as [Hf|Hf].
    - apply IH; [by apply agree_grow; [|apply Hold]|]. intros g Hg. rewrite has_grow. by apply Hold.
    - apply IH; [by apply agree_open|]. intros g [= <-]. by rewrite has_open, bool_decide_eq_true_2. }
  pose proof (Hstep (parse_url_char s ch)) as Hs. unfold go in Hs. by destruct (parse_url_char s ch).
Qed.

(** The fields the host's loop may find open. *)
Definition host_marked (s : host_state) (u : http_parser_url) : Prop :=
  has_field UF_HOST u = true /\ (s = s_http_host_port -> has_field UF_PORT u = true) /\
  (s = s_http_userinfo -> has_field UF_USERINFO u = true).

Lemma host_step_agree s s1 p u u' : agree u u' -> host_marked s u ->
  agree (host_step s s1 p u) (host_step s s1 p u') /\ host_marked s1 (host_step s s1 p u).
Proof.
  intros H (Hh & Hp & Hu).
  assert (forall f v, agree u u' -> has_field f u = true -> agree (grow_field f (set_field f (v, len f u) u))
    (grow_field f (set_field f (v, len f u') u'))) as Hset.
  { intros f v _ Hf. destruct (agree_place f u u' H Hf) as [_ ->]. apply agree_grow; [by apply agree_set|by rewrite has_set]. }
  assert (forall f, has_field f (grow_field f (open_field f p 0 u)) = true) as Hopen.
  { intros f. by rewrite has_grow, has_open, bool_decide_eq_true_2. }
  assert (forall f, agree (grow_field f (open_field f p 0 u)) (grow_field f (open_field f p 0 u'))) as Hagree.
  { intros f. apply agree_grow; [by apply agree_open|]. by rewrite has_open, bool_decide_eq_true_2. }
  destruct s1; cbn [host_step]; unfold host_marked; repeat case_decide; simplify_eq; split_and!;
    rewrite ?has_grow, ?has_set, ?has_open, ?orb_true_iff; try done; auto using agree_grow.
Qed.

Lemma host_loop_agree buf : forall p s u u', agree u u' -> host_marked s u ->
  fst (host_loop buf p s u') = fst (host_loop buf p s u) /\
  agree (snd (host_loop buf p s u)) (snd (host_loop buf p s u')).
Proof.
  induction buf as [|ch buf IH]; intros p s u u' H Hm; cbn [host_loop]; [done|].
  pose proof (fun s1 => host_step_agree s s1 p u u' H Hm) as Hstep.
  destruct (http_parse_host_char s ch) eqn:E; [done|..]; rewrite <- E in *; apply IH; apply Hstep.
Qed.

Lemma host_loop_has buf f : forall p s u, has_field f u = true -> has_field f (snd (host_loop buf p s u)) = true.
Proof.
  induction buf as [|ch buf IH]; intros p s u H; cbn [host_loop]; [done|].
  destruct (http_parse_host_char s ch) eqn:E; [done|..]; apply IH; unfold host_step; repeat case_decide;
    rewrite ?has_grow, ?has_set, ?has_open, ?H, ?orb_true_r; done.
Qed.

Lemma parse_host_agree buf found u u' : agree u u' -> has_field UF_HOST u = true ->
  fst (http_parse_host buf found u') = fst (http_parse_host buf found u) /\
  agree (snd (http_parse_host buf found u)) (snd (http_parse_host buf found u')).
Proof.
  intros H Hh. unfold http_parse_host. destruct (agree_place UF_HOST u u' H Hh) as [-> ->].
  set (s := if found then _ else _).
  destruct (host_loop_agree (view buf (off UF_HOST u) (len UF_HOST u)) (off UF_HOST u) s
    (set_field UF_HOST (off UF_HOST u, 0) u) (set_field UF_HOST (off UF_HOST u, 0) u')) as [E Ha].
  - by apply agree_set.
  - unfold host_marked. rewrite !has_set. subst s. split; [done|]. by destruct found.
  - destruct (host_loop _ _ _ (set_field _ _ u)) as [[ok t] v], (host_loop _ _ _ (set_field _ _ u')) as [[ok' t'] v'].
    cbn [fst snd] in *. by injection E as -> ->.
Qed.

(** What the parser says of a URL does not depend on what the object held. *)
Lemma parse_url_agree buf u u' : buf <> [] ->
  fst (http_parser_parse_url buf false u') = fst (http_parser_parse_url buf false u) /\
  agree (snd (http_parser_parse_url buf false u)) (snd (http_parser_parse_url buf false u')).
Proof.
  intros Hne. unfold http_parser_parse_url. destruct (Nat.eqb_spec (length buf) 0) as [E|_]; [by apply length_zero_iff_nil in E|].
  destruct (url_loop_agree buf 0 s_req_spaces_before_url None false (mkurl 0 0 (field_data u)) (mkurl 0 0 (field_data u')))
    as [E H]; [|done|].
  { split; [done|]. intros f. by destruct f. }
  destruct (url_loop buf 0 _ None false (mkurl 0 0 (field_data u))) as [[ok found] v],
    (url_loop buf 0 _ None false (mkurl 0 0 (field_data u'))) as [[ok' found'] v']. cbn [fst snd] in *.
  injection E as -> ->. destruct ok; [|done]. cbn [negb andb]. rewrite !(agree_has _ v v' H).
  destruct (has_field UF_SCHEMA v && negb (has_field UF_HOST v)); [done|].
  assert (fst (if has_field UF_HOST v then http_parse_host buf found v' else (true, v')) =
      fst (if has_field UF_HOST v then http_parse_host buf found v else (true, v)) /\
    agree (snd (if has_field UF_HOST v then http_parse_host buf found v else (true, v)))
      (snd (if has_field UF_HOST v then http_parse_host buf found v' else (true, v')))) as [E Ha].
  { destruct (has_field UF_HOST v) eqn:Hh; [by apply parse_host_agree|done]. }
  destruct (if has_field UF_HOST v then http_parse_host buf found v else (true, v)) as [ok w],
    (if has_field UF_HOST v then http_parse_host buf found v' else (true, v')) as [ok' w'].
  cbn [fst snd] in *. subst ok'. destruct ok; [|done]. cbn [negb]. rewrite (agree_has UF_PORT w w' Ha).
  destruct (has_field UF_PORT w) eqn:Hp; [|done]. destruct (agree_place UF_PORT w w' Ha Hp) as [-> ->].
  by destruct (port_loop _ 0).
Qed.

(** Two URL objects of which the first, if it marks anything, says the same as
    the second. *)
Definition same_url (u u' : ParseUrl) : Prop :=
  field_set (m_url u) <> 0 -> m_buff u' = m_buff u /\ agree (m_url u) (m_url u').

Lemma parse_same buf u u' : same_url u u' ->
  fst (parse buf u) = fst (parse buf u') /\ same_url (snd (parse buf u)) (snd (parse buf u')).
Proof.
  intros H. unfold parse. destruct (decide (buf = [])) as [->|Hne].
  { cbn. split; [done|]. intros Hs. by destruct (H Hs). }
  destruct (parse_url_agree buf (m_url u) (m_url u') Hne) as [E Ha].
  destruct (http_parser_parse_url buf false (m_url u)) as [ok v], (http_parser_parse_url buf false (m_url u')) as [ok' v'].
  cbn [fst snd] in *. subst ok'. done.
Qed.

#[export] Instance url_related : LlhttpData.Related HttpParser.http_settings same_url.
Proof.
  split.
  - intros [] x pb u u' H; cbn; try done. by apply parse_same.
  - intros cb pb u u' _ Hin. cbn in Hin. naive_solver.
Qed.

(** A head that a new parser takes, and whose URL has a path, is taken by a
    parser used before too, which then says the same of it. *)
Lemma parser_reused hd (this : ParseUrl) (q : HttpParser.t) :
  HttpParser.parser hd (LlhttpRun.llhttp_init Llhttp.HTTP_REQUEST ParseUrl_create) = Done (true, q) ->
  has_field UF_PATH (m_url (HttpParser.getUrl q)) = true ->
  exists q', HttpParser.parser hd (LlhttpRun.llhttp_init Llhttp.HTTP_REQUEST this) = Done (true, q') /\
    Llhttp.fields q' = Llhttp.fields q /\ m_buff (HttpParser.getUrl q') = m_buff (HttpParser.getUrl q) /\
    agree (m_url (HttpParser.getUrl q)) (m_url (HttpParser.getUrl q')).
Proof.
  unfold HttpParser.parser. intros Hq Hpath.
  pose proof (LlhttpData.execute_like HttpParser.http_settings same_url (LlhttpProps.fuel_for hd) hd
    (LlhttpRun.llhttp_init Llhttp.HTTP_REQUEST ParseUrl_create) (LlhttpRun.llhttp_init Llhttp.HTTP_REQUEST this)) as Hl.
  destruct (LlhttpRun.llhttp_execute _ _ hd (LlhttpRun.llhttp_init _ ParseUrl_create)) as [[e s]| |]; [|done..].
  destruct (LlhttpRun.llhttp_execute _ _ hd (LlhttpRun.llhttp_init _ this)) as [[e' s']| |]; [|by destruct Hl..].
  destruct Hl as [-> Hl]; [by split|]. apply LlhttpData.like_elim in Hl as (v & -> & Hv).
  injection Hq as -> <-. exists (Llhttp.set_data v s). split; [done|]. split; [done|]. apply Hv.
  intros E. unfold has_field, HttpParser.getUrl in Hpath. by rewrite E in Hpath.
Qed.
End UrlReuse.
