(* ===== verification/HttpConnProps.v ===== *)
(** * HttpConnProps: requests through an HTTP connection

    From the reads of the socket to the call of the user: the head goes to
    llhttp in one piece, the body is collected behind it. *)
From Stdlib Require Import String.
From stdpp Require Import gmap.
From S2P Require Import Prelude ByteBuf MsgBuf TcpSock WebSock Llhttp LlhttpRun LlhttpProps Url HttpConn.

Module HttpConnProps.
Import Url HttpConnect.
Import WebSocketConnect (c_string, str_find, is_prefix).
Import TcpRecvProps.

(** ** The end of the head *)

Lemma is_prefix_longer p l k : is_prefix p l = true -> is_prefix p (l ++ k) = true.
Proof.
  revert l. induction p as [|x p IH]; intros [|y l]; cbn; try done.
  intros [-> H]%andb_true_iff. by apply IH.
Qed.

(** A pattern not found at a position with enough bytes left is not found
    there in a longer string. *)
Lemma is_prefix_longer_inv p l k : (length p <= length l)%nat -> is_prefix p (l ++ k) = is_prefix p l.
Proof.
  revert l. induction p as [|x p IH]; intros [|y l] Hl; cbn in *; try done; [lia|].
  by rewrite IH by lia.
Qed.

Lemma str_find_bound pat l n : str_find pat l = Some n -> (n + length pat <= length l)%nat.
Proof.
  revert n. induction l as [|c l IH]; intros n; cbn [str_find].
  - destruct pat; cbn; [intros [= <-]; lia|done].
  - destruct (is_prefix pat (c :: l)) eqn:E.
    + intros [= <-]. clear IH. revert E. generalize (c :: l). clear.
      induction pat as [|x pat IH]; intros [|y l]; cbn; try done; [lia|].
      intros [_ H]%andb_true_iff. apply IH in H. cbn in *. lia.
    + destruct (str_find pat l) as [m|]; [|done]. intros [= <-]. specialize (IH m eq_refl). cbn. lia.
Qed.

Lemma str_find_app pat l k n : str_find pat l = Some n -> str_find pat (l ++ k) = Some n.
Proof.
  revert n. induction l as [|c l IH]; intros n H; pose proof (str_find_bound _ _ _ H) as Hb; cbn [str_find app] in *.
  - destruct pat as [|x pat]; [|done]. by destruct k.
  - rewrite app_comm_cons. destruct (is_prefix pat (c :: l)) eqn:E.
    + by rewrite is_prefix_longer.
    + destruct (str_find pat l) as [m|] eqn:Em; [|done]. injection H as <-.
      pose proof (str_find_bound _ _ _ Em). rewrite is_prefix_longer_inv, E by (cbn in *; lia).
      cbn [app str_find]. by rewrite (IH m eq_refl).
Qed.

Lemma c_string_past hd k : Forall (fun c => c <> 0) hd -> 0 ∈ k ->
  exists r, c_string (hd ++ k) = Some (hd ++ r).
Proof.
  induction 1 as [|c hd Hc _ IH]; intros Hk; cbn [app c_string].
  - induction k as [|c k IHk]; [by apply elem_of_nil in Hk|]. cbn [c_string].
    destruct (Z.eqb_spec c 0) as [->|Hne]; [by exists []|].
    apply elem_of_cons in Hk as [?|Hk]; [done|]. destruct (IHk Hk) as [r ->]. by exists (c :: r).
  - apply Z.eqb_neq in Hc. rewrite Hc. destruct (IH Hk) as [r ->]. by exists r.
Qed.

(** The head of a request: no NUL, and the first empty line ends it. *)
Definition head_end : list Z := [13; 10; 13; 10].
Definition head_ok (hd : list Z) : bool :=
  forallb (fun c => negb (c =? 0)) hd && bool_decide (str_find head_end hd = Some (length hd - 4)%nat).

Lemma head_ok_spec hd : head_ok hd = true ->
  Forall (fun c => c <> 0) hd /\ str_find head_end hd = Some (length hd - 4)%nat /\ (4 <= length hd)%nat.
Proof.
  intros [H1 H2%bool_decide_eq_true]%andb_true_iff. split; [|split; [done|]].
  - rewrite forallb_forall in H1. apply Forall_forall. intros c Hc. apply H1 in Hc. by apply negb_true_iff, Z.eqb_neq in Hc.
  - apply str_find_bound in H2. cbn in H2. lia.
Qed.

(** ** One request *)

Abbreviation fresh this := (LlhttpRun.llhttp_init Llhttp.HTTP_REQUEST this).

Section Request.
Context (grow : nat -> nat -> nat).
#[local] Existing Instance HttpConnect_handler.

(** A connection that waits for a request. *)
Definition ready (cap : nat) (this : ParseUrl) : t :=
  mk (ByteBuffer.mk [] 0 0) cap (fresh this) None false 0.

(** The bytes the code expects behind a head that parsed to [q]. *)
Definition body_len (q : HttpParser.t) : Z :=
  if HttpParser.method q =? HttpParser.HTTP_POST then i32 (HttpParser.contentLen q) else 0.

(** What the user should be called with. *)
Definition request_event (q : HttpParser.t) (body : list Z) : option event :=
  let url := HttpParser.getUrl q in
  path ← getPath url;
  if HttpParser.method q =? HttpParser.HTTP_POST then Some (OnPost path body)
  else if HttpParser.method q =? HttpParser.HTTP_GET then
    param ← (if haveParam url then getParam url else Some []); Some (OnGet path param)
  else Some (OnOther (HttpParser.method q)).

(** The connection with the head [hd] parsed to [q] and [b] of the body. *)
Definition partial (cap : nat) (hd b : list Z) (q : HttpParser.t) : t :=
  mk (ByteBuffer.mk (hd ++ b) 0 (length (hd ++ b))) cap q (Some (length hd)) false
    (body_len q - Z.of_nat (length b)).

Lemma append_fits d st r cap p c g n : (length (st ++ d) <= cap)%nat ->
  append grow d (mk (ByteBuffer.mk st r (length st)) cap p c g n) =
    Some (mk (ByteBuffer.mk (st ++ d) r (length (st ++ d))) cap p c g n).
Proof.
  intros H. unfold append. cbn [m_readPacket]. rewrite ByteBufProps.append_at_end by done.
  cbn [mbind option_bind ByteBuffer.storage ByteBuffer.rpos ByteBuffer.wpos].
  apply Nat.leb_le in H. cbn [capacity]. rewrite H. unfold set_packet. by rewrite length_app.
Qed.

Lemma GetActiveSize_i32 buf d : MessageBuffer.wf buf -> MessageBuffer.active buf = d ->
  Z.of_nat (length (MessageBuffer.storage buf)) < 2 ^ 31 ->
  MessageBuffer.GetActiveSize buf = Z.of_nat (length d) /\ i32 (MessageBuffer.GetActiveSize buf) = Z.of_nat (length d) /\
  (length d <= length (MessageBuffer.storage buf))%nat.
Proof.
  intros Hwf Ha Hs. rewrite MsgBufProps.GetActiveSize_spec, Ha by done.
  assert (length d <= length (MessageBuffer.storage buf))%nat.
  { rewrite <- Ha, MsgBufProps.active_length by done. destruct Hwf as (? & ? & _). lia. }
  split; [done|]. split; [|done]. apply sext_small; unfold in_i; lia.
Qed.

(** A buffer that holds exactly the bytes [d]. *)
Definition holds (buf : MessageBuffer.t) (d : list Z) : Prop :=
  MessageBuffer.wf buf /\ MessageBuffer.active buf = d /\
  Z.of_nat (length (MessageBuffer.storage buf)) < 2 ^ 31.

Lemma holds_read buf d n : holds buf d -> (n <= length d)%nat ->
  MessageBuffer.read_ptr n buf = Some (take n d) /\ holds (MessageBuffer.ReadCompleted n buf) (drop n d).
Proof.
  intros (Hwf & Ha & Hs) Hn. rewrite MsgBufProps.read_ptr_active by (rewrite ?Ha; done). rewrite Ha.
  split; [done|]. destruct (MsgBufProps.ReadCompleted_active n buf Hwf) as [Hwf' Ha']; [by rewrite Ha|].
  by split; [|rewrite Ha', Ha].
Qed.

(** The head is there in whole. *)
Lemma find_head_ok cap this hd b q buf : head_ok hd = true -> HttpParser.parser hd (fresh this) = Done (true, q) ->
  holds buf (hd ++ b) -> MessageBuffer.rpos buf = 0%nat ->
  0 ∈ drop (length (hd ++ b)) (MessageBuffer.storage buf) -> (length hd <= cap)%nat ->
  find_head grow buf (ready cap this) =
    Next (MessageBuffer.ReadCompleted (length hd) buf) (partial cap hd [] q) [].
Proof.
  intros Hok Hparse Hbuf Hr Hz Hcap. destruct (head_ok_spec hd Hok) as (Hnz & Hfind & Hlen).
  assert (Hst : MessageBuffer.storage buf = hd ++ b ++ drop (length (hd ++ b)) (MessageBuffer.storage buf)).
  { destruct Hbuf as (Hwf & Ha & _). rewrite app_assoc, <- Ha at 1. unfold MessageBuffer.active. rewrite Hr, drop_0.
    rewrite <- (take_drop (MessageBuffer.wpos buf) (MessageBuffer.storage buf)) at 1. rewrite Nat.sub_0_r.
    f_equal. pose proof (MsgBufProps.active_length buf Hwf) as Hl. rewrite Ha in Hl. rewrite Hl, Hr. by rewrite Nat.sub_0_r. }
  unfold find_head. rewrite Hr, drop_0. destruct (c_string_past hd (b ++ drop (length (hd ++ b)) (MessageBuffer.storage buf)) Hnz) as [r E].
  { apply elem_of_app. by right. }
  rewrite Hst, E. rewrite (str_find_app _ _ _ _ Hfind). replace (length hd - 4 + 4)%nat with (length hd) by lia.
  destruct (holds_read buf (hd ++ b) (length hd) Hbuf) as [-> _]; [rewrite length_app; lia|].
  rewrite take_app_exact. cbn [mbind option_bind]. unfold ready.
  change (ByteBuffer.mk [] 0 0) with (ByteBuffer.mk [] 0 (length (@nil Z))).
  rewrite (append_fits hd [] 0 cap (fresh this) None false 0 Hcap). cbn [app].
  unfold set_content. cbn [m_readPacket capacity m_parser m_residue ByteBuffer.wpos ByteBuffer.storage].
  rewrite firstn_all, Hparse. unfold partial, body_len. rewrite app_nil_r. cbn [length].
  by destruct (HttpParser.method q =? HttpParser.HTTP_POST); unfold set_residue, set_parser;
    cbn [m_readPacket capacity m_parser m_content dangling m_residue]; rewrite ?Z.sub_0_r.
Qed.

(** The whole of the body is there. *)
Lemma complete_ok cap hd body q ev : Z.of_nat (length body) = body_len q -> request_event q body = Some ev ->
  complete (partial cap hd body q) = Some [ev].
Proof.
  intros Hn Hev. unfold complete, partial, request_event, body_len in *.
  cbn [dangling m_parser m_content m_readPacket ByteBuffer.storage] in *.
  destruct (getPath _) as [path|]; [|done]. cbn [mbind option_bind] in *.
  destruct (HttpParser.method q =? HttpParser.HTTP_POST).
  - injection Hev as <-. rewrite <- Hn, Nat2Z.id, drop_app_exact, firstn_all, length_app.
    rewrite (proj2 (Z.leb_le 0 _)), (proj2 (Z.leb_le _ _)) by lia. done.
  - destruct (HttpParser.method q =? HttpParser.HTTP_GET); [|by injection Hev as <-].
    destruct (if haveParam _ then _ else _); [|done]. by injection Hev as <-.
Qed.

(** More of the body. *)
Lemma take_content_ok cap hd b d q buf : holds buf d ->
  Z.of_nat (length (b ++ d)) <= body_len q -> (length (hd ++ b ++ d) <= cap)%nat ->
  take_content grow buf (partial cap hd b q) =
    if Z.of_nat (length (b ++ d)) =? body_len q then
      match complete (partial cap hd (b ++ d) q) with
      | Some evs => Next (MessageBuffer.ReadCompleted (length d) buf) (zero (partial cap hd (b ++ d) q)) evs
      | None => Bad
      end
    else Next (MessageBuffer.ReadCompleted (length d) buf) (partial cap hd (b ++ d) q) [].
Proof.
  intros Hbuf Hn Hcap. destruct Hbuf as (Hwf & Ha & Hs).
  destruct (GetActiveSize_i32 buf d Hwf Ha Hs) as (_ & Hi & _).
  destruct (holds_read buf d (length d) (conj Hwf (conj Ha Hs)) ltac:(lia)) as [Hread _].
  rewrite length_app in Hn. unfold take_content. change (m_content (partial cap hd b q)) with (Some (length hd)).
  cbv iota. rewrite Hi. change (m_residue (partial cap hd b q)) with (body_len q - Z.of_nat (length b)).
  destruct (Z.ltb_spec 0 (body_len q - Z.of_nat (length b))) as [Hlt|Hge].
  - assert (E : (if Z.of_nat (length d) <? body_len q - Z.of_nat (length b) then Z.of_nat (length d)
      else body_len q - Z.of_nat (length b)) = Z.of_nat (length d)).
    { destruct (Z.ltb_spec (Z.of_nat (length d)) (body_len q - Z.of_nat (length b))); lia. }
    cbv zeta. rewrite E, Nat2Z.id, Hread, firstn_all. cbn [mbind option_bind]. unfold partial, set_residue.
    cbn [m_readPacket capacity m_parser m_content dangling m_residue].
    rewrite append_fits by (rewrite <- app_assoc; done). cbn [mbind option_bind m_residue].
    rewrite <- app_assoc. replace (body_len q - Z.of_nat (length b) - Z.of_nat (length d))
      with (body_len q - Z.of_nat (length (b ++ d))) by (rewrite length_app; lia).
    assert (E2 : (body_len q - Z.of_nat (length (b ++ d)) =? 0) = (Z.of_nat (length (b ++ d)) =? body_len q)).
    { apply eq_true_iff_eq. rewrite !Z.eqb_eq. lia. }
    by rewrite E2.
  - assert (length d = 0%nat) as Hd by lia. rewrite Hd. apply length_zero_iff_nil in Hd. rewrite Hd.
    rewrite app_nil_r. cbn [length] in *. change (m_residue (partial cap hd b q)) with (body_len q - Z.of_nat (length b)).
    rewrite (proj2 (Z.eqb_eq _ _)), (proj2 (Z.eqb_eq (Z.of_nat (length b)) _)) by lia.
    unfold MessageBuffer.ReadCompleted. rewrite Nat.add_0_r. by destruct buf.
Qed.

(** ** Reads *)

Section Reads.
Context (cap : nat) (hd body : list Z) (q : HttpParser.t) (ev : event).
Context (Hbody : Z.of_nat (length body) = body_len q) (Hev : request_event q body = Some ev).
Context (Hcap : (length (hd ++ body) <= cap)%nat).

(** The state with the part [b] of the body, and what was called. *)
Definition after (b : list Z) : t * list event :=
  if (length b =? length body)%nat then (ready cap (Llhttp.data q), [ev]) else (partial cap hd b q, []).

Lemma take_content_after b d k buf : holds buf d -> b ++ d ++ k = body ->
  take_content grow buf (partial cap hd b q) =
    Next (MessageBuffer.ReadCompleted (length d) buf) (fst (after (b ++ d))) (snd (after (b ++ d))).
Proof.
  intros Hbuf Hk. rewrite app_assoc in Hk. assert (Hl : (length (b ++ d) + length k = length body)%nat)
    by (rewrite <- Hk, !length_app; lia).
  rewrite (take_content_ok cap hd b d q buf Hbuf); [|lia|rewrite !length_app in *; lia].
  unfold after. rewrite <- Hbody. destruct (Nat.eqb_spec (length (b ++ d)) (length body)) as [E|E].
  - rewrite E, Z.eqb_refl. assert (b ++ d = body) as ->.
    { assert (k = []) as -> by (apply length_zero_iff_nil; lia). by rewrite app_nil_r in Hk. }
    by rewrite (complete_ok cap hd body q ev).
  - rewrite (proj2 (Z.eqb_neq _ _)) by lia. done.
Qed.

Lemma on_msgbuffer_stops fuel buf s : holds buf [] -> on_msgbuffer grow (S fuel) buf s = Done (buf, s, []).
Proof.
  intros (Hwf & Ha & Hs). destruct (GetActiveSize_i32 buf [] Hwf Ha Hs) as (E & _). cbn [on_msgbuffer].
  by rewrite E.
Qed.

Lemma on_msgbuffer_one fuel buf s d s' evs : holds buf d -> d <> [] ->
  iteration grow buf s = Next (MessageBuffer.ReadCompleted (length d) buf) s' evs ->
  on_msgbuffer grow (S (S fuel)) buf s = Done (MessageBuffer.ReadCompleted (length d) buf, s', evs).
Proof.
  intros Hbuf Hne Hit. destruct (holds_read buf d (length d) Hbuf ltac:(lia)) as [_ Hend]. rewrite drop_all in Hend.
  destruct Hbuf as (Hwf & Ha & Hs). destruct (GetActiveSize_i32 buf d Hwf Ha Hs) as (E & _).
  change (on_msgbuffer grow (S (S fuel)) buf s) with
    (if 0 <? MessageBuffer.GetActiveSize buf then
       match iteration grow buf s with
       | Next buffer s evs =>
           match on_msgbuffer grow (S fuel) buffer s with
           | Done (buffer, s, evs') => Done (buffer, s, evs ++ evs') | r => r
           end
       | Break buffer s evs => Done (buffer, s, evs) | Stuck => OutOfFuel | Bad => Fault
       end
     else Done (buf, s, [])).
  assert (0 < length d)%nat by (destruct d; [done|cbn; lia]).
  rewrite E, (proj2 (Z.ltb_lt _ _)), Hit by lia. rewrite on_msgbuffer_stops by done. by rewrite app_nil_r.
Qed.

(** A read of bytes that the loop takes in one round. *)
Lemma echo_read_one size fuel b s d s' evs : idle size b -> (length d <= size)%nat -> Z.of_nat size < 2 ^ 31 ->
  d <> [] ->
  (forall buf, holds buf d -> MessageBuffer.rpos buf = 0%nat ->
    drop (length d) (MessageBuffer.storage buf) = drop (length d) (MessageBuffer.storage b) ->
    iteration grow buf s = Next (MessageBuffer.ReadCompleted (length d) buf) s' evs) ->
  exists b', TcpSocketBase.echo_read (H := HttpConnect_handler grow) (S (S fuel)) (TcpSocketBase.ReadBytes d) b s =
    Done (b', s', evs, false) /\ idle size b' /\
    drop (length d) (MessageBuffer.storage b') = drop (length d) (MessageBuffer.storage b).
Proof.
  intros Hi Hd Hlt Hne Hit. destruct (deliver_active size d b Hi Hd Hlt) as (Hwf & Hact & Hlen).
  unfold TcpSocketBase.echo_read. destruct (Nat.eqb_spec (length d) 0) as [E0|E0].
  { by apply length_zero_iff_nil in E0. }
  set (buf := MessageBuffer.WriteCompleted _ _) in *.
  assert (Hst : drop (length d) (MessageBuffer.storage buf) = drop (length d) (MessageBuffer.storage b)).
  { unfold buf, TcpSocketBase.deliver, MessageBuffer.WriteCompleted. cbn [MessageBuffer.storage]. apply drop_app_exact. }
  change (TcpSock.on_msgbuffer (S (S fuel)) buf s) with (on_msgbuffer grow (S (S fuel)) buf s).
  rewrite (on_msgbuffer_one fuel buf s d s' evs); [|by split; [|split; [|lia]]|done|].
  - eexists. split; [done|]. split; [|exact Hst].
    unfold idle, MessageBuffer.Reset, MessageBuffer.ReadCompleted. by cbn.
  - apply Hit; [by split; [|split; [|lia]]| |done]. destruct Hi as (_ & Hr & _).
    unfold buf, TcpSocketBase.deliver, MessageBuffer.WriteCompleted. by cbn.
Qed.

(** The rest of the body, read by read. *)
Lemma receive_body size fuel bs : Z.of_nat size < 2 ^ 31 -> forall b buf,
  idle size buf -> Forall (chunk_ok size) bs -> b ++ concat bs = body ->
  (bs = [] -> length b = length body) ->
  exists buf' s' evs, TcpSocketBase.receive (H := HttpConnect_handler grow) (S (S fuel)) bs buf (fst (after b)) =
      Done (buf', s', evs) /\
    idle size buf' /\ s' = ready cap (Llhttp.data q) /\ snd (after b) ++ evs = [ev].
Proof.
  intros Hsz. induction bs as [|d bs IH]; intros b buf Hi Hc Hb Hnil.
  { exists buf, (ready cap (Llhttp.data q)), []. specialize (Hnil eq_refl). unfold after.
    rewrite (proj2 (Nat.eqb_eq _ _) Hnil). done. }
  cbn [concat] in Hb. apply Forall_cons_iff in Hc as [(Hne & Hd & Hok) Hc].
  assert (Hd0 : (0 < length d)%nat) by (destruct d; [done|cbn; lia]).
  assert (Hlb : (length b < length body)%nat) by (rewrite <- Hb, !length_app; lia).
  assert (Ha : after b = (partial cap hd b q, [])).
  { unfold after. by rewrite (proj2 (Nat.eqb_neq _ _)) by lia. }
  rewrite Ha. cbn [fst snd app TcpSocketBase.receive].
  destruct (echo_read_one size fuel buf (partial cap hd b q) d (fst (after (b ++ d))) (snd (after (b ++ d))) Hi Hd Hsz Hne)
    as (buf1 & Hrun & Hi1 & _).
  { intros buf' Hbuf' _ _. unfold iteration. change (m_content (partial cap hd b q)) with (Some (length hd)).
    by apply (take_content_after b d (concat bs)). }
  rewrite Hrun. destruct (IH (b ++ d) buf1 Hi1 Hc) as (buf2 & s2 & evs & -> & Hi2 & -> & Hevs).
  - by rewrite <- app_assoc.
  - intros ->. rewrite <- Hb. cbn [concat]. by rewrite app_nil_r.
  - by exists buf2, (ready cap (Llhttp.data q)), (snd (after (b ++ d)) ++ evs).
Qed.

(** The read with the head. *)
Lemma iteration_first this b k buf : head_ok hd = true ->
  HttpParser.parser hd (fresh this) = Done (true, q) -> b ++ k = body ->
  holds buf (hd ++ b) -> MessageBuffer.rpos buf = 0%nat ->
  0 ∈ drop (length (hd ++ b)) (MessageBuffer.storage buf) ->
  iteration grow buf (ready cap this) =
    Next (MessageBuffer.ReadCompleted (length (hd ++ b)) buf) (fst (after b)) (snd (after b)).
Proof.
  intros Hok Hparse Hb Hbuf Hr Hz. unfold iteration. change (m_content (ready cap this)) with (@None nat).
  cbv iota. rewrite (find_head_ok cap this hd b q) by (try done; rewrite length_app in Hcap; lia).
  destruct (holds_read buf (hd ++ b) (length hd) Hbuf) as [_ Hbuf']; [rewrite length_app; lia|].
  rewrite drop_app_exact in Hbuf'. rewrite (take_content_after [] b k) by done.
  unfold MessageBuffer.ReadCompleted. cbn [MessageBuffer.storage MessageBuffer.wpos MessageBuffer.rpos app].
  by rewrite length_app, Nat.add_assoc.
Qed.

Lemma request_received size fuel this b bs buf : Z.of_nat size < 2 ^ 31 -> head_ok hd = true ->
  HttpParser.parser hd (fresh this) = Done (true, q) -> b ++ concat bs = body ->
  idle size buf -> (length (hd ++ b) <= size)%nat -> 0 ∈ drop (length (hd ++ b)) (MessageBuffer.storage buf) ->
  Forall (chunk_ok size) bs ->
  exists buf', TcpSocketBase.receive (H := HttpConnect_handler grow) (S (S fuel)) ((hd ++ b) :: bs) buf (ready cap this) =
      Done (buf', ready cap (Llhttp.data q), [ev]) /\ idle size buf'.
Proof.
  intros Hsz Hok Hparse Hb Hi Hlen Hz Hc. destruct (head_ok_spec hd Hok) as (_ & _ & H4).
  destruct (echo_read_one size fuel buf (ready cap this) (hd ++ b) (fst (after b)) (snd (after b)) Hi Hlen Hsz)
    as (buf1 & Hrun & Hi1 & _).
  - intros [-> _]%app_nil. cbn in H4. lia.
  - intros buf' Hbuf' Hr Hst. apply (iteration_first this b (concat bs)); try done. by rewrite Hst.
  - cbn [TcpSocketBase.receive]. rewrite Hrun.
    destruct (receive_body size fuel bs Hsz b buf1 Hi1 Hc Hb) as (buf2 & s2 & evs & -> & Hi2 & -> & Hevs).
    + intros ->. rewrite <- Hb. cbn [concat]. by rewrite app_nil_r.
    + exists buf2. by rewrite Hevs.
Qed.
End Reads.

(** C6.  A request reaches the user once, with its path and its data, and
    leaves the connection ready for the next: when its head, ended by the first
    empty line, arrives in the first read and the body in any reads after (or
    together with) it, the user is called exactly with what llhttp and the URL
    parser say of the head and with the bytes of the body.  (The first read
    leaves a NUL in the buffer, and head and body fit the packet's vector.) *)
Theorem http_request_delivered (size fuel cap : nat) (hd body b : list Z) (bs : list (list Z))
    (this : ParseUrl) (q : HttpParser.t) (ev : event) (buf : MessageBuffer.t)
    (Hsize : Z.of_nat size < 2 ^ 31) (Hhead : head_ok hd = true)
    (Hparse : HttpParser.parser hd (fresh this) = Done (true, q))
    (Hbody : Z.of_nat (length body) = body_len q) (Hev : request_event q body = Some ev)
    (Hcuts : b ++ concat bs = body) (Hidle : idle size buf) (Hfirst : (length (hd ++ b) <= size)%nat)
    (Hnul : 0 ∈ drop (length (hd ++ b)) (MessageBuffer.storage buf))
    (Hrest : Forall (chunk_ok size) bs) (Hcap : (length (hd ++ body) <= cap)%nat) (Hfuel : (2 <= fuel)%nat) :
  exists buf', TcpSocketBase.receive (H := HttpConnect_handler grow) fuel ((hd ++ b) :: bs) buf (ready cap this) =
      Done (buf', ready cap (Llhttp.data q), [ev]) /\ idle size buf'.
Proof.
  destruct fuel as [|[|fuel]]; [lia|lia|].
  by apply (request_received cap hd body q ev Hbody Hev Hcap size fuel this b bs buf).
Qed.

(** Keep-alive does not work: [on_writecomplete] asks the parser whether to
    close, but the parser was reset when the request was complete.  Even for a
    request whose parser says to keep the connection, the connection is closed
    when the first write of the answer is done. *)
Theorem http_keep_alive_lost (size fuel cap : nat) (hd body b : list Z) (bs : list (list Z))
    (this : ParseUrl) (q : HttpParser.t) (ev : event) (buf : MessageBuffer.t)
    (Hsize : Z.of_nat size < 2 ^ 31) (Hhead : head_ok hd = true)
    (Hparse : HttpParser.parser hd (fresh this) = Done (true, q)) (Hkeep : HttpParser.isClose q = false)
    (Hbody : Z.of_nat (length body) = body_len q) (Hev : request_event q body = Some ev)
    (Hcuts : b ++ concat bs = body) (Hidle : idle size buf) (Hfirst : (length (hd ++ b) <= size)%nat)
    (Hnul : 0 ∈ drop (length (hd ++ b)) (MessageBuffer.storage buf))
    (Hrest : Forall (chunk_ok size) bs) (Hcap : (length (hd ++ body) <= cap)%nat) (Hfuel : (2 <= fuel)%nat) :
  exists buf' s', TcpSocketBase.receive (H := HttpConnect_handler grow) fuel ((hd ++ b) :: bs) buf (ready cap this) =
      Done (buf', s', [ev]) /\ forall sq, fst (on_writecomplete s' sq) = true.
Proof.
  destruct fuel as [|[|fuel]]; [lia|lia|].
  destruct (request_received cap hd body q ev Hbody Hev Hcap size fuel this b bs buf) as (buf' & H & _); [done..|].
  exists buf', (ready cap (Llhttp.data q)). by split.
Qed.

(** ** Where it goes wrong *)

(** With a negative residue no round of the loop takes anything. *)
Lemma negative_residue_spins fuel buf s d : holds buf d -> d <> [] -> is_Some (m_content s) -> m_residue s < 0 ->
  on_msgbuffer grow fuel buf s = OutOfFuel.
Proof.
  intros (Hwf & Ha & Hs) Hne [c Hc] Hneg. destruct (GetActiveSize_i32 buf d Hwf Ha Hs) as (E & _).
  assert (0 < length d)%nat by (destruct d; [done|cbn; lia]).
  induction fuel as [|fuel IH]; cbn [on_msgbuffer]; [done|]. rewrite E, (proj2 (Z.ltb_lt _ _)) by lia.
  unfold iteration, take_content. rewrite Hc. rewrite (proj2 (Z.ltb_ge _ _)), (proj2 (Z.eqb_neq _ _)) by lia.
  by rewrite IH.
Qed.

(**  A peer can hang the event loop: a POST whose [Content-Length] is from
    2^31 to 2^32 - 1 gives a negative residue, and with one byte behind the
    head in the same read [on_msgbuffer] does not return. *)
Theorem http_content_length_hangs (size fuel cap : nat) (hd b : list Z) (this : ParseUrl) (q : HttpParser.t)
    (buf : MessageBuffer.t) (Hsize : Z.of_nat size < 2 ^ 31) (Hhead : head_ok hd = true)
    (Hparse : HttpParser.parser hd (fresh this) = Done (true, q))
    (Hpost : HttpParser.method q = HttpParser.HTTP_POST)
    (Hlen : 2 ^ 31 <= HttpParser.contentLen q < 2 ^ 32) (Hb : b <> [])
    (Hidle : idle size buf) (Hfirst : (length (hd ++ b) <= size)%nat)
    (Hnul : 0 ∈ drop (length (hd ++ b)) (MessageBuffer.storage buf)) (Hcap : (length hd <= cap)%nat) :
  TcpSocketBase.receive (H := HttpConnect_handler grow) fuel [hd ++ b] buf (ready cap this) = OutOfFuel.
Proof.
  destruct (deliver_active size (hd ++ b) buf Hidle Hfirst Hsize) as (Hwf & Hact & Hl).
  assert (Hb0 : (0 < length b)%nat) by (destruct b; [done|cbn; lia]).
  cbn [TcpSocketBase.receive]. unfold TcpSocketBase.echo_read.
  destruct (Nat.eqb_spec (length (hd ++ b)) 0) as [E0|E0]; [rewrite length_app in E0; lia|].
  set (rb := MessageBuffer.WriteCompleted _ _) in *.
  assert (Hbuf : holds rb (hd ++ b)) by (split; [done|split; [done|lia]]).
  assert (Hrpos : MessageBuffer.rpos rb = 0%nat) by (destruct Hidle as (_ & Hr & _); exact Hr).
  assert (Hz : 0 ∈ drop (length (hd ++ b)) (MessageBuffer.storage rb)).
  { unfold rb, TcpSocketBase.deliver, MessageBuffer.WriteCompleted. cbn [MessageBuffer.storage]. by rewrite drop_app_exact. }
  change (TcpSock.on_msgbuffer fuel rb (ready cap this)) with (on_msgbuffer grow fuel rb (ready cap this)).
  destruct (GetActiveSize_i32 rb (hd ++ b) Hwf Hact ltac:(lia)) as (E & _).
  assert (Hres : body_len q < 0).
  { unfold body_len. rewrite Hpost, Z.eqb_refl. unfold sext. rewrite Z.mod_small by lia.
    rewrite (proj2 (Z.ltb_ge _ _)) by lia. lia. }
  destruct (holds_read rb (hd ++ b) (length hd) Hbuf) as [_ Hbuf']; [rewrite length_app; lia|].
  rewrite drop_app_exact in Hbuf'. destruct fuel as [|fuel]; [done|].
  cbn [on_msgbuffer]. rewrite E, (proj2 (Z.ltb_lt _ _)) by lia.
  unfold iteration at 1. change (m_content (ready cap this)) with (@None nat). cbv iota.
  rewrite (find_head_ok cap this hd b q) by done. unfold take_content.
  change (m_content (partial cap hd [] q)) with (Some (length hd)). cbv iota.
  change (m_residue (partial cap hd [] q)) with (body_len q - 0).
  rewrite (proj2 (Z.ltb_ge _ _)) by lia. change (m_residue (partial cap hd [] q)) with (body_len q - 0).
  rewrite (proj2 (Z.eqb_neq _ _)) by lia.
  rewrite (negative_residue_spins fuel _ _ b Hbuf' Hb); [done|by eexists|cbn [m_residue partial length Z.of_nat]; lia].
Qed.
End Request.

(** ** Concrete connections *)

(** The connection's buffer is that of [TcpSocket]'s default, its packet's
    vector has the 4096 bytes of [ByteBuffer::DEFAULT_SIZE]; a vector that is
    too small doubles. *)
Definition double (cap n : nat) : nat := Nat.max n (2 * cap).
Definition serve (reads : list (list Z)) : result (MessageBuffer.t * t * list event) :=
  TcpSocketBase.receive (H := HttpConnect_handler double) 10 reads
    (TcpSocketBase.create_buffer MessageBuffer.MESSAGE_BUFFER_SIZE) (create 4096).
Definition served (r : result (MessageBuffer.t * t * list event)) : option (list event * list Z) :=
  match r with
  | Done (_, s, evs) => Some (evs, ByteBuffer.storage (m_readPacket s))
  | _ => None
  end.

Definition post_head (n : string) : list Z :=
  chars "POST /a HTTP/1.1" ++ crlf ++ chars "Content-Length: " ++ chars n ++ crlf ++ crlf.
Definition get_head : list Z := chars "GET /a?b HTTP/1.1" ++ crlf ++ crlf.

(** The end of the head is looked for in one read at a time: when a read ends
    inside it, the request is kept but never answered. *)
Lemma http_split_head_lost : served (serve [chars "GET /a?b HTTP/1.1" ++ crlf; crlf]) = Some ([], get_head).
Proof. vm_compute. reflexivity. Qed.

(** The bytes behind the read are looked at too: a read of a part of a request
    is completed with what an earlier, longer one left in the buffer; more is
    then taken than there is, and the count of what is left wraps round. *)
Lemma http_stale_bytes_taken :
  match serve [get_head] with
  | Done (b, s, _) =>
      let part := chars "GET /c" in
      match iteration double (MessageBuffer.WriteCompleted (length part) (TcpSocketBase.deliver part b)) s with
      | Next b _ evs => evs = [OnGet (chars "/c") (chars "b")] /\ MessageBuffer.GetActiveSize b = 2 ^ 64 - 15
      | _ => False
      end
  | _ => False
  end.
Proof. vm_compute. split; reflexivity. Qed.

(** A body that does not fit the vector moves it, and the views of the head
    and of the body point to memory that was given back. *)
Lemma http_large_body_dangles :
  serve [post_head "4096"; replicate 4096 120] = Fault /\
  served (serve [post_head "4000"; replicate 4000 120]) = Some ([OnPost (chars "/a") (replicate 4000 120)], []).
Proof. split; vm_compute; reflexivity. Qed.

(** ** Witnesses *)

Definition parsed (hd : list Z) : HttpParser.t :=
  match HttpParser.parser hd (fresh ParseUrl_create) with Done (_, q) => q | _ => fresh ParseUrl_create end.
Definition small : MessageBuffer.t := TcpSocketBase.create_buffer 64.

Lemma small_idle : idle 64 small.
Proof. apply create_idle. Qed.

Lemma bytes_chunk_ok size d : d <> [] -> (length d <=? size)%nat = true ->
  forallb (fun c => (0 <=? c) && (c <? 256)) d = true -> chunk_ok size d.
Proof.
  intros Hne Hl%Nat.leb_le Hd. split; [done|]. split; [done|]. rewrite forallb_forall in Hd.
  apply Forall_forall. intros c [H1%Z.leb_le H2%Z.ltb_lt]%Hd%andb_true_iff. split; lia.
Qed.

(** Three bytes behind a head, the first with it. *)
Lemma http_request_delivered_witness :
  exists buf', TcpSocketBase.receive (H := HttpConnect_handler double) 2
      [post_head "3" ++ [120]; [121; 122]] small (ready 64 ParseUrl_create) =
      Done (buf', ready 64 (Llhttp.data (parsed (post_head "3"))), [OnPost (chars "/a") [120; 121; 122]]) /\
    idle 64 buf'.
Proof.
  apply (http_request_delivered double 64 2 64 (post_head "3") [120; 121; 122] [120] [[121; 122]] ParseUrl_create
    (parsed (post_head "3")) (OnPost (chars "/a") [120; 121; 122]) small).
  1-6: vm_compute; reflexivity.
  - apply small_idle.
  - apply Nat.leb_le. reflexivity.
  - vm_compute. left.
  - constructor; [|constructor]. apply bytes_chunk_ok; [discriminate|reflexivity|reflexivity].
  - apply Nat.leb_le. reflexivity.
  - lia.
Defined.

Lemma http_keep_alive_lost_witness :
  exists buf' s', TcpSocketBase.receive (H := HttpConnect_handler double) 2 [get_head ++ []] small (ready 64 ParseUrl_create) =
      Done (buf', s', [OnGet (chars "/a") (chars "b")]) /\ forall sq, fst (on_writecomplete s' sq) = true.
Proof.
  apply (http_keep_alive_lost double 64 2 64 get_head [] [] [] ParseUrl_create
    (parsed get_head) (OnGet (chars "/a") (chars "b")) small).
  1-7: vm_compute; reflexivity.
  - apply small_idle.
  - apply Nat.leb_le. reflexivity.
  - vm_compute. left.
  - constructor.
  - apply Nat.leb_le. reflexivity.
  - lia.
Defined.

Lemma http_content_length_hangs_witness :
  TcpSocketBase.receive (H := HttpConnect_handler double) 1000 [post_head "2147483648" ++ [120]] small
    (ready 64 ParseUrl_create) = OutOfFuel.
Proof.
  apply (http_content_length_hangs double 64 1000 64 (post_head "2147483648") [120] ParseUrl_create
    (parsed (post_head "2147483648")) small).
  1-4: vm_compute; reflexivity.
  - split; vm_compute; [discriminate|reflexivity].
  - discriminate.
  - apply small_idle.
  - apply Nat.leb_le. reflexivity.
  - vm_compute. left.
  - apply Nat.leb_le. reflexivity.
Defined.
End HttpConnProps.
