(* ===== verification/ThreadPool.v ===== *)
(** * ThreadPool: the pool of worker threads and its tasks

    src/common/ThreadPool.{h,cpp}, src/common/TQueue.h and the tasks of
    src/db/DBThreadPool.{h,cpp}.  The threads interleave: the main thread
    creates workers, adds tasks, collects finished ones and stops the pool;
    every worker runs [CThread::backfunc].  The queue between them is the
    third-party [moodycamel::ConcurrentQueue], known by its documented
    contract.  Here: the step relation; ThreadPoolProps has the theorems. *)
From stdpp Require Import gmap.
From S2P Require Import Prelude.

(** ** The queue *)
Module TQueue.

(** The contract of the queue: elements enqueued by one producer come out in
    order; a dequeue may fail, and can succeed when something is queued.
    [q_list q p] is what producer [p] has queued. *)
Class ConcurrentQueue (Q : Type) := {
  q_new : Q;
  q_list : Q -> nat -> list nat;
  q_enqueue : nat -> nat -> Q -> Q;
  q_try_dequeue : Q -> option nat -> Q -> Prop;
  q_new_list : forall p, q_list q_new p = [];
  q_enqueue_list : forall p x q p', q_list (q_enqueue p x q) p' =
    if decide (p = p') then q_list q p ++ [x] else q_list q p';
  q_dequeue_some : forall q x q', q_try_dequeue q (Some x) q' ->
    exists p, q_list q p = x :: q_list q' p /\ forall p', p' <> p -> q_list q' p' = q_list q p';
  q_dequeue_none : forall q q', q_try_dequeue q None q' -> forall p, q_list q' p = q_list q p;
  q_dequeue_ready : forall q p, q_list q p <> [] -> exists x q', q_try_dequeue q (Some x) q'
}.

(** [TQueue::push] and [TQueue::tryPop]. *)
Definition push {Q} `{ConcurrentQueue Q} (p x : nat) (q : Q) : Q := q_enqueue p x q.
Definition tryPop {Q} `{ConcurrentQueue Q} (q : Q) (r : option nat) (q' : Q) : Prop := q_try_dequeue q r q'.

(** A queue that meets the contract: one list per producer. *)
Abbreviation lists := (gmap nat (list nat)).

Inductive lists_dequeue (q : lists) : option nat -> lists -> Prop :=
| lists_some p x l : q !! p = Some (x :: l) -> lists_dequeue q (Some x) (<[p := l]> q)
| lists_none : lists_dequeue q None q.

#[global] Program Instance lists_queue : ConcurrentQueue lists := {
  q_new := ∅;
  q_list q p := default [] (q !! p);
  q_enqueue p x q := <[p := default [] (q !! p) ++ [x]]> q;
  q_try_dequeue := lists_dequeue
}.
Next Obligation. done. Qed.
Next Obligation.
  intros p x q p'. cbn. case_decide as E; [subst; by rewrite lookup_insert_eq|by rewrite lookup_insert_ne].
Qed.
Next Obligation.
  intros q x q' H. inversion H as [p ? l E|]; subst. exists p. rewrite lookup_insert_eq, E. split; [done|].
  intros p' Hp. by rewrite lookup_insert_ne.
Qed.
Next Obligation. intros q q' H p. inversion H; by subst. Qed.
Next Obligation.
  intros q p H. destruct (q !! p) as [[|x l]|] eqn:E; cbn in H; rewrite ?E in H; [done| |done].
  exists x. eexists. by eapply lists_some.
Qed.

End TQueue.

(** ** Tasks and threads *)
Module ThreadPool.
Import TQueue.

(** What the pool asks of a task: [process], run by a worker (its number is
    given, for what is its own, such as a database connection), and
    [complete], run by the main thread, with the calls it makes. *)
Class Task (A E : Type) := {
  process : nat -> A -> A;
  complete : A -> A * list E
}.

Section Pool.
Context {Q A E : Type} `{!ConcurrentQueue Q} `{!Task A E}.

(** Where a worker is in [backfunc]. *)
Inductive wpc :=
| Born                 (* in the first sleep *)
| AtWhile              (* at the test of [_isrun] *)
| Popping              (* at [popWaitTask] *)
| Idle                 (* in the sleep of an empty queue *)
| Running (t : nat)    (* at [run(task)] *)
| Pushing (t : nat)    (* at [_completeTasks.push(task)] *)
| Ending               (* at [onEnd] *)
| Finished.            (* the thread has ended *)

(** A [CThread]: [constructed] when its constructor, and those of its
    subclasses, have returned; only then [_isrun] has its value. *)
Record worker := mkworker { pc : wpc; isrun : bool; constructed : bool; deleted : bool }.

(** Where the main thread is. *)
Inductive mpc :=
| MIdle                          (* outside the pool *)
| MCreate (n : nat)              (* in [create], [n] threads left *)
| MCtor (i : nat) (n : nat)      (* in the constructor of thread [i], which runs *)
| MStop (l : list nat)           (* in [exit], at [stop] of the first thread *)
| MJoin (i : nat) (l : list nat). (* in [stop] of [i], at [join] *)

(** What has happened, in order. *)
Inductive event :=
| EAdd (t : nat) (a : A)
| EProcess (i t : nat)
| EComplete (t : nat)
| ECall (t : nat) (e : E).

Record pool := mkpool {
  workers : list worker;        (* every thread ever made *)
  threads : list nat;           (* [_threads] *)
  waits : Q;                    (* [_waitTasks] *)
  dones : Q;                    (* [_completeTasks] *)
  tasks : gmap nat A;           (* the task objects *)
  next : nat;                   (* the number of the next task *)
  main : mpc;
  log : list event;
  raced : bool                  (* a thread used its object before it was constructed *)
}.

Definition set_worker (i : nat) (w : worker) (s : pool) : pool :=
  mkpool (<[i := w]> (workers s)) (threads s) (waits s) (dones s) (tasks s) (next s) (main s) (log s) (raced s).
Definition set_main (c : mpc) (s : pool) : pool :=
  mkpool (workers s) (threads s) (waits s) (dones s) (tasks s) (next s) c (log s) (raced s).
Definition set_waits (q : Q) (s : pool) : pool :=
  mkpool (workers s) (threads s) q (dones s) (tasks s) (next s) (main s) (log s) (raced s).
Definition set_dones (q : Q) (s : pool) : pool :=
  mkpool (workers s) (threads s) (waits s) q (tasks s) (next s) (main s) (log s) (raced s).
Definition set_task (t : nat) (a : A) (s : pool) : pool :=
  mkpool (workers s) (threads s) (waits s) (dones s) (<[t := a]> (tasks s)) (next s) (main s) (log s) (raced s).
Definition add_log (es : list event) (s : pool) : pool :=
  mkpool (workers s) (threads s) (waits s) (dones s) (tasks s) (next s) (main s) (log s ++ es) (raced s).
Definition set_threads (l : list nat) (s : pool) : pool :=
  mkpool (workers s) l (waits s) (dones s) (tasks s) (next s) (main s) (log s) (raced s).
Definition set_raced (s : pool) : pool :=
  mkpool (workers s) (threads s) (waits s) (dones s) (tasks s) (next s) (main s) (log s) true.

Definition pool0 : pool := mkpool [] [] q_new q_new ∅ 0 MIdle [] false.

Definition at_pc (c : wpc) (w : worker) : worker := mkworker c (isrun w) (constructed w) (deleted w).

(** The queue producers: 0 is the main thread, [S i] worker [i]. *)
Definition main_producer : nat := 0.
Definition producer (i : nat) : nat := S i.

(** One step of worker [i], which is [w]: [backfunc]. *)
Inductive backfunc (i : nat) (w : worker) (s : pool) : pool -> Prop :=
| b_start : pc w = Born -> constructed w = true ->
    backfunc i w s (set_worker i (at_pc AtWhile w) s)
| b_early : pc w = Born -> constructed w = false ->
    (* [onStart] of the base class is called and [_isrun] read before it is set *)
    backfunc i w s (set_raced s)
| b_while : pc w = AtWhile ->
    backfunc i w s (set_worker i (at_pc (if isrun w then Popping else Ending) w) s)
| b_pop r q : pc w = Popping -> tryPop (waits s) r q ->
    backfunc i w s (set_worker i (at_pc (match r with Some t => Running t | None => Idle end) w) (set_waits q s))
| b_run t a : pc w = Running t -> tasks s !! t = Some a ->
    backfunc i w s (set_worker i (at_pc (Pushing t) w) (add_log [EProcess i t] (set_task t (process i a) s)))
| b_push t : pc w = Pushing t ->
    backfunc i w s (set_worker i (at_pc AtWhile w) (set_dones (push (producer i) t (dones s)) s))
| b_sleep : pc w = Idle -> backfunc i w s (set_worker i (at_pc AtWhile w) s)
| b_end : pc w = Ending -> backfunc i w s (set_worker i (at_pc Finished w) s).

(** One step of the main thread. *)
Inductive mainstep (s : pool) : pool -> Prop :=
| m_addTask a : main s = MIdle ->                                    (* ThreadPool::addTask *)
    mainstep s (mkpool (workers s) (threads s) (push main_producer (next s) (waits s)) (dones s)
                  (<[next s := a]> (tasks s)) (S (next s)) MIdle (log s ++ [EAdd (next s) a]) (raced s))
| m_update_none q : main s = MIdle -> tryPop (dones s) None q ->      (* ThreadPool::update *)
    mainstep s (set_dones q s)
| m_update t q a : main s = MIdle -> tryPop (dones s) (Some t) q -> tasks s !! t = Some a ->
    mainstep s (add_log (EComplete t :: (ECall t <$> snd (complete a))) (set_task t (fst (complete a)) (set_dones q s)))
| m_create n : main s = MIdle -> mainstep s (set_main (MCreate n) s)  (* ThreadPool::create *)
| m_created : main s = MCreate 0 -> mainstep s (set_main MIdle s)
| m_thread n : main s = MCreate (S n) ->                             (* the thread starts *)
    mainstep s (set_main (MCtor (length (workers s)) n)
      (mkpool (workers s ++ [mkworker Born true false false]) (threads s) (waits s) (dones s) (tasks s) (next s)
         (main s) (log s) (raced s)))
| m_constructed i n w : main s = MCtor i n -> workers s !! i = Some w ->
    mainstep s (set_main (MCreate n) (set_threads (threads s ++ [i])
      (set_worker i (mkworker (pc w) (isrun w) true (deleted w)) s)))
| m_exit : main s = MIdle -> mainstep s (set_main (MStop (threads s)) s)  (* ThreadPool::exit *)
| m_stop i l w : main s = MStop (i :: l) -> workers s !! i = Some w ->   (* CThread::stop *)
    mainstep s (set_main (MJoin i l) (set_worker i (mkworker (pc w) false (constructed w) (deleted w)) s))
| m_join i l w : main s = MJoin i l -> workers s !! i = Some w -> pc w = Finished ->
    mainstep s (set_main (MStop l) (set_worker i (mkworker Finished (isrun w) (constructed w) true) s))
| m_exited : main s = MStop [] -> mainstep s (set_main MIdle (set_threads [] s)).

(** A step of some thread; nothing is known of the program after a race. *)
Inductive step (s : pool) : pool -> Prop :=
| s_worker i w s' : raced s = false -> workers s !! i = Some w -> deleted w = false -> backfunc i w s s' -> step s s'
| s_main s' : raced s = false -> mainstep s s' -> step s s'.

Definition reachable (s : pool) : Prop := rtc step pool0 s.

(** The tasks processed and the tasks completed, in order. *)
Definition processed (s : pool) : list nat := omap (fun e => match e with EProcess _ t => Some t | _ => None end) (log s).
Definition completed (s : pool) : list nat := omap (fun e => match e with EComplete t => Some t | _ => None end) (log s).

(** What happened to task [t]: how it was added, the workers that processed
    it, its completions, the calls these made. *)
Definition adds (t : nat) (s : pool) : list A :=
  omap (fun e => match e with EAdd t' a => if decide (t' = t) then Some a else None | _ => None end) (log s).
Definition procs (t : nat) (s : pool) : list nat :=
  omap (fun e => match e with EProcess i t' => if decide (t' = t) then Some i else None | _ => None end) (log s).
Definition comps (t : nat) (s : pool) : list unit :=
  omap (fun e => match e with EComplete t' => if decide (t' = t) then Some tt else None | _ => None end) (log s).
Definition calls (t : nat) (s : pool) : list E :=
  omap (fun e => match e with ECall t' e => if decide (t' = t) then Some e else None | _ => None end) (log s).

End Pool.
End ThreadPool.

(** ** Database tasks *)
Module DBTask.
Import ThreadPool.

(** What the code asks of a database driver, for a worker's connection:
    [prepare] and [execute] of a statement and the error state. *)
Class DBDriver := {
  db_prepare : nat -> nat -> Z;          (* connection, statement *)
  db_execute : nat -> nat -> Z;
  db_errno : nat -> nat -> Z;
  db_error : nat -> nat -> list Z
}.

(** A [DBSqlTask] or [DBRedisTask]; the statement or command by its number. *)
Record dbtask := mkdbtask {
  issql : bool;
  command : nat;
  ret_ : Z;                       (* _ret *)
  errno_ : Z;                     (* _errno *)
  error_ : list Z;                (* _error *)
  backfunc_ : bool                (* a callback is set *)
}.

(** A call of the callback: the error number, the error text or NULL. *)
Record callback := mkcallback { c_errno : Z; c_error : option (list Z) }.

Section DB.
Context `{!DBDriver}.

Definition finish (c : nat) (r : Z) (k : dbtask) : dbtask :=
  if r <? 0 then mkdbtask (issql k) (command k) r (db_errno c (command k)) (db_error c (command k)) (backfunc_ k)
  else mkdbtask (issql k) (command k) r (errno_ k) (error_ k) (backfunc_ k).

(** [DBSqlTask::process] and [DBRedisTask::process]. *)
Definition db_process (c : nat) (k : dbtask) : dbtask :=
  if issql k then
    let r := db_prepare c (command k) in
    let r := if 0 <=? r then db_execute c (command k) else r in
    finish c r k
  else finish c (db_execute c (command k)) k.

(** [DBSqlTask::complete] and [DBRedisTask::complete]. *)
Definition db_complete (k : dbtask) : dbtask * list callback :=
  let str := if ret_ k <? 0 then Some (error_ k) else None in
  if backfunc_ k then
    (mkdbtask (issql k) (command k) (ret_ k) (errno_ k) (error_ k) false, [mkcallback (errno_ k) str])
  else (k, []).

#[global] Instance db_task : Task dbtask callback := { process := db_process; complete := db_complete }.

End DB.
End DBTask.
