(* ===== verification/ThreadPoolProps.v ===== *)
(** * ThreadPoolProps: what the thread pool guarantees

    Whatever the interleaving: no task is lost, run twice or completed twice;
    one worker keeps the order of the tasks; the tasks can always be driven
    to completion; after [exit] no thread runs.  The pool is used through the
    contract of its queue. *)
From stdpp Require Import gmap.
From S2P Require Import Prelude ThreadPool.

Module ThreadPoolProps.
Import TQueue ThreadPool.

Section Props.
Context {Q A E : Type} `{!ConcurrentQueue Q} `{!Task A E}.

#[local] Abbreviation pool := (@pool Q A E).
#[local] Abbreviation event := (@event A E).

(** ** Where a task is *)

Inductive status := Unborn | Waiting (p : nat) | Held (i : nat) | Ran (i : nat) | Done (p : nat) | Completed.

Definition waiting_at (x : status) : option nat := match x with Waiting p => Some p | _ => None end.
Definition done_at (x : status) : option nat := match x with Done p => Some p | _ => None end.

Definition upd (t : nat) (x : status) (st : nat -> status) : nat -> status :=
  fun t' => if decide (t' = t) then x else st t'.

Lemma upd_task_eq t x st : upd t x st t = x.
Proof. unfold upd. by rewrite decide_True. Qed.
Lemma upd_task_ne t t' x st : t' <> t -> upd t x st t' = st t'.
Proof. intros. unfold upd. by rewrite decide_False. Qed.

(** The queue [q] holds, once each, the tasks [f] places in it. *)
Definition tracks (q : Q) (f : nat -> option nat) : Prop :=
  forall p, NoDup (q_list q p) /\ forall t, t ∈ q_list q p <-> f t = Some p.

Lemma tracks_same q f f' : tracks q f -> (forall t, f' t = f t) -> tracks q f'.
Proof. intros H H0 p. destruct (H p) as [? Hp]. split; [done|]. intros t. by rewrite H0. Qed.

Lemma tracks_push q f f' p t : tracks q f -> f t = None -> f' t = Some p -> (forall t', t' <> t -> f' t' = f t') ->
  tracks (push p t q) f'.
Proof.
  intros H Hn Ht He p'. unfold push. rewrite q_enqueue_list. destruct (H p') as [Hd Hp].
  assert (t ∉ q_list q p') as Hnt by (rewrite Hp, Hn; done).
  assert (forall t', t' <> t -> t' ∈ q_list q p' <-> f' t' = Some p') as Hother.
  { intros t' Hne. by rewrite Hp, He. }
  case_decide as E0; [subst p'|].
  - split; [apply list.NoDup_app; split_and!; [done| |apply NoDup_singleton]|].
    { intros x Hx ->%list_elem_of_singleton. done. }
    intros t'. rewrite list.elem_of_app, list_elem_of_singleton. destruct (decide (t' = t)) as [->|Hne].
    + split; [done|]. by right.
    + rewrite Hother by done. split; [by intros [?|?]|by left].
  - split; [done|]. intros t'. destruct (decide (t' = t)) as [->|Hne]; [|by apply Hother].
    split; [done|]. congruence.
Qed.

Lemma tracks_pop q q' f t : tracks q f -> tryPop q (Some t) q' ->
  (exists p, f t = Some p) /\ forall f', f' t = None -> (forall t', t' <> t -> f' t' = f t') -> tracks q' f'.
Proof.
  intros H Hd. apply q_dequeue_some in Hd as (p & Hp & Ho). destruct (H p) as [Hnd Hin].
  assert (f t = Some p) as Ht by (apply Hin; rewrite Hp; left).
  split; [by exists p|]. intros f' Hn He p'. rewrite Hp in Hnd. apply list.NoDup_cons in Hnd as [Hnt Hnd].
  destruct (decide (p' = p)) as [->|Hne].
  - split; [done|]. intros t'. destruct (decide (t' = t)) as [->|Htt]; [rewrite Hn; by split|].
    rewrite He, <- Hin, Hp by done. rewrite elem_of_cons. split; [by right|]. by intros [?|?].
  - rewrite Ho by done. destruct (H p') as [Hd' Hin']. split; [done|]. intros t'.
    destruct (decide (t' = t)) as [->|Htt]; [|by rewrite He, Hin'].
    rewrite Hin', Hn, Ht. split; [congruence|done].
Qed.

Lemma tracks_pop_none q q' f : tracks q f -> tryPop q None q' -> tracks q' f.
Proof. intros H Hd p. rewrite (q_dequeue_none _ _ Hd p). apply H. Qed.

(** ** The invariant *)

(** What the log and the task object say of a task in a place. *)
Definition told (s : pool) (t : nat) (x : status) : Prop :=
  match x with
  | Unborn => adds t s = [] /\ procs t s = [] /\ comps t s = [] /\ calls t s = []
  | Waiting _ | Held _ => exists a, adds t s = [a] /\ procs t s = [] /\ comps t s = [] /\ calls t s = [] /\ tasks s !! t = Some a
  | Ran j => exists a i, adds t s = [a] /\ procs t s = [i] /\ comps t s = [] /\ calls t s = [] /\
      tasks s !! t = Some (process i a) /\ i = j
  | Done p => exists a i, adds t s = [a] /\ procs t s = [i] /\ comps t s = [] /\ calls t s = [] /\
      tasks s !! t = Some (process i a) /\ producer i = p
  | Completed => exists a i, adds t s = [a] /\ procs t s = [i] /\ comps t s = [tt] /\
      calls t s = snd (complete (process i a)) /\ is_Some (tasks s !! t)
  end.

Definition holds_task (w : worker) : option (nat * bool) :=
  match pc w with Running t => Some (t, false) | Pushing t => Some (t, true) | _ => None end.

Definition held_by (s : pool) (t i : nat) (b : bool) : Prop :=
  exists w, workers s !! i = Some w /\ holds_task w = Some (t, b).

Definition held_at (x : status) : option (nat * bool) :=
  match x with Held i => Some (i, false) | Ran i => Some (i, true) | _ => None end.

Record inv (s : pool) (st : nat -> status) : Prop := {
  inv_next : forall t, st t = Unborn <-> (next s <= t)%nat;
  inv_waits : tracks (waits s) (fun t => waiting_at (st t));
  inv_dones : tracks (dones s) (fun t => done_at (st t));
  inv_held : forall t i b, held_by s t i b <-> held_at (st t) = Some (i, b);
  inv_told : forall t, told s t (st t)
}.

Lemma inv0 : inv pool0 (fun _ => Unborn).
Proof.
  split; cbn; try done.
  - split; [lia|done].
  - intros p. rewrite q_new_list. split; [constructor|]. intros t. split; [by intros ?%elem_of_nil|done].
  - intros p. rewrite q_new_list. split; [constructor|]. intros t. split; [by intros ?%elem_of_nil|done].
  - intros t i b. split; [by intros (w & ? & ?)|done].
Qed.

(** Steps that change no task. *)
Lemma inv_frame s s' st : inv s st -> next s' = next s -> tracks (waits s') (fun t => waiting_at (st t)) ->
  tracks (dones s') (fun t => done_at (st t)) -> tasks s' = tasks s -> log s' = log s ->
  (forall t i b, held_by s' t i b <-> held_by s t i b) -> inv s' st.
Proof.
  intros [H1 H2 H3 H4 H5] Hn Hw Hd Ht Hl Hh. split; try done.
  - intros t. by rewrite Hn.
  - intros t i b. by rewrite Hh.
  - intros t. specialize (H5 t). unfold told, adds, procs, comps, calls in *. by rewrite Ht, Hl.
Qed.

Definition task_of (e : event) : nat :=
  match e with EAdd t _ | EProcess _ t | EComplete t | ECall t _ => t end.

Lemma told_other s s' es t x : log s' = log s ++ es -> tasks s' !! t = tasks s !! t ->
  Forall (fun e => task_of e <> t) es -> told s t x -> told s' t x.
Proof.
  intros Hl Ht Hes. unfold told, adds, procs, comps, calls. rewrite Hl, Ht, !omap_app.
  assert (forall {B} (f : event -> option B), (forall e, task_of e <> t -> f e = None) -> omap f es = []) as Hnone.
  { intros B f Hf. clear -Hes Hf. induction Hes as [|e es He Hes IH]; [done|]. cbn. by rewrite Hf. }
  rewrite !Hnone, !app_nil_r; [done|..]; intros []; cbn; intros; rewrite ?decide_False by done; done.
Qed.

(** Steps that move the task [t] to [x]. *)
Lemma inv_move s s' st t x es : inv s st -> x <> Unborn -> (forall t', (next s' <= t')%nat <-> (next s <= t')%nat /\ t' <> t) ->
  tracks (waits s') (fun t' => waiting_at (upd t x st t')) ->
  tracks (dones s') (fun t' => done_at (upd t x st t')) ->
  (forall t' i b, held_by s' t' i b <-> held_at (upd t x st t') = Some (i, b)) ->
  log s' = log s ++ es -> Forall (fun e => task_of e = t) es ->
  (forall t', t' <> t -> tasks s' !! t' = tasks s !! t') -> told s' t x -> inv s' (upd t x st).
Proof.
  intros [H1 H2 H3 H4 H5] Hx Hn Hw Hd Hh Hl Hes Ht Htold. split; try done.
  - intros t'. rewrite Hn. destruct (decide (t' = t)) as [->|Hne]; [rewrite upd_task_eq|rewrite upd_task_ne by done].
    + split; [done|]. by intros [_ ?].
    + rewrite H1. split; [done|]. by intros [? _].
  - intros t'. destruct (decide (t' = t)) as [->|Hne]; [by rewrite upd_task_eq|rewrite upd_task_ne by done].
    apply (told_other s s' es); [done|by apply Ht| |apply H5].
    apply (list.Forall_impl _ _ _ Hes). intros ev <-. congruence.
Qed.

(** The workers after a step of worker [i]; the others are as before. *)
Lemma held_insert s s' i w w' t j b : workers s !! i = Some w -> workers s' = <[i := w']> (workers s) ->
  held_by s' t j b <-> if decide (j = i) then holds_task w' = Some (t, b) else held_by s t j b.
Proof.
  intros Hi Hs. unfold held_by. rewrite Hs. case_decide as E0; [subst j|].
  - rewrite list_lookup_insert_eq by (by eapply lookup_lt_Some). split; [by intros (w0 & [= <-] & ?)|by exists w'].
  - rewrite list_lookup_insert_ne by done. done.
Qed.

Lemma held_same s s' i w w' t j b : workers s !! i = Some w -> workers s' = <[i := w']> (workers s) ->
  holds_task w' = holds_task w -> held_by s' t j b <-> held_by s t j b.
Proof.
  intros Hi Hs Hh. rewrite (held_insert s s' i w w') by done. case_decide; [subst|done].
  rewrite Hh. split; [by exists w|]. by intros (w0 & E0 & ?); simplify_eq.
Qed.

(** Worker [i], which held what [h] says, now holds what [x] says of [t]. *)
Lemma held_move s s' st i w w' t x : inv s st -> workers s !! i = Some w -> workers s' = <[i := w']> (workers s) ->
  (forall u c, holds_task w = Some (u, c) -> u = t) ->
  (forall u c, holds_task w' = Some (u, c) <-> u = t /\ held_at x = Some (i, c)) ->
  (forall j b, held_at x = Some (j, b) -> j = i) -> (forall j b, held_at (st t) = Some (j, b) -> j = i) ->
  forall t' j b, held_by s' t' j b <-> held_at (upd t x st t') = Some (j, b).
Proof.
  intros Hinv Hi Hs Ho Hn Hx Hst t' j b. rewrite (held_insert s s' i w w') by done.
  case_decide as E0; [subst j|].
  - rewrite Hn. destruct (decide (t' = t)) as [->|Hne]; [rewrite upd_task_eq; by split; [intros [_ ?]|]|rewrite upd_task_ne by done].
    split; [by intros [? _]|]. intros H. apply (inv_held _ _ Hinv) in H as (w0 & Hw0 & Hh). simplify_eq.
    by apply Ho in Hh.
  - rewrite (inv_held _ _ Hinv). destruct (decide (t' = t)) as [->|Hne]; [rewrite upd_task_eq|by rewrite upd_task_ne by done].
    split; intros H; [by apply Hst in H|by apply Hx in H].
Qed.

(** ** The five moves of a task *)

Definition after_add (a : A) (s : pool) : pool :=
  mkpool (workers s) (threads s) (push main_producer (next s) (waits s)) (dones s)
    (<[next s := a]> (tasks s)) (S (next s)) MIdle (log s ++ [EAdd (next s) a]) (raced s).
Definition after_pop (i : nat) (w : worker) (t : nat) (q : Q) (s : pool) : pool :=
  set_worker i (at_pc (Running t) w) (set_waits q s).
Definition after_run (i : nat) (w : worker) (t : nat) (a : A) (s : pool) : pool :=
  set_worker i (at_pc (Pushing t) w) (add_log [EProcess i t] (set_task t (process i a) s)).
Definition after_push (i : nat) (w : worker) (t : nat) (s : pool) : pool :=
  set_worker i (at_pc AtWhile w) (set_dones (push (producer i) t (dones s)) s).
Definition after_update (t : nat) (a : A) (q : Q) (s : pool) : pool :=
  add_log (EComplete t :: (ECall t <$> snd (complete a))) (set_task t (fst (complete a)) (set_dones q s)).

(** Evaluates [told] on a state whose log has grown. *)
Ltac tell := unfold told, adds, procs, comps, calls in *; cbn [log tasks set_worker set_waits set_dones set_task add_log
  after_add after_pop after_run after_push after_update]; rewrite ?omap_app; cbn [omap list_omap];
  rewrite ?(decide_True (P := _ = _)) by done; rewrite ?app_nil_r.

Lemma calls_of t (l : list E) :
  omap (fun e => match e with ECall t' e => if decide (t' = t) then Some e else None | _ => None end) (ECall (A := A) t <$> l) = l.
Proof. induction l as [|e l IH]; [done|]. cbn. rewrite decide_True by done. by rewrite IH. Qed.
Lemma no_adds t t' (l : list E) :
  omap (fun e : event => match e with EAdd t' a => if decide (t' = t) then Some a else None | _ => None end) (ECall t' <$> l) = [].
Proof. by induction l. Qed.
Lemma no_procs t t' (l : list E) :
  omap (fun e : event => match e with EProcess i t' => if decide (t' = t) then Some i else None | _ => None end) (ECall t' <$> l) = [].
Proof. by induction l. Qed.
Lemma no_comps t t' (l : list E) :
  omap (fun e : event => match e with EComplete t' => if decide (t' = t) then Some tt else None | _ => None end) (ECall t' <$> l) = [].
Proof. by induction l. Qed.

Lemma tracks_move q (f : status -> option nat) st t x : tracks q (fun t' => f (st t')) -> f (st t) = f x ->
  tracks q (fun t' => f (upd t x st t')).
Proof.
  intros H H0. apply (tracks_same _ _ _ H). intros t'. destruct (decide (t' = t)) as [->|]; [by rewrite upd_task_eq|by rewrite upd_task_ne].
Qed.

Lemma old_next s st t : inv s st -> st t <> Unborn -> forall t', (next s <= t')%nat <-> (next s <= t')%nat /\ t' <> t.
Proof.
  intros H Ht t'. split; [|by intros []]. intros Hl. split; [done|]. intros ->. by apply Ht, (inv_next _ _ H).
Qed.

Lemma inv_add s st a : inv s st -> inv (after_add a s) (upd (next s) (Waiting main_producer) st).
Proof.
  intros H. assert (st (next s) = Unborn) as Hu by (apply (inv_next _ _ H); lia).
  apply (inv_move s _ _ _ _ [EAdd (next s) a] H); try done.
  - intros t'. cbn. lia.
  - apply (tracks_push _ _ _ _ _ (inv_waits _ _ H)); [by rewrite Hu|by rewrite upd_task_eq|intros; by rewrite upd_task_ne].
  - apply (tracks_move _ done_at); [apply (inv_dones _ _ H)|by rewrite Hu].
  - intros t' i b. transitivity (held_by s t' i b); [done|]. rewrite (inv_held _ _ H).
    destruct (decide (t' = next s)) as [->|]; [rewrite upd_task_eq, Hu; done|by rewrite upd_task_ne].
  - by constructor.
  - intros t' Ht. cbn. by rewrite lookup_insert_ne.
  - pose proof (inv_told _ _ H (next s)) as Hold. rewrite Hu in Hold. destruct Hold as (H1 & H2 & H3 & H4).
    exists a. tell. rewrite H1, H2, H3, H4, lookup_insert_eq. done.
Qed.

Lemma inv_pop s st i w t q : inv s st -> workers s !! i = Some w -> holds_task w = None -> tryPop (waits s) (Some t) q ->
  (exists p, st t = Waiting p) /\ inv (after_pop i w t q s) (upd t (Held i) st).
Proof.
  intros H Hw Hh Hq. destruct (tracks_pop _ _ _ _ (inv_waits _ _ H) Hq) as [[p Hp] Hk].
  assert (st t = Waiting p) as Hst by (destruct (st t); cbn in Hp; congruence). split; [by exists p|].
  apply (inv_move s _ _ _ _ [] H); try done.
  - cbn. apply (old_next s st t H). by rewrite Hst.
  - apply Hk; [by rewrite upd_task_eq|intros; by rewrite upd_task_ne].
  - apply (tracks_move _ done_at); [apply (inv_dones _ _ H)|by rewrite Hst].
  - apply (held_move s _ st i w (at_pc (Running t) w)); try done.
    + rewrite Hh. done.
    + cbn. intros u c. split; [by intros [= <- <-]|by intros [-> [= ->]]].
    + cbn. by intros j b [= ->].
    + by rewrite Hst.
  - cbn. by rewrite app_nil_r.
  - pose proof (inv_told _ _ H t) as Hold. rewrite Hst in Hold. exact Hold.
Qed.

Lemma inv_run s st i w t a : inv s st -> workers s !! i = Some w -> pc w = Running t -> tasks s !! t = Some a ->
  st t = Held i /\ inv (after_run i w t a s) (upd t (Ran i) st).
Proof.
  intros H Hw Hpc Ha.
  assert (st t = Held i) as Hst.
  { assert (held_by s t i false) as Hb by (exists w; unfold holds_task; by rewrite Hpc).
    apply (inv_held _ _ H) in Hb. destruct (st t); cbn in Hb; congruence. }
  split; [done|]. apply (inv_move s _ _ _ _ [EProcess i t] H); try done.
  - cbn. apply (old_next s st t H). by rewrite Hst.
  - apply (tracks_move _ waiting_at); [apply (inv_waits _ _ H)|by rewrite Hst].
  - apply (tracks_move _ done_at); [apply (inv_dones _ _ H)|by rewrite Hst].
  - apply (held_move s _ st i w (at_pc (Pushing t) w)); try done.
    + unfold holds_task. rewrite Hpc. by intros u c [= <- <-].
    + cbn. intros u c. split; [by intros [= <- <-]|by intros [-> [= ->]]].
    + cbn. by intros j b [= ->].
    + rewrite Hst. cbn. by intros j b [= ->].
  - by constructor.
  - intros t' Ht. cbn. by rewrite lookup_insert_ne.
  - pose proof (inv_told _ _ H t) as Hold. rewrite Hst in Hold. destruct Hold as (a' & H1 & H2 & H3 & H4 & H5).
    rewrite H5 in Ha. injection Ha as ->.
    exists a, i. tell. rewrite H1, H2, H3, H4, lookup_insert_eq. done.
Qed.

Lemma inv_push s st i w t : inv s st -> workers s !! i = Some w -> pc w = Pushing t ->
  st t = Ran i /\ inv (after_push i w t s) (upd t (Done (producer i)) st).
Proof.
  intros H Hw Hpc.
  assert (st t = Ran i) as Hst.
  { assert (held_by s t i true) as Hb by (exists w; unfold holds_task; by rewrite Hpc).
    apply (inv_held _ _ H) in Hb. destruct (st t); cbn in Hb; congruence. }
  split; [done|]. apply (inv_move s _ _ _ _ [] H); try done.
  - cbn. apply (old_next s st t H). by rewrite Hst.
  - apply (tracks_move _ waiting_at); [apply (inv_waits _ _ H)|by rewrite Hst].
  - apply (tracks_push _ _ _ _ _ (inv_dones _ _ H)); [by rewrite Hst|by rewrite upd_task_eq|intros; by rewrite upd_task_ne].
  - apply (held_move s _ st i w (at_pc AtWhile w)); try done.
    + unfold holds_task. rewrite Hpc. by intros u c [= <- <-].
    + intros u c. cbn. split; [done|]. by intros [_ ?].
    + rewrite Hst. cbn. by intros j b [= ->].
  - cbn. by rewrite app_nil_r.
  - pose proof (inv_told _ _ H t) as Hold. rewrite Hst in Hold.
    destruct Hold as (a & j & H1 & H2 & H3 & H4 & H5 & ->). exists a, i. tell. done.
Qed.

Lemma inv_update s st t a q : inv s st -> tryPop (dones s) (Some t) q -> tasks s !! t = Some a ->
  (exists p, st t = Done p) /\ inv (after_update t a q s) (upd t Completed st).
Proof.
  intros H Hq Ha. destruct (tracks_pop _ _ _ _ (inv_dones _ _ H) Hq) as [[p Hp] Hk].
  assert (st t = Done p) as Hst by (destruct (st t); cbn in Hp; congruence). split; [by exists p|].
  apply (inv_move s _ _ _ _ (EComplete t :: (ECall t <$> snd (complete a))) H); try done.
  - cbn. apply (old_next s st t H). by rewrite Hst.
  - apply (tracks_move _ waiting_at); [apply (inv_waits _ _ H)|by rewrite Hst].
  - apply Hk; [by rewrite upd_task_eq|intros; by rewrite upd_task_ne].
  - intros t' i b. transitivity (held_by s t' i b); [done|]. rewrite (inv_held _ _ H).
    destruct (decide (t' = t)) as [->|]; [rewrite upd_task_eq, Hst; done|by rewrite upd_task_ne].
  - constructor; [done|]. apply list.Forall_fmap, list.Forall_true. done.
  - intros t' Ht. cbn. by rewrite lookup_insert_ne.
  - pose proof (inv_told _ _ H t) as Hold. rewrite Hst in Hold. destruct Hold as (a' & i & H1 & H2 & H3 & H4 & H5 & _).
    rewrite H5 in Ha. injection Ha as <-.
    exists a', i. tell. rewrite H1, H2, H3, H4, lookup_insert_eq, no_adds, no_procs, no_comps, calls_of. done.
Qed.

(** ** Every step keeps the invariant *)

Lemma inv_worker_frame s s' st i w w' : inv s st -> workers s !! i = Some w -> workers s' = <[i := w']> (workers s) ->
  holds_task w' = holds_task w -> next s' = next s -> tracks (waits s') (fun t => waiting_at (st t)) ->
  dones s' = dones s -> tasks s' = tasks s -> log s' = log s -> inv s' st.
Proof.
  intros H Hw Hs Hh Hn Hq Hd Ht Hl. apply (inv_frame s); try done.
  - rewrite Hd. apply (inv_dones _ _ H).
  - intros t j b. by apply (held_same s s' i w w').
Qed.

Lemma backfunc_inv s s' st i w : inv s st -> workers s !! i = Some w -> backfunc i w s s' -> exists st', inv s' st'.
Proof.
  intros H Hw Hb. inversion Hb as [Hp Hc|Hp Hc|Hp|r q Hp Hq|t a Hp Ha|t Hp|Hp|Hp]; subst s'.
  1, 3, 7, 8: exists st; eapply inv_worker_frame; try done; [unfold holds_task; rewrite Hp; cbn; by try destruct (isrun w)|by apply (inv_waits _ _ H)].
  - exists st. apply (inv_frame s); try done; by apply H.
  - destruct r as [t|].
    + eexists. apply (inv_pop s st i w t q); try done. unfold holds_task. by rewrite Hp.
    + exists st. eapply inv_worker_frame; try done; [unfold holds_task; by rewrite Hp|].
      eapply tracks_pop_none; [apply (inv_waits _ _ H)|done].
  - eexists. by apply (inv_run s st i w t a).
  - eexists. by apply (inv_push s st i w t).
Qed.

Lemma held_born s s' w t j b : workers s' = workers s ++ [w] -> holds_task w = None -> held_by s' t j b <-> held_by s t j b.
Proof.
  intros Hs Hw. unfold held_by. rewrite Hs. split; intros (w0 & H & Hh); exists w0.
  - apply lookup_app_Some in H as [?|[_ H]]; [done|]. apply list_lookup_singleton_Some in H as [_ <-]. congruence.
  - split; [by apply lookup_app_l_Some|done].
Qed.

Lemma main_inv s s' st : inv s st -> mainstep s s' -> exists st', inv s' st'.
Proof.
  intros H Hm. inversion Hm as [a Hp|q Hp Hq|t q a Hp Hq Ha|n Hp|Hp|n Hp|i n w Hp Hw|Hp|i l w Hp Hw|i l w Hp Hw Hf|Hp]; subst s'.
  4, 5, 8, 11: exists st; apply (inv_frame s); try done; by apply H.
  5, 6, 7: exists st; eapply inv_worker_frame; try done; try apply (inv_waits _ _ H).
  5: unfold holds_task; by rewrite Hf.
  - eexists. by apply inv_add.
  - exists st. apply (inv_frame s); try done; [by apply H|]. eapply tracks_pop_none; [apply (inv_dones _ _ H)|done].
  - eexists. by apply (inv_update s st t a q).
  - exists st. apply (inv_frame s); try done; [by apply H..|]. intros t j b. by eapply held_born.
Qed.

Lemma pool_step_inv s s' st : inv s st -> step s s' -> exists st', inv s' st'.
Proof. intros H Hs. inversion Hs as [i w ? _ Hw _ Hb|? _ Hm]; subst; [by eapply backfunc_inv|by eapply main_inv]. Qed.

(** An invariant of the steps holds of what is reachable. *)
Lemma reachable_ind (P : pool -> Prop) : P pool0 -> (forall s s', reachable s -> P s -> step s s' -> P s') ->
  forall s, reachable s -> P s.
Proof.
  intros H0 Hs. apply (rtc_ind_r P pool0); [done|]. intros s s' Hr Hst HP. by apply (Hs s).
Qed.

Lemma pool_reachable_inv s : reachable s -> exists st, inv s st.
Proof.
  revert s. apply reachable_ind; [eexists; apply inv0|]. intros s s' _ [st H] Hs. by eapply pool_step_inv.
Qed.

Lemma no_completes t (l : list E) :
  omap (fun e : event => match e with EComplete t => Some t | _ => None end) (ECall t <$> l) = [].
Proof. by induction l. Qed.

(** ** Exactly once *)

(** What is known of task [t] in a state the pool can be in. *)
Definition accounted (s : pool) (t : nat) : Prop :=
  ((next s <= t)%nat /\ adds t s = [] /\ procs t s = [] /\ comps t s = [] /\ calls t s = []) \/
  ((t < next s)%nat /\ exists a, adds t s = [a] /\
    ((procs t s = [] /\ comps t s = [] /\ calls t s = [] /\
       ((exists p, t ∈ q_list (waits s) p) \/ exists i w, workers s !! i = Some w /\ pc w = Running t)) \/
     (exists i, procs t s = [i] /\ comps t s = [] /\ calls t s = [] /\
       ((exists p, t ∈ q_list (dones s) p) \/ exists w, workers s !! i = Some w /\ pc w = Pushing t)) \/
     (exists i, procs t s = [i] /\ comps t s = [tt] /\ calls t s = snd (complete (process i a))))).

Lemma holds_running w t : holds_task w = Some (t, false) -> pc w = Running t.
Proof. unfold holds_task. destruct (pc w); congruence. Qed.
Lemma holds_pushing w t : holds_task w = Some (t, true) -> pc w = Pushing t.
Proof. unfold holds_task. destruct (pc w); congruence. Qed.

Lemma accounted_all s t : reachable s -> accounted s t.
Proof.
  intros [st H]%pool_reachable_inv. unfold accounted. pose proof (inv_next _ _ H t) as Hn. pose proof (inv_told _ _ H t) as Ht.
  pose proof (fun p => proj2 (proj2 (inv_waits _ _ H p) t)) as Hw.
  pose proof (fun p => proj2 (proj2 (inv_dones _ _ H p) t)) as Hd.
  pose proof (fun i b => proj2 (inv_held _ _ H t i b)) as Hh. cbv beta in Hw, Hd.
  destruct (decide (next s <= t)%nat) as [Hu|Hu].
  { left. rewrite (proj2 Hn Hu) in Ht. split; done. }
  right. split; [lia|].
  destruct (st t) as [|p|i|i|p|]; [by contradiction Hu; apply Hn|..]; cbn in Ht.
  - destruct Ht as (a & ? & ? & ? & ? & ?). exists a. split; [done|]. left. split_and!; try done. left. exists p. by apply Hw.
  - destruct Ht as (a & ? & ? & ? & ? & ?). exists a. split; [done|]. left. split_and!; try done. right.
    destruct (Hh i false eq_refl) as (w & ? & ?%holds_running). by exists i, w.
  - destruct Ht as (a & j & ? & ? & ? & ? & ? & ->). exists a. split; [done|]. right; left. exists i. split_and!; try done. right.
    destruct (Hh i true eq_refl) as (w & ? & ?%holds_pushing). by exists w.
  - destruct Ht as (a & j & ? & ? & ? & ? & ? & ?). exists a. split; [done|]. right; left. exists j. split_and!; try done. left.
    exists p. by apply Hd.
  - destruct Ht as (a & j & ? & ? & ? & ? & ?). exists a. split; [done|]. right; right. by exists j.
Qed.

(** C21.  Whatever the interleaving of the threads, every task that was added
    is accounted for: it waits or is being run, not yet processed; or one
    worker processed it, once, and it is on its way back; or it is completed,
    once, after it was processed, and the calls made on completion are those
    of the task as its worker left it.  No task is lost or run twice. *)
Theorem pool_once s t : reachable s -> accounted s t.
Proof. apply accounted_all. Qed.

(** ** One worker keeps the order *)

Definition in_hand (s : pool) : list nat :=
  match workers s !! 0%nat with
  | Some w => match pc w with Running t | Pushing t => [t] | _ => [] end
  | None => []
  end.

Definition in_order (s : pool) : Prop :=
  (length (workers s) <= 1)%nat ->
  (forall p, p <> main_producer -> q_list (waits s) p = []) /\
  (forall p, p <> producer 0 -> q_list (dones s) p = []) /\
  completed s ++ q_list (dones s) (producer 0) ++ in_hand s ++ q_list (waits s) main_producer = seq 0 (next s).

(** The tasks in hand after a step of a worker; there is only worker 0. *)
Lemma in_hand_eq (s s2 : pool) i w w' : (length (workers s) <= 1)%nat -> workers s !! i = Some w ->
  workers s2 = workers s -> i = 0%nat /\
  in_hand s = (match pc w with Running t | Pushing t => [t] | _ => [] end) /\
  in_hand (set_worker i w' s2) = (match pc w' with Running t | Pushing t => [t] | _ => [] end).
Proof.
  intros Hl Hw Hs. pose proof (lookup_lt_Some _ _ _ Hw) as Hi. assert (i = 0%nat) as -> by lia.
  unfold in_hand. cbn [workers set_worker]. rewrite Hs, Hw, list_lookup_insert_eq by done. done.
Qed.

Lemma completed_log (s s' : pool) es : log s' = log s ++ es -> completed s' =
  completed s ++ omap (fun e => match e with EComplete t => Some t | _ => None end) es.
Proof. intros Hl. unfold completed. by rewrite Hl, omap_app. Qed.

Lemma push_list p t (q : Q) p' : q_list (push p t q) p' = q_list q p' ++ (if decide (p = p') then [t] else []).
Proof. unfold push. rewrite q_enqueue_list. case_decide; [by subst|by rewrite app_nil_r]. Qed.

(** A pop from a queue that only [p] has fed. *)
Lemma pop_list p t (q q' : Q) : (forall p', p' <> p -> q_list q p' = []) -> tryPop q (Some t) q' ->
  q_list q p = t :: q_list q' p /\ forall p', p' <> p -> q_list q' p' = [].
Proof.
  intros Ho Hq. apply q_dequeue_some in Hq as (p0 & Hp & Hr).
  destruct (decide (p0 = p)) as [->|Hne]; [|by rewrite (Ho p0 Hne) in Hp].
  split; [done|]. intros p' Hp'. by rewrite Hr, Ho.
Qed.

Lemma backfunc_order s s' i w : in_order s -> workers s !! i = Some w -> backfunc i w s s' -> in_order s'.
Proof.
  intros H Hw Hb. pose proof (lookup_lt_Some _ _ _ Hw) as Hlt.
  inversion Hb as [Hp Hc|Hp Hc|Hp|r q Hp Hq|t a Hp Ha|t Hp|Hp|Hp]; subst s'; intros Hl;
    assert (length (workers s) <= 1)%nat as Hl0 by (revert Hl; cbn; rewrite ?length_insert; done);
    destruct (H Hl0) as (Hws & Hds & Hs).
  2: done.
  all: match goal with |- context [set_worker _ ?w' ?s2] =>
      destruct (in_hand_eq _ s2 _ _ w' Hl0 Hw eq_refl) as (-> & Hh & Hh') end;
    rewrite Hh, Hp in Hs; cbn [waits dones next set_worker set_waits set_dones set_task add_log].
  1, 2, 6, 7: split_and!; [done..|]; rewrite Hh'; cbn; try done; by destruct (isrun w).
  - destruct r as [t|]; cbn [pc at_pc] in Hh'; rewrite Hh'.
    + destruct (pop_list _ _ _ _ Hws Hq) as [Hl1 Hl2]. split_and!; [done..|]. rewrite <- Hs, Hl1. done.
    + split_and!; [|done|]; intros; rewrite (q_dequeue_none _ _ Hq); [by apply Hws|done].
  - split_and!; [done..|]. rewrite Hh'. rewrite (completed_log s _ [EProcess 0 t]), <- Hs by reflexivity.
    cbn [omap list_omap]. by rewrite app_nil_r.
  - split_and!; [done|intros p Hne; rewrite push_list, Hds, decide_False by done; done|].
    rewrite Hh', push_list, decide_True by done. rewrite <- Hs. cbn. by rewrite <- app_assoc.
Qed.

Lemma main_order s s' : in_order s -> mainstep s s' -> in_order s'.
Proof.
  intros H Hm.
  inversion Hm as [a Hp|q Hp Hq|t q a Hp Hq Ha|n Hp|Hp|n Hp|i n w Hp Hw|Hp|i l w Hp Hw|i l w Hp Hw Hf|Hp]; subst s';
    intros Hl; assert (length (workers s) <= 1)%nat as Hl0
      by (cbn in Hl; rewrite ?length_insert, ?length_app in Hl; cbn in *; lia);
    destruct (H Hl0) as (Hws & Hds & Hs).
  4, 5, 8, 11: done.
  5, 6, 7: match goal with |- context [set_worker _ ?w' ?s2] =>
      destruct (in_hand_eq _ s2 _ _ w' Hl0 Hw eq_refl) as (-> & Hh & Hh') end;
      rewrite Hh in Hs; split_and!; [done..|]; rewrite ?Hf in Hs; exact (eq_trans (f_equal (fun x => _ ++ _ ++ x ++ _) Hh') Hs).
  - split_and!; [|done|].
    + intros p Hne. cbn. rewrite push_list, Hws, decide_False by done. done.
    + cbn [waits dones next]. rewrite push_list, decide_True, (completed_log s _ [EAdd (next s) a]) by done.
      cbn [omap list_omap]. rewrite app_nil_r, seq_S, <- Hs. by rewrite <- !app_assoc.
  - split_and!; [done|..]; intros; cbn; rewrite (q_dequeue_none _ _ Hq); [by apply Hds|done].
  - destruct (pop_list _ _ _ _ Hds Hq) as [Hl1 Hl2]. split_and!; [done..|].
    rewrite (completed_log s _ (EComplete t :: (ECall t <$> snd (complete a)))) by reflexivity.
    cbn [omap list_omap next add_log set_task set_dones dones]. rewrite no_completes, <- Hs, Hl1. by rewrite <- !app_assoc.
  - split_and!; [done..|]. revert Hl Hs. unfold in_hand. cbn. by destruct (workers s) as [|w [|]]; [|cbn; lia..].
Qed.

Lemma all_in_order s : reachable s -> in_order s.
Proof.
  revert s. apply reachable_ind.
  - intros _. cbn. rewrite !q_new_list. split_and!; [intros; apply q_new_list..|done].
  - intros s s' _ H Hs. inversion Hs as [i w ? _ Hw _ Hb|? _ Hm]; subst; [by eapply backfunc_order|by eapply main_order].
Qed.

(** With one worker, tasks are completed in the order they were added:
    the completed ones are always an initial part of those added. *)
Theorem pool_fifo s : reachable s -> (length (workers s) <= 1)%nat ->
  exists n, (n <= next s)%nat /\ completed s = seq 0 n.
Proof.
  intros Hr Hl. destruct (all_in_order s Hr Hl) as (_ & _ & H). exists (length (completed s)).
  assert (length (completed s) <= next s)%nat as Hn by (apply (f_equal length) in H; rewrite length_app, length_seq in H; lia).
  split; [done|]. apply (f_equal (take (length (completed s)))) in H. rewrite take_app_length in H.
  rewrite H at 1. rewrite take_seq. f_equal. lia.
Qed.

(** ** The threads and their objects *)

Definition wf_worker (w : worker) : Prop :=
  (deleted w = true -> pc w = Finished) /\ (pc w = Ending \/ pc w = Finished -> isrun w = false).

(** Where a thread object that is not deleted is known to the main thread. *)
Definition known (c : mpc) (l : list nat) (i : nat) : Prop :=
  match c with
  | MStop l' => i ∈ l'
  | MJoin j l' => i = j \/ i ∈ l'
  | MCtor j _ => i = j \/ i ∈ l
  | _ => i ∈ l
  end.

Definition owned (s : pool) : Prop :=
  forall i w, workers s !! i = Some w -> wf_worker w /\ (deleted w = true \/ known (main s) (threads s) i).

(** A step that changes the worker [i] only. *)
Lemma owned_set (s s' : pool) i w w' : owned s -> workers s !! i = Some w -> workers s' = <[i := w']> (workers s) ->
  wf_worker w' -> (deleted w' = true \/ known (main s') (threads s') i) ->
  (forall j, j <> i -> known (main s) (threads s) j -> known (main s') (threads s') j) -> owned s'.
Proof.
  intros H Hw Hs Hwf Hk Ho j w0 Hj. rewrite Hs in Hj. destruct (decide (j = i)) as [->|Hne].
  - rewrite list_lookup_insert_eq in Hj by (by eapply lookup_lt_Some). by injection Hj as <-.
  - rewrite list_lookup_insert_ne in Hj by done. destruct (H j w0 Hj) as [? [?|?]]; split; auto.
Qed.

(** A step that changes no worker. *)
Lemma owned_keep (s s' : pool) : owned s -> workers s' = workers s ->
  (forall j, known (main s) (threads s) j -> known (main s') (threads s') j) -> owned s'.
Proof. intros H Hs Hk j w Hj. rewrite Hs in Hj. destruct (H j w Hj) as [? [?|?]]; auto. Qed.

Lemma backfunc_owned s s' i w : owned s -> workers s !! i = Some w -> deleted w = false -> backfunc i w s s' -> owned s'.
Proof.
  intros H Hw Hd Hb. destruct (H i w Hw) as [[Hwf Hwe] [Hk|Hk]]; [congruence|].
  inversion Hb as [Hp Hc|Hp Hc|Hp|r q Hp Hq|t a Hp Ha|t Hp|Hp|Hp]; subst s'.
  2: by apply (owned_keep s).
  all: eapply (owned_set s); [done|done|reflexivity| |by right|done]; split; cbn; rewrite ?Hd; try done.
  all: try (by intros [?|?]).
  - destruct (isrun w); [by intros [?|?]|done].
  - destruct r; by intros [?|?].
  - intros _. apply Hwe. by left.
Qed.

Lemma main_owned s s' : owned s -> mainstep s s' -> owned s'.
Proof.
  intros H Hm.
  inversion Hm as [a Hp|q Hp Hq|t q a Hp Hq Ha|n Hp|Hp|n Hp|i n w Hp Hw|Hp|i l w Hp Hw|i l w Hp Hw Hf|Hp]; subst s'.
  1-5, 8: apply (owned_keep s); [done..|]; intros j; cbn; rewrite ?Hp; done.
  - intros j w Hj. cbn in Hj. apply lookup_app_Some in Hj as [Hj|[Hle Hj]].
    + destruct (H j w Hj) as [? Hk]. rewrite Hp in Hk. split; [done|]. destruct Hk as [?|?]; [by left|by right; right].
    + apply list_lookup_singleton_Some in Hj as [Hj <-]. split; [split; [done|by intros [?|?]]|]. right. left. lia.
  - destruct (H i w Hw) as [Hwf _]. eapply (owned_set s); [done|done|reflexivity|done|..]; rewrite ?Hp; cbn.
    + right. set_solver.
    + intros j Hj. set_solver.
  - destruct (H i w Hw) as [[Hwf Hwe] _]. eapply (owned_set s); [done|done|reflexivity|done|..]; rewrite ?Hp; cbn.
    + right. by left.
    + intros j Hj Hin. apply elem_of_cons in Hin as [->|?]; [done|by right].
  - destruct (H i w Hw) as [[Hwf Hwe] _]. eapply (owned_set s); [done|done|reflexivity| | |]; rewrite ?Hp; cbn.
    + split; [done|]. intros _. apply Hwe. by right.
    + by left.
    + intros j Hj [?|?]; done.
  - intros j w Hj. destruct (H j w Hj) as [? [?|Hk]]; split; auto. rewrite Hp in Hk. by apply elem_of_nil in Hk.
Qed.

Lemma all_owned s : reachable s -> owned s.
Proof.
  revert s. apply reachable_ind.
  - intros i w Hi. done.
  - intros s s' _ H Hs. inversion Hs as [i w ? _ Hw Hd Hb|? _ Hm]; subst; [by eapply backfunc_owned|by eapply main_owned].
Qed.

(** C39.  When [exit] comes to its end every thread ever created has ended and
    its object is deleted, no thread of the pool takes another step, and at no
    time is the object of a thread deleted before that thread has ended. *)
Theorem exit_stops s : reachable s ->
  Forall (fun w => deleted w = true -> pc w = Finished) (workers s) /\
  (main s = MStop [] -> Forall (fun w => deleted w = true /\ pc w = Finished) (workers s) /\
     forall s', step s s' -> mainstep s s').
Proof.
  intros H%all_owned. split.
  - apply Forall_lookup. intros i w Hw. apply (H i w Hw).
  - intros Hm. assert (Forall (fun w => deleted w = true /\ pc w = Finished) (workers s)) as Hall.
    { apply Forall_lookup. intros i w Hw. destruct (H i w Hw) as [[Hwf _] [Hd|Hk]]; [by split; auto|].
      rewrite Hm in Hk. by apply elem_of_nil in Hk. }
    split; [done|]. intros s' Hs. inversion Hs as [i w ? _ Hw Hd _|]; [|done].
    rewrite Forall_lookup in Hall. destruct (Hall i w Hw). congruence.
Qed.

(** ** No task is stuck *)

Definition weight (x : status) : nat :=
  match x with Waiting _ => 4 | Held _ => 3 | Ran _ => 2 | Done _ => 1 | Unborn | Completed => 0 end.

Definition todo (st : nat -> status) (n : nat) : nat := sum_list_with (fun t => weight (st t)) (seq 0 n).

Lemma sum_upd t x st l : NoDup l -> t ∈ l -> (weight x < weight (st t))%nat ->
  (sum_list_with (fun u => weight (upd t x st u)) l < sum_list_with (fun t => weight (st t)) l)%nat.
Proof.
  intros Hd Ht Hw. assert (forall l, t ∉ l ->
    sum_list_with (fun t0 => weight (upd t x st t0)) l = sum_list_with (fun t0 => weight (st t0)) l) as Hsame.
  { clear. induction l as [|y l IH]; [done|]. intros Hn%not_elem_of_cons. cbn [sum_list_with]. rewrite upd_task_ne, IH by naive_solver. done. }
  induction l as [|y l IH]; [by apply elem_of_nil in Ht|]. apply list.NoDup_cons in Hd as [Hy Hd]. cbn [sum_list_with].
  apply elem_of_cons in Ht as [->|Ht].
  - rewrite upd_task_eq, Hsame by done. lia.
  - rewrite upd_task_ne by (intros ->; done). specialize (IH Hd Ht). lia.
Qed.

Lemma todo_upd t x st n : (t < n)%nat -> (weight x < weight (st t))%nat -> (todo (upd t x st) n < todo st n)%nat.
Proof. intros Ht. apply sum_upd; [apply NoDup_seq|]. apply elem_of_seq. lia. Qed.

(** The pool is at rest and worker [i] works. *)
Record ready (i : nat) (s : pool) : Prop := {
  ready_race : raced s = false;
  ready_main : main s = MIdle;
  ready_owned : owned s;
  ready_worker : exists w, workers s !! i = Some w /\ constructed w = true /\ isrun w = true
}.

(** The pool gets from [s] to [s'] with no new task and no change of rest. *)
Record moves (i : nat) (s s' : pool) : Prop := {
  moves_steps : rtc step s s';
  moves_ready : ready i s';
  moves_next : next s' = next s
}.

Lemma pool_moves_trans i s1 s2 s3 : moves i s1 s2 -> moves i s2 s3 -> moves i s1 s3.
Proof. intros [? _ ?] [? ? ?]. split; [by etransitivity|done|congruence]. Qed.

Lemma pool_moves_refl i s : ready i s -> moves i s s.
Proof. intros H. split; [apply rtc_refl|done|done]. Qed.

Lemma moves_worker i j w w' s s' : ready i s -> workers s !! j = Some w -> pc w <> Finished -> backfunc j w s s' ->
  workers s' = <[j := w']> (workers s) -> constructed w' = constructed w -> isrun w' = isrun w ->
  raced s' = raced s -> main s' = main s -> next s' = next s -> moves i s s'.
Proof.
  intros [Hr Hm Ho (wi & Hi & Hc & Hrun)] Hw Hp Hb Hs Hc' Hr' Hra Hma Hn. destruct (Ho j w Hw) as [[Hd _] _].
  assert (deleted w = false) as Hdel by (destruct (deleted w); [by rewrite Hd in Hp|done]).
  split; [apply rtc_once; by eapply s_worker| |done]. split; [congruence|congruence|by eapply backfunc_owned|].
  rewrite Hs. destruct (decide (j = i)) as [->|Hne].
  - exists w'. rewrite list_lookup_insert_eq by (by eapply lookup_lt_Some). split; [done|]. simplify_eq. by rewrite Hc', Hr'.
  - exists wi. by rewrite list_lookup_insert_ne.
Qed.

(** A step nearer to the end. *)
Definition nearer (i : nat) (s : pool) (st : nat -> status) : Prop :=
  exists s' st', moves i s s' /\ inv s' st' /\ (todo st' (next s) < todo st (next s))%nat.

Lemma born_lt s st t : inv s st -> st t <> Unborn -> (t < next s)%nat.
Proof. intros H Ht. destruct (decide (t < next s)%nat); [done|]. exfalso. apply Ht, (inv_next _ _ H). lia. Qed.

Lemma nearer_held i s st t j b : inv s st -> ready i s -> held_at (st t) = Some (j, b) -> nearer i s st.
Proof.
  intros H Hr Hh. assert (t < next s)%nat as Ht by (apply (born_lt s st); [done|by intros E0; rewrite E0 in Hh]).
  pose proof (proj2 (inv_held _ _ H t j b) Hh) as (w & Hw & Hb). destruct b.
  - apply holds_pushing in Hb as Hp. destruct (inv_push s st j w t H Hw Hp) as [Hst Hi].
    eexists _, _. split_and!; [|exact Hi|apply todo_upd; [done|by rewrite Hst; cbn; lia]].
    apply (moves_worker i j w (at_pc AtWhile w)); [done|done|by rewrite Hp|by apply b_push|done..].
  - apply holds_running in Hb as Hp. pose proof (inv_told _ _ H t) as Htold.
    destruct (st t) eqn:Hst; cbn in Hh; try done. destruct Htold as (a & _ & _ & _ & _ & Ha).
    destruct (inv_run s st j w t a H Hw Hp Ha) as [_ Hi].
    eexists _, _. split_and!; [|exact Hi|apply todo_upd; [done|by rewrite Hst; cbn; lia]].
    apply (moves_worker i j w (at_pc (Pushing t) w)); [done|done|by rewrite Hp|by apply b_run|done..].
Qed.

Lemma queue_pop (q : Q) p t : t ∈ q_list q p -> exists x q', tryPop q (Some x) q'.
Proof. intros Ht. apply (q_dequeue_ready q p). by intros E0; rewrite E0, elem_of_nil in Ht. Qed.

Lemma nearer_done i s st t p : inv s st -> ready i s -> st t = Done p -> nearer i s st.
Proof.
  intros H Hr Hd. destruct (queue_pop (dones s) p t) as (x & q & Hq); [apply (inv_dones _ _ H); by rewrite Hd|].
  destruct (tracks_pop _ _ _ _ (inv_dones _ _ H) Hq) as [[p' Hp'] _].
  pose proof (inv_told _ _ H x) as Htold. destruct (st x) as [| | | |p0|] eqn:Hst; try done.
  destruct Htold as (a & k & _ & _ & _ & _ & Ha & _).
  destruct (inv_update s st x (process k a) q H Hq Ha) as [_ Hi].
  eexists _, _. split_and!; [|exact Hi|apply todo_upd; [apply (born_lt s st); [done|by rewrite Hst]|by rewrite Hst; cbn; lia]].
  destruct Hr as [Hra Hma Ho Hw]. split; [|done..].
  apply rtc_once, s_main; [done|]. by apply m_update.
Qed.

(** A worker with no task comes to the queue. *)
Lemma comes_to_pop i s st : inv s st -> ready i s ->
  (exists t b, held_at (st t) = Some (i, b)) \/
  exists s' w, moves i s s' /\ inv s' st /\ workers s' !! i = Some w /\ pc w = Popping /\ waits s' = waits s.
Proof.
  intros H Hr. destruct (ready_worker _ _ Hr) as (w & Hw & Hc & Hrun).
  assert (forall s w, inv s st -> ready i s -> workers s !! i = Some w -> pc w = AtWhile -> isrun w = true ->
    exists s' w, moves i s s' /\ inv s' st /\ workers s' !! i = Some w /\ pc w = Popping /\ waits s' = waits s) as Hwhile.
  { clear. intros s w H Hr Hw Hp Hrun. exists (set_worker i (at_pc Popping w) s), (at_pc Popping w).
    assert (backfunc i w s (set_worker i (at_pc Popping w) s)) as Hb.
    { replace Popping with (if isrun w then Popping else Ending) by (by rewrite Hrun). by apply b_while. }
    split_and!; try done; [apply (moves_worker i i w (at_pc Popping w)); try done; by rewrite Hp| |].
    - eapply inv_worker_frame; try done; [unfold holds_task; by rewrite Hp|apply (inv_waits _ _ H)].
    - cbn. rewrite list_lookup_insert_eq by (by eapply lookup_lt_Some). done. }
  assert (holds_task w = None -> pc w <> Finished -> backfunc i w s (set_worker i (at_pc AtWhile w) s) ->
    exists s' w, moves i s s' /\ inv s' st /\ workers s' !! i = Some w /\ pc w = Popping /\ waits s' = waits s) as Hback.
  { intros Hh Hp Hb. assert (moves i s (set_worker i (at_pc AtWhile w) s)) as Hmv
      by (by apply (moves_worker i i w (at_pc AtWhile w))).
    destruct (Hwhile (set_worker i (at_pc AtWhile w) s) (at_pc AtWhile w)) as (s' & w' & Hm & Hrest); try done.
    - eapply inv_worker_frame; try done. apply (inv_waits _ _ H).
    - apply (moves_ready _ _ _ Hmv).
    - cbn. rewrite list_lookup_insert_eq by (by eapply lookup_lt_Some). done.
    - exists s', w'. split; [by eapply pool_moves_trans|done]. }
  destruct (ready_owned _ _ Hr i w Hw) as [[_ Hend] _].
  destruct (pc w) as [| | | |t|t| |] eqn:Hp.
  - right. apply Hback; [unfold holds_task; by rewrite Hp|done|by apply b_start].
  - right. by apply (Hwhile s w).
  - right. exists s, w. split_and!; try done.
  - right. apply Hback; [unfold holds_task; by rewrite Hp|done|by apply b_sleep].
  - left. exists t, false. apply (inv_held _ _ H). exists w. unfold holds_task. by rewrite Hp.
  - left. exists t, true. apply (inv_held _ _ H). exists w. unfold holds_task. by rewrite Hp.
  - rewrite Hend in Hrun; [done|by left].
  - rewrite Hend in Hrun; [done|by right].
Qed.

Lemma nearer_wait i s st t p : inv s st -> ready i s -> st t = Waiting p -> nearer i s st.
Proof.
  intros H Hr Ht. destruct (comes_to_pop i s st H Hr) as [(t' & b & Hh)|(s' & w & Hm & Hi & Hw & Hp & Hq)].
  { by eapply nearer_held. }
  destruct (queue_pop (waits s') p t) as (x & q & Hx); [apply (inv_waits _ _ Hi); by rewrite Ht|].
  destruct (inv_pop s' st i w x q Hi Hw) as [[p' Hst] Hi']; [unfold holds_task; by rewrite Hp|done|].
  eexists _, _. split_and!; [|exact Hi'|].
  - eapply pool_moves_trans; [exact Hm|]. apply (moves_worker i i w (at_pc (Running x) w)); try done.
    + apply (moves_ready _ _ _ Hm).
    + by rewrite Hp.
    + by apply (b_pop _ _ _ (Some x)).
  - apply todo_upd; [|rewrite Hst; cbn; lia]. rewrite <- (moves_next _ _ _ Hm). apply (born_lt s' st); [done|by rewrite Hst].
Qed.

Lemma drains i s st : inv s st -> ready i s -> exists s' st', moves i s s' /\ inv s' st' /\ todo st' (next s) = 0%nat.
Proof.
  remember (todo st (next s)) as n eqn:Hn. revert s st Hn.
  induction n as [n IH] using lt_wf_ind. intros s st Hn H Hr.
  destruct (decide (todo st (next s) = 0%nat)) as [Hz|Hz].
  { exists s, st. split; [by apply pool_moves_refl|done]. }
  assert (nearer i s st) as (s1 & st1 & Hm1 & Hi1 & Hlt).
  { assert (exists t, weight (st t) <> 0%nat) as [t Ht].
    { revert Hz. unfold todo. induction (seq 0 (next s)) as [|t l IHl]; [done|]. cbn [sum_list_with]. intros Hz.
      destruct (decide (weight (st t) = 0%nat)) as [E0|]; [apply IHl; lia|by exists t]. }
    destruct (st t) eqn:Hst; cbn in Ht; try lia; [by eapply nearer_wait| |by eapply nearer_held; try done; rewrite Hst|
      by eapply nearer_done]. eapply nearer_held; try done. by rewrite Hst. }
  destruct (IH (todo st1 (next s1)) ltac:(rewrite (moves_next _ _ _ Hm1); lia) s1 st1 eq_refl Hi1 (moves_ready _ _ _ Hm1))
    as (s2 & st2 & Hm2 & Hi2 & H2).
  exists s2, st2. split_and!; [by eapply pool_moves_trans|done|by rewrite <- (moves_next _ _ _ Hm1)].
Qed.

(** C25.  No task can get stuck: in any state the pool can be in, as long as
    one constructed thread has not been told to stop and the main thread is
    free, the threads can go on, with no new task, to a state where every task
    ever added is completed, exactly once. *)
Theorem pool_drains s i w : reachable s -> raced s = false -> main s = MIdle ->
  workers s !! i = Some w -> constructed w = true -> isrun w = true ->
  exists s', rtc step s s' /\ next s' = next s /\ forall t, (t < next s)%nat -> comps t s' = [tt].
Proof.
  intros Hr Hra Hm Hw Hc Hrun. destruct (pool_reachable_inv s Hr) as [st H].
  destruct (drains i s st H) as (s' & st' & Hmv & Hi & Hz); [split; eauto using all_owned|].
  exists s'. split_and!; [apply (moves_steps _ _ _ Hmv)|apply (moves_next _ _ _ Hmv)|].
  intros t Ht. pose proof (inv_told _ _ Hi t) as Htold.
  assert (st' t = Completed) as Hst; [|rewrite Hst in Htold; by destruct Htold as (a & k & _ & _ & ? & _)].
  assert (st' t <> Unborn) as Hb by (rewrite (inv_next _ _ Hi t), (moves_next _ _ _ Hmv); lia).
  assert (weight (st' t) = 0%nat) as H0.
  { revert Hz. unfold todo. assert (t ∈ seq 0 (next s)) as Hin by (apply elem_of_seq; lia). revert Hin. clear.
    induction (seq 0 (next s)) as [|u l IH]; [by intros ?%elem_of_nil|]. cbn [sum_list_with].
    intros [->|Hin]%elem_of_cons ?; [lia|apply IH; [done|lia]]. }
  destruct (st' t); cbn in H0; congruence.
Qed.

(** The constructor of the base class starts the thread before the object
    is complete: only the sleep at the start of [backfunc] keeps the thread
    from calling the virtual [onStart] and reading [_isrun] too early, and
    some interleaving does so. *)
Theorem thread_starts_early : exists s : pool, reachable s /\ raced s = true.
Proof.
  pose (s1 := set_main (MCreate 1) (@pool0 Q A E _)).
  pose (s2 := set_main (MCtor 0 0) (mkpool [mkworker Born true false false] [] (waits s1) (dones s1) (tasks s1) 0
    (main s1) (log s1) false)).
  exists (set_raced s2). split; [|done].
  apply (rtc_l _ _ s1); [apply s_main; [done|by apply m_create]|].
  apply (rtc_l _ _ s2); [apply s_main; [done|by apply (m_thread s1)]|].
  apply rtc_once. apply (s_worker s2 0 (mkworker Born true false false)); try done. by apply b_early.
Qed.

End Props.

(** ** Database tasks *)
Section DB.
Import DBTask.
Context {Q : Type} `{!ConcurrentQueue Q} `{!DBDriver}.

(**  The callback of a database task is called at most once, by the main
    thread, after a worker ran the statement on its own connection; it gets
    the driver's error number and text when, and only when, the statement
    failed there, and otherwise no text. *)
Theorem db_callback_once (s : @pool Q dbtask callback) t k : reachable s -> adds t s = [k] -> errno_ k = 0 ->
  (comps t s = [] /\ calls t s = []) \/
  (comps t s = [tt] /\ exists c, procs t s = [c] /\
     let r := if issql k then if 0 <=? db_prepare c (command k) then db_execute c (command k) else db_prepare c (command k)
              else db_execute c (command k) in
     calls t s = if backfunc_ k then
       [if r <? 0 then mkcallback (db_errno c (command k)) (Some (db_error c (command k))) else mkcallback 0 None] else []).
Proof.
  intros Hr Ha He. destruct (accounted_all s t Hr) as [(_ & Hn & _)|(_ & a & Hk & Hrest)]; [by rewrite Hn in Ha|].
  rewrite Hk in Ha. injection Ha as ->. destruct Hrest as [(_ & ? & ? & _)|[(i & _ & ? & ? & _)|(c & Hp & Hc & Hcalls)]];
    [by left..|]. right. split; [done|]. exists c. split; [done|]. cbv zeta. rewrite Hcalls.
  unfold complete, process, db_task, db_process, db_complete, finish. destruct k as [sql cmd ret en er bf]; cbn in He |- *.
  subst en. destruct sql; [destruct (0 <=? db_prepare c cmd)|]; 
    match goal with |- context [?x <? 0] => destruct (x <? 0) eqn:Hx end; cbn; rewrite ?Hx; by destruct bf.
Qed.

End DB.
(** ** A run *)
Module Demo.
Import DBTask.

(** A driver that fails command 1 with error 7. *)
#[local] Instance toy : DBDriver := {
  db_prepare _ _ := 0;
  db_execute _ k := if decide (k = 1%nat) then -1 else 0;
  db_errno _ _ := 7;
  db_error _ _ := [66; 65; 68]
}.

Definition failing : dbtask := mkdbtask true 1 0 0 [] true.

#[local] Abbreviation pool := (@pool lists dbtask callback).

(** The pool is created with one thread, a task is added, run and completed,
    the pool is stopped. *)
Definition s1 : pool := set_main (MCreate 1) pool0.
Definition s2 : pool := mkpool [mkworker Born true false false] [] q_new q_new ∅ 0 (MCtor 0 0) [] false.
Definition s3 : pool := mkpool [mkworker Born true true false] [0%nat] q_new q_new ∅ 0 (MCreate 0) [] false.
Definition s4 : pool := set_main MIdle s3.
Definition s5 : pool := after_add failing s4.
Definition work (c : wpc) (s : pool) : pool := set_worker 0 (mkworker c true true false) s.
Definition s6 : pool := work AtWhile s5.
Definition s7 : pool := work Popping s6.
Definition s8 : pool := work (Running 0) (set_waits (<[0%nat := []]> (waits s7)) s7).
Definition s9 : pool := work (Pushing 0) (add_log [EProcess 0 0] (set_task 0 (db_process 0 failing) s8)).
Definition s10 : pool := work AtWhile (set_dones (push (producer 0) 0 (dones s9)) s9).
Definition s11 : pool := after_update 0 (db_process 0 failing) (<[1%nat := []]> (dones s10)) s10.
Definition s12 : pool := set_main (MStop [0%nat]) s11.
Definition s13 : pool := set_main (MJoin 0 []) (set_worker 0 (mkworker AtWhile false true false) s12).
Definition s14 : pool := set_worker 0 (mkworker Ending false true false) s13.
Definition s15 : pool := set_worker 0 (mkworker Finished false true false) s14.
Definition s16 : pool := set_main (MStop []) (set_worker 0 (mkworker Finished false true true) s15).

Ltac by_main c := apply rtc_once, s_main; [reflexivity|]; eapply c.
Ltac by_worker c := apply rtc_once; eapply (s_worker _ 0); [reflexivity|reflexivity|reflexivity|]; eapply c.

Lemma reach5 : reachable s5.
Proof.
  unfold reachable. trans s1; [by by_main m_create|]. trans s2; [by by_main m_thread|].
  trans s3; [by by_main (m_constructed s2 0 0 (mkworker Born true false false))|].
  trans s4; [by by_main m_created|]. by by_main (m_addTask s4 failing).
Qed.

Lemma reach11 : reachable s11.
Proof.
  unfold reachable. trans s5; [apply reach5|]. trans s6; [by by_worker b_start|]. trans s7; [by by_worker b_while|].
  trans s8; [by_worker (b_pop 0 (mkworker Popping true true false) s7 (Some 0%nat)); [done|by apply (lists_some _ 0)]|].
  trans s9; [by by_worker (b_run 0 (mkworker (Running 0) true true false) s8 0 failing)|].
  trans s10; [by by_worker (b_push 0 (mkworker (Pushing 0) true true false) s9 0)|].
  by_main (m_update s10 0); [done|by apply (lists_some _ 1)|done].
Qed.

Lemma reach16 : reachable s16.
Proof.
  unfold reachable. trans s11; [apply reach11|]. trans s12; [by by_main m_exit|].
  trans s13; [by by_main (m_stop s12 0 [] (mkworker AtWhile true true false))|].
  trans s14; [by by_worker (b_while 0 (mkworker AtWhile false true false) s13)|].
  trans s15; [by by_worker (b_end 0 (mkworker Ending false true false) s14)|].
  by by_main (m_join s15 0 [] (mkworker Finished false true false)).
Qed.

Lemma pool_once_witness : reachable s11 /\ accounted s11 0.
Proof. split; [apply reach11|apply pool_once, reach11]. Defined.

Lemma pool_fifo_witness : completed s11 = [0%nat] /\
  exists n, (n <= next s11)%nat /\ completed s11 = seq 0 n.
Proof. split; [reflexivity|]. apply pool_fifo; [apply reach11|cbn; lia]. Defined.

Lemma exit_stops_witness : main s16 = MStop [] /\ workers s16 <> [] /\
  Forall (fun w => deleted w = true /\ pc w = Finished) (workers s16).
Proof. split; [reflexivity|split; [done|]]. apply (exit_stops s16); [apply reach16|reflexivity]. Defined.

Lemma pool_drains_witness : exists s', rtc step s5 s' /\ next s' = 1%nat /\ comps 0 s' = [tt].
Proof.
  destruct (pool_drains s5 0 (mkworker Born true true false)) as (s' & Hs & Hn & Hc);
    [apply reach5|reflexivity..|]. exists s'. split; [exact Hs|]. split; [exact Hn|]. apply Hc. cbn. lia.
Defined.

Lemma db_callback_once_witness : calls 0 s11 = [mkcallback 7 (Some [66; 65; 68])] /\
  ((comps 0 s11 = [] /\ calls 0 s11 = []) \/ comps 0 s11 = [tt]).
Proof.
  split; [reflexivity|]. destruct (db_callback_once s11 0 failing) as [?|[? _]];
    [apply reach11|reflexivity|reflexivity|by left|by right].
Defined.

End Demo.
End ThreadPoolProps.
