(* ===== verification/XLog.v ===== *)
(** * XLog: the log of all threads

    Models src/src/common/SpinLock.h, XLog.{h,cpp} and the directory part of
    XFile.cpp.  Every thread calls [writeFile] on the one [commonlog]; the
    threads interleave between the points where they touch what they share:
    the lock, the members of the log, and the buffer of [localtime], which
    they all use without the lock.  The file system is a type class.  [None] is
    undefined behaviour: an overrun array, a null [FILE *], a closed one.  The
    text [logstr] of a call is what [vsprintf] made of its arguments. *)
From Stdlib Require Import String Ascii.
From S2P Require Import Prelude StdNum.

(** ** The file system *)

(** What the log asks of it.  [content] is what a reader of a path finds,
    [opened] the path a [FILE *] was opened with, while it is open.  A file
    that is opened for appending takes what is written, at its end. *)
Class FileSystem (F : Type) := {
  isExist : list Z -> F -> bool;
  mkdir : list Z -> F -> F * bool;                 (* [true]: failed *)
  fopen : list Z -> F -> F * option nat;           (* mode a+ *)
  fclose : nat -> F -> F;
  fprintf : nat -> list Z -> F -> F * Z;
  content : list Z -> F -> list Z;
  opened : nat -> F -> option (list Z);
  mkdir_law : forall p f, let f' := fst (mkdir p f) in
    (forall q, content q f' = content q f) /\ forall h, opened h f' = opened h f;
  fopen_law : forall p f, let '(f', r) := fopen p f in
    (forall q, content q f' = content q f) /\
    match r with
    | None => forall h, opened h f' = opened h f
    | Some h => opened h f = None /\ opened h f' = Some p /\ forall h', h' <> h -> opened h' f' = opened h' f
    end;
  fclose_law : forall h f, is_Some (opened h f) -> let f' := fclose h f in
    (forall q, content q f' = content q f) /\ opened h f' = None /\ forall h', h' <> h -> opened h' f' = opened h' f;
  fprintf_law : forall h s f p, opened h f = Some p -> let '(f', n) := fprintf h s f in
    content p f' = content p f ++ s /\ (forall q, q <> p -> content q f' = content q f) /\
    (forall h', opened h' f' = opened h' f) /\ n = Z.of_nat (length s)
}.

Module XFile.
Section FS.
Context {F : Type} `{!FileSystem F}.

(** [XFile::createDirectory]: the loop; [tmp] is what [tmpDirPath] holds. *)
Fixpoint create_loop (path tmp : list Z) (f : F) : option (F * Z) :=
  match path with
  | [] => Some (f, 0)
  | c :: path =>
    if (256 <=? length tmp)%nat then None else
    let tmp := tmp ++ [c] in
    if (c =? 92) || (c =? 47) then
      if (256 <=? length tmp)%nat then None          (* not terminated *)
      else if isExist tmp f then create_loop path tmp f
      else let '(f, failed) := mkdir tmp f in
           if (failed : bool) then Some (f, -1) else create_loop path tmp f
    else create_loop path tmp f
  end.

Definition createDirectory (dir : list Z) (f : F) : option (F * Z) := create_loop dir [] f.

End FS.
End XFile.

(** ** The log *)
Module XLog.

Definition chars (s : string) : list Z := map (fun a => Z.of_N (N_of_ascii a)) (list_ascii_of_string s).

(** [struct tm], as far as it is used. *)
Record tm := mktm { tm_year : Z; tm_mon : Z; tm_mday : Z; tm_hour : Z; tm_min : Z; tm_sec : Z }.

(** The arguments of a call of [writeFile]. *)
Record call := mkcall { level : Z; filename : list Z; func : list Z; row : Z; logstr : list Z }.

Definition LL_INFO : Z := 0.
Definition LL_WARNING : Z := 1.
Definition LL_ERROR : Z := 2.

(** [%.2d] and [%d]. *)
Definition d2 (n : Z) : list Z := if (0 <=? n) && (n <? 10) then 48 :: StdNum.to_string_int n else StdNum.to_string_int n.
Definition d1 (n : Z) : list Z := StdNum.to_string_int n.

(** [sprintf] into an array of [n] characters. *)
Definition sprintf (n : nat) (s : list Z) : option (list Z) := if (length s <? n)%nat then Some s else None.

Definition day_name (t : tm) : option (list Z) :=
  sprintf 16 (d1 (i32 (tm_year t + 1900)) ++ chars "-" ++ d2 (i32 (tm_mon t + 1)) ++ chars "-" ++ d2 (tm_mday t) ++ chars "/").
Definition file_name (t : tm) : option (list Z) :=
  sprintf 16 (d2 (tm_hour t) ++ chars "." ++ d2 (tm_min t) ++ chars "." ++ d2 (tm_sec t) ++ chars ".log").
Definition clock_text (t : tm) : option (list Z) :=
  sprintf 12 (d2 (tm_hour t) ++ chars ":" ++ d2 (tm_min t) ++ chars ":" ++ d2 (tm_sec t)).

Definition level_text (level : Z) : list Z :=
  if level =? LL_INFO then chars "info" ++ [9]
  else if level =? LL_WARNING then chars "warning" ++ [9]
  else if level =? LL_ERROR then chars "error" ++ [9]
  else [].

(** [wstr] of a call at a time. *)
Definition line_of (t : tm) (c : call) : option (list Z) :=
  buff ← clock_text t;
  Some (buff ++ [9] ++ level_text (level c) ++ filename c ++ chars "|" ++ func c ++ chars "|" ++
        StdNum.to_string_int (row c) ++ [9] ++ logstr c ++ [10]).

(** [print]: what goes to the terminal. *)
Definition coloured (level : Z) (str : list Z) : list Z :=
  if level =? LL_WARNING then [27] ++ chars "[1;33;40m" ++ str ++ [27] ++ chars "[0m"
  else if level =? LL_ERROR then [27] ++ chars "[1;31;40m" ++ str ++ [27] ++ chars "[0m"
  else str.

(** Where a thread is in [writeFile], and the calls it has still to make; the
    first one is the current one. *)
Inductive pc :=
| Ready                      (* before [getTMStruct] *)
| Lock1                      (* at the first [AutoLock] *)
| Day                        (* with the lock, before the test of the day *)
| Size (newfile : bool)      (* with the lock, before the test of the size *)
| Test                       (* with the lock, before [if (!file) return] *)
| Format                     (* without the lock *)
| Print (line : list Z)
| Lock2 (line : list Z)      (* at the second [AutoLock] *)
| Write (line : list Z)      (* with the lock *)
| Unlock.                    (* with the lock, before the end of [writeFile] *)

Record thread := mkthread { at_ : pc; todo : list call }.

(** What became of a call: the line, and the file it was written to; or
    nothing, when there was no file. *)
Inductive event := Wrote (i : nat) (c : call) (path line : list Z) | Dropped (i : nat) (c : call).

Section Log.
Context {F : Type} `{!FileSystem F}.

(** The members of [XLog], the flag of its [SpinLock], the buffer of
    [localtime], the file system, the terminal, and what has happened. *)
Record world := mkworld {
  flag : bool;
  file : option nat;
  logdir : list Z;
  childdir : list Z;
  currdir : list Z;
  writeday : Z;
  maxsize : Z;
  currsize : Z;
  tm_ : tm;
  fs : F;
  terminal : list (list Z);
  threads : list thread;
  trace : list event
}.

Definition set_flag (b : bool) (w : world) : world :=
  mkworld b (file w) (logdir w) (childdir w) (currdir w) (writeday w) (maxsize w) (currsize w) (tm_ w) (fs w) (terminal w) (threads w) (trace w).
Definition set_tm (t : tm) (w : world) : world :=
  mkworld (flag w) (file w) (logdir w) (childdir w) (currdir w) (writeday w) (maxsize w) (currsize w) t (fs w) (terminal w) (threads w) (trace w).
Definition set_day (dir : list Z) (day : Z) (f : F) (w : world) : world :=
  mkworld (flag w) (file w) (logdir w) (childdir w) dir day (maxsize w) (currsize w) (tm_ w) f (terminal w) (threads w) (trace w).
Definition set_file (h : option nat) (size : Z) (f : F) (w : world) : world :=
  mkworld (flag w) h (logdir w) (childdir w) (currdir w) (writeday w) (maxsize w) size (tm_ w) f (terminal w) (threads w) (trace w).
Definition say (s : list Z) (w : world) : world :=
  mkworld (flag w) (file w) (logdir w) (childdir w) (currdir w) (writeday w) (maxsize w) (currsize w) (tm_ w) (fs w) (terminal w ++ [s]) (threads w) (trace w).
Definition note (e : event) (w : world) : world :=
  mkworld (flag w) (file w) (logdir w) (childdir w) (currdir w) (writeday w) (maxsize w) (currsize w) (tm_ w) (fs w) (terminal w) (threads w) (trace w ++ [e]).
Definition set_thread (i : nat) (t : thread) (w : world) : world :=
  mkworld (flag w) (file w) (logdir w) (childdir w) (currdir w) (writeday w) (maxsize w) (currsize w) (tm_ w) (fs w) (terminal w) (<[i := t]> (threads w)) (trace w).

(** [SpinLock::lock], one [test_and_set]: [None] when it must go round again;
    [unlock]. *)
Definition test_and_set (w : world) : option world := if flag w then None else Some (set_flag true w).
Definition unlock : world -> world := set_flag false.

(** [XLog::closefile]. *)
Definition closefile (w : world) : world :=
  match file w with Some h => set_file None 0 (fclose h (fs w)) w | None => w end.

(** The test of the day: the world and [newfile]. *)
Definition new_day (w : world) : option (world * bool) :=
  let newfile := match file w with None => true | Some _ => false end in
  if negb (tm_mday (tm_ w) =? writeday w) then
    dirname ← day_name (tm_ w);
    let dir := logdir w ++ dirname ++ childdir w in
    '(f, _) ← XFile.createDirectory dir (fs w);
    Some (set_day dir (tm_mday (tm_ w)) f w, true)
  else Some (w, newfile).

(** The test of the size. *)
Definition new_file (newfile : bool) (w : world) : option world :=
  if newfile || (maxsize w <=? currsize w) then
    let w := closefile w in
    dirname ← file_name (tm_ w);
    let '(f, h) := fopen (currdir w ++ dirname) (fs w) in
    Some (set_file h (currsize w) f w)
  else Some w.

(** [currsize += fprintf(file, ...)], for thread [i]. *)
Definition write_line (i : nat) (c : call) (line : list Z) (w : world) : option world :=
  h ← file w;
  path ← opened h (fs w);
  let '(f, n) := fprintf h line (fs w) in
  Some (note (Wrote i c path line) (set_file (Some h) (u32 (currsize w + n)) f w)).

(** Thread [i], which is at [p] in call [c], takes a step; [now] is the time,
    if it asks for it.  [goto]: where it is then. *)
Definition advance (i : nat) (now : tm) (p : pc) (c : call) (cs : list call) (w : world) : option world :=
  let goto p w := set_thread i (mkthread p (c :: cs)) w in
  match p with
  | Ready => Some (goto Lock1 (set_tm now w))
  | Lock1 => Some (match test_and_set w with Some w => goto Day w | None => w end)
  | Day => '(w, newfile) ← new_day w; Some (goto (Size newfile) w)
  | Size newfile => w ← new_file newfile w; Some (goto Test w)
  | Test =>
    match file w with
    | None => Some (note (Dropped i c) (set_thread i (mkthread Ready cs) (unlock w)))
    | Some _ => Some (goto Format (unlock w))
    end
  | Format => line ← line_of (tm_ w) c; Some (goto (Print line) w)
  | Print line => Some (goto (Lock2 line) (say (coloured (level c) line) w))
  | Lock2 line => Some (match test_and_set w with Some w => goto (Write line) w | None => w end)
  | Write line => w ← write_line i c line w; Some (set_thread i (mkthread Unlock cs) w)
  | Unlock => None
  end.

(** A step of thread [i]; one that has nothing to do stays where it is. *)
Definition step (i : nat) (now : tm) (w : world) : option world :=
  match threads w !! i with
  | None => Some w
  | Some t =>
    match at_ t, todo t with
    | Unlock, cs => Some (set_thread i (mkthread Ready cs) (unlock w))
    | _, [] => Some w
    | p, c :: cs => advance i now p c cs w
    end
  end.

(** A schedule: whose turn it is, and the time then. *)
Fixpoint run (sched : list (nat * tm)) (w : world) : option world :=
  match sched with
  | [] => Some w
  | (i, now) :: sched => w ← step i now w; run sched w
  end.

(** [XLog::XLog] and [init], and threads that have calls to make. *)
Definition init (rootdir child : list Z) (maxsize : Z) (f : F) (calls : list (list call)) : option world :=
  '(f, _) ← XFile.createDirectory rootdir f;
  Some (mkworld false None (rootdir ++ chars "/") (child ++ chars "/") [] 0 maxsize 0 (mktm 0 0 0 0 0 0) f [] (mkthread Ready <$> calls) []).

End Log.
End XLog.
