(* ===== verification/XLogProps.v ===== *)
(** * XLogProps: what the log keeps

    As long as [fopen] opens what it is asked to, whatever the
    interleaving: the lock excludes, no closed or null file is written to,
    every call writes one whole line, in the order of its thread, and the
    threads can always finish.  When a file cannot be opened, a thread that
    has passed the test of the file is left with none. *)
From Stdlib Require Import String.
From S2P Require Import Prelude StdNum XLog.

Module XLogProps.
Import XLog.

(** ** The texts fit their arrays *)

(** What [localtime] can give. *)
Definition tm_ok (t : tm) : Prop :=
  0 <= tm_year t + 1900 <= 9999 /\ 0 <= tm_mon t <= 11 /\ 1 <= tm_mday t <= 31 /\
  0 <= tm_hour t <= 23 /\ 0 <= tm_min t <= 59 /\ 0 <= tm_sec t <= 60.

Lemma decide_below (P : Z -> bool) n x : forallb (fun k => P (Z.of_nat k)) (seq 0 n) = true -> 0 <= x < Z.of_nat n -> P x = true.
Proof.
  intros H Hx. rewrite forallb_forall in H. specialize (H (Z.to_nat x)). rewrite Z2Nat.id in H by lia. apply H, in_seq. lia.
Qed.

Lemma d2_length n : 0 <= n < 100 -> (length (d2 n) <= 2)%nat.
Proof. intros H. apply Nat.leb_le. revert n H. intros n. by apply (decide_below (fun n => (length (d2 n) <=? 2)%nat) 100). Qed.

Lemma d1_length n : 0 <= n <= 9999 -> (length (d1 n) <= 4)%nat.
Proof.
  intros H. apply Nat.leb_le. apply (decide_below (fun n => (length (d1 n) <=? 4)%nat) (Z.to_nat 10000)); [vm_compute; reflexivity|lia].
Qed.

Lemma sprintf_ok n s : (length s < n)%nat -> sprintf n s = Some s.
Proof. intros H. unfold sprintf. by rewrite (proj2 (Nat.ltb_lt _ _) H). Qed.

Lemma day_name_ok t : tm_ok t -> exists s, day_name t = Some s /\ (length s <= 11)%nat.
Proof.
  intros (Hy & Hm & Hd & _). unfold day_name. rewrite !sext_small by (unfold in_i; lia).
  pose proof (d1_length _ Hy). pose proof (d2_length (tm_mon t + 1) ltac:(lia)). pose proof (d2_length (tm_mday t) ltac:(lia)).
  eexists. split; [apply sprintf_ok|]; rewrite !length_app; cbn; lia.
Qed.

Lemma file_name_ok t : tm_ok t -> exists s, file_name t = Some s.
Proof.
  intros (_ & _ & _ & Hh & Hm & Hs). unfold file_name.
  pose proof (d2_length (tm_hour t) ltac:(lia)). pose proof (d2_length (tm_min t) ltac:(lia)). pose proof (d2_length (tm_sec t) ltac:(lia)).
  eexists. apply sprintf_ok. rewrite !length_app. cbn. lia.
Qed.

Lemma line_of_ok t c : tm_ok t -> exists line, line_of t c = Some line.
Proof.
  intros (_ & _ & _ & Hh & Hm & Hs). unfold line_of, clock_text.
  pose proof (d2_length (tm_hour t) ltac:(lia)). pose proof (d2_length (tm_min t) ltac:(lia)). pose proof (d2_length (tm_sec t) ltac:(lia)).
  rewrite sprintf_ok; [by eexists|]. rewrite !length_app. cbn. lia.
Qed.

(** ** What has happened *)

Definition calls_of (i : nat) (l : list event) : list call :=
  omap (fun e => match e with Wrote j c _ _ | Dropped j c => if decide (j = i) then Some c else None end) l.
Definition lines_in (p : list Z) (l : list event) : list (list Z) :=
  omap (fun e => match e with Wrote _ _ q line => if decide (q = p) then Some line else None | Dropped _ _ => None end) l.

(** A line is that of its call, at a time. *)
Definition event_ok (e : event) : Prop :=
  match e with Wrote _ c _ line => exists now, tm_ok now /\ line_of now c = Some line | Dropped _ _ => False end.

Section Log.
Context {F : Type} `{!FileSystem F}.

(** [closefile] and [createDirectory] change no text. *)
Lemma closefile_ok (w : world (F := F)) : (forall h, file w = Some h -> is_Some (opened h (fs w))) ->
  file (closefile w) = None /\ (forall p, content p (fs (closefile w)) = content p (fs w)) /\
  flag (closefile w) = flag w /\ tm_ (closefile w) = tm_ w /\ threads (closefile w) = threads w /\ trace (closefile w) = trace w /\
  logdir (closefile w) = logdir w /\ childdir (closefile w) = childdir w /\ currdir (closefile w) = currdir w.
Proof.
  intros Ho. unfold closefile. destruct (file w) as [h|] eqn:E; [|done]. destruct (fclose_law h (fs w)) as (Hc & _); [by apply Ho|].
  split_and!; done.
Qed.

Lemma create_loop_ok path : forall tmp (f : F), (length tmp + length path < 256)%nat ->
  exists f' r, XFile.create_loop path tmp f = Some (f', r) /\
    (forall p, content p f' = content p f) /\ forall h, opened h f' = opened h f.
Proof.
  induction path as [|c path IH]; intros tmp f Hl; cbn [XFile.create_loop length] in *; [by exists f, 0|].
  rewrite (proj2 (Nat.leb_gt 256 (length tmp))) by lia.
  assert (Hl' : (length (tmp ++ [c]) + length path < 256)%nat) by (rewrite length_app; cbn; lia).
  rewrite (proj2 (Nat.leb_gt 256 (length (tmp ++ [c])))) by lia.
  destruct ((c =? 92) || (c =? 47)); [|by apply IH]. destruct (isExist _ f); [by apply IH|].
  pose proof (mkdir_law (tmp ++ [c]) f) as [Hc Ho]. destruct (mkdir (tmp ++ [c]) f) as [f1 []]; cbn in Hc, Ho; [by exists f1, (-1)|].
  destruct (IH (tmp ++ [c]) f1 Hl') as (f' & r & E & Hc' & Ho'). exists f', r. split; [done|].
  split; intros x; [by rewrite Hc', Hc|by rewrite Ho', Ho].
Qed.

(** ** The invariant *)

Definition holds (p : pc) : bool := match p with Day | Size _ | Test | Write _ | Unlock => true | _ => false end.
Definition needs_file (p : pc) : bool :=
  match p with Size false | Test | Format | Print _ | Lock2 _ | Write _ => true | _ => false end.
Definition the_line (p : pc) : option (list Z) :=
  match p with Print line | Lock2 line | Write line => Some line | _ => None end.

(** What holds of a thread, given the file and the time. *)
Record thread_ok (h : option nat) (now : tm) (t : thread) : Prop := {
  t_file : needs_file (at_ t) = true -> h <> None;
  t_time : at_ t <> Ready -> tm_ok now;
  t_line : forall line, the_line (at_ t) = Some line -> exists c cs now, todo t = c :: cs /\ tm_ok now /\ line_of now c = Some line;
  t_todo : at_ t <> Ready -> at_ t <> Unlock -> todo t <> []
}.

Context (calls0 : list (list call)) (fs0 : F).

Record inv (w : world (F := F)) : Prop := {
  i_excl : forall i j ti tj, threads w !! i = Some ti -> threads w !! j = Some tj ->
    holds (at_ ti) = true -> holds (at_ tj) = true -> i = j;
  i_flag : flag w = true <-> exists i t, threads w !! i = Some t /\ holds (at_ t) = true;
  i_open : forall h, file w = Some h -> is_Some (opened h (fs w));
  i_threads : forall i t, threads w !! i = Some t -> thread_ok (file w) (tm_ w) t;
  i_calls : forall i, calls0 !! i = (fun t => calls_of i (trace w) ++ todo t) <$> threads w !! i;
  i_content : forall p, content p (fs w) = content p fs0 ++ concat (lines_in p (trace w));
  i_trace : Forall event_ok (trace w);
  i_dir : (length (logdir w) + length (childdir w) < 245)%nat
}.

(** A step of thread [i] from [t] to [t']: what it takes to keep the
    invariant. *)
Definition lock_step (w w' : world (F := F)) (t t' : thread) : Prop :=
  (holds (at_ t') = holds (at_ t) /\ flag w' = flag w) \/
  (flag w = false /\ holds (at_ t') = true /\ flag w' = true) \/
  (holds (at_ t) = true /\ holds (at_ t') = false /\ flag w' = false).

Record moves (i : nat) (t t' : thread) (es : list event) (w w' : world (F := F)) : Prop := {
  m_threads : threads w' = <[i := t']> (threads w);
  m_lock : lock_step w w' t t';
  m_file : file w <> None -> file w' <> None;
  m_open : forall h, file w' = Some h -> is_Some (opened h (fs w'));
  m_time : tm_ w' = tm_ w \/ tm_ok (tm_ w');
  m_thread : thread_ok (file w') (tm_ w') t';
  m_trace : trace w' = trace w ++ es /\ Forall event_ok es;
  m_calls : todo t = calls_of i es ++ todo t' /\ forall j, j <> i -> calls_of j es = [];
  m_content : forall p, content p (fs w') = content p (fs w) ++ concat (lines_in p es);
  m_dir : logdir w' = logdir w /\ childdir w' = childdir w
}.

Lemma lock_step_inv i t t' (w w' : world (F := F)) : inv w -> threads w !! i = Some t -> threads w' = <[i := t']> (threads w) ->
  lock_step w w' t t' ->
  (forall i j ti tj, threads w' !! i = Some ti -> threads w' !! j = Some tj ->
    holds (at_ ti) = true -> holds (at_ tj) = true -> i = j) /\
  (flag w' = true <-> exists i t, threads w' !! i = Some t /\ holds (at_ t) = true).
Proof.
  intros Hw Ht Eth Hl. pose proof (lookup_lt_Some _ _ _ Ht) as Hlt.
  (* who holds the lock afterwards *)
  assert (forall j tj, threads w' !! j = Some tj -> j <> i -> threads w !! j = Some tj) as Hother.
  { intros j tj Hj Hne. rewrite Eth, list_lookup_insert_ne in Hj by done. done. }
  assert (threads w' !! i = Some t') as Hi by (rewrite Eth; by apply list_lookup_insert_eq).
  assert (Hkeep : forall j tj, threads w !! j = Some tj -> j <> i -> threads w' !! j = Some tj).
  { intros j tj Hj Hne. by rewrite Eth, list_lookup_insert_ne. }
  destruct Hl as [[Eh Ef]|[(Ef & Eh & Ef')|(Eh & Eh' & Ef')]].
  - split.
    + intros a b ta tb Ha Hb Hha Hhb. destruct (decide (a = i)) as [->|Hna], (decide (b = i)) as [->|Hnb]; [done|..];
        repeat match goal with H : threads w' !! i = Some ?x |- _ => rewrite Hi in H; injection H as <- end.
      * eapply (i_excl w Hw i b t tb); eauto; congruence.
      * eapply (i_excl w Hw a i ta t); eauto; congruence.
      * eapply (i_excl w Hw a b ta tb); eauto.
    + rewrite Ef, (i_flag w Hw). split; intros (a & ta & Ha & Hha); (destruct (decide (a = i)) as [->|Hna]).
      * exists i, t'. split; [done|]. congruence.
      * exists a, ta. eauto.
      * rewrite Hi in Ha. injection Ha as <-. exists i, t. split; [done|congruence].
      * exists a, ta. eauto.
  - assert (forall j tj, threads w !! j = Some tj -> holds (at_ tj) = false) as Hnone.
    { intros j tj Hj. destruct (holds (at_ tj)) eqn:E; [|done]. assert (flag w = true) by (apply (i_flag w Hw); by exists j, tj). congruence. }
    split; [|split; [|done]].
    + intros a b ta tb Ha Hb Hha Hhb. destruct (decide (a = i)) as [->|Hna], (decide (b = i)) as [->|Hnb]; [done|..].
      * rewrite (Hnone b tb) in Hhb by eauto. done.
      * rewrite (Hnone a ta) in Hha by eauto. done.
      * rewrite (Hnone a ta) in Hha by eauto. done.
    + intros _. by exists i, t'.
  - assert (forall j tj, threads w' !! j = Some tj -> holds (at_ tj) = false) as Hnone.
    { intros j tj Hj. destruct (decide (j = i)) as [->|Hne]; [rewrite Hi in Hj; by injection Hj as <-|].
      destruct (holds (at_ tj)) eqn:E; [|done]. exfalso. apply Hne. eapply (i_excl w Hw j i tj t); eauto. }
    split.
    + intros a b ta tb Ha Hb Hha Hhb. by rewrite (Hnone a ta Ha) in Hha.
    + rewrite Ef'. split; [done|]. intros (a & ta & Ha & Hha). by rewrite (Hnone a ta Ha) in Hha.
Qed.

Lemma moves_inv i t t' es (w w' : world (F := F)) : inv w -> threads w !! i = Some t -> moves i t t' es w w' -> inv w'.
Proof.
  intros Hw Ht M. pose proof (lookup_lt_Some _ _ _ Ht) as Hlt. destruct M.
  destruct (lock_step_inv i t t' w w' Hw Ht m_threads0 m_lock0) as [He Hf].
  destruct m_trace0 as [Etr Hok], m_calls0 as [Ec Eo], m_dir0 as [Ed1 Ed2].
  split; [done|done|done| | | | |].
  - intros j tj Hj. rewrite m_threads0 in Hj. destruct (decide (j = i)) as [->|Hne].
    + rewrite list_lookup_insert_eq in Hj by done. by injection Hj as <-.
    + rewrite list_lookup_insert_ne in Hj by done. destruct (i_threads w Hw j tj Hj) as [H1 H2 H3 H4]. split; [by auto| |done|done].
      intros Hn. destruct m_time0 as [->|?]; auto.
  - intros j. rewrite m_threads0, (i_calls w Hw j), Etr. unfold calls_of. rewrite omap_app. destruct (decide (j = i)) as [->|Hne].
    + rewrite list_lookup_insert_eq, Ht by done. cbn. rewrite Ec, <- app_assoc. done.
    + rewrite list_lookup_insert_ne by done. specialize (Eo j Hne). unfold calls_of in Eo. by rewrite Eo, app_nil_r.
  - intros p. rewrite m_content0, (i_content w Hw p), Etr. unfold lines_in. by rewrite omap_app, concat_app, app_assoc.
  - rewrite Etr. apply list.Forall_app. split; [apply (i_trace w Hw)|done].
  - rewrite Ed1, Ed2. apply (i_dir w Hw).
Qed.

(** ** A step *)

(** The next step of thread [i] is a call of [fopen] that fails. *)
Definition refused (i : nat) (w : world (F := F)) : bool :=
  match threads w !! i with
  | Some (mkthread (Size newfile) (_ :: _)) =>
    (newfile || (maxsize w <=? currsize w)) &&
    match file <$> new_file newfile w with Some None => true | _ => false end
  | _ => false
  end.

(** No call of [fopen] fails along a schedule. *)
Fixpoint all_open (sched : list (nat * tm)) (w : world (F := F)) : bool :=
  match sched with
  | [] => true
  | (i, now) :: sched => negb (refused i w) && match step i now w with Some w => all_open sched w | None => true end
  end.

(** What a thread has still to do. *)
Definition index (p : pc) : nat :=
  match p with
  | Ready | Unlock => 0 | Lock1 => 1 | Day => 2 | Size _ => 3 | Test => 4 | Format => 5 | Print _ => 6 | Lock2 _ => 7 | Write _ => 8
  end.
Definition work (t : thread) : nat :=
  (10 * length (todo t) + (match at_ t with Unlock => 1 | _ => 0 end) - index (at_ t))%nat.

Ltac moves_split := split; cbn; try done; try (by left); try (split; [by rewrite app_nil_r|done]).

(** A step that does not touch file, file system and trace. *)
Lemma moves_quiet i t p' (w w' : world (F := F)) : inv w -> threads w !! i = Some t -> todo t <> [] ->
  threads w' = <[i := mkthread p' (todo t)]> (threads w) -> lock_step w w' t (mkthread p' (todo t)) ->
  file w' = file w -> fs w' = fs w -> trace w' = trace w -> logdir w' = logdir w -> childdir w' = childdir w ->
  (tm_ w' = tm_ w /\ at_ t <> Ready \/ tm_ok (tm_ w')) -> p' <> Unlock ->
  (needs_file p' = true -> file w <> None) ->
  (forall line, the_line p' = Some line -> exists c cs now, todo t = c :: cs /\ tm_ok now /\ line_of now c = Some line) ->
  moves i t (mkthread p' (todo t)) [] w w'.
Proof.
  intros Hw Ht Hne Eth Hl Ef Es Etr Ed Ec Htm Hu Hf Hline. pose proof (i_threads w Hw i t Ht) as [_ T2 _ _].
  split; try done.
  - by rewrite Ef.
  - intros h. rewrite Ef, Es. apply (i_open w Hw).
  - destruct Htm as [[? _]|?]; auto.
  - split; cbn; [by rewrite Ef| |done|done]. intros _. destruct Htm as [[-> ?]|?]; auto.
  - by rewrite app_nil_r.
  - intros p. cbn. by rewrite Es, app_nil_r.
Qed.

Lemma day_moves i t (w : world (F := F)) : inv w -> threads w !! i = Some t -> at_ t = Day ->
  exists w1 newfile, new_day w = Some (w1, newfile) /\
    moves i t (mkthread (Size newfile) (todo t)) [] w (set_thread i (mkthread (Size newfile) (todo t)) w1).
Proof.
  intros Hw Ht Hat. pose proof (i_threads w Hw i t Ht) as [_ T2 _ T4]. rewrite Hat in T2, T4.
  assert (tm_ok (tm_ w)) as Htm by by apply T2. assert (todo t <> []) as Hne by by apply T4.
  unfold new_day. destruct (negb (tm_mday (tm_ w) =? writeday w)).
  - destruct (day_name_ok (tm_ w) Htm) as (s & -> & Hs). cbn [mbind option_bind]. pose proof (i_dir w Hw).
    destruct (create_loop_ok (logdir w ++ s ++ childdir w) [] (fs w)) as (f & r & E & Hc & Ho); [rewrite !length_app; cbn; lia|].
    unfold XFile.createDirectory. rewrite E. cbn [mbind option_bind]. eexists _, true. split; [done|].
    moves_split; [left; by rewrite Hat| |].
    + intros h Hh. rewrite Ho. by apply (i_open w Hw).
    + intros p. by rewrite Hc, app_nil_r.
  - eexists w, _. split; [done|]. apply moves_quiet; try done; cbn; [left; by rewrite Hat|left; by rewrite Hat|].
    by destruct (file w).
Qed.

Lemma size_moves i t newfile (w : world (F := F)) : refused i w = false -> inv w -> threads w !! i = Some t -> at_ t = Size newfile ->
  exists w1, new_file newfile w = Some w1 /\
    moves i t (mkthread Test (todo t)) [] w (set_thread i (mkthread Test (todo t)) w1).
Proof.
  intros Hopen Hw Ht Hat. pose proof (i_threads w Hw i t Ht) as [T1 T2 _ T4]. rewrite Hat in T1, T2, T4.
  assert (tm_ok (tm_ w)) as Htm by by apply T2. assert (todo t <> []) as Hne by by apply T4.
  unfold refused in Hopen. rewrite Ht in Hopen. destruct t as [p cs]. cbn [at_ todo] in *. subst p.
  destruct cs as [|c0 cs]; [done|].
  unfold new_file in *. destruct (newfile || (maxsize w <=? currsize w)) eqn:En; cbn [andb] in Hopen.
  - destruct (closefile_ok w (i_open w Hw)) as (Hnone & Hc & Efl & Etm & Eth & Etr & Ed1 & Ed2 & Ecd).
    rewrite Etm in *. destruct (file_name_ok (tm_ w) Htm) as (s & Es). rewrite Es in *. cbn [mbind option_bind] in *.
    pose proof (fopen_law (currdir (closefile w) ++ s) (fs (closefile w))) as Hlaw.
    destruct (fopen _ _) as [f [h|]]; [|done]. destruct Hlaw as (Hcont & _ & Hop & _). eexists. split; [done|].
    moves_split; [by rewrite Eth| | |].
    + intros h' [= <-]. by eexists.
    + split; cbn; try done. by rewrite Etm.
    + intros p. by rewrite Hcont, Hc, app_nil_r.
  - exists w. split; [done|]. apply (moves_quiet i (mkthread (Size newfile) (c0 :: cs)) Test); try done; cbn; [by left|by left|].
    intros _. apply orb_false_iff in En as [-> _]. by apply T1.
Qed.

Lemma write_moves i t line c cs (w : world (F := F)) : inv w -> threads w !! i = Some t -> at_ t = Write line -> todo t = c :: cs ->
  exists w1 path, write_line i c line w = Some w1 /\
    moves i t (mkthread Unlock cs) [Wrote i c path line] w (set_thread i (mkthread Unlock cs) w1).
Proof.
  intros Hw Ht Hat Htd. pose proof (i_threads w Hw i t Ht) as [T1 T2 T3 _]. rewrite Hat in T1, T2, T3.
  unfold write_line. destruct (file w) as [h|] eqn:Eh; [|exfalso; by apply T1]. cbn [mbind option_bind].
  destruct (i_open w Hw h Eh) as [path Hp]. rewrite Hp. cbn [mbind option_bind].
  pose proof (fprintf_law h line (fs w) path Hp) as Hlaw. destruct (fprintf h line (fs w)) as [f n].
  destruct Hlaw as (Hc & Hc' & Ho & _). eexists _, path. split; [done|].
  destruct (T3 line eq_refl) as (c' & cs' & now & Etd & Hnow & Hline). rewrite Htd in Etd. injection Etd as <- <-.
  moves_split.
  - left. by rewrite Hat.
  - intros h' [= <-]. rewrite Ho. by eexists.
  - split; cbn; try done. intros _. by apply T2.
  - split; [done|]. constructor; [by exists now|constructor].
  - rewrite decide_True by done. split; [done|]. intros j Hj. by rewrite decide_False.
  - intros p. destruct (decide (path = p)) as [<-|Hne]; cbn; [by rewrite app_nil_r, Hc|]. rewrite Hc' by done. by rewrite app_nil_r.
Qed.

Lemma unlock_moves i cs (w : world (F := F)) : inv w -> threads w !! i = Some (mkthread Unlock cs) ->
  moves i (mkthread Unlock cs) (mkthread Ready cs) [] w (set_thread i (mkthread Ready cs) (unlock w)).
Proof.
  intros Hw Ht. moves_split; [by right; right|apply (i_open w Hw)|].
  intros p. by rewrite app_nil_r.
Qed.

(** A thread has nothing to do, or waits for the lock. *)
Definition waits (w : world (F := F)) (t : thread) : Prop :=
  work t = 0%nat \/ (flag w = true /\ holds (at_ t) = false).

Lemma step_moves i now (w : world (F := F)) t : refused i w = false -> inv w -> tm_ok now -> threads w !! i = Some t ->
  exists w', step i now w = Some w' /\
    ((w' = w /\ waits w t) \/ exists t' es, moves i t t' es w w' /\ (work t' < work t)%nat).
Proof.
  intros Hopen Hw Hnow Ht. pose proof (i_threads w Hw i t Ht) as [T1 T2 T3 T4]. unfold step. rewrite Ht.
  destruct t as [p [|c cs]]; cbn [at_ todo] in *.
  { destruct p; try (exfalso; by apply T4); [by exists w; split; [|left; split; [|left]]|].
    eexists. split; [done|]. right. eexists _, []. split; [by apply unlock_moves|unfold work; cbn; lia]. }
  destruct p; cbn [advance].
  - eexists. split; [done|]. right. eexists _, []. split; [apply (moves_quiet i (mkthread Ready (c :: cs)) Lock1); try done; cbn; [by left|by right]|unfold work; cbn; lia].
  - unfold test_and_set. destruct (flag w) eqn:Ef.
    + exists w. split; [done|]. left. split; [done|]. by right.
    + eexists. split; [done|]. right. eexists _, [].
      split; [apply (moves_quiet i (mkthread Lock1 (c :: cs)) Day); try done; cbn; [by right; left|by left]|unfold work; cbn; lia].
  - destruct (day_moves i _ w Hw Ht eq_refl) as (w1 & nf & E & M). rewrite E. cbn [mbind option_bind]. eexists. split; [done|].
    right. eexists _, []. split; [exact M|unfold work; cbn; lia].
  - destruct (size_moves i _ newfile w Hopen Hw Ht eq_refl) as (w1 & E & M). rewrite E. cbn [mbind option_bind]. eexists. split; [done|].
    right. eexists _, []. split; [exact M|unfold work; cbn; lia].
  - destruct (file w) as [h|] eqn:Eh; [|exfalso; by apply T1]. eexists. split; [done|]. right. eexists _, [].
    split; [apply (moves_quiet i (mkthread Test (c :: cs)) Format); try done; cbn; [by right; right|by left|by rewrite Eh]|unfold work; cbn; lia].
  - destruct (line_of_ok (tm_ w) c (T2 ltac:(done))) as (line & E). rewrite E. cbn [mbind option_bind]. eexists. split; [done|]. right. eexists _, [].
    split; [apply (moves_quiet i (mkthread Format (c :: cs)) (Print line)); try done; cbn; [by left|by left|]|unfold work; cbn; lia].
    intros l [= <-]. exists c, cs, (tm_ w). split_and!; [done| |done]. by apply T2.
  - eexists. split; [done|]. right. eexists _, [].
    split; [apply (moves_quiet i (mkthread (Print line) (c :: cs)) (Lock2 line)); try done; cbn; by left|unfold work; cbn; lia].
  - unfold test_and_set. destruct (flag w) eqn:Ef.
    + exists w. split; [done|]. left. split; [done|]. by right.
    + eexists. split; [done|]. right. eexists _, [].
      split; [apply (moves_quiet i (mkthread (Lock2 line) (c :: cs)) (Write line)); try done; cbn; [by right; left|by left]|unfold work; cbn; lia].
  - destruct (write_moves i _ line c cs w Hw Ht eq_refl eq_refl) as (w1 & path & E & M). rewrite E. cbn [mbind option_bind].
    eexists. split; [done|]. right. eexists _, _. split; [exact M|unfold work; cbn; lia].
  - eexists. split; [done|]. right. eexists _, []. split; [by apply unlock_moves|unfold work; cbn; lia].
Qed.

Lemma log_step_inv i now (w : world (F := F)) : refused i w = false -> inv w -> tm_ok now -> exists w', step i now w = Some w' /\ inv w'.
Proof.
  intros Hopen Hw Hnow. destruct (threads w !! i) as [t|] eqn:Ht.
  - destruct (step_moves i now w t Hopen Hw Hnow Ht) as (w' & E & [[-> _]|(t' & es & M & _)]); [by exists w|].
    exists w'. split; [done|]. by apply (moves_inv i t t' es w).
  - exists w. unfold step. by rewrite Ht.
Qed.

Lemma log_run_inv sched : Forall (fun x => tm_ok (snd x)) sched -> forall w : world (F := F), inv w -> all_open sched w = true ->
  exists w', run sched w = Some w' /\ inv w'.
Proof.
  induction 1 as [|[i now] sched Hnow _ IH]; intros w Hw Ha; [by exists w|]. cbn [run all_open] in *. apply andb_true_iff in Ha as [Hr%negb_true_iff Ha].
  destruct (log_step_inv i now w Hr Hw Hnow) as (w1 & E & Hw1). rewrite E in *. by apply IH.
Qed.

(** ** The threads can finish *)

Definition work_of (w : world (F := F)) : nat := sum_list (work <$> threads w).

Lemma sum_insert (l : list thread) i t t' : l !! i = Some t -> (work t' < work t)%nat ->
  (sum_list (work <$> <[i := t']> l) < sum_list (work <$> l))%nat.
Proof.
  revert i. induction l as [|x l IH]; intros [|i] Ht Hlt; [done|done| |].
  - injection Ht as ->. by apply Nat.add_lt_mono_r.
  - by apply Nat.add_lt_mono_l, IH.
Qed.

Lemma sum_cons x (l : list thread) : sum_list (work <$> x :: l) = (work x + sum_list (work <$> l))%nat.
Proof. done. Qed.

Lemma work_left (l : list thread) : sum_list (work <$> l) <> 0%nat -> exists i t, l !! i = Some t /\ work t <> 0%nat.
Proof.
  induction l as [|x l IH]; [done|]. rewrite sum_cons. intros Hne.
  destruct (decide (work x = 0%nat)) as [Hz|Hz]; [|by exists 0%nat, x]. destruct IH as (i & t & Ht & Hn); [lia|]. by exists (S i), t.
Qed.

Lemma no_work (l : list thread) i t : sum_list (work <$> l) = 0%nat -> l !! i = Some t -> work t = 0%nat.
Proof.
  revert i. induction l as [|x l IH]; intros i; [done|]. rewrite sum_cons. intros Hz Ht.
  destruct i as [|i]; [injection Ht as ->; lia|apply (IH i); [lia|done]].
Qed.

Lemma works_on (w : world (F := F)) : inv w -> work_of w <> 0%nat ->
  exists i t, threads w !! i = Some t /\ ~ waits w t.
Proof.
  intros Hw Hne. destruct (flag w) eqn:Ef.
  - destruct (proj1 (i_flag w Hw) Ef) as (i & t & Ht & Hh). exists i, t. split; [done|]. intros [Hz|[_ Hn]]; [|congruence].
    pose proof (t_todo _ _ _ (i_threads w Hw i t Ht)) as Hd. unfold work in Hz.
    destruct (at_ t), (todo t); cbn in *; try done; try lia; by apply Hd.
  - assert (exists i t, threads w !! i = Some t /\ work t <> 0%nat) as (i & t & Ht & Hn).
    { by apply work_left. }
    exists i, t. split; [done|]. intros [?|[? _]]; [done|congruence].
Qed.

Lemma log_drains now (w : world (F := F)) : tm_ok now -> inv w ->
  exists sched, Forall (fun x => snd x = now) sched /\
    (all_open sched w = true -> exists w', run sched w = Some w' /\ inv w' /\ work_of w' = 0%nat).
Proof.
  intros Hnow. remember (work_of w) as n eqn:En. revert w En. induction (lt_wf n) as [n _ IH]. intros w -> Hw.
  destruct (decide (work_of w = 0%nat)) as [Hz|Hne]; [exists []; split; [done|]; intros _; by exists w|].
  destruct (works_on w Hw Hne) as (i & t & Ht & Hnw). destruct (refused i w) eqn:Er.
  { exists [(i, now)]. split; [by constructor|]. cbn [all_open]. by rewrite Er. }
  destruct (step_moves i now w t Er Hw Hnow Ht) as (w1 & E & [[_ ?]|(t' & es & M & Hlt)]); [done|].
  destruct (IH (work_of w1)) with (w := w1) as (sched & Hs & Hr); [|done|by apply (moves_inv i t t' es w)|].
  { unfold work_of. rewrite (m_threads _ _ _ _ _ _ M). by apply (sum_insert _ i t). }
  exists ((i, now) :: sched). split; [by constructor|]. cbn [run all_open]. rewrite E. intros [_ Ha]%andb_true_iff. by apply Hr.
Qed.

End Log.

(** ** The log *)

Section Theorems.
Context {F : Type} `{!FileSystem F}.

Lemma init_inv rootdir child maxsize (f : F) calls : (length rootdir + length child < 243)%nat ->
  exists w, init rootdir child maxsize f calls = Some w /\ inv calls f w.
Proof.
  intros Hl. unfold init, XFile.createDirectory.
  destruct (create_loop_ok rootdir [] f) as (f' & r & -> & Hc & _); [cbn; lia|]. cbn [mbind option_bind]. eexists. split; [done|].
  assert (forall i t, (mkthread Ready <$> calls) !! i = Some t -> at_ t = Ready) as Hready.
  { intros i t Ht. rewrite list_lookup_fmap in Ht. destruct (calls !! i); [by injection Ht as <-|done]. }
  split; cbn.
  - intros i j ti tj Hi _ Hh. by rewrite (Hready i ti Hi) in Hh.
  - split; [done|]. intros (i & t & Ht & Hh). by rewrite (Hready i t Ht) in Hh.
  - done.
  - intros i t Ht. pose proof (Hready i t Ht) as E. split; rewrite E; done.
  - intros i. rewrite list_lookup_fmap. by destruct (calls !! i).
  - intros p. by rewrite Hc, app_nil_r.
  - constructor.
  - rewrite !length_app. cbn. lia.
Qed.

(** C22.  The log under any number of threads, however they interleave, as long
    as no call of [fopen] has failed: nothing undefined happens; at any time two
    threads are never both inside the lock; each file holds what it held
    before and then whole lines, one after the other; every call that has
    ended has written one line, which is its text with a time; and the lines
    of a thread come in the order of its calls. *)
Theorem log_lines_kept rootdir child maxsize (f : F) calls sched : (length rootdir + length child < 243)%nat ->
  Forall (fun x => tm_ok (snd x)) sched ->
  exists w0, init rootdir child maxsize f calls = Some w0 /\ (all_open sched w0 = true -> exists w, run sched w0 = Some w /\
    (forall i j ti tj, threads w !! i = Some ti -> threads w !! j = Some tj -> holds (at_ ti) = true -> holds (at_ tj) = true -> i = j) /\
    (forall p, content p (fs w) = content p f ++ concat (lines_in p (trace w))) /\
    (forall i, calls !! i = (fun t => calls_of i (trace w) ++ todo t) <$> threads w !! i) /\
    Forall event_ok (trace w)).
Proof.
  intros Hl Hs. destruct (init_inv rootdir child maxsize f calls Hl) as (w0 & E0 & Hw0). exists w0. split; [done|]. intros Ha.
  destruct (log_run_inv calls f sched Hs w0 Hw0 Ha) as (w & E & Hw). exists w. split_and!; [done|..].
  - apply (i_excl _ _ w Hw).
  - apply (i_content _ _ w Hw).
  - apply (i_calls _ _ w Hw).
  - apply (i_trace _ _ w Hw).
Qed.

Lemma idle_threads calls f (w : world (F := F)) i t : inv calls f w -> work_of w = 0%nat -> threads w !! i = Some t ->
  todo t = [] /\ at_ t = Ready.
Proof.
  intros Hw Hz Ht. assert (work t = 0%nat) as Hwt.
  { by apply (no_work (threads w) i). }
  pose proof (t_todo _ _ _ (i_threads _ _ w Hw i t Ht)) as Hd. unfold work in Hwt.
  destruct (at_ t), (todo t); cbn in *; try done; try lia; exfalso; by apply Hd.
Qed.

(** C23.  Nor do the threads ever block each other: from wherever they are,
    without a failed call of [fopen] so far, there is a schedule along which
    either a call of [fopen] fails or all come to the end of their calls, and
    then every call of every thread has written its line. *)
Theorem log_finishes rootdir child maxsize (f : F) calls sched now : (length rootdir + length child < 243)%nat ->
  Forall (fun x => tm_ok (snd x)) sched -> tm_ok now ->
  exists w0, init rootdir child maxsize f calls = Some w0 /\ (all_open sched w0 = true -> exists w sched', run sched w0 = Some w /\
    Forall (fun x => snd x = now) sched' /\ (all_open sched' w = true -> exists w', run sched' w = Some w' /\ flag w' = false /\
    forall i cs, calls !! i = Some cs -> calls_of i (trace w') = cs)).
Proof.
  intros Hl Hs Hnow. destruct (init_inv rootdir child maxsize f calls Hl) as (w0 & E0 & Hw0). exists w0. split; [done|]. intros Ha.
  destruct (log_run_inv calls f sched Hs w0 Hw0 Ha) as (w & E & Hw).
  destruct (log_drains calls f now w Hnow Hw) as (sched' & Hs' & Hdone).
  exists w, sched'. split_and!; [done..|]. intros Ha'. destruct (Hdone Ha') as (w' & E' & Hw' & Hz). exists w'. split_and!; [done| |].
  - destruct (flag w') eqn:Ef; [|done]. destruct (proj1 (i_flag _ _ w' Hw') Ef) as (i & t & Ht & Hh).
    destruct (idle_threads _ _ w' i t Hw' Hz Ht) as [_ Hr]. by rewrite Hr in Hh.
  - intros i cs. rewrite (i_calls _ _ w' Hw' i). destruct (threads w' !! i) as [t|] eqn:Ht; cbn; [|done].
    destruct (idle_threads _ _ w' i t Hw' Hz Ht) as [-> _]. rewrite app_nil_r. by intros [= <-].
Qed.

End Theorems.

(** ** A file system, and a file that cannot be opened *)
Module Demo.

(** Texts by path, the open files, and, if [r], which of the next files cannot
    be opened. *)
Record disk (r : bool) := mkdisk { texts : list Z -> list Z; handles : list (option (list Z)); refused : list bool }.
#[local] Arguments mkdisk {r}.
#[local] Arguments texts {r}.
#[local] Arguments handles {r}.
#[local] Arguments refused {r}.

Section Disk.
Context {r : bool}.

Definition is_refused (d : disk r) : bool := r && default false (head (refused d)).
Definition path_at (h : nat) (d : disk r) : option (list Z) := mjoin (handles d !! h).
Definition open_file (p : list Z) (d : disk r) : disk r * option nat :=
  if is_refused d then (mkdisk (texts d) (handles d) (tail (refused d)), None)
  else (mkdisk (texts d) (handles d ++ [Some p]) (tail (refused d)), Some (length (handles d))).
Definition close_file (h : nat) (d : disk r) : disk r := mkdisk (texts d) (<[h := None]> (handles d)) (refused d).
Definition add_text (p s : list Z) (d : disk r) : disk r :=
  mkdisk (fun q => if decide (q = p) then texts d p ++ s else texts d q) (handles d) (refused d).
Definition print_file (h : nat) (s : list Z) (d : disk r) : disk r * Z :=
  match path_at h d with Some p => (add_text p s d, Z.of_nat (length s)) | None => (d, -1) end.

#[local] Program Instance disk_files : FileSystem (disk r) := {
  isExist _ _ := false;
  mkdir _ d := (d, false);
  fopen := open_file;
  fclose := close_file;
  fprintf := print_file;
  content p d := texts d p;
  opened := path_at
}.
Next Obligation. done. Qed.
Next Obligation.
  intros p d. unfold open_file. destruct (is_refused d); cbn; [done|]. split; [done|]. unfold path_at. cbn.
  rewrite (lookup_ge_None_2 (handles d) (length (handles d))) by done. split; [done|].
  split; [by rewrite list_lookup_middle|]. intros h Hne. destruct (decide (h < length (handles d))%nat) as [Hlt|Hge].
  - by rewrite lookup_app_l.
  - rewrite (lookup_ge_None_2 (handles d) h), lookup_ge_None_2 by (rewrite ?length_app; cbn; lia). done.
Qed.
Next Obligation.
  intros h d Ho. unfold close_file, path_at in *. cbn. split; [done|].
  assert (h < length (handles d))%nat as Hlt.
  { destruct (handles d !! h) eqn:E; [by eapply lookup_lt_Some|by destruct Ho]. }
  split; [by rewrite list_lookup_insert_eq|]. intros h' Hne. by rewrite list_lookup_insert_ne.
Qed.
Next Obligation.
  intros h s d p Ho. unfold print_file. rewrite Ho. split_and!; cbn; try done; [by rewrite decide_True|].
  intros q Hq. by rewrite decide_False.
Qed.

Definition empty (refused : list bool) : disk r := mkdisk (fun _ => []) [] refused.

End Disk.
#[local] Existing Instance disk_files.

Lemma never_refused i (w : world (F := disk false)) : XLogProps.refused i w = false.
Proof.
  unfold XLogProps.refused. destruct (threads w !! i) as [[[] [|]]|]; try done. destruct (_ || _) eqn:En; [|done]. unfold new_file. rewrite En.
  by destruct (file_name _).
Qed.

Lemma always_open sched : forall w : world (F := disk false), all_open sched w = true.
Proof. induction sched as [|[i now] sched IH]; intros w; [done|]. cbn [all_open]. rewrite never_refused. cbn [negb andb]. destruct (step i now w); [apply IH|done]. Qed.

Definition day (d : Z) : tm := mktm 124 0 d 0 0 0.
Lemma day_ok d : 1 <= d <= 31 -> tm_ok (day d).
Proof. unfold tm_ok, day. cbn. lia. Qed.

Definition hello (n : Z) : call := mkcall LL_INFO (chars "a.cpp") (chars "f") n (chars "hello").
Definition calls : list (list call) := [[hello 1; hello 2]; [hello 3]].

(** Both threads at once, a step each in turn. *)
Definition turns : list (nat * tm) := concat (replicate 25 [(0%nat, day 1); (1%nat, day 1)]).

Lemma turns_ok : Forall (fun x => tm_ok (snd x)) turns.
Proof. apply List.Forall_concat, list.Forall_replicate. repeat constructor; cbn; lia. Qed.

Lemma log_lines_kept_witness : exists w0 w, init (chars "log") (chars "x") 100 (empty (r := false) []) calls = Some w0 /\
  run turns w0 = Some w /\ (forall p, content p (fs w) = concat (lines_in p (trace w))).
Proof.
  destruct (log_lines_kept (chars "log") (chars "x") 100 (empty (r := false) []) calls turns ltac:(cbn; lia) turns_ok)
    as (w0 & E0 & H). destruct (H (always_open _ w0)) as (w & E & _ & Hc & _). exists w0, w. split; [exact E0|]. split; [exact E|]. intros p. by rewrite Hc.
Defined.

(** The lines of the two threads, as they come out. *)
Example two_threads : (w0 ← init (chars "log") (chars "x") 100 (empty (r := false) []) calls;
    w ← run turns w0; Some ((fun e => match e with Wrote i c _ _ => (i, row c) | Dropped i c => (i, - row c) end) <$> trace w)) =
  Some [(0%nat, 1); (1%nat, 3); (0%nat, 2)].
Proof. vm_compute. reflexivity. Qed.

Lemma log_finishes_witness : exists w0 w sched' w', init (chars "log") (chars "x") 100 (empty (r := false) []) calls = Some w0 /\
  run (take 9 turns) w0 = Some w /\ Forall (fun x => snd x = day 2) sched' /\ run sched' w = Some w' /\ flag w' = false /\
  forall i cs, calls !! i = Some cs -> calls_of i (trace w') = cs.
Proof.
  destruct (log_finishes (chars "log") (chars "x") 100 (empty (r := false) []) calls (take 9 turns) (day 2)) as (w0 & E0 & H);
    [cbn; lia|apply list.Forall_take, turns_ok|apply day_ok; lia|].
  destruct (H (always_open _ w0)) as (w & sched' & E & Hs & H'). destruct (H' (always_open _ w)) as (w' & E' & Hf & Hc).
  exists w0, w, sched', w'. by split_and!.
Defined.

(** A thread has passed the test of the file; at midnight another one closes
    the file and cannot open the next: the first writes to a null file. *)
Definition midnight : list (nat * tm) := replicate 7 (0%nat, day 1) ++ replicate 5 (1%nat, day 2) ++ replicate 2 (0%nat, day 2).

End Demo.

(** When the next file cannot be opened, the log stops the program: the file is
    tested under the lock, but used under a later one, and in between another
    thread may have closed it. *)
Theorem log_rotation_crashes : exists (F : Type) (H : FileSystem F) (f : F) calls sched w0,
  Forall (fun x => tm_ok (snd x)) sched /\ init (chars "log") (chars "x") 0x40000000 f calls = Some w0 /\ run sched w0 = None.
Proof.
  eexists (Demo.disk true), Demo.disk_files, (Demo.empty [false; true]), Demo.calls, Demo.midnight, _. split; [|split; [reflexivity|vm_compute; reflexivity]].
  unfold Demo.midnight. rewrite !list.Forall_app. split_and!; apply list.Forall_replicate; apply Demo.day_ok; lia.
Qed.

End XLogProps.
