(* ===== verification/UTimer.v ===== *)
(** * UTimer: timers of the event loop

    Models src/src/common/UTimer.h and EventLoop.{h,cpp}.  libuv is known by
    its contract: a timer that was started and not stopped is reported once
    its time has come, one with a repeat is started again before the report,
    and a closed handle is reported no more until its close callback.  What
    the application does in a closure is part of the history.  [None] is a use
    of an object that was deleted, or of a loop that is not there.  Proved
    here: a timer can be deleted in its own closure, and runs once for each
    start. *)
From stdpp Require Import gmap.
From S2P Require Import Prelude.

Module UTimer.

(** A [UTimer] with its [uv_timer_t]: the object is there until it is deleted,
    the handle until its close callback.  [armed]: when it is due, and the
    repeat.  [m_cb]: the closure, by a number. *)
Record timer := mktimer { alive : bool; m_cb : option nat; armed : option (Z * Z) }.

(** What the application does. *)
Inductive action :=
| New (t : nat)
| Start (t : nat) (cb : nat) (timeout repeat : Z)
| Stop (t : nat)
| Delete (t : nat).

(** What happens: the application acts, time passes, libuv reports a timer,
    with what its closure does, or the end of a close. *)
Inductive event :=
| Act (a : action)
| Tick (d : Z)
| Fire (t : nat) (acts : list action)
| HandleClosed (t : nat).

(** [mLoop] is there; the loop's time; the handles; the closures that ran. *)
Record world := mkworld { loop : bool; now : Z; timers : gmap nat timer; ran : list (nat * nat) }.

Definition set_timers (m : gmap nat timer) (w : world) : world := mkworld (loop w) (now w) m (ran w).

(** [EventLoop::init] and [exit]. *)
Definition init (w : world) : world := mkworld true (now w) (timers w) (ran w).
Definition exit (w : world) : world := mkworld false (now w) (timers w) (ran w).

(** An object the application has. *)
Definition object (t : nat) (w : world) : option timer := x ← timers w !! t; if alive x then Some x else None.

(** [UTimer::UTimer], with the address of its handle. *)
Definition create (t : nat) (w : world) : option world :=
  if loop w then
    match timers w !! t with
    | None => Some (set_timers (<[t := mktimer true None None]> (timers w)) w)
    | Some _ => None
    end
  else None.

Definition start (t cb : nat) (timeout repeat : Z) (w : world) : option world :=
  x ← object t w; Some (set_timers (<[t := mktimer true (Some cb) (Some (now w + timeout, repeat))]> (timers w)) w).

Definition stop (t : nat) (w : world) : option world :=
  x ← object t w; Some (set_timers (<[t := mktimer true (m_cb x) None]> (timers w)) w).

(** [UTimer::~UTimer]: [uv_close] stops the timer; the handle stays. *)
Definition destroy (t : nat) (w : world) : option world :=
  x ← object t w; Some (set_timers (<[t := mktimer false None None]> (timers w)) w).

Definition act (a : action) (w : world) : option world :=
  match a with
  | New t => create t w
  | Start t cb timeout repeat => start t cb timeout repeat w
  | Stop t => stop t w
  | Delete t => destroy t w
  end.

Fixpoint acts (l : list action) (w : world) : option world :=
  match l with [] => Some w | a :: l => w ← act a w; acts l w end.

(** libuv before the callback. *)
Definition rearm (t : nat) (x : timer) (r : Z) (w : world) : world :=
  set_timers (<[t := mktimer (alive x) (m_cb x) (if r =? 0 then None else Some (now w + r, r))]> (timers w)) w.

(** [timer_cb]: [handle->data] is the object; its closure is called. *)
Definition timer_cb (t : nat) (l : list action) (w : world) : option world :=
  x ← object t w; cb ← m_cb x;
  acts l (mkworld (loop w) (now w) (timers w) (ran w ++ [(t, cb)])).

Definition step (e : event) (w : world) : option world :=
  match e with
  | Act a => act a w
  | Tick d => Some (mkworld (loop w) (now w + d) (timers w) (ran w))
  | Fire t l => x ← timers w !! t; '(_, r) ← armed x; timer_cb t l (rearm t x r w)
  | HandleClosed t => Some (set_timers (delete t (timers w)) w)
  end.

Fixpoint run (es : list event) (w : world) : option world :=
  match es with [] => Some w | e :: es => w ← step e w; run es w end.

(** When libuv may report what. *)
Definition enabled (e : event) (w : world) : Prop :=
  match e with
  | Fire t _ => exists x d r, timers w !! t = Some x /\ armed x = Some (d, r) /\ d <= now w
  | HandleClosed t => exists x, timers w !! t = Some x /\ alive x = false
  | Tick d => 0 <= d
  | Act _ => True
  end.

(** The application uses objects it has made and not deleted, while the loop
    is there; an address is free when it is given out. *)
Definition good (w : world) (a : action) : Prop :=
  match a with
  | New t => loop w = true /\ timers w !! t = None
  | Start t _ _ _ | Stop t | Delete t => is_Some (object t w)
  end.

Fixpoint good_acts (l : list action) (w : world) : Prop :=
  match l with [] => True | a :: l => good w a /\ match act a w with Some w => good_acts l w | None => True end end.

Definition good_event (e : event) (w : world) : Prop :=
  match e with
  | Act a => good w a
  | Fire t l => match timers w !! t with
      | Some x => match armed x with
        | Some (_, r) => let w := rearm t x r w in
            good_acts l (mkworld (loop w) (now w) (timers w) (ran w ++ [(t, default 0%nat (m_cb x))]))
        | None => True end
      | None => True end
  | _ => True
  end.

Fixpoint proper (es : list event) (w : world) : Prop :=
  match es with
  | [] => True
  | e :: es => enabled e w /\ good_event e w /\ match step e w with Some w => proper es w | None => True end
  end.

End UTimer.

Module UTimerProps.
Import UTimer.

(** A timer that is due has an object and a closure. *)
Definition inv (w : world) : Prop :=
  forall t x, timers w !! t = Some x -> armed x <> None -> alive x = true /\ is_Some (m_cb x).

Lemma inv_insert w t x : inv w -> (armed x <> None -> alive x = true /\ is_Some (m_cb x)) ->
  inv (set_timers (<[t := x]> (timers w)) w).
Proof.
  intros I Hx t' x' E. cbn in E. destruct (decide (t' = t)) as [->|Hne].
  - rewrite lookup_insert_eq in E. injection E as <-. done.
  - rewrite lookup_insert_ne in E by done. by apply (I t').
Qed.

Lemma good_act a w : inv w -> good w a -> exists w', act a w = Some w' /\ inv w'.
Proof.
  intros I. destruct a as [t|t cb d r|t|t]; cbn [good act].
  - intros [Hl Ht]. unfold create. rewrite Hl, Ht. eexists. split; [done|]. by apply inv_insert.
  - intros [x Hx]. unfold start. rewrite Hx. eexists. split; [done|]. apply inv_insert; [done|]. intros _. by split; [|eexists].
  - intros [x Hx]. unfold stop. rewrite Hx. eexists. split; [done|]. by apply inv_insert.
  - intros [x Hx]. unfold destroy. rewrite Hx. eexists. split; [done|]. by apply inv_insert.
Qed.

Lemma good_acts_ok l w : inv w -> good_acts l w -> exists w', acts l w = Some w' /\ inv w'.
Proof.
  revert w. induction l as [|a l IH]; intros w I; cbn [good_acts acts]; [by exists w|]. intros [Ha Hl].
  destruct (good_act a w I Ha) as (w1 & E & I1). rewrite E in Hl |- *. by apply IH.
Qed.

Lemma utimer_step_ok e w : inv w -> enabled e w -> good_event e w -> exists w', step e w = Some w' /\ inv w'.
Proof.
  intros I He Hg. destruct e as [a|d|t l|t]; cbn [enabled good_event step] in *.
  - by apply good_act.
  - eexists. split; [done|]. exact I.
  - destruct He as (x & d & r & Ex & Ea & _). rewrite Ex in Hg |- *. cbn [mbind option_bind]. rewrite Ea in Hg |- *. cbn [mbind option_bind].
    destruct (I t x Ex) as [Hal [cb Hcb]]; [by rewrite Ea|]. unfold timer_cb, object.
    assert (inv (rearm t x r w)) as I1 by (apply inv_insert; [done|]; intros _; by rewrite Hal, Hcb).
    assert (timers (rearm t x r w) !! t = Some (mktimer (alive x) (m_cb x) (if r =? 0 then None else Some (now w + r, r)))) as ->
      by apply lookup_insert_eq.
    cbn [mbind option_bind alive]. rewrite Hal. cbn [mbind option_bind m_cb]. rewrite Hcb in *. cbn [mbind option_bind default] in *.
    apply good_acts_ok; [exact I1|exact Hg].
  - eexists. split; [done|]. intros t' x' E. cbn in E. apply lookup_delete_Some in E as [_ E]. by apply (I t').
Qed.

(** Timers over any interleaving of what libuv reports and what an
    application does that uses objects it has: no closure is looked for in an
    object that was deleted, also when a closure deletes its own timer. *)
Theorem utimer_safe es w : inv w -> proper es w -> exists w', run es w = Some w' /\ inv w'.
Proof.
  revert w. induction es as [|e es IH]; intros w I; cbn [proper run]; [by exists w|]. intros (He & Hg & Hp).
  destruct (utimer_step_ok e w I He Hg) as (w1 & E & I1). rewrite E in Hp |- *. by apply IH.
Qed.

(** ** Once for each start *)

Definition is_start (t : nat) (a : action) : bool := match a with Start t' _ _ _ => bool_decide (t' = t) | _ => false end.
Definition starts (t : nat) (l : list action) : nat := length (filter (fun a => is_start t a = true) l).
Definition actions_of (e : event) : list action := match e with Act a => [a] | Fire _ l => l | _ => [] end.
Definition runs (t : nat) (l : list (nat * nat)) : nat := length (filter (fun p => fst p = t) l).

(** No start of [t] repeats. *)
Definition once (t : nat) (a : action) : Prop := match a with Start t' _ _ r => t' = t -> r = 0 | _ => True end.

(** How often [t] may still run. *)
Definition credit (t : nat) (w : world) : nat :=
  match timers w !! t with Some x => match armed x with Some _ => 1 | None => 0 end | None => 0 end.
Definition one_shot (t : nat) (w : world) : Prop := forall x d r, timers w !! t = Some x -> armed x = Some (d, r) -> r = 0.

Lemma credit_insert t t' x w : credit t (set_timers (<[t' := x]> (timers w)) w) =
  if decide (t' = t) then match armed x with Some _ => 1 | None => 0 end%nat else credit t w.
Proof. unfold credit. cbn. case_decide as E; [subst; by rewrite lookup_insert_eq|by rewrite lookup_insert_ne]. Qed.

Lemma one_shot_insert t t' x w : one_shot t w -> (t' = t -> forall d r, armed x = Some (d, r) -> r = 0) ->
  one_shot t (set_timers (<[t' := x]> (timers w)) w).
Proof.
  intros H Hx y d r E Ea. cbn in E. destruct (decide (t' = t)) as [->|Hne].
  - rewrite lookup_insert_eq in E. injection E as <-. by eapply Hx.
  - rewrite lookup_insert_ne in E by done. by eapply H.
Qed.

Lemma starts_cons t a l : starts t (a :: l) = ((match a with Start t' _ _ _ => if decide (t' = t) then 1 else 0 | _ => 0 end) + starts t l)%nat.
Proof.
  unfold starts. rewrite filter_cons. destruct a; cbn [is_start]; try done.
  case_decide as E; case_decide as E'; try done; by rewrite bool_decide_eq_true in E.
Qed.

Lemma act_credit t a w w' : once t a -> one_shot t w -> act a w = Some w' ->
  ran w' = ran w /\ one_shot t w' /\ (credit t w' <= credit t w + starts t [a])%nat.
Proof.
  intros Ho H. rewrite starts_cons. change (starts t []) with 0%nat.
  destruct a as [t'|t' cb d r|t'|t']; cbn [act once] in *; unfold create, start, stop, destroy; intros E.
  - destruct (loop w); [|done]. destruct (timers w !! t') eqn:Et; [done|]. injection E as <-. split; [done|].
    split; [by apply one_shot_insert|]. rewrite credit_insert. case_decide; cbn; lia.
  - destruct (object t' w); [|done]. injection E as <-. split; [done|].
    split; [apply one_shot_insert; [done|]; intros -> d' r' [= <- <-]; auto|]. rewrite credit_insert. cbn. case_decide; lia.
  - destruct (object t' w); [|done]. injection E as <-. split; [done|].
    split; [by apply one_shot_insert|]. rewrite credit_insert. cbn. case_decide; lia.
  - destruct (object t' w); [|done]. injection E as <-. split; [done|].
    split; [by apply one_shot_insert|]. rewrite credit_insert. cbn. case_decide; lia.
Qed.

Lemma acts_credit t l : forall w w', Forall (once t) l -> one_shot t w -> acts l w = Some w' ->
  ran w' = ran w /\ one_shot t w' /\ (credit t w' <= credit t w + starts t l)%nat.
Proof.
  induction l as [|a l IH]; intros w w' Ho H E; cbn [acts] in E; [injection E as <-; cbn; split_and!; [done|done|lia]|].
  apply list.Forall_cons in Ho as [Ha Ho]. destruct (act a w) as [w1|] eqn:E1; [|done]. cbn [mbind option_bind] in E.
  destruct (act_credit t a w w1 Ha H E1) as (R1 & H1 & C1). destruct (IH w1 w' Ho H1 E) as (R2 & H2 & C2).
  rewrite starts_cons. rewrite starts_cons in C1. change (starts t []) with 0%nat in C1. split_and!; [congruence|done|lia].
Qed.

Lemma runs_snoc t l p : runs t (l ++ [p]) = (runs t l + if decide (fst p = t) then 1 else 0)%nat.
Proof. unfold runs. rewrite list.filter_app, length_app, filter_cons. by case_decide. Qed.

Lemma step_credit t e w w' : Forall (once t) (actions_of e) -> one_shot t w -> step e w = Some w' ->
  one_shot t w' /\ (runs t (ran w') + credit t w' <= runs t (ran w) + credit t w + starts t (actions_of e))%nat.
Proof.
  intros Ho H E. destruct e as [a|d|t' l|t']; cbn [actions_of step] in *.
  - apply list.Forall_cons in Ho as [Ha _]. destruct (act_credit t a w w' Ha H E) as (-> & H1 & C1). split; [done|]. lia.
  - injection E as <-. split; [exact H|]. exact (Nat.le_add_r _ _).
  - destruct (timers w !! t') as [x|] eqn:Ex; cbn [mbind option_bind] in E; [|done].
    destruct (armed x) as [[d r]|] eqn:Ea; cbn [mbind option_bind] in E; [|done]. unfold timer_cb in E.
    destruct (object t' _) as [y|]; cbn [mbind option_bind] in E; [|done]. destruct (m_cb y) as [cb|]; cbn [mbind option_bind] in E; [|done].
    set (w1 := rearm t' x r w) in E. set (w2 := mkworld _ _ _ _) in E.
    assert (one_shot t w1) as H1.
    { apply one_shot_insert; [done|]. intros -> d' r'. cbn. rewrite (H x d r Ex Ea). done. }
    destruct (acts_credit t l w2 w' Ho H1 E) as (-> & H2 & C2). split; [done|]. cbn [ran w2]. rewrite runs_snoc. cbn [fst].
    assert (credit t w2 = if decide (t' = t) then 0%nat else credit t w) as Ec.
    { change (credit t w2) with (credit t w1). unfold w1, rearm. rewrite credit_insert. case_decide as Et; [|done]. subst. cbn.
      by rewrite (H x d r Ex Ea). }
    rewrite Ec in C2. change (ran w1) with (ran w). destruct (decide (t' = t)) as [->|]; [|lia].
    assert (credit t w = 1%nat) by (unfold credit; by rewrite Ex, Ea). lia.
  - injection E as <-. split; [intros x d r E; cbn in E; apply lookup_delete_Some in E as [_ E]; by apply H|]. change (ran (set_timers (delete t' (timers w)) w)) with (ran w).
    unfold credit. change (timers (set_timers (delete t' (timers w)) w)) with (delete t' (timers w)).
    destruct (decide (t' = t)) as [->|Hne]; [rewrite lookup_delete_eq; lia|rewrite lookup_delete_ne by done; lia].
Qed.

(** A timer that is only started without a repeat runs at most once for each
    start, whatever else happens. *)
Theorem utimer_once t es w w' : Forall (fun e => Forall (once t) (actions_of e)) es -> timers w !! t = None -> ran w = [] ->
  run es w = Some w' -> (runs t (ran w') <= starts t (concat (actions_of <$> es)))%nat.
Proof.
  intros Ho Ht Hr E. assert (one_shot t w) as H by (intros x d r; by rewrite Ht).
  assert (runs t (ran w') + credit t w' <= runs t (ran w) + credit t w + starts t (concat (actions_of <$> es)))%nat as Hb.
  { clear Ht Hr. revert w H E. induction Ho as [|e es He _ IH]; intros w H E; cbn [run] in E; [injection E as <-; lia|].
    destruct (step e w) as [w1|] eqn:E1; [|done]. cbn [mbind option_bind] in E. destruct (step_credit t e w w1 He H E1) as [H1 C1].
    specialize (IH w1 H1 E). cbn [fmap list_fmap concat]. unfold starts in *. rewrite list.filter_app, length_app. lia. }
  rewrite Hr in Hb. unfold credit at 2 in Hb. rewrite Ht in Hb. cbn in Hb. lia.
Qed.

End UTimerProps.
