(* ===== verification/ProtoLua.v ===== *)
(** * ProtoLua: Lua values and protocol buffers

    Models src/src/protolua/encoder.cpp, decoder.cpp and [SortFieldsByNumber]
    of parse.cpp: a Lua value becomes a message of a type known at run time,
    and back.  Lua and the reflection of Google's library are type classes; a
    Lua table is the list of its pairs, in the order [lua_next] gives them
    (tables that hold themselves are left out, the code does not end on them;
    so are metatables).  The types are those of proto2, without oneof.
    Every function takes the number of free slots of the Lua stack: the code
    pushes without asking [lua_checkstack].  [None]: the function returns
    false, Lua raises an error, a loop does not end, or a push finds no free
    slot. *)
From S2P Require Import Prelude TcpSock.

(** ** Lua *)
Module Lua.

(** A value; floats are their bits. *)
Inductive lua :=
| LNil
| LBool (b : bool)
| LInt (n : Z)
| LNum (d : Z)
| LStr (s : list Z)
| LTable (l : list (lua * lua)).

(** Raw equality of keys; a table equals only itself, and is not looked for. *)
Definition key_eqb (a b : lua) : bool :=
  match a, b with
  | LBool x, LBool y => Bool.eqb x y
  | LInt x, LInt y | LNum x, LNum y => x =? y
  | LStr x, LStr y => bool_decide (x = y)
  | _, _ => false
  end.

(** [t[k]], [t[k] = v]. *)
Fixpoint get (l : list (lua * lua)) (k : lua) : lua :=
  match l with
  | [] => LNil
  | (k', v) :: l => if key_eqb k' k then v else get l k
  end.
Definition isnil (v : lua) : bool := match v with LNil => true | _ => false end.
Fixpoint erase (l : list (lua * lua)) (k : lua) : list (lua * lua) :=
  match l with
  | [] => []
  | (k', v) :: l => if key_eqb k' k then erase l k else (k', v) :: erase l k
  end.
Definition set_ (l : list (lua * lua)) (k v : lua) : list (lua * lua) :=
  if isnil v then erase l k else erase l k ++ [(k, v)].

(** What Lua grants a C function, besides its arguments. *)
Definition LUA_MINSTACK : nat := 20.

(** A push onto a stack with [free] slots: undefined behaviour when there is
    none. *)
Definition push (free : nat) : option nat := match free with O => None | S free => Some free end.

Definition get_of (v k : lua) : lua := match v with LTable l => get l k | _ => LNil end.

(** What the code asks of the Lua library: numbers to and from strings,
    conversion between the two kinds of numbers, and the length of a table,
    which is a border. *)
Class LuaAPI := {
  str2number : list Z -> option lua;
  number2str : lua -> list Z;
  int2num : Z -> Z;
  num2int : Z -> option Z;
  len : list (lua * lua) -> Z;
  len_law : forall l, 0 <= len l /\ (len l = 0 \/ get l (LInt (len l)) <> LNil) /\ get l (LInt (len l + 1)) = LNil
}.

Section API.
Context `{!LuaAPI}.

Definition as_number (v : lua) : option lua :=
  match v with LInt _ | LNum _ => Some v | LStr s => str2number s | _ => None end.
Definition lua_tonumber (v : lua) : Z :=
  match as_number v with Some (LInt n) => int2num n | Some (LNum d) => d | _ => 0 end.
Definition lua_tointeger (v : lua) : Z :=
  match as_number v with Some (LInt n) => n | Some (LNum d) => default 0 (num2int d) | _ => 0 end.
Definition lua_toboolean (v : lua) : bool := match v with LNil | LBool false => false | _ => true end.
(** The string of [lua_tolstring]; empty, of a null pointer, for other values. *)
Definition lua_tolstring (v : lua) : list Z :=
  match v with LStr s => s | LInt _ | LNum _ => number2str v | _ => [] end.

End API.
End Lua.

(** ** Descriptors and messages *)
Module Proto.

Inductive cpp_type :=
| CPPTYPE_DOUBLE | CPPTYPE_FLOAT | CPPTYPE_INT32 | CPPTYPE_UINT32 | CPPTYPE_INT64 | CPPTYPE_UINT64
| CPPTYPE_ENUM | CPPTYPE_BOOL | CPPTYPE_STRING | CPPTYPE_MESSAGE.
Inductive label := REQUIRED | OPTIONAL | REPEATED.

(** A field: its name and number, its type and label, the type of its messages
    the default the type gives it, and the values it has if it is an enum. *)
Record field := mkfield {
  name : list Z; number : Z; cpp : cpp_type; flabel : label; is_map : bool; message_type : nat; default_value : Z; default_string : list Z; enum_has : Z -> bool
}.

(** A message type is the list of its fields; a pool knows the types. *)
Abbreviation descriptor := (list field).
Abbreviation pool := (list descriptor).

(** A value of a field that is no message. *)
Inductive scalar := SNum (t : cpp_type) (n : Z) | SStr (s : list Z).

Definition default_of (f : field) : scalar :=
  match cpp f with CPPTYPE_STRING => SStr (default_string f) | t => SNum t (default_value f) end.

Definition settable {M} (f : field) (v : scalar + M) : Prop :=
  match v with inl (SNum CPPTYPE_ENUM n) => enum_has f n = true | _ => True end.

(** Messages, as reflection shows them: [contents m n] are the values of field
    [n], at most one if it is not repeated.  [Set_] and [Add] stand for the
    functions of these names for every type, with what [MutableMessage] and
    [AddMessage] return changed in place; what an enum does not have goes to the
    unknown fields. *)
Class Reflection (M : Type) := {
  contents : M -> Z -> list (scalar + M);
  New : nat -> M;
  Set_ : field -> scalar + M -> M -> M;
  Add : field -> scalar + M -> M -> M;
  ByteSizeLong : M -> Z;
  SerializeToString : M -> option (list Z);
  ParseFromArray : nat -> list Z -> option M;
  new_law : forall d n, contents (New d) n = [];
  set_law : forall f v m n, settable f v ->
    contents (Set_ f v m) n = if decide (n = number f) then [v] else contents m n;
  add_law : forall f v m n, settable f v ->
    contents (Add f v m) n = if decide (n = number f) then contents m n ++ [v] else contents m n
}.

End Proto.

(** ** Encoding *)
Module Encoder.
Import Lua Proto.

Section Encoder.
Context `{!LuaAPI} {M : Type} `{!Reflection M} (pool : Proto.pool).

(** [(float)] of the bits of a [double]. *)
Context (to_float : Z -> Z).

(** The values [encode_single] and [encode_multiple] hand to reflection. *)
Definition to_scalar (t : cpp_type) (v : lua) : scalar :=
  match t with
  | CPPTYPE_DOUBLE => SNum t (lua_tonumber v)
  | CPPTYPE_FLOAT => SNum t (to_float (lua_tonumber v))
  | CPPTYPE_INT32 | CPPTYPE_ENUM => SNum t (i32 (lua_tointeger v))
  | CPPTYPE_UINT32 => SNum t (u32 (lua_tointeger v))
  | CPPTYPE_INT64 => SNum t (i64 (lua_tointeger v))
  | CPPTYPE_UINT64 => SNum t (u64 (lua_tointeger v))
  | CPPTYPE_BOOL => SNum t (Z.b2z (lua_toboolean v))
  | CPPTYPE_STRING => SStr (lua_tolstring v)
  | CPPTYPE_MESSAGE => SStr []
  end.

(** The submessage of a field, or a new one. *)
Definition MutableMessage (f : field) (m : M) : M :=
  match contents m (number f) with inr sub :: _ => sub | _ => New (message_type f) end.

Section Rec.
(** [encode_message] with free slots of a type, for the levels below. *)
Context (encode_message : nat -> nat -> lua -> M -> option M).

Definition encode_single (free : nat) (f : field) (v : lua) (m : M) : option M :=
  match cpp f with
  | CPPTYPE_MESSAGE => sub ← encode_message free (message_type f) v (MutableMessage f m); Some (Set_ f (inr sub) m)
  | t => Some (Set_ f (inl (to_scalar t v)) m)
  end.

Definition encode_multiple (free : nat) (f : field) (v : lua) (m : M) : option M :=
  match cpp f with
  | CPPTYPE_MESSAGE => sub ← encode_message free (message_type f) v (New (message_type f)); Some (Add f (inr sub) m)
  | t => Some (Add f (inl (to_scalar t v)) m)
  end.

(** The loop of [encode_repeated], from element [i] on; [lua_geti] pushes the
    element. *)
Fixpoint encode_items (free : nat) (f : field) (l : list (lua * lua)) (n : nat) (i : Z) (m : M) : option M :=
  match n with
  | O => Some m
  | S n =>
    free' ← push free;
    m ← encode_multiple free' f (get l (LInt (i + 1))) m;
    encode_items free f l n (i + 1) m
  end.

Definition encode_repeated (free : nat) (f : field) (v : lua) (m : M) : option M :=
  match v with
  | LNil => Some m
  | LTable l => encode_items free f l (Z.to_nat (i32 (len l))) 0 m
  | _ => None
  end.

(** [encode_required] and [encode_optional]. *)
Definition encode_present (free : nat) (f : field) (v : lua) (m : M) : option M :=
  if isnil v then Some m else encode_single free f v m.

(** The key on the stack after [encode_field]: [lua_tolstring] of a number
    changes it to a string. *)
Definition key_left (f : field) (k : lua) : lua :=
  match cpp f, k with CPPTYPE_STRING, (LInt _ | LNum _) => LStr (number2str k) | _, _ => k end.

(** [lua_next]: the pairs after a key, or an error. *)
Fixpoint after (l : list (lua * lua)) (k : lua) : option (list (lua * lua)) :=
  match l with
  | [] => None
  | (k', _) :: l => if key_eqb k' k then Some l else after l k
  end.

(** The loop of [encode_table] over the pairs of [t], with [l] left.  A loop of
    more than the pairs of [t] is at the same pair twice, and does not end.
    [lua_next] leaves the value on the key. *)
Fixpoint encode_pairs (free : nat) (n : nat) (f key value : field) (t l : list (lua * lua)) (m : M) : option M :=
  match l, n with
  | [], _ => Some m
  | _, O => None
  | (k, v) :: _, S n =>
    free' ← push free;
    sub ← encode_present free' key k (New (message_type f));
    sub ← encode_present free' value v sub;
    l ← after t (key_left key k);
    encode_pairs free n f key value t l (Add f (inr sub) m)
  end.

(** [encode_table]; the fields of an entry are optional ones.  The slot of the
    [nil] pushed first is that of the keys. *)
Definition encode_table (free : nat) (f : field) (v : lua) (m : M) : option M :=
  match v with
  | LNil => Some m
  | LTable l =>
    match pool !! message_type f with
    | Some [key; value] => free ← push free; encode_pairs free (length l) f key value l l m
    | _ => None
    end
  | _ => None
  end.

Definition encode_field (free : nat) (f : field) (v : lua) (m : M) : option M :=
  if is_map f then encode_table free f v m
  else match flabel f with
       | REQUIRED | OPTIONAL => encode_present free f v m
       | REPEATED => encode_repeated free f v m
       end.

(** The loop of [encode_message]; [lua_getfield] pushes the value. *)
Fixpoint encode_fields (free : nat) (fs : list field) (v : lua) (m : M) : option M :=
  match fs with
  | [] => Some m
  | f :: fs =>
    free' ← push free;
    m ← encode_field free' f (get_of v (LStr (name f))) m;
    encode_fields free fs v m
  end.

End Rec.

(** [encode_message]: [n] bounds the depth of the value. *)
Fixpoint encode_message (n : nat) (free : nat) (d : nat) (v : lua) (m : M) : option M :=
  match n with
  | O => None
  | S n =>
    match v, pool !! d with
    | LTable _, Some fs => encode_fields (encode_message n) free fs v m
    | _, _ => None
    end
  end.

(** [proto_encode], to a Lua string.  Every level takes a slot, so there are no
    more levels than slots, apart from one that has no field. *)
Definition proto_encode (free : nat) (d : nat) (v : lua) : option lua :=
  _ ← pool !! d;
  m ← encode_message (S free) free d v (New d);
  s ← SerializeToString m;
  _ ← push free;
  Some (LStr s).

(** [SortFieldsByNumber]: the numbers differ, so there is one result. *)
Fixpoint insert_field (f : field) (fs : list field) : list field :=
  match fs with
  | [] => [f]
  | g :: fs' => if number f <? number g then f :: fs else g :: insert_field f fs'
  end.
Definition SortFieldsByNumber (fs : list field) : list field := fold_right insert_field [] fs.

(** [proto_pack] of the arguments on the stack. *)
Fixpoint pack_fields (n free : nat) (fs : list field) (args : list lua) (m : M) : option M :=
  match fs, args with
  | f :: fs, v :: args => m ← encode_field (encode_message n) free f v m; pack_fields n free fs args m
  | _, _ => Some m
  end.

Definition proto_pack (free : nat) (d : nat) (args : list lua) : option lua :=
  fs ← pool !! d;
  m ← pack_fields (S free) free (SortFieldsByNumber fs) args (New d);
  s ← SerializeToString m;
  _ ← push free;
  Some (LStr s).

End Encoder.
End Encoder.

(** ** Decoding *)
Module Decoder.
Import Lua Proto.

Section Decoder.
Context {M : Type} `{!Reflection M} (pool : Proto.pool).

(** [double] of the bits of a [float]. *)
Context (of_float : Z -> Z).

(** What is pushed for a value. *)
Definition of_scalar (s : scalar) : lua :=
  match s with
  | SNum CPPTYPE_DOUBLE n => LNum n
  | SNum CPPTYPE_FLOAT n => LNum (of_float n)
  | SNum CPPTYPE_BOOL n => LBool (negb (n =? 0))
  | SNum _ n => LInt (i64 n)
  | SStr s => LStr s
  end.

Section Rec.
Context (decode_message : nat -> nat -> M -> option lua).

(** A value is pushed. *)
Definition decode_value (free : nat) (f : field) (v : scalar + M) : option lua :=
  match v with
  | inl s => _ ← push free; Some (of_scalar s)
  | inr sub => decode_message free (message_type f) sub
  end.

(** [decode_single]: the value, or the default; [GetMessage] of an absent
    message gives an empty one. *)
Definition decode_single (free : nat) (f : field) (m : M) : option lua :=
  match contents m (number f) with
  | v :: _ => decode_value free f v
  | [] => match cpp f with
          | CPPTYPE_MESSAGE => decode_message free (message_type f) (New (message_type f))
          | _ => _ ← push free; Some (of_scalar (default_of f))
          end
  end.

Definition decode_optional (free : nat) (f : field) (m : M) : option lua :=
  match cpp f, contents m (number f) with
  | CPPTYPE_MESSAGE, [] => _ ← push free; Some LNil
  | _, _ => decode_single free f m
  end.

(** The loop of [decode_repeated]. *)
Fixpoint decode_items (free : nat) (f : field) (vs : list (scalar + M)) (i : Z) (t : list (lua * lua)) : option lua :=
  match vs with
  | [] => Some (LTable t)
  | v :: vs => x ← decode_value free f v; decode_items free f vs (i + 1) (set_ t (LInt (i + 1)) x)
  end.

Definition decode_repeated (free : nat) (f : field) (m : M) : option lua :=
  free ← push free;
  decode_items free f (contents m (number f)) 0 [].

(** The loop of [decode_table]: the value is pushed on the key. *)
Fixpoint decode_pairs (free : nat) (key value : field) (vs : list (scalar + M)) (t : list (lua * lua)) : option lua :=
  match vs with
  | [] => Some (LTable t)
  | inr sub :: vs =>
    k ← decode_optional free key sub;
    free' ← push free;
    v ← decode_optional free' value sub;
    if isnil k then None else decode_pairs free key value vs (set_ t k v)
  | inl _ :: _ => None
  end.

Definition decode_table (free : nat) (f : field) (m : M) : option lua :=
  match pool !! message_type f with
  | Some [key; value] => free ← push free; decode_pairs free key value (contents m (number f)) []
  | _ => None
  end.

Definition decode_field (free : nat) (f : field) (m : M) : option lua :=
  if is_map f then decode_table free f m
  else match flabel f with
       | REQUIRED => decode_single free f m
       | OPTIONAL => decode_optional free f m
       | REPEATED => decode_repeated free f m
       end.

Fixpoint decode_fields (free : nat) (fs : list field) (m : M) (t : list (lua * lua)) : option lua :=
  match fs with
  | [] => Some (LTable t)
  | f :: fs => v ← decode_field free f m; decode_fields free fs m (set_ t (LStr (name f)) v)
  end.

End Rec.

(** [decode_message]: [n] bounds the depth of the message. *)
Fixpoint decode_message (n : nat) (free : nat) (d : nat) (m : M) : option lua :=
  match n with
  | O => None
  | S n => fs ← pool !! d; free ← push free; decode_fields (decode_message n) free fs m []
  end.

(** [proto_decode]. *)
Definition proto_decode (free : nat) (d : nat) (input : list Z) : option lua :=
  _ ← pool !! d;
  m ← ParseFromArray d input;
  decode_message (S free) free d m.

(** [proto_unpack]: the values pushed, each on those before it. *)
Fixpoint unpack_fields (n free : nat) (fs : list field) (m : M) : option (list lua) :=
  match fs with
  | [] => Some []
  | f :: fs =>
    v ← decode_field (decode_message n) free f m;
    free ← push free;
    vs ← unpack_fields n free fs m;
    Some (v :: vs)
  end.

Definition proto_unpack (free : nat) (d : nat) (input : list Z) : option (list lua) :=
  fs ← pool !! d;
  m ← ParseFromArray d input;
  unpack_fields (S free) free (Encoder.SortFieldsByNumber fs) m.

(** [proto_create]: the loop, and the call of itself for a message that is
    neither repeated nor a map. *)
Fixpoint create_fields (proto_create : nat -> nat -> result lua) (free : nat) (fs : list field) (m : M) (t : list (lua * lua)) : result lua :=
  match fs with
  | [] => Done (LTable t)
  | f :: fs =>
    let v := if is_map f || match flabel f with REPEATED => true | _ => false end
             then match push free with Some _ => Done (LTable []) | None => Fault end
             else match cpp f with
                  | CPPTYPE_MESSAGE => proto_create free (message_type f)
                  | _ => match decode_single (fun _ _ _ => None) free f m with Some v => Done v | None => Fault end
                  end in
    match v with
    | Done v => create_fields proto_create free fs m (set_ t (LStr (name f)) v)
    | OutOfFuel => OutOfFuel
    | Fault => Fault
    end
  end.

Fixpoint proto_create (n : nat) (free : nat) (d : nat) : result lua :=
  match n with
  | O => OutOfFuel
  | S n =>
    match pool !! d, push free with
    | Some fs, Some free => create_fields (proto_create n) free fs (New d) []
    | _, _ => Fault
    end
  end.

End Decoder.
End Decoder.
