(* ===== verification/ProtoLuaProps.v ===== *)
(** * ProtoLuaProps: Lua values through protocol buffers

    The Lua values that conform to a message type and for which a Lua stack has
    slots enough, and that [encode_message] makes of one a message that holds
    it. *)
From S2P Require Import Prelude TcpSock ProtoLua.

Module ProtoLuaProps.
Import Lua Proto Encoder Decoder.

(** ** Tables *)

Definition is_key (k : lua) : Prop := match k with LNil | LTable _ => False | _ => True end.

Lemma key_eqb_spec a b : key_eqb a b = true <-> is_key a /\ a = b.
Proof.
  destruct a, b; cbn; try (split; [done|by intros [? [=]]]).
  - rewrite Bool.eqb_true_iff. split; [by intros ->|by intros [_ [= ->]]].
  - rewrite Z.eqb_eq. split; [by intros ->|by intros [_ [= ->]]].
  - rewrite Z.eqb_eq. split; [by intros ->|by intros [_ [= ->]]].
  - rewrite bool_decide_eq_true. split; [by intros ->|by intros [_ [= ->]]].
Qed.

Lemma key_eqb_refl k : is_key k -> key_eqb k k = true.
Proof. intros H. by apply key_eqb_spec. Qed.

Lemma key_eqb_neq a b : a <> b -> key_eqb a b = false.
Proof. intros H. apply Bool.not_true_iff_false. rewrite key_eqb_spec. naive_solver. Qed.

Lemma get_erase_ne l k k' : k <> k' -> get (erase l k) k' = get l k'.
Proof.
  intros Hne. induction l as [|[a v] l IH]; cbn; [done|]. destruct (key_eqb a k) eqn:E; cbn; rewrite IH; [|done].
  apply key_eqb_spec in E as [_ ->]. by rewrite (key_eqb_neq k k').
Qed.

Lemma get_erase_eq l k : get (erase l k) k = LNil.
Proof. induction l as [|[a v] l IH]; cbn; [done|]. destruct (key_eqb a k) eqn:E; cbn; [done|]. by rewrite E. Qed.

Lemma get_snoc_eq l k v : is_key k -> get (erase l k ++ [(k, v)]) k = v.
Proof.
  intros Hk. induction l as [|[a x] l IH]; cbn; [by rewrite key_eqb_refl|]. destruct (key_eqb a k) eqn:E; cbn; [done|]. by rewrite E.
Qed.

Lemma get_snoc_ne l k v k' : k <> k' -> get (l ++ [(k, v)]) k' = get l k'.
Proof. intros Hne. induction l as [|[a x] l IH]; cbn; [by rewrite key_eqb_neq|]. by destruct (key_eqb a k'). Qed.

Lemma get_set l k v k' : is_key k -> get (set_ l k v) k' = if key_eqb k k' then v else get l k'.
Proof.
  intros Hk. unfold set_. destruct (key_eqb k k') eqn:E.
  - apply key_eqb_spec in E as [_ <-]. destruct v; cbn [isnil]; first [apply get_erase_eq|by apply get_snoc_eq].
  - assert (k <> k') as Hne by (intros <-; by rewrite key_eqb_refl in E).
    destruct (isnil v); [|rewrite get_snoc_ne by done]; by apply get_erase_ne.
Qed.

(** ** Slots *)

Lemma push_ok k free : (0 < k <= free)%nat -> exists free', push free = Some free' /\ (k - 1 <= free')%nat.
Proof. destruct free as [|free]; [lia|]. exists free. split; [done|lia]. Qed.

(** ** Values that fit a type *)

Section Values.
Context `{!LuaAPI} (to_float of_float : Z -> Z).

(** A value that a field that is no message can hold as it is. *)
Definition fits (f : field) (x : lua) : Prop :=
  match cpp f, x with
  | CPPTYPE_DOUBLE, LNum _ => True
  | CPPTYPE_FLOAT, LNum d => of_float (to_float d) = d
  | CPPTYPE_INT32, LInt n => in_i 32 n
  | CPPTYPE_ENUM, LInt n => in_i 32 n /\ enum_has f n = true
  | CPPTYPE_UINT32, LInt n => in_u 32 n
  | (CPPTYPE_INT64 | CPPTYPE_UINT64), LInt n => in_i 64 n
  | CPPTYPE_BOOL, LBool _ => True
  | CPPTYPE_STRING, LStr _ => True
  | _, _ => False
  end.

Lemma scalar_back f x : fits f x -> of_scalar of_float (to_scalar to_float (cpp f) x) = x.
Proof.
  unfold fits. destruct (cpp f), x; cbn; try done; unfold lua_tonumber, lua_tointeger; cbn; intros Hx.
  - by rewrite Hx.
  - rewrite (sext_small 32 n) by (done || lia). by rewrite (sext_small 64 n) by (unfold in_i in *; lia).
  - rewrite wrap_small by done. by rewrite (sext_small 64 n) by (unfold in_i, in_u in *; lia).
  - by rewrite !(sext_small 64 n) by (done || lia).
  - by rewrite sext_wrap, (sext_small 64 n) by (done || lia).
  - destruct Hx as [Hx _]. rewrite (sext_small 32 n) by (done || lia).
    by rewrite (sext_small 64 n) by (unfold in_i in *; lia).
  - by destruct b.
Qed.

Lemma fits_key f x : fits f x -> is_key x.
Proof. unfold fits. by destruct (cpp f), x. Qed.

Lemma fits_some f x : fits f x -> isnil x = false.
Proof. unfold fits. by destruct (cpp f), x. Qed.

Lemma fits_settable {M} f x : fits f x -> settable (M := M) f (inl (to_scalar to_float (cpp f) x)).
Proof.
  unfold fits, settable. destruct (cpp f); cbn; try done. destruct x; try done. intros [Hn He].
  unfold lua_tointeger. cbn. by rewrite (sext_small 32 n) by (done || lia).
Qed.

(** ** Messages that hold a value *)

Context {M : Type} `{!Reflection M} (pool : Proto.pool).

Abbreviation entry := (lua * lua)%type.

(** Relations between a Lua value and a message of a type, given for the
    messages inside; [k] slots of the Lua stack are enough to push the value:
    one for a table, one more for a table in it or its elements, and one more
    for a key below a value. *)
Section Rec.
Context (R : nat -> nat -> lua -> M -> Prop).

Definition value_holds (k : nat) (f : field) (x : lua) (v : scalar + M) : Prop :=
  (0 < k)%nat /\
  match cpp f, v with
  | CPPTYPE_MESSAGE, inr sub => R k (message_type f) x sub
  | CPPTYPE_MESSAGE, inl _ => False
  | t, inl s => fits f x /\ s = to_scalar to_float t x
  | _, inr _ => False
  end.

Definition one_holds (k : nat) (f : field) (x : lua) (vs : list (scalar + M)) : Prop :=
  exists v, vs = [v] /\ value_holds k f x v.

Definition entry_holds (k : nat) (key value : field) (kv : entry) (e : scalar + M) : Prop :=
  exists sub, e = inr sub /\ one_holds (k - 1) key (fst kv) (contents sub (number key)) /\
    one_holds (k - 2) value (snd kv) (contents sub (number value)).

Definition field_holds (k : nat) (f : field) (x : lua) (vs : list (scalar + M)) : Prop :=
  (0 < k)%nat /\
  if is_map f then
    match pool !! message_type f, x with
    | Some [key; value], LNil => vs = []
    | Some [key; value], LTable l => NoDup (fst <$> l) /\ exists p, p ≡ₚ l /\ Forall2 (entry_holds k key value) p vs
    | _, _ => False
    end
  else match flabel f, x with
       | REPEATED, LNil => vs = []
       | REPEATED, LTable l => length vs = Z.to_nat (len l) /\
           forall i v, vs !! i = Some v -> value_holds (k - 1) f (get l (LInt (Z.of_nat i + 1))) v
       | REPEATED, _ => False
       | OPTIONAL, LNil => vs = []
       | REQUIRED, LNil => False
       | _, _ => one_holds k f x vs
       end.
End Rec.

Fixpoint holds (n : nat) (k : nat) (d : nat) (x : lua) (m : M) : Prop :=
  match n with
  | O => False
  | S n => (0 < k)%nat /\ exists l fs, x = LTable l /\ pool !! d = Some fs /\
      forall f, f ∈ fs -> field_holds (holds n) (k - 1) f (get l (LStr (name f))) (contents m (number f))
  end.

(** ** Values that conform to a type *)

Section Rec.
Context (C : nat -> nat -> lua -> Prop).

Definition value_conforms (k : nat) (f : field) (x : lua) : Prop :=
  (0 < k)%nat /\ match cpp f with CPPTYPE_MESSAGE => C k (message_type f) x | _ => fits f x end.

Definition pair_conforms (k : nat) (key value : field) (kv : entry) : Prop :=
  value_conforms (k - 1) key (fst kv) /\ value_conforms (k - 2) value (snd kv).

Definition field_conforms (k : nat) (f : field) (x : lua) : Prop :=
  (0 < k)%nat /\
  if is_map f then
    match pool !! message_type f, x with
    | Some [key; value], LNil => True
    | Some [key; value], LTable l => NoDup (fst <$> l) /\ Forall (pair_conforms k key value) l
    | _, _ => False
    end
  else match flabel f, x with
       | REPEATED, LNil => True
       | REPEATED, LTable l => len l < 2 ^ 31 /\ forall i, 0 <= i < len l -> value_conforms (k - 1) f (get l (LInt (i + 1)))
       | REPEATED, _ => False
       | OPTIONAL, LNil => True
       | REQUIRED, LNil => False
       | _, _ => value_conforms k f x
       end.
End Rec.

(** A table with a value for every required field, and of the right kind for
    every field it has; [n] bounds the depth, and [k] slots are enough to push
    it. *)
Fixpoint conforms (n : nat) (k : nat) (d : nat) (x : lua) : Prop :=
  match n with
  | O => False
  | S n => (0 < k)%nat /\ exists l fs, x = LTable l /\ pool !! d = Some fs /\
      forall f, f ∈ fs -> field_conforms (conforms n) (k - 1) f (get l (LStr (name f)))
  end.

(** What the compiler of .proto files sees to. *)
Definition map_ok (f : field) : Prop := is_map f = true -> exists key value,
  pool !! message_type f = Some [key; value] /\ number key <> number value /\ cpp key <> CPPTYPE_MESSAGE.
Definition pool_ok : Prop := forall d fs, pool !! d = Some fs ->
  NoDup (name <$> fs) /\ NoDup (number <$> fs) /\ forall f, f ∈ fs -> map_ok f.

(** ** Encoding a value that conforms *)

Section Encode.
Context (enc : nat -> nat -> lua -> M -> option M) (C : nat -> nat -> lua -> Prop) (R : nat -> nat -> lua -> M -> Prop).
Context (enc_ok : forall k free d x, (k <= free)%nat -> C k d x -> exists m, enc free d x (New d) = Some m /\ R k d x m).
Context (C_some : forall k d, ~ C k d LNil).

Lemma conforms_some k f x : value_conforms C k f x -> isnil x = false.
Proof.
  intros [_ Hc]. unfold fits in Hc. destruct x; try done. exfalso.
  destruct (cpp f); cbn in Hc; try done. by apply (C_some k (message_type f)).
Qed.

Lemma value_settable k f x v : value_holds R k f x v -> settable f v.
Proof.
  intros [_ Hv]. revert Hv. destruct (cpp f) eqn:E, v as [s|sub]; try done; intros [Hf ->]; rewrite <- E; by apply fits_settable.
Qed.

Lemma encode_single_ok k free f x m : (k <= free)%nat -> contents m (number f) = [] -> value_conforms C k f x ->
  exists v, encode_single to_float enc free f x m = Some (Set_ f v m) /\ value_holds R k f x v.
Proof.
  intros Hk He [H0 Hc]. unfold encode_single, value_holds, MutableMessage in *. rewrite He.
  destruct (cpp f); try (eexists; by split_and!).
  destruct (enc_ok _ _ _ _ Hk Hc) as (sub & E & Hr). rewrite E. by exists (inr sub).
Qed.

Lemma encode_multiple_ok k free f x m : (k <= free)%nat -> value_conforms C k f x ->
  exists v, encode_multiple to_float enc free f x m = Some (Add f v m) /\ value_holds R k f x v.
Proof.
  intros Hk [H0 Hc]. unfold encode_multiple, value_holds in *.
  destruct (cpp f); try (eexists; by split_and!).
  destruct (enc_ok _ _ _ _ Hk Hc) as (sub & E & Hr). rewrite E. by exists (inr sub).
Qed.

Lemma encode_items_ok k free f l n : (0 < k <= free)%nat -> forall i m,
  (forall j, i <= j < i + Z.of_nat n -> value_conforms C (k - 1) f (get l (LInt (j + 1)))) ->
  exists m' vs, encode_items to_float enc free f l n i m = Some m' /\ contents m' (number f) = contents m (number f) ++ vs /\
    (forall q, q <> number f -> contents m' q = contents m q) /\ length vs = n /\
    forall j v, vs !! j = Some v -> value_holds R (k - 1) f (get l (LInt (i + Z.of_nat j + 1))) v.
Proof.
  intros Hk. destruct (push_ok k free Hk) as (free' & Ep & Hk').
  induction n as [|n IH]; intros i m Hc; cbn [encode_items].
  { exists m, []. by rewrite app_nil_r. }
  rewrite Ep. cbn [mbind option_bind].
  destruct (encode_multiple_ok (k - 1) free' f (get l (LInt (i + 1))) m Hk') as (v & E & Hv); [apply Hc; lia|]. rewrite E. cbn [mbind option_bind].
  destruct (IH (i + 1) (Add f v m)) as (m' & vs & E' & Hn & Ho & Hl & Hvs); [intros j Hj; apply Hc; lia|].
  pose proof (value_settable _ _ _ _ Hv) as Hs.
  exists m', (v :: vs). split; [done|]. rewrite add_law, decide_True in Hn by done. split_and!.
  - by rewrite Hn, <- app_assoc.
  - intros q Hq. by rewrite Ho, add_law, decide_False by done.
  - cbn. by rewrite Hl.
  - intros [|j] v' Hv'; cbn in Hv'; [injection Hv' as <-; by rewrite Z.add_0_r|].
    replace (i + Z.of_nat (S j) + 1) with (i + 1 + Z.of_nat j + 1) by lia. by apply Hvs.
Qed.

Lemma key_left_fits k f x : value_conforms C k f x -> cpp f <> CPPTYPE_MESSAGE -> key_left f x = x /\ is_key x.
Proof. intros [_ Hc] Hm. unfold key_left, fits in *. by destruct (cpp f), x. Qed.

Lemma after_key pre k v l : is_key k -> k ∉ (fst <$> pre) -> after (pre ++ (k, v) :: l) k = Some l.
Proof.
  intros Hk. induction pre as [|[a x] pre IH]; cbn; intros Hn; [by rewrite key_eqb_refl|].
  apply not_elem_of_cons in Hn as [Ha Hn]. rewrite key_eqb_neq by (by intros ->). by apply IH.
Qed.

Lemma encode_present_new k free f x m : (k <= free)%nat -> contents m (number f) = [] -> value_conforms C k f x ->
  exists v, encode_present to_float enc free f x m = Some (Set_ f v m) /\ value_holds R k f x v.
Proof.
  intros Hk He Hc. unfold encode_present. rewrite (conforms_some k f x Hc). by apply encode_single_ok.
Qed.

(** [free]: what is left after the key. *)
Lemma encode_pairs_ok k free f key value t : (k - 1 <= free)%nat ->
  number key <> number value -> cpp key <> CPPTYPE_MESSAGE -> NoDup (fst <$> t) ->
  forall l n pre m, t = pre ++ l -> (length l <= n)%nat -> Forall (pair_conforms C k key value) l ->
  exists m' es, encode_pairs to_float enc free n f key value t l m = Some m' /\ contents m' (number f) = contents m (number f) ++ es /\
    (forall q, q <> number f -> contents m' q = contents m q) /\ Forall2 (entry_holds R k key value) l es.
Proof.
  intros Hf Hne Hkm Hnd. induction l as [|[x v] l IH]; intros n pre m Et Hn Hl.
  { exists m, []. rewrite app_nil_r. destruct n; split_and!; done || constructor. }
  destruct n as [|n]; cbn in Hn; [lia|]. cbn [encode_pairs].
  apply list.Forall_cons in Hl as [[Hx Hv] Hl]. cbn in Hx, Hv. pose proof (proj1 Hv) as Hk2.
  destruct (push_ok (k - 1) free) as (free' & -> & Hf'); [lia|]. cbn [mbind option_bind].
  assert (value_conforms C (k - 1) key x) as Hx0 by done.
  destruct Hx0 as [Hk1 Hx0].
  assert (exists a, encode_present to_float enc free' key x (New (message_type f)) = Some (Set_ key a (New (message_type f))) /\
    value_holds R (k - 1) key x a) as (a & -> & Ha).
  { unfold encode_present, encode_single, value_holds. rewrite (conforms_some _ _ _ Hx).
    destruct (cpp key); try done; eexists; by split_and!. }
  cbn [mbind option_bind].
  pose proof (value_settable _ _ _ _ Ha) as Hsa. set (sub := Set_ key a _).
  assert (contents sub (number value) = []) as Hsub by (unfold sub; rewrite set_law, decide_False by done; apply new_law).
  destruct (encode_present_new (k - 2) free' value v sub) as (b & -> & Hb); [lia|done|done|]. cbn [mbind option_bind].
  pose proof (value_settable _ _ _ _ Hb) as Hsb. set (sub' := Set_ value b sub).
  destruct (key_left_fits (k - 1) key x Hx Hkm) as [-> Hkk].
  assert (after t x = Some l) as ->.
  { rewrite Et. apply after_key; [done|]. rewrite Et, fmap_app in Hnd. apply list.NoDup_app in Hnd as (_ & Hd & _).
    intros Hin. apply (Hd x Hin). left. }
  cbn [mbind option_bind].
  destruct (IH n (pre ++ [(x, v)]) (Add f (inr sub') m)) as (m' & es & E & Hc & Ho & He); [by rewrite <- app_assoc|lia|done|].
  exists m', (inr sub' :: es). split; [done|].
  rewrite add_law, decide_True in Hc by done. split_and!.
  - by rewrite Hc, <- app_assoc.
  - intros q Hq. by rewrite Ho, add_law, decide_False by done.
  - constructor; [|done]. exists sub'. split; [done|]. cbn. unfold sub'. rewrite !set_law, decide_False, decide_True by done.
    split; [exists a|by exists b]. split; [|done]. unfold sub. by rewrite set_law, decide_True.
Qed.

Lemma encode_field_ok k free f x m : (k <= free)%nat -> map_ok f -> contents m (number f) = [] -> field_conforms C k f x ->
  exists m', encode_field pool to_float enc free f x m = Some m' /\ field_holds R k f x (contents m' (number f)) /\
    forall q, q <> number f -> contents m' q = contents m q.
Proof.
  intros Hk Hmap He [H0 Hc]. unfold encode_field, field_holds in *. destruct (is_map f) eqn:Em.
  - destruct (Hmap Em) as (key & value & Ep & Hne & Hkm). unfold encode_table. rewrite Ep in *.
    destruct x as [| | | | |l]; try done; [by exists m|]. destruct Hc as [Hnd Hc].
    destruct (push_ok k free) as (free' & -> & Hf); [lia|]. cbn [mbind option_bind].
    destruct (encode_pairs_ok k free' f key value l Hf Hne Hkm Hnd l (length l) [] m eq_refl) as (m' & es & E & Hn & Ho & Hes); [done..|].
    exists m'. split; [done|]. rewrite Hn, He. split; [|done]. split; [done|]. split; [done|]. by exists l.
  - assert (value_conforms C k f x -> exists m', encode_present to_float enc free f x m = Some m' /\ one_holds R k f x (contents m' (number f)) /\
      forall q, q <> number f -> contents m' q = contents m q) as Hone.
    { intros Hv. destruct (encode_present_new k free f x m Hk He Hv) as (v & E & Hh). eexists. split; [exact E|].
      pose proof (value_settable _ _ _ _ Hh). split; [exists v; by rewrite set_law, decide_True|].
      intros q Hq. by rewrite set_law, decide_False. }
    destruct (flabel f).
    + destruct x; try done; destruct (Hone Hc) as (m' & ? & ? & ?); by exists m'.
    + destruct x; try (destruct (Hone Hc) as (m' & ? & ? & ?); by exists m'). by exists m.
    + destruct x as [| | | | |l]; try done; [by exists m|]. destruct Hc as [Hl Hc]. pose proof (len_law l) as [Hlen _].
      unfold encode_repeated. rewrite sext_small by (lia || (unfold in_i; lia)).
      destruct (encode_items_ok k free f l (Z.to_nat (len l)) (conj H0 Hk) 0 m) as (m' & vs & E & Hn & Ho & Hlv & Hvs); [intros j Hj; apply Hc; lia|].
      exists m'. split; [done|]. rewrite Hn, He. split; [|done]. split; [done|]. split; [done|]. intros i v Hv. by apply (Hvs i v).
Qed.

(** [k]: what is enough for a field; the fields are pushed, one after another,
    on [free] slots. *)
Lemma encode_fields_ok k free fs l : (k < free)%nat -> NoDup (number <$> fs) ->
  (forall f, f ∈ fs -> map_ok f) ->
  (forall f, f ∈ fs -> field_conforms C k f (get l (LStr (name f)))) ->
  forall m, (forall f, f ∈ fs -> contents m (number f) = []) ->
  exists m', encode_fields pool to_float enc free fs (LTable l) m = Some m' /\
    (forall f, f ∈ fs -> field_holds R k f (get l (LStr (name f))) (contents m' (number f))) /\
    forall q, q ∉ (number <$> fs) -> contents m' q = contents m q.
Proof.
  intros Hk. induction fs as [|f fs IH]; intros Hnd Hmap Hc m He; cbn [encode_fields].
  { exists m. split_and!; [done| |done]. by intros f ?%elem_of_nil. }
  apply list.NoDup_cons in Hnd as [Hnf Hnd]. cbn [get_of].
  destruct (push_ok (S k) free) as (free' & -> & Hf'); [lia|]. cbn [mbind option_bind].
  destruct (encode_field_ok k free' f (get l (LStr (name f))) m) as (m1 & E & Hh & Ho); [lia|apply Hmap; left|apply He; left|apply Hc; left|].
  rewrite E. cbn [mbind option_bind].
  assert (forall g, g ∈ fs -> number g <> number f) as Hdiff.
  { intros g Hg En. apply Hnf. rewrite <- En. by apply list_elem_of_fmap_2. }
  destruct (IH Hnd) with (m := m1) as (m' & E' & Hh' & Ho').
  - intros g Hg. apply Hmap. by right.
  - intros g Hg. apply Hc. by right.
  - intros g Hg. rewrite Ho by (by apply Hdiff). apply He. by right.
  - exists m'. split; [done|]. split.
    + intros g [->|Hg]%elem_of_cons; [by rewrite Ho'|by apply Hh'].
    + intros q [Hq Hq']%not_elem_of_cons. by rewrite Ho', Ho.
Qed.

End Encode.

Lemma conforms_not_nil n k d : ~ conforms n k d LNil.
Proof. destruct n as [|n]; [by intros []|]. by intros (_ & l & fs & ? & _). Qed.

Lemma encode_message_ok n : pool_ok -> forall k free d x, (k <= free)%nat -> conforms n k d x ->
  exists m, encode_message pool to_float n free d x (New d) = Some m /\ holds n k d x m.
Proof.
  intros Hpool. induction n as [|n IH]; intros k free d x Hk Hc; [done|]. cbn [conforms encode_message holds] in *.
  destruct Hc as (H0 & l & fs & -> & Ed & Hc). destruct (Hpool d fs Ed) as (_ & Hnd & Hmap). rewrite Ed.
  destruct (encode_fields_ok _ _ _ IH (conforms_not_nil n) (k - 1) free fs l ltac:(lia) Hnd Hmap Hc (New d)) as (m & E & Hh & _); [intros; apply new_law|].
  exists m. split; [done|]. split; [done|]. by exists l, fs.
Qed.

End Values.
End ProtoLuaProps.
