(* ===== verification/ProtoLuaTrip.v ===== *)
(** * ProtoLuaTrip: a Lua value through the wire

    A Lua value that conforms to a message type is encoded, and what
    [proto_encode] gives decodes to a value that shows what it held, with the
    defaults of the type for what it did not hold; through any wire format that
    keeps the messages it is given. *)
From Stdlib Require Import Sorting.Sorted.
From S2P Require Import Prelude TcpSock ProtoLua ProtoLuaProps.

Module ProtoLuaTrip.
Import Lua Proto Encoder Decoder ProtoLuaProps.

Section Trip.
Context `{!LuaAPI} (to_float of_float : Z -> Z) {M : Type} `{!Reflection M} (pool : Proto.pool).

(** ** What decoding shows of a value *)

Definition count (x : lua) : Z := match x with LTable l => len l | _ => 0 end.

Section Rec.
Context (W : nat -> lua -> lua -> Prop).

Definition value_shows (f : field) (x y : lua) : Prop :=
  match cpp f with CPPTYPE_MESSAGE => W (message_type f) x y | _ => y = x end.

Definition absent (f : field) : lua :=
  match cpp f with CPPTYPE_MESSAGE => LNil | _ => of_scalar of_float (default_of f) end.

(** A map has the same pairs, and a list the same elements, of the table that
    was given or none; another field the value that was given, or the default. *)
Definition field_shows (f : field) (x y : lua) : Prop :=
  if is_map f then
    match pool !! message_type f, y with
    | Some [key; value], LTable l => forall k, is_key k ->
        if isnil (get_of x k) then get l k = LNil else value_shows value (get_of x k) (get l k)
    | _, _ => False
    end
  else match flabel f with
       | REPEATED => exists l, y = LTable l /\ forall i,
           if (0 <=? i) && (i <? count x) then value_shows f (get_of x (LInt (i + 1))) (get l (LInt (i + 1)))
           else get l (LInt (i + 1)) = LNil
       | _ => if isnil x then y = absent f else value_shows f x y
       end.
End Rec.

Fixpoint shows (n : nat) (d : nat) (x y : lua) : Prop :=
  match n with
  | O => False
  | S n => exists l l' fs, x = LTable l /\ y = LTable l' /\ pool !! d = Some fs /\
      forall f, f ∈ fs -> field_shows (shows n) f (get l (LStr (name f))) (get l' (LStr (name f)))
  end.

(** ** Decoding a message that holds a value *)

Section Decode.
Context (dec : nat -> nat -> M -> option lua) (R : nat -> nat -> lua -> M -> Prop) (W : nat -> lua -> lua -> Prop).
Context (dec_ok : forall k free d x m, (k <= free)%nat -> R k d x m -> exists y, dec free d m = Some y /\ W d x y /\ isnil y = false).
Context (R_some : forall k d m, ~ R k d LNil m).

Abbreviation value_holds := (value_holds to_float of_float R).
Abbreviation entry_holds := (entry_holds to_float of_float R).

Lemma decode_value_ok k free f x v : (k <= free)%nat -> value_holds k f x v ->
  exists y, decode_value of_float dec free f v = Some y /\ value_shows W f x y /\ isnil y = false.
Proof.
  intros Hk [H0 Hv]. revert Hv. destruct (push_ok k free (conj H0 Hk)) as (free' & Ep & _).
  unfold value_shows, decode_value. destruct (cpp f) eqn:E, v as [s|sub]; try done;
    try (intros [Hf ->]; exists x; rewrite Ep; cbn [mbind option_bind]; rewrite <- E, scalar_back by done; split_and!; [done..|by eapply fits_some]).
  by apply dec_ok.
Qed.

Lemma value_holds_some k f x v : value_holds k f x v -> isnil x = false.
Proof.
  intros [_ Hv]. destruct x; try done. exfalso. unfold fits in Hv. destruct (cpp f), v; try done;
    try (by destruct Hv). by eapply R_some.
Qed.

Lemma decode_one_ok k free f x m : (k <= free)%nat -> one_holds to_float of_float R k f x (contents m (number f)) ->
  exists y, decode_single of_float dec free f m = Some y /\ decode_optional of_float dec free f m = Some y /\
    value_shows W f x y /\ isnil y = false.
Proof.
  intros Hk (v & E & Hv). destruct (decode_value_ok k free f x v Hk Hv) as (y & Ey & Hy). exists y.
  unfold decode_optional, decode_single. rewrite E. by destruct (cpp f).
Qed.

Lemma decode_items_ok k free f g vs : (k <= free)%nat ->
  forall i t, (forall j v, vs !! j = Some v -> value_holds k f (g (i + Z.of_nat j + 1)) v) ->
  exists t', decode_items of_float dec free f vs i t = Some (LTable t') /\
    (forall j, i <= j < i + Z.of_nat (length vs) -> value_shows W f (g (j + 1)) (get t' (LInt (j + 1)))) /\
    (forall j, ~ (i <= j < i + Z.of_nat (length vs)) -> get t' (LInt (j + 1)) = get t (LInt (j + 1))).
Proof.
  intros Hk. induction vs as [|v vs IH]; intros i t Hv; cbn [decode_items].
  { exists t. split_and!; [done|cbn; lia|done]. }
  destruct (decode_value_ok k free f (g (i + 1)) v Hk) as (y & -> & Hy & Hs); [rewrite <- (Z.add_0_r i); by apply (Hv 0%nat)|].
  cbn [mbind option_bind].
  destruct (IH (i + 1) (set_ t (LInt (i + 1)) y)) as (t' & E & Hin & Hout).
  { intros j w Hw. replace (i + 1 + Z.of_nat j + 1) with (i + Z.of_nat (S j) + 1) by lia. by apply Hv. }
  assert (forall j, get (set_ t (LInt (i + 1)) y) (LInt (j + 1)) = if decide (j = i) then y else get t (LInt (j + 1))) as Hset.
  { intros j. rewrite get_set by done. cbn [key_eqb]. case_decide; [subst; by rewrite Z.eqb_refl|].
    by rewrite (proj2 (Z.eqb_neq _ _)) by lia. }
  exists t'. split; [done|]. cbn [length]. split; intros j Hj.
  - destruct (decide (j = i)) as [->|Hne]; [|apply Hin; lia]. rewrite Hout by lia. by rewrite Hset, decide_True.
  - rewrite Hout by lia. rewrite Hset, decide_False by lia. done.
Qed.

Lemma decode_pairs_ok k free key value p vs : (k - 1 <= free)%nat -> cpp key <> CPPTYPE_MESSAGE -> Forall2 (entry_holds k key value) p vs ->
  NoDup (fst <$> p) -> forall t, exists t', decode_pairs of_float dec free key value vs t = Some (LTable t') /\
    (forall k v, (k, v) ∈ p -> value_shows W value v (get t' k)) /\
    (forall k, k ∉ (fst <$> p) -> get t' k = get t k).
Proof.
  intros Hf Hkm. induction 1 as [|[x v] e p vs He Hp IH]; intros Hnd t; cbn [decode_pairs].
  { exists t. split_and!; [done| |done]. by intros x v ?%elem_of_nil. }
  destruct He as (sub & -> & Hx & Hv). cbn in Hx, Hv. apply list.NoDup_cons in Hnd as [Hni Hnd]. cbn in Hni.
  destruct (decode_one_ok (k - 1) free key x sub Hf Hx) as (x' & _ & -> & Hsx & Hx'). cbn [mbind option_bind].
  assert (0 < k - 2)%nat as Hk2 by (destruct Hv as (w & _ & Hw & _); done).
  destruct (push_ok (k - 1) free) as (free' & -> & Hf'); [lia|]. cbn [mbind option_bind].
  destruct (decode_one_ok (k - 2) free' value v sub) as (y & _ & -> & Hsv & Hy); [lia|done|]. cbn [mbind option_bind]. rewrite Hx'.
  assert (x' = x) as -> by (unfold value_shows in Hsx; by destruct (cpp key)).
  assert (is_key x) as Hkk.
  { destruct Hx as (w & _ & _ & Hw). destruct (cpp key) eqn:E, w; try done;
      destruct Hw as [Hw _]; by eapply fits_key. }
  destruct (IH Hnd (set_ t x y)) as (t' & E & Hin & Hout). exists t'. split; [done|]. split.
  - intros k1 v1 [[= -> ->]|Hin']%elem_of_cons; [|by apply Hin]. rewrite Hout by done. by rewrite get_set, key_eqb_refl.
  - intros k1 [Hne Hn]%not_elem_of_cons. rewrite Hout by done. rewrite get_set, key_eqb_neq by done. done.
Qed.

Lemma get_in l k v : is_key k -> NoDup (fst <$> l) -> (k, v) ∈ l -> get l k = v.
Proof.
  intros Hk. induction l as [|[a x] l IH]; intros Hnd Hin; [by apply elem_of_nil in Hin|].
  apply list.NoDup_cons in Hnd as [Hni Hnd]. cbn in *. apply elem_of_cons in Hin as [[= -> ->]|Hin]; [by rewrite key_eqb_refl|].
  rewrite key_eqb_neq; [by apply IH|]. intros ->. apply Hni. by apply (list_elem_of_fmap_2 fst l (k, v)).
Qed.

Lemma get_out l k : k ∉ (fst <$> l) -> get l k = LNil.
Proof.
  induction l as [|[a x] l IH]; [done|]. intros [Hne Hn]%not_elem_of_cons. cbn in *. rewrite key_eqb_neq by done. by apply IH.
Qed.

Lemma key_in k (l : list lua) : is_key k -> k ∈ l \/ k ∉ l.
Proof.
  intros Hk. induction l as [|a l [IH|IH]]; [right; by intros ?%elem_of_nil|left; by right|].
  destruct (key_eqb a k) eqn:E; [apply key_eqb_spec in E as [_ ->]; left; left|right].
  apply not_elem_of_cons. split; [|done]. intros ->. by rewrite key_eqb_refl in E.
Qed.

(** [get] of the pairs of a map that is held. *)
Lemma entries_get n key value p vs k : Forall2 (entry_holds n key value) p vs -> NoDup (fst <$> p) -> is_key k ->
  (k ∈ (fst <$> p) /\ (k, get p k) ∈ p /\ isnil (get p k) = false) \/ (k ∉ (fst <$> p) /\ get p k = LNil).
Proof.
  intros Hp Hnd Hk. destruct (key_in k (fst <$> p) Hk) as [Hin|Hout]; [left|right; split; [done|by apply get_out]].
  split; [done|]. apply list_elem_of_fmap in Hin as ([k' v] & -> & Hin). cbn in *.
  rewrite (get_in p k' v Hk Hnd Hin). split; [done|].
  apply list_elem_of_lookup in Hin as [j Hj]. destruct (Forall2_lookup_l _ _ _ _ _ Hp Hj) as (e & _ & He).
  destruct He as (sub & _ & _ & w & _ & Hw). by eapply value_holds_some.
Qed.

Lemma get_perm l p k : is_key k -> p ≡ₚ l -> NoDup (fst <$> l) -> get p k = get l k.
Proof.
  intros Hk Hp Hnd. assert (NoDup (fst <$> p)) as Hnd' by (by rewrite Hp).
  destruct (key_in k (fst <$> l) Hk) as [Hin|Hout].
  - apply list_elem_of_fmap in Hin as ([k' v] & -> & Hin). cbn in *. rewrite (get_in l k' v) by done.
    apply get_in; [done..|by rewrite Hp].
  - rewrite !get_out; [done..|by rewrite Hp].
Qed.

Lemma decode_field_ok k free f x m : (k <= free)%nat ->
  map_ok pool f ->
  field_holds to_float of_float pool R k f x (contents m (number f)) ->
  exists y, decode_field pool of_float dec free f m = Some y /\ field_shows W f x y.
Proof.
  intros Hk Hmap [H0 Hh]. destruct (push_ok k free (conj H0 Hk)) as (free' & Ep & Hf').
  unfold decode_field, field_shows in *. destruct (is_map f) eqn:Em.
  - destruct (Hmap Em) as (key & value & Et & _ & Hkm). unfold decode_table. rewrite Et in *. rewrite Ep. cbn [mbind option_bind].
    destruct x as [| | | | |l]; try done.
    { rewrite Hh. by eexists. }
    destruct Hh as (Hnd & p & Hp & Hes). assert (NoDup (fst <$> p)) as Hnd' by (by rewrite Hp).
    destruct (decode_pairs_ok k free' key value p _ Hf' Hkm Hes Hnd' []) as (t & E & Hin & Hout). exists (LTable t). split; [done|].
    intros x Hx. cbn [get_of]. rewrite <- (get_perm l p x Hx Hp Hnd).
    destruct (entries_get k key value p _ x Hes Hnd' Hx) as [(_ & Hkv & ->)|[Hn ->]]; [by apply Hin|by apply Hout].
  - assert (one_holds to_float of_float R k f x (contents m (number f)) -> isnil x = false /\ exists y, decode_single of_float dec free f m = Some y /\
      decode_optional of_float dec free f m = Some y /\ value_shows W f x y) as Hone.
    { intros Ho. destruct (decode_one_ok k free f x m Hk Ho) as (y & E1 & E2 & Hy & _).
      destruct Ho as (v & _ & Hv). split; [by eapply value_holds_some|by exists y]. }
    destruct (flabel f).
    + destruct x; try done; destruct (Hone Hh) as (_ & y & E & _ & Hy); by exists y.
    + destruct (isnil x) eqn:En.
      * destruct x; try done. unfold decode_optional, decode_single, absent. rewrite Hh, Ep. by destruct (cpp f); eexists.
      * destruct x; try done; destruct (Hone Hh) as (_ & y & _ & E & Hy); by exists y.
    + unfold decode_repeated. rewrite Ep. cbn [mbind option_bind]. destruct x as [| | | | |l]; try done.
      { rewrite Hh. eexists; split; [done|]. eexists; split; [done|]. intros i. cbn [count].
        by destruct ((0 <=? i) && (i <? 0)) eqn:Ei; [lia|]. }
      destruct Hh as [Hlen Hh]. pose proof (len_law l) as [Hl _].
      destruct (decode_items_ok (k - 1) free' f (fun i => get l (LInt i)) _ Hf' 0 [] Hh) as (t & E & Hin & Hout).
      exists (LTable t). split; [done|]. exists t. split; [done|]. intros i. cbn [count get_of].
      destruct ((0 <=? i) && (i <? len l)) eqn:Ei; [apply Hin; lia|]. rewrite Hout by lia. done.
Qed.

Lemma decode_fields_ok k free fs l m : (k <= free)%nat ->
  (forall f, f ∈ fs -> map_ok pool f) ->
  (forall f, f ∈ fs -> field_holds to_float of_float pool R k f (get l (LStr (name f))) (contents m (number f))) ->
  NoDup (name <$> fs) -> forall t, exists t', decode_fields pool of_float dec free fs m t = Some (LTable t') /\
    (forall f, f ∈ fs -> field_shows W f (get l (LStr (name f))) (get t' (LStr (name f)))) /\
    (forall x, (forall f, f ∈ fs -> LStr (name f) <> x) -> get t' x = get t x).
Proof.
  intros Hk Hmap Hh. induction fs as [|f fs IH]; intros Hnd t; cbn [decode_fields].
  { exists t. split_and!; [done| |done]. by intros f ?%elem_of_nil. }
  apply list.NoDup_cons in Hnd as [Hni Hnd].
  destruct (decode_field_ok k free f (get l (LStr (name f))) m Hk) as (y & -> & Hy); [apply Hmap; left|apply Hh; left|]. cbn [mbind option_bind].
  destruct IH with (t := set_ t (LStr (name f)) y) as (t' & E & Hin & Hout);
    [intros g Hg; apply Hmap; by right|intros g Hg; apply Hh; by right|done|].
  exists t'. split; [done|]. split.
  - intros g [->|Hg]%elem_of_cons; [|by apply Hin]. rewrite Hout; [by rewrite get_set, key_eqb_refl|].
    intros g Hg [= En]. apply Hni. rewrite <- En. by apply list_elem_of_fmap_2.
  - intros x Hx. rewrite Hout by (intros g Hg; apply Hx; by right). rewrite get_set, key_eqb_neq by (done || (apply Hx; left)). done.
Qed.

End Decode.

Lemma holds_not_nil n k d m : ~ holds to_float of_float pool n k d LNil m.
Proof. destruct n as [|n]; [by intros []|]. by intros (_ & l & fs & ? & _). Qed.

Lemma decode_message_ok n : pool_ok pool -> forall k free d x m, (k <= free)%nat -> holds to_float of_float pool n k d x m ->
  exists y, decode_message pool of_float n free d m = Some y /\ shows n d x y /\ isnil y = false.
Proof.
  intros Hpool. induction n as [|n IH]; intros k free d x m Hk Hh; [done|]. cbn [decode_message].
  destruct Hh as (H0 & l & fs & -> & Ed & Hh). destruct (Hpool d fs Ed) as (Hnd & _ & Hmap). rewrite Ed. cbn [mbind option_bind].
  destruct (push_ok k free (conj H0 Hk)) as (free' & -> & Hf'). cbn [mbind option_bind].
  destruct (decode_fields_ok _ _ _ IH (holds_not_nil n) (k - 1) free' fs l m Hf' Hmap Hh Hnd []) as (t & E & Hin & _).
  exists (LTable t). split; [done|]. split; [|done]. by exists l, t, fs.
Qed.

(** The values [proto_unpack] pushes show the fields of the value, one by one. *)
Lemma decode_each_ok n k l m fs : pool_ok pool ->
  (forall f, f ∈ fs -> map_ok pool f) ->
  (forall f, f ∈ fs -> field_holds to_float of_float pool (holds to_float of_float pool n) k f (get l (LStr (name f))) (contents m (number f))) ->
  forall free, (k + length fs <= free)%nat -> exists ys, unpack_fields pool of_float n free fs m = Some ys /\
    Forall2 (fun f y => field_shows (shows n) f (get l (LStr (name f))) y) fs ys.
Proof.
  intros Hpool Hmap Hh. induction fs as [|f fs IH]; intros free Hf; [by exists []|]. cbn [length unpack_fields] in *.
  destruct (decode_field_ok _ _ _ (fun k free d x m => decode_message_ok n Hpool k free d x m) (holds_not_nil n) k free f (get l (LStr (name f))) m)
    as (y & -> & Hy); [lia|apply Hmap; left|apply Hh; left|]. cbn [mbind option_bind].
  destruct (push_ok (k + S (length fs)) free) as (free' & -> & Hf'); [lia|]. cbn [mbind option_bind].
  destruct IH with (free := free') as (ys & -> & Hys); [intros g Hg; apply Hmap; by right|intros g Hg; apply Hh; by right|lia|].
  exists (y :: ys). split; [done|by constructor].
Qed.

(** ** The wire *)

Section Rec.
Context (C : nat -> M -> Prop).

(** The values of a field of a type. *)
Definition typed (f : field) (v : scalar + M) : Prop :=
  match cpp f, v with
  | CPPTYPE_MESSAGE, inr sub => C (message_type f) sub
  | CPPTYPE_STRING, inl (SStr _) => True
  | (CPPTYPE_MESSAGE | CPPTYPE_STRING), _ => False
  | t, inl (SNum t' _) => t' = t
  | _, _ => False
  end.

Definition entry_typed (key value : field) (k e : scalar + M) : Prop :=
  exists sub v, e = inr sub /\ contents sub (number key) = [k] /\ contents sub (number value) = [v] /\ typed key k /\ typed value v.

Definition field_complete (f : field) (vs : list (scalar + M)) : Prop :=
  if is_map f then
    match pool !! message_type f with
    | Some [key; value] => exists ks, NoDup ks /\ Forall2 (entry_typed key value) ks vs
    | _ => False
    end
  else Forall (typed f) vs /\
    match flabel f with REQUIRED => length vs = 1%nat | OPTIONAL => (length vs <= 1)%nat | REPEATED => True end.
End Rec.

(** A message whose required fields are there, of a depth of [n]. *)
Fixpoint complete (n : nat) (d : nat) (m : M) : Prop :=
  match n with
  | O => False
  | S n => exists fs, pool !! d = Some fs /\ forall f, f ∈ fs -> field_complete (complete n) f (contents m (number f))
  end.

Section Rec.
Context (Q : nat -> M -> M -> Prop).

Definition same_value (f : field) (v v' : scalar + M) : Prop :=
  match v, v' with inl s, inl s' => s = s' | inr m, inr m' => Q (message_type f) m m' | _, _ => False end.

Definition same_entry (key value : field) (e e' : scalar + M) : Prop :=
  match e, e' with
  | inr m, inr m' =>
    Forall2 (same_value key) (contents m (number key)) (contents m' (number key)) /\
    Forall2 (same_value value) (contents m (number value)) (contents m' (number value))
  | _, _ => False
  end.

Definition same_field (f : field) (vs vs' : list (scalar + M)) : Prop :=
  if is_map f then
    match pool !! message_type f with
    | Some [key; value] => exists p, p ≡ₚ vs /\ Forall2 (same_entry key value) p vs'
    | _ => False
    end
  else Forall2 (same_value f) vs vs'.
End Rec.

(** Two messages of a type with the same values; the pairs of a map have no
    order. *)
Fixpoint same (n : nat) (d : nat) (m m' : M) : Prop :=
  match n with
  | O => False
  | S n => exists fs, pool !! d = Some fs /\
      forall f, f ∈ fs -> same_field (same n) f (contents m (number f)) (contents m' (number f))
  end.

(** What the library says of the wire format: a message whose required fields
    are there, of less than 2 GB and not deeper than the parser's limit (100
    levels, two for a level of a map), is written, and read back. *)
Class Wire := {
  wire_law n d m : (n <= 50)%nat -> complete n d m -> ByteSizeLong m < 2 ^ 31 ->
    exists s m', SerializeToString m = Some s /\ ParseFromArray d s = Some m' /\ same n d m m'
}.

(** *** What holds a value is complete, and what is the same holds it *)

Lemma value_holds_typed R C k f x v : (forall k d x m, R k d x m -> C d m) ->
  value_holds to_float of_float R k f x v -> typed C f v.
Proof.
  intros HRC [_ Hv]. revert Hv. unfold typed. destruct (cpp f), v as [s|sub]; try done; try (by intros [_ ->]). apply HRC.
Qed.

Lemma keys_distinct R C k key value p vs : (forall k d x m, R k d x m -> C d m) -> cpp key <> CPPTYPE_MESSAGE ->
  Forall2 (entry_holds to_float of_float R k key value) p vs -> NoDup (fst <$> p) ->
  Forall2 (entry_typed C key value) ((fun k => inl (to_scalar to_float (cpp key) k)) <$> (fst <$> p)) vs /\
  NoDup ((fun k => inl (to_scalar to_float (cpp key) k) : scalar + M) <$> (fst <$> p)).
Proof.
  intros HRC Hkm Hp Hnd.
  assert (forall kv, kv ∈ p -> fits to_float of_float key (fst kv)) as Hfit.
  { intros kv [j Hj]%list_elem_of_lookup. destruct (Forall2_lookup_l _ _ _ _ _ Hp Hj) as (e & _ & sub & _ & (w & _ & _ & Hw) & _).
    by destruct (cpp key), w; try done; destruct Hw. }
  split.
  - rewrite <- list_fmap_compose. apply Forall2_fmap_l. eapply list.Forall2_impl; [exact Hp|]. intros [x v] e (sub & -> & Hk & Hv). cbn in *.
    destruct Hk as (a & Ea & _ & Ha), Hv as (b & Eb & Hb). exists sub, b. split_and!; try done.
    + rewrite Ea. f_equal. by destruct (cpp key), a; try done; destruct Ha as [_ ->].
    + unfold typed in *. by destruct (cpp key) eqn:E, a; try done; destruct Ha as [_ ->].
    + by eapply value_holds_typed.
  - apply NoDup_fmap_2_strong; [|done]. intros x y Hx Hy [= Exy].
    apply list_elem_of_fmap in Hx as (kv & -> & Hx), Hy as (kv' & -> & Hy).
    rewrite <- (scalar_back to_float of_float key (fst kv)), <- (scalar_back to_float of_float key (fst kv')) by (by apply Hfit).
    by rewrite Exy.
Qed.

Lemma holds_complete n : pool_ok pool -> forall k d x m, holds to_float of_float pool n k d x m -> complete n d m.
Proof.
  intros Hpool. induction n as [|n IH]; intros k d x m Hh; [done|].
  destruct Hh as (_ & l & fs & -> & Ed & Hh). exists fs. split; [done|]. destruct (Hpool d fs Ed) as (_ & _ & Hmap).
  intros f Hf. specialize (Hh f Hf). specialize (Hmap f Hf). revert Hh. generalize (get l (LStr (name f))). intros x [_ Hh].
  unfold field_complete in *. destruct (is_map f) eqn:Em.
  - destruct (Hmap Em) as (key & value & Ep & _ & Hkm). rewrite Ep in *. destruct x as [| | | | |t]; try done.
    { exists []. rewrite Hh. by split; constructor. }
    destruct Hh as (Hnd & p & Hp & Hes). assert (NoDup (fst <$> p)) as Hnd' by (by rewrite Hp).
    destruct (keys_distinct _ (complete n) (k - 1) key value p _ IH Hkm Hes Hnd') as [H1 H2]. by eexists.
  - assert (one_holds to_float of_float (holds to_float of_float pool n) (k - 1) f x (contents m (number f)) ->
      Forall (typed (complete n) f) (contents m (number f)) /\ length (contents m (number f)) = 1%nat) as Hone.
    { intros (v & -> & Hv). split; [|done]. constructor; [by eapply value_holds_typed|constructor]. }
    destruct (flabel f).
    + destruct x; try done; by apply Hone.
    + destruct x; try (destruct (Hone Hh) as [? ->]; split; [done|lia]). rewrite Hh. split; [constructor|cbn; lia].
    + destruct x as [| | | | |t]; try done; [by rewrite Hh|]. destruct Hh as [_ Hh]. split; [|done].
      apply list.Forall_lookup. intros i v Hv. eapply value_holds_typed; [exact IH|by apply (Hh i)].
Qed.

Section Same.
Context (R : nat -> nat -> lua -> M -> Prop) (Q : nat -> M -> M -> Prop).
Context (R_same : forall k d x m m', R k d x m -> Q d m m' -> R k d x m').

Lemma value_holds_same k f x v v' : value_holds to_float of_float R k f x v -> same_value Q f v v' ->
  value_holds to_float of_float R k f x v'.
Proof.
  intros [H0 Hv] Hs. split; [done|]. revert Hv Hs. unfold same_value. destruct (cpp f), v, v'; try done; try (by intros ? <-). apply R_same.
Qed.

Lemma one_holds_same k f x vs vs' : one_holds to_float of_float R k f x vs -> Forall2 (same_value Q f) vs vs' ->
  one_holds to_float of_float R k f x vs'.
Proof.
  intros (v & -> & Hv) (v' & r & Hs & ->%list.Forall2_nil_inv_l & ->)%list.Forall2_cons_inv_l.
  exists v'. split; [done|by eapply value_holds_same].
Qed.

Lemma entry_holds_same k key value kv e e' : entry_holds to_float of_float R k key value kv e -> same_entry Q key value e e' ->
  entry_holds to_float of_float R k key value kv e'.
Proof.
  intros (sub & -> & Hk & Hv). destruct e' as [|sub']; [done|]. intros [Sk Sv]. exists sub'.
  split_and!; [done|by eapply one_holds_same..].
Qed.

Lemma field_holds_same k f x vs vs' : map_ok pool f -> field_holds to_float of_float pool R k f x vs -> same_field Q f vs vs' ->
  field_holds to_float of_float pool R k f x vs'.
Proof.
  intros Hmap [H0 Hh] Hs. split; [done|]. unfold same_field in *. destruct (is_map f) eqn:Em.
  - destruct (Hmap Em) as (key & value & Ep & _). rewrite Ep in *. destruct Hs as (q & Hq & Hs). destruct x as [| | | | |t]; try done.
    { subst vs. apply Permutation_nil_r in Hq as ->. by apply list.Forall2_nil_inv_l in Hs. }
    destruct Hh as (Hnd & p & Hp & Hes). split; [done|].
    apply list.Forall2_flip in Hes. destruct (Permutation_Forall2 (symmetry Hq) Hes) as (p' & Hp' & Hes').
    apply list.Forall2_flip in Hes'. exists p'. split; [by rewrite <- Hp'|].
    eapply list.Forall2_trans; [|exact Hes'|exact Hs]. intros kv e e'. apply entry_holds_same.
  - destruct (flabel f).
    + destruct x; try done; by eapply one_holds_same.
    + destruct x; try (by eapply one_holds_same). subst vs. by apply list.Forall2_nil_inv_l in Hs.
    + destruct x as [| | | | |t]; try done; [subst vs; by apply list.Forall2_nil_inv_l in Hs|]. destruct Hh as [Hl Hh].
      split; [by rewrite <- (list.Forall2_length _ _ _ Hs)|]. intros i v' Hv'.
      destruct (Forall2_lookup_r _ _ _ _ _ Hs Hv') as (v & Hv & Hvv). eapply value_holds_same; [by apply Hh|done].
Qed.
End Same.

Lemma holds_same n : pool_ok pool -> forall k d x m m', holds to_float of_float pool n k d x m -> same n d m m' ->
  holds to_float of_float pool n k d x m'.
Proof.
  intros Hpool. induction n as [|n IH]; intros k d x m m' Hh Hs; [done|].
  destruct Hh as (H0 & l & fs & -> & Ed & Hh), Hs as (fs' & Ed' & Hs). rewrite Ed in Ed'. injection Ed' as <-.
  split; [done|]. exists l, fs. split_and!; [done..|]. intros f Hf. destruct (Hpool d fs Ed) as (_ & _ & Hmap).
  eapply field_holds_same; [exact IH|by apply Hmap|by apply Hh|by apply Hs].
Qed.

(** ** Round trips *)

(** The values a function called by Lua has the slots for: Lua grants it
    [LUA_MINSTACK], and [conforms] counts those the value takes. *)
Definition conforms_called (d : nat) (x : lua) : Prop :=
  conforms to_float of_float pool (S LUA_MINSTACK) LUA_MINSTACK d x.

(** C34.  A Lua table that conforms to a message type (a value of the right kind
    for every field it has, one for every required field), and is not nested
    deeper than the 20 slots of the Lua stack allow that a function called
    from Lua has (a message inside takes one, one in a list two, one in a map
    three), is encoded by [encode_message]; and if the message is of less than
    2 GB, [proto_encode] gives a string, and [proto_decode] of that string
    gives a table that shows the same values: numbers, strings, messages
    inside, lists and maps, with the type's default for an optional field that
    was not there.  No push overflows the Lua stack. *)
Theorem proto_roundtrip `{!Wire} (d : nat) (x : lua) :
  pool_ok pool -> conforms_called d x ->
  exists m, encode_message pool to_float (S LUA_MINSTACK) LUA_MINSTACK d x (New d) = Some m /\
    (ByteSizeLong m < 2 ^ 31 -> exists s y,
      proto_encode pool to_float LUA_MINSTACK d x = Some (LStr s) /\
      proto_decode pool of_float LUA_MINSTACK d s = Some y /\ shows (S LUA_MINSTACK) d x y).
Proof.
  intros Hpool Hc. set (n := S LUA_MINSTACK). set (k := LUA_MINSTACK). unfold conforms_called in Hc. fold n k in Hc.
  destruct (encode_message_ok to_float of_float pool n Hpool k k d x ltac:(lia) Hc) as (m & E & Hh).
  exists m. split; [done|]. intros Hsize.
  destruct (wire_law n d m ltac:(unfold n, LUA_MINSTACK; lia) (holds_complete n Hpool k d x m Hh) Hsize) as (s & m' & Es & Em & Hs).
  destruct (decode_message_ok n Hpool k k d x m' ltac:(lia) (holds_same n Hpool k d x m m' Hh Hs)) as (y & Ey & Hy & _). exists s, y.
  assert (exists fs, pool !! d = Some fs) as [fs Ed] by (destruct Hc as (_ & l & fs & _ & ? & _); by exists fs).
  unfold proto_encode, proto_decode. change (S k) with n. rewrite Ed. cbn [mbind option_bind]. rewrite E. cbn [mbind option_bind]. rewrite Es, Em. by cbn [mbind option_bind].
Qed.

(** [proto_pack] of the values of a table, in the order of the numbers of the
    fields, makes the message of the table. *)
Lemma pack_fields_values n free fs l m :
  pack_fields pool to_float n free fs ((fun f => get l (LStr (name f))) <$> fs) m =
  encode_fields pool to_float (encode_message pool to_float n) (S free) fs (LTable l) m.
Proof.
  revert m. induction fs as [|f fs IH]; intros m; [done|]. cbn [fmap list_fmap pack_fields encode_fields get_of push mbind option_bind].
  destruct (encode_field _ _ _ _ _ _ _); [apply IH|done].
Qed.

Lemma insert_field_perm f fs : insert_field f fs ≡ₚ f :: fs.
Proof.
  induction fs as [|g fs IH]; cbn; [done|]. case_match; [done|]. rewrite IH. apply Permutation_swap.
Qed.

Lemma SortFieldsByNumber_perm fs : SortFieldsByNumber fs ≡ₚ fs.
Proof. induction fs as [|f fs IH]; [done|]. cbn. rewrite insert_field_perm. by apply Permutation_skip. Qed.

Lemma insert_field_sorted f fs : StronglySorted Z.le (number <$> fs) -> StronglySorted Z.le (number <$> insert_field f fs).
Proof.
  induction fs as [|g fs IH]; cbn; intros Hs; [repeat constructor|]. apply StronglySorted_inv in Hs as [Hs Hg].
  case_match eqn:E; cbn.
  - constructor; [by constructor|]. constructor; [lia|]. eapply list.Forall_impl; [exact Hg|]. intros; lia.
  - constructor; [by apply IH|]. rewrite insert_field_perm. constructor; [lia|done].
Qed.

(** The same for the positional form: [proto_pack] of the values of the
    fields of a table that conforms, in the order of the fields' numbers, gives
    a string from which [proto_unpack] gives as many values, each of which
    shows what the field had; the values are all on the stack at once. *)
Theorem proto_pack_roundtrip `{!Wire} (k d : nat) (l : list (lua * lua)) (fs : list field) :
  pool_ok pool -> pool !! d = Some fs -> (0 < k)%nat -> (k + length fs <= LUA_MINSTACK)%nat ->
  conforms to_float of_float pool (S (S LUA_MINSTACK)) (S k) d (LTable l) ->
  let args := (fun f => get l (LStr (name f))) <$> SortFieldsByNumber fs in
  exists m, pack_fields pool to_float (S LUA_MINSTACK) LUA_MINSTACK (SortFieldsByNumber fs) args (New d) = Some m /\
    (ByteSizeLong m < 2 ^ 31 -> exists s ys,
      proto_pack pool to_float LUA_MINSTACK d args = Some (LStr s) /\ proto_unpack pool of_float LUA_MINSTACK d s = Some ys /\
      Forall2 (fun fx y => field_shows (shows (S LUA_MINSTACK)) fx.1 fx.2 y) (zip (SortFieldsByNumber fs) args) ys).
Proof.
  intros Hpool Ed Hk0 Hk Hc args. set (n := S LUA_MINSTACK) in *. set (free := LUA_MINSTACK) in *.
  destruct Hc as (_ & l' & fs' & [= <-] & Ed' & Hc). rewrite Ed in Ed'. injection Ed' as <-.
  replace (S k - 1)%nat with k in Hc by lia.
  destruct (Hpool d fs Ed) as (_ & Hnd & Hmap).
  pose proof (SortFieldsByNumber_perm fs) as Hp. set (gs := SortFieldsByNumber fs) in *.
  assert (forall f, f ∈ gs <-> f ∈ fs) as Hin by (intros f; by rewrite Hp).
  destruct (encode_fields_ok to_float of_float pool _ _ _ (encode_message_ok to_float of_float pool n Hpool)
    (conforms_not_nil to_float of_float pool n) k (S free) gs l) with (m := New (Reflection := Reflection0) d) as (m & E & Hh & _).
  { lia. } { by rewrite Hp. } { intros f Hf. by apply Hmap, Hin. } { intros f Hf. by apply Hc, Hin. } { intros. apply new_law. }
  exists m. unfold args. rewrite pack_fields_values. split; [done|]. intros Hsize.
  assert (holds to_float of_float pool (S n) (S k) d (LTable l) m) as Hm.
  { split; [lia|]. exists l, fs. split_and!; [done..|]. intros f Hf. replace (S k - 1)%nat with k by lia. by apply Hh, Hin. }
  destruct (wire_law (S n) d m ltac:(unfold n, free, LUA_MINSTACK; lia) (holds_complete (S n) Hpool (S k) d _ m Hm) Hsize) as (s & m' & Es & Em & Hs).
  destruct (holds_same (S n) Hpool (S k) d _ m m' Hm Hs) as (_ & l2 & fs2 & [= <-] & Ed2 & Hh'). rewrite Ed in Ed2. injection Ed2 as <-.
  replace (S k - 1)%nat with k in Hh' by lia.
  destruct (decode_each_ok n k l m' gs Hpool) with (free := free) as (ys & Ey & Hys).
  { intros f Hf. by apply Hmap, Hin. } { intros f Hf. by apply Hh', Hin. } { by rewrite Hp. }
  exists s, ys. unfold proto_pack, proto_unpack. change (S free) with n. rewrite Ed. cbn [mbind option_bind]. fold gs.
  rewrite pack_fields_values, E. cbn [mbind option_bind]. rewrite Es, Em. cbn [mbind option_bind]. split_and!; [done..|].
  clear -Hys. induction Hys as [|f y gs ys H1 H2 IH]; [constructor|]. cbn. by constructor.
Qed.

(** [SortFieldsByNumber] gives the fields of the type, in the order of
    their numbers. *)
Theorem SortFieldsByNumber_sorted fs :
  SortFieldsByNumber fs ≡ₚ fs /\ StronglySorted Z.le (number <$> SortFieldsByNumber fs).
Proof.
  split; [apply SortFieldsByNumber_perm|]. induction fs as [|f fs IH]; [constructor|]. by apply insert_field_sorted.
Qed.

End Trip.
End ProtoLuaTrip.
