(* ===== verification/ProtoLuaCreate.v ===== *)
(** * ProtoLuaCreate: when [proto_create] ends, and an instance of the library

    [proto_create] calls itself for every message that is a field, so it ends
    on the types that do not hold themselves, and on no others.  [Demo] has a
    message library of its own, and the theorems of ProtoLuaTrip at work. *)
From Stdlib Require Import String Ascii.
From stdpp Require Import countable.
From S2P Require Import Prelude TcpSock ProtoLua ProtoLuaProps ProtoLuaTrip.

Module ProtoLuaCreate.
Import Lua Proto Encoder Decoder ProtoLuaProps ProtoLuaTrip.

Section Create.
Context (of_float : Z -> Z) {M : Type} `{!Reflection M} (pool : Proto.pool).

Abbreviation create := (proto_create pool of_float).

(** A field [proto_create] calls itself for. *)
Definition nested (f : field) : bool :=
  negb (is_map f || match flabel f with REPEATED => true | _ => false end)
  && match cpp f with CPPTYPE_MESSAGE => true | _ => false end.

(** [child d' d]: type [d] has such a field, of type [d']. *)
Definition child (d' d : nat) : Prop :=
  exists fs f, pool !! d = Some fs /\ f ∈ fs /\ nested f = true /\ message_type f = d'.

(** The types of the fields are types of the pool. *)
Definition closed : Prop :=
  forall d fs f, pool !! d = Some fs -> f ∈ fs -> nested f = true -> (message_type f < length pool)%nat.

(** What [create_fields] does for a field, with a slot free. *)
Definition created (rec : nat -> nat -> result lua) (free : nat) (f : field) (r : result lua) : Prop :=
  if nested f then r = rec (S free) (message_type f) else exists v, r = Done v.

Lemma create_fields_step rec free d f fs t : exists r, created rec free f r /\
  create_fields of_float rec (S free) (f :: fs) (New d) t =
  match r with Done v => create_fields of_float rec (S free) fs (New d) (set_ t (LStr (name f)) v) | OutOfFuel => OutOfFuel | Fault => Fault end.
Proof.
  cbn [create_fields]. eexists. split; [|reflexivity]. unfold created, nested.
  destruct (is_map f || _); cbn; [by eexists|]. unfold decode_single. rewrite new_law. by destruct (cpp f); cbn; eexists.
Qed.

(** Without a slot there is no field. *)
Lemma create_fields_done rec free d fs : forall t v, create_fields of_float rec free fs (New d) t = Done v ->
  forall f, f ∈ fs -> nested f = true -> exists w, rec free (message_type f) = Done w.
Proof.
  induction fs as [|g fs IH]; intros t v E f Hf Hn; [by apply elem_of_nil in Hf|]. destruct free as [|free].
  - cbn [create_fields] in E. apply elem_of_cons in Hf as [->|Hf].
    + unfold nested in Hn. destruct (is_map g || _); [done|]. cbn in Hn. destruct (cpp g); try done.
      destruct (rec 0%nat (message_type g)) as [w| |]; [by exists w|done..].
    + destruct (if is_map g || _ then _ else _) as [w| |]; [|done..]. by eapply IH.
  - destruct (create_fields_step rec free d g fs t) as (r & Hr & Eq). rewrite Eq in E. destruct r as [w| |]; try done.
    apply elem_of_cons in Hf as [->|Hf]; [|by eapply IH]. unfold created in Hr. rewrite Hn in Hr. by exists w.
Qed.

Lemma create_fields_ends rec free d fs : (forall f, f ∈ fs -> nested f = true -> exists w, rec (S free) (message_type f) = Done w) ->
  forall t, exists v, create_fields of_float rec (S free) fs (New d) t = Done v.
Proof.
  induction fs as [|g fs IH]; intros Hf t; [by eexists|].
  destruct (create_fields_step rec free d g fs t) as (r & Hr & ->). unfold created in Hr.
  assert (exists v, r = Done v) as [v ->].
  { destruct (nested g) eqn:En; [|done]. destruct (Hf g) as [w Hw]; [left|done|]. exists w. by rewrite Hr. }
  apply IH. intros f Hin. apply Hf. by right.
Qed.

Lemma create_child n free d v d' : create (S n) free d = Done v -> child d' d ->
  exists free' w, free = S free' /\ create n free' d' = Done w.
Proof.
  cbn [proto_create]. intros E (fs & f & Ed & Hf & Hn & <-). rewrite Ed in E. destruct free as [|free']; [done|]. cbn [push] in E.
  exists free'. destruct (create_fields_done _ _ _ _ _ _ E f Hf Hn) as [w Hw]. by exists w.
Qed.

Lemma create_ends n free d fs : pool !! d = Some fs ->
  (forall d', child d' d -> exists w, create n (S free) d' = Done w) -> exists v, create (S n) (S (S free)) d = Done v.
Proof.
  intros Ed Hc. cbn [proto_create push]. rewrite Ed. apply create_fields_ends. intros f Hf Hn. apply Hc. by exists fs, f.
Qed.

(** More depth and more slots do no harm. *)
Lemma create_more n : forall free d v, create n free d = Done v -> forall n' free', (n <= n')%nat -> (S free <= free')%nat ->
  exists w, create n' free' d = Done w.
Proof.
  induction n as [|n IH]; intros free d v E n' free' Hn Hf; [done|]. destruct n' as [|n']; [lia|]. destruct free' as [|free']; [lia|].
  destruct (pool !! d) as [fs|] eqn:Ed; [|cbn in E; by rewrite Ed in E].
  destruct free as [|free]; [cbn in E; by rewrite Ed in E|]. destruct free' as [|free']; [lia|].
  apply (create_ends n' free' d fs Ed). intros d' Hd'. destruct (create_child n _ d v d' E Hd') as (f' & w & [= <-] & Hw).
  apply (IH free d' w Hw); lia.
Qed.

(** Enough for every type of a list. *)
Lemma create_all (ds : list nat) : (forall d, d ∈ ds -> exists n free v, create n free d = Done v) ->
  exists n free, forall d, d ∈ ds -> exists v, create n (S free) d = Done v.
Proof.
  induction ds as [|d ds IH]; intros Hd; [exists 0%nat, 0%nat; by intros d ?%elem_of_nil|].
  destruct IH as (n & free & Hn); [intros d' Hd'; apply Hd; by right|]. destruct (Hd d) as (n' & free' & v & Hv); [left|].
  exists (n + n')%nat, (S (free + free'))%nat. intros d' [->|Hd']%elem_of_cons; [apply (create_more n' free' d v Hv); lia|].
  destruct (Hn d' Hd') as [w Hw]. apply (create_more n _ d' w Hw); lia.
Qed.

(** C35.  [proto_create] of a type ends with a table, given a Lua stack with
    slots enough, exactly when no chain of message fields that are neither
    repeated nor of a map goes on for ever from it: on a type with an optional
    field of its own type it ends with no stack. *)
Theorem proto_create_ends (d : nat) : closed -> (d < length pool)%nat ->
  (exists n free v, create n free d = Done v) <-> Acc child d.
Proof.
  intros Hcl Hd. split.
  - intros (n & free & v & E). revert free d v Hd E. induction n as [|n IH]; intros free d v Hd E; [done|]. constructor. intros d' Hc.
    destruct (create_child n free d v d' E Hc) as (free' & w & _ & Hw). destruct Hc as (fs & f & Ed & Hf & Hn & <-). by eapply IH, Hw; eapply Hcl.
  - intros Ha. induction Ha as [d _ IH]. destruct (lookup_lt_is_Some_2 pool d Hd) as [fs Ed].
    destruct (create_all (message_type <$> filter (fun f => nested f = true) fs)) as (n & free & Hn).
    { intros d' (f & -> & [Hn Hf]%list_elem_of_filter)%list_elem_of_fmap. apply IH; [by exists fs, f|by eapply Hcl]. }
    destruct (create_ends n free d fs Ed) as [v E]; [|by exists (S n), (S (S free)), v]. intros d' (fs' & f & Ed' & Hf & Hnf & <-).
    rewrite Ed in Ed'. injection Ed' as <-. apply Hn, list_elem_of_fmap_2, list_elem_of_filter. done.
Qed.

End Create.

(** ** A library *)
Module Demo.

(** The length of a table: its largest integer key. *)
Definition int_key (l : list (lua * lua)) (kv : lua * lua) : Z :=
  match kv.1 with LInt n => if isnil (get l (LInt n)) then 0 else n | _ => 0 end.
Definition len (l : list (lua * lua)) : Z := foldr Z.max 0 (int_key l <$> l).

Lemma len_border l : 0 <= len l /\ (len l = 0 \/ get l (LInt (len l)) <> LNil) /\ get l (LInt (len l + 1)) = LNil.
Proof.
  assert (forall t, 0 <= foldr Z.max 0 (int_key l <$> t)) as H0 by (induction t; cbn; lia).
  split; [apply H0|]. split.
  - unfold len. assert (forall t, let m := foldr Z.max 0 (int_key l <$> t) in m = 0 \/ get l (LInt m) <> LNil) as Hm; [|apply Hm].
    induction t as [|kv t IH]; cbn; [by left|]. specialize (H0 t). cbn in IH. set (m := foldr _ _ _) in *.
    destruct (Z.max_spec (int_key l kv) m) as [[_ ->]|[Hle ->]]; [done|].
    unfold int_key in *. destruct kv.1 as [| |n| | |]; try (left; lia). destruct (get l (LInt n)) eqn:E; cbn; [by left|right; by rewrite E..].
  - assert (forall t k, k ∈ (fst <$> t) -> forall n, k = LInt n -> get l (LInt n) <> LNil -> n <= foldr Z.max 0 (int_key l <$> t)) as Hle.
    { induction t as [|kv t IH]; cbn; intros k Hk n -> Hn; [by apply elem_of_nil in Hk|].
      apply elem_of_cons in Hk as [Hk|Hk]; [|pose proof (IH _ Hk n eq_refl Hn); lia].
      assert (int_key l kv = n); [|lia]. unfold int_key. rewrite <- Hk. destruct (get l (LInt n)); done. }
    destruct (get l (LInt (len l + 1))) eqn:E; [done|exfalso..].
    all: assert (len l + 1 <= len l); [|lia]; apply (Hle l (LInt (len l + 1))); [|done|by rewrite E].
    all: destruct (key_in (LInt (len l + 1)) (fst <$> l)) as [Hk|Hk]; [done..|]; by rewrite get_out in E.
Qed.

#[export] Instance api : LuaAPI :=
  {| str2number _ := None; number2str _ := []; int2num n := n; num2int d := Some d; Lua.len := len; len_law := len_border |}.

(** Scalars and messages can be counted, so that they can be written. *)
#[export] Instance cpp_type_eq : EqDecision cpp_type.
Proof. solve_decision. Defined.
#[export] Instance scalar_eq : EqDecision scalar.
Proof. solve_decision. Defined.
Definition cpp_code (t : cpp_type) : nat :=
  match t with
  | CPPTYPE_DOUBLE => 0 | CPPTYPE_FLOAT => 1 | CPPTYPE_INT32 => 2 | CPPTYPE_UINT32 => 3 | CPPTYPE_INT64 => 4
  | CPPTYPE_UINT64 => 5 | CPPTYPE_ENUM => 6 | CPPTYPE_BOOL => 7 | CPPTYPE_STRING => 8 | CPPTYPE_MESSAGE => 9
  end.
Definition cpp_types : list cpp_type :=
  [CPPTYPE_DOUBLE; CPPTYPE_FLOAT; CPPTYPE_INT32; CPPTYPE_UINT32; CPPTYPE_INT64; CPPTYPE_UINT64; CPPTYPE_ENUM; CPPTYPE_BOOL;
   CPPTYPE_STRING; CPPTYPE_MESSAGE].
#[export] Instance scalar_countable : Countable scalar.
Proof.
  refine (inj_countable' (fun s => match s with SNum t n => inl (cpp_code t, n) | SStr s => inr s end)
    (fun x => match x with inl (t, n) => SNum (nth t cpp_types CPPTYPE_BOOL) n | inr s => SStr s end) _).
  intros [t n|s]; [by destruct t|done].
Defined.

(** A message is the list of its values, each with the number of its field. *)
Definition message := gen_tree (Z * scalar).
Definition values (m : message) : list message := match m with GenNode _ es => es | _ => [] end.
Definition value_of (n : Z) (e : message) : option (scalar + message) :=
  match e with
  | GenLeaf (n', s) => if decide (n' = n) then Some (inl s) else None
  | GenNode k [m] => if decide (k = encode_nat n) then Some (inr m) else None
  | _ => None
  end.
Definition value (n : Z) (v : scalar + message) : message :=
  match v with inl s => GenLeaf (n, s) | inr m => GenNode (encode_nat n) [m] end.
Definition contents_of (m : message) (n : Z) : list (scalar + message) := omap (value_of n) (values m).

Lemma value_of_value n v n' : value_of n' (value n v) = if decide (n' = n) then Some v else None.
Proof.
  destruct v as [s|m]; cbn; repeat case_decide; try done; subst; try done.
  by match goal with H : encode_nat _ = encode_nat _ |- _ => apply (inj encode_nat) in H end.
Qed.

Lemma value_of_ne n n' e v : value_of n e = Some v -> n' <> n -> value_of n' e = None.
Proof.
  destruct e as [[k s]|k [|m [|]]]; cbn; try done; repeat case_decide; try done; subst; try done.
  match goal with H : encode_nat _ = encode_nat _ |- _ => apply (inj encode_nat) in H end. by subst.
Qed.

Lemma omap_other n n' (es : list message) : n' <> n -> omap (value_of n') (filter (fun e => value_of n e = None) es) = omap (value_of n') es.
Proof.
  intros Hne. induction es as [|e es IH]; [done|]. rewrite filter_cons. case_decide as Hd; cbn; rewrite IH; [done|].
  destruct (value_of n e) as [v|] eqn:E; [|done]. by rewrite (value_of_ne n n' e v).
Qed.

Lemma omap_same n (es : list message) : omap (value_of n) (filter (fun e => value_of n e = None) es) = [].
Proof. induction es as [|e es IH]; [done|]. rewrite filter_cons. case_decide as Hd; cbn; [by rewrite Hd|done]. Qed.

#[export] Instance reflection : Reflection message.
Proof.
  refine {| contents := contents_of; New _ := GenNode 0 [];
    Set_ f v m := GenNode 0 (filter (fun e => value_of (number f) e = None) (values m) ++ [value (number f) v]);
    Add f v m := GenNode 0 (values m ++ [value (number f) v]);
    ByteSizeLong _ := 0;
    SerializeToString m := Some [Z.pos (countable.encode m)];
    ParseFromArray _ s := match s with [z] => countable.decode (Z.to_pos z) | _ => None end |}.
  - done.
  - intros f v m n _. unfold contents_of. cbn [values]. rewrite omap_app. cbn [omap list_omap]. rewrite value_of_value.
    case_decide as Hn; [subst; by rewrite omap_same|]. by rewrite omap_other, app_nil_r.
  - intros f v m n _. unfold contents_of. cbn [values]. rewrite omap_app. cbn [omap list_omap]. rewrite value_of_value.
    case_decide; [done|by rewrite app_nil_r].
Defined.

(** *** It keeps its messages *)

Lemma same_value_refl (C : nat -> message -> Prop) Q f v : (forall d m, C d m -> Q d m m) -> typed C f v -> same_value Q f v v.
Proof. intros H. unfold typed, same_value. destruct (cpp f), v; try done; apply H. Qed.

Lemma same_refl pool n : forall d m, complete pool n d m -> same pool n d m m.
Proof.
  induction n as [|n IH]; intros d m Hc; [done|]. destruct Hc as (fs & Ed & Hc). exists fs. split; [done|].
  intros f Hf. specialize (Hc f Hf). unfold field_complete, same_field in *. destruct (is_map f).
  - destruct (pool !! message_type f) as [[|key [|value [|]]]|]; try done. destruct Hc as (ks & _ & Hes).
    exists (contents m (number f)). split; [done|]. clear -Hes IH.
    induction Hes as [|k e ks es (sub & v & -> & Ek & Ev & Hk & Hv)]; constructor; [|done].
    split; [rewrite Ek|rewrite Ev]; (constructor; [|constructor]); by eapply same_value_refl.
  - destruct Hc as [Hc _]. apply list.Forall_Forall2_diag. eapply list.Forall_impl; [exact Hc|]. intros v. by apply same_value_refl.
Qed.

#[export] Instance wire pool : Wire pool.
Proof.
  constructor. intros n d m _ Hc _. exists [Z.pos (countable.encode m)], m. split_and!; [done| |by apply same_refl].
  cbn. apply decode_encode.
Qed.

(** *** Types, and a value *)

Definition str (s : string) : list Z := map (fun a => Z.of_N (N_of_ascii a)) (list_ascii_of_string s).
Definition a_field (n : string) (i : Z) (t : cpp_type) (l : label) (is_map : bool) (d : nat) : field :=
  mkfield (str n) i t l is_map d 0 [] (fun _ => true).

Definition account : descriptor :=
  [a_field "id" 3 CPPTYPE_INT32 REQUIRED false 0; a_field "name" 1 CPPTYPE_STRING OPTIONAL false 0;
   a_field "items" 2 CPPTYPE_MESSAGE REPEATED false 1; a_field "marks" 4 CPPTYPE_MESSAGE REPEATED true 2].
Definition item : descriptor :=
  [a_field "count" 1 CPPTYPE_UINT64 OPTIONAL false 0; a_field "next" 2 CPPTYPE_MESSAGE OPTIONAL false 1].
Definition marks_entry : descriptor :=
  [a_field "key" 1 CPPTYPE_STRING OPTIONAL false 0; a_field "value" 2 CPPTYPE_BOOL OPTIONAL false 0].
Definition types : Proto.pool := [account; item; marks_entry].

Definition an_item : lua := LTable [(LStr (str "count"), LInt (-1)); (LStr (str "next"), LTable [])].
Definition an_account : list (lua * lua) :=
  [(LStr (str "id"), LInt 7); (LStr (str "items"), LTable [(LInt 1, an_item); (LInt 2, LTable [])]);
   (LStr (str "marks"), LTable [(LStr (str "a"), LBool true); (LStr (str "b"), LBool false)])].

Lemma types_ok : pool_ok types.
Proof.
  intros d fs E. destruct d as [|[|[|d]]]; [..|by destruct d]; injection E as <-; split_and!.
  all: try (apply (bool_decide_unpack _); vm_compute; reflexivity).
  all: intros f Hf Hm; repeat (apply elem_of_cons in Hf as [->|Hf]); try done; try by apply elem_of_nil in Hf.
  do 2 eexists. split_and!; reflexivity || done.
Qed.

Lemma item_conforms n k : (1 < k)%nat -> conforms id id types (S n) k 1 (LTable []).
Proof.
  intros Hk. split; [lia|]. exists [], item. split_and!; [done..|]. intros f Hf.
  repeat (apply elem_of_cons in Hf as [->|Hf]); try (split; [lia|done]). by apply elem_of_nil in Hf.
Qed.

Lemma an_item_conforms n k : (2 < k)%nat -> conforms id id types (S (S n)) k 1 an_item.
Proof.
  intros Hk. split; [lia|]. do 2 eexists. split_and!; [done..|]. intros f Hf. repeat (apply elem_of_cons in Hf as [->|Hf]).
  - split; [lia|]. split; [lia|]. by vm_compute.
  - split; [lia|]. split; [lia|]. apply item_conforms. lia.
  - by apply elem_of_nil in Hf.
Qed.

Lemma an_account_conforms n k : (5 < k)%nat -> conforms id id types (S (S (S n))) k 0 (LTable an_account).
Proof.
  intros Hk. split; [lia|]. do 2 eexists. split_and!; [done..|]. intros f Hf. repeat (apply elem_of_cons in Hf as [->|Hf]).
  - split; [lia|]. split; [lia|]. by vm_compute.
  - split; [lia|done].
  - split; [lia|]. split; [done|]. intros i Hi. change (0 <= i < 2) in Hi. split; [lia|].
    assert (i = 0 \/ i = 1) as [->| ->] by lia; [apply an_item_conforms|apply item_conforms]; lia.
  - split; [lia|]. split; [|repeat constructor; cbn; lia]. assert (Inj (=) (=) LStr) by (by intros ? ? [=]).
    apply (NoDup_fmap_2 LStr [str "a"; str "b"]), (bool_decide_unpack _). by vm_compute.
  - by apply elem_of_nil in Hf.
Qed.

Lemma proto_roundtrip_witness : exists s y,
  proto_encode types id LUA_MINSTACK 0 (LTable an_account) = Some (LStr s) /\ proto_decode types id LUA_MINSTACK 0 s = Some y /\
  shows id types (S LUA_MINSTACK) 0 (LTable an_account) y.
Proof.
  destruct (proto_roundtrip id id types 0 (LTable an_account)) as (m & _ & H); [apply types_ok|apply an_account_conforms; unfold LUA_MINSTACK; lia|].
  apply H. done.
Defined.

Lemma proto_pack_roundtrip_witness : exists s ys,
  let args := (fun f => get an_account (LStr (name f))) <$> SortFieldsByNumber account in
  proto_pack types id LUA_MINSTACK 0 args = Some (LStr s) /\ proto_unpack types id LUA_MINSTACK 0 s = Some ys /\ length ys = 4%nat.
Proof.
  destruct (proto_pack_roundtrip id id types 5 0 an_account account) as (m & _ & H);
    [apply types_ok|done|lia|cbn; unfold LUA_MINSTACK; lia|apply an_account_conforms; lia|].
  destruct H as (s & ys & E1 & E2 & Hl); [done|]. exists s, ys. split_and!; [done..|]. by rewrite <- (list.Forall2_length _ _ _ Hl).
Defined.

Lemma types_closed : closed types.
Proof.
  intros d fs f E Hf _. destruct d as [|[|[|d]]]; [..|by destruct d]; injection E as <-;
    repeat (apply elem_of_cons in Hf as [->|Hf]); cbn; try lia; by apply elem_of_nil in Hf.
Qed.

Lemma acc_irrefl {A} (R : A -> A -> Prop) x : Acc R x -> ~ R x x.
Proof. induction 1 as [x _ IH]. intros H. by apply (IH x H). Qed.

Lemma account_child d : ~ child types d 0.
Proof.
  intros (fs & f & Ed & Hf & Hn & _). change (types !! 0%nat) with (Some account) in Ed. injection Ed as <-.
  repeat (apply elem_of_cons in Hf as [->|Hf]); [vm_compute in Hn; discriminate Hn..|]. by apply elem_of_nil in Hf.
Qed.

Lemma item_child : child types 1 1.
Proof.
  exists item, (a_field "next" 2 CPPTYPE_MESSAGE OPTIONAL false 1). split_and!; [done|right; left|done..].
Qed.

(** An account has no message in it of itself; an item may have one of its own
    type, and [proto_create] of an item does not end. *)
Lemma proto_create_ends_witness : (exists n free v, proto_create types id n free 0 = Done v) /\
  ~ exists n free v, proto_create types id n free 1 = Done v.
Proof.
  split.
  - apply (proto_create_ends id types 0); [apply types_closed|cbn; lia|]. constructor. intros d Hd. by apply account_child in Hd.
  - intros He. apply (proto_create_ends id types 1) in He; [|apply types_closed|cbn; lia]. by apply (acc_irrefl _ _ He), item_child.
Defined.

(** A number that is a key of a map of strings is changed where [lua_next]
    needs it. *)
Example number_key_of_strings :
  encode_message types id 3 20 0 (LTable [(LStr (str "id"), LInt 7); (LStr (str "marks"), LTable [(LInt 1, LBool true)])]) (New 0) = None.
Proof. reflexivity. Qed.

(** Items nested 20 deep: the slots of the Lua stack are used up before the
    last is looked into. *)
Fixpoint items_deep (n : nat) : lua :=
  match n with O => LTable [] | S n => LTable [(LStr (str "next"), items_deep n)] end.

Example deep_values_overflow :
  option_map (fun _ => tt) (proto_encode types id LUA_MINSTACK 1 (items_deep 18)) = Some tt /\
  proto_encode types id LUA_MINSTACK 1 (items_deep 20) = None /\
  option_map (fun _ => tt) (encode_message types id 30 30 1 (items_deep 20) (New 1)) = Some tt.
Proof. split_and!; vm_compute; reflexivity. Qed.

End Demo.
End ProtoLuaCreate.
