(* ===== verification/Tools.v ===== *)
(** * Tools: the helpers of src/src/common/Tools.cpp

    [encrypt], [charCount], [binarySearch] and [random], with the calendar
    functions of src/src/common/XTime.cpp.  A C string is the memory from its
    first byte, which holds a NUL byte.  [None] is an access outside an
    object, or a division by zero.  Here also: when [encrypt] undoes itself,
    and that [binarySearch] ends, stays in the array and finds what is
    there. *)
From Stdlib Require Import Sorted.
From S2P Require Import Prelude.

Module Tools.

(** [strlen]. *)
Fixpoint strlen (s : list Z) : option nat :=
  match s with
  | [] => None
  | c :: s => if c =? 0 then Some O else S <$> strlen s
  end.

(** [Tools::encrypt]: the loop from byte [i] on, with [n] bytes left. *)
Fixpoint encrypt_loop (key : list Z) (keyLen i n : nat) (p : list Z) : option (list Z) :=
  match n with
  | O => Some p
  | S n =>
    match p with
    | [] => None
    | b :: p =>
      if (keyLen =? 0)%nat then None else
      k ← key !! (i mod keyLen)%nat;
      p ← encrypt_loop key keyLen (S i) n p;
      Some (Z.lxor b k :: p)
    end
  end.

Definition encrypt (buf key : list Z) : option (list Z) :=
  bufLen ← strlen buf;
  keyLen ← strlen key;
  encrypt_loop key keyLen 0 bufLen buf.

(** [Tools::charCount]: the loop, [nCount] characters counted. *)
Fixpoint charCount_loop (pTemp : list Z) (c nCount : Z) : option Z :=
  match pTemp with
  | [] => None
  | x :: pTemp =>
    if x =? 0 then Some nCount
    else charCount_loop pTemp c (if x =? c then i32 (nCount + 1) else nCount)
  end.

Definition charCount (pStr : list Z) (c : Z) : option Z := charCount_loop pStr c 0.

(** [arr[i]]. *)
Definition at_ (arr : list Z) (i : Z) : option Z := if i <? 0 then None else arr !! Z.to_nat i.

(** [Tools::binarySearch]: the loop, with fuel. *)
Fixpoint search_loop (fuel : nat) (arr : list Z) (findX left right : Z) : option Z :=
  match fuel with
  | O => None
  | S fuel =>
    if left <=? right then
      let middle := i32 (left + right) ÷ 2 in
      x ← at_ arr middle;
      if findX =? x then Some middle
      else if x <? findX then search_loop fuel arr findX (i32 (middle + 1)) right
      else search_loop fuel arr findX left (i32 (middle - 1))
    else Some (-1)
  end.

Definition binarySearch (arr : list Z) (len findX : Z) : option Z :=
  search_loop (S (Z.to_nat len)) arr findX 0 (i32 (len - 1)).

(** [Tools::random] on the value [r] of [::random()]. *)
Definition random (r begin_ end_ : Z) : option Z :=
  let m := i32 (i32 (end_ - begin_) + 1) in
  if m =? 0 then None else Some (i32 (i32 (Z.rem r m) + begin_)).

(** [XTime::isLeapYear] and [XTime::yearMonthDays]. *)
Definition isLeapYear (year : Z) : bool :=
  (Z.rem year 4 =? 0) && ((Z.rem year 400 =? 0) || negb (Z.rem year 100 =? 0)).

Definition yearMonthDays (year month : Z) : Z :=
  if existsb (Z.eqb month) [1; 3; 5; 7; 8; 10; 12] then 31
  else if existsb (Z.eqb month) [4; 6; 9; 11] then 30
  else if month =? 2 then if isLeapYear year then 29 else 28
  else 0.

End Tools.

Module ToolsProps.
Import Tools.

(** ** Strings *)

Lemma strlen_app s r : Forall (fun c => c <> 0) s -> strlen (s ++ 0 :: r) = Some (length s).
Proof.
  induction 1 as [|c s Hc _ IH]; [done|]. cbn. rewrite (proj2 (Z.eqb_neq c 0) Hc), IH. done.
Qed.

(** [charCount] counts every occurrence, wherever in the text. *)
Definition occurrences (c : Z) (s : list Z) : Z := Z.of_nat (length (filter (fun x => x = c) s)).

Lemma charCount_loop_spec s r c n : Forall (fun c => c <> 0) s -> 0 <= n -> n + Z.of_nat (length s) < 2 ^ 31 ->
  charCount_loop (s ++ 0 :: r) c n = Some (n + occurrences c s).
Proof.
  intros Hs. revert n. induction Hs as [|x s Hx Hs IH]; intros n Hn Hl; cbn [app charCount_loop].
  - unfold occurrences. cbn. f_equal. lia.
  - cbn [length] in Hl. rewrite (proj2 (Z.eqb_neq x 0) Hx). unfold occurrences. rewrite filter_cons.
    destruct (Z.eqb_spec x c) as [->|Hc].
    + rewrite sext_small by (unfold in_i; lia). rewrite IH by lia. rewrite decide_True by done. unfold occurrences. cbn [length].
      f_equal. lia.
    + rewrite IH by lia. by rewrite decide_False by done.
Qed.

Lemma charCount_spec s r c : Forall (fun c => c <> 0) s -> Z.of_nat (length s) < 2 ^ 31 ->
  charCount (s ++ 0 :: r) c = Some (occurrences c s).
Proof. intros Hs Hl. unfold charCount. rewrite charCount_loop_spec by (done || lia). done. Qed.

(** ** Encryption *)

(** The text with the key laid over it from place [i] on. *)
Definition crypt (key : list Z) (i : nat) (s : list Z) : list Z :=
  imap (fun j b => Z.lxor b (key !!! ((i + j) mod length key)%nat)) s.

Lemma crypt_cons key i b s : crypt key i (b :: s) = Z.lxor b (key !!! (i mod length key)%nat) :: crypt key (S i) s.
Proof.
  unfold crypt. cbn. rewrite Nat.add_0_r. f_equal. apply imap_ext. intros j x _. cbn. by rewrite Nat.add_succ_r.
Qed.

Lemma encrypt_loop_spec key kr i s r : key <> [] ->
  encrypt_loop (key ++ kr) (length key) i (length s) (s ++ r) = Some (crypt key i s ++ r).
Proof.
  intros Hk. revert i. induction s as [|b s IH]; intros i; [done|]. cbn [app length encrypt_loop]. rewrite crypt_cons.
  assert (length key <> 0)%nat as Hl by (by destruct key). rewrite (proj2 (Nat.eqb_neq _ 0) Hl).
  assert (i mod length key < length key)%nat as Hi by (by apply Nat.mod_upper_bound).
  rewrite lookup_app_l by done. destruct (lookup_lt_is_Some_2 key _ Hi) as [k Hkk]. rewrite Hkk. cbn.
  rewrite IH. cbn. by rewrite (list_lookup_total_correct _ _ _ Hkk).
Qed.

Lemma encrypt_spec s r key kr : Forall (fun c => c <> 0) s -> Forall (fun c => c <> 0) key -> key <> [] ->
  encrypt (s ++ 0 :: r) (key ++ 0 :: kr) = Some (crypt key 0 s ++ 0 :: r).
Proof. intros Hs Hk Hn. unfold encrypt. rewrite !strlen_app by done. cbn. by apply encrypt_loop_spec. Qed.

Lemma crypt_twice key i s : crypt key i (crypt key i s) = s.
Proof.
  revert i. induction s as [|b s IH]; intros i; [done|]. rewrite !crypt_cons, IH.
  by rewrite Z.lxor_assoc, Z.lxor_nilpotent, Z.lxor_0_r.
Qed.

Lemma crypt_length key i s : length (crypt key i s) = length s.
Proof. apply length_imap. Qed.

(** Encrypting twice with the same key gives the text back, when no byte of
    the text is the byte of the key over it; such a byte becomes the end of
    the string, and the rest is not decrypted ([encrypt_not_undone]). *)
Theorem encrypt_involutive s r key kr : Forall (fun c => c <> 0) s -> Forall (fun c => c <> 0) key -> key <> [] ->
  (forall i b, s !! i = Some b -> b <> key !!! (i mod length key)%nat) ->
  encrypt (s ++ 0 :: r) (key ++ 0 :: kr) ≫= (fun buf => encrypt buf (key ++ 0 :: kr)) = Some (s ++ 0 :: r).
Proof.
  intros Hs Hk Hn Hne. rewrite encrypt_spec by done. cbn [mbind option_bind].
  rewrite encrypt_spec; try done; [by rewrite crypt_twice|].
  apply Forall_lookup. intros i b Hb. unfold crypt in Hb. rewrite list_lookup_imap in Hb.
  destruct (s !! i) as [c|] eqn:Hc; [|done]. injection Hb as <-. rewrite Z.lxor_eq_0_iff. by apply Hne.
Qed.

Example encrypt_not_undone : encrypt [97; 98; 99; 0] [98; 0] ≫= (fun buf => encrypt buf [98; 0]) = Some [97; 0; 1; 0].
Proof. reflexivity. Qed.

(** ** Search *)

Lemma at_some arr i : 0 <= i < Z.of_nat (length arr) -> exists x, at_ arr i = Some x /\ arr !! Z.to_nat i = Some x.
Proof.
  intros Hi. unfold at_. rewrite (proj2 (Z.ltb_ge _ _)) by lia.
  destruct (lookup_lt_is_Some_2 arr (Z.to_nat i)) as [x Hx]; [lia|]. by exists x.
Qed.

(** What is left of the array still holds every place of [findX]. *)
Lemma search_loop_spec arr findX fuel left right :
  (forall i j x y, (i <= j)%nat -> arr !! i = Some x -> arr !! j = Some y -> x <= y) ->
  Z.of_nat (length arr) < 2 ^ 30 -> 0 <= left -> right < Z.of_nat (length arr) -> -1 <= right -> left <= Z.of_nat (length arr) ->
  left <= right + 1 -> right - left + 1 < Z.of_nat fuel ->
  (forall i, arr !! i = Some findX -> left <= Z.of_nat i <= right) ->
  exists m, search_loop fuel arr findX left right = Some m /\
    ((m = -1 /\ findX ∉ arr) \/ (0 <= m < Z.of_nat (length arr) /\ arr !! Z.to_nat m = Some findX)).
Proof.
  intros Hs Hlen. revert left right. induction fuel as [|fuel IH]; intros left right H1 H2 H3 H4 Hlr Hf Hin; [lia|].
  cbn [search_loop]. destruct (Z.leb_spec left right) as [Hle|Hgt].
  2:{ exists (-1). split; [done|]. left. split; [done|]. intros Hx. apply list_elem_of_lookup in Hx as [i Hi].
      specialize (Hin i Hi). lia. }
  rewrite sext_small by (unfold in_i; lia). rewrite Z.quot_div_nonneg by lia.
  set (m := (left + right) / 2). assert (left <= m <= right) as Hm by (unfold m; split; [apply Z.div_le_lower_bound|apply Z.div_le_upper_bound]; lia).
  destruct (at_some arr m) as (x & Hx & Hxm); [lia|]. rewrite Hx. cbn.
  destruct (Z.eqb_spec findX x) as [->|Hne]; [exists m; split; [done|]; right; split; [lia|done]|].
  destruct (Z.ltb_spec x findX) as [Hlt|Hge]; rewrite sext_small by (unfold in_i; lia); apply IH; try lia;
    intros i Hi; specialize (Hin i Hi); split; try lia.
  - destruct (Z_lt_le_dec m (Z.of_nat i)); [lia|]. pose proof (Hs i (Z.to_nat m) findX x ltac:(lia) Hi Hxm). lia.
  - destruct (Z_lt_le_dec (Z.of_nat i) m); [lia|]. pose proof (Hs (Z.to_nat m) i x findX ltac:(lia) Hxm Hi). lia.
Qed.

(** In a sorted array of fewer than 2^30 numbers [binarySearch] ends, reads
    only places of the array, and returns a place of the number looked for,
    or -1 when it is not there. *)
Theorem binarySearch_correct arr findX : StronglySorted Z.le arr -> Z.of_nat (length arr) < 2 ^ 30 ->
  exists m, binarySearch arr (Z.of_nat (length arr)) findX = Some m /\
    ((m = -1 /\ findX ∉ arr) \/ (0 <= m < Z.of_nat (length arr) /\ arr !! Z.to_nat m = Some findX)).
Proof.
  intros Hs Hl. unfold binarySearch. rewrite sext_small by (unfold in_i; lia).
  apply search_loop_spec; try lia.
  - clear Hl. induction Hs as [|a l Hs IH Ha]; intros i j x y Hij Hi Hj; [done|].
    destruct i as [|i]; destruct j as [|j]; cbn in Hi, Hj; simplify_eq; try lia.
    + rewrite Forall_lookup in Ha. by apply (Ha j).
    + apply (IH i j); [lia|done|done].
  - intros i Hi%lookup_lt_Some. lia.
Qed.

(** [random] gives a number between its bounds, when these span fewer than
    2^31 numbers. *)
Lemma random_between r begin_ end_ : 0 <= r < 2 ^ 31 -> in_i 32 begin_ -> in_i 32 end_ -> begin_ <= end_ ->
  end_ - begin_ + 1 < 2 ^ 31 -> exists v, random r begin_ end_ = Some v /\ begin_ <= v <= end_.
Proof.
  intros Hr Hb He Hle Hd. unfold random, in_i in *. rewrite !(sext_small 32 (end_ - begin_)) by (unfold in_i; lia).
  rewrite (sext_small 32 (end_ - begin_ + 1)) by (unfold in_i; lia).
  rewrite (proj2 (Z.eqb_neq _ _)) by lia. rewrite Z.rem_mod_nonneg by lia.
  pose proof (Z.mod_pos_bound r (end_ - begin_ + 1) ltac:(lia)) as Hm.
  rewrite (sext_small 32 (r mod _)) by (unfold in_i; lia). rewrite sext_small by (unfold in_i; lia).
  eexists. split; [done|]. lia.
Qed.

(** The days of a month are those of the Gregorian calendar: 400 years have
    146097 days. *)
Definition yearDays (year : Z) : Z := fold_right Z.add 0 (map (yearMonthDays year) [1; 2; 3; 4; 5; 6; 7; 8; 9; 10; 11; 12]).

Lemma yearDays_leap year : yearDays year = if isLeapYear year then 366 else 365.
Proof. unfold yearDays. cbn. by destruct (isLeapYear year). Qed.

Lemma isLeapYear_cycle year : 0 <= year -> isLeapYear (year + 400) = isLeapYear year.
Proof.
  intros Hy. unfold isLeapYear. rewrite !Z.rem_mod_nonneg by lia.
  replace ((year + 400) mod 4) with (year mod 4) by (rewrite (Z.add_mod year 400 4) by lia; change (400 mod 4) with 0; rewrite Z.add_0_r, Z.mod_mod; lia).
  replace ((year + 400) mod 400) with (year mod 400) by (rewrite (Z.add_mod year 400 400) by lia; change (400 mod 400) with 0; rewrite Z.add_0_r, Z.mod_mod; lia).
  by replace ((year + 400) mod 100) with (year mod 100) by (rewrite (Z.add_mod year 400 100) by lia; change (400 mod 100) with 0; rewrite Z.add_0_r, Z.mod_mod; lia).
Qed.

Example four_centuries : fold_right Z.add 0 (map (fun n => yearDays (1600 + Z.of_nat n)) (seq 0 400)) = 146097.
Proof. vm_compute. reflexivity. Qed.

End ToolsProps.
