(* ===== verification/Sql.v ===== *)
(** * Sql: prepared statements and their results

    Models src/src/db/SqlPrepare.{h,cpp} and SqlResultSet.{h,cpp}: the
    parameters of a statement in buffers handed to the MySQL client library,
    and the rows of its result, copied out of the buffers the library fills.
    The library is a type class: a state (a connection and its statement) and
    the calls the code makes.  [None] is an access outside an object, a use of
    a null pointer, or the failed [assert] of [prepare]. *)
From S2P Require Import Prelude Bytes ByteBuf Tools.

Module SqlPrepare.

Inductive enum_field_types :=
| MYSQL_TYPE_DECIMAL | MYSQL_TYPE_TINY | MYSQL_TYPE_SHORT | MYSQL_TYPE_LONG | MYSQL_TYPE_FLOAT | MYSQL_TYPE_DOUBLE
| MYSQL_TYPE_LONGLONG | MYSQL_TYPE_INT24 | MYSQL_TYPE_YEAR | MYSQL_TYPE_NEWDECIMAL
| MYSQL_TYPE_DATE | MYSQL_TYPE_TIME | MYSQL_TYPE_DATETIME | MYSQL_TYPE_TIMESTAMP
| MYSQL_TYPE_BIT | MYSQL_TYPE_TINY_BLOB | MYSQL_TYPE_MEDIUM_BLOB | MYSQL_TYPE_LONG_BLOB | MYSQL_TYPE_BLOB
| MYSQL_TYPE_VAR_STRING | MYSQL_TYPE_STRING
| MYSQL_TYPE_OTHER (n : nat).  (* the types the code does not name *)

#[export] Instance enum_field_types_eq_dec : EqDecision enum_field_types.
Proof. solve_decision. Defined.

(** A [MYSQL_BIND]: what the code sets of it.  The buffer is the block it
    points to, or null; [length] the variable of [m_paramLengths] it points
    to, [None] before it is set. *)
Record MYSQL_BIND := mkbind {
  buffer_type : enum_field_types;
  buffer : option (list Z);
  buffer_length : Z;
  length_ : option Z;
  is_unsigned : bool
}.

Definition zero_bind : MYSQL_BIND := mkbind MYSQL_TYPE_DECIMAL None 0 None false.

(** A column of a result, [MYSQL_FIELD]. *)
Record MYSQL_FIELD := mkfield { type : enum_field_types; unsigned : bool; flength : Z; max_length : Z }.

(** A cell of a row: its bytes, or NULL. *)
Abbreviation cell := (option (list Z)).

(** The calls of the client library, on a connection with its statement.  A
    call that can fail tells whether it did ([true]). *)
Class MySQL (M : Type) := {
  mysql_stmt_init : M -> M * bool;                  (* [true]: NULL *)
  mysql_stmt_prepare : list Z -> M -> M * bool;
  mysql_stmt_param_count : M -> Z;
  mysql_stmt_bind_param : list MYSQL_BIND -> M -> M * bool;
  mysql_stmt_execute : M -> M * bool;
  mysql_stmt_result_metadata : M -> list MYSQL_FIELD;
  mysql_stmt_store_result : M -> M * bool;
  mysql_stmt_num_rows : M -> Z;
  mysql_stmt_field_count : M -> Z;
  mysql_stmt_affected_rows : M -> Z;
  mysql_stmt_bind_result : list MYSQL_BIND -> M -> M * bool;
  mysql_stmt_fetch : M -> M * option (list cell);   (* [None]: no data, or an error *)
  sizeof_MYSQL_TIME : Z
}.

(** The members of [SqlPrepare]; [m_stmt]: a statement has been made. *)
Record t := mk {
  m_count : Z;
  m_sql : list Z;
  m_stmt : bool;
  m_paramBind : option (list MYSQL_BIND);
  m_widx : Z
}.

Definition set_stmt (b : bool) (s : t) : t := mk (m_count s) (m_sql s) b (m_paramBind s) (m_widx s).

(** [SqlPrepare::SqlPrepare]; [sqlstr] is a C string. *)
Definition create (sqlstr : list Z) : option t :=
  n ← Tools.charCount sqlstr 63;
  len ← Tools.strlen sqlstr;
  Some (mk n (take len sqlstr) false (if 0 <? n then Some (replicate (Z.to_nat n) zero_bind) else None) 0).

(** [SqlPrepare::clear]. *)
Definition clear (s : t) : t := mk (m_count s) (m_sql s) (m_stmt s) (m_paramBind s) 0.

(** [MYSQL_BIND* pBind = &m_paramBind[m_widx++]] and what is done to it. *)
Definition with_bind (f : MYSQL_BIND -> option MYSQL_BIND) (s : t) : option t :=
  l ← m_paramBind s;
  if m_widx s <? 0 then None else
  b ← l !! Z.to_nat (m_widx s);
  b ← f b;
  Some (mk (m_count s) (m_sql s) (m_stmt s) (Some (<[Z.to_nat (m_widx s) := b]> l)) (i32 (m_widx s + 1))).

Definition SetParameterValue (type : enum_field_types) (value : list Z) (isUnsigned : bool) (param : MYSQL_BIND) : MYSQL_BIND :=
  let len := Z.of_nat (length value) in
  mkbind type (Some value) len (Some len) isUnsigned.

Definition push_num (type : enum_field_types) (ty : cty) (value : Z) (isUnsigned : bool) : t -> option t :=
  with_bind (fun b => Some (SetParameterValue type (obj_bytes ty value) isUnsigned b)).

Definition pushInt8 (value : Z) := push_num MYSQL_TYPE_TINY Tint8 value false.
Definition pushUint8 (value : Z) := push_num MYSQL_TYPE_TINY Tuint8 value true.
Definition pushInt16 (value : Z) := push_num MYSQL_TYPE_SHORT Tint16 value false.
Definition pushUint16 (value : Z) := push_num MYSQL_TYPE_SHORT Tuint16 value true.
Definition pushInt32 (value : Z) := push_num MYSQL_TYPE_LONG Tint32 value false.
Definition pushUint32 (value : Z) := push_num MYSQL_TYPE_LONG Tuint32 value true.
Definition pushInt64 (value : Z) := push_num MYSQL_TYPE_LONGLONG Tint64 value false.
Definition pushUint64 (value : Z) := push_num MYSQL_TYPE_LONGLONG Tuint64 value true.

(** [value > 0.0f] of a float or a double, by its bits: the sign is clear,
    and it is neither zero nor a NaN. *)
Definition float_pos (value : Z) : bool := (0 <? value) && (value <=? 2139095040).
Definition double_pos (value : Z) : bool := (0 <? value) && (value <=? 9218868437227405312).

Definition pushFloat (value : Z) := push_num MYSQL_TYPE_FLOAT Tfloat value (float_pos value).
Definition pushDouble (value : Z) := push_num MYSQL_TYPE_DOUBLE Tdouble value (double_pos value).

(** The variable-length pushes: a buffer is allocated only the first time, and
    copied into without a look at its size. *)
Definition write_bytes (type : enum_field_types) (data : list Z) (b : MYSQL_BIND) : option MYSQL_BIND :=
  let len := Z.of_nat (length data) in
  let block := match buffer b with Some block => block | None => replicate (length data) 0 end in
  if (length block <? length data)%nat then None
  else Some (mkbind type (Some (data ++ drop (length data) block)) len (Some len) false).

Definition pushString (value : list Z) : t -> option t := with_bind (write_bytes MYSQL_TYPE_STRING value).
Definition write (data : list Z) : t -> option t := with_bind (write_bytes MYSQL_TYPE_BLOB data).
Definition pushData (sv : list Z) : t -> option t := write sv.
Definition pushBlob (packet : ByteBuffer.t) (s : t) : option t :=
  if (length (ByteBuffer.storage packet) <? ByteBuffer.wpos packet)%nat then None
  else write (take (ByteBuffer.wpos packet) (ByteBuffer.storage packet)) s.

Section Client.
Context {M : Type} `{!MySQL M}.

(** [SqlPrepare::prepare]: the value returned. *)
Definition prepare (mysql : M) (s : t) : option (M * t * Z) :=
  let '(mysql, null) := mysql_stmt_init mysql in
  let s := set_stmt (negb null) s in
  if null then Some (mysql, s, -1) else
  let '(mysql, err) := mysql_stmt_prepare (m_sql s) mysql in
  if err then Some (mysql, s, -1) else
  if mysql_stmt_param_count mysql =? m_count s then Some (mysql, s, 0) else None.

(** [SqlPrepare::_query]: whether it failed, and the result's columns. *)
Definition _query (mysql : M) (s : t) : M * bool * list MYSQL_FIELD :=
  let '(mysql, err) := match m_paramBind s with Some l => mysql_stmt_bind_param l mysql | None => (mysql, false) end in
  if err then (mysql, true, []) else
  let '(mysql, err) := mysql_stmt_execute mysql in
  if err then (mysql, true, []) else (mysql, false, mysql_stmt_result_metadata mysql).

End Client.
End SqlPrepare.

Module SqlResultSet.
Import SqlPrepare.

(** [SqlField]: its block, or null. *)
Abbreviation SqlField := (option (list Z)).

(** The members of [SqlResultSet]. *)
Record t := mk {
  m_fields : list SqlField;
  m_currRowIdx : Z;
  m_currColIdx : Z;
  m_rowCount : Z;
  m_fieldCount : Z
}.

Definition create : t := mk [] (-1) 0 0 0.

Definition set_fields (l : list SqlField) (s : t) : t :=
  mk l (m_currRowIdx s) (m_currColIdx s) (m_rowCount s) (m_fieldCount s).
Definition set_cursor (row col : Z) (s : t) : t := mk (m_fields s) row col (m_rowCount s) (m_fieldCount s).

Section Client.
Context {M : Type} `{!MySQL M}.

(** The size [allocateResultBuffer] gives the buffer of a column; none for a
    type it does not know. *)
Definition buffer_size (f : MYSQL_FIELD) : option Z :=
  match type f with
  | MYSQL_TYPE_TINY => Some 1
  | MYSQL_TYPE_YEAR | MYSQL_TYPE_SHORT => Some 2
  | MYSQL_TYPE_INT24 | MYSQL_TYPE_LONG => Some 4
  | MYSQL_TYPE_LONGLONG => Some 8
  | MYSQL_TYPE_FLOAT => Some 4
  | MYSQL_TYPE_DOUBLE => Some 8
  | MYSQL_TYPE_NEWDECIMAL => Some 67
  | MYSQL_TYPE_TIME | MYSQL_TYPE_DATE | MYSQL_TYPE_DATETIME | MYSQL_TYPE_TIMESTAMP => Some sizeof_MYSQL_TIME
  | MYSQL_TYPE_STRING | MYSQL_TYPE_VAR_STRING => Some (flength f)
  | MYSQL_TYPE_TINY_BLOB | MYSQL_TYPE_BLOB | MYSQL_TYPE_MEDIUM_BLOB | MYSQL_TYPE_LONG_BLOB => Some (max_length f)
  | MYSQL_TYPE_BIT => Some 1
  | MYSQL_TYPE_DECIMAL | MYSQL_TYPE_OTHER _ => None
  end.

Definition allocateResultBuffer (f : MYSQL_FIELD) : MYSQL_BIND :=
  match buffer_size f with
  | Some n => mkbind (type f) (Some (replicate (Z.to_nat n) 0)) n None (unsigned f)
  | None => mkbind (type f) None 0 None (unsigned f)
  end.

(** [SqlField::make] on what the library left in the buffer of a column: a
    copy of as many bytes as the cell has, of which the buffer holds only
    [buffer_length]. *)
Definition make (b : MYSQL_BIND) (c : cell) : option SqlField :=
  match c with
  | None => Some (Some [])
  | Some data => if Z.of_nat (length data) <=? buffer_length b then Some (Some data) else None
  end.

(** One row: [m_fields[rowIndex * pFieldCount + fIndex].make(pdata, len)]. *)
Fixpoint fill_row (base : Z) (binds : list MYSQL_BIND) (row : list cell) (l : list SqlField) : option (list SqlField) :=
  match binds, row with
  | b :: binds, c :: row =>
    f ← make b c;
    if (length l <=? Z.to_nat base)%nat then None
    else fill_row (u32 (base + 1)) binds row (<[Z.to_nat base := f]> l)
  | [], _ => Some l
  | _ :: _, [] => None
  end.

(** The rows: [fuel] is one more than the fields there is room for. *)
Fixpoint fill_rows (fuel : nat) (binds : list MYSQL_BIND) (rowIndex : Z) (stmt : M) (l : list SqlField) : option (M * list SqlField) :=
  match fuel with
  | O => None
  | S fuel =>
    match mysql_stmt_fetch stmt with
    | (stmt, None) => Some (stmt, l)
    | (stmt, Some row) =>
      l ← fill_row (u32 (rowIndex * Z.of_nat (length binds))) binds row l;
      fill_rows fuel binds (i32 (rowIndex + 1)) stmt l
    end
  end.

(** [m_fields.resize]: fields are not copied safely, so one that must move
    would leave its block to be freed twice. *)
Definition resize (n : nat) (l : list SqlField) : option (list SqlField) :=
  if (n <=? length l)%nat then Some (take n l)
  else if (length l =? 0)%nat then Some (replicate n None) else None.

(** [SqlResultSet::setResult]; [pResult] the columns of the result. *)
Definition setResult (stmt : M) (pResult : list MYSQL_FIELD) (pRowCount pFieldCount : Z) (s : t) : option (M * t) :=
  let s := mk (m_fields s) (m_currRowIdx s) (m_currColIdx s) (i64 pRowCount) (i32 pFieldCount) in
  if pFieldCount =? 0 then Some (stmt, s) else
  let resultBind := allocateResultBuffer <$> pResult in
  if negb (Z.of_nat (length resultBind) =? pFieldCount) then None else
  let '(stmt, err) := mysql_stmt_bind_result resultBind stmt in
  if err then Some (stmt, s) else
  l ← resize (Z.to_nat (u32 (u32 pRowCount * pFieldCount))) (m_fields s);
  '(stmt, l) ← fill_rows (S (length l)) resultBind 0 stmt l;
  Some (stmt, set_fields l s).

End Client.

(** [SqlResultSet::fetch], [isEmpty], [getRowCount], [getFieldsCount]. *)
Definition fetch (s : t) : bool * t :=
  if m_rowCount s <=? i64 (m_currRowIdx s + 1) then (false, s)
  else (true, set_cursor (i64 (m_currRowIdx s + 1)) 0 s).
Definition isEmpty (s : t) : bool := m_rowCount s =? 0.
Definition getRowCount (s : t) : Z := u32 (m_rowCount s).
Definition getFieldsCount (s : t) : Z := u32 (m_fieldCount s).

(** [SqlResultSet::getField]: null, or the block. *)
Definition getField (idx : Z) (s : t) : option SqlField :=
  if (m_currRowIdx s <? 0) || (m_rowCount s <=? m_currRowIdx s) || (m_fieldCount s <=? idx) then Some None
  else
    let i := i64 (m_currRowIdx s * m_fieldCount s + idx) in
    if i <? 0 then None else m_fields s !! Z.to_nat i.

(** [getField(m_currColIdx++)]. *)
Definition next_field (s : t) : option (SqlField * t) :=
  f ← getField (m_currColIdx s) s;
  Some (f, set_cursor (m_currRowIdx s) (i32 (m_currColIdx s + 1)) s).

Definition emptyField (idx : Z) (s : t) : option bool := f ← getField idx s; Some (bool_decide (f <> None)).

(** [getInt8] .. [getDouble]: [sizeof] bytes copied from the block. *)
Definition getNum (ty : cty) (s : t) : option (Z * t) :=
  '(f, s) ← next_field s;
  match f with
  | None => Some (0, s)
  | Some data => if (length data <? sizeof ty)%nat then None else Some (obj_val ty (take (sizeof ty) data), s)
  end.

(** [getString]; [getStrview] and [getData] give the same bytes by
    reference, [getData] null for a null field. *)
Definition getString (s : t) : option (list Z * t) :=
  '(f, s) ← next_field s;
  Some (default [] f, s).
Definition getData (s : t) : option (option (list Z) * t) := next_field s.

(** [SqlResultSet::readBlob]: the packet and the length. *)
Definition readBlob (packet : ByteBuffer.t) (s : t) : option (ByteBuffer.t * Z * t) :=
  '(f, s) ← next_field s;
  match f with
  | None => Some (packet, 0, s)
  | Some data => packet ← ByteBuffer.append data packet; Some (packet, Z.of_nat (length data), s)
  end.

End SqlResultSet.

Module SqlExecute.
Import SqlPrepare.

Section Client.
Context {M : Type} `{!MySQL M}.

(** [SqlPrepare::execute]: the value returned, the result set filled. *)
Definition execute (mysql : M) (s : t) (resultSet : SqlResultSet.t) : option (M * SqlResultSet.t * Z) :=
  if negb (m_stmt s) then None else
  let '(mysql, err, result) := _query mysql s in
  if err then Some (mysql, resultSet, -1) else
  let '(mysql, err) := mysql_stmt_store_result mysql in
  if err then Some (mysql, resultSet, -1) else
  '(mysql, resultSet) ← SqlResultSet.setResult mysql result (mysql_stmt_num_rows mysql) (mysql_stmt_field_count mysql) resultSet;
  Some (mysql, resultSet, i32 (mysql_stmt_affected_rows mysql)).

(** [DBSqlTask::process] on the statement and result of a task. *)
Definition process (mysql : M) (s : t) (resultSet : SqlResultSet.t) : option (M * t * SqlResultSet.t * Z) :=
  '(mysql, s, _ret) ← prepare mysql s;
  if 0 <=? _ret then
    '(mysql, resultSet, _ret) ← execute mysql s resultSet;
    Some (mysql, s, resultSet, _ret)
  else Some (mysql, s, resultSet, _ret).

End Client.

(** What a callback does: every column of every row, as [getString] gives it.
    [fuel] bounds the rows. *)
Fixpoint get_columns (n : nat) (s : SqlResultSet.t) : option (list (list Z) * SqlResultSet.t) :=
  match n with
  | O => Some ([], s)
  | S n =>
    '(x, s) ← SqlResultSet.getString s;
    '(l, s) ← get_columns n s;
    Some (x :: l, s)
  end.

Fixpoint read_rows (fuel : nat) (s : SqlResultSet.t) : option (list (list (list Z))) :=
  match fuel with
  | O => None
  | S fuel =>
    let '(more, s) := SqlResultSet.fetch s in
    if more then
      '(row, s) ← get_columns (Z.to_nat (SqlResultSet.getFieldsCount s)) s;
      rows ← read_rows fuel s;
      Some (row :: rows)
    else Some []
  end.

End SqlExecute.
