(* ===== verification/SqlProps.v ===== *)
(** * SqlProps: statements, parameters and rows

    What the MySQL client library documents, as laws of its class; the
    parameters pushed are the ones the server sees; the rows a callback reads
    are those of the server's answer. *)
From S2P Require Import Prelude Bytes ByteBuf Tools Sql.

Module SqlProps.
Import Tools ToolsProps SqlPrepare SqlExecute.

(** ** Parameters *)

(** A push of the caller. *)
Inductive param :=
| PNum (ty : cty) (v : Z)
| PString (s : list Z)
| PData (s : list Z).

Definition num_type (ty : cty) : enum_field_types :=
  match ty with
  | Tint8 | Tuint8 => MYSQL_TYPE_TINY
  | Tint16 | Tuint16 => MYSQL_TYPE_SHORT
  | Tint32 | Tuint32 => MYSQL_TYPE_LONG
  | Tint64 | Tuint64 => MYSQL_TYPE_LONGLONG
  | Tfloat => MYSQL_TYPE_FLOAT
  | Tdouble => MYSQL_TYPE_DOUBLE
  end.

Definition push (p : param) : t -> option t :=
  match p with
  | PNum Tint8 v => pushInt8 v | PNum Tuint8 v => pushUint8 v
  | PNum Tint16 v => pushInt16 v | PNum Tuint16 v => pushUint16 v
  | PNum Tint32 v => pushInt32 v | PNum Tuint32 v => pushUint32 v
  | PNum Tint64 v => pushInt64 v | PNum Tuint64 v => pushUint64 v
  | PNum Tfloat v => pushFloat v | PNum Tdouble v => pushDouble v
  | PString s => pushString s
  | PData s => pushData s
  end.

Fixpoint push_all (ps : list param) (s : t) : option t :=
  match ps with [] => Some s | p :: ps => s ← push p s; push_all ps s end.

(** A value as it reaches the server: its type, whether it is unsigned, its
    bytes. *)
Abbreviation value := (enum_field_types * bool * list Z)%type.

Definition num_unsigned (ty : cty) (v : Z) : bool :=
  match ty with
  | Tfloat => float_pos v | Tdouble => double_pos v
  | _ => negb (cty_signed ty)
  end.

Definition value_of (p : param) : value :=
  match p with
  | PNum ty v => (num_type ty, num_unsigned ty v, obj_bytes ty v)
  | PString s => (MYSQL_TYPE_STRING, false, s)
  | PData s => (MYSQL_TYPE_BLOB, false, s)
  end.

(** What a bound parameter hands to the library. *)
Definition bound_value (b : MYSQL_BIND) : option value :=
  match buffer b, length_ b with
  | Some block, Some n => Some (buffer_type b, is_unsigned b, take (Z.to_nat n) block)
  | _, _ => None
  end.

(** The buffer of [b], if there is one, has room for [p]. *)
Definition room (p : param) (b : MYSQL_BIND) : Prop :=
  match p, buffer b with
  | PString s, Some block | PData s, Some block => (length s <= length block)%nat
  | _, _ => True
  end.

Lemma with_bind_spec f s l b b' : m_paramBind s = Some l -> 0 <= m_widx s -> l !! Z.to_nat (m_widx s) = Some b ->
  f b = Some b' -> with_bind f s = Some (mk (m_count s) (m_sql s) (m_stmt s)
    (Some (<[Z.to_nat (m_widx s) := b']> l)) (i32 (m_widx s + 1))).
Proof. intros Hl Hw Hb Hf. unfold with_bind. rewrite Hl. cbn. rewrite (proj2 (Z.ltb_ge _ _) Hw), Hb. cbn. by rewrite Hf. Qed.

Lemma push_with p : exists f, push p = with_bind f /\
  forall b, room p b -> exists b', f b = Some b' /\ bound_value b' = Some (value_of p).
Proof.
  assert (forall type ty v u, exists f, push_num type ty v u = with_bind f /\ forall b, True -> exists b', f b = Some b' /\
    bound_value b' = Some (type, u, obj_bytes ty v)) as Hnum.
  { intros type ty v u. eexists. split; [done|]. intros b _. eexists. split; [done|].
    unfold bound_value. cbn. by rewrite Nat2Z.id, firstn_all. }
  assert (forall type data, exists f, with_bind (write_bytes type data) = with_bind f /\
    forall b, match buffer b with Some block => (length data <= length block)%nat | None => True end ->
      exists b', f b = Some b' /\ bound_value b' = Some (type, false, data)) as Hbytes.
  { intros type data. eexists. split; [done|]. intros b Hb. unfold write_bytes.
    assert ((length (match buffer b with Some block => block | None => replicate (length data) 0%Z end) <? length data)%nat = false) as ->.
    { apply Nat.ltb_ge. destruct (buffer b); [done|]. rewrite length_replicate. lia. }
    eexists. split; [done|]. unfold bound_value. cbn. by rewrite Nat2Z.id, take_app_length. }
  destruct p as [[]|s|s]; cbn; [apply Hnum..| |].
  - destruct (Hbytes MYSQL_TYPE_STRING s) as (f & Hf & H). by exists f.
  - destruct (Hbytes MYSQL_TYPE_BLOB s) as (f & Hf & H). by exists f.
Qed.

(** Pushing on from place [k]: every push takes the next buffer. *)
Lemma push_all_spec ps : forall s l, m_paramBind s = Some l -> 0 <= m_widx s -> Z.of_nat (length l) < 2 ^ 31 ->
  Forall2 room ps (take (length ps) (drop (Z.to_nat (m_widx s)) l)) ->
  exists l', push_all ps s = Some (mk (m_count s) (m_sql s) (m_stmt s) (Some l') (m_widx s + Z.of_nat (length ps))) /\
    length l' = length l /\
    bound_value <$> l' = (bound_value <$> take (Z.to_nat (m_widx s)) l) ++ (Some ∘ value_of <$> ps) ++
      (bound_value <$> drop (Z.to_nat (m_widx s) + length ps) l).
Proof.
  induction ps as [|p ps IH]; intros s l Hl Hw Hlen Hr; cbn [push_all].
  - exists l. cbn [length]. rewrite Z.add_0_r, Nat.add_0_r. split; [destruct s; cbn in *; by subst|]. split; [done|].
    cbn. by rewrite <- fmap_app, take_drop.
  - set (k := Z.to_nat (m_widx s)) in *. destruct (drop k l) as [|b rest] eqn:Hd; [by inversion Hr|].
    cbn [length take] in Hr. apply list.Forall2_cons in Hr as [Hroom Hr].
    assert (l !! k = Some b) as Hk by (rewrite <- (Nat.add_0_r k), <- lookup_drop, Hd; done).
    destruct (push_with p) as (f & Hf & Hspec). destruct (Hspec b Hroom) as (b' & Hb' & Hv).
    assert (k < length l)%nat as Hlt by (by eapply lookup_lt_Some).
    rewrite Hf, (with_bind_spec f s l b b') by done. cbn [mbind option_bind]. rewrite (sext_small 32) by (unfold in_i; lia).
    fold k. specialize (IH (mk (m_count s) (m_sql s) (m_stmt s) (Some (<[k:=b']> l)) (m_widx s + 1)) (<[k:=b']> l)).
    cbn [m_paramBind m_widx m_count m_sql m_stmt] in IH. replace (Z.to_nat (m_widx s + 1)) with (S k) in IH by lia.
    destruct IH as (l' & Hp & Hl' & Hb); [done|lia|by rewrite length_insert| |].
    { rewrite drop_insert_lt by lia. rewrite <- (Nat.add_1_r k), <- drop_drop, Hd. done. }
    exists l'. rewrite Hp. split; [cbn [length]; do 2 f_equal; lia|]. rewrite length_insert in Hl'. split; [done|].
    rewrite Hb, (take_S_r _ _ b') by (by apply list_lookup_insert_eq). rewrite take_insert_ge, drop_insert_lt by lia.
    rewrite fmap_app. cbn [fmap list_fmap length]. rewrite Hv, <- app_assoc. cbn [app]. 
    by replace (k + S (length ps))%nat with (S k + length ps)%nat by lia.
Qed.

(** A new statement has room for as many parameters as it has question
    marks. *)
Lemma create_spec sql r : Forall (fun c => c <> 0) sql -> Z.of_nat (length sql) < 2 ^ 31 ->
  create (sql ++ 0 :: r) = Some (mk (occurrences 63 sql) sql false
    (if 0 <? occurrences 63 sql then Some (replicate (Z.to_nat (occurrences 63 sql)) zero_bind) else None) 0).
Proof.
  intros Hs Hl. unfold create. rewrite charCount_spec, strlen_app by done. cbn. by rewrite take_app_length.
Qed.

Lemma occurrences_le c s : 0 <= occurrences c s <= Z.of_nat (length s).
Proof. unfold occurrences. pose proof (length_filter (fun x => x = c) s). lia. Qed.

(** The statement after its parameters are pushed. *)
Definition filled (s : t) (sql : list Z) (ps : list param) : Prop :=
  m_count s = Z.of_nat (length ps) /\ m_sql s = sql /\
  match m_paramBind s with Some l => bound_value <$> l = Some ∘ value_of <$> ps | None => ps = [] end.

Lemma push_all_new sql r ps : Forall (fun c => c <> 0) sql -> Z.of_nat (length sql) < 2 ^ 31 ->
  Z.of_nat (length ps) = occurrences 63 sql ->
  exists s, create (sql ++ 0 :: r) ≫= push_all ps = Some s /\ filled s sql ps /\ m_widx s = Z.of_nat (length ps).
Proof.
  intros Hs Hl Hn. rewrite create_spec by done. cbn [mbind option_bind]. pose proof (occurrences_le 63 sql).
  destruct (Z.ltb_spec 0 (occurrences 63 sql)) as [Hpos|Hz].
  - edestruct (push_all_spec ps (mk (occurrences 63 sql) sql false
      (Some (replicate (Z.to_nat (occurrences 63 sql)) zero_bind)) 0)) as (l' & Hp & Hlen & Hb); [done|cbn; lia|rewrite length_replicate; lia| |].
    { cbn [m_widx]. rewrite drop_0, <- Hn, Nat2Z.id. clear. induction ps as [|p ps IH]; cbn; constructor; [|done].
      by destruct p as [[]| |]. }
    rewrite Hp. eexists. split; [done|]. unfold filled. cbn. split_and!; [lia|done| |lia].
    cbn [m_widx] in Hb. rewrite Hb. cbn. rewrite drop_ge by (rewrite length_replicate; lia). by rewrite app_nil_r.
  - destruct ps as [|p ps]; [|cbn [length] in Hn; lia]. eexists. split; [done|]. unfold filled. cbn. done.
Qed.

(** A statement filled once, cleared and filled again. *)
Definition no_longer (p q : param) : Prop :=
  match p, q with
  | (PString s | PData s), (PString s0 | PData s0) => (length s <= length s0)%nat
  | (PString s | PData s), PNum ty _ => (length s <= sizeof ty)%nat
  | _, _ => True
  end.

Lemma bound_room p q b : bound_value b = Some (value_of q) -> no_longer p q -> room p b.
Proof.
  unfold bound_value. destruct (buffer b) as [block|] eqn:Eb; [|done]. destruct (length_ b) as [n|]; [|done].
  intros E H. injection E as E. unfold room. rewrite Eb.
  assert (length (snd (value_of q)) <= length block)%nat as Hle.
  { rewrite <- E. cbn. rewrite length_take. lia. }
  destruct p as [ty v|d|d]; [done|..]; destruct q as [ty' v'|d'|d']; cbn in Hle, H; rewrite ?obj_bytes_length in Hle; lia.
Qed.

Lemma push_all_again s sql qs ps : filled s sql qs -> Forall2 no_longer ps qs -> Z.of_nat (length ps) < 2 ^ 31 ->
  exists s', push_all ps (clear s) = Some s' /\ filled s' sql ps.
Proof.
  intros (Hc & Hsql & Hb) Hp Hl. pose proof (Forall2_length Hp) as Hlen.
  destruct (m_paramBind s) as [l|] eqn:El.
  - assert (length l = length qs) as Hll by (apply (f_equal length) in Hb; by rewrite !length_fmap in Hb).
    edestruct (push_all_spec ps (clear s) l) as (l' & Hpush & Hl' & Hb'); [done|cbn; lia|lia| |].
    { cbn [m_widx clear]. rewrite drop_0, Hlen, <- Hll, firstn_all. apply Forall2_lookup. intros i.
      destruct (ps !! i) as [p|] eqn:Ep; destruct (l !! i) as [b|] eqn:Eb.
      - constructor. destruct (Forall2_lookup_l _ _ _ _ _ Hp Ep) as (q & Eq & Hno). apply (bound_room p q); [|done].
        apply (f_equal (lookup i)) in Hb. rewrite !list_lookup_fmap, Eb, Eq in Hb. cbn in Hb. congruence.
      - apply lookup_lt_Some in Ep. apply lookup_ge_None in Eb. lia.
      - apply lookup_ge_None in Ep. apply lookup_lt_Some in Eb. lia.
      - constructor. }
    exists (mk (m_count (clear s)) (m_sql (clear s)) (m_stmt (clear s)) (Some l') (m_widx (clear s) + Z.of_nat (length ps))).
    split; [done|]. unfold filled. cbn. split_and!; [lia|done|]. cbn [m_widx clear] in Hb'. rewrite Hb'. cbn.
    rewrite drop_ge by lia. by rewrite app_nil_r.
  - subst qs. destruct ps; [|done]. exists (clear s). split; [done|]. unfold filled. cbn. by rewrite El.
Qed.

(** ** The client library *)

(** A result of a statement. *)
Record result := mkresult { columns : list MYSQL_FIELD; rows : list (list cell); affected : Z }.

(** What the library documents of the calls of [MySQL]: [answers] is what the
    server, in the state it has then, may answer to a statement and its values;
    the predicates follow the life of a statement; of a stored result [k] rows
    have been fetched.  Every call before the result is stored, and the one
    that binds its buffers, may fail. *)
Class Server (M : Type) `{!MySQL M} := {
  param_count : list Z -> Z;
  answers : M -> list Z -> list (option value) -> result -> Prop;
  opened : M -> Prop;
  prepared : M -> list Z -> list (option value) -> Prop;
  executed : M -> result -> Prop;
  stored : M -> result -> nat -> Prop;
  init_law : forall m m', mysql_stmt_init m = (m', false) -> opened m';
  prepare_law : forall m m' sql, opened m -> mysql_stmt_prepare sql m = (m', false) ->
    prepared m' sql [] /\ mysql_stmt_param_count m' = param_count sql;
  bind_law : forall m m' sql vs bs, prepared m sql vs -> mysql_stmt_bind_param bs m = (m', false) ->
    prepared m' sql (bound_value <$> bs);
  execute_law : forall m m' sql vs, prepared m sql vs -> mysql_stmt_execute m = (m', false) ->
    exists r, answers m sql vs r /\ executed m' r;
  metadata_law : forall m r, executed m r -> mysql_stmt_result_metadata m = columns r;
  store_law : forall m m' r, executed m r -> mysql_stmt_store_result m = (m', false) -> stored m' r 0;
  count_law : forall m r k, stored m r k -> mysql_stmt_num_rows m = Z.of_nat (length (rows r)) /\
    mysql_stmt_field_count m = Z.of_nat (length (columns r)) /\ mysql_stmt_affected_rows m = affected r;
  rows_law : forall m r k, stored m r k -> Forall (fun row => length row = length (columns r)) (rows r);
  bind_result_law : forall m m' r k bs err, stored m r k -> Forall (fun b => buffer b <> None) bs ->
    mysql_stmt_bind_result bs m = (m', err) -> stored m' r k;
  fetch_law : forall m m' r k row, stored m r k -> mysql_stmt_fetch m = (m', row) ->
    row = rows r !! k /\ stored m' r (if row then S k else k)
}.

Section Results.
Context {M : Type} `{!MySQL M} `{!Server M}.

(** The buffer made for a column has room for the cell. *)
Definition cell_fits (c : cell) (f : MYSQL_FIELD) : Prop :=
  forall data, c = Some data -> exists n, SqlResultSet.buffer_size f = Some n /\ Z.of_nat (length data) <= n.

Definition fits (r : result) : Prop :=
  Forall (fun row => Forall2 cell_fits row (columns r)) (rows r) /\
  Forall (fun f => SqlResultSet.buffer_size f <> None) (columns r) /\
  Z.of_nat (length (rows r)) * Z.of_nat (length (columns r)) < 2 ^ 31 /\
  Z.of_nat (length (rows r)) < 2 ^ 31 /\ Z.of_nat (length (columns r)) < 2 ^ 31.

(** A cell as the result set keeps it. *)
Definition kept (c : cell) : SqlResultSet.SqlField := Some (default [] c).

Lemma make_spec c f : cell_fits c f -> SqlResultSet.make (SqlResultSet.allocateResultBuffer f) c = Some (kept c).
Proof.
  intros H. destruct c as [data|]; [|done]. destruct (H data eq_refl) as (n & Hn & Hl). cbn.
  unfold SqlResultSet.allocateResultBuffer. rewrite Hn. cbn. by rewrite (proj2 (Z.leb_le _ _) Hl).
Qed.

Lemma fill_row_spec row cols : Forall2 cell_fits row cols -> forall base (l : list SqlResultSet.SqlField),
  (base + length row <= length l)%nat -> Z.of_nat (length l) < 2 ^ 32 ->
  SqlResultSet.fill_row (Z.of_nat base) (SqlResultSet.allocateResultBuffer <$> cols) row l =
  Some (take base l ++ (kept <$> row) ++ drop (base + length row) l).
Proof.
  induction 1 as [|c f row cols Hc _ IH]; intros base l Hb Hl; cbn [fmap list_fmap SqlResultSet.fill_row length app].
  - by rewrite Nat.add_0_r, take_drop.
  - cbn [length] in Hb. rewrite make_spec by done. cbn [mbind option_bind]. rewrite Nat2Z.id.
    rewrite (proj2 (Nat.leb_gt _ _)) by lia. rewrite wrap_small by (unfold in_u; lia).
    replace (Z.of_nat base + 1) with (Z.of_nat (S base)) by lia. rewrite IH by (rewrite length_insert; lia). f_equal.
    rewrite (take_S_r _ _ (kept c)) by (apply list_lookup_insert_eq; lia). rewrite take_insert_ge, drop_insert_lt by lia.
    rewrite <- app_assoc. cbn [app]. by replace (base + S (length row))%nat with (S base + length row)%nat by lia.
Qed.

(** The fields after the first [k] rows are read. *)
Definition partial (r : result) (k : nat) : list SqlResultSet.SqlField :=
  (kept <$> concat (take k (rows r))) ++ replicate ((length (rows r) - k) * length (columns r)) None.

Lemma length_concat_take (l : list (list cell)) n k : Forall (fun row => length row = n) l -> (k <= length l)%nat ->
  length (concat (take k l)) = (k * n)%nat.
Proof.
  intros H. revert k. induction H as [|row l Hr _ IH]; intros k Hk; cbn in Hk; [by replace k with 0%nat by lia|].
  destruct k as [|k]; [done|]. cbn. rewrite length_app, IH by lia. lia.
Qed.

Lemma partial_length r k : Forall (fun row => length row = length (columns r)) (rows r) -> (k <= length (rows r))%nat ->
  length (partial r k) = (length (rows r) * length (columns r))%nat.
Proof.
  intros H Hk. unfold partial. rewrite length_app, length_replicate, length_fmap, (length_concat_take _ (length (columns r))) by done.
  nia.
Qed.

Lemma partial_step r k row : Forall (fun row => length row = length (columns r)) (rows r) -> rows r !! k = Some row ->
  take (k * length (columns r)) (partial r k) ++ (kept <$> row) ++ drop (k * length (columns r) + length row) (partial r k) =
  partial r (S k).
Proof.
  intros H Hk. assert (k < length (rows r))%nat as Hlt by (by eapply lookup_lt_Some).
  assert (length row = length (columns r)) as Hrow by (rewrite Forall_lookup in H; by apply (H k)).
  assert (length (kept <$> concat (take k (rows r))) = k * length (columns r))%nat as Hlen
    by (rewrite length_fmap; apply length_concat_take; [done|lia]).
  unfold partial. rewrite <- Hlen at 1. rewrite take_app_length. rewrite <- Hlen, Hrow, <- drop_drop, drop_app_length, drop_replicate.
  rewrite (take_S_r _ _ row) by done. rewrite concat_app, fmap_app. cbn [concat]. rewrite app_nil_r, <- app_assoc.
  do 2 f_equal. f_equal. nia.
Qed.

Lemma fill_rows_spec r : fits r -> forall fuel k m, stored m r k -> (k <= length (rows r))%nat -> (length (rows r) - k < fuel)%nat ->
  exists m', SqlResultSet.fill_rows fuel (SqlResultSet.allocateResultBuffer <$> columns r) (Z.of_nat k) m (partial r k) =
    Some (m', partial r (length (rows r))) /\ stored m' r (length (rows r)).
Proof.
  intros (Hf & _ & Hsz & Hn & Hc). induction fuel as [|fuel IH]; intros k m Hm Hk Hfu; [lia|].
  pose proof (rows_law m r k Hm) as Hrows. cbn [SqlResultSet.fill_rows].
  destruct (mysql_stmt_fetch m) as [m' row] eqn:Ef. destruct (fetch_law m m' r k row Hm Ef) as [Hrow Hm'].
  destruct row as [row|].
  - assert (k < length (rows r))%nat as Hlt by (by eapply lookup_lt_Some).
    assert (length row = length (columns r)) as Hlr by (rewrite Forall_lookup in Hrows; by apply (Hrows k)).
    rewrite Forall_lookup in Hf. specialize (Hf k row (eq_sym Hrow)). rewrite length_fmap.
    rewrite wrap_small by (unfold in_u; nia). rewrite <- Nat2Z.inj_mul.
    rewrite (fill_row_spec row (columns r)) by (done || rewrite partial_length by (done || lia); nia).
    cbn [mbind option_bind]. rewrite partial_step by done. rewrite sext_small by (unfold in_i; lia).
    replace (Z.of_nat k + 1) with (Z.of_nat (S k)) by lia. apply IH; [done|lia|lia].
  - assert (k = length (rows r)) as -> by (symmetry in Hrow; apply lookup_ge_None in Hrow; lia). by exists m'.
Qed.

(** A result set that holds [r], at row [row] and column [col]. *)
Definition holds (s : SqlResultSet.t) (r : result) (row col : Z) : Prop :=
  s = SqlResultSet.mk (kept <$> concat (rows r)) row col (Z.of_nat (length (rows r))) (Z.of_nat (length (columns r))).

(** A result set that was given the counts of [r] but none of its cells. *)
Definition unbound (r : result) : SqlResultSet.t :=
  SqlResultSet.mk [] (-1) 0 (Z.of_nat (length (rows r))) (Z.of_nat (length (columns r))).

Lemma partial_end r : partial r (length (rows r)) = kept <$> concat (rows r).
Proof. unfold partial. rewrite firstn_all, Nat.sub_diag. apply app_nil_r. Qed.

Lemma setResult_spec m r : stored m r 0 -> fits r ->
  exists m' s, SqlResultSet.setResult m (columns r) (mysql_stmt_num_rows m) (mysql_stmt_field_count m) SqlResultSet.create = Some (m', s) /\
    (exists k, stored m' r k) /\ (holds s r (-1) 0 \/ s = unbound r).
Proof.
  intros Hm Hfit. pose proof Hfit as (Hf & Hty & Hsz & Hn & Hc). destruct (count_law m r 0 Hm) as (Hnum & Hcnt & _).
  pose proof (rows_law m r 0 Hm) as Hrows.
  unfold SqlResultSet.setResult. rewrite Hnum, Hcnt. cbn [SqlResultSet.m_fields SqlResultSet.m_currRowIdx SqlResultSet.m_currColIdx SqlResultSet.create].
  rewrite !sext_small by (unfold in_i; lia).
  destruct (decide (columns r = [])) as [Hcol|Hcol].
  { rewrite Hcol. cbn. eexists _, _. split; [done|]. split; [by exists 0%nat|]. left. unfold holds. rewrite Hcol. f_equal.
    rewrite Hcol in Hrows. clear -Hrows. symmetry. induction Hrows as [|row l Hrow _ IH]; [done|]. destruct row; [done|done]. }
  rewrite (proj2 (Z.eqb_neq _ _)) by (destruct (columns r); [done|cbn; lia]).
  rewrite length_fmap, Z.eqb_refl. cbn [negb].
  destruct (mysql_stmt_bind_result (SqlResultSet.allocateResultBuffer <$> columns r) m) as [m1 err] eqn:Eb.
  assert (stored m1 r 0) as Hm1.
  { apply (bind_result_law m m1 r 0 (SqlResultSet.allocateResultBuffer <$> columns r) err Hm); [|exact Eb]. apply list.Forall_fmap. apply (list.Forall_impl _ _ _ Hty). intros f Hft. cbn. unfold SqlResultSet.allocateResultBuffer.
    by destruct (SqlResultSet.buffer_size f). }
  destruct err; [eexists _, _; split; [done|]; split; [by exists 0%nat|by right]|].
  rewrite (wrap_small 32 (Z.of_nat (length (rows r)))) by (unfold in_u; lia). rewrite wrap_small by (unfold in_u; nia).
  rewrite <- Nat2Z.inj_mul, Nat2Z.id. unfold SqlResultSet.resize.
  assert (exists l, (if (length (rows r) * length (columns r) <=? length (@nil SqlResultSet.SqlField))%nat
      then Some (take (length (rows r) * length (columns r)) [])
      else if (length (@nil SqlResultSet.SqlField) =? 0)%nat then Some (replicate (length (rows r) * length (columns r)) None) else None) = Some l /\
      l = partial r 0) as (l & Hl & ->).
  { eexists. split; [|reflexivity]. unfold partial. cbn [take concat fmap list_fmap app length]. rewrite Nat.sub_0_r.
    destruct (Nat.leb_spec (length (rows r) * length (columns r)) 0) as [H0|H0]; [|done].
    replace (length (rows r) * length (columns r))%nat with 0%nat by lia. done. }
  rewrite Hl. cbn [mbind option_bind].
  destruct (fill_rows_spec r Hfit (S (length (partial r 0))) 0 m1 Hm1) as (m2 & Hfill & Hm2); [lia| |].
  { rewrite partial_length by (done || lia). destruct (columns r); [done|cbn; lia]. }
  change (Z.of_nat 0) with 0 in Hfill. rewrite Hfill. cbn. eexists _, _. split; [done|]. split; [by eexists|]. left.
  unfold holds, SqlResultSet.set_fields. cbn. by rewrite partial_end.
Qed.

(** ** Reading the rows *)

Lemma concat_lookup (l : list (list cell)) n i j row : Forall (fun row => length row = n) l -> l !! i = Some row -> (j < n)%nat ->
  concat l !! (i * n + j)%nat = row !! j.
Proof.
  intros H. revert i. induction H as [|x l Hx _ IH]; intros i Hi Hj; [done|]. destruct i as [|i]; cbn in Hi |- *.
  - injection Hi as ->. rewrite lookup_app_l by lia. done.
  - rewrite lookup_app_r by lia. rewrite <- (IH i Hi Hj). f_equal. lia.
Qed.

(** [getString] of a cell: a NULL is an empty string. *)
Definition text (c : cell) : list Z := default [] c.

Definition texts (row : list cell) : list (list Z) := text <$> row.

Lemma getField_spec r i j row c s : fits r -> Forall (fun row => length row = length (columns r)) (rows r) ->
  holds s r (Z.of_nat i) (Z.of_nat j) -> rows r !! i = Some row -> row !! j = Some c ->
  SqlResultSet.getField (Z.of_nat j) s = Some (kept c).
Proof.
  intros (_ & _ & Hsz & Hn & Hc) Hrows Hs Hi Hj.
  assert (length row = length (columns r)) as Hlr by (rewrite Forall_lookup in Hrows; by apply (Hrows i)).
  pose proof (lookup_lt_Some _ _ _ Hi) as Hlt. pose proof (lookup_lt_Some _ _ _ Hj) as Hltj.
  unfold SqlResultSet.getField. rewrite Hs. cbn.
  rewrite (proj2 (Z.ltb_ge (Z.of_nat i) 0)), !(proj2 (Z.leb_gt _ _)) by lia. cbn [orb].
  rewrite sext_small by (unfold in_i; nia). rewrite (proj2 (Z.ltb_ge _ 0)) by nia.
  replace (Z.to_nat (Z.of_nat i * Z.of_nat (length (columns r)) + Z.of_nat j)) with (i * length (columns r) + j)%nat by nia.
  rewrite list_lookup_fmap, (concat_lookup _ _ _ _ row) by (done || lia). by rewrite Hj.
Qed.

Lemma get_columns_spec r i row : fits r -> Forall (fun row => length row = length (columns r)) (rows r) -> rows r !! i = Some row ->
  forall n j s, holds s r (Z.of_nat i) (Z.of_nat j) -> (j + n = length (columns r))%nat ->
  exists s', get_columns n s = Some (text <$> drop j row, s') /\ holds s' r (Z.of_nat i) (Z.of_nat (j + n)).
Proof.
  intros (Hf & Hty & Hsz & Hn & Hc) Hrows Hi.
  assert (length row = length (columns r)) as Hlr by (rewrite Forall_lookup in Hrows; by apply (Hrows i)).
  induction n as [|n IH]; intros j s Hs Hj; cbn [get_columns].
  { exists s. rewrite Nat.add_0_r. rewrite drop_ge by lia. done. }
  destruct (lookup_lt_is_Some_2 row j) as [c Hcj]; [lia|].
  pose proof (getField_spec r i j row c s (conj Hf (conj Hty (conj Hsz (conj Hn Hc)))) Hrows Hs Hi Hcj) as Hget.
  unfold SqlResultSet.getString, SqlResultSet.next_field. assert (SqlResultSet.m_currColIdx s = Z.of_nat j) as Hcol by (by rewrite Hs).
  rewrite Hcol, Hget. cbn [mbind option_bind]. edestruct (IH (S j)) as (s' & Hg & Hs'); [|lia|].
  2:{ rewrite Hg. cbn [mbind option_bind]. exists s'. split; [|by rewrite Nat.add_succ_r].
      rewrite (drop_S row c j) by done.
      done. }
  unfold holds. rewrite Hs. unfold SqlResultSet.set_cursor. cbn -[Z.of_nat].
  rewrite sext_small by (unfold in_i; lia). f_equal. lia.
Qed.

Lemma read_rows_spec r : fits r -> Forall (fun row => length row = length (columns r)) (rows r) ->
  forall fuel k s col, holds s r (Z.of_nat k - 1) col -> (k <= length (rows r))%nat -> (length (rows r) - k < fuel)%nat ->
  read_rows fuel s = Some (texts <$> drop k (rows r)).
Proof.
  intros Hfit Hrows. pose proof Hfit as (_ & _ & Hsz & Hn & Hc).
  induction fuel as [|fuel IH]; intros k s col Hs Hk Hfu; [lia|]. cbn [read_rows]. unfold SqlResultSet.fetch. rewrite Hs. cbn.
  rewrite sext_small by (unfold in_i; lia). replace (Z.of_nat k - 1 + 1) with (Z.of_nat k) by lia.
  destruct (Z.leb_spec (Z.of_nat (length (rows r))) (Z.of_nat k)) as [Hle|Hlt].
  { rewrite drop_ge by lia. done. }
  destruct (lookup_lt_is_Some_2 (rows r) k) as [row Hrow]; [lia|].
  unfold SqlResultSet.getFieldsCount, SqlResultSet.set_cursor. cbn. rewrite wrap_small by (unfold in_u; lia). rewrite Nat2Z.id.
  edestruct (get_columns_spec r k row Hfit Hrows Hrow (length (columns r)) 0) as (s' & Hg & Hs'); [reflexivity|lia|].
  change (Z.of_nat 0) with 0 in Hg. rewrite Hg. cbn [mbind option_bind].
  rewrite (IH (S k) s' (Z.of_nat (0 + length (columns r)))); [|unfold holds in *; rewrite Hs'; f_equal; lia|lia|lia].
  cbn. rewrite (drop_S (rows r) row k) by done. done.
Qed.

(** A number read from a cell shorter than the type, a NULL among them, is
    read past the end of the cell's block. *)
Theorem short_cell_overreads ty s r i j row c : fits r -> Forall (fun row => length row = length (columns r)) (rows r) ->
  holds s r (Z.of_nat i) (Z.of_nat j) -> rows r !! i = Some row -> row !! j = Some c ->
  fst <$> SqlResultSet.getNum ty s =
  if (length (text c) <? sizeof ty)%nat then None else Some (obj_val ty (take (sizeof ty) (text c))).
Proof.
  intros Hfit Hrows Hs Hi Hj. unfold SqlResultSet.getNum, SqlResultSet.next_field.
  assert (SqlResultSet.m_currColIdx s = Z.of_nat j) as Hcol by (by rewrite Hs).
  rewrite Hcol, (getField_spec r i j row c s) by done. cbn [mbind option_bind kept].
  unfold text. by destruct (length (default [] c) <? sizeof ty)%nat.
Qed.

(** ** A query *)

(** The values of a list of parameters, as the server gets them. *)
Definition values (ps : list param) : list (option value) := Some ∘ value_of <$> ps.

(** What the result set shows after a query: the rows of an answer of the
    server to the statement with the values pushed, in the state it was in
    when they were bound; or, when the library does
    not take the buffers made for it, only its counts. *)
Definition answered (sql : list Z) (ps : list param) (rs : SqlResultSet.t) (ret : Z) : Prop :=
  (0 <= ret /\ exists m r, prepared m sql (values ps) /\ answers m sql (values ps) r /\ ret = affected r /\
     (read_rows (S (length (rows r))) rs = Some (texts <$> rows r) \/ rs = unbound r)) \/
  (ret = -1 /\ rs = SqlResultSet.create).

(** An answer that has room in the buffers made for the types of its columns;
    the others make [setResult] read past a buffer. *)
Definition answers_fit (sql : list Z) (ps : list param) : Prop :=
  forall m r, prepared m sql (values ps) -> answers m sql (values ps) r -> fits r /\ 0 <= affected r < 2 ^ 31.

Lemma execute_spec m s sql ps : filled s sql ps -> m_stmt s = true -> prepared m sql [] ->
  answers_fit sql ps ->
  exists m' rs ret, execute m s SqlResultSet.create = Some (m', rs, ret) /\ answered sql ps rs ret.
Proof.
  intros (_ & _ & Hb) Hst Hm Hans. unfold execute. rewrite Hst. cbn [negb]. unfold _query.
  assert (forall m1 err, match m_paramBind s with Some l => mysql_stmt_bind_param l m | None => (m, false) end = (m1, err) ->
    err = false -> prepared m1 sql (values ps)) as Hbind.
  { intros m1 err Hm1 ->. destruct (m_paramBind s) as [l|].
    - unfold values. rewrite <- Hb. by apply (bind_law m m1 sql []).
    - injection Hm1 as <-. subst ps. done. }
  destruct (match m_paramBind s with Some l => mysql_stmt_bind_param l m | None => (m, false) end) as [m1 err] eqn:Em.
  destruct err; [eexists _, _, _; split; [done|by right]|].
  specialize (Hbind m1 false eq_refl eq_refl). destruct (mysql_stmt_execute m1) as [m2 err] eqn:Ee.
  destruct err; [eexists _, _, _; split; [done|by right]|].
  destruct (execute_law _ _ _ _ Hbind Ee) as (r & Hr & Hex). rewrite (metadata_law _ _ Hex).
  destruct (mysql_stmt_store_result m2) as [m3 err] eqn:Es. destruct err; [eexists _, _, _; split; [done|by right]|].
  pose proof (store_law _ _ _ Hex Es) as Hsto. destruct (Hans _ r Hbind Hr) as [Hfit Haff].
  destruct (setResult_spec m3 r Hsto Hfit) as (m4 & rs & Hset & [k4 Hst4] & Hrs). rewrite Hset. cbn [mbind option_bind].
  eexists _, _, _. split; [done|]. left. destruct (count_law _ _ _ Hst4) as (_ & _ & Ha). rewrite Ha.
  rewrite sext_small by (unfold in_i; lia). split; [lia|]. exists m1, r. split; [done|]. split; [done|]. split; [done|].
  destruct Hrs as [Hrs|Hrs]; [left|by right]. apply (read_rows_spec r Hfit (rows_law _ _ _ Hsto) _ 0 rs 0); [exact Hrs|lia|lia].
Qed.

Lemma process_spec m s sql ps : filled s sql ps -> param_count sql = Z.of_nat (length ps) ->
  answers_fit sql ps ->
  exists m' s' rs ret, process m s SqlResultSet.create = Some (m', s', rs, ret) /\ filled s' sql ps /\ answered sql ps rs ret.
Proof.
  intros Hf Hn Hans. unfold process, prepare. destruct (mysql_stmt_init m) as [m1 null] eqn:Ei.
  assert (forall b, filled (set_stmt b s) sql ps) as Hfb by done.
  destruct null; [cbn; eexists _, _, _, _; split; [done|split; [done|by right]]|].
  destruct (mysql_stmt_prepare (m_sql (set_stmt (negb false) s)) m1) as [m2 err] eqn:Ep.
  destruct err; [cbn; eexists _, _, _, _; split; [done|split; [done|by right]]|].
  destruct Hf as (Hc & Hsql & Hb) eqn:E0. clear E0. cbn [m_sql set_stmt] in Ep. rewrite Hsql in Ep.
  destruct (prepare_law m1 m2 sql (init_law _ _ Ei) Ep) as [Hp Hcnt].
  cbn [m_count set_stmt]. rewrite Hcnt, Hn, Hc, Z.eqb_refl. cbn [mbind option_bind].
  destruct (execute_spec m2 (set_stmt true s) sql ps) as (m3 & rs & ret & He & Ha); [apply Hfb|done..|].
  cbn [negb] in *. change (0 <=? 0) with true. cbn iota. rewrite He. cbn. eexists _, _, _, _. split; [done|]. split; [apply Hfb|done].
Qed.

(** C18.  A prepared statement end to end: for a statement with as many
    parameters as it has question marks, and any answer that fits the buffers
    made for the types of its columns, the values pushed on a new statement
    reach the server with their types and bytes; the task fails with -1 and an
    empty result set; or reading the result set gives the rows of the server's
    answer to that statement and those values, in order, a NULL as an empty
    string; or the library has refused the buffers of the result, and the
    result set has the counts of the answer without its rows.  Nothing is read
    or written outside a buffer on the way. *)
Theorem sql_query_end_to_end m sql rest ps :
  Forall (fun c => c <> 0) sql -> Z.of_nat (length sql) < 2 ^ 31 ->
  Z.of_nat (length ps) = occurrences 63 sql -> param_count sql = occurrences 63 sql ->
  answers_fit sql ps ->
  exists s m' s' rs ret, create (sql ++ 0 :: rest) ≫= push_all ps = Some s /\
    process m s SqlResultSet.create = Some (m', s', rs, ret) /\ answered sql ps rs ret.
Proof.
  intros Hs Hl Hn Hc Hans. destruct (push_all_new sql rest ps Hs Hl Hn) as (s & Hp & Hf & _).
  destruct (process_spec m s sql ps Hf) as (m' & s' & rs & ret & H & _ & Ha); [congruence|done|].
  by exists s, m', s', rs, ret.
Qed.

(** A statement used again after [clear]: the same, when no value of variable
    length is longer than the one before it in its place. *)
Theorem sql_statement_again m s sql ps qs : filled s sql qs -> Forall2 no_longer ps qs -> Z.of_nat (length ps) < 2 ^ 31 ->
  param_count sql = Z.of_nat (length ps) ->
  answers_fit sql ps ->
  exists s1 m' s' rs ret, push_all ps (clear s) = Some s1 /\
    process m s1 SqlResultSet.create = Some (m', s', rs, ret) /\ answered sql ps rs ret.
Proof.
  intros Hf Hno Hl Hc Hans. destruct (push_all_again s sql qs ps Hf Hno Hl) as (s1 & Hp & Hf1).
  destruct (process_spec m s1 sql ps Hf1 Hc Hans) as (m' & s' & rs & ret & H & _ & Ha). by exists s1, m', s', rs, ret.
Qed.

End Results.

(** ** Where the buffers are too small *)

(** A result whose buffers the library has refused is reported as a success,
    and the first cell read is not there. *)
Theorem unbound_crashes (r : result) fuel : rows r <> [] -> columns r <> [] -> Z.of_nat (length (rows r)) < 2 ^ 31 ->
  Z.of_nat (length (columns r)) < 2 ^ 31 -> read_rows (S fuel) (unbound r) = None.
Proof.
  intros Hr Hc Hr' Hc'. destruct (rows r) as [|row rs] eqn:Er; [done|]. destruct (columns r) as [|f cols] eqn:Ec; [done|].
  cbn [read_rows]. unfold SqlResultSet.fetch, unbound. rewrite Er, Ec. cbn [SqlResultSet.m_rowCount SqlResultSet.m_currRowIdx].
  change (i64 (-1 + 1)) with 0. rewrite (proj2 (Z.leb_gt _ _)) by (cbn [length]; lia).
  unfold SqlResultSet.getFieldsCount, SqlResultSet.set_cursor. cbn [SqlResultSet.m_fieldCount]. rewrite wrap_small by (unfold in_u; lia).
  rewrite Nat2Z.id. cbn [length get_columns]. unfold SqlResultSet.getString, SqlResultSet.next_field, SqlResultSet.getField.
  cbn [SqlResultSet.m_currColIdx SqlResultSet.m_currRowIdx SqlResultSet.m_rowCount SqlResultSet.m_fieldCount SqlResultSet.m_fields length].
  rewrite !(proj2 (Z.leb_gt _ 0)) by lia. cbn [orb Z.ltb Z.compare]. destruct (_ <? 0); [done|]. by rewrite lookup_nil.
Qed.

(** A longer value in the place of a shorter one is copied past the end of
    its buffer. *)
Theorem longer_value_overflows s b l a data : m_paramBind s = Some (b :: l) -> buffer b = Some a ->
  (length a < length data)%nat -> push (PData data) (clear s) = None /\ push (PString data) (clear s) = None.
Proof.
  intros Hl Hb Hlen. cbn [push]. unfold pushData, pushString, write, with_bind. cbn [m_paramBind clear]. rewrite Hl.
  cbn [m_widx clear mbind option_bind]. change ((b :: l) !! Z.to_nat 0) with (Some b).
  cbn [mbind option_bind Z.ltb Z.compare]. unfold write_bytes.
  rewrite Hb, (proj2 (Nat.ltb_lt _ _) Hlen). done.
Qed.

(** ** A server *)
Module Demo.

(** A server that answers every statement with one row: the bytes of the
    first value, as a string, and a NULL. *)
Inductive conn :=
| Idle | Opened | Prepared (sql : list Z) (vs : list (option value)) | Executed (r : result) | Stored (r : result) (k : nat).

Definition the_answer (sql : list Z) (vs : list (option value)) : option result :=
  match vs with
  | Some (_, _, bytes) :: _ => Some (mkresult [mkfield MYSQL_TYPE_VAR_STRING false (Z.of_nat (length bytes)) 0; mkfield MYSQL_TYPE_LONG false 4 0]
      [[Some bytes; None]] 1)
  | _ => None
  end.

#[local] Instance conn_mysql : MySQL conn := {
  mysql_stmt_init m := (Opened, false);
  mysql_stmt_prepare sql m := match m with Opened => (Prepared sql [], false) | _ => (m, true) end;
  mysql_stmt_param_count m := match m with Prepared sql _ => occurrences 63 sql | _ => 0 end;
  mysql_stmt_bind_param bs m := match m with Prepared sql _ => (Prepared sql (bound_value <$> bs), false) | _ => (m, true) end;
  mysql_stmt_execute m := match m with
    | Prepared sql vs => match the_answer sql vs with Some r => (Executed r, false) | None => (m, true) end
    | _ => (m, true) end;
  mysql_stmt_result_metadata m := match m with Executed r => columns r | _ => [] end;
  mysql_stmt_store_result m := match m with Executed r => (Stored r 0, false) | _ => (m, true) end;
  mysql_stmt_num_rows m := match m with Stored r _ => Z.of_nat (length (rows r)) | _ => 0 end;
  mysql_stmt_field_count m := match m with Stored r _ => Z.of_nat (length (columns r)) | _ => 0 end;
  mysql_stmt_affected_rows m := match m with Stored r _ => affected r | _ => -1 end;
  mysql_stmt_bind_result bs m := match m with
    | Stored _ _ => (m, negb (forallb (fun b => bool_decide (is_Some (buffer b))) bs)) | _ => (m, true) end;
  mysql_stmt_fetch m := match m with
    | Stored r k => match rows r !! k with Some row => (Stored r (S k), Some row) | None => (m, None) end
    | _ => (m, None) end;
  sizeof_MYSQL_TIME := 40
}.

Definition row_wf (r : result) : Prop := Forall (fun row => length row = length (columns r)) (rows r).

#[local] Program Instance conn_server : Server conn := {
  param_count := occurrences 63;
  answers _ sql vs r := the_answer sql vs = Some r;
  opened m := m = Opened;
  prepared m sql vs := m = Prepared sql vs;
  executed m r := m = Executed r /\ row_wf r;
  stored m r k := m = Stored r k /\ row_wf r
}.
Next Obligation. by intros m m' [= <-]. Qed.
Next Obligation. by intros m m' sql -> [= <-]. Qed.
Next Obligation. by intros m m' sql vs bs -> [= <-]. Qed.
Next Obligation.
  intros m m' sql vs -> E. cbn in E. destruct (the_answer sql vs) as [r|] eqn:Er; [|done]. injection E as <-.
  exists r. split; [done|]. split; [done|]. unfold the_answer in Er. repeat case_match; try done. injection Er as <-. by repeat constructor.
Qed.
Next Obligation. by intros m r [-> _]. Qed.
Next Obligation. intros m m' r [-> H] [= <-]. done. Qed.
Next Obligation. by intros m r k [-> _]. Qed.
Next Obligation. by intros m r k [_ H]. Qed.
Next Obligation.
  intros m m' r k bs err [-> H] Hb E. cbn in E. by injection E as <- <-.
Qed.
Next Obligation.
  intros m m' r k row [-> H] E. cbn in E. destruct (rows r !! k) as [x|]; injection E as <- <-; done.
Qed.

(** [select ?], with the value 258 pushed. *)
Definition sql : list Z := [115; 101; 108; 101; 99; 116; 32; 63].

Lemma sql_query_end_to_end_witness : exists s m' s' rs ret, create (sql ++ [0]) ≫= push_all [PNum Tuint16 258] = Some s /\
  process Idle s SqlResultSet.create = Some (m', s', rs, ret) /\ answered sql [PNum Tuint16 258] rs ret.
Proof.
  apply (sql_query_end_to_end Idle sql [] [PNum Tuint16 258]); [by repeat constructor|reflexivity..|].
  intros m r _ E. injection E as <-. split; [|cbn; lia]. split; [|split; [by repeat constructor|split; [reflexivity|split; reflexivity]]].
  repeat constructor; intros data E; [|done]. injection E as <-. exists 2. split; reflexivity.
Defined.

Example query_result : (x ← create (sql ++ [0]) ≫= push_all [PNum Tuint16 258]; y ← process Idle x SqlResultSet.create;
  read_rows 2 (snd (fst y))) = Some [[[2; 1]; []]].
Proof. reflexivity. Qed.

Lemma sql_statement_again_witness : exists s1 m' s' rs ret,
  push_all [PNum Tuint16 3] (clear (mk 1 sql false (Some [mkbind MYSQL_TYPE_SHORT (Some [2; 1]) 2 (Some 2) true]) 1)) = Some s1 /\
  process Idle s1 SqlResultSet.create = Some (m', s', rs, ret) /\ answered sql [PNum Tuint16 3] rs ret.
Proof.
  apply (sql_statement_again Idle _ sql [PNum Tuint16 3] [PNum Tuint16 258]); [by repeat split|by repeat constructor|reflexivity|reflexivity|].
  intros m r _ E. injection E as <-. split; [|cbn; lia]. split; [|split; [by repeat constructor|split; [reflexivity|split; reflexivity]]].
  repeat constructor; intros data E; [|done]. injection E as <-. exists 2. split; reflexivity.
Defined.

(** A BIT column of more than eight bits does not fit the one byte made for
    it. *)
Example bit_column_overreads : SqlResultSet.make (SqlResultSet.allocateResultBuffer (mkfield MYSQL_TYPE_BIT true 16 0)) (Some [1; 2]) = None.
Proof. reflexivity. Qed.

(** A question mark in a string of the statement is counted as a parameter,
    and [prepare] then stops the program. *)
Example quoted_question_mark : (s ← create [39; 63; 39; 0]; Some (m_count s)) = Some 1.
Proof. reflexivity. Qed.

End Demo.
End SqlProps.
