(* ===== verification/Redis.v ===== *)
(** * Redis: commands and replies

    Models src/src/db/RedisCommand.{h,cpp}, RedisResult.{h,cpp} and
    DB_Interface_redis.cpp: the arguments of a command, the calls of the
    hiredis client, and the cursor over its reply.  The client is a type
    class.  [None] is a use of a null pointer, an access outside an object, or
    a format directive without its argument.  Here also: what is pushed is
    what the server gets, and the loop of a callback reads the whole reply. *)
From S2P Require Import Prelude Bytes ByteBuf Tools.

Module RedisCommand.

(** The members: the parameters and their lengths. *)
Record t := mk { m_param : list (list Z); m_len : list Z }.

Definition append (p : list Z) (c : t) : t := mk (m_param c ++ [p]) (m_len c ++ [Z.of_nat (length p)]).

(** [RedisCommand::RedisCommand]; [cmd] is a C string. *)
Definition create (cmd : list Z) : option t :=
  len ← Tools.strlen cmd;
  Some (append (take len cmd) (mk [] [])).

(** [pushInt8] .. [pushDouble]. *)
Definition pushValue (ty : cty) (v : Z) (c : t) : t := append (obj_bytes ty v) c.
Definition pushString (value : list Z) (c : t) : t := append value c.
Definition pushData (sv : list Z) (c : t) : t := append sv c.
Definition pushBlob (packet : ByteBuffer.t) (c : t) : option t :=
  if (length (ByteBuffer.storage packet) <? ByteBuffer.wpos packet)%nat then None
  else Some (append (take (ByteBuffer.wpos packet) (ByteBuffer.storage packet)) c).

Definition length_ (c : t) : Z := i32 (Z.of_nat (length (m_len c))).

(** [argv] and [argvlen]: what a callee sees of argument [i], [m_len[i]]
    bytes at [m_param[i].data()]. *)
Definition arguments (c : t) : list (list Z) := zip_with (fun p n => take (Z.to_nat n) p) (m_param c) (m_len c).

(** [tostr]: the first parameter gets a NUL, each time. *)
Definition tostr (c : t) : option (list Z * t) :=
  match m_param c with
  | [] => None
  | p :: ps => let p := p ++ [0] in Some (p, mk (p :: ps) (m_len c))
  end.

End RedisCommand.

Module RedisResult.

(** [redisReply]: the string of a string, status or error reply, the elements
    of an array. *)
Inductive redisReply := mkreply (str : option (list Z)) (element : list redisReply).

Definition str (r : redisReply) : option (list Z) := let '(mkreply s _) := r in s.
Definition element (r : redisReply) : list redisReply := let '(mkreply _ l) := r in l.

Record t := mk { m_reply : option redisReply; pos : Z }.

Definition create : t := mk None 0.
Definition setResult (result : option redisReply) (s : t) : t := mk result (pos s).
Definition next (s : t) : t := mk (m_reply s) (u32 (pos s + 1)).

Definition isEmpty (s : t) : bool :=
  match m_reply s with
  | None => true
  | Some r => match str r with Some _ => false | None => match element r with [] => true | _ => false end end
  end.

Definition getRowCount (s : t) : option Z :=
  r ← m_reply s;
  Some (match str r with Some _ => 1 | None => u32 (Z.of_nat (length (element r))) end).
Definition getFieldsCount (s : t) : option Z := getRowCount s.

Definition fetch (s : t) : option bool := n ← getRowCount s; Some (negb (n <=? pos s)).

(** [m_reply->str ? m_reply->str : m_reply->element[pos]->str]. *)
Definition current (s : t) : option (option (list Z)) :=
  r ← m_reply s;
  match str r with
  | Some x => Some (Some x)
  | None => e ← element r !! Z.to_nat (pos s); Some (str e)
  end.

(** [getData]: the bytes, or null. *)
Definition getData (s : t) : option (option (list Z) * t) := x ← current s; Some (x, next s).

(** [getStream]; a null string has length 0. *)
Definition getStream (s : t) : option (list Z * t) := '(x, s) ← getData s; Some (default [] x, s).

Definition readBlob (packet : ByteBuffer.t) (s : t) : option (ByteBuffer.t * Z * t) :=
  '(x, s) ← getData s;
  let x := default [] x in
  packet ← (if (length x =? 0)%nat then Some packet else ByteBuffer.append x packet);
  Some (packet, Z.of_nat (length x), s).

(** [operator>>] of a base type: [sizeof] bytes from the string, which ends
    with a NUL; past the last row, nothing ([t] keeps its value). *)
Definition read_num (ty : cty) (value : Z) (s : t) : option (Z * t) :=
  n ← getFieldsCount s;
  if n <=? pos s then Some (value, s) else
  x ← current s;
  p ← x;
  let p := p ++ [0] in
  if (length p <? sizeof ty)%nat then None else Some (obj_val ty (take (sizeof ty) p), next s).

(** [operator>>] of a string: the first word of an [istringstream]. *)
Definition isspace (c : Z) : bool := (c =? 32) || ((9 <=? c) && (c <=? 13)).

Fixpoint skip_space (s : list Z) : list Z :=
  match s with c :: r => if isspace c then skip_space r else s | [] => [] end.
Fixpoint word (s : list Z) : list Z :=
  match s with c :: r => if isspace c then [] else c :: word r | [] => [] end.
Fixpoint c_str (s : list Z) : list Z :=
  match s with c :: r => if c =? 0 then [] else c :: c_str r | [] => [] end.

Definition read_str (value : list Z) (s : t) : option (list Z * t) :=
  n ← getFieldsCount s;
  if n <=? pos s then Some (value, s) else
  x ← current s;
  p ← x;
  let w := word (skip_space (c_str p)) in
  Some (match w with [] => value | _ => w end, next s).

End RedisResult.

Module DBInterfaceRedis.
Import RedisResult.

(** The hiredis calls the code makes, on a connection. *)
Class Hiredis (C : Type) := {
  redisCommandArgv : list (list Z) -> C -> C * option redisReply;
  redisCommand : list Z -> C -> C * option redisReply;   (* a format without directives *)
  err : C -> Z;
  errstr : C -> list Z
}.

(** The format has a directive, whose argument [redisCommand] would take from
    nowhere. *)
Fixpoint directive (s : list Z) : bool :=
  match s with
  | c :: r =>
    if c =? 0 then false
    else if c =? 37 then
      match r with
      | d :: r' => if d =? 37 then directive r' else negb (d =? 0)
      | [] => false
      end
    else directive r
  | [] => false
  end.

Section Client.
Context {C : Type} `{!Hiredis C}.

(** [m_context]: the connection, or null. *)
Abbreviation t := (option C).

(** [DBInterfaceRedis::connect] on what [redisConnect] returned. *)
Definition connect (c : option C) (s : t) : option (t * bool) :=
  match c with
  | None => None                      (* the log reads [c->err] *)
  | Some c => if negb (err c =? 0) then Some (s, false) else Some (Some c, true)
  end.

Definition getErrno (s : t) : Z := match s with Some c => err c | None => 0 end.

(** [DBInterfaceRedis::execute] of a command. *)
Definition execute (command : RedisCommand.t) (result : RedisResult.t) (s : t) :
    option (t * RedisCommand.t * RedisResult.t * Z) :=
  c ← s;
  '(c, pRedisReply, command) ←
    (if 1 <? RedisCommand.length_ command then
       let '(c, r) := redisCommandArgv (RedisCommand.arguments command) c in Some (c, r, command)
     else
       '(p, command) ← RedisCommand.tostr command;
       if directive p then None else
       let '(c, r) := redisCommand (c_str p) c in Some (c, r, command));
  if negb (err c =? 0) then Some (Some c, command, result, -1)
  else Some (Some c, command, RedisResult.setResult pRedisReply result, 0).

(** [pRedisContext_ is NULL]. *)
Definition no_context : list Z :=
  [112; 82; 101; 100; 105; 115; 67; 111; 110; 116; 101; 120; 116; 95; 32; 105; 115; 32; 78; 85; 76; 76].

Definition getError (s : t) : list Z := match s with Some c => errstr c | None => no_context end.

(** [detach], and the destructor: the context is freed once. *)
Definition detach (s : t) : t * bool := (None, true).

(** [execute] of a text, which is a format; the length is not used. *)
Definition execute_text (result : RedisResult.t) (cmd : list Z) (s : t) : option (t * RedisResult.t * Z) :=
  c ← s;
  if directive cmd then None else
  let '(c, pRedisReply) := redisCommand (c_str cmd) c in
  if negb (err c =? 0) then Some (Some c, result, -1) else Some (Some c, RedisResult.setResult pRedisReply result, 0).

(** [ping]; [status] tells whether a reply is of the type
    REDIS_REPLY_STATUS. *)
Definition ping (status : redisReply -> bool) (s : t) : option (t * bool) :=
  match s with
  | None => Some (s, false)
  | Some c =>
    let '(c, pRedisReply) := redisCommand [112; 105; 110; 103] c in
    match pRedisReply with
    | None => Some (Some c, false)
    | Some r =>
      if status r then
        p ← str r; Some (Some c, bool_decide (c_str p = [80; 79; 78; 71]))
      else Some (Some c, false)
    end
  end.

End Client.
End DBInterfaceRedis.

Module RedisProps.
Import RedisCommand RedisResult DBInterfaceRedis.

(** ** Commands *)

(** A push of the caller and the argument it means. *)
Inductive arg := ANum (ty : cty) (v : Z) | ABytes (s : list Z).

Definition push (a : arg) : RedisCommand.t -> RedisCommand.t :=
  match a with ANum ty v => pushValue ty v | ABytes s => pushString s end.
Definition arg_bytes (a : arg) : list Z := match a with ANum ty v => obj_bytes ty v | ABytes s => s end.

Lemma arguments_append p c : length (m_param c) = length (m_len c) -> arguments (append p c) = arguments c ++ [p].
Proof.
  intros H. unfold arguments, append. cbn. rewrite zip_with_app by done. cbn. by rewrite Nat2Z.id, firstn_all.
Qed.

Lemma push_append a : push a = append (arg_bytes a).
Proof. by destruct a. Qed.

Lemma arguments_push l c : length (m_param c) = length (m_len c) ->
  let c' := fold_left (fun c a => push a c) l c in
  arguments c' = arguments c ++ (arg_bytes <$> l) /\ length (m_param c') = length (m_len c') /\
  length (m_len c') = (length (m_len c) + length l)%nat.
Proof.
  revert c. induction l as [|a l IH]; intros c H; cbn; [by rewrite app_nil_r|].
  rewrite push_append. destruct (IH (append (arg_bytes a) c)) as (E1 & E2 & E3); [cbn; by rewrite !length_app, H|].
  rewrite E1, arguments_append by done. split_and!; [by rewrite <- app_assoc|done|].
  rewrite E3. cbn. rewrite length_app. cbn. lia.
Qed.

(** ** Replies *)

(** The rows a reply has for the loop of a callback. *)
Definition reply_rows (r : redisReply) : list (list Z) :=
  match str r with Some x => [x] | None => (fun e => default [] (str e)) <$> element r end.

(** The loop [while (fetch()) getStream()]. *)
Fixpoint read_all (fuel : nat) (s : RedisResult.t) : option (list (list Z)) :=
  match fuel with
  | O => None
  | S fuel =>
    more ← fetch s;
    if (more : bool) then '(x, s) ← getStream s; l ← read_all fuel s; Some (x :: l) else Some []
  end.

Lemma reply_rows_count s r : m_reply s = Some r -> Z.of_nat (length (reply_rows r)) < 2 ^ 32 ->
  getRowCount s = Some (Z.of_nat (length (reply_rows r))).
Proof.
  intros H Hl. unfold getRowCount, reply_rows in *. rewrite H. cbn. destruct (str r); [done|].
  rewrite length_fmap in *. by rewrite wrap_small by (unfold in_u; lia).
Qed.

Lemma read_all_spec r : Z.of_nat (length (reply_rows r)) < 2 ^ 32 - 1 -> forall fuel k, (k <= length (reply_rows r))%nat ->
  (length (reply_rows r) - k < fuel)%nat -> read_all fuel (mk (Some r) (Z.of_nat k)) = Some (drop k (reply_rows r)).
Proof.
  intros Hl. induction fuel as [|fuel IH]; intros k Hk Hf; [lia|]. cbn [read_all]. unfold fetch.
  rewrite (reply_rows_count _ r) by (done || lia). cbn [mbind option_bind pos].
  destruct (Z.leb_spec (Z.of_nat (length (reply_rows r))) (Z.of_nat k)) as [Hle|Hlt]; cbn [negb].
  { by rewrite drop_ge by lia. }
  destruct (lookup_lt_is_Some_2 (reply_rows r) k) as [x Hx]; [lia|].
  assert (getStream (mk (Some r) (Z.of_nat k)) = Some (x, mk (Some r) (Z.of_nat (S k)))) as ->.
  { unfold getStream, getData, current, next. cbn [m_reply pos mbind option_bind]. rewrite wrap_small by (unfold in_u; lia).
    replace (Z.of_nat k + 1) with (Z.of_nat (S k)) by lia. unfold reply_rows in *. rewrite Nat2Z.id. destruct (str r) as [y|].
    - cbn in Hlt, Hx. assert (k = 0%nat) as -> by lia. by injection Hx as ->.
    - rewrite list_lookup_fmap in Hx. destruct (element r !! k) as [e|]; [|done]. by injection Hx as <-. }
  cbn [mbind option_bind]. rewrite IH by lia. cbn. by rewrite (drop_S _ x k).
Qed.

(** What hiredis documents: a reply when, and only when, there is no error;
    [serve] is what the server answers to a list of arguments. *)
Class RedisServer (C : Type) `{!Hiredis C} := {
  serve : list (list Z) -> C -> redisReply;
  argv_law : forall args c, let '(c', r) := redisCommandArgv args c in
    match r with Some r => err c' = 0 /\ r = serve args c | None => err c' <> 0 end;
  split : list Z -> list (list Z);      (* a format without directives, cut at its blanks *)
  command_law : forall s c, let '(c', r) := redisCommand s c in
    match r with Some r => err c' = 0 /\ r = serve (split s) c | None => err c' <> 0 end
}.

Section Served.
Context {C : Type} `{!Hiredis C} `{!RedisServer C}.

Lemma c_str_app s r : Forall (fun c => c <> 0) s -> c_str (s ++ 0 :: r) = s.
Proof. induction 1 as [|c s Hc _ IH]; [done|]. cbn. by rewrite (proj2 (Z.eqb_neq c 0) Hc), IH. Qed.

(** C28.  A command end to end: the client hands the server the command and the
    pushed values, byte for byte and in order (a command without values must
    have no format directive, and is cut at its blanks); on a connection error
    [execute] returns -1 and leaves the result empty, as it was; else the loop
    of the callback reads the rows of the server's reply, all of them and in
    order. *)
Theorem redis_command_served (c : C) cmd rest l args :
  Forall (fun x => x <> 0) cmd -> Z.of_nat (length l) < 2 ^ 31 - 1 -> (l = [] -> directive (cmd ++ [0]) = false) ->
  args = (if decide (l = []) then split cmd else cmd :: (arg_bytes <$> l)) ->
  Z.of_nat (length (reply_rows (serve args c))) < 2 ^ 32 - 1 ->
  exists command c' command' result ret, RedisCommand.create (cmd ++ 0 :: rest) = Some command /\
    execute (fold_left (fun c a => push a c) l command) RedisResult.create (Some c) = Some (Some c', command', result, ret) /\
    ((ret = -1 /\ err c' <> 0 /\ result = RedisResult.create) \/
     (ret = 0 /\ err c' = 0 /\ read_all (S (length (reply_rows (serve args c)))) result = Some (reply_rows (serve args c)))).
Proof.
  intros Hc Hl Hd Ha Hr. exists (RedisCommand.mk [cmd] [Z.of_nat (length cmd)]).
  set (command := fold_left (fun c a => push a c) l (RedisCommand.mk [cmd] [Z.of_nat (length cmd)])).
  destruct (arguments_push l (RedisCommand.mk [cmd] [Z.of_nat (length cmd)]) eq_refl) as (E1 & _ & E3). fold command in E1, E3.
  cbn in E1, E3. rewrite Nat2Z.id, firstn_all in E1.
  assert (exists c' r command', (if 1 <? RedisCommand.length_ command then
       let '(c', r) := redisCommandArgv (arguments command) c in Some (c', r, command)
     else '(p, command) ← tostr command; if directive p then None else
       let '(c', r) := redisCommand (c_str p) c in Some (c', r, command)) = Some (c', r, command') /\
     match r with Some r => err c' = 0 /\ r = serve args c | None => err c' <> 0 end) as (c' & r & command' & E & Hlaw).
  { unfold RedisCommand.length_. rewrite E3, sext_small by (unfold in_i; lia).
    case_decide as E0.
    - subst l. cbn. rewrite Hd by done. rewrite c_str_app by done. destruct (redisCommand cmd c) as [c' r] eqn:Er.
      pose proof (command_law cmd c) as Hlaw. rewrite Er in Hlaw. subst args. by eexists _, _, _.
    - rewrite (proj2 (Z.ltb_lt _ _)) by (destruct l; [done|cbn [length]; lia]). rewrite E1. cbn [app].
      destruct (redisCommandArgv (cmd :: (arg_bytes <$> l)) c) as [c' r] eqn:Er.
      pose proof (argv_law (cmd :: (arg_bytes <$> l)) c) as Hlaw. rewrite Er in Hlaw. subst args. by eexists _, _, _. }
  unfold RedisCommand.create. rewrite ToolsProps.strlen_app by done. cbn [mbind option_bind]. rewrite take_app_length.
  unfold execute. cbn [mbind option_bind] in E |- *. rewrite E. cbn [mbind option_bind].
  destruct r as [r|].
  - destruct Hlaw as [He ->]. rewrite He. cbn [negb]. eexists _, _, _, _. split; [done|]. split; [done|]. right. split; [done|].
    split; [done|]. apply (read_all_spec _ Hr _ 0); lia.
  - rewrite (proj2 (Z.eqb_neq _ _) Hlaw). cbn [negb]. eexists _, _, _, _. split; [done|]. split; [done|]. by left.
Qed.

(** After a failed connection there is no context, and the first command of a
    task uses it all the same. *)
Theorem redis_unconnected_fails (c : C) command result : err c <> 0 ->
  connect (Some c) None = Some (None, false) /\ execute command result (None : option C) = None.
Proof. intros He. cbn. by rewrite (proj2 (Z.eqb_neq _ _) He). Qed.

End Served.

(** ** A server *)
Module Demo.

(** A server that answers with the arguments it got. *)
Record conn := mkconn { failed : bool }.

#[local] Instance conn_redis : Hiredis conn := {
  redisCommandArgv args c := if failed c then (c, None) else (c, Some (mkreply None ((fun a => mkreply (Some a) []) <$> args)));
  redisCommand s c := if failed c then (c, None) else (c, Some (mkreply None [mkreply (Some s) []]));
  err c := if failed c then 1 else 0;
  errstr _ := []
}.

#[local] Program Instance conn_server : RedisServer conn := {
  serve args c := mkreply None ((fun a => mkreply (Some a) []) <$> args);
  split s := [s]
}.
Next Obligation. intros args [[]]; done. Qed.
Next Obligation. intros s [[]]; done. Qed.

(** [echo] with two values. *)
Definition echo : list Z := [101; 99; 104; 111].

Lemma redis_command_served_witness : exists command c' command' result ret,
  RedisCommand.create (echo ++ [0]) = Some command /\
  execute (fold_left (fun c a => push a c) [ANum Tuint16 258; ABytes [0; 9]] command) RedisResult.create (Some (mkconn false)) =
    Some (Some c', command', result, ret) /\
  ((ret = -1 /\ err c' <> 0 /\ result = RedisResult.create) \/ (ret = 0 /\ err c' = 0 /\ read_all 4 result = Some [echo; [2; 1]; [0; 9]])).
Proof.
  exact (redis_command_served (mkconn false) echo [] [ANum Tuint16 258; ABytes [0; 9]] [echo; [2; 1]; [0; 9]]
    ltac:(by repeat constructor) ltac:(reflexivity) ltac:(done) ltac:(reflexivity) ltac:(reflexivity)).
Defined.

(** The value of an integer reply is in none of the fields the code reads. *)
Example integer_reply_lost : isEmpty (RedisResult.setResult (Some (mkreply None [])) RedisResult.create) = true /\
  read_all 1 (RedisResult.setResult (Some (mkreply None [])) RedisResult.create) = Some [].
Proof. split; reflexivity. Qed.

(** A percent sign in a command without values is a format directive. *)
Example percent_sign : directive [115; 101; 116; 32; 97; 32; 53; 37; 32; 98; 0] = true.
Proof. reflexivity. Qed.

End Demo.
End RedisProps.
