(* ===== verification/Mysql.v ===== *)
(** * Mysql: the driver of MySQL and the database threads

    Models src/src/db/MysqlResult.{h,cpp}, DB_Interface_mysql.{h,cpp},
    DB_Interface.cpp and the class DBThread of DBThreadPool.cpp.  The client
    library is two type classes, one for result sets and one for connections;
    [None] is a use of a null pointer, of a closed connection or of memory
    outside an object, and an object cast to a class it is not of.  Here also:
    the loop of a caller reads the whole table, the lengths of the columns can
    never be asked for, and what a thread does with the tasks of its device. *)
From S2P Require Import Prelude Bytes ByteBuf Tools StdNum Sql Redis.

Module MysqlResult.

(** A cell of a row: its bytes, or NULL. *)
Abbreviation cell := (option (list Z)).

(** The calls on a result set. *)
Class MySQLRes (R : Type) := {
  mysql_fetch_row : R -> R * option (list cell);
  mysql_fetch_lengths : R -> option (list Z);        (* [None]: NULL *)
  mysql_num_rows : R -> Z;
  mysql_num_fields : R -> Z
}.

Section Client.
Context {R : Type} `{!MySQLRes R}.

(** The members; [aRow] is not initialised by the constructor and read like a
    null pointer here. *)
Record t := mk { pResult : option R; aRow : option (list cell); pos : Z; lengths : option (list Z) }.

Definition create : t := mk None None 0 None.

Definition setResult (result : option R) (s : t) : t :=
  mk result (aRow s) (pos s) (r ← result; mysql_fetch_lengths r).

Definition isEmpty (s : t) : bool := match pResult s with None => true | Some _ => false end.

Definition fetch (s : t) : option (bool * t) :=
  r ← pResult s;
  let '(r, row) := mysql_fetch_row r in
  Some (match row with Some _ => true | None => false end, mk (Some r) row 0 (lengths s)).

Definition getRowCount (s : t) : option Z := r ← pResult s; Some (u32 (mysql_num_rows r)).
Definition getFieldsCount (s : t) : option Z := r ← pResult s; Some (u32 (mysql_num_fields r)).

Definition next (s : t) : t := mk (pResult s) (aRow s) (u32 (pos s + 1)) (lengths s).

(** [aRow[pos++]]: the cell, which may be NULL. *)
Definition getData (s : t) : option (cell * t) :=
  row ← aRow s; x ← row !! Z.to_nat (pos s); Some (x, next s).

(** [getData(int & len)]. *)
Definition getData_len (s : t) : option (cell * Z * t) :=
  l ← lengths s; len ← l !! Z.to_nat (pos s);
  '(x, s) ← getData s; Some (x, i32 len, s).

(** The text [operator>>] reads, a C string. *)
Definition text (s : t) : option (list Z) :=
  row ← aRow s; x ← row !! Z.to_nat (pos s); p ← x; Some (RedisResult.c_str p).

(** [istringstream >> t] for a signed integer of [w] bits: 0 without digits,
    the nearest value out of range, and [t] as it was at the end of the text. *)
Definition istream_int (w : Z) (value : Z) (p : list Z) : Z :=
  match RedisResult.skip_space p with
  | [] => value
  | p =>
    let '(neg, p) := StdNum.sign p in
    let v := StdNum.dec_val (fst (StdNum.span StdNum.isdigit p)) in
    Z.max (- 2 ^ (w - 1)) (Z.min (2 ^ (w - 1) - 1) (if neg then - v else v))
  end.

(** [operator>>], for what is read from the text: past the last column it
    logs and leaves [value]. *)
Definition shift {T} (read : T -> list Z -> T) (value : T) (s : t) : option (T * t) :=
  n ← getFieldsCount s;
  if n <=? pos s then Some (value, s) else
  p ← text s; Some (read value p, next s).

Definition shift_int (w : Z) := shift (istream_int w).
Definition shift_string := shift (fun value p =>
  match RedisResult.word (RedisResult.skip_space p) with [] => value | x => x end).

(** The loop of a caller: all columns of all rows.  [fuel] bounds the rows. *)
Fixpoint get_columns (n : nat) (s : t) : option (list cell * t) :=
  match n with
  | O => Some ([], s)
  | S n => '(x, s) ← getData s; '(l, s) ← get_columns n s; Some (x :: l, s)
  end.

Fixpoint read_rows (fuel : nat) (s : t) : option (list (list cell)) :=
  match fuel with
  | O => None
  | S fuel =>
    '(more, s) ← fetch s;
    if (more : bool) then
      n ← getFieldsCount s; '(x, s) ← get_columns (Z.to_nat n) s; l ← read_rows fuel s; Some (x :: l)
    else Some []
  end.

End Client.
Arguments t : clear implicits.
End MysqlResult.

Module DBInterfaceMysql.
Import MysqlResult.

(** The calls on a connection; [true]: it failed. *)
Class MySQLClient (M R : Type) := {
  mysql_options_charset : list Z -> M -> M * bool;
  mysql_options_reconnect : bool -> M -> M * bool;
  mysql_real_connect : list Z -> list Z -> list Z -> list Z -> Z -> M -> M * bool;   (* host, user, password, database, port *)
  mysql_real_query : list Z -> M -> M * bool;
  mysql_store_result : M -> M * option R;
  mysql_errno : M -> Z;
  mysql_error : M -> list Z;
  mysql_ping : M -> M * bool
}.

Section Client.
Context {M R : Type} `{!MySQLRes R} `{!MySQLClient M R}.

(** The members; [mMysql_]: null when [mysql_init] failed. *)
Record t := mk {
  m_ip : list Z; m_port : Z; m_dbname : list Z; m_user : list Z; m_pswd : list Z;
  mMysql_ : option M;
  closed : bool                 (* the handle was given to [mysql_close] *)
}.

(** The constructor, on what [mysql_init] returned. *)
Definition create (init : option M) (host dbname user pswd : list Z) (port : Z) : t :=
  mk host port dbname user pswd init false.

(** The handle, while it may be used. *)
Definition mysql (s : t) : option M := if closed s then None else mMysql_ s.
Definition set_mysql (m : M) (s : t) : t := mk (m_ip s) (m_port s) (m_dbname s) (m_user s) (m_pswd s) (Some m) (closed s).

Definition utf8 : list Z := [117; 116; 102; 56].

Definition connect (s : t) : option (t * bool) :=
  m ← mysql s;
  let '(m, err) := mysql_options_charset utf8 m in
  if (err : bool) then Some (set_mysql m s, false) else
  let '(m, err) := mysql_options_reconnect true m in
  if (err : bool) then Some (set_mysql m s, false) else
  let '(m, err) := mysql_real_connect (RedisResult.c_str (m_ip s)) (RedisResult.c_str (m_user s)) (RedisResult.c_str (m_pswd s))
                     (RedisResult.c_str (m_dbname s)) (m_port s) m in
  Some (set_mysql m s, negb err).

Definition detach (s : t) : option (t * bool) :=
  m ← mysql s;
  Some (mk (m_ip s) (m_port s) (m_dbname s) (m_user s) (m_pswd s) (Some m) true, true).

(** The destructor. *)
Definition destroy (s : t) : option t := '(s, _) ← detach s; Some s.

(** [execute] of a command of [len] bytes, or up to its NUL. *)
Definition execute (result : MysqlResult.t R) (cmd : list Z) (len : Z) (s : t) : option (t * MysqlResult.t R * Z) :=
  m ← mysql s;
  q ← (if len <=? 0 then Some (RedisResult.c_str cmd)
       else if Z.of_nat (length cmd) <? len then None else Some (take (Z.to_nat len) cmd));
  let '(m, err) := mysql_real_query q m in
  if (err : bool) then Some (set_mysql m s, result, -1) else
  let '(m, r) := mysql_store_result m in
  Some (set_mysql m s, setResult r result, 0).

Definition getError (s : t) : option (list Z) := m ← mysql s; Some (mysql_error m).
Definition getErrno (s : t) : option Z := m ← mysql s; Some (mysql_errno m).
Definition ping (s : t) : option (t * bool) :=
  m ← mysql s; let '(m, err) := mysql_ping m in Some (set_mysql m s, negb err).

End Client.
Arguments t : clear implicits.
End DBInterfaceMysql.

Module DBThread.
Import MysqlResult DBInterfaceMysql.

Record DBConfig := mkconfig {
  device : list Z; ip : list Z; port : Z; dbname : list Z; user : list Z; pswd : list Z
}.

(** How the constructors get their handles. *)
Class Connects (M C : Type) := {
  mysql_init : option M;
  redisConnect : list Z -> Z -> option C
}.

Section Client.
Context {M C R : Type} `{!SqlPrepare.MySQL M} `{!MySQLRes R} `{!MySQLClient M R} `{!DBInterfaceRedis.Hiredis C} `{!Connects M C}.

(** An object of a class derived from DB_Interface. *)
Inductive DB_Interface := DBMysql (m : DBInterfaceMysql.t M) | DBRedis (ip : list Z) (port : Z) (c : option C).

(** [DBSqlTask] and [DBRedisTask], without what [DBTask] has. *)
Inductive dbtask :=
  | SqlTask (pre : SqlPrepare.t) (result : SqlResultSet.t)
  | RedisTask (command : RedisCommand.t) (result : RedisResult.t).

(** The members [_ret], [_errno] and [_error]. *)
Record outcome := mkoutcome { ret : Z; errno : Z; error : list Z }.

Definition mysql_device : list Z := [109; 121; 115; 113; 108].

Definition new_driver (config : DBConfig) : DB_Interface :=
  if bool_decide (device config = mysql_device) then
    DBMysql (create mysql_init (RedisResult.c_str (ip config)) (RedisResult.c_str (dbname config)) (RedisResult.c_str (user config))
               (RedisResult.c_str (pswd config)) (port config))
  else DBRedis (RedisResult.c_str (ip config)) (port config) None.

Definition db_connect (d : DB_Interface) : option (DB_Interface * bool) :=
  match d with
  | DBMysql m => '(m, b) ← connect m; Some (DBMysql m, b)
  | DBRedis h p c => '(c, b) ← DBInterfaceRedis.connect (redisConnect h (i32 p)) c; Some (DBRedis h p c, b)
  end.

Definition db_getErrno (d : DB_Interface) : option Z :=
  match d with DBMysql m => getErrno m | DBRedis _ _ c => Some (DBInterfaceRedis.getErrno c) end.
Definition db_getError (d : DB_Interface) : option (list Z) :=
  match d with DBMysql m => getError m | DBRedis _ _ c => Some (DBInterfaceRedis.getError c) end.
Definition db_delete (d : DB_Interface) : option DB_Interface :=
  match d with
  | DBMysql m => m ← destroy m; Some (DBMysql m)
  | DBRedis h p c => Some (DBRedis h p (fst (DBInterfaceRedis.detach c)))
  end.

(** [DBThread::onStart]: what [connect] returns is not looked at. *)
Definition onStart (config : DBConfig) : option DB_Interface :=
  '(d, _) ← db_connect (new_driver config); Some d.

(** [onEnd]. *)
Definition onEnd (m_db : option DB_Interface) : option (option DB_Interface) :=
  match m_db with Some d => d ← db_delete d; Some (Some d) | None => Some None end.

(** The end of both [process]. *)
Definition finish (d : DB_Interface) (r : Z) (o : outcome) : option outcome :=
  if r <? 0 then e ← db_getErrno d; s ← db_getError d; Some (mkoutcome r e s)
  else Some (mkoutcome r (errno o) (error o)).

(** [DBThread::run]: [process] of a task of this thread's connection, which
    it casts to the class it needs. *)
Definition run (m_db : option DB_Interface) (k : dbtask) (o : outcome) : option (DB_Interface * dbtask * outcome) :=
  d ← m_db;
  match k, d with
  | SqlTask pre result, DBMysql m =>
    h ← mysql m;
    '(h, pre, result, r) ← SqlExecute.process h pre result;
    let d := DBMysql (set_mysql h m) in
    o ← finish d r o; Some (d, SqlTask pre result, o)
  | RedisTask command result, DBRedis h p c =>
    '(c, command, result, r) ← DBInterfaceRedis.execute command result c;
    let d := DBRedis h p c in
    o ← finish d r o; Some (d, RedisTask command result, o)
  | _, _ => None
  end.

(** The tasks of a thread, one after another, from [onStart] to [onEnd]; each
    with its outcome. *)
Fixpoint run_all (d : DB_Interface) (l : list dbtask) : option (DB_Interface * list (dbtask * outcome)) :=
  match l with
  | [] => Some (d, [])
  | k :: l =>
    '(d, k, o) ← run (Some d) k (mkoutcome 0 0 []);
    '(d, l) ← run_all d l; Some (d, (k, o) :: l)
  end.

Definition thread (config : DBConfig) (l : list dbtask) : option (option DB_Interface * list (dbtask * outcome)) :=
  d ← onStart config; '(d, l) ← run_all d l; d ← onEnd (Some d); Some (d, l).

End Client.
End DBThread.

Module MysqlProps.
Import MysqlResult DBInterfaceMysql DBThread.

(** ** Result sets *)

(** What the library documents: [mysql_fetch_row] gives the rows in turn, each
    with a cell for every column, and the lengths are NULL until it has been
    called. *)
Class MySQLResLaws (R : Type) `{!MySQLRes R} := {
  rest : R -> list (list cell);
  unfetched : R -> Prop;
  fetch_row_law r : match rest r with
    | [] => snd (mysql_fetch_row r) = None
    | row :: l => snd (mysql_fetch_row r) = Some row /\ rest (fst (mysql_fetch_row r)) = l
    end;
  fields_law r : 0 <= mysql_num_fields r < 2 ^ 32 /\ mysql_num_fields (fst (mysql_fetch_row r)) = mysql_num_fields r /\
    Forall (fun row => Z.of_nat (length row) = mysql_num_fields r) (rest r);
  lengths_law r : unfetched r -> mysql_fetch_lengths r = None
}.

Section Rows.
Context {R : Type} `{!MySQLRes R} `{!MySQLResLaws R}.

Lemma get_columns_row (row : list cell) l n k : (k + n = length row)%nat -> Z.of_nat (length row) < 2 ^ 32 -> forall r : option R,
  exists s, get_columns n (MysqlResult.mk r (Some row) (Z.of_nat k) l) = Some (drop k row, s) /\ pResult s = r /\ lengths s = l.
Proof.
  revert k. induction n as [|n IH]; intros k Hk Hl r.
  { exists (MysqlResult.mk r (Some row) (Z.of_nat k) l). split; [|done]. cbn. by rewrite drop_ge by lia. }
  destruct (lookup_lt_is_Some_2 row k) as [x Hx]; [lia|]. cbn [get_columns]. unfold getData. cbn [aRow pos mbind option_bind].
  rewrite Nat2Z.id, Hx. cbn [mbind option_bind]. unfold next. cbn [pResult aRow pos MysqlResult.lengths].
  assert (u32 (Z.of_nat k + 1) = Z.of_nat (S k)) as ->.
  { destruct n; [|rewrite wrap_small; unfold in_u; lia]. rewrite wrap_small; unfold in_u; lia. }
  destruct (IH (S k)) with (r := r) as (s & -> & E1 & E2); [lia|done|]. cbn. exists s. by rewrite (drop_S _ _ _ Hx).
Qed.

(** The loop of a caller over a stored result reads the whole table. *)
Theorem read_rows_table (r : R) s fuel : (length (rest r) < fuel)%nat -> pResult s = Some r -> read_rows fuel s = Some (rest r).
Proof.
  revert r s. induction fuel as [|fuel IH]; intros r s Hf Hr; [lia|]. cbn [read_rows]. unfold fetch. rewrite Hr. cbn [mbind option_bind].
  pose proof (fetch_row_law r) as Hlaw. pose proof (fields_law r) as (Hn & En & Hrows).
  destruct (mysql_fetch_row r) as [r' row]. cbn [fst snd] in *. destruct (rest r) as [|x l] eqn:Er.
  { rewrite Hlaw. done. }
  destruct Hlaw as [-> El]. cbn [mbind option_bind]. apply Forall_cons_iff in Hrows as [Hx _]. unfold getFieldsCount. cbn [pResult mbind option_bind].
  rewrite En, wrap_small, <- Hx, Nat2Z.id by done.
  destruct (get_columns_row x (lengths s) (length x) 0) with (r := Some r') as (s' & E & Es & _); [lia|lia|]. cbn in E.
  change (Z.of_nat 0) with 0 in E. rewrite E. cbn [mbind option_bind]. rewrite (IH r'); [|rewrite El; cbn in Hf; lia|done]. by rewrite El.
Qed.

(** The calls a caller may make after [setResult]. *)
Inductive call := CFetch | CGet | CInt (w value : Z) | CString (value : list Z).

Definition exec (c : call) (s : MysqlResult.t R) : option (MysqlResult.t R) :=
  match c with
  | CFetch => '(_, s) ← fetch s; Some s
  | CGet => '(_, s) ← getData s; Some s
  | CInt w v => '(_, s) ← shift_int w v s; Some s
  | CString v => '(_, s) ← shift_string v s; Some s
  end.

Definition exec_all (l : list call) (s : MysqlResult.t R) : option (MysqlResult.t R) :=
  fold_left (fun s c => s ← s; exec c s) l (Some s).

Lemma exec_lengths c (s s' : MysqlResult.t R) : exec c s = Some s' -> lengths s' = lengths s.
Proof.
  destruct c; cbn [exec]; unfold fetch, getData, shift_int, shift_string, shift, next.
  - destruct (pResult s) as [r|]; cbn [mbind option_bind]; [|done]. destruct (mysql_fetch_row r). cbn. intros E. by injection E as <-.
  - destruct (aRow s) as [row|]; cbn [mbind option_bind]; [|done]. destruct (row !! _); cbn [mbind option_bind]; [|done]. intros E. by injection E as <-.
  - destruct (getFieldsCount s); cbn [mbind option_bind]; [|done]. case_match; cbn [mbind option_bind]; [intros E; by injection E as <-|].
    destruct (text s); cbn [mbind option_bind]; [|done]. intros E. by injection E as <-.
  - destruct (getFieldsCount s); cbn [mbind option_bind]; [|done]. case_match; cbn [mbind option_bind]; [intros E; by injection E as <-|].
    destruct (text s); cbn [mbind option_bind]; [|done]. intros E. by injection E as <-.
Qed.

(** [setResult] takes the lengths before any row is fetched, and no other call
    takes them: [getData(int & len)] always reads through a null pointer. *)
Theorem getData_len_never (r : R) s l s' : unfetched r -> exec_all l (setResult (Some r) s) = Some s' -> getData_len s' = None.
Proof.
  intros Hr E. assert (lengths s' = None) as El; [|unfold getData_len; by rewrite El].
  revert E. unfold exec_all. set (s0 := setResult (Some r) s).
  assert (lengths s0 = None) as H0 by (cbn; by apply lengths_law). clearbody s0. revert s0 H0.
  induction l as [|c l IH]; intros s0 H0; cbn; [intros E; by injection E as <-|].
  destruct (exec c s0) as [s1|] eqn:Ec.
  - apply IH. by rewrite (exec_lengths _ _ _ Ec).
  - clear. intros E. exfalso. revert E. induction l as [|c l IH]; [done|exact IH].
Qed.

End Rows.

(** ** Threads *)

Section Threads.
Context {M C R : Type} `{!SqlPrepare.MySQL M} `{!MySQLRes R} `{!MySQLClient M R} `{!DBInterfaceRedis.Hiredis C} `{!Connects M C}.

(** A server of Redis that refused the connection: [onStart] goes on, and the
    first task uses a null context. *)
Theorem redis_refused_crashes config c k r l :
  device config <> mysql_device -> redisConnect (RedisResult.c_str (ip config)) (i32 (port config)) = Some c -> DBInterfaceRedis.err c <> 0 ->
  thread config (RedisTask k r :: l) = None.
Proof.
  intros Hd Hc He. unfold thread, onStart, new_driver. rewrite bool_decide_eq_false_2 by done. cbn [db_connect].
  rewrite Hc. unfold DBInterfaceRedis.connect. rewrite (proj2 (Z.eqb_neq _ _) He). done.
Qed.

(** A thread of MySQL takes every task of its kind, and closes its connection
    once, at the end. *)
Definition sql_task (k : dbtask) : Prop :=
  match k with
  | SqlTask pre result => forall h : M, SqlExecute.process h pre result <> None
  | RedisTask _ _ => False
  end.

Definition outcome_ok (x : dbtask * outcome) : Prop := 0 <= ret (snd x) -> errno (snd x) = 0 /\ error (snd x) = [].

Lemma run_mysql (m : DBInterfaceMysql.t M) k h : mysql m = Some h -> sql_task k ->
  exists m' h' k' o, run (Some (DBMysql m)) k (mkoutcome 0 0 []) = Some (DBMysql m', k', o) /\ mysql m' = Some h' /\ outcome_ok (k', o).
Proof.
  intros Hm Hk. destruct k as [pre result|]; [|done]. cbn [run mbind option_bind]. rewrite Hm. cbn [mbind option_bind].
  specialize (Hk h). destruct (SqlExecute.process h pre result) as [[[[h' pre'] result'] r]|]; [|done]. cbn [mbind option_bind].
  assert (mysql (set_mysql h' m) = Some h') as Hm'.
  { unfold mysql in *. cbn. by destruct (closed m). }
  assert (exists o, finish (DBMysql (set_mysql h' m)) r (mkoutcome 0 0 []) = Some o /\ (0 <= ret o -> errno o = 0 /\ error o = [])) as (o & -> & Ho).
  { unfold finish. destruct (Z.ltb_spec r 0); [|eexists; split; done]. cbn [db_getErrno db_getError]. unfold getErrno, getError. rewrite Hm'.
    eexists. split; [done|]. cbn. lia. }
  cbn. by eexists _, _, _, _.
Qed.

Theorem mysql_thread_serves config h l : device config = mysql_device -> mysql_init = Some h -> Forall sql_task l ->
  exists m outs, thread config l = Some (Some (DBMysql m), outs) /\ length outs = length l /\ Forall outcome_ok outs /\ closed m = true.
Proof.
  intros Hd Hi Hl. unfold thread, onStart, new_driver. rewrite bool_decide_eq_true_2 by done. cbn [db_connect]. rewrite Hi.
  set (m0 := create _ _ _ _ _ _). assert (exists m b h, connect m0 = Some (m, b) /\ mysql m = Some h) as (m & b & h1 & -> & Hm).
  { unfold connect. assert (mysql m0 = Some h) as -> by done. cbn [mbind option_bind].
    destruct (mysql_options_charset _ _) as [x1 []]; [by eexists _, _, _|]. destruct (mysql_options_reconnect _ _) as [x2 []]; [by eexists _, _, _|].
    destruct (mysql_real_connect _ _ _ _ _ _) as [x3 e]. by eexists _, _, _. }
  cbn [mbind option_bind]. clearbody m0.
  assert (exists m' h' outs, run_all (DBMysql m) l = Some (DBMysql m', outs) /\ mysql m' = Some h' /\ length outs = length l /\ Forall outcome_ok outs)
    as (m' & h' & outs & -> & Hm' & Hlen & Hok).
  { clear Hi. revert m h1 Hm. induction Hl as [|k l Hk _ IH]; intros m h1 Hm; cbn [run_all]; [by eexists _, _, _|].
    destruct (run_mysql m k h1 Hm Hk) as (m2 & h2 & k' & o & -> & Hm2 & Ho). cbn [mbind option_bind].
    destruct (IH m2 h2 Hm2) as (m3 & h3 & outs & -> & Hm3 & Hlen & Hok). cbn [mbind option_bind].
    eexists _, _, _. split; [done|]. split; [done|]. split; [cbn; by rewrite Hlen|by constructor]. }
  cbn [mbind option_bind onEnd db_delete]. unfold destroy, detach. rewrite Hm'. cbn. by eexists _, _.
Qed.

End Threads.
End MysqlProps.
