(* ===== verification/HttpParam.v ===== *)
(** * HttpParam: the parameters of a request

    Models src/src/common/HttpParam.{h,cpp}: a query string cut at its
    separators into keys and values.  The views are the bytes they show.  Here
    also: cutting undoes joining, and the parameters of a URL are found by
    their names, from the request line to the value. *)
From stdpp Require Import gmap.
From S2P Require Import Prelude StdNum Url UrlProps.

Module HttpParam.

(** [str_view.find(cut, pos1)]. *)
Definition find_from (str_view : list Z) (cut : Z) (pos1 : nat) : option nat :=
  '(i, _) ← list_find (fun c => c = cut) (drop pos1 str_view);
  Some (pos1 + i)%nat.

(** [HttpParam::splite]: the loop, with fuel. *)
Fixpoint splite_loop (fuel : nat) (str_view : list Z) (cut : Z) (pos1 : nat) : option (list (list Z)) :=
  match fuel with
  | O => None
  | S fuel =>
    match find_from str_view cut pos1 with
    | Some pos2 => l ← splite_loop fuel str_view cut (pos2 + 1); Some (take (pos2 - pos1) (drop pos1 str_view) :: l)
    | None => Some [drop pos1 str_view]
    end
  end.

Definition splite (str_view : list Z) (cut : Z) : option (list (list Z)) :=
  splite_loop (S (length str_view)) str_view cut 0.

(** [params]. *)
Abbreviation t := (gmap (list Z) (list Z)).

(** One piece: a key and a value, if there is one equals sign. *)
Definition add_piece (params : t) (sub : list Z) : option t :=
  kys ← splite sub 61;
  Some (match kys with [k; v] => <[k := v]> params | _ => params end).

Fixpoint add_pieces (params : t) (equal : list (list Z)) : option t :=
  match equal with
  | [] => Some params
  | sub :: equal => params ← add_piece params sub; add_pieces params equal
  end.

(** [HttpParam::HttpParam]. *)
Definition create (str_v : list Z) (cut : Z) : option t :=
  equal ← splite str_v cut;
  add_pieces ∅ equal.

Definition find (key : list Z) (params : t) : bool := bool_decide (is_Some (params !! key)).

(** [params[key]]: an absent key is added, with an empty view. *)
Definition at_ (key : list Z) (params : t) : list Z * t :=
  match params !! key with Some v => (v, params) | None => ([], <[key := []]> params) end.

Definition getStr (key : list Z) (params : t) : list Z * t := at_ key params.

(** [getInt] and [getFloat]: [None] when the conversion throws. *)
Definition getInt (key : list Z) (params : t) : option Z * t :=
  let '(si, params) := at_ key params in (StdNum.stoi si, params).
Definition getFloat (key : list Z) (params : t) : option Z * t :=
  let '(sf, params) := at_ key params in (StdNum.stof sf, params).

End HttpParam.

Module HttpParamProps.
Import HttpParam.

(** ** Cutting *)

(** The pieces of [l] with [cut] between them. *)
Fixpoint join (cut : Z) (l : list (list Z)) : list Z :=
  match l with [] => [] | [s] => s | s :: l => s ++ cut :: join cut l end.

Lemma join_cons cut s l : l <> [] -> join cut (s :: l) = s ++ cut :: join cut l.
Proof. by destruct l. Qed.

Definition without (cut : Z) (s : list Z) : Prop := Forall (fun c => c <> cut) s.

Lemma find_first cut s r : without cut s -> list_find (fun c => c = cut) (s ++ cut :: r) = Some (length s, cut).
Proof.
  induction 1 as [|c s Hc _ IH]; cbn; [by rewrite decide_True|]. rewrite decide_False by done. by rewrite IH.
Qed.

Lemma find_none cut s : without cut s -> list_find (fun c => c = cut) s = None.
Proof. induction 1 as [|c s Hc _ IH]; [done|]. cbn. rewrite decide_False by done. by rewrite IH. Qed.

Lemma splite_loop_join cut l : l <> [] -> Forall (without cut) l -> forall fuel pre, (length (join cut l) < fuel)%nat ->
  splite_loop fuel (pre ++ join cut l) cut (length pre) = Some l.
Proof.
  intros Hl Hw. induction Hw as [|s l Hs Hw IH]; [done|]. intros fuel pre Hf. destruct fuel as [|fuel]; [lia|].
  cbn [splite_loop]. unfold find_from. rewrite drop_app_length. destruct l as [|s' l].
  - cbn [join]. by rewrite find_none.
  - rewrite join_cons in Hf |- * by done. rewrite find_first by done. cbn [mbind option_bind].
    rewrite length_app in Hf. cbn [length] in Hf.
    replace (pre ++ s ++ cut :: join cut (s' :: l)) with ((pre ++ s ++ [cut]) ++ join cut (s' :: l)) by (by rewrite <- !app_assoc).
    replace (length pre + length s + 1)%nat with (length (pre ++ s ++ [cut])) by (rewrite !length_app; cbn [length]; lia).
    rewrite IH by (done || lia). cbn [mbind option_bind].
    replace (length pre + length s - length pre)%nat with (length s) by lia. by rewrite take_app_length.
Qed.

(** Cutting a joined text gives the pieces back. *)
Lemma splite_join cut l : l <> [] -> Forall (without cut) l -> splite (join cut l) cut = Some l.
Proof. intros Hl Hw. apply (splite_loop_join cut l Hl Hw _ []). lia. Qed.

(** Every text is the join of its pieces, none of which has the separator. *)
Lemma pieces_of cut s : exists l, l <> [] /\ Forall (without cut) l /\ s = join cut l.
Proof.
  induction s as [|c s (l & Hl & Hw & ->)]; [exists [[]]; split_and!; [done|by repeat constructor|done]|].
  destruct l as [|p l]; [done|]. apply list.Forall_cons in Hw as [Hp Hw].
  destruct (decide (c = cut)) as [->|Hc].
  - exists ([] :: p :: l). split_and!; [done|constructor; [constructor|by constructor]|]. done.
  - exists ((c :: p) :: l). split_and!; [done|constructor; [by constructor|done]|]. by destruct l.
Qed.

(** [splite] always ends; the pieces make up the text. *)
Theorem splite_total cut s : exists l, splite s cut = Some l /\ join cut l = s /\ Forall (without cut) l.
Proof. destruct (pieces_of cut s) as (l & Hl & Hw & ->). exists l. by rewrite splite_join. Qed.

(** ** Parameters *)

(** A query string with these parameters. *)
Definition query (cut : Z) (kvs : list (list Z * list Z)) : list Z :=
  join cut ((fun '(k, v) => k ++ 61 :: v) <$> kvs).

Definition plain (cut : Z) (kv : list Z * list Z) : Prop :=
  without cut (fst kv) /\ without cut (snd kv) /\ without 61 (fst kv) /\ without 61 (snd kv).

Lemma add_pieces_kvs cut kvs params : Forall (plain cut) kvs ->
  add_pieces params ((fun '(k, v) => k ++ 61 :: v) <$> kvs) = Some (fold_left (fun m '(k, v) => <[k := v]> m) kvs params).
Proof.
  intros H. revert params. induction H as [|[k v] kvs (_ & _ & Hk & Hv) _ IH]; intros params; [done|].
  cbn [fmap list_fmap add_pieces fold_left]. unfold add_piece.
  pose proof (splite_join 61 [k; v] ltac:(done) ltac:(by repeat constructor)) as Hs. cbn [join] in Hs. rewrite Hs. cbn [mbind option_bind]. apply IH.
Qed.

Lemma create_query cut kvs : cut <> 61 -> kvs <> [] -> Forall (plain cut) kvs ->
  create (query cut kvs) cut = Some (fold_left (fun m '(k, v) => <[k := v]> m) kvs ∅).
Proof.
  intros Hcut Hn H. unfold create, query. rewrite splite_join.
  - cbn [mbind option_bind]. by apply (add_pieces_kvs cut).
  - by destruct kvs.
  - apply list.Forall_fmap. apply (list.Forall_impl _ _ _ H). intros [k v] (Hk & Hv & _). cbn.
    apply list.Forall_app. split; [done|]. constructor; [done|done].
Qed.

(** The value a key has in a list of parameters: that of its last place. *)
Lemma lookup_params kvs params k : (fold_left (fun m '(k, v) => <[k := v]> m) kvs params : t) !! k =
  match list_find (fun kv => fst kv = k) (rev kvs) with Some (_, (_, v)) => Some v | None => params !! k end.
Proof.
  revert params. induction kvs as [|[k' v'] kvs IH]; intros params; [done|]. cbn [fold_left rev]. rewrite IH.
  destruct (list_find (fun kv => fst kv = k) (rev kvs)) as [[i [a b]]|] eqn:E.
  - by rewrite (list_find_app_l _ _ _ _ _ E).
  - rewrite list_find_app_r by done. cbn. destruct (decide (k' = k)) as [->|Hne]; [by rewrite lookup_insert_eq|].
    by rewrite lookup_insert_ne.
Qed.

(** The value [k] has: of several, the last. *)
Definition value_of (k : list Z) (kvs : list (list Z * list Z)) : option (list Z) :=
  (fun x => snd (snd x)) <$> list_find (fun kv => fst kv = k) (rev kvs).

Lemma lookup_created kvs k : (fold_left (fun m '(k, v) => <[k := v]> m) kvs ∅ : t) !! k = value_of k kvs.
Proof. rewrite lookup_params, lookup_empty. unfold value_of. by destruct (list_find _ (rev kvs)) as [[i [a b]]|]. Qed.

(** C29.  From the request line to a parameter: the URL parser takes a path with
    a query string apart, and of the query string every key has the value it was
    sent with (the last one, of several), by name, and as a number when the
    value is the text of an [int]; a key that was not sent is not found, and
    asking for its number throws. The query has at least one parameter, its keys
    and values have no ampersand and no equals sign in them and only bytes the
    URL parser takes in a query, and the URL is of fewer than 65536 bytes. *)
Theorem url_parameters (path : list Z) (kvs : list (list Z * list Z)) (this : Url.ParseUrl)
    (Hp : UrlProps.path_ok path = true) (Hn : kvs <> []) (Hkv : Forall (plain 38) kvs)
    (Hq : UrlProps.query_ok (Some (query 38 kvs)) = true)
    (Hlen : Z.of_nat (length (path ++ UrlProps.query_text (Some (query 38 kvs)))) < 65536) :
  exists this' q params, Url.parse (path ++ UrlProps.query_text (Some (query 38 kvs))) this = (0, this') /\
    Url.getPath this' = Some path /\ Url.haveParam this' = true /\ Url.getParam this' = Some q /\
    create q 38 = Some params /\
    forall k, find k params = bool_decide (is_Some (value_of k kvs)) /\
      fst (getStr k params) = default [] (value_of k kvs) /\
      (forall n, in_i 32 n -> value_of k kvs = Some (StdNum.to_string_int n) -> fst (getInt k params) = Some n) /\
      (value_of k kvs = None -> fst (getInt k params) = None).
Proof.
  destruct (UrlProps.url_path_query path (Some (query 38 kvs)) this Hp Hq Hlen) as (this' & Hparse & Hpath & Hhave & Hparam).
  exists this', (query 38 kvs), (fold_left (fun m '(k, v) => <[k := v]> m) kvs ∅).
  split_and!; [done..|by apply create_query|]. intros k. unfold find, getStr, getInt, at_. rewrite lookup_created.
  split; [done|]. destruct (value_of k kvs) as [v|]; cbn; (split; [done|]); (split; [|done]); [|done].
  intros n Hi E. injection E as ->. rewrite <- (app_nil_r (StdNum.to_string_int n)). by apply StdNum.stoi_to_string.
Qed.

(** [/p?a=1&b=-7&a=2] *)
Lemma url_parameters_witness :
  let kvs := [([97], [49]); ([98], [45; 55]); ([97], [50])] in
  exists this' q params, Url.parse ([47; 112] ++ UrlProps.query_text (Some (query 38 kvs))) Url.ParseUrl_create = (0, this') /\
    Url.getPath this' = Some [47; 112] /\ Url.haveParam this' = true /\ Url.getParam this' = Some q /\
    create q 38 = Some params /\
    forall k, find k params = bool_decide (is_Some (value_of k kvs)) /\
      fst (getStr k params) = default [] (value_of k kvs) /\
      (forall n, in_i 32 n -> value_of k kvs = Some (StdNum.to_string_int n) -> fst (getInt k params) = Some n) /\
      (value_of k kvs = None -> fst (getInt k params) = None).
Proof.
  intros kvs. apply (url_parameters [47; 112] kvs Url.ParseUrl_create);
    [reflexivity|discriminate|repeat constructor; discriminate|reflexivity|reflexivity].
Defined.

Example two_values : value_of [97] [([97], [49]); ([98], [45; 55]); ([97], [50])] = Some [50].
Proof. reflexivity. Qed.

(** A value with an equals sign in it is dropped. *)
Example equals_in_value : create [107; 61; 97; 61; 98] 38 = Some ∅.
Proof. vm_compute. reflexivity. Qed.

End HttpParamProps.
