(* ===== verification/CsvParser.v ===== *)
(** * CsvParser: tables read from text files

    Models src/src/common/CsvParser.{h,cpp}: lines cut at a separator, a
    header, the rows, and a cell by row and column name, converted by a
    [std::stringstream].  The text of the file is the argument.  [None] is an
    index outside a vector.  Here also: a table written line by line is read
    back, and what happens to short rows. *)
From S2P Require Import Prelude StdNum.

Module CsvParser.

(** [std::getline(in, item, sep)]: the piece, what is left, and whether the
    stream is still good (the separator was found); [None] at the end. *)
Fixpoint getline (s : list Z) (sep : Z) : list Z * list Z * bool :=
  match s with
  | [] => ([], [], false)
  | c :: s =>
    if c =? sep then ([], s, true)
    else let '(item, rest, good) := getline s sep in (c :: item, rest, good)
  end.

(** [while (std::getline(ss, item, _sep))]: nothing is got from an empty
    rest. *)
Fixpoint items (fuel : nat) (line : list Z) (sep : Z) : list (list Z) :=
  match fuel with
  | O => []
  | S fuel =>
    match line with
    | [] => []
    | _ => let '(item, rest, good) := getline line sep in
           item :: (if (good : bool) then items fuel rest sep else [])
    end
  end.

Definition cut_line (line : list Z) (sep : Z) : list (list Z) := items (S (length line)) line sep.

Record t := mk { _sep : Z; _header : list (list Z); _content : list (list (list Z)) }.

Definition parseHeader (line : list Z) (s : t) : t := mk (_sep s) (_header s ++ cut_line line (_sep s)) (_content s).
Definition parseContent (line : list Z) (s : t) : t := mk (_sep s) (_header s) (_content s ++ [cut_line line (_sep s)]).

(** The loop of the constructor over the text of the file: [startline] lines
    to go, [row] lines taken. *)
Fixpoint read_lines (fuel : nat) (file : list Z) (good : bool) (startline row : Z) (s : t) : option t :=
  match fuel with
  | O => None
  | S fuel =>
    if negb good then Some s else
    let '(line, file, good) := getline file 10 in
    match line with
    | [] => read_lines fuel file good startline row s
    | _ =>
      let startline' := if startline =? 0 then 0 else i32 (startline - 1) in
      if negb (startline =? 0) && negb (startline' =? 0) then read_lines fuel file good startline' row s
      else
        let row := i32 (row + 1) in
        read_lines fuel file good startline' row (if row =? 1 then parseHeader line s else parseContent line s)
    end
  end.

(** [CsvParser::CsvParser]; a file that cannot be opened is an error in the
    log and an empty table. *)
Definition create (file : option (list Z)) (startline sep : Z) : option t :=
  match file with
  | None => Some (mk sep [] [])
  | Some file => read_lines (S (S (length file))) file true startline 0 (mk sep [] [])
  end.

Definition row (s : t) : Z := i32 (Z.of_nat (length (_content s))).

(** ** Cells *)

(** The types [getValue] is used with: integers of more than a byte, the byte
    types, which a stream reads as characters, and strings. *)
Inductive kind := KInt (w : Z) | KUint (w : Z) | KChar | KString.

Inductive value := VNum (n : Z) | VStr (s : list Z).

(** [ss << text; ss >> res]: an integer keeps [defvalue] at the end of the
    stream, is 0 when there is no number and the nearest limit when it does
    not fit; a minus sign wraps an unsigned one round; a string is the first
    word. *)
Definition extract (k : kind) (text : list Z) (defvalue : value) : value :=
  let rest := snd (StdNum.span StdNum.isspace text) in
  match rest with
  | [] => defvalue
  | c :: _ =>
    match k with
    | KChar => VNum c
    | KString => VStr (fst (StdNum.span (fun c => negb (StdNum.isspace c)) rest))
    | KInt w =>
      let '(neg, l) := StdNum.sign rest in
      match fst (StdNum.span StdNum.isdigit l) with
      | [] => VNum 0
      | ds => let v := if neg then - StdNum.dec_val ds else StdNum.dec_val ds in
              VNum (Z.max (- 2 ^ (w - 1)) (Z.min (2 ^ (w - 1) - 1) v))
      end
    | KUint w =>
      let '(neg, l) := StdNum.sign rest in
      match fst (StdNum.span StdNum.isdigit l) with
      | [] => VNum 0
      | ds => let v := StdNum.dec_val ds in
              VNum (if 2 ^ w - 1 <? v then 2 ^ w - 1 else if neg then wrap w (- v) else v)
      end
    end
  end.

(** [T()]. *)
Definition zero_value (k : kind) : value := match k with KString => VStr [] | _ => VNum 0 end.

(** [CsvRow::getValue]. *)
Definition row_value (k : kind) (_values : list (list Z)) (idx : nat) (defvalue : value) : option value :=
  text ← _values !! idx;
  Some (extract k text defvalue).

(** [CsvParser::getValue]: the first column of that name. *)
Fixpoint column (name : list Z) (header : list (list Z)) (i : nat) : option nat :=
  match header with
  | [] => None
  | h :: header => if decide (name = h) then Some i else column name header (S i)
  end.

Definition getValue (k : kind) (row_ : Z) (name : list Z) (defvalue : value) (s : t) : option value :=
  match column name (_header s) 0 with
  | None => Some (zero_value k)
  | Some i =>
    if row_ - 1 <? 0 then None else
    csvrow ← _content s !! Z.to_nat (row_ - 1);
    row_value k csvrow i defvalue
  end.

End CsvParser.

Module CsvProps.
Import CsvParser.

(** ** Cutting lines *)

Definition without (sep : Z) (s : list Z) : Prop := Forall (fun c => c <> sep) s.

Lemma getline_found sep s r : without sep s -> getline (s ++ sep :: r) sep = (s, r, true).
Proof.
  induction 1 as [|c s Hc _ IH]; cbn; [by rewrite Z.eqb_refl|]. rewrite (proj2 (Z.eqb_neq c sep) Hc). by rewrite IH.
Qed.

Lemma getline_end sep s : without sep s -> getline s sep = (s, [], false).
Proof. induction 1 as [|c s Hc _ IH]; [done|]. cbn. rewrite (proj2 (Z.eqb_neq c sep) Hc). by rewrite IH. Qed.

(** A line of cells. *)
Fixpoint line_of (sep : Z) (cells : list (list Z)) : list Z :=
  match cells with [] => [] | [c] => c | c :: cells => c ++ sep :: line_of sep cells end.

Lemma line_of_cons sep c cells : cells <> [] -> line_of sep (c :: cells) = c ++ sep :: line_of sep cells.
Proof. by destruct cells. Qed.

(** The cells of a line that ends with a cell that is not empty. *)
Lemma items_line sep cells : Forall (without sep) cells -> list.last cells <> Some [] -> forall fuel, (length (line_of sep cells) < fuel)%nat ->
  items fuel (line_of sep cells) sep = cells.
Proof.
  induction 1 as [|c cells Hc Hw IH]; intros Hl fuel Hf; destruct fuel as [|fuel]; try lia; [done|].
  destruct cells as [|c' cells].
  - cbn [line_of list.last] in *. cbn [items]. rewrite getline_end by done. destruct c; [done|done].
  - rewrite line_of_cons in Hf |- * by done. rewrite length_app in Hf. cbn [length] in Hf.
    assert (c ++ sep :: line_of sep (c' :: cells) <> []) as Hne by (by destruct c).
    cbn [items]. destruct (c ++ sep :: line_of sep (c' :: cells)) eqn:E; [done|]. rewrite <- E, getline_found by done.
    rewrite IH; [done|done|lia].
Qed.

Lemma cut_line_spec sep cells : Forall (without sep) cells -> list.last cells <> Some [] ->
  cut_line (line_of sep cells) sep = cells.
Proof. intros Hw Hl. apply items_line; [done|done|lia]. Qed.

(** A last cell that is empty is not there. *)
Lemma cut_line_short sep cells : Forall (without sep) cells -> list.last cells <> Some [] -> cells <> [] ->
  cut_line (line_of sep (cells ++ [[]])) sep = cells.
Proof.
  intros Hw Hl Hn. unfold cut_line.
  assert (forall cells, Forall (without sep) cells -> cells <> [] ->
    forall fuel, (length (line_of sep (cells ++ [[]])) < fuel)%nat -> items fuel (line_of sep (cells ++ [[]])) sep = cells) as H.
  { clear. intros cells. induction cells as [|c cells IH]; [done|]. intros [Hc Hw]%list.Forall_cons _ fuel Hf.
    cbn [app] in *. rewrite line_of_cons in Hf |- * by (by destruct cells). rewrite length_app in Hf. cbn [length] in Hf.
    destruct fuel as [|fuel]; [lia|]. cbn [items].
    destruct (c ++ sep :: line_of sep (cells ++ [[]])) eqn:E; [by destruct c|]. rewrite <- E, getline_found by done. f_equal.
    destruct cells as [|c' cells]; [by destruct fuel|]. apply IH; [done|done|lia]. }
  apply H; [done|done|lia].
Qed.

(** ** Tables *)

(** The text of a file with these lines. *)
Definition unlines (lines : list (list Z)) : list Z := concat ((fun l => l ++ [10]) <$> lines).

(** What the constructor does line by line. *)
Fixpoint feed (lines : list (list Z)) (startline row : Z) (s : t) : t :=
  match lines with
  | [] => s
  | line :: lines =>
    let startline' := if startline =? 0 then 0 else i32 (startline - 1) in
    if negb (startline =? 0) && negb (startline' =? 0) then feed lines startline' row s
    else let row := i32 (row + 1) in
      feed lines startline' row (if row =? 1 then parseHeader line s else parseContent line s)
  end.

Lemma read_lines_feed lines : Forall (fun l => l <> [] /\ without 10 l) lines -> forall fuel startline row s,
  (length (unlines lines) + 1 < fuel)%nat ->
  read_lines fuel (unlines lines) true startline row s = Some (feed lines startline row s).
Proof.
  induction 1 as [|l lines [Hl Hw] Hls IH]; intros fuel startline row s Hf.
  - destruct fuel as [|[|fuel]]; cbn in Hf; try lia. done.
  - destruct fuel as [|fuel]; [lia|]. change (unlines (l :: lines)) with ((l ++ [10]) ++ unlines lines) in *.
    rewrite <- app_assoc in *. cbn [app] in *. rewrite length_app in Hf. cbn [length] in Hf.
    cbn [read_lines negb feed]. rewrite getline_found by done. destruct l as [|c l]; [done|].
    destruct (negb (startline =? 0) && negb ((if startline =? 0 then 0 else i32 (startline - 1)) =? 0)); apply IH; cbn [length] in Hf; lia.
Qed.

(** Lines before the header. *)
Lemma feed_skip pre lines row s : Z.of_nat (length pre) < 2 ^ 31 - 1 ->
  feed (pre ++ lines) (Z.of_nat (length pre) + 1) row s = feed lines 1 row s.
Proof.
  induction pre as [|l pre IH]; intros Hl; [done|]. cbn [length] in Hl |- *. rewrite Nat2Z.inj_succ. cbn [app feed].
  rewrite (proj2 (Z.eqb_neq _ 0)) by lia. rewrite sext_small by (unfold in_i; lia).
  rewrite (proj2 (Z.eqb_neq (Z.succ (Z.of_nat (length pre)) + 1 - 1) 0)) by lia. cbn [negb andb].
  replace (Z.succ (Z.of_nat (length pre)) + 1 - 1) with (Z.of_nat (length pre) + 1) by lia. apply IH. lia.
Qed.

Lemma feed_rows sep rows : Forall (fun cells => Forall (without sep) cells /\ list.last cells <> Some []) rows ->
  forall row h c, 1 <= row -> row + Z.of_nat (length rows) < 2 ^ 31 ->
  feed (line_of sep <$> rows) 0 row (mk sep h c) = mk sep h (c ++ rows).
Proof.
  induction 1 as [|cells rows [Hw Hl] _ IH]; intros row h c Hr Hb; [by rewrite app_nil_r|]. cbn [length] in Hb.
  cbn [fmap list_fmap feed]. change (negb (0 =? 0)) with false. change (if 0 =? 0 then 0 else i32 (0 - 1)) with 0. cbn [andb].
  rewrite sext_small by (unfold in_i; lia). rewrite (proj2 (Z.eqb_neq _ 1)) by lia. unfold parseContent. cbn [_sep _header _content].
  rewrite cut_line_spec by done. rewrite IH by lia. by rewrite <- app_assoc.
Qed.

(** A row that can be written and read: no separator and no end of line in a
    cell, and a last cell that is not empty. *)
Definition row_ok (sep : Z) (cells : list (list Z)) : Prop :=
  Forall (fun c => without sep c /\ without 10 c) cells /\ cells <> [] /\ list.last cells <> Some [].

Lemma row_line sep cells : sep <> 10 -> row_ok sep cells -> line_of sep cells <> [] /\ without 10 (line_of sep cells).
Proof.
  intros Hsep (Hc & Hn & Hl). split.
  - destruct cells as [|c [|c' cells]]; [done| |by destruct c]. cbn in *. by destruct c.
  - clear Hn Hl. induction Hc as [|c cells [_ Hc] Hcs IH]; [constructor|]. destruct cells as [|c' cells]; [done|].
    rewrite line_of_cons by done. apply list.Forall_app. split; [done|]. by constructor.
Qed.

Lemma csv_read sep pre header rows : sep <> 10 -> Forall (fun l => l <> [] /\ without 10 l) pre ->
  Forall (row_ok sep) (header :: rows) -> Z.of_nat (length pre) < 2 ^ 31 - 1 -> Z.of_nat (length rows) < 2 ^ 31 - 1 ->
  create (Some (unlines (pre ++ (line_of sep <$> header :: rows)))) (Z.of_nat (length pre) + 1) sep = Some (mk sep header rows).
Proof.
  intros Hsep Hpre Hok Hl Hr. unfold create. rewrite read_lines_feed; [|apply list.Forall_app; split; [done|]|lia].
  2:{ apply list.Forall_fmap. apply (list.Forall_impl _ _ _ Hok). intros cells Hc. by apply row_line. }
  rewrite feed_skip by lia. apply list.Forall_cons in Hok as [(Hh & _ & Hlast) Hrows].
  cbn [fmap list_fmap feed]. change (1 =? 0) with false. change (i32 (1 - 1)) with 0. change (i32 (0 + 1)) with 1. cbn [negb andb Z.eqb].
  change (Pos.eqb 1 1) with true. cbn iota. unfold parseHeader. cbn [_sep _header _content app].
  assert (forall cells, Forall (fun c => without sep c /\ without 10 c) cells -> Forall (without sep) cells) as Himp.
  { intros cells H. apply (list.Forall_impl _ _ _ H). by intros c []. }
  rewrite cut_line_spec by auto. rewrite feed_rows; [done| |lia|lia].
  apply (list.Forall_impl _ _ _ Hrows). intros cells (Hc & _ & Hlc). auto.
Qed.

(** The column of a name, the first of several. *)
Lemma column_spec name header : forall i j, header !! j = Some name -> name ∉ take j header -> column name header i = Some (i + j)%nat.
Proof.
  induction header as [|h header IH]; intros i j Hj Hn; [done|]. cbn. destruct j as [|j]; cbn in Hj.
  - injection Hj as ->. rewrite decide_True by done. f_equal. lia.
  - cbn in Hn. rewrite decide_False by (intros ->; apply Hn; by left). rewrite (IH (S i) j); [f_equal; lia|done|].
    intros Hin. apply Hn. by right.
Qed.

Lemma extract_stoi text v def : StdNum.stoi text = Some v -> extract (KInt 32) text def = VNum v.
Proof.
  unfold StdNum.stoi, extract. destruct (snd (StdNum.span StdNum.isspace text)) as [|c rest]; [done|].
  destruct (StdNum.sign (c :: rest)) as [neg l]. destruct (StdNum.span StdNum.isdigit l) as [[|d ds] r]; [done|]. cbn [fst].
  intros E. destruct neg; split_if_in E; try done; injection E as <-; bool_arith; f_equal; lia.
Qed.

Lemma extract_word text def : text <> [] -> Forall (fun c => StdNum.isspace c = false) text ->
  extract KString text def = VStr text.
Proof.
  intros Hn Hs. unfold extract. destruct text as [|c text]; [done|]. cbn [StdNum.span].
  rewrite (proj1 (proj1 (list.Forall_cons _ _ _) Hs)). cbn [snd]. f_equal.
  clear Hn. induction Hs as [|x l Hx _ IH]; [done|]. cbn [StdNum.span]. rewrite Hx. cbn [negb].
  destruct (StdNum.span (fun c => negb (StdNum.isspace c)) l) as [a b]. cbn in *. by rewrite IH.
Qed.

(** C31.  A table written as lines of cells, each line ended and its last cell
    not empty, no cell with the separator or the end of a line in it, is read
    back: after the lines to be skipped, which are not empty, the number of rows
    is that of the lines written, and a cell is found by its row and the first
    column of its name; the text of an [int] read as an [int] gives the number,
    a text without blanks, not empty, read as a string gives the text, and a row
    with too few cells is read out of range. *)
Theorem csv_table sep pre header rows i j cells name :
  sep <> 10 -> Forall (fun l => l <> [] /\ without 10 l) pre -> Forall (row_ok sep) (header :: rows) ->
  Z.of_nat (length pre) < 2 ^ 31 - 1 -> Z.of_nat (length rows) < 2 ^ 31 - 1 ->
  rows !! i = Some cells -> header !! j = Some name -> name ∉ take j header ->
  exists s, create (Some (unlines (pre ++ (line_of sep <$> header :: rows)))) (Z.of_nat (length pre) + 1) sep = Some s /\
    row s = Z.of_nat (length rows) /\
    forall def, match cells !! j with
      | None => forall k, getValue k (Z.of_nat i + 1) name def s = None
      | Some text =>
        (forall n, in_i 32 n -> text = StdNum.to_string_int n -> getValue (KInt 32) (Z.of_nat i + 1) name def s = Some (VNum n)) /\
        (text <> [] -> Forall (fun c => StdNum.isspace c = false) text ->
          getValue KString (Z.of_nat i + 1) name def s = Some (VStr text))
      end.
Proof.
  intros Hsep Hpre Hok Hl Hr Hi Hj Hfirst. exists (mk sep header rows). split; [by apply csv_read|].
  split; [unfold row; cbn; apply sext_small; unfold in_i; lia|]. intros def.
  assert (forall k, getValue k (Z.of_nat i + 1) name def (mk sep header rows) = row_value k cells j def) as Hget.
  { intros k. unfold getValue. cbn [_header _content]. rewrite (column_spec _ _ 0 j) by done. cbn [Nat.add].
    rewrite (proj2 (Z.ltb_ge _ 0)) by lia. replace (Z.to_nat (Z.of_nat i + 1 - 1)) with i by lia. by rewrite Hi. }
  destruct (cells !! j) as [text|] eqn:Ec; [split|intros k]; intros; rewrite Hget; unfold row_value; rewrite Ec; [| |done]; cbn; f_equal.
  - subst text. apply extract_stoi. rewrite <- (app_nil_r (StdNum.to_string_int n)). by apply StdNum.stoi_to_string.
  - by apply extract_word.
Qed.

(** The table [#], [id;name], [1;bob]. *)
Lemma csv_table_witness :
  let rows := [[[49]; [98; 111; 98]]] in
  exists s, create (Some (unlines ([[35]] ++ (line_of 59 <$> [[105; 100]; [110; 97; 109; 101]] :: rows)))) 2 59 = Some s /\
    row s = 1 /\ getValue (KInt 32) 1 [105; 100] (VNum 0) s = Some (VNum 1).
Proof.
  intros rows. destruct (csv_table 59 [[35]] [[105; 100]; [110; 97; 109; 101]] rows 0 0 [[49]; [98; 111; 98]] [105; 100])
    as (s & Hs & Hr & H); [done|by repeat constructor| |reflexivity|reflexivity|reflexivity|reflexivity|by intros ?%elem_of_nil|].
  { repeat constructor; discriminate. }
  exists s. split; [exact Hs|]. split; [exact Hr|]. destruct (H (VNum 0)) as [Hn _]. by apply (Hn 1).
Defined.

(** An empty last cell is not in its row, and reading it reads past the row's
    vector. *)
Example empty_last_cell : (s ← create (Some [97; 59; 98; 10; 49; 59; 10]) 1 59; getValue KString 1 [98] (VStr []) s) = None.
Proof. reflexivity. Qed.

(** [getInt8] of the text 5 is the character's code. *)
Example byte_is_character : (s ← create (Some [97; 10; 53; 10]) 1 59; getValue KChar 1 [97] (VNum 0) s) = Some (VNum 53).
Proof. reflexivity. Qed.

End CsvProps.
