(* ===== verification/Files.v ===== *)
(** * Files: the file helpers, and the stream of the log

    Models the rest of src/src/common/XFile.cpp (as compiled for Linux) and
    LogStream with [writeLog] of XLog.{h,cpp}.  The file system is a type
    class.  [None] is undefined behaviour (a [struct stat] that was not filled,
    a directive of a format without its argument), the end of the process, or
    a recursion that has not ended.  Here also: what is written is read back, a
    file is the lines read joined by newlines, and the functions that cannot
    do what they are for. *)
From S2P Require Import Prelude Bytes ByteBuf Tools Redis StdNum XLog CsvParser.

Module Files.

(** A path: a directory, a file, or something else. *)
Inductive file_kind := Directory | Regular | Special.

(** The calls of the C and C++ libraries. *)
Class Storage (F : Type) := {
  access : list Z -> F -> bool;
  rm : list Z -> F -> F * Z;
  read : list Z -> F -> option (list Z);             (* what an [ifstream] reads; [None]: it is not open *)
  write : list Z -> list Z -> F -> F * bool;         (* what an [ofstream] leaves; [true]: it is not open *)
  stat : list Z -> F -> option file_kind;
  entries : list Z -> F -> option (list (list Z));   (* [opendir], [readdir] *)
  write_law : forall p s f, let '(f', failed) := write p s f in failed = false -> read p f' = Some s
}.

Section FS.
Context {F : Type} `{!Storage F}.

Definition isExist (dir : list Z) (f : F) : bool := access dir f.
Definition remove (file : list Z) (f : F) : F * Z := rm file f.

(** [rmdir]: the name in it is its own; no call comes to the system. *)
Fixpoint rmdir (fuel : nat) (dir : list Z) (f : F) : option (F * Z) :=
  match fuel with O => None | S fuel => rmdir fuel dir f end.

Definition writeFile (file content : list Z) (f : F) : F * Z :=
  let '(f', failed) := write file (RedisResult.c_str content ++ [10]) f in
  if (failed : bool) then (f', -1) else (f', 0).

(** [readFile] into a string: the value returned, the string. *)
Definition readFile (file str : list Z) (f : F) : Z * list Z :=
  match read file f with Some s => (-1, s) | None => (-1, str) end.

(** The loop [while (ifile.good())] on what is left of the stream, with
    [std::getline] as in CsvParser. *)
Fixpoint read_lines (fuel : nat) (s : list Z) (good : bool) : list (list Z) :=
  match fuel with
  | O => []
  | S fuel => if good then let '(l, s, good) := CsvParser.getline s 10 in l :: read_lines fuel s good else []
  end.

(** [readFile] into a vector of lines, which it appends to. *)
Definition readFile_lines (file : list Z) (vec_str : list (list Z)) (f : F) : Z * list (list Z) :=
  match read file f with
  | Some s => (0, vec_str ++ read_lines (S (length s)) s true)
  | None => (-1, vec_str)
  end.

(** [listFiles]: the loop over the entries, [list_one] for a directory in it.
    A call of [stat] that fails leaves the [struct stat] as it was. *)
Fixpoint list_entries (list_one : list Z -> list (list Z) -> option (list (list Z))) (dir : list Z) (names : list (list Z))
    (vec_file : list (list Z)) (f : F) : option (list (list Z)) :=
  match names with
  | [] => Some vec_file
  | n :: names =>
    match n with
    | c :: _ =>
      if c =? 46 then list_entries list_one dir names vec_file f else
      let name := dir ++ [92] ++ n in
      st ← stat name f;
      vec_file ← match st with Directory => list_one name vec_file | Regular => Some (vec_file ++ [name]) | Special => Some vec_file end;
      list_entries list_one dir names vec_file f
    | [] => None
    end
  end.

Fixpoint listFiles (fuel : nat) (dir : list Z) (vec_file : list (list Z)) (f : F) : option (list (list Z)) :=
  match fuel with
  | O => None
  | S fuel =>
    s ← stat dir f;
    match s with
    | Directory => names ← entries dir f; list_entries (fun d v => listFiles fuel d v f) dir names vec_file f
    | _ => Some vec_file
    end
  end.

End FS.
End Files.

Module LogStream.
Import XLog.

(** [vsprintf] of a format without arguments: [%%] is a percent sign. *)
Fixpoint percents (s : list Z) : list Z :=
  match s with
  | c :: r => if c =? 37 then match r with _ :: r' => 37 :: percents r' | [] => [] end else c :: percents r
  | [] => []
  end.

Definition vsprintf (format : list Z) : option (list Z) :=
  if DBInterfaceRedis.directive format then None else Some (percents (RedisResult.c_str format)).

(** [XLog::writeLog] without arguments: the call of [writeFile] it makes. *)
Definition writeLog (level : Z) (filename func : list Z) (row : Z) (format : list Z) : option call :=
  s ← vsprintf format; Some (mkcall level filename func row s).

(** The members; [stream] is its text. *)
Record t := mk { stream : list Z; _level : Z; _filename : list Z; _func : list Z; _line : Z }.

Definition create (level : Z) (filename func : list Z) (line : Z) : t := mk [] level filename func line.

(** [operator<<], for the text of its argument. *)
Definition shift (text : list Z) (s : t) : t := mk (stream s ++ text) (_level s) (_filename s) (_func s) (_line s).

(** The destructor. *)
Definition destroy (s : t) : option call := writeLog (_level s) (_filename s) (_func s) (_line s) (stream s).

End LogStream.

Module FilesProps.
Import Files.

(** ** Lines *)

Lemma getline_spec s : let '(l, r, g) := CsvParser.getline s 10 in
  s = l ++ (if g then [10] else []) ++ r /\ CsvProps.without 10 l /\ (if g then (length r < length s)%nat else r = []).
Proof.
  unfold CsvProps.without. induction s as [|c s IH]; cbn [CsvParser.getline]; [done|]. destruct (Z.eqb_spec c 10) as [->|Hc]; [cbn; auto|].
  destruct (CsvParser.getline s 10) as [[l r] g]. destruct IH as (-> & Hl & Hg). split; [done|]. split; [by constructor|].
  destruct g; [cbn in *; rewrite ?length_app in *; lia|done].
Qed.

Lemma read_lines_ne fuel s : read_lines (S fuel) s true <> [].
Proof. cbn. destruct (CsvParser.getline s 10) as [[l r] g]. done. Qed.

Lemma read_lines_spec fuel s : (length s < fuel)%nat ->
  CsvProps.line_of 10 (read_lines fuel s true) = s /\ Forall (CsvProps.without 10) (read_lines fuel s true).
Proof.
  revert s. induction fuel as [|fuel IH]; intros s Hf; [lia|]. cbn [read_lines]. pose proof (getline_spec s) as H.
  destruct (CsvParser.getline s 10) as [[l r] g]. destruct H as (-> & Hl & Hg). destruct g.
  - destruct fuel as [|fuel]; [rewrite !length_app in Hf; cbn in Hf; lia|]. destruct (IH r) as [E1 E2]; [lia|].
    split; [|by constructor]. rewrite CsvProps.line_of_cons by apply read_lines_ne. by rewrite E1.
  - subst r. destruct fuel; cbn; split; rewrite ?app_nil_r; auto.
Qed.

Section FS.
Context {F : Type} `{!Storage F}.

(** Reading by lines loses nothing: the file is the lines joined by newlines,
    so one that ends with a newline has an empty line more. *)
Theorem readFile_lines_join p s (f : F) : read p f = Some s ->
  exists ls, readFile_lines p [] f = (0, ls) /\ CsvProps.line_of 10 ls = s /\ Forall (CsvProps.without 10) ls.
Proof.
  intros E. unfold readFile_lines. rewrite E. eexists. split; [done|]. apply read_lines_spec. lia.
Qed.

Lemma c_str_id s : Forall (fun c => c <> 0) s -> RedisResult.c_str s = s.
Proof. induction 1 as [|c s Hc _ IH]; [done|]. cbn. by rewrite (proj2 (Z.eqb_neq _ _) Hc), IH. Qed.

(** What was written is read back, with a newline, and [readFile] says that it
    failed. *)
Theorem write_read p s (f f' : F) : Forall (fun c => c <> 0) s -> writeFile p s f = (f', 0) -> readFile p [] f' = (-1, s ++ [10]).
Proof.
  intros Hs. unfold writeFile, readFile. rewrite c_str_id by done. pose proof (write_law p (s ++ [10]) f) as H.
  destruct (write p (s ++ [10]) f) as [f1 []]; intros E; [done|]. injection E as <-. by rewrite H.
Qed.

(** [rmdir] does not return. *)
Theorem rmdir_never_returns fuel dir (f : F) : rmdir fuel dir f = None.
Proof. induction fuel; done. Qed.

(** [listFiles] joins the names with a backslash: where that is no separator,
    the first entry has no status. *)
Theorem listFiles_undefined fuel dir c n names vec (f : F) :
  stat dir f = Some Directory -> entries dir f = Some ((c :: n) :: names) -> c <> 46 -> stat (dir ++ [92] ++ c :: n) f = None ->
  listFiles fuel dir vec f = None.
Proof.
  intros Hd He Hc Hs. destruct fuel as [|fuel]; [done|]. cbn [listFiles]. rewrite Hd. cbn [mbind option_bind]. rewrite He.
  cbn [mbind option_bind list_entries]. rewrite (proj2 (Z.eqb_neq _ _) Hc), Hs. done.
Qed.

End FS.

(** ** The stream of the log *)

Lemma plain_text s : Forall (fun c => c <> 0 /\ c <> 37) s ->
  DBInterfaceRedis.directive s = false /\ LogStream.percents (RedisResult.c_str s) = s.
Proof.
  induction 1 as [|c s [H0 H1] _ [IH1 IH2]]; [done|]. cbn.
  rewrite (proj2 (Z.eqb_neq _ _) H0), (proj2 (Z.eqb_neq _ _) H1). cbn. by rewrite (proj2 (Z.eqb_neq _ _) H1), IH2.
Qed.

(** The texts shifted into the stream make up the line, when none has a
    percent sign. *)
Theorem stream_logs level filename func row texts : Forall (Forall (fun c => c <> 0 /\ c <> 37)) texts ->
  LogStream.destroy (fold_left (fun s t => LogStream.shift t s) texts (LogStream.create level filename func row)) =
    Some (XLog.mkcall level filename func row (concat texts)).
Proof.
  intros H. assert (forall s, fold_left (fun s t => LogStream.shift t s) texts s =
    LogStream.mk (LogStream.stream s ++ concat texts) (LogStream._level s) (LogStream._filename s) (LogStream._func s) (LogStream._line s)) as ->.
  { clear H. induction texts as [|t texts IH]; intros s; cbn; [rewrite app_nil_r; by destruct s|]. rewrite IH. cbn. by rewrite <- app_assoc. }
  unfold LogStream.destroy, LogStream.writeLog, LogStream.vsprintf. cbn [LogStream.stream LogStream.create app LogStream._level LogStream._filename LogStream._func LogStream._line].
  assert (Forall (fun c => c <> 0 /\ c <> 37) (concat texts)) as Hc.
  { induction H as [|t texts Ht _ IH]; [constructor|]. cbn. by apply Forall_app. }
  destruct (plain_text _ Hc) as [-> ->]. done.
Qed.

(** A percent sign before a letter is a directive without an argument. *)
Theorem stream_percent level filename func row a b c : Forall (fun c => c <> 0 /\ c <> 37) a -> c <> 0 -> c <> 37 ->
  LogStream.destroy (LogStream.shift (a ++ 37 :: c :: b) (LogStream.create level filename func row)) = None.
Proof.
  intros Ha H0 H1. unfold LogStream.destroy, LogStream.writeLog, LogStream.vsprintf. cbn [LogStream.shift LogStream.create LogStream.stream app].
  assert (DBInterfaceRedis.directive (a ++ 37 :: c :: b) = true) as ->; [|done].
  induction Ha as [|d a [Hd0 Hd1] _ IH].
  - cbn. by rewrite (proj2 (Z.eqb_neq _ _) H1), (proj2 (Z.eqb_neq _ _) H0).
  - cbn. by rewrite (proj2 (Z.eqb_neq _ _) Hd0), (proj2 (Z.eqb_neq _ _) Hd1).
Qed.

End FilesProps.
