(* ===== verification/Pool.v ===== *)
(** * Pool: the pools of reusable objects

    Models src/src/common/Objectpool.h, CommonPool.h and PoolObject.h.  The
    objects live in a memory; [None] is a use of a deleted object, or the
    failed [XAssert] of an object given back twice, which stops the program.
    [Allocator] is what a client needs of a pool, or of [new] and [delete]:
    both are shown to provide it. *)
From stdpp Require Import gmap.
From S2P Require Import Prelude.

(** ** What a client needs *)

(** Objects are made and given back; those made and not given back are
    [live].  A new object is not live already, and giving back a live one
    succeeds. *)
Class Allocator (S : Type) := {
  alloc_ok : S -> Prop;
  live : S -> gset nat;
  alloc : S -> option (nat * S);
  dispose : nat -> S -> option S;
  alloc_law : forall s, alloc_ok s -> exists a s', alloc s = Some (a, s') /\ a ∉ live s /\ live s' = {[a]} ∪ live s /\ alloc_ok s';
  dispose_law : forall s a, alloc_ok s -> a ∈ live s -> exists s', dispose a s = Some s' /\ live s' = live s ∖ {[a]} /\ alloc_ok s'
}.

(** What a pooled class has: a constructor, [zero] and [release]. *)
Class PoolObject (T : Type) := { new_T : T; zero : T -> T; release : T -> T }.

Module ObjectPool.
Section Pool.
Context {T : Type} `{!PoolObject T}.

(** An object in memory: [isEnabledPoolObject_] and the rest of it. *)
Record object := mkobject { isEnabledPoolObject : bool; body : T }.

(** The members of [ObjectPool], the memory, and the address [new] gives
    next. *)
Record t := mk { max_free : Z; obj_count_ : Z; objects_ : list nat; heap : gmap nat object; fresh : nat }.

Definition create (maxfreecount : Z) : t := mk maxfreecount 0 [] ∅ 0.
Definition init (count : Z) (p : t) : t := mk count (obj_count_ p) (objects_ p) (heap p) (fresh p).

(** [setEnabledPoolObject]. *)
Definition set_enabled (a : nat) (v : bool) (h : gmap nat object) : option (gmap nat object) :=
  o ← h !! a;
  Some (<[a := mkobject v (body o)]> h).

(** [ObjectPool::createObject]. *)
Definition createObject (p : t) : option (nat * t) :=
  if 0 <? obj_count_ p then
    match objects_ p with
    | [] => None
    | a :: objects => h ← set_enabled a true (heap p); Some (a, mk (max_free p) (i32 (obj_count_ p - 1)) objects h (fresh p))
    end
  else Some (fresh p, mk (max_free p) (obj_count_ p) (objects_ p) (<[fresh p := mkobject true new_T]> (heap p)) (S (fresh p))).

(** [ObjectPool::reclaimObject]. *)
Definition reclaimObject (obj : option nat) (p : t) : option t :=
  match obj with
  | None => Some p
  | Some a =>
    o ← heap p !! a;
    if negb (isEnabledPoolObject o) then None else
    let h := <[a := mkobject false (body o)]> (heap p) in
    if max_free p <=? obj_count_ p then Some (mk (max_free p) (obj_count_ p) (objects_ p) (delete a h) (fresh p))
    else Some (mk (max_free p) (i32 (obj_count_ p + 1)) (objects_ p ++ [a]) h (fresh p))
  end.

(** [ObjectPool::destroy]. *)
Fixpoint destroy_all (l : list nat) (h : gmap nat object) : option (gmap nat object) :=
  match l with
  | [] => Some h
  | a :: l => h ← set_enabled a false h; destroy_all l (delete a h)
  end.

Definition destroy (p : t) : option t :=
  h ← destroy_all (objects_ p) (heap p);
  Some (mk (max_free p) 0 [] h (fresh p)).

(** [CommPool::create] and [CommPool::reclaim]. *)
Definition comm_create (p : t) : option (nat * t) :=
  '(a, p) ← createObject p;
  o ← heap p !! a;
  Some (a, mk (max_free p) (obj_count_ p) (objects_ p) (<[a := mkobject (isEnabledPoolObject o) (zero (body o))]> (heap p)) (fresh p)).

Definition comm_reclaim (a : nat) (p : t) : option t :=
  o ← heap p !! a;
  reclaimObject (Some a) (mk (max_free p) (obj_count_ p) (objects_ p)
    (<[a := mkobject (isEnabledPoolObject o) (release (body o))]> (heap p)) (fresh p)).

(** ** The invariant *)

(** The free objects are listed once each, are in memory and disabled; the
    others in memory are enabled; the count is theirs. *)
Record wf (p : t) : Prop := {
  wf_nodup : NoDup (objects_ p);
  wf_count : obj_count_ p = Z.of_nat (length (objects_ p)) /\ obj_count_ p < 2 ^ 31;
  wf_max : in_i 32 (max_free p);
  wf_heap : forall a o, heap p !! a = Some o -> (a < fresh p)%nat /\ (isEnabledPoolObject o = false <-> a ∈ objects_ p);
  wf_free : forall a, a ∈ objects_ p -> is_Some (heap p !! a)
}.

(** The objects in use. *)
Definition in_use (p : t) : gset nat := dom (heap p) ∖ list_to_set (objects_ p).

Lemma elem_in_use p a : a ∈ in_use p <-> is_Some (heap p !! a) /\ a ∉ objects_ p.
Proof. unfold in_use. rewrite elem_of_difference, elem_of_dom, elem_of_list_to_set. done. Qed.

Lemma create_wf n : in_i 32 n -> wf (create n).
Proof. intros Hn. split; cbn; [constructor|done|done|done|by intros a ?%elem_of_nil]. Qed.

Lemma createObject_spec p : wf p -> exists a p', createObject p = Some (a, p') /\ wf p' /\ a ∉ in_use p /\
  in_use p' = {[a]} ∪ in_use p /\
  (forall b, b <> a -> heap p' !! b = heap p !! b) /\
  exists o, heap p' !! a = Some o /\ body o = match heap p !! a with Some o => body o | None => new_T end.
Proof.
  intros [Hnd [Hc Hb] Hm Hh Hf]. unfold createObject. destruct (Z.ltb_spec 0 (obj_count_ p)) as [Hpos|Hz].
  - destruct (objects_ p) as [|a objects] eqn:Eo; [cbn in Hc; lia|]. apply list.NoDup_cons in Hnd as [Hna Hnd].
    destruct (Hf a) as [o Ho]; [left|]. unfold set_enabled. rewrite Ho. cbn. eexists a, _. split; [done|].
    cbn [length] in Hc. split_and!; cbn.
    + split; cbn; [done| |done| |].
      * rewrite sext_small by (unfold in_i; lia). lia.
      * intros b o' Hb'. destruct (decide (b = a)) as [->|Hne].
        -- rewrite lookup_insert_eq in Hb'. injection Hb' as <-. split; [by apply (Hh a o)|done].
        -- rewrite lookup_insert_ne in Hb' by done. destruct (Hh b o' Hb') as [Hl Hiff]. split; [done|].
           rewrite Hiff, elem_of_cons. naive_solver.
      * intros b Hin. destruct (decide (b = a)) as [->|Hne]; [by rewrite lookup_insert_eq|]. rewrite lookup_insert_ne by done.
        apply Hf. by right.
    + rewrite elem_in_use, Eo. intros [_ Hn]. apply Hn. left.
    + apply set_eq. intros b. rewrite elem_of_union, elem_of_singleton, !elem_in_use, Eo. cbn [heap objects_].
      destruct (decide (b = a)) as [->|Hne]; [rewrite lookup_insert_eq; naive_solver|].
      rewrite lookup_insert_ne, elem_of_cons by done. naive_solver.
    + intros b Hne. by rewrite lookup_insert_ne.
    + rewrite lookup_insert_eq. eexists. split; [done|]. by rewrite Ho.
  - assert (heap p !! fresh p = None) as Hn.
    { destruct (heap p !! fresh p) as [o|] eqn:E; [|done]. apply Hh in E as [E _]. lia. }
    assert (fresh p ∉ objects_ p) as Hno by (intros Hin; destruct (Hf _ Hin) as [o Ho]; congruence).
    eexists (fresh p), _. split; [done|]. split_and!; cbn.
    + split; cbn; [done|done|done| |].
      * intros b o' Hb'. destruct (decide (b = fresh p)) as [->|Hne].
        -- rewrite lookup_insert_eq in Hb'. injection Hb' as <-. split; [lia|]. by split; [|intros ?].
        -- rewrite lookup_insert_ne in Hb' by done. destruct (Hh b o' Hb'). split; [lia|done].
      * intros b Hin. destruct (decide (b = fresh p)) as [->|Hne]; [done|]. rewrite lookup_insert_ne by done. by apply Hf.
    + rewrite elem_in_use, Hn. by intros [[]].
    + apply set_eq. intros b. rewrite elem_of_union, elem_of_singleton, !elem_in_use. cbn [heap objects_].
      destruct (decide (b = fresh p)) as [->|Hne]; [rewrite lookup_insert_eq; naive_solver|].
      rewrite lookup_insert_ne by done. naive_solver.
    + intros b Hne. by rewrite lookup_insert_ne.
    + rewrite lookup_insert_eq, Hn. by eexists.
Qed.

Lemma reclaimObject_spec p a : wf p -> a ∈ in_use p -> exists p', reclaimObject (Some a) p = Some p' /\ wf p' /\
  in_use p' = in_use p ∖ {[a]} /\
  (forall b, b <> a -> heap p' !! b = heap p !! b) /\
  (max_free p <= obj_count_ p -> heap p' !! a = None) /\
  (obj_count_ p < max_free p -> objects_ p' = objects_ p ++ [a] /\ body <$> heap p' !! a = body <$> heap p !! a).
Proof.
  intros [Hnd [Hc Hb] Hm Hh Hf] [[o Ho] Hna]%elem_in_use. cbn. rewrite Ho. cbn.
  destruct (Hh a o Ho) as [Hlt Hiff]. destruct (isEnabledPoolObject o) eqn:Ee; [|exfalso; by apply Hna, Hiff]. cbn [negb].
  destruct (Z.leb_spec (max_free p) (obj_count_ p)) as [Hfull|Hroom].
  - eexists. split; [done|]. rewrite delete_insert_eq. split_and!; cbn; [| | | |lia].
    + split; cbn; [done|done|done| |].
      * intros b o' [Hne Hb']%lookup_delete_Some. by apply Hh.
      * intros b Hin. rewrite lookup_delete_ne by (intros ->; done). by apply Hf.
    + apply set_eq. intros b. rewrite elem_of_difference, elem_of_singleton, !elem_in_use. cbn [heap objects_].
      destruct (decide (b = a)) as [->|Hne]; [rewrite lookup_delete_eq|rewrite lookup_delete_ne by done].
      * split; [by intros [[] _]|by intros [_ []]].
      * naive_solver.
    + intros b Hne. by rewrite lookup_delete_ne.
    + by rewrite lookup_delete_eq.
  - eexists. split; [done|]. split_and!; cbn; [| | |lia|].
    + split; cbn.
      * apply list.NoDup_app. split_and!; [done| |apply NoDup_singleton]. intros x Hx ->%list_elem_of_singleton. done.
      * rewrite length_app. cbn [length]. unfold in_i in Hm. rewrite sext_small by (unfold in_i; lia). lia.
      * done.
      * intros b o' Hb'. rewrite list.elem_of_app, list_elem_of_singleton. destruct (decide (b = a)) as [->|Hne].
        -- rewrite lookup_insert_eq in Hb'. injection Hb' as <-. split; [done|]. cbn. split; [by right|done].
        -- rewrite lookup_insert_ne in Hb' by done. destruct (Hh b o' Hb') as [? ->]. split; [done|]. naive_solver.
      * intros b. rewrite list.elem_of_app, list_elem_of_singleton. destruct (decide (b = a)) as [->|Hne]; [by rewrite lookup_insert_eq|].
        rewrite lookup_insert_ne by done. intros [?|?]; [by apply Hf|done].
    + apply set_eq. intros b. rewrite elem_of_difference, elem_of_singleton, !elem_in_use. cbn [heap objects_].
      rewrite list.elem_of_app, list_elem_of_singleton.
      destruct (decide (b = a)) as [->|Hne]; [naive_solver|]. rewrite lookup_insert_ne by done. naive_solver.
    + intros b Hne. by rewrite lookup_insert_ne.
    + intros _. split; [done|]. by rewrite lookup_insert_eq.
Qed.

(** Changing the body of an object in memory. *)
Lemma set_body_wf p a o b : wf p -> heap p !! a = Some o -> let p' := mk (max_free p) (obj_count_ p) (objects_ p)
    (<[a := mkobject (isEnabledPoolObject o) b]> (heap p)) (fresh p) in wf p' /\ in_use p' = in_use p.
Proof.
  intros [Hnd Hc Hm Hh Hf] Ho p'. split.
  - split; cbn; [done|done|done| |].
    + intros x o' Hx. destruct (decide (x = a)) as [->|Hne].
      * rewrite lookup_insert_eq in Hx. injection Hx as <-. by apply (Hh a o).
      * rewrite lookup_insert_ne in Hx by done. by apply Hh.
    + intros x Hx. destruct (decide (x = a)) as [->|Hne]; [by rewrite lookup_insert_eq|]. rewrite lookup_insert_ne by done. by apply Hf.
  - apply set_eq. intros x. rewrite !elem_in_use. unfold p'. cbn [heap objects_].
    destruct (decide (x = a)) as [->|Hne]; [rewrite lookup_insert_eq, Ho; naive_solver|by rewrite lookup_insert_ne].
Qed.

Lemma comm_create_spec p : wf p -> exists a p', comm_create p = Some (a, p') /\ wf p' /\ a ∉ in_use p /\
  in_use p' = {[a]} ∪ in_use p /\ (forall b, b <> a -> heap p' !! b = heap p !! b) /\
  exists o, heap p' !! a = Some o /\ body o = zero (match heap p !! a with Some o => body o | None => new_T end).
Proof.
  intros Hp. destruct (createObject_spec p Hp) as (a & p1 & E & Hp1 & Hn & Hu & Ho & o & Hoa & Hbody).
  destruct (set_body_wf p1 a o (zero (body o)) Hp1 Hoa) as [Hw Hu'].
  unfold comm_create. rewrite E. cbn. rewrite Hoa. cbn. eexists a, _. split; [done|]. split; [done|]. split; [done|].
  split; [by rewrite Hu', Hu|]. split.
  - intros b Hne. cbn. rewrite lookup_insert_ne by done. by apply Ho.
  - cbn. rewrite lookup_insert_eq. eexists. split; [done|]. cbn. by rewrite Hbody.
Qed.

Lemma comm_reclaim_spec p a : wf p -> a ∈ in_use p -> exists p', comm_reclaim a p = Some p' /\ wf p' /\
  in_use p' = in_use p ∖ {[a]} /\ (forall b, b <> a -> heap p' !! b = heap p !! b) /\
  (max_free p <= obj_count_ p -> heap p' !! a = None) /\
  (obj_count_ p < max_free p -> objects_ p' = objects_ p ++ [a] /\
     body <$> heap p' !! a = release ∘ body <$> heap p !! a).
Proof.
  intros Hp Ha. pose proof Ha as [[o Ho] _]%elem_in_use. destruct (set_body_wf p a o (release (body o)) Hp Ho) as [Hw Hu].
  unfold comm_reclaim. rewrite Ho. cbn [mbind option_bind].
  destruct (reclaimObject_spec _ a Hw) as (p' & E & Hp' & Hu' & Hother & Hdel & Hkeep); [by rewrite Hu|].
  exists p'. split; [done|]. split; [done|]. split; [by rewrite Hu', Hu|]. split; [|split; [done|]].
  - intros b Hne. rewrite Hother by done. cbn. by rewrite lookup_insert_ne.
  - intros Hr. destruct (Hkeep Hr) as [E1 E2]. split; [done|]. cbn in E2. rewrite lookup_insert_eq in E2. by rewrite E2.
Qed.

(** The pool provides what a client needs. *)
#[export] Program Instance pool_allocator : Allocator t := {
  alloc_ok := wf;
  live := in_use;
  alloc := comm_create;
  dispose := comm_reclaim
}.
Next Obligation. intros p Hp. destruct (comm_create_spec p Hp) as (a & p' & ? & ? & ? & ? & _). by exists a, p'. Qed.
Next Obligation. intros p a Hp Ha. destruct (comm_reclaim_spec p a Hp Ha) as (p' & ? & ? & ? & _). by exists p'. Qed.

(** ** A client of a pool *)

(** A client creates objects and gives back objects it holds, by the order in
    which it got them. *)
Inductive call := Create | Reclaim (i : nat).

Fixpoint client (cs : list call) (held : list nat) (p : t) : option (list nat * t) :=
  match cs with
  | [] => Some (held, p)
  | Create :: cs => '(a, p) ← comm_create p; client cs (held ++ [a]) p
  | Reclaim i :: cs =>
    match held !! i with
    | None => client cs held p
    | Some a => p ← comm_reclaim a p; client cs (delete i held) p
    end
  end.

Lemma client_spec cs : forall held p, wf p -> NoDup held -> in_use p = list_to_set held ->
  exists held' p', client cs held p = Some (held', p') /\ wf p' /\ NoDup held' /\ in_use p' = list_to_set held'.
Proof.
  induction cs as [|[|i] cs IH]; intros held p Hp Hnd Hu; cbn [client].
  - by exists held, p.
  - destruct (comm_create_spec p Hp) as (a & p' & E & Hp' & Hn & Hu' & _). rewrite E. cbn [mbind option_bind].
    apply IH; [done| |].
    + apply list.NoDup_app. split_and!; [done| |apply NoDup_singleton]. intros x Hx ->%list_elem_of_singleton.
      apply Hn. rewrite Hu. by apply elem_of_list_to_set.
    + rewrite Hu', Hu, list_to_set_app_L. cbn. set_solver +.
  - destruct (held !! i) as [a|] eqn:Ei; [|by apply IH].
    assert (a ∈ in_use p) as Ha by (rewrite Hu; apply elem_of_list_to_set; by eapply list_elem_of_lookup_2).
    destruct (comm_reclaim_spec p a Hp Ha) as (p' & E & Hp' & Hu' & _). rewrite E. cbn [mbind option_bind].
    rewrite (delete_take_drop held i). pose proof (take_drop_middle held i a Ei) as Hmid. rewrite <- Hmid in Hnd.
    apply list.NoDup_app in Hnd as (Hn1 & Hn2 & Hn3). apply list.NoDup_cons in Hn3 as [Hn4 Hn5].
    apply IH; [done| |].
    + apply list.NoDup_app. split_and!; [done| |done]. intros x Hx Hx'. apply (Hn2 x Hx). by right.
    + rewrite Hu', Hu. rewrite <- Hmid at 1. rewrite !list_to_set_app_L. cbn.
      assert (a ∉ take i held) as Hn6 by (intros Hin; apply (Hn2 a Hin); left).
      rewrite <- (elem_of_list_to_set (C := gset nat)) in Hn6, Hn4. set_solver +Hn6 Hn4.
Qed.

(**  A client of a pool that gives back only objects it holds never uses a
    deleted object, never trips the assertion, and never holds the same object
    twice: whatever the calls and the limit of the pool, an object it gets is
    none of those it holds. *)
Theorem pool_client_safe n cs : in_i 32 n ->
  exists held p, client cs [] (create n) = Some (held, p) /\ NoDup held /\ in_use p = list_to_set held.
Proof.
  intros Hn. destruct (client_spec cs [] (create n)) as (held & p & E & _ & Hnd & Hu); [by apply create_wf|constructor|done|].
  by exists held, p.
Qed.

(** An object given back twice: [release] runs on it again, and the program
    stops; when the pool was full, it was deleted, and is used all the same. *)
Theorem reclaimed_twice p a p' : wf p -> a ∈ in_use p -> comm_reclaim a p = Some p' -> comm_reclaim a p' = None.
Proof.
  intros Hp Ha E. destruct (comm_reclaim_spec p a Hp Ha) as (p1 & E1 & Hp1 & Hu1 & _). rewrite E in E1. injection E1 as <-.
  assert (a ∉ in_use p') as Hn by (rewrite Hu1; set_solver +). unfold comm_reclaim.
  destruct (heap p' !! a) as [o|] eqn:Eo; [|done]. cbn [mbind option_bind reclaimObject heap]. rewrite lookup_insert_eq.
  cbn [mbind option_bind isEnabledPoolObject]. destruct (isEnabledPoolObject o) eqn:Ee; [|done]. exfalso. apply Hn, elem_in_use.
  split; [by exists o|]. intros Hin. apply (wf_heap p' Hp1 a o Eo) in Hin. congruence.
Qed.

End Pool.

(** Counters, pooled: a pool of at most one free object. *)
Module Demo.

#[local] Instance counter : PoolObject Z := { new_T := 0; zero _ := 0; release x := x }.

Lemma pool_client_safe_witness : exists held p,
  client [Create; Create; Reclaim 1; Reclaim 0; Create; Create] [] (create 1) = Some (held, p) /\
  NoDup held /\ in_use p = list_to_set held.
Proof. apply (pool_client_safe (T := Z) 1); unfold in_i; lia. Defined.

(** The second of the objects given back was deleted; a new one is made. *)
Example pool_reuses : fst <$> client [Create; Create; Reclaim 1; Reclaim 0; Create; Create] [] (create 1) = Some [1%nat; 2%nat].
Proof. vm_compute. reflexivity. Qed.

End Demo.
End ObjectPool.

(** ** new and delete *)
Module NewDelete.

(** The live objects and the next address. *)
Record t := mk { objs : gset nat; fresh : nat }.

#[export] Program Instance heap_allocator : Allocator t := {
  alloc_ok h := forall a, a ∈ objs h -> (a < fresh h)%nat;
  live := objs;
  alloc h := Some (fresh h, mk ({[fresh h]} ∪ objs h) (S (fresh h)));
  dispose a h := if decide (a ∈ objs h) then Some (mk (objs h ∖ {[a]}) (fresh h)) else None
}.
Next Obligation.
  intros h Hh. eexists _, _. split; [done|]. split; [intros Hin; apply Hh in Hin; lia|]. split; [done|].
  intros a [->%elem_of_singleton|Ha%Hh]%elem_of_union; cbn; lia.
Qed.
Next Obligation.
  intros h a Hh Ha. eexists. split; [by apply decide_True|]. split; [done|].
  intros b [Hb _]%elem_of_difference. cbn. by apply Hh.
Qed.

End NewDelete.
