(* ===== verification/Lifecycle.v ===== *)
(** * Lifecycle: connections from accept to close

    Models src/src/network/TcpServer.cpp, the life of a [TcpSocket]
    (TcpSocket.cpp: [close], [echo_read], [echo_write], [on_uv_close]) and the
    ends of its subclasses: NetConnect (NetServer.cpp, NetEvent.cpp) and
    WebSocketConnect, and HttpConnect with the pool of HttpServer.cpp.  The
    objects come from an [Allocator] (Pool).  libuv is known by its contract:
    which callbacks it makes when, and that [uv_close] on a handle that is
    closing fails its assertion.  [None] is that failure, or a use of an object
    that is gone. *)
From stdpp Require Import gmap.
From S2P Require Import Prelude TcpSock Pool.

Module Lifecycle.
Import TcpSocket.

(** The state of a connection's [uv_tcp_t]. *)
Inductive handle := Open | Closing | Closed.

(** A connection: its handle and its send queue, whose [in_flight] counts the
    requests libuv has. *)
Record conn := mkconn { state : handle; queue : TcpSocket.t }.

(** What the subclasses differ in: whether [on_writecomplete] closes the
    connection when its parser says so ([HttpConnect]); whether [on_msgbuffer]
    closes it (a close frame, a head that is wrong or too big), or calls
    [onClose] and leaves the handle open (a handshake that fails); and whether
    [on_clsesocket] gives the object back. *)
Record kind := mkkind { closes_after_write : bool; closes_on_read : bool; refuses : bool; gives_back : bool }.
Definition net : kind := mkkind false false false true.
Definition websocket : kind := mkkind false true true false.
Definition http : kind := mkkind true true false true.

(** What a callback of the application may do. *)
Inductive action := ASend (a : nat) (p : packet) | AClose (a : nat).

(** What [on_msgbuffer] does with a read, in order: a callback of the
    application, [onClose] for a handshake that fails, [close]. *)
Inductive reaction := Callback (acts : list action) | Refused (acts : list action) | CloseIt.

Definition can_react (k : kind) (r : reaction) : Prop :=
  match r with Callback _ => True | Refused _ => refuses k = true | CloseIt => closes_on_read k = true end.

Definition reaction_acts (r : reaction) : list action :=
  match r with Callback acts | Refused acts => acts | CloseIt => [] end.

(** What libuv reports: a new connection, bytes read, the end of the stream or
    an error, a completed (or cancelled) write, a closed handle, anything
    else; with what the application does in its callback.  With a write goes
    what [m_parser.isClose()] gives then (HttpConn). *)
Inductive event :=
| Connect (acts : nat -> list action)
| Data (a : nat) (rs : list reaction)
| Eof (a : nat)
| Written (a : nat) (isClose : bool)
| HandleClosed (a : nat) (acts : list action)
| Other (acts : list action).

Inductive callback := OnAccept (a : nat) | OnClose (a : nat).

#[export] Instance callback_eq_dec : EqDecision callback.
Proof. solve_decision. Defined.

Section World.
Context {S : Type} `{!Allocator S} (k : kind).

(** The objects, the connections that are not given back, the callbacks. *)
Record world := mkworld { store : S; conns : gmap nat conn; log : list callback }.

Definition set_conn (a : nat) (c : conn) (w : world) : world := mkworld (store w) (<[a := c]> (conns w)) (log w).
Definition say (x : callback) (w : world) : world := mkworld (store w) (conns w) (log w ++ [x]).

(** [TcpSocketBase::close]: [uv_close]. *)
Definition close (a : nat) (w : world) : option world :=
  c ← conns w !! a;
  match state c with
  | Open => Some (set_conn a (mkconn Closing (queue c)) w)
  | _ => None
  end.

(** A send-queue operation; [uv_write] takes nothing on a handle that is not
    open. *)
Definition with_queue (f : TcpSocket.t -> option TcpSocket.t) (a : nat) (w : world) : option world :=
  c ← conns w !! a;
  q ← f (queue c);
  Some (set_conn a (mkconn (state c) (match state c with
    | Open => q
    | _ => mk (mSendPackets q) (mSending q) (in_flight (queue c)) (sent (queue c)) end)) w).

(** [TcpSocket::write]. *)
Definition send (a : nat) (p : packet) (w : world) : option world := with_queue (TcpSocket.write p) a w.

Fixpoint perform (acts : list action) (w : world) : option world :=
  match acts with
  | [] => Some w
  | ASend a p :: acts => w ← send a p w; perform acts w
  | AClose a :: acts => w ← close a w; perform acts w
  end.

(** [TcpServer::on_new_connection]; [uv_accept] in it succeeds (libuv
    guarantees that). *)
Definition on_new_connection (acts : nat -> list action) (w : world) : option world :=
  '(a, s) ← alloc (store w);
  perform (acts a) (say (OnAccept a) (mkworld s (<[a := mkconn Open TcpSocket.create]> (conns w)) (log w))).

(** [echo_write]: the request is done; then the virtual [on_writecomplete]. *)
Definition echo_write (a : nat) (isClose : bool) (w : world) : option world :=
  c ← conns w !! a;
  let q := queue c in
  let w := set_conn a (mkconn (state c) (mk (mSendPackets q) (mSending q) (pred (in_flight q)) (sent q))) w in
  w ← (if closes_after_write k && isClose then close a w else Some w);
  with_queue TcpSocket.on_writecomplete a w.

(** [on_uv_close]: the virtual [on_clsesocket], which calls the application
    and gives the object back. *)
Definition on_uv_close (a : nat) (acts : list action) (w : world) : option world :=
  w ← perform acts w;
  let w := say (OnClose a) w in
  if gives_back k then
    s ← dispose a (store w);
    Some (mkworld s (delete a (conns w)) (log w))
  else
    c ← conns w !! a;
    Some (set_conn a (mkconn Closed (queue c)) w).

(** [on_msgbuffer], as far as it concerns the connection. *)
Definition react (a : nat) (r : reaction) (w : world) : option world :=
  match r with
  | Callback acts => perform acts w
  | Refused acts => perform acts (say (OnClose a) w)
  | CloseIt => close a w
  end.

Fixpoint on_msgbuffer (a : nat) (rs : list reaction) (w : world) : option world :=
  match rs with [] => Some w | r :: rs => w ← react a r w; on_msgbuffer a rs w end.

Definition step (e : event) (w : world) : option world :=
  match e with
  | Connect acts => on_new_connection acts w
  | Data a rs => on_msgbuffer a rs w
  | Eof a => close a w
  | Written a isClose => echo_write a isClose w
  | HandleClosed a acts => on_uv_close a acts w
  | Other acts => perform acts w
  end.

Fixpoint run (es : list event) (w : world) : option world :=
  match es with [] => Some w | e :: es => w ← step e w; run es w end.

(** When libuv may report what: reads while the handle is open; one callback
    for each request; the end of [uv_close] after the cancelled requests. *)
Definition enabled (e : event) (w : world) : Prop :=
  match e with
  | Connect _ | Other _ => True
  | Data a rs => Forall (can_react k) rs /\ exists c, conns w !! a = Some c /\ state c = Open
  | Eof a => exists c, conns w !! a = Some c /\ state c = Open
  | Written a _ => exists c, conns w !! a = Some c /\ state c <> Closed /\ (0 < in_flight (queue c))%nat
  | HandleClosed a _ => exists c, conns w !! a = Some c /\ state c = Closing /\ in_flight (queue c) = 0%nat
  end.

(** An application that sends packets of a sensible size on connections it has
    been given and not been told to be closed; [may_close]: whether it also
    closes such connections. *)
Definition told (a : nat) (w : world) : Prop := exists c, conns w !! a = Some c /\ state c <> Closed.
Definition good_action (may_close : Prop) (w : world) (x : action) : Prop :=
  match x with
  | ASend a p => told a w /\ 0 <= sendSize p < 2 ^ 30
  | AClose a => may_close /\ told a w
  end.

Definition actions_of (e : event) (w : world) : list action :=
  match e with
  | Connect acts => match alloc (store w) with Some (a, _) => acts a | None => [] end
  | Data _ rs => flat_map reaction_acts rs
  | HandleClosed _ acts | Other acts => acts
  | Eof _ | Written _ _ => []
  end.

(** The world in which an event's callback runs. *)
Definition during (e : event) (w : world) : world :=
  match e with
  | Connect _ => match alloc (store w) with
      | Some (a, s) => mkworld s (<[a := mkconn Open TcpSocket.create]> (conns w)) (log w) | None => w end
  | _ => w
  end.

(** A history libuv and such an application can bring about. *)
Fixpoint proper (may_close : Prop) (es : list event) (w : world) : Prop :=
  match es with
  | [] => True
  | e :: es => enabled e w /\ Forall (good_action may_close (during e w)) (actions_of e w) /\
      match step e w with Some w => proper may_close es w | None => True end
  end.

End World.
End Lifecycle.
