(* ===== verification/LifecycleProps.v ===== *)
(** * LifecycleProps: what becomes of connections

    Connections whose application leaves closing to the peer come to their
    end once each, and are given back; the ways in which a connection is
    closed twice. *)
From stdpp Require Import gmap.
From S2P Require Import Prelude MsgBuf TcpSock WebSock HttpConn Pool Lifecycle.

Module LifecycleProps.
Import TcpSocket Lifecycle.

(** ** The send queue never overflows its sum *)

Definition small (p : packet) : Prop := 0 <= sendSize p < 2 ^ 30.

Lemma gather_small ps : Forall small ps -> forall sending sum, 0 <= sum < 2 ^ 31 ->
  exists r, gather ps sending sum = Some r.
Proof.
  induction 1 as [|p ps Hp _ IH]; intros sending sum Hs; cbn [gather]; [by eexists|].
  destruct (Z.leb_spec MAX_SEND_BYTE sum) as [H1|H1]; [by eexists|].
  destruct (MAX_SEND_PACKET <=? length sending)%nat; [by eexists|]. unfold MAX_SEND_BYTE, small in *.
  rewrite (proj2 (Z.ltb_lt _ _)) by lia. apply IH. lia.
Qed.

Definition queue_ok (q : TcpSocket.t) : Prop := Forall small (mSendPackets q).

Lemma send_top_ok q : queue_ok q -> exists q', send_top_msg q = Some q' /\ mSendPackets q' = mSendPackets q.
Proof.
  intros Hq. unfold send_top_msg. destruct (gather_small _ Hq (mSending q) 0) as [[sending sum] ->]; [lia|]. cbn.
  destruct (0 <? sum); by eexists.
Qed.

Lemma write_ok q p : queue_ok q -> small p -> exists q', TcpSocket.write p q = Some q' /\ queue_ok q'.
Proof.
  intros Hq Hp. unfold TcpSocket.write.
  assert (queue_ok (mk (mSendPackets q ++ [p]) (mSending q) (in_flight q) (sent q))) as Hq1
    by (apply list.Forall_app; split; [done|by constructor]).
  split_if; [by eexists|]. destruct (send_top_ok _ Hq1) as (q' & -> & E'). exists q'. split; [done|]. unfold queue_ok. by rewrite E'.
Qed.

Lemma writecomplete_ok q : queue_ok q -> exists q', TcpSocket.on_writecomplete q = Some q' /\ queue_ok q'.
Proof.
  intros Hq. unfold TcpSocket.on_writecomplete.
  assert (queue_ok (mk (drop (length (mSending q)) (mSendPackets q)) [] (in_flight q) (sent q))) as Hq1 by (by apply Forall_drop).
  destruct (send_top_ok _ Hq1) as (q' & -> & E'). exists q'. split; [done|]. unfold queue_ok. by rewrite E'.
Qed.

Section Safety.
Context {S : Type} `{!Allocator S} (k : kind).

#[local] Abbreviation world := (@world S).

(** How often [x] was called. *)
Definition count (x : callback) (l : list callback) : nat := length (filter (fun y => y = x) l).

#[local] Arguments count : simpl never.

Lemma count_snoc x l y : count x (l ++ [y]) = (count x l + (if decide (y = x) then 1 else 0))%nat.
Proof. unfold count. rewrite list.filter_app, length_app. f_equal. rewrite filter_cons. by case_decide. Qed.

Definition times (a : nat) (l : list nat) : nat := length (filter (fun b => b = a) l).

Lemma times_app a l l' : times a (l ++ l') = (times a l + times a l')%nat.
Proof. unfold times. by rewrite list.filter_app, length_app. Qed.

(** A connection the application may use. *)
Definition usable (w : world) (a : nat) : bool :=
  match state <$> conns w !! a with Some Closed | None => false | _ => true end.

Lemma told_usable w a : told a w <-> usable w a = true.
Proof.
  unfold told, usable. destruct (conns w !! a) as [c|]; cbn.
  - split; [intros (c' & [= <-] & Hs)|intros H]; destruct (state c) eqn:Es; try done; exists c; by rewrite Es.
  - split; [by intros (c & ? & _)|done].
Qed.

(** [refused]: the connections [onClose] was called for without their handles
    being closed. *)
Record inv (refused : list nat) (w : world) : Prop := {
  inv_alloc : alloc_ok (store w);
  inv_live : live (store w) = dom (conns w);
  inv_queues : forall a c, conns w !! a = Some c -> queue_ok (queue c);
  inv_count : forall a, (count (OnAccept a) (log w) + times a refused = count (OnClose a) (log w) + (if usable w a then 1 else 0))%nat
}.

(** Only queues differ. *)
Definition same (w w' : world) : Prop :=
  store w' = store w /\ log w' = log w /\ forall a, state <$> conns w' !! a = state <$> conns w !! a.

Lemma same_conns_trans w1 w2 w3 : same w1 w2 -> same w2 w3 -> same w1 w3.
Proof. intros (? & ? & H1) (? & ? & H2). split_and!; [congruence..|]. intros a. by rewrite H2. Qed.

Lemma same_usable w w' a : same w w' -> usable w' a = usable w a.
Proof. intros (_ & _ & H). unfold usable. by rewrite H. Qed.

Lemma same_inv R w w' : inv R w -> same w w' -> (forall a c, conns w' !! a = Some c -> queue_ok (queue c)) -> inv R w'.
Proof.
  intros [H1 H2 H3 H4] Hs Hq. pose proof Hs as (Es & El & Hst). split; [by rewrite Es| |done|].
  - rewrite Es, H2. apply set_eq. intros a. rewrite !elem_of_dom. specialize (Hst a).
    destruct (conns w !! a), (conns w' !! a); cbn in Hst; try done; by split.
  - intros a. rewrite El, (same_usable w w') by done. apply H4.
Qed.

Lemma with_queue_ok R f w a c : inv R w -> conns w !! a = Some c -> (exists q, f (queue c) = Some q /\ queue_ok q) ->
  exists w', with_queue f a w = Some w' /\ inv R w' /\ same w w'.
Proof.
  intros Hw Ha (q & Hf & Hq). unfold with_queue. rewrite Ha. cbn. rewrite Hf. cbn.
  set (c' := mkconn (state c) _). assert (same w (set_conn a c' w)) as Hsame.
  { split_and!; [done..|]. intros b. cbn. destruct (decide (b = a)) as [->|Hne]; [by rewrite lookup_insert_eq, Ha|by rewrite lookup_insert_ne]. }
  eexists. split; [done|]. split; [|done]. apply (same_inv R w); [done|done|]. intros b cb Hb. cbn in Hb.
  destruct (decide (b = a)) as [->|Hne].
  - rewrite lookup_insert_eq in Hb. injection Hb as <-. unfold c'. cbn. by destruct (state c).
  - rewrite lookup_insert_ne in Hb by done. by apply (inv_queues R w Hw b).
Qed.

Lemma usable_good m w w' acts : (forall a, usable w' a = usable w a) -> Forall (good_action m w) acts -> Forall (good_action m w') acts.
Proof.
  intros Hs H. apply (list.Forall_impl _ _ _ H). intros [a p|a]; cbn; by rewrite !told_usable, Hs.
Qed.

Lemma perform_ok R acts : forall w, inv R w -> Forall (good_action False w) acts ->
  exists w', perform acts w = Some w' /\ inv R w' /\ same w w'.
Proof.
  induction acts as [|[a p|a] acts IH]; intros w Hw Hg; cbn [perform].
  - exists w. split_and!; [done..|]. by split.
  - apply list.Forall_cons in Hg as [[(c & Hc & _) Hp] Hg].
    destruct (with_queue_ok R (TcpSocket.write p) w a c Hw Hc) as (w1 & E & Hw1 & Hs1).
    { apply write_ok; [by apply (inv_queues R w Hw a)|done]. }
    unfold send. rewrite E. cbn [mbind option_bind]. destruct (IH w1 Hw1) as (w2 & E2 & Hw2 & Hs2); [apply (usable_good _ w); [intros; by apply same_usable|done]|].
    exists w2. split_and!; [done..|]. by apply (same_conns_trans w w1).
  - apply list.Forall_cons in Hg as [[[] _] _].
Qed.

Lemma connect_ok R w a s : inv R w -> alloc (store w) = Some (a, s) -> a ∉ live (store w) -> live s = {[a]} ∪ live (store w) -> alloc_ok s ->
  inv R (say (OnAccept a) (mkworld s (<[a := mkconn Open TcpSocket.create]> (conns w)) (log w))).
Proof.
  intros [H1 H2 H3 H4] Ha Hn Hl Hok. assert (conns w !! a = None) as Hnone by (apply not_elem_of_dom; by rewrite <- H2).
  split; cbn; [done| | |].
  - rewrite Hl, H2. by rewrite dom_insert_L.
  - intros b c Hb. destruct (decide (b = a)) as [->|Hne].
    + rewrite lookup_insert_eq in Hb. injection Hb as <-. constructor.
    + rewrite lookup_insert_ne in Hb by done. by apply (H3 b).
  - intros b. rewrite !count_snoc. rewrite (decide_False (P := OnAccept a = OnClose b)) by done.
    unfold usable. cbn. destruct (decide (b = a)) as [->|Hne].
    + rewrite lookup_insert_eq, decide_True by done. specialize (H4 a). unfold usable in H4. rewrite Hnone in H4. cbn in *. lia.
    + rewrite lookup_insert_ne, decide_False by congruence. specialize (H4 b). unfold usable in H4. lia.
Qed.

Lemma conn_close_ok R w a c : inv R w -> conns w !! a = Some c -> state c = Open ->
  exists w', close a w = Some w' /\ inv R w'.
Proof.
  intros Hw Hc Ho. unfold close. rewrite Hc. cbn. rewrite Ho. eexists. split; [done|]. destruct Hw as [H1 H2 H3 H4].
  split; cbn; [done| | |].
  - rewrite dom_insert_lookup_L; [done|by eexists].
  - intros b cb Hb. destruct (decide (b = a)) as [->|Hne].
    + rewrite lookup_insert_eq in Hb. injection Hb as <-. by apply (H3 a c).
    + rewrite lookup_insert_ne in Hb by done. by apply (H3 b).
  - intros b. rewrite H4. unfold usable. cbn. destruct (decide (b = a)) as [->|Hne]; [|by rewrite lookup_insert_ne].
    rewrite lookup_insert_eq, Hc. cbn. by rewrite Ho.
Qed.

Lemma closed_ok R w a c acts : inv R w -> conns w !! a = Some c -> state c = Closing -> Forall (good_action False w) acts ->
  exists w', on_uv_close k a acts w = Some w' /\ inv R w'.
Proof.
  intros Hw Hc Hst Hg. unfold on_uv_close. destruct (perform_ok R acts w Hw Hg) as (w1 & -> & Hw1 & Hs1 & Hl1 & Hsame).
  cbn [mbind option_bind say store conns log]. destruct Hw1 as [H1 H2 H3 H4].
  assert (exists c1, conns w1 !! a = Some c1 /\ state c1 = Closing) as (c1 & Hc1 & Hst1).
  { specialize (Hsame a). rewrite Hc in Hsame. destruct (conns w1 !! a) as [c1|]; [|done]. injection Hsame as E0. exists c1. by rewrite E0. }
  assert (usable w1 a = true) as Hu by (unfold usable; rewrite Hc1; cbn; by rewrite Hst1).
  assert (forall w2, (forall b, b <> a -> usable w2 b = usable w1 b) -> usable w2 a = false -> log w2 = log w1 ++ [OnClose a] ->
    forall b, (count (OnAccept b) (log w2) + times b R = count (OnClose b) (log w2) + (if usable w2 b then 1 else 0))%nat) as Hcount.
  { intros w2 Hb Ha Hl b. specialize (H4 b). rewrite Hl, !count_snoc. rewrite (decide_False (P := OnClose a = OnAccept b)) by done.
    destruct (decide (b = a)) as [->|Hne]; [rewrite Hu in H4; rewrite decide_True, Ha by done; lia|].
    rewrite decide_False, Hb by congruence. lia. }
  destruct (gives_back k).
  - destruct (dispose_law (store w1) a H1) as (s' & Hd & Hl & Hok).
    { rewrite H2. apply elem_of_dom. by eexists. }
    rewrite Hd. cbn. eexists. split; [done|]. split; cbn; [done| | |].
    + rewrite Hl, H2. by rewrite dom_delete_L.
    + intros b cb [Hne Hb]%lookup_delete_Some. by apply (H3 b).
    + apply (Hcount (mkworld s' (delete a (conns w1)) (log w1 ++ [OnClose a]))); [|unfold usable; cbn; by rewrite lookup_delete_eq|done].
      intros b Hne. unfold usable. cbn. by rewrite lookup_delete_ne.
  - rewrite Hc1. cbn. eexists. split; [done|]. split; cbn; [done| | |].
    + rewrite dom_insert_lookup_L; [done|by eexists].
    + intros b cb Hb. destruct (decide (b = a)) as [->|Hne].
      * rewrite lookup_insert_eq in Hb. injection Hb as <-. by apply (H3 a c1).
      * rewrite lookup_insert_ne in Hb by done. by apply (H3 b).
    + apply (Hcount (mkworld (store w1) (<[a := mkconn Closed (queue c1)]> (conns w1)) (log w1 ++ [OnClose a]))); [|unfold usable; cbn; by rewrite lookup_insert_eq|done].
      intros b Hne. unfold usable. cbn. by rewrite lookup_insert_ne.
Qed.

(** ** What a read does *)

(** The refusals of a read, and whether it closes more than once. *)
Definition refusals (a : nat) (rs : list reaction) : list nat :=
  flat_map (fun r => match r with Refused _ => [a] | _ => [] end) rs.

Definition closes (rs : list reaction) : nat := length (flat_map (fun r => match r with CloseIt => [tt] | _ => [] end) rs).

Lemma refused_ok R w a c : inv R w -> conns w !! a = Some c -> inv (R ++ [a]) (say (OnClose a) w).
Proof.
  intros [H1 H2 H3 H4] Hc. split; cbn; [done..|]. intros b. specialize (H4 b). rewrite !count_snoc, times_app.
  rewrite (decide_False (P := OnClose a = OnAccept b)) by done. unfold usable in *. cbn [conns say] in *.
  assert (times b [a] = if decide (OnClose a = OnClose b) then 1 else 0)%nat as ->; [|case_decide; lia].
  unfold times. rewrite filter_cons. destruct (decide (a = b)) as [->|Hne]; [by rewrite decide_True by done|by rewrite decide_False by congruence].
Qed.

Lemma same_state w w' a c : same w w' -> conns w !! a = Some c -> exists c', conns w' !! a = Some c' /\ state c' = state c.
Proof.
  intros (_ & _ & H) Hc. specialize (H a). rewrite Hc in H. destruct (conns w' !! a) as [c'|]; [|done]. injection H as E. by exists c'.
Qed.

Lemma close_usable a w w' b : close a w = Some w' -> usable w' b = usable w b.
Proof.
  unfold close, usable. destruct (conns w !! a) as [c|] eqn:Hc; [|done]. cbn. destruct (state c) eqn:Hs; try done. intros [= <-]. cbn.
  destruct (decide (b = a)) as [->|Hne]; [by rewrite lookup_insert_eq, Hc; cbn; rewrite Hs|by rewrite lookup_insert_ne].
Qed.

Lemma on_msgbuffer_ok rs : forall R w a c, inv R w -> conns w !! a = Some c -> (closes rs = 0%nat \/ closes rs = 1%nat /\ state c = Open) ->
  Forall (good_action False w) (flat_map reaction_acts rs) ->
  exists w', on_msgbuffer a rs w = Some w' /\ inv (R ++ refusals a rs) w'.
Proof.
  induction rs as [|r rs IH]; intros R w a c Hw Hc Hone Hg; cbn [on_msgbuffer].
  { exists w. cbn. by rewrite app_nil_r. }
  cbn [flat_map] in Hg. apply list.Forall_app in Hg as [Hg Hg'].
  assert (forall w1 w2, usable w1 = usable w -> same w1 w2 -> Forall (good_action False w2) (flat_map reaction_acts rs)) as Hnext.
  { intros w1 w2 Hu Hs. apply (usable_good _ w); [|done]. intros b. by rewrite (same_usable w1 w2), Hu. }
  destruct r as [acts|acts|]; cbn [react reaction_acts] in *.
  - destruct (perform_ok R acts w Hw Hg) as (w1 & -> & Hw1 & Hs1). cbn [mbind option_bind].
    destruct (same_state w w1 a c Hs1 Hc) as (c1 & Hc1 & Hst). apply (IH R w1 a c1); [done|done|by rewrite Hst|by apply (Hnext w)].
  - destruct (perform_ok (R ++ [a]) acts (say (OnClose a) w)) as (w1 & -> & Hw1 & Hs1); [by eapply refused_ok|by apply (usable_good _ w)|].
    cbn [mbind option_bind]. destruct (same_state _ w1 a c Hs1 Hc) as (c1 & Hc1 & Hst).
    destruct (IH (R ++ [a]) w1 a c1) as (w' & E & I); [done|done|by rewrite Hst|by apply (Hnext (say (OnClose a) w))|].
    exists w'. split; [done|]. by rewrite <- app_assoc in I.
  - destruct Hone as [Hone|[Hone Ho]]; [done|]. injection Hone as Hone.
    destruct (conn_close_ok R w a c Hw Hc Ho) as (w1 & E & Hw1). rewrite E. cbn [mbind option_bind].
    assert (usable w1 a = true) as Hu1 by (rewrite (close_usable a w w1 a E); unfold usable; rewrite Hc; cbn; by rewrite Ho).
    apply told_usable in Hu1 as (c1 & Hc1 & _). apply (IH R w1 a c1); [done|done|by left|].
    apply (usable_good _ w); [|done]. intros b. by apply (close_usable a).
Qed.

(** ** Histories *)

Definition refused (e : event) : list nat := match e with Data a rs => refusals a rs | _ => [] end.

(** No read closes the connection more than once. *)
Definition closes_once (e : event) : Prop := match e with Data _ rs => (closes rs <= 1)%nat | _ => True end.

Lemma queues_same R w a c q : inv R w -> conns w !! a = Some c -> queue_ok q -> inv R (set_conn a (mkconn (state c) q) w).
Proof.
  intros Hw Hc Hq. apply (same_inv R w); [done| |].
  - split_and!; [done..|]. intros b. cbn. destruct (decide (b = a)) as [->|Hne]; [by rewrite lookup_insert_eq, Hc|by rewrite lookup_insert_ne].
  - intros b cb Hb. cbn in Hb. destruct (decide (b = a)) as [->|Hne].
    + rewrite lookup_insert_eq in Hb. by injection Hb as <-.
    + rewrite lookup_insert_ne in Hb by done. by apply (inv_queues R w Hw b).
Qed.

Lemma lifecycle_step_ok R e w : closes_after_write k = false -> closes_once e -> inv R w -> enabled k e w ->
  Forall (good_action False (during e w)) (actions_of e w) -> exists w', step k e w = Some w' /\ inv (R ++ refused e) w'.
Proof.
  intros Hk H1 Hw He Hg. destruct e as [acts|a rs|a|a|a acts|acts]; cbn [step enabled actions_of during refused] in *; rewrite ?app_nil_r.
  - destruct (alloc_law (store w) (inv_alloc R w Hw)) as (a & s & Ha & Hn & Hl & Hok). unfold on_new_connection.
    rewrite Ha in Hg |- *. cbn [mbind option_bind]. pose proof (connect_ok R w a s Hw Ha Hn Hl Hok) as Hw1.
    destruct (perform_ok R (acts a) _ Hw1) as (w' & E & Hw' & _); [|by exists w'].
    by apply (usable_good _ (mkworld s (<[a := mkconn Open TcpSocket.create]> (conns w)) (log w))).
  - destruct He as (_ & c & Hc & Ho). apply (on_msgbuffer_ok rs R w a c); [done|done| |done]. cbn in H1.
    destruct (closes rs) as [|[|n]]; [by left|by right|lia].
  - destruct He as (c & Hc & Ho). by apply (conn_close_ok R w a c).
  - destruct He as (c & Hc & Hst & Hf). unfold echo_write. rewrite Hc, Hk. cbn [mbind option_bind andb].
    pose proof (inv_queues R w Hw a c Hc) as Hq. set (q := mk _ _ _ _).
    destruct (with_queue_ok R TcpSocket.on_writecomplete (set_conn a (mkconn (state c) q) w) a (mkconn (state c) q)) as (w' & E & Hw' & _).
    { by apply queues_same. }
    { cbn. by rewrite lookup_insert_eq. }
    { by apply writecomplete_ok. }
    by exists w'.
  - destruct He as (c & Hc & Hst & _). by apply (closed_ok R w a c).
  - destruct (perform_ok R acts w Hw Hg) as (w' & E & Hw' & _). by exists w'.
Qed.

Lemma lifecycle_run_ok es : closes_after_write k = false -> Forall closes_once es -> forall R w, inv R w -> proper k False es w ->
  exists w', run k es w = Some w' /\ inv (R ++ flat_map refused es) w'.
Proof.
  intros Hk. induction 1 as [|e es H1 _ IH]; intros R w Hw Hp; [exists w; cbn; by rewrite app_nil_r|]. destruct Hp as (He & Hg & Hp). cbn [run].
  destruct (lifecycle_step_ok R e w Hk H1 Hw He Hg) as (w1 & E & Hw1). rewrite E in Hp |- *. cbn [mbind option_bind].
  destruct (IH _ w1 Hw1 Hp) as (w' & E' & I). exists w'. split; [done|]. cbn [flat_map]. by rewrite app_assoc.
Qed.

(** C19.  Connections over any interleaving of what libuv reports, for a class
    that does not close after a write (NetConnect and WebSocketConnect, not
    HttpConnect), an application that sends on the connections it has and
    leaves closing to the peer and to the class, and reads that bring at most
    one close frame each: no handle is closed twice, no object is used after
    it was given back, every connection is reported closed once when its
    handle is closed and once more for every read in which its WebSocket
    handshake fails, and what is not given back is what is not closed (or,
    for a class that never gives back, everything). *)
Theorem lifecycle_safe es s0 : closes_after_write k = false -> Forall closes_once es -> alloc_ok s0 -> live s0 = ∅ ->
  proper k False es (mkworld s0 ∅ []) ->
  exists w, run k es (mkworld s0 ∅ []) = Some w /\ live (store w) = dom (conns w) /\
    forall a, (count (OnAccept a) (log w) + times a (flat_map refused es) =
               count (OnClose a) (log w) + (if usable w a then 1 else 0))%nat.
Proof.
  intros Hk H1 Hok Hl Hp. destruct (lifecycle_run_ok es Hk H1 [] (mkworld s0 ∅ [])) as (w & E & Hw); [|done|].
  - split; cbn; [done|by rewrite Hl, dom_empty_L|done|done].
  - exists w. split; [done|]. split; [by eapply inv_live|by apply (inv_count _ _ Hw)].
Qed.

End Safety.
(** ** Closed twice *)

Section Twice.
Context {S : Type} `{!Allocator S}.

Lemma ends_badly_step k P e es w w' : enabled k e w -> Forall (good_action P (during e w)) (actions_of e w) ->
  step k e w = Some w' -> proper k P es w' /\ run k es w' = None ->
  proper k P (e :: es) w /\ run k (e :: es) w = None.
Proof. intros He Hg Hs [Hp Hr]. cbn [proper run]. rewrite Hs. by split_and!. Qed.

Lemma ends_badly_last k P e w : enabled k e w -> Forall (good_action P (during e w)) (actions_of e w) ->
  step k e w = None -> proper k P [e] w /\ run k [e] w = None.
Proof. intros He Hg Hs. cbn [proper run]. rewrite Hs. by split_and!. Qed.

Lemma close_open a (w : world (S := S)) q : conns w !! a = Some (mkconn Open q) -> close a w = Some (set_conn a (mkconn Closing q) w).
Proof. intros E. unfold close. by rewrite E. Qed.

Lemma close_closing a (w : world (S := S)) q : conns w !! a = Some (mkconn Closing q) -> close a w = None.
Proof. intros E. unfold close. by rewrite E. Qed.

Lemma set_conn_same a c (w : world (S := S)) : conns (set_conn a c w) !! a = Some c.
Proof. apply lookup_insert_eq. Qed.

(** The first connection of a server, whose application does nothing yet. *)
Definition first_conn (a : nat) (s : S) : world (S := S) := set_conn a (mkconn Open TcpSocket.create) (mkworld s ∅ [OnAccept a]).

Lemma first_step k P es s0 a s : alloc s0 = Some (a, s) ->
  proper k P es (first_conn a s) /\ run k es (first_conn a s) = None ->
  let es' := Connect (fun _ => []) :: es in proper k P es' (mkworld s0 ∅ []) /\ run k es' (mkworld s0 ∅ []) = None.
Proof.
  intros Ha. apply ends_badly_step; [done| |]; cbn; unfold on_new_connection; cbn; by rewrite Ha.
Qed.

(** The application closes a connection whose peer has just closed it: it
    cannot know, since [onClose] comes only after the handle is closed, and
    [close] does not ask [uv_is_closing]. *)
Theorem close_after_eof_aborts k s0 a s : alloc s0 = Some (a, s) ->
  let es := [Connect (fun _ => []); Eof a; Other [AClose a]] in
  proper k True es (mkworld s0 ∅ []) /\ run k es (mkworld s0 ∅ []) = None.
Proof.
  intros Ha. apply (first_step k True [Eof a; Other [AClose a]] s0 a s Ha).
  eapply ends_badly_step; [eexists; split; [apply set_conn_same|done]|constructor|apply close_open, set_conn_same|].
  apply ends_badly_last; [done| |].
  - repeat constructor. eexists. split; [apply set_conn_same|done].
  - cbn. by rewrite (close_closing a _ _ (set_conn_same a _ _)).
Qed.

(** What [WebSocketConnect::on_msgbuffer] did to its own connection. *)
Definition own_actions (a : nat) (evs : list WebSocketConnect.event) : list action :=
  flat_map (fun e => match e with WebSocketConnect.Close => [AClose a] | _ => [] end) evs.

Lemma own_actions_twice a evs : own_actions 0 evs = [AClose 0; AClose 0] -> own_actions a evs = [AClose a; AClose a].
Proof.
  assert (forall evs, own_actions a evs = replicate (length (own_actions 0 evs)) (AClose a)) as Hl.
  { induction evs0 as [|[] l IH]; cbn in *; [done|done..|by f_equal|done]. }
  intros E. by rewrite Hl, E.
Qed.

(** Close frames that come in one read close a WebSocket connection twice. *)
Theorem close_frames_abort a (w : world (S := S)) :
  let frames := concat (replicate 3 [0x88; 0x80; 0; 0; 0; 0]) in
  let opened := WebSocketConnect.mkst [] [] true None in
  exists buffer s evs, WebSocketConnect.on_msgbuffer 10 (MessageBuffer.mk frames (length frames) 0) opened = Done (buffer, s, evs) /\
    perform (own_actions a evs) w = None.
Proof.
  intros frames opened.
  assert (match WebSocketConnect.on_msgbuffer 10 (MessageBuffer.mk frames (length frames) 0) opened with
    | Done (_, _, evs) => own_actions 0 evs = [AClose 0; AClose 0] | _ => False end) as E by (vm_compute; reflexivity).
  destruct (WebSocketConnect.on_msgbuffer 10 _ opened) as [[[buffer s] evs]| |]; try done.
  exists buffer, s, evs. split; [done|].
  assert (own_actions a evs = [AClose a; AClose a]) as -> by (by apply own_actions_twice).
  cbn [perform]. destruct (close a w) as [w1|] eqn:E1; [|done]. cbn [mbind option_bind].
  unfold close in E1. destruct (conns w !! a) as [[[] q]|]; cbn in E1; try done. injection E1 as <-.
  by rewrite (close_closing a _ _ (set_conn_same a _ _)).
Qed.

(** A WebSocket client whose first bytes are no handshake is reported closed
    while its handle stays open, and again when the peer goes. *)
Theorem ws_refused_reported_twice s0 a s : alloc s0 = Some (a, s) ->
  let es := [Connect (fun _ => []); Data a [Refused []]; Eof a; HandleClosed a []] in
  exists w, run websocket es (mkworld s0 ∅ []) = Some w /\ log w = [OnAccept a; OnClose a; OnClose a].
Proof.
  intros Ha. eexists. cbn [run].
  assert (step websocket (Connect (fun _ => [])) (mkworld s0 ∅ []) = Some (first_conn a s)) as ->
    by (cbn; unfold on_new_connection; cbn; by rewrite Ha).
  cbn [mbind option_bind step on_msgbuffer react perform].
  change (say (OnClose a) (first_conn a s)) with (set_conn a (mkconn Open TcpSocket.create) (mkworld (S := S) s ∅ [OnAccept a; OnClose a])).
  rewrite (close_open a _ _ (set_conn_same a _ _)). cbn [mbind option_bind]. unfold on_uv_close. cbn [perform mbind option_bind gives_back websocket].
  cbn [conns say set_conn]. rewrite lookup_insert_eq. cbn [mbind option_bind]. split; reflexivity.
Qed.

(** C30.  An HTTP server is stopped from outside: a client that closes its
    connection before the answer to its request is written makes libuv cancel
    the write, and the callback of the write asks the parser, which was reset
    when the request was complete ([HttpConnect::zero], see http_keep_alive_lost
    in HttpConnProps), and closes the handle that is already closing; libuv's
    assertion fails.  The application does nothing but answer. *)
Theorem http_close_aborts s0 a s p c sq : alloc s0 = Some (a, s) -> 0 < sendSize p < 2 ^ 30 ->
  let isClose := fst (HttpConnect.on_writecomplete (HttpConnect.zero c) sq) in
  let es := [Connect (fun _ => []); Data a [Callback [ASend a p]]; Eof a; Written a isClose] in
  proper http False es (mkworld s0 ∅ []) /\ run http es (mkworld s0 ∅ []) = None.
Proof.
  intros Ha Hp isClose. apply (first_step http False [Data a [Callback [ASend a p]]; Eof a; Written a isClose] s0 a s Ha).
  set (q := mk [p] [p] 1 [concat [wire p]]).
  assert (send a p (first_conn a s) = Some (set_conn a (mkconn Open q) (first_conn a s))) as Hsend.
  { unfold send, with_queue. unfold first_conn. rewrite set_conn_same. cbn [mbind option_bind queue state].
    unfold TcpSocket.write. cbn [TcpSocket.create mSendPackets mSending app in_flight sent isSending length Nat.eqb negb].
    unfold send_top_msg. cbn [mSendPackets mSending gather length].
    rewrite (proj2 (Z.leb_gt MAX_SEND_BYTE 0)) by (unfold MAX_SEND_BYTE; lia). cbn [app].
    replace (MAX_SEND_PACKET <=? 0)%nat with false by done.
    rewrite (proj2 (Z.ltb_lt _ _)) by lia. cbn [mbind option_bind]. by rewrite (proj2 (Z.ltb_lt 0 (0 + sendSize p))) by lia. }
  eapply ends_badly_step; [split; [by repeat constructor|]; eexists; split; [apply set_conn_same|done]| |cbn; by rewrite Hsend|].
  { repeat constructor; [|lia..]. eexists. split; [apply set_conn_same|done]. }
  eapply ends_badly_step; [eexists; split; [apply set_conn_same|done]|constructor|apply close_open, set_conn_same|].
  apply ends_badly_last; [|constructor|].
  - eexists. split; [apply set_conn_same|]. cbn. split; [done|lia].
  - cbn. unfold echo_write. rewrite set_conn_same. cbn [mbind option_bind closes_after_write http].
    by rewrite (close_closing a _ _ (set_conn_same a _ _)).
Qed.

End Twice.

(** ** Witnesses *)

#[local] Existing Instance NewDelete.heap_allocator.
#[local] Existing Instance ObjectPool.pool_allocator.

(** The state a pooled connection starts from does not matter here. *)
#[local] Instance unit_object : PoolObject unit := { new_T := tt; zero := id; release := id }.

(** [HttpServer]'s pool, with its default limit. *)
Definition pool0 : ObjectPool.t (T := unit) := ObjectPool.create 0x200.

(** Step by step, so that no world is written out. *)
Lemma proper_cons {S : Type} `{!Allocator S} k P e es (w : world (S := S)) :
  enabled k e w -> Forall (good_action P (during e w)) (actions_of e w) -> (if step k e w then true else false) = true ->
  proper k P es (default w (step k e w)) -> proper k P (e :: es) w.
Proof. intros He Hg Hs Hp. cbn [proper]. split_and!; [done..|]. by destruct (step k e w). Qed.

Ltac told_done := eexists; split; [vm_compute; reflexivity|done].
Ltac actions_done :=
  match goal with |- Forall _ ?l => let l' := eval vm_compute in l in change l with l' end;
  repeat constructor; try told_done; done.

(** A WebSocket client whose handshake fails, and one that sends a close
    frame. *)
Lemma lifecycle_safe_witness :
  let es := [Connect (fun a => [ASend a (mkp [7] 1)]); Written 0 true; Data 0 [Refused []]; Eof 0; HandleClosed 0 [];
    Connect (fun _ => []); Data 1 [Callback [ASend 1 (mkp [8] 1)]; CloseIt]; Written 1 true; HandleClosed 1 []] in
  exists w, run websocket es (mkworld (NewDelete.mk ∅ 0) ∅ []) = Some w /\ live (store w) = dom (conns w) /\
    log w = [OnAccept 0; OnClose 0; OnClose 0; OnAccept 1; OnClose 1].
Proof.
  intros es. destruct (lifecycle_safe websocket es (NewDelete.mk ∅ 0)) as (w & Hr & Hl & _); [reflexivity|repeat constructor|done|reflexivity| |].
  - unfold es. repeat (apply proper_cons; [vm_compute; repeat first [done | split | constructor | eexists]|actions_done|vm_compute; reflexivity|]). done.
  - exists w. split; [exact Hr|]. split; [exact Hl|]. vm_compute in Hr. by injection Hr as <-.
Defined.

Lemma http_close_aborts_witness : exists es, proper http False es (mkworld pool0 ∅ []) /\
  run http es (mkworld pool0 ∅ []) = None.
Proof.
  eexists. apply (http_close_aborts pool0 0 (snd (default (0%nat, pool0) (alloc pool0))) (mkp [7] 1) (HttpConnect.create 64) TcpSocket.create); [reflexivity|cbn; lia].
Defined.

End LifecycleProps.
