(* ===== verification/Client.v ===== *)
(** * Client: outgoing connections

    Models src/src/network/TcpClient.cpp and NetClient.cpp over Lifecycle: the
    attempts to connect, and what becomes of their objects.  An object made
    for an attempt is held apart until the attempt succeeds; an allocator
    whose next object is the held one makes a success an accepted connection
    of Lifecycle, whose theorems then apply.  Proved here: connections that
    were made live as those of a server do, and the object of every attempt
    that fails is never given back. *)
From stdpp Require Import gmap.
From S2P Require Import Prelude TcpSock Pool Lifecycle LifecycleProps.

Module Client.
Import Lifecycle.

(** ** Objects in use by attempts *)

Section Held.
Context {S : Type} `{!Allocator S}.

(** The memory, the objects of attempts, and the one that is connected now. *)
Record held_store := mkheld { mem : S; held : gset nat; ready : option nat }.

Definition held_alloc (s : held_store) : option (nat * held_store) :=
  match ready s with
  | Some a => Some (a, mkheld (mem s) (held s ∖ {[a]}) None)
  | None => '(a, m) ← alloc (mem s); Some (a, mkheld m (held s) None)
  end.

Definition held_dispose (a : nat) (s : held_store) : option held_store :=
  m ← dispose a (mem s); Some (mkheld m (held s) (ready s)).

#[export] Program Instance held_allocator : Allocator held_store := {
  alloc_ok s := alloc_ok (mem s) /\ held s ⊆ live (mem s) /\ match ready s with Some a => a ∈ held s | None => True end;
  live s := live (mem s) ∖ held s;
  alloc := held_alloc;
  dispose := held_dispose
}.
Next Obligation.
  intros [m h [a|]] (Hm & Hh & Hr); cbn [mem held ready] in *; unfold held_alloc; cbn [mem held ready].
  - exists a, (mkheld m (h ∖ {[a]}) None). cbn [mem held ready]. split; [done|]. split; [set_solver|]. split.
    + apply set_eq. intros x. rewrite elem_of_union, !elem_of_difference, elem_of_singleton. destruct (decide (x = a)) as [->|]; set_solver.
    + split; [done|]. set_solver.
  - destruct (alloc_law m Hm) as (a & m' & -> & Hn & Hl & Hm'). cbn [mbind option_bind]. eexists _, _. split; [done|]. cbn [mem held ready].
    rewrite Hl. split; [set_solver|]. split; [set_solver|]. split; [done|]. set_solver.
Qed.
Next Obligation.
  intros [m h r] a (Hm & Hh & Hr) Ha; cbn [mem held ready] in *. unfold held_dispose. cbn [mem held ready].
  destruct (dispose_law m a Hm) as (m' & -> & Hl & Hm'); [set_solver|]. cbn [mbind option_bind]. eexists. split; [done|].
  cbn [mem held ready]. rewrite Hl. split; [set_solver|]. split; [done|]. split; [|done]. set_solver.
Qed.

End Held.
Arguments held_store : clear implicits.

(** ** Attempts *)

(** What happens: the application connects, with what [uv_tcp_connect]
    returns; libuv reports the end of an attempt, with what the application
    does in [onConnect]; the handle of a failed attempt is closed; anything
    that happens to connections. *)
Inductive event :=
| Dial (r : Z)
| Dialed (a : nat) (status : Z) (acts : list action)
| HandleGone (a : nat)
| Conn (e : Lifecycle.event).

Section World.
Context {S : Type} `{!Allocator S} (k : kind).

Abbreviation base_world := (@world (held_store S)).

(** The connections; the requests libuv has, by their objects; the handles
    that close without a callback; the calls of [onConnect]. *)
Record cworld := mkcworld { base : base_world; pending : gset nat; closing : gset nat; sockets : list (option nat) }.

Definition set_store (s : held_store S) (w : base_world) : base_world := mkworld s (conns w) (log w).

(** [TcpClient::connect]: the object and the handle are made; when
    [uv_tcp_connect] fails at once, nothing is undone. *)
Definition connect (r : Z) (w : cworld) : option cworld :=
  let s := store (base w) in
  '(a, m) ← alloc (mem s);
  let b := set_store (mkheld m ({[a]} ∪ held s) (ready s)) (base w) in
  Some (mkcworld b (if r <? 0 then pending w else {[a]} ∪ pending w) (closing w) (sockets w)).

(** The callback of the request: a failed attempt closes the handle without a
    callback and reports no connection; a connection starts to read. *)
Definition on_connect (a : nat) (status : Z) (acts : list action) (w : cworld) : option cworld :=
  if status <? 0 then
    b ← perform acts (base w);
    Some (mkcworld b (pending w ∖ {[a]}) ({[a]} ∪ closing w) (sockets w ++ [None]))
  else
    let s := store (base w) in
    b ← on_new_connection (fun _ => acts) (set_store (mkheld (mem s) (held s) (Some a)) (base w));
    Some (mkcworld b (pending w ∖ {[a]}) (closing w) (sockets w ++ [Some a])).

Definition step (e : event) (w : cworld) : option cworld :=
  match e with
  | Dial r => connect r w
  | Dialed a status acts => on_connect a status acts w
  | HandleGone a => Some (mkcworld (base w) (pending w) (closing w ∖ {[a]}) (sockets w))
  | Conn e => b ← Lifecycle.step k e (base w); Some (mkcworld b (pending w) (closing w) (sockets w))
  end.

Fixpoint run (es : list event) (w : cworld) : option cworld :=
  match es with [] => Some w | e :: es => w ← step e w; run es w end.

(** When libuv may report what. *)
Definition enabled (e : event) (w : cworld) : Prop :=
  match e with
  | Dial _ => True
  | Dialed a _ _ => a ∈ pending w
  | HandleGone a => a ∈ closing w
  | Conn (Connect _) => False
  | Conn e => Lifecycle.enabled k e (base w)
  end.

(** The application acts on the connections it has been given. *)
Definition acts_ok (e : event) (w : cworld) : Prop :=
  match e with
  | Dialed a status acts =>
    if status <? 0 then Forall (good_action False (base w)) acts
    else Forall (good_action False (mkworld (store (base w)) (<[a := mkconn Open TcpSocket.create]> (conns (base w))) (log (base w)))) acts
  | Conn e => Forall (good_action False (during e (base w))) (actions_of e (base w))
  | _ => True
  end.

Fixpoint proper (es : list event) (w : cworld) : Prop :=
  match es with
  | [] => True
  | e :: es => enabled e w /\ acts_ok e w /\ match step e w with Some w => proper es w | None => True end
  end.

(** The attempts of a history that failed. *)
Definition failed (e : event) : bool := match e with Dial r => r <? 0 | Dialed _ status _ => status <? 0 | _ => false end.

End World.
Arguments cworld : clear implicits.
End Client.

Module ClientProps.
Import Lifecycle LifecycleProps Client.

Section Safety.
Context {S : Type} `{!Allocator S} (k : kind).

Abbreviation base_world := (@world (held_store S)).
Abbreviation cworld := (cworld S).

(** ** What keeps the objects of attempts *)

Lemma perform_store acts (w w' : base_world) : perform acts w = Some w' -> store w' = store w.
Proof.
  revert w. induction acts as [|[a p|a] acts IH]; intros w; cbn [perform]; [intros E; by injection E as <-|..].
  - unfold send, with_queue. destruct (conns w !! a) as [c|]; cbn [mbind option_bind]; [|done].
    destruct (TcpSocket.write p (queue c)); cbn [mbind option_bind]; [|done]. by intros ->%IH.
  - unfold close. destruct (conns w !! a) as [[[] q]|]; cbn [mbind option_bind state]; [|done..]. by intros ->%IH.
Qed.

Lemma on_msgbuffer_store a rs (w w' : base_world) : on_msgbuffer a rs w = Some w' -> store w' = store w.
Proof.
  revert w. induction rs as [|r rs IH]; intros w; cbn [on_msgbuffer]; [intros E; by injection E as <-|].
  destruct (react a r w) as [w1|] eqn:E1; cbn [mbind option_bind]; [|done]. intros ->%IH.
  destruct r as [acts|acts|]; cbn [react] in E1; [by apply perform_store in E1..|].
  assert (perform [AClose a] w = Some w1) as E'%perform_store by (cbn; by rewrite E1). done.
Qed.

(** A class that leaves closing to the peer: NetConnect. *)
Definition passive (k : kind) : Prop := closes_after_write k = false /\ closes_on_read k = false /\ refuses k = false.

Lemma passive_read rs a : passive k -> Forall (can_react k) rs -> closes rs = 0%nat /\ refusals a rs = [].
Proof.
  intros (_ & Hc & Hr). induction 1 as [|r rs H _ [IH1 IH2]]; [done|]. destruct r; cbn in H; [by split|congruence|congruence].
Qed.

Lemma step_held e (w w' : base_world) : (forall acts, e <> Connect acts) -> Lifecycle.step k e w = Some w' ->
  held (store w') = held (store w).
Proof.
  intros Hne E. destruct e as [acts|a acts|a|a b|a acts|acts]; cbn [Lifecycle.step] in E.
  - by destruct (Hne acts).
  - by apply on_msgbuffer_store in E as ->.
  - assert (perform [AClose a] w = Some w') as E'%perform_store by (cbn; by rewrite E). by rewrite E'.
  - unfold echo_write in E. destruct (conns w !! a) as [c|]; cbn [mbind option_bind] in E; [|done].
    set (w1 := set_conn a _ w) in E. change (held (store w)) with (held (store w1)).
    destruct (if closes_after_write k && b then close a w1 else Some w1) as [w2|] eqn:E2; cbn [mbind option_bind] in E; [|done].
    assert (store w2 = store w1) as <-.
    { destruct (_ && _); [|by injection E2 as <-]. assert (perform [AClose a] w1 = Some w2) as E'%perform_store by (cbn; by rewrite E2). by rewrite E'. }
    unfold with_queue in E. destruct (conns w2 !! a); cbn [mbind option_bind] in E; [|done].
    destruct (TcpSocket.on_writecomplete _); cbn [mbind option_bind] in E; [|done]. by injection E as <-.
  - unfold on_uv_close in E. destruct (perform acts w) as [w1|] eqn:E1; cbn [mbind option_bind] in E; [|done]. apply perform_store in E1 as <-.
    destruct (gives_back k).
    + cbn [store say dispose held_allocator] in E. unfold held_dispose in E. destruct (dispose a (mem (store w1))); cbn [mbind option_bind] in E; [|done].
      by injection E as <-.
    + cbn [conns say] in E. destruct (conns w1 !! a); cbn [mbind option_bind] in E; [|done]. by injection E as <-.
  - by apply perform_store in E as ->.
Qed.

(** ** The invariant *)

(** [n] attempts have failed: each holds an object, as those that are
    pending do. *)
Record cinv (n : nat) (w : cworld) : Prop := {
  ci_base : inv [] (base w);
  ci_pending : pending w ⊆ held (store (base w));
  ci_count : size (held (store (base w))) = (size (pending w) + n)%nat
}.

Lemma inv_store R (s : held_store S) (w : base_world) : inv R w -> alloc_ok s -> live s = live (store w) -> inv R (set_store s w).
Proof. intros [H1 H2 H3 H4] Hs Hl. split; [done|change (live s = dom (conns w)); by rewrite Hl|done|done]. Qed.

Lemma dial_ok n r w : cinv n w -> exists w', Client.step k (Dial r) w = Some w' /\ cinv (if (r <? 0)%Z then n + 1 else n)%nat w'.
Proof.
  intros [B P C]. cbn [Client.step]. unfold connect. pose proof (inv_alloc _ _ B) as (Hm & Hh & Hr).
  destruct (alloc_law (mem (store (base w))) Hm) as (a & m & -> & Hn & Hl & Hm'). cbn [mbind option_bind].
  eexists. split; [done|]. assert (a ∉ held (store (base w))) as Ha by set_solver.
  assert (inv [] (set_store (mkheld m ({[a]} ∪ held (store (base w))) (ready (store (base w)))) (base w))) as B'.
  { apply inv_store; [done| |].
    - split; [done|]. cbn [mem held ready]. rewrite Hl. split; [set_solver|]. destruct (ready (store (base w))); [set_solver|done].
    - cbn [live held_allocator mem held]. rewrite Hl. apply set_eq. intros x. rewrite !elem_of_difference, !elem_of_union, !elem_of_singleton.
      split; [|intros [? ?]; split; [by right|intros [->|?]; done]]. intros [[->|?] Hx]; [by destruct Hx; left|]. split; [done|]. intros ?. apply Hx. by right. }
  assert (size ({[a]} ∪ held (store (base w))) = Datatypes.S (size (held (store (base w))))) as Es by (rewrite size_union, size_singleton; [done|set_solver]).
  destruct (Z.ltb_spec r 0); constructor; cbn [base pending set_store store held]; [done|set_solver|lia|done|set_solver|].
  rewrite (size_union {[a]} (pending w)), size_singleton by set_solver. lia.
Qed.

Lemma dialed_ok n a status acts w : cinv n w -> a ∈ pending w -> acts_ok (Dialed a status acts) w ->
  exists w', Client.step k (Dialed a status acts) w = Some w' /\ cinv (if (status <? 0)%Z then n + 1 else n)%nat w'.
Proof.
  intros [B P C] Ha Hg. cbn [Client.step acts_ok] in *. unfold on_connect.
  assert (size (pending w) = Datatypes.S (size (pending w ∖ {[a]}))) as Es.
  { rewrite size_difference, size_singleton by set_solver. assert (size ({[a]} : gset nat) <= size (pending w))%nat as H; [apply subseteq_size; set_solver|].
    rewrite size_singleton in H. lia. }
  destruct (Z.ltb_spec status 0).
  - destruct (perform_ok [] acts (base w) B Hg) as (b & E & B' & _). rewrite E. cbn [mbind option_bind]. apply perform_store in E.
    eexists. split; [done|]. constructor; cbn [base pending]; [done|rewrite E; set_solver|rewrite E; lia].
  - set (s := mkheld _ _ _). pose proof (inv_alloc _ _ B) as (Hm & Hh & _).
    assert (inv [] (set_store s (base w))) as B1 by (apply inv_store; [done|split_and!; [done|done|set_solver]|done]).
    destruct (lifecycle_step_ok net [] (Connect (fun _ => acts)) (set_store s (base w)) eq_refl I B1 I) as (b & E & B2).
    { cbn [actions_of during set_store store alloc held_allocator]. unfold held_alloc. cbn [ready s].
      eapply usable_good; [|exact Hg]. done. }
    cbn [Lifecycle.step] in E. rewrite E. cbn [mbind option_bind]. eexists. split; [done|].
    assert (held (store b) = held (store (base w)) ∖ {[a]}) as Eh.
    { unfold on_new_connection in E. cbn [set_store store alloc held_allocator] in E. unfold held_alloc in E. cbn [ready s mbind option_bind] in E.
      apply perform_store in E. by rewrite E. }
    constructor; cbn [base pending]; [done|rewrite Eh; set_solver|]. rewrite Eh, size_difference, size_singleton by set_solver. lia.
Qed.

Lemma client_step_ok n e w : passive k -> cinv n w -> Client.enabled k e w -> acts_ok e w ->
  exists w', Client.step k e w = Some w' /\ cinv (n + if failed e then 1 else 0)%nat w'.
Proof.
  intros Hk I He Hg. destruct e as [r|a status acts|a|e].
  - destruct (dial_ok n r w I) as (w' & E & I'). exists w'. split; [done|]. cbn [failed]. destruct (r <? 0); [done|by rewrite Nat.add_0_r].
  - destruct (dialed_ok n a status acts w I He Hg) as (w' & E & I'). exists w'. split; [done|]. cbn [failed]. destruct (status <? 0); [done|by rewrite Nat.add_0_r].
  - destruct I as [B P C]. eexists. split; [done|]. cbn [failed]. rewrite Nat.add_0_r. by constructor.
  - destruct I as [B P C]. cbn [failed Client.step acts_ok] in *. rewrite Nat.add_0_r.
    assert (forall acts, e <> Connect acts) as Hne by (intros acts ->; done).
    assert (Lifecycle.enabled k e (base w)) as He' by (by destruct e).
    assert (closes_once e /\ refused e = []) as [H1 Hr].
    { destruct e as [|a rs| | | |]; try done. destruct He' as [Hrs _]. destruct (passive_read rs a Hk Hrs) as [E1 E2]. cbn. rewrite E1, E2. split; [lia|done]. }
    destruct (lifecycle_step_ok k [] e (base w) (proj1 Hk) H1 B He' Hg) as (b & E & B'). rewrite Hr in B'. rewrite E. cbn [mbind option_bind].
    apply step_held in E; [|done]. eexists. split; [done|]. constructor; cbn [base pending]; rewrite ?E; done.
Qed.

Definition failures (es : list Client.event) : nat := length (filter (fun e => failed e = true) es).

Lemma client_run_ok es : passive k -> forall n w, cinv n w -> Client.proper k es w ->
  exists w', Client.run k es w = Some w' /\ cinv (n + failures es)%nat w'.
Proof.
  intros Hk. induction es as [|e es IH]; intros n w I Hp; [exists w; by rewrite Nat.add_0_r|].
  destruct Hp as (He & Hg & Hp). cbn [Client.run]. destruct (client_step_ok n e w Hk I He Hg) as (w1 & E & I1).
  rewrite E in Hp |- *. cbn [mbind option_bind]. destruct (IH _ w1 I1 Hp) as (w' & E' & I'). exists w'. split; [done|].
  replace (n + failures (e :: es))%nat with (n + (if failed e then 1 else 0) + failures es)%nat; [done|].
  unfold failures. rewrite filter_cons. destruct (failed e); [rewrite decide_True by done|rewrite decide_False by done]; cbn [length]; lia.
Qed.

(** A client over any interleaving of attempts and of what happens to the
    connections made: nothing is closed twice or used after it was given
    back, every connection made is reported closed at most once, and the
    objects that are not given back are the connections, one for each attempt
    under way, and one for each attempt that ever failed. *)
Theorem client_leaks es s0 : passive k -> alloc_ok s0 -> live s0 = ∅ ->
  let w0 := mkcworld (mkworld (mkheld s0 ∅ None) ∅ []) ∅ ∅ [] in Client.proper k es w0 ->
  exists w, Client.run k es w0 = Some w /\
    size (live (mem (store (base w)))) = (size (dom (conns (base w))) + size (pending w) + failures es)%nat /\
    forall a, count (OnAccept a) (log (base w)) = (count (OnClose a) (log (base w)) + (if usable (base w) a then 1 else 0))%nat.
Proof.
  intros Hk Hok Hl w0 Hp. destruct (client_run_ok es Hk 0 w0) as (w & E & [B P C]); [|done|].
  - constructor; cbn; [|done|done]. split; cbn; [split_and!; [done|set_solver|done]|rewrite Hl; by rewrite difference_empty_L, dom_empty_L|done|done].
  - exists w. split; [done|]. split; [|intros a; pose proof (inv_count _ _ B a) as Hc; cbn in Hc; lia]. cbn in C. rewrite <- Nat.add_assoc, <- C, <- (inv_live _ _ B).
    pose proof (inv_alloc _ _ B) as (_ & Hh & _). cbn [live held_allocator]. rewrite <- size_union by set_solver. f_equal.
    apply set_eq. intros x. rewrite elem_of_union, elem_of_difference. destruct (decide (x ∈ held (store (base w)))); set_solver.
Qed.

End Safety.
End ClientProps.
