(* ===== verification/HttpPool.v ===== *)
(** * HttpPool: the connections of an HTTP server

    The pool of HttpServer.cpp ([createSocket], [onClose]) over the objects of
    HttpConnect.cpp: the first request on a connection given out again, if its
    URL has a path, is answered as on a new one.  What stays of an earlier
    connection is the capacity of a vector and the URL object, whose marks the
    next request's URL overwrites (UrlReuse); a URL without a path would show
    the place an earlier one chose for it ([UrlProps.url_without_path]). *)
From Stdlib Require Import String.
From stdpp Require Import gmap.
From S2P Require Import Prelude ByteBuf MsgBuf TcpSock Llhttp LlhttpRun Url HttpConn UrlReuse HttpConnProps Pool.

Module HttpPool.
Import ObjectPool TcpRecvProps HttpConnProps HttpConnect.

(** An [HttpConnect]: its receive side and its send queue. *)
Abbreviation conn := (HttpConnect.t * TcpSocket.t)%type.

Section Pool.
(** The capacity of a new packet's vector. *)
Context (cap0 : nat).

(** [HttpConnect::HttpConnect], [HttpConnect::zero], [TcpSocket::release]. *)
#[export] Instance http_object : PoolObject conn := {
  new_T := (HttpConnect.create cap0, TcpSocket.create);
  zero c := (HttpConnect.zero (fst c), snd c);
  release c := (fst c, TcpSocket.release (snd c))
}.

#[local] Abbreviation pool := (@ObjectPool.t conn).

(** What happens to the pool: [createSocket], the callbacks of a connection,
    which change the object as they do, and [onClose]. *)
Inductive pool_event := CreateSocket | Use (a : nat) (c : conn) | CloseSocket (a : nat).

Definition pool_step (e : pool_event) (p : pool) : option pool :=
  match e with
  | CreateSocket => snd <$> comm_create p
  | Use a c =>
    if decide (a ∈ in_use p) then
      o ← heap p !! a;
      Some (ObjectPool.mk (max_free p) (obj_count_ p) (objects_ p) (<[a := mkobject (isEnabledPoolObject o) c]> (heap p)) (ObjectPool.fresh p))
    else None
  | CloseSocket a => if decide (a ∈ in_use p) then comm_reclaim a p else None
  end.

Fixpoint pool_run (es : list pool_event) (p : pool) : option pool :=
  match es with [] => Some p | e :: es => p ← pool_step e p; pool_run es p end.

(** The free objects have no packets to send. *)
Definition drained (c : conn) : Prop := TcpSocket.mSendPackets (snd c) = [] /\ TcpSocket.mSending (snd c) = [].
Definition clean (p : pool) : Prop := forall a o, a ∈ objects_ p -> heap p !! a = Some o -> drained (body o).

Lemma release_drained c : drained (release c).
Proof. done. Qed.

Lemma comm_create_clean p a p' : wf p -> clean p -> comm_create p = Some (a, p') -> clean p'.
Proof.
  intros Hp Hcl E. destruct (comm_create_spec p Hp) as (a' & p1 & E1 & Hp1 & _ & Hu & Ho & _). rewrite E in E1.
  injection E1 as <- <-. intros b o Hb Hbo.
  assert (b <> a) as Hne.
  { intros ->. assert (a ∈ in_use p') as [_ Hn]%elem_in_use by (rewrite Hu; set_solver +). done. }
  rewrite Ho in Hbo by done. apply (Hcl b o); [|done].
  destruct (decide (b ∈ objects_ p)) as [|Hn]; [done|]. exfalso.
  assert (b ∈ in_use p') as [_ Hn']%elem_in_use; [|done]. rewrite Hu, elem_of_union. right. apply elem_in_use. split; [by eexists|done].
Qed.

Lemma pool_step_ok e p p' : wf p -> clean p -> pool_step e p = Some p' -> wf p' /\ clean p'.
Proof.
  intros Hp Hcl E. destruct e as [|a c|a]; cbn [pool_step] in E.
  - destruct (comm_create p) as [[a p1]|] eqn:Ec; [|done]. injection E as <-. split; [|by eapply comm_create_clean].
    destruct (comm_create_spec p Hp) as (a' & p1' & E1 & Hp1 & _). rewrite Ec in E1. by injection E1 as <- <-.
  - destruct (decide (a ∈ in_use p)) as [[[o Ho] Hn]%elem_in_use|]; [|done]. rewrite Ho in E. cbn in E. injection E as <-.
    split; [by apply (set_body_wf p a o c)|]. intros b o' Hb Hbo. cbn in Hb, Hbo.
    rewrite lookup_insert_ne in Hbo by (intros ->; done). by apply (Hcl b o').
  - destruct (decide (a ∈ in_use p)) as [Ha|]; [|done].
    destruct (comm_reclaim_spec p a Hp Ha) as (p1 & E1 & Hp1 & Hu & Ho & Hdel & Hkeep). rewrite E in E1. injection E1 as <-.
    split; [done|]. intros b o Hb Hbo. destruct (decide (b = a)) as [->|Hne].
    + destruct (Z_lt_le_dec (obj_count_ p) (max_free p)) as [Hr|Hr].
      * destruct (Hkeep Hr) as [_ Hb']. rewrite Hbo in Hb'. destruct (heap p !! a) as [o0|]; [|done]. cbn in Hb'.
        injection Hb' as ->. apply release_drained.
      * rewrite (Hdel Hr) in Hbo. done.
    + rewrite Ho in Hbo by done. apply (Hcl b o); [|done].
      destruct (decide (b ∈ objects_ p)) as [|Hn]; [done|]. exfalso.
      assert (b ∈ in_use p') as [_ Hn']%elem_in_use; [|done].
      rewrite Hu, elem_of_difference, elem_of_singleton. split; [|done]. apply elem_in_use. split; [by eexists|done].
Qed.

Lemma pool_run_ok es : forall p p', wf p -> clean p -> pool_run es p = Some p' -> wf p' /\ clean p'.
Proof.
  induction es as [|e es IH]; intros p p' Hp Hcl E; cbn in E; [by injection E as <-|].
  destruct (pool_step e p) as [p1|] eqn:E1; [|done]. destruct (pool_step_ok e p p1 Hp Hcl E1). by apply (IH p1).
Qed.

Lemma zero_ready s : HttpConnect.zero s = ready (capacity s) (Llhttp.data (m_parser s)).
Proof. done. Qed.

(** The user is called the same for two parses of a head that agree. *)
Lemma request_event_same (q q' : HttpParser.t) body : Llhttp.fields q' = Llhttp.fields q ->
  Url.m_buff (HttpParser.getUrl q') = Url.m_buff (HttpParser.getUrl q) ->
  UrlReuse.agree (Url.m_url (HttpParser.getUrl q)) (Url.m_url (HttpParser.getUrl q')) ->
  Url.has_field Url.UF_PATH (Url.m_url (HttpParser.getUrl q)) = true ->
  request_event q' body = request_event q body.
Proof.
  intros Hf Hb Ha Hp. unfold request_event, HttpParser.method, Url.getPath, Url.haveParam, Url.getParam, Url.field_view.
  rewrite Hf, Hb, (UrlReuse.agree_has Url.UF_QUERY _ _ Ha). destruct (UrlReuse.agree_place _ _ _ Ha Hp) as [-> ->].
  destruct (Url.has_field Url.UF_QUERY _) eqn:Hq; [|done]. by destruct (UrlReuse.agree_place _ _ _ Ha Hq) as [-> ->].
Qed.

(** A request whose head a new parser takes, and whose URL has a path, is given
    to the user as the new parser says, by any connection that waits. *)
Lemma request_received_reused (grow : nat -> nat -> nat) cap this size fuel hd data b bs q ev buf :
  Z.of_nat size < 2 ^ 31 -> head_ok hd = true ->
  HttpParser.parser hd (HttpConnProps.fresh Url.ParseUrl_create) = Done (true, q) ->
  Url.has_field Url.UF_PATH (Url.m_url (HttpParser.getUrl q)) = true ->
  Z.of_nat (length data) = body_len q -> request_event q data = Some ev -> b ++ concat bs = data ->
  idle size buf -> (length (hd ++ b) <= size)%nat -> 0 ∈ drop (length (hd ++ b)) (MessageBuffer.storage buf) ->
  Forall (chunk_ok size) bs -> (length (hd ++ data) <= cap)%nat ->
  exists buf' this', TcpSocketBase.receive (H := HttpConnect_handler grow) (S (S fuel)) ((hd ++ b) :: bs) buf (ready cap this) =
    Done (buf', ready cap this', [ev]) /\ idle size buf'.
Proof.
  intros Hsz Hok Hq Hpath Hbody Hev. destruct (UrlReuse.parser_reused hd this q Hq Hpath) as (q' & Hq' & Hf & Hbuf & Ha).
  intros. destruct (request_received grow cap hd data q' ev) with (size := size) (fuel := fuel)
    (this := this) (b := b) (bs := bs) (buf := buf) as (buf' & Hrec & Hidle); try done.
  - unfold body_len, HttpParser.method, HttpParser.contentLen. by rewrite Hf.
  - by rewrite (request_event_same q q').
  - by exists buf', (Llhttp.data q').
Qed.

(** C20.  An HTTP server and its pool: after any history of connections, whatever
    their callbacks did to them, [createSocket] gives a connection that is not
    in use and has nothing to send, and its first request is served as a new
    connection serves it.  For every request whose head, ended by its first
    empty line, a new parser takes and finds a path in, the head in the first
    read (which leaves a NUL behind it in the buffer) and the body cut in any
    way, both within the capacity of the vector of the one and of the other: the
    connection given out and a new one ([HttpConnect.create]) give the user the
    same call, once, and both then wait for the next request. *)
Theorem http_pooled_connection_serves (grow : nat -> nat -> nat) n es p : in_i 32 n -> pool_run es (ObjectPool.create n) = Some p ->
  exists a p' o, comm_create p = Some (a, p') /\ a ∉ in_use p /\ heap p' !! a = Some o /\ drained (body o) /\
    forall (size fuel : nat) (hd data b : list Z) (bs : list (list Z)) (q : HttpParser.t) (ev : event) (buf : MessageBuffer.t),
      Z.of_nat size < 2 ^ 31 -> head_ok hd = true ->
      HttpParser.parser hd (HttpConnProps.fresh Url.ParseUrl_create) = Done (true, q) ->
      Url.has_field Url.UF_PATH (Url.m_url (HttpParser.getUrl q)) = true ->
      Z.of_nat (length data) = body_len q -> request_event q data = Some ev -> b ++ concat bs = data ->
      idle size buf -> (length (hd ++ b) <= size)%nat -> 0 ∈ drop (length (hd ++ b)) (MessageBuffer.storage buf) ->
      Forall (chunk_ok size) bs -> (length (hd ++ data) <= Nat.min cap0 (capacity (fst (body o))))%nat ->
      exists buf1 this1 buf2 this2,
        TcpSocketBase.receive (H := HttpConnect_handler grow) (S (S fuel)) ((hd ++ b) :: bs) buf (fst (body o)) =
          Done (buf1, ready (capacity (fst (body o))) this1, [ev]) /\ idle size buf1 /\
        TcpSocketBase.receive (H := HttpConnect_handler grow) (S (S fuel)) ((hd ++ b) :: bs) buf (HttpConnect.create cap0) =
          Done (buf2, ready cap0 this2, [ev]) /\ idle size buf2.
Proof.
  intros Hn Hrun. destruct (pool_run_ok es (ObjectPool.create n) p) as [Hp Hcl]; [by apply create_wf| |done|].
  { by intros a o ?%elem_of_nil. }
  destruct (comm_create_spec p Hp) as (a & p' & E & Hp' & Ha & Hu & _ & o & Ho & Hb). exists a, p', o.
  split; [done|]. split; [done|]. split; [done|].
  set (old := match heap p !! a with Some o => body o | None => new_T end) in Hb.
  assert (drained old) as Hold.
  { unfold old. destruct (heap p !! a) as [o0|] eqn:E0; [|done]. apply (Hcl a o0); [|done].
    destruct (decide (a ∈ objects_ p)) as [|Hno]; [done|]. exfalso. apply Ha, elem_in_use. by split; [eexists|]. }
  split; [by rewrite Hb|].
  assert (fst (body o) = ready (capacity (fst old)) (Llhttp.data (m_parser (fst old)))) as Hr by (rewrite Hb; apply zero_ready).
  assert (capacity (fst (body o)) = capacity (fst old)) as Hcap by (by rewrite Hr).
  intros size fuel hd data b bs q ev buf. intros. rewrite Hcap in *. rewrite Hr.
  destruct (request_received_reused grow (capacity (fst old)) (Llhttp.data (m_parser (fst old))) size fuel hd data b bs q ev buf)
    as (buf1 & this1 & Hrun1 & Hi1); try done; [lia|].
  destruct (request_received_reused grow cap0 Url.ParseUrl_create size fuel hd data b bs q ev buf)
    as (buf2 & this2 & Hrun2 & Hi2); try done; [lia|].
  by exists buf1, this1, buf2, this2.
Qed.

End Pool.
(** A connection whose request was cut short, closed, and given out again. *)
Definition history : list pool_event :=
  [CreateSocket; Use 0 (set_residue 7 (HttpConnect.create 64), TcpSocket.mk [TcpSocket.mkp [1] 1] [] 0 []); CloseSocket 0].

(** Its first request then is the POST with three bytes behind its head. *)
Lemma http_pooled_connection_serves_witness : exists p, pool_run 64 history (ObjectPool.create 10) = Some p /\
  exists a p' o, comm_create (PoolObject0 := http_object 64) p = Some (a, p') /\ a ∉ in_use p /\ heap p' !! a = Some o /\
    drained (body o) /\
    exists buf' this', TcpSocketBase.receive (H := HttpConnect_handler double) 2 [post_head "3" ++ [120]; [121; 122]] small (fst (body o)) =
      Done (buf', ready 64 this', [OnPost (chars "/a") [120; 121; 122]]).
Proof.
  assert (exists p, pool_run 64 history (ObjectPool.create 10) = Some p) as [p Hp] by (eexists; reflexivity).
  exists p. split; [exact Hp|].
  destruct (http_pooled_connection_serves 64 double 10 history p) as (a & p' & o & H1 & H2 & H3 & H4 & H5);
    [split; reflexivity || discriminate|exact Hp|].
  exists a, p', o. split; [exact H1|]. split; [exact H2|]. split; [exact H3|]. split; [exact H4|].
  assert (capacity (fst (body o)) = 64%nat) as Hcap.
  { vm_compute in Hp. injection Hp as <-. vm_compute in H1. injection H1 as <- <-. vm_compute in H3. by injection H3 as <-. }
  destruct (H5 64%nat 0%nat (post_head "3") [120; 121; 122] [120] [[121; 122]] (parsed (post_head "3"))
    (OnPost (chars "/a") [120; 121; 122]) small) as (b1 & t1 & b2 & t2 & H6 & _); rewrite Hcap in *.
  1-7: vm_compute; reflexivity.
  - apply small_idle.
  - apply Nat.leb_le. reflexivity.
  - vm_compute. left.
  - constructor; [|constructor]. apply bytes_chunk_ok; [discriminate|reflexivity|reflexivity].
  - apply Nat.leb_le. reflexivity.
  - exists b1, t1. exact H6.
Defined.

End HttpPool.
